(* ===== verification/_CoqProject ===== *)
-Q . S2P
Prelude.v
PyFloat.v
NumMicrobatches.v
RankGroups.v
ParallelState.v
ParallelStateProofs.v
DataSamplers.v
BytepsOps.v
BytepsCollectives.v
GradBuffer.v
GradBufferProofs.v
DistOpt.v
DistOptProofs.v
DistOptInit.v
DistOptCheckpoint.v
DistOptTheorems.v
DistOptUpdate.v
GradScaler.v
OptimizerStep.v
ParamScheduler.v
ParamSchedulerProofs.v
ChainedOptimizer.v
RerunMachine.v
RerunProofs.v
RerunTheorems.v
RerunTracker.v
BucketGroup.v
BucketGroupProofs.v
Ddp.v
DdpProofs.v
Network.v
Pipeline.v
PipelineProofs.v
PipelineTheorems.v
ScheduleTable.v
DistCkpt.v
DistCkptProofs.v
DistCkptSave.v
DistCkptLoad.v
DistCkptValidation.v
DistCkptValidationProofs.v
DistCkptTheorems.v
LayerLayout.v
LayerLayoutProofs.v
LayerSplit.v
LayerSplitProofs.v
Sha1.v
SglangByteps.v
SglangProofs.v
Matrix.v
Torch.v
TpMappings.v
TpMappingsProofs.v
TorchReference.v
TpMappingsTheorems.v
TpLinear.v
TpLinearProofs.v
TpLayers.v
TpReference.v
VocabParallel.v
VocabParallelProofs.v
CrossEntropy.v
CrossEntropyProofs.v
VocabReference.v
