(* ===== verification/Prelude.v ===== *)
(** * Data-, tensor- and pipeline-parallel training over BytePS

    This library models and verifies the distributed core of Megatron-DPU:
    Megatron-LM whose data- and tensor-parallel all-reduces can go through BytePS
    push-pull instead of NCCL, and the BytePS all-reduce path of the SGLang copy
    in the same repository.  It is a shallow embedding: every Python function is
    a Rocq function, in the error monad [res] when it only raises, in the state
    and error monad [M S] when it changes state; a raised exception keeps the
    state that the code had left.

    ** The program and how its parts interact

    A job starts by calling [parallel_state.initialize_model_parallel] on every
    rank: it cuts the world of ranks into groups and creates the process groups.
    [DistributedDataParallel] wraps the model: it puts the parameters of each
    dtype into a buffer, cuts the buffer into buckets, and the buckets into bucket
    groups.  During an iteration the pipeline schedule runs the forward and backward
    passes of the microbatches, exchanging activations and gradients with the
    neighbouring stages; when the gradients of a group are all there, the group
    starts its reduction, over BytePS under a name built from the parallel state,
    and the end of the iteration waits for all of them.  The optimizer then takes the
    gradients: the distributed optimizer gives every data-parallel rank a part of
    every buffer, keeps float32 copies and moments of that part only, skips the step
    when a scaled gradient overflows, and the updated parts are gathered again.  The number of
    microbatches comes from a calculator with an optional batch-size ramp-up.  In
    SGLang, [GroupCoordinator.all_reduce] sends the reductions of the layers to
    the same bindings.  Inside a layer the tensor-parallel ranks hold shards of the
    weights: column- and row-parallel linear layers, the embedding and the cross entropy of the
    vocabulary exchange activations and gradients at the borders of tensor-parallel regions, some
    of them over BytePS.

    ** Files

    Sources are under [src/Megatron-LM/megatron/core/] unless said otherwise.

    - [Prelude]: results and exceptions, the monads with their frame logic
      ([always], database [frame]) and relational logic ([together]), Python
      integers, lists and strings, tactics.
    - [PyFloat]: Python floats as IEEE-754 binary64 on the Standard Library's
      [spec_float]; [ceil(a / b) * b] is exact below 2^53.
    - [NumMicrobatches]: [num_microbatches_calculator.py].  Modules [Constant] and
      [Rampup], an instance each of the class of the abstract base class; the
      module globals as a state.
    - [RankGroups]: the rank generator of [parallel_state.py]; mixed-radix theory.
    - [ParallelState], [ParallelStateProofs]: [parallel_state.py].  The module
      globals are the record [pstate]; [initialize_model_parallel] is composed of
      one definition per section of the function; getters, setters, destruction.
    - [DataSamplers]: [src/Megatron-LM/megatron/legacy/data/data_samplers.py]; a
      generator is the list it yields.
    - [BytepsOps]: [src/byteps/byteps/torch/ops.py] over [ops.cc]: declared names,
      push-pull, handles.
    - [BytepsCollectives]: [distributed/byteps_collectives.py], the naming in
      [tensor_parallel/layers.py] and the reduction in [tensor_parallel/mappings.py].
    - [GradBuffer], [GradBufferProofs]: [_ParamAndGradBuffer] and
      [_ParamAndGradBucket] of [distributed/param_and_grad_buffer.py]; a tensor
      that views a buffer is an index range.
    - [DistOpt]: [optimizer/distrib_optimizer.py].  A tensor is a slice of a storage
      and the state of a rank ([store]) holds the values of the storages, so views that
      share memory are shared here too; the collectives of the checkpoint are functions
      on the list of all ranks.  [DistOptProofs] (ranges), [DistOptInit] (constructor),
      [DistOptCheckpoint] (save and load), [DistOptTheorems] and [DistOptUpdate]
      (gradients to shards, main parameters to the buffer, all-gather).
    - [GradScaler]: [optimizer/grad_scaler.py] on IEEE-754 binary32.
    - [OptimizerStep]: the step of [MixedPrecisionOptimizer] in
      [optimizer/optimizer.py] with [optimizer/clip_grads.py], on the list of the ranks that
      reduce gradient statistics together; [ChainedOptimizer]: the class of that name.
    - [ParamScheduler], [ParamSchedulerProofs]: [optimizer_param_scheduler.py] on IEEE-754 binary64; the
      scheduler with the parameter groups that it writes to is the state.
    - [RerunMachine]: [rerun_state_machine.py], one process as a state; [RerunProofs]
      (transitions, passes and what they find), [RerunTheorems] (all processes of a
      job: a training step, the resumed job), [RerunTracker] (the tracker file).
    - [BucketGroup], [BucketGroupProofs]: [_ParamAndGradBucketGroup] and
      [partition_buckets] of the same file; the groups of a process are the state
      [world], a group is named by its position because groups refer to each other.
    - [Ddp], [DdpProofs]: [distributed/distributed_data_parallel.py], constructor,
      hooks and methods, and a training iteration as the schedules drive it.
    - [Network]: programs of communicating processes, their interleavings as a
      step relation, and a theory of scripts that gives termination, deadlock
      freedom and determinism.
    - [Pipeline], [PipelineProofs], [PipelineTheorems]: the communicator of
      [pipeline_parallel/p2p_communication.py] and the schedules without
      interleaving of [pipeline_parallel/schedules.py], as programs of [Network].
    - [ScheduleTable]: the choice of the schedule, warmup counts and the tables of
      the interleaved schedule, same source.
    - [LayerLayout], [LayerLayoutProofs]: layout strings and the layers of every stage,
      [transformer/pipeline_parallel_layer_layout.py].  [LayerSplit], [LayerSplitProofs]:
      the checks of the configuration in [transformer/transformer_config.py] and the layers that a
      rank builds and numbers in [transformer/transformer_block.py] and [transformer_layer.py].
    - [Matrix], [Torch], [TorchReference]: arrays by rows with sums and products of parts, the
      torch operations that the tensor-parallel code uses as a class with laws, and an instance.
    - [TpMappings], [TpMappingsProofs], [TpMappingsTheorems]: [tensor_parallel/mappings.py] and
      [utils.py]; a collective is a function on the tensors of the ranks, an autograd function
      a pair of them.
    - [TpLinear], [TpLinearProofs]: the linear layers of [tensor_parallel/layers.py] with their
      operators; [TpLayers]: both layers against the whole weight, and the MLP of
      [transformer/mlp.py]; [TpReference]: the instance for them.
    - [VocabParallel], [VocabParallelProofs]: vocabulary ranges, the embedding and the initialization of
      weights; [CrossEntropy], [CrossEntropyProofs]: [tensor_parallel/cross_entropy.py];
      [VocabReference]: instances for both.
    - [DistCkpt]: [dist_checkpointing/]: sharded tensors and the wrappers that distribute saving and
      loading over the ranks of a group, [exchange_utils.py] and [strategies/fully_parallel.py]; a
      collective is a function on the list of the ranks.  [DistCkptProofs] (what the gathered
      dictionaries hold, the greedy assignment), [DistCkptSave], [DistCkptLoad].
      [DistCkptValidation], [DistCkptValidationProofs]: the constructors of sharded tensors in [mapping.py]
      and the check of the sharding in [validation.py]; [DistCkptTheorems]: saving and the
      check together.
    - [Sha1]: [hashlib.sha1]; [SglangByteps], [SglangProofs]: in
      [src/sglang-0.5.10.post1/python/sglang/srt/], [distributed/byteps_collectives.py],
      the routing of [GroupCoordinator.all_reduce] in [distributed/parallel_state.py]
      and the set-up in [model_executor/model_runner.py].

    ** What the theorems show

    - Groups: the rank groups partition the world, groups of complementary
      dimensions meet in one rank, the getters return the coordinates of the
      rank, and all ranks make the same sequence of collective [new_group] calls.
    - Samples: the data-parallel ranks read disjoint parts of each global batch and
      together all of it; resuming continues where the run stopped.
    - Names: two ranks use one BytePS name exactly when they are in one group of
      the right kind, so BytePS sums what the process group would sum; the cache
      of declared names and the library agree.
    - Buffers: construction succeeds, buckets tile the buffer, views are disjoint
      and aligned, shards tile buckets.
    - Reductions: whatever the order of gradients a group is pushed once, when its
      last gradient arrives, and waited for; a wrapped model whose buckets have different names (one
      buffer) does so for every bucket in every iteration, its pushes pass the check of the core that a name keeps
      its number of partitions, and to the main gradient of a parameter the passes add first, then it
      is scaled and reduced in place, once.
    - Pipeline: the 1F1B schedule refines running the stages one after the other:
      every interleaving of the ranks ends, without deadlock, with the forward and
      backward steps of the reference; rank [s] of [P] holds at most [min (P - s) m]
      microbatches; without a pipeline the simple schedule does the same.
    - Distributed optimizer: the parts of the ranks tile every parameter, the
      constructor returns a consistent object, every shard gets the gradient of its
      elements, a saved state is restored by loading it, and after the update every rank gathers
      each parameter whole.
    - Step: all ranks skip or take a step together, exactly when a gradient somewhere
      overflows; a skipped step changes no parameter; the loss scale follows its
      specification; chained optimizers skip together, but their scales can come apart.
    - Schedules: no step of a supported schedule raises, and a resumed scheduler continues the
      interrupted one.
    - Reruns: the processes answer, move and reduce in step; a step with a rejected
      result is run twice on the same data from the same state and ends in the diagnosis
      that the second pass justifies, as does the pass of the resumed job; the
      iterations that the tracker file tells to skip are characterised.
    - Layers: for a checked configuration of more than one stage that has a layout, an even split, or uneven
      first or last stages with at least one middle stage and no negative number of middle layers, the
      ranks together build every decoder layer once, in order (the checks alone do not give this); a
      layout string means what its notation says, and its stages number the layers consecutively.
    - Checkpoints: the distribution of a save or load gives every shard to one of its holders, evenly up to
      the largest shard; a save marks every shard on exactly one rank and keeps a valid
      sharding valid; a parallel load refines the plain one for every exchange
      algorithm; accepted shards cover each element of a tensor once.
    - Tensor parallelism: scattering and gathering, reduce-scatter and gather, and the two all-to-alls
      are inverse as they should be; linear layers and the MLP on shards compute the output, the
      input gradient and the shards of the weight gradients of the whole matrices, forward and
      backward, with and without sequence parallelism; the embedding looks up what one rank would; the
      cross entropy without label smoothing is that of the whole vocabulary.
    - SGLang: after the set-up every accepted all-reduce succeeds, pushes once and
      waits; no other communicator is ever reached; names are injective.
    - Errors: the inputs on which the code raises or goes wrong although its
      checks pass are stated as theorems (ramp-up in floating point, stale ranks after
      destruction, pre-declared names under context parallelism, name collisions of
      buckets, BytePS with the distributed optimizer, the rounded scaling
      check, bfloat16, offsets that ignore padding, unsharded random sampling, optimizer
      groups of mixed types, optimizers with a step tensor, rounded factors of the scaler,
      requests and failed calls of the rerun machine, its comparison and its statistics,
      two uneven stages, empty axes and missing main replicas of sharded tensors, late weight
      decay and missing styles of the schedules, strided tensors in reductions, label smoothing on
      parts of the vocabulary, foreign token ids, lost remainders of one-dimensional chunks).

    ** Interfaces and assumptions

    Code that is not in the repository is a class: [ProcessGroup]
    (torch.distributed groups), [Einops], [GradTensors] (the torch tensor of a
    view), [GradValidation] (what the bucket groups use of the rerun state machine), [StageModel] (the model of
    a stage and autograd), [RandPerm] (torch.randperm), [Devices] (other
    communicators of SGLang), [Values] and [GradOps] (float32 elements and the torch
    kernels on them) with the laws [ValuesLaws], [InnerOptimizer] (Adam or SGD) with
    [StepLaws], [LibM] (cosine and power of the C library) with [pow_law], [Torch], [TorchLinear],
    [TorchEmbedding], [Activation] and [SoftmaxOps] (operations on tensors and collectives) with their
    laws, [BytepsSum] (what push-pull of one name returns).  The laws of [Scalar] say that sums may be
    reordered: with floats the equations of the tensor-parallel part hold up to that rounding.  Theorems
    hold for all instances, witnesses give concrete ones.  A send of the pipeline
    is a rendezvous with its receive, the weakest progress torch promises: what
    cannot deadlock there cannot deadlock with buffering.  What the BytePS servers
    compute is not modelled; outside of the tensor-parallel part the theorems say which tensors are pushed under which name
    by whom, and when they are waited for.  The core's check of the partitions of a name runs in the task of a push and
    ends the process: it is a predicate on the log of the pushes, [core_accepts].

    ** Bounds and termination

    There is no fuel: recursion is structural, loops run over lists.  Runs of the
    pipeline are relations, and a run is bounded by the number of operations of its
    scripts.  Theorems with floats need operands below 2^53, where division and
    rounding are exact enough.  Python integers are unbounded and so is [Z].

    ** Not modelled

    CUDA streams, graphs and logging everywhere, values of tensors except in the
    optimizer and the tensor-parallel layers; of these layers deferred embedding gradients, fused and
    gated activations, uneven all-to-alls, the memory shared by tensors (reductions in place, the
    global buffer) and the allocation of parameters; of the optimizer the precision-aware and CPU-offloaded variants, float8
    quantization, the state dicts and the sharded checkpoint formats, FSDP; in
    [parallel_state.py] the deprecated aliases and timeouts; of the pipeline the
    interleaved loop (its tables are there), combined 1F1B and variable sequence
    lengths; of the wrapper delayed weight gradients and [pg_collection]; of the
    checkpoints sharded objects, factories, the comparison with the keys of a
    checkpoint, devices and storage.  Outside the
    scope: FSDP, attention and mixtures of experts, datasets, storage of checkpoints,
    training scripts, inference engines, the SGLang server, the C++ core and
    servers of BytePS and its other front ends: numerical code, file formats and I/O,
    or code that the BytePS reductions do not touch.

    ** What is left

    The interleaved schedule on [Network], the other checkpoint formats of the optimizer, and
    training steps that thread the rerun machine through the bucket groups. *)

From Stdlib Require Export ZArith Lia Ascii.
From Stdlib Require Import SpecFloat.
From stdpp Require Export base strings pretty numbers gmap list.

#[global] Open Scope Z_scope.

(* ================================================================== *)
(** ** Exceptions and the error monad                                  *)
(* ================================================================== *)

(** The exception classes that the modelled code raises. *)
Inductive exn_kind :=
  | AssertionError | RuntimeError | ValueError | KeyError | IndexError
  | TypeError | AttributeError | ZeroDivisionError | OverflowError | ImportError | NameError | Exception_.

#[export] Instance exn_kind_eq_dec : EqDecision exn_kind.
Proof. solve_decision. Defined.

(** A raised exception: its class and the fixed part of its message. *)
Record exn := Exn { exn_class : exn_kind; exn_msg : string }.

#[export] Instance exn_eq_dec : EqDecision exn.
Proof. solve_decision. Defined.

(** The outcome of a Python expression: a value or a raised exception. *)
Inductive res (A : Type) : Type :=
  | Ok (a : A)
  | Err (e : exn).
Arguments Ok {_} _.
Arguments Err {_} _.

#[export] Instance res_ret : MRet res := @Ok.
#[export] Instance res_bind : MBind res := fun A B f m =>
  match m with Ok a => f a | Err e => Err e end.
#[export] Instance res_fmap : FMap res := fun A B f m =>
  match m with Ok a => Ok (f a) | Err e => Err e end.

Definition raise_ {A} (k : exn_kind) (msg : string) : res A := Err (Exn k msg).

(** [assert b, msg] *)
Definition assert_ (b : bool) (msg : string) : res unit :=
  if b then Ok tt else raise_ AssertionError msg.

Definition is_ok {A} (m : res A) : bool := match m with Ok _ => true | Err _ => false end.

(** [raises k m]: the expression raises an exception of class [k]. *)
Definition raises {A} (k : exn_kind) (m : res A) : bool :=
  match m with Ok _ => false | Err e => bool_decide (exn_class e = k) end.

(** [[f x for x in l]] where [f] may raise: the first exception wins. *)
Fixpoint mapR {A B} (f : A -> res B) (l : list A) : res (list B) :=
  match l with
  | [] => mret []
  | x :: l' => y ← f x; ys ← mapR f l'; mret (y :: ys)
  end.

(** [for x in l: acc = f(acc, x)] where [f] may raise. *)
Fixpoint foldR {A B} (f : B -> A -> res B) (acc : B) (l : list A) : res B :=
  match l with
  | [] => mret acc
  | x :: l' => acc' ← f acc x; foldR f acc' l'
  end.

(** [x is None] *)
Definition is_none {A} (o : option A) : bool := match o with None => true | Some _ => false end.

(** *** State with exceptions

    A method is a function from the object's fields to the outcome and the
    fields afterwards.  As in Python, what was assigned before an exception
    stays assigned. *)
Definition M (S A : Type) : Type := S -> res A * S.

#[export] Instance M_ret S : MRet (M S) := fun A a s => (Ok a, s).
#[export] Instance M_bind S : MBind (M S) := fun A B f m s =>
  match m s with
  | (Ok a, s') => f a s'
  | (Err e, s') => (Err e, s')
  end.

Definition getM {S} : M S S := fun s => (Ok s, s).
Definition modM {S} (f : S -> S) : M S unit := fun s => (Ok tt, f s).
Definition liftM {S A} (r : res A) : M S A := fun s => (r, s).
Definition raiseM {S A} (k : exn_kind) (msg : string) : M S A := liftM (raise_ k msg).
Definition assertM {S} (b : bool) (msg : string) : M S unit := liftM (assert_ b msg).
Definition whenM {S} (b : bool) (m : M S unit) : M S unit := if b then m else mret tt.

Fixpoint iterM {S A} (f : A -> M S unit) (l : list A) : M S unit :=
  match l with
  | [] => mret tt
  | x :: l' => f x ;; iterM f l'
  end.

Fixpoint mapM_ {S A B} (f : A -> M S B) (l : list A) : M S (list B) :=
  match l with
  | [] => mret []
  | x :: l' => y ← f x; ys ← mapM_ f l'; mret (y :: ys)
  end.

(** Unfold the monad operations. *)
Ltac m_unfold :=
  unfold mbind, mret, fmap, res_bind, res_ret, res_fmap, M_bind, M_ret,
    getM, modM, liftM, raiseM, assertM, whenM, assert_, raise_ in *; cbn beta iota in *.

(** Split a hypothesis [x ← m; k = Ok _] into its successful steps. *)
Ltac inv_ok :=
  repeat match goal with
  | H : Ok _ = Ok _ |- _ => injection H as H; subst
  | H : Err _ = Ok _ |- _ => discriminate H
  | H : Ok _ = Err _ |- _ => discriminate H
  | H : (_, _) = (_, _) |- _ => injection H as H; subst
  | H : mbind _ ?m = Ok _ |- _ =>
      let E := fresh "E" in destruct m eqn:E; cbn [mbind res_bind] in H; [|discriminate H]
  | H : assert_ ?b _ = Ok _ |- _ =>
      let E := fresh "E" in destruct b eqn:E; [clear H|discriminate H]
  end.

Lemma assert_ok b msg : assert_ b msg = Ok tt <-> b = true.
Proof. unfold assert_, raise_. destruct b; split; congruence. Qed.

Lemma mapR_ok_Forall2 {A B} (f : A -> res B) l l' :
  mapR f l = Ok l' <-> Forall2 (fun x y => f x = Ok y) l l'.
Proof.
  revert l'. induction l as [|x l IH]; intros l'; cbn.
  - unfold mret, res_ret. split; [intros [= <-]; constructor | inversion 1; done].
  - unfold mbind, mret, res_bind, res_ret. split.
    + destruct (f x) as [y|] eqn:E; [|done]. destruct (mapR f l) as [ys|] eqn:E2; [|done].
      intros [= <-]. constructor; [done|]. by apply IH.
    + inversion 1 as [|? y ? ys Hy Hys]; subst. rewrite Hy. apply IH in Hys. by rewrite Hys.
Qed.

(** A comprehension whose body never raises is a [map]. *)
Lemma mapR_total {A B} (f : A -> res B) (g : A -> B) l :
  (forall x, x ∈ l -> f x = Ok (g x)) -> mapR f l = Ok (map g l).
Proof.
  induction l as [|x l IH]; intros H; cbn; [done|].
  rewrite (H x) by set_solver. cbn. rewrite IH by set_solver. done.
Qed.

(** A comprehension whose body returns at every position, with what is known there. *)
Lemma mapR_ix {A B} (f : A -> res B) (Q : nat -> A -> B -> Prop) l : (forall i x, l !! i = Some x -> exists y, f x = Ok y /\ Q i x y) ->
  exists ys, mapR f l = Ok ys /\ length ys = length l /\ forall i x y, l !! i = Some x -> ys !! i = Some y -> Q i x y.
Proof.
  revert Q. induction l as [|x l IH]; intros Q H; [by exists []|]. destruct (H 0%nat x eq_refl) as (y & Ey & Hy).
  destruct (IH (fun i => Q (S i))) as (ys & Eys & Hl & Hys); [intros i; apply (H (S i))|]. exists (y :: ys). cbn. rewrite Ey. cbn. rewrite Eys.
  split; [done|]. split; [by rewrite Hl|]. intros [|i] x' y'; cbn; [by intros [= <-] [= <-]|apply Hys].
Qed.

Lemma mapR_app {A B} (f : A -> res B) l1 l2 :
  mapR f (l1 ++ l2) = (a ← mapR f l1; b ← mapR f l2; mret (a ++ b)).
Proof.
  induction l1 as [|x l1 IH]; cbn; [by destruct (mapR f l2)|].
  destruct (f x); cbn; [|done]. rewrite IH. destruct (mapR f l1); cbn; [|done]. by destruct (mapR f l2).
Qed.

Lemma foldR_app {A B} (f : B -> A -> res B) acc l1 l2 :
  foldR f acc (l1 ++ l2) = (acc' ← foldR f acc l1; foldR f acc' l2).
Proof.
  revert acc. induction l1 as [|x l1 IH]; intros acc; cbn; [done|].
  destruct (f acc x); cbn; [apply IH | done].
Qed.

(** Rule of induction for a loop: an invariant indexed by what was consumed. *)
Lemma foldR_ind {A B} (f : B -> A -> res B) (P : list A -> B -> Prop) acc l acc' :
  P [] acc ->
  (forall done x b b', x ∈ l -> P done b -> f b x = Ok b' -> P (done ++ [x]) b') ->
  foldR f acc l = Ok acc' -> P l acc'.
Proof.
  intros H0 Hs.
  enough (forall l2 done b, (forall x, x ∈ l2 -> x ∈ l) -> P done b ->
    foldR f b l2 = Ok acc' -> P (done ++ l2) acc') as Hgen.
  { intros H. apply (Hgen l [] acc); auto. }
  induction l2 as [|x l2 IH]; intros d b Hin Hd Hf; cbn in Hf.
  - injection Hf as <-. by rewrite app_nil_r.
  - destruct (f b x) as [b'|] eqn:E; [|done].
    replace (d ++ x :: l2) with ((d ++ [x]) ++ l2) by by rewrite <- app_assoc.
    apply (IH (d ++ [x]) b'); [set_solver| |done].
    apply (Hs d x b); set_solver.
Qed.

(** A loop whose body never fails under its invariant returns, with the invariant. *)
Lemma foldR_total {A B} (f : B -> A -> res B) (P : list A -> B -> Prop) acc l :
  P [] acc ->
  (forall done x rest b, l = done ++ x :: rest -> P done b -> exists b', f b x = Ok b' /\ P (done ++ [x]) b') ->
  exists acc', foldR f acc l = Ok acc' /\ P l acc'.
Proof.
  intros H0 Hs.
  enough (forall l2 done b, l = done ++ l2 -> P done b -> exists b', foldR f b l2 = Ok b' /\ P l b') as Hgen.
  { by apply (Hgen l [] acc). }
  induction l2 as [|x l2 IH]; intros d b E Hd; cbn.
  - rewrite app_nil_r in E. subst. eauto.
  - destruct (Hs d x l2 b E Hd) as (b' & -> & Hd'). cbn. apply (IH (d ++ [x])); [by rewrite <- app_assoc|done].
Qed.

(** *** What a computation does to the state

    [always R m]: whatever [m] returns, the states before and after are related
    by [R].  For a preorder [R] the rules below are those of a frame logic, and
    the database [frame] applies them. *)
Definition always {S A} (R : S -> S -> Prop) (m : M S A) : Prop :=
  forall s r s', m s = (r, s') -> R s s'.

Create HintDb frame.

Section Always.
Context {S : Type} (R : S -> S -> Prop) `{!PreOrder R}.

Lemma always_ret {A} (a : A) : always R (mret a).
Proof. intros s r s' [= <- <-]. reflexivity. Qed.
Lemma always_lift {A} (r : res A) : always R (liftM r).
Proof. intros s r' s' [= <- <-]. reflexivity. Qed.
Lemma always_assert b msg : always R (assertM b msg).
Proof. apply always_lift. Qed.
Lemma always_raise {A} k msg : always R (@raiseM S A k msg).
Proof. apply always_lift. Qed.
Lemma always_get : always R getM.
Proof. intros s r s' [= <- <-]. reflexivity. Qed.
Lemma always_mod f : (forall s, R s (f s)) -> always R (modM f).
Proof. intros H s r s' [= <- <-]. apply H. Qed.
Lemma always_bind {A B} (m : M S A) (k : A -> M S B) :
  always R m -> (forall a, always R (k a)) -> always R (m ≫= k).
Proof.
  intros Hm Hk s r s'. unfold mbind, M_bind. destruct (m s) as [[a|e] s1] eqn:E.
  - intros H. transitivity s1; [by eapply Hm|by eapply Hk].
  - intros [= <- <-]. by eapply Hm.
Qed.
Lemma always_when b m : (b = true -> always R m) -> always R (whenM b m).
Proof. destruct b; cbn; intros; [auto|apply always_ret]. Qed.
Lemma always_iter {A} (f : A -> M S unit) l : (forall x, x ∈ l -> always R (f x)) -> always R (iterM f l).
Proof.
  induction l as [|x l IH]; intros H; cbn; [apply always_ret|].
  apply always_bind; [apply H; set_solver|]. intros _. apply IH. set_solver.
Qed.
End Always.

#[export] Hint Resolve always_ret always_lift always_assert always_raise always_get : frame.
#[export] Hint Resolve always_bind always_when always_iter always_mod : frame.

(** A loop in which exactly the element [x] with [P x] establishes [Q x]: [I] is
    the state before it is met, and the later elements keep what it did. *)
Lemma iterM_establish {S A} (f : A -> M S unit) (P : A -> Prop) (I : S -> Prop) (Q : S -> Prop) l1 x l2 s s' :
  (forall y s s', ~ P y -> I s -> f y s = (Ok tt, s') -> I s') ->
  (forall s s', I s -> f x s = (Ok tt, s') -> Q s') ->
  (forall y s s', ~ P y -> Q s -> f y s = (Ok tt, s') -> Q s') ->
  Forall (fun y => ~ P y) l1 -> Forall (fun y => ~ P y) l2 ->
  I s -> iterM f (l1 ++ x :: l2) s = (Ok tt, s') -> Q s'.
Proof.
  intros H1 Hx H2 Hl1 Hl2. revert s. induction Hl1 as [|y l1 Hy _ IH]; intros s HI H; cbn in H.
  - unfold mbind, M_bind in H. destruct (f x s) as [[[]|] s1] eqn:E; [|done].
    apply Hx in E; [|done]. clear -H2 Hl2 H E. revert s1 E H.
    induction Hl2 as [|y l2 Hy _ IH]; intros s1 E H; cbn in H; [by injection H as <-|].
    unfold mbind, M_bind in H. destruct (f y s1) as [[[]|] s2] eqn:E2; [|done]. eauto.
  - unfold mbind, M_bind in H. destruct (f y s) as [[[]|] s1] eqn:E; [|done]. eauto.
Qed.

(** Running a sequence step by step. *)
Lemma bind_step {S A B} (m : M S A) (k : A -> M S B) s a s1 : m s = (Ok a, s1) -> (m ≫= k) s = k a s1.
Proof. unfold mbind, M_bind. by intros ->. Qed.
Lemma bind_raise {S A B} (m : M S A) (k : A -> M S B) s e s1 : m s = (Err e, s1) -> (m ≫= k) s = (Err e, s1).
Proof. unfold mbind, M_bind. by intros ->. Qed.

(** One step of a sequence whose first part returned. *)
Ltac ret_step := match goal with |- context [mbind ?k (Ok ?x)] => change (mbind k (Ok x)) with (k x); cbv beta end.

Lemma iterM_app {S A} (f : A -> M S unit) l1 l2 s : iterM f (l1 ++ l2) s = (iterM f l1 ;; iterM f l2) s.
Proof.
  revert s. induction l1 as [|x l1 IH]; intros s; cbn; [done|]. unfold mbind, M_bind in *. destruct (f x s) as [[[]|] s']; [|done].
  rewrite IH. done.
Qed.
Lemma mapR_ex {A B} (f : A -> res B) (Q : A -> B -> Prop) l : (forall x, x ∈ l -> exists y, f x = Ok y /\ Q x y) ->
  exists ys, mapR f l = Ok ys /\ Forall2 Q l ys.
Proof.
  induction l as [|x l IH]; intros Hf; [by exists []|]. destruct (Hf x ltac:(left)) as (y & Ey & Hy).
  destruct IH as (ys & Eys & Hys); [intros z Hz; apply Hf; by right|]. exists (y :: ys). cbn. rewrite Ey. cbn. rewrite Eys. split; [done|by constructor].
Qed.

(** Inversion of a successful sequence. *)
Lemma bind_ok_inv {S A B} (m : M S A) (k : A -> M S B) s b s' :
  (m ≫= k) s = (Ok b, s') -> exists a s1, m s = (Ok a, s1) /\ k a s1 = (Ok b, s').
Proof. unfold mbind, M_bind. destruct (m s) as [[a|] s1]; [eauto|done]. Qed.
Lemma lift_ok_inv {S A} (r : res A) (s : S) a s' : liftM r s = (Ok a, s') -> r = Ok a /\ s' = s.
Proof. unfold liftM. by intros [= -> ->]. Qed.
Lemma assert_ok_inv {S} b msg (s : S) a s' : assertM b msg s = (Ok a, s') -> b = true /\ s' = s.
Proof. unfold assertM, liftM, assert_, raise_. destruct b; [by intros [= _ ->]|done]. Qed.

(** Decompose a successful monadic run in hypothesis [H] one step at a time. *)
Ltac step_ok H :=
  cbv beta in H;
  lazymatch type of H with
  | mbind _ _ _ = (Ok _, _) =>
      let a := fresh "a" in let s1 := fresh "s" in let E := fresh "E" in
      apply bind_ok_inv in H as (a & s1 & E & H)
  | liftM _ _ = (Ok _, _) => let E := fresh "E" in apply lift_ok_inv in H as [E ->]
  | assertM _ _ _ = (Ok _, _) => let E := fresh "E" in apply assert_ok_inv in H as [E ->]
  end.

(** One bind step, with a name for the step's equation. *)
Ltac step_as H E :=
  let a := fresh "a" in let s1 := fresh "s" in apply bind_ok_inv in H as (a & s1 & E & H).

(** *** Two runs side by side

    [together R m1 m2]: when both succeed from states related by [R], they end
    in states related by [R]; [RA] relates the results. *)
Definition together {S1 S2 A1 A2} (R : S1 -> S2 -> Prop) (RA : A1 -> A2 -> Prop) (m1 : M S1 A1) (m2 : M S2 A2) : Prop :=
  forall s1 s2 a1 a2 s1' s2', R s1 s2 -> m1 s1 = (Ok a1, s1') -> m2 s2 = (Ok a2, s2') -> R s1' s2' /\ RA a1 a2.

Definition any2 {A B} (_ : A) (_ : B) : Prop := True.

Section Together.
Context {S1 S2 : Type} (R : S1 -> S2 -> Prop).

Lemma together_bind {A1 A2 B1 B2} (RA : A1 -> A2 -> Prop) (RB : B1 -> B2 -> Prop) (m1 : M S1 A1) (m2 : M S2 A2) k1 k2 :
  together R RA m1 m2 -> (forall a1 a2, RA a1 a2 -> together R RB (k1 a1) (k2 a2)) ->
  together R RB (m1 ≫= k1) (m2 ≫= k2).
Proof.
  intros Hm Hk s1 s2 b1 b2 s1' s2' HR H1 H2.
  apply bind_ok_inv in H1 as (a1 & t1 & E1 & H1), H2 as (a2 & t2 & E2 & H2).
  destruct (Hm _ _ _ _ _ _ HR E1 E2) as [HR' Ha]. by eapply Hk.
Qed.
Lemma together_ret {A1 A2} (RA : A1 -> A2 -> Prop) a1 a2 : RA a1 a2 -> together R RA (mret a1) (mret a2).
Proof. intros Ha s1 s2 ? ? ? ? HR [= <- <-] [= <- <-]. done. Qed.
Lemma together_lift {A} (r : res A) : together R eq (liftM r) (liftM r).
Proof. intros s1 s2 ? ? ? ? HR [= E1 <-] [= E2 <-]. split; [done|]. congruence. Qed.
Lemma together_assert b1 b2 msg1 msg2 : together R any2 (assertM b1 msg1) (assertM b2 msg2).
Proof.
  intros s1 s2 ? ? ? ? HR H1 H2. apply assert_ok_inv in H1 as [_ ->], H2 as [_ ->]. done.
Qed.
Lemma together_get : together R R getM getM.
Proof. intros s1 s2 ? ? ? ? HR [= <- <-] [= <- <-]. done. Qed.
(** Steps that do not change what [R] looks at. *)
Lemma together_silent {A1 A2} (m1 : M S1 A1) (m2 : M S2 A2) :
  always (fun s s' => forall t, R s t -> R s' t) m1 -> always (fun t t' => forall s, R s t -> R s t') m2 ->
  together R any2 m1 m2.
Proof. intros H1 H2 s1 s2 ? ? ? ? HR E1 E2. split; [|done]. eapply H2, H1; eauto. Qed.
Lemma together_iter {A} (f1 : A -> M S1 unit) (f2 : A -> M S2 unit) l :
  (forall x, x ∈ l -> together R any2 (f1 x) (f2 x)) -> together R any2 (iterM f1 l) (iterM f2 l).
Proof.
  induction l as [|x l IH]; intros H; cbn; [by apply together_ret|].
  eapply together_bind; [apply H; set_solver|]. intros _ _ _. apply IH. set_solver.
Qed.
Lemma together_weaken {A1 A2} (RA RB : A1 -> A2 -> Prop) m1 m2 :
  together R RA m1 m2 -> (forall a b, RA a b -> RB a b) -> together R RB m1 m2.
Proof. intros H HR s1 s2 ? ? ? ? Hs E1 E2. edestruct H as [? ?]; eauto. Qed.
End Together.

(* ================================================================== *)
(** ** Python integers                                                 *)
(* ================================================================== *)

(** [a // b] and [a % b]: floor division, which is [Z.div] and [Z.modulo]
    for every sign; a zero divisor raises. *)
Definition floordiv (a b : Z) : res Z :=
  if b =? 0 then raise_ ZeroDivisionError "integer division or modulo by zero" else Ok (a / b).
Definition pymod (a b : Z) : res Z :=
  if b =? 0 then raise_ ZeroDivisionError "integer modulo by zero" else Ok (a mod b).

Lemma floordiv_ok a b : b <> 0 -> floordiv a b = Ok (a / b).
Proof. intros. unfold floordiv. by rewrite (proj2 (Z.eqb_neq b 0)). Qed.
Lemma pymod_ok a b : b <> 0 -> pymod a b = Ok (a mod b).
Proof. intros. unfold pymod. by rewrite (proj2 (Z.eqb_neq b 0)). Qed.

(** [range(a, b)] *)
Definition zrange (a b : Z) : list Z := seqZ a (b - a).

Lemma elem_of_zrange a b x : x ∈ zrange a b <-> a <= x < b.
Proof. unfold zrange. rewrite elem_of_seqZ. lia. Qed.

Lemma length_zrange a b : Z.of_nat (length (zrange a b)) = Z.max 0 (b - a).
Proof. unfold zrange. rewrite length_seqZ. lia. Qed.

Lemma NoDup_zrange a b : NoDup (zrange a b).
Proof. apply NoDup_seqZ. Qed.

Lemma lookup_zrange a b (i : nat) : Z.of_nat i < b - a -> zrange a b !! i = Some (a + Z.of_nat i).
Proof. intros. apply lookup_seqZ. lia. Qed.

Lemma zrange_nil a b : b <= a -> zrange a b = [].
Proof. intros. unfold zrange. by rewrite seqZ_nil by lia. Qed.

Lemma zrange_cons a b : a < b -> zrange a b = a :: zrange (a + 1) b.
Proof.
  intros. unfold zrange. rewrite seqZ_cons by lia.
  replace (Z.succ a) with (a + 1) by lia. by replace (Z.pred (b - a)) with (b - (a + 1)) by lia.
Qed.

Lemma zrange_app a b c : a <= b -> b <= c -> zrange a c = zrange a b ++ zrange b c.
Proof.
  intros. unfold zrange. replace (c - a) with ((b - a) + (c - b)) by lia.
  rewrite seqZ_app by lia. by replace (a + (b - a)) with b by lia.
Qed.

Lemma zrange_snoc a b : a <= b -> zrange a (b + 1) = zrange a b ++ [b].
Proof.
  intros. rewrite (zrange_app a b (b + 1)) by lia. by rewrite (zrange_cons b), (zrange_nil (b + 1)) by lia.
Qed.

(** [sum(l)] *)
Definition zsum (l : list Z) : Z := fold_right Z.add 0 l.
(** the product of a list *)
Definition zprod (l : list Z) : Z := fold_right Z.mul 1 l.

Lemma zsum_app l1 l2 : zsum (l1 ++ l2) = zsum l1 + zsum l2.
Proof. unfold zsum. induction l1; cbn; lia. Qed.

#[export] Instance zsum_perm : Proper (Permutation ==> eq) zsum.
Proof. unfold zsum. induction 1; cbn in *; lia. Qed.
#[export] Instance zprod_perm : Proper (Permutation ==> eq) zprod.
Proof. unfold zprod. induction 1; cbn in *; lia. Qed.

Lemma zprod_pos l : Forall (fun x => 0 < x) l -> 0 < zprod l.
Proof. unfold zprod. induction 1; cbn; [lia|]. by apply Z.mul_pos_pos. Qed.

(* ================================================================== *)
(** ** Python lists                                                    *)
(* ================================================================== *)

(** [l[i]]: negative indices count from the end, others raise. *)
Definition py_get {A} (l : list A) (i : Z) : res A :=
  let n := Z.of_nat (length l) in
  let j := if i <? 0 then i + n else i in
  if (j <? 0) || (n <=? j) then raise_ IndexError "list index out of range"
  else match l !! Z.to_nat j with
       | Some x => Ok x
       | None => raise_ IndexError "list index out of range"
       end.

(** Filters that keep everything or nothing. *)
Lemma filter_all {A} (Q : A -> Prop) `{forall x, Decision (Q x)} l : Forall Q l -> filter Q l = l.
Proof. induction 1 as [|x l Hx Hl IH]; [done|]. rewrite filter_cons_True by done. by f_equal. Qed.
Lemma filter_none {A} (Q : A -> Prop) `{forall x, Decision (Q x)} l : Forall (fun x => ~ Q x) l -> filter Q l = [].
Proof. induction 1 as [|x l Hx Hl IH]; [done|]. by rewrite filter_cons_False by done. Qed.

(** [l[a:b]] for [0 <= a] and [0 <= b]; a slice never raises. *)
Definition py_slice {A} (l : list A) (a b : Z) : list A :=
  take (Z.to_nat (b - a)) (drop (Z.to_nat a) l).

(** [l[start::step]] for [0 <= start] and [0 < step]. *)
Fixpoint py_stride_aux {A} (skip step : nat) (l : list A) : list A :=
  match l with
  | [] => []
  | x :: l' => match skip with
               | O => x :: py_stride_aux (Nat.pred step) step l'
               | S k => py_stride_aux k step l'
               end
  end.
Definition py_stride {A} (start step : Z) (l : list A) : list A :=
  py_stride_aux (Z.to_nat start) (Z.to_nat step) l.

(** [l.index(x)]: the first position of [x], or [ValueError]. *)
Fixpoint list_index_from `{EqDecision A} (l : list A) (x : A) (i : Z) : option Z :=
  match l with
  | [] => None
  | y :: l' => if bool_decide (x = y) then Some i else list_index_from l' x (i + 1)
  end.
Definition list_index `{EqDecision A} (l : list A) (x : A) : option Z := list_index_from l x 0.
Definition py_index `{EqDecision A} (l : list A) (x : A) : res Z :=
  match list_index l x with Some i => Ok i | None => raise_ ValueError "x is not in list" end.

Lemma list_index_from_spec `{EqDecision A} (l : list A) x i :
  match list_index_from l x i with
  | Some j => i <= j /\ l !! Z.to_nat (j - i) = Some x /\
              (forall k, (k < Z.to_nat (j - i))%nat -> l !! k <> Some x)
  | None => x ∉ l
  end.
Proof.
  revert i. induction l as [|y l IH]; intros i; cbn; [by apply not_elem_of_nil|].
  case_bool_decide as Hxy.
  - subst. rewrite Z.sub_diag. split_and!; [lia|done|]. intros k Hk. cbn in Hk. lia.
  - specialize (IH (i + 1)). destruct (list_index_from l x (i + 1)) as [j|]; [|by rewrite not_elem_of_cons].
    destruct IH as (Hle & Hj & Hmin). replace (Z.to_nat (j - i)) with (S (Z.to_nat (j - (i + 1)))) by lia.
    cbn. split_and!; [lia|done|]. intros [|k] Hk; cbn; [congruence|]. apply Hmin. lia.
Qed.

(** In a duplicate-free list the index of the [i]-th element is [i]. *)
Lemma list_index_NoDup `{EqDecision A} (l : list A) x (i : nat) :
  NoDup l -> l !! i = Some x -> list_index l x = Some (Z.of_nat i).
Proof.
  intros Hnd Hi. unfold list_index. pose proof (list_index_from_spec l x 0) as H.
  destruct (list_index_from l x 0) as [j|].
  - destruct H as (Hle & Hj & _). rewrite Z.sub_0_r in Hj.
    pose proof (NoDup_lookup _ _ _ _ Hnd Hi Hj). f_equal. lia.
  - exfalso. apply H. by eapply list_elem_of_lookup_2.
Qed.

Lemma py_get_nonneg {A} (l : list A) (i : nat) x : l !! i = Some x -> py_get l (Z.of_nat i) = Ok x.
Proof.
  intros H. pose proof (lookup_lt_Some _ _ _ H). unfold py_get.
  destruct (Z.ltb_spec (Z.of_nat i) 0); [lia|].
  destruct (Z.ltb_spec (Z.of_nat i) 0); [lia|].
  destruct (Z.leb_spec (Z.of_nat (length l)) (Z.of_nat i)); [lia|]. cbn.
  by rewrite Nat2Z.id, H.
Qed.

(** Concatenation of duplicate-free, pairwise disjoint blocks. *)
Lemma NoDup_concat {A} (ls : list (list A)) :
  Forall NoDup ls ->
  (forall i j l1 l2 x, ls !! i = Some l1 -> ls !! j = Some l2 -> x ∈ l1 -> x ∈ l2 -> i = j) ->
  NoDup (concat ls).
Proof.
  induction ls as [|l ls IH]; intros Hf Hd; cbn; [constructor|].
  inversion Hf as [|? ? Hl Hls]; subst. apply NoDup_app. split_and!; [done| |].
  - intros x Hx Hc. rewrite list_elem_of_In, in_concat in Hc. destruct Hc as (l2 & Hl2 & Hx2).
    apply list_elem_of_In in Hl2, Hx2. apply list_elem_of_lookup in Hl2 as [j Hj].
    pose proof (Hd 0%nat (S j) l l2 x eq_refl Hj Hx Hx2). lia.
  - apply IH; [done|]. intros i j l1 l2 x Hi Hj H1 H2.
    pose proof (Hd (S i) (S j) l1 l2 x Hi Hj H1 H2). lia.
Qed.

(** [f] with the value at [s] replaced. *)
Definition upd {A} (f : nat -> A) (s : nat) (v : A) : nat -> A := fun x => if decide (x = s) then v else f x.

Lemma upd_eq {A} (f : nat -> A) s v : upd f s v s = v.
Proof. unfold upd. by rewrite decide_True. Qed.
Lemma upd_ne {A} (f : nat -> A) s v x : x <> s -> upd f s v x = f x.
Proof. intros. unfold upd. by rewrite decide_False. Qed.

(* ================================================================== *)
(** ** Python strings                                                  *)
(* ================================================================== *)

(** [str(n)] / [f"{n}"] for an integer. *)
Definition str_of_Z (n : Z) : string := pretty n.

(** The characters of a string, the form in which its lemmas are stated. *)
Fixpoint chars (s : string) : list Ascii.ascii :=
  match s with
  | EmptyString => []
  | String c s' => c :: chars s'
  end.
Fixpoint of_chars (l : list Ascii.ascii) : string :=
  match l with
  | [] => EmptyString
  | c :: l' => String c (of_chars l')
  end.

Lemma of_chars_chars s : of_chars (chars s) = s.
Proof. induction s; cbn; congruence. Qed.
Lemma chars_of_chars l : chars (of_chars l) = l.
Proof. induction l; cbn; congruence. Qed.
Lemma chars_inj s1 s2 : chars s1 = chars s2 -> s1 = s2.
Proof. intros H. rewrite <- (of_chars_chars s1), <- (of_chars_chars s2). by rewrite H. Qed.
Lemma chars_app s1 s2 : chars (s1 +:+ s2) = chars s1 ++ chars s2.
Proof. induction s1 as [|c s1 IH]; [done|]. cbn [chars app]. by rewrite <- IH. Qed.

(** [s.split(sep)] for a one-character separator. *)
Fixpoint split_chars (sep : Ascii.ascii) (cur : list Ascii.ascii) (l : list Ascii.ascii) : list string :=
  match l with
  | [] => [of_chars (reverse cur)]
  | c :: l' => if bool_decide (c = sep) then of_chars (reverse cur) :: split_chars sep [] l'
               else split_chars sep (c :: cur) l'
  end.
Definition py_split (sep : Ascii.ascii) (s : string) : list string := split_chars sep [] (chars s).
Arguments py_split : simpl never.

(** [sub in s]: the substring test. *)
Fixpoint prefixb (p l : list Ascii.ascii) : bool :=
  match p, l with
  | [], _ => true
  | c :: p', d :: l' => bool_decide (c = d) && prefixb p' l'
  | _ :: _, [] => false
  end.
Fixpoint infixb (p l : list Ascii.ascii) : bool :=
  prefixb p l || match l with [] => false | _ :: l' => infixb p l' end.
Definition py_in_str (sub s : string) : bool := infixb (chars sub) (chars s).

(** [s.lower()] on ASCII text. *)
Definition lower_char (c : Ascii.ascii) : Ascii.ascii :=
  let n := Ascii.nat_of_ascii c in
  if (Nat.leb 65 n && Nat.leb n 90)%bool then Ascii.ascii_of_nat (n + 32) else c.
Definition py_lower (s : string) : string := of_chars (map lower_char (chars s)).

(** A separator-free text followed by the separator can be read back. *)
Lemma split_at_sep {A} (x : A) l1 l2 r1 r2 :
  x ∉ l1 -> x ∉ l2 -> l1 ++ x :: r1 = l2 ++ x :: r2 -> l1 = l2 /\ r1 = r2.
Proof.
  revert l2. induction l1 as [|a l1 IH]; intros [|b l2] H1 H2 Heq; cbn in Heq.
  - by injection Heq as ->.
  - injection Heq as -> _. exfalso. apply H2. by left.
  - injection Heq as -> _. exfalso. apply H1. by left.
  - injection Heq as -> Heq. rewrite not_elem_of_cons in H1, H2.
    destruct (IH l2) as [-> ->]; naive_solver.
Qed.

(** A decimal numeral contains only digits and a minus sign. *)
Lemma pretty_N_char_digit x : pretty_N_char x <> "."%char.
Proof. unfold pretty_N_char. repeat case_match; congruence. Qed.

Lemma chars_pretty_N_go x s : "."%char ∉ chars s -> "."%char ∉ chars (pretty_N_go x s).
Proof.
  revert s. induction (N.lt_wf_0 x) as [x _ IH]; intros s Hs.
  destruct (decide (x = 0)%N) as [->|Hx]; [by rewrite pretty_N_go_0|].
  rewrite pretty_N_go_step by lia. apply IH.
  - apply N.div_lt; lia.
  - cbn. rewrite not_elem_of_cons. split; [|done]. intros E. by apply (pretty_N_char_digit (x `mod` 10)).
Qed.

Lemma chars_pretty_N (x : N) : "."%char ∉ chars (pretty x).
Proof.
  unfold pretty, pretty_N. case_decide; [|apply chars_pretty_N_go; apply not_elem_of_nil].
  cbn. rewrite not_elem_of_cons. split; [congruence|apply not_elem_of_nil].
Qed.

Lemma chars_str_of_Z n : "."%char ∉ chars (str_of_Z n).
Proof.
  unfold str_of_Z, pretty, pretty_Z. destruct n.
  - cbn. rewrite not_elem_of_cons. split; [congruence|apply not_elem_of_nil].
  - apply chars_pretty_N.
  - rewrite chars_app, not_elem_of_app. split; [|apply chars_pretty_N].
    cbn. rewrite not_elem_of_cons. split; [congruence|apply not_elem_of_nil].
Qed.

Lemma str_of_Z_inj n m : str_of_Z n = str_of_Z m -> n = m.
Proof. apply (inj pretty). Qed.

(** A numeral followed by a dot and a rest determines both. *)
Lemma str_of_Z_dot n m r1 r2 :
  str_of_Z n +:+ String "." r1 = str_of_Z m +:+ String "." r2 -> n = m /\ r1 = r2.
Proof.
  intros H. apply (f_equal chars) in H. rewrite !chars_app in H. cbn in H.
  apply split_at_sep in H as [H1 H2]; [|apply chars_str_of_Z..].
  split; [by apply str_of_Z_inj, chars_inj | by apply chars_inj].
Qed.

(** *** The substring test and [split]

    A pattern without the separator that occurs in the text occurs in one of
    the pieces. *)
Lemma prefixb_sep sep p l1 l2 :
  sep ∉ p -> prefixb p (l1 ++ sep :: l2) = true -> prefixb p l1 = true.
Proof.
  revert l1. induction p as [|c p IH]; intros [|d l1] Hs; cbn; try done.
  - rewrite andb_true_iff, bool_decide_eq_true. rewrite not_elem_of_cons in Hs. naive_solver.
  - rewrite !andb_true_iff. rewrite not_elem_of_cons in Hs. intros [? ?]. split; [done|].
    apply IH; naive_solver.
Qed.

Lemma infixb_nil l : infixb [] l = true.
Proof. by destruct l. Qed.

Lemma infixb_sep sep p l1 l2 :
  sep ∉ p -> infixb p (l1 ++ sep :: l2) = true -> infixb p l1 = true \/ infixb p l2 = true.
Proof.
  intros Hs. induction l1 as [|x l1 IH]; cbn [app infixb]; rewrite orb_true_iff; intros [H|H].
  - left. apply (prefixb_sep sep p [] l2) in H; [|done]. cbn. by rewrite H.
  - by right.
  - left. apply (prefixb_sep sep p (x :: l1) l2) in H; [|done]. by rewrite H.
  - destruct (IH H) as [->| ->]; [left|by right]. by rewrite orb_true_r.
Qed.

Lemma infixb_split_chars sep p cur l :
  sep ∉ p -> infixb p (reverse cur ++ l) = true ->
  exists t, t ∈ split_chars sep cur l /\ infixb p (chars t) = true.
Proof.
  intros Hs. revert cur. induction l as [|c l IH]; intros cur H; cbn.
  - exists (of_chars (reverse cur)). rewrite app_nil_r in H. split; [by left|].
    rewrite chars_of_chars. done.
  - case_bool_decide as Hc.
    + subst c. apply infixb_sep in H as [H|H]; [| |done].
      * exists (of_chars (reverse cur)). rewrite chars_of_chars. split; [by left|done].
      * destruct (IH [] H) as (t & Ht & Hi). exists t. split; [by right|done].
    + apply IH. rewrite reverse_cons, <- app_assoc. done.
Qed.

Lemma py_in_str_split sep p s :
  sep ∉ chars p -> py_in_str p s = true ->
  exists t, t ∈ py_split sep s /\ py_in_str p t = true.
Proof. intros Hs H. by apply (infixb_split_chars sep (chars p) []). Qed.

Lemma prefixb_app p l1 l2 : prefixb p l1 = true -> prefixb p (l1 ++ l2) = true.
Proof.
  revert l1. induction p as [|c p IH]; intros [|d l1]; cbn; try done.
  rewrite !andb_true_iff. naive_solver.
Qed.
Lemma prefixb_refl l l2 : prefixb l (l ++ l2) = true.
Proof. induction l as [|c l IH]; cbn; [done|]. by rewrite bool_decide_eq_true_2. Qed.
Lemma infixb_prefix p l : prefixb p l = true -> infixb p l = true.
Proof. destruct l; cbn [infixb]; intros ->; done. Qed.
Lemma infixb_app_l p l1 l2 : infixb p l1 = true -> infixb p (l1 ++ l2) = true.
Proof.
  induction l1 as [|c l1 IH]; cbn [infixb app].
  - rewrite orb_false_r. intros H. apply infixb_prefix, (prefixb_app p [] l2), H.
  - rewrite !orb_true_iff. intros [H|H]; [left; by apply (prefixb_app p (c :: l1))|right; by apply IH].
Qed.
Lemma infixb_app_r p l1 l2 : infixb p l2 = true -> infixb p (l1 ++ l2) = true.
Proof. intros H. induction l1 as [|c l1 IH]; cbn [infixb app]; [done|]. by rewrite IH, orb_true_r. Qed.

(** Every piece of a split is a substring. *)
Lemma split_chars_infix sep cur l t :
  t ∈ split_chars sep cur l -> infixb (chars t) (reverse cur ++ l) = true.
Proof.
  revert cur. induction l as [|c l IH]; intros cur; cbn.
  - intros ->%list_elem_of_singleton. rewrite chars_of_chars. apply infixb_prefix, prefixb_refl.
  - case_bool_decide.
    + intros [->|H']%elem_of_cons.
      * rewrite chars_of_chars. apply infixb_prefix, prefixb_refl.
      * apply infixb_app_r. cbn [infixb]. apply IH in H'. cbn in H'. by rewrite H', orb_true_r.
    + intros H'%IH. by rewrite reverse_cons, <- app_assoc in H'.
Qed.

Lemma py_split_in sep s t : t ∈ py_split sep s -> py_in_str t s = true.
Proof. apply (split_chars_infix sep []). Qed.

(** Joining with the separator appends the pieces. *)
Lemma split_chars_app sep cur l1 l2 :
  split_chars sep cur (l1 ++ sep :: l2) = split_chars sep cur l1 ++ split_chars sep [] l2.
Proof.
  revert cur. induction l1 as [|c l1 IH]; intros cur; cbn.
  - by rewrite bool_decide_eq_true_2.
  - case_bool_decide; cbn; by rewrite IH.
Qed.

Lemma py_split_join sep s1 s2 :
  py_split sep (s1 +:+ String sep s2) = py_split sep s1 ++ py_split sep s2.
Proof. unfold py_split. by rewrite chars_app, <- split_chars_app. Qed.
