(* ===== verification/PyFloat.v ===== *)
(** * Python floats

    The IEEE-754 binary64 arithmetic that Python's [float] has, computed with
    the Standard Library's [spec_float], and what the training code uses of
    it: [int / int], [int / float], comparison, [int(x)] and [math.ceil(x)].
    The file ends with the correctness of the rounding-up idiom
    [ceil(a / b) * b] for operands below [2^53]. *)

From Stdlib Require Import SpecFloat.
From S2P Require Import Prelude.

Definition f64 := spec_float.

Definition prec64 : Z := 53.
Definition emax64 : Z := 1024.

(** [float(n)]: correctly rounded; [OverflowError] when it is out of range. *)
Definition float_of_int (n : Z) : res f64 :=
  match binary_normalize prec64 emax64 n 0 false with
  | S754_infinity _ => raise_ OverflowError "int too large to convert to float"
  | x => Ok x
  end.

Definition f64_is_zero (x : f64) : bool := match x with S754_zero _ => true | _ => false end.

(** [x / y] on floats: the IEEE quotient; a zero divisor raises. *)
Definition float_div (x y : f64) : res f64 :=
  if f64_is_zero y then raise_ ZeroDivisionError "float division by zero"
  else Ok (SFdiv prec64 emax64 x y).

(** The integer [n] as an unrounded [spec_float]. *)
Definition exact_of_int (n : Z) : f64 :=
  match n with
  | Z0 => S754_zero false
  | Zpos p => S754_finite false p 0
  | Zneg p => S754_finite true p 0
  end.

(** [a / b] on integers: the correctly rounded quotient of the exact operands. *)
Definition truediv (a b : Z) : res f64 :=
  if b =? 0 then raise_ ZeroDivisionError "division by zero"
  else match SFdiv prec64 emax64 (exact_of_int a) (exact_of_int b) with
       | S754_infinity _ => raise_ OverflowError "integer division result too large for a float"
       | x => Ok x
       end.

(** [n / y] for an integer [n] and a float [y]. *)
Definition truediv_if (n : Z) (y : f64) : res f64 := x ← float_of_int n; float_div x y.

(** [x / n] for a float [x] and an integer [n]. *)
Definition truediv_fi (x : f64) (n : Z) : res f64 := y ← float_of_int n; float_div x y.

(** [x == y] *)
Definition f64_eqb (x y : f64) : bool := SFeqb x y.

(** [int(x)]: truncation towards zero. *)
Definition int_of_float (x : f64) : res Z :=
  match x with
  | S754_zero _ => Ok 0
  | S754_infinity _ => raise_ OverflowError "cannot convert float infinity to integer"
  | S754_nan => raise_ ValueError "cannot convert float NaN to integer"
  | S754_finite s m e =>
      let a := if 0 <=? e then Z.pos m * 2 ^ e else Z.pos m / 2 ^ (- e) in
      Ok (if s then - a else a)
  end.

(** [math.ceil(x)] *)
Definition ceil_of_float (x : f64) : res Z :=
  match x with
  | S754_zero _ => Ok 0
  | S754_infinity _ => raise_ OverflowError "cannot convert float infinity to integer"
  | S754_nan => raise_ ValueError "cannot convert float NaN to integer"
  | S754_finite s m e =>
      let v := if s then Z.neg m else Z.pos m in
      Ok (if 0 <=? e then v * 2 ^ e else - ((- v) / 2 ^ (- e)))
  end.

Definition f64_one : f64 := S754_finite false 4503599627370496 (-52).

Example truediv_1_3 : truediv 1 3 = Ok (S754_finite false 6004799503160661 (-54)).
Proof. reflexivity. Qed.
Example ceil_7_2 : (x ← truediv 7 2; ceil_of_float x) = Ok 4.
Proof. reflexivity. Qed.
Example float_one : float_of_int 1 = Ok f64_one.
Proof. reflexivity. Qed.

(* ================================================================== *)
(** ** Rounding up with a float quotient                               *)
(* ================================================================== *)

Lemma digits2_spec p :
  2 ^ (Z.pos (digits2_pos p) - 1) <= Z.pos p < 2 ^ Z.pos (digits2_pos p).
Proof.
  induction p as [p IH|p IH|]; cbn [digits2_pos]; [| |cbn; lia].
  all: rewrite Pos2Z.inj_succ, <- Z.add_1_r, Z.add_simpl_r, Z.pow_add_r by lia.
  all: replace (2 ^ Z.pos (digits2_pos p)) with (2 * 2 ^ (Z.pos (digits2_pos p) - 1)) in *
    by (rewrite <- Z.pow_succ_r by lia; f_equal; lia); lia.
Qed.

Lemma digits2_unique p k : 0 < k -> 2 ^ (k - 1) <= Z.pos p < 2 ^ k -> Z.pos (digits2_pos p) = k.
Proof.
  intros Hk [H1 H2]. destruct (digits2_spec p) as [H3 H4].
  assert (k - 1 < Z.pos (digits2_pos p)) by (apply (Z.pow_lt_mono_r_iff 2); lia).
  assert (Z.pos (digits2_pos p) - 1 < k) by (apply (Z.pow_lt_mono_r_iff 2); lia).
  lia.
Qed.

Lemma log2_digits p : Z.log2 (Z.pos p) = Z.pos (digits2_pos p) - 1.
Proof.
  pose proof (digits2_spec p). apply Z.log2_unique; [lia|].
  by replace (Z.succ (Z.pos (digits2_pos p) - 1)) with (Z.pos (digits2_pos p)) by lia.
Qed.

Lemma fexp64 e : -1000 <= e -> fexp prec64 emax64 e = e - 53.
Proof. intros. unfold fexp, emin, prec64, emax64. lia. Qed.

(** A 53-bit mantissa is left alone; a 54-bit one loses its last bit. *)
Lemma shr_fexp_53 p e l :
  -900 <= e -> 2 ^ 52 <= Z.pos p < 2 ^ 53 ->
  shr_fexp prec64 emax64 (Z.pos p) e l = (shr_record_of_loc (Z.pos p) l, e).
Proof.
  intros He Hp. unfold shr_fexp. cbn [Zdigits2]. rewrite (digits2_unique p 53) by lia.
  rewrite fexp64 by lia. replace (53 + e - 53 - e) with 0 by lia. done.
Qed.

Lemma shr_fexp_54 p e l :
  -900 <= e -> 2 ^ 53 <= Z.pos p < 2 ^ 54 ->
  shr_fexp prec64 emax64 (Z.pos p) e l = (shr_1 (shr_record_of_loc (Z.pos p) l), e + 1).
Proof.
  intros He Hp. unfold shr_fexp. cbn [Zdigits2]. rewrite (digits2_unique p 54) by lia.
  rewrite fexp64 by lia. replace (54 + e - 53 - e) with 1 by lia. done.
Qed.

Lemma loc_of_shr_record_of_loc m l : loc_of_shr_record (shr_record_of_loc m l) = l.
Proof. by destruct l as [|[]]. Qed.
Lemma shr_m_of_loc m l : shr_m (shr_record_of_loc m l) = m.
Proof. by destruct l as [|[]]. Qed.

(** The final renormalisation after rounding is exact. *)
Lemma round_end p e :
  -900 <= e <= 900 -> 2 ^ 52 <= Z.pos p <= 2 ^ 53 ->
  exists m k, (k = 0 \/ k = 1) /\ 2 ^ 52 <= Z.pos m < 2 ^ 53 /\ Z.pos m * 2 ^ k = Z.pos p /\
  (let '(mrs, e2) := shr_fexp prec64 emax64 (Z.pos p) e loc_Exact in
   match shr_m mrs with
   | Z0 => S754_zero false
   | Zpos m => if e2 <=? emax64 - prec64 then S754_finite false m e2 else S754_infinity false
   | Zneg _ => S754_nan
   end) = S754_finite false m (e + k).
Proof.
  intros He Hp. destruct (decide (Z.pos p = 2 ^ 53)) as [E|E].
  - exists 4503599627370496%positive, 1. split_and!; [lia|lia|lia|rewrite E; reflexivity|].
    rewrite shr_fexp_54 by lia. rewrite E. cbn.
    destruct (Z.leb_spec (e + 1) (emax64 - prec64)); [done|unfold emax64, prec64 in *; lia].
  - exists p, 0. split_and!; [lia|lia|lia|lia|]. rewrite shr_fexp_53 by lia. rewrite shr_m_of_loc.
    destruct (Z.leb_spec e (emax64 - prec64)); [by rewrite Z.add_0_r|unfold emax64, prec64 in *; lia].
Qed.

(** Rounding a 53- or 54-bit quotient: the result [W], in units of [2^e], is
    the quotient itself when it is exact and even, at most one unit away when
    it is exact, and one of the two neighbours otherwise. *)
Lemma binary_round_aux_spec q e l :
  -900 <= e <= 800 -> 2 ^ 52 <= q < 2 ^ 54 ->
  exists m k, 0 <= k <= 2 /\ 2 ^ 52 <= Z.pos m < 2 ^ 53 /\
    binary_round_aux prec64 emax64 false q e l = S754_finite false m (e + k) /\
    (l = loc_Exact -> Z.abs (Z.pos m * 2 ^ k - q) <= 1) /\
    (l = loc_Exact -> Z.even q = true -> Z.pos m * 2 ^ k = q) /\
    (l <> loc_Exact -> Z.pos m * 2 ^ k = q \/ Z.pos m * 2 ^ k = q + 1).
Proof.
  intros He Hq. destruct q as [|p|p]; [lia| |lia].
  assert (exists p1 j, (j = 0 \/ j = 1) /\ 2 ^ 52 <= Z.pos p1 <= 2 ^ 53 /\
     binary_round_aux prec64 emax64 false (Z.pos p) e l =
       (let '(mrs, e2) := shr_fexp prec64 emax64 (Z.pos p1) (e + j) loc_Exact in
        match shr_m mrs with
        | Z0 => S754_zero false
        | Zpos m => if e2 <=? emax64 - prec64 then S754_finite false m e2 else S754_infinity false
        | Zneg _ => S754_nan
        end) /\
     (l = loc_Exact -> Z.abs (Z.pos p1 * 2 ^ j - Z.pos p) <= 1) /\
     (l = loc_Exact -> Z.even (Z.pos p) = true -> Z.pos p1 * 2 ^ j = Z.pos p) /\
     (l <> loc_Exact -> Z.pos p1 * 2 ^ j = Z.pos p \/ Z.pos p1 * 2 ^ j = Z.pos p + 1))
    as (p1 & j & Hj & Hp1 & Heq & H1 & H2 & H3).
  { unfold binary_round_aux. destruct (decide (Z.pos p < 2 ^ 53)) as [Hlt|Hge].
    - rewrite shr_fexp_53 by lia. rewrite shr_m_of_loc, loc_of_shr_record_of_loc.
      exists (Z.to_pos (round_nearest_even (Z.pos p) l)), 0.
      assert (Z.pos (Z.to_pos (round_nearest_even (Z.pos p) l)) = round_nearest_even (Z.pos p) l) as ->.
      { apply Z2Pos.id. destruct l as [|[]]; cbn; repeat case_match; lia. }
      rewrite Z.add_0_r. split_and!; [lia| | |done| | |];
        destruct l as [|[]]; cbn; repeat case_match; try lia; done.
    - rewrite shr_fexp_54 by lia.
      set (mrs := shr_1 (shr_record_of_loc (Z.pos p) l)).
      exists (Z.to_pos (round_nearest_even (shr_m mrs) (loc_of_shr_record mrs))), 1.
      assert (0 < round_nearest_even (shr_m mrs) (loc_of_shr_record mrs) /\
        2 ^ 52 <= round_nearest_even (shr_m mrs) (loc_of_shr_record mrs) <= 2 ^ 53 /\
        (l = loc_Exact -> Z.abs (round_nearest_even (shr_m mrs) (loc_of_shr_record mrs) * 2 - Z.pos p) <= 1) /\
        (l = loc_Exact -> Z.even (Z.pos p) = true -> round_nearest_even (shr_m mrs) (loc_of_shr_record mrs) * 2 = Z.pos p) /\
        (l <> loc_Exact -> round_nearest_even (shr_m mrs) (loc_of_shr_record mrs) * 2 = Z.pos p \/
                           round_nearest_even (shr_m mrs) (loc_of_shr_record mrs) * 2 = Z.pos p + 1))
        as (Hpos & Hb & Ha & Hb' & Hc).
      { subst mrs. destruct p as [p|p|]; [| |lia]; destruct l as [|[]]; cbn -[Z.mul Z.pow];
          split_and!; intros; repeat case_match; try done; lia. }
      rewrite Z2Pos.id by done. change (2 ^ 1) with 2. split_and!; try done; try lia. }
  destruct (round_end p1 (e + j)) as (m & k & Hk & Hmr & Hm & Hend); [lia|lia|].
  exists m, (j + k). rewrite Heq, Hend. rewrite Z.pow_add_r, (Z.mul_comm (2 ^ j)), Z.mul_assoc by lia.
  rewrite Hm. split_and!; [lia|lia|lia|lia|f_equal; lia|done..].
Qed.

(** [rep x n a]: the float [x] represents the positive integer [n] with
    mantissa [n * 2^a]. *)
Definition rep (x : f64) (n a : Z) : Prop :=
  exists m, x = S754_finite false m (- a) /\ Z.pos m = n * 2 ^ a.

Lemma digits2_scaled n a m :
  0 <= a -> Z.pos m = Z.pos n * 2 ^ a -> Z.pos (digits2_pos m) = Z.pos (digits2_pos n) + a.
Proof.
  intros Ha Hm. pose proof (digits2_spec n) as [H1 H2]. apply digits2_unique; [lia|]. rewrite Hm.
  replace (Z.pos (digits2_pos n) + a - 1) with (Z.pos (digits2_pos n) - 1 + a) by lia.
  rewrite !Z.pow_add_r by lia. pose proof (Z.pow_pos_nonneg 2 a). nia.
Qed.

Lemma digits2_le_53 n : Z.pos n < 2 ^ 53 -> Z.pos (digits2_pos n) <= 53.
Proof.
  intros H. pose proof (digits2_spec n) as [H1 _].
  assert (Z.pos (digits2_pos n) - 1 < 53) by (apply (Z.pow_lt_mono_r_iff 2); lia). lia.
Qed.

Lemma new_location_exact d r : new_location (Z.pos d) r = loc_Exact <-> r = 0.
Proof.
  unfold new_location, new_location_even, new_location_odd.
  destruct (Z.even _); destruct (Z.eqb_spec r 0); split; intros; congruence.
Qed.

(** The quotient that [SFdiv] rounds: scale, mantissa and whether it is exact. *)
Lemma SFdiv_core_spec n d a b mn md :
  Z.pos n < 2 ^ 53 -> Z.pos d < 2 ^ 53 -> 0 <= a -> 0 <= b ->
  Z.pos mn = Z.pos n * 2 ^ a -> Z.pos md = Z.pos d * 2 ^ b ->
  Z.pos (digits2_pos n) - Z.pos (digits2_pos d) - 53 <= b - a ->
  exists s l, 1 <= s <= 105 /\ Z.pos d < 2 ^ s /\
    2 ^ 52 <= Z.pos n * 2 ^ s / Z.pos d < 2 ^ 54 /\
    (l = loc_Exact <-> (Z.pos n * 2 ^ s) mod Z.pos d = 0) /\
    SFdiv_core_binary prec64 emax64 (Z.pos mn) (- a) (Z.pos md) (- b) =
      (Z.pos n * 2 ^ s / Z.pos d, - s, l).
Proof.
  intros Hn Hd Ha Hb Hmn Hmd Hab.
  pose proof (digits2_spec n) as [Hn1 Hn2]. pose proof (digits2_spec d) as [Hd1 Hd2].
  pose proof (digits2_le_53 n Hn). pose proof (digits2_le_53 d Hd).
  pose proof (digits2_scaled n a mn Ha Hmn) as Edn. pose proof (digits2_scaled d b md Hb Hmd) as Edd.
  set (dn := Z.pos (digits2_pos n)) in *. set (dd := Z.pos (digits2_pos d)) in *.
  remember (53 + dd - dn) as s eqn:Hs.
  assert (2 ^ dd <= 2 ^ s) by (apply Z.pow_le_mono_r; lia).
  assert (2 ^ (dd + 52) <= Z.pos n * 2 ^ s < 2 ^ (dd + 53)) as [Hlo Hhi].
  { replace (dd + 52) with ((dn - 1) + s) by lia. replace (dd + 53) with (dn + s) by lia.
    rewrite !Z.pow_add_r by lia. nia. }
  rewrite Z.pow_add_r in Hlo, Hhi by lia.
  assert (2 ^ dd = 2 * 2 ^ (dd - 1)) by (rewrite <- Z.pow_succ_r by lia; f_equal; lia).
  pose proof (Z.pow_pos_nonneg 2 b ltac:(lia) Hb) as Hpb.
  exists s, (new_location (Z.pos md) ((Z.pos n * 2 ^ s) mod Z.pos d * 2 ^ b)).
  split_and!; [lia|lia|lia| | | |].
  - apply Z.div_le_lower_bound; nia.
  - apply Z.div_lt_upper_bound; nia.
  - rewrite new_location_exact. nia.
  - unfold SFdiv_core_binary. cbn [Zdigits2]. rewrite Edn, Edd. fold dn dd.
    replace (dn + a + - a - (dd + b + - b)) with (dn - dd) by lia.
    rewrite fexp64 by lia. rewrite Z.min_l by lia.
    replace (- a - - b - (dn - dd - 53)) with (s + b - a) by lia.
    assert (match s + b - a with Z0 => Z.pos mn | Zpos _ => Z.shiftl (Z.pos mn) (s + b - a) | Zneg _ => 0 end
            = Z.pos n * 2 ^ s * 2 ^ b) as ->.
    { transitivity (Z.pos mn * 2 ^ (s + b - a)).
      - destruct (s + b - a) eqn:E; [lia|by rewrite Z.shiftl_mul_pow2 by lia|lia].
      - rewrite Hmn, <- Z.mul_assoc, <- Z.pow_add_r by lia.
        replace (a + (s + b - a)) with (s + b) by lia. rewrite Z.pow_add_r by lia. lia. }
    pose proof (Z.div_mul_cancel_r (Z.pos n * 2 ^ s) (Z.pos d) (2 ^ b) ltac:(lia) ltac:(lia)) as Eq.
    pose proof (Zmult_mod_distr_r (Z.pos n * 2 ^ s) (Z.pos d) (2 ^ b)) as Er.
    rewrite Hmd. unfold Z.div, Z.modulo in Eq, Er.
    destruct (Z.div_eucl (Z.pos n * 2 ^ s * 2 ^ b) (Z.pos d * 2 ^ b)) as [q' r'].
    subst q' r'. unfold Z.div, Z.modulo. replace (- s) with (dn - dd - 53) by lia. done.
Qed.

(** The rounded quotient of two represented integers, as [W / 2^s]: strictly
    between the two neighbouring integers when the division is inexact, and
    equal to the quotient when it is exact. *)
Lemma SFdiv_spec x y n d a b :
  0 < n < 2 ^ 53 -> 0 < d < 2 ^ 53 -> 0 <= a -> 0 <= b -> rep x n a -> rep y d b ->
  Z.log2 n - Z.log2 d - 53 <= b - a ->
  exists m k s, 0 <= k /\ 1 <= s /\ 2 ^ 52 <= Z.pos m < 2 ^ 53 /\
    SFdiv prec64 emax64 x y = S754_finite false m (k - s) /\
    (n mod d <> 0 -> n / d * 2 ^ s < Z.pos m * 2 ^ k < (n / d + 1) * 2 ^ s) /\
    (n mod d = 0 -> Z.pos m * 2 ^ k = n / d * 2 ^ s).
Proof.
  intros Hn Hd Ha Hb (mn & -> & Hmn) (md & -> & Hmd) Hab.
  destruct n as [|n|n]; [lia| |lia]. destruct d as [|d|d]; [lia| |lia].
  rewrite !log2_digits in Hab.
  destruct (SFdiv_core_spec n d a b mn md) as (s & l & Hs & Hds & Hq & Hl & Hcore); [lia..|].
  cbn [SFdiv xorb]. rewrite Hcore.
  set (q := Z.pos n * 2 ^ s / Z.pos d) in *. set (r := (Z.pos n * 2 ^ s) mod Z.pos d) in *.
  assert (Z.pos n * 2 ^ s = Z.pos d * q + r) as Hqr by (apply Z.div_mod; lia).
  assert (0 <= r < Z.pos d) as Hr by (apply Z.mod_pos_bound; lia).
  destruct (binary_round_aux_spec q (- s) l) as (m & k & Hk & Hm & Hround & He1 & He2 & He3); [lia|lia|].
  exists m, k, s. rewrite Hround. set (W := Z.pos m * 2 ^ k) in *. rewrite Hl in He1, He2, He3.
  pose proof (Z.pow_pos_nonneg 2 s ltac:(lia) ltac:(lia)) as Hps.
  pose proof (Z.div_mod (Z.pos n) (Z.pos d) ltac:(lia)) as Hdm.
  pose proof (Z.mod_pos_bound (Z.pos n) (Z.pos d) ltac:(lia)) as Hmb.
  set (c := Z.pos n / Z.pos d) in *. set (t := Z.pos n mod Z.pos d) in *.
  split_and!; [lia|lia|lia|lia|f_equal; lia| |].
  - intros Ht. assert (Z.abs (W * Z.pos d - Z.pos n * 2 ^ s) <= Z.pos d) as Hw.
    { destruct (decide (r = 0)) as [H0|H0]; [specialize (He1 H0)|specialize (He3 H0)]; nia. }
    nia.
  - intros Ht. assert (q = c * 2 ^ s /\ r = 0) as [Hqc Hr0].
    { apply (Z.div_mod_unique (Z.pos d) q (c * 2 ^ s) r 0); [lia|lia|]. nia. }
    rewrite <- Hqc. apply He2; [done|].
    rewrite Hqc, Z.even_mul, Z.even_pow by lia. apply orb_true_r.
Qed.

(** The mathematical ceiling of [a / b]. *)
Definition ceildiv (a b : Z) : Z := - ((- a) / b).

Lemma ceildiv_spec a b k : 0 < b -> (k - 1) * b < a <= k * b -> ceildiv a b = k.
Proof.
  intros Hb Hk. unfold ceildiv.
  assert (- a / b = - k); [|lia]. symmetry. apply (Z.div_unique_pos _ _ _ (k * b - a)); lia.
Qed.

Lemma ceildiv_bounds a b : 0 < b -> (ceildiv a b - 1) * b < a <= ceildiv a b * b.
Proof.
  intros Hb. unfold ceildiv. pose proof (Z.div_mod (- a) b). pose proof (Z.mod_pos_bound (- a) b). nia.
Qed.

(** Scaling numerator and denominator leaves the ceiling alone. *)
Lemma ceildiv_scale a b c : 0 < b -> 0 < c -> ceildiv (a * c) (b * c) = ceildiv a b.
Proof.
  intros Hb Hc. apply ceildiv_spec; [lia|]. pose proof (ceildiv_bounds a b Hb). nia.
Qed.

Lemma ceil_of_float_finite m e k s :
  0 <= k -> 0 <= s -> e + s = k ->
  ceil_of_float (S754_finite false m e) = Ok (ceildiv (Z.pos m * 2 ^ k) (2 ^ s)).
Proof.
  intros Hk Hs <-. cbn. f_equal. destruct (Z.leb_spec 0 e).
  - rewrite Z.pow_add_r, Z.mul_assoc by lia. symmetry. apply ceildiv_spec; [lia|].
    pose proof (Z.pow_pos_nonneg 2 s). nia.
  - replace s with (- e + (e + s)) at 2 by lia. rewrite (Z.pow_add_r 2 (- e)) by lia.
    symmetry. apply ceildiv_scale; apply Z.pow_pos_nonneg; lia.
Qed.

(** [math.ceil(n / d)] is the exact ceiling for operands below [2^53]. *)
Lemma ceil_truediv n d :
  0 <= n < 2 ^ 53 -> 0 < d < 2 ^ 53 ->
  (x ← truediv n d; ceil_of_float x) = Ok (ceildiv n d).
Proof.
  intros Hn Hd. destruct d as [|d|d]; [lia| |lia]. destruct n as [|n|n]; [done| |lia].
  destruct (SFdiv_spec (exact_of_int (Z.pos n)) (exact_of_int (Z.pos d)) (Z.pos n) (Z.pos d) 0 0)
    as (m & k & s & Hk & Hs & Hm & Heq & H1 & H2); [lia..|by exists n; split; [done|lia]|
      by exists d; split; [done|lia]| |].
  { pose proof (digits2_le_53 n ltac:(lia)). rewrite !log2_digits. lia. }
  unfold truediv. cbn [Z.eqb]. rewrite Heq. cbn [mbind res_bind].
  rewrite (ceil_of_float_finite _ _ k s) by lia. f_equal.
  pose proof (Z.div_mod (Z.pos n) (Z.pos d) ltac:(lia)) as Hdm.
  pose proof (Z.mod_pos_bound (Z.pos n) (Z.pos d) ltac:(lia)) as Hmb.
  pose proof (Z.pow_pos_nonneg 2 s ltac:(lia) ltac:(lia)) as Hps.
  destruct (decide (Z.pos n mod Z.pos d = 0)) as [H0|H0].
  - rewrite (ceildiv_spec (Z.pos n) (Z.pos d) (Z.pos n / Z.pos d)) by lia.
    apply ceildiv_spec; [lia|]. rewrite H2 by done. lia.
  - rewrite (ceildiv_spec (Z.pos n) (Z.pos d) (Z.pos n / Z.pos d + 1)) by lia.
    apply ceildiv_spec; [lia|]. specialize (H1 H0). lia.
Qed.

(** *** Exact integers as floats *)

Lemma int_of_float_finite m e k s :
  0 <= k -> 0 <= s -> e = k - s ->
  int_of_float (S754_finite false m e) = Ok (Z.pos m * 2 ^ k / 2 ^ s).
Proof.
  intros Hk Hs ->. cbn. f_equal. pose proof (Z.pow_pos_nonneg 2 s ltac:(lia) ltac:(lia)).
  destruct (Z.leb_spec 0 (k - s)).
  - replace k with (k - s + s) at 2 by lia. rewrite Z.pow_add_r, Z.mul_assoc by lia.
    by rewrite Z.div_mul by lia.
  - replace s with (- (k - s) + k) at 2 by lia. rewrite Z.pow_add_r by lia.
    pose proof (Z.pow_pos_nonneg 2 k ltac:(lia) ltac:(lia)).
    pose proof (Z.pow_pos_nonneg 2 (- (k - s)) ltac:(lia) ltac:(lia)).
    by rewrite Z.div_mul_cancel_r by lia.
Qed.

(** [canon x n]: [x] is the normalised float of the positive integer [n]. *)
Definition canon (x : f64) (n : Z) : Prop :=
  exists a, 0 <= a /\ rep x n a /\ 2 ^ 52 <= n * 2 ^ a < 2 ^ 53.

Lemma canon_log2 n a : 0 < n -> 0 <= a -> 2 ^ 52 <= n * 2 ^ a < 2 ^ 53 -> Z.log2 n + a = 52.
Proof.
  intros Hn Ha Hr. rewrite Z.add_comm, <- (Z.log2_mul_pow2 n a) by lia. apply Z.log2_unique; lia.
Qed.

Lemma float_of_int_canon n : 0 < n < 2 ^ 53 -> exists x, float_of_int n = Ok x /\ canon x n.
Proof.
  intros Hn. destruct n as [|n|n]; [lia| |lia]. pose proof (digits2_le_53 n ltac:(lia)) as Hd.
  pose proof (digits2_spec n) as [H1 H2]. set (dn := Z.pos (digits2_pos n)) in *.
  assert (exists mz, Z.pos mz = Z.pos n * 2 ^ (53 - dn) /\
    shl_align n 0 (fexp prec64 emax64 (dn + 0)) = (mz, dn - 53)) as (mz & Hmz & Hal).
  { rewrite Z.add_0_r, fexp64 by lia. unfold shl_align. rewrite Z.sub_0_r.
    destruct (dn - 53) as [|c|c] eqn:E; [|lia|].
    - exists n. replace (53 - dn) with 0 by lia. split; [lia|done].
    - exists (Pos.iter xO n c). replace (53 - dn) with (Z.pos c) by lia. split; [|done].
      clear. induction c as [|c IH] using Pos.peano_ind; [cbn; lia|].
      rewrite Pos.iter_succ, Pos2Z.inj_succ, Z.pow_succ_r by lia. lia. }
  assert (2 ^ 52 <= Z.pos mz < 2 ^ 53) as Hr.
  { rewrite Hmz. replace 52 with ((dn - 1) + (53 - dn)) by lia.
    replace (2 ^ 53) with (2 ^ (dn + (53 - dn))) by (f_equal; lia). rewrite !Z.pow_add_r by lia.
    pose proof (Z.pow_pos_nonneg 2 (53 - dn)). nia. }
  exists (S754_finite false mz (dn - 53)). split.
  - unfold float_of_int. cbn [binary_normalize]. unfold binary_round. fold dn. rewrite Hal.
    unfold binary_round_aux. rewrite shr_fexp_53 by lia. cbn -[prec64 emax64].
    rewrite shr_fexp_53 by lia. cbn [shr_record_of_loc shr_m].
    by replace (dn - 53 <=? emax64 - prec64) with true by (unfold emax64, prec64; lia).
  - exists (53 - dn). split_and!; [lia| |lia|lia]. exists mz. split; [f_equal; lia|done].
Qed.

(** An exact quotient of integers is the float of the integer quotient. *)
Lemma truediv_canon n d : 0 < n < 2 ^ 53 -> 0 < d < 2 ^ 53 -> n mod d = 0 ->
  exists x, truediv n d = Ok x /\ canon x (n / d).
Proof.
  intros Hn Hd H0. destruct d as [|d|d]; [lia| |lia]. destruct n as [|n|n]; [lia| |lia].
  destruct (SFdiv_spec (exact_of_int (Z.pos n)) (exact_of_int (Z.pos d)) (Z.pos n) (Z.pos d) 0 0)
    as (m & k & s & Hk & Hs & Hm & Heq & _ & H2); [lia..|by exists n; split; [done|lia]|
      by exists d; split; [done|lia]| |].
  { pose proof (digits2_le_53 n ltac:(lia)). rewrite !log2_digits. lia. }
  specialize (H2 H0). unfold truediv. cbn [Z.eqb]. rewrite Heq. eexists; split; [done|].
  assert (0 < Z.pos n / Z.pos d < 2 ^ 53) as Hc.
  { pose proof (Z.div_mod (Z.pos n) (Z.pos d) ltac:(lia)). nia. }
  pose proof (Z.pow_pos_nonneg 2 s ltac:(lia) ltac:(lia)).
  pose proof (Z.pow_pos_nonneg 2 k ltac:(lia) ltac:(lia)).
  assert (k <= s) as Hks.
  { destruct (Z.le_gt_cases k s); [done|]. exfalso.
    assert (Z.pos n / Z.pos d = Z.pos m * 2 ^ (k - s)) as Hc2.
    { apply (Z.mul_reg_r _ _ (2 ^ s)); [lia|]. rewrite <- Z.mul_assoc, <- Z.pow_add_r by lia.
      rewrite <- H2. do 2 f_equal. lia. }
    pose proof (Z.pow_le_mono_r 2 1 (k - s)). nia. }
  assert (Z.pos m = Z.pos n / Z.pos d * 2 ^ (s - k)) as Hmq.
  { apply (Z.mul_reg_r _ _ (2 ^ k)); [lia|]. rewrite <- Z.mul_assoc, <- Z.pow_add_r by lia.
    rewrite H2. do 2 f_equal. lia. }
  exists (s - k). split_and!; [lia| |lia|lia]. exists m. split; [f_equal; lia|done].
Qed.

(** [int(n / float(d))] is the integer quotient for exact floats. *)
Lemma int_truediv_canon n y d : 0 <= n < 2 ^ 53 -> 0 < d < 2 ^ 53 -> canon y d ->
  (x ← truediv_if n y; int_of_float x) = Ok (n / d).
Proof.
  intros Hn Hd (b & Hb & Hy & Hyr). destruct (decide (n = 0)) as [->|Hn0].
  { destruct Hy as (m & -> & _). cbn. by rewrite Z.div_0_l by lia. }
  destruct (float_of_int_canon n) as (x & Hx & a & Ha & Hxr & Hxb); [lia|].
  unfold truediv_if. rewrite Hx. cbn [mbind res_bind].
  destruct (SFdiv_spec x y n d a b) as (m & k & s & Hk & Hs & Hm & Heq & H1 & H2); try done; [lia| |].
  { pose proof (canon_log2 n a). pose proof (canon_log2 d b). lia. }
  unfold float_div. destruct Hy as (my & -> & _). cbn [f64_is_zero mbind res_bind].
  rewrite Heq. cbn [mbind res_bind]. rewrite (int_of_float_finite _ _ k s) by lia. f_equal.
  pose proof (Z.pow_pos_nonneg 2 s ltac:(lia) ltac:(lia)).
  destruct (decide (n mod d = 0)) as [H0|H0].
  - rewrite H2 by done. by rewrite Z.div_mul by lia.
  - specialize (H1 H0). symmetry. apply (Z.div_unique_pos _ _ _ (Z.pos m * 2 ^ k - n / d * 2 ^ s)); lia.
Qed.
