(* ===== verification/NumMicrobatches.v ===== *)
(** * Number-of-microbatches calculators

    [megatron/core/num_microbatches_calculator.py]: the constant and the
    ramp-up calculator, the abstract class they implement (a type class
    here), and the module-level functions over the global calculator.
    Logging is not modelled.  Sample counts are integers; the ramp-up
    arithmetic is the code's binary64 arithmetic ([PyFloat]). *)

From S2P Require Import Prelude PyFloat.
From Stdlib Require Import SpecFloat.

(** [_round]: down to the nearest multiple of [divisor]. *)
Definition round_ (batch_size divisor : Z) : res Z :=
  q ← floordiv batch_size divisor; mret (q * divisor).

(** The abstract class: what the training loop asks of a calculator. *)
Class NumMicroBatchesCalculator (C : Type) := {
  get : C -> option Z;
  get_current_global_batch_size_ : C -> option Z;
  get_micro_batch_size_ : C -> option Z;
  get_current_running_global_batch_size_ : C -> option Z;
  update_ : Z -> bool -> M C unit
}.

(* ------------------------------------------------------------------ *)
(** ** Constant batch size                                             *)
(* ------------------------------------------------------------------ *)
Module Constant.

Record t := mk {
  num_micro_batches : Z;
  current_global_batch_size : Z;
  current_running_global_batch_size : Z;
  micro_batch_size : Z
}.

Definition init (global_batch_size micro_batch_size data_parallel_size : Z)
    (decrease_batch_size_if_needed : bool) : res t :=
  let mbdp := micro_batch_size * data_parallel_size in
  '(running, num) ←
    (if decrease_batch_size_if_needed then
       running ← round_ global_batch_size mbdp;
       rem ← pymod running mbdp;
       assert_ (rem =? 0) "" ;;
       num ← floordiv running mbdp;
       mret (running, num)
     else
       rem ← pymod global_batch_size mbdp;
       assert_ (rem =? 0) "global batch size is not divisible by micro batch size times data parallel size" ;;
       num ← floordiv global_batch_size mbdp;
       mret (global_batch_size, num));
  assert_ (1 <=? num) "number of microbatches should be at least 1" ;;
  mret (mk num global_batch_size running micro_batch_size).

Definition update (consumed_samples : Z) (consistency_check : bool) : M t unit := mret tt.

End Constant.

#[export] Instance constant_calculator : NumMicroBatchesCalculator Constant.t := {|
  get c := Some (Constant.num_micro_batches c);
  get_current_global_batch_size_ c := Some (Constant.current_global_batch_size c);
  get_micro_batch_size_ c := Some (Constant.micro_batch_size c);
  get_current_running_global_batch_size_ c := Some (Constant.current_running_global_batch_size c);
  update_ := Constant.update
|}.

(* ------------------------------------------------------------------ *)
(** ** Batch size ramp-up                                              *)
(* ------------------------------------------------------------------ *)
Module Rampup.

Record t := mk {
  global_batch_size : Z;
  micro_batch_size : Z;
  data_parallel_size : Z;
  decrease_batch_size_if_needed : bool;
  start_global_batch_size : Z;
  batch_size_increment : Z;
  ramup_samples : Z;
  micro_batch_times_data_parallel_size : Z;
  rampup_samples_per_increment : f64;
  current_global_batch_size : option Z;
  current_running_global_batch_size : option Z;
  num_micro_batches : option Z
}.

Definition set_current (v : Z) (c : t) : t :=
  let '(mk a b d e f g h i j _ r n) := c in mk a b d e f g h i j (Some v) r n.
Definition set_running (v : Z) (c : t) : t :=
  let '(mk a b d e f g h i j k _ n) := c in mk a b d e f g h i j k (Some v) n.
Definition set_num (v : Z) (c : t) : t :=
  let '(mk a b d e f g h i j k r _) := c in mk a b d e f g h i j k r (Some v).

(** The number of completed increments, [int(consumed / samples_per_increment)]. *)
Definition steps (consumed_samples : Z) (c : t) : res Z :=
  x ← truediv_if consumed_samples (rampup_samples_per_increment c); int_of_float x.

(** First half of [update]: the current global batch size. *)
Definition update_current (consumed_samples : Z) : M t Z :=
  c ← getM;
  if ramup_samples c <? consumed_samples then
    modM (set_current (global_batch_size c)) ;; mret (global_batch_size c)
  else
    st ← liftM (steps consumed_samples c);
    let v := start_global_batch_size c + st * batch_size_increment c in
    modM (set_current v) ;;
    assertM (v <=? global_batch_size c) "" ;;
    mret v.

Definition update (consumed_samples : Z) (consistency_check : bool) : M t unit :=
  v ← update_current consumed_samples;
  c ← getM;
  let mbdp := micro_batch_times_data_parallel_size c in
  whenM (consistency_check && negb (decrease_batch_size_if_needed c))
    (rem ← liftM (pymod v mbdp);
     assertM (rem =? 0) "current global batch size is not divisible by micro-batch-size times data parallel size") ;;
  needs ← (if decrease_batch_size_if_needed c then
             rem ← liftM (pymod v mbdp); mret (negb (rem =? 0))
           else mret false);
  running ← (if (needs : bool) then
               running ← liftM (round_ v mbdp);
               modM (set_running running) ;;
               rem ← liftM (pymod running mbdp);
               assertM (rem =? 0) "" ;;
               mret running
             else modM (set_running v) ;; mret v);
  num ← liftM (floordiv running mbdp);
  modM (set_num num).

Definition init (global_batch_size micro_batch_size data_parallel_size : Z)
    (decrease_batch_size_if_needed : bool)
    (start_global_batch_size batch_size_increment ramup_samples : Z) : res t :=
  assert_ (0 <? global_batch_size) "global batch size should be positive" ;;
  assert_ (0 <? start_global_batch_size) "start batch size should be positive" ;;
  assert_ (0 <? batch_size_increment) "batch size increment should be positive" ;;
  assert_ (0 <=? ramup_samples) "ramp-up samples should be non-negative" ;;
  let mbdp := micro_batch_size * data_parallel_size in
  assert_ (0 <? mbdp) "" ;;
  let diff_batch_size := global_batch_size - start_global_batch_size in
  assert_ (0 <=? diff_batch_size) "expected global batch size to be greater than or equal to start batch size" ;;
  rem ← pymod diff_batch_size batch_size_increment;
  assert_ (rem =? 0) "expected global batch size interval to be divisible by global batch size increment" ;;
  num_increments ← floordiv diff_batch_size batch_size_increment;
  per_increment ← truediv ramup_samples num_increments;
  let c0 := mk global_batch_size micro_batch_size data_parallel_size decrease_batch_size_if_needed
              start_global_batch_size batch_size_increment ramup_samples mbdp per_increment
              None None None in
  match update 0 false c0 with
  | (Ok _, c) => Ok c
  | (Err e, _) => Err e
  end.

End Rampup.

#[export] Instance rampup_calculator : NumMicroBatchesCalculator Rampup.t := {|
  get := Rampup.num_micro_batches;
  get_current_global_batch_size_ := Rampup.current_global_batch_size;
  get_micro_batch_size_ c := Some (Rampup.micro_batch_size c);
  get_current_running_global_batch_size_ := Rampup.current_running_global_batch_size;
  update_ := Rampup.update
|}.

(* ------------------------------------------------------------------ *)
(** ** The global calculator                                           *)
(* ------------------------------------------------------------------ *)

Inductive calculator :=
  | ConstantNumMicroBatchesCalculator (c : Constant.t)
  | RampupBatchsizeNumMicroBatchesCalculator (c : Rampup.t).

#[export] Instance any_calculator : NumMicroBatchesCalculator calculator := {|
  get c := match c with
           | ConstantNumMicroBatchesCalculator c => get c
           | RampupBatchsizeNumMicroBatchesCalculator c => get c
           end;
  get_current_global_batch_size_ c :=
    match c with
    | ConstantNumMicroBatchesCalculator c => get_current_global_batch_size_ c
    | RampupBatchsizeNumMicroBatchesCalculator c => get_current_global_batch_size_ c
    end;
  get_micro_batch_size_ c :=
    match c with
    | ConstantNumMicroBatchesCalculator c => get_micro_batch_size_ c
    | RampupBatchsizeNumMicroBatchesCalculator c => get_micro_batch_size_ c
    end;
  get_current_running_global_batch_size_ c :=
    match c with
    | ConstantNumMicroBatchesCalculator c => get_current_running_global_batch_size_ c
    | RampupBatchsizeNumMicroBatchesCalculator c => get_current_running_global_batch_size_ c
    end;
  update_ n chk s :=
    match s with
    | ConstantNumMicroBatchesCalculator c =>
        let '(r, c') := update_ n chk c in (r, ConstantNumMicroBatchesCalculator c')
    | RampupBatchsizeNumMicroBatchesCalculator c =>
        let '(r, c') := update_ n chk c in (r, RampupBatchsizeNumMicroBatchesCalculator c')
    end
|}.

(** [_GLOBAL_NUM_MICROBATCHES_CALCULATOR]; [None] before initialisation. *)
Definition global := option calculator.

(** [_GLOBAL_NUM_MICROBATCHES_CALCULATOR.<method>()]: [None] has no methods. *)
Definition with_global {A} (f : calculator -> A) : M global A :=
  g ← getM;
  match g with
  | None => raiseM AttributeError "'NoneType' object has no attribute"
  | Some c => mret (f c)
  end.

Definition get_num_microbatches : M global (option Z) := with_global get.
Definition get_current_global_batch_size : M global (option Z) := with_global get_current_global_batch_size_.
Definition get_micro_batch_size : M global (option Z) := with_global get_micro_batch_size_.
Definition get_current_running_global_batch_size : M global (option Z) :=
  with_global get_current_running_global_batch_size_.

Definition update_num_microbatches (consumed_samples : Z) (consistency_check : bool) : M global unit :=
  fun g => match g with
           | None => (raise_ AttributeError "'NoneType' object has no attribute", g)
           | Some c => let '(r, c') := update_ consumed_samples consistency_check c in (r, Some c')
           end.

Definition unset_num_microbatches_calculator : M global unit := modM (fun _ => None).
Definition destroy_num_microbatches_calculator : M global unit := modM (fun _ => None).

Definition _build_num_microbatches_calculator (rampup_batch_size : option (list Z))
    (global_batch_size micro_batch_size data_parallel_size : Z)
    (decrease_batch_size_if_needed : bool) : res calculator :=
  match rampup_batch_size with
  | None =>
      c ← Constant.init global_batch_size micro_batch_size data_parallel_size decrease_batch_size_if_needed;
      mret (ConstantNumMicroBatchesCalculator c)
  | Some l =>
      assert_ (Nat.eqb (length l) 3) "expected the following format: --rampup-batch-size <start batch size> <batch size incerement> <ramp-up samples>" ;;
      start ← py_get l 0; incr ← py_get l 1; samples ← py_get l 2;
      c ← Rampup.init global_batch_size micro_batch_size data_parallel_size decrease_batch_size_if_needed
            start incr samples;
      mret (RampupBatchsizeNumMicroBatchesCalculator c)
  end.

Definition _configure_global_num_microbatches_calculator (rampup_batch_size : option (list Z))
    (global_batch_size micro_batch_size data_parallel_size : Z)
    (decrease_batch_size_if_needed init : bool) : M global unit :=
  g ← getM;
  whenM init (assertM (is_none g) "num microbatches calculator is already initialized.") ;;
  c ← liftM (_build_num_microbatches_calculator rampup_batch_size global_batch_size micro_batch_size
               data_parallel_size decrease_batch_size_if_needed);
  modM (fun _ => Some c).

Definition init_num_microbatches_calculator (rampup_batch_size : option (list Z))
    (global_batch_size micro_batch_size data_parallel_size : Z)
    (decrease_batch_size_if_needed : bool) : M global unit :=
  _configure_global_num_microbatches_calculator rampup_batch_size global_batch_size micro_batch_size
    data_parallel_size decrease_batch_size_if_needed true.

Definition reconfigure_num_microbatches_calculator (rampup_batch_size : option (list Z))
    (global_batch_size micro_batch_size data_parallel_size : Z)
    (decrease_batch_size_if_needed : bool) : M global unit :=
  _configure_global_num_microbatches_calculator rampup_batch_size global_batch_size micro_batch_size
    data_parallel_size decrease_batch_size_if_needed false.

(* ================================================================== *)
(** ** Properties                                                      *)
(* ================================================================== *)

Lemma round_ok b d : d <> 0 -> round_ b d = Ok (b / d * d).
Proof. intros. unfold round_. by rewrite floordiv_ok. Qed.

(** Example runs: a constant calculator, and a ramp-up from 8 to 32 in steps of 8. *)
Example constant_ex : Constant.init 64 2 4 false = Ok (Constant.mk 8 64 64 2).
Proof. reflexivity. Qed.
Example constant_dec_ex : Constant.init 70 2 4 true = Ok (Constant.mk 8 70 64 2).
Proof. reflexivity. Qed.
Example rampup_ex :
  option_map Rampup.current_global_batch_size
    (match Rampup.init 32 2 4 false 8 8 300 with
     | Ok c => Some (snd (Rampup.update 150 true c)) | Err _ => None end) = Some (Some 16).
Proof. reflexivity. Qed.

(** The constant calculator is built exactly when the batch size is large
    enough and, unless it may be decreased, divisible; it then runs the largest
    multiple of [micro_batch_size * data_parallel_size] below the batch size. *)
Theorem constant_init_spec g mbs dp dec c :
  0 < mbs * dp ->
  Constant.init g mbs dp dec = Ok c <->
    (dec = true \/ (mbs * dp | g)) /\ mbs * dp <= g /\
    c = Constant.mk (g / (mbs * dp)) g (g / (mbs * dp) * (mbs * dp)) mbs.
Proof.
  intros Hp. unfold Constant.init. set (p := mbs * dp) in *.
  assert (Hge : (1 <=? g / p) = true <-> p <= g).
  { rewrite Z.leb_le. split; intros H.
    - pose proof (Z.mul_div_le g p Hp). nia.
    - apply Z.div_le_lower_bound; lia. }
  rewrite <- Z.mod_divide by lia. destruct dec; cbn [mbind res_bind mret res_ret].
  - rewrite round_ok by lia. cbn [mbind res_bind]. rewrite pymod_ok, Z.mod_mul by lia. cbn.
    rewrite floordiv_ok, Z.div_mul by lia. cbn. destruct (1 <=? g / p) eqn:E; cbn; split.
    + intros [= <-]. naive_solver.
    + intros (_ & _ & ->). done.
    + done.
    + intros (_ & H & _). apply Hge in H. congruence.
  - rewrite pymod_ok by lia. cbn [mbind res_bind].
    destruct (Z.eqb_spec (g mod p) 0) as [H0|H0]; cbn.
    + rewrite floordiv_ok by lia. cbn.
      assert (g / p * p = g) as -> by (pose proof (Z.div_mod g p); lia).
      destruct (1 <=? g / p) eqn:E; cbn; split; try done.
      * intros [= <-]. naive_solver.
      * by intros (_ & _ & ->).
      * intros (_ & H & _). apply Hge in H. congruence.
    + split; [done|]. intros ([|] & _); congruence.
Qed.

Lemma constant_init_spec_witness :
  Constant.init 70 2 4 true = Ok (Constant.mk 8 70 64 2).
Proof. apply (constant_init_spec 70 2 4 true); [lia|]. split_and!; [by left|lia|reflexivity]. Defined.

(** The parameters that [update] never changes. *)
Definition same_parameters (c c' : Rampup.t) : Prop :=
  Rampup.global_batch_size c' = Rampup.global_batch_size c /\
  Rampup.micro_batch_size c' = Rampup.micro_batch_size c /\
  Rampup.data_parallel_size c' = Rampup.data_parallel_size c /\
  Rampup.decrease_batch_size_if_needed c' = Rampup.decrease_batch_size_if_needed c /\
  Rampup.start_global_batch_size c' = Rampup.start_global_batch_size c /\
  Rampup.batch_size_increment c' = Rampup.batch_size_increment c /\
  Rampup.ramup_samples c' = Rampup.ramup_samples c /\
  Rampup.micro_batch_times_data_parallel_size c' = Rampup.micro_batch_times_data_parallel_size c /\
  Rampup.rampup_samples_per_increment c' = Rampup.rampup_samples_per_increment c.

(** The batch size [update] aims at, before any check. *)
Definition target (consumed : Z) (c : Rampup.t) : res Z :=
  if Rampup.ramup_samples c <? consumed then Ok (Rampup.global_batch_size c)
  else st ← Rampup.steps consumed c;
       Ok (Rampup.start_global_batch_size c + st * Rampup.batch_size_increment c).

(** Reference description of [update] on every branch, with the state that
    is left behind when an assertion fails. *)
Definition update_ref (consumed : Z) (chk : bool) : M Rampup.t unit := fun c =>
  let p := Rampup.micro_batch_times_data_parallel_size c in
  let dec := Rampup.decrease_batch_size_if_needed c in
  match target consumed c with
  | Err e => (Err e, c)
  | Ok v =>
      let c1 := Rampup.set_current v c in
      if negb (v <=? Rampup.global_batch_size c) then (raise_ AssertionError "", c1)
      else if chk && negb dec && negb (v mod p =? 0) then
        (raise_ AssertionError "current global batch size is not divisible by micro-batch-size times data parallel size", c1)
      else (Ok tt, Rampup.set_num (v / p) (Rampup.set_running (if dec then v / p * p else v) c1))
  end.

Lemma update_current_spec n c :
  Rampup.update_current n c =
    match target n c with
    | Err e => (Err e, c)
    | Ok v => (if v <=? Rampup.global_batch_size c then Ok v else raise_ AssertionError "",
               Rampup.set_current v c)
    end.
Proof.
  unfold Rampup.update_current, target. m_unfold.
  destruct (Rampup.ramup_samples c <? n); [by rewrite Z.leb_refl|].
  destruct (Rampup.steps n c); [|done]. by destruct (_ <=? _).
Qed.

Lemma rampup_update_aux n chk c :
  0 < Rampup.micro_batch_times_data_parallel_size c ->
  Rampup.update n chk c = update_ref n chk c.
Proof.
  intros Hp. unfold Rampup.update, update_ref. unfold mbind at 1, M_bind at 1.
  rewrite update_current_spec. destruct (target n c) as [v|e]; [|done].
  destruct (v <=? Rampup.global_batch_size c) eqn:Hv; [|done].
  destruct c as [g mbs dp dec st inc rs p per cur run num]. cbn in Hp, Hv |- *.
  m_unfold. cbn. rewrite ?pymod_ok, ?round_ok by lia. cbn.
  destruct chk, dec, (Z.eqb_spec (v mod p) 0) as [H0|H0]; cbn;
    rewrite ?pymod_ok, ?floordiv_ok, ?Z.mod_mul, ?Z.div_mul by lia; cbn;
    rewrite ?floordiv_ok, ?Z.div_mul by lia; cbn; try done.
  all: assert (v / p * p = v) as -> by (pose proof (Z.div_mod v p); lia); done.
Qed.

(** [update] of the ramp-up calculator is the reference description: the
    target batch size, the assertions in order, and the three fields; a failed
    assertion leaves the new batch size and the old number of microbatches. *)
Theorem rampup_update_spec n chk c :
  0 < Rampup.micro_batch_times_data_parallel_size c ->
  Rampup.update n chk c = update_ref n chk c.
Proof. apply rampup_update_aux. Qed.

Lemma rampup_update_spec_witness :
  match Rampup.init 12 2 3 false 4 4 100 with
  | Ok c => Rampup.update 60 true c = update_ref 60 true c /\ is_ok (fst (update_ref 60 true c)) = false
  | Err _ => False
  end.
Proof.
  vm_compute (Rampup.init _ _ _ _ _ _ _). split; [|reflexivity].
  apply rampup_update_spec. vm_compute. reflexivity.
Defined.

(** The invariant of a ramp-up calculator between calls. *)
Definition wf (c : Rampup.t) : Prop :=
  let p := Rampup.micro_batch_times_data_parallel_size c in
  0 < p /\ p = Rampup.micro_batch_size c * Rampup.data_parallel_size c /\
  exists v, v <= Rampup.global_batch_size c /\
    Rampup.current_global_batch_size c = Some v /\
    Rampup.current_running_global_batch_size c =
      Some (if Rampup.decrease_batch_size_if_needed c then v / p * p else v) /\
    Rampup.num_micro_batches c = Some (v / p).

Lemma update_ok_inv n chk c c' :
  0 < Rampup.micro_batch_times_data_parallel_size c ->
  Rampup.update n chk c = (Ok tt, c') ->
  same_parameters c c' /\
  exists v, target n c = Ok v /\ v <= Rampup.global_batch_size c /\
    (chk = true -> Rampup.decrease_batch_size_if_needed c = false ->
     v mod Rampup.micro_batch_times_data_parallel_size c = 0) /\
    Rampup.current_global_batch_size c' = Some v /\
    Rampup.current_running_global_batch_size c' =
      Some (if Rampup.decrease_batch_size_if_needed c
            then v / Rampup.micro_batch_times_data_parallel_size c * Rampup.micro_batch_times_data_parallel_size c
            else v) /\
    Rampup.num_micro_batches c' = Some (v / Rampup.micro_batch_times_data_parallel_size c).
Proof.
  intros Hp. rewrite rampup_update_aux by done. unfold update_ref.
  destruct (target n c) as [v|e]; [|done]. destruct (Z.leb_spec v (Rampup.global_batch_size c)); [|done].
  cbn [negb]. destruct (chk && _ && _) eqn:E; [done|]. intros [= <-].
  split; [by destruct c|]. exists v. split_and!; try done; [|by destruct c..].
  intros -> Hd. rewrite Hd in E. cbn in E. apply negb_false_iff, Z.eqb_eq in E. done.
Qed.

Lemma init_inv g mbs dp dec st inc rs c :
  Rampup.init g mbs dp dec st inc rs = Ok c ->
  0 < mbs * dp /\
  exists per c0, c0 = Rampup.mk g mbs dp dec st inc rs (mbs * dp) per None None None /\
    truediv rs ((g - st) / inc) = Ok per /\ Rampup.update 0 false c0 = (Ok tt, c).
Proof.
  unfold Rampup.init. intros H. inv_ok.
  rewrite pymod_ok in * by lia. rewrite floordiv_ok in * by lia. inv_ok.
  split; [lia|]. eexists _, _. split_and!; [reflexivity|done|].
  destruct (Rampup.update 0 false _) as [[[]|e] c1]; [by injection H as -> | done].
Qed.

Lemma update_wf n chk c c' :
  0 < Rampup.micro_batch_times_data_parallel_size c ->
  Rampup.micro_batch_times_data_parallel_size c = Rampup.micro_batch_size c * Rampup.data_parallel_size c ->
  Rampup.update n chk c = (Ok tt, c') -> wf c'.
Proof.
  intros Hp He H. apply update_ok_inv in H as (Hs & v & _ & Hv & _ & Hc & Hr & Hn); [|done].
  destruct Hs as (Eg & Em & Ed & Edec & _ & _ & _ & Ep & _). unfold wf.
  rewrite Ep, Em, Ed, Edec, Eg. split_and!; [done..|]. by exists v.
Qed.

Lemma updates_wf l c c' :
  wf c -> iterM (fun '(n, chk) => Rampup.update n chk) l c = (Ok tt, c') -> wf c'.
Proof.
  revert c. induction l as [|[n chk] l IH]; intros c Hwf; cbn.
  - by intros [= <-].
  - unfold mbind at 1, M_bind at 1. destruct (Rampup.update n chk c) as [[[]|e] c1] eqn:E; [|done].
    intros H. apply (IH c1); [|done]. destruct Hwf as (Hp & He & _). by apply (update_wf n chk c).
Qed.

(** (C40) After construction and any sequence of successful updates the
    calculator is well formed: the number of microbatches, the running and the
    current batch size fit together and the current one never exceeds the
    final one. *)
Theorem rampup_invariant g mbs dp dec st inc rs l c0 c :
  Rampup.init g mbs dp dec st inc rs = Ok c0 ->
  iterM (fun '(n, chk) => Rampup.update n chk) l c0 = (Ok tt, c) -> wf c.
Proof.
  intros H0 Hl. apply init_inv in H0 as (Hp & per & ci & -> & _ & Hu).
  apply (updates_wf l c0); [|done]. eapply update_wf; [| |exact Hu]; done.
Qed.

Lemma rampup_invariant_witness :
  match Rampup.init 16 2 2 false 4 4 300 with
  | Ok c0 =>
      let l := [(50, true); (150, true); (400, true)] in
      Rampup.current_global_batch_size (snd (iterM (fun '(n, chk) => Rampup.update n chk) l c0)) = Some 16 /\
      wf (snd (iterM (fun '(n, chk) => Rampup.update n chk) l c0))
  | Err _ => False
  end.
Proof.
  vm_compute (Rampup.init _ _ _ _ _ _ _). split; [reflexivity|].
  apply (rampup_invariant 16 2 2 false 4 4 300 [(50, true); (150, true); (400, true)]
           (Rampup.mk 16 2 2 false 4 4 300 4 (S754_finite false 7036874417766400 (-46)) (Some 4) (Some 4) (Some 1)));
    vm_compute; reflexivity.
Defined.

(** The intended ramp-up: one increment every [k] samples up to the final batch size. *)
Definition intended (g st inc num k n : Z) : Z :=
  if num * k <? n then g else st + n / k * inc.

Lemma target_intended c num k n :
  0 < num -> 0 < k -> num * k < 2 ^ 53 -> 0 <= n < 2 ^ 53 ->
  Rampup.ramup_samples c = num * k ->
  canon (Rampup.rampup_samples_per_increment c) k ->
  target n c = Ok (intended (Rampup.global_batch_size c) (Rampup.start_global_batch_size c)
                     (Rampup.batch_size_increment c) num k n).
Proof.
  intros Hnum Hk Hb Hn Hr Hc. unfold target, intended. rewrite Hr.
  destruct (num * k <? n); [done|]. unfold Rampup.steps.
  rewrite (int_truediv_canon n _ k) by (done || nia). done.
Qed.

Lemma intended_le g st inc num k n :
  0 < num -> 0 < k -> 0 < inc -> g = st + num * inc -> intended g st inc num k n <= g.
Proof.
  intros Hnum Hk Hi ->. unfold intended. destruct (Z.ltb_spec (num * k) n); [lia|].
  assert (n / k <= num) by (apply Z.div_le_upper_bound; lia). nia.
Qed.

(** When the ramp-up samples are [k] per increment, construction succeeds
    and for every sample count below [2^53] an update succeeds with exactly
    the intended batch size: no floating-point error is visible. *)
Theorem rampup_exact g mbs dp dec st inc num k :
  0 < mbs * dp -> 0 < st -> 0 < inc -> 0 < num -> 0 < k -> num * k < 2 ^ 53 ->
  g = st + num * inc ->
  exists c, Rampup.init g mbs dp dec st inc (num * k) = Ok c /\
    forall n, 0 <= n < 2 ^ 53 -> exists c', Rampup.update n false c = (Ok tt, c') /\
      Rampup.current_global_batch_size c' = Some (intended g st inc num k n) /\
      Rampup.num_micro_batches c' = Some (intended g st inc num k n / (mbs * dp)).
Proof.
  intros Hp Hst Hinc Hnum Hk Hb Hg.
  assert (Hdiff : g - st = num * inc) by lia.
  destruct (truediv_canon (num * k) num) as (per & Hper & Hcan); [nia|nia|by rewrite Z.mul_comm, Z.mod_mul by lia|].
  rewrite Z.mul_comm, Z.div_mul in Hcan by lia.
  assert (Hupd : forall c n, Rampup.global_batch_size c = g -> Rampup.start_global_batch_size c = st ->
    Rampup.batch_size_increment c = inc -> Rampup.ramup_samples c = num * k ->
    Rampup.micro_batch_times_data_parallel_size c = mbs * dp ->
    Rampup.rampup_samples_per_increment c = per -> 0 <= n < 2 ^ 53 ->
    exists c', Rampup.update n false c = (Ok tt, c') /\ same_parameters c c' /\
      Rampup.current_global_batch_size c' = Some (intended g st inc num k n) /\
      Rampup.num_micro_batches c' = Some (intended g st inc num k n / (mbs * dp))).
  { intros c n E1 E2 E3 E4 E5 E6 Hn. rewrite rampup_update_aux by lia. unfold update_ref.
    rewrite (target_intended c num k) by (done || by rewrite E6). rewrite E1, E2, E3, E5.
    rewrite (proj2 (Z.leb_le _ _) (intended_le g st inc num k n Hnum Hk Hinc Hg)). cbn [negb andb].
    eexists. split; [done|]. by destruct c. }
  unfold Rampup.init. rewrite Hdiff.
  rewrite pymod_ok, Z.mod_mul, floordiv_ok, Z.div_mul by lia.
  rewrite !(proj2 (Z.ltb_lt 0 _)) by nia. rewrite !(proj2 (Z.leb_le 0 _)) by nia. cbn -[truediv Rampup.update].
  rewrite Hper. cbn -[Rampup.update].
  destruct (Hupd (Rampup.mk g mbs dp dec st inc (num * k) (mbs * dp) per None None None) 0)
    as (c & -> & Hs & _); [done..|lia|]. exists c. split; [done|]. intros n Hn.
  destruct Hs as (Eg & Em & Ed & Edec & Es & Ei & Er & Ep & Eper). cbn in *.
  destruct (Hupd c n) as (c' & Hu & _ & H1 & H2); try done; [congruence..|]. by exists c'.
Qed.

Lemma rampup_exact_witness :
  exists c, Rampup.init 32 2 4 false 8 8 (3 * 100) = Ok c /\
    forall n, 0 <= n < 2 ^ 53 -> exists c', Rampup.update n false c = (Ok tt, c') /\
      Rampup.current_global_batch_size c' = Some (intended 32 8 8 3 100 n) /\
      Rampup.num_micro_batches c' = Some (intended 32 8 8 3 100 n / (2 * 4)).
Proof. apply (rampup_exact 32 2 4 false 8 8 3 100); lia. Defined.

(** The arguments that pass every assertion of the ramp-up constructor. *)
Definition accepted (g mbs dp st inc rs : Z) : Prop :=
  0 < g /\ 0 < st /\ 0 < inc /\ 0 <= rs /\ 0 < mbs * dp /\ st <= g /\ (g - st) mod inc = 0.

Lemma init_accepted g mbs dp dec st inc rs :
  accepted g mbs dp st inc rs ->
  Rampup.init g mbs dp dec st inc rs =
    (per ← truediv rs ((g - st) / inc);
     match Rampup.update 0 false (Rampup.mk g mbs dp dec st inc rs (mbs * dp) per None None None) with
     | (Ok _, c) => Ok c
     | (Err e, _) => Err e
     end).
Proof.
  intros (H1 & H2 & H3 & H4 & H5 & H6 & H7). unfold Rampup.init.
  rewrite pymod_ok, H7, floordiv_ok by lia. rewrite !(proj2 (Z.ltb_lt 0 _)) by lia.
  rewrite !(proj2 (Z.leb_le 0 _)) by lia. done.
Qed.

(** A ramp-up whose start batch size already is the final one passes every
    assertion of the constructor and then fails with a division by zero: the
    code divides by the number of increments, which is zero. *)
Theorem rampup_without_increment_raises g mbs dp dec inc rs :
  accepted g mbs dp g inc rs ->
  raises ZeroDivisionError (Rampup.init g mbs dp dec g inc rs) = true.
Proof.
  intros H. rewrite init_accepted by done. destruct H as (_ & _ & Hinc & _).
  rewrite Z.sub_diag, Z.div_0_l by lia. done.
Qed.

Lemma rampup_without_increment_raises_witness :
  raises ZeroDivisionError (Rampup.init 32 2 4 false 32 8 300) = true.
Proof. apply (rampup_without_increment_raises 32 2 4 false 8 300). unfold accepted. split_and!; try lia. reflexivity. Defined.

(** A ramp-up over zero samples, which the constructor's assertion
    [ramup_samples >= 0] accepts, fails with a division by zero in the first
    update. *)
Theorem rampup_over_zero_samples_raises g mbs dp dec st inc :
  accepted g mbs dp st inc 0 -> st < g ->
  raises ZeroDivisionError (Rampup.init g mbs dp dec st inc 0) = true.
Proof.
  intros H Hlt. rewrite init_accepted by done. destruct H as (H1 & H2 & H3 & H4 & H5 & H6 & H7).
  assert (0 < (g - st) / inc) as Hd.
  { apply Z.div_str_pos. split; [lia|]. apply Z.mod_divide in H7 as [q Hq]; [|lia].
    destruct (Z.le_gt_cases q 0); nia. }
  destruct ((g - st) / inc) as [|p|p]; [lia| |lia]. reflexivity.
Qed.

Lemma rampup_over_zero_samples_raises_witness :
  raises ZeroDivisionError (Rampup.init 32 2 4 false 8 8 0) = true.
Proof. apply (rampup_over_zero_samples_raises 32 2 4 false 8 8); [|lia]. unfold accepted. split_and!; try lia. reflexivity. Defined.

(** Without that divisibility the truncation is visible: with seven
    increments over nine samples the batch size at the end of the ramp-up is
    one increment below the final one. *)
Theorem rampup_truncation_visible :
  match Rampup.init 8 1 1 false 1 1 9 with
  | Ok c => Rampup.current_global_batch_size (snd (Rampup.update 9 true c)) = Some 7 /\
            Rampup.current_global_batch_size (snd (Rampup.update 10 true c)) = Some 8
  | Err _ => False
  end.
Proof. vm_compute. split; reflexivity. Qed.

(** Configuration of the global calculator: initialising twice is refused,
    a failed configuration leaves the previous calculator in place, and a
    successful one installs what [_build] returns. *)
Theorem configure_spec rbs g mbs dp dec (init : bool) (old : global) :
  _configure_global_num_microbatches_calculator rbs g mbs dp dec init old =
    if init && negb (is_none old) then
      (raise_ AssertionError "num microbatches calculator is already initialized.", old)
    else match _build_num_microbatches_calculator rbs g mbs dp dec with
         | Ok c => (Ok tt, Some c)
         | Err e => (Err e, old)
         end.
Proof.
  unfold _configure_global_num_microbatches_calculator. m_unfold.
  destruct init, old; cbn; destruct (_build_num_microbatches_calculator rbs g mbs dp dec); done.
Qed.
