(* ===== verification/RankGroups.v ===== *)
(** * Orthogonal rank groups

    [generate_masked_orthogonal_rank_groups] and [RankGenerator] of
    [megatron/core/parallel_state.py]: how a world of ranks is cut into
    tensor-, context-, expert-, data- and pipeline-parallel groups.  The
    theory is mixed-radix arithmetic: a rank is a list of digits, a group
    fixes the digits outside the mask. *)

From Stdlib Require Import Sorting.Sorted.
From S2P Require Import Prelude.

(* ================================================================== *)
(** ** Definitions                                                     *)
(* ================================================================== *)

(** [prefix_product(a, init)] *)
Fixpoint prefix_product (a : list Z) (init : Z) : list Z :=
  match a with
  | [] => [init]
  | v :: a' => init :: prefix_product a' (init * v)
  end.

(** [inner_product(a, b)] *)
Definition inner_product (a b : list Z) : Z := zsum (zip_with Z.mul a b).
Arguments inner_product : simpl never.

(** [decompose(index, shape)]; every call leaves [stride] at its default. *)
Definition decompose (index : Z) (shape : list Z) : res (list Z) :=
  let stride := prefix_product shape 1 in
  idx ← mapR (fun '(s, d) => q ← floordiv index d; pymod q s) (zip shape stride);
  assert_ (zsum (zip_with Z.mul idx (take (length stride - 1) stride)) =? index)
    "idx with shape mismatch the return idx" ;;
  mret idx.

(** [[x for x, m in zip(l, mask) if m == b]] *)
Fixpoint pick {A} (b : bool) (l : list A) (mask : list bool) : list A :=
  match l, mask with
  | x :: l', m :: mask' => if Bool.eqb m b then x :: pick b l' mask' else pick b l' mask'
  | _, _ => []
  end.

(** [a[-1]] of a list built by [prefix_product]. *)
Definition last_ (l : list Z) : Z := List.last l 1.

(** One round of the loop over the group index: the ranks of that group. *)
Definition one_group (parallel_size : list Z) (mask : list bool) (group_size group_index : Z) : res (list Z) :=
  let masked_shape := pick true parallel_size mask in
  let unmasked_shape := pick false parallel_size mask in
  let global_stride := prefix_product parallel_size 1 in
  let masked_stride := pick true global_stride mask in
  let unmasked_stride := pick false global_stride mask in
  decomposed_group_idx ← decompose group_index unmasked_shape;
  mapR (fun rank_in_group =>
    decomposed_rank_idx ← decompose rank_in_group masked_shape;
    mret (inner_product decomposed_rank_idx masked_stride
          + inner_product decomposed_group_idx unmasked_stride))
    (zrange 0 group_size).

Definition generate_masked_orthogonal_rank_groups (world_size : Z) (parallel_size : list Z)
    (mask : list bool) : res (list (list Z)) :=
  let masked_shape := pick true parallel_size mask in
  let group_size := last_ (prefix_product masked_shape 1) in
  num_of_group ← floordiv world_size group_size;
  mapR (one_group parallel_size mask group_size) (zrange 0 num_of_group).

(** *** [RankGenerator] *)

Record RankGenerator := mkRG {
  rg_name_to_size : list (string * Z);
  rg_order : string;
  rg_ordered_size : list Z;
  rg_world_size : Z;
  rg_rank_offset : Z
}.

Definition parallel_names : list string := ["tp"; "pp"; "dp"; "ep"; "cp"].

Fixpoint dict_get (d : list (string * Z)) (k : string) : res Z :=
  match d with
  | [] => raise_ KeyError "name_to_size"
  | (k', v) :: d' => if bool_decide (k = k') then Ok v else dict_get d' k
  end.

(** The loop that checks the order and appends the missing names of size one. *)
Definition complete_order (name_to_size : list (string * Z)) (order : string) : res string :=
  foldR (fun order '(name, size) =>
    if negb (py_in_str name order) && negb (size =? 1) then
      raise_ RuntimeError "The size is not 1, but you haven't specified the order"
    else if negb (py_in_str name order) then mret (order +:+ "-" +:+ name)
    else mret order) order name_to_size.

Definition RankGenerator_init (tp ep dp pp cp : Z) (order : string) (rank_offset : Z) : res RankGenerator :=
  assert_ ((ep =? 1) || (cp =? 1)) "Both EP and CP > 1 in not allow in one rank generator." ;;
  let name_to_size := [("tp", tp); ("pp", pp); ("dp", dp); ("ep", ep); ("cp", cp)] in
  order ← complete_order name_to_size (py_lower order);
  ordered_size ← mapR (dict_get name_to_size) (py_split "-" order);
  mret (mkRG name_to_size order ordered_size (tp * dp * pp * cp * ep) rank_offset).

Definition get_mask (order token : string) : res (list bool) :=
  let ordered_token := py_split "-" order in
  foldR (fun mask t => i ← py_index ordered_token t; mret (<[Z.to_nat i := true]> mask))
    (replicate (length ordered_token) false) (py_split "-" token).

Definition get_ranks (rg : RankGenerator) (token : string) : res (list (list Z)) :=
  mask ← get_mask (rg_order rg) token;
  ranks ← generate_masked_orthogonal_rank_groups (rg_world_size rg) (rg_ordered_size rg) mask;
  mret (if 0 <? rg_rank_offset rg then map (map (fun r => r + rg_rank_offset rg)) ranks else ranks).

(** The docstring's examples: [dp] groups of a 2-2-2 world in order tp-pp-dp, and
    the 2-3-4 world of order tp-dp-pp. *)
Example doc_dp_groups :
  generate_masked_orthogonal_rank_groups 8 [2; 2; 2] [false; false; true]
  = Ok [[0; 4]; [1; 5]; [2; 6]; [3; 7]].
Proof. reflexivity. Qed.
Example doc_234 :
  option_map (fun g => (g !! 0%nat, g !! 7%nat))
    (match generate_masked_orthogonal_rank_groups 24 [2; 3; 4] [false; true; false] with
     | Ok g => Some g | Err _ => None end)
  = Some (Some [0; 2; 4], Some [19; 21; 23]).
Proof. reflexivity. Qed.
Example rg_16 :
  (rg ← RankGenerator_init 2 1 2 4 1 "tp-cp-ep-dp-pp" 0; get_ranks rg "pp")
  = Ok [[0; 4; 8; 12]; [1; 5; 9; 13]; [2; 6; 10; 14]; [3; 7; 11; 15]].
Proof. reflexivity. Qed.

(* ================================================================== *)
(** ** Mixed-radix arithmetic                                          *)
(* ================================================================== *)

Definition positive_sizes (shape : list Z) : Prop := Forall (fun s => 0 < s) shape.

(** The digits of [r] in the mixed radix [shape], least significant first. *)
Fixpoint digits (shape : list Z) (r : Z) : list Z :=
  match shape with
  | [] => []
  | s :: shape' => r mod s :: digits shape' (r / s)
  end.

(** The value of a list of digits. *)
Fixpoint undigits (shape xs : list Z) : Z :=
  match shape, xs with
  | s :: shape', x :: xs' => x + s * undigits shape' xs'
  | _, _ => 0
  end.

Definition valid_digits (shape xs : list Z) : Prop := Forall2 (fun s x => 0 <= x < s) shape xs.

Lemma length_digits shape r : length (digits shape r) = length shape.
Proof. revert r. induction shape; intros; cbn; auto. Qed.

Lemma digits_valid shape r : positive_sizes shape -> valid_digits shape (digits shape r).
Proof.
  unfold valid_digits. intros H. revert r. induction H as [|s shape Hs _ IH]; intros r; cbn; constructor; [|done].
  by apply Z.mod_pos_bound.
Qed.

Lemma undigits_digits shape r : positive_sizes shape -> undigits shape (digits shape r) = r mod zprod shape.
Proof.
  intros H. revert r. induction H as [|s shape Hs Hf IH]; intros r; cbn; [by rewrite Z.mod_1_r|].
  rewrite IH. fold (zprod shape). rewrite Z.rem_mul_r by (pose proof (zprod_pos shape Hf); lia). lia.
Qed.

Lemma undigits_bound shape xs : valid_digits shape xs -> 0 <= undigits shape xs < zprod shape.
Proof.
  induction 1 as [|s x shape xs Hx _ IH]; cbn; [lia|]. fold (zprod shape). nia.
Qed.

Lemma digits_undigits shape xs : valid_digits shape xs -> digits shape (undigits shape xs) = xs.
Proof.
  induction 1 as [|s x shape xs Hx Hf IH]; cbn; [done|].
  rewrite (Z.mul_comm s), Z.mod_add, Z.mod_small, Z.div_add, Z.div_small by lia. by rewrite Z.add_0_l, IH.
Qed.

(** Two numbers below the product with the same digits are equal. *)
Lemma digits_inj shape r1 r2 : positive_sizes shape ->
  0 <= r1 < zprod shape -> 0 <= r2 < zprod shape -> digits shape r1 = digits shape r2 -> r1 = r2.
Proof.
  intros Hs H1 H2 H. rewrite <- (Z.mod_small r1 (zprod shape)), <- (Z.mod_small r2 (zprod shape)) by done.
  by rewrite <- !undigits_digits, H.
Qed.

(** *** The code's strides compute these digits *)

Lemma prefix_product_digits shape init r : positive_sizes shape -> 0 < init ->
  map (fun '(s, d) => (r / d) mod s) (zip shape (prefix_product shape init)) = digits shape (r / init).
Proof.
  intros H. revert init. induction H as [|s shape Hs Hf IH]; intros init Hi; cbn; [done|].
  f_equal. rewrite IH by nia. by rewrite Z.div_div by lia.
Qed.

Lemma prefix_product_pos shape init : positive_sizes shape -> 0 < init ->
  Forall (fun d => 0 < d) (prefix_product shape init).
Proof.
  intros H. revert init. induction H as [|s shape Hs Hf IH]; intros init Hi; cbn; [by constructor|].
  constructor; [done|]. apply IH. nia.
Qed.

Lemma inner_product_cons x a y b : inner_product (x :: a) (y :: b) = x * y + inner_product a b.
Proof. done. Qed.

Lemma inner_product_prefix shape xs init :
  length xs = length shape -> inner_product xs (prefix_product shape init) = init * undigits shape xs.
Proof.
  revert xs init. induction shape as [|s shape IH]; intros [|x xs] init Hl; try done.
  - unfold inner_product. cbn. lia.
  - cbn [prefix_product undigits]. rewrite inner_product_cons, IH by (cbn in Hl; lia). lia.
Qed.

Lemma length_prefix_product shape init : length (prefix_product shape init) = S (length shape).
Proof. revert init. induction shape; intros; cbn; auto. Qed.

Lemma last_prefix_product shape init : last_ (prefix_product shape init) = init * zprod shape.
Proof.
  revert init. induction shape as [|s shape IH]; intros init; [cbn; lia|].
  cbn [prefix_product zprod fold_right]. fold (zprod shape).
  transitivity (last_ (prefix_product shape (init * s))); [|rewrite IH; lia].
  destruct shape; done.
Qed.

Lemma zip_with_take_r {A B C} (f : A -> B -> C) l1 l2 n :
  (length l1 <= n)%nat -> zip_with f l1 (take n l2) = zip_with f l1 l2.
Proof.
  revert l2 n. induction l1 as [|x l1 IH]; intros [|y l2] [|n] H; cbn in *; try done; try lia.
  f_equal. apply IH. lia.
Qed.

(** [decompose] computes the digits of every index below the product of the
    shape, and its assertion fails on every other index. *)
Lemma decompose_spec index shape : positive_sizes shape ->
  decompose index shape =
    if bool_decide (0 <= index < zprod shape) then Ok (digits shape index)
    else raise_ AssertionError "idx with shape mismatch the return idx".
Proof.
  intros Hs. unfold decompose.
  assert (mapR (fun '(s, d) => q ← floordiv index d; pymod q s) (zip shape (prefix_product shape 1))
          = Ok (digits shape index)) as ->.
  { replace (digits shape index) with (digits shape (index / 1)) by (by rewrite Z.div_1_r).
    rewrite <- prefix_product_digits by (done || lia).
    apply mapR_total. intros [s d] Hin.
    pose proof (elem_of_zip_l _ _ _ _ Hin) as H1. pose proof (elem_of_zip_r _ _ _ _ Hin) as H2.
    pose proof (prefix_product_pos shape 1 Hs ltac:(lia)) as Hp.
    rewrite Forall_forall in Hp. unfold positive_sizes in Hs. rewrite Forall_forall in Hs.
    specialize (Hp _ H2). specialize (Hs _ H1). rewrite floordiv_ok by lia. cbn. by rewrite pymod_ok by lia. }
  cbn [mbind res_bind]. rewrite length_prefix_product.
  rewrite zip_with_take_r by (rewrite length_digits; lia).
  fold (inner_product (digits shape index) (prefix_product shape 1)).
  rewrite inner_product_prefix by apply length_digits. rewrite Z.mul_1_l, undigits_digits by done.
  pose proof (zprod_pos shape Hs) as Hpos. pose proof (Z.mod_pos_bound index _ Hpos).
  case_bool_decide as Hr; destruct (Z.eqb_spec (index mod zprod shape) index) as [E|E]; cbn; try done.
  - exfalso. apply E. by apply Z.mod_small.
  - exfalso. lia.
Qed.

(** *** Masked and unmasked digits *)

(** Interleave the digits of the masked and of the unmasked dimensions. *)
Fixpoint merge {A} (mask : list bool) (a b : list A) : list A :=
  match mask, a, b with
  | true :: m, x :: a', _ => x :: merge m a' b
  | false :: m, _, y :: b' => y :: merge m a b'
  | _, _, _ => []
  end.

Lemma merge_pick {A} (l : list A) mask :
  length mask = length l -> merge mask (pick true l mask) (pick false l mask) = l.
Proof.
  revert mask. induction l as [|x l IH]; intros [|[] mask] H; cbn in *; try done; f_equal; apply IH; lia.
Qed.

Lemma pick_merge (shape : list Z) mask (a b : list Z) :
  length mask = length shape ->
  length a = length (pick true shape mask) -> length b = length (pick false shape mask) ->
  pick true (merge mask a b) mask = a /\ pick false (merge mask a b) mask = b /\
  length (merge mask a b) = length shape.
Proof.
  revert mask a b. induction shape as [|s shape IH]; intros [|[] mask] a b Hm Ha Hb; cbn in *; try done.
  - by destruct a, b.
  - destruct a as [|x a]; [done|]. cbn in *.
    destruct (IH mask a b) as (-> & -> & ->); [lia..|done].
  - destruct b as [|y b]; [done|]. cbn.
    destruct (IH mask a b) as (-> & -> & ->); [cbn in *; lia..|].
    by split_and!.
Qed.

Lemma valid_pick shape mask xs b : valid_digits shape xs -> length mask = length shape ->
  valid_digits (pick b shape mask) (pick b xs mask).
Proof.
  unfold valid_digits. intros H. revert mask.
  induction H as [|s x shape xs Hx _ IH]; intros [|m mask] Hl; cbn in *; try done; try constructor.
  destruct (Bool.eqb m b); [constructor; [done|]|]; apply IH; lia.
Qed.

Lemma valid_merge shape mask a b : length mask = length shape ->
  valid_digits (pick true shape mask) a -> valid_digits (pick false shape mask) b ->
  valid_digits shape (merge mask a b).
Proof.
  unfold valid_digits. revert mask a b.
  induction shape as [|s shape IH]; intros [|[] mask] a b Hm Ha Hb; cbn in *; try done.
  - inversion Ha as [|? x ? a' Hx Ha']; subst. constructor; [done|]. apply IH; try done. lia.
  - inversion Hb as [|? y ? b' Hy Hb']; subst. destruct a; (constructor; [done|]; apply IH; [lia|done|done]).
Qed.

Lemma positive_pick shape mask b : positive_sizes shape -> positive_sizes (pick b shape mask).
Proof.
  unfold positive_sizes. intros H. revert mask.
  induction H as [|s shape Hs _ IH]; intros [|m mask]; cbn; try constructor.
  destruct (Bool.eqb m b); [constructor; auto|auto].
Qed.

Lemma zprod_pick shape mask : length mask = length shape ->
  zprod (pick true shape mask) * zprod (pick false shape mask) = zprod shape.
Proof.
  unfold zprod. revert mask. induction shape as [|s shape IH]; intros [|[] mask] H; cbn in *; try done.
  - rewrite <- (IH mask) by lia. lia.
  - rewrite <- (IH mask) by lia. lia.
Qed.

(** Adding the two inner products of the code is one inner product over all dimensions. *)
Lemma inner_product_merge (shape stride : list Z) mask a b :
  length mask = length shape -> (length shape <= length stride)%nat ->
  length a = length (pick true shape mask) -> length b = length (pick false shape mask) ->
  inner_product a (pick true stride mask) + inner_product b (pick false stride mask)
  = inner_product (merge mask a b) stride.
Proof.
  revert stride mask a b. induction shape as [|s shape IH]; intros stride [|[] mask] a b Hm Hs Ha Hb; cbn in *; try done.
  - by destruct a, b, stride.
  - destruct a as [|x a]; [done|]. destruct stride as [|d stride]; [cbn in *; lia|]. cbn [pick Bool.eqb merge].
    rewrite !inner_product_cons. rewrite <- (IH stride mask a b) by (cbn in *; lia). lia.
  - destruct b as [|y b]; [done|]. destruct stride as [|d stride]; [cbn in *; lia|]. cbn [pick Bool.eqb].
    replace (merge (false :: mask) a (y :: b)) with (y :: merge mask a b) by (by destruct a).
    rewrite !inner_product_cons. rewrite <- (IH stride mask a b) by (cbn in *; lia). lia.
Qed.

(* ================================================================== *)
(** ** What the generated groups are                                   *)
(* ================================================================== *)

(** The group of a rank, and its place in it. *)
Definition group_of (shape : list Z) (mask : list bool) (r : Z) : Z :=
  undigits (pick false shape mask) (pick false (digits shape r) mask).
Definition place_of (shape : list Z) (mask : list bool) (r : Z) : Z :=
  undigits (pick true shape mask) (pick true (digits shape r) mask).

(** The rank at place [j] of group [g]. *)
Definition rank_at (shape : list Z) (mask : list bool) (g j : Z) : Z :=
  undigits shape (merge mask (digits (pick true shape mask) j) (digits (pick false shape mask) g)).

(** Filling the masked digits with a larger index gives a larger rank. *)
Lemma undigits_merge_lt shape mask b j1 j2 : positive_sizes shape -> length mask = length shape ->
  length b = length (pick false shape mask) ->
  0 <= j1 < j2 -> j2 < zprod (pick true shape mask) ->
  undigits shape (merge mask (digits (pick true shape mask) j1) b)
  < undigits shape (merge mask (digits (pick true shape mask) j2) b).
Proof.
  intros Hs. revert mask b j1 j2. induction Hs as [|s shape Hs Hf IH]; intros [|m mask] b j1 j2 Hm Hb Hj Hj2;
    cbn in Hm, Hb, Hj2; try done; [unfold zprod in Hj2; cbn in Hj2; lia|].
  destruct m; cbn in Hb, Hj2.
  - cbn. pose proof (Z.div_mod j1 s ltac:(lia)) as D1. pose proof (Z.div_mod j2 s ltac:(lia)) as D2.
    pose proof (Z.mod_pos_bound j1 s Hs) as B1. pose proof (Z.mod_pos_bound j2 s Hs) as B2.
    pose proof (Z.div_le_mono j1 j2 s Hs ltac:(lia)) as Hle. pose proof (Z.div_pos j1 s ltac:(lia) Hs) as Hp.
    destruct (Z.eq_dec (j1 / s) (j2 / s)) as [E|Hne]; [rewrite E in *; lia|].
    assert (j2 / s < zprod (pick true shape mask)) as Hlt.
    { apply Z.div_lt_upper_bound; [lia|]. exact Hj2. }
    pose proof (IH mask b (j1 / s) (j2 / s) ltac:(lia) ltac:(done) ltac:(lia) Hlt) as H'. nia.
  - destruct b as [|y b]; [done|].
    assert (Hc : forall a : list Z, merge (false :: mask) a (y :: b) = y :: merge mask a b) by (by intros []).
    cbn [Bool.eqb pick]. rewrite !Hc. cbn [undigits].
    pose proof (IH mask b j1 j2 ltac:(lia) ltac:(cbn in Hb; lia) Hj Hj2). nia.
Qed.

Section Groups.
Context (shape : list Z) (mask : list bool).
Context (Hpos : positive_sizes shape) (Hmask : length mask = length shape).

Let ms := pick true shape mask.
Let us := pick false shape mask.

Lemma rank_at_spec g j : 0 <= g < zprod us -> 0 <= j < zprod ms ->
  0 <= rank_at shape mask g j < zprod shape /\
  group_of shape mask (rank_at shape mask g j) = g /\ place_of shape mask (rank_at shape mask g j) = j.
Proof.
  intros Hg Hj. pose proof (positive_pick shape mask true Hpos) as Hms.
  pose proof (positive_pick shape mask false Hpos) as Hus.
  pose proof (digits_valid _ j Hms) as Vj. pose proof (digits_valid _ g Hus) as Vg.
  pose proof (valid_merge _ _ _ _ Hmask Vj Vg) as Vm.
  unfold group_of, place_of, rank_at. rewrite digits_undigits by done.
  destruct (pick_merge shape mask (digits ms j) (digits us g)) as (E1 & E2 & _);
    [done|apply length_digits|apply length_digits|]. fold ms us. rewrite E1, E2.
  split; [by apply undigits_bound|]. rewrite !undigits_digits by done.
  by rewrite !Z.mod_small by done.
Qed.

Lemma rank_at_group_place r : 0 <= r < zprod shape ->
  0 <= group_of shape mask r < zprod us /\ 0 <= place_of shape mask r < zprod ms /\
  rank_at shape mask (group_of shape mask r) (place_of shape mask r) = r.
Proof.
  intros Hr. pose proof (digits_valid shape r Hpos) as V.
  pose proof (valid_pick _ mask _ true V Hmask) as Vt. pose proof (valid_pick _ mask _ false V Hmask) as Vf.
  split_and!; [apply undigits_bound, Vf|apply undigits_bound, Vf|apply undigits_bound, Vt|apply undigits_bound, Vt|].
  unfold rank_at, group_of, place_of. rewrite !digits_undigits by done.
  rewrite merge_pick by by rewrite length_digits. by rewrite undigits_digits, Z.mod_small.
Qed.

Lemma one_group_spec g : 0 <= g < zprod us ->
  one_group shape mask (zprod ms) g = Ok (map (rank_at shape mask g) (zrange 0 (zprod ms))).
Proof.
  intros Hg. pose proof (positive_pick shape mask true Hpos) as Hms.
  pose proof (positive_pick shape mask false Hpos) as Hus.
  unfold one_group. rewrite decompose_spec by done.
  rewrite bool_decide_eq_true_2 by done. cbn [mbind res_bind].
  apply mapR_total. intros j Hj%elem_of_zrange. rewrite decompose_spec by done.
  rewrite bool_decide_eq_true_2 by done. cbn [mbind res_bind mret res_ret]. f_equal.
  rewrite (inner_product_merge shape) by
    (done || rewrite ?length_prefix_product, ?length_digits; (done || lia)).
  rewrite inner_product_prefix, Z.mul_1_l; [done|].
  by apply (pick_merge shape); [done|apply length_digits|apply length_digits].
Qed.

Definition groups : list (list Z) :=
  map (fun g => map (rank_at shape mask g) (zrange 0 (zprod ms))) (zrange 0 (zprod us)).

Lemma generate_groups :
  generate_masked_orthogonal_rank_groups (zprod shape) shape mask = Ok groups.
Proof.
  pose proof (zprod_pos _ (positive_pick shape mask true Hpos)) as Pm.
  pose proof (zprod_pick shape mask Hmask) as Hprod.
  unfold generate_masked_orthogonal_rank_groups. rewrite last_prefix_product, Z.mul_1_l.
  rewrite floordiv_ok by lia.
  replace (zprod shape / zprod (pick true shape mask)) with (zprod us)
    by (rewrite <- Hprod, Z.mul_comm; symmetry; apply Z.div_mul; lia).
  cbn [mbind res_bind]. apply mapR_total. intros g Hg%elem_of_zrange. by apply one_group_spec.
Qed.


(** Position [j] of group [i] holds the rank whose group is [i] and whose place is [j]. *)
Lemma groups_lookup (i j : nat) r :
  (exists l, groups !! i = Some l /\ l !! j = Some r) <->
  0 <= r < zprod shape /\ group_of shape mask r = Z.of_nat i /\ place_of shape mask r = Z.of_nat j.
Proof.
  unfold groups. split.
  - intros (l & Hi & Hj). apply list_lookup_fmap_Some in Hi as (g & -> & Hg).
    apply list_lookup_fmap_Some in Hj as (p & -> & Hp). unfold zrange in Hg, Hp.
    apply lookup_seqZ in Hg as [-> Hg], Hp as [-> Hp].
    destruct (rank_at_spec (0 + Z.of_nat i) (0 + Z.of_nat j)) as (H1 & H2 & H3); [lia|lia|].
    rewrite H2, H3. split_and!; lia.
  - intros (Hr & Hg & Hp). destruct (rank_at_group_place r Hr) as (Bg & Bp & E).
    exists (map (rank_at shape mask (Z.of_nat i)) (zrange 0 (zprod ms))). split.
    + apply list_lookup_fmap_Some. exists (Z.of_nat i). split; [done|].
      by rewrite lookup_zrange by lia.
    + apply list_lookup_fmap_Some. exists (Z.of_nat j). split; [by rewrite <- Hg, <- Hp, E|].
      by rewrite lookup_zrange by lia.
Qed.

Lemma groups_elem (i : nat) l r : groups !! i = Some l ->
  r ∈ l <-> 0 <= r < zprod shape /\ group_of shape mask r = Z.of_nat i.
Proof.
  intros Hl. split.
  - intros [j Hj]%list_elem_of_lookup. destruct (proj1 (groups_lookup i j r)) as (H1 & H2 & _); eauto.
  - intros [Hr Hg]. destruct (rank_at_group_place r Hr) as (_ & Bp & _).
    destruct (proj2 (groups_lookup i (Z.to_nat (place_of shape mask r)) r)) as (l' & Hl' & Hj);
      [split_and!; (done || lia)|]. rewrite Hl in Hl'. injection Hl' as <-. by eapply list_elem_of_lookup_2.
Qed.

Lemma groups_NoDup : Forall NoDup groups.
Proof.
  rewrite Forall_lookup. intros i l Hl. apply NoDup_alt. intros j1 j2 r H1 H2.
  destruct (proj1 (groups_lookup i j1 r)) as (_ & _ & E1); [eauto|].
  destruct (proj1 (groups_lookup i j2 r)) as (_ & _ & E2); [eauto|]. lia.
Qed.

Lemma groups_sorted : Forall (StronglySorted Z.lt) groups.
Proof.
  unfold groups. apply Forall_forall. intros l Hl. apply list_elem_of_fmap in Hl as (g & -> & Hg%elem_of_zrange).
  assert (H : forall n a, 0 <= a -> a + Z.of_nat n <= zprod ms ->
    StronglySorted Z.lt (map (rank_at shape mask g) (seqZ a (Z.of_nat n)))).
  { induction n as [|n IH]; intros a Ha Hn; [constructor|]. rewrite seqZ_cons by lia. cbn [map].
    replace (Z.pred (Z.of_nat (S n))) with (Z.of_nat n) by lia. constructor; [apply IH; lia|].
    apply Forall_forall. intros x Hx. apply list_elem_of_fmap in Hx as (j & -> & Hj%elem_of_seqZ).
    unfold rank_at. apply undigits_merge_lt; try done; [by rewrite length_digits|lia|fold ms; lia]. }
  unfold zrange. rewrite Z.sub_0_r. pose proof (zprod_pos _ (positive_pick shape mask true Hpos)) as Hp.
  fold ms in Hp. rewrite <- (Z2Nat.id (zprod ms)) at 1 by lia. apply H; lia.
Qed.

Lemma groups_permutation : Permutation (concat groups) (zrange 0 (zprod shape)).
Proof.
  apply NoDup_Permutation; [|apply NoDup_zrange|].
  - apply NoDup_concat; [apply groups_NoDup|]. intros i1 i2 l1 l2 r H1 H2 Hr1 Hr2.
    apply (groups_elem i1 l1) in Hr1 as [_ E1]; [|done]. apply (groups_elem i2 l2) in Hr2 as [_ E2]; [|done]. lia.
  - intros r. rewrite elem_of_zrange, list_elem_of_In, in_concat. split.
    + intros (l & Hl & Hr). apply list_elem_of_In in Hl, Hr. apply list_elem_of_lookup in Hl as [i Hi].
      by apply (groups_elem i l) in Hr as [? _].
    + intros Hr. destruct (rank_at_group_place r Hr) as (Bg & Bp & _).
      destruct (proj2 (groups_lookup (Z.to_nat (group_of shape mask r)) (Z.to_nat (place_of shape mask r)) r))
        as (l & Hl & Hj); [split_and!; lia|].
      exists l. split; apply list_elem_of_In; by eapply list_elem_of_lookup_2.
Qed.
End Groups.

(** For positive sizes and a mask of the same length the generated groups
    partition the world: there are as many as the product of the unmasked
    sizes, each has the product of the masked sizes, and together they list
    every rank exactly once. *)
Theorem generate_partition shape mask :
  positive_sizes shape -> length mask = length shape ->
  exists groups, generate_masked_orthogonal_rank_groups (zprod shape) shape mask = Ok groups /\
    Z.of_nat (length groups) = zprod (pick false shape mask) /\
    Forall (fun g => Z.of_nat (length g) = zprod (pick true shape mask)) groups /\
    Permutation (concat groups) (zrange 0 (zprod shape)).
Proof.
  intros Hs Hm. rewrite generate_groups by done. eexists. split; [reflexivity|].
  pose proof (zprod_pos _ (positive_pick shape mask true Hs)) as Pm.
  pose proof (zprod_pos _ (positive_pick shape mask false Hs)) as Pu.
  split_and!.
  - unfold groups. rewrite length_map, length_zrange. lia.
  - unfold groups. rewrite Forall_forall. intros g Hg. apply list_elem_of_In, in_map_iff in Hg as (x & <- & _).
    rewrite length_map, length_zrange. lia.
  - by apply groups_permutation.
Qed.

Lemma generate_partition_witness :
  exists groups, generate_masked_orthogonal_rank_groups (zprod [2; 3; 4]) [2; 3; 4] [false; true; false] = Ok groups /\
    Z.of_nat (length groups) = zprod (pick false [2; 3; 4] [false; true; false]) /\
    Forall (fun g => Z.of_nat (length g) = zprod (pick true [2; 3; 4] [false; true; false])) groups /\
    Permutation (concat groups) (zrange 0 (zprod [2; 3; 4])).
Proof. apply generate_partition; [repeat constructor|reflexivity]. Defined.

(** Two ranks are in the same group exactly when their unmasked digits agree. *)
Lemma same_group shape mask r1 r2 :
  positive_sizes shape -> length mask = length shape ->
  group_of shape mask r1 = group_of shape mask r2 <->
  pick false (digits shape r1) mask = pick false (digits shape r2) mask.
Proof.
  intros Hs Hm. unfold group_of. split; [|by intros ->].
  intros H. apply (f_equal (digits (pick false shape mask))) in H.
  rewrite !digits_undigits in H by (apply valid_pick; [by apply digits_valid|done]). done.
Qed.

Lemma pick_negb {A} b (l : list A) mask : pick b l (map negb mask) = pick (negb b) l mask.
Proof. revert mask. induction l as [|x l IH]; intros [|[] mask]; cbn; try done; destruct b; cbn; by rewrite IH. Qed.

(** Groups of complementary masks are orthogonal: a group of one mask and a
    group of the complement meet in exactly one rank. *)
Theorem generate_orthogonal shape mask gs hs g h :
  positive_sizes shape -> length mask = length shape ->
  generate_masked_orthogonal_rank_groups (zprod shape) shape mask = Ok gs ->
  generate_masked_orthogonal_rank_groups (zprod shape) shape (map negb mask) = Ok hs ->
  g ∈ gs -> h ∈ hs -> exists r, r ∈ g /\ r ∈ h /\ forall r', r' ∈ g -> r' ∈ h -> r' = r.
Proof.
  intros Hs Hm Hg Hh. assert (Hm' : length (map negb mask) = length shape) by by rewrite length_map.
  rewrite generate_groups in Hg, Hh by done. injection Hg as <-. injection Hh as <-.
  intros [i Hi]%list_elem_of_lookup [k Hk]%list_elem_of_lookup.
  assert (Hplace : forall r, group_of shape (map negb mask) r = place_of shape mask r).
  { intros r. unfold group_of, place_of. by rewrite !pick_negb. }
  pose proof (lookup_lt_Some _ _ _ Hi) as Bi. pose proof (lookup_lt_Some _ _ _ Hk) as Bk.
  unfold groups in Bi, Bk. rewrite length_map in Bi, Bk.
  apply Nat2Z.inj_lt in Bi, Bk. rewrite length_zrange in Bi, Bk. rewrite pick_negb in Bk. cbn in Bk.
  destruct (rank_at_spec shape mask Hs Hm (Z.of_nat i) (Z.of_nat k)) as (H1 & H2 & H3); [lia|lia|].
  exists (rank_at shape mask (Z.of_nat i) (Z.of_nat k)). split_and!.
  - by apply (groups_elem shape mask Hs Hm i g).
  - apply (groups_elem shape (map negb mask) Hs Hm' k h); [done|]. by rewrite Hplace.
  - intros r' Hr1 Hr2. apply (groups_elem shape mask Hs Hm i g) in Hr1 as [Hr Hr1]; [|done].
    apply (groups_elem shape (map negb mask) Hs Hm' k h) in Hr2 as [_ Hr2]; [|done]. rewrite Hplace in Hr2.
    destruct (rank_at_group_place shape mask Hs Hm r' Hr) as (_ & _ & <-). by rewrite Hr1, Hr2.
Qed.

Lemma generate_orthogonal_witness :
  exists r, r ∈ [4; 5] /\ r ∈ [1; 3; 5; 7] /\ forall r', r' ∈ [4; 5] -> r' ∈ [1; 3; 5; 7] -> r' = r.
Proof.
  apply (generate_orthogonal [2; 2; 2] [true; false; false]
    [[0; 1]; [2; 3]; [4; 5]; [6; 7]] [[0; 2; 4; 6]; [1; 3; 5; 7]]);
    [repeat constructor|reflexivity|reflexivity|reflexivity|set_solver|set_solver].
Defined.

(** A world larger than the product of the sizes by at least one group is
    refused: the assertion in [decompose] fails. *)
Theorem generate_oversized_world_raises world shape mask :
  positive_sizes shape -> length mask = length shape ->
  zprod shape + zprod (pick true shape mask) <= world ->
  raises AssertionError (generate_masked_orthogonal_rank_groups world shape mask) = true.
Proof.
  intros Hs Hm Hw. pose proof (positive_pick shape mask true Hs) as Hms.
  pose proof (positive_pick shape mask false Hs) as Hus. pose proof (zprod_pos _ Hms) as Pm.
  pose proof (zprod_pos _ Hus) as Pu. pose proof (zprod_pick shape mask Hm) as Hprod.
  unfold generate_masked_orthogonal_rank_groups. rewrite last_prefix_product, Z.mul_1_l, floordiv_ok by lia.
  cbn [mbind res_bind]. set (n := world / zprod (pick true shape mask)).
  assert (zprod (pick false shape mask) < n) as Hn.
  { apply Z.lt_le_trans with (zprod (pick false shape mask) + 1); [lia|].
    apply Z.div_le_lower_bound; [done|]. rewrite <- Hprod in Hw. lia. }
  rewrite (zrange_app 0 (zprod (pick false shape mask)) n) by lia.
  rewrite mapR_app, (zrange_cons (zprod (pick false shape mask)) n) by done.
  rewrite (mapR_total _ (fun g => map (rank_at shape mask g) (zrange 0 (zprod (pick true shape mask))))
    (zrange 0 (zprod (pick false shape mask))))
    by (intros g Hg%elem_of_zrange; by apply one_group_spec).
  cbn. unfold one_group. rewrite decompose_spec by done. rewrite bool_decide_eq_false_2 by lia. done.
Qed.

Lemma generate_oversized_world_raises_witness :
  raises AssertionError (generate_masked_orthogonal_rank_groups 12 [2; 2; 2] [true; false; false]) = true.
Proof. apply generate_oversized_world_raises; [repeat constructor|reflexivity|vm_compute; congruence]. Defined.

(* ================================================================== *)
(** ** [RankGenerator]                                                 *)
(* ================================================================== *)

Definition order_tokens (rg : RankGenerator) : list string := py_split "-" (rg_order rg).

(** The size and the coordinate of a rank (counted from the offset) along one
    named dimension. *)
Definition size_along (rg : RankGenerator) (n : string) : Z :=
  match list_index (order_tokens rg) n with
  | Some i => default 1 (rg_ordered_size rg !! Z.to_nat i)
  | None => 1
  end.
Definition coord (rg : RankGenerator) (n : string) (r : Z) : Z :=
  match list_index (order_tokens rg) n with
  | Some i => default 0 (digits (rg_ordered_size rg) (r - rg_rank_offset rg) !! Z.to_nat i)
  | None => 0
  end.

Lemma parallel_name_infix n m : n ∈ parallel_names -> m ∈ parallel_names -> py_in_str n m = true -> n = m.
Proof.
  unfold parallel_names. rewrite !elem_of_cons, !elem_of_nil.
  intros [->|[->|[->|[->|[->|[]]]]]] [->|[->|[->|[->|[->|[]]]]]]; (reflexivity || (intros H; discriminate H)).
Qed.

Lemma parallel_name_no_dash n : n ∈ parallel_names -> "-"%char ∉ chars n /\ py_split "-" n = [n].
Proof.
  unfold parallel_names. rewrite !elem_of_cons, !elem_of_nil.
  intros [->|[->|[->|[->|[->|[]]]]]]; (split; [|reflexivity]);
    cbn; rewrite !not_elem_of_cons; (split_and!; try congruence; apply not_elem_of_nil).
Qed.

(** What the loop over [name_to_size] does to the order: it appends distinct
    names that were missing, each of size one, and leaves no name out. *)
Lemma complete_order_spec sizes o o' : (forall n, n ∈ map fst sizes -> n ∈ parallel_names) ->
  complete_order sizes o = Ok o' ->
  exists missing, py_split "-" o' = py_split "-" o ++ missing /\
    (NoDup (py_split "-" o) -> NoDup (py_split "-" o')) /\
    (forall n, n ∈ map fst sizes -> py_in_str n o' = true) /\
    (forall p, py_in_str p o = true -> py_in_str p o' = true).
Proof.
  unfold complete_order. revert o. induction sizes as [|[n sz] sizes IH]; intros o Hn H.
  - injection H as <-. exists []. rewrite app_nil_r. split_and!; try done. set_solver.
  - cbn [foldR] in H. destruct (py_in_str n o) eqn:En; cbn in H.
    + destruct (IH o) as (ms & E & Hnd & Hin & Hmon); [set_solver|done|].
      exists ms. split_and!; try done. cbn. intros m [->|Hm]%elem_of_cons; auto.
    + destruct (negb (sz =? 1)); [discriminate H|]. cbn [mbind res_bind mret res_ret] in H.
      destruct (IH (o +:+ "-" +:+ n)) as (ms & E & Hnd & Hin & Hmon); [set_solver|done|].
      destruct (parallel_name_no_dash n) as [Hdash Hsp]; [set_solver|].
      assert (Hjoin : py_split "-" (o +:+ "-" +:+ n) = py_split "-" o ++ [n])
        by (cbn; rewrite <- Hsp; apply (py_split_join "-" o n)).
      assert (Hmon1 : forall p, py_in_str p o = true -> py_in_str p (o +:+ ("-" +:+ n)) = true)
        by (intros p Hp; unfold py_in_str; rewrite chars_app; by apply infixb_app_l).
      exists (n :: ms). split_and!; [by rewrite E, Hjoin, <- app_assoc| | |auto].
      * intros Hnd0. apply Hnd. rewrite Hjoin. apply NoDup_app. split_and!; [done| |apply NoDup_singleton].
        intros x Hx ->%list_elem_of_singleton. apply py_split_in in Hx. congruence.
      * cbn. intros m [->|Hm]%elem_of_cons; [|auto]. apply Hmon. apply (py_split_in "-").
        rewrite Hjoin. set_solver.
Qed.

Lemma dict_get_elem d k v : dict_get d k = Ok v -> (k, v) ∈ d.
Proof.
  induction d as [|[k' v'] d IH]; cbn; [done|]. case_bool_decide; [|set_solver].
  intros [= ->]. subst. set_solver.
Qed.

Lemma mapR_ok_fst {A B} (f : A -> res B) l l' (i : nat) x :
  mapR f l = Ok l' -> l !! i = Some x -> exists y, l' !! i = Some y /\ f x = Ok y.
Proof. intros H%mapR_ok_Forall2 Hi. destruct (Forall2_lookup_l _ _ _ _ _ H Hi) as (y & ? & ?). eauto. Qed.

Lemma pick_eq_iff {A} b (l1 l2 : list A) mask :
  length l1 = length mask -> length l2 = length mask ->
  pick b l1 mask = pick b l2 mask <-> forall i : nat, mask !! i = Some b -> l1 !! i = l2 !! i.
Proof.
  revert l1 l2. induction mask as [|m mask IH]; intros [|x l1] [|y l2] H1 H2; cbn in *; try done.
  assert (Hl : pick b l1 mask = pick b l2 mask <-> forall i : nat, mask !! i = Some b -> l1 !! i = l2 !! i)
    by (apply IH; lia). destruct (Bool.eqb m b) eqn:E.
  - apply eqb_prop in E as ->. split.
    + intros [= -> H] [|i]; cbn; [done|]. by apply Hl.
    + intros H. f_equal; [by injection (H 0%nat eq_refl)|]. apply Hl. intros i. apply (H (S i)).
  - apply eqb_false_iff in E. rewrite Hl. split.
    + intros H [|i]; cbn; [congruence|apply H].
    + intros H i. apply (H (S i)).
Qed.

Lemma pick_map_filter {A} (f : string -> A) (T toks : list string) :
  pick true (map f toks) (map (fun t => bool_decide (t ∈ T)) toks) = map f (filter (fun t => t ∈ T) toks).
Proof.
  induction toks as [|t toks IH]; [done|]. cbn [map pick]. rewrite filter_cons.
  destruct (decide (t ∈ T)) as [H|H].
  - rewrite bool_decide_eq_true_2 by done. cbn. by rewrite IH.
  - rewrite bool_decide_eq_false_2 by done. cbn. by rewrite IH.
Qed.

Lemma pick_nowhere {A} (l : list A) (T toks : list string) : (forall t, t ∈ toks -> t ∉ T) ->
  pick true l (map (fun t => bool_decide (t ∈ T)) toks) = [].
Proof.
  revert l. induction toks as [|t toks IH]; intros [|x l] H; try done. cbn [map pick].
  rewrite bool_decide_eq_false_2 by set_solver. cbn. apply IH. set_solver.
Qed.

Lemma pick_single {A} (l : list A) (n : string) toks (i : nat) x :
  NoDup toks -> toks !! i = Some n -> l !! i = Some x ->
  pick true l (map (fun t => bool_decide (t ∈ [n])) toks) = [x].
Proof.
  revert l i. induction toks as [|t toks IH]; intros [|y l] [|i] Hnd Hi Hx; try done; cbn in Hi, Hx;
    apply NoDup_cons in Hnd as [Hnt Hnd].
  - injection Hi as ->. injection Hx as ->. cbn [map pick]. rewrite bool_decide_eq_true_2 by set_solver. cbn.
    f_equal. apply pick_nowhere. set_solver.
  - cbn [map pick]. assert (t <> n) by (intros ->; apply Hnt; by eapply list_elem_of_lookup_2).
    rewrite bool_decide_eq_false_2 by set_solver. cbn. by eapply IH.
Qed.

Section Generator.
Context (tp ep dp pp cp : Z) (order : string) (rank_offset : Z) (rg : RankGenerator).
Context (Hinit : RankGenerator_init tp ep dp pp cp order rank_offset = Ok rg).
Context (Hnd : NoDup (py_split "-" (py_lower order))).
Context (Hsizes : 0 < tp /\ 0 < ep /\ 0 < dp /\ 0 < pp /\ 0 < cp).
Context (Hoff : 0 <= rank_offset).

(** The size given for a name. *)
Definition named_size (n : string) : Z :=
  if bool_decide (n = "tp") then tp else if bool_decide (n = "pp") then pp
  else if bool_decide (n = "dp") then dp else if bool_decide (n = "ep") then ep
  else if bool_decide (n = "cp") then cp else 1.

Lemma init_fields :
  rg_world_size rg = tp * dp * pp * cp * ep /\ rg_rank_offset rg = rank_offset /\
  NoDup (order_tokens rg) /\ Permutation (order_tokens rg) parallel_names /\
  rg_ordered_size rg = map named_size (order_tokens rg).
Proof.
  revert Hinit. unfold RankGenerator_init. destruct (_ || _); [|done]. cbn [assert_ mbind res_bind].
  destruct (complete_order _ _) as [o|] eqn:Eo; [|done]. cbn [mbind res_bind].
  destruct (mapR _ _) as [szs|] eqn:Es; [|done]. cbn. intros [= <-]. unfold order_tokens. cbn.
  apply complete_order_spec in Eo as (ms & E & Hnd' & Hin & _); [|intros n Hn; exact Hn].
  apply mapR_ok_Forall2 in Es.
  assert (Htok : forall t, t ∈ py_split "-" o -> t ∈ parallel_names).
  { intros t [i Hi]%list_elem_of_lookup. destruct (Forall2_lookup_l _ _ _ _ _ Es Hi) as (v & _ & Hv).
    apply dict_get_elem, (list_elem_of_fmap_2 fst) in Hv. exact Hv. }
  assert (NoDup (py_split "-" o)) as Hnd2 by auto.
  split_and!; [done|done|done| |].
  - apply NoDup_Permutation; [done|apply (bool_decide_unpack _); vm_compute; exact I|].
    intros t. split; [auto|]. intros Ht. pose proof (Hin t Ht) as Hsub.
    apply (py_in_str_split "-") in Hsub as (t' & Ht' & Hsub); [|by apply parallel_name_no_dash].
    by rewrite (parallel_name_infix t t') by auto.
  - clear -Es Htok. revert Es Htok. generalize (py_split "-" o). intros ts Es Htok.
    induction Es as [|t v l l' Hv _ IH]; [done|]. cbn. rewrite IH by set_solver. f_equal.
    revert Hv. assert (t ∈ parallel_names) as Ht by set_solver. unfold parallel_names in Ht.
    rewrite !elem_of_cons, elem_of_nil in Ht.
    destruct Ht as [->|[->|[->|[->|[->|[]]]]]]; cbn; intros [= <-]; reflexivity.
Qed.

Lemma named_size_pos n : 0 < named_size n.
Proof. unfold named_size. repeat case_bool_decide; lia. Qed.

Lemma ordered_size_facts :
  positive_sizes (rg_ordered_size rg) /\ zprod (rg_ordered_size rg) = rg_world_size rg /\
  length (rg_ordered_size rg) = length (order_tokens rg).
Proof.
  destruct init_fields as (Hw & _ & _ & Hp & ->). split_and!.
  - unfold positive_sizes. rewrite Forall_map. apply Forall_forall. intros t _. apply named_size_pos.
  - rewrite Hw. transitivity (zprod (map named_size parallel_names)).
    + by rewrite Hp.
    + change (zprod (map named_size parallel_names)) with (tp * (pp * (dp * (ep * (cp * 1))))). lia.
  - by rewrite length_map.
Qed.

Definition mask_of (token : string) : list bool :=
  map (fun t => bool_decide (t ∈ py_split "-" token)) (order_tokens rg).

(** [get_mask] marks exactly the named dimensions, and raises [ValueError] for
    a name that is not one. *)
Lemma get_mask_spec token : (forall t, t ∈ py_split "-" token -> t ∈ parallel_names) ->
  get_mask (rg_order rg) token = Ok (mask_of token).
Proof.
  destruct init_fields as (_ & _ & Hnt & Hp & _). intros Ht. unfold get_mask, mask_of.
  fold (order_tokens rg). generalize (py_split "-" token) Ht. clear Ht. intros ts Ht.
  enough (H : forall ts' seen, (forall t, t ∈ ts' -> t ∈ parallel_names) ->
    foldR (fun mask t => i ← py_index (order_tokens rg) t; mret (<[Z.to_nat i := true]> mask))
      (map (fun t => bool_decide (t ∈ seen)) (order_tokens rg)) ts'
    = Ok (map (fun t => bool_decide (t ∈ seen ++ ts')) (order_tokens rg))).
  { etrans; [|exact (H ts [] Ht)]. f_equal. apply list_eq. intros i. rewrite list_lookup_fmap.
    destruct (order_tokens rg !! i) eqn:E; cbn.
    - rewrite lookup_replicate_2 by by eapply lookup_lt_Some. by rewrite bool_decide_eq_false_2 by set_solver.
    - apply lookup_replicate_None. by apply lookup_ge_None. }
  clear ts Ht. induction ts' as [|t ts' IH]; intros seen Ht.
  - cbn. by rewrite app_nil_r.
  - cbn [foldR]. assert (t ∈ order_tokens rg) as [i Hi]%list_elem_of_lookup by (rewrite Hp; set_solver).
    unfold py_index. rewrite (list_index_NoDup _ t i) by done. cbn [mbind res_bind mret res_ret].
    rewrite Nat2Z.id. replace (seen ++ t :: ts') with ((seen ++ [t]) ++ ts') by by rewrite <- app_assoc.
    rewrite <- IH by set_solver. f_equal. apply list_eq. intros j.
    rewrite list_lookup_fmap. destruct (decide (i = j)) as [<-|Hij].
    + rewrite Hi. cbn. rewrite list_lookup_insert_eq by (rewrite length_map; by eapply lookup_lt_Some).
      by rewrite bool_decide_eq_true_2 by set_solver.
    + rewrite list_lookup_insert_ne, list_lookup_fmap by done.
      destruct (order_tokens rg !! j) as [t'|] eqn:E; [|done]. cbn. f_equal. apply bool_decide_ext.
      rewrite elem_of_app, list_elem_of_singleton. split; [auto|]. intros [?| ->]; [done|].
      exfalso. apply Hij. by eapply NoDup_lookup.
Qed.

(** The groups that [get_ranks] returns. *)
Definition rank_groups (token : string) : list (list Z) :=
  map (map (fun r => r + rank_offset)) (groups (rg_ordered_size rg) (mask_of token)).

Lemma length_mask_of token : length (mask_of token) = length (rg_ordered_size rg).
Proof. unfold mask_of. rewrite length_map. symmetry. apply ordered_size_facts. Qed.

Lemma get_ranks_groups token : (forall t, t ∈ py_split "-" token -> t ∈ parallel_names) ->
  get_ranks rg token = Ok (rank_groups token).
Proof.
  intros Ht. destruct ordered_size_facts as (Hpos & Hw & Hl). destruct init_fields as (_ & Ho & _).
  unfold get_ranks. rewrite get_mask_spec by done. cbn [mbind res_bind]. rewrite <- Hw.
  rewrite generate_groups by (done || apply length_mask_of). cbn. unfold rank_groups. rewrite Ho.
  destruct (Z.ltb_spec 0 rank_offset) as [_|Hz]; [done|]. replace rank_offset with 0 by lia.
  unfold mret, res_ret. f_equal. symmetry. rewrite <- (map_id (groups _ _)) at 2. apply map_ext. intros l.
  rewrite <- (map_id l) at 2. apply map_ext. lia.
Qed.

Lemma rank_groups_elem token (i : nat) (g : list Z) (r : Z) : rank_groups token !! i = Some g ->
  r ∈ g <-> rank_offset <= r < rank_offset + rg_world_size rg /\
            group_of (rg_ordered_size rg) (mask_of token) (r - rank_offset) = Z.of_nat i.
Proof.
  destruct ordered_size_facts as (Hpos & Hw & Hl). unfold rank_groups. intros Hi.
  apply list_lookup_fmap_Some in Hi as (g0 & -> & Hi).
  pose proof (groups_elem _ _ Hpos (length_mask_of token) i g0 (r - rank_offset) Hi) as He.
  rewrite Hw in He. transitivity (r - rank_offset ∈ g0).
  - rewrite list_elem_of_fmap. split; [|intros; exists (r - rank_offset); split; [lia|done]].
    intros (y & -> & Hy). by replace (y + rank_offset - rank_offset) with y by lia.
  - rewrite He. intuition lia.
Qed.

(** Two ranks share a group exactly when their coordinates agree along every
    dimension that the token does not name. *)
Lemma same_group_coord token r1 r2 :
  group_of (rg_ordered_size rg) (mask_of token) (r1 - rank_offset)
  = group_of (rg_ordered_size rg) (mask_of token) (r2 - rank_offset) <->
  forall n, n ∈ parallel_names -> n ∉ py_split "-" token -> coord rg n r1 = coord rg n r2.
Proof.
  destruct ordered_size_facts as (Hpos & Hw & Hl). destruct init_fields as (_ & Ho & Hnt & Hp & _).
  pose proof (length_mask_of token) as Hlm.
  rewrite same_group, pick_eq_iff by (done || by rewrite length_digits). unfold coord. rewrite Ho. split.
  - intros H n Hn Hnot. rewrite <- Hp in Hn. apply list_elem_of_lookup in Hn as [i Hi].
    rewrite (list_index_NoDup _ n i) by done. rewrite Nat2Z.id, (H i); [done|].
    unfold mask_of. rewrite list_lookup_fmap, Hi. cbn. by rewrite bool_decide_eq_false_2.
  - intros H i Hi. unfold mask_of in Hi. rewrite list_lookup_fmap in Hi.
    destruct (order_tokens rg !! i) as [n|] eqn:En; [|done]. injection Hi as Hi.
    apply bool_decide_eq_false in Hi. assert (Hin : n ∈ parallel_names)
      by (rewrite <- Hp; by eapply list_elem_of_lookup_2).
    specialize (H n Hin Hi). rewrite (list_index_NoDup _ n i), Nat2Z.id in H by done.
    apply lookup_lt_Some in En. rewrite <- Hl in En.
    destruct (lookup_lt_is_Some_2 (digits (rg_ordered_size rg) (r1 - rank_offset)) i) as [x Hx];
      [by rewrite length_digits|].
    destruct (lookup_lt_is_Some_2 (digits (rg_ordered_size rg) (r2 - rank_offset)) i) as [y Hy];
      [by rewrite length_digits|]. rewrite Hx, Hy in H. cbn in H. congruence.
Qed.

Lemma rank_groups_size token g : NoDup (py_split "-" token) ->
  (forall t, t ∈ py_split "-" token -> t ∈ parallel_names) ->
  g ∈ rank_groups token -> Z.of_nat (length g) = zprod (map named_size (py_split "-" token)).
Proof.
  intros Hndt Ht Hg. destruct ordered_size_facts as (Hpos & Hw & Hl). destruct init_fields as (_ & _ & Hnt & Hp & Hs).
  unfold rank_groups, groups in Hg. apply list_elem_of_fmap in Hg as (g0 & -> & Hg).
  apply list_elem_of_fmap in Hg as (x & -> & _). rewrite !length_map, length_zrange.
  pose proof (zprod_pos _ (positive_pick _ (mask_of token) true Hpos)). unfold mask_of in *.
  rewrite Hs, pick_map_filter in *. rewrite Z.sub_0_r, Z.max_r by lia.
  apply zprod_perm, Permutation_map. apply NoDup_Permutation; [by apply NoDup_filter|done|].
  intros t. rewrite list_elem_of_filter, Hp. naive_solver.
Qed.

Lemma rank_groups_sorted token g : g ∈ rank_groups token -> StronglySorted Z.lt g.
Proof.
  destruct ordered_size_facts as (Hpos & _). unfold rank_groups. intros Hg.
  apply list_elem_of_fmap in Hg as (g0 & -> & Hg).
  pose proof (groups_sorted _ _ Hpos (length_mask_of token)) as H. rewrite Forall_forall in H.
  specialize (H g0 Hg). clear -H. induction H as [|x l _ IH Hx]; cbn; constructor; [done|].
  rewrite Forall_map. eapply Forall_impl; [exact Hx|]. cbn. lia.
Qed.

Lemma rank_groups_cover token r : rank_offset <= r < rank_offset + rg_world_size rg ->
  exists (i : nat) g, rank_groups token !! i = Some g /\ r ∈ g.
Proof.
  intros Hr. destruct ordered_size_facts as (Hpos & Hw & Hl). pose proof (length_mask_of token) as Hlm.
  destruct (rank_at_group_place _ _ Hpos Hlm (r - rank_offset)) as (Bg & _); [lia|].
  set (i := Z.to_nat (group_of (rg_ordered_size rg) (mask_of token) (r - rank_offset))).
  destruct (lookup_lt_is_Some_2 (rank_groups token) i) as [g Hg].
  { unfold rank_groups, groups. rewrite !length_map. apply Nat2Z.inj_lt. rewrite length_zrange. lia. }
  exists i, g. split; [done|]. apply (rank_groups_elem token i g r Hg). lia.
Qed.

(** The list of groups around the one that holds a given rank. *)
Lemma rank_groups_around token r : rank_offset <= r < rank_offset + rg_world_size rg ->
  exists l1 g l2, rank_groups token = l1 ++ g :: l2 /\ r ∈ g /\
    Forall (fun h => r ∉ h) l1 /\ Forall (fun h => r ∉ h) l2.
Proof.
  intros Hr. destruct (rank_groups_cover token r Hr) as (i & g & Hi & Hg).
  apply (rank_groups_elem token i g r Hi) in Hg as Hgi. destruct Hgi as [_ Hgi].
  exists (take i (rank_groups token)), g, (drop (S i) (rank_groups token)).
  split_and!; [by rewrite take_drop_middle|done| |]; apply Forall_lookup; intros k h Hk Hin.
  - apply lookup_take_Some in Hk as [Hk Hlt]. apply (rank_groups_elem token k h r Hk) in Hin as [_ E]. lia.
  - rewrite lookup_drop in Hk. apply (rank_groups_elem token _ h r Hk) in Hin as [_ E]. lia.
Qed.

Lemma rank_groups_permutation token :
  Permutation (concat (rank_groups token)) (zrange rank_offset (rank_offset + rg_world_size rg)).
Proof.
  destruct ordered_size_facts as (Hpos & Hw & Hl). unfold rank_groups. rewrite <- concat_map.
  rewrite (groups_permutation _ _ Hpos (length_mask_of token)), Hw. unfold zrange.
  replace (rank_offset + rg_world_size rg - rank_offset) with (rg_world_size rg - 0) by lia.
  apply reflexive_eq. transitivity (Z.add rank_offset <$> seqZ 0 (rg_world_size rg - 0)).
  - apply map_ext. lia.
  - by rewrite fmap_add_seqZ, Z.add_0_r.
Qed.

(** In a group along one dimension a rank's position is its coordinate. *)
Lemma rank_groups_place n g (j : nat) r : n ∈ parallel_names ->
  g ∈ rank_groups n -> g !! j = Some r -> Z.of_nat j = coord rg n r.
Proof.
  intros Hn [i Hi]%list_elem_of_lookup Hj.
  destruct ordered_size_facts as (Hpos & Hw & Hl). destruct init_fields as (_ & Ho & Hnt & Hp & _).
  pose proof (length_mask_of n) as Hlm. unfold rank_groups in Hi.
  apply list_lookup_fmap_Some in Hi as (g0 & -> & Hi). apply list_lookup_fmap_Some in Hj as (r0 & -> & Hj).
  destruct (proj1 (groups_lookup _ _ Hpos Hlm i j r0)) as (_ & _ & <-); [eauto|].
  rewrite <- Hp in Hn. apply list_elem_of_lookup in Hn as [k Hk].
  pose proof (lookup_lt_Some _ _ _ Hk) as Bk. rewrite <- Hl in Bk.
  unfold coord. rewrite Ho, (list_index_NoDup _ n k), Nat2Z.id by done.
  replace (r0 + rank_offset - rank_offset) with r0 by lia.
  destruct (lookup_lt_is_Some_2 (digits (rg_ordered_size rg) r0) k) as [x Hx]; [by rewrite length_digits|].
  destruct (lookup_lt_is_Some_2 (rg_ordered_size rg) k) as [sz Hsz]; [done|]. rewrite Hx.
  assert (n ∈ parallel_names) as Hn by (rewrite <- Hp; by eapply list_elem_of_lookup_2).
  unfold place_of, mask_of. rewrite (proj2 (parallel_name_no_dash n Hn)).
  rewrite (pick_single _ n _ k sz), (pick_single _ n _ k x) by done. cbn. lia.
Qed.
End Generator.

(** (C13) [RankGenerator.get_ranks] for a token such as ["dp-cp"]: for every accepted
    configuration with positive sizes and a duplicate-free order it returns a
    partition of the ranks [offset .. offset + world_size), every group has the
    product of the named sizes, and two ranks are in one group exactly when
    their coordinates agree along all dimensions the token does not name. *)
Theorem get_ranks_spec tp ep dp pp cp order off rg token :
  RankGenerator_init tp ep dp pp cp order off = Ok rg ->
  NoDup (py_split "-" (py_lower order)) -> 0 < tp /\ 0 < ep /\ 0 < dp /\ 0 < pp /\ 0 < cp -> 0 <= off ->
  NoDup (py_split "-" token) -> (forall t, t ∈ py_split "-" token -> t ∈ parallel_names) ->
  exists gs, get_ranks rg token = Ok gs /\
    Permutation (concat gs) (zrange off (off + tp * dp * pp * cp * ep)) /\
    Forall (fun g => Z.of_nat (length g)
                     = zprod (map (named_size tp ep dp pp cp) (py_split "-" token))) gs /\
    forall g r1 r2, g ∈ gs -> r1 ∈ g ->
      (r2 ∈ g <-> off <= r2 < off + tp * dp * pp * cp * ep /\
                  forall n, n ∈ parallel_names -> n ∉ py_split "-" token -> coord rg n r1 = coord rg n r2).
Proof.
  intros Hi Hnd Hs Ho Hndt Ht. destruct (init_fields _ _ _ _ _ _ _ _ Hi Hnd) as (Hw & _).
  exists (rank_groups off rg token). rewrite <- Hw. split_and!.
  - by eapply get_ranks_groups.
  - by eapply rank_groups_permutation.
  - apply Forall_forall. intros g Hg. by eapply rank_groups_size.
  - intros g r1 r2 [i Hg]%list_elem_of_lookup Hr1.
    pose proof (rank_groups_elem _ _ _ _ _ _ _ _ Hi Hnd Hs token i g) as He.
    apply He in Hr1 as [_ E]; [|done]. rewrite (He r2 Hg), <- E.
    rewrite <- (same_group_coord _ _ _ _ _ _ _ _ Hi Hnd Hs token r1 r2). naive_solver.
Qed.

Lemma get_ranks_spec_witness :
  exists rg gs, RankGenerator_init 2 1 2 2 2 "tp-cp-ep-dp-pp" 0 = Ok rg /\ get_ranks rg "dp-cp" = Ok gs /\
    Permutation (concat gs) (zrange 0 (0 + 2 * 2 * 2 * 2 * 1)) /\
    Forall (fun g => Z.of_nat (length g) = zprod (map (named_size 2 1 2 2 2) (py_split "-" "dp-cp"))) gs /\
    forall g r1 r2, g ∈ gs -> r1 ∈ g ->
      (r2 ∈ g <-> 0 <= r2 < 0 + 2 * 2 * 2 * 2 * 1 /\
                  forall n, n ∈ parallel_names -> n ∉ py_split "-" "dp-cp" -> coord rg n r1 = coord rg n r2).
Proof.
  eexists. destruct (get_ranks_spec 2 1 2 2 2 "tp-cp-ep-dp-pp" 0
    (mkRG [("tp", 2); ("pp", 2); ("dp", 2); ("ep", 1); ("cp", 2)] "tp-cp-ep-dp-pp" [2; 2; 1; 2; 2] 16 0) "dp-cp")
    as (gs & H).
  - reflexivity.
  - apply (bool_decide_unpack _). vm_compute. exact I.
  - lia.
  - lia.
  - apply (bool_decide_unpack _). vm_compute. exact I.
  - intros t Ht. vm_compute in Ht. unfold parallel_names. set_solver.
  - exists gs. split; [reflexivity|]. exact H.
Defined.
