(* ===== verification/ParallelState.v ===== *)
(** * The parallel state of one process

    [megatron/core/parallel_state.py]: the module globals that hold the process
    groups of the calling rank, [initialize_model_parallel] which creates them,
    the getters and setters, and [destroy_model_parallel].

    The globals are dictionaries from the global's name to its value, a missing
    key being [None].  [torch.distributed] is the interface [ProcessGroup]. *)

From Stdlib Require Import Sorting.Sorted.
From S2P Require Import Prelude RankGroups.

(* ================================================================== *)
(** ** The interface of torch.distributed                              *)
(* ================================================================== *)

(** Values of the NCCL configuration file. *)
Inductive cfg_value := CBool (b : bool) | CInt (n : Z) | CStr (s : string).

#[export] Instance cfg_value_eq_dec : EqDecision cfg_value.
Proof. solve_decision. Defined.

Definition nccl_cfgs : Type := gmap string (gmap string cfg_value).

(** [ProcessGroupNCCL.Options] as far as the code sets it. *)
Record nccl_options := mkNccl {
  no_is_high_priority_stream : cfg_value;
  no_cga_cluster_size : option cfg_value;
  no_max_ctas : option cfg_value;
  no_min_ctas : option cfg_value;
  no_net_name : option cfg_value
}.

(** The keyword arguments of [torch.distributed.new_group]; the outer option of
    [kw_timeout] and [kw_group_desc] is the presence of the key. *)
Record new_group_kwargs := mkKw {
  kw_ranks : list Z;
  kw_timeout : option (option Z);
  kw_backend : option string;
  kw_pg_options : option nccl_options;
  kw_use_local_synchronization : bool;
  kw_group_desc : option (option string)
}.

(** Process groups: the [n]-th call of [new_group] returns a handle, whose size
    is the number of its ranks and in which a member's rank is its position
    (for ranks given in increasing order). *)
Class ProcessGroup (PG : Type) := {
  new_group : nat -> new_group_kwargs -> PG;
  pg_size : PG -> Z;
  pg_rank : PG -> Z -> Z;
  pg_size_new : forall n kw, StronglySorted Z.lt (kw_ranks kw) ->
    pg_size (new_group n kw) = Z.of_nat (length (kw_ranks kw));
  pg_rank_new : forall n kw (i : nat) r, StronglySorted Z.lt (kw_ranks kw) ->
    kw_ranks kw !! i = Some r -> pg_rank (new_group n kw) r = Z.of_nat i
}.

(** A concrete implementation: a handle is the call that made it. *)
#[export] Instance call_process_group : ProcessGroup (nat * new_group_kwargs).
Proof.
  refine {| new_group := pair;
            pg_size := fun g => Z.of_nat (length (kw_ranks g.2));
            pg_rank := fun g r => default (-1) (list_index (kw_ranks g.2) r) |}.
  - done.
  - intros n kw i r Hs Hi. cbn. rewrite (list_index_NoDup _ r i); [done| |done].
    clear -Hs. induction Hs as [|x l _ IH Hx]; constructor; [|done].
    intros Hin. rewrite Forall_forall in Hx. specialize (Hx x Hin). lia.
Defined.

(** [einops.rearrange(xs, "(l s u) -> (l u) s", l=l, s=s, u=u)]: row [(a, b)] holds
    the entries [a*s*u + j*u + b]; a wrong total is refused. *)
Definition lsu_row (xs : list Z) (s u a b : Z) : list Z :=
  map (fun j => default 0 (xs !! Z.to_nat ((a * s + j) * u + b))) (zrange 0 s).
Definition lsu_rows (xs : list Z) (l s u : Z) : list (list Z) :=
  concat (map (fun a => map (lsu_row xs s u a) (zrange 0 u)) (zrange 0 l)).

Class Einops := {
  rearrange : list Z -> Z -> Z -> Z -> res (list (list Z));
  rearrange_ok : forall xs l s u, 0 < l -> 0 < s -> 0 < u ->
    Z.of_nat (length xs) = l * s * u -> rearrange xs l s u = Ok (lsu_rows xs l s u)
}.

#[export] Instance lsu_einops : Einops.
Proof.
  refine {| rearrange := fun xs l s u =>
    if Z.of_nat (length xs) =? l * s * u then Ok (lsu_rows xs l s u)
    else raise_ RuntimeError "Shape mismatch" |}.
  intros xs l s u _ _ _ E. by rewrite (proj2 (Z.eqb_eq _ _) E).
Defined.

(** What the process sees of its surroundings: the world, its rank, whether
    torch.distributed is available and initialized, the versions at hand, the
    parsed NCCL configuration file. *)
Record dist_env := mkDist {
  de_world_size : Z;
  de_rank : Z;
  de_available : bool;
  de_initialized : bool;
  de_torch_min_2_4 : bool;
  de_have_einops : bool;
  de_load_yaml : string -> res nccl_cfgs
}.

(* ================================================================== *)
(** ** The module globals                                              *)
(* ================================================================== *)

(** A group global holds a handle, or a list of handles. *)
Inductive gval (PG : Type) := GOne (g : PG) | GMany (l : list PG).
Arguments GOne {_} _.
Arguments GMany {_} _.

(** A rank-list global holds a list of ranks, or a list of lists. *)
Inductive rval := RFlat (l : list Z) | RNested (l : list (list Z)).

Record pstate (PG : Type) := mkPS {
  ps_groups : gmap string (gval PG);
  ps_ranks : gmap string rval;
  ps_ints : gmap string Z;
  ps_process_group_list : option (list (option PG));
  ps_memory_buffer : option unit;
  ps_environ : gmap string string;
  ps_calls : list new_group_kwargs;
  ps_barriers : list (option (gval PG));
  ps_destroyed : list (gval PG)
}.
Arguments mkPS {_}.
Arguments ps_groups {_}.
Arguments ps_ranks {_}.
Arguments ps_ints {_}.
Arguments ps_process_group_list {_}.
Arguments ps_memory_buffer {_}.
Arguments ps_environ {_}.
Arguments ps_calls {_}.
Arguments ps_barriers {_}.
Arguments ps_destroyed {_}.

(** [d[k] = v], where [None] clears the key. *)
Definition assign {A} (k : string) (v : option A) (d : gmap string A) : gmap string A :=
  match v with Some x => <[k := x]> d | None => delete k d end.

Section Globals.
Context {PG : Type}.
Implicit Type s : pstate PG.

(** The state when the module is imported. *)
Definition fresh_state (env : gmap string string) : pstate PG :=
  mkPS ∅ ∅ ∅ None None env [] [] [].

Definition on_groups f s := mkPS (f (ps_groups s)) (ps_ranks s) (ps_ints s) (ps_process_group_list s)
  (ps_memory_buffer s) (ps_environ s) (ps_calls s) (ps_barriers s) (ps_destroyed s).
Definition on_ranks f s := mkPS (ps_groups s) (f (ps_ranks s)) (ps_ints s) (ps_process_group_list s)
  (ps_memory_buffer s) (ps_environ s) (ps_calls s) (ps_barriers s) (ps_destroyed s).
Definition on_ints f s := mkPS (ps_groups s) (ps_ranks s) (f (ps_ints s)) (ps_process_group_list s)
  (ps_memory_buffer s) (ps_environ s) (ps_calls s) (ps_barriers s) (ps_destroyed s).
Definition on_list f s := mkPS (ps_groups s) (ps_ranks s) (ps_ints s) (f (ps_process_group_list s))
  (ps_memory_buffer s) (ps_environ s) (ps_calls s) (ps_barriers s) (ps_destroyed s).
Definition on_buffer f s := mkPS (ps_groups s) (ps_ranks s) (ps_ints s) (ps_process_group_list s)
  (f (ps_memory_buffer s)) (ps_environ s) (ps_calls s) (ps_barriers s) (ps_destroyed s).
Definition on_environ f s := mkPS (ps_groups s) (ps_ranks s) (ps_ints s) (ps_process_group_list s)
  (ps_memory_buffer s) (f (ps_environ s)) (ps_calls s) (ps_barriers s) (ps_destroyed s).
Definition on_calls f s := mkPS (ps_groups s) (ps_ranks s) (ps_ints s) (ps_process_group_list s)
  (ps_memory_buffer s) (ps_environ s) (f (ps_calls s)) (ps_barriers s) (ps_destroyed s).
Definition on_barriers f s := mkPS (ps_groups s) (ps_ranks s) (ps_ints s) (ps_process_group_list s)
  (ps_memory_buffer s) (ps_environ s) (ps_calls s) (f (ps_barriers s)) (ps_destroyed s).
Definition on_destroyed f s := mkPS (ps_groups s) (ps_ranks s) (ps_ints s) (ps_process_group_list s)
  (ps_memory_buffer s) (ps_environ s) (ps_calls s) (ps_barriers s) (f (ps_destroyed s)).

Definition set_group (v : string) (g : option (gval PG)) : M (pstate PG) unit := modM (on_groups (assign v g)).
Definition set_ranks (v : string) (l : option rval) : M (pstate PG) unit := modM (on_ranks (assign v l)).
Definition set_int (v : string) (n : option Z) : M (pstate PG) unit := modM (on_ints (assign v n)).
Definition setenv (k v : string) : M (pstate PG) unit := modM (on_environ (insert k v)).
(** [if k in os.environ: del os.environ[k]] *)
Definition delenv (k : string) : M (pstate PG) unit := modM (on_environ (delete k)).
(** [os.environ[k] = os.environ[k] if k in os.environ else v] *)
Definition setenv_default (k v : string) : M (pstate PG) unit :=
  modM (on_environ (fun e => <[k := default v (e !! k)]> e)).

(** [assert GLOBAL is None, msg] *)
Definition assert_unset (v msg : string) : M (pstate PG) unit :=
  s ← getM; assertM (is_none (ps_groups s !! v)) msg.
End Globals.

(* ================================================================== *)
(** ** Group creation                                                  *)
(* ================================================================== *)

(** [get_nccl_options(pg_name, nccl_comm_cfgs)] *)
Definition get_nccl_options (pg_name : string) (nccl_comm_cfgs : nccl_cfgs) : res (option nccl_options) :=
  match nccl_comm_cfgs !! pg_name with
  | None => mret None
  | Some cfg =>
      let opts := mkNccl (default (CBool false) (cfg !! "is_high_priority_stream"))
                    (cfg !! "cga_cluster_size") (cfg !! "max_ctas") (cfg !! "min_ctas") (cfg !! "net_name") in
      match cfg !! "net_name" with
      | None => mret (Some opts)
      | Some (CStr net) =>
          if bool_decide (py_lower net ∈ ["ib"; "socket"]) then mret (Some opts)
          else raise_ RuntimeError "net_name is not supported."
      | Some _ => raise_ AttributeError "object has no attribute 'lower'"
      end
  end.

(** [overwrite_nccl_comm_cfgs] *)
Definition overwrite_nccl_comm_cfgs (nccl_comm_cfgs : nccl_cfgs) (pg_name : string)
    (key_value_pair : string * cfg_value) : nccl_cfgs :=
  <[pg_name := <[key_value_pair.1 := key_value_pair.2]> (default ∅ (nccl_comm_cfgs !! pg_name))]> nccl_comm_cfgs.

(** [default_embedding_ranks], [default_position_embedding_ranks] *)
Definition default_embedding_ranks (pp_ranks : list Z) : res (list Z) :=
  if (length pp_ranks =? 1)%nat then x ← py_get pp_ranks 0; mret [x]
  else x ← py_get pp_ranks 0; y ← py_get pp_ranks (-1); mret [x; y].
Definition default_position_embedding_ranks (pp_ranks : list Z) : res (list Z) :=
  x ← py_get pp_ranks 0; mret [x].

(** [s.endswith(suffix)] *)
Definition py_endswith (s suffix : string) : bool :=
  prefixb (reverse (chars suffix)) (reverse (chars s)).

(** The arguments of [initialize_model_parallel]. *)
Record mp_args := mkArgs {
  tensor_model_parallel_size : Z;
  pipeline_model_parallel_size : Z;
  virtual_pipeline_model_parallel_size : option Z;
  pipeline_model_parallel_comm_backend : option string;
  use_sharp : bool;
  context_parallel_size : Z;
  hierarchical_context_parallel_sizes : option (list Z);
  expert_model_parallel_size : Z;
  num_distributed_optimizer_instances : Z;
  expert_tensor_parallel_size : option Z;
  nccl_communicator_config_path : option string;
  distributed_timeout_minutes : Z;
  order : string;
  get_embedding_ranks : option (list Z -> res (list Z));
  get_position_embedding_ranks : option (list Z -> res (list Z));
  create_gloo_process_groups : bool;
  high_priority_stream_groups : option (list string);
  sharp_enabled_group : option string
}.

(** The defaults of the signature, with the sizes as arguments. *)
Definition default_args (tp pp cp ep : Z) : mp_args :=
  mkArgs tp pp None None false cp None ep 1 None None 30 "tp-cp-ep-dp-pp" None None true None None.

Section Initialize.
Context {PG : Type} `{!ProcessGroup PG} `{!Einops}.
Context (env : dist_env).
Let St := pstate PG.
Let rank := de_rank env.

(** [create_group]; the arguments that no caller passes keep their defaults.
    Versions of torch before 2.4 get neither a description nor a null timeout. *)
Definition group_kwargs (ranks : list Z) (timeout : option Z) (backend : option string)
    (pg_options : option nccl_options) (group_desc : option string) : new_group_kwargs :=
  if de_torch_min_2_4 env then mkKw ranks (Some timeout) backend pg_options false (Some group_desc)
  else mkKw ranks (match timeout with None => None | Some t => Some (Some t) end)
         backend pg_options false None.

Definition create_group (ranks : list Z) (timeout : option Z) (backend : option string)
    (pg_options : option nccl_options) (group_desc : option string) : M St PG :=
  let kwargs := group_kwargs ranks timeout backend pg_options group_desc in
  s ← getM;
  let group := new_group (length (ps_calls s)) kwargs in
  modM (on_calls (fun c => c ++ [kwargs])) ;;
  modM (on_list (fun l => match l with None => Some [None] | Some l => Some l end)) ;;
  whenM (bool_decide (de_rank env ∈ ranks)) (modM (on_list (option_map (fun l => l ++ [Some group])))) ;;
  mret group.

(** The gloo twin of a group, [None] when gloo groups are off. *)
Definition create_group_gloo (create : bool) (ranks : list Z) (timeout : option Z)
    (pg_options : option nccl_options) (group_desc : string) : M St (option PG) :=
  if create then g ← create_group ranks timeout (Some "gloo") pg_options (Some group_desc); mret (Some g)
  else mret None.

(** [create_hierarchical_groups]: one level of the loop, then the loop. *)
Definition hierarchical_level (ranks : list Z) (sizes : list Z) (create_gloo : bool)
    (pg_options : list (option nccl_options)) (timeout : option Z) (group_desc : string)
    (acc : list PG * list (option PG)) (level : Z) : M St (list PG * list (option PG)) :=
  size ← liftM (py_get sizes level);
  rearranged_ranks ← liftM (rearrange ranks (zprod (drop (Z.to_nat (level + 1)) sizes)) size
                              (zprod (take (Z.to_nat level) sizes)));
  opts ← liftM (if bool_decide (rearranged_ranks = []) then mret None else py_get pg_options level);
  (fix go acc rows := match rows with
   | [] => mret acc
   | sub_ranks :: rows =>
       sub_group ← create_group sub_ranks timeout None opts
         (Some ("HIERARCHICAL_" +:+ group_desc +:+ "_L" +:+ str_of_Z level));
       sub_group_gloo ← create_group_gloo create_gloo sub_ranks timeout opts
         ("HIERARCHICAL_" +:+ group_desc +:+ "_GLOO_L" +:+ str_of_Z level);
       go (if bool_decide (rank ∈ sub_ranks) then (acc.1 ++ [sub_group], acc.2 ++ [sub_group_gloo]) else acc) rows
   end) acc rearranged_ranks.

Fixpoint hierarchical_levels (ranks sizes : list Z) (create_gloo : bool)
    (pg_options : list (option nccl_options)) (timeout : option Z) (group_desc : string)
    (acc : list PG * list (option PG)) (levels : list Z) : M St (list PG * list (option PG)) :=
  match levels with
  | [] => mret acc
  | level :: levels =>
      acc ← hierarchical_level ranks sizes create_gloo pg_options timeout group_desc acc level;
      hierarchical_levels ranks sizes create_gloo pg_options timeout group_desc acc levels
  end.

(** [pg_options] is a list, or one value for all levels. *)
Definition create_hierarchical_groups (ranks hierarchical_group_sizes : list Z) (create_gloo : bool)
    (pg_options : option nccl_options + list (option nccl_options)) (timeout : option Z) (group_desc : string)
    : M St (list PG * list (option PG)) :=
  (if de_have_einops env then mret tt else raiseM ImportError "einops is not installed.") ;;
  let n := length hierarchical_group_sizes in
  let opts := match pg_options with inl o => replicate n o | inr l => l end in
  groups ← hierarchical_levels ranks hierarchical_group_sizes create_gloo opts timeout group_desc ([], [])
    (zrange 0 (Z.of_nat n));
  assertM (negb (bool_decide (rank ∈ ranks)) || (length groups.1 =? n)%nat) "hierarchical groups" ;;
  assertM (negb (bool_decide (rank ∈ ranks)) || (length groups.2 =? n)%nat) "hierarchical gloo groups" ;;
  mret groups.

(** The loop [for ranks in generator.get_ranks(token): group = create_group(...);
    if rank in ranks: ...] that most sections consist of. *)
Definition build_groups (rg : RankGenerator) (token : string) (timeout : option Z) (cfgs : nccl_cfgs)
    (pg_name group_desc : string) (on_member : list Z -> PG -> M St unit) : M St unit :=
  groups ← liftM (get_ranks rg token);
  iterM (fun ranks =>
    opts ← liftM (get_nccl_options pg_name cfgs);
    group ← create_group ranks timeout None opts (Some group_desc);
    whenM (bool_decide (rank ∈ ranks)) (on_member ranks group)) groups.

(** *** Sections of [initialize_model_parallel] *)

(** SHARP arguments; the result is the group SHARP is enabled for. *)
Definition check_sharp (a : mp_args) : M St (option string) :=
  delenv "NCCL_COLLNET_ENABLE" ;;
  if use_sharp a then
    match sharp_enabled_group a with
    | None => mret (Some "dp")
    | Some g =>
        assertM (bool_decide (g ∈ ["dp"; "dp_replica"])) "Invalid sharp_enabled_group" ;;
        whenM (bool_decide (g = "dp_replica"))
          (assertM (1 <? num_distributed_optimizer_instances a)
             "dp_replica group requires num_distributed_optimizer_instances > 1") ;;
        mret (Some g)
    end
  else
    assertM (is_none (sharp_enabled_group a)) "sharp_enabled_group is only valid when use_sharp is True" ;;
    mret None.

(** World size, model size and the virtual pipeline. *)
Definition check_sizes (a : mp_args) : M St Z :=
  assertM (de_initialized env) "torch.distributed.is_initialized()" ;;
  let model_size := tensor_model_parallel_size a * pipeline_model_parallel_size a * context_parallel_size a in
  m ← liftM (pymod (de_world_size env) model_size);
  (if m =? 0 then mret tt else raiseM RuntimeError "world_size is not divisible by model_size") ;;
  data_parallel_size ← liftM (floordiv (de_world_size env) model_size);
  match virtual_pipeline_model_parallel_size a with
  | None => mret tt
  | Some v =>
      (if 1 <? pipeline_model_parallel_size a then mret tt
       else raiseM RuntimeError "pipeline-model-parallel size should be greater than 1 with interleaved schedule") ;;
      set_int "_VIRTUAL_PIPELINE_MODEL_PARALLEL_RANK" (Some 0) ;;
      set_int "_VIRTUAL_PIPELINE_MODEL_PARALLEL_WORLD_SIZE" (Some v)
  end ;;
  mret data_parallel_size.

Definition load_cfgs (a : mp_args) : res nccl_cfgs :=
  cfgs ← match nccl_communicator_config_path a with
         | None => mret ∅
         | Some path => de_load_yaml env path
         end;
  mret (fold_left (fun c pg_name => overwrite_nccl_comm_cfgs c pg_name ("is_high_priority_stream", CBool true))
          (default [] (high_priority_stream_groups a)) cfgs).

(** The two rank generators and their consistency; the result also has the
    expert data parallel size. *)
Definition make_generators (a : mp_args) (data_parallel_size : Z) : res (RankGenerator * RankGenerator * Z) :=
  decoder ← RankGenerator_init (tensor_model_parallel_size a) 1 data_parallel_size
    (pipeline_model_parallel_size a) (context_parallel_size a) (order a) 0;
  let etp := default (tensor_model_parallel_size a) (expert_tensor_parallel_size a) in
  let etmp := etp * expert_model_parallel_size a * pipeline_model_parallel_size a in
  expert_data_parallel_size ← floordiv (de_world_size env) etmp;
  m ← pymod (de_world_size env) etmp;
  (if m =? 0 then mret tt
   else raise_ RuntimeError "world_size is not divisible by expert_tensor_model_pipeline_parallel size") ;;
  expert ← RankGenerator_init etp (expert_model_parallel_size a) expert_data_parallel_size
    (pipeline_model_parallel_size a) 1 (order a) 0;
  assert_ (py_endswith (order a) "pp" || (pipeline_model_parallel_size a =? 1)
           || (expert_data_parallel_size =? data_parallel_size))
    "When not using pp-last rank ordering, the data parallel size of the attention and moe layers must be the same" ;;
  pp_d ← get_ranks decoder "pp";
  pp_e ← get_ranks expert "pp";
  assert_ (bool_decide (pp_d = pp_e))
    "Pipeline parallel groups are expected to be the same for Non-Expert and Expert part" ;;
  mret (decoder, expert, expert_data_parallel_size).

(** One data-parallel-with-context group: the group, its gloo twin, and the
    partial groups of the distributed optimizer instances. *)
Definition dp_cp_round (a : mp_args) (timeout : option Z) (cfgs : nccl_cfgs)
    (intra_partial_data_parallel_size : Z) (ranks_with_cp : list Z) : M St unit :=
  opts ← liftM (get_nccl_options "dp_cp" cfgs);
  group_with_cp ← create_group ranks_with_cp timeout None opts (Some "DATA_PARALLEL_GROUP_WITH_CP");
  group_with_cp_gloo ← create_group_gloo (create_gloo_process_groups a) ranks_with_cp timeout None
    "DATA_PARALLEL_GROUP_WITH_CP_GLOO";
  whenM (bool_decide (rank ∈ ranks_with_cp))
    (set_group "_DATA_PARALLEL_GROUP_WITH_CP" (Some (GOne group_with_cp)) ;;
     set_group "_DATA_PARALLEL_GROUP_WITH_CP_GLOO" (GOne <$> group_with_cp_gloo) ;;
     set_ranks "_DATA_PARALLEL_GLOBAL_RANKS_WITH_CP" (Some (RFlat ranks_with_cp))) ;;
  if 1 <? num_distributed_optimizer_instances a then
    iterM (fun i =>
      let ranks := py_slice ranks_with_cp (i * intra_partial_data_parallel_size)
                     ((i + 1) * intra_partial_data_parallel_size) in
      opts ← liftM (get_nccl_options "intra_dp_cp" cfgs);
      group ← create_group ranks timeout None opts (Some "INTRA_PARTIAL_DATA_PARALLEL_GROUP_WITH_CP");
      group_gloo ← create_group_gloo (create_gloo_process_groups a) ranks timeout None
        "INTRA_PARTIAL_DATA_PARALLEL_GROUP_WITH_CP_GLOO";
      whenM (bool_decide (rank ∈ ranks))
        (set_group "_INTRA_PARTIAL_DATA_PARALLEL_GROUP_WITH_CP" (Some (GOne group)) ;;
         set_group "_INTRA_PARTIAL_DATA_PARALLEL_GROUP_WITH_CP_GLOO" (GOne <$> group_gloo)))
      (zrange 0 (num_distributed_optimizer_instances a))
  else
    s ← getM;
    set_group "_INTRA_PARTIAL_DATA_PARALLEL_GROUP_WITH_CP" (ps_groups s !! "_DATA_PARALLEL_GROUP_WITH_CP") ;;
    set_group "_INTRA_PARTIAL_DATA_PARALLEL_GROUP_WITH_CP_GLOO"
      (ps_groups s !! "_DATA_PARALLEL_GROUP_WITH_CP_GLOO").

Definition build_dp_cp (a : mp_args) (timeout : option Z) (cfgs : nccl_cfgs) (decoder : RankGenerator)
    (data_parallel_size : Z) (sharp : option string) : M St unit :=
  assert_unset "_DATA_PARALLEL_GROUP" "data parallel group is already initialized" ;;
  m ← liftM (pymod (data_parallel_size * context_parallel_size a) (num_distributed_optimizer_instances a));
  assertM (m =? 0) "Data parallel size should be divisible by partial DistOpt shard factor" ;;
  intra_partial_data_parallel_size ←
    liftM (floordiv (data_parallel_size * context_parallel_size a) (num_distributed_optimizer_instances a));
  whenM (bool_decide (sharp = Some "dp")) (setenv "NCCL_COLLNET_ENABLE" "1") ;;
  groups ← liftM (get_ranks decoder "dp-cp");
  iterM (dp_cp_round a timeout cfgs intra_partial_data_parallel_size) groups.

(** SHARP on the data-parallel group: a barrier creates its communicator. *)
Definition apply_sharp_dp (sharp : option string) : M St unit :=
  whenM (bool_decide (sharp = Some "dp"))
    (s ← getM;
     assertM (negb (is_none (ps_groups s !! "_DATA_PARALLEL_GROUP_WITH_CP")))
       "data parallel group with context parallel combined is not initialized" ;;
     modM (on_barriers (fun l => l ++ [ps_groups s !! "_DATA_PARALLEL_GROUP_WITH_CP"])) ;;
     delenv "NCCL_COLLNET_ENABLE").

Definition build_dp (a : mp_args) (timeout : option Z) (cfgs : nccl_cfgs) (decoder : RankGenerator) : M St unit :=
  groups ← liftM (get_ranks decoder "dp");
  iterM (fun ranks =>
    opts ← liftM (get_nccl_options "dp" cfgs);
    group ← create_group ranks timeout None opts (Some "DATA_PARALLEL_GROUP");
    group_gloo ← create_group_gloo (create_gloo_process_groups a) ranks timeout None "DATA_PARALLEL_GROUP_GLOO";
    whenM (bool_decide (rank ∈ ranks))
      (set_group "_DATA_PARALLEL_GROUP" (Some (GOne group)) ;;
       set_group "_DATA_PARALLEL_GROUP_GLOO" (GOne <$> group_gloo) ;;
       set_ranks "_DATA_PARALLEL_GLOBAL_RANKS" (Some (RFlat ranks)))) groups.

Definition build_cp (a : mp_args) (timeout : option Z) (cfgs : nccl_cfgs) (decoder : RankGenerator) : M St unit :=
  assert_unset "_CONTEXT_PARALLEL_GROUP" "context parallel group is already initialized" ;;
  groups ← liftM (get_ranks decoder "cp");
  iterM (fun ranks =>
    opts ← liftM (get_nccl_options "cp" cfgs);
    group ← create_group ranks timeout None opts (Some "CONTEXT_PARALLEL_GROUP");
    whenM (bool_decide (rank ∈ ranks))
      (set_group "_CONTEXT_PARALLEL_GROUP" (Some (GOne group)) ;;
       set_ranks "_CONTEXT_PARALLEL_GLOBAL_RANKS" (Some (RFlat ranks))) ;;
    match hierarchical_context_parallel_sizes a with
    | None | Some [] => mret tt
    | Some sizes =>
        assertM (zprod sizes =? context_parallel_size a) "np.prod(hierarchical_context_parallel_sizes)" ;;
        hopts ← liftM (get_nccl_options "hcp" cfgs);
        hgroups ← create_hierarchical_groups ranks sizes false (inl hopts) timeout "CONTEXT_PARALLEL_GROUP";
        whenM (bool_decide (rank ∈ ranks))
          (set_group "_HIERARCHICAL_CONTEXT_PARALLEL_GROUPS" (Some (GMany hgroups.1)))
    end) groups.

Definition build_mp (timeout : option Z) (cfgs : nccl_cfgs) (decoder : RankGenerator) : M St unit :=
  assert_unset "_MODEL_PARALLEL_GROUP" "model parallel group is already initialized" ;;
  build_groups decoder "tp-pp" timeout cfgs "mp" "MODEL_PARALLEL_GROUP" (fun ranks group =>
    set_group "_MODEL_PARALLEL_GROUP" (Some (GOne group)) ;;
    set_ranks "_MODEL_PARALLEL_GLOBAL_RANKS" (Some (RFlat ranks))).

Definition build_tp (timeout : option Z) (cfgs : nccl_cfgs) (decoder : RankGenerator) : M St unit :=
  assert_unset "_TENSOR_MODEL_PARALLEL_GROUP" "tensor model parallel group is already initialized" ;;
  build_groups decoder "tp" timeout cfgs "tp" "TENSOR_MODEL_PARALLEL_GROUP" (fun ranks group =>
    set_group "_TENSOR_MODEL_PARALLEL_GROUP" (Some (GOne group)) ;;
    set_ranks "_TENSOR_MODEL_PARALLEL_GLOBAL_RANKS" (Some (RFlat ranks))).

(** The environment of the UCC backend. *)
Definition setup_ucc : M St unit :=
  s ← getM;
  assertM (negb (bool_decide (ps_environ s !! "CUDA_DEVICE_MAX_CONNECTIONS" = Some "1")))
    "UCC-backend requires CUDA_DEVICE_MAX_CONNECTIONS > 1" ;;
  setenv_default "TORCH_UCC_BLOCKING_WAIT" "none" ;;
  setenv_default "UCC_EC_CUDA_STREAM_TASK_MODE" "driver" ;;
  setenv_default "UCX_TLS" "ib,cuda_copy" ;;
  setenv "NSYS_UCP_COMM_PARAMS" "1" ;;
  setenv "UCX_RNDV_THRESH" "0" ;;
  setenv "UCX_NET_DEVICES" "all" ;;
  setenv "UCC_CL_BASIC_TLS" "^sharp,nccl".

(** The rank joins a pipeline group; a second one turns the globals into lists. *)
Definition join_pipeline (ranks : list Z) (group : PG) : M St unit :=
  s ← getM;
  match ps_groups s !! "_PIPELINE_MODEL_PARALLEL_GROUP", ps_ranks s !! "_PIPELINE_GLOBAL_RANKS" with
  | None, _ =>
      set_group "_PIPELINE_MODEL_PARALLEL_GROUP" (Some (GOne group)) ;;
      set_ranks "_PIPELINE_GLOBAL_RANKS" (Some (RFlat ranks))
  | Some (GMany gs), Some (RNested ls) =>
      set_group "_PIPELINE_MODEL_PARALLEL_GROUP" (Some (GMany (gs ++ [group]))) ;;
      set_ranks "_PIPELINE_GLOBAL_RANKS" (Some (RNested (ls ++ [ranks])))
  | Some (GOne g), Some (RFlat l) =>
      set_group "_PIPELINE_MODEL_PARALLEL_GROUP" (Some (GMany [g; group])) ;;
      set_ranks "_PIPELINE_GLOBAL_RANKS" (Some (RNested [l; ranks]))
  | _, _ => raiseM TypeError "_PIPELINE_GLOBAL_RANKS"
  end.

Definition pp_round (a : mp_args) (timeout : option Z) (cfgs : nccl_cfgs) (ranks : list Z) : M St unit :=
  let backend := pipeline_model_parallel_comm_backend a in
  opts ← liftM (if bool_decide (backend = Some "ucc") then mret None else get_nccl_options "pp" cfgs);
  group ← create_group ranks timeout backend opts (Some "PIPELINE_MODEL_PARALLEL_GROUP");
  assertM (bool_decide (backend ∈ [None; Some "nccl"; Some "ucc"]))
    "backend for PP communication is currently not supported" ;;
  whenM (bool_decide (rank ∈ ranks)) (join_pipeline ranks group) ;;
  embedding_ranks ← liftM (default default_embedding_ranks (get_embedding_ranks a) ranks);
  opts ← liftM (get_nccl_options "embd" cfgs);
  group ← create_group embedding_ranks timeout None opts (Some "EMBEDDING_GROUP");
  whenM (bool_decide (rank ∈ embedding_ranks))
    (set_group "_EMBEDDING_GROUP" (Some (GOne group)) ;;
     set_ranks "_EMBEDDING_GLOBAL_RANKS" (Some (RFlat embedding_ranks))) ;;
  position_embedding_ranks ← liftM (default default_position_embedding_ranks (get_position_embedding_ranks a) ranks);
  opts ← liftM (get_nccl_options "pos_embd" cfgs);
  group ← create_group position_embedding_ranks timeout None opts (Some "POSITION_EMBEDDING_GROUP");
  whenM (bool_decide (rank ∈ position_embedding_ranks))
    (set_group "_POSITION_EMBEDDING_GROUP" (Some (GOne group)) ;;
     set_ranks "_POSITION_EMBEDDING_GLOBAL_RANKS" (Some (RFlat position_embedding_ranks))).

Definition build_pp (a : mp_args) (timeout : option Z) (cfgs : nccl_cfgs) (decoder : RankGenerator) : M St unit :=
  assert_unset "_PIPELINE_MODEL_PARALLEL_GROUP" "pipeline model parallel group is already initialized" ;;
  assert_unset "_EMBEDDING_GROUP" "embedding group is already initialized" ;;
  assert_unset "_POSITION_EMBEDDING_GROUP" "position embedding group is already initialized" ;;
  whenM (bool_decide (pipeline_model_parallel_comm_backend a = Some "ucc")) setup_ucc ;;
  groups ← liftM (get_ranks decoder "pp");
  iterM (pp_round a timeout cfgs) groups.

(** The joint groups of the dense part: tp-dp-cp, tp-dp and tp-cp. *)
Definition build_joint (timeout : option Z) (cfgs : nccl_cfgs) (decoder : RankGenerator) : M St unit :=
  assert_unset "_TENSOR_AND_DATA_PARALLEL_GROUP" "Tensor + data parallel group is already initialized" ;;
  build_groups decoder "tp-dp-cp" timeout cfgs "tp_dp_cp" "TENSOR_AND_DATA_PARALLEL_GROUP_WITH_CP"
    (fun _ group => set_group "_TENSOR_AND_DATA_PARALLEL_GROUP_WITH_CP" (Some (GOne group))) ;;
  build_groups decoder "tp-dp" timeout cfgs "tp_dp" "TENSOR_AND_DATA_PARALLEL_GROUP"
    (fun _ group => set_group "_TENSOR_AND_DATA_PARALLEL_GROUP" (Some (GOne group))) ;;
  assert_unset "_TENSOR_AND_CONTEXT_PARALLEL_GROUP" "Tensor + context parallel group is already initialized" ;;
  build_groups decoder "tp-cp" timeout cfgs "tp_cp" "TENSOR_AND_CONTEXT_PARALLEL_GROUP"
    (fun _ group => set_group "_TENSOR_AND_CONTEXT_PARALLEL_GROUP" (Some (GOne group))).

(** The model groups of the expert part: ep (created without a timeout), etp, tp-ep, tp-ep-pp. *)
Definition build_expert (timeout : option Z) (cfgs : nccl_cfgs) (expert : RankGenerator) : M St unit :=
  assert_unset "_EXPERT_MODEL_PARALLEL_GROUP" "Expert parallel group is already initialized" ;;
  build_groups expert "ep" None cfgs "ep" "EXPERT_MODEL_PARALLEL_GROUP"
    (fun _ group => set_group "_EXPERT_MODEL_PARALLEL_GROUP" (Some (GOne group))) ;;
  assert_unset "_EXPERT_TENSOR_PARALLEL_GROUP" "Expert tensor model parallel group is already initialized" ;;
  build_groups expert "tp" timeout cfgs "ep_tp" "EXPERT_TENSOR_PARALLEL_GROUP"
    (fun _ group => set_group "_EXPERT_TENSOR_PARALLEL_GROUP" (Some (GOne group))) ;;
  assert_unset "_EXPERT_TENSOR_AND_MODEL_PARALLEL_GROUP"
    "Expert tensor + model parallel group is already initialized" ;;
  build_groups expert "tp-ep" timeout cfgs "tp_ep_mp" "EXPERT_TENSOR_AND_MODEL_PARALLEL_GROUP"
    (fun _ group => set_group "_EXPERT_TENSOR_AND_MODEL_PARALLEL_GROUP" (Some (GOne group))) ;;
  assert_unset "_EXPERT_TENSOR_MODEL_PIPELINE_PARALLEL_GROUP"
    "The expert_tensor_model_pipeline parallel group is already initialized" ;;
  build_groups expert "tp-ep-pp" timeout cfgs "tp_ep_pp" "EXPERT_TENSOR_MODEL_PIPELINE_PARALLEL_GROUP"
    (fun _ group => set_group "_EXPERT_TENSOR_MODEL_PIPELINE_PARALLEL_GROUP" (Some (GOne group))).

Definition expert_dp_round (a : mp_args) (timeout : option Z) (cfgs : nccl_cfgs) (sharp : option string)
    (intra_partial_expert_data_parallel_size : Z) (ranks : list Z) : M St unit :=
  opts ← liftM (get_nccl_options "ep_dp" cfgs);
  group ← create_group ranks timeout None opts (Some "EXPERT_DATA_PARALLEL_GROUP");
  group_gloo ← create_group_gloo (create_gloo_process_groups a) ranks None None "EXPERT_DATA_PARALLEL_GROUP_GLOO";
  whenM (bool_decide (rank ∈ ranks))
    (set_group "_EXPERT_DATA_PARALLEL_GROUP" (Some (GOne group)) ;;
     set_group "_EXPERT_DATA_PARALLEL_GROUP_GLOO" (GOne <$> group_gloo)) ;;
  if 1 <? num_distributed_optimizer_instances a then
    whenM (bool_decide (sharp = Some "dp_replica")) (setenv "NCCL_COLLNET_ENABLE" "1") ;;
    intra_opts ← liftM (get_nccl_options "intra_ep_dp" cfgs);
    inter_opts ← liftM (get_nccl_options "inter_ep_dp" cfgs);
    hgroups ← create_hierarchical_groups ranks
      [intra_partial_expert_data_parallel_size; num_distributed_optimizer_instances a]
      (create_gloo_process_groups a) (inr [intra_opts; inter_opts]) timeout "EXPERT_DATA_PARALLEL_GROUP";
    whenM (bool_decide (rank ∈ ranks))
      (intra ← liftM (py_get hgroups.1 0);
       set_group "_INTRA_PARTIAL_EXPERT_DATA_PARALLEL_GROUP" (Some (GOne intra)) ;;
       intra_gloo ← liftM (py_get hgroups.2 0);
       set_group "_INTRA_PARTIAL_EXPERT_DATA_PARALLEL_GROUP_GLOO" (GOne <$> intra_gloo) ;;
       inter ← liftM (py_get hgroups.1 1);
       set_group "_INTER_PARTIAL_EXPERT_DATA_PARALLEL_GROUP" (Some (GOne inter))) ;;
    whenM (bool_decide (sharp = Some "dp_replica"))
      (s ← getM;
       whenM (negb (is_none (ps_groups s !! "_INTER_PARTIAL_EXPERT_DATA_PARALLEL_GROUP")))
         (modM (on_barriers (fun l => l ++ [ps_groups s !! "_INTER_PARTIAL_EXPERT_DATA_PARALLEL_GROUP"]))) ;;
       delenv "NCCL_COLLNET_ENABLE")
  else
    s ← getM;
    set_group "_INTRA_PARTIAL_EXPERT_DATA_PARALLEL_GROUP" (ps_groups s !! "_EXPERT_DATA_PARALLEL_GROUP") ;;
    set_group "_INTRA_PARTIAL_EXPERT_DATA_PARALLEL_GROUP_GLOO" (ps_groups s !! "_EXPERT_DATA_PARALLEL_GROUP_GLOO").

(** The result is the size of a partial expert data-parallel group. *)
Definition build_expert_dp (a : mp_args) (timeout : option Z) (cfgs : nccl_cfgs) (sharp : option string)
    (expert : RankGenerator) (expert_data_parallel_size : Z) : M St Z :=
  assert_unset "_EXPERT_DATA_PARALLEL_GROUP" "Expert data group is already initialized" ;;
  assert_unset "_EXPERT_DATA_PARALLEL_GROUP_GLOO" "Expert data group-gloo is already initialized" ;;
  assert_unset "_INTRA_PARTIAL_EXPERT_DATA_PARALLEL_GROUP"
    "Intra partial expert data group is already initialized" ;;
  assert_unset "_INTRA_PARTIAL_EXPERT_DATA_PARALLEL_GROUP_GLOO"
    "Intra partial expert data group-gloo is already initialized" ;;
  assert_unset "_INTER_PARTIAL_EXPERT_DATA_PARALLEL_GROUP"
    "Inter partial expert data group is already initialized" ;;
  m ← liftM (pymod expert_data_parallel_size (num_distributed_optimizer_instances a));
  assertM (m =? 0) "Expert data parallel size should be divisible by partial DistOpt shard factor" ;;
  intra_size ← liftM (floordiv expert_data_parallel_size (num_distributed_optimizer_instances a));
  groups ← liftM (get_ranks expert "dp");
  iterM (expert_dp_round a timeout cfgs sharp intra_size) groups ;;
  mret intra_size.

(** The loop that joins consecutive tp-ep-pp groups into one group per
    distributed optimizer instance. *)
Fixpoint intra_dist_opt_loop (timeout : option Z) (cfgs : nccl_cfgs) (intra_size : Z)
    (model_parallel_group_id : Z) (intra_dist_opt_ranks : list Z) (groups : list (list Z)) : M St unit :=
  match groups with
  | [] => mret tt
  | ranks :: groups =>
      let id := model_parallel_group_id + 1 in
      let acc := intra_dist_opt_ranks ++ ranks in
      m ← liftM (pymod id intra_size);
      if m =? 0 then
        opts ← liftM (get_nccl_options "intra_dist_opt_instance" cfgs);
        group ← create_group acc timeout None opts (Some "INTRA_DISTRIBUTED_OPTIMIZER_INSTANCE_GROUP");
        whenM (bool_decide (rank ∈ acc))
          (set_group "_INTRA_DISTRIBUTED_OPTIMIZER_INSTANCE_GROUP" (Some (GOne group))) ;;
        intra_dist_opt_loop timeout cfgs intra_size id [] groups
      else intra_dist_opt_loop timeout cfgs intra_size id acc groups
  end.

Definition build_intra_dist_opt (timeout : option Z) (cfgs : nccl_cfgs) (expert : RankGenerator)
    (intra_size : Z) : M St unit :=
  assert_unset "_INTRA_DISTRIBUTED_OPTIMIZER_INSTANCE_GROUP"
    "Intra distributed optimizer instance group is already initialized" ;;
  groups ← liftM (get_ranks expert "tp-ep-pp");
  intra_dist_opt_loop timeout cfgs intra_size 0 [] groups.

(** [_set_global_memory_buffer], [destroy_global_memory_buffer] *)
Definition set_global_memory_buffer : M St unit :=
  s ← getM;
  assertM (is_none (ps_memory_buffer s)) "global memory buffer is already initialized" ;;
  modM (on_buffer (fun _ => Some tt)).
Definition destroy_global_memory_buffer : M St unit := modM (on_buffer (fun _ => None)).

(** [initialize_model_parallel]: the sections in the order of the code. *)
Definition initialize_model_parallel (a : mp_args) : M St unit :=
  sharp ← check_sharp a;
  data_parallel_size ← check_sizes a;
  cfgs ← liftM (load_cfgs a);
  gens ← liftM (make_generators a data_parallel_size);
  let '(decoder, expert, expert_data_parallel_size) := gens in
  let timeout := Some (distributed_timeout_minutes a) in
  build_dp_cp a timeout cfgs decoder data_parallel_size sharp ;;
  apply_sharp_dp sharp ;;
  build_dp a timeout cfgs decoder ;;
  build_cp a timeout cfgs decoder ;;
  build_mp timeout cfgs decoder ;;
  build_tp timeout cfgs decoder ;;
  build_pp a timeout cfgs decoder ;;
  build_joint timeout cfgs decoder ;;
  build_expert timeout cfgs expert ;;
  intra_size ← build_expert_dp a timeout cfgs sharp expert expert_data_parallel_size;
  build_intra_dist_opt timeout cfgs expert intra_size ;;
  set_global_memory_buffer.
End Initialize.

(** A run on 8 ranks: tensor 2, pipeline 2, context 1, expert 2. *)
Definition env8 (rank : Z) : dist_env := mkDist 8 rank true true true true (fun _ => Ok ∅).
Definition run8 (rank : Z) : res unit * pstate (nat * new_group_kwargs) :=
  initialize_model_parallel (env8 rank) (default_args 2 2 1 2) (fresh_state ∅).

Example run8_ok : map (fun r => is_ok (run8 r).1) (zrange 0 8) = replicate 8 true.
Proof. vm_compute. reflexivity. Qed.

(* ================================================================== *)
(** ** Getters, setters and destruction                                *)
(* ================================================================== *)

Section Access.
Context {PG : Type} `{!ProcessGroup PG}.
Context (env : dist_env).
Let St := pstate PG.
Implicit Type s : pstate PG.

(** [if check: assert GLOBAL is not None, msg]; [return GLOBAL] *)
Definition read_group (v : string) (check : bool) (msg : string) s : res (option (gval PG)) :=
  assert_ (negb check || negb (is_none (ps_groups s !! v))) msg ;;
  mret (ps_groups s !! v).

(** [g.size()] and [g.rank()]; neither [None] nor a list has them. *)
Definition call_size (g : option (gval PG)) : res Z :=
  match g with
  | Some (GOne g) => Ok (pg_size g)
  | _ => raise_ AttributeError "object has no attribute 'size'"
  end.
Definition call_rank (g : option (gval PG)) : res Z :=
  match g with
  | Some (GOne g) => Ok (pg_rank g (de_rank env))
  | _ => raise_ AttributeError "object has no attribute 'rank'"
  end.

Definition is_initialized s : bool := negb (is_none (ps_groups s !! "_DATA_PARALLEL_GROUP")).
Definition model_parallel_is_initialized s : bool :=
  negb (is_none (ps_groups s !! "_TENSOR_MODEL_PARALLEL_GROUP")
        || is_none (ps_groups s !! "_PIPELINE_MODEL_PARALLEL_GROUP")
        || is_none (ps_groups s !! "_DATA_PARALLEL_GROUP")).

Definition get_model_parallel_group (check : bool) :=
  read_group "_MODEL_PARALLEL_GROUP" check "model parallel group is not initialized".
Definition get_tensor_model_parallel_group (check : bool) :=
  read_group "_TENSOR_MODEL_PARALLEL_GROUP" check "tensor model parallel group is not initialized".
Definition get_pipeline_model_parallel_group (check : bool) :=
  read_group "_PIPELINE_MODEL_PARALLEL_GROUP" check "pipeline_model parallel group is not initialized".

Definition get_data_parallel_group (with_context_parallel partial_data_parallel : bool) s : res (option (gval PG)) :=
  if with_context_parallel then
    if partial_data_parallel then
      read_group "_INTRA_PARTIAL_DATA_PARALLEL_GROUP_WITH_CP" true
        "Intra partial data parallel group is not initialized" s
    else read_group "_DATA_PARALLEL_GROUP_WITH_CP" true
           "data parallel group with context parallel combined is not initialized" s
  else
    g ← read_group "_DATA_PARALLEL_GROUP" true "data parallel group is not initialized" s;
    assert_ (negb partial_data_parallel) "Partial DP for Optimizer needs to include CP" ;;
    mret g.

Definition get_data_parallel_group_gloo (with_context_parallel partial_data_parallel : bool) s
    : res (option (gval PG)) :=
  if with_context_parallel then
    if partial_data_parallel then
      read_group "_INTRA_PARTIAL_DATA_PARALLEL_GROUP_WITH_CP_GLOO" true
        "Intra partial data parallel group is not initialized" s
    else read_group "_DATA_PARALLEL_GROUP_WITH_CP_GLOO" true
           "data parallel group-gloo with context parallel combined is not initialized" s
  else
    g ← read_group "_DATA_PARALLEL_GROUP_GLOO" true "data parallel group-gloo is not initialized" s;
    assert_ (negb partial_data_parallel) "Partial DP for Optimizer needs to include CP" ;;
    mret g.

Definition get_context_parallel_group (check : bool) :=
  read_group "_CONTEXT_PARALLEL_GROUP" check "context parallel group is not initialized".
Definition get_context_parallel_global_ranks (check : bool) s : res (option rval) :=
  assert_ (negb check || negb (is_none (ps_ranks s !! "_CONTEXT_PARALLEL_GLOBAL_RANKS")))
    "context parallel group is not initialized" ;;
  mret (ps_ranks s !! "_CONTEXT_PARALLEL_GLOBAL_RANKS").
Definition get_hierarchical_context_parallel_groups (check : bool) :=
  read_group "_HIERARCHICAL_CONTEXT_PARALLEL_GROUPS" check "".
Definition get_embedding_group (check : bool) :=
  read_group "_EMBEDDING_GROUP" check "embedding group is not initialized".
Definition get_position_embedding_group (check : bool) :=
  read_group "_POSITION_EMBEDDING_GROUP" check "position embedding group is not initialized".

Definition get_amax_reduction_group (with_context_parallel tp_only_amax_red : bool) :=
  let v := if with_context_parallel then
             if negb tp_only_amax_red then "_TENSOR_AND_DATA_PARALLEL_GROUP_WITH_CP"
             else "_TENSOR_AND_CONTEXT_PARALLEL_GROUP"
           else
             if negb tp_only_amax_red then "_TENSOR_AND_DATA_PARALLEL_GROUP"
             else "_TENSOR_MODEL_PARALLEL_GROUP" in
  read_group v true "FP8 amax reduction group is not initialized".
Definition get_tensor_and_data_parallel_group (check with_context_parallel : bool) :=
  read_group (if with_context_parallel then "_TENSOR_AND_DATA_PARALLEL_GROUP_WITH_CP"
              else "_TENSOR_AND_DATA_PARALLEL_GROUP") check
    "tensor and data parallel group is not initialized".
Definition get_tensor_and_context_parallel_group (check : bool) :=
  read_group "_TENSOR_AND_CONTEXT_PARALLEL_GROUP" check "tensor and context parallel group is not initialized".

(** Setters *)
Definition set_tensor_model_parallel_world_size (n : option Z) : M St unit :=
  set_int "_MPU_TENSOR_MODEL_PARALLEL_WORLD_SIZE" n.
Definition set_pipeline_model_parallel_world_size (n : option Z) : M St unit :=
  set_int "_MPU_PIPELINE_MODEL_PARALLEL_WORLD_SIZE" n.
Definition set_virtual_pipeline_model_parallel_world_size (n : option Z) : M St unit :=
  set_int "_VIRTUAL_PIPELINE_MODEL_PARALLEL_WORLD_SIZE" n.
Definition set_tensor_model_parallel_rank (n : option Z) : M St unit := set_int "_MPU_TENSOR_MODEL_PARALLEL_RANK" n.
Definition set_pipeline_model_parallel_rank (n : option Z) : M St unit :=
  set_int "_MPU_PIPELINE_MODEL_PARALLEL_RANK" n.
Definition set_virtual_pipeline_model_parallel_rank (n : option Z) : M St unit :=
  set_int "_VIRTUAL_PIPELINE_MODEL_PARALLEL_RANK" n.
Definition set_data_parallel_rank (n : option Z) : M St unit := set_int "_MPU_DATA_PARALLEL_RANK" n.
Definition set_expert_model_parallel_world_size (n : option Z) : M St unit :=
  set_int "_MPU_EXPERT_MODEL_PARALLEL_WORLD_SIZE" n.
Definition set_expert_model_parallel_rank (n : option Z) : M St unit := set_int "_MPU_EXPERT_MODEL_PARALLEL_RANK" n.
Definition set_expert_tensor_parallel_world_size (n : option Z) : M St unit :=
  set_int "_MPU_EXPERT_TENSOR_PARALLEL_WORLD_SIZE" n.
Definition set_expert_tensor_parallel_rank (n : option Z) : M St unit := set_int "_MPU_EXPERT_TENSOR_PARALLEL_RANK" n.

(** [if OVERRIDE is not None: return OVERRIDE] *)
Definition override (v : string) s (otherwise : res Z) : res Z :=
  match ps_ints s !! v with Some n => Ok n | None => otherwise end.
(** [if torch.distributed.is_available() and torch.distributed.is_initialized(): ... else: return 0] *)
Definition if_dist (r : res Z) : res Z := if de_available env && de_initialized env then r else Ok 0.

Definition get_tensor_model_parallel_world_size s : res Z :=
  override "_MPU_TENSOR_MODEL_PARALLEL_WORLD_SIZE" s
    (g ← get_tensor_model_parallel_group true s; call_size g).
Definition get_pipeline_model_parallel_world_size s : res Z :=
  override "_MPU_PIPELINE_MODEL_PARALLEL_WORLD_SIZE" s
    (g ← get_pipeline_model_parallel_group true s; call_size g).
Definition get_tensor_model_parallel_rank s : res Z :=
  override "_MPU_TENSOR_MODEL_PARALLEL_RANK" s (g ← get_tensor_model_parallel_group true s; call_rank g).
(** [torch.distributed.get_rank(group=...)] *)
Definition get_pipeline_model_parallel_rank s : res Z :=
  override "_MPU_PIPELINE_MODEL_PARALLEL_RANK" s (g ← get_pipeline_model_parallel_group true s; call_rank g).
Definition get_virtual_pipeline_model_parallel_rank s : option Z :=
  ps_ints s !! "_VIRTUAL_PIPELINE_MODEL_PARALLEL_RANK".
Definition get_virtual_pipeline_model_parallel_world_size s : option Z :=
  ps_ints s !! "_VIRTUAL_PIPELINE_MODEL_PARALLEL_WORLD_SIZE".

Definition is_pipeline_first_stage (ignore_virtual : bool) (vp_stage : option Z) s : res bool :=
  let here := r ← get_pipeline_model_parallel_rank s; mret (r =? 0) in
  match negb ignore_virtual, get_virtual_pipeline_model_parallel_world_size s with
  | true, Some _ =>
      match vp_stage with
      | None => raise_ AssertionError "vp_stage must be passed if virtual pipeline is enabled"
      | Some v => if negb (v =? 0) then mret false else here
      end
  | _, _ => here
  end.
Definition is_pipeline_last_stage (ignore_virtual : bool) (vp_stage : option Z) s : res bool :=
  let here := r ← get_pipeline_model_parallel_rank s; n ← get_pipeline_model_parallel_world_size s;
              mret (r =? n - 1) in
  match negb ignore_virtual, get_virtual_pipeline_model_parallel_world_size s with
  | true, Some vs =>
      match vp_stage with
      | None => raise_ AssertionError "vp_stage must be passed if virtual pipeline is enabled"
      | Some v => if negb (v =? vs - 1) then mret false else here
      end
  | _, _ => here
  end.

Definition is_rank_in_embedding_group (ignore_virtual : bool) (vp_stage : option Z) s : res bool :=
  let rank := de_rank env in
  match ps_ranks s !! "_EMBEDDING_GLOBAL_RANKS" with
  | Some (RFlat l) =>
      if ignore_virtual then mret (bool_decide (rank ∈ l))
      else if bool_decide (rank ∈ l) then
        first ← py_get l 0;
        if rank =? first then is_pipeline_first_stage false vp_stage s
        else
          last ← py_get l (-1);
          if rank =? last then is_pipeline_last_stage false vp_stage s else mret true
      else mret false
  | _ => mret false
  end.
Definition is_rank_in_position_embedding_group s : bool :=
  match ps_ranks s !! "_POSITION_EMBEDDING_GLOBAL_RANKS" with
  | Some (RFlat l) => bool_decide (de_rank env ∈ l)
  | _ => false
  end.

(** [assert GLOBAL_RANKS is not None, msg]; [return GLOBAL_RANKS[i]] *)
Definition global_rank_at (v msg : string) s (i : Z) : res Z :=
  match ps_ranks s !! v with
  | None => raise_ AssertionError msg
  | Some (RFlat l) => py_get l i
  | Some (RNested _) => raise_ TypeError "a list of ranks where a rank is expected"
  end.
Definition get_tensor_model_parallel_src_rank s : res Z :=
  global_rank_at "_TENSOR_MODEL_PARALLEL_GLOBAL_RANKS" "Tensor model parallel group is not initialized" s 0.
Definition get_model_parallel_src_rank s : res Z :=
  global_rank_at "_MODEL_PARALLEL_GLOBAL_RANKS" "Model parallel group is not initialized" s 0.
Definition get_data_parallel_src_rank (with_context_parallel : bool) s : res Z :=
  if with_context_parallel then
    global_rank_at "_DATA_PARALLEL_GLOBAL_RANKS_WITH_CP"
      "Data parallel group with context parallel combined is not initialized" s 0
  else global_rank_at "_DATA_PARALLEL_GLOBAL_RANKS" "Data parallel group is not initialized" s 0.
Definition pipeline_rank_at :=
  global_rank_at "_PIPELINE_GLOBAL_RANKS" "Pipeline parallel group is not initialized".
Definition assert_pipeline s : res unit :=
  assert_ (negb (is_none (ps_ranks s !! "_PIPELINE_GLOBAL_RANKS"))) "Pipeline parallel group is not initialized".
Definition get_pipeline_model_parallel_first_rank s : res Z := pipeline_rank_at s 0.
Definition get_pipeline_model_parallel_last_rank s : res Z :=
  assert_pipeline s ;; n ← get_pipeline_model_parallel_world_size s; pipeline_rank_at s (n - 1).
Definition get_pipeline_model_parallel_next_rank s : res Z :=
  assert_pipeline s ;;
  rank_in_pipeline ← get_pipeline_model_parallel_rank s;
  world_size ← get_pipeline_model_parallel_world_size s;
  i ← pymod (rank_in_pipeline + 1) world_size; pipeline_rank_at s i.
Definition get_pipeline_model_parallel_prev_rank s : res Z :=
  assert_pipeline s ;;
  rank_in_pipeline ← get_pipeline_model_parallel_rank s;
  world_size ← get_pipeline_model_parallel_world_size s;
  i ← pymod (rank_in_pipeline - 1) world_size; pipeline_rank_at s i.

Definition get_data_parallel_world_size (with_cp partial : bool) s : res Z :=
  override "_MPU_DATA_PARALLEL_WORLD_SIZE" s (if_dist (g ← get_data_parallel_group with_cp partial s; call_size g)).
Definition get_data_parallel_rank (with_cp partial : bool) s : res Z :=
  override "_MPU_DATA_PARALLEL_RANK" s (if_dist (g ← get_data_parallel_group with_cp partial s; call_rank g)).
Definition get_context_parallel_world_size s : res Z := if_dist (g ← get_context_parallel_group true s; call_size g).
Definition get_context_parallel_rank s : res Z := if_dist (g ← get_context_parallel_group true s; call_rank g).
Definition get_tensor_and_context_parallel_world_size s : res Z :=
  if_dist (g ← get_tensor_and_context_parallel_group true s; call_size g).
Definition get_tensor_and_context_parallel_rank s : res Z :=
  if_dist (g ← get_tensor_and_context_parallel_group true s; call_rank g).

(** Expert getters *)
Definition get_expert_model_parallel_group (check : bool) :=
  read_group "_EXPERT_MODEL_PARALLEL_GROUP" check "expert model parallel group is not initialized".
Definition get_expert_model_parallel_world_size s : res Z :=
  override "_MPU_EXPERT_MODEL_PARALLEL_WORLD_SIZE" s
    (if_dist (g ← get_expert_model_parallel_group true s; call_size g)).
Definition get_expert_model_parallel_rank s : res Z :=
  override "_MPU_EXPERT_MODEL_PARALLEL_RANK" s (if_dist (g ← get_expert_model_parallel_group true s; call_rank g)).
Definition get_expert_tensor_parallel_group (check : bool) :=
  read_group "_EXPERT_TENSOR_PARALLEL_GROUP" check "Expert tensor parallel group is not initialized".
(** Without an expert group the dense override is returned, [None] included. *)
Definition get_expert_tensor_parallel_world_size s : res (option Z) :=
  match ps_ints s !! "_MPU_EXPERT_TENSOR_PARALLEL_WORLD_SIZE" with
  | Some n => Ok (Some n)
  | None => if is_none (ps_groups s !! "_EXPERT_TENSOR_PARALLEL_GROUP")
            then Ok (ps_ints s !! "_MPU_TENSOR_MODEL_PARALLEL_WORLD_SIZE")
            else g ← get_expert_tensor_parallel_group true s; Some <$> call_size g
  end.
Definition get_expert_tensor_parallel_rank s : res (option Z) :=
  match ps_ints s !! "_MPU_EXPERT_TENSOR_PARALLEL_RANK" with
  | Some n => Ok (Some n)
  | None => if is_none (ps_groups s !! "_EXPERT_TENSOR_PARALLEL_GROUP")
            then Ok (ps_ints s !! "_MPU_TENSOR_MODEL_PARALLEL_RANK")
            else g ← get_expert_tensor_parallel_group true s; Some <$> call_rank g
  end.
Definition get_expert_tensor_and_model_parallel_group (check : bool) :=
  read_group "_EXPERT_TENSOR_AND_MODEL_PARALLEL_GROUP" check
    "Expert tensor and model parallel group is not initialized".
Definition get_expert_tensor_and_model_parallel_world_size s : res Z :=
  if_dist (g ← get_expert_tensor_and_model_parallel_group true s; call_size g).
Definition get_expert_tensor_and_model_parallel_rank s : res Z :=
  if_dist (g ← get_expert_tensor_and_model_parallel_group true s; call_rank g).
Definition get_expert_tensor_model_pipeline_parallel_group (check : bool) :=
  read_group "_EXPERT_TENSOR_MODEL_PIPELINE_PARALLEL_GROUP" check
    "Expert tensor-model-pipeline parallel group is not initialized".
Definition get_expert_data_parallel_group (check partial : bool) :=
  if partial then read_group "_INTRA_PARTIAL_EXPERT_DATA_PARALLEL_GROUP" check
                    "Intra partial expert data parallel group is not initialized"
  else read_group "_EXPERT_DATA_PARALLEL_GROUP" check "Expert data parallel group is not initialized".
Definition get_expert_data_parallel_group_gloo (partial : bool) :=
  if partial then read_group "_INTRA_PARTIAL_EXPERT_DATA_PARALLEL_GROUP_GLOO" true
                    "Intra partial expert data parallel group-gloo is not initialized"
  else read_group "_EXPERT_DATA_PARALLEL_GROUP_GLOO" true "Expert data parallel group-gloo is not initialized".
Definition get_expert_data_parallel_rank (partial : bool) s : res Z :=
  if_dist (g ← get_expert_data_parallel_group true partial s; call_rank g).
Definition get_expert_data_parallel_world_size (partial : bool) s : res Z :=
  if_dist (g ← get_expert_data_parallel_group true partial s; call_size g).
Definition get_intra_distributed_optimizer_instance_group :=
  read_group "_INTRA_DISTRIBUTED_OPTIMIZER_INSTANCE_GROUP" true
    "Intra distributed optimizer instance group is not initialized".
Definition get_inter_distributed_optimizer_instance_group :=
  read_group "_INTER_PARTIAL_EXPERT_DATA_PARALLEL_GROUP" true
    "Attention and MLP/Expert share same inter distributed optimize instance group".
Definition get_global_memory_buffer s : res unit :=
  match ps_memory_buffer s with
  | None => raise_ AssertionError "global memory buffer is not initialized"
  | Some b => Ok b
  end.

(** [get_all_ranks]: the five coordinates joined by underscores. *)
Definition get_all_ranks s : res string :=
  tp ← get_tensor_model_parallel_rank s;
  dp ← get_data_parallel_rank false false s;
  cp ← get_context_parallel_rank s;
  pp ← get_pipeline_model_parallel_rank s;
  ep ← get_expert_model_parallel_rank s;
  mret (str_of_Z tp +:+ "_" +:+ str_of_Z dp +:+ "_" +:+ str_of_Z cp +:+ "_" +:+ str_of_Z pp +:+ "_" +:+ str_of_Z ep).

(** Destroy a gloo group that torch still has in its map. *)
Definition destroy_gloo (registered : gval PG -> bool) (v : string) : M St unit :=
  s ← getM;
  match ps_groups s !! v with
  | Some g => whenM (registered g) (modM (on_destroyed (fun l => l ++ [g])))
  | None => mret tt
  end ;;
  set_group v None.

Definition clear_groups (vs : list string) : M St unit := iterM (fun v => set_group v None) vs.
Definition clear_ints (vs : list string) : M St unit := iterM (fun v => set_int v None) vs.

(** [destroy_model_parallel], assignment by assignment. *)
Definition destroy_model_parallel (registered : gval PG -> bool) : M St unit :=
  clear_groups ["_MODEL_PARALLEL_GROUP"; "_TENSOR_MODEL_PARALLEL_GROUP"; "_PIPELINE_MODEL_PARALLEL_GROUP";
                "_DATA_PARALLEL_GROUP"; "_DATA_PARALLEL_GROUP_WITH_CP"; "_CONTEXT_PARALLEL_GROUP"] ;;
  set_ranks "_CONTEXT_PARALLEL_GLOBAL_RANKS" None ;;
  clear_groups ["_EMBEDDING_GROUP"; "_POSITION_EMBEDDING_GROUP"] ;;
  set_ranks "_POSITION_EMBEDDING_GLOBAL_RANKS" None ;;
  clear_groups ["_TENSOR_AND_DATA_PARALLEL_GROUP"; "_TENSOR_AND_DATA_PARALLEL_GROUP_WITH_CP";
                "_TENSOR_AND_CONTEXT_PARALLEL_GROUP"] ;;
  clear_ints ["_VIRTUAL_PIPELINE_MODEL_PARALLEL_RANK"; "_VIRTUAL_PIPELINE_MODEL_PARALLEL_WORLD_SIZE";
              "_MPU_TENSOR_MODEL_PARALLEL_WORLD_SIZE"; "_MPU_PIPELINE_MODEL_PARALLEL_WORLD_SIZE";
              "_MPU_TENSOR_MODEL_PARALLEL_RANK"; "_MPU_PIPELINE_MODEL_PARALLEL_RANK"] ;;
  modM (on_buffer (fun _ => None)) ;;
  destroy_gloo registered "_DATA_PARALLEL_GROUP_GLOO" ;;
  destroy_gloo registered "_DATA_PARALLEL_GROUP_WITH_CP_GLOO" ;;
  clear_groups ["_EXPERT_MODEL_PARALLEL_GROUP"] ;;
  clear_ints ["_MPU_EXPERT_MODEL_PARALLEL_WORLD_SIZE"; "_MPU_EXPERT_MODEL_PARALLEL_RANK"] ;;
  clear_groups ["_EXPERT_TENSOR_PARALLEL_GROUP"] ;;
  clear_ints ["_MPU_EXPERT_TENSOR_PARALLEL_WORLD_SIZE"; "_MPU_EXPERT_TENSOR_PARALLEL_RANK"] ;;
  clear_groups ["_EXPERT_TENSOR_AND_MODEL_PARALLEL_GROUP"; "_EXPERT_TENSOR_MODEL_PIPELINE_PARALLEL_GROUP";
                "_EXPERT_DATA_PARALLEL_GROUP"] ;;
  destroy_gloo registered "_EXPERT_DATA_PARALLEL_GROUP_GLOO" ;;
  clear_groups ["_INTRA_PARTIAL_EXPERT_DATA_PARALLEL_GROUP"] ;;
  destroy_gloo registered "_INTRA_PARTIAL_EXPERT_DATA_PARALLEL_GROUP_GLOO" ;;
  clear_groups ["_INTER_PARTIAL_EXPERT_DATA_PARALLEL_GROUP"; "_INTRA_DISTRIBUTED_OPTIMIZER_INSTANCE_GROUP"] ;;
  modM (on_list (fun _ => None)).
End Access.

Example run8_coords :
  map (fun r => let s := (run8 r).2 in
       match get_all_ranks (env8 r) s with Ok x => x | Err e => exn_msg e end) (zrange 0 8)
  = ["0_0_0_0_0"; "1_0_0_0_0"; "0_1_0_0_1"; "1_1_0_0_1"; "0_0_0_1_0"; "1_0_0_1_0"; "0_1_0_1_1"; "1_1_0_1_1"].
Proof. vm_compute. reflexivity. Qed.
