(* ===== verification/ParallelStateProofs.v ===== *)
(** * What initialize_model_parallel establishes

    A frame lemma and an establishing lemma for each section of
    [initialize_model_parallel], and from them: the coordinates and sizes the
    getters return afterwards, the sequence of [new_group] calls (the same on
    every rank), and what [destroy_model_parallel] resets. *)

From Stdlib Require Import Sorting.Sorted.
From S2P Require Import Prelude RankGroups ParallelState.

(** [keeps G I]: the group globals outside [G] and the integer globals outside [I]
    are unchanged. *)
Definition keeps {PG} (G I : list string) (s s' : pstate PG) : Prop :=
  (forall v, v ∉ G -> ps_groups s' !! v = ps_groups s !! v) /\
  (forall v, v ∉ I -> ps_ints s' !! v = ps_ints s !! v).

#[export] Instance keeps_preorder {PG} G I : PreOrder (@keeps PG G I).
Proof.
  split; [by split|]. intros s1 s2 s3 [H1 H2] [H3 H4].
  split; intros v Hv; [rewrite H3, H1|rewrite H4, H2]; done.
Qed.

Lemma assign_ne {A} (k k' : string) (v : option A) d : k <> k' -> assign k v d !! k' = d !! k'.
Proof. intros. unfold assign. destruct v; [by rewrite lookup_insert_ne|by rewrite lookup_delete_ne]. Qed.
Lemma assign_eq {A} (k : string) (v : option A) d : assign k v d !! k = v.
Proof. unfold assign. destruct v; [by rewrite lookup_insert_eq|by rewrite lookup_delete_eq]. Qed.

(** Membership of a literal name in a literal list. *)
Ltac in_list := first [ left; reflexivity | right; in_list ].
Ltac not_in := apply (bool_decide_unpack _); vm_compute; exact I.

Section Frame.
Context {PG : Type} `{!ProcessGroup PG} `{!Einops} (env : dist_env) (G I : list string).
Let R := @keeps PG G I.

Lemma frame_set_group v g : v ∈ G -> always R (set_group v g).
Proof.
  intros Hv. apply always_mod. intros s. split; [|done]. intros w Hw. cbn. apply assign_ne. set_solver.
Qed.
Lemma frame_set_int v n : v ∈ I -> always R (set_int v n).
Proof.
  intros Hv. apply always_mod. intros s. split; [done|]. intros w Hw. cbn. apply assign_ne. set_solver.
Qed.
Lemma frame_set_ranks v l : always R (set_ranks v l).
Proof. by apply always_mod. Qed.
Lemma frame_setenv k v : always R (setenv k v).
Proof. by apply always_mod. Qed.
Lemma frame_setenv_default k v : always R (setenv_default k v).
Proof. by apply always_mod. Qed.
Lemma frame_delenv k : always R (delenv k).
Proof. by apply always_mod. Qed.
Lemma frame_list f : always R (modM (on_list f)).
Proof. by apply always_mod. Qed.
Lemma frame_calls f : always R (modM (on_calls f)).
Proof. by apply always_mod. Qed.
Lemma frame_barriers f : always R (modM (on_barriers f)).
Proof. by apply always_mod. Qed.
Lemma frame_buffer f : always R (modM (on_buffer f)).
Proof. by apply always_mod. Qed.
Lemma frame_assert_unset v msg : always R (assert_unset v msg).
Proof. unfold assert_unset. eauto 10 with frame typeclass_instances. Qed.
End Frame.

#[export] Hint Resolve frame_set_group frame_set_int frame_set_ranks frame_setenv frame_setenv_default
  frame_delenv frame_list frame_calls frame_barriers frame_buffer frame_assert_unset : frame.

(** Solve a frame goal by the rules of the [frame] database. *)
Ltac frame_step :=
  match goal with
  | |- always _ (mbind _ _) => apply always_bind; [exact _| |intros ?]
  | |- always _ (iterM _ _) => apply always_iter; [exact _|intros ? ?]
  | |- always _ (whenM _ _) => apply always_when; [exact _|intros _]
  | |- always _ (match ?x with _ => _ end) => destruct x
  | |- always _ (let '_ := ?x in _) => destruct x
  | |- always _ _ => solve [eauto 2 with frame typeclass_instances]
  | |- always _ (set_group _ _) => apply frame_set_group; in_list
  | |- always _ (set_int _ _) => apply frame_set_int; in_list
  end.
Ltac frame := repeat frame_step.

Section Sections.
Context {PG : Type} `{!ProcessGroup PG} `{!Einops} (env : dist_env).

Lemma frame_create_group G I ranks t b o d : always (keeps G I) (create_group (PG := PG) env ranks t b o d).
Proof. unfold create_group. frame. Qed.
Hint Resolve frame_create_group : frame.

Lemma frame_create_gloo G I c ranks t o d : always (keeps G I) (create_group_gloo (PG := PG) env c ranks t o d).
Proof. unfold create_group_gloo. frame. Qed.
Hint Resolve frame_create_gloo : frame.

Lemma frame_hierarchical_level G I ranks sizes c o t d acc level :
  always (keeps G I) (hierarchical_level (PG := PG) env ranks sizes c o t d acc level).
Proof.
  unfold hierarchical_level. frame. clear a. revert acc. induction a0 as [|row rows IH]; intros acc; frame.
Qed.
Hint Resolve frame_hierarchical_level : frame.

Lemma frame_hierarchical G I ranks sizes c o t d :
  always (keeps G I) (create_hierarchical_groups (PG := PG) env ranks sizes c o t d).
Proof.
  unfold create_hierarchical_groups. frame.
  generalize (@nil PG, @nil (option PG)). generalize (zrange 0 (Z.of_nat (length sizes))).
  intros levels. induction levels as [|l levels IH]; intros acc; cbn [hierarchical_levels]; frame.
Qed.
Hint Resolve frame_hierarchical : frame.

Lemma frame_build_groups G I rg token t cfgs pg d on_member :
  (forall ranks g, always (keeps G I) (on_member ranks g)) ->
  always (keeps G I) (build_groups (PG := PG) env rg token t cfgs pg d on_member).
Proof. intros Hm. unfold build_groups. frame. Qed.
Hint Resolve frame_build_groups : frame.

(** The group globals each section writes. *)
Definition dp_cp_globals : list string :=
  ["_DATA_PARALLEL_GROUP_WITH_CP"; "_DATA_PARALLEL_GROUP_WITH_CP_GLOO";
   "_INTRA_PARTIAL_DATA_PARALLEL_GROUP_WITH_CP"; "_INTRA_PARTIAL_DATA_PARALLEL_GROUP_WITH_CP_GLOO"].
Definition pp_globals : list string :=
  ["_PIPELINE_MODEL_PARALLEL_GROUP"; "_EMBEDDING_GROUP"; "_POSITION_EMBEDDING_GROUP"].
Definition joint_globals : list string :=
  ["_TENSOR_AND_DATA_PARALLEL_GROUP_WITH_CP"; "_TENSOR_AND_DATA_PARALLEL_GROUP";
   "_TENSOR_AND_CONTEXT_PARALLEL_GROUP"].
Definition expert_globals : list string :=
  ["_EXPERT_MODEL_PARALLEL_GROUP"; "_EXPERT_TENSOR_PARALLEL_GROUP"; "_EXPERT_TENSOR_AND_MODEL_PARALLEL_GROUP";
   "_EXPERT_TENSOR_MODEL_PIPELINE_PARALLEL_GROUP"].
Definition expert_dp_globals : list string :=
  ["_EXPERT_DATA_PARALLEL_GROUP"; "_EXPERT_DATA_PARALLEL_GROUP_GLOO"; "_INTRA_PARTIAL_EXPERT_DATA_PARALLEL_GROUP";
   "_INTRA_PARTIAL_EXPERT_DATA_PARALLEL_GROUP_GLOO"; "_INTER_PARTIAL_EXPERT_DATA_PARALLEL_GROUP"].
Definition virtual_ints : list string :=
  ["_VIRTUAL_PIPELINE_MODEL_PARALLEL_RANK"; "_VIRTUAL_PIPELINE_MODEL_PARALLEL_WORLD_SIZE"].

Lemma frame_check_sharp a : always (keeps [] []) (check_sharp (PG := PG) a).
Proof. unfold check_sharp. frame. Qed.
Lemma frame_check_sizes a : always (keeps [] virtual_ints) (check_sizes (PG := PG) env a).
Proof. unfold check_sizes. frame. Qed.
Lemma frame_dp_cp_round a t cfgs n ranks : always (keeps dp_cp_globals []) (dp_cp_round (PG := PG) env a t cfgs n ranks).
Proof. unfold dp_cp_round. frame. Qed.
Hint Resolve frame_dp_cp_round : frame.
Lemma frame_build_dp_cp a t cfgs rg n sharp :
  always (keeps dp_cp_globals []) (build_dp_cp (PG := PG) env a t cfgs rg n sharp).
Proof. unfold build_dp_cp. frame. Qed.
Lemma frame_apply_sharp_dp sharp : always (keeps [] []) (apply_sharp_dp (PG := PG) sharp).
Proof. unfold apply_sharp_dp. frame. Qed.
Lemma frame_build_dp a t cfgs rg :
  always (keeps ["_DATA_PARALLEL_GROUP"; "_DATA_PARALLEL_GROUP_GLOO"] []) (build_dp (PG := PG) env a t cfgs rg).
Proof. unfold build_dp. frame. Qed.
Lemma frame_build_cp a t cfgs rg :
  always (keeps ["_CONTEXT_PARALLEL_GROUP"; "_HIERARCHICAL_CONTEXT_PARALLEL_GROUPS"] [])
    (build_cp (PG := PG) env a t cfgs rg).
Proof. unfold build_cp. frame. Qed.
Lemma frame_build_mp t cfgs rg : always (keeps ["_MODEL_PARALLEL_GROUP"] []) (build_mp (PG := PG) env t cfgs rg).
Proof. unfold build_mp. frame. apply frame_build_groups. intros. frame. Qed.
Lemma frame_build_tp t cfgs rg : always (keeps ["_TENSOR_MODEL_PARALLEL_GROUP"] []) (build_tp (PG := PG) env t cfgs rg).
Proof. unfold build_tp. frame. apply frame_build_groups. intros. frame. Qed.
Lemma frame_join_pipeline ranks g : always (keeps pp_globals []) (join_pipeline (PG := PG) ranks g).
Proof. unfold join_pipeline. frame. Qed.
Hint Resolve frame_join_pipeline : frame.
Lemma frame_setup_ucc : always (keeps [] []) (setup_ucc (PG := PG)).
Proof. unfold setup_ucc. frame. Qed.
Lemma frame_pp_round a t cfgs ranks : always (keeps pp_globals []) (pp_round (PG := PG) env a t cfgs ranks).
Proof. unfold pp_round. frame. Qed.
Hint Resolve frame_pp_round : frame.
Lemma frame_build_pp a t cfgs rg : always (keeps pp_globals []) (build_pp (PG := PG) env a t cfgs rg).
Proof. unfold build_pp, setup_ucc. frame. Qed.
Lemma frame_build_joint t cfgs rg : always (keeps joint_globals []) (build_joint (PG := PG) env t cfgs rg).
Proof. unfold build_joint. frame; apply frame_build_groups; intros; frame. Qed.
Lemma frame_build_expert t cfgs rg : always (keeps expert_globals []) (build_expert (PG := PG) env t cfgs rg).
Proof. unfold build_expert. frame; apply frame_build_groups; intros; frame. Qed.
Lemma frame_expert_dp_round a t cfgs sharp n ranks :
  always (keeps expert_dp_globals []) (expert_dp_round (PG := PG) env a t cfgs sharp n ranks).
Proof. unfold expert_dp_round. frame. Qed.
Hint Resolve frame_expert_dp_round : frame.
Lemma frame_build_expert_dp a t cfgs sharp rg n :
  always (keeps expert_dp_globals []) (build_expert_dp (PG := PG) env a t cfgs sharp rg n).
Proof. unfold build_expert_dp. frame. Qed.
Lemma frame_build_intra t cfgs rg n :
  always (keeps ["_INTRA_DISTRIBUTED_OPTIMIZER_INSTANCE_GROUP"] []) (build_intra_dist_opt (PG := PG) env t cfgs rg n).
Proof.
  unfold build_intra_dist_opt. frame. generalize (@nil Z) 0. induction a0 as [|g gs IH]; intros acc id; cbn; frame.
Qed.
Lemma frame_memory_buffer : always (keeps [] []) (set_global_memory_buffer (PG := PG)).
Proof. unfold set_global_memory_buffer. frame. Qed.
End Sections.

(* ================================================================== *)
(** ** What each section establishes                                   *)
(* ================================================================== *)

Section Establish.
Context {PG : Type} `{PGI : !ProcessGroup PG} `{EIN : !Einops} (env : dist_env).
Let rank := de_rank env.
Implicit Type s : pstate PG.

(** The global holds a group that was created for the ranks [g]. *)
Definition has_group (v : string) (g : list Z) s : Prop :=
  exists n kw, ps_groups s !! v = Some (GOne (new_group n kw)) /\ kw_ranks kw = g.

(** [g] is the one member of [gs] that has the rank. *)
Definition around (gs : list (list Z)) (g : list Z) : Prop :=
  exists l1 l2, gs = l1 ++ g :: l2 /\ rank ∈ g /\ Forall (fun h => ~ rank ∈ h) l1 /\ Forall (fun h => ~ rank ∈ h) l2.

Lemma has_group_keeps v g G I s s' : keeps G I s s' -> v ∉ G -> has_group v g s -> has_group v g s'.
Proof. intros [Hk _] Hv (n & kw & Hs & Hr). exists n, kw. by rewrite Hk. Qed.

Lemma create_group_inv ranks t b o d s pg s' : create_group env ranks t b o d s = (Ok pg, s') ->
  (exists n kw, pg = new_group n kw /\ kw_ranks kw = ranks) /\ keeps [] [] s s'.
Proof.
  intros H. split; [|by eapply frame_create_group].
  unfold create_group in H. repeat step_ok H. injection H as <- <-.
  eexists _, _. split; [reflexivity|]. unfold group_kwargs. by destruct (de_torch_min_2_4 env).
Qed.

(** The body of a loop whose member branch sets [v]. *)
Definition sets_member (v : string) (f : list Z -> M (pstate PG) unit) : Prop :=
  forall ranks s s', f ranks s = (Ok tt, s') ->
    (rank ∈ ranks -> has_group v ranks s') /\
    (rank ∉ ranks -> ps_groups s' !! v = ps_groups s !! v).

Lemma sets_member_loop v f gs g s s' : sets_member v f -> around gs g ->
  iterM f gs s = (Ok tt, s') -> has_group v g s'.
Proof.
  intros Hf (l1 & l2 & -> & Hg & H1 & H2). eapply (iterM_establish f (fun h => rank ∈ h) (fun _ => True)); try done.
  - intros s1 s2 _ E. by apply (Hf _ _ _ E).
  - intros h s1 s2 Hh (n & kw & Hs & Hr) E. exists n, kw. by rewrite (proj2 (Hf _ _ _ E)).
Qed.

Lemma build_groups_has v rg token t cfgs pg_name d on_member gs g s s' :
  get_ranks rg token = Ok gs -> around gs g ->
  (forall ranks pg s s', on_member ranks pg s = (Ok tt, s') -> ps_groups s' !! v = Some (GOne pg)) ->
  build_groups env rg token t cfgs pg_name d on_member s = (Ok tt, s') -> has_group v g s'.
Proof.
  intros Hr Ha Hm H. unfold build_groups in H. step_ok H. step_ok E. rewrite Hr in E0. injection E0 as <-.
  eapply sets_member_loop; [|exact Ha|exact H]. clear -Hm. intros ranks s s' H.
  step_ok H. step_ok E. step_ok H. apply create_group_inv in E as [(n & kw & -> & Hkw) [Hk _]].
  unfold whenM in H. case_bool_decide as Hin.
  - split; [|done]. intros _. exists n, kw. split; [by eapply Hm|done].
  - injection H as <-. split; [done|]. intros _. by rewrite Hk by set_solver.
Qed.

Lemma set_group_inv v g s a s' : set_group v g s = (Ok a, s') -> ps_groups s' = assign v g (ps_groups s).
Proof. by intros [= _ <-]. Qed.
Lemma set_ranks_inv v g s a s' : set_ranks v g s = (Ok a, s') -> ps_groups s' = ps_groups s.
Proof. by intros [= _ <-]. Qed.

Lemma build_tp_has t cfgs rg gs g s s' : get_ranks rg "tp" = Ok gs -> around gs g ->
  build_tp env t cfgs rg s = (Ok tt, s') -> has_group "_TENSOR_MODEL_PARALLEL_GROUP" g s'.
Proof.
  intros Hr Ha H. unfold build_tp in H. step_ok H. eapply build_groups_has; [done|done| |exact H].
  clear. intros ranks pg s s' H. step_ok H. apply set_ranks_inv in H as ->. apply set_group_inv in E as ->.
  apply assign_eq.
Qed.

Lemma build_dp_has a t cfgs rg gs g s s' : get_ranks rg "dp" = Ok gs -> around gs g ->
  build_dp env a t cfgs rg s = (Ok tt, s') -> has_group "_DATA_PARALLEL_GROUP" g s'.
Proof.
  intros Hr Ha H. unfold build_dp in H. step_ok H. step_ok E. rewrite Hr in E0. injection E0 as <-.
  eapply sets_member_loop; [|exact Ha|exact H]. clear. intros ranks s s' H.
  step_ok H. step_ok E. step_ok H. apply create_group_inv in E as [(n & kw & -> & Hkw) [Hk _]].
  step_ok H. apply frame_create_gloo with (G := []) (I := []) in E as [Hk2 _].
  unfold whenM in H. case_bool_decide as Hin.
  - split; [|done]. intros _. exists n, kw. split; [|done]. repeat step_ok H.
    apply set_ranks_inv in H as ->. apply set_group_inv in E1 as ->. apply set_group_inv in E as ->.
    by rewrite assign_ne, assign_eq.
  - injection H as <-. split; [done|]. intros _. by rewrite Hk2, Hk by set_solver.
Qed.

Lemma build_cp_has a t cfgs rg gs g s s' : get_ranks rg "cp" = Ok gs -> around gs g ->
  build_cp env a t cfgs rg s = (Ok tt, s') -> has_group "_CONTEXT_PARALLEL_GROUP" g s'.
Proof.
  intros Hr Ha H. unfold build_cp in H. step_ok H. clear E. step_ok H. step_ok E. rewrite Hr in E0. injection E0 as <-.
  eapply sets_member_loop; [|exact Ha|exact H]. clear. intros ranks s s' H.
  step_ok H. step_ok E. step_ok H. apply create_group_inv in E as [(n & kw & -> & Hkw) [Hk _]].
  step_ok H.
  match type of H with ?m ?t = _ =>
    assert (Hf : ps_groups s' !! "_CONTEXT_PARALLEL_GROUP" = ps_groups t !! "_CONTEXT_PARALLEL_GROUP");
    [enough (Hm : always (keeps ["_HIERARCHICAL_CONTEXT_PARALLEL_GROUPS"] []) m)
       by (apply (Hm _ _ _ H); not_in); clear; frame; apply frame_hierarchical|] end.
  unfold whenM in E. case_bool_decide as Hin.
  - split; [|done]. intros _. exists n, kw. split; [|done]. rewrite Hf.
    step_ok E. apply set_ranks_inv in E as ->. apply set_group_inv in E1 as ->. by rewrite assign_eq.
  - injection E as _ <-. split; [done|]. intros _. by rewrite Hf, Hk by set_solver.
Qed.

(** In the pipeline loop the member branch expects the global to be unset, and
    only one group has the rank. *)
Lemma pp_round_inv a t cfgs ranks s s' : pp_round env a t cfgs ranks s = (Ok tt, s') ->
  (rank ∈ ranks -> ps_groups s !! "_PIPELINE_MODEL_PARALLEL_GROUP" = None ->
    has_group "_PIPELINE_MODEL_PARALLEL_GROUP" ranks s') /\
  (rank ∉ ranks -> ps_groups s' !! "_PIPELINE_MODEL_PARALLEL_GROUP" = ps_groups s !! "_PIPELINE_MODEL_PARALLEL_GROUP").
Proof.
  intros H. unfold pp_round in H. step_ok H. step_ok E. step_ok H.
  apply create_group_inv in E as [(n & kw & -> & Hkw) [Hk _]]. step_ok H. step_ok E. step_ok H.
  match type of H with ?m ?t = _ =>
    assert (Hf : ps_groups s' !! "_PIPELINE_MODEL_PARALLEL_GROUP" = ps_groups t !! "_PIPELINE_MODEL_PARALLEL_GROUP");
    [enough (Hm : always (keeps ["_EMBEDDING_GROUP"; "_POSITION_EMBEDDING_GROUP"] []) m)
       by (apply (Hm _ _ _ H); not_in); clear; frame; apply frame_create_group|] end.
  unfold whenM in E. case_bool_decide as Hin.
  - split; [|done]. intros _ Hnone. exists n, kw. split; [|done]. rewrite Hf.
    unfold join_pipeline in E. step_ok E. injection E2 as <- <-.
    rewrite (Hk "_PIPELINE_MODEL_PARALLEL_GROUP") in E by not_in. rewrite Hnone in E.
    step_ok E. apply set_ranks_inv in E as ->. apply set_group_inv in E2 as ->. apply assign_eq.
  - injection E as _ <-. split; [done|]. intros _. by rewrite Hf, Hk by not_in.
Qed.

Lemma assert_unset_inv v msg s a s' : assert_unset (PG := PG) v msg s = (Ok a, s') -> s' = s /\ ps_groups s !! v = None.
Proof.
  intros H. unfold assert_unset in H. step_ok H. injection E as <- <-. step_ok H.
  split; [done|]. by destruct (ps_groups s !! v).
Qed.

Lemma build_pp_has a t cfgs rg gs g s s' : get_ranks rg "pp" = Ok gs -> around gs g ->
  build_pp env a t cfgs rg s = (Ok tt, s') -> has_group "_PIPELINE_MODEL_PARALLEL_GROUP" g s'.
Proof.
  intros Hr (l1 & l2 & -> & Hg & H1 & H2) H. unfold build_pp in H. do 3 (step_ok H).
  apply assert_unset_inv in E as [-> Hn], E0 as [-> _], E1 as [-> _]. step_ok H.
  assert (ps_groups s0 !! "_PIPELINE_MODEL_PARALLEL_GROUP" = None) as Hn'.
  { enough (Hm : always (keeps [] []) (whenM (bool_decide (pipeline_model_parallel_comm_backend a = Some "ucc"))
      (setup_ucc (PG := PG)))) by (rewrite (proj1 (Hm _ _ _ E)); [done|not_in]). clear. frame. apply frame_setup_ucc. }
  step_ok H. step_ok E0. rewrite Hr in E1. injection E1 as <-. revert Hn' H. clear -Hg H1 H2. intros Hn H.
  refine (iterM_establish _ (fun h => rank ∈ h) (fun s => ps_groups s !! "_PIPELINE_MODEL_PARALLEL_GROUP" = None)
    _ l1 g l2 _ _ _ _ _ H1 H2 Hn H).
  - intros h s1 s2 Hh Hs E. by rewrite (proj2 (pp_round_inv _ _ _ _ _ _ E)).
  - intros s1 s2 Hs E. by apply (pp_round_inv _ _ _ _ _ _ E).
  - intros h s1 s2 Hh (n & kw & Hs & Hkw) E. exists n, kw. by rewrite (proj2 (pp_round_inv _ _ _ _ _ _ E)).
Qed.

Lemma build_dp_cp_has a t cfgs rg n sharp gs g s s' : get_ranks rg "dp-cp" = Ok gs -> around gs g ->
  build_dp_cp env a t cfgs rg n sharp s = (Ok tt, s') ->
  has_group "_DATA_PARALLEL_GROUP_WITH_CP" g s' /\
  (num_distributed_optimizer_instances a <= 1 ->
    has_group "_INTRA_PARTIAL_DATA_PARALLEL_GROUP_WITH_CP" g s').
Proof.
  intros Hr Ha H. unfold build_dp_cp in H. do 4 (step_ok H). clear E0 E1 E2. step_ok H. clear E0. step_ok H.
  step_ok E0. rewrite Hr in E1. injection E1 as <-.
  assert (Hround : forall k ranks s s', dp_cp_round env a t cfgs k ranks s = (Ok tt, s') ->
    (rank ∈ ranks -> has_group "_DATA_PARALLEL_GROUP_WITH_CP" ranks s') /\
    (rank ∉ ranks -> ps_groups s' !! "_DATA_PARALLEL_GROUP_WITH_CP" = ps_groups s !! "_DATA_PARALLEL_GROUP_WITH_CP") /\
    (num_distributed_optimizer_instances a <= 1 ->
      ps_groups s' !! "_INTRA_PARTIAL_DATA_PARALLEL_GROUP_WITH_CP"
      = ps_groups s' !! "_DATA_PARALLEL_GROUP_WITH_CP")).
  { clear. intros k ranks s s' H. unfold dp_cp_round in H. step_ok H. step_ok E. step_ok H.
    apply create_group_inv in E as [(n & kw & -> & Hkw) [Hk _]].
    step_ok H. apply frame_create_gloo with (G := []) (I := []) in E as [Hk2 _]. step_ok H.
    match type of H with ?m ?t = _ =>
      assert (Hf : ps_groups s' !! "_DATA_PARALLEL_GROUP_WITH_CP" = ps_groups t !! "_DATA_PARALLEL_GROUP_WITH_CP");
      [enough (Hm : always (keeps ["_INTRA_PARTIAL_DATA_PARALLEL_GROUP_WITH_CP";
                                   "_INTRA_PARTIAL_DATA_PARALLEL_GROUP_WITH_CP_GLOO"] []) m)
         by (apply (Hm _ _ _ H); not_in); clear; frame; (apply frame_create_group || apply frame_create_gloo)|] end.
    split_and!.
    - intros Hin. exists n, kw. split; [|done]. rewrite Hf. unfold whenM in E.
      rewrite bool_decide_eq_true_2 in E by done. do 2 (step_ok E). apply set_ranks_inv in E as ->.
      apply set_group_inv in E2 as ->. apply set_group_inv in E1 as ->. by rewrite assign_ne, assign_eq.
    - intros Hin. rewrite Hf. unfold whenM in E. rewrite bool_decide_eq_false_2 in E by done.
      injection E as _ <-. by rewrite Hk2, Hk by not_in.
    - intros Hle. rewrite Hf. destruct (Z.ltb_spec 1 (num_distributed_optimizer_instances a)); [lia|].
      do 2 (step_ok H). injection E1 as <- <-. apply set_group_inv in H as ->. apply set_group_inv in E2 as ->.
      by rewrite assign_ne, assign_eq. }
  destruct Ha as (l1 & l2 & -> & Hg & H1 & H2).
  refine (iterM_establish _ (fun h => rank ∈ h) (fun _ => True)
    (fun s => has_group "_DATA_PARALLEL_GROUP_WITH_CP" g s /\
      (num_distributed_optimizer_instances a <= 1 -> has_group "_INTRA_PARTIAL_DATA_PARALLEL_GROUP_WITH_CP" g s))
    l1 g l2 _ _ _ _ _ H1 H2 I H); [done| |].
  - intros t1 t2 _ E0. destruct (Hround _ _ _ _ E0) as (Hm & _ & He). split; [auto|]. intros Hle.
    destruct (Hm Hg) as (n' & kw & Hs & Hkw). exists n', kw. by rewrite He.
  - intros h t1 t2 Hh [(n' & kw & Hs & Hkw) _] E0. destruct (Hround _ _ _ _ E0) as (_ & Hn & He).
    split; [exists n', kw; by rewrite Hn|]. intros Hle. exists n', kw. by rewrite He, Hn.
Qed.

Lemma build_expert_has t cfgs rg gs g s s' : get_ranks rg "ep" = Ok gs -> around gs g ->
  build_expert env t cfgs rg s = (Ok tt, s') -> has_group "_EXPERT_MODEL_PARALLEL_GROUP" g s'.
Proof.
  intros Hr Ha H. unfold build_expert in H. step_ok H. step_ok H. destruct a0.
  eapply build_groups_has in E0; [|done|done|]; cycle 1.
  { intros ranks pg t1 t2 Ht. apply set_group_inv in Ht as ->. apply assign_eq. }
  match type of H with ?m ?t = _ =>
    assert (Hf : keeps ["_EXPERT_TENSOR_PARALLEL_GROUP"; "_EXPERT_TENSOR_AND_MODEL_PARALLEL_GROUP";
                        "_EXPERT_TENSOR_MODEL_PIPELINE_PARALLEL_GROUP"] [] t s') end.
  { match type of H with ?m ?t = _ => enough (Hm : always (keeps _ []) m) by exact (Hm _ _ _ H) end.
    clear. frame; apply frame_build_groups; intros; frame. }
  eapply has_group_keeps; [exact Hf|not_in|done].
Qed.

Lemma build_expert_dp_has a t cfgs sharp rg n gs g s s' x : get_ranks rg "dp" = Ok gs -> around gs g ->
  build_expert_dp env a t cfgs sharp rg n s = (Ok x, s') -> has_group "_EXPERT_DATA_PARALLEL_GROUP" g s'.
Proof.
  intros Hr Ha H. unfold build_expert_dp in H. do 8 (step_ok H). clear E E0 E1 E2 E3 E4 E5 E6. step_ok H.
  step_ok E. rewrite Hr in E0. injection E0 as <-. step_ok H. injection H as _ <-. destruct a8.
  eapply sets_member_loop; [|exact Ha|exact E]. clear. intros ranks s s' H. unfold expert_dp_round in H.
  step_ok H. step_ok E. step_ok H. apply create_group_inv in E as [(k & kw & -> & Hkw) [Hk _]].
  step_ok H. apply frame_create_gloo with (G := []) (I := []) in E as [Hk2 _]. step_ok H.
  match type of H with ?m ?t = _ =>
    assert (Hf : keeps ["_INTRA_PARTIAL_EXPERT_DATA_PARALLEL_GROUP"; "_INTRA_PARTIAL_EXPERT_DATA_PARALLEL_GROUP_GLOO";
                        "_INTER_PARTIAL_EXPERT_DATA_PARALLEL_GROUP"] [] t s') end.
  { match type of H with ?m ?t = _ => enough (Hm : always (keeps _ []) m) by exact (Hm _ _ _ H) end.
    clear. frame. apply frame_hierarchical. }
  clear H. unfold whenM in E. case_bool_decide as Hin.
  - split; [|done]. intros _. eapply has_group_keeps; [exact Hf|not_in|]. exists k, kw. split; [|done].
    step_ok E. apply set_group_inv in E as ->. apply set_group_inv in E1 as ->. by rewrite assign_ne, assign_eq.
  - injection E as _ <-. split; [done|]. intros _. by rewrite (proj1 Hf), Hk2, Hk by not_in.
Qed.
End Establish.

(* ================================================================== *)
(** ** The whole initialization                                        *)
(* ================================================================== *)

(** The configurations the theorems are about: positive sizes, a rank of the
    world, no dimension named twice in the order. *)
Record valid_args (env : dist_env) (a : mp_args) : Prop := {
  va_tp : 0 < tensor_model_parallel_size a;
  va_pp : 0 < pipeline_model_parallel_size a;
  va_cp : 0 < context_parallel_size a;
  va_ep : 0 < expert_model_parallel_size a;
  va_etp : 0 < default (tensor_model_parallel_size a) (expert_tensor_parallel_size a);
  va_rank : 0 <= de_rank env < de_world_size env;
  va_available : de_available env = true;
  va_order : NoDup (py_split "-" (py_lower (order a)))
}.

Definition model_size (a : mp_args) : Z :=
  tensor_model_parallel_size a * pipeline_model_parallel_size a * context_parallel_size a.

(** The decoder's generator and the expert's, as [initialize_model_parallel] makes them. *)
Definition decoder_generator (env : dist_env) (a : mp_args) : res RankGenerator :=
  RankGenerator_init (tensor_model_parallel_size a) 1 (de_world_size env / model_size a)
    (pipeline_model_parallel_size a) (context_parallel_size a) (order a) 0.
Definition expert_model_size (a : mp_args) : Z :=
  default (tensor_model_parallel_size a) (expert_tensor_parallel_size a) * expert_model_parallel_size a
  * pipeline_model_parallel_size a.
Definition expert_generator (env : dist_env) (a : mp_args) : res RankGenerator :=
  RankGenerator_init (default (tensor_model_parallel_size a) (expert_tensor_parallel_size a))
    (expert_model_parallel_size a) (de_world_size env / expert_model_size a)
    (pipeline_model_parallel_size a) 1 (order a) 0.

(** Carry a [has_group] fact back over the sections that keep the global. *)
Ltac carry tac := first [ tac | eapply has_group_keeps; [eassumption|not_in|]; carry tac ].

Ltac destruct_all_units := repeat match goal with x : unit |- _ => destruct x end.

Section Whole.
Context {PG : Type} `{PGI : !ProcessGroup PG} `{EIN : !Einops} (env : dist_env) (a : mp_args).
Context (Hva : valid_args env a).
Let rank := de_rank env.
Let tp := tensor_model_parallel_size a.
Let pp := pipeline_model_parallel_size a.
Let cp := context_parallel_size a.
Let dp := de_world_size env / model_size a.

Lemma check_sizes_inv (s : pstate PG) n s' : check_sizes env a s = (Ok n, s') ->
  de_initialized env = true /\ n = dp /\ de_world_size env = tp * dp * pp * cp * 1 /\ 0 < dp.
Proof.
  destruct Hva. intros H. unfold check_sizes in H. step_ok H. apply assert_ok_inv in E as [Hi ->].
  step_ok H. step_ok E. step_ok H. step_ok H. step_ok E1. step_ok H. injection H as <- <-.
  fold (model_size a) in *. assert (0 < model_size a) as Hm by (unfold model_size; nia).
  rewrite pymod_ok in E0 by lia. injection E0 as <-. rewrite floordiv_ok in E2 by lia. injection E2 as <-.
  destruct (Z.eqb_spec (de_world_size env mod model_size a) 0) as [Hz|]; [|discriminate E].
  apply Z.div_exact in Hz; [|lia]. fold dp in Hz. split_and!; [done|done| |].
  - rewrite Hz. unfold model_size, tp, pp, cp. lia.
  - apply Z.div_str_pos. split; [done|]. destruct (Z.le_gt_cases (model_size a) (de_world_size env)); [done|].
    exfalso. assert (dp = 0) by (apply Z.div_small; lia). lia.
Qed.

Lemma make_generators_inv d gd ge n : make_generators env a d = Ok (gd, ge, n) -> d = dp ->
  decoder_generator env a = Ok gd /\ expert_generator env a = Ok ge /\
  n = de_world_size env / expert_model_size a /\
  de_world_size env = expert_model_size a * n /\ 0 < n.
Proof.
  destruct Hva. intros H ->. unfold make_generators in H. fold (expert_model_size a) in H.
  inv_ok. assert (0 < expert_model_size a) as Hm by (unfold expert_model_size; nia).
  injection H as -> -> ->. rewrite floordiv_ok in E0 by lia. injection E0 as <-.
  rewrite pymod_ok in E1 by lia. injection E1 as <-.
  destruct (Z.eqb_spec (de_world_size env mod expert_model_size a) 0) as [Hz|]; [|discriminate E2].
  apply Z.div_exact in Hz; [|lia]. split_and!; [done|done|done|done|].
  apply Z.div_str_pos. split; [done|]. destruct (Z.le_gt_cases (expert_model_size a) (de_world_size env)); [done|].
  exfalso. rewrite (Z.div_small (de_world_size env)) in Hz by lia. lia.
Qed.

(** After a successful initialization: which groups the globals hold. *)
Lemma initialize_groups s0 s' : initialize_model_parallel env a s0 = (Ok tt, s') ->
  de_initialized env = true /\
  (forall v, v ∉ virtual_ints -> ps_ints s' !! v = ps_ints s0 !! v) /\
  exists gd ge, decoder_generator env a = Ok gd /\ expert_generator env a = Ok ge /\
    0 < dp /\ de_world_size env = tp * dp * pp * cp * 1 /\
    0 < de_world_size env / expert_model_size a /\
    de_world_size env = expert_model_size a * (de_world_size env / expert_model_size a) /\
    (forall gs g, get_ranks gd "tp" = Ok gs -> around env gs g -> has_group "_TENSOR_MODEL_PARALLEL_GROUP" g s') /\
    (forall gs g, get_ranks gd "dp" = Ok gs -> around env gs g -> has_group "_DATA_PARALLEL_GROUP" g s') /\
    (forall gs g, get_ranks gd "cp" = Ok gs -> around env gs g -> has_group "_CONTEXT_PARALLEL_GROUP" g s') /\
    (forall gs g, get_ranks gd "pp" = Ok gs -> around env gs g -> has_group "_PIPELINE_MODEL_PARALLEL_GROUP" g s') /\
    (forall gs g, get_ranks gd "dp-cp" = Ok gs -> around env gs g ->
      has_group "_DATA_PARALLEL_GROUP_WITH_CP" g s' /\
      (num_distributed_optimizer_instances a <= 1 -> has_group "_INTRA_PARTIAL_DATA_PARALLEL_GROUP_WITH_CP" g s')) /\
    (forall gs g, get_ranks ge "ep" = Ok gs -> around env gs g -> has_group "_EXPERT_MODEL_PARALLEL_GROUP" g s') /\
    (forall gs g, get_ranks ge "dp" = Ok gs -> around env gs g -> has_group "_EXPERT_DATA_PARALLEL_GROUP" g s').
Proof.
  intros H. unfold initialize_model_parallel in H.
  step_as H E. pose proof (frame_check_sharp _ _ _ _ E) as F1. clear E.
  step_as H E. pose proof (frame_check_sizes _ _ _ _ _ E) as F2. apply check_sizes_inv in E as (Hi & -> & Hw & Hdp).
  step_as H E. apply lift_ok_inv in E as [_ ->]. step_as H E. apply lift_ok_inv in E as [E ->].
  match type of E with _ = Ok ?x => destruct x as [[gd ge] edp] end. apply make_generators_inv in E as (Hgd & Hge & -> & Hwe & Hedp); [|done].
  step_as H E1. pose proof (frame_build_dp_cp _ _ _ _ _ _ _ _ _ _ E1) as K1.
  step_as H E2. pose proof (frame_apply_sharp_dp _ _ _ _ E2) as K2.
  step_as H E3. pose proof (frame_build_dp _ _ _ _ _ _ _ _ E3) as K3.
  step_as H E4. pose proof (frame_build_cp _ _ _ _ _ _ _ _ E4) as K4.
  step_as H E5. pose proof (frame_build_mp _ _ _ _ _ _ _ E5) as K5.
  step_as H E6. pose proof (frame_build_tp _ _ _ _ _ _ _ E6) as K6.
  step_as H E7. pose proof (frame_build_pp _ _ _ _ _ _ _ _ E7) as K7.
  step_as H E8. pose proof (frame_build_joint _ _ _ _ _ _ _ E8) as K8.
  step_as H E9. pose proof (frame_build_expert _ _ _ _ _ _ _ E9) as K9.
  step_as H E10. pose proof (frame_build_expert_dp _ _ _ _ _ _ _ _ _ _ E10) as K10.
  step_as H E11. pose proof (frame_build_intra _ _ _ _ _ _ _ _ E11) as K11.
  pose proof (frame_memory_buffer _ _ _ H) as K12.
  destruct_all_units.
  split; [done|]. split.
  { intros v Hv. rewrite (proj2 K12), (proj2 K11), (proj2 K10), (proj2 K9), (proj2 K8), (proj2 K7), (proj2 K6),
      (proj2 K5), (proj2 K4), (proj2 K3), (proj2 K2), (proj2 K1), (proj2 F2), (proj2 F1) by (done || not_in). done. }
  exists gd, ge. split_and!; try done.
  - intros gs g Hg Ha. carry ltac:(eapply build_tp_has; eassumption).
  - intros gs g Hg Ha. carry ltac:(eapply build_dp_has; eassumption).
  - intros gs g Hg Ha. carry ltac:(eapply build_cp_has; eassumption).
  - intros gs g Hg Ha. carry ltac:(eapply build_pp_has; eassumption).
  - intros gs g Hg Ha. eapply build_dp_cp_has in E1 as [H1 H2]; [|exact Hg|exact Ha].
    split; [|intros Hn; specialize (H2 Hn)]; carry eassumption.
  - intros gs g Hg Ha. carry ltac:(eapply build_expert_has; eassumption).
  - intros gs g Hg Ha. carry ltac:(eapply build_expert_dp_has; eassumption).
Qed.

(** The generators of a valid configuration meet the hypotheses of [RankGroups]. *)
Lemma decoder_sizes : 0 < dp -> 0 < tp /\ 0 < 1 /\ 0 < dp /\ 0 < pp /\ 0 < cp.
Proof. destruct Hva. intros. unfold tp, pp, cp. split_and!; (done || lia). Qed.

Lemma world_decoder gd : decoder_generator env a = Ok gd -> de_world_size env = tp * dp * pp * cp * 1 ->
  rg_world_size gd = de_world_size env.
Proof.
  intros Hg Hw. destruct (init_fields _ _ _ _ _ _ _ _ Hg (va_order _ _ Hva)) as (-> & _).
  fold tp pp cp dp in Hw |- *. lia.
Qed.
End Whole.

Section Coordinates.
Context {PG : Type} `{PGI : !ProcessGroup PG} (env : dist_env).
Context (tp ep dp pp cp : Z) (ord : string) (rg : RankGenerator).
Context (Hinit : RankGenerator_init tp ep dp pp cp ord 0 = Ok rg).
Context (Hnd : NoDup (py_split "-" (py_lower ord))).
Context (Hsz : 0 < tp /\ 0 < ep /\ 0 < dp /\ 0 < pp /\ 0 < cp).
Context (Hrank : 0 <= de_rank env < rg_world_size rg).
Implicit Type s : pstate PG.

Definition known (token : string) : Prop := forall t, t ∈ py_split "-" token -> t ∈ parallel_names.

Lemma around_exists token : known token ->
  exists g, get_ranks rg token = Ok (rank_groups 0 rg token) /\ around env (rank_groups 0 rg token) g.
Proof.
  intros Ht. destruct (rank_groups_around _ _ _ _ _ _ _ _ Hinit Hnd Hsz token (de_rank env)) as (l1 & g & l2 & E & H);
    [done|]. exists g. split; [by eapply get_ranks_groups|]. exists l1, l2. split; [done|]. naive_solver.
Qed.

(** Size and rank in a group that a global holds. *)
Lemma has_group_size v token g s : known token -> NoDup (py_split "-" token) ->
  around env (rank_groups 0 rg token) g -> has_group v g s ->
  call_size (ps_groups s !! v) = Ok (zprod (map (named_size tp ep dp pp cp) (py_split "-" token))).
Proof.
  intros Ht Hndt (l1 & l2 & E & Hg & _) (n & kw & -> & Hkw). cbn.
  assert (Hin : g ∈ rank_groups 0 rg token) by (rewrite E; set_solver).
  rewrite pg_size_new by (rewrite Hkw; by eapply rank_groups_sorted).
  rewrite Hkw. f_equal. by eapply rank_groups_size.
Qed.

Lemma has_group_rank v n g s : n ∈ parallel_names ->
  around env (rank_groups 0 rg n) g -> has_group v g s ->
  call_rank env (ps_groups s !! v) = Ok (coord rg n (de_rank env)).
Proof.
  intros Hn (l1 & l2 & E & Hg & _) (k & kw & -> & Hkw). cbn.
  assert (Hin : g ∈ rank_groups 0 rg n) by (rewrite E; set_solver).
  apply list_elem_of_lookup in Hg as [j Hj]. f_equal.
  rewrite (pg_rank_new _ _ j); [|rewrite Hkw; by eapply rank_groups_sorted|by rewrite Hkw].
  by eapply (rank_groups_place _ _ _ _ _ _ _ _ Hinit Hnd Hsz).
Qed.

(** The members of the group that has the rank. *)
Lemma group_members token g r : around env (rank_groups 0 rg token) g ->
  r ∈ g <-> 0 <= r < rg_world_size rg /\
    forall n, n ∈ parallel_names -> n ∉ py_split "-" token -> coord rg n r = coord rg n (de_rank env).
Proof.
  intros (l1 & l2 & E & Hg & _).
  assert (Hi : rank_groups 0 rg token !! length l1 = Some g) by (rewrite E; by apply list_lookup_middle).
  pose proof (rank_groups_elem _ _ _ _ _ _ _ _ Hinit Hnd Hsz token (length l1) g) as He.
  apply (He _ Hi) in Hg as [_ Hg]. rewrite (He r Hi), <- Hg.
  rewrite (same_group_coord _ _ _ _ _ _ _ _ Hinit Hnd Hsz token r (de_rank env)). done.
Qed.
End Coordinates.

Lemma read_has_group {PG} `{!ProcessGroup PG} v g msg (s : pstate PG) :
  has_group v g s -> read_group v true msg s = Ok (ps_groups s !! v).
Proof. intros (n & kw & H & _). unfold read_group. by rewrite H. Qed.

(** No value set by hand shadows the groups. *)
Definition no_overrides {PG} (s : pstate PG) : Prop :=
  Forall (fun v => ps_ints s !! v = None)
    ["_MPU_TENSOR_MODEL_PARALLEL_RANK"; "_MPU_TENSOR_MODEL_PARALLEL_WORLD_SIZE"; "_MPU_PIPELINE_MODEL_PARALLEL_RANK";
     "_MPU_PIPELINE_MODEL_PARALLEL_WORLD_SIZE"; "_MPU_DATA_PARALLEL_RANK"; "_MPU_DATA_PARALLEL_WORLD_SIZE"].

Lemma known_Forall token : Forall (fun t => t ∈ parallel_names) (py_split "-" token) -> known token.
Proof. intros H t Ht. rewrite Forall_forall in H. auto. Qed.
Ltac known_token := apply known_Forall; not_in.

Section CoordinatesTheorem.
Context {PG : Type} `{PGI : !ProcessGroup PG} `{EIN : !Einops} (env : dist_env) (a : mp_args).
Context (s0 s' : pstate PG) (Hva : valid_args env a) (Hno : no_overrides s0).
Context (Hrun : initialize_model_parallel env a s0 = (Ok tt, s')).
Let dp := de_world_size env / model_size a.

Lemma overrides_after v : v ∉ virtual_ints -> ps_ints s0 !! v = None -> ps_ints s' !! v = None.
Proof. intros Hv Hn. destruct (initialize_groups _ _ Hva _ _ Hrun) as (_ & Hk & _). by rewrite Hk. Qed.

Lemma initialized_env : de_initialized env = true.
Proof. by destruct (initialize_groups _ _ Hva _ _ Hrun) as (Hi & _). Qed.

(** What the getters return, and the groups behind them. *)
Lemma getters_after : exists gd gc gt, decoder_generator env a = Ok gd /\ rg_world_size gd = de_world_size env /\ 0 < dp /\
  get_tensor_model_parallel_rank env s' = Ok (coord gd "tp" (de_rank env)) /\
  get_data_parallel_rank env false false s' = Ok (coord gd "dp" (de_rank env)) /\
  get_context_parallel_rank env s' = Ok (coord gd "cp" (de_rank env)) /\
  get_pipeline_model_parallel_rank env s' = Ok (coord gd "pp" (de_rank env)) /\
  get_tensor_model_parallel_world_size s' = Ok (tensor_model_parallel_size a) /\
  get_data_parallel_world_size env false false s' = Ok dp /\
  get_context_parallel_world_size env s' = Ok (context_parallel_size a) /\
  get_pipeline_model_parallel_world_size s' = Ok (pipeline_model_parallel_size a) /\
  get_data_parallel_world_size env true false s' = Ok (dp * context_parallel_size a) /\
  has_group "_DATA_PARALLEL_GROUP_WITH_CP" gc s' /\
  (num_distributed_optimizer_instances a <= 1 -> has_group "_INTRA_PARTIAL_DATA_PARALLEL_GROUP_WITH_CP" gc s') /\
  around env (rank_groups 0 gd "dp-cp") gc /\
  has_group "_TENSOR_MODEL_PARALLEL_GROUP" gt s' /\ around env (rank_groups 0 gd "tp") gt.
Proof.
  destruct (initialize_groups _ _ Hva _ _ Hrun)
    as (Hi & Hk & gd & ge & Hgd & _ & Hdp & Hw & _ & _ & Htp & Hd & Hcp & Hpp & Hdc & _).
  pose proof (world_decoder _ _ Hva gd Hgd Hw) as Hwg. pose proof (decoder_sizes _ _ Hva Hdp) as Hsz.
  pose proof (va_order _ _ Hva) as Hnd. pose proof (va_rank _ _ Hva) as Hr. rewrite <- Hwg in Hr.
  pose proof (around_exists env _ _ _ _ _ _ _ Hgd Hnd Hsz Hr) as Hex.
  destruct (Hex "tp") as (g1 & R1 & A1); [known_token|]. specialize (Htp _ _ R1 A1).
  destruct (Hex "dp") as (g2 & R2 & A2); [known_token|]. specialize (Hd _ _ R2 A2).
  destruct (Hex "cp") as (g3 & R3 & A3); [known_token|]. specialize (Hcp _ _ R3 A3).
  destruct (Hex "pp") as (g4 & R4 & A4); [known_token|]. specialize (Hpp _ _ R4 A4).
  destruct (Hex "dp-cp") as (g5 & R5 & A5); [known_token|]. specialize (Hdc _ _ R5 A5) as [Hdc Hin].
  unfold no_overrides in Hno. rewrite !Forall_cons in Hno. destruct Hno as (N1 & N2 & N3 & N4 & N5 & N6 & _).
  assert (Hds : de_available env && de_initialized env = true) by (by rewrite (va_available _ _ Hva), Hi).
  pose proof (has_group_rank env _ _ _ _ _ _ _ Hgd Hnd Hsz Hr) as Rk.
  pose proof (has_group_size env _ _ _ _ _ _ _ Hgd Hnd Hsz Hr) as Sk.
  exists gd, g5, g1. split_and!; try done;
    unfold get_tensor_model_parallel_rank, get_tensor_model_parallel_world_size, get_pipeline_model_parallel_rank,
      get_pipeline_model_parallel_world_size, get_data_parallel_rank, get_data_parallel_world_size,
      get_context_parallel_rank, get_context_parallel_world_size, get_data_parallel_group, if_dist, override;
    rewrite ?Hk by not_in; rewrite ?N1, ?N2, ?N3, ?N4, ?N5, ?N6, ?Hds.
  all: unfold get_tensor_model_parallel_group, get_pipeline_model_parallel_group, get_context_parallel_group;
    erewrite read_has_group by eassumption; cbn [mbind res_bind mret res_ret assert_ negb].
  - eapply (Rk _ "tp"); [not_in|exact A1|done].
  - eapply (Rk _ "dp"); [not_in|exact A2|done].
  - eapply (Rk _ "cp"); [not_in|exact A3|done].
  - eapply (Rk _ "pp"); [not_in|exact A4|done].
  - rewrite (Sk _ "tp" g1) by (known_token || not_in || done). f_equal.
    transitivity (tensor_model_parallel_size a * 1); [reflexivity|lia].
  - rewrite (Sk _ "dp" g2) by (known_token || not_in || done). f_equal.
    transitivity (de_world_size env / model_size a * 1); [reflexivity|unfold dp; lia].
  - rewrite (Sk _ "cp" g3) by (known_token || not_in || done). f_equal.
    transitivity (context_parallel_size a * 1); [reflexivity|lia].
  - rewrite (Sk _ "pp" g4) by (known_token || not_in || done). f_equal.
    transitivity (pipeline_model_parallel_size a * 1); [reflexivity|lia].
  - rewrite (Sk _ "dp-cp" g5) by (known_token || not_in || done). f_equal.
    transitivity (de_world_size env / model_size a * (context_parallel_size a * 1)); [reflexivity|unfold dp; lia].
Qed.
End CoordinatesTheorem.

(* ================================================================== *)
(** ** Every rank makes the same new_group calls                       *)
(* ================================================================== *)

(** The same job seen from another rank. *)
Definition at_rank (env : dist_env) (r : Z) : dist_env :=
  mkDist (de_world_size env) r (de_available env) (de_initialized env) (de_torch_min_2_4 env)
    (de_have_einops env) (de_load_yaml env).

Section SameCalls.
Context {PG : Type} `{PGI : !ProcessGroup PG} `{EIN : !Einops} (env : dist_env) (r1 r2 : Z).
Let env1 := at_rank env r1.
Let env2 := at_rank env r2.

Definition quiet (s s' : pstate PG) : Prop := ps_calls s' = ps_calls s.
#[local] Instance quiet_preorder : PreOrder quiet.
Proof. split; unfold quiet; congruence. Qed.
Definition same_calls (s1 s2 : pstate PG) : Prop := ps_calls s1 = ps_calls s2.

Lemma quiet_mod f : (forall s, ps_calls (f s) = ps_calls s) -> always quiet (modM f).
Proof. intros Hf. apply always_mod. exact Hf. Qed.
Lemma quiet_set_group v g : always quiet (set_group v g).
Proof. by apply quiet_mod. Qed.
Lemma quiet_set_ranks v g : always quiet (set_ranks v g).
Proof. by apply quiet_mod. Qed.
Lemma quiet_set_int v g : always quiet (set_int v g).
Proof. by apply quiet_mod. Qed.
Lemma quiet_delenv v : always quiet (delenv v).
Proof. by apply quiet_mod. Qed.
Lemma quiet_setenv v w : always quiet (setenv v w).
Proof. by apply quiet_mod. Qed.
Lemma quiet_barriers f : always quiet (modM (on_barriers f)).
Proof. by apply quiet_mod. Qed.
Lemma quiet_buffer f : always quiet (modM (on_buffer f)).
Proof. by apply quiet_mod. Qed.
Lemma quiet_setenv_default v w : always quiet (setenv_default v w).
Proof. by apply quiet_mod. Qed.
Hint Resolve quiet_set_group quiet_set_ranks quiet_set_int quiet_delenv quiet_setenv quiet_barriers
  quiet_buffer quiet_setenv_default : frame.
Lemma quiet_assert_unset v msg : always quiet (assert_unset v msg).
Proof. unfold assert_unset. frame. Qed.
Hint Resolve quiet_assert_unset : frame.
Lemma quiet_join ranks g : always quiet (join_pipeline ranks g).
Proof. unfold join_pipeline. frame. Qed.
Lemma quiet_setup_ucc : always quiet setup_ucc.
Proof. unfold setup_ucc. frame. Qed.
Hint Resolve quiet_join quiet_setup_ucc : frame.

Lemma together_quiet {A1 A2} (m1 : M (pstate PG) A1) (m2 : M (pstate PG) A2) :
  always quiet m1 -> always quiet m2 -> together same_calls any2 m1 m2.
Proof.
  intros H1 H2. apply together_silent; intros s r s' E t.
  - apply H1 in E. unfold same_calls, quiet in *. congruence.
  - apply H2 in E. unfold same_calls, quiet in *. congruence.
Qed.

Lemma create_group_calls e ranks t b o d (s : pstate PG) : exists s',
  create_group e ranks t b o d s = (Ok (new_group (length (ps_calls s)) (group_kwargs e ranks t b o d)), s') /\
  ps_calls s' = ps_calls s ++ [group_kwargs e ranks t b o d].
Proof.
  unfold create_group. m_unfold. case_bool_decide; (eexists; split; [reflexivity|done]).
Qed.

Lemma together_create ranks t b o d :
  together same_calls eq (create_group env1 ranks t b o d) (create_group env2 ranks t b o d).
Proof.
  intros s1 s2 g1 g2 s1' s2' HR H1 H2. unfold same_calls in *.
  destruct (create_group_calls env1 ranks t b o d s1) as (t1 & E1 & C1).
  destruct (create_group_calls env2 ranks t b o d s2) as (t2 & E2 & C2).
  rewrite E1 in H1. rewrite E2 in H2. injection H1 as <- <-. injection H2 as <- <-.
  rewrite C1, C2, HR. done.
Qed.

(** One rule per shape of a computation; what depends on the rank is quiet. *)
Ltac tog_step :=
  match goal with
  | E : ?x = ?y |- together _ _ _ _ => is_var x; is_var y; subst x
  | |- together _ _ (create_group _ _ _ _ _ _) (create_group _ _ _ _ _ _) => apply together_create
  | |- together _ _ (liftM ?r) (liftM ?r) => apply together_lift
  | |- together _ _ (mret _) (mret _) => apply together_ret; (reflexivity || exact I)
  | |- together _ _ (assertM _ _) (assertM _ _) => apply together_assert
  | |- together _ _ (iterM _ _) (iterM _ _) => apply together_iter; intros ? _
  | |- together _ _ (mbind _ _) (mbind _ _) => eapply together_bind; [|intros ? ? ?]
  | |- together _ _ _ _ => apply together_quiet; solve [frame]
  | |- together _ _ (match ?x with _ => _ end) (match ?x with _ => _ end) => destruct x
  | |- together _ _ (whenM ?b _) (whenM ?b _) => unfold whenM
  end.
Ltac tog := repeat tog_step.

Lemma together_gloo c ranks t o d :
  together same_calls eq (create_group_gloo env1 c ranks t o d) (create_group_gloo env2 c ranks t o d).
Proof. unfold create_group_gloo. destruct c; tog. Qed.

Lemma together_build_groups rg token t cfgs pg d f1 f2 :
  (forall ranks g, always quiet (f1 ranks g)) -> (forall ranks g, always quiet (f2 ranks g)) ->
  together same_calls any2 (build_groups env1 rg token t cfgs pg d f1) (build_groups env2 rg token t cfgs pg d f2).
Proof. intros Q1 Q2. unfold build_groups. tog. Qed.

Lemma together_level ranks sizes c o t d acc1 acc2 level :
  together same_calls any2 (hierarchical_level env1 ranks sizes c o t d acc1 level)
    (hierarchical_level env2 ranks sizes c o t d acc2 level).
Proof.
  unfold hierarchical_level. tog. clear. revert acc1 acc2.
  match goal with rows : list (list Z) |- _ => induction rows as [|row rows IH] end; intros acc1 acc2; tog.
  - apply together_gloo.
  - apply IH.
Qed.

Lemma together_hierarchical ranks sizes c o t d :
  together same_calls any2 (create_hierarchical_groups env1 ranks sizes c o t d)
    (create_hierarchical_groups env2 ranks sizes c o t d).
Proof.
  unfold create_hierarchical_groups. cbn [env1 env2 at_rank de_have_einops].
  eapply (together_bind _ any2); [apply together_quiet; frame|]. intros _ _ _.
  eapply (together_bind _ any2); [|intros; apply together_quiet; frame].
  generalize (zrange 0 (Z.of_nat (length sizes))) as levels. intros levels.
  assert (Hl : forall acc1 acc2, together same_calls any2
    (hierarchical_levels env1 ranks sizes c (match o with inl o => replicate (length sizes) o | inr l => l end) t d acc1 levels)
    (hierarchical_levels env2 ranks sizes c (match o with inl o => replicate (length sizes) o | inr l => l end) t d acc2 levels));
    [|apply Hl].
  induction levels as [|l levels IH]; intros acc1 acc2; cbn [hierarchical_levels]; [by apply together_ret|].
  eapply together_bind; [apply together_level|]. intros x1 x2 _. apply IH.
Qed.

Ltac togs := repeat first [apply together_gloo | apply together_hierarchical | tog_step].

Lemma together_dp_cp a t cfgs rg n sharp :
  together same_calls any2 (build_dp_cp env1 a t cfgs rg n sharp) (build_dp_cp env2 a t cfgs rg n sharp).
Proof.
  unfold build_dp_cp, dp_cp_round. togs.
Qed.

Lemma together_dp a t cfgs rg :
  together same_calls any2 (build_dp env1 a t cfgs rg) (build_dp env2 a t cfgs rg).
Proof. unfold build_dp. togs. Qed.

Lemma together_cp a t cfgs rg :
  together same_calls any2 (build_cp env1 a t cfgs rg) (build_cp env2 a t cfgs rg).
Proof. unfold build_cp. togs. Qed.

Lemma together_pp a t cfgs rg :
  together same_calls any2 (build_pp env1 a t cfgs rg) (build_pp env2 a t cfgs rg).
Proof. unfold build_pp, pp_round. togs. Qed.

Lemma together_expert_dp a t cfgs sharp rg n :
  together same_calls eq (build_expert_dp env1 a t cfgs sharp rg n) (build_expert_dp env2 a t cfgs sharp rg n).
Proof.
  unfold build_expert_dp, expert_dp_round. togs.
Qed.

Lemma together_intra t cfgs rg n :
  together same_calls any2 (build_intra_dist_opt env1 t cfgs rg n) (build_intra_dist_opt env2 t cfgs rg n).
Proof.
  unfold build_intra_dist_opt. togs. generalize (@nil Z) 0.
  match goal with gs : list (list Z) |- _ => induction gs as [|g gs IH] end; intros acc id; cbn; togs; apply IH.
Qed.

Lemma together_sharp a : together same_calls eq (check_sharp (PG := PG) a) (check_sharp a).
Proof. unfold check_sharp. togs. Qed.
Lemma together_sizes a : together same_calls eq (check_sizes (PG := PG) env1 a) (check_sizes env2 a).
Proof. unfold check_sizes. cbn [env1 env2 at_rank de_world_size de_initialized]. togs. Qed.

Lemma together_initialize a :
  together same_calls any2 (initialize_model_parallel (PG := PG) env1 a) (initialize_model_parallel env2 a).
Proof.
  unfold initialize_model_parallel, build_mp, build_tp, build_joint, build_expert, apply_sharp_dp, set_global_memory_buffer.
  repeat first
    [ apply together_sharp | apply together_sizes | apply together_dp_cp | apply together_dp | apply together_cp
    | apply together_pp | apply together_expert_dp | apply together_intra
    | apply together_build_groups; intros; solve [frame] | apply (together_lift _ (make_generators env a _))
    | apply (together_lift _ (load_cfgs env a)) | tog_step ].
Qed.
End SameCalls.

(** (C24) [torch.distributed.new_group] is collective: every process has to make the
    same calls in the same order, member or not.  Two ranks of one job that
    run [initialize_model_parallel] with the same arguments do, with the same
    ranks, timeouts, backends, options and descriptions. *)
Theorem same_new_group_calls {PG} `{!ProcessGroup PG} `{!Einops} env a r1 r2 (s0 s1 s2 : pstate PG) :
  initialize_model_parallel (at_rank env r1) a s0 = (Ok tt, s1) ->
  initialize_model_parallel (at_rank env r2) a s0 = (Ok tt, s2) ->
  ps_calls s1 = ps_calls s2.
Proof. intros H1 H2. by destruct (together_initialize env r1 r2 a s0 s0 tt tt s1 s2). Qed.

Lemma same_new_group_calls_witness :
  (run8 0).1 = Ok tt /\ (run8 5).1 = Ok tt /\ ps_calls (run8 0).2 = ps_calls (run8 5).2.
Proof.
  split; [vm_compute; reflexivity|]. split; [vm_compute; reflexivity|].
  apply (same_new_group_calls (env8 0) (default_args 2 2 1 2) 0 5 (fresh_state ∅)); vm_compute; reflexivity.
Defined.

(* ================================================================== *)
(** ** Coordinates, sizes and members                                  *)
(* ================================================================== *)

(** (C10) After a successful [initialize_model_parallel] the rank getters return the
    coordinates of the process in the decoder's grid, and the world-size getters
    return the configured sizes, the data-parallel one being world size divided
    by model size (times the context size when context parallelism is included). *)
Theorem initialize_coordinates {PG} `{!ProcessGroup PG} `{!Einops} env a (s0 s' : pstate PG) :
  valid_args env a -> no_overrides s0 -> initialize_model_parallel env a s0 = (Ok tt, s') ->
  let dp := de_world_size env / model_size a in
  exists gd, decoder_generator env a = Ok gd /\
    get_tensor_model_parallel_rank env s' = Ok (coord gd "tp" (de_rank env)) /\
    get_data_parallel_rank env false false s' = Ok (coord gd "dp" (de_rank env)) /\
    get_context_parallel_rank env s' = Ok (coord gd "cp" (de_rank env)) /\
    get_pipeline_model_parallel_rank env s' = Ok (coord gd "pp" (de_rank env)) /\
    get_tensor_model_parallel_world_size s' = Ok (tensor_model_parallel_size a) /\
    get_data_parallel_world_size env false false s' = Ok dp /\
    get_context_parallel_world_size env s' = Ok (context_parallel_size a) /\
    get_pipeline_model_parallel_world_size s' = Ok (pipeline_model_parallel_size a) /\
    get_data_parallel_world_size env true false s' = Ok (dp * context_parallel_size a).
Proof.
  intros Hva Hno Hrun dp. destruct (getters_after env a s0 s' Hva Hno Hrun) as (gd & gc & gt & Hg). exists gd. naive_solver.
Qed.

Lemma env8_valid r : 0 <= r < 8 -> valid_args (env8 r) (default_args 2 2 1 2).
Proof. intros Hr. split; cbn; first [lia|done|not_in]. Qed.

Lemma initialize_coordinates_witness :
  exists gd, decoder_generator (env8 6) (default_args 2 2 1 2) = Ok gd /\
    get_tensor_model_parallel_rank (env8 6) (run8 6).2 = Ok (coord gd "tp" 6) /\
    get_data_parallel_rank (env8 6) false false (run8 6).2 = Ok (coord gd "dp" 6) /\
    get_data_parallel_rank (env8 6) false false (run8 6).2 = Ok 1.
Proof.
  destruct (initialize_coordinates (env8 6) (default_args 2 2 1 2) (fresh_state ∅) (run8 6).2) as (gd & H1 & H2 & H3 & _).
  - apply env8_valid. lia.
  - repeat constructor.
  - vm_compute. reflexivity.
  - exists gd. split_and!; [exact H1|exact H2|exact H3|vm_compute; reflexivity].
Defined.

(** The coordinate along a dimension is below its size. *)
Lemma coord_bound tp ep dp pp cp ord rg n r :
  RankGenerator_init tp ep dp pp cp ord 0 = Ok rg -> NoDup (py_split "-" (py_lower ord)) ->
  0 < tp /\ 0 < ep /\ 0 < dp /\ 0 < pp /\ 0 < cp -> n ∈ parallel_names ->
  0 <= coord rg n r < named_size tp ep dp pp cp n.
Proof.
  intros Hi Hnd Hs Hn. destruct (init_fields _ _ _ _ _ _ _ _ Hi Hnd) as (_ & Ho & Hnt & Hp & Hos).
  destruct (ordered_size_facts _ _ _ _ _ _ _ _ Hi Hnd Hs) as (Hpos & _ & Hl).
  rewrite <- Hp in Hn. apply list_elem_of_lookup in Hn as [i Hx]. unfold coord.
  rewrite (list_index_NoDup _ n i), Nat2Z.id by done.
  assert (Hsz : rg_ordered_size rg !! i = Some (named_size tp ep dp pp cp n))
    by (rewrite Hos, list_lookup_fmap, Hx; done).
  pose proof (digits_valid (rg_ordered_size rg) (r - rg_rank_offset rg) Hpos) as Hv.
  destruct (Forall2_lookup_l _ _ _ _ _ Hv Hsz) as (x & Hx2 & Hb). rewrite Hx2. done.
Qed.

Lemma ep_coord_one {env a gd} : valid_args env a -> decoder_generator env a = Ok gd ->
  0 < de_world_size env / model_size a -> forall r, coord gd "ep" r = 0.
Proof.
  intros Hva Hgd Hdp r. pose proof (decoder_sizes _ _ Hva Hdp) as Hsz.
  assert (He : "ep" ∈ parallel_names) by not_in.
  pose proof (coord_bound _ _ _ _ _ _ _ "ep" r Hgd (va_order _ _ Hva) Hsz He) as B1.
  change (named_size _ 1 _ _ _ "ep") with 1 in B1. lia.
Qed.

(** Agreement along every dimension, spelled out; the decoder has no expert dimension. *)
Lemma all_coords (P : string -> Prop) : P "ep" ->
  (forall n, n ∈ parallel_names -> P n) <-> P "tp" /\ P "pp" /\ P "dp" /\ P "cp".
Proof.
  intros He. split.
  - intros H. split_and!; apply H; not_in.
  - intros (H1 & H2 & H3 & H4) n Hn. unfold parallel_names in Hn. rewrite !elem_of_cons, elem_of_nil in Hn. naive_solver.
Qed.

Section Members.
Context {PG : Type} `{PGI : !ProcessGroup PG} `{EIN : !Einops} (env : dist_env) (a : mp_args).
Context (s0 s' : pstate PG) (Hva : valid_args env a) (Hno : no_overrides s0).
Context (Hrun : initialize_model_parallel env a s0 = (Ok tt, s')).

Lemma dp_members_aux : num_distributed_optimizer_instances a <= 1 ->
  exists gd n kw, decoder_generator env a = Ok gd /\
    get_data_parallel_group true true s' = Ok (Some (GOne (new_group n kw))) /\
    (forall r, r ∈ kw_ranks kw <-> 0 <= r < de_world_size env /\
       coord gd "tp" r = coord gd "tp" (de_rank env) /\ coord gd "pp" r = coord gd "pp" (de_rank env)).
Proof.
  intros Hn. destruct (getters_after env a s0 s' Hva Hno Hrun)
    as (gd & gc & gt & Hgd & Hw & Hdp & _ & _ & _ & _ & _ & _ & _ & _ & _ & _ & Hh & Ha & _).
  specialize (Hh Hn). pose proof (read_has_group _ _ "Intra partial data parallel group is not initialized" _ Hh) as Hrd.
  pose proof (decoder_sizes _ _ Hva Hdp) as Hsz. pose proof (va_order _ _ Hva) as Hnd.
  destruct Hh as (n & kw & Hs & Hkw). exists gd, n, kw. split_and!; [done|cbn; by rewrite Hrd, Hs|].
  intros r. rewrite Hkw, (group_members env _ _ _ _ _ _ _ Hgd Hnd Hsz "dp-cp" gc r Ha), Hw.
  rewrite (all_coords (fun n => n ∉ py_split "-" "dp-cp" -> coord gd n r = coord gd n (de_rank env))).
  - assert ("tp" ∉ py_split "-" "dp-cp") by not_in. assert ("pp" ∉ py_split "-" "dp-cp") by not_in.
    assert ("dp" ∈ py_split "-" "dp-cp") by not_in. assert ("cp" ∈ py_split "-" "dp-cp") by not_in. naive_solver.
  - intros _. by rewrite !(ep_coord_one Hva Hgd Hdp).
Qed.

Lemma tp_members_aux : exists gd n kw, decoder_generator env a = Ok gd /\
    get_tensor_model_parallel_group true s' = Ok (Some (GOne (new_group n kw))) /\
    (forall r, r ∈ kw_ranks kw <-> 0 <= r < de_world_size env /\ coord gd "dp" r = coord gd "dp" (de_rank env) /\
       coord gd "pp" r = coord gd "pp" (de_rank env) /\ coord gd "cp" r = coord gd "cp" (de_rank env)).
Proof.
  destruct (getters_after env a s0 s' Hva Hno Hrun)
    as (gd & gc & gt & Hgd & Hw & Hdp & _ & _ & _ & _ & _ & _ & _ & _ & _ & _ & _ & _ & Hh & Ha).
  pose proof (read_has_group _ _ "tensor model parallel group is not initialized" _ Hh) as Hrd.
  pose proof (decoder_sizes _ _ Hva Hdp) as Hsz. pose proof (va_order _ _ Hva) as Hnd.
  destruct Hh as (n & kw & Hs & Hkw). exists gd, n, kw.
  split_and!; [done|unfold get_tensor_model_parallel_group; by rewrite Hrd, Hs|].
  intros r. rewrite Hkw, (group_members env _ _ _ _ _ _ _ Hgd Hnd Hsz "tp" gt r Ha), Hw.
  rewrite (all_coords (fun n => n ∉ py_split "-" "tp" -> coord gd n r = coord gd n (de_rank env))).
  - assert ("tp" ∈ py_split "-" "tp") by not_in. assert ("pp" ∉ py_split "-" "tp") by not_in.
    assert ("dp" ∉ py_split "-" "tp") by not_in. assert ("cp" ∉ py_split "-" "tp") by not_in. naive_solver.
  - intros _. by rewrite !(ep_coord_one Hva Hgd Hdp).
Qed.
End Members.

(** The data-parallel group that gradients are reduced over (context
    parallelism included, one optimizer instance): it contains exactly the
    ranks of the world whose tensor- and pipeline-parallel coordinates are
    those of the caller. *)
Theorem data_parallel_group_members {PG} `{!ProcessGroup PG} `{!Einops} env a (s0 s' : pstate PG) :
  valid_args env a -> no_overrides s0 -> num_distributed_optimizer_instances a <= 1 ->
  initialize_model_parallel env a s0 = (Ok tt, s') ->
  exists gd n kw, decoder_generator env a = Ok gd /\
    get_data_parallel_group true true s' = Ok (Some (GOne (new_group n kw))) /\
    (forall r, r ∈ kw_ranks kw <-> 0 <= r < de_world_size env /\
       coord gd "tp" r = coord gd "tp" (de_rank env) /\ coord gd "pp" r = coord gd "pp" (de_rank env)).
Proof. intros Hva Hno Hn Hrun. by apply (dp_members_aux env a s0 s'). Qed.

Lemma data_parallel_group_members_witness :
  exists gd n kw, decoder_generator (env8 6) (default_args 2 2 1 2) = Ok gd /\
    get_data_parallel_group true true (run8 6).2 = Ok (Some (GOne (new_group n kw))) /\
    (forall r, r ∈ kw_ranks kw <-> 0 <= r < 8 /\ coord gd "tp" r = coord gd "tp" 6 /\ coord gd "pp" r = coord gd "pp" 6).
Proof.
  apply (data_parallel_group_members (env8 6) (default_args 2 2 1 2) (fresh_state ∅)).
  - apply env8_valid. lia.
  - repeat constructor.
  - cbn. lia.
  - vm_compute. reflexivity.
Defined.

(** The equation of the docstring, with context parallelism: in the default
    order "tp-cp-ep-dp-pp" a rank is
    tp_rank + tp * (cp_rank + cp * (dp_rank + dp * pp_rank)), each coordinate
    being below its size. *)
Theorem default_order_equation tp dp pp cp rg r :
  0 < tp -> 0 < dp -> 0 < pp -> 0 < cp ->
  RankGenerator_init tp 1 dp pp cp "tp-cp-ep-dp-pp" 0 = Ok rg -> 0 <= r < tp * dp * pp * cp * 1 ->
  r = coord rg "tp" r + tp * (coord rg "cp" r + cp * (coord rg "dp" r + dp * coord rg "pp" r)) /\
  0 <= coord rg "tp" r < tp /\ 0 <= coord rg "cp" r < cp /\ 0 <= coord rg "dp" r < dp /\ 0 <= coord rg "pp" r < pp.
Proof.
  intros Htp Hdp Hpp Hcp Hi Hr.
  assert (Hnd : NoDup (py_split "-" (py_lower "tp-cp-ep-dp-pp"))) by not_in.
  assert (Hs : 0 < tp /\ 0 < 1 /\ 0 < dp /\ 0 < pp /\ 0 < cp) by lia.
  pose proof (fun n => coord_bound _ _ _ _ _ _ _ n r Hi Hnd Hs) as Hb.
  assert (Hn : Forall (fun n => n ∈ parallel_names) ["tp"; "cp"; "dp"; "pp"]) by not_in.
  rewrite !Forall_cons in Hn. destruct Hn as (N1 & N2 & N3 & N4 & _).
  split; [|exact (conj (Hb "tp" N1) (conj (Hb "cp" N2) (conj (Hb "dp" N3) (Hb "pp" N4))))]. clear Hb.
  injection Hi as <-.
  change (coord _ "tp" r) with ((r - 0) mod tp). change (coord _ "cp" r) with ((r - 0) / tp mod cp).
  change (coord _ "dp" r) with ((r - 0) / tp / cp / 1 mod dp). change (coord _ "pp" r) with ((r - 0) / tp / cp / 1 / dp mod pp).
  assert (Hp : positive_sizes [tp; cp; 1; dp; pp]) by (repeat constructor; lia).
  pose proof (undigits_digits _ r Hp) as E. rewrite Z.mod_small in E by (unfold zprod; cbn; lia).
  cbn [digits undigits] in E. rewrite (Z.mod_1_r (r / tp / cp)) in E. rewrite Z.sub_0_r. rewrite <- E at 1. ring.
Qed.

Lemma default_order_equation_witness :
  exists rg, RankGenerator_init 2 1 2 2 3 "tp-cp-ep-dp-pp" 0 = Ok rg /\
  (17 = coord rg "tp" 17 + 2 * (coord rg "cp" 17 + 3 * (coord rg "dp" 17 + 2 * coord rg "pp" 17)) /\
   0 <= coord rg "tp" 17 < 2 /\ 0 <= coord rg "cp" 17 < 3 /\ 0 <= coord rg "dp" 17 < 2 /\ 0 <= coord rg "pp" 17 < 2).
Proof. eexists. split; [reflexivity|]. apply (default_order_equation 2 2 2 3); [lia..|reflexivity|lia]. Defined.

(* ================================================================== *)
(** ** Destruction                                                     *)
(* ================================================================== *)

Section Destroy.
Context {PG : Type}.
Implicit Types m : M (pstate PG) unit.

(** [clears vs ws m]: [m] returns, unsets exactly the group globals [vs] and the
    rank-list globals [ws], and keeps all others. *)
Definition clears (vs ws : list string) m : Prop := forall s, exists s', m s = (Ok tt, s') /\
  (forall v, ps_groups s' !! v = if bool_decide (v ∈ vs) then None else ps_groups s !! v) /\
  (forall v, ps_ranks s' !! v = if bool_decide (v ∈ ws) then None else ps_ranks s !! v).

Lemma clears_seq vs1 ws1 m1 vs2 ws2 m2 : clears vs1 ws1 m1 -> clears vs2 ws2 m2 ->
  clears (vs1 ++ vs2) (ws1 ++ ws2) (m1 ;; m2).
Proof.
  intros H1 H2 s. destruct (H1 s) as (s1 & E1 & G1 & R1). destruct (H2 s1) as (s2 & E2 & G2 & R2).
  exists s2. split; [unfold mbind, M_bind; by rewrite E1|].
  split; intros v; [rewrite G2, G1|rewrite R2, R1]; repeat case_bool_decide; set_solver.
Qed.
Lemma clears_group v : clears [v] [] (set_group v None).
Proof.
  intros s. eexists. split; [reflexivity|]. split; intros w; cbn; case_bool_decide; try set_solver.
  - replace w with v by set_solver. apply lookup_delete_eq.
  - apply lookup_delete_ne. set_solver.
Qed.
Lemma clears_ranks v : clears [] [v] (set_ranks v None).
Proof.
  intros s. eexists. split; [reflexivity|]. split; intros w; cbn; case_bool_decide; try set_solver.
  - replace w with v by set_solver. apply lookup_delete_eq.
  - apply lookup_delete_ne. set_solver.
Qed.
Lemma clears_nothing f : (forall s, ps_groups (f s) = ps_groups s /\ ps_ranks (f s) = ps_ranks s) -> clears [] [] (modM f).
Proof.
  intros Hf s. destruct (Hf s) as [E1 E2]. exists (f s). split; [done|]. rewrite E1, E2.
  split; intros w; case_bool_decide; set_solver.
Qed.
Lemma clears_ret : clears [] [] (mret tt).
Proof. intros s. exists s. split; [done|]. split; intros v; case_bool_decide; set_solver. Qed.
Lemma clears_groups vs : clears vs [] (clear_groups vs).
Proof.
  induction vs as [|v vs IH]; [apply clears_ret|]. apply (clears_seq [v] [] _ vs [] _ (clears_group v) IH).
Qed.
Lemma clears_ints vs : clears [] [] (clear_ints vs).
Proof.
  induction vs as [|v vs IH]; [apply clears_ret|].
  refine (clears_seq [] [] _ [] [] _ _ IH). by apply clears_nothing.
Qed.
Lemma clears_gloo registered v : clears [v] [] (destroy_gloo registered v).
Proof.
  assert (H : forall g : option (gval PG), clears [] []
    match g with Some g => whenM (registered g) (modM (on_destroyed (fun l => l ++ [g]))) | None => mret tt end).
  { intros [g|]; [|apply clears_ret]. unfold whenM. destruct (registered g); [|apply clears_ret]. by apply clears_nothing. }
  intros s. unfold destroy_gloo. destruct (clears_seq [] [] _ [v] [] _ (H (ps_groups s !! v)) (clears_group v) s) as (s' & E & Hs).
  exists s'. split; [exact E|exact Hs].
Qed.
End Destroy.

(** The group globals that [destroy_model_parallel] resets. *)
Definition destroyed_groups : list string :=
  ["_MODEL_PARALLEL_GROUP"; "_TENSOR_MODEL_PARALLEL_GROUP"; "_PIPELINE_MODEL_PARALLEL_GROUP";
   "_DATA_PARALLEL_GROUP"; "_DATA_PARALLEL_GROUP_WITH_CP"; "_CONTEXT_PARALLEL_GROUP";
   "_EMBEDDING_GROUP"; "_POSITION_EMBEDDING_GROUP";
   "_TENSOR_AND_DATA_PARALLEL_GROUP"; "_TENSOR_AND_DATA_PARALLEL_GROUP_WITH_CP"; "_TENSOR_AND_CONTEXT_PARALLEL_GROUP";
   "_DATA_PARALLEL_GROUP_GLOO"; "_DATA_PARALLEL_GROUP_WITH_CP_GLOO"; "_EXPERT_MODEL_PARALLEL_GROUP";
   "_EXPERT_TENSOR_PARALLEL_GROUP"; "_EXPERT_TENSOR_AND_MODEL_PARALLEL_GROUP";
   "_EXPERT_TENSOR_MODEL_PIPELINE_PARALLEL_GROUP"; "_EXPERT_DATA_PARALLEL_GROUP"; "_EXPERT_DATA_PARALLEL_GROUP_GLOO";
   "_INTRA_PARTIAL_EXPERT_DATA_PARALLEL_GROUP"; "_INTRA_PARTIAL_EXPERT_DATA_PARALLEL_GROUP_GLOO";
   "_INTER_PARTIAL_EXPERT_DATA_PARALLEL_GROUP"; "_INTRA_DISTRIBUTED_OPTIMIZER_INSTANCE_GROUP"].

(** Every global that [initialize_model_parallel] asserts to be unset. *)
Definition asserted_groups : list string :=
  ["_DATA_PARALLEL_GROUP"; "_CONTEXT_PARALLEL_GROUP"; "_MODEL_PARALLEL_GROUP"; "_TENSOR_MODEL_PARALLEL_GROUP";
   "_PIPELINE_MODEL_PARALLEL_GROUP"; "_EMBEDDING_GROUP"; "_POSITION_EMBEDDING_GROUP"; "_TENSOR_AND_DATA_PARALLEL_GROUP";
   "_TENSOR_AND_CONTEXT_PARALLEL_GROUP"; "_EXPERT_MODEL_PARALLEL_GROUP"; "_EXPERT_TENSOR_PARALLEL_GROUP";
   "_EXPERT_TENSOR_AND_MODEL_PARALLEL_GROUP"; "_EXPERT_TENSOR_MODEL_PIPELINE_PARALLEL_GROUP";
   "_EXPERT_DATA_PARALLEL_GROUP"; "_EXPERT_DATA_PARALLEL_GROUP_GLOO"; "_INTRA_PARTIAL_EXPERT_DATA_PARALLEL_GROUP";
   "_INTRA_PARTIAL_EXPERT_DATA_PARALLEL_GROUP_GLOO"; "_INTER_PARTIAL_EXPERT_DATA_PARALLEL_GROUP";
   "_INTRA_DISTRIBUTED_OPTIMIZER_INSTANCE_GROUP"].

Lemma destroy_clears {PG} (registered : gval PG -> bool) :
  clears destroyed_groups ["_CONTEXT_PARALLEL_GLOBAL_RANKS"; "_POSITION_EMBEDDING_GLOBAL_RANKS"]
    (destroy_model_parallel registered).
Proof.
  unfold destroy_model_parallel.
  refine (clears_seq _ [] _ _ _ _ (clears_groups _) _).
  refine (clears_seq [] _ _ _ _ _ (clears_ranks _) _).
  refine (clears_seq _ [] _ _ _ _ (clears_groups _) _).
  refine (clears_seq [] _ _ _ _ _ (clears_ranks _) _).
  refine (clears_seq _ [] _ _ [] _ (clears_groups _) _).
  refine (clears_seq [] [] _ _ [] _ (clears_ints _) _).
  refine (clears_seq [] [] _ _ [] _ (clears_nothing _ _) _); [done|].
  refine (clears_seq _ [] _ _ [] _ (clears_gloo _ _) _).
  refine (clears_seq _ [] _ _ [] _ (clears_gloo _ _) _).
  refine (clears_seq _ [] _ _ [] _ (clears_groups _) _).
  refine (clears_seq [] [] _ _ [] _ (clears_ints _) _).
  refine (clears_seq _ [] _ _ [] _ (clears_groups _) _).
  refine (clears_seq [] [] _ _ [] _ (clears_ints _) _).
  refine (clears_seq _ [] _ _ [] _ (clears_groups _) _).
  refine (clears_seq _ [] _ _ [] _ (clears_gloo _ _) _).
  refine (clears_seq _ [] _ _ [] _ (clears_groups _) _).
  refine (clears_seq _ [] _ _ [] _ (clears_gloo _ _) _).
  refine (clears_seq _ [] _ [] [] _ (clears_groups _) _).
  by apply clears_nothing.
Qed.

(** [destroy_model_parallel] always returns; it unsets every group whose
    absence [initialize_model_parallel] asserts, so that the state can be
    initialized again, and touches no other group or rank list than the ones
    it names: the list of embedding ranks and the intra-partial data-parallel
    group survive it. *)
Theorem destroy_model_parallel_spec {PG} (registered : gval PG -> bool) s : exists s',
  destroy_model_parallel registered s = (Ok tt, s') /\
  is_initialized s' = false /\ Forall (fun v => ps_groups s' !! v = None) asserted_groups /\
  (forall v, v ∉ destroyed_groups -> ps_groups s' !! v = ps_groups s !! v) /\
  ps_ranks s' !! "_EMBEDDING_GLOBAL_RANKS" = ps_ranks s !! "_EMBEDDING_GLOBAL_RANKS" /\
  ps_groups s' !! "_INTRA_PARTIAL_DATA_PARALLEL_GROUP_WITH_CP"
  = ps_groups s !! "_INTRA_PARTIAL_DATA_PARALLEL_GROUP_WITH_CP".
Proof.
  destruct (destroy_clears registered s) as (s' & E & Hg & Hr). exists s'. split; [exact E|]. split_and!.
  - unfold is_initialized. by rewrite Hg.
  - apply Forall_forall. intros v Hv. rewrite Hg.
    assert (Hin : Forall (fun v => v ∈ destroyed_groups) asserted_groups) by not_in.
    rewrite Forall_forall in Hin. by rewrite bool_decide_eq_true_2 by auto.
  - intros v Hv. by rewrite Hg, bool_decide_eq_false_2.
  - by rewrite Hr.
  - by rewrite Hg.
Qed.

(** The surviving embedding ranks are observable.  Rank 2 of 8 first runs
    without pipeline parallelism, where it holds the embedding, then, after
    [destroy_model_parallel], as a middle stage of a pipeline of four:
    [is_rank_in_embedding_group] still answers True although the rank has no
    embedding group. *)
Theorem stale_embedding_ranks :
  let again := (initialize_model_parallel (PG := nat * new_group_kwargs) (env8 2) (default_args 2 1 1 1) ;;
                destroy_model_parallel (fun _ => true) ;;
                initialize_model_parallel (env8 2) (default_args 2 4 1 1)) (fresh_state ∅) in
  again.1 = Ok tt /\ get_pipeline_model_parallel_rank (env8 2) again.2 = Ok 1 /\
  is_rank_in_embedding_group (env8 2) true None again.2 = Ok true /\
  get_embedding_group false again.2 = Ok None.
Proof. vm_compute. done. Qed.
