(* ===== verification/DataSamplers.v ===== *)
(** * Batch samplers

    [megatron/legacy/data/data_samplers.py]: which samples a data-parallel rank
    reads.  A generator is the list of what it yields; the random sampler yields
    a batch together with the value of [consumed_samples] at that moment.
    [torch.randperm] is an interface. *)

From S2P Require Import Prelude.
From S2P Require Import ParallelState.

(** ** Definitions *)

(** [torch.randperm(n, generator=g)] after [g.manual_seed(seed)]. *)
Class RandPerm := randperm : Z -> Z -> list Z.
Class RandPermLaw `{!RandPerm} : Prop := randperm_perm : forall seed n, 0 <= n -> randperm seed n ≡ₚ zrange 0 n.

(** The loop of the generators: a batch that is full is yielded; the rest stays. *)
Fixpoint fill_batches (size : Z) (batch idx : list Z) : list (list Z) * list Z :=
  match idx with
  | [] => ([], batch)
  | i :: idx' =>
      let batch := batch ++ [i] in
      if Z.of_nat (length batch) =? size then let '(full, rest) := fill_batches size [] idx' in (batch :: full, rest)
      else fill_batches size batch idx'
  end.

(** [MegatronPretrainingSampler] *)
Record pretraining_sampler := mkPretraining {
  ps_total : Z;
  ps_consumed : Z;
  ps_micro : Z;
  ps_rank : Z;
  ps_global : Z;
  ps_drop_last : bool
}.
Definition pretraining_init (total_samples consumed_samples micro_batch_size data_parallel_rank data_parallel_size : Z) (drop_last : bool)
  : res pretraining_sampler :=
  assert_ (0 <? total_samples) "no sample to consume: " ;;
  assert_ (consumed_samples <? total_samples) "no samples left to consume: " ;;
  assert_ (0 <? micro_batch_size) "self.micro_batch_size > 0" ;;
  assert_ (0 <? data_parallel_size) "data_parallel_size > 0" ;;
  assert_ (data_parallel_rank <? data_parallel_size) "data_parallel_rank should be smaller than data size: " ;;
  mret (mkPretraining total_samples consumed_samples micro_batch_size data_parallel_rank (micro_batch_size * data_parallel_size) drop_last).
Definition get_start_end_idx (s : pretraining_sampler) : Z * Z :=
  let start_idx := ps_rank s * ps_micro s in (start_idx, start_idx + ps_micro s).
Definition own_part (s : pretraining_sampler) (batch : list Z) : list Z := let '(a, b) := get_start_end_idx s in py_slice batch a b.
Definition pretraining_iter (s : pretraining_sampler) : list (list Z) :=
  let '(full, rest) := fill_batches (ps_global s) [] (zrange (ps_consumed s) (ps_total s)) in
  map (own_part s) full ++ (if (0 <? Z.of_nat (length rest)) && negb (ps_drop_last s) then [own_part s rest] else []).

(** [RandomSeedDataset]: the seed of a sample. *)
Record random_seed_dataset := mkRsd { rsd_base_seed : Z; rsd_curr_seed : Z }.
Definition set_epoch (epoch : Z) (d : random_seed_dataset) : random_seed_dataset := mkRsd (rsd_base_seed d) (rsd_base_seed d + epoch).
Definition item_seed (d : random_seed_dataset) (idx : Z) : Z := idx + rsd_curr_seed d.

(** [MegatronPretrainingRandomSampler]; the dataset matters when it has seeds. *)
Record random_sampler := mkRandom {
  rs_dataset : option random_seed_dataset;
  rs_total : Z;
  rs_consumed : Z;
  rs_micro : Z;
  rs_rank : Z;
  rs_dp : Z;
  rs_sharding : bool;
  rs_global : Z;
  rs_last : Z
}.
Definition random_init (dataset : option random_seed_dataset) (total_samples consumed_samples micro_batch_size data_parallel_rank data_parallel_size : Z)
    (data_sharding : bool) : res random_sampler :=
  let global := micro_batch_size * data_parallel_size in
  last ← pymod total_samples global;
  assert_ (0 <? total_samples) "no sample to consume: " ;;
  assert_ (0 <? micro_batch_size) "self.micro_batch_size > 0" ;;
  assert_ (0 <? data_parallel_size) "data_parallel_size > 0" ;;
  assert_ (data_parallel_rank <? data_parallel_size) "data_parallel_rank should be smaller than data size: " ;;
  mret (mkRandom dataset total_samples consumed_samples micro_batch_size data_parallel_rank data_parallel_size data_sharding global last).

(** What a pass over the sampler does: the batches, each with [consumed_samples]
    when it is yielded, and the dataset. *)
Record random_pass := mkPass { rp_batches : list (list Z * Z); rp_dataset : option random_seed_dataset }.

Section Iter.
Context `{!RandPerm}.

Definition random_indices (s : random_sampler) (epoch current_epoch_samples : Z) : res (list Z) :=
  if rs_sharding s then
    q ← floordiv (rs_total s) (rs_global s);
    let bucket_size := q * rs_micro s in
    bucket_offset ← floordiv current_epoch_samples (rs_dp s);
    let start_idx := rs_rank s * bucket_size in
    mret (map (fun x => start_idx + x) (drop (Z.to_nat bucket_offset) (randperm epoch bucket_size)))
  else
    q ← floordiv (rs_total s) (rs_micro s);
    let full_bucket_size := q * rs_micro s in
    mret (py_stride (rs_rank s) (rs_dp s) (drop (Z.to_nat current_epoch_samples) (randperm epoch full_bucket_size))).

Definition random_iter (s : random_sampler) : res random_pass :=
  let active_total_samples := rs_total s - rs_last s in
  epoch ← floordiv (rs_consumed s) active_total_samples;
  current_epoch_samples ← pymod (rs_consumed s) active_total_samples;
  r ← pymod current_epoch_samples (rs_global s);
  assert_ (r =? 0) "current_epoch_samples % self.micro_batch_times_data_parallel_size == 0" ;;
  idx_range ← random_indices s epoch current_epoch_samples;
  let full := (fill_batches (rs_micro s) [] idx_range).1 in
  mret (mkPass (imap (fun k b => (b, rs_consumed s + (Z.of_nat k + 1) * rs_global s)) full) (set_epoch epoch <$> rs_dataset s)).
End Iter.

(** [build_pretraining_data_loader]: which sampler feeds the torch loader. *)
Inductive split := SplitTrain | SplitValid | SplitTest.
#[export] Instance split_eq_dec : EqDecision split.
Proof. solve_decision. Defined.
Inductive loader := NoLoader | PassThrough | SequentialLoader (s : pretraining_sampler) | RandomLoader (s : random_sampler).
Record loader_args := mkLoaderArgs { la_full_validation : bool; la_dataloader_type : string; la_micro_batch_size : Z; la_data_sharding : bool }.

Definition build_pretraining_data_loader {PG} `{!ProcessGroup PG} (env : dist_env) (ps : pstate PG) (args : loader_args)
    (dataset : option (Z * option split * option random_seed_dataset)) (consumed_samples : Z) : res loader :=
  match dataset with
  | None => mret NoLoader
  | Some (len, split, seeded) =>
      if bool_decide (split = Some SplitValid) && la_full_validation args then
        rank ← get_data_parallel_rank env false false ps;
        size ← get_data_parallel_world_size env false false ps;
        s ← pretraining_init len 0 (la_micro_batch_size args) rank size true;
        mret (SequentialLoader s)
      else if bool_decide (la_dataloader_type args = "single") then
        rank ← get_data_parallel_rank env false false ps;
        size ← get_data_parallel_world_size env false false ps;
        s ← pretraining_init len consumed_samples (la_micro_batch_size args) rank size true;
        mret (SequentialLoader s)
      else if bool_decide (la_dataloader_type args = "cyclic") then
        rank ← get_data_parallel_rank env false false ps;
        size ← get_data_parallel_world_size env false false ps;
        s ← random_init seeded len consumed_samples (la_micro_batch_size args) rank size (la_data_sharding args);
        mret (RandomLoader s)
      else if bool_decide (la_dataloader_type args = "external") then mret PassThrough
      else raise_ Exception_ "dataloader type is not supported."
  end.

(** ** Batches *)

Lemma fill_batches_spec size batch idx full rest : 0 < size -> Z.of_nat (length batch) < size -> fill_batches size batch idx = (full, rest) ->
  concat full ++ rest = batch ++ idx /\ Forall (fun b => Z.of_nat (length b) = size) full /\ Z.of_nat (length rest) < size.
Proof.
  intros Hs. revert batch full rest. induction idx as [|i idx IH]; intros batch full rest Hb; cbn [fill_batches].
  - intros [= <- <-]. rewrite app_nil_r. split_and!; [done|constructor|done].
  - destruct (Z.eqb_spec (Z.of_nat (length (batch ++ [i]))) size) as [He|Hne].
    + destruct (fill_batches size [] idx) as [full' rest'] eqn:E. intros [= <- <-]. destruct (IH [] full' rest' ltac:(cbn; lia) E) as (E1 & E2 & E3).
      split_and!; [|by constructor|done]. cbn [concat]. rewrite <- app_assoc, E1. by rewrite <- app_assoc.
    + intros E. rewrite length_app in Hne. cbn in Hne. destruct (IH (batch ++ [i]) full rest ltac:(rewrite length_app; cbn; lia) E) as (E1 & E2 & E3).
      split_and!; [|done|done]. rewrite E1. by rewrite <- app_assoc.
Qed.

(** Pieces of equal length are found by their position. *)
Lemma chunk_lookup {A} (n : nat) (full : list (list A)) rest k b : Forall (fun b => length b = n) full -> full !! k = Some b ->
  b = take n (drop (k * n) (concat full ++ rest)).
Proof.
  intros H. revert k. induction H as [|b0 full Hb _ IH]; intros k Hk; [done|]. destruct k as [|k].
  - injection Hk as ->. cbn. rewrite <- app_assoc, <- Hb. by rewrite drop_0, take_app_length.
  - cbn [concat]. rewrite <- app_assoc. replace (S k * n)%nat with (length b0 + k * n)%nat by lia. rewrite drop_app_add. by apply IH.
Qed.
Lemma chunk_count {A} (size : Z) (full : list (list A)) : Forall (fun b => Z.of_nat (length b) = size) full -> Z.of_nat (length (concat full)) = Z.of_nat (length full) * size.
Proof. induction 1 as [|b full Hb _ IH]; [done|]. cbn [concat length]. rewrite length_app. lia. Qed.

(** All batches of a list, by their positions. *)
Lemma fill_batches_all size idx : 0 < size -> let n := Z.of_nat (length idx) / size in
  exists rest, fill_batches size [] idx = (map (fun k => take (Z.to_nat size) (drop (Z.to_nat (k * size)) idx)) (zrange 0 n), rest) /\
    Z.of_nat (length rest) = Z.of_nat (length idx) mod size.
Proof.
  intros Hs n. destruct (fill_batches size [] idx) as [full rest] eqn:E. destruct (fill_batches_spec size [] idx full rest Hs ltac:(cbn; lia) E) as (E1 & E2 & E3).
  cbn [app] in E1. pose proof (chunk_count size full E2) as Hc. assert (Hl : Z.of_nat (length idx) = Z.of_nat (length full) * size + Z.of_nat (length rest)).
  { rewrite <- E1, length_app. lia. }
  assert (Hn : n = Z.of_nat (length full)). { unfold n. rewrite Hl. symmetry. apply Z.div_unique with (Z.of_nat (length rest)); lia. }
  exists rest. split; [|rewrite Hl; apply Z.mod_unique with (Z.of_nat (length full)); lia]. f_equal. apply list_eq. intros k. change (map ?f ?l) with (f <$> l).
  rewrite list_lookup_fmap. destruct (full !! k) as [b|] eqn:Hk.
  - rewrite lookup_zrange by (apply lookup_lt_Some in Hk; lia). cbn. f_equal. rewrite <- E1.
    replace (Z.to_nat ((0 + Z.of_nat k) * size)) with (k * Z.to_nat size)%nat by lia. apply chunk_lookup; [|done].
    eapply Forall_impl; [exact E2|]. cbn. lia.
  - apply lookup_ge_None_1 in Hk. rewrite lookup_ge_None_2; [done|]. pose proof (length_zrange 0 n). lia.
Qed.

Lemma slice_zrange a b m n : 0 <= m -> 0 <= n -> a + m + n <= b -> take (Z.to_nat n) (drop (Z.to_nat m) (zrange a b)) = zrange (a + m) (a + m + n).
Proof.
  intros Hm Hn Hb. rewrite (zrange_app a (a + m) b) by lia. rewrite (zrange_app (a + m) (a + m + n) b) by lia.
  assert (L1 : length (zrange a (a + m)) = Z.to_nat m) by (pose proof (length_zrange a (a + m)); lia).
  assert (L2 : length (zrange (a + m) (a + m + n)) = Z.to_nat n) by (pose proof (length_zrange (a + m) (a + m + n)); lia).
  rewrite <- L1, drop_app_length, <- L2. apply take_app_length.
Qed.

(** Consecutive ranges of equal length make one range. *)
Lemma concat_zrange a m n : 0 <= m -> 0 <= n -> concat (map (fun r => zrange (a + r * m) (a + (r + 1) * m)) (zrange 0 n)) = zrange a (a + n * m).
Proof.
  intros Hm Hn. revert a. pattern n. apply natlike_ind; [|clear n Hn|done].
  - intros a. rewrite (zrange_nil 0 0) by lia. cbn. by rewrite zrange_nil by lia.
  - intros n Hn IH a. replace (Z.succ n) with (n + 1) by lia. rewrite (zrange_snoc 0 n) by lia. rewrite map_app, concat_app, IH. cbn. rewrite app_nil_r.
    symmetry. apply zrange_app; nia.
Qed.

(** ** The sequential sampler *)

Section Sequential.
Context (total mb dp : Z) (Htot : 0 < total) (Hmb : 0 < mb) (Hdp : 0 < dp).
Notation G := (mb * dp).

(** The part of rank [r] of the [k]-th global batch after sample [c]. *)
Definition part_of (c r k : Z) : list Z := zrange (c + k * G + r * mb) (c + k * G + (r + 1) * mb).

Lemma pretraining_ok c r : c < total -> 0 <= r < dp ->
  exists s, pretraining_init total c mb r dp true = Ok s /\ pretraining_iter s = map (part_of c r) (zrange 0 ((total - c) / G)).
Proof.
  intros Hc Hr. assert (HG : 0 < G) by nia. exists (mkPretraining total c mb r G true). split.
  { unfold pretraining_init. by rewrite !(proj2 (Z.ltb_lt _ _)) by lia. }
  unfold pretraining_iter. cbn [ps_global ps_consumed ps_total ps_drop_last].
  destruct (fill_batches_all G (zrange c total) HG) as (rest & -> & _). rewrite andb_false_r, app_nil_r, map_map.
  replace (Z.of_nat (length (zrange c total))) with (total - c) by (rewrite length_zrange; lia). apply map_ext_in. intros k Hk%list_elem_of_In%elem_of_zrange.
  assert (HkG : (k + 1) * G <= total - c). { pose proof (Z.mul_div_le (total - c) G HG). nia. }
  rewrite slice_zrange by nia. unfold own_part, get_start_end_idx, py_slice. cbn [ps_rank ps_micro].
  replace (Z.to_nat (r * mb + mb - r * mb)) with (Z.to_nat mb) by lia. rewrite slice_zrange by nia. unfold part_of. f_equal; lia.
Qed.

(** The parts of all ranks are the global batch. *)
Lemma parts_cover c k : concat (map (fun r => part_of c r k) (zrange 0 dp)) = zrange (c + k * G) (c + (k + 1) * G).
Proof.
  replace (c + (k + 1) * G) with (c + k * G + dp * mb) by lia. rewrite <- concat_zrange by lia. f_equal.
Qed.

Lemma parts_resume c j r : 0 <= j <= (total - c) / G ->
  map (part_of (c + j * G) r) (zrange 0 ((total - (c + j * G)) / G)) = drop (Z.to_nat j) (map (part_of c r) (zrange 0 ((total - c) / G))).
Proof.
  intros Hj. assert (HG : 0 < G) by nia. replace (total - (c + j * G)) with (total - c + (- j) * G) by lia. rewrite Z.div_add by lia.
  change (map ?f ?l) with (f <$> l). rewrite <- fmap_drop. rewrite (zrange_app 0 j ((total - c) / G)) by lia.
  replace (Z.to_nat j) with (length (zrange 0 j)) by (pose proof (length_zrange 0 j); lia). rewrite drop_app_length.
  apply list_eq. intros i. rewrite !list_lookup_fmap. destruct (decide (Z.of_nat i < (total - c) / G - j)) as [Hi|Hi].
  - rewrite !lookup_zrange by lia. cbn. f_equal. unfold part_of. f_equal; lia.
  - pose proof (length_zrange j ((total - c) / G)). pose proof (length_zrange 0 ((total - c) / G + - j)). rewrite !lookup_ge_None_2; [done|lia|lia].
Qed.
End Sequential.

(** (C34) Sequential sampling: every data-parallel rank yields one batch per global batch that fits between [consumed_samples]
    and the end, the k-th batches of all ranks together are the k-th global batch of consecutive samples, in the order of
    the ranks, and a sampler that resumes after j global batches continues exactly where the first one was. *)
Theorem sequential_sampling_spec total mb dp c : 0 < total -> 0 < mb -> 0 < dp -> c < total ->
  let G := mb * dp in let n := (total - c) / G in
  exists batches : Z -> list (list Z),
    (forall r, 0 <= r < dp -> (s ← pretraining_init total c mb r dp true; mret (pretraining_iter s)) = Ok (batches r) /\ Z.of_nat (length (batches r)) = Z.max 0 n) /\
    (forall k, 0 <= k < n -> concat (map (fun r => default [] (batches r !! Z.to_nat k)) (zrange 0 dp)) = zrange (c + k * G) (c + (k + 1) * G)) /\
    (forall j r, 0 <= j <= n -> c + j * G < total -> 0 <= r < dp ->
       (s ← pretraining_init total (c + j * G) mb r dp true; mret (pretraining_iter s)) = Ok (drop (Z.to_nat j) (batches r))).
Proof.
  intros Ht Hm Hd Hc G n. exists (fun r => map (part_of mb dp c r) (zrange 0 n)). split_and!.
  - intros r Hr. destruct (pretraining_ok total mb dp Ht Hm Hd c r Hc Hr) as (s & -> & E). cbn. rewrite E. split; [done|].
    rewrite length_map, length_zrange. lia.
  - intros k Hk. transitivity (concat (map (fun r => part_of mb dp c r k) (zrange 0 dp))); [|exact (parts_cover mb dp Hm Hd c k)]. f_equal. apply map_ext_in. intros r _. change (map ?f ?l) with (f <$> l).
    rewrite list_lookup_fmap, lookup_zrange by lia. cbn. f_equal. lia.
  - intros j r Hj Hjt Hr. destruct (pretraining_ok total mb dp Ht Hm Hd (c + j * G) r Hjt Hr) as (s & -> & E). cbn. rewrite E. f_equal.
    by apply parts_resume.
Qed.

Lemma sequential_sampling_spec_witness : exists batches : Z -> list (list Z),
  (s ← pretraining_init 21 1 2 1 3 true; mret (pretraining_iter s)) = Ok (batches 1) /\ batches 1 = [[3; 4]; [9; 10]; [15; 16]].
Proof.
  destruct (sequential_sampling_spec 21 2 3 1 ltac:(lia) ltac:(lia) ltac:(lia) ltac:(lia)) as (batches & H & _).
  exists batches. destruct (H 1 ltac:(lia)) as [E _]. split; [exact E|]. vm_compute in E. injection E as <-. reflexivity.
Defined.

(** ** The random sampler *)

Lemma map_shift_zrange a b s : map (fun x => s + x) (zrange a b) = zrange (s + a) (s + b).
Proof.
  apply list_eq. intros i. change (map ?f ?l) with (f <$> l). rewrite list_lookup_fmap. destruct (decide (Z.of_nat i < b - a)) as [Hi|Hi].
  - rewrite !lookup_zrange by lia. cbn. f_equal. lia.
  - pose proof (length_zrange a b). pose proof (length_zrange (s + a) (s + b)). by rewrite !lookup_ge_None_2 by lia.
Qed.

(** Lists of disjoint ranges have no common element. *)
Lemma NoDup_shards (f : Z -> list Z) m n : 0 <= n -> (forall r, 0 <= r < n -> NoDup (f r) /\ forall x, x ∈ f r -> r * m <= x < (r + 1) * m) ->
  NoDup (concat (map f (zrange 0 n))) /\ forall x, x ∈ concat (map f (zrange 0 n)) -> 0 <= x < n * m.
Proof.
  intros Hn. pattern n. apply natlike_ind; [|clear n Hn|done].
  - intros _. rewrite zrange_nil by lia. split; [constructor|intros x Hx; by apply elem_of_nil in Hx].
  - intros n Hn IH Hf. destruct IH as [I1 I2]; [intros r Hr; apply Hf; lia|]. destruct (Hf n ltac:(lia)) as [H1 H2].
    replace (Z.succ n) with (n + 1) by lia. rewrite (zrange_snoc 0 n) by lia. rewrite map_app, concat_app. cbn. rewrite app_nil_r. split.
    + apply NoDup_app. split_and!; [done| |done]. intros x Hx Hx2. specialize (I2 x Hx). specialize (H2 x Hx2). nia.
    + intros x [Hx|Hx]%elem_of_app; [specialize (I2 x Hx); specialize (Hf n ltac:(lia)); nia|specialize (H2 x Hx); nia].
Qed.

Section Random.
Context `{RP : !RandPerm} `{RPL : !RandPermLaw} (dataset : option random_seed_dataset) (total mb dp c : Z).
Notation G := (mb * dp).
Notation active := (total - total mod G).
Notation q := (total / G).
Notation done_here := ((c mod active) / G).

(** A sampler that can start: there is a global batch, and it stopped after one. *)
Record resumable : Prop := {
  re_micro : 0 < mb;
  re_dp : 0 < dp;
  re_total : G <= total;
  re_consumed : 0 <= c;
  re_aligned : (c mod active) mod G = 0
}.
Context (R : resumable).

Lemma epoch_facts : 0 < G /\ 1 <= q /\ active = q * G /\ 0 <= done_here < q /\ c mod active = done_here * G.
Proof.
  destruct R as [R1 R2 R3 R4 R5]. assert (HG : 0 < G) by nia. assert (Hq : 1 <= q) by (apply Z.div_le_lower_bound; lia).
  assert (Ha : active = q * G) by (pose proof (Z.div_mod total G ltac:(lia)); lia).
  pose proof (Z.div_mod (c mod active) G ltac:(lia)) as Hd. rewrite R5 in Hd. assert (0 < active) by nia. pose proof (Z.mod_pos_bound c active ltac:(lia)).
  split_and!; try done; [apply Z.div_pos; lia| |lia]. apply Z.div_lt_upper_bound; lia.
Qed.

(** The shard of rank [r] in this epoch. *)
Definition shard (r : Z) : list Z := map (fun x => r * (q * mb) + x) (drop (Z.to_nat (done_here * mb)) (randperm (c / active) (q * mb))).

Lemma shard_facts r : NoDup (shard r) /\ (forall x, x ∈ shard r -> r * (q * mb) <= x < (r + 1) * (q * mb)) /\ Z.of_nat (length (shard r)) = (q - done_here) * mb.
Proof.
  destruct epoch_facts as (HG & Hq & Ha & Hm & _). destruct R as [R1 R2 _ _ _]. pose proof (randperm_perm (c / active) (q * mb) ltac:(nia)) as Hp.
  set (perm := randperm (c / active) (q * mb)) in *. unfold shard. split_and!.
  - apply NoDup_fmap_2; [intros x y; lia|]. assert (Hn : NoDup perm) by (rewrite Hp; apply NoDup_zrange).
    rewrite <- (take_drop (Z.to_nat (done_here * mb)) perm) in Hn. by apply NoDup_app in Hn as (_ & _ & ?).
  - intros x (y & -> & Hy)%list_elem_of_fmap. apply list_elem_of_lookup in Hy as [i Hi]. rewrite lookup_drop in Hi. apply list_elem_of_lookup_2 in Hi.
    fold perm in Hi. rewrite Hp, elem_of_zrange in Hi. lia.
  - rewrite length_map, length_drop. fold perm. pose proof (Permutation_length Hp) as Hl. pose proof (length_zrange 0 (q * mb)).
    assert (0 <= done_here * mb <= q * mb) by nia. rewrite Z.mul_sub_distr_r. lia.
Qed.

Lemma random_ok r : 0 <= r < dp ->
  exists s pass, random_init dataset total c mb r dp true = Ok s /\ random_iter s = Ok pass /\
    concat (map fst (rp_batches pass)) = shard r /\ Z.of_nat (length (rp_batches pass)) = q - done_here /\
    (forall k b consumed, rp_batches pass !! k = Some (b, consumed) -> Z.of_nat (length b) = mb /\ consumed = c + (Z.of_nat k + 1) * G) /\
    rp_dataset pass = set_epoch (c / active) <$> dataset.
Proof.
  intros Hr. destruct epoch_facts as (HG & Hq & Ha & Hm & Hc). destruct R as [R1 R2 R3 R4 R5]. destruct (shard_facts r) as (_ & _ & Hl).
  exists (mkRandom dataset total c mb r dp true G (total mod G)).
  destruct (fill_batches mb [] (shard r)) as [full rest] eqn:Ef. destruct (fill_batches_spec mb [] (shard r) full rest R1 ltac:(cbn; lia) Ef) as (E1 & E2 & E3).
  cbn [app] in E1. pose proof (chunk_count mb full E2) as Hcount.
  assert (Hlen : Z.of_nat (length full) = q - done_here /\ rest = []).
  { assert (Hsum : (q - done_here) * mb = Z.of_nat (length full) * mb + Z.of_nat (length rest)) by (rewrite <- Hl, <- E1, length_app; lia).
    assert (Z.of_nat (length full) = q - done_here) by nia. split; [done|]. destruct rest; [done|]. cbn in *. nia. }
  destruct Hlen as [Hlen ->]. rewrite app_nil_r in E1.
  eexists. split_and!.
  - unfold random_init. rewrite pymod_ok by lia. cbn [mbind res_bind]. by rewrite !(proj2 (Z.ltb_lt _ _)) by lia.
  - unfold random_iter. cbn [rs_total rs_last rs_consumed rs_global]. rewrite floordiv_ok by lia. cbn [mbind res_bind]. rewrite pymod_ok by lia. cbn [mbind res_bind].
    rewrite pymod_ok by lia. cbn [mbind res_bind]. rewrite R5. cbn [Z.eqb assert_ mbind res_bind].
    unfold random_indices. cbn [rs_sharding rs_total rs_global rs_micro rs_rank rs_dp]. rewrite floordiv_ok by lia. cbn [mbind res_bind].
    rewrite floordiv_ok by lia. cbn [mbind res_bind mret res_ret]. replace (c mod active / dp) with (done_here * mb).
    2: { rewrite Hc at 2. replace (done_here * G) with (done_here * mb * dp) by lia. by rewrite Z.div_mul by lia. }
    fold (shard r). rewrite Ef. reflexivity.
  - cbn. rewrite <- E1. f_equal. apply list_eq. intros k. change (map ?f ?l) with (f <$> l). rewrite list_lookup_fmap, list_lookup_imap. by destruct (full !! k).
  - cbn. rewrite length_imap. done.
  - cbn. intros k b cons Hk. rewrite list_lookup_imap in Hk. destruct (full !! k) as [b0|] eqn:Hb; [|done]. cbn in Hk. injection Hk as -> <-.
    rewrite Forall_lookup in E2. split; [by eapply E2|done].
  - done.
Qed.

Lemma whole_epoch : c mod active = 0 -> concat (map shard (zrange 0 dp)) ≡ₚ zrange 0 (q * G).
Proof.
  destruct epoch_facts as (HG & Hq & Ha & Hm & Hc). destruct R as [R1 R2 _ _ _]. intros H0.
  assert (Hd0 : done_here = 0) by (by rewrite H0, Z.div_0_l by lia).
  replace (q * G) with (0 + dp * (q * mb)) by lia. rewrite <- concat_zrange by nia.
  assert (Hs : forall r, shard r ≡ₚ zrange (0 + r * (q * mb)) (0 + (r + 1) * (q * mb))).
  { intros r. unfold shard. rewrite Hd0. cbn [Z.mul Z.to_nat]. rewrite drop_0, (randperm_perm (c / active) (q * mb)) by nia. rewrite map_shift_zrange.
    replace (r * (q * mb) + q * mb) with (0 + (r + 1) * (q * mb)) by lia. by replace (r * (q * mb) + 0) with (0 + r * (q * mb)) by lia. }
  induction (zrange 0 dp) as [|r l IH]; cbn; [done|]. by rewrite Hs, IH.
Qed.
End Random.

(** (C35) Random sampling with data sharding, for every permutation that torch may draw: all data-parallel ranks yield the same
    number of batches until the end of the epoch, every batch has the micro batch size and counts one global batch, no sample
    is read twice, by one rank or by two, an epoch that starts at its beginning reads every sample of the whole global
    batches exactly once, and the epoch ends where the next one begins. *)
Theorem random_sampling_spec `{!RandPerm} `{!RandPermLaw} dataset total mb dp c : resumable total mb dp c ->
  let G := mb * dp in let active := total - total mod G in let n := total / G - (c mod active) / G in
  exists batches : Z -> list (list Z * Z),
    (forall r, 0 <= r < dp -> (s ← random_init dataset total c mb r dp true; pass ← random_iter s; mret (rp_batches pass)) = Ok (batches r) /\
       Z.of_nat (length (batches r)) = n /\
       forall k b consumed, batches r !! k = Some (b, consumed) -> Z.of_nat (length b) = mb /\ consumed = c + (Z.of_nat k + 1) * G) /\
    NoDup (concat (map (fun r => concat (map fst (batches r))) (zrange 0 dp))) /\
    (forall x, x ∈ concat (map (fun r => concat (map fst (batches r))) (zrange 0 dp)) -> 0 <= x < total) /\
    (c mod active = 0 -> concat (map (fun r => concat (map fst (batches r))) (zrange 0 dp)) ≡ₚ zrange 0 active) /\
    c + n * G = (c / active + 1) * active /\ 0 < n.
Proof.
  intros R G active n. destruct (epoch_facts total mb dp c R) as (HG & Hq & Ha & Hm & Hc). fold G active in HG, Hq, Ha, Hm, Hc.
  exists (fun r => match (s ← random_init dataset total c mb r dp true; pass ← random_iter s; mret (rp_batches pass)) with Ok b => b | Err _ => [] end).
  assert (Hs : map (fun r => concat (map fst (match (s ← random_init dataset total c mb r dp true; pass ← random_iter s; mret (rp_batches pass)) with Ok b => b | Err _ => [] end)))
    (zrange 0 dp) = map (shard total mb dp c) (zrange 0 dp)).
  { apply map_ext_in. intros r Hr%list_elem_of_In%elem_of_zrange. destruct (random_ok dataset total mb dp c R r Hr) as (s & pass & E1 & E2 & E3 & _).
    rewrite E1. cbn [mbind res_bind]. rewrite E2. cbn. done. }
  rewrite Hs. destruct (NoDup_shards (shard total mb dp c) (total / G * mb) dp) as [N1 N2]; [pose proof (re_dp _ _ _ _ R); lia| |].
  { intros r Hr. destruct (shard_facts total mb dp c R r) as (F1 & F2 & _). by split. }
  split_and!; [|done| | | |unfold n; lia].
  - intros r Hr. destruct (random_ok dataset total mb dp c R r Hr) as (s & pass & E1 & E2 & _ & E3 & E4 & _). rewrite E1. cbn [mbind res_bind]. rewrite E2. cbn. done.
  - intros x Hx%N2. destruct R as [R1 R2 _ _ _]. pose proof (Z.mul_div_le total G ltac:(lia)). unfold G in *. nia.
  - intros Hz. rewrite Ha. by apply whole_epoch.
  - unfold n. rewrite Z.mul_sub_distr_r, <- Hc. pose proof (Z.div_mod c active ltac:(nia)). nia.
Qed.

(** [torch.randperm] as the identity. *)
#[local] Instance identity_perm : RandPerm := fun _ n => zrange 0 n.
#[local] Instance identity_perm_law : RandPermLaw.
Proof. intros seed n _. done. Qed.

Lemma random_sampling_spec_witness : exists batches : Z -> list (list Z * Z),
  (s ← random_init None 14 16 2 1 2 true; pass ← random_iter s; mret (rp_batches pass)) = Ok (batches 1) /\ batches 1 = [([8; 9], 20); ([10; 11], 24)].
Proof.
  assert (R : resumable 14 2 2 16) by (split; [lia|lia|lia|lia|vm_compute; reflexivity]).
  destruct (random_sampling_spec None 14 2 2 16 R) as (batches & H & _). exists batches. destruct (H 1 ltac:(lia)) as [E _].
  split; [exact E|]. vm_compute in E. injection E as <-. reflexivity.
Defined.

(** Random sampling without data sharding deals out the samples of whole micro batches, not of whole global batches: with
    14 samples, micro batch size 2 and 4 ranks, rank 0 yields two batches in an epoch and rank 2 only one, whatever the
    permutation, so the ranks no longer run the same number of iterations. *)
Theorem unsharded_ranks_disagree `{!RandPerm} `{!RandPermLaw} dataset :
  exists s0 s2 pass0 pass2,
    random_init dataset 14 0 2 0 4 false = Ok s0 /\ random_iter s0 = Ok pass0 /\ length (rp_batches pass0) = 2%nat /\
    random_init dataset 14 0 2 2 4 false = Ok s2 /\ random_iter s2 = Ok pass2 /\ length (rp_batches pass2) = 1%nat.
Proof.
  pose proof (Permutation_length (randperm_perm 0 14 ltac:(lia))) as Hl. change (length (zrange 0 14)) with 14%nat in Hl.
  assert (E : forall r, random_iter (mkRandom dataset 14 0 2 r 4 false 8 6) = Ok (mkPass (imap (fun k b => (b, 0 + (Z.of_nat k + 1) * 8))
    (fill_batches 2 [] (py_stride r 4 (randperm 0 14))).1) (set_epoch 0 <$> dataset))) by reflexivity.
  exists (mkRandom dataset 14 0 2 0 4 false 8 6), (mkRandom dataset 14 0 2 2 4 false 8 6).
  eexists. eexists. split; [reflexivity|]. split; [apply E|]. split; [|split; [reflexivity|split; [apply E|]]].
  all: destruct (randperm 0 14) as [|x0 [|x1 [|x2 [|x3 [|x4 [|x5 [|x6 [|x7 [|x8 [|x9 [|x10 [|x11 [|x12 [|x13 [|]]]]]]]]]]]]]]]; try discriminate Hl; reflexivity.
Qed.

Lemma unsharded_ranks_disagree_witness : exists s0 s2 pass0 pass2,
  random_init None 14 0 2 0 4 false = Ok s0 /\ random_iter s0 = Ok pass0 /\ length (rp_batches pass0) = 2%nat /\
  random_init None 14 0 2 2 4 false = Ok s2 /\ random_iter s2 = Ok pass2 /\ length (rp_batches pass2) = 1%nat.
Proof. apply (unsharded_ranks_disagree None). Defined.
