(* ===== verification/BytepsOps.v ===== *)
(** * The BytePS Python bindings

    [byteps/torch/ops.py]: declaration of names, asynchronous and synchronous
    push-pull, and the map of pending handles.  The calls into [c_lib] follow
    [ops.cc] and [handle_manager.cc]: handles are allocated by a counter, a
    handle is live until it is released, and each name has at most one number of
    expected workers.  The reduction itself is done by the servers; what is
    modelled is which tensors are pushed under which name and when they are
    waited for. *)

From S2P Require Import Prelude.

(** A tensor as the bindings see it: its identity, its [type()], its shape and
    whether it is contiguous. *)
Record tensor := mkTensor {
  t_id : Z;
  t_type : string;
  t_shape : list Z;
  t_contiguous : bool
}.

#[export] Instance bps_tensor_eq_dec : EqDecision tensor.
Proof. solve_decision. Defined.

(** What reaches the library. *)
Inductive bps_event :=
  | EvPush (handle : Z) (input output : tensor) (average : bool) (name : string) (version priority : Z)
  | EvWait (handle : Z).

(** The library and the bindings: initialized or not, the last handle, the live
    handles, the expected workers per declared name ([-1] when not registered),
    [_handle_map], the fresh tensor identities, and the log of calls. *)
Record bps_state := mkBps {
  bs_initialized : bool;
  bs_last_handle : Z;
  bs_results : gset Z;
  bs_contexts : gmap string Z;
  bs_handle_map : gmap Z (tensor * tensor);
  bs_next_tensor : Z;
  bs_log : list bps_event
}.

Definition bps_start : bps_state := mkBps true 0 ∅ ∅ ∅ 0 [].

#[local] Notation B := (M bps_state).

(** *** [c_lib] *)

(** [GetOpName("byteps", name, 0)] *)
Definition op_name (name : string) : string :=
  if bool_decide (name = "") then "byteps.noname.0" else "byteps." +:+ name.

(** [DeclareTensor]: the first declaration creates the context. *)
Definition c_declare_tensor (name : string) : B unit :=
  modM (fun s => mkBps (bs_initialized s) (bs_last_handle s) (bs_results s)
    (match bs_contexts s !! op_name name with
     | None => <[op_name name := -1]> (bs_contexts s)
     | Some _ => bs_contexts s
     end) (bs_handle_map s) (bs_next_tensor s) (bs_log s)).

(** [RegisterTensorGroup]: a second registration must agree; the check aborts. *)
Definition c_register_tensor_group (name : string) (expected_workers : Z) : B unit :=
  c_declare_tensor name ;;
  if 0 <? expected_workers then
    s ← getM;
    let cur := default (-1) (bs_contexts s !! op_name name) in
    if cur =? -1 then
      modM (fun s => mkBps (bs_initialized s) (bs_last_handle s) (bs_results s)
        (<[op_name name := expected_workers]> (bs_contexts s)) (bs_handle_map s) (bs_next_tensor s) (bs_log s))
    else if cur =? expected_workers then mret tt
    else raiseM RuntimeError "was declared with inconsistent expected_workers"
  else mret tt.

(** [DoPushPull]: a fresh live handle, and the task is started.  The task checks the number of partitions of the tensor, which may
    be after the return and ends the process when it fails: this check is [core_accepts] below, on the log of the pushes. *)
Definition c_push_pull (input output : tensor) (average : bool) (name : string) (version priority : Z) : B Z :=
  s ← getM;
  if bs_initialized s then
    let handle := bs_last_handle s + 1 in
    modM (fun s => mkBps (bs_initialized s) handle ({[handle]} ∪ bs_results s) (bs_contexts s) (bs_handle_map s)
      (bs_next_tensor s) (bs_log s ++ [EvPush handle input output average name version priority])) ;;
    mret handle
  else raiseM RuntimeError "BytePS has not been initialized".

(** [PollHandle]: a handle that is not live is an error.  [WaitAndClear] returns
    when the operation is done, and releases the handle; it would also throw a failing status, but the core
    stores none. *)
Definition c_wait_and_clear (handle : Z) : B unit :=
  s ← getM;
  if bool_decide (handle ∈ bs_results s) then
    modM (fun s => mkBps (bs_initialized s) (bs_last_handle s) (bs_results s ∖ {[handle]}) (bs_contexts s)
      (bs_handle_map s) (bs_next_tensor s) (bs_log s ++ [EvWait handle]))
  else raiseM ValueError "was not created or has been cleared.".

(** The tensor types for which [c_lib] has a push-pull function. *)
Definition c_lib_types : list string :=
  ["torch_ByteTensor"; "torch_IntTensor"; "torch_LongTensor"; "torch_HalfTensor"; "torch_FloatTensor";
   "torch_DoubleTensor"; "torch_cuda_ByteTensor"; "torch_cuda_IntTensor"; "torch_cuda_LongTensor";
   "torch_cuda_HalfTensor"; "torch_cuda_FloatTensor"; "torch_cuda_DoubleTensor"].

(** *** The partitions of a tensor *)

(** [s.replace('.', '_')] *)
Definition py_replace_char (a b : Ascii.ascii) (s : string) : string :=
  of_chars (map (fun c => if bool_decide (c = a) then b else c) (chars s)).

(** [TorchTensor::size()]: the bytes of a tensor *)
Definition element_size (ty : string) : Z :=
  match list_find (fun e => e.1 = py_replace_char "." "_" ty) (zip c_lib_types [1; 4; 8; 2; 4; 8; 1; 4; 8; 2; 4; 8]) with
  | Some (_, (_, n)) => n
  | None => 0
  end.
Definition tensor_size (t : tensor) : Z := element_size (t_type t) * fold_right Z.mul 1 (t_shape t).
(** [InitTensor] and [PartitionTensor] cut a tensor into parts of [bound] bytes, the last one may be smaller. *)
Definition partitions (bound : Z) (t : tensor) : Z := (tensor_size t + bound - 1) / bound.

(** The checks of [InitTensor] and [EnqueueTensor]: the first push of a name has a tensor that is not empty and makes the keys of the
    name, one per partition; a later one must have a tensor with that many partitions. *)
Fixpoint core_accepts (bound : Z) (keys : gmap string Z) (log : list bps_event) : bool :=
  match log with
  | [] => true
  | EvPush _ input _ _ name _ _ :: log =>
      match keys !! op_name name with
      | None => (0 <? tensor_size input) && core_accepts bound (<[op_name name := partitions bound input]> keys) log
      | Some n => (n =? partitions bound input) && core_accepts bound keys log
      end
  | EvWait _ :: log => core_accepts bound keys log
  end.

(** *** ops.py *)

Definition push_pull_function_factory (t : tensor) : string :=
  "byteps_torch_push_pull_async_" +:+ py_replace_char "." "_" (t_type t).
Definition push_pull_group_function_factory (t : tensor) : string :=
  "byteps_torch_push_pull_group_sync_" +:+ py_replace_char "." "_" (t_type t).

(** [_check_function]: [hasattr(c_lib, function)] and contiguity. *)
Definition check_function (function_factory : tensor -> string) (t : tensor) : res string :=
  let function := function_factory t in
  if bool_decide (function ∈ map (fun ty => "byteps_torch_push_pull_async_" +:+ ty) c_lib_types
                         ++ map (fun ty => "byteps_torch_push_pull_group_sync_" +:+ ty) c_lib_types)
  then if t_contiguous t then mret function else raise_ ValueError "Tensor is required to be contiguous."
  else raise_ ValueError "Tensor type is not supported.".

(** [name.encode() if name is not None else _NULL] *)
Definition encode_name (name : option string) : string := default "" name.

Definition remember_handle (handle : Z) (input output : tensor) : B unit :=
  modM (fun s => mkBps (bs_initialized s) (bs_last_handle s) (bs_results s) (bs_contexts s)
    (<[handle := (input, output)]> (bs_handle_map s)) (bs_next_tensor s) (bs_log s)).

Definition do_push_pull_async (input output : tensor) (average : bool) (name : option string)
    (version priority : Z) : B Z :=
  c_declare_tensor (encode_name name) ;;
  liftM (check_function push_pull_function_factory input) ;;
  handle ← c_push_pull input output average (encode_name name) version priority;
  remember_handle handle input output ;;
  mret handle.

(** [tensor.new(tensor.shape)] *)
Definition new_like (t : tensor) : B tensor :=
  s ← getM;
  modM (fun s => mkBps (bs_initialized s) (bs_last_handle s) (bs_results s) (bs_contexts s) (bs_handle_map s)
    (bs_next_tensor s + 1) (bs_log s)) ;;
  mret (mkTensor (bs_next_tensor s) (t_type t) (t_shape t) true).

Definition push_pull_async (t : tensor) (average : bool) (name : option string) (version priority : Z) : B Z :=
  output ← new_like t;
  do_push_pull_async t output average name version priority.

Definition push_pull_async_inplace (t : tensor) (average : bool) (name : option string) (version priority : Z) : B Z :=
  do_push_pull_async t t average name version priority.

(** [synchronize]: an unknown handle is ignored. *)
Definition synchronize (handle : Z) : B (option tensor) :=
  s ← getM;
  match bs_handle_map s !! handle with
  | None => mret None
  | Some (_, output) =>
      c_wait_and_clear handle ;;
      modM (fun s => mkBps (bs_initialized s) (bs_last_handle s) (bs_results s) (bs_contexts s)
        (delete handle (bs_handle_map s)) (bs_next_tensor s) (bs_log s)) ;;
      mret (Some output)
  end.

(** [push_pull] with the default compressor, which is the identity. *)
Definition push_pull (t : tensor) (average : bool) (name : option string) (version priority : Z) : B (option tensor) :=
  match name with
  | None => raiseM AssertionError "To manually call push_pull, you must specify a name by name=..."
  | Some _ => handle ← push_pull_async t average name version priority; synchronize handle
  end.

Definition push_pull_inplace (t : tensor) (average : bool) (name : option string) (version priority : Z)
    : B (option tensor) :=
  handle ← push_pull_async_inplace t average name version priority; synchronize handle.

(** [poll]: the answer is up to the library, a dead handle is an error. *)
Definition poll (done_ : bool) (handle : Z) : B bool :=
  s ← getM;
  if bool_decide (handle ∈ bs_results s) then mret done_
  else raiseM ValueError "was not created or has been cleared.".

Definition declare (name : string) (expected_workers : option Z) : B Z :=
  match expected_workers with
  | Some n => c_register_tensor_group name n ;; mret 0
  | None => c_declare_tensor name ;; mret 0
  end.

(* ================================================================== *)
(** ** Properties                                                      *)
(* ================================================================== *)

(** The handles the bindings remember are live, and no handle exceeds the counter. *)
Definition handles_ok (s : bps_state) : Prop :=
  (forall h p, bs_handle_map s !! h = Some p -> h ∈ bs_results s) /\ (forall h, h ∈ bs_results s -> h <= bs_last_handle s).

Lemma handles_ok_start : handles_ok bps_start.
Proof. split; [intros h p; cbn; by rewrite lookup_empty|intros h; cbn; set_solver]. Qed.

(** The tensor can be pushed. *)
Definition pushable (t : tensor) : bool := is_ok (check_function push_pull_function_factory t).

(** Pushes under whose names always the same non-empty tensor is reduced pass the checks of the core. *)
Lemma core_accepts_function (f : string -> tensor) bound keys log : (forall nm n, keys !! nm = Some n -> n = partitions bound (f nm)) ->
  Forall (fun e => match e with EvPush _ input _ _ name _ _ => input = f (op_name name) /\ 0 < tensor_size input | EvWait _ => True end) log ->
  core_accepts bound keys log = true.
Proof.
  intros Hk H. revert keys Hk. induction H as [|[h i o a nm v pr|h] log He _ IH]; intros keys Hk; cbn; [done| |by apply IH]. destruct He as [-> Hs].
  destruct (keys !! op_name nm) as [n|] eqn:E.
  - rewrite (Hk _ _ E), Z.eqb_refl. by apply IH.
  - rewrite (proj2 (Z.ltb_lt _ _)) by done. apply IH. intros nm' n. destruct (decide (nm' = op_name nm)) as [->|Hne]; [rewrite lookup_insert_eq; by intros [= <-]|].
    rewrite lookup_insert_ne by done. apply Hk.
Qed.

(** The state after an accepted push. *)
Lemma do_push_pull_async_ok s i o average name version priority :
  bs_initialized s = true -> pushable i = true ->
  exists s', do_push_pull_async i o average name version priority s = (Ok (bs_last_handle s + 1), s') /\
    bs_initialized s' = true /\ bs_last_handle s' = bs_last_handle s + 1 /\
    bs_results s' = {[bs_last_handle s + 1]} ∪ bs_results s /\
    bs_handle_map s' = <[bs_last_handle s + 1 := (i, o)]> (bs_handle_map s) /\
    bs_next_tensor s' = bs_next_tensor s /\
    bs_contexts s' = (if bs_contexts s !! op_name (encode_name name) then bs_contexts s
                      else <[op_name (encode_name name) := -1]> (bs_contexts s)) /\
    bs_log s' = bs_log s ++ [EvPush (bs_last_handle s + 1) i o average (encode_name name) version priority].
Proof.
  intros Hi Hp. unfold pushable in Hp. unfold do_push_pull_async, c_declare_tensor, c_push_pull, remember_handle.
  destruct (check_function _ _) as [f|]; [|done]. m_unfold. cbn. rewrite Hi. eexists. split; [reflexivity|].
  cbn. split_and!; done.
Qed.

Lemma synchronize_ok s h i o : handles_ok s -> bs_handle_map s !! h = Some (i, o) ->
  exists s', synchronize h s = (Ok (Some o), s') /\
    bs_initialized s' = bs_initialized s /\ bs_last_handle s' = bs_last_handle s /\
    bs_results s' = bs_results s ∖ {[h]} /\ bs_handle_map s' = delete h (bs_handle_map s) /\
    bs_contexts s' = bs_contexts s /\ bs_log s' = bs_log s ++ [EvWait h].
Proof.
  intros [Hm _] Hh. unfold synchronize, c_wait_and_clear. m_unfold. rewrite Hh.
  rewrite bool_decide_eq_true_2 by (by eapply Hm). eexists. by split; [reflexivity|].
Qed.

Lemma handles_ok_push s s' i o : handles_ok s -> bs_last_handle s' = bs_last_handle s + 1 ->
  bs_results s' = {[bs_last_handle s + 1]} ∪ bs_results s ->
  bs_handle_map s' = <[bs_last_handle s + 1 := (i, o)]> (bs_handle_map s) -> handles_ok s'.
Proof.
  intros [H1 H2] El Er Em. split.
  - intros h p. rewrite Em, Er. destruct (decide (h = bs_last_handle s + 1)) as [->|Hne]; [set_solver|].
    rewrite lookup_insert_ne by done. intros Hp. apply H1 in Hp. set_solver.
  - intros h. rewrite Er, El, elem_of_union, elem_of_singleton. intros [->|Hh]; [lia|]. apply H2 in Hh. lia.
Qed.

Lemma handles_ok_sync s s' h : handles_ok s -> bs_last_handle s' = bs_last_handle s ->
  bs_results s' = bs_results s ∖ {[h]} -> bs_handle_map s' = delete h (bs_handle_map s) -> handles_ok s'.
Proof.
  intros [H1 H2] El Er Em. split.
  - intros k p. rewrite Em, Er, lookup_delete_Some. intros [Hne Hp]. apply H1 in Hp. set_solver.
  - intros k. rewrite Er, El. intros Hk. apply H2. set_solver.
Qed.

(** The calls a client makes: start an in-place reduction, wait for a handle. *)
Inductive bps_call := Start (t : tensor) (average : bool) (name : string) (version priority : Z) | Sync (handle : Z).

Definition run_call (c : bps_call) : B unit :=
  match c with
  | Start t average name version priority =>
      push_pull_async_inplace t average (Some name) version priority ;; mret tt
  | Sync handle => synchronize handle ;; mret tt
  end.

(** The calls one after the other; an exception in one does not stop the next. *)
Fixpoint run_calls (cs : list bps_call) (s : bps_state) : bps_state :=
  match cs with [] => s | c :: cs' => run_calls cs' (run_call c s).2 end.

Lemma run_call_handles c s : handles_ok s -> handles_ok (run_call c s).2.
Proof.
  intros H. destruct c as [t average name version priority|h]; cbn [run_call].
  - unfold push_pull_async_inplace. destruct (bs_initialized s) eqn:Ei; [destruct (pushable t) eqn:Ep|].
    + destruct (do_push_pull_async_ok s t t average (Some name) version priority Ei Ep)
        as (s' & E & _ & El & Er & Em & _). unfold mbind, M_bind. rewrite E. cbn. by eapply handles_ok_push.
    + unfold pushable in Ep. unfold do_push_pull_async. m_unfold. destruct (check_function _ _); [done|]. exact H.
    + unfold do_push_pull_async, c_declare_tensor, c_push_pull. m_unfold.
      destruct (check_function _ _); cbn; [|exact H]. rewrite Ei. exact H.
  - destruct (bs_handle_map s !! h) as [[i o]|] eqn:Eh.
    + destruct (synchronize_ok s h i o H Eh) as (s' & E & _ & El & Er & Em & _).
      unfold mbind, M_bind. rewrite E. cbn. by eapply handles_ok_sync.
    + unfold synchronize. m_unfold. rewrite Eh. exact H.
Qed.

Lemma run_calls_handles cs s : handles_ok s -> handles_ok (run_calls cs s).
Proof. revert s. induction cs as [|c cs IH]; intros s H; cbn; [done|]. by apply IH, run_call_handles. Qed.

(** (C30) In every state that a client reaches by starting reductions and waiting
    for handles, [synchronize] never raises: a pending handle is waited for
    exactly once and gives its output tensor, and any other integer, a handle
    waited for before included, is ignored without a call into the library. *)
Theorem synchronize_total cs h :
  let s := run_calls cs bps_start in
  match bs_handle_map s !! h with
  | Some (_, output) => exists s', synchronize h s = (Ok (Some output), s') /\
      bs_log s' = bs_log s ++ [EvWait h] /\ bs_handle_map s' !! h = None /\ synchronize h s' = (Ok None, s')
  | None => synchronize h s = (Ok None, s)
  end.
Proof.
  intros s. pose proof (run_calls_handles cs bps_start handles_ok_start) as H. fold s in H.
  destruct (bs_handle_map s !! h) as [[i o]|] eqn:E.
  - destruct (synchronize_ok s h i o H E) as (s' & Es & _ & _ & _ & Em & _ & El). exists s'.
    assert (Hn : bs_handle_map s' !! h = None) by (rewrite Em; apply lookup_delete_eq).
    split_and!; [done|done|done|]. unfold synchronize. m_unfold. by rewrite Hn.
  - unfold synchronize. m_unfold. by rewrite E.
Qed.

(** [push_pull_inplace] of a supported contiguous tensor: it pushes the tensor
    under its name, waits for the new handle, returns the same tensor, and
    leaves the pending handles as they were. *)
Theorem push_pull_inplace_spec s t average name version priority :
  handles_ok s -> bs_initialized s = true -> pushable t = true ->
  exists s', push_pull_inplace t average (Some name) version priority s = (Ok (Some t), s') /\
    bs_handle_map s' = bs_handle_map s /\ bs_results s' = bs_results s /\ handles_ok s' /\
    let h := bs_last_handle s + 1 in
    bs_log s' = bs_log s ++ [EvPush h t t average name version priority; EvWait h].
Proof.
  intros H Hi Hp. destruct (do_push_pull_async_ok s t t average (Some name) version priority Hi Hp)
    as (s1 & E1 & _ & El & Er & Em & _ & _ & Elog).
  pose proof (handles_ok_push s s1 t t H El Er Em) as H1.
  destruct (synchronize_ok s1 (bs_last_handle s + 1) t t H1) as (s2 & E2 & _ & El2 & Er2 & Em2 & _ & Elog2);
    [rewrite Em; apply lookup_insert_eq|].
  exists s2. split; [unfold push_pull_inplace, push_pull_async_inplace, mbind, M_bind; by rewrite E1|].
  assert (Hfresh : bs_last_handle s + 1 ∉ bs_results s) by (intros Hin; apply (proj2 H) in Hin; lia).
  split_and!.
  - rewrite Em2, Em. rewrite delete_insert_eq. apply delete_id. destruct (bs_handle_map s !! _) eqn:E; [|done].
    apply (proj1 H) in E. done.
  - rewrite Er2, Er. set_solver.
  - eapply handles_ok_sync; done.
  - cbn. by rewrite Elog2, Elog, <- app_assoc.
Qed.

Definition float_tensor (id : Z) : tensor := mkTensor id "torch.cuda.FloatTensor" [4] true.

Lemma push_pull_inplace_spec_witness :
  exists s', push_pull_inplace (float_tensor 7) false (Some "dp.tp0.pp0.bucket_0") 0 0 bps_start
             = (Ok (Some (float_tensor 7)), s') /\
    bs_handle_map s' = bs_handle_map bps_start /\ bs_results s' = bs_results bps_start /\ handles_ok s' /\
    let h := bs_last_handle bps_start + 1 in
    bs_log s' = bs_log bps_start ++ [EvPush h (float_tensor 7) (float_tensor 7) false "dp.tp0.pp0.bucket_0" 0 0; EvWait h].
Proof. apply push_pull_inplace_spec; [apply handles_ok_start|reflexivity|vm_compute; reflexivity]. Defined.

(** A push of a bfloat16 tensor only declares its name. *)
Lemma bfloat16_push id shape average name version priority s :
  push_pull_async_inplace (mkTensor id "torch.cuda.BFloat16Tensor" shape true) average (Some name) version priority s
  = (raise_ ValueError "Tensor type is not supported.", (c_declare_tensor name s).2).
Proof.
  unfold push_pull_async_inplace, do_push_pull_async. set (t := mkTensor _ _ _ _).
  assert (E : check_function push_pull_function_factory t = raise_ ValueError "Tensor type is not supported.")
    by (vm_compute; reflexivity).
  unfold c_declare_tensor. m_unfold. rewrite E. done.
Qed.

(** The library has no push-pull function for bfloat16: starting a reduction
    of such a tensor raises [ValueError], whatever the state, and no task is
    started. *)
Theorem bfloat16_not_supported s id shape average name version priority :
  let t := mkTensor id "torch.cuda.BFloat16Tensor" shape true in
  let '(r, s') := push_pull_async_inplace t average (Some name) version priority s in
  raises ValueError r = true /\ bs_log s' = bs_log s /\ bs_handle_map s' = bs_handle_map s.
Proof. intros t. unfold t. rewrite bfloat16_push. done. Qed.
