(* ===== verification/BytepsCollectives.v ===== *)
(** * BytePS collectives of Megatron

    [megatron/core/distributed/byteps_collectives.py], the naming of the
    tensor-parallel reductions in [tensor_parallel/layers.py] and their call in
    [tensor_parallel/mappings.py].

    A BytePS reduction is keyed by a name: ranks that use the same name are
    summed together.  The theorems say that the names built from the parallel
    state are equal exactly on the ranks of one process group. *)

From Stdlib Require Import Sorting.Sorted.
From S2P Require Import Prelude RankGroups ParallelState ParallelStateProofs BytepsOps.

(** The bindings, [_DECLARED_BPS_GROUPS], the counter of tensor-parallel names
    and the number of barriers passed. *)
Record bc_state := mkBc {
  bc_bps : bps_state;
  bc_declared : gmap string Z;
  bc_name_counter : Z;
  bc_barriers : Z
}.

Definition bc_start : bc_state := mkBc bps_start ∅ 0 0.

#[local] Notation C := (M bc_state).

(** A call into the bindings. *)
Definition bps {A} (m : M bps_state A) : C A := fun s =>
  let '(r, b) := m (bc_bps s) in (r, mkBc b (bc_declared s) (bc_name_counter s) (bc_barriers s)).

(** [_DECLARED_BPS_GROUPS[name] = n] *)
Definition cache_group (name : string) (n : Z) : C unit :=
  modM (fun s => mkBc (bc_bps s) (<[name := n]> (bc_declared s)) (bc_name_counter s) (bc_barriers s)).

Section Collectives.
Context {PG : Type} `{!ProcessGroup PG}.
Context (env : dist_env) (ps : pstate PG).

Definition build_byteps_group_name (scope logical_name : string) : res string :=
  if bool_decide (logical_name = "") then raise_ ValueError "logical_name must be a stable non-empty string"
  else
    pp_rank ← get_pipeline_model_parallel_rank env ps;
    if bool_decide (scope = "dp") then
      tp_rank ← get_tensor_model_parallel_rank env ps;
      mret ("dp.tp" +:+ str_of_Z tp_rank +:+ ".pp" +:+ str_of_Z pp_rank +:+ "." +:+ logical_name)
    else if bool_decide (scope = "tp") then
      dp_rank ← get_data_parallel_rank env false false ps;
      cp_rank ← get_context_parallel_rank env ps;
      mret ("tp.dp" +:+ str_of_Z dp_rank +:+ ".pp" +:+ str_of_Z pp_rank +:+ ".cp" +:+ str_of_Z cp_rank
            +:+ "." +:+ logical_name)
    else raise_ ValueError "Unsupported BytePS scope".

Definition declare_and_cache_byteps_group (name : string) (expected_workers : Z) : C unit :=
  s ← getM;
  match bc_declared s !! name with
  | None => bps (declare name (Some expected_workers)) ;; cache_group name expected_workers
  | Some cached_workers =>
      if negb (cached_workers =? expected_workers)
      then raiseM RuntimeError "was declared with inconsistent group size" else mret tt
  end.

Definition declare_group_and_get_name (group : option (gval PG)) (scope logical_name : string) : C string :=
  (if is_none group then raiseM ValueError "group must not be None" else mret tt) ;;
  expected_workers ← liftM (call_size group);
  name ← liftM (build_byteps_group_name scope logical_name);
  declare_and_cache_byteps_group name expected_workers ;;
  mret name.

Definition byteps_allreduce (t : tensor) (group : option (gval PG)) (scope logical_name : string)
    (average : bool) (version priority : Z) : C (option tensor) :=
  name ← declare_group_and_get_name group scope logical_name;
  bps (push_pull t average (Some name) version priority).

Definition byteps_allreduce_async_inplace (t : tensor) (group : option (gval PG)) (scope logical_name : string)
    (average : bool) (version priority : Z) : C Z :=
  name ← declare_group_and_get_name group scope logical_name;
  bps (push_pull_async_inplace t average (Some name) version priority).

Definition byteps_allreduce_inplace (t : tensor) (group : option (gval PG)) (scope logical_name : string)
    (average : bool) (version priority : Z) : C tensor :=
  name ← declare_group_and_get_name group scope logical_name;
  handle ← bps (push_pull_async_inplace t average (Some name) version priority);
  bps (synchronize handle) ;;
  mret t.

(** The tensor types whose names [pre_declare_all_byteps_groups] lists per layer. *)
Definition tp_tensor_types : list string :=
  ["col_parallel_linear_fc1"; "row_parallel_linear_proj"; "col_parallel_linear_qkv"; "row_parallel_linear_fc2"].

(** [if name not in _DECLARED_BPS_GROUPS: bps.declare(...); _DECLARED_BPS_GROUPS[name] = size] *)
Definition pre_declare (size : Z) (name : string) : C unit :=
  s ← getM;
  whenM (is_none (bc_declared s !! name)) (bps (declare name (Some size)) ;; cache_group name size).

(** [tp_tensor_names] and [dp_tensor_names] *)
Definition tp_tensor_names (dp_rank pp_rank cp_rank num_tp_layers : Z) : list string :=
  concat (map (fun layer_idx => map (fun tensor_type =>
    "tp.dp" +:+ str_of_Z dp_rank +:+ ".pp" +:+ str_of_Z pp_rank +:+ ".cp" +:+ str_of_Z cp_rank
    +:+ ".tp_" +:+ tensor_type +:+ "_" +:+ str_of_Z layer_idx) tp_tensor_types) (zrange 0 num_tp_layers)).
Definition dp_tensor_names (tp_rank pp_rank num_dp_buckets : Z) : list string :=
  map (fun bucket_idx => "dp.tp" +:+ str_of_Z tp_rank +:+ ".pp" +:+ str_of_Z pp_rank +:+ ".bucket_"
                         +:+ str_of_Z bucket_idx) (zrange 0 num_dp_buckets).

Definition pre_declare_all_byteps_groups (num_tp_layers num_dp_buckets : Z) (use_dpu_tp use_dpu_dp : bool) : C unit :=
  tp_size ← liftM (get_tensor_model_parallel_world_size ps);
  dp_size ← liftM (get_data_parallel_world_size env false false ps);
  pp_size ← liftM (get_pipeline_model_parallel_world_size ps);
  tp_rank ← liftM (get_tensor_model_parallel_rank env ps);
  dp_rank ← liftM (get_data_parallel_rank env false false ps);
  pp_rank ← liftM (get_pipeline_model_parallel_rank env ps);
  cp_rank ← liftM (get_context_parallel_rank env ps);
  whenM use_dpu_tp (iterM (pre_declare tp_size) (tp_tensor_names dp_rank pp_rank cp_rank num_tp_layers)) ;;
  whenM use_dpu_dp (iterM (pre_declare dp_size) (dp_tensor_names tp_rank pp_rank num_dp_buckets)) ;;
  whenM (de_initialized env)
    (modM (fun s => mkBc (bc_bps s) (bc_declared s) (bc_name_counter s) (bc_barriers s + 1))).

(** [_build_dpu_tp_comm_name] of tensor_parallel/layers.py *)
Definition build_dpu_tp_comm_name (module_kind : string) (tp_comm_buffer_name : option string) : C string :=
  s ← getM;
  modM (fun s => mkBc (bc_bps s) (bc_declared s) (bc_name_counter s + 1) (bc_barriers s)) ;;
  let parts := ["tp"; module_kind]
               ++ (match tp_comm_buffer_name with Some b => if bool_decide (b = "") then [] else [b] | None => [] end)
               ++ [str_of_Z (bc_name_counter s)] in
  mret (String.concat "_" parts).

(** [_bps_reduce] of tensor_parallel/mappings.py: the result is the input for a
    group of one, else what [synchronize] returns. *)
Definition bps_reduce (t : tensor) (group : option (gval PG)) (name : option string) : C (option tensor) :=
  assertM (negb (is_none group)) "group should not be None" ;;
  assertM (negb (is_none name)) "BytePS TP reduce requires a stable op name." ;;
  n ← liftM (call_size group);
  if n =? 1 then mret (Some t)
  else
    handle ← byteps_allreduce_async_inplace t group "tp" (default "" name) false 0 0;
    bps (synchronize handle).
End Collectives.

Example name_rank6 :
  build_byteps_group_name (env8 6) (run8 6).2 "dp" "bucket_0" = Ok "dp.tp0.pp1.bucket_0".
Proof. vm_compute. reflexivity. Qed.

(* ================================================================== *)
(** ** Names                                                           *)
(* ================================================================== *)

Definition dp_name (tp_rank pp_rank : Z) (l : string) : string :=
  "dp.tp" +:+ str_of_Z tp_rank +:+ ".pp" +:+ str_of_Z pp_rank +:+ "." +:+ l.
Definition tp_name (dp_rank pp_rank cp_rank : Z) (l : string) : string :=
  "tp.dp" +:+ str_of_Z dp_rank +:+ ".pp" +:+ str_of_Z pp_rank +:+ ".cp" +:+ str_of_Z cp_rank +:+ "." +:+ l.

Lemma strip_prefix p (a b : string) : p +:+ a = p +:+ b -> a = b.
Proof. intros H. apply (f_equal chars) in H. rewrite !chars_app in H. apply app_inv_head in H. by apply chars_inj. Qed.

Lemma dp_name_inj t p l t' p' l' : dp_name t p l = dp_name t' p' l' <-> t = t' /\ p = p' /\ l = l'.
Proof.
  split; [|by intros (-> & -> & ->)]. unfold dp_name. intros H. apply strip_prefix in H.
  apply (str_of_Z_dot t t') in H as [-> H]. apply (strip_prefix "pp") in H.
  by apply (str_of_Z_dot p p') in H as [-> ->].
Qed.

Lemma tp_name_inj d p c l d' p' c' l' : tp_name d p c l = tp_name d' p' c' l' <-> d = d' /\ p = p' /\ c = c' /\ l = l'.
Proof.
  split; [|by intros (-> & -> & -> & ->)]. unfold tp_name. intros H. apply strip_prefix in H.
  apply (str_of_Z_dot d d') in H as [-> H]. apply (strip_prefix "pp") in H.
  apply (str_of_Z_dot p p') in H as [-> H]. apply (strip_prefix "cp") in H.
  by apply (str_of_Z_dot c c') in H as [-> ->].
Qed.

Section Names.
Context {PG : Type} `{PGI : !ProcessGroup PG} `{EIN : !Einops} (env : dist_env) (a : mp_args).
Context (s0 s' : pstate PG) (Hva : valid_args env a) (Hno : no_overrides s0).
Context (Hrun : initialize_model_parallel env a s0 = (Ok tt, s')).

Lemma built_names : exists gd, decoder_generator env a = Ok gd /\ forall l, l <> "" ->
  build_byteps_group_name env s' "dp" l = Ok (dp_name (coord gd "tp" (de_rank env)) (coord gd "pp" (de_rank env)) l) /\
  build_byteps_group_name env s' "tp" l = Ok (tp_name (coord gd "dp" (de_rank env)) (coord gd "pp" (de_rank env))
                                               (coord gd "cp" (de_rank env)) l).
Proof.
  destruct (getters_after env a s0 s' Hva Hno Hrun) as (gd & gc & gt & Hgd & _ & _ & Etp & Edp & Ecp & Epp & _).
  exists gd. split; [done|]. intros l Hl. unfold build_byteps_group_name.
  rewrite bool_decide_eq_false_2 by done. rewrite Epp. cbn [mbind res_bind].
  split; [by rewrite Etp|by rewrite Edp, Ecp].
Qed.
End Names.

(** (C9) A data-parallel reduction pairs the right ranks.  Two ranks of one job
    compute BytePS names for data-parallel reductions with logical names [l1]
    and [l2]: the names are equal exactly when the logical names are, and the
    second rank is a member of the first one's data-parallel group. *)
Theorem dp_name_iff_same_group {PG} `{!ProcessGroup PG} `{!Einops} env a r1 r2 (s0 s1 s2 : pstate PG) l1 l2 :
  valid_args (at_rank env r1) a -> valid_args (at_rank env r2) a -> no_overrides s0 ->
  num_distributed_optimizer_instances a <= 1 ->
  initialize_model_parallel (at_rank env r1) a s0 = (Ok tt, s1) ->
  initialize_model_parallel (at_rank env r2) a s0 = (Ok tt, s2) -> l1 <> "" -> l2 <> "" ->
  exists n1 n2 k kw, build_byteps_group_name (at_rank env r1) s1 "dp" l1 = Ok n1 /\
    build_byteps_group_name (at_rank env r2) s2 "dp" l2 = Ok n2 /\
    get_data_parallel_group true true s1 = Ok (Some (GOne (new_group k kw))) /\
    (n1 = n2 <-> l1 = l2 /\ r2 ∈ kw_ranks kw).
Proof.
  intros V1 V2 Hno Hn H1 H2 Hl1 Hl2.
  destruct (built_names _ _ _ _ V1 Hno H1) as (g1 & G1 & B1). destruct (B1 l1 Hl1) as [N1 _].
  destruct (built_names _ _ _ _ V2 Hno H2) as (g2 & G2 & B2). destruct (B2 l2 Hl2) as [N2 _].
  change (decoder_generator (at_rank env r2) a) with (decoder_generator (at_rank env r1) a) in G2.
  rewrite G1 in G2. injection G2 as <-.
  destruct (dp_members_aux _ _ _ _ V1 Hno H1 Hn) as (g & k & kw & G & Eg & Hm). rewrite G1 in G. injection G as <-.
  eexists _, _, k, kw. split_and!; [exact N1|exact N2|exact Eg|]. rewrite dp_name_inj, Hm.
  pose proof (va_rank _ _ V2) as Hr. cbn in Hr |- *. naive_solver.
Qed.

Lemma dp_name_iff_same_group_witness :
  exists n1 n2 k kw, build_byteps_group_name (env8 0) (run8 0).2 "dp" "bucket_0" = Ok n1 /\
    build_byteps_group_name (env8 2) (run8 2).2 "dp" "bucket_0" = Ok n2 /\
    get_data_parallel_group true true (run8 0).2 = Ok (Some (GOne (new_group k kw))) /\
    (n1 = n2 <-> "bucket_0" = "bucket_0" /\ 2 ∈ kw_ranks kw).
Proof.
  apply (dp_name_iff_same_group (env8 0) (default_args 2 2 1 2) 0 2 (fresh_state ∅)).
  - apply (env8_valid 0). lia.
  - apply (env8_valid 2). lia.
  - repeat constructor.
  - cbn. lia.
  - vm_compute. reflexivity.
  - vm_compute. reflexivity.
  - done.
  - done.
Defined.

(** A tensor-parallel reduction pairs the right ranks: the names of two ranks
    are equal exactly when the logical names are, and the second rank is in the
    first one's tensor-parallel group. *)
Theorem tp_name_iff_same_group {PG} `{!ProcessGroup PG} `{!Einops} env a r1 r2 (s0 s1 s2 : pstate PG) l1 l2 :
  valid_args (at_rank env r1) a -> valid_args (at_rank env r2) a -> no_overrides s0 ->
  initialize_model_parallel (at_rank env r1) a s0 = (Ok tt, s1) ->
  initialize_model_parallel (at_rank env r2) a s0 = (Ok tt, s2) -> l1 <> "" -> l2 <> "" ->
  exists n1 n2 k kw, build_byteps_group_name (at_rank env r1) s1 "tp" l1 = Ok n1 /\
    build_byteps_group_name (at_rank env r2) s2 "tp" l2 = Ok n2 /\
    get_tensor_model_parallel_group true s1 = Ok (Some (GOne (new_group k kw))) /\
    (n1 = n2 <-> l1 = l2 /\ r2 ∈ kw_ranks kw).
Proof.
  intros V1 V2 Hno H1 H2 Hl1 Hl2.
  destruct (built_names _ _ _ _ V1 Hno H1) as (g1 & G1 & B1). destruct (B1 l1 Hl1) as [_ N1].
  destruct (built_names _ _ _ _ V2 Hno H2) as (g2 & G2 & B2). destruct (B2 l2 Hl2) as [_ N2].
  change (decoder_generator (at_rank env r2) a) with (decoder_generator (at_rank env r1) a) in G2.
  rewrite G1 in G2. injection G2 as <-.
  destruct (tp_members_aux _ _ _ _ V1 Hno H1) as (g & k & kw & G & Eg & Hm). rewrite G1 in G. injection G as <-.
  eexists _, _, k, kw. split_and!; [exact N1|exact N2|exact Eg|]. rewrite tp_name_inj, Hm.
  pose proof (va_rank _ _ V2) as Hr. cbn in Hr |- *. naive_solver.
Qed.

Lemma tp_name_iff_same_group_witness :
  exists n1 n2 k kw, build_byteps_group_name (env8 0) (run8 0).2 "tp" "fc2" = Ok n1 /\
    build_byteps_group_name (env8 5) (run8 5).2 "tp" "fc2" = Ok n2 /\
    get_tensor_model_parallel_group true (run8 0).2 = Ok (Some (GOne (new_group k kw))) /\
    (n1 = n2 <-> "fc2" = "fc2" /\ 5 ∈ kw_ranks kw).
Proof.
  apply (tp_name_iff_same_group (env8 0) (default_args 2 2 1 2) 0 5 (fresh_state ∅)).
  - apply (env8_valid 0). lia.
  - apply (env8_valid 5). lia.
  - repeat constructor.
  - vm_compute. reflexivity.
  - vm_compute. reflexivity.
  - done.
  - done.
Defined.

(** A data-parallel and a tensor-parallel reduction never share a name,
    whatever the states, ranks and logical names. *)
Theorem scopes_disjoint {PG} `{!ProcessGroup PG} env1 env2 (s1 s2 : pstate PG) l1 l2 n1 n2 :
  build_byteps_group_name env1 s1 "dp" l1 = Ok n1 -> build_byteps_group_name env2 s2 "tp" l2 = Ok n2 -> n1 <> n2.
Proof.
  unfold build_byteps_group_name. intros H1 H2.
  destruct (bool_decide (l1 = "")); [discriminate H1|]. destruct (bool_decide (l2 = "")); [discriminate H2|].
  inv_ok. change (bool_decide ("dp" = "dp")) with true in H1. change (bool_decide ("tp" = "dp")) with false in H2.
  change (bool_decide ("tp" = "tp")) with true in H2. cbn beta iota in H1, H2. inv_ok.
  injection H1 as <-. injection H2 as <-. discriminate.
Qed.

Lemma scopes_disjoint_witness : "dp.tp0.pp1.x" <> "tp.dp1.pp1.cp0.x".
Proof.
  apply (scopes_disjoint (env8 6) (env8 6) (run8 6).2 (run8 6).2 "x" "x"); vm_compute; reflexivity.
Defined.

(* ================================================================== *)
(** ** The declaration cache                                           *)
(* ================================================================== *)

(** The Python cache and the library agree: every cached name is registered with
    the cached number, and every registered name is in the cache. *)
Definition cache_ok (s : bc_state) : Prop :=
  (forall name n, bc_declared s !! name = Some n -> name <> "" /\ 0 < n /\ bs_contexts (bc_bps s) !! op_name name = Some n) /\
  (forall k n, bs_contexts (bc_bps s) !! k = Some n -> n <> -1 ->
     exists name, name <> "" /\ k = op_name name /\ bc_declared s !! name = Some n).

Lemma cache_ok_start : cache_ok bc_start.
Proof. split; intros ? ?; cbn; rewrite lookup_empty; done. Qed.

Lemma op_name_inj n1 n2 : n1 <> "" -> n2 <> "" -> op_name n1 = op_name n2 -> n1 = n2.
Proof.
  intros H1 H2. unfold op_name. rewrite !bool_decide_eq_false_2 by done. apply (strip_prefix "byteps.").
Qed.

(** The library states differ at most in their contexts: no handle, no task. *)
Definition same_but_contexts (b b' : bps_state) : Prop :=
  b' = mkBps (bs_initialized b) (bs_last_handle b) (bs_results b) (bs_contexts b') (bs_handle_map b) (bs_next_tensor b) (bs_log b).

(** Registration of a name that the cache does not have. *)
Lemma register_new s name n : cache_ok s -> name <> "" -> 0 < n -> bc_declared s !! name = None ->
  exists s', (bps (declare name (Some n)) ;; cache_group name n) s = (Ok tt, s') /\
    bc_declared s' = <[name := n]> (bc_declared s) /\
    same_but_contexts (bc_bps s) (bc_bps s') /\ cache_ok s'.
Proof.
  intros [C1 C2] Hne Hn Hnone. destruct s as [b d cnt bar]. cbn in *.
  assert (Hctx : default (-1) (bs_contexts b !! op_name name) = -1).
  { destruct (bs_contexts b !! op_name name) as [m|] eqn:E; [|done]. cbn.
    destruct (Z.eq_dec m (-1)) as [|Hm]; [done|]. exfalso.
    destruct (C2 _ _ E Hm) as (name' & Hne' & Hk & Hd). apply op_name_inj in Hk; [|done..]. congruence. }
  unfold declare, c_register_tensor_group, c_declare_tensor, cache_group, bps. m_unfold.
  rewrite (proj2 (Z.ltb_lt 0 n) Hn). cbn [bs_contexts bc_bps].
  assert (Hctx2 : default (-1) ((match bs_contexts b !! op_name name with
      | Some _ => bs_contexts b | None => <[op_name name := -1]> (bs_contexts b) end) !! op_name name) = -1).
  { destruct (bs_contexts b !! op_name name) eqn:E; [by rewrite E|by rewrite lookup_insert_eq]. }
  rewrite Hctx2. cbn. eexists. split; [reflexivity|]. cbn. split_and!; try done.
  set (ctx := match bs_contexts b !! op_name name with
      | Some _ => bs_contexts b | None => <[op_name name := -1]> (bs_contexts b) end).
  assert (Hother : forall k, k <> op_name name -> ctx !! k = bs_contexts b !! k).
  { intros k Hk. unfold ctx. destruct (bs_contexts b !! op_name name); [done|]. by rewrite lookup_insert_ne. }
  split; cbn.
  - intros m k. destruct (decide (m = name)) as [->|Hm].
    + rewrite !lookup_insert_eq. intros [= <-]. done.
    + rewrite lookup_insert_ne by done. intros Hk. destruct (C1 _ _ Hk) as (H1 & H2 & H3). split_and!; try done.
      rewrite lookup_insert_ne by (intros E; apply op_name_inj in E; congruence). rewrite Hother; [done|].
      intros E; apply op_name_inj in E; congruence.
  - intros k m. destruct (decide (k = op_name name)) as [->|Hk].
    + rewrite lookup_insert_eq. intros [= <-] _. exists name. by rewrite lookup_insert_eq.
    + rewrite lookup_insert_ne, Hother by done. intros Hm Hm1. destruct (C2 _ _ Hm Hm1) as (name' & H1 & -> & H3).
      exists name'. rewrite lookup_insert_ne by congruence. done.
Qed.

Lemma declare_cases s name n : cache_ok s -> name <> "" -> 0 < n ->
  match bc_declared s !! name with
  | Some m => declare_and_cache_byteps_group name n s
              = (if m =? n then Ok tt else raise_ RuntimeError "was declared with inconsistent group size", s)
  | None => exists s', declare_and_cache_byteps_group name n s = (Ok tt, s') /\
      bc_declared s' = <[name := n]> (bc_declared s) /\ same_but_contexts (bc_bps s) (bc_bps s') /\ cache_ok s'
  end.
Proof.
  intros Hc Hne Hn. unfold declare_and_cache_byteps_group. destruct (bc_declared s !! name) as [m|] eqn:E.
  - m_unfold. rewrite E. by destruct (m =? n).
  - destruct (register_new s name n Hc Hne Hn E) as (s' & E' & Hs). exists s'. split; [|naive_solver].
    unfold getM. unfold mbind at 1, M_bind at 1. rewrite E. exact E'.
Qed.

(** [declare_and_cache_byteps_group]: a new name is registered once and cached,
    the library's own consistency check never fires; a cached name with the same
    number of workers is left alone; with another number [RuntimeError] is raised
    and nothing changes.  The agreement of cache and library is kept. *)
Theorem declare_and_cache_spec s name n : cache_ok s -> name <> "" -> 0 < n ->
  match bc_declared s !! name with
  | Some m => declare_and_cache_byteps_group name n s
              = (if m =? n then Ok tt else raise_ RuntimeError "was declared with inconsistent group size", s)
  | None => exists s', declare_and_cache_byteps_group name n s = (Ok tt, s') /\
      bc_declared s' = <[name := n]> (bc_declared s) /\ same_but_contexts (bc_bps s) (bc_bps s') /\ cache_ok s'
  end.
Proof. apply declare_cases. Qed.

Lemma declare_and_cache_spec_witness :
  exists s', declare_and_cache_byteps_group "dp.tp0.pp0.bucket_0" 4 bc_start = (Ok tt, s') /\
      bc_declared s' = <["dp.tp0.pp0.bucket_0" := 4]> (bc_declared bc_start) /\
      same_but_contexts (bc_bps bc_start) (bc_bps s') /\ cache_ok s'.
Proof. apply (declare_and_cache_spec bc_start "dp.tp0.pp0.bucket_0" 4); [apply cache_ok_start|discriminate|lia]. Defined.

(** A push under a cached name leaves the library's contexts alone. *)
Lemma push_keeps_cache s name h (b : bps_state) : cache_ok s -> is_Some (bc_declared s !! name) ->
  bs_contexts b = (if bs_contexts (bc_bps s) !! op_name name then bs_contexts (bc_bps s)
                   else <[op_name name := -1]> (bs_contexts (bc_bps s))) ->
  cache_ok (mkBc b (bc_declared s) h (bc_barriers s)).
Proof.
  intros [C1 C2] [n Hn] E. destruct (C1 _ _ Hn) as (_ & _ & Hctx). rewrite Hctx in E. split; cbn; rewrite E; [exact C1|exact C2].
Qed.

(** A state ready for reductions. *)
Definition ready (s : bc_state) : Prop := cache_ok s /\ handles_ok (bc_bps s) /\ bs_initialized (bc_bps s) = true.

Lemma ready_same s s' : ready s -> same_but_contexts (bc_bps s) (bc_bps s') -> cache_ok s' -> ready s'.
Proof. intros (_ & H2 & H3) E Hc. split; [done|]. unfold handles_ok. rewrite E. by split. Qed.

(** A push under a declared name, and the wait for it. *)
Lemma push_and_wait s name t average version priority : ready s -> is_Some (bc_declared s !! name) -> pushable t = true ->
  let h := bs_last_handle (bc_bps s) + 1 in
  exists b2 b3, push_pull_async_inplace t average (Some name) version priority (bc_bps s) = (Ok h, b2) /\ synchronize h b2 = (Ok (Some t), b3) /\
    bs_handle_map b3 = bs_handle_map (bc_bps s) /\ bs_last_handle b3 = h /\
    bs_log b3 = bs_log (bc_bps s) ++ [EvPush h t t average name version priority; EvWait h] /\
    forall c b, ready (mkBc b3 (bc_declared s) c b).
Proof.
  intros (C1 & H1 & I1) Hn Hp h.
  destruct (do_push_pull_async_ok (bc_bps s) t t average (Some name) version priority I1 Hp) as (b2 & E2 & I2 & L2 & R2 & M2 & _ & X2 & G2).
  pose proof (handles_ok_push _ _ t t H1 L2 R2 M2) as H2.
  destruct (synchronize_ok b2 h t t H2) as (b3 & E3 & I3 & L3 & R3 & M3 & X3 & G3); [rewrite M2; apply lookup_insert_eq|].
  exists b2, b3. split_and!; [done|done| |by rewrite L3, L2| |].
  - rewrite M3, M2, delete_insert_eq. apply delete_id. destruct (bs_handle_map (bc_bps s) !! _) eqn:E; [|done].
    apply (proj1 H1) in E. apply (proj2 H1) in E. lia.
  - by rewrite G3, G2, <- app_assoc.
  - intros c b. split_and!; [|by eapply handles_ok_sync|by rewrite <- I2, <- I3].
    apply (push_keeps_cache (mkBc (bc_bps s) (bc_declared s) c b) name); [done|done|]. by rewrite X3, X2.
Qed.

Section Allreduce.
Context {PG : Type} `{!ProcessGroup PG} (env : dist_env) (ps : pstate PG).

Lemma declare_group_ok s g scope l n name :
  ready s -> call_size (Some g) = Ok n -> 0 < n -> build_byteps_group_name env ps scope l = Ok name -> name <> "" ->
  default n (bc_declared s !! name) = n ->
  exists s', declare_group_and_get_name env ps (Some g) scope l s = (Ok name, s') /\
    bc_declared s' = <[name := n]> (bc_declared s) /\ same_but_contexts (bc_bps s) (bc_bps s') /\ ready s'.
Proof.
  intros Hr Hsz Hn Hb Hne Hd. pose proof (declare_cases s name n (proj1 Hr) Hne Hn) as Hc.
  unfold declare_group_and_get_name. m_unfold. cbn [is_none]. rewrite Hsz, Hb.
  destruct (bc_declared s !! name) as [m|] eqn:E.
  - cbn in Hd. subst m. rewrite Z.eqb_refl in Hc. rewrite Hc. exists s.
    split_and!; [done| |by destruct (bc_bps s)|done]. symmetry. by apply insert_id.
  - destruct Hc as (s' & -> & H1 & H2 & H3). exists s'. split_and!; try done. by eapply ready_same.
Qed.

(** Two groups of different sizes under one name. *)
Lemma declare_group_conflict s g scope l n m name :
  cache_ok s -> call_size (Some g) = Ok n -> 0 < n -> build_byteps_group_name env ps scope l = Ok name -> name <> "" ->
  bc_declared s !! name = Some m -> m <> n ->
  declare_group_and_get_name env ps (Some g) scope l s
  = (raise_ RuntimeError "was declared with inconsistent group size", s).
Proof.
  intros Hr Hsz Hn Hb Hne E Hmn. pose proof (declare_cases s name n Hr Hne Hn) as Hc. rewrite E in Hc.
  unfold declare_group_and_get_name. m_unfold. cbn [is_none]. rewrite Hsz, Hb, Hc.
  by rewrite (proj2 (Z.eqb_neq m n) Hmn).
Qed.

Lemma allreduce_inplace_aux s t g scope l average version priority n name :
  ready s -> call_size (Some g) = Ok n -> 0 < n -> build_byteps_group_name env ps scope l = Ok name -> name <> "" ->
  default n (bc_declared s !! name) = n -> pushable t = true ->
  exists s', byteps_allreduce_inplace env ps t (Some g) scope l average version priority s = (Ok t, s') /\
    bc_declared s' = <[name := n]> (bc_declared s) /\
    bs_handle_map (bc_bps s') = bs_handle_map (bc_bps s) /\
    (let h := bs_last_handle (bc_bps s) + 1 in
     bs_log (bc_bps s') = bs_log (bc_bps s) ++ [EvPush h t t average name version priority; EvWait h]) /\
    ready s'.
Proof.
  intros Hr Hsz Hn Hb Hne Hd Hp.
  destruct (declare_group_ok s g scope l n name Hr Hsz Hn Hb Hne Hd) as (s1 & E1 & D1 & Q1 & R1).
  destruct (push_and_wait s1 name t average version priority R1) as (b2 & b3 & E2 & E3 & M3 & _ & G3 & R3); [rewrite D1, lookup_insert_eq; by eexists|done|].
  exists (mkBc b3 (bc_declared s1) (bc_name_counter s1) (bc_barriers s1)). split.
  { unfold byteps_allreduce_inplace, bps, mbind, M_bind. rewrite E1. rewrite E2. cbn [bc_bps]. by rewrite E3. }
  cbn [bc_bps bc_declared]. split_and!; [done| | |apply R3].
  - rewrite M3. by rewrite Q1.
  - cbn zeta. rewrite G3. by rewrite Q1.
Qed.
End Allreduce.

(** [byteps_allreduce_inplace] on a supported tensor and a group whose name is
    new or was declared with the same size: it registers the name with the group's
    size, pushes the tensor under that name, waits for it, and returns the
    tensor; no handle stays pending and the next reduction can start. *)
Theorem byteps_allreduce_inplace_spec {PG} `{!ProcessGroup PG} env (ps : pstate PG) s t g scope l average version priority n name :
  ready s -> call_size (Some g) = Ok n -> 0 < n -> build_byteps_group_name env ps scope l = Ok name -> name <> "" ->
  default n (bc_declared s !! name) = n -> pushable t = true ->
  exists s', byteps_allreduce_inplace env ps t (Some g) scope l average version priority s = (Ok t, s') /\
    bc_declared s' = <[name := n]> (bc_declared s) /\
    bs_handle_map (bc_bps s') = bs_handle_map (bc_bps s) /\
    (let h := bs_last_handle (bc_bps s) + 1 in
     bs_log (bc_bps s') = bs_log (bc_bps s) ++ [EvPush h t t average name version priority; EvWait h]) /\
    ready s'.
Proof. intros. by apply allreduce_inplace_aux. Qed.

Lemma ready_start : ready bc_start.
Proof. split; [apply cache_ok_start|]. split; [apply handles_ok_start|reflexivity]. Qed.

(** The intra-partial data-parallel group of rank 6. *)
Definition dp_group6 : gval (nat * new_group_kwargs) :=
  match get_data_parallel_group true true (run8 6).2 with Ok (Some g) => g | _ => GMany [] end.

Lemma byteps_allreduce_inplace_spec_witness :
  exists s', byteps_allreduce_inplace (env8 6) (run8 6).2 (float_tensor 3) (Some dp_group6) "dp" "bucket_0" false 0 0 bc_start
             = (Ok (float_tensor 3), s') /\
    bc_declared s' = <["dp.tp0.pp1.bucket_0" := 2]> (bc_declared bc_start) /\
    bs_handle_map (bc_bps s') = bs_handle_map (bc_bps bc_start) /\
    (let h := bs_last_handle (bc_bps bc_start) + 1 in
     bs_log (bc_bps s') = bs_log (bc_bps bc_start) ++
       [EvPush h (float_tensor 3) (float_tensor 3) false "dp.tp0.pp1.bucket_0" 0 0; EvWait h]) /\
    ready s'.
Proof.
  apply (byteps_allreduce_inplace_spec (env8 6) (run8 6).2).
  - apply ready_start.
  - vm_compute. reflexivity.
  - lia.
  - vm_compute. reflexivity.
  - discriminate.
  - reflexivity.
  - vm_compute. reflexivity.
Defined.

(** One name for two groups of different sizes is an error: the second reduction
    raises [RuntimeError] before anything is pushed, and the state is unchanged. *)
Theorem name_reuse_raises {PG} `{!ProcessGroup PG} env (ps : pstate PG) s t g scope l average version priority n m name :
  ready s -> call_size (Some g) = Ok n -> 0 < n -> build_byteps_group_name env ps scope l = Ok name -> name <> "" ->
  bc_declared s !! name = Some m -> m <> n ->
  byteps_allreduce_async_inplace env ps t (Some g) scope l average version priority s
  = (raise_ RuntimeError "was declared with inconsistent group size", s).
Proof.
  intros Hr Hsz Hn Hb Hne E Hmn. unfold byteps_allreduce_async_inplace, mbind, M_bind.
  by rewrite (declare_group_conflict env ps s g scope l n m name (proj1 Hr)).
Qed.

(** A state in which the first data-parallel bucket of rank 6 was declared for four workers. *)
Definition declared4 : bc_state :=
  (declare_and_cache_byteps_group "dp.tp0.pp1.bucket_0" 4 bc_start).2.

Lemma declared4_ready : ready declared4.
Proof.
  unfold declared4. destruct (declare_cases bc_start "dp.tp0.pp1.bucket_0" 4 cache_ok_start) as (s' & E & _ & Q & C);
    [discriminate|lia|]. rewrite E. by apply (ready_same _ _ ready_start).
Qed.

Lemma name_reuse_raises_witness :
  byteps_allreduce_async_inplace (env8 6) (run8 6).2 (float_tensor 3) (Some dp_group6) "dp" "bucket_0" false 0 0 declared4
  = (raise_ RuntimeError "was declared with inconsistent group size", declared4).
Proof.
  apply (name_reuse_raises (env8 6) (run8 6).2 declared4 _ _ _ _ _ _ _ 2 4 "dp.tp0.pp1.bucket_0").
  - apply declared4_ready.
  - vm_compute. reflexivity.
  - lia.
  - vm_compute. reflexivity.
  - discriminate.
  - vm_compute. reflexivity.
  - lia.
Defined.

(* ================================================================== *)
(** ** Pre-declaration                                                 *)
(* ================================================================== *)

Lemma pre_declare_ok size name s : ready s -> name <> "" -> 0 < size ->
  exists s', pre_declare size name s = (Ok tt, s') /\ ready s' /\
    bc_declared s' !! name = Some (default size (bc_declared s !! name)) /\
    (forall m, m <> name -> bc_declared s' !! m = bc_declared s !! m).
Proof.
  intros Hr Hne Hs. unfold pre_declare. unfold getM. unfold mbind at 1, M_bind at 1.
  destruct (bc_declared s !! name) as [m|] eqn:E; cbn [is_none whenM].
  - exists s. by rewrite E.
  - destruct (register_new s name size (proj1 Hr) Hne Hs E) as (s' & E' & D & Q & C). exists s'. split; [exact E'|].
    rewrite D. split; [by eapply ready_same|]. split; [apply lookup_insert_eq|]. intros m Hm. by rewrite lookup_insert_ne.
Qed.

(** After the loop every listed name is declared, with the size it had before if any. *)
Lemma pre_declare_loop size names s : ready s -> Forall (fun n => n <> "") names -> 0 < size ->
  exists s', iterM (pre_declare size) names s = (Ok tt, s') /\ ready s' /\
    (forall m, m ∈ names -> bc_declared s' !! m = Some (default size (bc_declared s !! m))) /\
    (forall m, m ∉ names -> bc_declared s' !! m = bc_declared s !! m).
Proof.
  intros Hr Hn Hs. revert s Hr. induction Hn as [|n names Hne _ IH]; intros s Hr.
  - exists s. split; [done|]. split; [done|]. split; [set_solver|done].
  - destruct (pre_declare_ok size n s Hr Hne Hs) as (s1 & E1 & R1 & D1 & O1).
    destruct (IH s1 R1) as (s2 & E2 & R2 & D2 & O2). exists s2. split.
    { cbn. unfold mbind, M_bind. by rewrite E1. }
    split; [done|]. split.
    + intros m Hm. destruct (decide (m ∈ names)) as [Hin|Hout].
      * rewrite D2 by done. destruct (decide (m = n)) as [->|]; [by rewrite D1|by rewrite O1].
      * rewrite O2 by done. replace m with n by set_solver. done.
    + intros m [Hm1 Hm2]%not_elem_of_cons. by rewrite O2, O1.
Qed.

Lemma append_nonempty c s1 s2 : String c s1 +:+ s2 <> "".
Proof. discriminate. Qed.

Section Predeclare.
Context {PG : Type} `{PGI : !ProcessGroup PG} `{EIN : !Einops} (env : dist_env) (a : mp_args).
Context (s0 ps : pstate PG) (Hva : valid_args env a) (Hno : no_overrides s0).
Context (Hrun : initialize_model_parallel env a s0 = (Ok tt, ps)).
Let dp := de_world_size env / model_size a.

(** What pre-declaration leaves for the data-parallel buckets. *)
Lemma predeclared_buckets layers buckets use_tp : exists s1 gd,
  pre_declare_all_byteps_groups env ps layers buckets use_tp true bc_start = (Ok tt, s1) /\ ready s1 /\
  decoder_generator env a = Ok gd /\
  forall i, 0 <= i < buckets ->
    bc_declared s1 !! dp_name (coord gd "tp" (de_rank env)) (coord gd "pp" (de_rank env)) ("bucket_" +:+ str_of_Z i) = Some dp.
Proof.
  destruct (getters_after env a s0 ps Hva Hno Hrun)
    as (gd & gc & gt & Hgd & _ & Hdp & Etp & Edp & Ecp & Epp & Stp & Sdp & _ & Spp & _).
  pose proof (va_tp _ _ Hva) as Htp. unfold pre_declare_all_byteps_groups.
  unfold liftM. unfold mbind, M_bind. rewrite Stp, Sdp, Spp, Etp, Edp, Epp, Ecp. fold dp in Hdp |- *.
  set (tns := tp_tensor_names _ _ _ _). set (dns := dp_tensor_names _ _ _).
  assert (H1 : exists s1, whenM use_tp (iterM (pre_declare (tensor_model_parallel_size a)) tns) bc_start = (Ok tt, s1) /\
    ready s1 /\ forall m, m ∉ tns -> bc_declared s1 !! m = None).
  { destruct use_tp; [|exists bc_start; split; [done|]; split; [apply ready_start|]; intros; apply lookup_empty].
    destruct (pre_declare_loop (tensor_model_parallel_size a) tns bc_start ready_start) as (s1 & E & R & _ & O); [|done|].
    - apply Forall_forall. intros m Hm. unfold tns, tp_tensor_names in Hm.
      rewrite list_elem_of_In, in_concat in Hm. destruct Hm as (l & Hl & Hm). apply in_map_iff in Hl as (i & <- & _).
      apply in_map_iff in Hm as (ty & <- & _). discriminate.
    - exists s1. split; [done|]. split; [done|]. intros m Hm. rewrite O by done. apply lookup_empty. }
  destruct H1 as (s1 & -> & R1 & O1).
  destruct (pre_declare_loop dp dns s1 R1) as (s2 & E2 & R2 & D2 & _); [|done|].
  { apply Forall_forall. intros m Hm. unfold dns, dp_tensor_names in Hm.
    apply list_elem_of_fmap in Hm as (i & -> & _). discriminate. }
  cbn [whenM]. rewrite E2.
  set (s3 := if de_initialized env then mkBc (bc_bps s2) (bc_declared s2) (bc_name_counter s2) (bc_barriers s2 + 1) else s2).
  exists s3, gd. split_and!; [unfold s3, whenM, modM; by destruct (de_initialized env)| |done|].
  - unfold s3. destruct (de_initialized env); exact R2.
  - intros i Hi. replace (bc_declared s3) with (bc_declared s2) by (unfold s3; by destruct (de_initialized env)).
    rewrite D2; [rewrite O1; [done|]|].
    + unfold tns, tp_tensor_names. rewrite list_elem_of_In, in_concat. intros (l & Hl & Hm).
      apply in_map_iff in Hl as (k & <- & _). apply in_map_iff in Hm as (ty & Hty & _). discriminate Hty.
    + unfold dns, dp_tensor_names. apply list_elem_of_fmap. exists i. split; [done|]. by apply elem_of_zrange.
Qed.

(** The group that gradients are reduced over, and its size. *)
Lemma dp_group_size : num_distributed_optimizer_instances a <= 1 -> exists g,
  get_data_parallel_group true true ps = Ok (Some g) /\ call_size (Some g) = Ok (dp * context_parallel_size a).
Proof.
  intros Hn. destruct (getters_after env a s0 ps Hva Hno Hrun)
    as (gd & gc & gt & Hgd & Hw & Hdp & _ & _ & _ & _ & _ & _ & _ & _ & _ & _ & Hh & Ha & _).
  specialize (Hh Hn). pose proof (va_rank _ _ Hva) as Hr. rewrite <- Hw in Hr.
  pose proof (has_group_size env _ _ _ _ _ _ _ Hgd (va_order _ _ Hva) (decoder_sizes _ _ Hva Hdp) Hr
    _ "dp-cp" gc ps ltac:(known_token) ltac:(not_in) Ha Hh) as Hs.
  pose proof (read_has_group _ _ "Intra partial data parallel group is not initialized" _ Hh) as Hrd.
  destruct Hh as (n & kw & E & _). rewrite E in Hs, Hrd. exists (GOne (new_group n kw)).
  split; [exact Hrd|]. rewrite Hs. f_equal.
  transitivity (dp * (context_parallel_size a * 1)); [reflexivity|lia].
Qed.
End Predeclare.

(** [pre_declare_all_byteps_groups] announces every data-parallel bucket with
    the data-parallel size alone, while the reduction of the bucket declares the
    group with context parallelism included: with a context-parallel size above
    one, the first reduction of a pre-declared bucket raises [RuntimeError]. *)
Theorem predeclared_bucket_conflict {PG} `{!ProcessGroup PG} `{!Einops} env a (s0 ps : pstate PG) layers buckets use_tp i
    t average version priority :
  valid_args env a -> no_overrides s0 -> initialize_model_parallel env a s0 = (Ok tt, ps) ->
  num_distributed_optimizer_instances a <= 1 -> 1 < context_parallel_size a -> 0 <= i < buckets ->
  exists s1 g, pre_declare_all_byteps_groups env ps layers buckets use_tp true bc_start = (Ok tt, s1) /\
    get_data_parallel_group true true ps = Ok (Some g) /\
    byteps_allreduce_async_inplace env ps t (Some g) "dp" ("bucket_" +:+ str_of_Z i) average version priority s1
    = (raise_ RuntimeError "was declared with inconsistent group size", s1).
Proof.
  intros Hva Hno Hrun Hn Hcp Hi.
  destruct (predeclared_buckets env a s0 ps Hva Hno Hrun layers buckets use_tp) as (s1 & gd & E1 & R1 & Hgd & D1).
  destruct (dp_group_size env a s0 ps Hva Hno Hrun Hn) as (g & Eg & Hs).
  destruct (built_names env a s0 ps Hva Hno Hrun) as (gd' & Hgd' & Hb). rewrite Hgd in Hgd'. injection Hgd' as <-.
  destruct (Hb ("bucket_" +:+ str_of_Z i)) as [Hname _]; [discriminate|].
  destruct (initialize_groups env a Hva s0 ps Hrun) as (_ & _ & _ & _ & _ & _ & Hdp & _).
  exists s1, g. split_and!; [done|done|]. unfold byteps_allreduce_async_inplace, mbind, M_bind.
  erewrite (declare_group_conflict env ps s1 g "dp"); [done|apply R1|exact Hs|nia|exact Hname|discriminate|by apply D1|nia].
Qed.

(** Eight ranks with context parallelism two. *)
Definition run8cp (rank : Z) : res unit * pstate (nat * new_group_kwargs) :=
  initialize_model_parallel (env8 rank) (default_args 2 1 2 1) (fresh_state ∅).

Lemma predeclared_bucket_conflict_witness :
  exists s1 g, pre_declare_all_byteps_groups (env8 3) (run8cp 3).2 2 4 true true bc_start = (Ok tt, s1) /\
    get_data_parallel_group true true (run8cp 3).2 = Ok (Some g) /\
    byteps_allreduce_async_inplace (env8 3) (run8cp 3).2 (float_tensor 0) (Some g) "dp" ("bucket_" +:+ str_of_Z 1) false 0 0 s1
    = (raise_ RuntimeError "was declared with inconsistent group size", s1).
Proof.
  apply (predeclared_bucket_conflict (env8 3) (default_args 2 1 2 1) (fresh_state ∅) (run8cp 3).2).
  - split; cbn; first [lia|done|not_in].
  - repeat constructor.
  - vm_compute. reflexivity.
  - cbn. lia.
  - cbn. lia.
  - lia.
Defined.
