(* ===== verification/GradBuffer.v ===== *)
(** * Parameter and gradient buffers

    [_ParamAndGradBuffer] and [_ParamAndGradBucket] of
    [megatron/core/distributed/param_and_grad_buffer.py]: the layout of the
    parameters in one contiguous buffer, its division into padded buckets, the
    second pass that maps parameters to views and creates the buckets, and
    [shard_buffer].

    A tensor that is a view of the buffer is its index range; the values in the
    buffer are not modelled.  Sizes are Python integers, padding goes through
    binary64 as in [_pad]. *)

From S2P Require Import Prelude PyFloat.

(** [DistributedDataParallelConfig], the fields that the modelled code reads. *)
Record ddp_config := mkDdp {
  use_dpu_reduce : bool;
  grad_reduce_in_fp32 : bool;
  overlap_grad_reduce : bool;
  overlap_param_gather : bool;
  align_param_gather : bool;
  use_distributed_optimizer : bool;
  num_instances : Z;
  check_for_nan_in_grad : bool;
  check_for_large_grads : bool;
  bucket_size : option Z;
  pad_buckets_for_high_nccl_busbw : bool;
  average_in_collective : bool;
  fp8_param_gather : bool;
  reuse_grad_buf_for_mxfp8_param_ag : bool;
  nccl_ub : bool;
  delay_wgrad_compute : bool
}.

#[export] Instance ddp_config_eq_dec : EqDecision ddp_config.
Proof. solve_decision. Defined.

(** The defaults of the dataclass. *)
Definition default_ddp : ddp_config :=
  mkDdp false false false false false false 1 false false None false false false false false false.

(** [__post_init__], with the words of PYTORCH_CUDA_ALLOC_CONF. *)
Definition ddp_config_post_init (cfg : ddp_config) (alloc_conf : string) : res unit :=
  (if reuse_grad_buf_for_mxfp8_param_ag cfg
   then assert_ (fp8_param_gather cfg) "Reuse grad buffer only when keeping params in MXFP8." else mret tt) ;;
  if nccl_ub cfg && bool_decide ("expandable_segments:True" ∈ py_split "," alloc_conf)
  then raise_ ValueError "PYTORCH_CUDA_ALLOC_CONF=expandable_segments:True is currently not supported" else mret tt.

(** Data types of parameters and gradients. *)
Inductive dtype := Float32 | Float16 | BFloat16 | UInt8.

#[export] Instance dtype_eq_dec : EqDecision dtype.
Proof. solve_decision. Defined.

(** A parameter: its identity, its number of elements, the attributes read here. *)
Record param := mkParam {
  p_id : Z;
  p_numel : Z;
  p_shared_embedding : bool;
  p_mxfp8 : bool;
  p_float8 : bool;
  p_data_is_base : bool
}.

#[export] Instance param_eq_dec : EqDecision param.
Proof. solve_decision. Defined.

(** [BufferType] and a view [buffer[start:end]]. *)
Inductive buffer_type := PARAM | GRAD.

Record view := mkView { v_type : buffer_type; v_start : Z; v_end : Z }.

(** [_ParamAndGradBucket] *)
Record bucket := mkBucket {
  b_params : list param;
  b_param_data : option view;
  b_grad_data : view;
  b_offset : Z;
  b_numel_unpadded : Z;
  b_gradient_scaling_factor : f64;
  b_id : Z;
  b_param_to_index : list (Z * (Z * Z))
}.

(** The loop over [params] in the bucket's constructor. *)
Fixpoint bucket_index (offset : Z) (params : list param) : list (Z * (Z * Z)) :=
  match params with
  | [] => []
  | p :: params => (p_id p, (offset, offset + p_numel p)) :: bucket_index (offset + p_numel p) params
  end.

(** [_ParamAndGradBucket.__init__]: the parameters have to be distinct. *)
Definition bucket_init (params : list param) (param_data : option view) (grad_data : view)
    (offset numel_unpadded : Z) (scaling : f64) (id : Z) : res bucket :=
  assert_ (bool_decide (NoDup (map p_id params))) "len(self.params_list) == len(self.params)" ;;
  mret (mkBucket params param_data grad_data offset numel_unpadded scaling id (bucket_index 0 params)).

(** [shard_buffer]: the index ranges of the shards of a buffer of [numel] elements. *)
Definition shard_buffer (numel data_parallel_world_size : Z) : res (list (Z * Z)) :=
  m ← pymod numel data_parallel_world_size;
  assert_ (m =? 0) "buffer.numel() % data_parallel_world_size == 0" ;;
  shard_size ← floordiv numel data_parallel_world_size;
  mret (map (fun r => (r * shard_size, (r + 1) * shard_size)) (zrange 0 data_parallel_world_size)).

(** [_pad] *)
Definition pad (number_to_be_padded divisor : Z) : res Z :=
  q ← truediv number_to_be_padded divisor;
  c ← ceil_of_float q;
  mret (c * divisor).

(** The divisor of [_pad_end_of_bucket_if_needed]. *)
Definition bucket_size_divisor (cfg : ddp_config) (dp : Z) : Z :=
  if pad_buckets_for_high_nccl_busbw cfg then Z.lcm (Z.lcm dp 128) (2 ^ 16) else Z.lcm dp 128.

Definition pad_end_of_bucket_if_needed (cfg : ddp_config) (dp : Z) (bucket_end_index : Z) : res Z :=
  if use_distributed_optimizer cfg then pad bucket_end_index (bucket_size_divisor cfg dp) else mret bucket_end_index.
Definition pad_start_of_param_if_needed (cfg : ddp_config) (param_start_index : Z) : res Z :=
  if use_distributed_optimizer cfg then pad param_start_index 64 else mret param_start_index.

(** *** First pass *)

(** The variables of the first loop: [param_start_index], [bucket_start_index],
    [len(bucket_params)], [bucket_indices], [per_bucket_numel_unpadded],
    [bucket_id], [param_index_map], and [param_end_index] and
    [bucket_end_index], which have no value before their first assignment. *)
Record layout := mkLayout {
  y_param_start : Z;
  y_bucket_start : Z;
  y_bucket_params : list param;
  y_bucket_indices : list (Z * Z);
  y_unpadded : list Z;
  y_bucket_id : Z;
  y_index_map : gmap Z (Z * Z * Z);
  y_param_end : option Z;
  y_bucket_end : option Z
}.

Definition layout_start : layout := mkLayout 0 0 [] [] [] 0 ∅ None None.

(** [_update_bucket_metadata], which returns the bucket's end. *)
Definition update_bucket_metadata (cfg : ddp_config) (dp : Z) (param_end_index : Z) (y : layout) : res (Z * layout) :=
  bucket_end_index ← pad_end_of_bucket_if_needed cfg dp param_end_index;
  mret (bucket_end_index,
        mkLayout (y_param_start y) bucket_end_index [] (y_bucket_indices y ++ [(y_bucket_start y, bucket_end_index)])
          (y_unpadded y ++ [param_end_index - y_bucket_start y]) (y_bucket_id y + 1) (y_index_map y)
          (y_param_end y) (y_bucket_end y)).

Definition does_param_require_new_bucket (cfg : ddp_config) (p : param) : bool :=
  p_shared_embedding p && use_distributed_optimizer cfg.

(** [bucket_size is not None and ... >= bucket_size] *)
Definition bucket_full (bucket_size : option Z) (size : Z) : bool :=
  match bucket_size with Some n => n <=? size | None => false end.

(** One round of the first loop. *)
Definition layout_step (cfg : ddp_config) (dp : Z) (bucket_size : option Z) (y : layout) (p : param) : res layout :=
  start ← pad_start_of_param_if_needed cfg (y_param_start y);
  before ← (if does_param_require_new_bucket cfg p && (0 <? Z.of_nat (length (y_bucket_params y)))
            then update_bucket_metadata cfg dp start y else mret (start, y));
  let '(start, y) := before in
  let param_end := start + p_numel p in
  let y := mkLayout start (y_bucket_start y) (y_bucket_params y ++ [p]) (y_bucket_indices y) (y_unpadded y)
             (y_bucket_id y) (<[p_id p := (start, param_end, y_bucket_id y)]> (y_index_map y))
             (Some param_end) (y_bucket_end y) in
  if bucket_full bucket_size (param_end - y_bucket_start y) || does_param_require_new_bucket cfg p then
    after ← update_bucket_metadata cfg dp param_end y;
    let '(bucket_end, y) := after in
    mret (mkLayout bucket_end (y_bucket_start y) (y_bucket_params y) (y_bucket_indices y) (y_unpadded y)
            (y_bucket_id y) (y_index_map y) (y_param_end y) (Some bucket_end))
  else
    mret (mkLayout param_end (y_bucket_start y) (y_bucket_params y) (y_bucket_indices y) (y_unpadded y)
            (y_bucket_id y) (y_index_map y) (y_param_end y) (y_bucket_end y)).

(** The remaining bucket, after the loop. *)
Definition close_last_bucket (cfg : ddp_config) (dp : Z) (y : layout) : res layout :=
  if 0 <? Z.of_nat (length (y_bucket_params y)) then
    match y_param_end y with
    | None => raise_ NameError "param_end_index"
    | Some e =>
        after ← update_bucket_metadata cfg dp e y;
        let '(bucket_end, y) := after in
        mret (mkLayout (y_param_start y) (y_bucket_start y) (y_bucket_params y) (y_bucket_indices y)
                (y_unpadded y) (y_bucket_id y) (y_index_map y) (y_param_end y) (Some bucket_end))
    end
  else mret y.

(** The whole first pass; the result also has [numel] and [numel_unpadded]. *)
Definition compute_layout (cfg : ddp_config) (dp : Z) (bucket_size : option Z) (params : list param)
    : res (layout * Z * Z) :=
  y ← foldR (layout_step cfg dp bucket_size) layout_start (reverse params);
  y ← close_last_bucket cfg dp y;
  match y_bucket_end y with
  | None => raise_ NameError "bucket_end_index"
  | Some numel =>
      let numel_unpadded := zsum (y_unpadded y) in
      assert_ (numel_unpadded <=? numel) "self.numel_unpadded <= self.numel" ;;
      (if use_distributed_optimizer cfg
       then m ← pymod numel dp; assert_ (m =? 0) "self.numel % self.data_parallel_world_size == 0"
       else assert_ (numel =? numel_unpadded) "self.numel == self.numel_unpadded") ;;
      mret (y, numel, numel_unpadded)
  end.

(** *** Second pass *)

(** The buffer object: what the constructor fills in. *)
Record buffer := mkBuffer {
  bf_cfg : ddp_config;
  bf_param_dtype : dtype;
  bf_grad_dtype : dtype;
  bf_params : list param;
  bf_dp : Z;
  bf_scaling : f64;
  bf_numel : Z;
  bf_numel_unpadded : Z;
  bf_bucket_indices : list (Z * Z);
  bf_index_map : gmap Z (Z * Z * Z);
  bf_param_numel : option Z;
  bf_buckets : list bucket;
  bf_param_to_bucket : gmap Z Z;
  bf_data : gmap Z view;
  bf_main_grad : gmap Z view
}.

(** [_get]: a view of [n] elements from [start] on. *)
Definition get_view (bf : buffer) (n start : Z) (ty : buffer_type) : res view :=
  let end_ := start + n in
  assert_ (end_ <=? bf_numel bf) "Requested tensor is out of buffer range" ;;
  match ty with
  | PARAM => assert_ (negb (is_none (bf_param_numel bf))) "self.param_data is not None" ;; mret (mkView PARAM start end_)
  | GRAD => mret (mkView GRAD start end_)
  end.

(** The buffer is updated in four fields only. *)
Definition with_buckets (bf : buffer) (bs : list bucket) (m : gmap Z Z) : buffer :=
  mkBuffer (bf_cfg bf) (bf_param_dtype bf) (bf_grad_dtype bf) (bf_params bf) (bf_dp bf) (bf_scaling bf) (bf_numel bf)
    (bf_numel_unpadded bf) (bf_bucket_indices bf) (bf_index_map bf) (bf_param_numel bf) bs m (bf_data bf) (bf_main_grad bf).
Definition with_views (bf : buffer) (d g : gmap Z view) : buffer :=
  mkBuffer (bf_cfg bf) (bf_param_dtype bf) (bf_grad_dtype bf) (bf_params bf) (bf_dp bf) (bf_scaling bf) (bf_numel bf)
    (bf_numel_unpadded bf) (bf_bucket_indices bf) (bf_index_map bf) (bf_param_numel bf) (bf_buckets bf)
    (bf_param_to_bucket bf) d g.

(** [_new_bucket], which also fills [param_to_bucket]. *)
Definition new_bucket (bf : buffer) (bucket_params : list param) (start_index end_index numel_unpadded bucket_id : Z)
    : res (bucket * buffer) :=
  (if use_distributed_optimizer (bf_cfg bf) then
     m1 ← pymod start_index (bf_dp bf); assert_ (m1 =? 0) "start_index % self.data_parallel_world_size == 0" ;;
     m2 ← pymod end_index (bf_dp bf); assert_ (m2 =? 0) "end_index % self.data_parallel_world_size == 0"
   else mret tt) ;;
  planned ← py_get (bf_bucket_indices bf) bucket_id;
  assert_ (bool_decide ((start_index, end_index) = planned)) "(start_index, end_index) == self.bucket_indices[bucket_id]" ;;
  bucketed_param_data ← (if is_none (bf_param_numel bf) then mret None
                         else Some <$> get_view bf (end_index - start_index) start_index PARAM);
  bucketed_grad_data ← get_view bf (end_index - start_index) start_index GRAD;
  b ← bucket_init bucket_params bucketed_param_data bucketed_grad_data start_index numel_unpadded (bf_scaling bf) bucket_id;
  m ← foldR (fun (m : gmap Z Z) p =>
        assert_ (is_none (m !! p_id p)) "bucket_param not in self.param_to_bucket" ;;
        mret (<[p_id p := bucket_id]> m)) (bf_param_to_bucket bf) bucket_params;
  mret (b, with_buckets bf (bf_buckets bf) m).

(** The variables of the second loop. *)
Record mapping := mkMapping {
  g_buffer : buffer;
  g_bucket_params : list param;
  g_bucket_start : Z;
  g_cur_bucket_id : Z;
  g_param_end : option Z
}.

(** [self.buckets.append(self._new_bucket(...))] for the bucket [cur_bucket_id]. *)
Definition close_bucket (unpadded : list Z) (end_index : Z) (g : mapping) : res buffer :=
  n ← py_get unpadded (g_cur_bucket_id g);
  r ← new_bucket (g_buffer g) (g_bucket_params g) (g_bucket_start g) end_index n (g_cur_bucket_id g);
  let '(b, bf) := r in
  mret (with_buckets bf (bf_buckets bf ++ [b]) (bf_param_to_bucket bf)).

(** [param.data] moves into the buffer: the old data must own its storage,
    except for a float8 tensor, whose storage is replaced in place. *)
Definition map_param_data (bf : buffer) (p : param) (start : Z) : res buffer :=
  if negb (reuse_grad_buf_for_mxfp8_param_ag (bf_cfg bf)) && negb (is_none (bf_param_numel bf)) then
    v ← get_view bf (p_numel p) start PARAM;
    (if p_float8 p then mret tt else assert_ (p_data_is_base p) "old_param_data._base is None") ;;
    mret (with_views bf (<[p_id p := v]> (bf_data bf)) (bf_main_grad bf))
  else mret bf.

(** One round of the second loop. *)
Definition mapping_step (unpadded : list Z) (g : mapping) (p : param) : res mapping :=
  let bf := g_buffer g in
  match bf_index_map bf !! p_id p with
  | None => raise_ KeyError "param_index_map"
  | Some (start, end_, bucket_id) =>
      bf ← map_param_data bf p start;
      v ← get_view bf (p_numel p) start GRAD;
      let bf := with_views bf (bf_data bf) (<[p_id p := v]> (bf_main_grad bf)) in
      if negb (bucket_id =? g_cur_bucket_id g) then
        bucket_end ← pad_end_of_bucket_if_needed (bf_cfg bf) (bf_dp bf) start;
        bf ← close_bucket unpadded bucket_end
               (mkMapping bf (g_bucket_params g) (g_bucket_start g) (g_cur_bucket_id g) (g_param_end g));
        assert_ (g_cur_bucket_id g + 1 =? Z.of_nat (length (bf_buckets bf))) "cur_bucket_id + 1 == len(self.buckets)" ;;
        assert_ (bucket_id =? g_cur_bucket_id g + 1) "bucket_id == cur_bucket_id + 1" ;;
        mret (mkMapping bf [p] bucket_end bucket_id (Some end_))
      else
        mret (mkMapping bf (g_bucket_params g ++ [p]) (g_bucket_start g) (g_cur_bucket_id g) (Some end_))
  end.

(** Elements of [param_data], when there is one: a distributed optimizer has it,
    and for MXFP8 parameters it is a view of the gradient storage. *)
Definition param_storage (cfg : ddp_config) (grad_dtype : dtype) (params : list param) (numel : Z) : res (option Z) :=
  if use_distributed_optimizer cfg then
    if existsb p_mxfp8 params && bool_decide (grad_dtype = Float32) then
      q ← truediv numel 2; c ← ceil_of_float q; mret (Some (2 * Z.min c numel))
    else mret (Some numel)
  else mret None.

(** [_ParamAndGradBuffer.__init__], with the groups given; logging is left out. *)
Definition buffer_init (cfg : ddp_config) (param_dtype grad_dtype : dtype) (params : list param) (dp : Z)
    (bucket_size : option Z) (scaling : f64) : res buffer :=
  assert_ (bool_decide (NoDup (map p_id params))) "param not in unique_params" ;;
  lay ← compute_layout cfg dp bucket_size params;
  let '(y, numel, numel_unpadded) := lay in
  param_numel ← param_storage cfg grad_dtype params numel;
  let bf := mkBuffer cfg param_dtype grad_dtype params dp scaling numel numel_unpadded (y_bucket_indices y)
              (y_index_map y) param_numel [] ∅ ∅ ∅ in
  g ← foldR (mapping_step (y_unpadded y)) (mkMapping bf [] 0 0 None) (reverse params);
  if 0 <? Z.of_nat (length (g_bucket_params g)) then
    match g_param_end g with
    | None => raise_ NameError "param_end_index"
    | Some e =>
        bucket_end ← pad_end_of_bucket_if_needed cfg dp e;
        close_bucket (y_unpadded y) bucket_end g
    end
  else mret (g_buffer g).

Definition ex_params : list param :=
  [mkParam 0 100 true false false true; mkParam 1 70 false false false true; mkParam 2 300 false false false true;
   mkParam 3 5 false false false true].
Definition distopt_cfg : ddp_config :=
  mkDdp false false false false false true 1 false false None false false false false false false.

Example layout_ex :
  (bf ← buffer_init distopt_cfg BFloat16 Float32 ex_params 3 (Some 200) f64_one;
   mret (bf_numel bf, map (fun b => (b_offset b, v_end (b_grad_data b), map p_id (b_params b))) (bf_buckets bf)))
  = Ok (1152, [(0, 384, [3; 2]); (384, 768, [1]); (768, 1152, [0])]).
Proof. vm_compute. reflexivity. Qed.
Example layout_plain_ex :
  (bf ← buffer_init default_ddp BFloat16 Float32 ex_params 3 (Some 200) f64_one;
   mret (bf_numel bf, map (fun b => (b_offset b, v_end (b_grad_data b), map p_id (b_params b))) (bf_buckets bf)))
  = Ok (475, [(0, 305, [3; 2]); (305, 475, [1; 0])]).
Proof. vm_compute. reflexivity. Qed.
