(* ===== verification/GradBufferProofs.v ===== *)
(** * The buffer layout is sound

    The two passes of [_ParamAndGradBuffer.__init__] agree: for every list of
    distinct parameters (within the range in which binary64 padding is exact)
    the constructor returns, none of its assertions fails, the buckets tile the
    buffer, every parameter has its own aligned range inside its bucket, and
    every bucket can be sharded evenly over the data-parallel group. *)

From Stdlib Require Import Sorted.
From S2P Require Import Prelude PyFloat GradBuffer.

(* ================================================================== *)
(** ** Padding                                                         *)
(* ================================================================== *)

(** The least multiple of [d] that is at least [n]. *)
Definition padz (n d : Z) : Z := ceildiv n d * d.

Lemma pad_exact n d : 0 <= n < 2 ^ 53 -> 0 < d < 2 ^ 53 -> pad n d = Ok (padz n d).
Proof.
  intros Hn Hd. pose proof (ceil_truediv n d Hn Hd) as H. unfold pad, padz.
  destruct (truediv n d); cbn [mbind res_bind] in *; [|done]. by rewrite H.
Qed.

Lemma padz_bounds n d : 0 < d -> n <= padz n d < n + d.
Proof. intros Hd. unfold padz. pose proof (ceildiv_bounds n d Hd). lia. Qed.
Lemma padz_divide n d : (d | padz n d).
Proof. exists (ceildiv n d). done. Qed.
Lemma padz_least n d m : 0 < d -> (d | m) -> n <= m -> padz n d <= m.
Proof.
  intros Hd [k ->] Hn. pose proof (padz_bounds n d Hd). unfold padz in *.
  assert (ceildiv n d <= k) by nia. nia.
Qed.
Lemma padz_id n d : 0 < d -> (d | n) -> padz n d = n.
Proof. intros Hd Hn. pose proof (padz_bounds n d Hd). pose proof (padz_least n d n Hd Hn). lia. Qed.
Lemma padz_one n : padz n 1 = n.
Proof. apply padz_id; [lia|apply Z.divide_1_l]. Qed.
(** Padding twice, to a divisor first, is padding once. *)
Lemma padz_twice n a d : 0 < a -> 0 < d -> (a | d) -> padz (padz n a) d = padz n d.
Proof.
  intros Ha Hd Had. pose proof (padz_bounds n a Ha) as H1. pose proof (padz_bounds n d Hd) as H2.
  pose proof (padz_bounds (padz n a) d Hd) as H3. apply Z.le_antisymm.
  - apply padz_least; [done|apply padz_divide|]. apply padz_least; [done| |lia].
    etransitivity; [exact Had|apply padz_divide].
  - apply padz_least; [done|apply padz_divide|lia].
Qed.

(* ================================================================== *)
(** ** The plan of the first pass                                      *)
(* ================================================================== *)

(** Consecutive ranges from [a] to [z]. *)
Fixpoint chain (a : Z) (ranges : list (Z * Z)) (z : Z) : Prop :=
  match ranges with
  | [] => a = z
  | (x, w) :: ranges => x = a /\ x <= w /\ chain w ranges z
  end.

Lemma chain_snoc a ranges z w : chain a ranges z -> z <= w -> chain a (ranges ++ [(z, w)]) w.
Proof. revert a. induction ranges as [|[x y] r IH]; intros a; cbn; [naive_solver|]. intros (-> & Hle & Hc) Hw. auto. Qed.

Lemma chain_lookup a ranges z (i : nat) x w : chain a ranges z -> ranges !! i = Some (x, w) -> a <= x /\ x <= w /\ w <= z.
Proof.
  revert a i. induction ranges as [|[x' w'] r IH]; intros a [|i]; cbn; try done.
  - intros (-> & Hle & Hc) [= -> ->]. assert (w <= z); [|lia]. clear -Hc. revert w Hc.
    induction r as [|[y v] r IH]; cbn; [lia|]. intros w (-> & Hle & Hc). apply IH in Hc. lia.
  - intros (-> & Hle & Hc) Hi. destruct (IH _ _ Hc Hi). lia.
Qed.

Lemma chain_next a ranges z (i : nat) x w y v : chain a ranges z ->
  ranges !! i = Some (x, w) -> ranges !! S i = Some (y, v) -> y = w.
Proof.
  revert a i. induction ranges as [|[x' w'] r IH]; intros a [|i]; cbn; try done.
  - intros (-> & Hle & Hc) [= -> ->] Hn. destruct r as [|[y' v'] r]; [done|]. cbn in Hc, Hn. naive_solver.
  - intros (-> & Hle & Hc). eauto.
Qed.

Lemma chain_le a ranges z : chain a ranges z -> a <= z.
Proof. revert a. induction ranges as [|[x w] r IH]; intros a; cbn; [lia|]. intros (-> & Hle & Hc). apply IH in Hc. lia. Qed.

(** A placed parameter: start, end and bucket. *)
Record entry := mkEntry { e_param : param; e_start : Z; e_end : Z; e_bucket : Z }.

Section Plan.
Context (D A : Z) (HD : 0 < D) (HA : 0 < A) (HAD : (A | D)).

(** What the first pass knows after placing the parameters of [es]: closed buckets
    [idx], the start [bs] of the open bucket, its parameters [ps], and the next
    free index [st]. *)
Record plan (es : list entry) (idx : list (Z * Z)) (bs : Z) (ps : list param) (st : Z) : Prop := {
  pl_chain : chain 0 idx bs;
  pl_aligned : Forall (fun '(x, w) => (D | x) /\ (D | w)) idx;
  pl_bs : (D | bs) /\ bs <= st;
  pl_entry : forall k en, es !! k = Some en ->
    e_end en = e_start en + p_numel (e_param en) /\ (A | e_start en) /\
    0 <= e_bucket en <= Z.of_nat (length idx) /\
    (e_bucket en < Z.of_nat (length idx) -> exists x w, idx !! Z.to_nat (e_bucket en) = Some (x, w) /\
       x <= e_start en /\ e_end en <= w) /\
    (e_bucket en = Z.of_nat (length idx) -> bs <= e_start en /\ e_end en <= st);
  pl_first : forall en, es !! 0%nat = Some en -> e_bucket en = 0 /\ e_start en = 0;
  pl_next : forall k en en', es !! k = Some en -> es !! S k = Some en' -> e_end en <= e_start en' /\
    (e_bucket en' = e_bucket en /\ e_start en' = padz (e_end en) A \/
     e_bucket en' = e_bucket en + 1 /\ exists x, idx !! Z.to_nat (e_bucket en) = Some (x, e_start en'));
  pl_open : forall en, last es = Some en -> e_end en <= st /\
    if bool_decide (ps = []) then
      e_bucket en = Z.of_nat (length idx) - 1 /\ st = bs /\ bs = padz (e_end en) D
    else e_bucket en = Z.of_nat (length idx) /\ st = e_end en;
  pl_nil : es = [] -> idx = [] /\ ps = [] /\ st = bs;
  pl_ps : ps = [] -> es <> [] -> idx <> [];
  pl_closed : ps = [] -> forall en, en ∈ es -> e_bucket en < Z.of_nat (length idx)
}.

Lemma plan_start : plan [] [] 0 [] 0.
Proof.
  split; cbn; try done.
  - split; [apply Z.divide_0_r|lia].
  - intros _ en. set_solver.
Qed.

Lemma chain_last a ranges z x w : chain a ranges z -> last ranges = Some (x, w) -> w = z.
Proof.
  revert a. induction ranges as [|[x' w'] r IH]; intros a; [done|]. intros (-> & _ & Hc).
  destruct r as [|q r]; [cbn in *; naive_solver|]. rewrite last_cons_cons. eauto.
Qed.

Lemma lookup_snoc_cases {X} (l : list X) x (k : nat) y : (l ++ [x]) !! k = Some y ->
  (k < length l)%nat /\ l !! k = Some y \/ k = length l /\ y = x.
Proof.
  intros H. destruct (Nat.lt_ge_cases k (length l)) as [Hl|Hl].
  - left. by rewrite lookup_app_l in H.
  - right. rewrite lookup_app_r in H by done. destruct (k - length l)%nat eqn:E; cbn in H; [|done].
    injection H as ->. split; [lia|done].
Qed.

(** Placing the next parameter at the next aligned index of the open bucket. *)
Lemma plan_place es idx bs ps st p : plan es idx bs ps st -> 0 <= p_numel p ->
  let s := padz st A in
  plan (es ++ [mkEntry p s (s + p_numel p) (Z.of_nat (length idx))]) idx bs (ps ++ [p]) (s + p_numel p).
Proof.
  intros P Hn s. pose proof (padz_bounds st A HA) as Hs. fold s in Hs. destruct P as [Hch Hal [Hbs Hle] Hen Hfi Hne Hop Hnil Hps Hcl].
  split; [done|done|split; [done|lia]| | | | | | |].
  - intros k en Hk. apply lookup_snoc_cases in Hk as [[_ Hk]|[_ ->]]; cbn.
    + destruct (Hen k en Hk) as (H1 & H2 & H3 & H4 & H5). split_and!; (done || lia).
    + split_and!; try lia; [apply padz_divide].
  - intros en Hk. destruct es as [|en0 es]; cbn in Hk.
    + injection Hk as <-. cbn. destruct (Hnil eq_refl) as (-> & _ & Hst). cbn in Hch. split; [done|].
      unfold s. rewrite Hst, <- Hch. apply padz_id; [done|apply Z.divide_0_r].
    + injection Hk as <-. by apply (Hfi en0).
  - intros k en en' Hk Hk'. apply lookup_snoc_cases in Hk' as [[_ Hk']|[E ->]]; cbn.
    + apply lookup_snoc_cases in Hk as [[_ Hk]|[Ek ->]]; [by eapply Hne|].
      apply lookup_lt_Some in Hk'. lia.
    + apply lookup_snoc_cases in Hk as [[_ Hk]|[Ek ->]]; [|lia].
      assert (Hlast : last es = Some en) by (rewrite last_lookup; replace (pred (length es)) with k by lia; done).
      destruct (Hop en Hlast) as [Hend Hop']. split; [lia|]. case_bool_decide as Hnp.
      * destruct Hop' as (Hb & -> & Hbe). right. split; [lia|].
        assert (Hidx : idx <> []) by (apply Hps; [done|by destruct es]).
        destruct (last idx) as [[x w]|] eqn:El; [|by apply last_None in El].
        pose proof (chain_last _ _ _ _ _ Hch El) as ->. exists x. unfold s. rewrite padz_id; [|done|by etransitivity].
        rewrite last_lookup in El. rewrite <- El. f_equal. lia.
      * destruct Hop' as [Hb Hst]. left. split; [lia|]. unfold s. by rewrite Hst.
  - intros en. rewrite last_snoc. intros [= <-]. cbn. rewrite bool_decide_eq_false_2 by (by destruct ps). split_and!; lia.
  - by destruct es.
  - by destruct ps.
  - by destruct ps.
Qed.

(** Closing the open bucket at the next multiple of [D]. *)
Lemma plan_close es idx bs ps st : plan es idx bs ps st -> ps <> [] ->
  let w := padz st D in plan es (idx ++ [(bs, w)]) w [] w.
Proof.
  intros P Hp w. pose proof (padz_bounds st D HD) as Hw. fold w in Hw. destruct P as [Hch Hal [Hbs Hle] Hen Hfi Hne Hop Hnil Hps Hcl].
  assert (Hlen : Z.of_nat (length (idx ++ [(bs, w)])) = Z.of_nat (length idx) + 1) by (rewrite length_app; cbn; lia).
  split.
  - apply chain_snoc; [done|lia].
  - apply Forall_app. split; [done|]. constructor; [|constructor]. split; [done|apply padz_divide].
  - split; [apply padz_divide|lia].
  - intros k en Hk. destruct (Hen k en Hk) as (H1 & H2 & H3 & H4 & H5). rewrite Hlen. split_and!; try done; try lia.
    intros _. destruct (Z.lt_ge_cases (e_bucket en) (Z.of_nat (length idx))) as [Hb|Hb].
    + destruct (H4 Hb) as (x & w' & Hi & Hx). exists x, w'. split; [|done]. rewrite lookup_app_l; [done|lia].
    + exists bs, w. destruct H5 as [H5 H6]; [lia|]. split; [|lia].
      replace (Z.to_nat (e_bucket en)) with (length idx) by lia. by apply list_lookup_middle.
  - done.
  - intros k en en' Hk Hk'. destruct (Hne k en en' Hk Hk') as [He [Hb|(Hb & x & Hx)]]; split; try done; [by left|].
    right. split; [done|]. exists x. rewrite lookup_app_l; [done|]. by eapply lookup_lt_Some.
  - intros en Hl. destruct (Hop en Hl) as [He Ho]. rewrite bool_decide_eq_false_2 in Ho by done. destruct Ho as [Hb Hst].
    rewrite bool_decide_eq_true_2 by done. rewrite Hlen. split_and!; [lia|lia|done|]. unfold w. by rewrite <- Hst.
  - intros ->. destruct (Hnil eq_refl) as (_ & ? & _). done.
  - intros _ _ E. by apply app_eq_nil in E as [_ ?].
  - intros _ en [k Hk]%list_elem_of_lookup. destruct (Hen k en Hk) as (_ & _ & Hb & _). rewrite Hlen. lia.
Qed.
End Plan.

(* ================================================================== *)
(** ** The first pass follows the plan                                 *)
(* ================================================================== *)

(** The alignments in force: of buckets and of parameters. *)
Definition bucket_align (cfg : ddp_config) (dp : Z) : Z :=
  if use_distributed_optimizer cfg then bucket_size_divisor cfg dp else 1.
Definition param_align (cfg : ddp_config) : Z := if use_distributed_optimizer cfg then 64 else 1.

Lemma divisor_facts cfg dp : 0 < dp ->
  0 < bucket_size_divisor cfg dp /\ (128 | bucket_size_divisor cfg dp) /\ (dp | bucket_size_divisor cfg dp).
Proof.
  intros Hdp. unfold bucket_size_divisor.
  assert (Hp : forall a b, 0 < a -> 0 < b -> 0 < Z.lcm a b).
  { intros a b Ha Hb. pose proof (Z.lcm_nonneg a b). destruct (Z.eq_dec (Z.lcm a b) 0) as [E|]; [|lia].
    apply Z.lcm_eq_0 in E. lia. }
  destruct (pad_buckets_for_high_nccl_busbw cfg).
  - split_and!; [apply Hp; [apply Hp; lia|lia]| |]; (etransitivity; [|apply Z.divide_lcm_l]);
      [apply Z.divide_lcm_r|apply Z.divide_lcm_l].
  - split_and!; [apply Hp; lia|apply Z.divide_lcm_r|apply Z.divide_lcm_l].
Qed.

Lemma align_facts cfg dp : 0 < dp ->
  0 < bucket_align cfg dp /\ 0 < param_align cfg /\ (param_align cfg | bucket_align cfg dp) /\
  (use_distributed_optimizer cfg = true -> (dp | bucket_align cfg dp)) /\ param_align cfg <= 64.
Proof.
  intros Hdp. destruct (divisor_facts cfg dp Hdp) as (H1 & H2 & H3). unfold bucket_align, param_align.
  destruct (use_distributed_optimizer cfg); split_and!; try done; try lia; try (by apply Z.divide_1_l).
  transitivity 128; [by exists 2|done].
Qed.

Section FirstPass.
Context (cfg : ddp_config) (dp : Z) (bsz : option Z) (Hdp : 0 < dp) (Hlim : bucket_align cfg dp < 2 ^ 53).
Let D := bucket_align cfg dp.
Let A := param_align cfg.

Lemma pad_end_ok n : 0 <= n < 2 ^ 53 -> pad_end_of_bucket_if_needed cfg dp n = Ok (padz n D).
Proof.
  intros Hn. destruct (align_facts cfg dp Hdp) as (H1 & _). unfold pad_end_of_bucket_if_needed, D, bucket_align in *.
  destruct (use_distributed_optimizer cfg); [by apply pad_exact|by rewrite padz_one].
Qed.
Lemma pad_start_ok n : 0 <= n < 2 ^ 53 -> pad_start_of_param_if_needed cfg n = Ok (padz n A).
Proof.
  intros Hn. unfold pad_start_of_param_if_needed, A, param_align.
  destruct (use_distributed_optimizer cfg); [apply pad_exact; lia|by rewrite padz_one].
Qed.

(** The variables of the loop after placing the parameters of [es]. *)
Record laid (es : list entry) (y : layout) : Prop := {
  la_plan : plan D A es (y_bucket_indices y) (y_bucket_start y) (y_bucket_params y) (y_param_start y);
  la_id : y_bucket_id y = Z.of_nat (length (y_bucket_indices y));
  la_unpadded : length (y_unpadded y) = length (y_bucket_indices y);
  la_map : forall en, en ∈ es -> y_index_map y !! p_id (e_param en) = Some (e_start en, e_end en, e_bucket en);
  la_end : y_param_end y = e_end <$> last es;
  la_bend : y_bucket_params y = [] -> es <> [] -> y_bucket_end y = Some (y_bucket_start y);
  la_sum : zsum (y_unpadded y) <= y_bucket_start y /\
           (use_distributed_optimizer cfg = false -> zsum (y_unpadded y) = y_bucket_start y);
  la_dense : use_distributed_optimizer cfg = false -> y_param_start y = zsum (map p_numel (map e_param es));
  la_fit : forall i n, y_unpadded y !! i = Some n -> exists x w, y_bucket_indices y !! i = Some (x, w) /\ 0 <= n <= w - x /\
    forall en, en ∈ es -> e_bucket en = Z.of_nat i -> e_end en <= x + n
}.

Lemma laid_start : laid [] layout_start.
Proof.
  destruct (align_facts cfg dp Hdp) as (H1 & H2 & H3 & _).
  split; cbn; try done; [by apply plan_start|intros en; set_solver].
Qed.

(** The loop's variables with [param_start_index] and [bucket_end_index] replaced. *)
Definition moved (y : layout) (st : Z) (be : option Z) : layout :=
  mkLayout st (y_bucket_start y) (y_bucket_params y) (y_bucket_indices y) (y_unpadded y) (y_bucket_id y)
    (y_index_map y) (y_param_end y) be.

(** [_update_bucket_metadata] at [x], which is the next free index [st] or that index aligned. *)
Lemma update_ok es y st be x : laid es (moved y st be) -> y_bucket_params y <> [] -> 0 <= x < 2 ^ 53 ->
  x = st \/ x = padz st A ->
  exists y', update_bucket_metadata cfg dp x y = Ok (padz x D, y') /\ y_param_start y' = y_param_start y /\
    padz x D = padz st D /\ laid es (moved y' (padz x D) (Some (padz x D))).
Proof.
  intros L Hp Hx Hcase. destruct (align_facts cfg dp Hdp) as (HD & HA & HAD & _).
  assert (Hpad : padz x D = padz st D) by (destruct Hcase as [->| ->]; [done|by apply padz_twice]).
  unfold update_bucket_metadata. rewrite pad_end_ok by done. cbn. eexists. split; [reflexivity|]. cbn.
  split_and!; try done. destruct L as [P Hid Hun Hmap Hend Hbend [Hs1 Hs2] Hde Hfit].
  pose proof (padz_bounds x D HD) as Hb. split; cbn -[zsum] in *.
  - rewrite Hpad. by apply (plan_close D A HD _ _ _ (y_bucket_params y)).
  - rewrite Hid, length_app. cbn. lia.
  - rewrite !length_app. cbn. lia.
  - done.
  - done.
  - done.
  - rewrite zsum_app. unfold zsum at 2 4. cbn. split; [lia|]. intros Hno. specialize (Hs2 Hno).
    assert (padz x D = x) by (unfold D, bucket_align; rewrite Hno; apply padz_one). lia.
  - intros Hno. rewrite Hpad. unfold D, bucket_align. rewrite Hno, padz_one. by apply Hde.
  - assert (Hst : st <= x) by (destruct Hcase as [->| ->]; [lia|pose proof (padz_bounds st A HA); lia]).
    pose proof (pl_bs _ _ _ _ _ _ _ P) as [_ Hbs]. intros i n [[_ Hi]|[Hi ->]]%lookup_snoc_cases.
    + destruct (Hfit i n Hi) as (a & w & Ha & Hw). exists a, w. split; [|done]. by apply lookup_app_l_Some.
    + exists (y_bucket_start y), (padz x D). split; [rewrite Hi, Hun; by apply list_lookup_middle|]. split; [lia|].
      intros en [k Hk]%list_elem_of_lookup Eb. destruct (pl_entry _ _ _ _ _ _ _ P k en Hk) as (_ & _ & _ & _ & Ho).
      destruct Ho; lia.
Qed.

(** The parameter goes to the next aligned index. *)
Lemma place_ok es y st be p : laid es (moved y st be) -> 0 <= p_numel p ->
  p_id p ∉ map (fun en => p_id (e_param en)) es ->
  let s := padz st A in let e := s + p_numel p in
  let y' := mkLayout s (y_bucket_start y) (y_bucket_params y ++ [p]) (y_bucket_indices y) (y_unpadded y)
             (y_bucket_id y) (<[p_id p := (s, e, y_bucket_id y)]> (y_index_map y)) (Some e) (y_bucket_end y) in
  laid (es ++ [mkEntry p s e (y_bucket_id y)]) (moved y' e (y_bucket_end y)).
Proof.
  intros L Hn Hfresh s e y'. destruct (align_facts cfg dp Hdp) as (HD & HA & HAD & _).
  destruct L as [P Hid Hun Hmap Hend Hbend Hs Hde Hfit]. cbn -[zsum] in *. split; cbn -[zsum].
  - rewrite Hid. by apply (plan_place D A HA HAD).
  - done.
  - done.
  - intros en [Hen|Hen]%elem_of_app.
    + rewrite lookup_insert_ne; [by apply Hmap|]. intros E. apply Hfresh. rewrite E. apply list_elem_of_In, (in_map (fun en => p_id (e_param en))). by apply list_elem_of_In.
    + apply list_elem_of_singleton in Hen as ->. cbn. by rewrite lookup_insert_eq.
  - by rewrite last_snoc.
  - by destruct (y_bucket_params y).
  - done.
  - intros Hno. rewrite !map_app, zsum_app, <- (Hde Hno). unfold e, s, A, param_align. rewrite Hno, padz_one. unfold zsum. cbn. lia.
  - intros i n Hi. destruct (Hfit i n Hi) as (a & w & Ha & Hw & He). exists a, w. split_and!; try done; try lia.
    intros en [Hen|Hen]%elem_of_app Eb; [by apply He|]. apply list_elem_of_singleton in Hen as ->. cbn in Eb.
    apply lookup_lt_Some in Hi. lia.
Qed.

(** One round of the first loop. *)
Lemma layout_step_ok es y p : laid es y -> 0 <= p_numel p -> p_id p ∉ map (fun en => p_id (e_param en)) es ->
  0 <= y_param_start y -> y_param_start y + p_numel p + A + 2 * D < 2 ^ 53 ->
  exists y' en, layout_step cfg dp bsz y p = Ok y' /\ laid (es ++ [en]) y' /\ e_param en = p /\
    0 <= y_param_start y' <= y_param_start y + p_numel p + A + 2 * D.
Proof.
  intros L Hn Hfresh H0 Hlimit. destruct (align_facts cfg dp Hdp) as (HD & HA & HAD & _). fold D A in HD, HA, HAD.
  pose proof (padz_bounds (y_param_start y) A HA) as Ha. unfold layout_step.
  rewrite pad_start_ok by lia. cbn [mbind res_bind].
  assert (Hbefore : exists start y1 st be,
    (if does_param_require_new_bucket cfg p && (0 <? Z.of_nat (length (y_bucket_params y)))
     then update_bucket_metadata cfg dp (padz (y_param_start y) A) y else mret (padz (y_param_start y) A, y)) = Ok (start, y1) /\
    start = padz st A /\ y_param_start y <= start < y_param_start y + A + D /\ laid es (moved y1 st be)).
  { destruct (_ && _) eqn:Eb.
    - apply andb_true_iff in Eb as [_ Eb]. apply Z.ltb_lt in Eb.
      destruct (update_ok es y (y_param_start y) (y_bucket_end y) (padz (y_param_start y) A)) as (y1 & E1 & _ & Ep & L1).
      { by destruct y. } { destruct (y_bucket_params y); cbn in Eb; [lia|done]. } { lia. } { by right. }
      pose proof (padz_bounds (padz (y_param_start y) A) D HD) as Hb.
      eexists _, y1, _, _. split_and!; [exact E1| | | |exact L1]; [|lia|lia].
      symmetry. apply padz_id; [done|]. etransitivity; [exact HAD|apply padz_divide].
    - exists (padz (y_param_start y) A), y, (y_param_start y), (y_bucket_end y). split_and!; try done; try lia. by destruct y. }
  destruct Hbefore as (start & y1 & st & be & -> & Est & Hst & L1). cbn [mbind res_bind].
  pose proof (place_ok es y1 st be p L1 Hn Hfresh) as L2. cbn zeta in L2. rewrite <- Est in L2.
  set (y2 := mkLayout start _ _ _ _ _ _ _ _) in *. destruct (_ || _).
  - destruct (update_ok _ y2 _ _ (start + p_numel p) L2) as (y3 & E3 & _ & Ep & L3).
    { cbn. by destruct (y_bucket_params y1). } { lia. } { by left. }
    pose proof (padz_bounds (start + p_numel p) D HD) as Hb. rewrite E3. cbn [mbind res_bind].
    eexists _, _. split; [reflexivity|]. split; [exact L3|]. cbn. split; [done|]. lia.
  - eexists _, _. split; [reflexivity|]. split; [exact L2|]. cbn. split; [done|]. lia.
Qed.

(** What a parameter can cost, padding included; the layout stays below their sum. *)
Definition cost (p : param) : Z := p_numel p + A + 2 * D.
Definition total_cost (params : list param) : Z := zsum (map cost params).

Lemma total_cost_nonneg params : Forall (fun p => 0 <= p_numel p) params -> 0 <= total_cost params.
Proof.
  destruct (align_facts cfg dp Hdp) as (HD & HA & _). fold D A in HD, HA. unfold total_cost, cost.
  induction 1 as [|p ps Hp _ IH]; cbn in *; [lia|]. unfold zsum in IH. lia.
Qed.

Lemma layout_loop_ok params : Forall (fun p => 0 <= p_numel p) params -> NoDup (map p_id params) ->
  total_cost params < 2 ^ 53 ->
  exists y, foldR (layout_step cfg dp bsz) layout_start params = Ok y /\
    exists es, laid es y /\ map e_param es = params /\ 0 <= y_param_start y <= total_cost params.
Proof.
  intros Hnn Hnd Hlimit.
  destruct (foldR_total (layout_step cfg dp bsz)
    (fun seen y => exists es, laid es y /\ map e_param es = seen /\ 0 <= y_param_start y <= total_cost seen)
    layout_start params) as (y & Hy & es & L); [| |by eauto].
  - exists []. split; [apply laid_start|]. split; [done|]. unfold total_cost. cbn. lia.
  - intros seen p rest y E (es & L & Ees & Hst). subst params. subst seen.
    rewrite map_app in Hnd. apply NoDup_app in Hnd as (_ & Hnd & _).
    apply Forall_app in Hnn as [Hn1 Hn2]. inversion Hn2 as [|? ? Hp Hn3]; subst.
    pose proof (total_cost_nonneg rest Hn3) as Hrest. unfold total_cost in *. rewrite map_app, zsum_app in *.
    unfold zsum at 2 in Hlimit. cbn [map foldr] in Hlimit. fold (zsum (map cost rest)) in Hlimit. unfold cost at 2 in Hlimit.
    destruct (layout_step_ok es y p L Hp) as (y' & en & Hy' & L' & Een & Hst'); [|lia|lia|].
    { intros Hin. apply (Hnd (p_id p)); [|by left]. by rewrite map_map. }
    exists y'. split; [done|]. exists (es ++ [en]). split; [done|]. rewrite map_app. cbn. rewrite Een. split; [done|].
    unfold cost at 2. lia.
Qed.

(** The state after the last bucket was closed at [numel]. *)
Definition sealed (es : list entry) (y : layout) (numel : Z) : Prop :=
  laid es (moved y numel (Some numel)) /\ y_bucket_params y = [] /\ y_bucket_start y = numel.

Lemma close_last_ok es y : laid es y -> es <> [] -> 0 <= y_param_start y -> y_param_start y + D < 2 ^ 53 ->
  exists y' numel, close_last_bucket cfg dp y = Ok y' /\ y_bucket_end y' = Some numel /\ sealed es y' numel /\
    0 <= numel < 2 ^ 53.
Proof.
  intros L Hes H0 Hlimit. destruct (align_facts cfg dp Hdp) as (HD & HA & HAD & _). fold D A in HD, HA, HAD.
  unfold close_last_bucket.
  destruct (last es) as [en|] eqn:El; [|by apply last_None in El].
  pose proof (pl_open _ _ _ _ _ _ _ (la_plan _ _ L) en El) as [He Ho].
  pose proof (la_end _ _ L) as Hend. rewrite El in Hend. cbn in Hend. rewrite Hend.
  destruct (Z.ltb_spec 0 (Z.of_nat (length (y_bucket_params y)))) as [Hlen|Hlen].
  - rewrite bool_decide_eq_false_2 in Ho by (intros E; rewrite E in Hlen; cbn in Hlen; lia). destruct Ho as [_ Ho].
    destruct (update_ok es y (y_param_start y) (y_bucket_end y) (e_end en)) as (y' & E' & _ & Ep & L').
    { by destruct y. } { intros E; rewrite E in Hlen; cbn in Hlen; lia. } { lia. } { by left. }
    rewrite E'. cbn. eexists _, _. split; [reflexivity|]. cbn. split; [reflexivity|].
    pose proof (padz_bounds (e_end en) D HD) as Hb. split; [|lia]. split; [exact L'|].
    unfold update_bucket_metadata in E'. destruct (pad_end_of_bucket_if_needed cfg dp (e_end en)); [|done].
    injection E' as -> <-. done.
  - assert (Hps : y_bucket_params y = []) by (destruct (y_bucket_params y); [done|cbn in Hlen; lia]).
    rewrite bool_decide_eq_true_2 in Ho by done. destruct Ho as (_ & Ho & _).
    pose proof (la_bend _ _ L Hps Hes) as Hbe. exists y, (y_bucket_start y). split; [done|]. split; [done|]. split; [|lia].
    split; [|done]. unfold moved. rewrite <- Hbe, <- Ho at 1. by destruct y.
Qed.

Lemma compute_layout_ok params : params <> [] -> Forall (fun p => 0 <= p_numel p) params -> NoDup (map p_id params) ->
  total_cost (reverse params) + D < 2 ^ 53 ->
  exists y numel es, compute_layout cfg dp bsz params = Ok (y, numel, zsum (y_unpadded y)) /\
    sealed es y numel /\ map e_param es = reverse params /\ 0 <= numel < 2 ^ 53.
Proof.
  intros Hne Hnn Hnd Hlimit. destruct (align_facts cfg dp Hdp) as (HD & HA & HAD & Hdpd & _). fold D A in HD, HA, HAD, Hdpd.
  destruct (layout_loop_ok (reverse params)) as (y & Hy & es & L & Ees & Hst); [by apply Forall_reverse| |lia|].
  { by rewrite reverse_Permutation. }
  assert (Hes : es <> []). { intros ->. cbn in Ees. symmetry in Ees. by apply (f_equal reverse) in Ees; rewrite reverse_involutive in Ees. }
  destruct (close_last_ok es y L Hes) as (y' & numel & E' & Hbe & S & Hb); [lia..|].
  unfold compute_layout. rewrite Hy. cbn [mbind res_bind]. rewrite E'.
  cbn [mbind res_bind]. rewrite Hbe. destruct S as (L' & Hps & Hbs). destruct (la_sum _ _ L') as [Hs1 Hs2]. cbn -[zsum] in Hs1, Hs2.
  assert (Hdiv : (D | numel)). { pose proof (pl_bs _ _ _ _ _ _ _ (la_plan _ _ L')) as [Hd _]. cbn in Hd. by rewrite Hbs in Hd. }
  rewrite (proj2 (Z.leb_le _ _)) by lia. cbn [assert_ mbind res_bind]. exists y', numel, es.
  destruct (use_distributed_optimizer cfg) eqn:Eo.
  - assert (Hmod : numel mod dp = 0). { apply Z.mod_divide; [lia|]. by etransitivity; [apply Hdpd|]. }
    unfold pymod. rewrite (proj2 (Z.eqb_neq dp 0)) by lia. cbn. rewrite Hmod. done.
  - rewrite (proj2 (Z.eqb_eq _ _)) by (rewrite Hs2; [congruence|done]). done.
Qed.
End FirstPass.

(* ================================================================== *)
(** ** The second pass follows the plan                                *)
(* ================================================================== *)

(** The parameters placed in bucket [i]. *)
Definition of_bucket (es : list entry) (i : Z) : list param := map e_param (filter (fun en => e_bucket en = i) es).

Lemma of_bucket_app es1 es2 i : of_bucket (es1 ++ es2) i = of_bucket es1 i ++ of_bucket es2 i.
Proof. unfold of_bucket. by rewrite filter_app, map_app. Qed.
Lemma of_bucket_none es i : Forall (fun en => e_bucket en <> i) es -> of_bucket es i = [].
Proof. unfold of_bucket. induction 1 as [|en es Hen _ IH]; [done|]. by rewrite filter_cons_False. Qed.
Lemma of_bucket_one en : of_bucket [en] (e_bucket en) = [e_param en].
Proof. unfold of_bucket. by rewrite filter_cons_True. Qed.
Lemma elem_of_bucket es i p : p ∈ of_bucket es i <-> exists en, en ∈ es /\ e_bucket en = i /\ e_param en = p.
Proof.
  unfold of_bucket. rewrite list_elem_of_fmap. split.
  - intros (en & -> & [Hb Hin]%list_elem_of_filter). eauto.
  - intros (en & Hin & Hb & <-). exists en. split; [done|]. by apply list_elem_of_filter.
Qed.
Lemma of_bucket_nodup es i : NoDup (map p_id (map e_param es)) -> NoDup (map p_id (of_bucket es i)).
Proof.
  unfold of_bucket. rewrite !map_map. induction es as [|en es IH]; [done|]. cbn. intros [Hen Hnd]%NoDup_cons. destruct (decide _); cbn; [|by apply IH].
  apply NoDup_cons. split; [|by apply IH]. intros (x & Ex & [_ Hx]%list_elem_of_filter)%list_elem_of_fmap.
  apply Hen, list_elem_of_fmap. eauto.
Qed.

Lemma nodup_same_id es en en' : NoDup (map p_id (map e_param es)) -> en ∈ es -> en' ∈ es ->
  p_id (e_param en) = p_id (e_param en') -> en = en'.
Proof.
  intros Hnd [i Hi]%list_elem_of_lookup [j Hj]%list_elem_of_lookup E. rewrite map_map in Hnd.
  assert (i = j) as ->; [|congruence].
  eapply (NoDup_lookup _ i j); [exact Hnd|by apply list_lookup_fmap_Some; eauto|].
  rewrite E. apply list_lookup_fmap_Some. eauto.
Qed.

(** A loop that adds one new key per round builds the table of its keys. *)
Lemma foldR_table {A B} (f : gmap Z B -> A -> res (gmap Z B)) (key : A -> Z) (val : A -> B) l (m : gmap Z B) :
  (forall m x, x ∈ l -> m !! key x = None -> f m x = Ok (<[key x := val x]> m)) ->
  NoDup (map key l) -> (forall x, x ∈ l -> m !! key x = None) ->
  exists m', foldR f m l = Ok m' /\
    (forall x, x ∈ l -> m' !! key x = Some (val x)) /\ (forall k, k ∉ map key l -> m' !! k = m !! k).
Proof.
  revert m. induction l as [|x l IH]; intros m Hf Hnd Hm; cbn.
  - exists m. split_and!; [done|set_solver|done].
  - inversion Hnd as [|? ? Hx Hnd']; subst. rewrite (Hf m x ltac:(left) (Hm x ltac:(left))). cbn.
    destruct (IH (<[key x:=val x]> m)) as (m' & -> & H1 & H2); [intros; apply Hf; [by right|done]|done| |].
    { intros y Hy. rewrite lookup_insert_ne; [apply Hm; by right|]. intros E. apply Hx. rewrite E.
      apply list_elem_of_fmap. by exists y. }
    exists m'. split; [done|]. split.
    + intros y [->|Hy]%elem_of_cons; [|by apply H1]. rewrite H2 by done. apply lookup_insert_eq.
    + intros k [Hk1 Hk2]%not_elem_of_cons. rewrite H2 by done. by rewrite lookup_insert_ne.
Qed.

(** The loop of [_new_bucket] that fills [param_to_bucket]. *)
Lemma register_ok (c : Z) ps (m : gmap Z Z) : NoDup (map p_id ps) -> (forall p, p ∈ ps -> m !! p_id p = None) ->
  exists m', foldR (fun (m : gmap Z Z) p =>
      assert_ (is_none (m !! p_id p)) "bucket_param not in self.param_to_bucket" ;; mret (<[p_id p := c]> m)) m ps = Ok m' /\
    (forall p, p ∈ ps -> m' !! p_id p = Some c) /\ (forall k, k ∉ map p_id ps -> m' !! k = m !! k).
Proof. apply (foldR_table _ p_id (fun _ => c)). intros m' p _ Hp. by rewrite Hp. Qed.

Section Order.
Context (D A : Z) (es : list entry) (idx : list (Z * Z)) (bs : Z) (ps : list param) (st : Z).
Context (P : plan D A es idx bs ps st) (Hn : Forall (fun p => 0 <= p_numel p) (map e_param es)).

Lemma entry_le (k : nat) en : es !! k = Some en -> e_start en <= e_end en.
Proof.
  intros Hk. destruct (pl_entry _ _ _ _ _ _ _ P k en Hk) as [-> _].
  rewrite Forall_map, Forall_lookup in Hn. specialize (Hn k en Hk). cbn in Hn. lia.
Qed.

(** Later parameters are in later buckets, at later indices. *)
Lemma plan_mono (i j : nat) en en' : (i <= j)%nat -> es !! i = Some en -> es !! j = Some en' ->
  e_bucket en <= e_bucket en' /\ (i <> j -> e_end en <= e_start en').
Proof.
  revert en'. induction j as [|j IH]; intros en' Hij Hi Hj.
  - assert (i = 0%nat) as -> by lia. rewrite Hi in Hj. injection Hj as ->. split; [lia|done].
  - destruct (Nat.eq_dec i (S j)) as [->|Hne]; [rewrite Hi in Hj; injection Hj as ->; split; [lia|done]|].
    destruct (lookup_lt_is_Some_2 es j) as [em Hm]; [apply lookup_lt_Some in Hj; lia|].
    destruct (IH em) as [H1 H2]; [lia|done|done|]. destruct (pl_next _ _ _ _ _ _ _ P j em en' Hm Hj) as [H3 H4].
    pose proof (entry_le j em Hm). split; [lia|intros _].
    destruct (Nat.eq_dec i j) as [->|Hne2]; [rewrite Hi in Hm; injection Hm as ->; done|]. specialize (H2 Hne2). lia.
Qed.

(** Ranges of different parameters do not overlap. *)
Lemma plan_disjoint en en' : en ∈ es -> en' ∈ es -> en <> en' -> e_end en <= e_start en' \/ e_end en' <= e_start en.
Proof.
  intros [i Hi]%list_elem_of_lookup [j Hj]%list_elem_of_lookup Hne.
  assert (i <> j) by (intros ->; congruence).
  destruct (Nat.le_ge_cases i j) as [Hle|Hle]; [left; by apply (plan_mono i j)|right; by apply (plan_mono j i)].
Qed.
End Order.

Section SecondPass.
Context (cfg : ddp_config) (dp : Z) (Hdp : 0 < dp) (Hlim : bucket_align cfg dp < 2 ^ 53).
Context (pd gd : dtype) (params : list param) (scaling : f64) (numel nun : Z) (idx : list (Z * Z)).
Context (imap : gmap Z (Z * Z * Z)) (pn : option Z) (unpadded : list Z) (es : list entry).
Let D := bucket_align cfg dp.
Let A := param_align cfg.
Context (P : plan D A es idx numel [] numel) (Hlen : length unpadded = length idx) (Hnumel : 0 <= numel < 2 ^ 53).
Context (Hmap : forall en, en ∈ es -> imap !! p_id (e_param en) = Some (e_start en, e_end en, e_bucket en)).
Context (Hnd : NoDup (map p_id (map e_param es))).
Context (Hn : Forall (fun p => 0 <= p_numel p) (map e_param es)).
Context (Hown : Forall (fun p => p_float8 p = true \/ p_data_is_base p = true) (map e_param es)).

(** The buffer under construction. *)
Definition made (bs : list bucket) (m : gmap Z Z) (d gr : gmap Z view) : buffer :=
  mkBuffer cfg pd gd params dp scaling numel nun idx imap pn bs m d gr.

(** Bucket [i] as planned. *)
Definition bucket_for (i : nat) (b : bucket) : Prop := exists x w n, idx !! i = Some (x, w) /\ unpadded !! i = Some n /\
  b = mkBucket (of_bucket es (Z.of_nat i)) (if is_none pn then None else Some (mkView PARAM x w)) (mkView GRAD x w) x n
        scaling (Z.of_nat i) (bucket_index 0 (of_bucket es (Z.of_nat i))).

(** [c] buckets are made, and the parameters of [es1] have their views. *)
Record mapped (es1 : list entry) (c : nat) (bf : buffer) : Prop := {
  mp_buf : bf = made (bf_buckets bf) (bf_param_to_bucket bf) (bf_data bf) (bf_main_grad bf);
  mp_count : length (bf_buckets bf) = c;
  mp_buckets : forall i b, bf_buckets bf !! i = Some b -> bucket_for i b;
  mp_owner : forall en, en ∈ es -> bf_param_to_bucket bf !! p_id (e_param en) =
    if e_bucket en <? Z.of_nat c then Some (e_bucket en) else None;
  mp_grad : forall en, en ∈ es1 -> bf_main_grad bf !! p_id (e_param en) = Some (mkView GRAD (e_start en) (e_end en));
  mp_data : reuse_grad_buf_for_mxfp8_param_ag cfg = false -> pn <> None -> forall en, en ∈ es1 ->
    bf_data bf !! p_id (e_param en) = Some (mkView PARAM (e_start en) (e_end en))
}.

(** The loop's variables, [c] being the current bucket. *)
Record cursor (es1 : list entry) (c : nat) (g : mapping) : Prop := {
  cu_buf : mapped es1 c (g_buffer g);
  cu_id : g_cur_bucket_id g = Z.of_nat c;
  cu_params : g_bucket_params g = of_bucket es1 (Z.of_nat c);
  cu_start : exists w, idx !! c = Some (g_bucket_start g, w);
  cu_end : g_param_end g = e_end <$> last es1;
  cu_first : es1 = [] -> c = 0%nat;
  cu_last : forall en, last es1 = Some en -> e_bucket en = Z.of_nat c
}.

Lemma entry_inside en : en ∈ es -> exists x w, idx !! Z.to_nat (e_bucket en) = Some (x, w) /\ 0 <= e_bucket en /\
  0 <= x <= e_start en /\ e_end en <= w <= numel /\ e_end en = e_start en + p_numel (e_param en).
Proof.
  intros Hen. pose proof (pl_closed _ _ _ _ _ _ _ P eq_refl en Hen) as Hb.
  apply list_elem_of_lookup in Hen as [k Hk]. destruct (pl_entry _ _ _ _ _ _ _ P k en Hk) as (He & _ & H0 & Hin & _).
  destruct (Hin Hb) as (x & w & Hi & Hx & Hw). exists x, w. pose proof (chain_lookup _ _ _ _ _ _ (pl_chain _ _ _ _ _ _ _ P) Hi).
  split_and!; (done || lia).
Qed.

Lemma idx_facts (c : nat) x w : idx !! c = Some (x, w) -> (D | x) /\ (D | w) /\ 0 <= x <= w /\ w <= numel.
Proof.
  intros Hc. pose proof (chain_lookup _ _ _ _ _ _ (pl_chain _ _ _ _ _ _ _ P) Hc).
  pose proof (pl_aligned _ _ _ _ _ _ _ P) as Hal. rewrite Forall_lookup in Hal. destruct (Hal c (x, w) Hc). split_and!; (done || lia).
Qed.

(** The range check of [_get] passes inside the buffer. *)
Lemma get_view_ok bs m d gr n start ty : start + n <= numel -> (ty = PARAM -> pn <> None) ->
  get_view (made bs m d gr) n start ty = Ok (mkView ty start (start + n)).
Proof.
  intros Hle Hty. unfold get_view. cbn. rewrite (proj2 (Z.leb_le _ _) Hle). cbn. destruct ty; [|done].
  destruct pn; [done|]. by destruct (Hty eq_refl).
Qed.

(** Closing bucket [c] when all its parameters are mapped. *)
Lemma close_bucket_ok es1 rest es2 c g w : es = es1 ++ rest -> Forall (fun en => Z.of_nat c < e_bucket en) rest ->
  mapped es2 c (g_buffer g) -> g_cur_bucket_id g = Z.of_nat c -> g_bucket_params g = of_bucket es1 (Z.of_nat c) ->
  idx !! c = Some (g_bucket_start g, w) ->
  exists bf, close_bucket unpadded w g = Ok bf /\ mapped es2 (S c) bf.
Proof.
  intros E Hrest [Hbuf Hcount Hbs Hown' Hgr Hda] Hid Hps Hst. remember (g_bucket_start g) as x eqn:Ex. symmetry in Ex.
  destruct (align_facts cfg dp Hdp) as (HD & _ & _ & Hdpd & _). fold D in HD, Hdpd.
  destruct (idx_facts c x w Hst) as (Hx & Hw & Hle & Hwn).
  destruct (lookup_lt_is_Some_2 unpadded c) as [n Hun]; [rewrite Hlen; by eapply lookup_lt_Some|].
  assert (Hps' : g_bucket_params g = of_bucket es (Z.of_nat c)).
  { rewrite Hps, E, of_bucket_app, (of_bucket_none rest), app_nil_r; [done|]. eapply Forall_impl; [exact Hrest|]. cbn. lia. }
  assert (Hdvd : (if use_distributed_optimizer cfg then
     m1 ← pymod x dp; assert_ (m1 =? 0) "start_index % self.data_parallel_world_size == 0" ;;
     m2 ← pymod w dp; assert_ (m2 =? 0) "end_index % self.data_parallel_world_size == 0"
   else mret tt) = Ok tt).
  { destruct (use_distributed_optimizer cfg); [|done]. specialize (Hdpd eq_refl). rewrite !pymod_ok by lia. cbn.
    rewrite (proj2 (Z.mod_divide x dp ltac:(lia))) by (by etransitivity). cbn.
    by rewrite (proj2 (Z.mod_divide w dp ltac:(lia))) by (by etransitivity). }
  destruct (register_ok (Z.of_nat c) (of_bucket es (Z.of_nat c)) (bf_param_to_bucket (g_buffer g))) as (m' & Em & Hm1 & Hm2).
  { by apply of_bucket_nodup. }
  { intros p (en & Hin & Hb & <-)%elem_of_bucket. rewrite Hown' by done. by rewrite Hb, Z.ltb_irrefl. }
  set (b := mkBucket (of_bucket es (Z.of_nat c)) (if is_none pn then None else Some (mkView PARAM x w)) (mkView GRAD x w) x n
        scaling (Z.of_nat c) (bucket_index 0 (of_bucket es (Z.of_nat c)))).
  exists (made (bf_buckets (g_buffer g) ++ [b]) m' (bf_data (g_buffer g)) (bf_main_grad (g_buffer g))). split.
  - unfold close_bucket, new_bucket. rewrite Hid, (py_get_nonneg _ _ _ Hun), Hps', Ex, Hbuf.
    cbn [made mbind res_bind bf_cfg bf_dp bf_bucket_indices bf_param_numel bf_param_to_bucket bf_buckets bf_scaling].
    rewrite Hdvd. cbn [mbind res_bind]. rewrite (py_get_nonneg _ _ _ Hst). cbn [mbind res_bind].
    rewrite bool_decide_eq_true_2 by done. cbn [mbind res_bind assert_].
    fold (made (bf_buckets (g_buffer g)) (bf_param_to_bucket (g_buffer g)) (bf_data (g_buffer g)) (bf_main_grad (g_buffer g))).
    rewrite (get_view_ok _ _ _ _ _ _ GRAD) by (done || lia). replace (x + (w - x)) with w by lia.
    assert (Hpd : (if is_none pn then mret None else Some <$> get_view (made (bf_buckets (g_buffer g))
        (bf_param_to_bucket (g_buffer g)) (bf_data (g_buffer g)) (bf_main_grad (g_buffer g))) (w - x) x PARAM)
      = Ok (if is_none pn then None else Some (mkView PARAM x w))).
    { destruct pn eqn:Epn; [|done]. cbn [is_none]. rewrite get_view_ok by (lia || congruence). cbn. do 3 f_equal. lia. }
    rewrite Hpd. cbn [mbind res_bind]. unfold bucket_init. rewrite bool_decide_eq_true_2 by (by apply of_bucket_nodup).
    cbn [mbind res_bind assert_ mret res_ret]. rewrite Em. done.
  - split; cbn; try done.
    + rewrite length_app, Hcount. cbn. lia.
    + intros i b' Hi. apply lookup_snoc_cases in Hi as [[_ Hi]|[-> ->]]; [by apply Hbs|]. rewrite Hcount. by exists x, w, n.
    + intros en Hin. destruct (Z.eq_dec (e_bucket en) (Z.of_nat c)) as [Eb|Eb].
      * rewrite (proj2 (Z.ltb_lt _ _)) by lia. rewrite Eb. apply Hm1, elem_of_bucket. eauto.
      * rewrite Hm2; [rewrite Hown' by done; by destruct (Z.ltb_spec (e_bucket en) (Z.of_nat c)),
          (Z.ltb_spec (e_bucket en) (Z.of_nat (S c))); try lia|].
        intros (p & Ep & (en' & Hin' & Hb' & <-)%elem_of_bucket)%list_elem_of_fmap.
        apply Eb. rewrite <- Hb'. f_equal. eapply (nodup_same_id es); eauto.
Qed.

(** A parameter's data and gradient become views. *)
Lemma map_views_ok es1 c bf en : mapped es1 c bf -> en ∈ es -> (forall en', en' ∈ es1 -> en' ∈ es) ->
  exists bf1 v, map_param_data bf (e_param en) (e_start en) = Ok bf1 /\
    get_view bf1 (p_numel (e_param en)) (e_start en) GRAD = Ok v /\
    mapped (es1 ++ [en]) c (with_views bf1 (bf_data bf1) (<[p_id (e_param en) := v]> (bf_main_grad bf1))).
Proof.
  intros [Hbuf Hcount Hbs Hown' Hgr Hda] Hen Hsub. destruct (entry_inside en Hen) as (x & w & Hi & _ & Hx & Hw & He).
  remember (bf_buckets bf) as bs eqn:E1. remember (bf_param_to_bucket bf) as own eqn:E2.
  remember (bf_data bf) as d eqn:E3. remember (bf_main_grad bf) as gr eqn:E4. subst bf. clear E1 E2 E3 E4.
  assert (Hk : forall (m : gmap Z view) v en', en' ∈ es1 ++ [en] -> (en' ∈ es1 -> m !! p_id (e_param en') = Some v) ->
    (en' = en -> v = mkView (v_type v) (e_start en) (e_end en)) ->
    <[p_id (e_param en) := mkView (v_type v) (e_start en) (e_end en)]> m !! p_id (e_param en') = Some v).
  { intros m v en' Hin Hm Hv. destruct (Z.eq_dec (p_id (e_param en')) (p_id (e_param en))) as [E|E].
    - assert (en' = en) as ->. { apply (nodup_same_id es); [done| |done|done]. apply elem_of_app in Hin as [?| ->%list_elem_of_singleton]; auto. }
      rewrite lookup_insert_eq. by rewrite <- Hv.
    - rewrite lookup_insert_ne by done. apply Hm. apply elem_of_app in Hin as [?| ->%list_elem_of_singleton]; [done|by destruct E]. }
  assert (Hdata : exists d', map_param_data (made bs own d gr) (e_param en) (e_start en) = Ok (made bs own d' gr)
    /\ (reuse_grad_buf_for_mxfp8_param_ag cfg = false -> pn <> None -> forall en', en' ∈ es1 ++ [en] ->
        d' !! p_id (e_param en') = Some (mkView PARAM (e_start en') (e_end en')))).
  { unfold map_param_data. cbn [made bf_cfg bf_param_numel]. fold (made bs own d gr).
    destruct (negb _ && _) eqn:Ec.
    - apply andb_true_iff in Ec as [Er Ep]. apply negb_true_iff in Er, Ep.
      rewrite get_view_ok by (lia || (intros _ ->; done)). cbn [mbind res_bind].
      assert (Ho : (if p_float8 (e_param en) then mret tt else assert_ (p_data_is_base (e_param en)) "old_param_data._base is None") = Ok tt).
      { rewrite Forall_map, Forall_forall in Hown. destruct (Hown en Hen) as [-> | ->]; [done|by destruct (p_float8 _)]. }
      rewrite Ho. cbn [mbind res_bind]. eexists. split; [reflexivity|]. cbn. intros Hr Hp en' Hin. rewrite <- He.
      apply (Hk _ (mkView PARAM (e_start en') (e_end en'))); [done|by apply Hda|by intros ->].
    - exists d. split; [done|]. intros Hr Hp. rewrite Hr in Ec. by destruct pn. }
  destruct Hdata as (d' & Ed & Hd). eexists _, _. split; [exact Ed|]. split; [apply get_view_ok; (done || lia)|].
  rewrite <- He. split; cbn; try done.
  intros en' Hin. apply (Hk _ (mkView GRAD (e_start en') (e_end en'))); [done|by apply Hgr|by intros ->].
Qed.

(** One round of the second loop. *)
Lemma mapping_step_ok es1 en rest c g : es = es1 ++ en :: rest -> cursor es1 c g ->
  exists g' c', mapping_step unpadded g (e_param en) = Ok g' /\ cursor (es1 ++ [en]) c' g'.
Proof.
  intros E C. assert (Hen : en ∈ es) by (rewrite E; set_solver). assert (Hk : es !! length es1 = Some en) by (rewrite E; by apply list_lookup_middle).
  destruct (align_facts cfg dp Hdp) as (HD & _). fold D in HD.
  destruct C as [Cbuf Cid Cps [w Hst] Cend Cfirst Clast].
  destruct (map_views_ok es1 c (g_buffer g) en Cbuf Hen) as (bf1 & v & E1 & E2 & M); [intros en' ?; rewrite E; set_solver|].
  pose proof Cbuf as [Hbuf _ _ _ _ _]. pose proof M as [Hbuf1 Hc1 _ _ _ _].
  assert (Eim : bf_index_map (g_buffer g) = imap) by (by rewrite Hbuf).
  unfold mapping_step. rewrite Eim, (Hmap en Hen), E1. cbn [mbind res_bind].
  rewrite E2. cbn [mbind res_bind]. set (bf2 := with_views _ _ _) in *. rewrite Cid.
  destruct (Z.eq_dec (e_bucket en) (Z.of_nat c)) as [Eb|Eb].
  - rewrite (proj2 (Z.eqb_eq _ _) Eb). cbn [negb]. eexists _, c. split; [reflexivity|]. split; cbn; try done.
    + by rewrite of_bucket_app, Cps, <- Eb, of_bucket_one.
    + eauto.
    + by rewrite last_snoc.
    + by intros [_ ?]%app_eq_nil.
    + intros en'. rewrite last_snoc. by intros [= <-].
  - rewrite (proj2 (Z.eqb_neq _ _) Eb). cbn [negb].
    destruct (last es1) as [el|] eqn:El.
    2: { apply last_None in El. subst es1. rewrite (Cfirst eq_refl) in Eb. cbn in Hk. destruct (pl_first _ _ _ _ _ _ _ P en Hk) as [Hb0 _]. by rewrite Hb0 in Eb. }
    pose proof (Clast el eq_refl) as Hbl.
    assert (Hkl : es !! (pred (length es1)) = Some el). { rewrite last_lookup in El. rewrite E, lookup_app_l; [done|]. by eapply lookup_lt_Some. }
    assert (Hpos : (0 < length es1)%nat) by (destruct es1; [done|cbn; lia]).
    destruct (pl_next _ _ _ _ _ _ _ P (pred (length es1)) el en Hkl) as [_ [[Hb _]|(Hb & x & Hx)]].
    { by replace (S (pred (length es1))) with (length es1) by lia. } { congruence. }
    rewrite Hbl, Nat2Z.id in Hx. rewrite Hst in Hx. injection Hx as _ ->.
    destruct (idx_facts c _ _ Hst) as (_ & Hds & Hr & Hnum).
    assert (Ecf : bf_cfg bf2 = cfg /\ bf_dp bf2 = dp) by (rewrite Hbuf1; done). destruct Ecf as [-> ->].
    rewrite (pad_end_ok cfg dp Hdp Hlim) by lia. cbn [mbind res_bind]. fold D. rewrite padz_id by done.
    destruct (close_bucket_ok es1 (en :: rest) (es1 ++ [en]) c
       (mkMapping bf2 (g_bucket_params g) (g_bucket_start g) (Z.of_nat c) (g_param_end g)) (e_start en)) as (bf3 & E3 & M3); try done.
    { apply Forall_lookup. intros j en' Hj. destruct (plan_mono _ _ _ _ _ _ _ P Hn (length es1) (length es1 + j) en en');
        [lia|done|by rewrite E, lookup_app_r by lia; replace (length es1 + j - length es1)%nat with j by lia|lia]. }
    rewrite E3. cbn [mbind res_bind]. pose proof M3 as [_ Hc3 _ _ _ _]. rewrite Hc3.
    rewrite (proj2 (Z.eqb_eq _ _)) by lia. cbn [mbind res_bind assert_]. rewrite (proj2 (Z.eqb_eq _ _)) by lia. cbn [mbind res_bind assert_].
    eexists _, (S c). split; [reflexivity|]. split; cbn; try done; try lia.
    + replace (Z.of_nat (S c)) with (e_bucket en) by lia. rewrite of_bucket_app, (of_bucket_none es1), of_bucket_one; [done|].
      apply Forall_lookup. intros j en' Hj. pose proof (lookup_lt_Some _ _ _ Hj).
      destruct (plan_mono _ _ _ _ _ _ _ P Hn j (pred (length es1)) en' el); [lia|by rewrite E, lookup_app_l|done|lia].
    + destruct (entry_inside en Hen) as (x' & w' & Hi & _). replace (Z.to_nat (e_bucket en)) with (S c) in Hi by lia.
      rewrite (chain_next _ _ _ _ _ _ _ _ (pl_chain _ _ _ _ _ _ _ P) Hst Hi) in Hi. eauto.
    + by rewrite last_snoc.
    + by intros [_ ?]%app_eq_nil.
    + intros en'. rewrite last_snoc. intros [= <-]. lia.
Qed.

(** The whole second pass. *)
Lemma mapping_ok : es <> [] -> length idx <> 0%nat ->
  exists g bf e, foldR (mapping_step unpadded) (mkMapping (made [] ∅ ∅ ∅) [] 0 0 None) (map e_param es) = Ok g /\
    0 < Z.of_nat (length (g_bucket_params g)) /\ g_param_end g = Some e /\
    (bucket_end ← pad_end_of_bucket_if_needed cfg dp e; close_bucket unpadded bucket_end g) = Ok bf /\
    mapped es (length idx) bf.
Proof.
  intros Hne Hidx. destruct (align_facts cfg dp Hdp) as (HD & _). fold D in HD.
  destruct (foldR_total (fun g en => mapping_step unpadded g (e_param en)) (fun seen g => exists c, cursor seen c g)
    (mkMapping (made [] ∅ ∅ ∅) [] 0 0 None) es) as (g & Hg & c & C).
  - exists 0%nat. split; cbn; try done.
    + split; cbn; try done; try (intros en; set_solver). intros en Hin. rewrite lookup_empty.
      destruct (entry_inside en Hin) as (? & ? & _ & ? & _). by rewrite (proj2 (Z.ltb_ge _ _)).
    + pose proof (pl_chain _ _ _ _ _ _ _ P) as Hc. destruct idx as [|[x w] r]; [by destruct Hidx|]. destruct Hc as (-> & _). eauto.
  - intros seen en rest g E (c & C). destruct (mapping_step_ok seen en rest c g E C) as (g' & c' & H1 & H2). eauto.
  - destruct (last es) as [el|] eqn:El; [|by apply last_None in El].
    pose proof (pl_open _ _ _ _ _ _ _ P el El) as [_ Ho]. rewrite bool_decide_eq_true_2 in Ho by done. destruct Ho as (Hb & _ & Hpad).
    pose proof C as [Cbuf Cid Cps [w Hst] Cend Cfirst Clast]. specialize (Clast el El). rewrite El in Cend. cbn in Cend.
    assert (Hel : el ∈ es) by (rewrite last_lookup in El; by eapply list_elem_of_lookup_2).
    destruct (entry_inside el Hel) as (x' & w' & Hi & _ & Hx' & Hw' & _).
    assert (w = numel) as ->.
    { apply (chain_last 0 idx numel (g_bucket_start g) w); [apply (pl_chain _ _ _ _ _ _ _ P)|]. rewrite last_lookup, <- Hst. f_equal. lia. }
    destruct (close_bucket_ok es [] es c g numel) as (bf & Hbf & M); [by rewrite app_nil_r|constructor|done..|].
    replace (S c) with (length idx) in M by lia. exists g, bf, (e_end el). split; [|split_and!; [|done| |done]].
    + rewrite <- Hg. clear. generalize (mkMapping (made [] ∅ ∅ ∅) [] 0 0 None). induction es as [|en l IH]; intros g0; cbn; [done|].
      destruct (mapping_step unpadded g0 (e_param en)); cbn; [apply IH|done].
    + rewrite Cps. assert (e_param el ∈ of_bucket es (Z.of_nat c)) as Hin by (apply elem_of_bucket; eauto).
      destruct (of_bucket es (Z.of_nat c)); [set_solver|cbn; lia].
    + assert (0 <= e_end el) by (apply list_elem_of_lookup in Hel as [k Hk]; pose proof (entry_le _ _ _ _ _ _ _ P Hn k el Hk); lia).
      rewrite (pad_end_ok cfg dp Hdp Hlim) by lia. cbn [mbind res_bind]. fold D. by rewrite <- Hpad.
Qed.
End SecondPass.

(* ================================================================== *)
(** ** The buckets hold the parameters in order                        *)
(* ================================================================== *)

Definition in_order (es : list entry) : Prop := StronglySorted (fun x y => e_bucket x <= e_bucket y) es.

Lemma in_order_filter (Q : entry -> Prop) `{!forall en, Decision (Q en)} es : in_order es -> in_order (filter Q es).
Proof.
  induction 1 as [|en es Hs IH Hf]; [constructor|]. cbn. destruct (decide (Q en)); [|done]. constructor; [done|].
  rewrite Forall_forall in Hf. apply Forall_forall. intros x [_ Hx]%list_elem_of_filter. auto.
Qed.

(** The first bucket is a prefix. *)
Lemma in_order_split es a : in_order es -> Forall (fun en => a <= e_bucket en) es ->
  map e_param es = of_bucket es a ++ map e_param (filter (fun en => e_bucket en <> a) es).
Proof.
  unfold of_bucket. induction 1 as [|en es Hs IH Hf]; intros Ha; [done|]. inversion Ha as [|? ? Hen Ha']; subst.
  destruct (decide (e_bucket en = a)) as [Ea|Ea].
  - rewrite filter_cons_True by done. rewrite filter_cons_False by tauto. cbn. by rewrite IH.
  - rewrite filter_cons_False by done. rewrite filter_cons_True by done. cbn.
    fold (of_bucket es a). rewrite of_bucket_none.
    + cbn. f_equal. specialize (IH Ha'). fold (of_bucket es a) in IH. rewrite of_bucket_none in IH; [done|].
      eapply Forall_impl; [exact Hf|]. cbn. lia.
    + eapply Forall_impl; [exact Hf|]. cbn. lia.
Qed.

Lemma of_bucket_other es a i : i <> a -> of_bucket (filter (fun en => e_bucket en <> a) es) i = of_bucket es i.
Proof.
  intros Hi. unfold of_bucket. rewrite list_filter_filter_l; [done|]. intros en. lia.
Qed.

Lemma concat_buckets (n : nat) es a : in_order es -> Forall (fun en => a <= e_bucket en < a + Z.of_nat n) es ->
  concat (map (fun k => of_bucket es (a + Z.of_nat k)) (seq 0 n)) = map e_param es.
Proof.
  revert es a. induction n as [|n IH]; intros es a Ho Hb.
  - destruct es as [|en es]; [done|]. inversion Hb; lia.
  - cbn [seq map concat]. rewrite Z.add_0_r, (in_order_split es a); [|done|eapply Forall_impl; [exact Hb|]; cbn; lia].
    f_equal. rewrite <- seq_shift, map_map, <- (IH (filter (fun en => e_bucket en <> a) es) (a + 1)).
    + f_equal. apply map_ext. intros k. rewrite of_bucket_other by lia. f_equal. lia.
    + by apply in_order_filter.
    + apply Forall_forall. intros en [Hne Hin]%list_elem_of_filter. rewrite Forall_forall in Hb. specialize (Hb en Hin). lia.
Qed.

Lemma in_order_lookup es : (forall i j en en', (i <= j)%nat -> es !! i = Some en -> es !! j = Some en' -> e_bucket en <= e_bucket en') ->
  in_order es.
Proof.
  induction es as [|en es IH]; intros Hl; [constructor|]. constructor.
  - apply IH. intros i j x y Hij Hi Hj. apply (Hl (S i) (S j)); [lia|done|done].
  - apply Forall_lookup. intros j x Hj. apply (Hl 0%nat (S j)); [lia|done|done].
Qed.

(* ================================================================== *)
(** ** The constructor                                                 *)
(* ================================================================== *)

Lemma param_storage_ok cfg gd params numel : 0 <= numel < 2 ^ 53 ->
  exists pn, param_storage cfg gd params numel = Ok pn /\ is_none pn = negb (use_distributed_optimizer cfg).
Proof.
  intros Hn. unfold param_storage. destruct (use_distributed_optimizer cfg); [|by exists None]. destruct (_ && _); [|eauto].
  pose proof (ceil_truediv numel 2 Hn ltac:(lia)) as H. destruct (truediv numel 2) as [q|]; [|done]. cbn [mbind res_bind] in *.
  rewrite H. cbn. eauto.
Qed.

(** Parameters that the constructor accepts: distinct, each with its own storage,
    and with a total size in the range where binary64 padding is exact. *)
Record acceptable (cfg : ddp_config) (dp : Z) (params : list param) : Prop := {
  ac_dp : 0 < dp;
  ac_some : params <> [];
  ac_numel : Forall (fun p => 0 <= p_numel p) params;
  ac_distinct : NoDup (map p_id params);
  ac_base : Forall (fun p => p_float8 p = true \/ p_data_is_base p = true) params;
  ac_size : total_cost cfg dp (reverse params) + bucket_align cfg dp < 2 ^ 53
}.

(** What the two passes leave: the plan, the buffer made from it, and the unpadded sizes. *)
Lemma buffer_init_full cfg pd gd params dp bsz scaling : acceptable cfg dp params ->
  exists bf es unpadded nun idx imap pn numel, buffer_init cfg pd gd params dp bsz scaling = Ok bf /\
    plan (bucket_align cfg dp) (param_align cfg) es idx numel [] numel /\
    length unpadded = length idx /\ map e_param es = reverse params /\
    is_none pn = negb (use_distributed_optimizer cfg) /\
    zsum unpadded <= numel /\ (use_distributed_optimizer cfg = false -> zsum unpadded = numel /\ numel = zsum (map p_numel params)) /\
    mapped cfg dp pd gd params scaling numel nun idx imap pn unpadded es es (length idx) bf /\
    nun = zsum unpadded /\
    (forall en, en ∈ es -> imap !! p_id (e_param en) = Some (e_start en, e_end en, e_bucket en)) /\
    (forall i n, unpadded !! i = Some n -> exists x w, idx !! i = Some (x, w) /\ 0 <= n <= w - x /\
       forall en, en ∈ es -> e_bucket en = Z.of_nat i -> e_end en <= x + n).
Proof.
  intros [Hdp Hne Hnn Hnd Hown Hlimit]. destruct (align_facts cfg dp Hdp) as (HD & _).
  assert (Hlim : bucket_align cfg dp < 2 ^ 53).
  { pose proof (total_cost_nonneg cfg dp Hdp (reverse params) ltac:(by apply Forall_reverse)). lia. }
  destruct (compute_layout_ok cfg dp bsz Hdp Hlim params Hne Hnn Hnd Hlimit) as (y & numel & es & Ey & (L & Hps & Hbs) & Ees & Hnumel).
  destruct (param_storage_ok cfg gd params numel Hnumel) as (pn & Epn & Hpn).
  pose proof (la_plan _ _ _ _ L) as P. cbn in P. rewrite Hbs, Hps in P.
  assert (Hes : es <> []). { intros ->. cbn in Ees. symmetry in Ees. apply (f_equal reverse) in Ees. by rewrite reverse_involutive in Ees. }
  assert (Hidx : length (y_bucket_indices y) <> 0%nat).
  { pose proof (pl_ps _ _ _ _ _ _ _ P eq_refl Hes) as Hi. by destruct (y_bucket_indices y). }
  destruct (mapping_ok cfg dp Hdp Hlim pd gd params scaling numel (zsum (y_unpadded y)) (y_bucket_indices y) (y_index_map y) pn
    (y_unpadded y) es P) as (g & bf & e & Hg & Hlen & He & Hbf & M); try done.
  { apply (la_unpadded _ _ _ _ L). }
  { apply (la_map _ _ _ _ L). }
  { rewrite Ees. by rewrite reverse_Permutation. }
  { rewrite Ees. by apply Forall_reverse. }
  { rewrite Ees. by apply Forall_reverse. }
  destruct (la_sum _ _ _ _ L) as [Hs1 Hs2]. cbn -[zsum] in Hs1, Hs2. rewrite Hbs in Hs1, Hs2.
  exists bf, es, (y_unpadded y), (zsum (y_unpadded y)), (y_bucket_indices y), (y_index_map y), pn, numel.
  assert (Hde : use_distributed_optimizer cfg = false -> numel = zsum (map p_numel params)).
  { intros Ho. pose proof (la_dense _ _ _ _ L Ho) as Hd. cbn -[zsum] in Hd. rewrite Hd, Ees. by rewrite reverse_Permutation. }
  split; [|split_and!; auto; [apply (la_unpadded _ _ _ _ L)|apply (la_map _ _ _ _ L)|apply (la_fit _ _ _ _ L)]].
  unfold buffer_init. rewrite bool_decide_eq_true_2 by done. cbn [mbind res_bind assert_]. rewrite Ey. cbn [mbind res_bind].
  rewrite Epn. cbn [mbind res_bind]. fold (made cfg dp pd gd params scaling numel (zsum (y_unpadded y)) (y_bucket_indices y) (y_index_map y) pn [] ∅ ∅ ∅).
  rewrite <- Ees, Hg. cbn [mbind res_bind]. rewrite (proj2 (Z.ltb_lt _ _) Hlen), He. exact Hbf.
Qed.

Lemma buffer_init_aux cfg pd gd params dp bsz scaling : acceptable cfg dp params ->
  exists bf es unpadded nun idx imap pn numel, buffer_init cfg pd gd params dp bsz scaling = Ok bf /\
    plan (bucket_align cfg dp) (param_align cfg) es idx numel [] numel /\
    length unpadded = length idx /\ map e_param es = reverse params /\
    is_none pn = negb (use_distributed_optimizer cfg) /\
    zsum unpadded <= numel /\ (use_distributed_optimizer cfg = false -> zsum unpadded = numel /\ numel = zsum (map p_numel params)) /\
    mapped cfg dp pd gd params scaling numel nun idx imap pn unpadded es es (length idx) bf.
Proof.
  intros Ha. destruct (buffer_init_full cfg pd gd params dp bsz scaling Ha)
    as (bf & es & unp & nun & idx & imap & pn & numel & H1 & H2 & H3 & H4 & H5 & H6 & H7 & H8 & _).
  exists bf, es, unp, nun, idx, imap, pn, numel. done.
Qed.

(** Every bucket of a plan has an entry. *)
Lemma plan_covers D A es idx bs st : plan D A es idx bs [] st -> es <> [] -> forall i, (i < length idx)%nat -> exists en, en ∈ es /\ e_bucket en = Z.of_nat i.
Proof.
  intros P Hne i Hi.
  assert (Hup : forall k en, es !! k = Some en -> forall j, 0 <= j <= e_bucket en -> exists en', en' ∈ es /\ e_bucket en' = j).
  { induction k as [|k IH]; intros en Hk j Hj.
    - pose proof (pl_first _ _ _ _ _ _ _ P en Hk) as [H0 _]. exists en. split; [by eapply list_elem_of_lookup_2|lia].
    - destruct (lookup_lt_is_Some_2 es k) as [en0 H0]; [apply lookup_lt_Some in Hk; lia|].
      destruct (pl_next _ _ _ _ _ _ _ P k en0 en H0 Hk) as [_ [[Eb _]|[Eb _]]].
      + apply (IH en0 H0). lia.
      + destruct (decide (j = e_bucket en)) as [->|]; [exists en; split; [by eapply list_elem_of_lookup_2|done]|]. apply (IH en0 H0). lia. }
  destruct (last es) as [en|] eqn:El; [|by apply last_None in El]. pose proof (pl_open _ _ _ _ _ _ _ P en El) as [_ Ho]. cbn in Ho.
  rewrite last_lookup in El. apply (Hup _ en El). lia.
Qed.

Lemma of_bucket_elem es en : en ∈ es -> e_param en ∈ of_bucket es (e_bucket en).
Proof. intros Hin. unfold of_bucket. apply list_elem_of_fmap. exists en. split; [done|]. by apply list_elem_of_filter. Qed.

Lemma buffer_init_ok cfg pd gd params dp bsz scaling : acceptable cfg dp params ->
  exists bf, buffer_init cfg pd gd params dp bsz scaling = Ok bf /\
    (bf_cfg bf = cfg /\ bf_param_dtype bf = pd /\ bf_dp bf = dp /\ Forall (fun b => b_params b <> []) (bf_buckets bf)) /\
    chain 0 (bf_bucket_indices bf) (bf_numel bf) /\
    concat (map b_params (bf_buckets bf)) = reverse params /\
    length (bf_buckets bf) = length (bf_bucket_indices bf) /\
    forall i b, bf_buckets bf !! i = Some b ->
      b_id b = Z.of_nat i /\
      bf_bucket_indices bf !! i = Some (v_start (b_grad_data b), v_end (b_grad_data b)) /\
      b_offset b = v_start (b_grad_data b) /\
      b_param_data b = (if use_distributed_optimizer cfg
                        then Some (mkView PARAM (v_start (b_grad_data b)) (v_end (b_grad_data b))) else None) /\
      (bucket_align cfg dp | v_start (b_grad_data b)) /\ (bucket_align cfg dp | v_end (b_grad_data b)).
Proof.
  intros Ha. destruct (buffer_init_aux cfg pd gd params dp bsz scaling Ha)
    as (bf & es & unp & nun & idx & imap & pn & numel & Hbf & P & Hlen & Ees & Hpn & _ & _ & M).
  exists bf. split; [done|]. destruct M as [Hb Hc Hbs _ _ _]. split.
  { split_and!; [by rewrite Hb..|]. apply Forall_lookup. intros i b Hi. destruct (Hbs i b Hi) as (x & w & n & _ & _ & ->). cbn.
    assert (Hes : es <> []). { intros ->. cbn in Ees. symmetry in Ees. apply (f_equal reverse) in Ees. rewrite reverse_involutive in Ees. by apply (ac_some _ _ _ Ha). }
    destruct (plan_covers _ _ es idx numel numel P Hes i) as (en & Hen & Hbk); [rewrite <- Hc; by eapply lookup_lt_Some|].
    apply (of_bucket_elem es en) in Hen. rewrite Hbk in Hen. intros Hnil. rewrite Hnil in Hen. by apply elem_of_nil in Hen. }
  assert (bf_bucket_indices bf = idx /\ bf_numel bf = numel) as [-> ->] by (rewrite Hb; done).
  split; [apply (pl_chain _ _ _ _ _ _ _ P)|]. split; [|split; [done|]].
  - rewrite <- Ees, <- (concat_buckets (length idx) es 0).
    + f_equal. apply list_eq. intros i. change (map b_params (bf_buckets bf)) with (b_params <$> bf_buckets bf).
      change (map ?f (seq 0 ?n)) with (f <$> seq 0 n). rewrite !list_lookup_fmap.
      destruct (bf_buckets bf !! i) as [b|] eqn:Ei.
      * destruct (Hbs i b Ei) as (x & w & n & _ & _ & ->). rewrite lookup_seq_lt by (rewrite <- Hc; by eapply lookup_lt_Some). done.
      * rewrite lookup_seq_ge; [done|]. rewrite <- Hc. by apply lookup_ge_None.
    + apply in_order_lookup. intros i j en en' Hij Hi Hj. eapply (plan_mono _ _ _ _ _ _ _ P); [|exact Hij|done|done].
      rewrite Ees. apply Forall_reverse, (ac_numel _ _ _ Ha).
    + apply Forall_lookup. intros k en Hk. pose proof (pl_entry _ _ _ _ _ _ _ P k en Hk) as (_ & _ & Hk0 & _).
      pose proof (pl_closed _ _ _ _ _ _ _ P eq_refl en (list_elem_of_lookup_2 _ _ _ Hk)). lia.
  - intros i b Hi. destruct (Hbs i b Hi) as (x & w & n & Hx & _ & ->). cbn.
    pose proof (pl_aligned _ _ _ _ _ _ _ P) as Hal. rewrite Forall_lookup in Hal. destruct (Hal i (x, w) Hx) as [Hal1 Hal2].
    split_and!; try done. rewrite Hpn. by destruct (use_distributed_optimizer cfg).
Qed.

(** Every bucket gets the factor of its buffer. *)
Lemma buffer_init_scaled cfg pd gd params dp bsz scaling bf : acceptable cfg dp params -> buffer_init cfg pd gd params dp bsz scaling = Ok bf ->
  Forall (fun b => b_gradient_scaling_factor b = scaling) (bf_buckets bf).
Proof.
  intros Ha E. destruct (buffer_init_aux cfg pd gd params dp bsz scaling Ha) as (bf' & es & unp & nun & idx & imap & pn & numel & E' & _ & _ & _ & _ & _ & _ & M).
  rewrite E in E'. injection E' as <-. destruct M as [_ _ Hbs _ _ _]. apply Forall_lookup. intros i b Hi. by destruct (Hbs i b Hi) as (x & w & n & _ & _ & ->).
Qed.

(** (C11) The constructor of a buffer never fails on acceptable parameters, whatever
    the bucket size; its buckets tile the buffer from 0 to [numel] in order, have the
    padded ranges of the first pass, and hold exactly the parameters, in backward order. *)
Theorem buffer_init_spec cfg pd gd params dp bsz scaling : acceptable cfg dp params ->
  exists bf, buffer_init cfg pd gd params dp bsz scaling = Ok bf /\
    chain 0 (bf_bucket_indices bf) (bf_numel bf) /\
    concat (map b_params (bf_buckets bf)) = reverse params /\
    length (bf_buckets bf) = length (bf_bucket_indices bf) /\
    forall i b, bf_buckets bf !! i = Some b ->
      b_id b = Z.of_nat i /\
      bf_bucket_indices bf !! i = Some (v_start (b_grad_data b), v_end (b_grad_data b)) /\
      b_offset b = v_start (b_grad_data b) /\
      b_param_data b = (if use_distributed_optimizer cfg
                        then Some (mkView PARAM (v_start (b_grad_data b)) (v_end (b_grad_data b))) else None) /\
      (bucket_align cfg dp | v_start (b_grad_data b)) /\ (bucket_align cfg dp | v_end (b_grad_data b)).
Proof. intros Ha. destruct (buffer_init_ok cfg pd gd params dp bsz scaling Ha) as (bf & Hbf & _ & H). by exists bf. Qed.

Lemma ex_acceptable : acceptable distopt_cfg 3 ex_params.
Proof.
  split; [lia|done| | | |vm_compute; done]; try (repeat constructor; cbn; auto; lia).
  apply (bool_decide_unpack _). vm_compute. exact I.
Qed.

(** The constructor on four parameters, with a distributed optimizer on three ranks. *)
Lemma buffer_init_spec_witness : exists bf, buffer_init distopt_cfg BFloat16 Float32 ex_params 3 (Some 200) f64_one = Ok bf /\
  concat (map b_params (bf_buckets bf)) = reverse ex_params.
Proof.
  destruct (buffer_init_spec distopt_cfg BFloat16 Float32 ex_params 3 (Some 200) f64_one ex_acceptable) as (bf & H1 & _ & H2 & _).
  exists bf. split; assumption.
Defined.

(** (C23) Every parameter's [main_grad] (and, with a distributed optimizer, its data) is a
    view of its own [numel] elements inside the range of the bucket that owns it, it starts at a
    multiple of the parameter alignment, and the views of different parameters are disjoint. *)
Theorem param_views_spec cfg pd gd params dp bsz scaling bf : acceptable cfg dp params ->
  buffer_init cfg pd gd params dp bsz scaling = Ok bf ->
  (forall i b p, bf_buckets bf !! i = Some b -> p ∈ b_params b ->
     bf_param_to_bucket bf !! p_id p = Some (Z.of_nat i) /\
     exists s, bf_main_grad bf !! p_id p = Some (mkView GRAD s (s + p_numel p)) /\ (param_align cfg | s) /\
       v_start (b_grad_data b) <= s /\ s + p_numel p <= v_end (b_grad_data b) /\
       (use_distributed_optimizer cfg = true -> reuse_grad_buf_for_mxfp8_param_ag cfg = false ->
        bf_data bf !! p_id p = Some (mkView PARAM s (s + p_numel p)))) /\
  (forall p q, p ∈ params -> q ∈ params -> p <> q -> exists vp vq,
     bf_main_grad bf !! p_id p = Some vp /\ bf_main_grad bf !! p_id q = Some vq /\
     (v_end vp <= v_start vq \/ v_end vq <= v_start vp)).
Proof.
  intros Ha Hok. destruct (buffer_init_aux cfg pd gd params dp bsz scaling Ha)
    as (bf' & es & unp & nun & idx & imap & pn & numel & Hbf & P & Hlen & Ees & Hpn & _ & _ & M).
  rewrite Hok in Hbf. injection Hbf as <-. destruct M as [Hb Hc Hbs Ho Hg Hd].
  assert (Hn : Forall (fun p => 0 <= p_numel p) (map e_param es)) by (rewrite Ees; apply Forall_reverse, (ac_numel _ _ _ Ha)).
  split.
  - intros i b p Hi. destruct (Hbs i b Hi) as (x & w & n & Hx & _ & ->). cbn.
    intros (en & Hin & Hbi & <-)%elem_of_bucket. pose proof (lookup_lt_Some _ _ _ Hx) as Hlt.
    rewrite (Ho en Hin), Hbi, (proj2 (Z.ltb_lt _ _)) by lia. split; [done|].
    pose proof (Hg en Hin) as Hgr. pose proof Hin as [k Hk]%list_elem_of_lookup.
    destruct (pl_entry _ _ _ _ _ _ _ P k en Hk) as (He & Hal & _ & Hcl & _).
    destruct Hcl as (x' & w' & Hx' & Hin'); [lia|]. rewrite Hbi, Nat2Z.id, Hx in Hx'. injection Hx' as <- <-.
    exists (e_start en). rewrite <- He. split_and!; try done; try lia.
    intros Hdo Hr. apply Hd; [done| |done]. rewrite Hdo in Hpn. by intros ->.
  - intros p q Hp Hq Hne.
    assert (Hfind : forall r, r ∈ params -> exists en, en ∈ es /\ e_param en = r).
    { intros r Hr. assert (r ∈ map e_param es) as (en & -> & Hen)%list_elem_of_fmap by (rewrite Ees; by apply elem_of_reverse). eauto. }
    destruct (Hfind p Hp) as (ep & Hep & <-), (Hfind q Hq) as (eq & Heq & <-).
    eexists _, _. split_and!; [by apply Hg|by apply Hg|]. cbn. eapply (plan_disjoint _ _ _ _ _ _ _ P Hn); [done..|congruence].
Qed.

Lemma param_views_spec_witness : exists bf,
  buffer_init distopt_cfg BFloat16 Float32 ex_params 3 (Some 200) f64_one = Ok bf /\
  forall p q, p ∈ ex_params -> q ∈ ex_params -> p <> q -> exists vp vq,
     bf_main_grad bf !! p_id p = Some vp /\ bf_main_grad bf !! p_id q = Some vq /\
     (v_end vp <= v_start vq \/ v_end vq <= v_start vp).
Proof.
  destruct (buffer_init distopt_cfg BFloat16 Float32 ex_params 3 (Some 200) f64_one) as [bf|] eqn:E; [|vm_compute in E; discriminate E].
  exists bf. split; [reflexivity|].
  apply (param_views_spec distopt_cfg BFloat16 Float32 ex_params 3 (Some 200) f64_one bf ex_acceptable E).
Defined.

(** *** Shards *)

Lemma chain_shards a k (n : nat) : 0 <= k ->
  chain (a * k) (map (fun r => (r * k, (r + 1) * k)) (zrange a (a + Z.of_nat n))) ((a + Z.of_nat n) * k).
Proof.
  intros Hk. revert a. induction n as [|n IH]; intros a.
  - rewrite Z.add_0_r. by rewrite zrange_nil by lia.
  - rewrite zrange_cons by lia. replace (a + Z.of_nat (S n)) with (a + 1 + Z.of_nat n) by lia.
    cbn [map chain]. split; [done|]. split; [nia|]. apply IH.
Qed.

Lemma shard_buffer_aux numel dp : 0 < dp -> 0 <= numel -> (dp | numel) ->
  exists shards, shard_buffer numel dp = Ok shards /\ Z.of_nat (length shards) = dp /\ chain 0 shards numel /\
    Forall (fun '(x, w) => w - x = numel / dp) shards.
Proof.
  intros Hdp Hn [k ->]. unfold shard_buffer. rewrite pymod_ok by lia. rewrite Z.mod_mul by lia. cbn [mbind res_bind Z.eqb assert_].
  rewrite floordiv_ok by lia. cbn [mbind res_bind]. rewrite Z.div_mul by lia. eexists. split; [reflexivity|]. split_and!.
  - rewrite length_map, length_zrange. lia.
  - pose proof (chain_shards 0 k (Z.to_nat dp) ltac:(nia)) as H. rewrite Z2Nat.id in H by lia.
    by replace ((0 + dp) * k) with (k * dp) in H by lia.
  - apply Forall_map, Forall_forall. intros r _. cbn. lia.
Qed.

(** With a distributed optimizer every bucket of a buffer can be sharded: [shard_buffer] passes
    its divisibility assertion and returns one shard per rank; the shards have equal size
    and tile the bucket. *)
Theorem bucket_shards_spec cfg pd gd params dp bsz scaling bf b : acceptable cfg dp params ->
  use_distributed_optimizer cfg = true -> buffer_init cfg pd gd params dp bsz scaling = Ok bf -> b ∈ bf_buckets bf ->
  let size := v_end (b_grad_data b) - v_start (b_grad_data b) in
  exists shards, shard_buffer size dp = Ok shards /\ Z.of_nat (length shards) = dp /\ chain 0 shards size /\
    Forall (fun '(x, w) => w - x = size / dp) shards.
Proof.
  intros Ha Hdo Hok [i Hi]%list_elem_of_lookup size. destruct (buffer_init_aux cfg pd gd params dp bsz scaling Ha)
    as (bf' & es & unp & nun & idx & imap & pn & numel & Hbf & P & _ & _ & _ & _ & _ & M).
  rewrite Hok in Hbf. injection Hbf as <-. destruct (mp_buckets _ _ _ _ _ _ _ _ _ _ _ _ _ _ _ _ M i b Hi) as (x & w & n & Hx & _ & ->).
  destruct (align_facts cfg dp (ac_dp _ _ _ Ha)) as (_ & _ & _ & Hdpd & _). specialize (Hdpd Hdo).
  pose proof (chain_lookup _ _ _ _ _ _ (pl_chain _ _ _ _ _ _ _ P) Hx). pose proof (pl_aligned _ _ _ _ _ _ _ P) as Hal.
  rewrite Forall_lookup in Hal. destruct (Hal i (x, w) Hx) as [Hal1 Hal2]. unfold size. cbn.
  apply shard_buffer_aux; [apply (ac_dp _ _ _ Ha)|lia|]. apply Z.divide_sub_r; by etransitivity.
Qed.

Lemma bucket_shards_spec_witness : exists bf b shards,
  buffer_init distopt_cfg BFloat16 Float32 ex_params 3 (Some 200) f64_one = Ok bf /\ b ∈ bf_buckets bf /\
  shard_buffer (v_end (b_grad_data b) - v_start (b_grad_data b)) 3 = Ok shards.
Proof.
  destruct (buffer_init distopt_cfg BFloat16 Float32 ex_params 3 (Some 200) f64_one) as [bf|] eqn:E; [|vm_compute in E; discriminate E].
  assert (Hb : exists b, b ∈ bf_buckets bf).
  { destruct (bf_buckets bf) as [|b l] eqn:Eb; [|exists b; by left]. exfalso. revert Eb. vm_compute in E. injection E as <-. discriminate. }
  destruct Hb as [b Hb].
  destruct (bucket_shards_spec distopt_cfg BFloat16 Float32 ex_params 3 (Some 200) f64_one bf b ex_acceptable eq_refl E Hb) as (sh & Hs & _).
  exists bf, b, sh. split; [reflexivity|]. split; assumption.
Defined.

(** Without a distributed optimizer there is no padding: the buffer has exactly as many
    elements as the parameters together. *)
Theorem unpadded_numel cfg pd gd params dp bsz scaling bf : acceptable cfg dp params ->
  use_distributed_optimizer cfg = false -> buffer_init cfg pd gd params dp bsz scaling = Ok bf ->
  bf_numel bf = zsum (map p_numel params).
Proof.
  intros Ha Hdo Hok. destruct (buffer_init_aux cfg pd gd params dp bsz scaling Ha)
    as (bf' & es & unp & nun & idx & imap & pn & numel & Hbf & _ & _ & _ & _ & _ & Hde & M).
  rewrite Hok in Hbf. injection Hbf as <-. destruct (Hde Hdo) as [_ <-].
  pose proof (mp_buf _ _ _ _ _ _ _ _ _ _ _ _ _ _ _ _ M) as ->. done.
Qed.

Lemma unpadded_numel_witness : exists bf, buffer_init default_ddp BFloat16 Float32 ex_params 3 (Some 200) f64_one = Ok bf /\
  bf_numel bf = 475.
Proof.
  assert (Ha : acceptable default_ddp 3 ex_params).
  { split; [lia|done| |apply (ac_distinct _ _ _ ex_acceptable)| |vm_compute; done]; repeat constructor; cbn; auto; lia. }
  destruct (buffer_init default_ddp BFloat16 Float32 ex_params 3 (Some 200) f64_one) as [bf|] eqn:E; [|vm_compute in E; discriminate E].
  exists bf. split; [reflexivity|].
  exact (unpadded_numel default_ddp BFloat16 Float32 ex_params 3 (Some 200) f64_one bf Ha eq_refl E).
Defined.

(** *** [param_to_index] *)

Definition entries_of (es : list entry) (i : Z) : list entry := filter (fun en => e_bucket en = i) es.

(** The entries of one bucket are a segment. *)
Lemma in_order_segment es i : in_order es -> exists l r, es = l ++ entries_of es i ++ r /\ Forall (fun en => e_bucket en < i) l.
Proof.
  unfold entries_of. induction 1 as [|en es Hs IH Hf]; [by exists [], []|]. destruct IH as (l & r & E & Hl).
  destruct (Z.lt_trichotomy (e_bucket en) i) as [Hlt|[Heq|Hgt]].
  - exists (en :: l), r. rewrite filter_cons_False by lia. split; [cbn; by f_equal|by constructor].
  - exists [], r. rewrite filter_cons_True by done. split; [|done].
    assert (l = []) as ->; [|cbn in *; by f_equal]. destruct l as [|x l]; [done|]. exfalso. inversion Hl; subst.
    rewrite E in Hf. cbn in Hf. inversion Hf; subst. lia.
  - exists [], (en :: es). rewrite filter_cons_False by lia. split; [|done].
    assert (Hn : filter (fun en => e_bucket en = i) es = []); [|by rewrite Hn].
    destruct (filter (fun en => e_bucket en = i) es) as [|x f] eqn:Ef; [done|exfalso].
    assert (Hin : x ∈ filter (fun en => e_bucket en = i) es) by (rewrite Ef; left). apply list_elem_of_filter in Hin as [Hb Hin].
    rewrite Forall_forall in Hf. specialize (Hf x Hin). lia.
Qed.

(** Adjacent entries have the offsets that the bucket computes. *)
Lemma bucket_index_adjacent x a l : (forall en, l !! 0%nat = Some en -> e_start en = x + a) ->
  (forall k en en', l !! k = Some en -> l !! S k = Some en' -> e_start en' = e_end en) ->
  (forall k en, l !! k = Some en -> e_end en = e_start en + p_numel (e_param en)) ->
  bucket_index a (map e_param l) = map (fun en => (p_id (e_param en), (e_start en - x, e_end en - x))) l.
Proof.
  revert a. induction l as [|en l IH]; intros a H0 Hadj Hend; [done|]. cbn.
  specialize (H0 en eq_refl). pose proof (Hend 0%nat en eq_refl) as He. f_equal; [do 2 f_equal; lia|]. apply IH.
  - intros en' Hen'. rewrite (Hadj 0%nat en en' eq_refl Hen'). lia.
  - intros k. apply (Hadj (S k)).
  - intros k. apply (Hend (S k)).
Qed.

Lemma param_to_index_aux cfg dp es idx numel i x w : 0 < dp ->
  plan (bucket_align cfg dp) (param_align cfg) es idx numel [] numel ->
  Forall (fun p => 0 <= p_numel p /\ (param_align cfg | p_numel p)) (map e_param es) -> idx !! i = Some (x, w) ->
  bucket_index 0 (of_bucket es (Z.of_nat i)) =
  map (fun en => (p_id (e_param en), (e_start en - x, e_end en - x))) (entries_of es (Z.of_nat i)).
Proof.
  intros Hdp P Hn Hx. destruct (align_facts cfg dp Hdp) as (_ & HA & _).
  assert (Hn1 : Forall (fun p => 0 <= p_numel p) (map e_param es)) by (eapply Forall_impl; [exact Hn|]; cbn; tauto).
  assert (Ho : in_order es) by (apply in_order_lookup; intros; by eapply (plan_mono _ _ _ _ _ _ _ P Hn1)).
  destruct (in_order_segment es (Z.of_nat i) Ho) as (l & r & E & Hl).
  assert (Hseg : forall k en, entries_of es (Z.of_nat i) !! k = Some en -> es !! (length l + k)%nat = Some en /\ e_bucket en = Z.of_nat i).
  { intros k en Hk. split.
    - rewrite E, lookup_app_r by lia. replace (length l + k - length l)%nat with k by lia. by apply lookup_app_l_Some.
    - apply list_elem_of_lookup_2, list_elem_of_filter in Hk. tauto. }
  assert (Hal : forall k en, es !! k = Some en -> padz (e_end en) (param_align cfg) = e_end en).
  { intros k en Hk. destruct (pl_entry _ _ _ _ _ _ _ P k en Hk) as (-> & Hs & _). apply padz_id; [done|].
    apply Z.divide_add_r; [done|]. rewrite Forall_map, Forall_lookup in Hn. by destruct (Hn k en Hk). }
  apply bucket_index_adjacent.
  - intros en Hk. destruct (Hseg _ _ Hk) as [Hk' Hb]. rewrite Nat.add_0_r in Hk'. rewrite Z.add_0_r.
    destruct (decide (l = [])) as [->|Hne].
    + destruct (pl_first _ _ _ _ _ _ _ P en Hk') as [Hb0 ->]. assert (i = 0%nat) as -> by lia.
      pose proof (pl_chain _ _ _ _ _ _ _ P) as Hc. destruct idx as [|[x' w'] idx']; [done|]. cbn in Hx, Hc. injection Hx as -> ->. by destruct Hc.
    + destruct l as [|en0 l0] using rev_ind; [done|]. clear IHl0. apply Forall_app in Hl as [_ Hl]. inversion Hl as [|? ? Hlt _]; subst.
      rewrite length_app in Hk'. cbn in Hk'. rewrite Nat.add_1_r in Hk'.
      assert (Hk0 : es !! length l0 = Some en0). { rewrite E, <- app_assoc. by apply list_lookup_middle. }
      destruct (pl_next _ _ _ _ _ _ _ P _ _ _ Hk0 Hk') as [_ [[Hbb _]|(Hbb & x' & Hx')]]; [lia|].
      pose proof (pl_entry _ _ _ _ _ _ _ P _ _ Hk0) as (_ & _ & Hb0 & _).
      eapply eq_sym, (chain_next _ _ _ (Z.to_nat (e_bucket en0))); [apply (pl_chain _ _ _ _ _ _ _ P)|exact Hx'|].
      replace (S (Z.to_nat (e_bucket en0))) with i by lia. exact Hx.
  - intros k en en' Hk Hk1. destruct (Hseg _ _ Hk) as [Hk' Hb], (Hseg _ _ Hk1) as [Hk1' Hb1]. rewrite Nat.add_succ_r in Hk1'.
    destruct (pl_next _ _ _ _ _ _ _ P _ _ _ Hk' Hk1') as [_ [[_ ->]|[Hbb _]]]; [by eapply Hal|lia].
  - intros k en Hk. destruct (Hseg _ _ Hk) as [Hk' _]. by destruct (pl_entry _ _ _ _ _ _ _ P _ _ Hk') as [-> _].
Qed.

(** When the size of every parameter is a multiple of the parameter alignment, the offsets
    that a bucket computes for its parameters ([param_to_index], from which gathered MXFP8
    parameters are copied back) are the offsets at which the buffer placed them. *)
Theorem param_to_index_agrees cfg pd gd params dp bsz scaling bf b id s e : acceptable cfg dp params ->
  Forall (fun p => (param_align cfg | p_numel p)) params ->
  buffer_init cfg pd gd params dp bsz scaling = Ok bf -> b ∈ bf_buckets bf -> (id, (s, e)) ∈ b_param_to_index b ->
  bf_main_grad bf !! id = Some (mkView GRAD (b_offset b + s) (b_offset b + e)).
Proof.
  intros Ha Hal Hok [i Hi]%list_elem_of_lookup Hin. destruct (buffer_init_aux cfg pd gd params dp bsz scaling Ha)
    as (bf' & es & unp & nun & idx & imap & pn & numel & Hbf & P & _ & Ees & _ & _ & _ & M).
  rewrite Hok in Hbf. injection Hbf as <-. destruct M as [_ _ Hbs _ Hg _].
  destruct (Hbs i b Hi) as (x & w & n & Hx & _ & ->). cbn in Hin |- *.
  rewrite (param_to_index_aux cfg dp es idx numel i x w (ac_dp _ _ _ Ha) P) in Hin; [| |done].
  - apply list_elem_of_fmap in Hin as (en & [= -> -> ->] & Hen). apply list_elem_of_filter in Hen as [_ Hen].
    rewrite (Hg en Hen). do 2 f_equal; lia.
  - rewrite Ees. apply Forall_reverse, Forall_and. split; [apply (ac_numel _ _ _ Ha)|done].
Qed.

(** Parameters of one aligned block each. *)
Definition aligned_params : list param :=
  [mkParam 0 128 false true false true; mkParam 1 64 false true false true].

Lemma param_to_index_agrees_witness : exists bf b, buffer_init distopt_cfg BFloat16 BFloat16 aligned_params 2 None f64_one = Ok bf /\
  b ∈ bf_buckets bf /\ bf_main_grad bf !! 0 = Some (mkView GRAD (b_offset b + 64) (b_offset b + 192)).
Proof.
  assert (Ha : acceptable distopt_cfg 2 aligned_params).
  { split; [lia|done| | | |vm_compute; done]; try (repeat constructor; cbn; auto; lia).
    apply (bool_decide_unpack _). vm_compute. exact I. }
  destruct (buffer_init distopt_cfg BFloat16 BFloat16 aligned_params 2 None f64_one) as [bf|] eqn:E; [|vm_compute in E; discriminate E].
  assert (Hb : exists b, bf_buckets bf = [b] /\ b_param_to_index b = [(1, (0, 64)); (0, (64, 192))]).
  { vm_compute in E. injection E as <-. eexists. split; reflexivity. }
  destruct Hb as (b & Eb & Ei). exists bf, b. split; [reflexivity|]. split; [rewrite Eb; left|].
  apply (param_to_index_agrees distopt_cfg BFloat16 BFloat16 aligned_params 2 None f64_one bf b 0 64 192 Ha).
  - repeat constructor; [by exists 2|by exists 1].
  - exact E.
  - rewrite Eb. left.
  - rewrite Ei. right. left.
Defined.

(** Without that condition they differ: with a distributed optimizer, parameter 2 of [ex_params] is placed
    at 64, after the padding that follows parameter 3, but its bucket says 5. *)
Theorem param_to_index_misplaced : exists bf b,
  buffer_init distopt_cfg BFloat16 BFloat16 ex_params 3 (Some 200) f64_one = Ok bf /\ bf_buckets bf !! 0%nat = Some b /\
  b_offset b = 0 /\ bf_main_grad bf !! 2 = Some (mkView GRAD 64 364) /\ b_param_to_index b = [(3, (0, 5)); (2, (5, 305))].
Proof.
  destruct (buffer_init distopt_cfg BFloat16 BFloat16 ex_params 3 (Some 200) f64_one) as [bf|] eqn:E; [|vm_compute in E; discriminate E].
  exists bf. vm_compute in E. injection E as <-. eexists. split; [reflexivity|]. vm_compute. split_and!; reflexivity.
Qed.
