(* ===== verification/DistOpt.v ===== *)
(** * Distributed optimizer

    [DistributedOptimizer] of [megatron/core/optimizer/distrib_optimizer.py]:
    the ranges of the parameters that a data-parallel rank owns, the optimizer
    groups made of their shards, the copies between model and main parameters,
    and the checkpoint format that gathers the shards on rank 0 and scatters
    them back.

    A tensor is a storage with an index range, so shards that view the parameter
    buffer and shards with a storage of their own are told apart, and a copy into
    a view is seen by the buffer.  The values of a tensor are of an abstract type
    of float32 values; a 16-bit value is the float32 value it widens to.  The
    precision-aware optimizer of TransformerEngine, [HybridDeviceOptimizer] and
    FSDP are not modelled. *)

From S2P Require Import Prelude GradBuffer.

(* ================================================================== *)
(** ** Python dictionaries, with their order                           *)
(* ================================================================== *)

Notation dict K A := (list (K * A)%type).

Section Dict.
Context {K A : Type} `{!EqDecision K}.

Fixpoint dict_lookup (d : dict K A) (k : K) : option A :=
  match d with
  | [] => None
  | (k', a) :: d => if decide (k = k') then Some a else dict_lookup d k
  end.

(** [d[k]] *)
Definition dict_get (d : dict K A) (k : K) : res A :=
  match dict_lookup d k with Some a => mret a | None => raise_ KeyError "key" end.

(** [d[k] = a]: a new key goes to the end. *)
Fixpoint dict_set (d : dict K A) (k : K) (a : A) : dict K A :=
  match d with
  | [] => [(k, a)]
  | (k', a') :: d => if decide (k = k') then (k', a) :: d else (k', a') :: dict_set d k a
  end.
End Dict.

(** [for x in l: acc = f(acc, x)], with state. *)
Fixpoint foldM {S A B} (f : B -> A -> M S B) (b : B) (l : list A) : M S B :=
  match l with
  | [] => mret b
  | x :: l => b ← f b x; foldM f b l
  end.

(** [enumerate] *)
Definition enumerate {A} (l : list A) : list (Z * A) := imap (fun i x => (Z.of_nat i, x)) l.

(* ================================================================== *)
(** ** Ranges                                                          *)
(* ================================================================== *)

(** [Range] *)
Record Range := mkRange { r_start : Z; r_end : Z }.
Definition r_size (r : Range) : Z := r_end r - r_start r.
Definition normalize (r : Range) (start : Z) : Range := mkRange start (start + r_size r).

(** The four ranges of a parameter. *)
Record param_ranges := mkRanges {
  gbuf_world : Range;
  gbuf_world_in_bucket : Range;
  gbuf_local : Range;
  param_range : Range
}.

(** A dictionary with parameters as keys. *)
Notation param_dict A := (dict param A).

(** The body of the loop of [_build_model_gbuf_param_range_map]. *)
Definition build_param_ranges (gbuf_world_range : Range) (bucket_offset param_world_start param_world_end : Z)
    : option param_ranges :=
  let param_local_start := Z.max 0 (param_world_start - r_start gbuf_world_range) in
  let param_local_end := Z.min (r_size gbuf_world_range) (param_world_end - r_start gbuf_world_range) in
  if param_local_start <? param_local_end then
    let param_local_range := mkRange param_local_start param_local_end in
    let param_world_range := normalize param_local_range (param_local_start + r_start gbuf_world_range) in
    let param_world_range_in_bucket := mkRange (r_start param_world_range - bucket_offset) (r_end param_world_range - bucket_offset) in
    let sub_param_start := Z.max 0 (r_start gbuf_world_range - param_world_start) in
    let sub_param_range := normalize param_local_range sub_param_start in
    Some (mkRanges param_world_range param_world_range_in_bucket param_local_range sub_param_range)
  else None.

(** [_build_model_gbuf_param_range_map] *)
Definition build_model_gbuf_param_range_map (param_world_index_map : param_dict (Z * Z * Z))
    (gbuf_world_range : Range) (bucket_offset : Z) : param_dict param_ranges :=
  omap (fun '(p, (s, e, _)) => pair p <$> build_param_ranges gbuf_world_range bucket_offset s e) param_world_index_map.

(** [param_index_map.items()]: the first pass of the buffer inserts in backward order. *)
Definition param_index_items (bf : buffer) : param_dict (Z * Z * Z) :=
  omap (fun p => pair p <$> bf_index_map bf !! p_id p) (reverse (bf_params bf)).

Definition view_numel (v : view) : Z := v_end v - v_start v.

(** [_build_model_gbuf_range], on the rank [data_parallel_rank] of the buffer's group. *)
Definition build_model_gbuf_range (bf : buffer) (data_parallel_rank bucket_index : Z) : res (param_dict param_ranges) :=
  b ← py_get (bf_buckets bf) bucket_index;
  let gbuf_size := view_numel (b_grad_data b) in
  m ← pymod gbuf_size (bf_dp bf);
  assert_ (m =? 0) "Each bucket's buffer size should be divisible by the data-parallel size" ;;
  max_gbuf_range_size ← floordiv gbuf_size (bf_dp bf);
  let gbuf_world_all_ranges :=
    map (fun r =>
      let gbuf_world_start := r * max_gbuf_range_size in
      let gbuf_world_end := Z.min gbuf_size (gbuf_world_start + max_gbuf_range_size) in
      mkRange (gbuf_world_start + b_offset b) (gbuf_world_end + b_offset b)) (zrange 0 (bf_dp bf)) in
  gbuf_world_range ← py_get gbuf_world_all_ranges data_parallel_rank;
  mret (build_model_gbuf_param_range_map (param_index_items bf) gbuf_world_range (b_offset b)).

(** The dictionary of one buffer: one pair of dtypes, and the ranges per bucket. *)
Notation gbuf_dtype := (dtype * dtype)%type.
Record gbuf_range_map := mkGbuf { gr_dtype : gbuf_dtype; gr_buckets : list (param_dict param_ranges) }.

(** [_build_gbuf_range_map] *)
Definition build_gbuf_range_map (rank : Z) (bf : buffer) : res gbuf_range_map :=
  buckets ← mapR (build_model_gbuf_range bf rank) (zrange 0 (Z.of_nat (length (bf_buckets bf))));
  mret (mkGbuf (bf_param_dtype bf, bf_grad_dtype bf) buckets).

(** The order in which nested loops over buffers, dtypes, buckets and parameters run. *)
Definition gbuf_items (gbuf_ranges : list gbuf_range_map) : list (Z * gbuf_dtype * Z * (param * param_ranges)) :=
  concat (map (fun '(gbuf_index, g) =>
    concat (map (fun '(bucket_index, param_map) =>
      map (fun item => (gbuf_index, gr_dtype g, bucket_index, item)) param_map)
    (enumerate (gr_buckets g))))
  (enumerate gbuf_ranges)).

(** [_build_model_param_gbuf_map] *)
Definition build_model_param_gbuf_map (gbuf_ranges : list gbuf_range_map) : res (gmap Z (Z * gbuf_dtype * Z)) :=
  foldR (fun (m : gmap Z (Z * gbuf_dtype * Z)) '(gbuf_index, dt, bucket_index, (p, _)) =>
    assert_ (is_none (m !! p_id p)) "Param should not be in param_gbuf_map; each param only belongs to a single bucket." ;;
    mret (<[p_id p := (gbuf_index, dt, bucket_index)]> m)) ∅ (gbuf_items gbuf_ranges).

(** [param.type()] and [param.requires_grad]. *)
Inductive tensor_type := HalfTensor | BFloat16Tensor | FloatTensor | OtherTensor.
Record attributes := mkAttributes { a_type : Z -> tensor_type; a_requires_grad : Z -> bool }.

(** The first loop of [_build_optimizer_group_ranges]. *)
Definition world_param_group_map (at_ : attributes) (param_groups : list (list param)) : res (gmap Z Z) :=
  foldR (fun (m : gmap Z Z) '(group_index, p) =>
    assert_ (a_requires_grad at_ (p_id p)) "param.requires_grad" ;;
    mret (<[p_id p := group_index]> m)) ∅
  (concat (map (fun '(group_index, group) => map (pair group_index) group) (enumerate param_groups))).

(** [_build_optimizer_group_ranges]: the place of each parameter in the groups, and the groups. *)
Definition build_optimizer_group_ranges (at_ : attributes) (param_groups : list (list param))
    (gbuf_ranges : list gbuf_range_map) : res (gmap Z (Z * Z) * list (list param)) :=
  wm ← world_param_group_map at_ param_groups;
  foldR (fun '(lm, group_ranges) '(_, _, _, (p, _)) =>
    match wm !! p_id p with
    | None => raise_ KeyError "world_param_group_map"
    | Some group_index =>
        group_range ← py_get group_ranges group_index;
        let group_range := group_range ++ [p] in
        mret (<[p_id p := (group_index, Z.of_nat (length group_range) - 1)]> lm, <[Z.to_nat group_index := group_range]> group_ranges)
    end) (∅ : gmap Z (Z * Z), map (fun _ => []) param_groups) (gbuf_items gbuf_ranges).

(* ================================================================== *)
(** ** Tensors                                                         *)
(* ================================================================== *)

(** The storage of a tensor: the parameter data or the gradients of a buffer, a parameter
    outside of the buffers, the main parameter that this class allocates, or its gradient when
    that is a copy. *)
Inductive storage := ParamData (gbuf_index : Z) | GradData (gbuf_index : Z) | OwnData (id : Z) | MainData (id : Z) | MainGrad (id : Z).

#[export] Instance storage_eq_dec : EqDecision storage.
Proof. solve_decision. Defined.
#[export] Instance storage_countable : Countable storage.
Proof.
  refine (inj_countable' (fun s => match s with ParamData g => (0%nat, g) | GradData g => (1%nat, g) | OwnData p => (2%nat, p) | MainData p => (3%nat, p) | MainGrad p => (4%nat, p) end)
    (fun x => match x with (0%nat, g) => ParamData g | (1%nat, g) => GradData g | (2%nat, p) => OwnData p | (3%nat, p) => MainData p | (_, p) => MainGrad p end) _).
  by intros [].
Defined.

(** A flat tensor of the parameter [t_param]: the elements from [t_start] to [t_end] of a storage.
    An optimizer has one shard per parameter, so [t_param] names its entry of [optimizer.state]. *)
Record tensor := mkTensor { t_param : Z; t_storage : storage; t_start : Z; t_end : Z }.

#[export] Instance tensor_eq_dec : EqDecision tensor.
Proof. solve_decision. Defined.

Definition nelement (t : tensor) : Z := t_end t - t_start t.

(** [t.view(-1)[a:b]] for [0 <= a <= b]. *)
Definition slice_tensor (t : tensor) (r : Range) : tensor :=
  mkTensor (t_param t) (t_storage t) (Z.min (t_end t) (t_start t + r_start r)) (Z.min (t_end t) (t_start t + r_end r)).

(** The flattened [model_param]: its view of the buffer, if the buffer has moved its data. *)
Definition model_tensor (buffers : list buffer) (gbuf_index : Z) (p : param) : tensor :=
  match buffers !! Z.to_nat gbuf_index ≫= (fun bf => bf_data bf !! p_id p) with
  | Some v => mkTensor (p_id p) (ParamData gbuf_index) (v_start v) (v_end v)
  | None => mkTensor (p_id p) (OwnData (p_id p)) 0 (p_numel p)
  end.

(** The float32 values: zero and the rounding to a data type that a copy does. *)
Class Values (V : Type) := { v_zero : V; v_round : dtype -> V -> V }.
Class ValuesLaws (V : Type) `{!Values V} : Prop := {
  round_float32 : forall v : V, v_round Float32 v = v;
  round_twice : forall d (v : V), v_round d (v_round d v) = v_round d v
}.

(** [l[a:a+len(vs)] = vs] *)
Definition splice {V} (l : list V) (a : Z) (vs : list V) : list V :=
  take (Z.to_nat a) l ++ vs ++ drop (Z.to_nat a + length vs) l.

(** [dst.copy_(src)] on flat tensors: one element is broadcast. *)
Definition copy_values {V} (n : Z) (src : list V) : res (list V) :=
  if Z.of_nat (length src) =? n then mret src
  else match src with
  | [x] => mret (replicate (Z.to_nat n) x)
  | _ => raise_ RuntimeError "The size of tensor a must match the size of tensor b"
  end.

(** *** The state of one rank: storages, [optimizer.state], the attribute [main_param] of model
    parameters and the attributes [grad] and [decoupled_grad] of shards. *)
Record store (V : Type) := mkStore {
  st_data : gmap storage (list V);
  st_optim : gmap Z (dict string (list V));
  st_main_param : gmap Z (option tensor);
  st_grad : gmap Z tensor;
  st_decoupled_grad : gmap Z tensor
}.
Arguments mkStore {_} _ _ _ _ _.
Arguments st_data {_} _.
Arguments st_optim {_} _.
Arguments st_main_param {_} _.
Arguments st_grad {_} _.
Arguments st_decoupled_grad {_} _.

Definition storage_values {V} (st : store V) (s : storage) : list V := default [] (st_data st !! s).
Definition tensor_values {V} (st : store V) (t : tensor) : list V := py_slice (storage_values st (t_storage t)) (t_start t) (t_end t).

Definition set_storage {V} (s : storage) (vs : list V) (st : store V) : store V :=
  mkStore (<[s := vs]> (st_data st)) (st_optim st) (st_main_param st) (st_grad st) (st_decoupled_grad st).
Definition set_optim {V} (p : Z) (d : dict string (list V)) (st : store V) : store V :=
  mkStore (st_data st) (<[p := d]> (st_optim st)) (st_main_param st) (st_grad st) (st_decoupled_grad st).
Definition set_main_param {V} (p : Z) (t : option tensor) (st : store V) : store V :=
  mkStore (st_data st) (st_optim st) (<[p := t]> (st_main_param st)) (st_grad st) (st_decoupled_grad st).
Definition set_grad {V} (p : Z) (g : tensor) (st : store V) : store V :=
  mkStore (st_data st) (st_optim st) (st_main_param st) (<[p := g]> (st_grad st)) (st_decoupled_grad st).
Definition set_decoupled_grad {V} (p : Z) (t : tensor) (st : store V) : store V :=
  mkStore (st_data st) (st_optim st) (st_main_param st) (st_grad st) (<[p := t]> (st_decoupled_grad st)).

(* ================================================================== *)
(** ** The optimizer object                                            *)
(* ================================================================== *)

(** [OptimizerConfig], the fields read here. *)
Record optimizer_config := mkOptCfg { precision_aware : bool; fp8_delayed : bool }.

(** The five lists of one group. *)
Record shard_group := mkShards {
  model_float16 : list param;
  model_fp32 : list param;
  shard_float16 : list (option tensor);
  shard_fp32 : list tensor;
  shard_fp32_from_float16 : list (option tensor)
}.

(** The fields that the constructor fills in; [do_params] is [params] of [optimizer.param_groups]. *)
Record dist_opt := mkDistOpt {
  do_cfg : optimizer_config;
  do_rank : Z;
  do_buffers : list buffer;
  do_gbuf_ranges : list gbuf_range_map;
  do_param_gbuf_map : gmap Z (Z * gbuf_dtype * Z);
  do_group_index_map : gmap Z (Z * Z);
  do_groups : list shard_group;
  do_params : list (list (option tensor))
}.

(** The data type of a storage; the buffers fix that of the parameter data. *)
Definition storage_dtype (buffers : list buffer) (at_ : attributes) (s : storage) : dtype :=
  match s with
  | ParamData g => default Float32 (bf_param_dtype <$> buffers !! Z.to_nat g)
  | GradData g => default Float32 (bf_grad_dtype <$> buffers !! Z.to_nat g)
  | OwnData p => match a_type at_ p with HalfTensor => Float16 | BFloat16Tensor => BFloat16 | _ => Float32 end
  | MainData _ | MainGrad _ => Float32
  end.

Section Optimizer.
Context {V : Type} `{!Values V} (at_ : attributes).

(** [t.copy_(src)] *)
Definition copy_ (buffers : list buffer) (t : tensor) (src : list V) : M (store V) unit :=
  vs ← liftM (copy_values (nelement t) src);
  modM (fun st => set_storage (t_storage t)
    (splice (storage_values st (t_storage t)) (t_start t) (map (v_round (storage_dtype buffers at_ (t_storage t))) vs)) st).

(** [gbuf_ranges[gbuf_index][dtype][bucket_index]["param_map"][param]] *)
Definition find_ranges (gbuf_ranges : list gbuf_range_map) (m : gmap Z (Z * gbuf_dtype * Z)) (p : param) : res param_ranges :=
  match m !! p_id p with
  | None => raise_ KeyError "model_param_gbuf_map"
  | Some (gbuf_index, dt, bucket_index) =>
      g ← py_get gbuf_ranges gbuf_index;
      (if decide (gr_dtype g = dt) then mret tt else raise_ KeyError "dtype") ;;
      param_map ← py_get (gr_buckets g) bucket_index;
      dict_get param_map p
  end.

(** [_get_model_param_range_map] *)
Definition get_model_param_range_map (o : dist_opt) (p : param) : res param_ranges :=
  find_ranges (do_gbuf_ranges o) (do_param_gbuf_map o) p.

(** The initial value of a float8 parameter, flattened: [get_high_precision_init_val] when it has one. *)
Context (fp8_init : param -> list V).

(** The body of the inner loop of [_build_model_and_main_param_groups]. *)
Definition build_param_shards (cfg : optimizer_config) (buffers : list buffer) (gbuf_ranges : list gbuf_range_map)
    (m : gmap Z (Z * gbuf_dtype * Z)) (sg : shard_group) (model_param : param) : M (store V) shard_group :=
  assertM (a_requires_grad at_ (p_id model_param)) "model_param.requires_grad" ;;
  ranges ← liftM (find_ranges gbuf_ranges m model_param);
  let gbuf_index := default 0 ((fun '(g, _, _) => g) <$> m !! p_id model_param) in
  let full := model_tensor buffers gbuf_index model_param in
  match a_type at_ (p_id model_param) with
  | HalfTensor | BFloat16Tensor =>
      let shard_model_param :=
        if p_float8 model_param && negb (fp8_delayed cfg) then None else Some (slice_tensor full (param_range ranges)) in
      shard_main_param ←
        (if negb (precision_aware cfg) then
           st ← getM;
           let init :=
             if p_float8 model_param then py_slice (fp8_init model_param) (r_start (param_range ranges)) (r_end (param_range ranges))
             else tensor_values st (slice_tensor full (param_range ranges)) in
           modM (set_storage (MainData (p_id model_param)) init) ;;
           mret (Some (mkTensor (p_id model_param) (MainData (p_id model_param)) 0 (Z.of_nat (length init))))
         else mret None);
      modM (set_main_param (p_id model_param) shard_main_param) ;;
      mret (mkShards (model_float16 sg ++ [model_param]) (model_fp32 sg) (shard_float16 sg ++ [shard_model_param])
              (shard_fp32 sg) (shard_fp32_from_float16 sg ++ [shard_main_param]))
  | FloatTensor =>
      mret (mkShards (model_float16 sg) (model_fp32 sg ++ [model_param]) (shard_float16 sg)
              (shard_fp32 sg ++ [slice_tensor full (param_range ranges)]) (shard_fp32_from_float16 sg))
  | OtherTensor => raiseM TypeError "Wrapped parameters must be one of FloatTensor, HalfTensor, or BFloat16Tensor"
  end.

(** [_build_model_and_main_param_groups] *)
Definition build_model_and_main_param_groups (cfg : optimizer_config) (buffers : list buffer)
    (gbuf_ranges : list gbuf_range_map) (m : gmap Z (Z * gbuf_dtype * Z)) (opt_group_ranges : list (list param))
    : M (store V) (list shard_group) :=
  mapM_ (foldM (build_param_shards cfg buffers gbuf_ranges m) (mkShards [] [] [] [] [])) opt_group_ranges.

(** [group_range["orig_group"]["params"]] *)
Definition optimizer_params (cfg : optimizer_config) (sg : shard_group) : list (option tensor) :=
  map Some (shard_fp32 sg) ++ (if negb (precision_aware cfg) then shard_fp32_from_float16 sg else shard_float16 sg).

Definition is_16bit (t : tensor_type) : bool := match t with HalfTensor | BFloat16Tensor => true | _ => false end.

(** The loop of the constructor that resets [main_param]. *)
Definition reset_main_params (param_groups : list (list param)) : M (store V) unit :=
  iterM (fun p => whenM (a_requires_grad at_ (p_id p) && is_16bit (a_type at_ (p_id p))) (modM (set_main_param (p_id p) None)))
    (concat param_groups).

(** [__init__], with an inner optimizer and without FSDP. *)
Definition dist_opt_init (cfg : optimizer_config) (rank : Z) (buffers : list buffer) (param_groups : list (list param))
    : M (store V) dist_opt :=
  gbuf_ranges ← liftM (mapR (build_gbuf_range_map rank) buffers);
  param_gbuf_map ← liftM (build_model_param_gbuf_map gbuf_ranges);
  reset_main_params param_groups ;;
  og ← liftM (build_optimizer_group_ranges at_ param_groups gbuf_ranges);
  let '(group_index_map, opt_group_ranges) := og in
  groups ← build_model_and_main_param_groups cfg buffers gbuf_ranges param_gbuf_map opt_group_ranges;
  mret (mkDistOpt cfg rank buffers gbuf_ranges param_gbuf_map group_index_map groups (map (optimizer_params cfg) groups)).

(** *** Copies between model and main parameters *)

(** [zip(model_groups, shard_main_groups)] and the zip of the groups, flattened. *)
Definition zip_groups {A B} (gs : list (list A * list B)) : list (A * B) := concat (map (fun '(l1, l2) => zip l1 l2) gs).

Definition float16_shards (o : dist_opt) : list (param * option tensor) :=
  zip_groups (map (fun sg => (model_float16 sg, shard_fp32_from_float16 sg)) (do_groups o)).
Definition fp32_shards (o : dist_opt) : list (param * option tensor) :=
  zip_groups (map (fun sg => (model_fp32 sg, map Some (shard_fp32 sg))) (do_groups o)).
Definition float16_model_shards (o : dist_opt) : list (param * option tensor) :=
  zip_groups (map (fun sg => (model_float16 sg, shard_float16 sg)) (do_groups o)).

(** [t.nelement()], where [t] may be [None] *)
Definition some_tensor (t : option tensor) : res tensor :=
  match t with Some t => mret t | None => raise_ AttributeError "'NoneType' object has no attribute 'nelement'" end.

(** The flattened [model_param.main_grad]. *)
Definition main_grad_tensor (o : dist_opt) (p : param) : res tensor :=
  let gbuf_index := default 0 ((fun '(g, _, _) => g) <$> do_param_gbuf_map o !! p_id p) in
  match do_buffers o !! Z.to_nat gbuf_index ≫= (fun bf => bf_main_grad bf !! p_id p) with
  | Some v => mret (mkTensor (p_id p) (GradData gbuf_index) (v_start v) (v_end v))
  | None => raise_ AttributeError "main_grad"
  end.

(** [t.float()], stored as the gradient of [t_param t]: the same tensor when it is float32 already. *)
Definition float_ (buffers : list buffer) (t : tensor) : M (store V) tensor :=
  if decide (storage_dtype buffers at_ (t_storage t) = Float32) then mret t
  else
    st ← getM;
    modM (set_storage (MainGrad (t_param t)) (tensor_values st t)) ;;
    mret (mkTensor (t_param t) (MainGrad (t_param t)) 0 (Z.of_nat (length (tensor_values st t)))).

(** [copy_group_grads] *)
Definition copy_group_grads (o : dist_opt) (pairs : list (param * option tensor)) : M (store V) unit :=
  iterM (fun '(model_param, shard_main_param) =>
    ranges ← liftM (get_model_param_range_map o model_param);
    t ← liftM (some_tensor shard_main_param);
    assertM (r_size (param_range ranges) =? nelement t) "param_range.size == shard_main_param.nelement()" ;;
    model_grad ← liftM (main_grad_tensor o model_param);
    let shard_model_grad := slice_tensor model_grad (param_range ranges) in
    if precision_aware (do_cfg o) then modM (set_decoupled_grad (t_param t) shard_model_grad)
    else grad ← float_ (do_buffers o) shard_model_grad; modM (set_grad (t_param t) grad)) pairs.

(** [_copy_model_grads_to_main_grads] *)
Definition copy_model_grads_to_main_grads (o : dist_opt) : M (store V) unit :=
  if precision_aware (do_cfg o) then
    copy_group_grads o (float16_model_shards o) ;; copy_group_grads o (fp32_shards o)
  else
    copy_group_grads o (float16_shards o) ;; copy_group_grads o (fp32_shards o).

(** The part of a bucket's [param_data] that belongs to the shard of [p]. *)
Definition bucket_param_shard (o : dist_opt) (p : param) (world_range : Range) : res tensor :=
  match do_param_gbuf_map o !! p_id p with
  | None => raise_ KeyError "model_param_gbuf_map"
  | Some (gbuf_index, _, bucket_id) =>
      bf ← py_get (do_buffers o) gbuf_index;
      b ← py_get (bf_buckets bf) bucket_id;
      match b_param_data b with
      | None => raise_ AttributeError "'NoneType' object has no attribute 'view'"
      | Some v => mret (slice_tensor (mkTensor (p_id p) (ParamData gbuf_index) (v_start v) (v_end v)) world_range)
      end
  end.

(** [copy_group_params] of [_copy_main_params_to_model_params]; float8 parameters are left
    to [quantize_param_shard]. *)
Definition copy_group_main_params (o : dist_opt) (pairs : list (param * option tensor)) : M (store V) unit :=
  iterM (fun '(model_param, shard_main_param) =>
    ranges ← liftM (get_model_param_range_map o model_param);
    t ← liftM (some_tensor shard_main_param);
    assertM (r_size (gbuf_world_in_bucket ranges) =? nelement t) "world_range.size == shard_main_param.nelement()" ;;
    shard_model_param ← liftM (bucket_param_shard o model_param (gbuf_world_in_bucket ranges));
    if p_float8 model_param then mret tt
    else st ← getM; copy_ (do_buffers o) shard_model_param (tensor_values st t)) pairs.

(** [_copy_main_params_to_model_params], without float8 parameters to quantize. *)
Definition copy_main_params_to_model_params (o : dist_opt) : M (store V) unit :=
  if precision_aware (do_cfg o) then mret tt
  else copy_group_main_params o (float16_shards o) ;; copy_group_main_params o (fp32_shards o).

(** [_copy_main_params_to_param_buffer] *)
Definition copy_main_params_to_param_buffer (o : dist_opt) : M (store V) unit :=
  iterM (fun '(model_param, shard_main_param) =>
    ranges ← liftM (get_model_param_range_map o model_param);
    shard_param_buffer ← liftM (bucket_param_shard o model_param (gbuf_world_in_bucket ranges));
    t ← liftM (some_tensor shard_main_param);
    st ← getM; copy_ (do_buffers o) shard_param_buffer (tensor_values st t)) (float16_shards o).

(** [copy_group_params] of [_copy_model_params_to_main_params]; [source] gives the flattened
    values of a parameter when they come from a state dict. *)
Definition copy_group_model_params (o : dist_opt) (source : option (gmap Z (list V))) (pairs : list (param * option tensor))
    : M (store V) unit :=
  iterM (fun '(model_param, shard_main_param) =>
    ranges ← liftM (get_model_param_range_map o model_param);
    t ← liftM (some_tensor shard_main_param);
    assertM (r_size (param_range ranges) =? nelement t) "param_range.size == shard_main_param.nelement()" ;;
    let gbuf_index := default 0 ((fun '(g, _, _) => g) <$> do_param_gbuf_map o !! p_id model_param) in
    vs ← match source with
         | Some m => match m !! p_id model_param with
                     | Some vs => mret (py_slice vs (r_start (param_range ranges)) (r_end (param_range ranges)))
                     | None => raiseM KeyError "model_param_to_state_dict_param_map"
                     end
         | None =>
             st ← getM;
             mret (if p_float8 model_param then py_slice (fp8_init model_param) (r_start (param_range ranges)) (r_end (param_range ranges))
                   else tensor_values st (slice_tensor (model_tensor (do_buffers o) gbuf_index model_param) (param_range ranges)))
         end;
    copy_ (do_buffers o) t vs) pairs.

(** [_copy_model_params_to_main_params] *)
Definition copy_model_params_to_main_params (o : dist_opt) (source : option (gmap Z (list V))) : M (store V) unit :=
  if precision_aware (do_cfg o) then mret tt
  else copy_group_model_params o source (float16_shards o) ;; copy_group_model_params o source (fp32_shards o).

(** *** Parameter state of the inner optimizer *)

(** [self.optimizer.param_groups[group_index]["params"][group_order]] *)
Definition optimizer_shard (o : dist_opt) (p : param) : res tensor :=
  match do_group_index_map o !! p_id p with
  | None => raise_ KeyError "model_param_group_index_map"
  | Some (group_index, group_order) =>
      params ← py_get (do_params o) group_index;
      t ← py_get params group_order;
      some_tensor t
  end.

(** [_get_main_param_and_optimizer_states], without the precision-aware optimizer. *)
Definition get_main_param_and_optimizer_states (o : dist_opt) (p : param) (st : store V) : res (dict string (list V)) :=
  main_param ← optimizer_shard o p;
  mret (("param", tensor_values st main_param) :: default [] (st_optim st !! t_param main_param)).

(** [_set_main_param_and_optimizer_states], without the precision-aware optimizer: every tensor of
    the parameter's state is overwritten, so [tensors] needs all of its keys. *)
Definition set_main_param_and_optimizer_states (o : dist_opt) (p : param) (tensors : dict string (list V)) : M (store V) unit :=
  main_param ← liftM (optimizer_shard o p);
  src ← liftM (dict_get tensors "param");
  copy_ (do_buffers o) main_param src ;;
  st ← getM;
  iterM (fun '(key, dst) =>
    src ← liftM (dict_get tensors key);
    vs ← liftM (copy_values (Z.of_nat (length dst)) src);
    modM (fun st => set_optim (t_param main_param) (dict_set (default [] (st_optim st !! t_param main_param)) key vs) st))
    (default [] (st_optim st !! t_param main_param)).

(** [init_state_fn] for Adam, without the precision-aware optimizer. *)
Definition init_state_fn (o : dist_opt) : M (store V) unit :=
  iterM (fun p =>
    t ← liftM (some_tensor p);
    st ← getM;
    match default [] (st_optim st !! t_param t) with
    | [] => let zeros := replicate (length (tensor_values st t)) v_zero in
            modM (set_optim (t_param t) [("exp_avg", zeros); ("exp_avg_sq", zeros)])
    | _ => mret tt
    end) (concat (do_params o)).

(** The parameter all-gather of one bucket ([start_param_sync]): every rank contributes its shard of
    the bucket's [param_data]; the result is the bucket's [param_data] on all ranks. *)
Definition all_gather_bucket (b : bucket) (param_datas : list (list V)) : res (list V) :=
  match b_param_data b with
  | None => raise_ AttributeError "'NoneType' object has no attribute 'numel'"
  | Some v =>
      shards ← shard_buffer (view_numel v) (Z.of_nat (length param_datas));
      local_data_views ← mapR (fun '(rank, data) =>
        shard ← py_get shards rank;
        mret (py_slice data (v_start v + fst shard) (v_start v + snd shard))) (enumerate param_datas);
      mret (concat local_data_views)
  end.
End Optimizer.

(* ================================================================== *)
(** ** The checkpoint of rank 0                                        *)
(* ================================================================== *)

(** The ranks of a data-parallel group run the same loops in step; a gather gives rank 0 the
    tensors of all of them in the order of the ranks, a scatter gives rank [r] tensor [r].  So the
    operations below are on the list of all ranks, and fail when one of them does. *)
Definition state_keys : list string := ["param"; "exp_avg"; "exp_avg_sq"].

(** The tensors of one buffer in the checkpoint. *)
Record world_tensors (V : Type) := mkWorld { w_tensors : dict string (list V); w_numel_unpadded : Z }.
Arguments mkWorld {_} _ _.
Arguments w_tensors {_} _.
Arguments w_numel_unpadded {_} _.

Section Checkpoint.
Context {V : Type} `{!Values V} (at_ : attributes).

(** [gbuf_world_numel], [gbuf_local_numel] and [gbuf_world_numel_unpadded], with their assertions. *)
Definition bucket_numels (dp : Z) (b : bucket) : res (Z * Z * Z) :=
  let gbuf_world_numel := view_numel (b_grad_data b) in
  m ← pymod gbuf_world_numel dp;
  assert_ (m =? 0) "gbuf_world_numel % data_parallel_world_size == 0" ;;
  gbuf_local_numel ← floordiv gbuf_world_numel dp;
  assert_ (b_numel_unpadded b <=? gbuf_world_numel) "gbuf_world_numel_unpadded <= gbuf_world_numel" ;;
  mret (gbuf_world_numel, gbuf_local_numel, b_numel_unpadded b).

(** [l[a:b].copy_(src)] *)
Definition copy_slice (l : list V) (a b : Z) (src : list V) : res (list V) :=
  vs ← copy_values (Z.of_nat (length (py_slice l a b))) src;
  mret (splice l a vs).

(** The contiguous shards of one rank for one bucket. *)
Definition build_local_shards (o : dist_opt) (st : store V) (gbuf_local_numel : Z) (param_map : param_dict param_ranges)
    : res (dict string (list V)) :=
  foldR (fun local_shards '(model_param, ranges) =>
    tensors ← get_main_param_and_optimizer_states o model_param st;
    mapR (fun '(key, shard) =>
      v ← dict_get tensors key;
      shard ← copy_slice shard (r_start (gbuf_local ranges)) (r_end (gbuf_local ranges)) v;
      mret (key, shard)) local_shards)
    (map (fun key => (key, replicate (Z.to_nat gbuf_local_numel) v_zero)) state_keys) param_map.

(** The parameter map of bucket [bucket_idx] of buffer [gbuf_idx] on one rank. *)
Definition param_map_of (gbuf_idx bucket_idx : Z) (o : dist_opt) : res (param_dict param_ranges) :=
  g ← py_get (do_gbuf_ranges o) gbuf_idx;
  py_get (gr_buckets g) bucket_idx.

(** One round of the loop over buckets: build the shards, gather them, copy the bucket without
    its padding to its place. *)
Definition gather_bucket (ranks : list (dist_opt * store V)) (gbuf_idx : Z)
    (acc : Z * dict string (list V)) (ib : Z * bucket) : res (Z * dict string (list V)) :=
  let '(offset_in_world_tensors, world) := acc in
  let '(bucket_idx, b) := ib in
  numels ← bucket_numels (Z.of_nat (length ranks)) b;
  let '(_, gbuf_local_numel, gbuf_world_numel_unpadded) := numels in
  shards ← mapR (fun '(o, st) => pm ← param_map_of gbuf_idx bucket_idx o; build_local_shards o st gbuf_local_numel pm) ranks;
  world ← mapR (fun '(key, w) =>
    recv_tensors ← mapR (fun local_shards => dict_get local_shards key) shards;
    w ← copy_slice w offset_in_world_tensors (offset_in_world_tensors + gbuf_world_numel_unpadded)
          (py_slice (concat recv_tensors) 0 gbuf_world_numel_unpadded);
    mret (key, w)) world;
  mret (offset_in_world_tensors + gbuf_world_numel_unpadded, world).

Definition gather_buffer (ranks : list (dist_opt * store V)) (ibf : Z * buffer) : res (world_tensors V) :=
  let '(gbuf_idx, bf) := ibf in
  r ← foldR (gather_bucket ranks gbuf_idx)
        (0, map (fun key => (key, replicate (Z.to_nat (bf_numel_unpadded bf)) v_zero)) state_keys) (enumerate (bf_buckets bf));
  mret (mkWorld (snd r) (bf_numel_unpadded bf)).

(** [get_parameter_state_dp_zero], as rank 0 returns it. *)
Definition get_parameter_state_dp_zero (buffers : list buffer) (ranks : list (dist_opt * store V)) : res (list (world_tensors V)) :=
  mapR (gather_buffer ranks) (enumerate buffers).

(** [range(0, n, step)] *)
Definition py_range_step (n step : Z) : res (list Z) :=
  if step =? 0 then raise_ ValueError "range() arg 3 must not be zero"
  else mret (map (fun i => i * step) (zrange 0 ((n + step - 1) / step))).

(** What rank 0 sends for one bucket. *)
Definition scatter_tensors (world : list V) (offset gbuf_world_numel gbuf_local_numel gbuf_world_numel_unpadded : Z)
    : res (list (list V)) :=
  let end_ := offset + gbuf_world_numel_unpadded in
  assert_ ((0 <=? offset) && (offset <? end_) && (end_ <=? Z.of_nat (length world))) "0 <= start < end <= world_tensors.numel()" ;;
  let world_tensor := py_slice world offset end_ ++ replicate (Z.to_nat (gbuf_world_numel - gbuf_world_numel_unpadded)) v_zero in
  assert_ (Z.of_nat (length world_tensor) =? gbuf_world_numel) "world_tensor.numel() == gbuf_world_numel" ;;
  gbuf_start_idxs ← py_range_step gbuf_world_numel gbuf_local_numel;
  mret (map (fun i => py_slice world_tensor i (i + gbuf_local_numel)) gbuf_start_idxs).

(** [recv_tensors[model_param][key] = recv_tensor[gbuf_local_start:gbuf_local_end]] for the parameters of a bucket. *)
Definition receive_bucket (key : string) (recv_tensor : list V) (recv_tensors : param_dict (dict string (list V)))
    (param_map : param_dict param_ranges) : param_dict (dict string (list V)) :=
  fold_left (fun recv_tensors '(model_param, ranges) =>
    dict_set recv_tensors model_param
      (dict_set (default [] (dict_lookup recv_tensors model_param)) key
         (py_slice recv_tensor (r_start (gbuf_local ranges)) (r_end (gbuf_local ranges))))) param_map recv_tensors.

(** One round of the loop over buckets, for one key, on all ranks; a scatter needs one tensor per rank. *)
Definition scatter_bucket (ranks : list (dist_opt * store V)) (gbuf_idx : Z) (key : string) (world : list V)
    (acc : Z * list (param_dict (dict string (list V)))) (ib : Z * bucket) : res (Z * list (param_dict (dict string (list V)))) :=
  let '(offset, recvs) := acc in
  let '(bucket_idx, b) := ib in
  numels ← bucket_numels (Z.of_nat (length ranks)) b;
  let '(gbuf_world_numel, gbuf_local_numel, gbuf_world_numel_unpadded) := numels in
  send_tensors ← scatter_tensors world offset gbuf_world_numel gbuf_local_numel gbuf_world_numel_unpadded;
  (if Nat.eqb (length send_tensors) (length ranks) then mret tt else raise_ ValueError "scatter list size") ;;
  recvs ← mapR (fun '(o, recv_tensor, recv_tensors) =>
    pm ← param_map_of gbuf_idx bucket_idx o;
    mret (receive_bucket key recv_tensor recv_tensors pm)) (zip (zip (map fst ranks) send_tensors) recvs);
  mret (offset + gbuf_world_numel_unpadded, recvs).

(** The tensors that the ranks receive for one buffer. *)
Definition scatter_buffer (ranks : list (dist_opt * store V)) (gbuf_idx : Z) (bf : buffer) (wt : world_tensors V)
    : res (list (param_dict (dict string (list V)))) :=
  assert_ (bf_numel_unpadded bf =? w_numel_unpadded wt) "Number of unpadded elements must be same in current run and checkpoint" ;;
  foldR (fun recvs key =>
    world ← dict_get (w_tensors wt) key;
    r ← foldR (scatter_bucket ranks gbuf_idx key world) (0, recvs) (enumerate (bf_buckets bf));
    mret (snd r)) (map (fun _ => []) ranks) state_keys.

(** The loop over [recv_tensors.items()] on one rank. *)
Definition set_states (o : dist_opt) (recv_tensors : param_dict (dict string (list V))) : M (store V) unit :=
  iterM (fun '(model_param, tensors) => set_main_param_and_optimizer_states at_ o model_param tensors) recv_tensors.

(** [load_parameter_state_from_dp_zero], in the current format and without float8 buffers to split. *)
Definition load_parameter_state_from_dp_zero (buffers : list buffer) (state : list (world_tensors V))
    (ranks : list (dist_opt * store V)) : res (list (dist_opt * store V)) :=
  foldR (fun ranks '(gbuf_idx, bf) =>
    wt ← py_get state gbuf_idx;
    recvs ← scatter_buffer ranks gbuf_idx bf wt;
    mapR (fun '((o, st), recv_tensors) =>
      match set_states o recv_tensors st with
      | (Ok _, st') => mret (o, st')
      | (Err e, _) => Err e
      end) (zip ranks recvs)) ranks (enumerate buffers).

(** [_update_legacy_world_tensors] *)
Definition update_legacy_world_tensors (old_tensors : list (list V)) (new_numels : list Z) : res (list (list V)) :=
  let old_total := zsum (map (fun t => Z.of_nat (length t)) old_tensors) in
  assert_ (old_total =? zsum new_numels) "old_total == new_total" ;;
  let unified_tensor := concat old_tensors in
  mret (snd (fold_left (fun '(start_idx, new_tensors) new_numel =>
    (start_idx + new_numel, new_tensors ++ [py_slice unified_tensor start_idx (start_idx + new_numel)])) new_numels (0, []))).
End Checkpoint.
