(* ===== verification/DistOptProofs.v ===== *)
(** * The distributed optimizer owns every element once

    The ranges that the ranks compute for a parameter tile it, every range lies in
    the rank's shard of the parameter's bucket, the maps from parameters to buckets
    and groups are built without a failing assertion and lead back to the ranges.
    All follows from what a constructed buffer promises, the record [well_placed]. *)

From S2P Require Import Prelude PyFloat GradBuffer GradBufferProofs DistOpt.

(* ================================================================== *)
(** ** What a buffer promises                                          *)
(* ================================================================== *)

(** A buffer as the optimizer needs it: every bucket can be cut evenly, every parameter lies in
    the unpadded part of its bucket, nothing overlaps, and data and gradients are views of it. *)
Record well_placed (bf : buffer) : Prop := {
  wp_dp : 0 < bf_dp bf;
  wp_distinct : NoDup (map p_id (bf_params bf));
  wp_bucket : forall i b, bf_buckets bf !! i = Some b ->
    b_offset b = v_start (b_grad_data b) /\ (bf_dp bf | view_numel (b_grad_data b)) /\
    0 <= b_numel_unpadded b <= view_numel (b_grad_data b) /\
    b_param_data b = Some (mkView PARAM (v_start (b_grad_data b)) (v_end (b_grad_data b)));
  wp_inside : forall i b, bf_buckets bf !! i = Some b -> 0 <= v_start (b_grad_data b) /\ v_end (b_grad_data b) <= bf_numel bf;
  wp_order : forall i j b b', (i < j)%nat -> bf_buckets bf !! i = Some b -> bf_buckets bf !! j = Some b' ->
    v_end (b_grad_data b) <= v_start (b_grad_data b');
  wp_param : forall p, p ∈ bf_params bf -> exists s i b, bf_index_map bf !! p_id p = Some (s, s + p_numel p, Z.of_nat i) /\
    bf_buckets bf !! i = Some b /\ b_offset b <= s /\ s + p_numel p <= b_offset b + b_numel_unpadded b /\
    bf_data bf !! p_id p = Some (mkView PARAM s (s + p_numel p)) /\
    bf_main_grad bf !! p_id p = Some (mkView GRAD s (s + p_numel p));
  wp_apart : forall p q s e i s' e' j, p ∈ bf_params bf -> q ∈ bf_params bf -> p <> q ->
    bf_index_map bf !! p_id p = Some (s, e, i) -> bf_index_map bf !! p_id q = Some (s', e', j) -> e <= s' \/ e' <= s;
  wp_used : forall i b, bf_buckets bf !! i = Some b -> exists p s e, p ∈ bf_params bf /\ bf_index_map bf !! p_id p = Some (s, e, Z.of_nat i);
  wp_numel : Forall (fun p => 0 <= p_numel p) (bf_params bf);
  wp_unpadded : bf_numel_unpadded bf = zsum (map b_numel_unpadded (bf_buckets bf))
}.

(** Later buckets are later in the buffer. *)
Lemma chain_order a ranges z (i j : nat) x w y v : chain a ranges z -> (i < j)%nat ->
  ranges !! i = Some (x, w) -> ranges !! j = Some (y, v) -> w <= y.
Proof.
  revert a i j. induction ranges as [|[x' w'] r IH]; intros a i j; [done|]. intros (-> & Hle & Hc) Hij Hi Hj.
  destruct j as [|j]; [lia|]. destruct i as [|i]; cbn in Hi, Hj.
  - injection Hi as -> ->. by destruct (chain_lookup _ _ _ _ _ _ Hc Hj).
  - eapply IH; [exact Hc| |exact Hi|exact Hj]. lia.
Qed.

Lemma buffer_well_placed cfg pd gd params dp bsz scaling bf : acceptable cfg dp params ->
  use_distributed_optimizer cfg = true -> reuse_grad_buf_for_mxfp8_param_ag cfg = false ->
  buffer_init cfg pd gd params dp bsz scaling = Ok bf ->
  well_placed bf /\ bf_dp bf = dp /\ bf_params bf = params /\ bf_param_dtype bf = pd /\ bf_grad_dtype bf = gd.
Proof.
  intros Ha Hdo Hre Hok. destruct (buffer_init_full cfg pd gd params dp bsz scaling Ha)
    as (bf' & es & unp & nun & idx & imap & pn & numel & Hbf & P & Hlen & Ees & Hpn & _ & _ & M & Hnun & Hmap & Hfit).
  rewrite Hok in Hbf. injection Hbf as <-. destruct M as [Hb Hc Hbs _ Hg Hd].
  assert (Hn : Forall (fun p => 0 <= p_numel p) (map e_param es)) by (rewrite Ees; apply Forall_reverse, (ac_numel _ _ _ Ha)).
  assert (Hfind : forall r, r ∈ params -> exists en, en ∈ es /\ e_param en = r).
  { intros r Hr. assert (r ∈ map e_param es) as (en & -> & Hen)%list_elem_of_fmap by (rewrite Ees; by apply elem_of_reverse). eauto. }
  assert (bf_params bf = params /\ bf_dp bf = dp /\ bf_index_map bf = imap /\ bf_numel_unpadded bf = nun /\
    bf_param_dtype bf = pd /\ bf_grad_dtype bf = gd /\ bf_numel bf = numel) as (Ep & Edp & Em & En & Epd & Egd & Enum) by (rewrite Hb; done).
  assert (Hpn' : pn <> None) by (intros ->; by rewrite Hdo in Hpn).
  destruct (align_facts cfg dp (ac_dp _ _ _ Ha)) as (_ & _ & _ & Hdpd & _). specialize (Hdpd Hdo).
  split; [|done]. split; rewrite ?Ep, ?Edp, ?Em, ?En, ?Enum.
  - apply (ac_dp _ _ _ Ha).
  - apply (ac_distinct _ _ _ Ha).
  - intros i b Hi. destruct (Hbs i b Hi) as (x & w & n & Hx & Hu & ->). cbn. unfold view_numel. cbn.
    destruct (Hfit i n Hu) as (x' & w' & Hx' & Hnw & _). rewrite Hx in Hx'. injection Hx' as <- <-.
    pose proof (pl_aligned _ _ _ _ _ _ _ P) as Hal. rewrite Forall_lookup in Hal. destruct (Hal i (x, w) Hx) as [Hal1 Hal2].
    split; [done|]. split; [apply Z.divide_sub_r; by etransitivity|]. split; [lia|]. by destruct pn.
  - intros i b Hi. destruct (Hbs i b Hi) as (x & w & n & Hx & _ & ->). cbn.
    pose proof (chain_lookup _ _ _ _ _ _ (pl_chain _ _ _ _ _ _ _ P) Hx). lia.
  - intros i j b b' Hij Hi Hj. destruct (Hbs i b Hi) as (x & w & n & Hx & _ & ->), (Hbs j b' Hj) as (y & v & n' & Hy & _ & ->). cbn.
    by eapply chain_order; [apply (pl_chain _ _ _ _ _ _ _ P)| | |].
  - intros p Hp. destruct (Hfind p Hp) as (en & Hen & <-). pose proof Hen as [k Hk]%list_elem_of_lookup.
    destruct (pl_entry _ _ _ _ _ _ _ P k en Hk) as (He & _ & H0 & Hin & _).
    pose proof (pl_closed _ _ _ _ _ _ _ P eq_refl en Hen) as Hlt. destruct (Hin Hlt) as (x & w & Hx & Hxs & _).
    destruct (lookup_lt_is_Some_2 (bf_buckets bf) (Z.to_nat (e_bucket en))) as [b Hbb]; [rewrite Hc; lia|].
    exists (e_start en), (Z.to_nat (e_bucket en)), b. rewrite Z2Nat.id, <- He by lia.
    split; [by apply Hmap|]. split; [done|]. destruct (Hbs _ _ Hbb) as (x' & w' & n & Hx' & Hu & ->). cbn.
    rewrite Hx in Hx'. injection Hx' as <- <-. destruct (Hfit _ _ Hu) as (x' & w' & Hx' & _ & Hend).
    rewrite Hx in Hx'. injection Hx' as <- <-. split_and!; [lia| |by apply Hd|by apply Hg].
    apply Hend; [done|]. rewrite Z2Nat.id; lia.
  - intros p q s e i s' e' j Hp Hq Hne Hsp Hsq. destruct (Hfind p Hp) as (ep & Hep & <-), (Hfind q Hq) as (eq & Heq & <-).
    rewrite Hmap in Hsp, Hsq by done. injection Hsp as <- <- _. injection Hsq as <- <- _.
    eapply (plan_disjoint _ _ _ _ _ _ _ P Hn); [done..|congruence].
  - intros i b Hi. assert (Hes : es <> []).
    { intros ->. cbn in Ees. symmetry in Ees. apply (f_equal reverse) in Ees. rewrite reverse_involutive in Ees. by apply (ac_some _ _ _ Ha). }
    destruct (plan_covers _ _ es idx numel numel P Hes i) as (en & Hen & Hbk); [rewrite <- Hc; by eapply lookup_lt_Some|].
    exists (e_param en), (e_start en), (e_end en). split; [|rewrite <- Hbk; by apply Hmap].
    apply elem_of_reverse. rewrite <- Ees. apply list_elem_of_fmap. eauto.
  - apply (ac_numel _ _ _ Ha).
  - rewrite Hnun. f_equal. apply list_eq. intros i. change (map b_numel_unpadded (bf_buckets bf)) with (b_numel_unpadded <$> bf_buckets bf).
    rewrite list_lookup_fmap. destruct (bf_buckets bf !! i) as [b|] eqn:Ei.
    + destruct (Hbs i b Ei) as (x & w & n & _ & Hu & ->). by rewrite Hu.
    + apply lookup_ge_None. rewrite Hlen, <- Hc. by apply lookup_ge_None.
Qed.

(* ================================================================== *)
(** ** Ranges                                                          *)
(* ================================================================== *)

(** The ranges of a parameter at [s, e) in the shard [gs, ge): the intersection, in four coordinates. *)
Lemma build_param_ranges_meet gs ge off s e :
  build_param_ranges (mkRange gs ge) off s e =
  let a := Z.max s gs in let z := Z.min e ge in
  if a <? z then Some (mkRanges (mkRange a z) (mkRange (a - off) (z - off)) (mkRange (a - gs) (z - gs)) (mkRange (a - s) (z - s)))
  else None.
Proof.
  unfold build_param_ranges, normalize, r_size. cbn. destruct (Z.ltb_spec (Z.max 0 (s - gs)) (Z.min (ge - gs) (e - gs)));
    destruct (Z.ltb_spec (Z.max s gs) (Z.min e ge)); try lia; [|done].
  do 2 f_equal; f_equal; lia.
Qed.

(** *** Dictionaries *)

Lemma dict_lookup_elem {K A} `{!EqDecision K} (d : dict K A) k a : NoDup (map fst d) -> (k, a) ∈ d -> dict_lookup d k = Some a.
Proof.
  induction d as [|[k' a'] d IH]; intros Hnd Hin; [by apply elem_of_nil in Hin|]. inversion Hnd as [|? ? Hk Hnd']; subst. cbn.
  apply elem_of_cons in Hin as [[= -> ->]|Hin]; [by rewrite decide_True|].
  rewrite decide_False; [by apply IH|]. intros ->. apply Hk, list_elem_of_fmap. by exists (k', a).
Qed.
Lemma dict_lookup_Some {K A} `{!EqDecision K} (d : dict K A) k a : dict_lookup d k = Some a -> (k, a) ∈ d.
Proof.
  induction d as [|[k' a'] d IH]; [done|]. cbn. destruct (decide (k = k')) as [->|]; [intros [= ->]; by left|].
  intros H. right. by apply IH.
Qed.
Lemma dict_lookup_set_eq {K A} `{!EqDecision K} (d : dict K A) k a : dict_lookup (dict_set d k a) k = Some a.
Proof.
  induction d as [|[k' a'] d IH]; cbn; [by rewrite decide_True|].
  destruct (decide (k = k')) as [->|]; cbn; [by rewrite decide_True|by rewrite decide_False].
Qed.
Lemma dict_lookup_set_ne {K A} `{!EqDecision K} (d : dict K A) k k' a : k' <> k -> dict_lookup (dict_set d k a) k' = dict_lookup d k'.
Proof.
  intros Hne. induction d as [|[k2 a2] d IH]; cbn; [by rewrite decide_False|].
  destruct (decide (k = k2)) as [->|]; cbn; [by rewrite !(decide_False (P := k' = k2))|]. by destruct (decide (k' = k2)).
Qed.
Lemma dict_set_keys {K A} `{!EqDecision K} (d : dict K A) k a :
  map fst (dict_set d k a) = if decide (k ∈ map fst d) then map fst d else map fst d ++ [k].
Proof.
  induction d as [|[k' a'] d IH]; cbn; [done|]. destruct (decide (k = k')) as [->|Hne]; cbn.
  - rewrite decide_True; [done|by left].
  - rewrite IH. destruct (decide (k ∈ map fst d)) as [Hin|Hin].
    + rewrite decide_True; [done|by right].
    + rewrite decide_False; [done|]. by intros [?|?]%elem_of_cons.
Qed.
Lemma lookup_enumerate {A} (l : list A) (i : nat) : enumerate l !! i = (fun x => (Z.of_nat i, x)) <$> l !! i.
Proof. unfold enumerate. by rewrite list_lookup_imap. Qed.
Lemma elem_of_enumerate {A} (l : list A) k x : (k, x) ∈ enumerate l <-> exists i, k = Z.of_nat i /\ l !! i = Some x.
Proof.
  rewrite list_elem_of_lookup. split.
  - intros [i Hi]. rewrite lookup_enumerate in Hi. destruct (l !! i) eqn:E; [|done]. injection Hi as <- <-. eauto.
  - intros (i & -> & Hi). exists i. by rewrite lookup_enumerate, Hi.
Qed.

(** *** One buffer *)

(** The elements of [p] in a map from parameters to their ranges. *)
Definition part_elements (param_map : param_dict param_ranges) (p : param) : list Z :=
  match dict_lookup param_map p with
  | Some rs => zrange (r_start (param_range rs)) (r_end (param_range rs))
  | None => []
  end.

Section Buffer.
Context (bf : buffer) (W : well_placed bf).
Let dp := bf_dp bf.

(** The elements of a bucket per rank, and the part of rank [r]. *)
Definition shard_size (b : bucket) : Z := view_numel (b_grad_data b) / bf_dp bf.
Definition shard_range (b : bucket) (r : Z) : Range := mkRange (b_offset b + r * shard_size b) (b_offset b + (r + 1) * shard_size b).
Definition rank_param_map (b : bucket) (r : Z) : param_dict param_ranges :=
  build_model_gbuf_param_range_map (param_index_items bf) (shard_range b r) (b_offset b).

Lemma shard_size_ok i b : bf_buckets bf !! i = Some b -> 0 <= shard_size b /\ bf_dp bf * shard_size b = view_numel (b_grad_data b) /\
  view_numel (b_grad_data b) mod bf_dp bf = 0.
Proof.
  intros Hi. destruct (wp_bucket _ W i b Hi) as (_ & Hd & Hn & _). pose proof (wp_dp _ W) as Hp.
  apply Z.mod_divide in Hd; [|lia]. unfold shard_size. split; [apply Z.div_pos; lia|]. split; [|done].
  rewrite (Z.div_mod (view_numel (b_grad_data b)) (bf_dp bf)) at 2; lia.
Qed.

Lemma build_model_gbuf_range_ok i b r : bf_buckets bf !! i = Some b -> 0 <= r < dp ->
  build_model_gbuf_range bf r (Z.of_nat i) = Ok (rank_param_map b r).
Proof.
  intros Hi Hr. destruct (shard_size_ok i b Hi) as (H0 & Hm & Hz). unfold build_model_gbuf_range.
  rewrite (py_get_nonneg _ _ _ Hi). cbn [mbind res_bind]. rewrite pymod_ok by (fold dp; lia). rewrite Hz. cbn [mbind res_bind Z.eqb assert_].
  rewrite floordiv_ok by (fold dp; lia). cbn [mbind res_bind]. fold (shard_size b).
  rewrite <- (Z2Nat.id r) by lia. erewrite py_get_nonneg.
  2: { change (map ?f ?l) with (f <$> l). rewrite list_lookup_fmap, lookup_zrange by (fold dp; lia). reflexivity. }
  cbn [mbind res_bind]. rewrite Z.add_0_l, Z2Nat.id by lia. unfold rank_param_map, shard_range. do 3 f_equal.
  - lia.
  - rewrite Z.min_r; [lia|]. rewrite <- Hm. fold dp. nia.
Qed.

Lemma elem_of_items p x : (p, x) ∈ param_index_items bf <-> p ∈ bf_params bf /\ bf_index_map bf !! p_id p = Some x.
Proof.
  unfold param_index_items. rewrite list_elem_of_omap. split.
  - intros (q & Hq & Hx). destruct (bf_index_map bf !! p_id q) eqn:E; [|done]. injection Hx as <- <-. by rewrite <- elem_of_reverse.
  - intros [Hp Hx]. exists p. rewrite Hx. split; [by apply elem_of_reverse|done].
Qed.

Lemma elem_of_param_map b r p rs : (p, rs) ∈ rank_param_map b r <->
  exists s e i, p ∈ bf_params bf /\ bf_index_map bf !! p_id p = Some (s, e, i) /\ build_param_ranges (shard_range b r) (b_offset b) s e = Some rs.
Proof.
  unfold rank_param_map, build_model_gbuf_param_range_map. rewrite list_elem_of_omap. split.
  - intros ([q [[s e] i]] & Hq & Hx). apply elem_of_items in Hq as [Hq Hm].
    destruct (build_param_ranges _ _ s e) eqn:E; [|done]. injection Hx as <- <-. eauto 10.
  - intros (s & e & i & Hp & Hm & Hb). exists (p, (s, e, i)). rewrite Hb. split; [by apply elem_of_items|done].
Qed.

(** The four ranges of the parameter [p] at [s] on rank [r]: the part of the parameter in the rank's shard. *)
Definition ranges_at (b : bucket) (r s : Z) (p : param) (rs : param_ranges) : Prop :=
  let a := r_start (gbuf_world rs) in let z := r_end (gbuf_world rs) in
  a < z /\ s <= a /\ z <= s + p_numel p /\ r_start (shard_range b r) <= a /\ z <= r_end (shard_range b r) /\
  gbuf_world_in_bucket rs = mkRange (a - b_offset b) (z - b_offset b) /\
  gbuf_local rs = mkRange (a - r_start (shard_range b r)) (z - r_start (shard_range b r)) /\
  param_range rs = mkRange (a - s) (z - s).

(** A parameter appears in the map of its own bucket only. *)
Lemma param_map_own i b r p rs : bf_buckets bf !! i = Some b -> 0 <= r < dp -> (p, rs) ∈ rank_param_map b r ->
  p ∈ bf_params bf /\ exists s, bf_index_map bf !! p_id p = Some (s, s + p_numel p, Z.of_nat i) /\ ranges_at b r s p rs.
Proof.
  intros Hi Hr (s & e & k & Hp & Hm & Hb)%elem_of_param_map. split; [done|].
  destruct (wp_param _ W p Hp) as (s' & j & b' & Hm' & Hj & Hs1 & Hs2 & _). rewrite Hm in Hm'. injection Hm' as <- -> ->.
  unfold shard_range in Hb. rewrite build_param_ranges_meet in Hb. cbn zeta in Hb.
  destruct (Z.ltb_spec (Z.max s (b_offset b + r * shard_size b)) (Z.min (s + p_numel p) (b_offset b + (r + 1) * shard_size b))) as [Hlt|]; [|done].
  injection Hb as <-. assert (Hij : i = j).
  { destruct (shard_size_ok i b Hi) as (H0 & Hsz & _). fold dp in Hsz.
    destruct (wp_bucket _ W i b Hi) as (Ho & _ & _ & _), (wp_bucket _ W j b' Hj) as (Ho' & _ & Hn' & _). unfold view_numel in *.
    assert ((r + 1) * shard_size b <= dp * shard_size b) by nia. assert (0 <= r * shard_size b) by nia.
    destruct (Nat.lt_trichotomy i j) as [Hl|[He|Hl]]; [|done|].
    - pose proof (wp_order _ W i j b b' Hl Hi Hj). lia.
    - pose proof (wp_order _ W j i b' b Hl Hj Hi). lia. }
  subst j. exists s. split; [done|]. unfold ranges_at, shard_range. cbn. split_and!; (done || lia).
Qed.

Lemma items_keys : map fst (param_index_items bf) = reverse (bf_params bf).
Proof.
  unfold param_index_items. assert (Hall : forall p, p ∈ reverse (bf_params bf) -> is_Some (bf_index_map bf !! p_id p)).
  { intros p Hp. rewrite elem_of_reverse in Hp. destruct (wp_param _ W p Hp) as (s & i & b & -> & _). eauto. }
  induction (reverse (bf_params bf)) as [|p l IH]; [done|]. cbn.
  destruct (Hall p) as [x ->]; [by left|]. cbn. f_equal. apply IH. intros q Hq. apply Hall. by right.
Qed.

Lemma sublist_omap_fst {A B C} (f : B -> option C) (l : list (A * B)) :
  map fst (omap (fun '(a, x) => pair a <$> f x) l) `sublist_of` map fst l.
Proof.
  induction l as [|[a x] l IH]; cbn; [constructor|]. destruct (f x); cbn; by constructor.
Qed.

Lemma param_map_sublist b r : map fst (rank_param_map b r) `sublist_of` reverse (bf_params bf).
Proof.
  rewrite <- items_keys. unfold rank_param_map, build_model_gbuf_param_range_map.
  pose proof (sublist_omap_fst (fun '(s, e, _) => build_param_ranges (shard_range b r) (b_offset b) s e) (param_index_items bf)) as H.
  erewrite list_omap_ext; [exact H|]. apply Forall_Forall2_diag, Forall_forall. by intros [p [[s e] i]] _.
Qed.

Lemma param_map_keys b r : NoDup (map p_id (map fst (rank_param_map b r))).
Proof.
  eapply sublist_NoDup; [|apply (fmap_sublist p_id), param_map_sublist].
  change (NoDup (map p_id (reverse (bf_params bf)))). rewrite reverse_Permutation. apply (wp_distinct _ W).
Qed.

Lemma param_map_nodup b r : NoDup (map fst (rank_param_map b r)).
Proof. eapply (NoDup_fmap_1 p_id). apply param_map_keys. Qed.

(** The elements of [p] that rank [r] owns. *)
Definition owned_part (b : bucket) (r : Z) (p : param) : list Z := part_elements (rank_param_map b r) p.

Lemma owned_part_eq i b r p s e : p ∈ bf_params bf -> bf_index_map bf !! p_id p = Some (s, e, i) ->
  owned_part b r p = zrange (Z.max s (r_start (shard_range b r)) - s) (Z.min e (r_end (shard_range b r)) - s).
Proof.
  intros Hp Hm. unfold owned_part, part_elements, shard_range. cbn [r_start r_end].
  pose proof (build_param_ranges_meet (b_offset b + r * shard_size b) (b_offset b + (r + 1) * shard_size b) (b_offset b) s e) as Hb. cbn zeta in Hb.
  destruct (Z.ltb_spec (Z.max s (b_offset b + r * shard_size b)) (Z.min e (b_offset b + (r + 1) * shard_size b))) as [Hlt|Hge].
  - erewrite (dict_lookup_elem _ p); [|apply param_map_nodup|apply elem_of_param_map; unfold shard_range; eauto 10]. done.
  - rewrite zrange_nil by lia. destruct (dict_lookup _ p) as [rs|] eqn:E; [|done].
    apply dict_lookup_Some, elem_of_param_map in E as (s' & e' & i' & _ & Hm' & Hb'). rewrite Hm in Hm'. injection Hm' as <- <- <-.
    unfold shard_range in Hb'. rewrite Hb in Hb'. done.
Qed.

Lemma owned_parts_prefix i b p s (n : nat) : bf_buckets bf !! i = Some b -> p ∈ bf_params bf ->
  bf_index_map bf !! p_id p = Some (s, s + p_numel p, Z.of_nat i) -> b_offset b <= s -> 0 <= p_numel p ->
  concat (map (fun r => owned_part b r p) (zrange 0 (Z.of_nat n))) =
  zrange 0 (Z.max 0 (Z.min (p_numel p) (b_offset b + Z.of_nat n * shard_size b - s))).
Proof.
  intros Hi Hp Hm Hs Hn. destruct (shard_size_ok i b Hi) as (H0 & _). induction n as [|n IH].
  - rewrite (zrange_nil 0 (Z.of_nat 0)) by lia. cbn [map concat]. rewrite zrange_nil by lia. done.
  - rewrite Nat2Z.inj_succ, <- Z.add_1_r, zrange_snoc, map_app, concat_app, IH by lia. cbn [map concat]. rewrite app_nil_r.
    rewrite (owned_part_eq (Z.of_nat i) b (Z.of_nat n) p s (s + p_numel p)) by done. unfold shard_range. cbn [r_start r_end].
    assert (0 <= Z.of_nat n * shard_size b) by nia.
    destruct (Z.le_gt_cases (b_offset b + (Z.of_nat n + 1) * shard_size b) s) as [Hc|Hc].
    { rewrite (zrange_nil (Z.max s _ - s)) by lia. rewrite app_nil_r. f_equal. lia. }
    destruct (Z.le_gt_cases (s + p_numel p) (b_offset b + Z.of_nat n * shard_size b)) as [Hd|Hd].
    { rewrite (zrange_nil (Z.max s _ - s)) by lia. rewrite app_nil_r. f_equal. lia. }
    symmetry. replace (Z.max s (b_offset b + Z.of_nat n * shard_size b) - s)
      with (Z.max 0 (Z.min (p_numel p) (b_offset b + Z.of_nat n * shard_size b - s))) by lia.
    replace (Z.min (s + p_numel p) (b_offset b + (Z.of_nat n + 1) * shard_size b) - s)
      with (Z.max 0 (Z.min (p_numel p) (b_offset b + (Z.of_nat n + 1) * shard_size b - s))) by lia.
    apply zrange_app; lia.
Qed.

(** The parts of all ranks, one after the other, are the parameter. *)
Lemma owned_parts_tile p : p ∈ bf_params bf -> exists s i b, bf_index_map bf !! p_id p = Some (s, s + p_numel p, Z.of_nat i) /\
  bf_buckets bf !! i = Some b /\ b_offset b <= s /\ s + p_numel p <= b_offset b + b_numel_unpadded b /\
  concat (map (fun r => owned_part b r p) (zrange 0 dp)) = zrange 0 (p_numel p).
Proof.
  intros Hp. destruct (wp_param _ W p Hp) as (s & i & b & Hm & Hi & Hs1 & Hs2 & _). exists s, i, b. split; [done|]. split; [done|]. split; [done|]. split; [done|].
  pose proof (wp_numel _ W) as Hn. rewrite Forall_forall in Hn. specialize (Hn p Hp). cbn in Hn. pose proof (wp_dp _ W) as Hd. fold dp in Hd.
  rewrite <- (Z2Nat.id dp) by lia. rewrite (owned_parts_prefix i b p s) by done. rewrite Z2Nat.id by lia. f_equal.
  destruct (shard_size_ok i b Hi) as (_ & Hsz & _). destruct (wp_bucket _ W i b Hi) as (_ & _ & Hu & _). fold dp in Hsz. lia.
Qed.
End Buffer.

(* ================================================================== *)
(** ** The maps of one rank                                            *)
(* ================================================================== *)

Lemma map_enumerate {A B} (f : A -> B) (l : list A) : map (fun '(_, x) => f x) (enumerate l) = map f l.
Proof.
  apply list_eq. intros i. change (map ?g ?k) with (g <$> k). rewrite !list_lookup_fmap, lookup_enumerate.
  by destruct (l !! i).
Qed.
Lemma elem_of_concat {A} (ls : list (list A)) x : x ∈ concat ls <-> exists l, l ∈ ls /\ x ∈ l.
Proof. rewrite list_elem_of_In, in_concat. split; intros (l & H1 & H2); exists l; by rewrite ?list_elem_of_In in *. Qed.

(** The parameter of an item, and the items of given maps. *)
Definition item_param (it : Z * gbuf_dtype * Z * (param * param_ranges)) : param := fst (snd it).
Definition item_id (it : Z * gbuf_dtype * Z * (param * param_ranges)) : Z := p_id (item_param it).

Lemma elem_of_gbuf_items gs gi dt bi p rs : (gi, dt, bi, (p, rs)) ∈ gbuf_items gs <->
  exists g i gr pm, gi = Z.of_nat g /\ bi = Z.of_nat i /\ gs !! g = Some gr /\ dt = gr_dtype gr /\ gr_buckets gr !! i = Some pm /\ (p, rs) ∈ pm.
Proof.
  unfold gbuf_items. rewrite elem_of_concat. split.
  - intros (l & ([gi' gr] & -> & (g & -> & Hg)%elem_of_enumerate)%list_elem_of_fmap & Hin).
    apply elem_of_concat in Hin as (l & ([bi' pm] & -> & (i & -> & Hi)%elem_of_enumerate)%list_elem_of_fmap & Hin).
    apply list_elem_of_fmap in Hin as ([q qs] & [= -> -> -> -> ->] & Hin). eauto 15.
  - intros (g & i & gr & pm & -> & -> & Hg & -> & Hi & Hin). eexists. split.
    { apply list_elem_of_fmap. exists (Z.of_nat g, gr). split; [done|]. apply elem_of_enumerate. eauto. }
    apply elem_of_concat. eexists. split.
    { apply list_elem_of_fmap. exists (Z.of_nat i, pm). split; [done|]. apply elem_of_enumerate. eauto. }
    apply list_elem_of_fmap. by exists (p, rs).
Qed.

Lemma gbuf_items_params gs : map item_param (gbuf_items gs) = concat (map (fun g => concat (map (map fst) (gr_buckets g))) gs).
Proof.
  unfold gbuf_items. rewrite concat_map, map_map. f_equal. rewrite <- (map_enumerate _ gs). apply map_ext. intros [gi g].
  rewrite concat_map, map_map. f_equal. rewrite <- (map_enumerate _ (gr_buckets g)). apply map_ext. intros [bi pm]. by rewrite map_map.
Qed.

Section Rank.
Context (buffers : list buffer) (WB : Forall well_placed buffers).
Context (Hids : NoDup (map p_id (concat (map bf_params buffers)))).
Context (r : Z) (Hr : Forall (fun bf => 0 <= r < bf_dp bf) buffers).

Definition rank_ranges (bf : buffer) : gbuf_range_map :=
  mkGbuf (bf_param_dtype bf, bf_grad_dtype bf) (map (fun b => rank_param_map bf b r) (bf_buckets bf)).

Lemma gbuf_range_maps_ok : mapR (build_gbuf_range_map r) buffers = Ok (map rank_ranges buffers).
Proof.
  apply mapR_total. intros bf Hbf. rewrite Forall_forall in WB, Hr. pose proof (WB bf Hbf) as W. pose proof (Hr bf Hbf) as Hrb.
  unfold build_gbuf_range_map, rank_ranges.
  rewrite (mapR_total _ (fun i => match bf_buckets bf !! Z.to_nat i with Some b => rank_param_map bf b r | None => [] end)).
  - cbn. do 2 f_equal. apply list_eq. intros i. change (map ?g ?k) with (g <$> k). rewrite !list_lookup_fmap.
    destruct (bf_buckets bf !! i) as [b|] eqn:E.
    + rewrite lookup_zrange by (apply lookup_lt_Some in E; lia). cbn [fmap option_fmap option_map]. by rewrite Z.add_0_l, Nat2Z.id, E.
    + rewrite lookup_ge_None_2; [done|]. apply lookup_ge_None in E. pose proof (length_zrange 0 (Z.of_nat (length (bf_buckets bf)))). lia.
  - intros i [Hi1 Hi2]%elem_of_zrange. destruct (lookup_lt_is_Some_2 (bf_buckets bf) (Z.to_nat i)) as [b Hb]; [lia|].
    rewrite Hb. rewrite <- (Z2Nat.id i) at 1 by lia. by apply build_model_gbuf_range_ok.
Qed.

(** What the rank owns: parameter [p] of buffer [g], bucket [i], with the ranges [rs]. *)
Definition owns (g : nat) (bf : buffer) (i : nat) (b : bucket) (p : param) (rs : param_ranges) : Prop :=
  buffers !! g = Some bf /\ bf_buckets bf !! i = Some b /\ (p, rs) ∈ rank_param_map bf b r.

Lemma elem_of_rank_items gi dt bi p rs : (gi, dt, bi, (p, rs)) ∈ gbuf_items (map rank_ranges buffers) <->
  exists g bf i b, gi = Z.of_nat g /\ bi = Z.of_nat i /\ dt = (bf_param_dtype bf, bf_grad_dtype bf) /\ owns g bf i b p rs.
Proof.
  rewrite elem_of_gbuf_items. split.
  - intros (g & i & gr & pm & -> & -> & Hg & -> & Hi & Hin). change (map ?f ?l) with (f <$> l) in Hg. rewrite list_lookup_fmap in Hg.
    destruct (buffers !! g) as [bf|] eqn:Eg; [|done]. injection Hg as <-. cbn in Hi. change (map ?f ?l) with (f <$> l) in Hi. rewrite list_lookup_fmap in Hi.
    destruct (bf_buckets bf !! i) as [b|] eqn:Ei; [|done]. injection Hi as <-. unfold owns. eauto 15.
  - intros (g & bf & i & b & -> & -> & -> & Hg & Hi & Hin). exists g, i, (rank_ranges bf), (rank_param_map bf b r).
    change (map ?f ?l) with (f <$> l). cbn. change (map ?f ?l) with (f <$> l). rewrite !list_lookup_fmap, Hg, Hi. done.
Qed.

Lemma owns_facts g bf i b p rs : owns g bf i b p rs -> well_placed bf /\ 0 <= r < bf_dp bf /\ p ∈ bf_params bf /\
  exists s, bf_index_map bf !! p_id p = Some (s, s + p_numel p, Z.of_nat i) /\ ranges_at bf b r s p rs.
Proof.
  intros (Hg & Hi & Hin). rewrite Forall_forall in WB, Hr. pose proof (list_elem_of_lookup_2 _ _ _ Hg) as Hbf.
  split; [by apply WB|]. split; [by apply Hr|]. apply (param_map_own bf (WB bf Hbf) i b r); auto.
Qed.

(** Parameters of one buffer are not parameters of another. *)
Lemma same_buffer g g' bf bf' p q : buffers !! g = Some bf -> buffers !! g' = Some bf' -> p ∈ bf_params bf -> q ∈ bf_params bf' ->
  p_id p = p_id q -> g = g' /\ p = q.
Proof.
  intros Hg Hg' Hp Hq E. destruct (decide (g = g')) as [<-|Hne].
  - split; [done|]. rewrite Hg in Hg'. injection Hg' as <-. pose proof (list_elem_of_lookup_2 _ _ _ Hg) as Hbf.
    rewrite Forall_forall in WB. pose proof (wp_distinct _ (WB bf Hbf)) as Hnd.
    apply list_elem_of_lookup in Hp as [i Hi], Hq as [j Hj].
    assert (i = j) as ->; [|congruence]. eapply (NoDup_lookup _ i j); [exact Hnd|by apply list_lookup_fmap_Some; eauto|].
    rewrite E. apply list_lookup_fmap_Some. eauto.
  - exfalso. rewrite concat_map, map_map in Hids.
    clear WB Hr. revert g g' Hg Hg' Hne. induction buffers as [|b0 bs IH]; intros g g' Hg Hg' Hne; [done|].
    cbn in Hids. apply NoDup_app in Hids as (_ & Hd & Hnd).
    assert (Hin : forall n bf p, bs !! n = Some bf -> p ∈ bf_params bf -> p_id p ∈ concat (map (fun x => map p_id (bf_params x)) bs)).
    { intros n bf0 p0 Hn Hp0. apply elem_of_concat. exists (map p_id (bf_params bf0)). split.
      - apply list_elem_of_fmap. exists bf0. split; [done|]. by eapply list_elem_of_lookup_2.
      - apply list_elem_of_fmap. eauto. }
    assert (Hhd : forall p, p ∈ bf_params b0 -> p_id p ∈ map p_id (bf_params b0)) by (intros; apply list_elem_of_fmap; eauto).
    destruct g as [|g], g' as [|g']; cbn in Hg, Hg'; [done| | |].
    + injection Hg as <-. apply (Hd (p_id p)); [by apply Hhd|]. rewrite E. by eapply Hin.
    + injection Hg' as <-. apply (Hd (p_id q)); [by apply Hhd|]. rewrite <- E. by eapply Hin.
    + apply (IH Hnd g g'); (done || lia).
Qed.

(** What is owned under one name is one thing. *)
Lemma owns_same g bf i b p rs g' bf' i' b' p' rs' : owns g bf i b p rs -> owns g' bf' i' b' p' rs' -> p_id p = p_id p' ->
  g = g' /\ bf = bf' /\ i = i' /\ b = b' /\ p = p' /\ rs = rs'.
Proof.
  intros H H' E. destruct (owns_facts _ _ _ _ _ _ H) as (W & Hrb & Hp & s & Hm & _), (owns_facts _ _ _ _ _ _ H') as (_ & _ & Hp' & s' & Hm' & _).
  destruct H as (Hg & Hi & Hin), H' as (Hg' & Hi' & Hin'). destruct (same_buffer _ _ _ _ _ _ Hg Hg' Hp Hp' E) as [<- <-].
  rewrite Hg in Hg'. injection Hg' as <-. rewrite Hm in Hm'. injection Hm' as _ _ Hii. assert (i = i') as <- by lia.
  rewrite Hi in Hi'. injection Hi' as <-. split_and!; try done.
  pose proof (dict_lookup_elem _ _ _ (param_map_nodup bf W b r) Hin) as H1. pose proof (dict_lookup_elem _ _ _ (param_map_nodup bf W b r) Hin') as H2.
  congruence.
Qed.

Lemma rank_items_nodup : NoDup (map item_id (gbuf_items (map rank_ranges buffers))).
Proof.
  unfold item_id. rewrite <- (map_map item_param p_id), gbuf_items_params, map_map.
  rewrite concat_map, map_map. apply NoDup_concat.
  - apply Forall_map, Forall_forall. intros bf Hbf. cbn. rewrite map_map, concat_map, map_map.
    pose proof (proj1 (Forall_forall _ _) WB bf Hbf) as W.
    apply NoDup_concat.
    + apply Forall_map, Forall_forall. intros b _. by apply param_map_keys.
    + intros i j l1 l2 x Hi Hj H1 H2. change (map ?f ?l) with (f <$> l) in Hi, Hj. rewrite list_lookup_fmap in Hi, Hj.
      destruct (bf_buckets bf !! i) as [b|] eqn:Ei; [|done]. destruct (bf_buckets bf !! j) as [b'|] eqn:Ej; [|done].
      injection Hi as <-. injection Hj as <-. apply list_elem_of_lookup in Hbf as [g Hg].
      apply list_elem_of_fmap in H1 as (p & -> & ([p' rs] & -> & H1)%list_elem_of_fmap), H2 as (q & E & ([q' qs] & -> & H2)%list_elem_of_fmap).
      cbn in E. by destruct (owns_same g bf i b p' rs g bf j b' q' qs) as (_ & _ & -> & _).
  - intros i j l1 l2 x Hi Hj H1 H2. change (map ?f ?l) with (f <$> l) in Hi, Hj. rewrite list_lookup_fmap in Hi, Hj.
    destruct (buffers !! i) as [bf|] eqn:Ei; [|done]. destruct (buffers !! j) as [bf'|] eqn:Ej; [|done].
    injection Hi as <-. injection Hj as <-. cbn in H1, H2. rewrite map_map in H1, H2.
    assert (Hsub : forall bf p, bf ∈ buffers -> p ∈ concat (map (fun b => map fst (rank_param_map bf b r)) (bf_buckets bf)) -> p ∈ bf_params bf).
    { intros bf0 p Hbf0 (l & (b & -> & Hb)%list_elem_of_fmap & ([p' rs] & -> & Hp)%list_elem_of_fmap)%elem_of_concat.
      apply elem_of_param_map in Hp as (_ & _ & _ & Hp & _). done. }
    apply list_elem_of_fmap in H1 as (p & -> & H1), H2 as (q & E & H2).
    destruct (same_buffer i j bf bf' p q Ei Ej) as [-> _]; try done; apply Hsub; eauto using list_elem_of_lookup_2.
Qed.

Lemma foldR_ext {A B} (f f' : B -> A -> res B) b l : (forall b x, f b x = f' b x) -> foldR f b l = foldR f' b l.
Proof. intros Hf. revert b. induction l as [|x l IH]; intros b; cbn; [done|]. rewrite Hf. destruct (f' b x); cbn; [apply IH|done]. Qed.

(** [_build_model_param_gbuf_map] passes its assertion, and its result leads back to the ranges. *)
Lemma param_gbuf_map_ok : exists m, build_model_param_gbuf_map (map rank_ranges buffers) = Ok m /\
  (forall g bf i b p rs, owns g bf i b p rs ->
     m !! p_id p = Some (Z.of_nat g, (bf_param_dtype bf, bf_grad_dtype bf), Z.of_nat i) /\
     find_ranges (map rank_ranges buffers) m p = Ok rs) /\
  (forall k, is_Some (m !! k) -> exists g bf i b p rs, owns g bf i b p rs /\ p_id p = k).
Proof.
  destruct (foldR_table (fun (m : gmap Z (Z * gbuf_dtype * Z)) '(gbuf_index, dt, bucket_index, (p, _)) =>
    assert_ (is_none (m !! p_id p)) "Param should not be in param_gbuf_map; each param only belongs to a single bucket." ;;
    mret (<[p_id p := (gbuf_index, dt, bucket_index)]> m)) item_id fst (gbuf_items (map rank_ranges buffers)) ∅) as (m & Hm & H1 & H2).
  - intros m [[[gi dt] bi] [p rs]] _ Hx. unfold item_id, item_param in *. cbn in Hx |- *. by rewrite Hx.
  - apply rank_items_nodup.
  - intros x _. apply lookup_empty.
  - exists m. split; [exact Hm|]. split.
    + intros g bf i b p rs Ho. assert (Hmp : m !! p_id p = Some (Z.of_nat g, (bf_param_dtype bf, bf_grad_dtype bf), Z.of_nat i)).
      { apply (H1 (Z.of_nat g, (bf_param_dtype bf, bf_grad_dtype bf), Z.of_nat i, (p, rs))). apply elem_of_rank_items. eauto 10. }
      split; [done|]. unfold find_ranges. rewrite Hmp. destruct (owns_facts _ _ _ _ _ _ Ho) as (W & _). destruct Ho as (Hg & Hi & Hin).
      erewrite (py_get_nonneg (map rank_ranges buffers)); [|by apply list_lookup_fmap_Some; eauto]. cbn [mbind res_bind gr_dtype rank_ranges].
      rewrite decide_True by done. cbn [mbind res_bind gr_buckets].
      erewrite py_get_nonneg; [|by apply list_lookup_fmap_Some; eauto]. cbn [mbind res_bind].
      unfold dict_get. by rewrite (dict_lookup_elem _ _ _ (param_map_nodup bf W b r) Hin).
    + intros k [x Hx]. destruct (decide (k ∈ map item_id (gbuf_items (map rank_ranges buffers)))) as [Hk|Hk].
      * apply list_elem_of_fmap in Hk as ([[[gi dt] bi] [p rs]] & -> & (g & bf & i & b & _ & _ & _ & Ho)%elem_of_rank_items). eauto 10.
      * rewrite H2 in Hx by done. by rewrite lookup_empty in Hx.
Qed.

(** *** Optimizer groups *)

(** The parameters that the rank owns, in the order of the loops. *)
Definition owned_params : list param := map item_param (gbuf_items (map rank_ranges buffers)).

Lemma elem_of_owned p : p ∈ owned_params <-> exists g bf i b rs, owns g bf i b p rs.
Proof.
  unfold owned_params. rewrite list_elem_of_fmap. split.
  - intros ([[[gi dt] bi] [q rs]] & -> & (g & bf & i & b & _ & _ & _ & Ho)%elem_of_rank_items). eauto 10.
  - intros (g & bf & i & b & rs & Ho). eexists (_, _, _, (p, rs)). split; [done|]. apply elem_of_rank_items. eauto 10.
Qed.

Context (at_ : attributes) (param_groups : list (list param)).

(** The groups of the inner optimizer: every parameter of the buffers is in one, and needs gradients. *)
Record groups_cover : Prop := {
  gc_distinct : NoDup (map p_id (concat param_groups));
  gc_grad : forall p, p ∈ concat param_groups -> a_requires_grad at_ (p_id p) = true;
  gc_all : forall bf p, bf ∈ buffers -> p ∈ bf_params bf -> p ∈ concat param_groups
}.
Context (GC : groups_cover).

Lemma world_map_ok : exists wm, world_param_group_map at_ param_groups = Ok wm /\
  forall g group p, param_groups !! g = Some group -> p ∈ group -> wm !! p_id p = Some (Z.of_nat g).
Proof.
  destruct (foldR_table (fun (m : gmap Z Z) '(group_index, p) =>
    assert_ (a_requires_grad at_ (p_id p)) "param.requires_grad" ;; mret (<[p_id p := group_index]> m))
    (fun x => p_id (snd x)) fst (concat (map (fun '(group_index, group) => map (pair group_index) group) (enumerate param_groups))) ∅)
    as (wm & Hwm & H1 & _).
  - intros m [gi p] Hin _. apply elem_of_concat in Hin as (l & ([k group] & -> & (g & -> & Hg)%elem_of_enumerate)%list_elem_of_fmap & Hp).
    apply list_elem_of_fmap in Hp as (q & [= -> ->] & Hq). cbn. rewrite (gc_grad GC); [done|]. apply elem_of_concat.
    exists group. split; [by eapply list_elem_of_lookup_2|done].
  - rewrite concat_map, map_map. rewrite (map_ext _ (fun '(_, x) => map p_id x)) by (intros [k group]; by rewrite map_map).
    rewrite map_enumerate, <- concat_map. apply (gc_distinct GC).
  - intros x _. apply lookup_empty.
  - exists wm. split; [exact Hwm|]. intros g group p Hg Hp. apply (H1 (Z.of_nat g, p)). apply elem_of_concat.
    exists (map (pair (Z.of_nat g)) group). split; apply list_elem_of_fmap; [|by exists p].
    exists (Z.of_nat g, group). split; [done|]. apply elem_of_enumerate. eauto.
Qed.

Lemma in_one_group p g g' group group' : param_groups !! g = Some group -> param_groups !! g' = Some group' ->
  p ∈ group -> p ∈ group' -> g = g'.
Proof.
  intros Hg Hg' Hp Hp'. destruct world_map_ok as (wm & _ & Hwm). pose proof (Hwm _ _ _ Hg Hp) as H1.
  rewrite (Hwm _ _ _ Hg' Hp') in H1. injection H1 as H1. lia.
Qed.

(** The members of a group that the rank owns. *)
Definition group_part (owned group : list param) : list param := filter (fun p => p ∈ group) owned.

(** Where a parameter is found. *)
Definition placed (lm : gmap Z (Z * Z)) (owned : list param) (p : param) : Prop :=
  exists g k group, lm !! p_id p = Some (Z.of_nat g, Z.of_nat k) /\ param_groups !! g = Some group /\ p ∈ group /\
    group_part owned group !! k = Some p.

Lemma group_part_snoc owned group p : group_part (owned ++ [p]) group = group_part owned group ++ (if decide (p ∈ group) then [p] else []).
Proof. unfold group_part. rewrite filter_app. by rewrite filter_cons. Qed.

Lemma in_some_group p : p ∈ owned_params -> exists g group, param_groups !! g = Some group /\ p ∈ group.
Proof.
  intros (gg & bf & i & b & rs & Ho)%elem_of_owned. destruct (owns_facts _ _ _ _ _ _ Ho) as (_ & _ & Hp & _). destruct Ho as (Hg & _).
  pose proof (gc_all GC bf p ltac:(by eapply list_elem_of_lookup_2) Hp) as Hc. apply elem_of_concat in Hc as (group & [k Hk]%list_elem_of_lookup & Hin). eauto.
Qed.

Lemma group_ranges_ok : exists lm,
  build_optimizer_group_ranges at_ param_groups (map rank_ranges buffers) = Ok (lm, map (group_part owned_params) param_groups) /\
  forall p, p ∈ owned_params -> placed lm owned_params p.
Proof.
  unfold build_optimizer_group_ranges. destruct world_map_ok as (wm & -> & Hwm). cbn [mbind res_bind].
  pose proof rank_items_nodup as Hnd. pose proof in_some_group as Hsome. unfold owned_params in *.
  set (items := gbuf_items (map rank_ranges buffers)) in *.
  match goal with |- context [foldR ?f _ _] => set (body := f) end.
  destruct (foldR_total body (fun (seen : list (Z * gbuf_dtype * Z * (param * param_ranges))) '(lm, grs) =>
    grs = map (group_part (map item_param seen)) param_groups /\
    forall p, p ∈ map item_param seen -> placed lm (map item_param seen) p) (∅, map (fun _ => []) param_groups) items) as ([lm grs] & -> & -> & Hlm).
  - split; [done|]. intros p Hp. by apply elem_of_nil in Hp.
  - intros seen [[[gi dt] bi] [p rs]] rest [lm grs] E [-> Hlm].
    destruct (Hsome p) as (g & group & Hg & Hp).
    { rewrite E, map_app. apply elem_of_app. right. left. }
    unfold body. rewrite (Hwm g group p Hg Hp). erewrite py_get_nonneg; [|by apply list_lookup_fmap_Some; eauto]. cbn [mbind res_bind mret res_ret].
    eexists (_, _). split; [reflexivity|]. rewrite map_app. cbn [map]. change (item_param (gi, dt, bi, (p, rs))) with p. split.
    + rewrite Nat2Z.id. apply list_eq. intros k. change (map ?f ?l) with (f <$> l). destruct (decide (k = g)) as [->|Hne].
      * rewrite list_lookup_insert_eq by (rewrite length_fmap; by eapply lookup_lt_Some). rewrite list_lookup_fmap, Hg. cbn. f_equal.
        rewrite group_part_snoc. by rewrite decide_True.
      * rewrite list_lookup_insert_ne by done. rewrite !list_lookup_fmap. destruct (param_groups !! k) as [group'|] eqn:Ek; [|done]. cbn. f_equal.
        rewrite group_part_snoc, decide_False by (intros Hp'; by apply Hne, (in_one_group p k g group' group)). by rewrite app_nil_r.
    + intros q Hq. destruct (decide (q = p)) as [->|Hne].
      * exists g, (length (group_part (map item_param seen) group)), group. rewrite lookup_insert_eq. split_and!; try done.
        -- do 2 f_equal. rewrite length_app. cbn. lia.
        -- rewrite group_part_snoc, decide_True by done. by apply list_lookup_middle.
      * apply elem_of_app in Hq as [Hq|Hq]; [|by apply list_elem_of_singleton in Hq].
        destruct (Hlm q Hq) as (g' & k & group' & H1 & H2 & H3 & H4). exists g', k, group'. split_and!; try done.
        -- rewrite lookup_insert_ne; [done|]. intros Eid. rewrite E, map_app in Hnd. apply NoDup_app in Hnd as (_ & Hd & _).
           apply (Hd (p_id p)); [|by left]. rewrite Eid. apply list_elem_of_fmap in Hq as (it & -> & Hit). apply list_elem_of_fmap. by exists it.
        -- rewrite group_part_snoc. by apply lookup_app_l_Some.
  - exists lm. done.
Qed.
End Rank.
