(* ===== verification/DistOptInit.v ===== *)
(** * The constructor of the distributed optimizer

    On the buffers of a wrapped model, with groups that cover their parameters, the
    constructor returns on every rank.  The object it makes is consistent: its lists
    of model parameters and shards pair every owned parameter with the shard that
    holds exactly the rank's part of it, and the shards start with the model's values. *)

From S2P Require Import Prelude PyFloat GradBuffer GradBufferProofs DistOpt DistOptProofs.

(** *** Slices and splices *)

Section Slices.
Context {V : Type}.
Implicit Types (l vs : list V) (a b : Z).

Lemma length_slice l a b : 0 <= a -> a <= b -> b <= Z.of_nat (length l) -> Z.of_nat (length (py_slice l a b)) = b - a.
Proof. intros. unfold py_slice. rewrite length_take, length_drop. lia. Qed.
Lemma length_splice l a vs : 0 <= a -> a + Z.of_nat (length vs) <= Z.of_nat (length l) -> length (splice l a vs) = length l.
Proof. intros. unfold splice. rewrite !length_app, length_take, length_drop. lia. Qed.
Lemma lookup_slice l a b (i : nat) : py_slice l a b !! i = if decide (Z.of_nat i < b - a) then l !! (Z.to_nat a + i)%nat else None.
Proof.
  unfold py_slice. destruct (decide (Z.of_nat i < b - a)).
  - rewrite lookup_take_lt by lia. by rewrite lookup_drop.
  - by rewrite lookup_take_ge by lia.
Qed.
Lemma lookup_splice l a vs (i : nat) : 0 <= a -> a + Z.of_nat (length vs) <= Z.of_nat (length l) ->
  splice l a vs !! i = if decide (a <= Z.of_nat i < a + Z.of_nat (length vs)) then vs !! (i - Z.to_nat a)%nat else l !! i.
Proof.
  intros Ha Hl. unfold splice. destruct (decide (a <= Z.of_nat i < _)).
  - rewrite lookup_app_r by (rewrite length_take; lia). rewrite length_take, Nat.min_l by lia. by rewrite lookup_app_l by lia.
  - destruct (Z.lt_ge_cases (Z.of_nat i) a).
    + rewrite lookup_app_l by (rewrite length_take; lia). by rewrite lookup_take_lt by lia.
    + rewrite lookup_app_r by (rewrite length_take; lia). rewrite length_take, Nat.min_l by lia.
      rewrite lookup_app_r by lia. rewrite lookup_drop. f_equal. lia.
Qed.
Lemma slice_splice_eq l a vs b : 0 <= a -> a + Z.of_nat (length vs) <= Z.of_nat (length l) -> b = a + Z.of_nat (length vs) ->
  py_slice (splice l a vs) a b = vs.
Proof.
  intros Ha Hl ->. apply list_eq. intros i. rewrite lookup_slice. destruct (decide _).
  - rewrite lookup_splice, decide_True by lia. f_equal. lia.
  - symmetry. apply lookup_ge_None. lia.
Qed.
Lemma slice_splice_ne l a vs c d : 0 <= a -> 0 <= c -> a + Z.of_nat (length vs) <= Z.of_nat (length l) ->
  d <= a \/ a + Z.of_nat (length vs) <= c -> py_slice (splice l a vs) c d = py_slice l c d.
Proof.
  intros Ha Hc Hl Hd. apply list_eq. intros i. rewrite !lookup_slice. destruct (decide _); [|done].
  by rewrite lookup_splice, decide_False by lia.
Qed.
Lemma slice_slice l a b c d : 0 <= a -> 0 <= c -> d <= b - a -> py_slice (py_slice l a b) c d = py_slice l (a + c) (a + d).
Proof.
  intros Ha Hc Hd. apply list_eq. intros i. rewrite !lookup_slice. repeat destruct (decide _); try done; try lia. f_equal. lia.
Qed.
End Slices.

Section Init.
Context {V : Type} `{!Values V} (at_ : attributes) (fp8_init : param -> list V).
Context (buffers : list buffer) (WB : Forall well_placed buffers).
Context (Hids : NoDup (map p_id (concat (map bf_params buffers)))).
Context (r : Z) (Hr : Forall (fun bf => 0 <= r < bf_dp bf) buffers).

Local Notation owns := (owns buffers r).
Local Notation owned := (owned_params buffers r).

(** The data type of a buffer is that of its parameters; a float8 tensor has the type it stands for. *)
Definition typed : Prop := forall bf p, bf ∈ buffers -> p ∈ bf_params bf ->
  if decide (bf_param_dtype bf = Float32) then a_type at_ (p_id p) = FloatTensor else is_16bit (a_type at_ (p_id p)) = true.

(** The shard of [p] on this rank. *)
Definition is16 (p : param) : bool := is_16bit (a_type at_ (p_id p)).
Definition shard_tensor (g : nat) (p : param) (rs : param_ranges) : tensor :=
  if is16 p then mkTensor (p_id p) (MainData (p_id p)) 0 (r_size (param_range rs))
  else mkTensor (p_id p) (ParamData (Z.of_nat g)) (r_start (gbuf_world rs)) (r_end (gbuf_world rs)).

(** The storages of the parameter buffers have their sizes. *)
Definition buffers_sized (st : store V) : Prop := forall g bf, buffers !! g = Some bf ->
  Z.of_nat (length (storage_values st (ParamData (Z.of_nat g)))) = bf_numel bf.

(** What a main parameter starts with. *)
Definition init_values (st : store V) (g : nat) (p : param) (rs : param_ranges) : list V :=
  if p_float8 p then py_slice (fp8_init p) (r_start (param_range rs)) (r_end (param_range rs))
  else py_slice (storage_values st (ParamData (Z.of_nat g))) (r_start (gbuf_world rs)) (r_end (gbuf_world rs)).

Context (Htyped : typed).
Context (Hfp8 : forall bf p, bf ∈ buffers -> p ∈ bf_params bf -> p_float8 p = true -> Z.of_nat (length (fp8_init p)) = p_numel p).

(** The bounds of what a rank owns. *)
Lemma owns_bounds g bf i b p rs : owns g bf i b p rs ->
  0 <= r_start (gbuf_world rs) < r_end (gbuf_world rs) /\ r_end (gbuf_world rs) <= bf_numel bf /\
  0 <= r_start (param_range rs) /\ r_end (param_range rs) <= p_numel p /\
  r_size (param_range rs) = r_end (gbuf_world rs) - r_start (gbuf_world rs).
Proof.
  intros Ho. destruct (owns_facts _ WB r Hr _ _ _ _ _ _ Ho) as (W & Hrb & Hp & s & Hm & H1 & H2 & H3 & H4 & H5 & _ & _ & Hpr).
  destruct Ho as (Hg & Hi & _). destruct (wp_inside _ W i b Hi), (wp_bucket _ W i b Hi) as (Hoff & _ & Hn & _).
  destruct (wp_param _ W p Hp) as (s' & i' & b' & Hm' & Hi' & Hs1 & Hs2 & _). rewrite Hm in Hm'. injection Hm' as <- Hii.
  assert (i = i') as <- by lia. rewrite Hi in Hi'. injection Hi' as <-.
  unfold r_size. rewrite Hpr. cbn. unfold view_numel in *. lia.
Qed.

Lemma model_slice g bf i b p rs : owns g bf i b p rs ->
  slice_tensor (model_tensor buffers (Z.of_nat g) p) (param_range rs) =
  mkTensor (p_id p) (ParamData (Z.of_nat g)) (r_start (gbuf_world rs)) (r_end (gbuf_world rs)).
Proof.
  intros Ho. destruct (owns_facts _ WB r Hr _ _ _ _ _ _ Ho) as (W & Hrb & Hp & s & Hm & H1 & H2 & H3 & H4 & H5 & _ & _ & Hpr).
  destruct (wp_param _ W p Hp) as (s' & i' & b' & Hm' & _ & _ & _ & Hd & _). rewrite Hm in Hm'. injection Hm' as <- _.
  destruct Ho as (Hg & _). unfold model_tensor, slice_tensor. rewrite Nat2Z.id, Hg. cbn. rewrite Hd, Hpr. cbn. f_equal; lia.
Qed.

Lemma length_init_values st g bf i b p rs : buffers_sized st -> owns g bf i b p rs ->
  Z.of_nat (length (init_values st g p rs)) = r_size (param_range rs).
Proof.
  intros Hs Ho. destruct (owns_bounds _ _ _ _ _ _ Ho) as (H1 & H2 & H3 & H4 & H5). unfold init_values. destruct (p_float8 p) eqn:E.
  - destruct (owns_facts _ WB r Hr _ _ _ _ _ _ Ho) as (_ & _ & Hp & _). destruct Ho as (Hg & _).
    rewrite length_slice; [done|lia|unfold r_size in H5; lia|]. rewrite (Hfp8 bf p (list_elem_of_lookup_2 _ _ _ Hg) Hp E). lia.
  - destruct Ho as (Hg & _). rewrite length_slice; [done|lia..|]. rewrite (Hs g bf Hg). lia.
Qed.

Lemma owns_type g bf i b p rs : owns g bf i b p rs ->
  if is16 p then bf_param_dtype bf <> Float32 else a_type at_ (p_id p) = FloatTensor /\ bf_param_dtype bf = Float32.
Proof.
  intros Ho. destruct (owns_facts _ WB r Hr _ _ _ _ _ _ Ho) as (_ & _ & Hp & _). destruct Ho as (Hg & _).
  pose proof (Htyped bf p ltac:(by eapply list_elem_of_lookup_2) Hp) as Ht. unfold is16. destruct (decide _) as [Hd|Hd].
  - by rewrite Ht.
  - by rewrite Ht.
Qed.

Context (cfg : optimizer_config) (Hcfg : precision_aware cfg = false).
Context (m : gmap Z (Z * gbuf_dtype * Z)).
Context (Hm : forall g bf i b p rs, owns g bf i b p rs ->
  m !! p_id p = Some (Z.of_nat g, (bf_param_dtype bf, bf_grad_dtype bf), Z.of_nat i) /\
  find_ranges (map (rank_ranges r) buffers) m p = Ok rs).
Context (Hgrad : forall p, p ∈ owned -> a_requires_grad at_ (p_id p) = true).

(** The state after the shard of [p] was made. *)
Definition with_shard (g : nat) (p : param) (rs : param_ranges) (st : store V) : store V :=
  if is16 p then set_main_param (p_id p) (Some (shard_tensor g p rs)) (set_storage (MainData (p_id p)) (init_values st g p rs) st) else st.

Lemma param_shards_ok sg g bf i b p rs st : owns g bf i b p rs -> buffers_sized st ->
  exists sg', build_param_shards at_ fp8_init cfg buffers (map (rank_ranges r) buffers) m sg p st = (Ok sg', with_shard g p rs st) /\
    model_float16 sg' = model_float16 sg ++ (if is16 p then [p] else []) /\
    model_fp32 sg' = model_fp32 sg ++ (if is16 p then [] else [p]) /\
    shard_fp32_from_float16 sg' = shard_fp32_from_float16 sg ++ (if is16 p then [Some (shard_tensor g p rs)] else []) /\
    shard_fp32 sg' = shard_fp32 sg ++ (if is16 p then [] else [shard_tensor g p rs]).
Proof.
  intros Ho Hs. destruct (Hm _ _ _ _ _ _ Ho) as [Hmp Hf]. pose proof (owns_type _ _ _ _ _ _ Ho) as Hty.
  pose proof (length_init_values st _ _ _ _ _ _ Hs Ho) as Hlen. pose proof (model_slice _ _ _ _ _ _ Ho) as Hsl.
  unfold build_param_shards, with_shard. unfold mbind at 1, M_bind at 1, assertM, liftM, assert_.
  rewrite Hgrad by (apply elem_of_owned; eauto 10). cbn [mbind M_bind]. unfold mbind at 1, M_bind at 1. rewrite Hf, Hmp.
  cbn [default fmap option_fmap option_map from_option id]. rewrite Hsl. unfold is16 in *. unfold is_16bit in *.
  assert (H16 : forall st1 : store V, tensor_values st1 (mkTensor (p_id p) (ParamData (Z.of_nat g)) (r_start (gbuf_world rs)) (r_end (gbuf_world rs))) =
    py_slice (storage_values st1 (ParamData (Z.of_nat g))) (r_start (gbuf_world rs)) (r_end (gbuf_world rs))) by done.
  assert (Hst : shard_tensor g p rs = if is_16bit (a_type at_ (p_id p)) then mkTensor (p_id p) (MainData (p_id p)) 0 (Z.of_nat (length (init_values st g p rs))) else
    mkTensor (p_id p) (ParamData (Z.of_nat g)) (r_start (gbuf_world rs)) (r_end (gbuf_world rs))) by (rewrite Hlen; done).
  rewrite Hst. unfold is_16bit. destruct (a_type at_ (p_id p)) eqn:Ety; try (destruct Hty; congruence).
  1, 2: rewrite Hcfg; cbn; eexists; split; [reflexivity|]; cbn; by rewrite !app_nil_r.
  eexists. split; [reflexivity|]. cbn. by rewrite !app_nil_r.
Qed.

(** The shard that belongs to a parameter, from the maps of the object. *)
Definition my_shard (p : param) : option tensor :=
  match m !! p_id p, find_ranges (map (rank_ranges r) buffers) m p with
  | Some (g, _, _), Ok rs => Some (shard_tensor (Z.to_nat g) p rs)
  | _, _ => None
  end.

Lemma my_shard_owns g bf i b p rs : owns g bf i b p rs -> my_shard p = Some (shard_tensor g p rs).
Proof. intros Ho. destruct (Hm _ _ _ _ _ _ Ho) as [Hmp Hf]. unfold my_shard. by rewrite Hmp, Hf, Nat2Z.id. Qed.

(** The state while shards are made: only main parameters are added, with the model's values. *)
Record making (seen : list param) (st0 st : store V) : Prop := {
  mk_params : forall g, storage_values st (ParamData g) = storage_values st0 (ParamData g);
  mk_grads : forall g, storage_values st (GradData g) = storage_values st0 (GradData g);
  mk_optim : st_optim st = st_optim st0;
  mk_main : forall g bf i b p rs, owns g bf i b p rs -> p ∈ seen -> is16 p = true ->
    storage_values st (MainData (p_id p)) = init_values st0 g p rs
}.

Lemma storage_set_eq (st : store V) s vs : storage_values (set_storage s vs st) s = vs.
Proof. unfold storage_values, set_storage. cbn. by rewrite lookup_insert_eq. Qed.
Lemma storage_set_ne (st : store V) s s' vs : s' <> s -> storage_values (set_storage s vs st) s' = storage_values st s'.
Proof. intros. unfold storage_values, set_storage. cbn. by rewrite lookup_insert_ne. Qed.

Lemma making_sized seen st0 st : making seen st0 st -> buffers_sized st0 -> buffers_sized st.
Proof. intros H Hs g bf Hg. rewrite (mk_params _ _ _ H). by apply Hs. Qed.

Lemma making_step seen st0 st g bf i b p rs : making seen st0 st -> owns g bf i b p rs -> making (seen ++ [p]) st0 (with_shard g p rs st).
Proof.
  intros [Hp Hg Hopt Hmain] Ho. assert (Hi : init_values st g p rs = init_values st0 g p rs) by (unfold init_values; by rewrite Hp).
  unfold with_shard. destruct (is16 p) eqn:E16.
  - split.
    + intros g'. rewrite <- Hp. unfold storage_values. cbn. by rewrite lookup_insert_ne.
    + intros g'. rewrite <- Hg. unfold storage_values. cbn. by rewrite lookup_insert_ne.
    + done.
    + intros g' bf' i' b' q qs Hq Hin H16. destruct (decide (p_id q = p_id p)) as [Eid|Hne].
      * destruct (owns_same _ WB Hids r Hr _ _ _ _ _ _ _ _ _ _ _ _ Hq Ho Eid) as (-> & _ & _ & _ & -> & ->).
        unfold storage_values. cbn. by rewrite lookup_insert_eq.
      * apply elem_of_app in Hin as [Hin|Hin%list_elem_of_singleton]; [|congruence].
        rewrite <- (Hmain _ _ _ _ _ _ Hq Hin H16). unfold storage_values. cbn. rewrite lookup_insert_ne; [done|congruence].
  - split; [done..|]. intros g' bf' i' b' q qs Hq Hin H16. apply elem_of_app in Hin as [Hin|Hin%list_elem_of_singleton]; [eauto|congruence].
Qed.

(** The lists of one group. *)
Definition group_of (sg : shard_group) (ps : list param) : Prop :=
  model_float16 sg = filter (fun p => is16 p = true) ps /\ model_fp32 sg = filter (fun p => is16 p = false) ps /\
  shard_fp32_from_float16 sg = map my_shard (filter (fun p => is16 p = true) ps) /\
  map Some (shard_fp32 sg) = map my_shard (filter (fun p => is16 p = false) ps).

Lemma group_fold_ok st0 ps : buffers_sized st0 -> Forall (fun p => p ∈ owned) ps -> forall seen pre sg st, making seen st0 st -> group_of sg pre ->
  exists sg' st', foldM (build_param_shards at_ fp8_init cfg buffers (map (rank_ranges r) buffers) m) sg ps st = (Ok sg', st') /\
    making (seen ++ ps) st0 st' /\ group_of sg' (pre ++ ps).
Proof.
  intros Hs. induction 1 as [|p ps Hp _ IH]; intros seen pre sg st Hmk Hg.
  - exists sg, st. by rewrite !app_nil_r.
  - apply elem_of_owned in Hp as (g & bf & i & b & rs & Ho).
    destruct (param_shards_ok sg g bf i b p rs st Ho (making_sized _ _ _ Hmk Hs)) as (sg1 & E1 & H1 & H2 & H3 & H4).
    destruct (IH (seen ++ [p]) (pre ++ [p]) sg1 (with_shard g p rs st)) as (sg' & st' & E' & Hmk' & Hg').
    + by apply (making_step _ _ _ _ bf i b).
    + destruct Hg as (G1 & G2 & G3 & G4). unfold group_of. rewrite H1, H2, H3, H4, map_app, G1, G2, G3, G4, !filter_app, !filter_cons, !map_app.
      rewrite !filter_nil. pose proof (my_shard_owns _ _ _ _ _ _ Ho) as Hmy.
      destruct (is16 p) eqn:E16; split_and!; rewrite <- ?Hmy; try done. cbn. by rewrite <- Hmy.
    + exists sg', st'. cbn. rewrite (bind_step _ _ _ _ _ E1). rewrite <- !app_assoc in Hmk', Hg'. done.
Qed.

Lemma shard_groups_ok st0 pss : buffers_sized st0 -> Forall (Forall (fun p => p ∈ owned)) pss -> forall seen st, making seen st0 st ->
  exists sgs st', build_model_and_main_param_groups at_ fp8_init cfg buffers (map (rank_ranges r) buffers) m pss st = (Ok sgs, st') /\
    making (seen ++ concat pss) st0 st' /\ Forall2 group_of sgs pss.
Proof.
  intros Hs. unfold build_model_and_main_param_groups. induction 1 as [|ps pss Hp _ IH]; intros seen st Hmk.
  - exists [], st. cbn. by rewrite app_nil_r.
  - destruct (group_fold_ok st0 ps Hs Hp seen [] (mkShards [] [] [] [] []) st Hmk) as (sg & st1 & E1 & Hmk1 & Hg1); [done|].
    destruct (IH _ _ Hmk1) as (sgs & st' & E' & Hmk' & Hg'). exists (sg :: sgs), st'. cbn.
    rewrite (bind_step _ _ _ _ _ E1). rewrite (bind_step _ _ _ _ _ E'). rewrite app_assoc. split; [done|]. split; [done|]. by constructor.
Qed.
End Init.

(* ================================================================== *)
(** ** The object                                                      *)
(* ================================================================== *)

Lemma filter_concat {A} (P : A -> Prop) `{!forall x, Decision (P x)} (ls : list (list A)) : concat (map (filter P) ls) = filter P (concat ls).
Proof. induction ls as [|l ls IH]; cbn; [done|]. by rewrite filter_app, IH. Qed.
Lemma zip_self {A B} (f : A -> B) l : zip l (map f l) = map (fun x => (x, f x)) l.
Proof. induction l as [|x l IH]; cbn; [done|]. by f_equal. Qed.

Lemma perm_swap_parts {A} (a b c d : list A) : (a ++ b) ++ (c ++ d) ≡ₚ (b ++ c) ++ (a ++ d).
Proof. rewrite (Permutation_app_comm a b), <- !app_assoc. f_equiv. rewrite !app_assoc. f_equiv. apply Permutation_app_comm. Qed.

Section Object.
Context (at_ : attributes) (buffers : list buffer) (r : Z).
Local Notation owns := (owns buffers r).

(** An optimizer whose maps and lists agree with what the rank owns. *)
Record consistent (o : dist_opt) : Prop := {
  cs_cfg : precision_aware (do_cfg o) = false;
  cs_buffers : do_buffers o = buffers;
  cs_ranges : do_gbuf_ranges o = map (rank_ranges r) buffers;
  cs_map : forall g bf i b p rs, owns g bf i b p rs -> get_model_param_range_map o p = Ok rs /\
    do_param_gbuf_map o !! p_id p = Some (Z.of_nat g, (bf_param_dtype bf, bf_grad_dtype bf), Z.of_nat i);
  cs_float16 : forall p t, (p, t) ∈ float16_shards o <->
    is16 at_ p = true /\ exists g bf i b rs, owns g bf i b p rs /\ t = Some (shard_tensor at_ g p rs);
  cs_fp32 : forall p t, (p, t) ∈ fp32_shards o <->
    is16 at_ p = false /\ exists g bf i b rs, owns g bf i b p rs /\ t = Some (shard_tensor at_ g p rs);
  cs_once : NoDup (map (fun x => p_id (fst x)) (float16_shards o ++ fp32_shards o));
  cs_params : concat (do_params o) ≡ₚ map snd (float16_shards o ++ fp32_shards o)
}.

(** The inner optimizer finds the shard of every parameter at its place. *)
Definition addressed (o : dist_opt) : Prop :=
  forall g bf i b p rs, owns g bf i b p rs -> optimizer_shard o p = Ok (shard_tensor at_ g p rs).

(** Groups with 16-bit parameters only, or float32 parameters only. *)
Definition homogeneous (param_groups : list (list param)) : Prop :=
  Forall (fun group => forall p q, p ∈ group -> q ∈ group -> is16 at_ p = is16 at_ q) param_groups.
End Object.

Section Constructor.
Context {V : Type} `{!Values V} (at_ : attributes) (fp8_init : param -> list V).
Context (buffers : list buffer) (param_groups : list (list param)) (cfg : optimizer_config) (r : Z).

(** What the constructor is given. *)
Record constructible : Prop := {
  cb_placed : Forall well_placed buffers;
  cb_distinct : NoDup (map p_id (concat (map bf_params buffers)));
  cb_rank : Forall (fun bf => 0 <= r < bf_dp bf) buffers;
  cb_groups : groups_cover buffers at_ param_groups;
  cb_typed : typed at_ buffers;
  cb_fp8 : forall bf p, bf ∈ buffers -> p ∈ bf_params bf -> p_float8 p = true -> Z.of_nat (length (fp8_init p)) = p_numel p;
  cb_cfg : precision_aware cfg = false
}.
Context (C : constructible).

Let pss := map (group_part (owned_params buffers r)) param_groups.

Lemma elem_of_pss p : p ∈ concat pss <-> p ∈ owned_params buffers r.
Proof.
  destruct C as [WB Hids Hr GC _ _ _]. rewrite elem_of_concat. split.
  - intros (ps & (group & -> & _)%list_elem_of_fmap & [_ Hp]%list_elem_of_filter). done.
  - intros Hp. destruct (in_some_group buffers WB r Hr at_ param_groups GC p Hp) as (g & group & Hg & Hin).
    exists (group_part (owned_params buffers r) group). split; [apply list_elem_of_fmap; eauto using list_elem_of_lookup_2|].
    by apply list_elem_of_filter.
Qed.

Lemma owned_nodup : NoDup (map p_id (owned_params buffers r)).
Proof.
  destruct C as [WB Hids Hr _ _ _ _]. pose proof (rank_items_nodup buffers WB Hids r Hr) as H. unfold owned_params. by rewrite map_map.
Qed.

Lemma pss_nodup : NoDup (map p_id (concat pss)).
Proof.
  pose proof owned_nodup as Hnd. destruct C as [WB Hids Hr GC _ _ _]. unfold pss. rewrite concat_map, !map_map. apply NoDup_concat.
  - apply Forall_map, Forall_forall. intros group _. eapply sublist_NoDup; [exact Hnd|]. apply (fmap_sublist p_id), sublist_filter.
  - intros i j l1 l2 x Hi Hj H1 H2. change (map ?f ?l) with (f <$> l) in Hi, Hj. rewrite list_lookup_fmap in Hi, Hj.
    destruct (param_groups !! i) as [g1|] eqn:E1; [|done]. destruct (param_groups !! j) as [g2|] eqn:E2; [|done].
    injection Hi as <-. injection Hj as <-. apply list_elem_of_fmap in H1 as (p & -> & [Hp Hpo]%list_elem_of_filter), H2 as (q & E & [Hq Hqo]%list_elem_of_filter).
    assert (p = q) as <-.
    { apply list_elem_of_lookup in Hpo as [a Ha], Hqo as [c Hc]. assert (a = c) as ->; [|congruence].
      eapply (NoDup_lookup _ a c); [exact Hnd|by apply list_lookup_fmap_Some; eauto|]. rewrite E. apply list_lookup_fmap_Some. eauto. }
    by eapply (in_one_group buffers at_ param_groups GC p).
Qed.

Lemma shards_of (o : dist_opt) sh : Forall2 (group_of at_ buffers r (do_param_gbuf_map o)) (do_groups o) sh ->
  float16_shards o = map (fun p => (p, my_shard at_ buffers r (do_param_gbuf_map o) p)) (filter (fun p => is16 at_ p = true) (concat sh)) /\
  fp32_shards o = map (fun p => (p, my_shard at_ buffers r (do_param_gbuf_map o) p)) (filter (fun p => is16 at_ p = false) (concat sh)) /\
  concat (map (optimizer_params cfg) (do_groups o)) ≡ₚ map snd (float16_shards o ++ fp32_shards o).
Proof.
  intros H. pose proof (cb_cfg C) as Hcfg. unfold float16_shards, fp32_shards, zip_groups.
  induction H as [|sg ps sgs sh (G1 & G2 & G3 & G4) _ (IH1 & IH2 & IH3)]; [done|]. cbn. unfold optimizer_params at 1. rewrite Hcfg. cbn [negb].
  rewrite IH1, IH2 in IH3 |- *. rewrite IH3, G1, G2, G3, G4, !zip_self, !filter_app, !map_app, !map_map. split; [done|]. split; [done|]. cbn.
  apply perm_swap_parts.
Qed.

Lemma reset_ok pg (st : store V) : exists mp, reset_main_params at_ pg st = (Ok tt, mkStore (st_data st) (st_optim st) mp (st_grad st) (st_decoupled_grad st)).
Proof.
  unfold reset_main_params. revert st. induction (concat pg) as [|p l IH]; intros st; cbn; [exists (st_main_param st); by destruct st|].
  destruct (_ && _); cbn [whenM]; [|apply IH]. destruct (IH (set_main_param (p_id p) None st)) as (mp & E).
  exists mp. by rewrite (bind_step _ _ _ tt (set_main_param (p_id p) None st)).
Qed.

Lemma dist_opt_init_ok st : buffers_sized buffers st ->
  exists o st', dist_opt_init at_ fp8_init cfg r buffers param_groups st = (Ok o, st') /\
    consistent at_ buffers r o /\ do_rank o = r /\ making at_ fp8_init buffers r (owned_params buffers r) st st' /\
    (homogeneous at_ param_groups -> addressed at_ buffers r o).
Proof.
  intros Hs. pose proof elem_of_pss as Hel. pose proof pss_nodup as Hnd. destruct C as [WB Hids Hr GC Hty Hfp8 Hcfg]. unfold dist_opt_init.
  rewrite (bind_step _ _ st (map (rank_ranges r) buffers) st) by (unfold liftM; by rewrite gbuf_range_maps_ok).
  destruct (param_gbuf_map_ok buffers WB Hids r Hr) as (m & Em & Hm & _).
  rewrite (bind_step _ _ st m st) by (unfold liftM; by rewrite Em).
  destruct (reset_ok param_groups st) as (mp & Er). rewrite (bind_step _ _ _ _ _ Er). set (st1 := mkStore _ _ _ _ _).
  destruct (group_ranges_ok buffers WB Hids r Hr at_ param_groups GC) as (lm & Eg & Hlm). fold pss in Eg.
  rewrite (bind_step _ _ st1 (lm, pss) st1) by (unfold liftM; by rewrite Eg).
  assert (Hs1 : buffers_sized buffers st1) by exact Hs.
  destruct (shard_groups_ok at_ fp8_init buffers WB Hids r Hr Hty Hfp8 cfg Hcfg m Hm) with (st0 := st1) (pss := pss) (seen := @nil param) (st := st1)
    as (sgs & st' & Es & Hmk & Hsg); [|exact Hs1| |split; try done|].
  { intros p (g & bf & i & b & rs & Ho)%elem_of_owned. destruct (owns_facts _ WB r Hr _ _ _ _ _ _ Ho) as (_ & _ & Hp & _). destruct Ho as (Hg & _).
    apply (gc_grad _ _ _ GC), (gc_all _ _ _ GC bf); [by eapply list_elem_of_lookup_2|done]. }
  { apply Forall_forall. intros ps Hps. apply Forall_forall. intros p Hp. apply Hel, elem_of_concat. eauto. }
  { intros. by apply elem_of_nil in H0. }
  rewrite (bind_step _ _ _ _ _ Es). eexists _, st'. split; [reflexivity|].
  assert (Hmy : forall g bf i b p rs, owns buffers r g bf i b p rs -> my_shard at_ buffers r m p = Some (shard_tensor at_ g p rs))
    by (intros; by eapply my_shard_owns).
  match goal with |- consistent _ _ _ ?o /\ _ => destruct (shards_of o pss Hsg) as (F16 & F32 & Fp); set (obj := o) in * end.
  change (do_param_gbuf_map obj) with m in F16, F32. split; [|split; [done|split]].
  - split; [done..| | | | |exact Fp].
    + intros g bf i b p rs Ho. destruct (Hm _ _ _ _ _ _ Ho). done.
    + intros p t. rewrite F16, list_elem_of_fmap. split.
      * intros (q & [= -> ->] & [H16 Hq]%list_elem_of_filter). split; [done|]. apply Hel, elem_of_owned in Hq as (g & bf & i & b & rs & Ho). eauto 10.
      * intros [H16 (g & bf & i & b & rs & Ho & ->)]. exists p. rewrite (Hmy _ _ _ _ _ _ Ho). split; [done|]. apply list_elem_of_filter.
        split; [done|]. apply Hel, elem_of_owned. eauto 10.
    + intros p t. rewrite F32, list_elem_of_fmap. split.
      * intros (q & [= -> ->] & [H16 Hq]%list_elem_of_filter). split; [done|]. apply Hel, elem_of_owned in Hq as (g & bf & i & b & rs & Ho). eauto 10.
      * intros [H16 (g & bf & i & b & rs & Ho & ->)]. exists p. rewrite (Hmy _ _ _ _ _ _ Ho). split; [done|]. apply list_elem_of_filter.
        split; [done|]. apply Hel, elem_of_owned. eauto 10.
    + rewrite F16, F32, <- map_app, map_map. cbn. eapply NoDup_Permutation_proper; [|exact Hnd]. apply fmap_Permutation.
      clear. induction (concat pss) as [|p l IH]; [done|]. rewrite !filter_cons. destruct (is16 at_ p).
      * rewrite decide_True, decide_False by done. by constructor.
      * rewrite decide_False, decide_True by done. rewrite <- Permutation_middle. by constructor.
  - destruct Hmk as [M1 M2 M3 M4]. split; [done..|]. intros g bf i b p rs Ho Hp H16. apply (M4 g bf i b p rs); [done| |done].
    by apply Hel.
  - intros Hh g bf i b p rs Ho. assert (Hp : p ∈ owned_params buffers r) by (apply elem_of_owned; eauto 10).
    destruct (Hlm p Hp) as (k & n & group & H1 & H2 & H3 & H4). unfold optimizer_shard. cbn [do_group_index_map obj]. rewrite H1.
    assert (Hk : pss !! k = Some (group_part (owned_params buffers r) group)) by (apply list_lookup_fmap_Some; eauto).
    destruct (Forall2_lookup_r _ _ _ _ _ Hsg Hk) as (sg & Hsk & G1 & G2 & G3 & G4).
    cbn [do_params obj]. erewrite py_get_nonneg by (apply list_lookup_fmap_Some; eauto). cbn [mbind res_bind].
    assert (Hall : forall q, q ∈ group_part (owned_params buffers r) group -> is16 at_ q = is16 at_ p).
    { intros q [Hq _]%list_elem_of_filter. unfold homogeneous in Hh. rewrite Forall_forall in Hh. apply (Hh group); [by eapply list_elem_of_lookup_2|done..]. }
    assert (Hop : optimizer_params cfg sg = map (my_shard at_ buffers r m) (group_part (owned_params buffers r) group)).
    { unfold optimizer_params. rewrite Hcfg. cbn [negb]. rewrite G3, G4. destruct (is16 at_ p).
      - rewrite (filter_all (fun p => is16 at_ p = true)) by (apply Forall_forall; exact Hall).
        rewrite filter_none by (apply Forall_forall; intros q Hq; by rewrite Hall). done.
      - rewrite (filter_all (fun p => is16 at_ p = false)) by (apply Forall_forall; exact Hall).
        rewrite filter_none by (apply Forall_forall; intros q Hq; by rewrite Hall). cbn. by rewrite app_nil_r. }
    rewrite Hop. erewrite py_get_nonneg by (apply list_lookup_fmap_Some; eauto). cbn [mbind res_bind]. by rewrite (Hmy _ _ _ _ _ _ Ho).
Qed.

(** *** The state of the inner optimizer *)

Lemma init_states_loop (ts : list tensor) st : NoDup (map t_param ts) -> (forall t, t ∈ ts -> st_optim st !! t_param t = None) ->
  exists st', iterM (fun p =>
      t ← liftM (some_tensor p);
      st ← getM;
      match default [] (st_optim st !! t_param t) with
      | [] => let zeros := replicate (length (tensor_values st t)) v_zero in
              modM (set_optim (t_param t) [("exp_avg", zeros); ("exp_avg_sq", zeros)])
      | _ => mret tt
      end) (map Some ts) st = (Ok tt, st') /\ st_data st' = st_data st /\ (forall k, k ∉ map t_param ts -> st_optim st' !! k = st_optim st !! k) /\
    forall t, t ∈ ts -> st_optim st' !! t_param t =
      Some [("exp_avg", replicate (length (tensor_values st t)) v_zero); ("exp_avg_sq", replicate (length (tensor_values st t)) v_zero)].
Proof.
  revert st.
  induction ts as [|t ts IH]; intros st Hnd Hnone.
  - exists st. split_and!; try done. intros t Ht. by apply elem_of_nil in Ht.
  - inversion Hnd as [|? ? Ht Hnd']; subst. cbn [map iterM].
    set (zeros := replicate (length (tensor_values st t)) v_zero). set (st1 := set_optim (t_param t) [("exp_avg", zeros); ("exp_avg_sq", zeros)] st).
    rewrite (bind_step _ _ st tt st1).
    2: { rewrite (bind_step _ _ st t st) by done. rewrite (bind_step _ _ st st st) by done. rewrite (Hnone t) by left. done. }
    destruct (IH st1 Hnd') as (st' & E & Hd & Hk & Hv).
    { intros u Hu. cbn. rewrite lookup_insert_ne; [apply Hnone; by right|]. intros Eq. apply Ht. rewrite Eq. apply list_elem_of_fmap. eauto. }
    exists st'. split; [exact E|]. split; [done|]. split.
    + intros k [Hk1 Hk2]%not_elem_of_cons. rewrite Hk by done. cbn. by rewrite lookup_insert_ne.
    + intros u [->|Hu]%elem_of_cons; [|by apply Hv]. rewrite Hk by done. cbn. by rewrite lookup_insert_eq.
Qed.
End Constructor.
