(* ===== verification/DistOptCheckpoint.v ===== *)
(** * The checkpoint of the distributed optimizer

    [get_parameter_state_dp_zero] returns, and puts the state of every part of every
    parameter at the place of that part in the coalesced tensors; loading the result
    with [load_parameter_state_from_dp_zero] restores it on every rank. *)

From S2P Require Import Prelude PyFloat GradBuffer GradBufferProofs DistOpt DistOptProofs DistOptInit.

(** *** Lists *)

Lemma copy_values_same {V} (n : Z) (src : list V) : Z.of_nat (length src) = n -> copy_values n src = Ok src.
Proof. intros H. unfold copy_values. by rewrite (proj2 (Z.eqb_eq _ _) H). Qed.

Lemma copy_slice_ok {V} (l : list V) a b src : 0 <= a -> a <= b -> b <= Z.of_nat (length l) -> Z.of_nat (length src) = b - a ->
  copy_slice l a b src = Ok (splice l a src).
Proof. intros. unfold copy_slice. rewrite copy_values_same; [done|]. rewrite length_slice by done. done. Qed.

Lemma slice_concat {V} (n : Z) (ls : list (list V)) (r : nat) l a b : Forall (fun l => Z.of_nat (length l) = n) ls -> ls !! r = Some l ->
  0 <= a -> a <= b -> b <= n -> py_slice (concat ls) (Z.of_nat r * n + a) (Z.of_nat r * n + b) = py_slice l a b.
Proof.
  intros Hf Hl Ha Hab Hb. revert r Hl. induction Hf as [|l0 ls H0 _ IH]; intros r Hl; [done|]. destruct r as [|r]; cbn in Hl.
  - injection Hl as ->. cbn [concat]. rewrite !Z.mul_0_l, !Z.add_0_l. apply list_eq. intros i. rewrite !lookup_slice. destruct (decide _); [|done].
    rewrite lookup_app_l; [done|]. lia.
  - rewrite <- (IH r Hl). cbn [concat]. apply list_eq. intros i. rewrite !lookup_slice.
    replace (Z.of_nat (S r) * n + b - (Z.of_nat (S r) * n + a)) with (Z.of_nat r * n + b - (Z.of_nat r * n + a)) by lia.
    destruct (decide _); [|done]. rewrite lookup_app_r by nia. f_equal. nia.
Qed.

Lemma length_concat_eq {V} (n : Z) (ls : list (list V)) : Forall (fun l => Z.of_nat (length l) = n) ls ->
  Z.of_nat (length (concat ls)) = Z.of_nat (length ls) * n.
Proof. induction 1 as [|l ls Hl _ IH]; cbn [concat length]; [lia|]. rewrite length_app. lia. Qed.

(** A dictionary given by its keys and a function. *)
Definition tabulate {A} (keys : list string) (f : string -> A) : dict string A := map (fun k => (k, f k)) keys.

Lemma dict_get_tabulate {A} keys (f : string -> A) k : k ∈ keys -> dict_get (tabulate keys f) k = Ok (f k).
Proof.
  intros Hk. unfold dict_get, tabulate. assert (H : dict_lookup (map (fun k => (k, f k)) keys) k = Some (f k)); [|by rewrite H].
  induction Hk as [|k k' keys Hk IH]; cbn; [by rewrite decide_True|]. destruct (decide (k = k')) as [->|]; [done|apply IH].
Qed.
Lemma mapR_ext {A B} (f g : A -> res B) l : (forall x, f x = g x) -> mapR f l = mapR g l.
Proof. intros H. induction l as [|x l IH]; [done|]. cbn [mapR]. by rewrite H, IH. Qed.
Lemma mapR_tabulate {A B} keys (f : string -> A) (g : string -> A -> res B) (h : string -> B) :
  (forall k, k ∈ keys -> g k (f k) = Ok (h k)) ->
  mapR (fun '(key, x) => y ← g key x; mret (key, y)) (tabulate keys f) = Ok (tabulate keys h).
Proof.
  intros H. unfold tabulate. induction keys as [|k keys IH]; [done|]. cbn. rewrite (H k) by left. cbn.
  rewrite IH by (intros; apply H; by right). done.
Qed.

(** The place of bucket [i] in the coalesced tensors. *)
Definition bucket_place (bf : buffer) (i : nat) : Z := zsum (take i (map b_numel_unpadded (bf_buckets bf))).

Section World.
Context {V : Type} `{!Values V, !ValuesLaws V} (at_ : attributes).
Context (buffers : list buffer) (WB : Forall well_placed buffers).
Context (Hids : NoDup (map p_id (concat (map bf_params buffers)))).
Context (Htyped : typed at_ buffers).

Local Notation owns := (owns buffers).

(** The state of the inner optimizer for its shards on rank [r]: Adam's two moments, of the size of the shard. *)
Record checkpoint_ready (r : Z) (st : store V) : Prop := {
  cr_buffers : buffers_sized buffers st;
  cr_main : forall g bf i b p rs, owns r g bf i b p rs -> is16 at_ p = true ->
    Z.of_nat (length (storage_values st (MainData (p_id p)))) = r_size (param_range rs);
  cr_optim : forall g bf i b p rs, owns r g bf i b p rs -> exists m1 m2,
    st_optim st !! p_id p = Some [("exp_avg", m1); ("exp_avg_sq", m2)] /\
    Z.of_nat (length m1) = r_size (param_range rs) /\ Z.of_nat (length m2) = r_size (param_range rs)
}.

(** The tensor of the shard [t] under a key. *)
Definition state_value (st : store V) (t : tensor) (key : string) : list V :=
  default [] (dict_lookup (("param", tensor_values st t) :: default [] (st_optim st !! t_param t)) key).

Section OneRank.
Context (r : Z) (Hr : Forall (fun bf => 0 <= r < bf_dp bf) buffers).

Lemma shard_values_length st g bf i b p rs : checkpoint_ready r st -> owns r g bf i b p rs ->
  Z.of_nat (length (tensor_values st (shard_tensor at_ g p rs))) = r_size (param_range rs).
Proof.
  intros R Ho. destruct (owns_bounds buffers WB r Hr _ _ _ _ _ _ Ho) as (H1 & H2 & H3 & H4 & H5). unfold tensor_values, shard_tensor.
  destruct (is16 at_ p) eqn:E; cbn.
  - rewrite length_slice; [lia..|]. rewrite (cr_main _ _ R _ _ _ _ _ _ Ho E). lia.
  - rewrite length_slice; [lia..|]. rewrite (cr_buffers _ _ R g bf (proj1 Ho)). lia.
Qed.

Lemma t_param_shard g p rs : t_param (shard_tensor at_ g p rs) = p_id p.
Proof. unfold shard_tensor. by destruct (is16 at_ p). Qed.

(** The dictionary that [_get_main_param_and_optimizer_states] returns. *)
Lemma get_states_ok o st g bf i b p rs : addressed at_ buffers r o -> checkpoint_ready r st -> owns r g bf i b p rs ->
  get_main_param_and_optimizer_states o p st = Ok (tabulate state_keys (state_value st (shard_tensor at_ g p rs))) /\
  forall k, k ∈ state_keys -> Z.of_nat (length (state_value st (shard_tensor at_ g p rs) k)) = r_size (param_range rs).
Proof.
  intros Ad R Ho. destruct (cr_optim _ _ R _ _ _ _ _ _ Ho) as (m1 & m2 & Hm & L1 & L2). pose proof (shard_values_length _ _ _ _ _ _ _ R Ho) as L0.
  unfold get_main_param_and_optimizer_states. rewrite (Ad _ _ _ _ _ _ Ho). cbn [mbind res_bind]. unfold tabulate, state_keys, state_value.
  rewrite t_param_shard, Hm. split; [done|]. intros k Hk. repeat (apply elem_of_cons in Hk as [->|Hk]; [done|]). by apply elem_of_nil in Hk.
Qed.

(** Two parameters of one bucket have disjoint ranges. *)
Lemma local_apart g bf i b p rs q qs : owns r g bf i b p rs -> owns r g bf i b q qs -> p <> q ->
  r_end (gbuf_local rs) <= r_start (gbuf_local qs) \/ r_end (gbuf_local qs) <= r_start (gbuf_local rs).
Proof.
  intros Hp Hq Hne. destruct (owns_facts _ WB r Hr _ _ _ _ _ _ Hp) as (W & _ & Hin & s & Hm & H1 & H2 & H3 & H4 & H5 & _ & -> & _).
  destruct (owns_facts _ WB r Hr _ _ _ _ _ _ Hq) as (_ & _ & Hin' & s' & Hm' & K1 & K2 & K3 & K4 & K5 & _ & -> & _).
  pose proof (wp_apart _ W p q _ _ _ _ _ _ Hin Hin' Hne Hm Hm'). cbn. lia.
Qed.

Lemma local_bounds g bf i b p rs : owns r g bf i b p rs ->
  0 <= r_start (gbuf_local rs) < r_end (gbuf_local rs) /\ r_end (gbuf_local rs) <= shard_size bf b /\
  r_end (gbuf_local rs) - r_start (gbuf_local rs) = r_size (param_range rs) /\
  r_start (gbuf_world_in_bucket rs) = r * shard_size bf b + r_start (gbuf_local rs) /\
  r_end (gbuf_world_in_bucket rs) = r * shard_size bf b + r_end (gbuf_local rs) /\
  r_end (gbuf_world_in_bucket rs) <= b_numel_unpadded b.
Proof.
  intros Ho. destruct (owns_facts _ WB r Hr _ _ _ _ _ _ Ho) as (W & Hrb & Hp & s & Hm & H1 & H2 & H3 & H4 & H5 & -> & -> & Hpr).
  destruct (wp_param _ W p Hp) as (s' & i' & b' & Hm' & Hi' & Hs1 & Hs2 & _). rewrite Hm in Hm'. injection Hm' as <- Hii.
  assert (i = i') as <- by lia. destruct Ho as (_ & Hi & _). rewrite Hi in Hi'. injection Hi' as <-.
  unfold r_size. rewrite Hpr. unfold shard_range in *. cbn in *. lia.
Qed.

(** The contiguous shards of a bucket hold the state of every parameter at its local range. *)
Lemma local_shards_ok o st g bf i b : addressed at_ buffers r o -> checkpoint_ready r st -> buffers !! g = Some bf -> bf_buckets bf !! i = Some b ->
  exists f, build_local_shards o st (shard_size bf b) (rank_param_map bf b r) = Ok (tabulate state_keys f) /\
    forall k, k ∈ state_keys -> Z.of_nat (length (f k)) = shard_size bf b /\
      forall p rs, (p, rs) ∈ rank_param_map bf b r ->
        py_slice (f k) (r_start (gbuf_local rs)) (r_end (gbuf_local rs)) = state_value st (shard_tensor at_ g p rs) k.
Proof.
  intros Ad R Hg Hi. pose proof (proj1 (Forall_forall _ _) WB bf (list_elem_of_lookup_2 _ _ _ Hg)) as W.
  destruct (shard_size_ok bf W i b Hi) as (Hsz & _). unfold build_local_shards.
  match goal with |- context [foldR ?f _ _] => set (body := f) end.
  destruct (foldR_total body (fun seen acc => exists f, acc = tabulate state_keys f /\ forall k, k ∈ state_keys ->
    Z.of_nat (length (f k)) = shard_size bf b /\ forall p rs, (p, rs) ∈ seen ->
      py_slice (f k) (r_start (gbuf_local rs)) (r_end (gbuf_local rs)) = state_value st (shard_tensor at_ g p rs) k)
    (map (fun key => (key, replicate (Z.to_nat (shard_size bf b)) v_zero)) state_keys) (rank_param_map bf b r)) as (acc & -> & f & -> & Hf).
  - exists (fun _ => replicate (Z.to_nat (shard_size bf b)) v_zero). split; [done|]. intros k Hk. split.
    + rewrite length_replicate. lia.
    + intros p rs Hin. by apply elem_of_nil in Hin.
  - intros seen [p rs] rest acc E (f & -> & Hf).
    assert (Ho : owns r g bf i b p rs) by (split_and!; [done..|rewrite E; apply elem_of_app; right; left]).
    destruct (get_states_ok o st g bf i b p rs Ad R Ho) as [Hget Hlen]. destruct (local_bounds _ _ _ _ _ _ Ho) as (B1 & B2 & B3 & _).
    exists (tabulate state_keys (fun k => splice (f k) (r_start (gbuf_local rs)) (state_value st (shard_tensor at_ g p rs) k))). split.
    + unfold body. rewrite Hget. cbn [mbind res_bind].
      rewrite <- (mapR_tabulate state_keys f (fun key shard => v ← dict_get (tabulate state_keys (state_value st (shard_tensor at_ g p rs))) key;
        copy_slice shard (r_start (gbuf_local rs)) (r_end (gbuf_local rs)) v)).
      * apply mapR_ext. intros [k x]. by destruct (dict_get _ k).
      * intros k Hk. rewrite dict_get_tabulate by done. cbn [mbind res_bind]. destruct (Hf k Hk) as [Hl _]. apply copy_slice_ok; try lia.
        rewrite Hlen by done. lia.
    + eexists. split; [reflexivity|]. intros k Hk. destruct (Hf k Hk) as [Hl Hs]. pose proof (Hlen k Hk) as HL. split; [rewrite length_splice; lia|].
      intros q qs [Hq|Hq]%elem_of_app.
      * assert (Hqo : owns r g bf i b q qs) by (split_and!; [done..|rewrite E; apply elem_of_app; by left]).
        destruct (local_bounds _ _ _ _ _ _ Hqo) as (Q1 & Q2 & _).
        rewrite slice_splice_ne; [by apply Hs|lia..|]. assert (Hne : q <> p).
        { intros ->. pose proof (param_map_nodup bf W b r) as Hnd. rewrite E, map_app in Hnd. apply NoDup_app in Hnd as (_ & Hd & _).
          apply (Hd p); [|by left]. apply list_elem_of_fmap. by exists (p, qs). }
        pose proof (local_apart g bf i b q qs p rs Hqo Ho Hne). lia.
      * apply list_elem_of_singleton in Hq as [= -> ->]. apply slice_splice_eq; lia.
  - eauto.
Qed.
End OneRank.

(** *** All ranks *)

(** The ranks of a data-parallel group before a checkpoint: each has a consistent optimizer with its state. *)
Record ready_world (ranks : list (dist_opt * store V)) : Prop := {
  rw_dp : Forall (fun bf => bf_dp bf = Z.of_nat (length ranks)) buffers;
  rw_rank : forall r o st, ranks !! r = Some (o, st) ->
    consistent at_ buffers (Z.of_nat r) o /\ addressed at_ buffers (Z.of_nat r) o /\ checkpoint_ready (Z.of_nat r) st
}.

Lemma rank_in_range ranks r o st : ready_world ranks -> ranks !! r = Some (o, st) -> Forall (fun bf => 0 <= Z.of_nat r < bf_dp bf) buffers.
Proof.
  intros RW Hr. apply lookup_lt_Some in Hr. eapply Forall_impl; [apply (rw_dp _ RW)|]. intros bf ->. lia.
Qed.

Lemma bucket_numels_ok ranks g bf i b : ready_world ranks -> buffers !! g = Some bf -> bf_buckets bf !! i = Some b ->
  bucket_numels (Z.of_nat (length ranks)) b = Ok (view_numel (b_grad_data b), shard_size bf b, b_numel_unpadded b).
Proof.
  intros RW Hg Hi. pose proof (list_elem_of_lookup_2 _ _ _ Hg) as Hbf. pose proof (proj1 (Forall_forall _ _) WB bf Hbf) as W.
  rewrite <- (proj1 (Forall_forall _ _) (rw_dp _ RW) bf Hbf). destruct (shard_size_ok bf W i b Hi) as (_ & _ & Hz). pose proof (wp_dp _ W).
  destruct (wp_bucket _ W i b Hi) as (_ & _ & Hu & _). unfold bucket_numels. rewrite pymod_ok, Hz by lia. cbn [mbind res_bind Z.eqb assert_].
  rewrite floordiv_ok by lia. cbn [mbind res_bind]. by rewrite (proj2 (Z.leb_le _ _) (proj2 Hu)).
Qed.

Lemma param_map_of_ok r o g bf i b : consistent at_ buffers r o -> buffers !! g = Some bf -> bf_buckets bf !! i = Some b ->
  param_map_of (Z.of_nat g) (Z.of_nat i) o = Ok (rank_param_map bf b r).
Proof.
  intros C Hg Hi. unfold param_map_of. rewrite (cs_ranges _ _ _ _ C). erewrite py_get_nonneg by (apply list_lookup_fmap_Some; eauto).
  cbn [mbind res_bind rank_ranges gr_buckets]. apply py_get_nonneg, list_lookup_fmap_Some. eauto.
Qed.

(** Where the state of a part is found in a coalesced tensor whose bucket [i] is at [place]. *)
Definition part_slice (w : list V) (place : Z) (rs : param_ranges) : list V :=
  py_slice w (place + r_start (gbuf_world_in_bucket rs)) (place + r_end (gbuf_world_in_bucket rs)).

(** The coalesced tensors [w] hold, at [place], the state of all parts of bucket [b]. *)
Definition holds_bucket (ranks : list (dist_opt * store V)) (g : nat) (bf : buffer) (b : bucket) (place : Z) (w : string -> list V) : Prop :=
  forall k r o st p rs, k ∈ state_keys -> ranks !! r = Some (o, st) -> (p, rs) ∈ rank_param_map bf b (Z.of_nat r) ->
    part_slice (w k) place rs = state_value st (shard_tensor at_ g p rs) k.

Lemma gather_shards_ok ranks g bf i b : ready_world ranks -> buffers !! g = Some bf -> bf_buckets bf !! i = Some b ->
  exists fs : list (string -> list V),
    mapR (fun '(o, st) => pm ← param_map_of (Z.of_nat g) (Z.of_nat i) o; build_local_shards o st (shard_size bf b) pm) ranks =
      Ok (map (tabulate state_keys) fs) /\ length fs = length ranks /\
    forall r f, fs !! r = Some f -> forall k, k ∈ state_keys -> Z.of_nat (length (f k)) = shard_size bf b /\
      forall o st p rs, ranks !! r = Some (o, st) -> (p, rs) ∈ rank_param_map bf b (Z.of_nat r) ->
        py_slice (f k) (r_start (gbuf_local rs)) (r_end (gbuf_local rs)) = state_value st (shard_tensor at_ g p rs) k.
Proof.
  intros RW Hg Hi.
  destruct (mapR_ix (fun '(o, st) => pm ← param_map_of (Z.of_nat g) (Z.of_nat i) o; build_local_shards o st (shard_size bf b) pm)
    (fun r x d => exists f, d = tabulate state_keys f /\ forall k, k ∈ state_keys -> Z.of_nat (length (f k)) = shard_size bf b /\
      forall p rs, (p, rs) ∈ rank_param_map bf b (Z.of_nat r) ->
        py_slice (f k) (r_start (gbuf_local rs)) (r_end (gbuf_local rs)) = state_value (snd x) (shard_tensor at_ g p rs) k) ranks) as (ds & Eds & Hl & Hds).
  { intros r [o st] Hr. destruct (rw_rank _ RW r o st Hr) as (C & Ad & R).
    destruct (local_shards_ok (Z.of_nat r) (rank_in_range _ _ _ _ RW Hr) o st g bf i b Ad R Hg Hi) as (f & Hf & Hv).
    rewrite (param_map_of_ok (Z.of_nat r) o g bf i b C Hg Hi). cbn [mbind res_bind]. eauto. }
  exists (map (fun d k => default [] (dict_lookup d k)) ds). rewrite Eds, length_map. split; [|split; [done|]].
  - f_equal. rewrite map_map, <- (map_id ds) at 1. apply map_ext_in. intros d Hd%list_elem_of_In. apply list_elem_of_lookup in Hd as [r Hr].
    destruct (lookup_lt_is_Some_2 ranks r) as [x Hx]; [rewrite <- Hl; by eapply lookup_lt_Some|]. destruct (Hds r x d Hx Hr) as (f & -> & _). done.
  - intros r f Hf k Hk. apply list_lookup_fmap_Some in Hf as (d & -> & Hr).
    destruct (lookup_lt_is_Some_2 ranks r) as [[o st] Hx]; [rewrite <- Hl; by eapply lookup_lt_Some|].
    destruct (Hds r _ d Hx Hr) as (f & -> & Hv). pose proof (dict_get_tabulate state_keys f k Hk) as Hget. unfold dict_get in Hget.
    destruct (dict_lookup (tabulate state_keys f) k); [|done]. injection Hget as ->. cbn. destruct (Hv k Hk) as [Hlen Hs]. split; [done|].
    intros o' st' p rs Hr'. rewrite Hx in Hr'. injection Hr' as <- <-. apply Hs.
Qed.

Lemma gather_bucket_ok ranks g bf i b off total w : ready_world ranks -> buffers !! g = Some bf -> bf_buckets bf !! i = Some b ->
  0 <= off -> off + b_numel_unpadded b <= total -> (forall k, k ∈ state_keys -> Z.of_nat (length (w k)) = total) ->
  exists w', gather_bucket ranks (Z.of_nat g) (off, tabulate state_keys w) (Z.of_nat i, b) =
      Ok (off + b_numel_unpadded b, tabulate state_keys w') /\
    holds_bucket ranks g bf b off w' /\
    forall k, k ∈ state_keys -> Z.of_nat (length (w' k)) = total /\
      forall c d, 0 <= c -> d <= off -> py_slice (w' k) c d = py_slice (w k) c d.
Proof.
  intros RW Hg Hi Hoff Hbound Hw. pose proof (list_elem_of_lookup_2 _ _ _ Hg) as Hbf. pose proof (proj1 (Forall_forall _ _) WB bf Hbf) as W.
  destruct (gather_shards_ok ranks g bf i b RW Hg Hi) as (fs & Efs & Hl & Hfs). unfold gather_bucket.
  rewrite (bucket_numels_ok ranks g bf i b RW Hg Hi). cbn [mbind res_bind]. rewrite Efs. cbn [mbind res_bind].
  destruct (shard_size_ok bf W i b Hi) as (Hsz & Hdp & _). destruct (wp_bucket _ W i b Hi) as (_ & _ & Hu & _).
  rewrite (proj1 (Forall_forall _ _) (rw_dp _ RW) bf Hbf) in Hdp.
  assert (Hall : forall k, k ∈ state_keys -> Forall (fun l => Z.of_nat (length l) = shard_size bf b) (map (fun f => f k) fs)).
  { intros k Hk. apply Forall_map, Forall_lookup. intros r f Hf. by destruct (Hfs r f Hf k Hk). }
  assert (HG : forall k, k ∈ state_keys -> Z.of_nat (length (py_slice (concat (map (fun f => f k) fs)) 0 (b_numel_unpadded b))) = b_numel_unpadded b).
  { intros k Hk. rewrite length_slice; [lia..|]. rewrite (length_concat_eq _ _ (Hall k Hk)), length_map. lia. }
  exists (fun k => splice (w k) off (py_slice (concat (map (fun f => f k) fs)) 0 (b_numel_unpadded b))). split; [|split].
  - rewrite (mapR_ext _ (fun '(key, x) => y ← (recv ← mapR (fun local_shards => dict_get local_shards key) (map (tabulate state_keys) fs);
      copy_slice x off (off + b_numel_unpadded b) (py_slice (concat recv) 0 (b_numel_unpadded b))); mret (key, y)))
      by (intros [key x]; by destruct (mapR (fun l => dict_get l key) _)).
    rewrite (mapR_tabulate _ _ _ (fun k => splice (w k) off (py_slice (concat (map (fun f => f k) fs)) 0 (b_numel_unpadded b)))); [done|]. intros k Hk.
    assert (Hrecv : mapR (fun local_shards => dict_get local_shards k) (map (tabulate state_keys) fs) = Ok (map (fun f => f k) fs)).
    { apply mapR_ok_Forall2, Forall2_fmap_l, Forall2_fmap_r, Forall_Forall2_diag, Forall_forall. intros f _. exact (dict_get_tabulate state_keys f k Hk). }
    rewrite Hrecv. cbn [mbind res_bind]. apply copy_slice_ok; [lia|lia|rewrite Hw by done; lia|]. rewrite HG by done. lia.
  - intros k r o st p rs Hk Hr Hin. destruct (lookup_lt_is_Some_2 fs r) as [f Hf]; [rewrite Hl; by eapply lookup_lt_Some|].
    destruct (Hfs r f Hf k Hk) as [_ Hv]. rewrite <- (Hv o st p rs Hr Hin).
    assert (Ho : owns (Z.of_nat r) g bf i b p rs) by done.
    destruct (local_bounds (Z.of_nat r) (rank_in_range _ _ _ _ RW Hr) g bf i b p rs Ho) as (B1 & B2 & _ & B4 & B5 & B6).
    rewrite <- (slice_concat (shard_size bf b) (map (fun f => f k) fs) r (f k)); [|by apply Hall|by apply list_lookup_fmap_Some; eauto|lia..].
    rewrite <- B4, <- B5. unfold part_slice. set (G := concat _) in *.
    apply list_eq. intros x. rewrite !lookup_slice.
    replace (off + r_end (gbuf_world_in_bucket rs) - (off + r_start (gbuf_world_in_bucket rs))) with
      (r_end (gbuf_world_in_bucket rs) - r_start (gbuf_world_in_bucket rs)) by lia.
    destruct (decide _); [|done]. pose proof (HG k Hk) as HGk. fold G in HGk.
    assert (0 <= Z.of_nat r * shard_size bf b) by nia.
    rewrite lookup_splice, decide_True by (rewrite ?HGk, ?Hw by done; lia). rewrite lookup_slice, decide_True by lia. f_equal. lia.
  - intros k Hk. rewrite length_splice by (rewrite ?HG, ?Hw by done; lia). split; [by apply Hw|]. intros c d Hc Hd.
    apply slice_splice_ne; rewrite ?HG, ?Hw by done; lia.
Qed.

(** *** Buckets one after the other *)

Lemma zsum_take_S (l : list Z) (i : nat) x : l !! i = Some x -> zsum (take (S i) l) = zsum (take i l) + x.
Proof. intros H. rewrite (take_S_r l i x H), zsum_app. unfold zsum at 2. cbn. lia. Qed.
Lemma zsum_nonneg (l : list Z) : Forall (fun x => 0 <= x) l -> 0 <= zsum l.
Proof. unfold zsum. induction 1; cbn; lia. Qed.

Section Places.
Context (bf : buffer) (W : well_placed bf).

Lemma unpadded_nonneg : Forall (fun x => 0 <= x) (map b_numel_unpadded (bf_buckets bf)).
Proof. apply Forall_map, Forall_lookup. intros i b Hi. cbn. destruct (wp_bucket _ W i b Hi) as (_ & _ & ? & _). lia. Qed.
Lemma bucket_place_S i b : bf_buckets bf !! i = Some b -> bucket_place bf (S i) = bucket_place bf i + b_numel_unpadded b.
Proof. intros Hi. apply zsum_take_S, list_lookup_fmap_Some. eauto. Qed.
Lemma bucket_place_nonneg i : 0 <= bucket_place bf i.
Proof. apply zsum_nonneg, Forall_take, unpadded_nonneg. Qed.
Lemma bucket_place_mono i j : (i <= j)%nat -> bucket_place bf i <= bucket_place bf j.
Proof.
  intros Hij. unfold bucket_place. set (l := map b_numel_unpadded (bf_buckets bf)). replace j with (i + (j - i))%nat by lia.
  rewrite <- (take_take_drop l), zsum_app. pose proof (zsum_nonneg (take (j - i) (drop i l))) as H. rewrite Z.add_comm.
  enough (0 <= zsum (take (j - i) (drop i l))) by lia. apply H, Forall_take, Forall_drop, unpadded_nonneg.
Qed.
Lemma bucket_place_end i b : bf_buckets bf !! i = Some b -> bucket_place bf i + b_numel_unpadded b <= bf_numel_unpadded bf.
Proof.
  intros Hi. rewrite <- (bucket_place_S i b Hi), (wp_unpadded _ W). pose proof (lookup_lt_Some _ _ _ Hi).
  transitivity (bucket_place bf (length (bf_buckets bf))); [apply bucket_place_mono; lia|].
  unfold bucket_place. rewrite take_ge by (rewrite length_map; lia). lia.
Qed.
End Places.

(** A coalesced checkpoint of buffer [g] with the state of all ranks. *)
Definition holds_buffer (ranks : list (dist_opt * store V)) (g : nat) (bf : buffer) (wt : world_tensors V) : Prop :=
  exists w, wt = mkWorld (tabulate state_keys w) (bf_numel_unpadded bf) /\
    (forall k, k ∈ state_keys -> Z.of_nat (length (w k)) = bf_numel_unpadded bf) /\
    forall i b, bf_buckets bf !! i = Some b -> holds_bucket ranks g bf b (bucket_place bf i) w.

Lemma holds_bucket_keep ranks g bf i b place off w w' : ready_world ranks -> buffers !! g = Some bf -> bf_buckets bf !! i = Some b ->
  0 <= place -> place + b_numel_unpadded b <= off ->
  (forall k c d, k ∈ state_keys -> 0 <= c -> d <= off -> py_slice (w' k) c d = py_slice (w k) c d) ->
  holds_bucket ranks g bf b place w -> holds_bucket ranks g bf b place w'.
Proof.
  intros RW Hg Hi Hp Hoff Hsame H k r o st p rs Hk Hr Hin. rewrite <- (H k r o st p rs Hk Hr Hin). unfold part_slice.
  assert (Ho : owns (Z.of_nat r) g bf i b p rs) by done.
  destruct (local_bounds (Z.of_nat r) (rank_in_range _ _ _ _ RW Hr) g bf i b p rs Ho) as (B1 & B2 & _ & B4 & B5 & B6).
  assert (0 <= Z.of_nat r * shard_size bf b) by nia. apply Hsame; [done|lia|lia].
Qed.

Lemma gather_buffer_ok ranks g bf : ready_world ranks -> buffers !! g = Some bf ->
  exists wt, gather_buffer ranks (Z.of_nat g, bf) = Ok wt /\ holds_buffer ranks g bf wt.
Proof.
  intros RW Hg. pose proof (proj1 (Forall_forall _ _) WB bf (list_elem_of_lookup_2 _ _ _ Hg)) as W. unfold gather_buffer.
  destruct (foldR_total (gather_bucket ranks (Z.of_nat g)) (fun seen acc => exists w, acc = (bucket_place bf (length seen), tabulate state_keys w) /\
      (forall k, k ∈ state_keys -> Z.of_nat (length (w k)) = bf_numel_unpadded bf) /\
      forall i b, (i < length seen)%nat -> bf_buckets bf !! i = Some b -> holds_bucket ranks g bf b (bucket_place bf i) w)
    (0, map (fun key => (key, replicate (Z.to_nat (bf_numel_unpadded bf)) v_zero)) state_keys) (enumerate (bf_buckets bf))) as (acc & -> & w & -> & Hl & Hw).
  - exists (fun _ => replicate (Z.to_nat (bf_numel_unpadded bf)) v_zero). split; [done|]. split.
    + intros k _. rewrite length_replicate, Z2Nat.id; [done|]. rewrite (wp_unpadded _ W). apply zsum_nonneg, unpadded_nonneg, W.
    + intros i b Hi. cbn in Hi. lia.
  - intros seen [bi b] rest acc E (w & -> & Hl & Hw).
    assert (Hb : enumerate (bf_buckets bf) !! length seen = Some (bi, b)) by (rewrite E; by apply list_lookup_middle).
    rewrite lookup_enumerate in Hb. destruct (bf_buckets bf !! length seen) as [b'|] eqn:Eb; [|done]. injection Hb as <- ->.
    destruct (gather_bucket_ok ranks g bf (length seen) b (bucket_place bf (length seen)) (bf_numel_unpadded bf) w) as (w' & E' & Hh & Hk); try done.
    { by apply bucket_place_nonneg. } { by apply bucket_place_end. }
    eexists. split; [exact E'|]. exists w'. rewrite length_app, Nat.add_1_r, (bucket_place_S bf _ b Eb). split; [done|]. split; [intros k Hkk; by apply Hk|].
    intros i b0 Hi Hib. destruct (decide (i = length seen)) as [->|Hne]; [by rewrite Eb in Hib; injection Hib as <-|].
    assert (Hi' : (i < length seen)%nat) by lia.
    apply (holds_bucket_keep ranks g bf i b0 _ (bucket_place bf (length seen)) w); try done.
    + by apply bucket_place_nonneg.
    + rewrite <- (bucket_place_S bf i b0 Hib). apply bucket_place_mono; [done|lia].
    + intros k c d Hkk. destruct (Hk k Hkk) as [_ Hs]. apply Hs.
    + by apply Hw.
  - eexists. split; [reflexivity|]. exists w. split; [done|]. split; [done|]. intros i b Hi. apply Hw; [|done].
    unfold enumerate. rewrite length_imap. by eapply lookup_lt_Some.
Qed.

Lemma get_state_ok ranks : ready_world ranks -> exists state, get_parameter_state_dp_zero buffers ranks = Ok state /\
  forall g bf, buffers !! g = Some bf -> exists wt, state !! g = Some wt /\ holds_buffer ranks g bf wt.
Proof.
  intros RW. unfold get_parameter_state_dp_zero.
  destruct (mapR_ex (gather_buffer ranks) (fun x wt => holds_buffer ranks (Z.to_nat (fst x)) (snd x) wt) (enumerate buffers)) as (state & Es & Hs).
  { intros [gi bf] (g & -> & Hg)%elem_of_enumerate. cbn. rewrite Nat2Z.id. by apply gather_buffer_ok. }
  exists state. split; [done|]. intros g bf Hg. destruct (Forall2_lookup_l _ _ _ g (Z.of_nat g, bf) Hs) as (wt & Hwt & Hh).
  { by rewrite lookup_enumerate, Hg. } exists wt. cbn in Hh. rewrite Nat2Z.id in Hh. done.
Qed.

(* ================================================================== *)
(** ** Loading                                                         *)
(* ================================================================== *)

(** What rank 0 sends for a bucket holds every part at its local range. *)
Lemma scatter_tensors_ok (w : list V) off n unp dp sz : 0 <= off -> 0 < unp -> off + unp <= Z.of_nat (length w) -> unp <= n ->
  n = Z.of_nat dp * sz -> 0 < sz ->
  exists send, scatter_tensors w off n sz unp = Ok send /\ length send = dp /\
    forall r l, send !! r = Some l -> forall a b, 0 <= a -> a <= b -> b <= sz -> Z.of_nat r * sz + b <= unp ->
      py_slice l a b = py_slice w (off + (Z.of_nat r * sz + a)) (off + (Z.of_nat r * sz + b)).
Proof.
  intros Hoff Hunp Hw Hn En Hsz. unfold scatter_tensors, py_range_step.
  rewrite (proj2 (Z.leb_le 0 off)), (proj2 (Z.ltb_lt off _)), (proj2 (Z.leb_le _ (Z.of_nat (length w)))) by lia. cbn [andb assert_ mbind res_bind].
  set (W := py_slice w off (off + unp) ++ _).
  assert (HW : Z.of_nat (length W) = n). { unfold W. rewrite length_app, length_replicate, Nat2Z.inj_add, length_slice by lia. lia. }
  rewrite (proj2 (Z.eqb_eq _ _) HW). cbn [assert_ mbind res_bind]. rewrite (proj2 (Z.eqb_neq sz 0)) by lia. cbn [mbind res_bind mret res_ret].
  replace ((n + sz - 1) / sz) with (Z.of_nat dp).
  2: { rewrite En. replace (Z.of_nat dp * sz + sz - 1) with (sz - 1 + Z.of_nat dp * sz) by lia. rewrite Z.div_add, Z.div_small by lia. lia. }
  eexists. split; [reflexivity|]. split.
  - rewrite !length_map. pose proof (length_zrange 0 (Z.of_nat dp)). lia.
  - intros r l Hl a b Ha Hab Hb Hu. rewrite map_map in Hl. apply list_lookup_fmap_Some in Hl as (x & -> & Hx).
    pose proof (lookup_lt_Some _ _ _ Hx) as Hlt. pose proof (length_zrange 0 (Z.of_nat dp)). rewrite lookup_zrange in Hx by lia. injection Hx as <-.
    rewrite Z.add_0_l. assert (0 <= Z.of_nat r * sz) by nia. rewrite slice_slice by lia. unfold W. apply list_eq. intros j. rewrite !lookup_slice.
    replace (off + (Z.of_nat r * sz + b) - (off + (Z.of_nat r * sz + a))) with (Z.of_nat r * sz + b - (Z.of_nat r * sz + a)) by lia.
    destruct (decide _); [|done]. pose proof (length_slice w off (off + unp)) as HL.
    rewrite lookup_app_l by lia. rewrite lookup_slice, decide_True by lia. f_equal. lia.
Qed.

(** The received tensor of a parameter under a key. *)
Definition received (d : param_dict (dict string (list V))) (p : param) (k : string) : option (list V) :=
  dict_lookup d p ≫= (fun t => dict_lookup t k).

Lemma receive_bucket_spec key recv pm d : NoDup (map fst pm) ->
  (forall p k, received (receive_bucket key recv d pm) p k =
     match dict_lookup pm p with
     | Some rs => if decide (k = key) then Some (py_slice recv (r_start (gbuf_local rs)) (r_end (gbuf_local rs))) else received d p k
     | None => received d p k
     end) /\
  (forall p, p ∈ map fst (receive_bucket key recv d pm) -> p ∈ map fst d \/ p ∈ map fst pm) /\
  (NoDup (map fst d) -> NoDup (map fst (receive_bucket key recv d pm))).
Proof.
  revert d. induction pm as [|[q qs] pm IH]; intros d Hnd; [split_and!; cbn; auto|]. inversion Hnd as [|? ? Hq Hnd']; subst.
  set (d1 := dict_set d q (dict_set (default [] (dict_lookup d q)) key (py_slice recv (r_start (gbuf_local qs)) (r_end (gbuf_local qs))))).
  change (receive_bucket key recv d ((q, qs) :: pm)) with (receive_bucket key recv d1 pm). destruct (IH d1 Hnd') as (H1 & H2 & H3).
  split; [|split].
  - intros p k. rewrite H1. cbn [dict_lookup]. destruct (decide (p = q)) as [->|Hne].
    + assert (Hn : dict_lookup pm q = None). { destruct (dict_lookup pm q) as [rs|] eqn:E; [|done]. exfalso. apply dict_lookup_Some in E.
        apply Hq, list_elem_of_fmap. by exists (q, rs). }
      rewrite Hn. unfold received, d1. rewrite dict_lookup_set_eq. cbn. destruct (decide (k = key)) as [->|Hk].
      * by rewrite dict_lookup_set_eq.
      * rewrite dict_lookup_set_ne by done. by destruct (dict_lookup d q).
    + assert (Hd1 : received d1 p k = received d p k) by (unfold received, d1; by rewrite dict_lookup_set_ne). by rewrite Hd1.
  - intros p Hp. destruct (H2 p Hp) as [Hp'|Hp']; [|right; by right]. unfold d1 in Hp'. rewrite dict_set_keys in Hp'.
    destruct (decide _); [by left|]. apply elem_of_app in Hp' as [Hp'|Hp'%list_elem_of_singleton]; [by left|right; subst; by left].
  - intros Hd. apply H3. unfold d1. rewrite dict_set_keys. destruct (decide _) as [|Hnin]; [done|]. apply NoDup_app. split_and!; [done| |apply NoDup_singleton].
    intros x Hx ->%list_elem_of_singleton. done.
Qed.

(** What rank [r] has received for the keys [ks], and the buckets before [n] for the key [k0]. *)
Record receiving (g : nat) (bf : buffer) (w : string -> list V) (ks : list string) (k0 : string) (n : nat) (r : nat)
    (d : param_dict (dict string (list V))) : Prop := {
  rv_nodup : NoDup (map fst d);
  rv_owned : forall p, p ∈ map fst d -> exists i b rs, owns (Z.of_nat r) g bf i b p rs;
  rv_value : forall k i b p rs, k ∈ ks \/ k = k0 /\ (i < n)%nat -> owns (Z.of_nat r) g bf i b p rs ->
    received d p k = Some (part_slice (w k) (bucket_place bf i) rs)
}.

Context (Hpos : Forall (fun bf => Forall (fun b => 0 < b_numel_unpadded b) (bf_buckets bf)) buffers).

Lemma scatter_bucket_ok ranks g bf w ks key i b recvs : ready_world ranks -> buffers !! g = Some bf -> bf_buckets bf !! i = Some b ->
  Z.of_nat (length (w key)) = bf_numel_unpadded bf -> length recvs = length ranks -> key ∉ ks ->
  (forall r d, recvs !! r = Some d -> receiving g bf w ks key i r d) ->
  exists recvs', scatter_bucket ranks (Z.of_nat g) key (w key) (bucket_place bf i, recvs) (Z.of_nat i, b) =
      Ok (bucket_place bf (S i), recvs') /\ length recvs' = length ranks /\
    forall r d, recvs' !! r = Some d -> receiving g bf w ks key (S i) r d.
Proof.
  intros RW Hg Hi Hlen Hlr Hks Hrec. pose proof (list_elem_of_lookup_2 _ _ _ Hg) as Hbf. pose proof (proj1 (Forall_forall _ _) WB bf Hbf) as W.
  destruct (shard_size_ok bf W i b Hi) as (Hsz & Hdp & _). destruct (wp_bucket _ W i b Hi) as (_ & _ & Hu & _).
  rewrite (proj1 (Forall_forall _ _) (rw_dp _ RW) bf Hbf) in Hdp.
  pose proof (proj1 (Forall_forall _ _) (proj1 (Forall_forall _ _) Hpos bf Hbf) b (list_elem_of_lookup_2 _ _ _ Hi)) as Hup. cbn in Hup.
  unfold scatter_bucket. rewrite (bucket_numels_ok ranks g bf i b RW Hg Hi). cbn [mbind res_bind].
  destruct (scatter_tensors_ok (w key) (bucket_place bf i) (view_numel (b_grad_data b)) (b_numel_unpadded b) (length ranks) (shard_size bf b))
    as (send & Es & Hls & Hsend); [by apply bucket_place_nonneg|done|rewrite Hlen; by apply bucket_place_end|lia|lia|nia|].
  rewrite Es. cbn [mbind res_bind]. rewrite Hls, Nat.eqb_refl. cbn [mbind res_bind].
  match goal with |- context [mapR ?f ?l] => destruct (mapR_ix f (fun r x d => d = receive_bucket key x.1.2 x.2 (rank_param_map bf b (Z.of_nat r))) l)
    as (recvs' & Er & Hl' & Hr') end.
  { intros r [[o t] d] Hr. apply lookup_zip_Some in Hr as [Hr Hd]. apply lookup_zip_Some in Hr as [Ho Ht].
    apply list_lookup_fmap_Some in Ho as ([o' st] & -> & Ho). cbn.
    destruct (rw_rank _ RW r o' st Ho) as (C & _ & _). rewrite (param_map_of_ok (Z.of_nat r) o' g bf i b C Hg Hi). cbn. eauto. }
  rewrite Er. cbn [mbind res_bind mret res_ret]. eexists. split; [by rewrite (bucket_place_S bf i b Hi)|].
  rewrite !length_zip_with, length_map, Hls, Hlr, !Nat.min_id in Hl'. split; [done|]. intros r d' Hd'.
  pose proof (lookup_lt_Some _ _ _ Hd') as Hlt. rewrite Hl' in Hlt.
  destruct (lookup_lt_is_Some_2 ranks r Hlt) as [[o st] Ho], (lookup_lt_is_Some_2 send r ltac:(lia)) as [t Ht], (lookup_lt_is_Some_2 recvs r ltac:(lia)) as [d Hd].
  rewrite (Hr' r (o, t, d) d'); [|apply lookup_zip_Some; split; [|done]; apply lookup_zip_Some; split; [|done];
    apply list_lookup_fmap_Some; by exists (o, st)|done]. cbn [fst snd].
  pose proof (rank_in_range _ _ _ _ RW Ho) as Hrr. destruct (Hrec r d Hd) as [R1 R2 R3].
  destruct (receive_bucket_spec key t (rank_param_map bf b (Z.of_nat r)) d (param_map_nodup bf W b _)) as (S1 & S2 & S3). split.
  - by apply S3.
  - intros p Hp. destruct (S2 p Hp) as [Hp'|Hp']; [by apply R2|]. apply list_elem_of_fmap in Hp' as ([p' rs] & -> & Hp'). exists i, b, rs. done.
  - intros k j b' p rs Hk Hown. rewrite S1.
    assert (Hsame : forall rs', dict_lookup (rank_param_map bf b (Z.of_nat r)) p = Some rs' -> j = i /\ b' = b /\ rs' = rs).
    { intros rs' E. apply dict_lookup_Some in E. assert (Ho' : owns (Z.of_nat r) g bf i b p rs') by done.
      destruct (owns_same buffers WB Hids _ Hrr _ _ _ _ _ _ _ _ _ _ _ _ Hown Ho' eq_refl) as (_ & _ & -> & -> & _ & ->). done. }
    destruct (dict_lookup (rank_param_map bf b (Z.of_nat r)) p) as [rs'|] eqn:E.
    + destruct (Hsame rs' eq_refl) as (-> & -> & ->). destruct (decide (k = key)) as [->|Hne].
      * f_equal. destruct (local_bounds (Z.of_nat r) Hrr g bf i b p rs Hown) as (B1 & B2 & _ & B4 & B5 & B6). unfold part_slice.
        rewrite B4, B5. apply (Hsend r t Ht); lia.
      * apply R3 with (b := b); [|done]. destruct Hk as [Hk|[Hk _]]; [by left|done].
    + apply R3 with (b := b'); [|done]. destruct Hk as [Hk|[-> Hj]]; [by left|]. right. split; [done|].
      assert (j <> i); [|lia]. intros ->. destruct Hown as (_ & Hb' & Hin). rewrite Hi in Hb'. injection Hb' as <-.
      by rewrite (dict_lookup_elem _ _ _ (param_map_nodup bf W b _) Hin) in E.
Qed.

(** All parts of a buffer have arrived. *)
Lemma scatter_buffer_ok ranks g bf w : ready_world ranks -> buffers !! g = Some bf ->
  (forall k, k ∈ state_keys -> Z.of_nat (length (w k)) = bf_numel_unpadded bf) ->
  exists recvs, scatter_buffer ranks (Z.of_nat g) bf (mkWorld (tabulate state_keys w) (bf_numel_unpadded bf)) = Ok recvs /\
    length recvs = length ranks /\ forall r d, recvs !! r = Some d -> receiving g bf w state_keys "" 0 r d.
Proof.
  intros RW Hg Hlen. unfold scatter_buffer. rewrite Z.eqb_refl. cbn [assert_ mbind res_bind w_tensors w_numel_unpadded].
  match goal with |- context [foldR ?f _ state_keys] => set (body := f) end.
  destruct (foldR_total body (fun ks recvs => length recvs = length ranks /\ forall r d, recvs !! r = Some d -> receiving g bf w ks "" 0 r d)
    (map (fun _ => []) ranks) state_keys) as (recvs & Er & Hl & Hr); [| |by eauto].
  - split; [by rewrite length_map|]. intros r d Hd. apply list_lookup_fmap_Some in Hd as (x & -> & _). split; cbn.
    + constructor.
    + intros p Hp. by apply elem_of_nil in Hp.
    + intros k i b p rs [Hk|[_ Hk]]; [by apply elem_of_nil in Hk|lia].
  - intros ks key rest recvs E [Hl Hr].
    assert (Hkey : key ∈ state_keys) by (rewrite E; apply elem_of_app; right; left).
    assert (Hks : key ∉ ks). { assert (Hnd : NoDup state_keys) by (repeat constructor; set_solver). rewrite E in Hnd. apply NoDup_app in Hnd as (_ & Hd & _).
      intros Hin. apply (Hd key Hin). left. }
    unfold body. rewrite dict_get_tabulate by done. cbn [mbind res_bind].
    destruct (foldR_total (scatter_bucket ranks (Z.of_nat g) key (w key)) (fun seen acc => exists recvs1, acc = (bucket_place bf (length seen), recvs1) /\
      length recvs1 = length ranks /\ forall r d, recvs1 !! r = Some d -> receiving g bf w ks key (length seen) r d) (0, recvs) (enumerate (bf_buckets bf)))
      as (acc & -> & recvs1 & -> & Hl1 & Hr1).
    + exists recvs. split; [done|]. split; [done|]. intros r d Hd. destruct (Hr r d Hd) as [R1 R2 R3]. split; [done|done|].
      intros k i b p rs [Hk|[_ Hk]]; [by apply R3; left|cbn in Hk; lia].
    + intros seen [bi b] rest' acc E' (recvs1 & -> & Hl1 & Hr1).
      assert (Hb : enumerate (bf_buckets bf) !! length seen = Some (bi, b)) by (rewrite E'; by apply list_lookup_middle).
      rewrite lookup_enumerate in Hb. destruct (bf_buckets bf !! length seen) as [b'|] eqn:Eb; [|done]. injection Hb as <- ->.
      destruct (scatter_bucket_ok ranks g bf w ks key (length seen) b recvs1) as (recvs2 & E2 & Hl2 & Hr2); try done; [by apply Hlen|].
      eexists. split; [exact E2|]. exists recvs2. rewrite length_app, Nat.add_1_r. done.
    + eexists. split; [reflexivity|]. split; [done|]. intros r d Hd. destruct (Hr1 r d Hd) as [R1 R2 R3]. split; [done|done|].
      intros k i b p rs Hk Hown. apply (R3 k i b p rs); [|done]. destruct Hk as [[Hk|Hk%list_elem_of_singleton]%elem_of_app|[_ Hk]]; [by left| |lia].
      right. split; [done|]. unfold enumerate. rewrite length_imap. destruct Hown as (_ & Hb & _). by eapply lookup_lt_Some.
Qed.

Section Setting.
Context (r : Z) (Hr : Forall (fun bf => 0 <= r < bf_dp bf) buffers) (o : dist_opt).
Context (C : consistent at_ buffers r o) (Ad : addressed at_ buffers r o).

Lemma shard_dtype g bf i b p rs : owns r g bf i b p rs -> storage_dtype buffers at_ (t_storage (shard_tensor at_ g p rs)) = Float32.
Proof.
  intros Ho. pose proof (owns_type at_ buffers WB r Hr Htyped _ _ _ _ _ _ Ho) as Ht. unfold shard_tensor. destruct (is16 at_ p); [done|]. cbn.
  rewrite Nat2Z.id, (proj1 Ho). cbn. by destruct Ht.
Qed.

(** Shards of different parameters do not overlap. *)
Lemma shards_apart g bf i b p rs g' bf' i' b' q qs : owns r g bf i b p rs -> owns r g' bf' i' b' q qs -> p_id p <> p_id q ->
  let t := shard_tensor at_ g p rs in let u := shard_tensor at_ g' q qs in
  t_storage t <> t_storage u \/ t_end t <= t_start u \/ t_end u <= t_start t.
Proof.
  intros Hp Hq Hne. unfold shard_tensor. destruct (is16 at_ p) eqn:Ep, (is16 at_ q) eqn:Eq; cbn; [left; congruence|by left|by left|].
  destruct (decide (g = g')) as [<-|Hg]; [|left; intros [= E]; lia]. right.
  destruct (owns_facts _ WB r Hr _ _ _ _ _ _ Hp) as (W & _ & Hin & s & Hm & H1 & H2 & H3 & _).
  destruct (owns_facts _ WB r Hr _ _ _ _ _ _ Hq) as (_ & _ & Hin' & s' & Hm' & K1 & K2 & K3 & _).
  assert (bf' = bf) as -> by (destruct Hp as (Hp & _), Hq as (Hq & _); congruence).
  pose proof (wp_apart _ W p q _ _ _ _ _ _ Hin Hin' ltac:(congruence) Hm Hm'). lia.
Qed.

Lemma shard_inside st g bf i b p rs : checkpoint_ready r st -> owns r g bf i b p rs ->
  let t := shard_tensor at_ g p rs in
  0 <= t_start t /\ t_start t <= t_end t /\ t_end t <= Z.of_nat (length (storage_values st (t_storage t))) /\ nelement t = r_size (param_range rs).
Proof.
  intros R Ho. destruct (owns_bounds buffers WB r Hr _ _ _ _ _ _ Ho) as (H1 & H2 & H3 & H4 & H5). unfold shard_tensor, nelement.
  destruct (is16 at_ p) eqn:E; cbn; [rewrite (cr_main _ _ R _ _ _ _ _ _ Ho E)|rewrite (cr_buffers _ _ R g bf (proj1 Ho))]; lia.
Qed.

(** [copy_] into a shard: its values are replaced, the storages keep their sizes and other shards their values. *)
Lemma copy_shard_ok st g bf i b p rs src : checkpoint_ready r st -> owns r g bf i b p rs -> Z.of_nat (length src) = r_size (param_range rs) ->
  exists st', copy_ at_ buffers (shard_tensor at_ g p rs) src st = (Ok tt, st') /\
    st_optim st' = st_optim st /\ (forall s, length (storage_values st' s) = length (storage_values st s)) /\
    tensor_values st' (shard_tensor at_ g p rs) = src /\
    forall g' bf' i' b' q qs, owns r g' bf' i' b' q qs -> p_id q <> p_id p ->
      tensor_values st' (shard_tensor at_ g' q qs) = tensor_values st (shard_tensor at_ g' q qs).
Proof.
  intros R Ho Hl. destruct (shard_inside st _ _ _ _ _ _ R Ho) as (I1 & I2 & I3 & I4). unfold copy_.
  rewrite (bind_step _ _ st src st) by (unfold liftM; by rewrite copy_values_same by lia). rewrite (shard_dtype _ _ _ _ _ _ Ho).
  rewrite (map_ext _ (fun v => v)), map_id by (intros v; apply round_float32). set (t := shard_tensor at_ g p rs) in *.
  eexists. split; [reflexivity|]. split; [done|]. unfold nelement in I4. split; [|split].
  - intros s. destruct (decide (s = t_storage t)) as [->|Hne]; [|by rewrite storage_set_ne]. rewrite storage_set_eq, length_splice by lia. done.
  - unfold tensor_values. rewrite storage_set_eq. apply slice_splice_eq; lia.
  - intros g' bf' i' b' q qs Hq Hne. unfold tensor_values. destruct (shard_inside st _ _ _ _ _ _ R Hq) as (J1 & J2 & J3 & J4).
    pose proof (shards_apart _ _ _ _ _ _ _ _ _ _ _ _ Ho Hq ltac:(congruence)) as Hap. cbn zeta in Hap. fold t in Hap.
    destruct (decide (t_storage (shard_tensor at_ g' q qs) = t_storage t)) as [E|Hs]; [|by rewrite storage_set_ne].
    rewrite E, storage_set_eq. apply slice_splice_ne; [lia|lia|lia|]. destruct Hap as [Hap|Hap]; [congruence|lia].
Qed.

(** [_set_main_param_and_optimizer_states] on tensors under all three keys. *)
Lemma set_one_ok st g bf i b p rs tens (v : string -> list V) : checkpoint_ready r st -> owns r g bf i b p rs ->
  (forall k, k ∈ state_keys -> dict_lookup tens k = Some (v k) /\ Z.of_nat (length (v k)) = r_size (param_range rs)) ->
  exists st', set_main_param_and_optimizer_states at_ o p tens st = (Ok tt, st') /\ checkpoint_ready r st' /\
    forall g' bf' i' b' q qs k, owns r g' bf' i' b' q qs -> k ∈ state_keys -> state_value st' (shard_tensor at_ g' q qs) k =
      if decide (p_id q = p_id p) then v k else state_value st (shard_tensor at_ g' q qs) k.
Proof.
  intros R Ho Hv. destruct (Hv "param") as [V1 L1]; [left|]. destruct (Hv "exp_avg") as [V2 L2]; [right; left|]. destruct (Hv "exp_avg_sq") as [V3 L3]; [right; right; left|].
  destruct (copy_shard_ok st g bf i b p rs (v "param") R Ho L1) as (st1 & E1 & Eo & Hsz & Hval & Hother).
  destruct (cr_optim _ _ R _ _ _ _ _ _ Ho) as (m1 & m2 & Hm & M1 & M2). unfold set_main_param_and_optimizer_states.
  rewrite (bind_step _ _ st (shard_tensor at_ g p rs) st) by (unfold liftM; by rewrite (Ad _ _ _ _ _ _ Ho)).
  rewrite (bind_step _ _ st (v "param") st) by (unfold liftM, dict_get; by rewrite V1). rewrite (cs_buffers _ _ _ _ C), (bind_step _ _ st tt st1 E1).
  rewrite (bind_step _ _ st1 st1 st1) by done. rewrite t_param_shard, Eo, Hm. cbn [default from_option id iterM].
  set (st2 := set_optim (p_id p) [("exp_avg", v "exp_avg"); ("exp_avg_sq", m2)] st1).
  set (st3 := set_optim (p_id p) [("exp_avg", v "exp_avg"); ("exp_avg_sq", v "exp_avg_sq")] st2).
  rewrite (bind_step _ _ st1 tt st2).
  2: { rewrite (bind_step _ _ st1 (v "exp_avg") st1) by (unfold liftM, dict_get; by rewrite V2).
       rewrite (bind_step _ _ st1 (v "exp_avg") st1) by (unfold liftM; by rewrite copy_values_same by lia). unfold modM. by rewrite Eo, Hm. }
  rewrite (bind_step _ _ st2 tt st3).
  2: { rewrite (bind_step _ _ st2 (v "exp_avg_sq") st2) by (unfold liftM, dict_get; by rewrite V3).
       rewrite (bind_step _ _ st2 (v "exp_avg_sq") st2) by (unfold liftM; by rewrite copy_values_same by lia). unfold modM. cbn. by rewrite lookup_insert_eq. }
  assert (Hopt : forall q, st_optim st3 !! q = if decide (q = p_id p) then Some [("exp_avg", v "exp_avg"); ("exp_avg_sq", v "exp_avg_sq")] else st_optim st !! q).
  { intros q. cbn. rewrite Eo. destruct (decide (q = p_id p)) as [->|Hne]; [by rewrite lookup_insert_eq|by rewrite !lookup_insert_ne]. }
  exists st3. split; [done|]. split; [split|].
  - intros g' bf' Hg'. change (storage_values st3 (ParamData (Z.of_nat g'))) with (storage_values st1 (ParamData (Z.of_nat g'))). rewrite Hsz. by apply (cr_buffers _ _ R).
  - intros g' bf' i' b' q qs Hq H16. change (storage_values st3 (MainData (p_id q))) with (storage_values st1 (MainData (p_id q))). rewrite Hsz. by eapply (cr_main _ _ R).
  - intros g' bf' i' b' q qs Hq. rewrite Hopt. destruct (decide (p_id q = p_id p)) as [Eid|Hne]; [|by eapply (cr_optim _ _ R)].
    destruct (owns_same buffers WB Hids _ Hr _ _ _ _ _ _ _ _ _ _ _ _ Hq Ho Eid) as (_ & _ & _ & _ & _ & ->). eauto.
  - intros g' bf' i' b' q qs k Hq Hk. unfold state_value. rewrite t_param_shard, Hopt.
    change (tensor_values st3 (shard_tensor at_ g' q qs)) with (tensor_values st1 (shard_tensor at_ g' q qs)).
    destruct (decide (p_id q = p_id p)) as [Eid|Hne]; [|by rewrite (Hother _ _ _ _ _ _ Hq Hne)].
    destruct (owns_same buffers WB Hids _ Hr _ _ _ _ _ _ _ _ _ _ _ _ Hq Ho Eid) as (-> & _ & _ & _ & -> & ->). rewrite Hval.
    repeat (apply elem_of_cons in Hk as [->|Hk]; [done|]). by apply elem_of_nil in Hk.
Qed.

Lemma received_none (d : param_dict (dict string (list V))) p k : p ∉ map fst d -> received d p k = None.
Proof.
  intros Hn. unfold received. destruct (dict_lookup d p) as [t|] eqn:E; [|done]. exfalso. apply Hn, list_elem_of_fmap. exists (p, t).
  split; [done|]. by apply dict_lookup_Some.
Qed.

Lemma set_states_ok d st : checkpoint_ready r st -> NoDup (map fst d) ->
  (forall p tens, (p, tens) ∈ d -> exists g bf i b rs, owns r g bf i b p rs /\
     forall k, k ∈ state_keys -> exists v, dict_lookup tens k = Some v /\ Z.of_nat (length v) = r_size (param_range rs)) ->
  exists st', set_states at_ o d st = (Ok tt, st') /\ checkpoint_ready r st' /\
    forall g bf i b q qs k, owns r g bf i b q qs -> k ∈ state_keys ->
      state_value st' (shard_tensor at_ g q qs) k = default (state_value st (shard_tensor at_ g q qs) k) (received d q k).
Proof.
  revert st. induction d as [|[p tens] d IH]; intros st R Hnd Hd; [by exists st|]. inversion Hnd as [|? ? Hp Hnd']; subst.
  destruct (Hd p tens) as (g & bf & i & b & rs & Ho & Hv); [left|].
  destruct (set_one_ok st g bf i b p rs tens (fun k => default [] (dict_lookup tens k)) R Ho) as (st1 & E1 & R1 & H1).
  { intros k Hk. destruct (Hv k Hk) as (v & -> & Hl). done. }
  destruct (IH st1 R1 Hnd') as (st' & E' & R' & H'); [intros; apply Hd; by right|]. exists st'. unfold set_states in *. cbn [iterM].
  rewrite (bind_step _ _ st tt st1 E1). split; [done|]. split; [done|]. intros g' bf' i' b' q qs k Hq Hk. rewrite (H' _ _ _ _ _ _ _ Hq Hk), (H1 _ _ _ _ _ _ _ Hq Hk).
  destruct (decide (p_id q = p_id p)) as [Eid|Hne].
  - destruct (owns_same buffers WB Hids _ Hr _ _ _ _ _ _ _ _ _ _ _ _ Hq Ho Eid) as (-> & _ & _ & _ & -> & ->).
    rewrite received_none by done. unfold received. cbn [dict_lookup]. rewrite decide_True by done. cbn. by destruct (Hv k Hk) as (v & -> & _).
  - unfold received. cbn [dict_lookup]. by rewrite (decide_False (P := q = p)) by congruence.
Qed.
End Setting.

(** The state of the ranks [ranks] for all parts of the first [n] buffers is that of [src]. *)
Definition restored (src ranks : list (dist_opt * store V)) (n : nat) : Prop :=
  forall r o st o' st' g bf i b p rs k, src !! r = Some (o, st) -> ranks !! r = Some (o', st') -> (g < n)%nat ->
    owns (Z.of_nat r) g bf i b p rs -> k ∈ state_keys ->
    state_value st' (shard_tensor at_ g p rs) k = state_value st (shard_tensor at_ g p rs) k.

Lemma load_buffer_ok src ranks (state : list (world_tensors V)) g bf wt : ready_world src -> ready_world ranks -> length src = length ranks -> buffers !! g = Some bf ->
  state !! g = Some wt -> holds_buffer src g bf wt -> restored src ranks g ->
  exists ranks', (recvs ← scatter_buffer ranks (Z.of_nat g) bf wt;
    mapR (fun '((o, st), recv_tensors) => match set_states at_ o recv_tensors st with (Ok _, st') => mret (o, st') | (Err e, _) => Err e end)
      (zip ranks recvs)) = Ok ranks' /\ map fst ranks' = map fst ranks /\ ready_world ranks' /\ restored src ranks' (S g).
Proof.
  intros RS RW Hls Hg Hst (w & -> & Hw & Hh) Hres.
  destruct (scatter_buffer_ok ranks g bf w RW Hg Hw) as (recvs & -> & Hlr & Hrec). cbn [mbind res_bind].
  match goal with |- context [mapR ?f ?l] => destruct (mapR_ix f (fun r x y => fst y = fst (fst x) /\ checkpoint_ready (Z.of_nat r) (snd y) /\
    forall g' bf' i b q qs k, owns (Z.of_nat r) g' bf' i b q qs -> k ∈ state_keys ->
      state_value (snd y) (shard_tensor at_ g' q qs) k = default (state_value (snd (fst x)) (shard_tensor at_ g' q qs) k) (received (snd x) q k)) l)
    as (ranks' & E' & Hl' & Hr') end.
  { intros r [[o st] d] Hx. apply lookup_zip_Some in Hx as [Ho Hd]. destruct (rw_rank _ RW r o st Ho) as (C & Ad & R).
    destruct (Hrec r d Hd) as [R1 R2 R3]. pose proof (rank_in_range _ _ _ _ RW Ho) as Hrr.
    destruct (set_states_ok (Z.of_nat r) Hrr o C Ad d st R R1) as (st' & E & R' & Hv).
    - intros p tens Hin. destruct (R2 p) as (i & b & rs & Hown); [apply list_elem_of_fmap; by exists (p, tens)|].
      exists g, bf, i, b, rs. split; [done|]. intros k Hk. pose proof (R3 k i b p rs (or_introl Hk) Hown) as Hrv. unfold received in Hrv.
      rewrite (dict_lookup_elem _ _ _ R1 Hin) in Hrv. cbn in Hrv. eexists. split; [exact Hrv|].
      destruct (lookup_lt_is_Some_2 src r) as [[o1 st1] Hs1]; [rewrite Hls; by eapply lookup_lt_Some|]. destruct (rw_rank _ RS r o1 st1 Hs1) as (_ & Ad1 & RR1).
      pose proof Hown as (_ & Hi & Hpm). rewrite (Hh i b Hi k r o1 st1 p rs Hk Hs1 Hpm).
      destruct (get_states_ok (Z.of_nat r) Hrr o1 st1 g bf i b p rs Ad1 RR1 Hown) as [_ HL]. by apply HL.
    - exists (o, st'). rewrite E. done. }
  rewrite length_zip_with, Hlr, Nat.min_id in Hl'. exists ranks'. split; [done|].
  assert (Hz : forall r o' st', ranks' !! r = Some (o', st') -> exists st d, ranks !! r = Some (o', st) /\ recvs !! r = Some d /\ checkpoint_ready (Z.of_nat r) st' /\
    forall g' bf' i b q qs k, owns (Z.of_nat r) g' bf' i b q qs -> k ∈ state_keys ->
      state_value st' (shard_tensor at_ g' q qs) k = default (state_value st (shard_tensor at_ g' q qs) k) (received d q k)).
  { intros r o' st' Hx. pose proof (lookup_lt_Some _ _ _ Hx) as Hlt. destruct (lookup_lt_is_Some_2 ranks r ltac:(lia)) as [[o st] Ho], (lookup_lt_is_Some_2 recvs r ltac:(lia)) as [d Hd].
    destruct (Hr' r (o, st, d) (o', st')) as (E1 & E2 & E3); [by apply lookup_zip_Some|done|]. cbn in E1, E2, E3. subst o'. eauto 10. }
  split; [|split; [split|]].
  - apply list_eq. intros r. change (map ?f ?l) with (f <$> l). rewrite !list_lookup_fmap. destruct (ranks' !! r) as [[o' st']|] eqn:Ex.
    + destruct (Hz r o' st' Ex) as (st & d & -> & _). done.
    + apply lookup_ge_None in Ex. rewrite (lookup_ge_None_2 ranks r) by lia. done.
  - rewrite Hl'. apply (rw_dp _ RW).
  - intros r o' st' Hx. destruct (Hz r o' st' Hx) as (st & d & Ho & _ & R & _). destruct (rw_rank _ RW r o' st Ho) as (C & Ad & _). done.
  - intros r o st o' st' g' bf' i b p rs k Hs Hx Hlt Hown Hk. destruct (Hz r o' st' Hx) as (st0 & d & Ho & Hd & _ & Hv). rewrite (Hv _ _ _ _ _ _ _ Hown Hk).
    destruct (Hrec r d Hd) as [R1 R2 R3]. pose proof (rank_in_range _ _ _ _ RW Ho) as Hrr. destruct (decide (g' = g)) as [->|Hne].
    + assert (bf' = bf) as -> by (destruct Hown as (Hg' & _); congruence). rewrite (R3 k i b p rs (or_introl Hk) Hown). cbn.
      pose proof Hown as (_ & Hi & Hpm). by apply (Hh i b Hi k r o).
    + rewrite received_none; [cbn; eapply Hres; [exact Hs|exact Ho|lia|exact Hown|exact Hk]|]. intros Hin. destruct (R2 p Hin) as (i2 & b2 & rs2 & Hown2).
      by destruct (owns_same buffers WB Hids _ Hrr _ _ _ _ _ _ _ _ _ _ _ _ Hown Hown2 eq_refl) as (-> & _).
Qed.

Lemma load_state_ok src ranks (state : list (world_tensors V)) : ready_world src -> ready_world ranks -> length src = length ranks ->
  (forall g bf, buffers !! g = Some bf -> exists wt, state !! g = Some wt /\ holds_buffer src g bf wt) ->
  exists ranks', load_parameter_state_from_dp_zero at_ buffers state ranks = Ok ranks' /\ map fst ranks' = map fst ranks /\
    ready_world ranks' /\ restored src ranks' (length buffers).
Proof.
  intros RS RW Hls Hstate. unfold load_parameter_state_from_dp_zero. match goal with |- context [foldR ?f _ _] => set (body := f) end.
  destruct (foldR_total body (fun seen rk => map fst rk = map fst ranks /\ ready_world rk /\ restored src rk (length seen)) ranks (enumerate buffers))
    as (ranks' & -> & H1 & H2 & H3).
  - split; [done|]. split; [done|]. intros r o st o' st' g bf i b p rs k _ _ Hlt. cbn in Hlt. lia.
  - intros seen [gi bf] rest rk E (H1 & H2 & H3).
    assert (Hb : enumerate buffers !! length seen = Some (gi, bf)) by (rewrite E; by apply list_lookup_middle).
    rewrite lookup_enumerate in Hb. destruct (buffers !! length seen) as [bf'|] eqn:Eb; [|done]. injection Hb as <- ->.
    destruct (Hstate _ bf Eb) as (wt & Hwt & Hh). unfold body. rewrite (py_get_nonneg _ _ _ Hwt). cbn [mbind res_bind].
    destruct (load_buffer_ok src rk state (length seen) bf wt) as (rk' & E' & Hf & Hr & Hres); try done.
    { rewrite Hls. apply (f_equal length) in H1. rewrite !length_map in H1. done. }
    exists rk'. split; [exact E'|]. rewrite length_app, Nat.add_1_r. split; [congruence|done].
  - exists ranks'. unfold enumerate in H3. rewrite length_imap in H3. done.
Qed.
End World.
