(* ===== verification/DistOptTheorems.v ===== *)
(** * What the distributed optimizer guarantees

    The theorems on the ranges of the ranks, the constructor, the checkpoint and the
    parameter update, for buffers as [_ParamAndGradBuffer] builds them, with concrete
    runs, and two inputs on which the checkpoint code goes wrong. *)

From S2P Require Import Prelude PyFloat GradBuffer GradBufferProofs DistOpt DistOptProofs DistOptInit DistOptCheckpoint.

(** Buffers that the wrapper builds for a distributed optimizer on [dp] ranks. *)
Definition built (dp : Z) (bf : buffer) : Prop := exists cfg pd gd params bsz scaling,
  acceptable cfg dp params /\ use_distributed_optimizer cfg = true /\ reuse_grad_buf_for_mxfp8_param_ag cfg = false /\
  buffer_init cfg pd gd params dp bsz scaling = Ok bf.

Lemma built_placed dp bf : built dp bf -> well_placed bf /\ bf_dp bf = dp.
Proof.
  intros (cfg & pd & gd & params & bsz & scaling & Ha & Hdo & Hre & Hok).
  destruct (buffer_well_placed cfg pd gd params dp bsz scaling bf Ha Hdo Hre Hok) as (W & Hd & _). done.
Qed.

Lemma all_placed dp buffers : Forall (built dp) buffers -> Forall well_placed buffers.
Proof. intros H. eapply Forall_impl; [exact H|]. intros bf Hb. by apply built_placed in Hb as [? _]. Qed.

(** A bucket of parameters with elements has elements. *)
Lemma unpadded_pos bf : well_placed bf -> Forall (fun p => 0 < p_numel p) (bf_params bf) -> Forall (fun b => 0 < b_numel_unpadded b) (bf_buckets bf).
Proof.
  intros W Hp. apply Forall_lookup. intros i b Hi. destruct (wp_used _ W i b Hi) as (p & s & e & Hin & Hm).
  destruct (wp_param _ W p Hin) as (s' & i' & b' & Hm' & Hi' & H1 & H2 & _). rewrite Hm in Hm'. injection Hm' as _ _ Hii. assert (i' = i) as -> by lia.
  rewrite Hi in Hi'. injection Hi' as <-. rewrite Forall_forall in Hp. specialize (Hp p Hin). cbn in Hp. lia.
Qed.

(** On a buffer built for a distributed optimizer every rank computes its ranges without
    error.  A parameter has ranges only in its own bucket, where the four ranges are the same part of it
    in four coordinates, inside the rank's shard of the bucket; and the parts of the ranks, one after the
    other, are exactly the elements of the parameter. *)
Theorem shard_ranges_spec dp bf : built dp bf -> exists param_map : Z -> nat -> param_dict param_ranges,
  (forall r i b, 0 <= r < dp -> bf_buckets bf !! i = Some b -> build_model_gbuf_range bf r (Z.of_nat i) = Ok (param_map r i)) /\
  forall p, p ∈ bf_params bf -> exists s i b,
    bf_index_map bf !! p_id p = Some (s, s + p_numel p, Z.of_nat i) /\ bf_buckets bf !! i = Some b /\
    concat (map (fun r => part_elements (param_map r i) p) (zrange 0 dp)) = zrange 0 (p_numel p) /\
    forall r j rs, 0 <= r < dp -> (p, rs) ∈ param_map r j -> j = i /\ ranges_at bf b r s p rs.
Proof.
  intros Hb. destruct (built_placed dp bf Hb) as [W Hdp].
  exists (fun r i => match bf_buckets bf !! i with Some b => rank_param_map bf b r | None => [] end). split.
  - intros r i b Hr Hi. rewrite Hi. apply build_model_gbuf_range_ok; [done..|]. by rewrite Hdp.
  - intros p Hp. destruct (owned_parts_tile bf W p Hp) as (s & i & b & Hm & Hi & _ & _ & Ht). rewrite Hdp in Ht.
    exists s, i, b. split; [done|]. split; [done|]. split; [by rewrite Hi|]. intros r j rs Hr Hin.
    destruct (bf_buckets bf !! j) as [b'|] eqn:Ej; [|by apply elem_of_nil in Hin].
    destruct (param_map_own bf W j b' r p rs Ej ltac:(by rewrite Hdp) Hin) as (_ & s' & Hm' & Hat).
    rewrite Hm in Hm'. injection Hm' as <- Hij. assert (j = i) as -> by lia. rewrite Hi in Ej. injection Ej as <-. done.
Qed.

(** The buffer of the four example parameters on three ranks. *)
Definition ex_bf : buffer :=
  match buffer_init distopt_cfg BFloat16 Float32 ex_params 3 (Some 200) f64_one with
  | Ok bf => bf
  | Err _ => mkBuffer distopt_cfg BFloat16 Float32 [] 3 f64_one 0 0 [] ∅ None [] ∅ ∅ ∅
  end.
Lemma ex_built : built 3 ex_bf.
Proof.
  exists distopt_cfg, BFloat16, Float32, ex_params, (Some 200), f64_one. split; [exact ex_acceptable|]. split; [done|]. split; [done|].
  unfold ex_bf. destruct (buffer_init_ok distopt_cfg BFloat16 Float32 ex_params 3 (Some 200) f64_one ex_acceptable) as (bf & -> & _). done.
Qed.

(** Parameter 2, of 300 elements at index 64, is spread over the three ranks. *)
Lemma shard_ranges_spec_witness : exists param_map : Z -> nat -> param_dict param_ranges,
  build_model_gbuf_range ex_bf 1 0 = Ok (param_map 1 0%nat) /\
  concat (map (fun r => part_elements (param_map r 0%nat) (mkParam 2 300 false false false true)) (zrange 0 3)) = zrange 0 300.
Proof.
  destruct (shard_ranges_spec 3 ex_bf ex_built) as (pm & H1 & H2). exists pm. split.
  - destruct (bf_buckets ex_bf !! 0%nat) as [b|] eqn:E; [|vm_compute in E; discriminate E]. exact (H1 1 0%nat b ltac:(lia) E).
  - destruct (H2 (mkParam 2 300 false false false true)) as (s & i & b & Hm & _ & Ht & _).
    + apply (bool_decide_unpack _). vm_compute. exact I.
    + assert (Hc : bf_index_map ex_bf !! 2 = Some (64, 364, 0)) by (vm_compute; reflexivity).
      cbn [p_id] in Hm. rewrite Hc in Hm. injection Hm as _ _ Hi. assert (i = 0%nat) as -> by lia. exact Ht.
Defined.

(* ================================================================== *)
(** ** The constructor                                                 *)
(* ================================================================== *)

Section Start.
Context {V : Type} `{!Values V} (at_ : attributes) (fp8_init : param -> list V).
Context (dp : Z) (buffers : list buffer) (param_groups : list (list param)) (cfg : optimizer_config).

(** What a run gives to the optimizers of all ranks. *)
Record run_config : Prop := {
  rc_built : Forall (built dp) buffers;
  rc_distinct : NoDup (map p_id (concat (map bf_params buffers)));
  rc_groups : groups_cover buffers at_ param_groups;
  rc_typed : typed at_ buffers;
  rc_fp8 : forall bf p, bf ∈ buffers -> p ∈ bf_params bf -> p_float8 p = true -> Z.of_nat (length (fp8_init p)) = p_numel p;
  rc_cfg : precision_aware cfg = false
}.

Lemma run_constructible r : run_config -> 0 <= r < dp -> constructible at_ fp8_init buffers param_groups cfg r.
Proof.
  intros [Hb Hd Hg Ht Hf Hc] Hr. split; try done; [by eapply all_placed|]. eapply Forall_impl; [exact Hb|].
  intros bf Hbf. destruct (built_placed dp bf Hbf) as [_ ->]. done.
Qed.

(** The parameters of the inner optimizer: the shard of every owned parameter, once. *)
Lemma inner_params r o : consistent at_ buffers r o -> exists ts, concat (do_params o) = map Some ts /\ NoDup (map t_param ts) /\
  (forall t, t ∈ ts -> exists g bf i b p rs, owns buffers r g bf i b p rs /\ t = shard_tensor at_ g p rs) /\
  forall g bf i b p rs, owns buffers r g bf i b p rs -> shard_tensor at_ g p rs ∈ ts.
Proof.
  intros C. set (pairs := float16_shards o ++ fp32_shards o).
  assert (Hpair : forall p t, (p, t) ∈ pairs -> exists g bf i b rs, owns buffers r g bf i b p rs /\ t = Some (shard_tensor at_ g p rs)).
  { intros p t [[_ Hx]%(cs_float16 _ _ _ _ C)|[_ Hx]%(cs_fp32 _ _ _ _ C)]%elem_of_app; done. }
  assert (Hts : exists ts, concat (do_params o) = map Some ts).
  { assert (Hall : Forall is_Some (concat (do_params o))).
    { rewrite (cs_params _ _ _ _ C). apply Forall_map, Forall_forall. intros [p t] Hin. destruct (Hpair p t Hin) as (g & bf & i & b & rs & _ & ->). cbn. eauto. }
    induction Hall as [|x l [t ->] _ [ts ->]]; [by exists []|]. by exists (t :: ts). }
  destruct Hts as (ts & Ets). exists ts. split; [done|]. split; [|split].
  - assert (Hperm : map t_param ts ≡ₚ map (fun x => p_id (fst x)) pairs).
    { assert (H : map (fun x => default 0 (t_param <$> x)) (concat (do_params o)) ≡ₚ map (fun x => default 0 (t_param <$> x)) (map snd pairs)) by (by rewrite (cs_params _ _ _ _ C)).
      rewrite Ets, !map_map in H. cbn in H. rewrite H. apply Permutation_refl', map_ext_in. intros [p t] Hin%list_elem_of_In.
      destruct (Hpair p t Hin) as (g & bf & i & b & rs & _ & ->). cbn. by rewrite t_param_shard. }
    rewrite Hperm. apply (cs_once _ _ _ _ C).
  - intros t Ht. assert (Hs' : Some t ∈ concat (do_params o)) by (rewrite Ets; apply list_elem_of_fmap; eauto).
    rewrite (cs_params _ _ _ _ C) in Hs'. apply list_elem_of_fmap in Hs' as ([p t'] & E & Hp). cbn in E. subst t'.
    destruct (Hpair p (Some t) Hp) as (g & bf & i & b & rs & Ho & [= ->]). eauto 10.
  - intros g bf i b p rs Ho. assert (Hp : (p, Some (shard_tensor at_ g p rs)) ∈ pairs).
    { apply elem_of_app. destruct (is16 at_ p) eqn:E16; [left; apply (cs_float16 _ _ _ _ C)|right; apply (cs_fp32 _ _ _ _ C)]; eauto 10. }
    assert (Hs' : Some (shard_tensor at_ g p rs) ∈ concat (do_params o)).
    { rewrite (cs_params _ _ _ _ C). apply list_elem_of_fmap. by exists (p, Some (shard_tensor at_ g p rs)). }
    rewrite Ets in Hs'. apply list_elem_of_fmap in Hs' as (t & [= ->] & Ht). done.
Qed.

(** The Adam moments of all shards are allocated. *)
Lemma init_state_ready r o st st' : run_config -> 0 <= r < dp -> consistent at_ buffers r o -> making at_ fp8_init buffers r (owned_params buffers r) st st' ->
  buffers_sized buffers st -> st_optim st = ∅ ->
  exists st2, init_state_fn o st' = (Ok tt, st2) /\ checkpoint_ready at_ buffers r st2 /\ st_data st2 = st_data st'.
Proof.
  intros RC Hr C Mk Hs Hopt. pose proof (run_constructible r RC Hr) as CB. destruct CB as [WB Hids Hrr GC Hty Hfp8 Hcfg].
  destruct (inner_params r o C) as (ts & Ets & Hnd & Hin & Hown).
  destruct (init_states_loop ts st') as (st2 & E & Hd & _ & Hv).
  { exact Hnd. }
  { intros t _. rewrite (mk_optim _ _ _ _ _ _ _ Mk), Hopt. apply lookup_empty. }
  exists st2. unfold init_state_fn. rewrite Ets. split; [exact E|]. split; [|done].
  assert (Hst : forall s, storage_values st2 s = storage_values st' s) by (intros s; unfold storage_values; by rewrite Hd).
  assert (Hsized : buffers_sized buffers st') by (by eapply making_sized).
  assert (Hmain : forall g bf i b p rs, owns buffers r g bf i b p rs -> is16 at_ p = true -> Z.of_nat (length (storage_values st' (MainData (p_id p)))) = r_size (param_range rs)).
  { intros g bf i b p rs Ho H16. rewrite (mk_main _ _ _ _ _ _ _ Mk g bf i b p rs Ho); [|apply elem_of_owned; eauto 10|done].
    by eapply length_init_values. }
  split.
  - intros g bf Hg. rewrite Hst. by apply Hsized.
  - intros g bf i b p rs Ho H16. rewrite Hst. by eapply Hmain.
  - intros g bf i b p rs Ho. pose proof (Hown g bf i b p rs Ho) as Ht.
    pose proof (Hv _ Ht) as Hvt. rewrite t_param_shard in Hvt. eexists _, _. split; [exact Hvt|]. rewrite length_replicate.
    assert (HL : Z.of_nat (length (tensor_values st' (shard_tensor at_ g p rs))) = r_size (param_range rs)); [|done].
    destruct (owns_bounds buffers WB r Hrr _ _ _ _ _ _ Ho) as (H1 & H2 & H3 & H4 & H5). unfold tensor_values, shard_tensor.
    destruct (is16 at_ p) eqn:E16; cbn; rewrite length_slice; try lia.
    + rewrite (Hmain _ _ _ _ _ _ Ho E16). lia.
    + rewrite (Hsized g bf (proj1 Ho)). lia.
Qed.

(** One rank makes its optimizer and initializes its state. *)
Definition start_rank (x : Z * store V) : res (dist_opt * store V) :=
  match (o ← dist_opt_init at_ fp8_init cfg (fst x) buffers param_groups; init_state_fn o ;; mret o) (snd x) with
  | (Ok o, st) => Ok (o, st)
  | (Err e, _) => Err e
  end.

Lemma start_world_ok sts : run_config -> homogeneous at_ param_groups -> Z.of_nat (length sts) = dp ->
  Forall (fun st => buffers_sized buffers st /\ st_optim st = ∅) sts ->
  exists ranks, mapR start_rank (enumerate sts) = Ok ranks /\ length ranks = length sts /\ ready_world at_ buffers ranks.
Proof.
  intros RC Hh Hl Hsts.
  destruct (mapR_ix start_rank (fun r x y => consistent at_ buffers (Z.of_nat r) (fst y) /\ addressed at_ buffers (Z.of_nat r) (fst y) /\
    checkpoint_ready at_ buffers (Z.of_nat r) (snd y)) (enumerate sts)) as (ranks & E & Hlr & Hr).
  { intros r [k st] Hx. rewrite lookup_enumerate in Hx. destruct (sts !! r) as [st0|] eqn:Er; [|done]. injection Hx as <- ->.
    rewrite Forall_lookup in Hsts. destruct (Hsts r st Er) as [Hs Ho]. assert (Hrr : 0 <= Z.of_nat r < dp) by (apply lookup_lt_Some in Er; lia).
    destruct (dist_opt_init_ok at_ fp8_init buffers param_groups cfg (Z.of_nat r) (run_constructible _ RC Hrr) st Hs) as (o & st' & E & C & _ & Mk & Ad).
    destruct (init_state_ready (Z.of_nat r) o st st' RC Hrr C Mk Hs Ho) as (st2 & E2 & R & _).
    exists (o, st2). unfold start_rank. cbn [fst snd]. rewrite (bind_step _ _ _ _ _ E), (bind_step _ _ _ _ _ E2). auto. }
  exists ranks. unfold enumerate in Hlr. rewrite length_imap in Hlr. split; [done|]. split; [done|]. split.
  - eapply Forall_impl; [apply (rc_built RC)|]. intros bf Hbf. destruct (built_placed dp bf Hbf) as [_ ->]. lia.
  - intros r o st Ho. assert (Hx : is_Some (enumerate sts !! r)). { apply lookup_lt_is_Some. unfold enumerate. rewrite length_imap, <- Hlr. by eapply lookup_lt_Some. }
    destruct Hx as [x Hx]. apply (Hr r x (o, st) Hx Ho).
Qed.
End Start.

(** (C36) The constructor of the distributed optimizer returns on every rank.  Its maps lead from every
    parameter that the rank owns to its bucket and ranges, its lists pair it with exactly one shard, which has
    the size of the rank's part; a shard of a 16-bit parameter starts with the values of the model, and a float32
    shard is a view of the parameter buffer.  When no group mixes 16-bit and float32 parameters, the inner
    optimizer finds the shard of every parameter. *)
Theorem dist_opt_init_spec {V} `{!Values V} at_ fp8_init dp buffers param_groups cfg r (st : store V) :
  run_config at_ fp8_init dp buffers param_groups cfg -> 0 <= r < dp -> buffers_sized buffers st ->
  exists o st', dist_opt_init at_ fp8_init cfg r buffers param_groups st = (Ok o, st') /\
    consistent at_ buffers r o /\ (homogeneous at_ param_groups -> addressed at_ buffers r o) /\
    (forall g, storage_values st' (ParamData g) = storage_values st (ParamData g)) /\
    forall g bf i b p rs, owns buffers r g bf i b p rs ->
      nelement (shard_tensor at_ g p rs) = r_size (param_range rs) /\
      tensor_values st' (shard_tensor at_ g p rs) =
        if is16 at_ p then init_values fp8_init st g p rs
        else py_slice (storage_values st (ParamData (Z.of_nat g))) (r_start (gbuf_world rs)) (r_end (gbuf_world rs)).
Proof.
  intros RC Hr Hs. pose proof (run_constructible at_ fp8_init dp buffers param_groups cfg r RC Hr) as CB.
  destruct (dist_opt_init_ok at_ fp8_init buffers param_groups cfg r CB st Hs) as (o & st' & E & C & _ & Mk & Ad).
  destruct CB as [WB Hids Hrr GC Hty Hfp8 Hcfg]. exists o, st'. split; [done|]. split; [done|]. split; [done|]. split; [apply (mk_params _ _ _ _ _ _ _ Mk)|].
  intros g bf i b p rs Ho. pose proof (length_init_values fp8_init buffers WB r Hrr Hfp8 st g bf i b p rs Hs Ho) as HL.
  destruct (owns_bounds buffers WB r Hrr _ _ _ _ _ _ Ho) as (H1 & H2 & H3 & H4 & H5). unfold nelement, shard_tensor, tensor_values.
  destruct (is16 at_ p) eqn:E16; cbn; (split; [lia|]).
  - rewrite (mk_main _ _ _ _ _ _ _ Mk g bf i b p rs Ho); [|apply elem_of_owned; eauto 10|done]. rewrite <- HL. unfold py_slice. cbn.
    apply take_ge. lia.
  - by rewrite (mk_params _ _ _ _ _ _ _ Mk).
Qed.

(** Integers as values, for concrete runs. *)
#[local] Instance Z_values : Values Z := {| v_zero := 0; v_round := fun _ v => v |}.
#[local] Instance Z_values_laws : ValuesLaws Z.
Proof. by split. Qed.

Definition bf16_attributes : attributes := mkAttributes (fun _ => BFloat16Tensor) (fun _ => true).
Definition ex_store : store Z := mkStore {[ParamData 0 := zrange 0 1152]} ∅ ∅ ∅ ∅.
Definition ex_cfg : optimizer_config := mkOptCfg false false.

Lemma ex_run : run_config bf16_attributes (fun _ => @nil Z) 3 [ex_bf] [ex_params] ex_cfg.
Proof.
  assert (Hp : bf_params ex_bf = ex_params) by (vm_compute; reflexivity). split.
  - constructor; [exact ex_built|constructor].
  - cbn [map concat]. rewrite Hp. apply (bool_decide_unpack _). vm_compute. exact I.
  - split; [apply (bool_decide_unpack _); vm_compute; exact I|done|]. intros bf p ->%list_elem_of_singleton. rewrite Hp. cbn [concat]. by rewrite app_nil_r.
  - intros bf p ->%list_elem_of_singleton _. rewrite decide_False; [done|]. vm_compute. discriminate.
  - intros bf p ->%list_elem_of_singleton Hin Hf. exfalso. rewrite Hp in Hin.
    repeat (apply elem_of_cons in Hin as [->|Hin]; [discriminate Hf|]). by apply elem_of_nil in Hin.
  - done.
Qed.

Lemma ex_sized : buffers_sized [ex_bf] ex_store.
Proof. intros [|g] bf Hg; [|done]. change (Some ex_bf = Some bf) in Hg. apply (inj Some) in Hg as <-. vm_compute. reflexivity. Qed.

(** On rank 1 of three the optimizer owns 128 elements of parameter 2. *)
Lemma dist_opt_init_spec_witness : exists o st',
  dist_opt_init bf16_attributes (fun _ => @nil Z) ex_cfg 1 [ex_bf] [ex_params] ex_store = (Ok o, st') /\
  consistent bf16_attributes [ex_bf] 1 o /\ addressed bf16_attributes [ex_bf] 1 o.
Proof.
  destruct (dist_opt_init_spec bf16_attributes (fun _ => @nil Z) 3 [ex_bf] [ex_params] ex_cfg 1 ex_store ex_run ltac:(lia) ex_sized)
    as (o & st' & E & C & Ad & _). exists o, st'. split; [exact E|]. split; [exact C|]. apply Ad. constructor; [done|constructor].
Defined.

(* ================================================================== *)
(** ** The checkpoint                                                  *)
(* ================================================================== *)

(** (C4) Saving and loading are inverse: for ranks with consistent optimizers whose inner optimizer has the state of
    Adam, [get_parameter_state_dp_zero] returns, and loading its result into ranks with the same optimizers but
    any other values succeeds and gives every rank back the main parameter and both moments of every part it owns. *)
Theorem checkpoint_roundtrip {V} `{!Values V, !ValuesLaws V} at_ dp buffers (src dst : list (dist_opt * store V)) :
  Forall (built dp) buffers -> NoDup (map p_id (concat (map bf_params buffers))) -> typed at_ buffers ->
  Forall (fun bf => Forall (fun p => 0 < p_numel p) (bf_params bf)) buffers ->
  ready_world at_ buffers src -> ready_world at_ buffers dst -> map fst src = map fst dst ->
  exists state loaded, get_parameter_state_dp_zero buffers src = Ok state /\
    load_parameter_state_from_dp_zero at_ buffers state dst = Ok loaded /\ map fst loaded = map fst src /\
    forall r o st st' p, src !! r = Some (o, st) -> loaded !! r = Some (o, st') -> p ∈ owned_params buffers (Z.of_nat r) ->
      exists d, get_main_param_and_optimizer_states o p st' = Ok d /\ get_main_param_and_optimizer_states o p st = Ok d.
Proof.
  intros Hb Hids Hty Hpos RS RD Ef. pose proof (all_placed dp buffers Hb) as WB.
  assert (Hl : length src = length dst) by (apply (f_equal length) in Ef; by rewrite !length_map in Ef).
  assert (Hup : Forall (fun bf => Forall (fun b => 0 < b_numel_unpadded b) (bf_buckets bf)) buffers).
  { apply Forall_forall. intros bf Hbf. rewrite Forall_forall in WB, Hpos. apply unpadded_pos; auto. }
  destruct (get_state_ok at_ buffers WB src RS) as (state & Es & Hst).
  destruct (load_state_ok at_ buffers WB Hids Hty Hup src dst state RS RD Hl Hst) as (loaded & El & Efl & RL & Hres).
  exists state, loaded. split; [done|]. split; [done|]. split; [congruence|]. intros r o st st' p Hs Hd Hp.
  apply elem_of_owned in Hp as (g & bf & i & b & rs & Ho). destruct (rw_rank _ _ _ RS r o st Hs) as (_ & Ad & R), (rw_rank _ _ _ RL r o st' Hd) as (_ & Ad' & R').
  pose proof (rank_in_range _ _ _ _ _ _ RS Hs) as Hrr.
  destruct (get_states_ok at_ buffers WB (Z.of_nat r) Hrr o st g bf i b p rs Ad R Ho) as [-> _].
  destruct (get_states_ok at_ buffers WB (Z.of_nat r) Hrr o st' g bf i b p rs Ad' R' Ho) as [-> _]. eexists. split; [reflexivity|].
  f_equal. apply map_ext_in. intros k Hk%list_elem_of_In. f_equal. symmetry. eapply Hres; [exact Hs|exact Hd| |exact Ho|exact Hk].
  destruct Ho as (Hg & _). by eapply lookup_lt_Some.
Qed.

(** The ranks after the constructor, and the same with other parameter values. *)
Definition ex_start : store Z -> list (Z * store Z) := fun st => enumerate [st; st; st].
Definition other_store : store Z := mkStore {[ParamData 0 := map (fun x => 7 * x + 1) (zrange 0 1152)]} ∅ ∅ ∅ ∅.

Lemma other_sized : buffers_sized [ex_bf] other_store.
Proof. intros [|g] bf Hg; [|done]. change (Some ex_bf = Some bf) in Hg. apply (inj Some) in Hg as <-. vm_compute. reflexivity. Qed.

Lemma checkpoint_roundtrip_witness : exists src dst state loaded,
  mapR (start_rank bf16_attributes (fun _ => []) [ex_bf] [ex_params] ex_cfg) (ex_start ex_store) = Ok src /\
  mapR (start_rank bf16_attributes (fun _ => []) [ex_bf] [ex_params] ex_cfg) (ex_start other_store) = Ok dst /\
  get_parameter_state_dp_zero [ex_bf] src = Ok state /\
  load_parameter_state_from_dp_zero bf16_attributes [ex_bf] state dst = Ok loaded.
Proof.
  destruct (start_world_ok bf16_attributes (fun _ => []) 3 [ex_bf] [ex_params] ex_cfg [ex_store; ex_store; ex_store] ex_run) as (src & E1 & L1 & R1);
    [constructor; [done|constructor]|done|repeat constructor; exact ex_sized|].
  destruct (start_world_ok bf16_attributes (fun _ => []) 3 [ex_bf] [ex_params] ex_cfg [other_store; other_store; other_store] ex_run) as (dst & E2 & L2 & R2);
    [constructor; [done|constructor]|done|repeat constructor; exact other_sized|].
  assert (Ef : map fst src = map fst dst).
  { assert (H1 : (map fst <$> mapR (start_rank bf16_attributes (fun _ => []) [ex_bf] [ex_params] ex_cfg) (ex_start ex_store)) =
      (map fst <$> mapR (start_rank bf16_attributes (fun _ => []) [ex_bf] [ex_params] ex_cfg) (ex_start other_store))) by (vm_compute; reflexivity).
    unfold ex_start in H1. rewrite E1, E2 in H1. cbn [fmap res_fmap] in H1. by injection H1. }
  assert (Hp : bf_params ex_bf = ex_params) by (vm_compute; reflexivity).
  destruct (checkpoint_roundtrip bf16_attributes 3 [ex_bf] src dst) as (state & loaded & H1 & H2 & _).
  - constructor; [exact ex_built|constructor].
  - apply (rc_distinct _ _ _ _ _ _ ex_run).
  - apply (rc_typed _ _ _ _ _ _ ex_run).
  - constructor; [|constructor]. rewrite Hp. repeat constructor.
  - exact R1.
  - exact R2.
  - exact Ef.
  - exists src, dst, state, loaded. split; [exact E1|]. split; [exact E2|]. split; assumption.
Defined.

(** *** Where the checkpoint goes wrong *)

(** A buffer of one bfloat16 parameter and a buffer of one float32 parameter, in one optimizer group. *)
Definition half_param : param := mkParam 0 100 false false false true.
Definition full_param : param := mkParam 1 70 false false false true.
Definition mixed_attributes : attributes := mkAttributes (fun p => if p =? 0 then BFloat16Tensor else FloatTensor) (fun _ => true).
Definition mixed_run : res (res tensor * res (list (world_tensors Z))) :=
  b1 ← buffer_init distopt_cfg BFloat16 Float32 [half_param] 1 None f64_one;
  b2 ← buffer_init distopt_cfg Float32 Float32 [full_param] 1 None f64_one;
  rank ← start_rank mixed_attributes (fun _ => []) [b1; b2] [[half_param; full_param]] ex_cfg
           (0, mkStore {[ParamData 0 := replicate 128 1; ParamData 1 := replicate 128 2]} ∅ ∅ ∅ ∅);
  mret (optimizer_shard (fst rank) half_param, get_parameter_state_dp_zero [b1; b2] [rank]).

(** In a group that mixes 16-bit and float32 parameters the orders of [model_param_group_index_map] and of the
    inner optimizer's parameters differ: the shard looked up for the bfloat16 parameter 0 is the view of the float32
    parameter 1, and saving the parameter state of the optimizer raises. *)
Theorem mixed_group_misaddressed : exists e,
  mixed_run = Ok (Ok (mkTensor 1 (ParamData 1) 0 70), Err e) /\ exn_class e = RuntimeError.
Proof. eexists. split; [vm_compute; reflexivity|reflexivity]. Qed.

(** The state of torch's own Adam has a third tensor, the step. *)
Definition with_steps (rank : dist_opt * store Z) : dist_opt * store Z :=
  let '(o, st) := rank in
  (o, mkStore (st_data st) ((fun d => ("step", [1]) :: d) <$> st_optim st) (st_main_param st) (st_grad st) (st_decoupled_grad st)).
Definition torch_adam_run : res (bool * res (list (dist_opt * store Z))) :=
  ranks ← mapR (start_rank bf16_attributes (fun _ => []) [ex_bf] [ex_params] ex_cfg) (ex_start ex_store);
  let ranks := map with_steps ranks in
  state ← get_parameter_state_dp_zero [ex_bf] ranks;
  mret (true, load_parameter_state_from_dp_zero bf16_attributes [ex_bf] state ranks).

(** With torch's Adam, which keeps a tensor [step] in its state, the parameter state can be saved but not loaded:
    [_set_main_param_and_optimizer_states] asks the loaded tensors for the key [step], which the format does not have. *)
Theorem step_state_not_loadable : exists e, torch_adam_run = Ok (true, Err e) /\ exn_class e = KeyError.
Proof. eexists. split; [vm_compute; reflexivity|reflexivity]. Qed.
