(* ===== verification/DistOptUpdate.v ===== *)
(** * The parameter update of the distributed optimizer

    What happens around the step of the inner optimizer: every shard gets the gradient
    of exactly its elements, the updated main parameters are copied to the rank's shard of
    the parameter buffer, and the all-gather that follows gives every rank each parameter
    whole, put together from the main shards of all ranks. *)

From S2P Require Import Prelude PyFloat GradBuffer GradBufferProofs DistOpt DistOptProofs DistOptInit DistOptCheckpoint DistOptTheorems.

(** A slice as the elements at its indices. *)
Lemma slice_omap {V} (l : list V) a b : 0 <= a -> b <= Z.of_nat (length l) -> py_slice l a b = omap (fun x => l !! Z.to_nat x) (zrange a b).
Proof.
  intros Ha Hb. destruct (Z.le_gt_cases b a) as [Hle|Hlt].
  { rewrite zrange_nil by lia. unfold py_slice. by replace (Z.to_nat (b - a)) with 0%nat by lia. }
  remember (Z.to_nat (b - a)) as n eqn:En. revert a Ha Hlt En. induction n as [|n IH]; intros a Ha Hlt En; [lia|].
  rewrite zrange_cons by lia. cbn. destruct (lookup_lt_is_Some_2 l (Z.to_nat a)) as [x Hx]; [lia|]. rewrite Hx.
  assert (Hs : py_slice l a b = x :: py_slice l (a + 1) b).
  { unfold py_slice. rewrite (drop_S l x (Z.to_nat a) Hx). replace (Z.to_nat (b - a)) with (S (Z.to_nat (b - (a + 1)))) by lia.
    cbn. by replace (S (Z.to_nat a)) with (Z.to_nat (a + 1)) by lia. }
  rewrite Hs. f_equal. destruct (Z.eq_dec (a + 1) b) as [<-|Hne]; [|apply IH; lia].
  rewrite zrange_nil by lia. unfold py_slice. by rewrite Z.sub_diag.
Qed.
Lemma omap_concat {A B} (f : A -> option B) ls : omap f (concat ls) = concat (map (omap f) ls).
Proof. induction ls as [|l ls IH]; cbn; [done|]. by rewrite omap_app, IH. Qed.
Lemma omap_shift {B} (f : Z -> option B) c a b : omap (fun x => f (c + x)) (zrange a b) = omap f (zrange (c + a) (c + b)).
Proof.
  destruct (Z.le_gt_cases b a) as [Hle|Hlt]; [by rewrite !zrange_nil by lia|]. remember (Z.to_nat (b - a)) as n eqn:En. revert a Hlt En.
  induction n as [|n IH]; intros a Hlt En; [lia|]. rewrite (zrange_cons a), (zrange_cons (c + a)) by lia. cbn.
  assert (Htl : omap (fun x => f (c + x)) (zrange (a + 1) b) = omap f (zrange (c + a + 1) (c + b))).
  { rewrite <- Z.add_assoc. destruct (Z.eq_dec (a + 1) b) as [<-|Hne]; [by rewrite !zrange_nil by lia|apply IH; lia]. }
  by rewrite Htl.
Qed.

Section Update.
Context {V : Type} `{!Values V, !ValuesLaws V} (at_ : attributes).
Context (buffers : list buffer) (WB : Forall well_placed buffers).
Context (Hids : NoDup (map p_id (concat (map bf_params buffers)))).
Context (Htyped : typed at_ buffers).
Context (Hplain : forall bf p, bf ∈ buffers -> p ∈ bf_params bf -> p_float8 p = false).

Section OneRank.
Context (r : Z) (Hr : Forall (fun bf => 0 <= r < bf_dp bf) buffers) (o : dist_opt) (C : consistent at_ buffers r o).
Local Notation owns := (owns buffers r).

(** The pairs that the copies run over. *)
Definition shard_pair (x : param * option tensor) : Prop :=
  exists g bf i b rs, owns g bf i b (fst x) rs /\ snd x = Some (shard_tensor at_ g (fst x) rs).

Lemma all_pairs : Forall shard_pair (float16_shards o ++ fp32_shards o).
Proof.
  apply Forall_forall. intros [p t] [[_ H]%(cs_float16 _ _ _ _ C)|[_ H]%(cs_fp32 _ _ _ _ C)]%elem_of_app; exact H.
Qed.
Lemma owned_paired g bf i b p rs : owns g bf i b p rs -> (p, Some (shard_tensor at_ g p rs)) ∈ float16_shards o ++ fp32_shards o.
Proof.
  intros Ho. apply elem_of_app. destruct (is16 at_ p) eqn:E16; [left; apply (cs_float16 _ _ _ _ C)|right; apply (cs_fp32 _ _ _ _ C)]; eauto 10.
Qed.
Lemma nelement_shard g bf i b p rs : owns g bf i b p rs -> nelement (shard_tensor at_ g p rs) = r_size (param_range rs).
Proof.
  intros Ho. destruct (owns_bounds buffers WB r Hr _ _ _ _ _ _ Ho) as (_ & _ & _ & _ & H5). unfold nelement, shard_tensor. destruct (is16 at_ p); cbn; lia.
Qed.

(** *** Gradients *)

Lemma main_grad_slice g bf i b p rs : owns g bf i b p rs -> exists t, main_grad_tensor o p = Ok t /\
  slice_tensor t (param_range rs) = mkTensor (p_id p) (GradData (Z.of_nat g)) (r_start (gbuf_world rs)) (r_end (gbuf_world rs)).
Proof.
  intros Ho. destruct (cs_map _ _ _ _ C _ _ _ _ _ _ Ho) as [_ Hm]. pose proof (cs_buffers _ _ _ _ C) as Hb.
  destruct (owns_facts _ WB r Hr _ _ _ _ _ _ Ho) as (W & _ & Hp & s & Hi & H1 & H2 & H3 & H4 & H5 & _ & _ & Hpr).
  destruct (wp_param _ W p Hp) as (s' & i' & b' & Hm' & _ & _ & _ & _ & Hg'). rewrite Hi in Hm'. injection Hm' as <- _.
  unfold main_grad_tensor. rewrite Hm, Hb. cbn [default fmap option_fmap option_map from_option id]. rewrite Nat2Z.id, (proj1 Ho). cbn. rewrite Hg'.
  eexists. split; [reflexivity|]. unfold slice_tensor. cbn. rewrite Hpr. cbn. f_equal; lia.
Qed.

(** The gradients of the buffers are allocated. *)
Definition grads_sized (st : store V) : Prop := forall g bf, buffers !! g = Some bf ->
  Z.of_nat (length (storage_values st (GradData (Z.of_nat g)))) = bf_numel bf.

(** The gradient of the shard of [p]: a view of the gradient buffer when that is float32, a copy otherwise. *)
Definition grad_tensor (g : nat) (bf : buffer) (p : param) (rs : param_ranges) : tensor :=
  if decide (bf_grad_dtype bf = Float32) then mkTensor (p_id p) (GradData (Z.of_nat g)) (r_start (gbuf_world rs)) (r_end (gbuf_world rs))
  else mkTensor (p_id p) (MainGrad (p_id p)) 0 (r_size (param_range rs)).

(** What the buffer has for it. *)
Definition grad_part (st : store V) (g : nat) (rs : param_ranges) : list V :=
  py_slice (storage_values st (GradData (Z.of_nat g))) (r_start (gbuf_world rs)) (r_end (gbuf_world rs)).

(** Storages that no gradient copy uses. *)
Definition other_storage (s : storage) : Prop := match s with MainGrad _ => False | _ => True end.

Lemma length_grad_part st g bf i b p rs : grads_sized st -> owns g bf i b p rs -> Z.of_nat (length (grad_part st g rs)) = r_size (param_range rs).
Proof.
  intros Hs Ho. destruct (owns_bounds buffers WB r Hr _ _ _ _ _ _ Ho) as (H1 & H2 & H3 & H4 & H5). unfold grad_part.
  pose proof (Hs g bf (proj1 Ho)). rewrite length_slice; lia.
Qed.

Lemma float_ok st g bf i b p rs : grads_sized st -> owns g bf i b p rs -> exists st',
  float_ at_ buffers (mkTensor (p_id p) (GradData (Z.of_nat g)) (r_start (gbuf_world rs)) (r_end (gbuf_world rs))) st = (Ok (grad_tensor g bf p rs), st') /\
  st_optim st' = st_optim st /\ st_grad st' = st_grad st /\ (forall s, s <> MainGrad (p_id p) -> storage_values st' s = storage_values st s) /\
  tensor_values st' (grad_tensor g bf p rs) = grad_part st g rs.
Proof.
  intros Hs Ho. pose proof (length_grad_part st g bf i b p rs Hs Ho) as HL. unfold float_, grad_tensor. cbn [t_storage storage_dtype].
  rewrite Nat2Z.id, (proj1 Ho). cbn [fmap option_fmap option_map default from_option id].
  destruct (decide (bf_grad_dtype bf = Float32)); [by exists st|]. rewrite (bind_step _ _ st st st) by done.
  exists (set_storage (MainGrad (p_id p)) (grad_part st g rs) st). split.
  - rewrite <- HL. reflexivity.
  - split; [done|]. split; [done|]. split; [intros s Hne; by rewrite storage_set_ne by done|]. unfold tensor_values. cbn [t_storage t_start t_end t_param].
    rewrite storage_set_eq. generalize (grad_part st g rs) HL. intros l Hl. unfold py_slice. cbn [Z.to_nat drop]. rewrite Z.sub_0_r, <- Hl, Nat2Z.id. apply take_ge. lia.
Qed.

Lemma grad_part_ext (st st' : store V) g rs : (forall s, other_storage s -> storage_values st' s = storage_values st s) -> grad_part st' g rs = grad_part st g rs.
Proof. intros H. unfold grad_part. by rewrite H. Qed.

(** A gradient is not changed by what is done to the copies of others. *)
Lemma grad_tensor_values (st st' : store V) g bf p rs : (forall s, other_storage s \/ s = MainGrad (p_id p) -> storage_values st' s = storage_values st s) ->
  tensor_values st' (grad_tensor g bf p rs) = tensor_values st (grad_tensor g bf p rs).
Proof. intros H. unfold tensor_values, grad_tensor. destruct (decide _); cbn; rewrite H; auto; by left. Qed.

Lemma copy_grads_ok pairs (st : store V) : grads_sized st -> Forall shard_pair pairs -> NoDup (map (fun x => p_id (fst x)) pairs) ->
  exists st', copy_group_grads at_ o pairs st = (Ok tt, st') /\ st_optim st' = st_optim st /\
    (forall s, other_storage s -> storage_values st' s = storage_values st s) /\
    (forall k, k ∉ map (fun x => p_id (fst x)) pairs -> st_grad st' !! k = st_grad st !! k /\ storage_values st' (MainGrad k) = storage_values st (MainGrad k)) /\
    forall g bf i b p rs, owns g bf i b p rs -> p_id p ∈ map (fun x => p_id (fst x)) pairs ->
      st_grad st' !! p_id p = Some (grad_tensor g bf p rs) /\ tensor_values st' (grad_tensor g bf p rs) = grad_part st g rs.
Proof.
  intros Hs Hf. revert st Hs. unfold copy_group_grads. induction Hf as [|[p t] pairs (g & bf & i & b & rs & Ho & Et) _ IH]; intros st Hs Hnd.
  - exists st. split_and!; try done. intros g bf i b p rs _ Hp. by apply elem_of_nil in Hp.
  - cbn in Ho, Et. subst t. inversion Hnd as [|? ? Hp Hnd']; subst. cbn [fst] in Hp. destruct (cs_map _ _ _ _ C _ _ _ _ _ _ Ho) as [Hrs _].
    destruct (main_grad_slice _ _ _ _ _ _ Ho) as (t & Et & Hsl). destruct (float_ok st g bf i b p rs Hs Ho) as (st0 & E0 & O0 & G0 & S0 & V0). cbn [iterM].
    set (st1 := set_grad (p_id p) (grad_tensor g bf p rs) st0).
    assert (S1 : forall s, s <> MainGrad (p_id p) -> storage_values st1 s = storage_values st s) by (intros s Hne; by apply S0).
    assert (S1' : forall s, other_storage s -> storage_values st1 s = storage_values st s) by (intros s Hne; apply S1; by intros ->).
    rewrite (bind_step _ _ st tt st1).
    2: { rewrite (bind_step _ _ st rs st) by (unfold liftM; by rewrite Hrs). rewrite (bind_step _ _ st (shard_tensor at_ g p rs) st) by done.
         rewrite (bind_step _ _ st tt st) by (unfold assertM, liftM, assert_; by rewrite (nelement_shard _ _ _ _ _ _ Ho), Z.eqb_refl).
         rewrite (bind_step _ _ st t st) by (unfold liftM; by rewrite Et). rewrite (cs_cfg _ _ _ _ C), (cs_buffers _ _ _ _ C), Hsl, (bind_step _ _ _ _ _ E0), t_param_shard. done. }
    destruct (IH st1) as (st' & E & Hopt & Hst & Hk & Hv); [intros g' bf' Hg'; rewrite S1' by done; by apply Hs|done|].
    exists st'. split; [exact E|]. split; [by rewrite Hopt|]. split; [intros s Hs'; rewrite Hst by done; by apply S1'|]. split.
    + intros k [Hk1 Hk2]%not_elem_of_cons. cbn [fst] in Hk1. destruct (Hk k Hk2) as [-> ->]. cbn. rewrite lookup_insert_ne by done. split; [by rewrite G0|].
      apply S1. intros [= E']. done.
    + intros g' bf' i' b' q qs Hq Hin. cbn [map fst] in Hin. destruct (decide (p_id q = p_id p)) as [Eid|Hne].
      * destruct (owns_same buffers WB Hids _ Hr _ _ _ _ _ _ _ _ _ _ _ _ Hq Ho Eid) as (-> & -> & _ & _ & -> & ->).
        destruct (Hk _ Hp) as [-> Hm]. cbn. rewrite lookup_insert_eq. split; [done|]. rewrite <- V0. apply grad_tensor_values. intros s [Hs'| ->]; [by apply Hst|done].
      * apply elem_of_cons in Hin as [Hin|Hin]; [done|]. destruct (Hv g' bf' i' b' q qs Hq Hin) as [-> ->]. split; [done|]. by apply grad_part_ext.
Qed.

Lemma copy_model_grads_ok (st : store V) : grads_sized st -> exists st', copy_model_grads_to_main_grads at_ o st = (Ok tt, st') /\ st_optim st' = st_optim st /\
  (forall s, other_storage s -> storage_values st' s = storage_values st s) /\
  forall g bf i b p rs, owns g bf i b p rs ->
    st_grad st' !! p_id p = Some (grad_tensor g bf p rs) /\ tensor_values st' (grad_tensor g bf p rs) = grad_part st g rs.
Proof.
  intros Hs. destruct (copy_grads_ok (float16_shards o ++ fp32_shards o) st Hs all_pairs (cs_once _ _ _ _ C)) as (st' & E & H1 & H2 & _ & H3).
  exists st'. split; [|split; [done|split; [done|]]].
  - unfold copy_model_grads_to_main_grads. rewrite (cs_cfg _ _ _ _ C). rewrite <- E. unfold copy_group_grads. by rewrite iterM_app.
  - intros g bf i b p rs Ho. apply (H3 g bf i b p rs Ho). apply list_elem_of_fmap. eexists. split; [|by eapply owned_paired]. done.
Qed.

(** *** Parameters *)

Lemma bucket_shard_ok g bf i b p rs : owns g bf i b p rs -> bucket_param_shard o p (gbuf_world_in_bucket rs) =
  Ok (mkTensor (p_id p) (ParamData (Z.of_nat g)) (r_start (gbuf_world rs)) (r_end (gbuf_world rs))).
Proof.
  intros Ho. destruct (cs_map _ _ _ _ C _ _ _ _ _ _ Ho) as [_ Hm]. pose proof (cs_buffers _ _ _ _ C) as Hb.
  destruct (owns_facts _ WB r Hr _ _ _ _ _ _ Ho) as (W & Hrb & Hp & s & Hi & H1 & H2 & H3 & H4 & H5 & Hib & _ & _). pose proof Ho as (Hg & Hbk & _).
  destruct (wp_bucket _ W i b Hbk) as (Hoff & _ & _ & Hpd). destruct (shard_size_ok bf W i b Hbk) as (Hsz & Hmul & _).
  unfold bucket_param_shard. rewrite Hm, Hb, (py_get_nonneg _ _ _ Hg). cbn [mbind res_bind]. rewrite (py_get_nonneg _ _ _ Hbk). cbn [mbind res_bind].
  rewrite Hpd. unfold slice_tensor, mret, res_ret. do 2 f_equal; rewrite Hib; cbn; unfold shard_range, view_numel in *; cbn in *; nia.
Qed.

(** The state while main parameters are copied to the buffer. *)
Record copying (seen : list Z) (st0 st : store V) : Prop := {
  cp_optim : st_optim st = st_optim st0;
  cp_size : forall s, length (storage_values st s) = length (storage_values st0 s);
  cp_main : forall id, storage_values st (MainData id) = storage_values st0 (MainData id);
  cp_value : forall g bf i b p rs, owns g bf i b p rs ->
    py_slice (storage_values st (ParamData (Z.of_nat g))) (r_start (gbuf_world rs)) (r_end (gbuf_world rs)) =
    if decide (p_id p ∈ seen) then map (v_round (bf_param_dtype bf)) (tensor_values st0 (shard_tensor at_ g p rs))
    else py_slice (storage_values st0 (ParamData (Z.of_nat g))) (r_start (gbuf_world rs)) (r_end (gbuf_world rs));
  cp_rest : forall g c d, 0 <= c -> (forall bf i b p rs, owns g bf i b p rs -> d <= r_start (gbuf_world rs) \/ r_end (gbuf_world rs) <= c) ->
    py_slice (storage_values st (ParamData (Z.of_nat g))) c d = py_slice (storage_values st0 (ParamData (Z.of_nat g))) c d
}.

(** World ranges of different parameters do not overlap. *)
Lemma world_apart g bf i b p rs bf' i' b' q qs : owns g bf i b p rs -> owns g bf' i' b' q qs -> p_id p <> p_id q ->
  r_end (gbuf_world rs) <= r_start (gbuf_world qs) \/ r_end (gbuf_world qs) <= r_start (gbuf_world rs).
Proof.
  intros Hp Hq Hne. destruct (owns_facts _ WB r Hr _ _ _ _ _ _ Hp) as (W & _ & Hin & s & Hm & H1 & H2 & H3 & _).
  destruct (owns_facts _ WB r Hr _ _ _ _ _ _ Hq) as (_ & _ & Hin' & s' & Hm' & K1 & K2 & K3 & _).
  assert (bf' = bf) as -> by (destruct Hp as (Hp & _), Hq as (Hq & _); congruence).
  pose proof (wp_apart _ W p q _ _ _ _ _ _ Hin Hin' ltac:(congruence) Hm Hm'). lia.
Qed.

Lemma copying_shard seen st0 st g bf i b p rs : copying seen st0 st -> owns g bf i b p rs -> p_id p ∉ seen ->
  tensor_values st (shard_tensor at_ g p rs) = tensor_values st0 (shard_tensor at_ g p rs).
Proof.
  intros Cp Ho Hn. pose proof (cp_value _ _ _ Cp _ _ _ _ _ _ Ho) as Hv. rewrite decide_False in Hv by done.
  unfold tensor_values, shard_tensor. destruct (is16 at_ p); cbn; [by rewrite (cp_main _ _ _ Cp)|exact Hv].
Qed.

Lemma copying_step seen st0 st g bf i b p rs : checkpoint_ready at_ buffers r st0 -> copying seen st0 st -> owns g bf i b p rs -> p_id p ∉ seen ->
  exists st', copy_ at_ buffers (mkTensor (p_id p) (ParamData (Z.of_nat g)) (r_start (gbuf_world rs)) (r_end (gbuf_world rs)))
      (tensor_values st (shard_tensor at_ g p rs)) st = (Ok tt, st') /\ copying (seen ++ [p_id p]) st0 st'.
Proof.
  intros R Cp Ho Hn. destruct (owns_bounds buffers WB r Hr _ _ _ _ _ _ Ho) as (B1 & B2 & B3 & B4 & B5).
  pose proof (shard_values_length at_ buffers WB r Hr st0 g bf i b p rs R Ho) as HL. rewrite (copying_shard seen st0 st g bf i b p rs Cp Ho Hn).
  assert (HB : Z.of_nat (length (storage_values st (ParamData (Z.of_nat g)))) = bf_numel bf).
  { rewrite (cp_size _ _ _ Cp). apply (cr_buffers _ _ _ _ R), (proj1 Ho). }
  set (vs := tensor_values st0 (shard_tensor at_ g p rs)) in *. unfold copy_.
  rewrite (bind_step _ _ st vs st) by (unfold liftM, nelement; cbn; by rewrite copy_values_same by lia). cbn [t_storage t_start storage_dtype].
  rewrite Nat2Z.id, (proj1 Ho). cbn [fmap option_fmap option_map default from_option id]. eexists. split; [reflexivity|].
  assert (Hlen : Z.of_nat (length (map (v_round (bf_param_dtype bf)) vs)) = r_end (gbuf_world rs) - r_start (gbuf_world rs)) by (rewrite length_map; lia).
  split.
  - apply (cp_optim _ _ _ Cp).
  - intros s. destruct (decide (s = ParamData (Z.of_nat g))) as [->|Hs]; [|rewrite storage_set_ne by done; apply (cp_size _ _ _ Cp)].
    rewrite storage_set_eq, length_splice by lia. apply (cp_size _ _ _ Cp).
  - intros id. rewrite storage_set_ne by done. apply (cp_main _ _ _ Cp).
  - intros g' bf' i' b' q qs Hq. destruct (decide (p_id q = p_id p)) as [Eid|Hne].
    + destruct (owns_same buffers WB Hids _ Hr _ _ _ _ _ _ _ _ _ _ _ _ Hq Ho Eid) as (-> & -> & _ & _ & -> & ->).
      rewrite storage_set_eq, decide_True by (apply elem_of_app; right; left). fold vs. apply slice_splice_eq; lia.
    + assert (Hd : p_id q ∈ seen ++ [p_id p] <-> p_id q ∈ seen) by (rewrite elem_of_app, list_elem_of_singleton; naive_solver).
      rewrite (decide_ext _ _ _ _ Hd), <- (cp_value _ _ _ Cp _ _ _ _ _ _ Hq). destruct (decide (g' = g)) as [->|Hg]; [|rewrite storage_set_ne; [done|intros [= E]; lia]].
      destruct (owns_bounds buffers WB r Hr _ _ _ _ _ _ Hq) as (Q1 & _). pose proof (world_apart _ _ _ _ _ _ _ _ _ _ _ Ho Hq ltac:(congruence)).
      rewrite storage_set_eq. apply slice_splice_ne; lia.
  - intros g' c d Hc Hfree. rewrite <- (cp_rest _ _ _ Cp g' c d Hc Hfree). destruct (decide (g' = g)) as [->|Hg]; [|rewrite storage_set_ne; [done|intros [= E]; lia]].
    pose proof (Hfree _ _ _ _ _ Ho). rewrite storage_set_eq. apply slice_splice_ne; lia.
Qed.

Lemma copy_params_loop pairs st0 : checkpoint_ready at_ buffers r st0 -> Forall shard_pair pairs -> forall seen st, copying seen st0 st ->
  NoDup (seen ++ map (fun x => p_id (fst x)) pairs) ->
  exists st', copy_group_main_params at_ o pairs st = (Ok tt, st') /\ copying (seen ++ map (fun x => p_id (fst x)) pairs) st0 st'.
Proof.
  intros R Hf. unfold copy_group_main_params. induction Hf as [|[p t] pairs (g & bf & i & b & rs & Ho & Et) _ IH]; intros seen st Cp Hnd.
  - exists st. cbn. rewrite app_nil_r. done.
  - cbn in Ho, Et. subst t. cbn [map fst] in Hnd |- *. assert (Hp : p_id p ∉ seen).
    { apply NoDup_app in Hnd as (_ & Hd & _). intros Hin. apply (Hd _ Hin). left. }
    destruct (copying_step seen st0 st g bf i b p rs R Cp Ho Hp) as (st1 & E1 & Cp1).
    replace (seen ++ p_id p :: map (fun x => p_id (fst x)) pairs) with ((seen ++ [p_id p]) ++ map (fun x => p_id (fst x)) pairs) in Hnd |- * by (by rewrite <- app_assoc).
    destruct (IH _ st1 Cp1 Hnd) as (st' & E' & Cp'). exists st'. split; [|done]. cbn [iterM].
    destruct (cs_map _ _ _ _ C _ _ _ _ _ _ Ho) as [Hrs _]. destruct (owns_facts _ WB r Hr _ _ _ _ _ _ Ho) as (_ & _ & Hpin & s & _ & _ & _ & _ & _ & _ & Hib & _ & Hpr).
    rewrite (bind_step _ _ st tt st1); [exact E'|]. rewrite (bind_step _ _ st rs st) by (unfold liftM; by rewrite Hrs).
    rewrite (bind_step _ _ st (shard_tensor at_ g p rs) st) by done.
    assert (Hsz : r_size (gbuf_world_in_bucket rs) = nelement (shard_tensor at_ g p rs)).
    { rewrite (nelement_shard _ _ _ _ _ _ Ho). unfold r_size. rewrite Hib, Hpr. cbn. lia. }
    rewrite (bind_step _ _ st tt st) by (unfold assertM, liftM, assert_; by rewrite Hsz, Z.eqb_refl).
    rewrite (bind_step _ _ st _ st) by (unfold liftM; by rewrite (bucket_shard_ok _ _ _ _ _ _ Ho)).
    rewrite (Hplain bf p (list_elem_of_lookup_2 _ _ _ (proj1 Ho)) Hpin), (bind_step _ _ st st st) by done. by rewrite (cs_buffers _ _ _ _ C).
Qed.

Lemma copying_start st : copying [] st st.
Proof. by split. Qed.

Lemma copy_main_ok st : checkpoint_ready at_ buffers r st -> exists st', copy_main_params_to_model_params at_ o st = (Ok tt, st') /\
  (forall g bf i b p rs, owns g bf i b p rs ->
     py_slice (storage_values st' (ParamData (Z.of_nat g))) (r_start (gbuf_world rs)) (r_end (gbuf_world rs)) =
     map (v_round (bf_param_dtype bf)) (tensor_values st (shard_tensor at_ g p rs))) /\
  (forall g c d, 0 <= c -> (forall bf i b p rs, owns g bf i b p rs -> d <= r_start (gbuf_world rs) \/ r_end (gbuf_world rs) <= c) ->
     py_slice (storage_values st' (ParamData (Z.of_nat g))) c d = py_slice (storage_values st (ParamData (Z.of_nat g))) c d) /\
  st_optim st' = st_optim st /\ forall s, length (storage_values st' s) = length (storage_values st s).
Proof.
  intros R. destruct (copy_params_loop (float16_shards o ++ fp32_shards o) st R all_pairs [] st (copying_start st)) as (st' & E & Cp); [apply (cs_once _ _ _ _ C)|].
  exists st'. split; [|split; [|split; [|split]]].
  - unfold copy_main_params_to_model_params. rewrite (cs_cfg _ _ _ _ C), <- E. unfold copy_group_main_params. by rewrite iterM_app.
  - intros g bf i b p rs Ho. rewrite (cp_value _ _ _ Cp _ _ _ _ _ _ Ho), decide_True; [done|]. apply list_elem_of_fmap. eexists. split; [|by eapply owned_paired]. done.
  - apply (cp_rest _ _ _ Cp).
  - apply (cp_optim _ _ _ Cp).
  - apply (cp_size _ _ _ Cp).
Qed.
End OneRank.

(** *** The all-gather *)

Lemma shard_buffer_eq n dp : 0 < dp -> (dp | n) -> shard_buffer n dp = Ok (map (fun r => (r * (n / dp), (r + 1) * (n / dp))) (zrange 0 dp)).
Proof.
  intros Hdp Hd. apply Z.mod_divide in Hd; [|lia]. unfold shard_buffer. rewrite pymod_ok, Hd by lia. cbn [mbind res_bind Z.eqb assert_].
  by rewrite floordiv_ok by lia.
Qed.

(** What rank [r], in the state [st], has of parameter [p]. *)
Definition part_values (g : nat) (bf : buffer) (b : bucket) (p : param) (r : nat) (st : store V) : list V :=
  match dict_lookup (rank_param_map bf b (Z.of_nat r)) p with
  | Some rs => tensor_values st (shard_tensor at_ g p rs)
  | None => []
  end.

(** The copy on every rank. *)
Definition copy_main_all (ranks : list (dist_opt * store V)) : res (list (dist_opt * store V)) :=
  mapR (fun '(o, st) => match copy_main_params_to_model_params at_ o st with (Ok _, st') => Ok (o, st') | (Err e, _) => Err e end) ranks.

(** The ranks after the copy: each has written its own parts. *)
Definition written (ranks ranks' : list (dist_opt * store V)) : Prop :=
  length ranks' = length ranks /\ forall r o st o' st', ranks !! r = Some (o, st) -> ranks' !! r = Some (o', st') ->
    (forall s, length (storage_values st' s) = length (storage_values st s)) /\
    forall g bf i b p rs, owns buffers (Z.of_nat r) g bf i b p rs ->
      py_slice (storage_values st' (ParamData (Z.of_nat g))) (r_start (gbuf_world rs)) (r_end (gbuf_world rs)) =
      map (v_round (bf_param_dtype bf)) (tensor_values st (shard_tensor at_ g p rs)).

Lemma copy_main_all_ok ranks : ready_world at_ buffers ranks -> exists ranks', copy_main_all ranks = Ok ranks' /\ written ranks ranks'.
Proof.
  intros RW. unfold copy_main_all.
  match goal with |- context [mapR ?f ranks] => destruct (mapR_ix f (fun r x y => (forall s, length (storage_values (snd y) s) = length (storage_values (snd x) s)) /\
    forall g bf i b p rs, owns buffers (Z.of_nat r) g bf i b p rs ->
      py_slice (storage_values (snd y) (ParamData (Z.of_nat g))) (r_start (gbuf_world rs)) (r_end (gbuf_world rs)) =
      map (v_round (bf_param_dtype bf)) (tensor_values (snd x) (shard_tensor at_ g p rs))) ranks) as (ranks' & E & Hl & Hv) end.
  { intros r [o st] Hr. destruct (rw_rank _ _ _ RW r o st Hr) as (C & _ & R). pose proof (rank_in_range _ _ _ _ _ _ RW Hr) as Hrr.
    destruct (copy_main_ok (Z.of_nat r) Hrr o C st R) as (st' & -> & H1 & _ & _ & H3). eauto. }
  exists ranks'. split; [done|]. split; [done|]. intros r o st o' st' Hr Hr'. apply (Hv r (o, st) (o', st') Hr Hr').
Qed.

Lemma all_gather_ok (ranks : list (dist_opt * store V)) g bf i b (datas : list (list V)) : ready_world at_ buffers ranks -> buffers !! g = Some bf -> bf_buckets bf !! i = Some b ->
  length datas = length ranks -> Forall (fun d => Z.of_nat (length d) = bf_numel bf) datas ->
  exists G, all_gather_bucket b datas = Ok G /\ Z.of_nat (length G) = view_numel (b_grad_data b) /\
    forall r d a z, datas !! r = Some d -> r_start (shard_range bf b (Z.of_nat r)) <= a -> a <= z -> z <= r_end (shard_range bf b (Z.of_nat r)) ->
      py_slice G (a - b_offset b) (z - b_offset b) = py_slice d a z.
Proof.
  intros RW Hg Hi Hl Hd. pose proof (list_elem_of_lookup_2 _ _ _ Hg) as Hbf. pose proof (proj1 (Forall_forall _ _) WB bf Hbf) as W.
  pose proof (proj1 (Forall_forall _ _) (rw_dp _ _ _ RW) bf Hbf) as Hdp. cbn in Hdp. pose proof (wp_dp _ W) as Hpos.
  destruct (wp_bucket _ W i b Hi) as (Hoff & Hdiv & _ & Hpd). destruct (shard_size_ok bf W i b Hi) as (Hsz & Hmul & _). destruct (wp_inside _ W i b Hi) as [Hin1 Hin2].
  unfold all_gather_bucket. rewrite Hpd. unfold view_numel at 1. cbn [v_start v_end]. fold (view_numel (b_grad_data b)).
  rewrite Hl, <- Hdp, shard_buffer_eq by done. cbn [mbind res_bind]. fold (shard_size bf b).
  match goal with |- context [mapR ?f ?l] => destruct (mapR_ix f (fun r x y => y = py_slice (snd x) (b_offset b + Z.of_nat r * shard_size bf b)
    (b_offset b + (Z.of_nat r + 1) * shard_size bf b)) l) as (views & -> & Hlv & Hv) end.
  { intros r [k d] Hx. rewrite lookup_enumerate in Hx. destruct (datas !! r) as [d'|] eqn:Er; [|done]. injection Hx as <- ->.
    erewrite py_get_nonneg; [|apply list_lookup_fmap_Some; eexists; split; [|apply lookup_zrange; apply lookup_lt_Some in Er; lia]; reflexivity].
    cbn [mbind res_bind mret res_ret fst snd]. eexists. split; [reflexivity|]. by rewrite Z.add_0_l, Hoff. }
  unfold enumerate in Hlv. rewrite length_imap in Hlv.
  assert (Hviews : forall r d, datas !! r = Some d -> views !! r = Some (py_slice d (b_offset b + Z.of_nat r * shard_size bf b) (b_offset b + (Z.of_nat r + 1) * shard_size bf b))).
  { intros r d Hr. destruct (lookup_lt_is_Some_2 views r) as [y Hy]; [rewrite Hlv; by eapply lookup_lt_Some|]. rewrite Hy. f_equal.
    apply (Hv r (Z.of_nat r, d) y); [by rewrite lookup_enumerate, Hr|done]. }
  assert (Hall : Forall (fun l => Z.of_nat (length l) = shard_size bf b) views).
  { apply Forall_lookup. intros r y Hy. destruct (lookup_lt_is_Some_2 datas r) as [d Hr]; [rewrite <- Hlv; by eapply lookup_lt_Some|].
    rewrite (Hviews r d Hr) in Hy. injection Hy as <-. rewrite Forall_lookup in Hd. specialize (Hd r d Hr). apply lookup_lt_Some in Hr.
    assert (0 <= Z.of_nat r * shard_size bf b) by nia. assert ((Z.of_nat r + 1) * shard_size bf b <= bf_dp bf * shard_size bf b) by nia.
    unfold view_numel in *. rewrite length_slice; [lia|lia|nia|lia]. }
  cbn [mbind res_bind mret res_ret]. eexists. split; [reflexivity|]. split.
  - rewrite (length_concat_eq _ _ Hall). rewrite <- Hmul, Hdp. f_equal. lia.
  - intros r d a z Hr Ha Haz Hz. unfold shard_range in Ha, Hz. cbn in Ha, Hz.
    replace (a - b_offset b) with (Z.of_nat r * shard_size bf b + (a - b_offset b - Z.of_nat r * shard_size bf b)) by lia.
    replace (z - b_offset b) with (Z.of_nat r * shard_size bf b + (z - b_offset b - Z.of_nat r * shard_size bf b)) by lia.
    rewrite (slice_concat (shard_size bf b) views r _ _ _ Hall (Hviews r d Hr)) by lia. assert (0 <= Z.of_nat r * shard_size bf b) by nia.
    rewrite slice_slice by lia. f_equal; lia.
Qed.

Lemma gathered_parts ranks ranks' g bf i b p s : ready_world at_ buffers ranks -> written ranks ranks' -> buffers !! g = Some bf -> p ∈ bf_params bf ->
  bf_index_map bf !! p_id p = Some (s, s + p_numel p, Z.of_nat i) -> bf_buckets bf !! i = Some b ->
  exists G, all_gather_bucket b (map (fun x => storage_values (snd x) (ParamData (Z.of_nat g))) ranks') = Ok G /\
    py_slice G (s - b_offset b) (s + p_numel p - b_offset b) =
    concat (imap (fun r x => map (v_round (bf_param_dtype bf)) (part_values g bf b p r (snd x))) ranks).
Proof.
  intros RW [Hl Hw] Hg Hp Hm Hi. pose proof (list_elem_of_lookup_2 _ _ _ Hg) as Hbf. pose proof (proj1 (Forall_forall _ _) WB bf Hbf) as W.
  pose proof (proj1 (Forall_forall _ _) (rw_dp _ _ _ RW) bf Hbf) as Hdp. cbn in Hdp.
  destruct (all_gather_ok ranks g bf i b (map (fun x => storage_values (snd x) (ParamData (Z.of_nat g))) ranks') RW Hg Hi) as (G & EG & HlG & HG); [by rewrite length_map| |].
  { apply Forall_map, Forall_lookup. intros r [o' st'] Hr'. cbn. destruct (lookup_lt_is_Some_2 ranks r) as [[o st] Hr]; [rewrite <- Hl; by eapply lookup_lt_Some|].
    destruct (Hw r o st o' st' Hr Hr') as [Hs _]. rewrite Hs. destruct (rw_rank _ _ _ RW r o st Hr) as (_ & _ & R). by apply (cr_buffers _ _ _ _ R). }
  exists G. split; [exact EG|]. destruct (owned_parts_tile bf W p Hp) as (s' & i' & b' & Hm' & Hi' & Hs1 & Hs2 & Ht).
  rewrite Hm in Hm'. injection Hm' as <- Hii. assert (i' = i) as -> by lia. rewrite Hi in Hi'. injection Hi' as <-.
  destruct (wp_bucket _ W i b Hi) as (_ & _ & Hu & _). pose proof (proj1 (Forall_forall _ _) (wp_numel _ W) p Hp) as Hn. cbn in Hn.
  rewrite slice_omap by lia. replace (zrange (s - b_offset b) (s + p_numel p - b_offset b)) with (zrange (s - b_offset b + 0) (s - b_offset b + p_numel p)) by (f_equal; lia).
  rewrite <- omap_shift, <- Ht, Hdp, omap_concat, map_map. f_equal. apply list_eq. intros r. rewrite list_lookup_imap.
  change (map ?f ?l) with (f <$> l). rewrite list_lookup_fmap. destruct (ranks !! r) as [[o st]|] eqn:Er.
  2: { apply lookup_ge_None in Er. pose proof (length_zrange 0 (Z.of_nat (length ranks))). rewrite (lookup_ge_None_2 (zrange _ _)) by lia. done. }
  pose proof (lookup_lt_Some _ _ _ Er) as Hlt. rewrite lookup_zrange by lia. cbn [fmap option_fmap option_map]. f_equal. rewrite Z.add_0_l.
  unfold owned_part, part_elements, part_values. cbn [snd]. destruct (dict_lookup (rank_param_map bf b (Z.of_nat r)) p) as [rs|] eqn:Ers; [|done].
  apply dict_lookup_Some in Ers. assert (Ho : owns buffers (Z.of_nat r) g bf i b p rs) by done. pose proof (rank_in_range _ _ _ _ _ _ RW Er) as Hrr.
  destruct (owns_facts _ WB _ Hrr _ _ _ _ _ _ Ho) as (_ & _ & _ & s' & Hm' & H1 & H2 & H3 & H4 & H5 & _ & _ & ->). rewrite Hm in Hm'. injection Hm' as <-.
  cbn [r_start r_end]. rewrite (omap_shift (fun x => G !! Z.to_nat x)).
  replace (s - b_offset b + (r_start (gbuf_world rs) - s)) with (r_start (gbuf_world rs) - b_offset b) by lia.
  replace (s - b_offset b + (r_end (gbuf_world rs) - s)) with (r_end (gbuf_world rs) - b_offset b) by lia. rewrite <- slice_omap by lia.
  destruct (lookup_lt_is_Some_2 ranks' r) as [[o' st'] Hr']; [lia|]. destruct (Hw r o st o' st' Er Hr') as [_ Hv].
  rewrite (HG r (storage_values st' (ParamData (Z.of_nat g)))); [by apply (Hv _ _ i b)|apply list_lookup_fmap_Some; by exists (o', st')|lia..].
Qed.
End Update.

(** (C8) The update reaches the model whole: after [_copy_main_params_to_model_params] on all ranks and the all-gather of
    a parameter's bucket, every rank has the parameter put together from the main shards of the ranks, in order and
    rounded to the type of the buffer: nothing is lost, overwritten or taken from padding. *)
Theorem gathered_params_spec {V} `{!Values V, !ValuesLaws V} at_ dp buffers (ranks : list (dist_opt * store V)) :
  Forall (built dp) buffers -> NoDup (map p_id (concat (map bf_params buffers))) -> typed at_ buffers ->
  (forall bf p, bf ∈ buffers -> p ∈ bf_params bf -> p_float8 p = false) -> ready_world at_ buffers ranks ->
  exists ranks', copy_main_all at_ ranks = Ok ranks' /\
    forall g bf p, buffers !! g = Some bf -> p ∈ bf_params bf -> exists s i b G,
      bf_index_map bf !! p_id p = Some (s, s + p_numel p, Z.of_nat i) /\ bf_buckets bf !! i = Some b /\
      all_gather_bucket b (map (fun x => storage_values (snd x) (ParamData (Z.of_nat g))) ranks') = Ok G /\
      py_slice G (s - b_offset b) (s + p_numel p - b_offset b) =
      concat (imap (fun r x => map (v_round (bf_param_dtype bf)) (part_values at_ g bf b p r (snd x))) ranks).
Proof.
  intros Hb Hids Hty Hplain RW. pose proof (all_placed dp buffers Hb) as WB.
  destruct (copy_main_all_ok at_ buffers WB Hids Hplain ranks RW) as (ranks' & E & Hw). exists ranks'. split; [done|].
  intros g bf p Hg Hp. pose proof (proj1 (Forall_forall _ _) WB bf (list_elem_of_lookup_2 _ _ _ Hg)) as W.
  destruct (wp_param _ W p Hp) as (s & i & b & Hm & Hi & _).
  destruct (gathered_parts at_ buffers WB ranks ranks' g bf i b p s RW Hw Hg Hp Hm Hi) as (G & EG & HG). exists s, i, b, G. done.
Qed.

(** Every shard gets its own gradient: [_copy_model_grads_to_main_grads] makes the gradient of the shard of each owned
    parameter the part of the gradient buffer at the parameter's world range, as a view of a float32 buffer and as a
    copy otherwise.  The part lies in the rank's shard of the bucket, which the reduce-scatter has reduced on
    this rank, and nothing but the copies is written. *)
Theorem main_grads_spec {V} `{!Values V} at_ dp buffers r o (st : store V) :
  Forall (built dp) buffers -> NoDup (map p_id (concat (map bf_params buffers))) -> 0 <= r < dp -> consistent at_ buffers r o -> grads_sized buffers st ->
  exists st', copy_model_grads_to_main_grads at_ o st = (Ok tt, st') /\ st_optim st' = st_optim st /\
    (forall s, other_storage s -> storage_values st' s = storage_values st s) /\
    forall g bf i b p rs, owns buffers r g bf i b p rs ->
      st_grad st' !! p_id p = Some (grad_tensor g bf p rs) /\
      tensor_values st' (grad_tensor g bf p rs) =
        py_slice (storage_values st (GradData (Z.of_nat g))) (r_start (gbuf_world rs)) (r_end (gbuf_world rs)) /\
      r_start (shard_range bf b r) <= r_start (gbuf_world rs) /\ r_end (gbuf_world rs) <= r_end (shard_range bf b r).
Proof.
  intros Hb Hids Hr C Hs. pose proof (all_placed dp buffers Hb) as WB.
  assert (Hrr : Forall (fun bf => 0 <= r < bf_dp bf) buffers) by (eapply Forall_impl; [exact Hb|]; intros bf Hbf; by destruct (built_placed dp bf Hbf) as [_ ->]).
  destruct (copy_model_grads_ok at_ buffers WB Hids r Hrr o C st Hs) as (st' & E & H1 & H2 & H3). exists st'. split; [done|]. split; [done|]. split; [done|].
  intros g bf i b p rs Ho. destruct (H3 g bf i b p rs Ho) as [Hg Hv]. split; [done|]. split; [exact Hv|].
  destruct (owns_facts _ WB r Hrr _ _ _ _ _ _ Ho) as (_ & _ & _ & s & _ & _ & _ & _ & H4 & H5 & _). done.
Qed.

#[local] Existing Instances Z_values Z_values_laws.

Lemma gathered_params_spec_witness : exists ranks ranks' s i b G,
  mapR (start_rank bf16_attributes (fun _ => []) [ex_bf] [ex_params] ex_cfg) (ex_start ex_store) = Ok ranks /\
  copy_main_all bf16_attributes ranks = Ok ranks' /\ bf_buckets ex_bf !! i = Some b /\
  all_gather_bucket b (map (fun x => storage_values (snd x) (ParamData (Z.of_nat 0))) ranks') = Ok G /\
  py_slice G (s - b_offset b) (s + 300 - b_offset b) =
  concat (imap (fun r x => map (v_round (bf_param_dtype ex_bf)) (part_values bf16_attributes 0 ex_bf b (mkParam 2 300 false false false true) r (snd x))) ranks).
Proof.
  destruct (start_world_ok bf16_attributes (fun _ => []) 3 [ex_bf] [ex_params] ex_cfg [ex_store; ex_store; ex_store] ex_run) as (ranks & E1 & L1 & R1);
    [constructor; [done|constructor]|done|repeat constructor; exact ex_sized|].
  assert (Hp : bf_params ex_bf = ex_params) by (vm_compute; reflexivity).
  destruct (gathered_params_spec bf16_attributes 3 [ex_bf] ranks) as (ranks' & E2 & H).
  - constructor; [exact ex_built|constructor].
  - apply (rc_distinct _ _ _ _ _ _ ex_run).
  - apply (rc_typed _ _ _ _ _ _ ex_run).
  - intros bf p ->%list_elem_of_singleton Hin. rewrite Hp in Hin. repeat (apply elem_of_cons in Hin as [->|Hin]; [reflexivity|]). apply elem_of_nil in Hin. destruct Hin.
  - exact R1.
  - destruct (H 0%nat ex_bf (mkParam 2 300 false false false true) eq_refl) as (s & i & b & G & _ & Hi & HG & HS).
    + rewrite Hp. apply (bool_decide_unpack _). vm_compute. exact I.
    + exists ranks, ranks', s, i, b, G. split; [exact E1|]. split; [exact E2|]. split; [exact Hi|]. split; [exact HG|exact HS].
Defined.

(** The example state with gradients. *)
Definition ex_grad_store : store Z := mkStore {[ParamData 0 := zrange 0 1152; GradData 0 := zrange 1000 2152]} ∅ ∅ ∅ ∅.
Lemma ex_grad_sized : buffers_sized [ex_bf] ex_grad_store /\ grads_sized [ex_bf] ex_grad_store.
Proof. split; (intros [|g] bf Hg; [|done]); change (Some ex_bf = Some bf) in Hg; apply (inj Some) in Hg as <-; vm_compute; reflexivity. Qed.

Lemma main_grads_spec_witness : exists o st st',
  dist_opt_init bf16_attributes (fun _ => @nil Z) ex_cfg 1 [ex_bf] [ex_params] ex_grad_store = (Ok o, st) /\ copy_model_grads_to_main_grads bf16_attributes o st = (Ok tt, st').
Proof.
  destruct (dist_opt_init_ok bf16_attributes (fun _ => @nil Z) [ex_bf] [ex_params] ex_cfg 1
    (run_constructible _ _ 3 _ _ _ 1 ex_run ltac:(lia)) ex_grad_store (proj1 ex_grad_sized)) as (o & st & E & C & _ & Mk & _).
  destruct (main_grads_spec bf16_attributes 3 [ex_bf] 1 o st) as (st' & E' & _).
  - constructor; [exact ex_built|constructor].
  - apply (rc_distinct _ _ _ _ _ _ ex_run).
  - lia.
  - exact C.
  - intros g bf Hg. rewrite <- (proj2 ex_grad_sized g bf Hg). f_equal. f_equal. apply (mk_grads _ _ _ _ _ _ _ Mk).
  - exists o, st, st'. split; assumption.
Defined.

(** *** Legacy checkpoints *)

Lemma take_slice {V} (l : list V) a n : 0 <= a -> 0 <= n -> a + n <= Z.of_nat (length l) -> take (Z.to_nat (a + n)) l = take (Z.to_nat a) l ++ py_slice l a (a + n).
Proof.
  intros. unfold py_slice. replace (a + n - a) with n by lia. rewrite <- (take_drop (Z.to_nat a) (take (Z.to_nat (a + n)) l)) at 1.
  rewrite take_take, skipn_firstn_comm. f_equal; f_equal; lia.
Qed.

(** [_update_legacy_world_tensors] changes the cuts between buckets and nothing else. *)
Lemma update_legacy_ok {V} (old_tensors : list (list V)) new_numels : Forall (fun n => 0 <= n) new_numels ->
  zsum (map (fun t => Z.of_nat (length t)) old_tensors) = zsum new_numels ->
  exists new_tensors, update_legacy_world_tensors old_tensors new_numels = Ok new_tensors /\
    concat new_tensors = concat old_tensors /\ map (fun t => Z.of_nat (length t)) new_tensors = new_numels.
Proof.
  intros Hn Hs. unfold update_legacy_world_tensors. rewrite Hs, Z.eqb_refl. cbn [assert_ mbind res_bind mret res_ret].
  set (l := concat old_tensors). assert (Hl : zsum new_numels = Z.of_nat (length l)).
  { rewrite <- Hs. unfold l. clear. induction old_tensors as [|t ts IH]; [done|]. cbn [map concat zsum fold_right] in *. rewrite length_app. unfold zsum in *. cbn. lia. }
  eexists. split; [reflexivity|]. clear Hs.
  assert (Hgen : forall acc start, 0 <= start -> start + zsum new_numels <= Z.of_nat (length l) -> concat acc = take (Z.to_nat start) l ->
    let r := fold_left (fun '(start_idx, new_tensors) new_numel => (start_idx + new_numel, new_tensors ++ [py_slice l start_idx (start_idx + new_numel)])) new_numels (start, acc) in
    concat (snd r) = take (Z.to_nat (start + zsum new_numels)) l /\ map (fun t => Z.of_nat (length t)) (snd r) = map (fun t => Z.of_nat (length t)) acc ++ new_numels).
  { clear Hl. induction Hn as [|n ns Hn Hns IH]; intros acc start Hst Hle Hacc.
    - cbn. rewrite Z.add_0_r, app_nil_r. done.
    - cbn [fold_left]. change (zsum (n :: ns)) with (n + zsum ns) in *. pose proof (zsum_nonneg ns Hns).
      destruct (IH (acc ++ [py_slice l start (start + n)]) (start + n)) as [I1 I2]; [lia|lia| |].
      + rewrite concat_app, Hacc. cbn. rewrite app_nil_r. symmetry. apply take_slice; lia.
      + cbn in I1, I2. rewrite I1, I2, map_app, <- app_assoc. split; [f_equal; lia|]. cbn. rewrite length_slice by lia. do 2 f_equal. lia. }
  destruct (Hgen [] 0) as [G1 G2]; [lia|lia|done|]. cbn in G1, G2. rewrite G1, G2. split; [|done]. apply take_ge. lia.
Qed.
