(* ===== verification/GradScaler.v ===== *)
(** * Loss scaling

    [megatron/core/optimizer/grad_scaler.py]: the constant and the dynamic gradient
    scaler.  The arguments of the constructors are Python floats (binary64), the scale
    and the factors are float32 tensors of one element, so every argument is rounded
    after it was checked. *)

From Stdlib Require Import SpecFloat.
From S2P Require Import Prelude PyFloat.

(* ================================================================== *)
(** ** float32                                                         *)
(* ================================================================== *)

Definition f32 := spec_float.
Definition prec32 : Z := 24.
Definition emax32 : Z := 128.

(** [torch.tensor([x], dtype=torch.float)] *)
Definition f32_of_f64 (x : f64) : f32 :=
  match x with
  | S754_finite s m e => binary_normalize prec32 emax32 (if s then Z.neg m else Z.pos m) e s
  | x => x
  end.

(** [x.double()] and [x.item()] *)
Definition f64_of_f32 (x : f32) : f64 :=
  match x with
  | S754_finite s m e => binary_normalize prec64 emax64 (if s then Z.neg m else Z.pos m) e s
  | x => x
  end.
Definition f32_mul (x y : f32) : f32 := SFmul prec32 emax32 x y.

(** [torch.max(x, y)]: a NaN wins. *)
Definition f32_max (x y : f32) : f32 :=
  match x, y with
  | S754_nan, _ => S754_nan
  | _, S754_nan => S754_nan
  | _, _ => if SFltb x y then y else x
  end.

Definition f64_zero : f64 := S754_zero false.

(* ================================================================== *)
(** ** The scalers                                                     *)
(* ================================================================== *)

(** [DynamicGradScaler] *)
Record scaler := mkScaler {
  sc_scale : f32;
  sc_min_scale : f32;
  sc_growth_factor : f32;
  sc_backoff_factor : f32;
  sc_growth_interval : Z;
  sc_hysteresis : Z;
  sc_growth_tracker : Z;
  sc_hysteresis_tracker : Z
}.

(** [MegatronGradScaler.__init__] *)
Definition base_init (initial_scale : f64) : res f32 :=
  assert_ (SFltb f64_zero initial_scale) "initial_scale > 0.0" ;;
  mret (f32_of_f64 initial_scale).

(** [DynamicGradScaler.__init__] *)
Definition dynamic_init (initial_scale min_scale growth_factor backoff_factor : f64) (growth_interval hysteresis : Z) : res scaler :=
  scale ← base_init initial_scale;
  assert_ (SFltb f64_zero min_scale) "min_scale > 0.0" ;;
  assert_ (SFleb min_scale initial_scale) "min_scale <= initial_scale" ;;
  assert_ (SFltb f64_one growth_factor) "growth_factor > 1.0" ;;
  assert_ (SFltb backoff_factor f64_one) "backoff_factor < 1.0" ;;
  assert_ (SFltb f64_zero backoff_factor) "backoff_factor > 0.0" ;;
  assert_ (0 <? growth_interval) "growth_interval > 0" ;;
  assert_ (0 <? hysteresis) "hysteresis > 0" ;;
  mret (mkScaler scale (f32_of_f64 min_scale) (f32_of_f64 growth_factor) (f32_of_f64 backoff_factor) growth_interval hysteresis 0 hysteresis).

Definition with_trackers (s : scaler) (scale : f32) (growth hysteresis : Z) : scaler :=
  mkScaler scale (sc_min_scale s) (sc_growth_factor s) (sc_backoff_factor s) (sc_growth_interval s) (sc_hysteresis s) growth hysteresis.

(** [update] *)
Definition update (s : scaler) (found_inf : bool) : scaler :=
  if found_inf then
    let hysteresis_tracker := sc_hysteresis_tracker s - 1 in
    with_trackers s
      (if hysteresis_tracker <=? 0 then f32_max (f32_mul (sc_scale s) (sc_backoff_factor s)) (sc_min_scale s) else sc_scale s)
      0 hysteresis_tracker
  else
    let growth_tracker := sc_growth_tracker s + 1 in
    if growth_tracker =? sc_growth_interval s then
      with_trackers s (f32_mul (sc_scale s) (sc_growth_factor s)) 0 (sc_hysteresis s)
    else with_trackers s (sc_scale s) growth_tracker (sc_hysteresis_tracker s).

(** [state_dict] and [load_state_dict] *)
Definition state_dict (s : scaler) : f32 * Z * Z := (sc_scale s, sc_growth_tracker s, sc_hysteresis_tracker s).
Definition load_state_dict (s : scaler) (d : f32 * Z * Z) : scaler := let '(scale, g, h) := d in with_trackers s scale g h.

(** A scaler of either kind; [ConstantGradScaler.update] does nothing and its state is empty. *)
Inductive grad_scaler := Constant (scale : f32) | Dynamic (s : scaler).
Definition scale_of (g : grad_scaler) : f32 := match g with Constant x => x | Dynamic s => sc_scale s end.
Definition update_scaler (g : grad_scaler) (found_inf : bool) : grad_scaler :=
  match g with Constant x => Constant x | Dynamic s => Dynamic (update s found_inf) end.

(* ================================================================== *)
(** ** Behaviour                                                       *)
(* ================================================================== *)

Definition updates (s : scaler) (found : list bool) : scaler := fold_left update found s.

(** A scale backed off [n] times. *)
Fixpoint backoff (factor min_scale : f32) (n : nat) (x : f32) : f32 :=
  match n with O => x | S n => backoff factor min_scale n (f32_max (f32_mul x factor) min_scale) end.

(** The trackers stay in their ranges. *)
Definition scaler_ok (s : scaler) : Prop :=
  0 < sc_growth_interval s /\ 0 < sc_hysteresis s /\ 0 <= sc_growth_tracker s < sc_growth_interval s /\ sc_hysteresis_tracker s <= sc_hysteresis s.

Lemma update_ok_scaler s f : scaler_ok s -> scaler_ok (update s f).
Proof.
  intros (H1 & H2 & H3 & H4). unfold update, scaler_ok. destruct f; cbn; [lia|].
  destruct (Z.eqb_spec (sc_growth_tracker s + 1) (sc_growth_interval s)); cbn; lia.
Qed.

Lemma dynamic_init_ok i m g b n h s : dynamic_init i m g b n h = Ok s -> scaler_ok s /\ sc_growth_tracker s = 0 /\ sc_hysteresis_tracker s = sc_hysteresis s /\
  sc_growth_interval s = n /\ sc_hysteresis s = h.
Proof.
  unfold dynamic_init. intros H. inv_ok. unfold mret, res_ret in H. injection H as <-. unfold scaler_ok. cbn.
  repeat match goal with E : (_ <? _) = true |- _ => apply Z.ltb_lt in E end. lia.
Qed.

(** [n] overflows in a row. *)
Lemma updates_overflow n : forall s, updates s (replicate n true) =
  with_trackers s (backoff (sc_backoff_factor s) (sc_min_scale s) (Z.to_nat (Z.min (Z.of_nat n) (Z.of_nat n - sc_hysteresis_tracker s + 1))) (sc_scale s))
    (match n with O => sc_growth_tracker s | _ => 0 end) (sc_hysteresis_tracker s - Z.of_nat n).
Proof.
  induction n as [|n IH]; intros s.
  - replace (Z.to_nat (Z.min (Z.of_nat 0) (Z.of_nat 0 - sc_hysteresis_tracker s + 1))) with 0%nat by lia. rewrite Z.sub_0_r. by destruct s.
  - change (updates s (replicate (S n) true)) with (updates (update s true) (replicate n true)). rewrite IH.
    destruct s as [sc mi gr ba gi hy gt ht]. unfold update, with_trackers.
    cbn [sc_scale sc_hysteresis_tracker sc_growth_tracker sc_min_scale sc_backoff_factor sc_growth_factor sc_growth_interval sc_hysteresis].
    f_equal; [|by destruct n|lia]. destruct (Z.leb_spec (ht - 1) 0).
    + by replace (Z.to_nat (Z.min (Z.of_nat (S n)) (Z.of_nat (S n) - ht + 1))) with (S (Z.to_nat (Z.min (Z.of_nat n) (Z.of_nat n - (ht - 1) + 1)))) by lia.
    + by replace (Z.to_nat (Z.min (Z.of_nat (S n)) (Z.of_nat (S n) - ht + 1))) with (Z.to_nat (Z.min (Z.of_nat n) (Z.of_nat n - (ht - 1) + 1))) by lia.
Qed.

(** [n] iterations without overflow, fewer than the interval. *)
Lemma updates_clean n : forall s, sc_growth_tracker s + Z.of_nat n < sc_growth_interval s ->
  updates s (replicate n false) = with_trackers s (sc_scale s) (sc_growth_tracker s + Z.of_nat n) (sc_hysteresis_tracker s).
Proof.
  induction n as [|n IH]; intros s Hn; [rewrite Z.add_0_r; by destruct s|].
  change (updates s (replicate (S n) false)) with (updates (update s false) (replicate n false)).
  assert (E : update s false = with_trackers s (sc_scale s) (sc_growth_tracker s + 1) (sc_hysteresis_tracker s)).
  { unfold update. by destruct (Z.eqb_spec (sc_growth_tracker s + 1) (sc_growth_interval s)); [lia|]. }
  rewrite E, IH by (cbn; lia). destruct s. unfold with_trackers. cbn. f_equal. lia.
Qed.

(** (C37) The dynamic loss scale: a new scaler keeps its scale for the first [hysteresis - 1] overflows in a row and
    multiplies it by the backoff factor, not below the minimum, at every further one; [growth_interval] iterations
    without overflow, counted from the last overflow or growth, multiply it by the growth factor once and restore the
    hysteresis, fewer change nothing but the counter. *)
Theorem dynamic_scaler_spec i m g b interval hysteresis s : dynamic_init i m g b interval hysteresis = Ok s ->
  (forall n, sc_scale (updates s (replicate n true)) =
     backoff (sc_backoff_factor s) (sc_min_scale s) (Z.to_nat (Z.of_nat n - hysteresis + 1)) (sc_scale s)) /\
  (forall history, let s' := updates s history in scaler_ok s' /\
     (forall n, sc_growth_tracker s' + Z.of_nat n < interval ->
        updates s' (replicate n false) = with_trackers s' (sc_scale s') (sc_growth_tracker s' + Z.of_nat n) (sc_hysteresis_tracker s')) /\
     forall n, sc_growth_tracker s' + Z.of_nat n = interval ->
        updates s' (replicate n false) = with_trackers s' (f32_mul (sc_scale s') (sc_growth_factor s)) 0 hysteresis).
Proof.
  intros Hs. destruct (dynamic_init_ok i m g b interval hysteresis s Hs) as (Hok & Hg & Hh & Hi & Hhy). split.
  - intros n. rewrite updates_overflow. cbn [with_trackers sc_scale]. f_equal. destruct Hok as (_ & Hpos & _). lia.
  - intros history s'. assert (Hs' : scaler_ok s' /\ sc_growth_interval s' = interval /\ sc_hysteresis s' = hysteresis /\ sc_growth_factor s' = sc_growth_factor s).
    { subst s'. unfold updates. clear -Hok Hi Hhy. revert s Hok Hi Hhy. induction history as [|f history IH]; intros s Hok Hi Hhy; [done|]. cbn.
      assert (He : sc_growth_interval (update s f) = sc_growth_interval s /\ sc_hysteresis (update s f) = sc_hysteresis s /\ sc_growth_factor (update s f) = sc_growth_factor s).
      { unfold update. destruct f; [done|]. by destruct (_ =? _). }
      destruct He as (E1 & E2 & E3). destruct (IH (update s f)) as (? & ? & ? & E4); [by apply update_ok_scaler|congruence|congruence|]. rewrite E4, E3. done. }
    destruct Hs' as (Hok' & Hi' & Hh' & Hgf). split; [done|]. split; [intros n Hn; apply updates_clean; lia|]. intros n Hn.
    destruct n as [|n]; [destruct Hok' as (_ & _ & Hr & _); lia|]. replace (S n) with (n + 1)%nat by lia. rewrite replicate_add. unfold updates. rewrite fold_left_app.
    fold (updates s' (replicate n false)). rewrite updates_clean by lia. cbn. unfold update. cbn.
    rewrite (proj2 (Z.eqb_eq _ _)) by lia. unfold with_trackers. cbn. by rewrite Hgf, Hh'.
Qed.

(** Arguments: an initial scale of 65536, factors 2 and 0.5, minimum 1, interval 3, hysteresis 2. *)
Definition f64_half : f64 := S754_finite false 4503599627370496 (-53).
Definition f64_two : f64 := S754_finite false 4503599627370496 (-51).
Definition f64_65536 : f64 := S754_finite false 4503599627370496 (-36).
Definition f32_pow2 (k : Z) : f32 := S754_finite false 8388608 (k - 23).
Definition ex_scaler : res scaler := dynamic_init f64_65536 f64_one f64_two f64_half 3 2.

Lemma dynamic_scaler_spec_witness : exists s, ex_scaler = Ok s /\ sc_scale s = f32_pow2 16 /\
  sc_scale (updates s (replicate 1 true)) = f32_pow2 16 /\ sc_scale (updates s (replicate 4 true)) = f32_pow2 13.
Proof.
  destruct ex_scaler as [s|] eqn:E; [|vm_compute in E; discriminate E]. exists s. split; [reflexivity|].
  destruct (dynamic_scaler_spec f64_65536 f64_one f64_two f64_half 3 2 s E) as [H _]. rewrite !H.
  vm_compute in E. injection E as <-. vm_compute. split; [reflexivity|]. split; reflexivity.
Defined.

(** The overflows that exhaust the hysteresis need not be in a row: iterations without overflow in between do not
    restore it until a whole growth interval has passed, so with hysteresis 2 one overflow, one good iteration and one
    overflow halve the scale. *)
Theorem hysteresis_not_consecutive : exists s, ex_scaler = Ok s /\
  sc_scale (updates s [true; false; true]) = f32_pow2 15 /\ sc_scale (updates s [true; false; true; false; true]) = f32_pow2 14.
Proof. eexists. split; [vm_compute; reflexivity|]. split; vm_compute; reflexivity. Qed.

(** The checks on the factors are made before they are rounded to float32: a backoff factor below 1 can become 1, and
    the scale is then never reduced. *)
Theorem rounded_backoff_keeps_scale : exists s,
  dynamic_init f64_65536 f64_one f64_two (S754_finite false 9007199254740991 (-53)) 3 1 = Ok s /\
  forall n, sc_scale (updates s (replicate n true)) = sc_scale s.
Proof.
  destruct (dynamic_init f64_65536 f64_one f64_two (S754_finite false 9007199254740991 (-53)) 3 1) as [s|] eqn:E; [|vm_compute in E; discriminate E].
  exists s. split; [reflexivity|]. intros n. rewrite updates_overflow. cbn [with_trackers sc_scale]. vm_compute in E. injection E as <-.
  cbn [sc_backoff_factor sc_min_scale sc_scale sc_hysteresis_tracker]. match goal with |- backoff _ _ ?k _ = _ => generalize k end. intros k.
  induction k as [|k IH]; [reflexivity|]. cbn [backoff].
  match goal with |- backoff ?f ?m k ?x = ?y => assert (Ex : x = y) by (vm_compute; reflexivity); rewrite Ex; exact IH end.
Qed.
