(* ===== verification/OptimizerStep.v ===== *)
(** * A step of the mixed-precision optimizer

    [MixedPrecisionOptimizer.step] of [megatron/core/optimizer/optimizer.py] for the distributed
    optimizer, with the gradient clipping of [clip_grads.py]: gradients to the shards, unscaling and
    the check for overflow, the update of the loss scale, clipping, the step of the inner optimizer
    and the copy to the parameter buffer, on all ranks that reduce gradient statistics together. *)

From Stdlib Require Import SpecFloat.
From S2P Require Import Prelude PyFloat GradBuffer GradBufferProofs DistOpt DistOptProofs DistOptInit DistOptCheckpoint DistOptTheorems DistOptUpdate GradScaler.

(* ================================================================== *)
(** ** Interfaces                                                      *)
(* ================================================================== *)

(** What torch and the multi-tensor kernels do to float32 elements: [isfinite], the product with a float32 and with
    a Python float, the L2 norm of tensors, the sum of an all-reduce and [x ** 0.5]. *)
Class GradOps (V : Type) := {
  v_finite : V -> bool;
  v_unscale : f32 -> V -> V;
  v_scale : f64 -> V -> V;
  l2_norm : list (list V) -> f32;
  sum32 : list f32 -> f32;
  pow_half : f64 -> f64
}.

(** [1.0e-6] *)
Definition f64_micro : f64 := S754_finite false 4722366482869645 (-72).
Definition f64_add (x y : f64) : f64 := SFadd prec64 emax64 x y.

(** The step of the inner optimizer changes the tensors of its parameters and of its state in place. *)
Class InnerOptimizer (V : Type) := inner_step : list (option tensor) -> store V -> store V.
Class StepLaws (V : Type) `{!GradOps V, !InnerOptimizer V} : Prop := {
  inner_sizes : forall params (st : store V) s, length (storage_values (inner_step params st) s) = length (storage_values st s);
  inner_state : forall params (st : store V) k d, st_optim st !! k = Some d ->
    exists d', st_optim (inner_step params st) !! k = Some d' /\ map (fun x => (fst x, length (snd x))) d' = map (fun x => (fst x, length (snd x))) d;
  norm_not_negative : forall x, f64_is_zero (f64_add (pow_half x) f64_micro) = false
}.

(* ================================================================== *)
(** ** Tensors changed in place                                        *)
(* ================================================================== *)

Section InPlace.
Context {V : Type}.

Definition map_tensor (f : V -> V) (st : store V) (t : tensor) : store V :=
  set_storage (t_storage t) (splice (storage_values st (t_storage t)) (t_start t) (map f (tensor_values st t))) st.
Definition map_tensors (f : V -> V) (ts : list tensor) (st : store V) : store V := fold_left (map_tensor f) ts st.

Definition fits (st : store V) (t : tensor) : Prop :=
  0 <= t_start t /\ t_start t <= t_end t /\ t_end t <= Z.of_nat (length (storage_values st (t_storage t))).
Definition disjoint_tensors (t t' : tensor) : Prop :=
  t_storage t <> t_storage t' \/ t_end t <= t_start t' \/ t_end t' <= t_start t.

Lemma length_tensor st t : fits st t -> Z.of_nat (length (tensor_values st t)) = t_end t - t_start t.
Proof. intros (H1 & H2 & H3). unfold tensor_values. rewrite length_slice; lia. Qed.

Lemma map_tensor_size f st t s : fits st t -> length (storage_values (map_tensor f st t) s) = length (storage_values st s).
Proof.
  intros Hf. pose proof (length_tensor st t Hf) as HL. destruct Hf as (H1 & H2 & H3). unfold map_tensor. destruct (decide (s = t_storage t)) as [->|Hs].
  - rewrite storage_set_eq, length_splice; [done|lia|]. rewrite length_map. lia.
  - by rewrite storage_set_ne.
Qed.
Lemma map_tensor_eq f st t : fits st t -> tensor_values (map_tensor f st t) t = map f (tensor_values st t).
Proof.
  intros Hf. pose proof (length_tensor st t Hf) as HL. destruct Hf as (H1 & H2 & H3). unfold map_tensor. unfold tensor_values at 1. rewrite storage_set_eq.
  apply slice_splice_eq; rewrite ?length_map; lia.
Qed.
Lemma map_tensor_ne f st t t' : fits st t -> 0 <= t_start t' -> disjoint_tensors t t' -> tensor_values (map_tensor f st t) t' = tensor_values st t'.
Proof.
  intros Hf Hp Hd. pose proof (length_tensor st t Hf) as HL. destruct Hf as (H1 & H2 & H3). unfold map_tensor, tensor_values at 1.
  destruct (decide (t_storage t' = t_storage t)) as [E|Hs]; [|by rewrite storage_set_ne]. rewrite E, storage_set_eq. unfold tensor_values. rewrite E.
  destruct Hd as [Hd|Hd]; [congruence|]. apply slice_splice_ne; rewrite ?length_map; unfold tensor_values in HL; lia.
Qed.

(** Every tensor changes once when the tensors are disjoint. *)
Lemma map_tensors_ok f ts : forall st, Forall (fits st) ts -> (forall i j t t', i <> j -> ts !! i = Some t -> ts !! j = Some t' -> disjoint_tensors t t') ->
  (forall s, length (storage_values (map_tensors f ts st) s) = length (storage_values st s)) /\
  (forall t, t ∈ ts -> tensor_values (map_tensors f ts st) t = map f (tensor_values st t)) /\
  (forall t, 0 <= t_start t -> Forall (fun t' => disjoint_tensors t' t) ts -> tensor_values (map_tensors f ts st) t = tensor_values st t) /\
  (forall s, Forall (fun t => t_storage t <> s) ts -> storage_values (map_tensors f ts st) s = storage_values st s) /\
  st_optim (map_tensors f ts st) = st_optim st /\ st_grad (map_tensors f ts st) = st_grad st /\ st_decoupled_grad (map_tensors f ts st) = st_decoupled_grad st.
Proof.
  induction ts as [|t ts IH]; intros st Hf Hd.
  { split_and!; try done. intros t Ht. by apply elem_of_nil in Ht. }
  inversion_clear Hf as [|? ? Ht Hts]. cbn [map_tensors fold_left]. fold (map_tensors f ts (map_tensor f st t)).
  assert (Hts' : Forall (fits (map_tensor f st t)) ts).
  { eapply Forall_impl; [exact Hts|]. intros t' (K1 & K2 & K3). split_and!; try done. by rewrite map_tensor_size. }
  assert (Hapart : Forall (fun t' => disjoint_tensors t t') ts).
  { apply Forall_lookup. intros j t' Hj. apply (Hd 0%nat (S j)); [lia|done|done]. }
  destruct (IH (map_tensor f st t) Hts') as (I1 & I2 & I3 & I4 & I5 & I6 & I7); [intros i j ? ? Hij; apply (Hd (S i) (S j)); lia|].
  split; [intros s; rewrite I1; by apply map_tensor_size|]. split; [|split; [|split; [|by split_and!]]].
  - intros t' [->|Hin]%elem_of_cons.
    + rewrite I3; [by apply map_tensor_eq|apply Ht|]. eapply Forall_impl; [exact Hapart|]. unfold disjoint_tensors. intros. intuition congruence.
    + rewrite I2 by done. f_equal. rewrite Forall_forall in Hapart, Hts. apply map_tensor_ne; [done|apply (Hts t' Hin)|by apply Hapart].
  - intros t' Hp Hall. inversion_clear Hall. rewrite I3 by done. by apply map_tensor_ne.
  - intros s Hall. inversion_clear Hall. rewrite I4 by done. unfold map_tensor. by rewrite storage_set_ne.
Qed.
End InPlace.

(* ================================================================== *)
(** ** The step                                                        *)
(* ================================================================== *)

(** A call that returns a value and the new state. *)
Definition exec {S A} (m : M S A) (s : S) : res (A * S) := match m s with (Ok x, s') => Ok (x, s') | (Err e, _) => Err e end.

(** [inv_scale] *)
Definition inv_scale (g : grad_scaler) : f32 := f32_of_f64 (SFdiv prec64 emax64 f64_one (f64_of_f32 (scale_of g))).

(** The configuration of the step, the same on all ranks; [has_scaler] says whether [grad_scaler] is given. *)
Record step_config := mkStepCfg {
  has_scaler : bool;
  clip_grad : f64;
  reuse_grad_buf : bool;
  step_overlap_param_gather : bool
}.

Section Step.
Context {V : Type} `{!Values V, !GradOps V, !InnerOptimizer V}.

(** A rank: [rk_counted] is [param_is_not_shared(param) and param_is_not_tensor_parallel_duplicate(param)]; without an inner
    optimizer ([rk_opt] is [None]) it is a stub that only takes part in reductions. *)
Record rank := mkRank {
  rk_at : attributes;
  rk_counted : Z -> bool;
  rk_opt : option dist_opt;
  rk_scaler : grad_scaler;
  rk_store : store V
}.

Definition with_store (rk : rank) (st : store V) : rank := mkRank (rk_at rk) (rk_counted rk) (rk_opt rk) (rk_scaler rk) st.

(** A local computation of a rank, nothing on a stub. *)
Definition on_rank {A} (rk : rank) (default_ : A) (f : dist_opt -> M (store V) A) : res (A * rank) :=
  match rk_opt rk with
  | None => mret (default_, rk)
  | Some o => x ← exec (f o) (rk_store rk); mret (fst x, with_store rk (snd x))
  end.

(** The attribute that holds the gradient of a shard. *)
Definition grad_attr (o : dist_opt) (st : store V) : gmap Z tensor := if precision_aware (do_cfg o) then st_decoupled_grad st else st_grad st.

(** [_collect_main_grad_data_for_unscaling] *)
Definition collect_main_grad_data_for_unscaling (o : dist_opt) : M (store V) (list tensor) :=
  st ← getM;
  liftM (mapR (fun p =>
    t ← some_tensor p;
    match grad_attr o st !! t_param t with
    | Some g => mret g
    | None => raise_ AttributeError "'NoneType' object has no attribute 'data'"
    end) (concat (do_params o))).

(** [_unscale_main_grads_and_check_for_nan] up to its all-reduce: the value that the rank contributes. *)
Definition unscale_main_grads (g : grad_scaler) (o : dist_opt) : M (store V) bool :=
  main_grads ← collect_main_grad_data_for_unscaling o;
  st ← getM;
  modM (map_tensors (v_unscale (inv_scale g)) main_grads) ;;
  mret (existsb (fun t => existsb (fun v => negb (v_finite v)) (tensor_values st t)) main_grads).

(** [prepare_grads] of one rank, up to the all-reduce. *)
Definition prepare_local (cfg : step_config) (rk : rank) : res (bool * rank) :=
  on_rank rk false (fun o =>
    copy_model_grads_to_main_grads (rk_at rk) o ;;
    if has_scaler cfg then unscale_main_grads (rk_scaler rk) o else mret false).

(** [grad_scaler.update(found_inf_flag)] *)
Definition update_rank (cfg : step_config) (found_inf : bool) (rk : rank) : rank :=
  if has_scaler cfg then mkRank (rk_at rk) (rk_counted rk) (rk_opt rk) (update_scaler (rk_scaler rk) found_inf) (rk_store rk) else rk.

(** [prepare_grads]: [found_inf] is reduced with MAX over the ranks. *)
Definition prepare_grads (cfg : step_config) (ranks : list rank) : res (bool * list rank) :=
  xs ← mapR (prepare_local cfg) ranks;
  let found_inf := existsb fst xs in
  mret (found_inf, map (fun x => update_rank cfg found_inf (snd x)) xs).

(** [get_main_grads_for_grad_norm] and the rank's summand of the squared norm. *)
Definition main_grads_for_grad_norm (rk : rank) (o : dist_opt) : M (store V) (list (list V)) :=
  st ← getM;
  ts ← liftM (mapR some_tensor (concat (do_params o)));
  mret (omap (fun t => if rk_counted rk (t_param t) then tensor_values st <$> grad_attr o st !! t_param t else None) ts).
Definition local_norm (rk : rank) : res f32 :=
  x ← on_rank rk [] (main_grads_for_grad_norm rk);
  let norm := match fst x with [] => S754_zero false | grads => l2_norm grads end in
  mret (f32_mul norm norm).

(** [clip_grad_by_total_norm_fp32] *)
Definition clip_coefficient (max_norm total_norm : f64) : res (option f64) :=
  clip_coeff ← float_div max_norm (f64_add total_norm f64_micro);
  mret (if SFltb clip_coeff f64_one then Some clip_coeff else None).
Definition clip_grad_by_total_norm (max_norm total_norm : f64) (o : dist_opt) : M (store V) unit :=
  st ← getM;
  ts ← liftM (mapR some_tensor (concat (do_params o)));
  let grads := omap (fun t => grad_attr o st !! t_param t) ts in
  c ← liftM (clip_coefficient max_norm total_norm);
  match c with
  | Some clip_coeff => modM (map_tensors (v_scale clip_coeff) grads)
  | None => mret tt
  end.

(** [clip_grad_norm] on all ranks; a rank without parameters clips nothing. *)
Definition clip_grad_norm (max_norm : f64) (ranks : list rank) : res (f64 * list rank) :=
  norms ← mapR local_norm ranks;
  let total_norm := pow_half (f64_of_f32 (sum32 norms)) in
  xs ← mapR (fun rk => on_rank rk tt (fun o =>
         match concat (do_params o) with
         | [] => mret tt
         | _ => clip_grad_by_total_norm max_norm total_norm o
         end)) ranks;
  mret (total_norm, map snd xs).

(** [step_with_ready_grads], without the all-gather that follows. *)
Definition step_with_ready_grads (cfg : step_config) (rk : rank) : res rank :=
  x ← on_rank rk tt (fun o =>
    modM (inner_step (concat (do_params o))) ;;
    if reuse_grad_buf cfg then
      if negb (step_overlap_param_gather cfg) then copy_main_params_to_param_buffer (rk_at rk) o else mret tt
    else copy_main_params_to_model_params (rk_at rk) o);
  mret (snd x).

(** [step]: success, the norm and the ranks. *)
Definition step (cfg : step_config) (ranks : list rank) : res (bool * option f64 * list rank) :=
  x ← prepare_grads cfg ranks;
  let '(found_inf_flag, ranks) := x in
  if found_inf_flag : bool then mret (false, None, ranks)
  else
    y ← (if SFltb f64_zero (clip_grad cfg) then clip_grad_norm (clip_grad cfg) ranks else mret (f64_zero, ranks));
    let '(grad_norm, ranks) := y in
    ranks ← mapR (step_with_ready_grads cfg) ranks;
    mret (true, Some grad_norm, ranks).
End Step.
Arguments rank : clear implicits.
Arguments mkRank {_} _ _ _ _ _.
Arguments rk_at {_} _.
Arguments rk_counted {_} _.
Arguments rk_opt {_} _.
Arguments rk_scaler {_} _.
Arguments rk_store {_} _.

(* ================================================================== *)
(** ** One rank                                                        *)
(* ================================================================== *)

(** A rank that owns its part of buffers built for [dp] ranks, with the state of an inner optimizer. *)
Record owner {V} (at_ : attributes) (o : dist_opt) (dp r : Z) (st : store V) : Prop := {
  ow_built : Forall (built dp) (do_buffers o);
  ow_ids : NoDup (map p_id (concat (map bf_params (do_buffers o))));
  ow_typed : typed at_ (do_buffers o);
  ow_plain : forall bf p, bf ∈ do_buffers o -> p ∈ bf_params bf -> p_float8 p = false;
  ow_rank : 0 <= r < dp;
  ow_consistent : consistent at_ (do_buffers o) r o;
  ow_ready : checkpoint_ready at_ (do_buffers o) r st;
  ow_grads : grads_sized (do_buffers o) st
}.

(** Storages that are no gradients. *)
Definition kept_storage (s : storage) : Prop := match s with GradData _ | MainGrad _ => False | _ => True end.

Lemma some_tensors ts : mapR some_tensor (map Some ts) = Ok ts.
Proof. induction ts as [|t ts IH]; [done|]. cbn. by rewrite IH. Qed.

Section OneRank.
Context {V : Type} `{!Values V, !ValuesLaws V, !GradOps V, !InnerOptimizer V, !StepLaws V}.
Context (at_ : attributes) (o : dist_opt) (dp r : Z) (st : store V) (Ow : owner at_ o dp r st).
Local Notation buffers := (do_buffers o).
Local Notation owns := (owns (do_buffers o) r).

Let WB : Forall well_placed buffers := all_placed dp buffers (ow_built _ _ _ _ _ Ow).
Let Hr : Forall (fun bf => 0 <= r < bf_dp bf) buffers.
Proof. eapply Forall_impl; [apply (ow_built _ _ _ _ _ Ow)|]. intros bf Hbf. destruct (built_placed dp bf Hbf) as [_ ->]. apply (ow_rank _ _ _ _ _ Ow). Qed.
Let C : consistent at_ buffers r o := ow_consistent _ _ _ _ _ Ow.

(** The rank before the inner step: every shard has its gradient, changed by [f], and nothing else has changed. *)
Record prepared (f : V -> V) (st1 : store V) : Prop := {
  pr_optim : st_optim st1 = st_optim st;
  pr_kept : forall s, kept_storage s -> storage_values st1 s = storage_values st s;
  pr_size : forall g, length (storage_values st1 (GradData g)) = length (storage_values st (GradData g));
  pr_grad : forall g bf i b p rs, owns g bf i b p rs ->
    st_grad st1 !! p_id p = Some (grad_tensor g bf p rs) /\ tensor_values st1 (grad_tensor g bf p rs) = map f (grad_part st g rs)
}.

Lemma grad_fits f st1 g bf i b p rs : prepared f st1 -> owns g bf i b p rs -> fits st1 (grad_tensor g bf p rs).
Proof.
  intros Pr Ho. destruct (owns_bounds buffers WB r Hr _ _ _ _ _ _ Ho) as (B1 & B2 & B3 & B4 & B5).
  destruct (pr_grad _ _ Pr _ _ _ _ _ _ Ho) as [_ Hv]. pose proof (length_grad_part buffers WB r Hr st g bf i b p rs (ow_grads _ _ _ _ _ Ow) Ho) as HL.
  assert (HL' : length (tensor_values st1 (grad_tensor g bf p rs)) = length (grad_part st g rs)) by (by rewrite Hv, length_map).
  pose proof (ow_grads _ _ _ _ _ Ow g bf (proj1 Ho)) as Hg. unfold fits, grad_tensor in *. destruct (decide _); cbn [t_start t_end t_storage] in *.
  - rewrite (pr_size _ _ Pr). lia.
  - unfold tensor_values, py_slice in HL'. cbn [t_start t_end t_storage Z.to_nat drop] in HL'. rewrite length_take, length_drop in HL'. lia.
Qed.

Lemma grads_disjoint g bf i b p rs g' bf' i' b' q qs : owns g bf i b p rs -> owns g' bf' i' b' q qs -> p_id p <> p_id q ->
  disjoint_tensors (grad_tensor g bf p rs) (grad_tensor g' bf' q qs).
Proof.
  intros Hp Hq Hne. unfold disjoint_tensors, grad_tensor. do 2 destruct (decide _); cbn; try (left; congruence).
  destruct (decide (g = g')) as [->|]; [|left; intros [= E]; lia]. right.
  apply (world_apart buffers WB r Hr g' bf i b p rs bf' i' b' q qs Hp Hq Hne).
Qed.

(** The gradients of the inner optimizer's parameters. *)
Lemma grads_of_params f st1 : prepared f st1 -> exists shards grads, concat (do_params o) = map Some shards /\
  mapR (fun p => t ← some_tensor p; match grad_attr o st1 !! t_param t with
                 | Some g => mret g | None => raise_ AttributeError "'NoneType' object has no attribute 'data'" end) (concat (do_params o)) = Ok grads /\
  omap (fun t => grad_attr o st1 !! t_param t) shards = grads /\
  (forall t, t ∈ grads <-> exists g bf i b p rs, owns g bf i b p rs /\ t = grad_tensor g bf p rs) /\
  Forall (fits st1) grads /\ forall i j t t', i <> j -> grads !! i = Some t -> grads !! j = Some t' -> disjoint_tensors t t'.
Proof.
  intros Pr. destruct (inner_params at_ buffers r o C) as (ts & Ets & Hnd & Hin & Hown). exists ts.
  assert (Hg : forall t, t ∈ ts -> exists g bf i b p rs, owns g bf i b p rs /\ t = shard_tensor at_ g p rs /\ grad_attr o st1 !! t_param t = Some (grad_tensor g bf p rs)).
  { intros t Ht. destruct (Hin t Ht) as (g & bf & i & b & p & rs & Ho & ->). exists g, bf, i, b, p, rs. split; [done|]. split; [done|].
    unfold grad_attr. rewrite (cs_cfg _ _ _ _ C), t_param_shard. apply (pr_grad _ _ Pr _ _ _ _ _ _ Ho). }
  set (grads := omap (fun t => grad_attr o st1 !! t_param t) ts). exists grads. split; [done|].
  assert (Hmem : forall t, t ∈ grads <-> exists g bf i b p rs, owns g bf i b p rs /\ t = grad_tensor g bf p rs).
  { intros t. unfold grads. rewrite list_elem_of_omap. split.
    - intros (t0 & Ht0 & E). destruct (Hg t0 Ht0) as (g & bf & i & b & p & rs & Ho & _ & E'). rewrite E' in E. injection E as <-. eauto 10.
    - intros (g & bf & i & b & p & rs & Ho & ->). exists (shard_tensor at_ g p rs). split; [by eapply Hown|].
      unfold grad_attr. rewrite (cs_cfg _ _ _ _ C), t_param_shard. apply (pr_grad _ _ Pr _ _ _ _ _ _ Ho). }
  assert (Hfst : map t_param grads = map t_param ts /\ mapR (fun p => t ← some_tensor p; match grad_attr o st1 !! t_param t with
     | Some g => mret g | None => raise_ AttributeError "'NoneType' object has no attribute 'data'" end) (concat (do_params o)) = Ok grads).
  { rewrite Ets. unfold grads. match goal with |- _ /\ mapR ?F _ = _ => set (get_grad := F) end. clear -Hg.
    induction ts as [|t ts IH]; [done|]. destruct IH as [IH1 IH2]; [intros t' Ht'; apply Hg; by right|].
    destruct (Hg t) as (g & bf & i & b & p & rs & Ho & Et & E); [left|]. cbn [omap list_omap]. rewrite E. cbn [map mapR]. split.
    - f_equal; [|exact IH1]. rewrite Et, t_param_shard. unfold grad_tensor. by destruct (decide _).
    - assert (Eg : get_grad (Some t) = Ok (grad_tensor g bf p rs)) by (unfold get_grad; cbn; by rewrite E). rewrite Eg. cbn. by rewrite IH2. }
  destruct Hfst as [Hids Hmap]. split; [exact Hmap|]. split; [done|]. split; [exact Hmem|]. split.
  - apply Forall_forall. intros t (g & bf & i & b & p & rs & Ho & ->)%Hmem. by eapply grad_fits.
  - intros i j t t' Hij Hi Hj. destruct (proj1 (Hmem t) (list_elem_of_lookup_2 _ _ _ Hi)) as (g & bf & i1 & b & p & rs & Ho & ->).
    destruct (proj1 (Hmem t') (list_elem_of_lookup_2 _ _ _ Hj)) as (g' & bf' & i' & b' & q & qs & Ho' & ->). eapply grads_disjoint; [exact Ho|exact Ho'|].
    intros E. apply Hij. rewrite <- Hids in Hnd. rewrite NoDup_alt in Hnd. apply (Hnd i j (p_id p)).
    + apply list_lookup_fmap_Some. eexists. split; [|exact Hi]. unfold grad_tensor. by destruct (decide _).
    + apply list_lookup_fmap_Some. eexists. split; [|exact Hj]. unfold grad_tensor. rewrite E. by destruct (decide _).
Qed.

(** Changing all gradients in place. *)
Lemma map_grads h f st1 grads : prepared f st1 -> Forall (fits st1) grads ->
  (forall i j t t', i <> j -> grads !! i = Some t -> grads !! j = Some t' -> disjoint_tensors t t') ->
  (forall t, t ∈ grads <-> exists g bf i b p rs, owns g bf i b p rs /\ t = grad_tensor g bf p rs) ->
  prepared (fun v => h (f v)) (map_tensors h grads st1).
Proof.
  intros Pr Hf Hd Hmem. destruct (map_tensors_ok h grads st1 Hf Hd) as (M1 & M2 & _ & M4 & M5 & M6 & _). split.
  - rewrite M5. apply (pr_optim _ _ Pr).
  - intros s Hs. rewrite M4; [by apply (pr_kept _ _ Pr)|]. apply Forall_forall. intros t (g & bf & i & b & p & rs & Ho & ->)%Hmem <-.
    unfold grad_tensor in Hs. by destruct (decide _).
  - intros g. rewrite M1. apply (pr_size _ _ Pr).
  - intros g bf i b p rs Ho. destruct (pr_grad _ _ Pr _ _ _ _ _ _ Ho) as [Hg Hv]. rewrite M6. split; [done|].
    rewrite M2 by (apply Hmem; eauto 10). by rewrite Hv, map_map.
Qed.

(** Some gradient that the rank owns is infinite or not a number. *)
Definition overflows : Prop := exists g bf i b p rs v, owns g bf i b p rs /\ v ∈ grad_part st g rs /\ v_finite v = false.

Lemma prepare_ok cfg gs : exists found st1,
  exec (copy_model_grads_to_main_grads at_ o ;; if has_scaler cfg then unscale_main_grads gs o else mret false) st = Ok (found, st1) /\
  prepared (if has_scaler cfg then v_unscale (inv_scale gs) else fun v => v) st1 /\ (found = true <-> has_scaler cfg = true /\ overflows).
Proof.
  destruct (copy_model_grads_ok at_ buffers WB (ow_ids _ _ _ _ _ Ow) r Hr o C st (ow_grads _ _ _ _ _ Ow)) as (st0 & E0 & H1 & H2 & H3).
  assert (Pr : prepared (fun v => v) st0).
  { split; [done| | |].
    - intros s Hs. apply H2. by destruct s.
    - intros g. by rewrite H2.
    - intros g bf i b p rs Ho. destruct (H3 g bf i b p rs Ho) as [Hg Hv]. split; [done|]. by rewrite Hv, map_id. }
  unfold exec. rewrite (bind_step _ _ _ _ _ E0). destruct (has_scaler cfg).
  2: { exists false, st0. split; [done|]. split; [done|]. split; [done|]. by intros []. }
  destruct (grads_of_params (fun v => v) st0 Pr) as (shards & grads & Ets & Em & _ & Hmem & Hf & Hd). unfold unscale_main_grads, collect_main_grad_data_for_unscaling.
  rewrite (bind_step _ _ st0 grads st0); [|rewrite (bind_step _ _ st0 st0 st0) by done; unfold liftM; by rewrite Em].
  rewrite (bind_step _ _ st0 st0 st0) by done. rewrite (bind_step _ _ st0 tt (map_tensors (v_unscale (inv_scale gs)) grads st0)) by done.
  eexists _, _. split; [reflexivity|]. split; [by apply (map_grads (v_unscale (inv_scale gs)) _ _ _ Pr)|].
  rewrite existsb_exists. setoid_rewrite existsb_exists. split.
  - intros (t & Ht%list_elem_of_In & v & Hv%list_elem_of_In & Hn). split; [done|]. apply Hmem in Ht as (g & bf & i & b & p & rs & Ho & ->).
    destruct (H3 g bf i b p rs Ho) as [_ Et]. rewrite Et in Hv. exists g, bf, i, b, p, rs, v. split; [done|]. split; [done|]. by destruct (v_finite v).
  - intros (_ & g & bf & i & b & p & rs & v & Ho & Hv & Hn). exists (grad_tensor g bf p rs). split; [apply list_elem_of_In, Hmem; eauto 10|].
    exists v. destruct (H3 g bf i b p rs Ho) as [_ Et]. rewrite Et. split; [by apply list_elem_of_In|]. by rewrite Hn.
Qed.

Lemma norm_ok rk : rk_opt rk = Some o -> exists x, local_norm rk = Ok x.
Proof.
  intros Hrk. unfold local_norm, on_rank. rewrite Hrk. destruct (inner_params at_ buffers r o C) as (ts & Ets & _). unfold exec, main_grads_for_grad_norm.
  rewrite (bind_step _ _ (rk_store rk) (rk_store rk) (rk_store rk)) by done.
  rewrite (bind_step _ _ (rk_store rk) ts (rk_store rk)) by (unfold liftM; by rewrite Ets, some_tensors). cbn. eauto.
Qed.

(** What clipping does to an element. *)
Definition clipped (c : option f64) : V -> V := match c with Some clip_coeff => v_scale clip_coeff | None => fun v => v end.

Lemma clip_ok f st1 max_norm total_norm c : prepared f st1 -> clip_coefficient max_norm total_norm = Ok c -> exists st2,
  exec (match concat (do_params o) with [] => mret tt | _ => clip_grad_by_total_norm max_norm total_norm o end) st1 = Ok (tt, st2) /\
  prepared (fun v => clipped c (f v)) st2.
Proof.
  intros Pr Hc. destruct (grads_of_params f st1 Pr) as (shards & grads & Ets & Em & Eo & Hmem & Hf & Hd).
  assert (Emap : mapR some_tensor (concat (do_params o)) = Ok shards) by (by rewrite Ets, some_tensors).
  pose proof (map_grads (clipped c) f st1 grads Pr Hf Hd Hmem) as Pr'. destruct (concat (do_params o)) as [|t0 l] eqn:E0.
  - destruct shards; [|done]. cbn in Eo. subst grads. exists st1. split; [done|exact Pr'].
  - unfold exec, clip_grad_by_total_norm. rewrite (bind_step _ _ st1 st1 st1) by done. rewrite E0.
    rewrite (bind_step _ _ st1 shards st1) by (unfold liftM; by rewrite Emap). rewrite Eo, (bind_step _ _ st1 c st1) by (unfold liftM; by rewrite Hc).
    destruct c as [k|].
    + exists (map_tensors (v_scale k) grads st1). split; [done|exact Pr'].
    + exists st1. split; [done|]. destruct Pr as [P1 P2 P3 P4]. split; done.
Qed.

Lemma ready_ext (st1 st2 : store V) : checkpoint_ready at_ buffers r st1 -> (forall s, kept_storage s -> length (storage_values st2 s) = length (storage_values st1 s)) ->
  (forall k d, st_optim st1 !! k = Some d -> exists d', st_optim st2 !! k = Some d' /\ map (fun x => (fst x, length (snd x))) d' = map (fun x => (fst x, length (snd x))) d) ->
  checkpoint_ready at_ buffers r st2.
Proof.
  intros [R1 R2 R3] Hs Ho. split.
  - intros g bf Hg. rewrite Hs by done. by apply R1.
  - intros g bf i b p rs Hw H16. rewrite Hs by done. by eapply R2.
  - intros g bf i b p rs Hw. destruct (R3 g bf i b p rs Hw) as (m1 & m2 & Hm & L1 & L2). destruct (Ho _ _ Hm) as (d' & Hd & Hsh).
    destruct d' as [|[k1 n1] [|[k2 n2] [|]]]; try done. cbn in Hsh. injection Hsh as -> E1 -> E2. exists n1, n2. split; [done|]. lia.
Qed.

Lemma owner_ext (st1 : store V) : checkpoint_ready at_ buffers r st1 -> grads_sized buffers st1 -> owner at_ o dp r st1.
Proof. destruct Ow. by split. Qed.

Lemma prepared_owner f st1 : prepared f st1 -> owner at_ o dp r st1.
Proof.
  intros Pr. apply owner_ext.
  - apply (ready_ext st); [apply (ow_ready _ _ _ _ _ Ow)|intros s Hs; by rewrite (pr_kept _ _ Pr)|]. intros k d Hk. rewrite (pr_optim _ _ Pr). eauto.
  - intros g bf Hg. rewrite (pr_size _ _ Pr). by apply (ow_grads _ _ _ _ _ Ow).
Qed.

Lemma step_ok f st1 : prepared f st1 -> exists st2, copy_main_params_to_model_params at_ o (inner_step (concat (do_params o)) st1) = (Ok tt, st2) /\ owner at_ o dp r st2.
Proof.
  intros Pr. destruct (prepared_owner f st1 Pr) as [_ _ _ _ _ _ R1 G1]. set (st1' := inner_step (concat (do_params o)) st1).
  assert (R1' : checkpoint_ready at_ buffers r st1') by (apply (ready_ext st1); [done|intros s _; apply inner_sizes|apply inner_state]).
  destruct (copy_main_ok at_ buffers WB (ow_ids _ _ _ _ _ Ow) (ow_plain _ _ _ _ _ Ow) r Hr o C st1' R1') as (st2 & E & _ & _ & Ho & Hs).
  exists st2. split; [done|]. apply owner_ext.
  - apply (ready_ext st1'); [done|intros s _; apply Hs|]. rewrite Ho. eauto.
  - intros g bf Hg. rewrite Hs. unfold st1'. rewrite inner_sizes. by apply G1.
Qed.
End OneRank.

(* ================================================================== *)
(** ** All ranks                                                       *)
(* ================================================================== *)

Section AllRanks.
Context {V : Type} `{!Values V, !ValuesLaws V, !GradOps V, !InnerOptimizer V, !StepLaws V} (cfg : step_config) (gs : grad_scaler).

Definition rank_ready (rk : rank V) : Prop :=
  match rk_opt rk with None => True | Some o => exists dp, owner (rk_at rk) o dp (do_rank o) (rk_store rk) end.
Definition rank_overflows (rk : rank V) : Prop := match rk_opt rk with None => False | Some o => overflows o (do_rank o) (rk_store rk) end.

(** What unscaling does to an element. *)
Definition unscaled : V -> V := if has_scaler cfg then v_unscale (inv_scale gs) else fun v => v.

(** The rank has its gradients, changed by [f]. *)
Definition has_grads (f : V -> V) (rk rk1 : rank V) : Prop :=
  rk_at rk1 = rk_at rk /\ rk_opt rk1 = rk_opt rk /\
  match rk_opt rk with None => rk_store rk1 = rk_store rk | Some o => prepared o (do_rank o) (rk_store rk) f (rk_store rk1) end.

(** The rank after the step. *)
Definition updated (f : V -> V) (rk rk1 : rank V) : Prop :=
  match rk_opt rk with
  | None => rk_store rk1 = rk_store rk
  | Some o => exists st1, prepared o (do_rank o) (rk_store rk) f st1 /\
      copy_main_params_to_model_params (rk_at rk) o (inner_step (concat (do_params o)) st1) = (Ok tt, rk_store rk1)
  end.

(** The rank after a step that was skipped. *)
Definition skipped (rk rk1 : rank V) : Prop :=
  st_optim (rk_store rk1) = st_optim (rk_store rk) /\ forall s, kept_storage s -> storage_values (rk_store rk1) s = storage_values (rk_store rk) s.

Lemma has_grads_skipped f rk rk1 : has_grads f rk rk1 -> skipped rk rk1.
Proof.
  intros (_ & _ & H). unfold skipped. destruct (rk_opt rk) as [o|]; [|by rewrite H]. split; [apply (pr_optim _ _ _ _ _ H)|apply (pr_kept _ _ _ _ _ H)].
Qed.
Lemma has_grads_ready f rk rk1 : rank_ready rk -> has_grads f rk rk1 -> rank_ready rk1.
Proof.
  unfold rank_ready. intros Hr (Ea & Eo & H). rewrite Ea, Eo. destruct (rk_opt rk) as [o|]; [|done]. destruct Hr as [dp Hr]. exists dp. by eapply prepared_owner.
Qed.

Lemma prepare_rank rk : rank_ready rk -> rk_scaler rk = gs -> exists found rk1, prepare_local cfg rk = Ok (found, rk1) /\ rk_scaler rk1 = gs /\
  has_grads unscaled rk rk1 /\ (found = true <-> has_scaler cfg = true /\ rank_overflows rk).
Proof.
  unfold rank_ready, prepare_local, on_rank, has_grads, rank_overflows. intros Hr Hs. destruct (rk_opt rk) as [o|] eqn:Eo.
  - destruct Hr as [dp Ow]. destruct (prepare_ok (rk_at rk) o dp (do_rank o) (rk_store rk) Ow cfg gs) as (found & st1 & E & Pr & Hf).
    rewrite Hs, E. exists found, (with_store rk st1). split; [done|]. split; [done|]. split; [|exact Hf]. split; [done|]. split; [done|]. exact Pr.
  - exists false, rk. split; [done|]. split; [done|]. rewrite Eo. split; [done|]. split; [done|]. by intros [].
Qed.

Lemma update_rank_same found (rk1 : rank V) : rk_at (update_rank cfg found rk1) = rk_at rk1 /\ rk_opt (update_rank cfg found rk1) = rk_opt rk1 /\
  rk_store (update_rank cfg found rk1) = rk_store rk1.
Proof. unfold update_rank. by destruct (has_scaler cfg). Qed.

Lemma prepare_all ranks : Forall rank_ready ranks -> Forall (fun rk => rk_scaler rk = gs) ranks ->
  exists found ranks1, prepare_grads cfg ranks = Ok (found, ranks1) /\ length ranks1 = length ranks /\
    (found = true <-> has_scaler cfg = true /\ exists rk, rk ∈ ranks /\ rank_overflows rk) /\
    forall k rk rk1, ranks !! k = Some rk -> ranks1 !! k = Some rk1 ->
      rk_scaler rk1 = (if has_scaler cfg then update_scaler gs found else gs) /\ has_grads unscaled rk rk1.
Proof.
  intros Hr Hs. rewrite Forall_lookup in Hr, Hs.
  destruct (mapR_ix (prepare_local cfg) (fun _ rk x => rk_scaler (snd x) = gs /\ has_grads unscaled rk (snd x) /\ (fst x = true <-> has_scaler cfg = true /\ rank_overflows rk)) ranks)
    as (xs & E & Hl & Hx).
  { intros k rk Hk. destruct (prepare_rank rk (Hr k rk Hk) (Hs k rk Hk)) as (found & rk1 & E & H). by exists (found, rk1). }
  exists (existsb fst xs), (map (fun x => update_rank cfg (existsb fst xs) (snd x)) xs). unfold prepare_grads. rewrite E. split; [done|].
  split; [by rewrite length_map|]. split.
  - rewrite existsb_exists. split.
    + intros ([f rk1] & [k Hk]%list_elem_of_In%list_elem_of_lookup & Hf). destruct (lookup_lt_is_Some_2 ranks k) as [rk Hrk]; [rewrite <- Hl; by eapply lookup_lt_Some|].
      destruct (Hx k rk _ Hrk Hk) as (_ & _ & Hi). destruct (proj1 Hi Hf) as [Hh Ho]. split; [done|]. exists rk. split; [by eapply list_elem_of_lookup_2|done].
    + intros (Hh & rk & [k Hrk]%list_elem_of_lookup & Ho). destruct (lookup_lt_is_Some_2 xs k) as [x Hk]; [rewrite Hl; by eapply lookup_lt_Some|].
      exists x. split; [apply list_elem_of_In; by eapply list_elem_of_lookup_2|]. destruct (Hx k rk x Hrk Hk) as (_ & _ & Hi). by apply Hi.
  - intros k rk rk1 Hk Hk1. apply list_lookup_fmap_Some in Hk1 as (x & -> & Hx1). destruct (Hx k rk x Hk Hx1) as (Hg & (A1 & A2 & A3) & _).
    destruct (update_rank_same (existsb fst xs) (snd x)) as (U1 & U2 & U3). split.
    + unfold update_rank. destruct (has_scaler cfg); cbn; by rewrite Hg.
    + unfold has_grads. rewrite U1, U2, U3. done.
Qed.

Lemma clip_coefficient_ok max_norm x : exists c, clip_coefficient max_norm (pow_half x) = Ok c.
Proof. unfold clip_coefficient, float_div. rewrite norm_not_negative. cbn. eauto. Qed.

(** The second half of the step. *)
Definition finish (ranks1 : list (rank V)) : res (bool * option f64 * list (rank V)) :=
  y ← (if SFltb f64_zero (clip_grad cfg) then clip_grad_norm (clip_grad cfg) ranks1 else mret (f64_zero, ranks1));
  let '(grad_norm, ranks2) := y in
  ranks3 ← mapR (step_with_ready_grads cfg) ranks2;
  mret (true, Some grad_norm, ranks3).

Lemma clip_all ranks ranks1 f : Forall rank_ready ranks -> length ranks1 = length ranks ->
  (forall k rk rk1, ranks !! k = Some rk -> ranks1 !! k = Some rk1 -> has_grads f rk rk1) ->
  exists norm c ranks2, (if SFltb f64_zero (clip_grad cfg) then clip_grad_norm (clip_grad cfg) ranks1 else mret (f64_zero, ranks1)) = Ok (norm, ranks2) /\
    length ranks2 = length ranks /\ forall k rk rk1 rk2, ranks !! k = Some rk -> ranks1 !! k = Some rk1 -> ranks2 !! k = Some rk2 ->
      rk_scaler rk2 = rk_scaler rk1 /\ has_grads (fun v => clipped c (f v)) rk rk2.
Proof.
  intros Hr Hl Hg. rewrite Forall_lookup in Hr. destruct (SFltb f64_zero (clip_grad cfg)).
  2: { exists f64_zero, None, ranks1. split; [done|]. split; [done|]. intros k rk rk1 rk2 Hk Hk1 Hk2. rewrite Hk1 in Hk2. injection Hk2 as <-. split; [done|by apply (Hg k)]. }
  assert (Hrk : forall k rk1, ranks1 !! k = Some rk1 -> exists rk, ranks !! k = Some rk).
  { intros k rk1 Hk. apply lookup_lt_is_Some. rewrite <- Hl. by eapply lookup_lt_Some. }
  unfold clip_grad_norm. destruct (mapR_ix local_norm (fun _ _ _ => True) ranks1) as (norms & -> & _ & _).
  { intros k rk1 Hk. destruct (Hrk k rk1 Hk) as [rk Hk0]. pose proof (Hr k rk Hk0) as R. destruct (Hg k rk rk1 Hk0 Hk) as (Ea & Eo & _). unfold rank_ready in R.
    destruct (rk_opt rk) as [o|].
    - destruct R as [dp Ow]. destruct (norm_ok (rk_at rk) o dp (do_rank o) (rk_store rk) Ow rk1 Eo) as [x E]. eauto.
    - unfold local_norm, on_rank. rewrite Eo. cbn. eauto. }
  cbn [mbind res_bind]. set (total := pow_half (f64_of_f32 (sum32 norms))). destruct (clip_coefficient_ok (clip_grad cfg) (f64_of_f32 (sum32 norms))) as [c Hc].
  fold total in Hc. match goal with |- context [mapR ?F ranks1] => destruct (mapR_ix F (fun k rk1 x => forall rk, ranks !! k = Some rk ->
    rk_scaler (snd x) = rk_scaler rk1 /\ has_grads (fun v => clipped c (f v)) rk (snd x)) ranks1) as (xs & -> & Hlx & Hx) end.
  { intros k rk1 Hk. destruct (Hrk k rk1 Hk) as [rk Hk0]. pose proof (Hr k rk Hk0) as R. destruct (Hg k rk rk1 Hk0 Hk) as (Ea & Eo & H). unfold rank_ready in R.
    unfold on_rank. rewrite Eo. destruct (rk_opt rk) as [o|] eqn:Ero.
    - destruct R as [dp Ow]. destruct (clip_ok (rk_at rk) o dp (do_rank o) (rk_store rk) Ow f (rk_store rk1) (clip_grad cfg) total c H Hc) as (st2 & -> & P2).
      eexists. split; [reflexivity|]. intros rk' Hk'. rewrite Hk0 in Hk'. injection Hk' as <-. cbn. split; [done|]. unfold has_grads. rewrite Ero. cbn. auto.
    - eexists. split; [reflexivity|]. intros rk' Hk'. rewrite Hk0 in Hk'. injection Hk' as <-. cbn. split; [done|]. unfold has_grads. rewrite Ero. auto. }
  exists total, c, (map snd xs). split; [done|]. split; [rewrite length_map; lia|]. intros k rk rk1 rk2 Hk Hk1 Hk2.
  apply list_lookup_fmap_Some in Hk2 as (x & -> & Hx2). by apply (Hx k rk1 x Hk1 Hx2).
Qed.

Lemma finish_rank rk rk2 f : reuse_grad_buf cfg = false -> rank_ready rk -> has_grads f rk rk2 ->
  exists rk3, step_with_ready_grads cfg rk2 = Ok rk3 /\ rk_scaler rk3 = rk_scaler rk2 /\ rk_opt rk3 = rk_opt rk /\ rank_ready rk3 /\ updated f rk rk3.
Proof.
  intros Hre R (Ea & Eo & H). unfold step_with_ready_grads, on_rank, rank_ready, updated in *. rewrite Eo, Hre. destruct (rk_opt rk) as [o|] eqn:Ero.
  - destruct R as [dp Ow]. destruct (step_ok (rk_at rk) o dp (do_rank o) (rk_store rk) Ow f (rk_store rk2) H) as (st3 & E & Ow3). unfold exec.
    rewrite (bind_step _ _ (rk_store rk2) tt (inner_step (concat (do_params o)) (rk_store rk2))) by done. rewrite Ea, E. eexists. split; [reflexivity|]. cbn. rewrite Eo, Ea. eauto 10.
  - eexists. split; [reflexivity|]. cbn. rewrite Eo. auto.
Qed.

Lemma finish_all ranks ranks1 f : reuse_grad_buf cfg = false -> Forall rank_ready ranks -> length ranks1 = length ranks ->
  (forall k rk rk1, ranks !! k = Some rk -> ranks1 !! k = Some rk1 -> has_grads f rk rk1) ->
  exists norm c ranks3, finish ranks1 = Ok (true, Some norm, ranks3) /\ length ranks3 = length ranks /\
    forall k rk rk1 rk3, ranks !! k = Some rk -> ranks1 !! k = Some rk1 -> ranks3 !! k = Some rk3 ->
      rk_scaler rk3 = rk_scaler rk1 /\ rk_opt rk3 = rk_opt rk /\ rank_ready rk3 /\ updated (fun v => clipped c (f v)) rk rk3.
Proof.
  intros Hre Hr Hl Hg. destruct (clip_all ranks ranks1 f Hr Hl Hg) as (norm & c & ranks2 & E & Hl2 & H2). unfold finish. rewrite E. cbn [mbind res_bind].
  rewrite Forall_lookup in Hr.
  destruct (mapR_ix (step_with_ready_grads cfg) (fun k rk2 rk3 => forall rk, ranks !! k = Some rk -> rk_scaler rk3 = rk_scaler rk2 /\ rk_opt rk3 = rk_opt rk /\
    rank_ready rk3 /\ updated (fun v => clipped c (f v)) rk rk3) ranks2) as (ranks3 & -> & Hl3 & H3).
  { intros k rk2 Hk2. pose proof (lookup_lt_Some _ _ _ Hk2). destruct (lookup_lt_is_Some_2 ranks k) as [rk Hk]; [lia|]. destruct (lookup_lt_is_Some_2 ranks1 k) as [rk1 Hk1]; [lia|].
    destruct (H2 k rk rk1 rk2 Hk Hk1 Hk2) as [_ G2]. destruct (finish_rank rk rk2 _ Hre (Hr k rk Hk) G2) as (rk3 & E3 & H3). exists rk3. split; [done|].
    intros rk' Hk'. rewrite Hk in Hk'. by injection Hk' as <-. }
  exists norm, c, ranks3. split; [done|]. split; [lia|]. intros k rk rk1 rk3 Hk Hk1 Hk3. pose proof (lookup_lt_Some _ _ _ Hk3).
  destruct (lookup_lt_is_Some_2 ranks2 k) as [rk2 Hk2]; [lia|]. destruct (H2 k rk rk1 rk2 Hk Hk1 Hk2) as [<- _]. by apply (H3 k rk2 rk3 Hk2 Hk3).
Qed.
End AllRanks.

(** (C5) A step of the optimizer on all ranks that share gradient statistics.  It always returns, and all ranks take the same
    decision: the step is skipped exactly when a loss scale is used and some gradient that some rank owns is infinite
    or not a number (padding never counts).  A skipped step changes no parameter, no main parameter and no optimizer
    state.  Otherwise every shard's gradient is the rank's part of the buffer, divided by the scale and multiplied by one clipping
    coefficient for all ranks, the inner optimizer runs once on them and the result is copied to the parameter buffer.
    The scales of the ranks stay equal, and the ranks are ready for the next step. *)
Theorem optimizer_step_spec {V} `{!Values V, !ValuesLaws V, !GradOps V, !InnerOptimizer V, !StepLaws V} cfg gs (ranks : list (rank V)) :
  reuse_grad_buf cfg = false -> Forall rank_ready ranks -> Forall (fun rk => rk_scaler rk = gs) ranks ->
  exists found norm ranks', step cfg ranks = Ok (negb found, norm, ranks') /\ length ranks' = length ranks /\
    (found = true <-> has_scaler cfg = true /\ exists rk, rk ∈ ranks /\ rank_overflows rk) /\
    exists c, forall k rk rk', ranks !! k = Some rk -> ranks' !! k = Some rk' ->
      rk_opt rk' = rk_opt rk /\ rank_ready rk' /\ rk_scaler rk' = (if has_scaler cfg then update_scaler gs found else gs) /\
      if found then skipped rk rk' else updated (fun v => clipped c (unscaled cfg gs v)) rk rk'.
Proof.
  intros Hre Hr Hs. destruct (prepare_all cfg gs ranks Hr Hs) as (found & ranks1 & E & Hl & Hf & H1). unfold step. rewrite E. cbn [mbind res_bind]. destruct found.
  - exists true, None, ranks1. split; [done|]. split; [done|]. split; [done|]. exists None. intros k rk rk' Hk Hk'. destruct (H1 k rk rk' Hk Hk') as [Hsc Hg].
    rewrite Forall_lookup in Hr. split; [apply Hg|]. split; [by eapply has_grads_ready; [apply (Hr k)|]|]. split; [done|]. by eapply has_grads_skipped.
  - destruct (finish_all cfg ranks ranks1 (unscaled cfg gs) Hre Hr Hl) as (norm & c & ranks3 & E3 & Hl3 & H3); [intros k rk rk1 Hk Hk1; by apply (H1 k)|].
    exists false, (Some norm), ranks3. split; [exact E3|]. split; [done|]. split; [done|]. exists c. intros k rk rk' Hk Hk'. pose proof (lookup_lt_Some _ _ _ Hk').
    destruct (lookup_lt_is_Some_2 ranks1 k) as [rk1 Hk1]; [lia|]. destruct (H3 k rk rk1 rk' Hk Hk1 Hk') as (A & B & D & F). destruct (H1 k rk rk1 Hk Hk1) as [Hsc _].
    split; [done|]. split; [done|]. split; [by rewrite A|done].
Qed.

(** *** A concrete step: integers as values, plain gradient descent, a rank of three and a stub. *)

#[local] Existing Instances Z_values Z_values_laws.
#[local] Instance Z_ops : GradOps Z := {|
  v_finite := fun v => v <? 5000;
  v_unscale := fun _ v => v / 2;
  v_scale := fun _ v => v / 3;
  l2_norm := fun _ => f32_pow2 3;
  sum32 := fun l => hd (S754_zero false) l;
  pow_half := fun _ => f64_two
|}.

Definition descend (st : store Z) (p : option tensor) : store Z :=
  match p with
  | None => st
  | Some t =>
      let grad := default [] (tensor_values st <$> st_grad st !! t_param t) in
      set_storage (t_storage t)
        (splice (storage_values st (t_storage t)) (t_start t) (imap (fun i x => x - default 0 (grad !! i)) (tensor_values st t))) st
  end.
#[local] Instance Z_inner : InnerOptimizer Z := fun params st => fold_left descend params st.

Lemma length_splice_slice {V} (l : list V) a b vs : length vs = length (py_slice l a b) -> length (splice l a vs) = length l.
Proof.
  unfold splice, py_slice. rewrite !length_app, !length_take, !length_drop. intros ->. lia.
Qed.
#[local] Instance Z_laws : StepLaws Z.
Proof.
  split.
  - intros params. unfold inner_step, Z_inner. induction params as [|p params IH]; intros st s; [done|]. cbn [fold_left]. rewrite IH. destruct p as [t|]; [|done].
    cbn [descend]. destruct (decide (s = t_storage t)) as [->|Hs]; [|by rewrite storage_set_ne]. rewrite storage_set_eq. eapply length_splice_slice. by rewrite length_imap.
  - intros params. unfold inner_step, Z_inner. induction params as [|p params IH]; intros st k d Hk; [eauto|]. cbn [fold_left]. apply IH. by destruct p.
  - intros x. vm_compute. reflexivity.
Qed.

Definition ex_step_cfg : step_config := mkStepCfg true f64_one false false.

(** Rank 1 of three after the constructor, with gradients [gs]. *)
Definition grad_store (gs : list Z) : store Z := mkStore {[ParamData 0 := zrange 0 1152; GradData 0 := gs]} ∅ ∅ ∅ ∅.
Definition ex_rank (gs : list Z) (o : dist_opt) (g : grad_scaler) (st : store Z) : Prop :=
  exists st0, dist_opt_init bf16_attributes (fun _ => @nil Z) ex_cfg 1 [ex_bf] [ex_params] (grad_store gs) = (Ok o, st0) /\ init_state_fn o st0 = (Ok tt, st) /\
    rank_ready (mkRank bf16_attributes (fun _ => true) (Some o) g st) /\ do_rank o = 1 /\ do_buffers o = [ex_bf] /\
    forall k, storage_values st (GradData k) = storage_values (grad_store gs) (GradData k).

Lemma ex_rank_ok gs g : length gs = 1152%nat -> exists o st, ex_rank gs o g st.
Proof.
  intros Hl. assert (Hb : buffers_sized [ex_bf] (grad_store gs)).
  { intros [|k] bf Hk; [|destruct k; discriminate Hk]. change (Some ex_bf = Some bf) in Hk. apply (inj Some) in Hk as <-.
    unfold storage_values, grad_store. cbn [st_data]. rewrite lookup_insert_eq. vm_compute. reflexivity. }
  destruct (dist_opt_init_ok bf16_attributes (fun _ => @nil Z) [ex_bf] [ex_params] ex_cfg 1
    (run_constructible _ _ 3 _ _ _ 1 ex_run ltac:(lia)) (grad_store gs) Hb) as (o & st & E & C & Er & Mk & _).
  destruct (init_state_ready bf16_attributes (fun _ => @nil Z) 3 [ex_bf] [ex_params] ex_cfg 1 o (grad_store gs) st ex_run ltac:(lia) C Mk Hb eq_refl)
    as (st2 & E2 & R2 & D2).
  assert (Hg : forall k, storage_values st2 (GradData k) = storage_values (grad_store gs) (GradData k)).
  { intros k. rewrite <- (mk_grads _ _ _ _ _ _ _ Mk). unfold storage_values. by rewrite D2. }
  assert (Hp : bf_params ex_bf = ex_params) by (vm_compute; reflexivity). pose proof (cs_buffers _ _ _ _ C) as Hbuf.
  exists o, st2, st. split; [exact E|]. split; [exact E2|]. split; [|split; [exact Er|split; [exact Hbuf|exact Hg]]].
  unfold rank_ready. cbn [rk_opt rk_at rk_store]. rewrite Er. exists 3. split; rewrite ?Hbuf.
  - constructor; [exact ex_built|constructor].
  - apply (rc_distinct _ _ _ _ _ _ ex_run).
  - apply (rc_typed _ _ _ _ _ _ ex_run).
  - intros bf p ->%list_elem_of_singleton Hin. rewrite Hp in Hin. repeat (apply elem_of_cons in Hin as [->|Hin]; [reflexivity|]). apply elem_of_nil in Hin. destruct Hin.
  - lia.
  - exact C.
  - exact R2.
  - intros [|k] bf Hk; [|destruct k; discriminate Hk]. change (Some ex_bf = Some bf) in Hk. apply (inj Some) in Hk as <-.
    rewrite Hg. unfold storage_values, grad_store. cbn [st_data]. rewrite lookup_insert_ne by discriminate. rewrite lookup_singleton_eq. cbn. rewrite Hl. vm_compute. reflexivity.
Qed.

Lemma elem_of_grad_part gs o g st k rs v : ex_rank gs o g st -> v ∈ grad_part st k rs -> v ∈ gs.
Proof.
  intros (_ & _ & _ & _ & _ & _ & Hg) Hv. unfold grad_part in Hv. rewrite Hg in Hv. unfold py_slice in Hv. apply elem_of_take in Hv as (j & Hj & _). rewrite lookup_drop in Hj.
  apply list_elem_of_lookup_2 in Hj. unfold storage_values, grad_store in Hj. cbn [st_data] in Hj. rewrite lookup_insert_ne in Hj by discriminate.
  destruct (decide (k = 0%nat)) as [->|Hk]; [by rewrite lookup_singleton_eq in Hj|]. rewrite lookup_singleton_ne in Hj by (intros [= Ek]; lia). by apply elem_of_nil in Hj.
Qed.

Lemma optimizer_step_spec_witness : exists o st norm ranks', ex_rank (replicate 1152 7) o (Constant (f32_pow2 1)) st /\
  step ex_step_cfg [mkRank bf16_attributes (fun _ => true) (Some o) (Constant (f32_pow2 1)) st; mkRank bf16_attributes (fun _ => true) None (Constant (f32_pow2 1)) ex_store] =
    Ok (true, norm, ranks') /\ length ranks' = 2%nat.
Proof.
  destruct (ex_rank_ok (replicate 1152 7) (Constant (f32_pow2 1)) eq_refl) as (o & st & R). exists o, st.
  destruct (optimizer_step_spec ex_step_cfg (Constant (f32_pow2 1)) [mkRank bf16_attributes (fun _ => true) (Some o) (Constant (f32_pow2 1)) st; mkRank bf16_attributes (fun _ => true) None (Constant (f32_pow2 1)) ex_store])
    as (found & norm & ranks' & Es & Hl & Hf & _).
  - reflexivity.
  - destruct R as (st0 & _ & _ & Hr & _). constructor; [exact Hr|]. constructor; [exact I|constructor].
  - constructor; [reflexivity|]. constructor; [reflexivity|constructor].
  - assert (Hff : found = false).
    { destruct found; [|reflexivity]. destruct (proj1 Hf eq_refl) as (_ & rk & Hin & Ho). exfalso.
      apply elem_of_cons in Hin as [->|Hin]; [|apply list_elem_of_singleton in Hin as ->; exact Ho].
      destruct Ho as (g & bf & i & b & p & rs & v & _ & Hv & Hn). cbn [rk_store] in Hv. apply (elem_of_grad_part _ _ _ _ _ _ _ R), elem_of_replicate in Hv as [-> _]. discriminate Hn. }
    subst found. exists norm, ranks'. split; [exact R|]. split; [exact Es|exact Hl].
Defined.
