(* ===== verification/ParamScheduler.v ===== *)
(** * Learning rate and weight decay schedules

    [megatron/core/optimizer_param_scheduler.py]: the scheduler as a state with the parameter groups of the optimizer,
    on IEEE-754 binary64.  The cosine and the power of the C library are parameters. *)

From Stdlib Require Import SpecFloat.
From S2P Require Import Prelude PyFloat.

(* ================================================================== *)
(** ** Floats                                                          *)
(* ================================================================== *)

Definition f64_add (x y : f64) : f64 := SFadd prec64 emax64 x y.
Definition f64_sub (x y : f64) : f64 := SFsub prec64 emax64 x y.
Definition f64_mul (x y : f64) : f64 := SFmul prec64 emax64 x y.
Definition f64_leb (x y : f64) : bool := SFleb x y.
Definition f64_zero : f64 := S754_zero false.
Definition f64_half : f64 := S754_finite false 4503599627370496 (-53).
Definition f64_two : f64 := S754_finite false 4503599627370496 (-51).
(** [math.pi] *)
Definition f64_pi : f64 := S754_finite false 7074237752028440 (-51).
(** [math.sqrt]: correctly rounded. *)
Definition math_sqrt (x : f64) : res f64 := if SFltb x f64_zero then raise_ ValueError "math domain error" else mret (SFsqrt prec64 emax64 x).
(** [max(a, b)] *)
Definition py_max (a b : f64) : f64 := if SFltb a b then b else a.

(** The functions of the C library, which do not round correctly everywhere *)
Class LibM := { math_cos : f64 -> f64; float_pow : f64 -> f64 -> f64 }.

(* ================================================================== *)
(** ** The scheduler                                                   *)
(* ================================================================== *)

(** The fields of [OptimizerParamScheduler] that the constructor takes *)
Record settings := mkSettings {
  ss_init_lr : f64;
  ss_max_lr : f64;
  ss_min_lr : f64;
  ss_lr_warmup_steps : Z;
  ss_lr_decay_steps : Z;
  ss_lr_decay_style : string;
  ss_start_wd : f64;
  ss_end_wd : f64;
  ss_wd_incr_steps : Z;
  ss_wd_incr_style : string;
  ss_use_checkpoint : bool;
  ss_override : bool;
  ss_wsd_decay_steps : option Z;
  ss_lr_wsd_decay_style : option string
}.

(** A parameter group of the optimizer: optional keys of the dictionary and the two values that the scheduler writes. *)
Record param_group := mkGroup {
  pg_max_lr : option f64;
  pg_min_lr : option f64;
  pg_lr_mult : option f64;
  pg_wd_mult : option f64;
  pg_lr : f64;
  pg_weight_decay : f64
}.

Record scheduler := mkScheduler { sh_settings : settings; sh_num_steps : Z; sh_groups : list param_group }.

Section Scheduler.
Context {LM : LibM}.

(** [0.5 * (math.cos(math.pi * x) + 1.0)] *)
Definition cosine_coeff (x : f64) : f64 := f64_mul f64_half (f64_add (math_cos (f64_mul f64_pi x)) f64_one).
(** [float(a) / float(b)] *)
Definition step_ratio (a b : Z) : res f64 := x ← float_of_int a; y ← float_of_int b; float_div x y.
(** The same, which is asserted to lie between 0 and 1. *)
Definition checked_ratio (a b : Z) (name : string) : res f64 :=
  r ← step_ratio a b; assert_ (f64_leb f64_zero r) (name +:+ " >= 0.0");; assert_ (f64_leb r f64_one) (name +:+ " <= 1.0");; mret r.

(** [get_wd] *)
Definition get_wd (s : settings) (num_steps : Z) : res f64 :=
  if ss_wd_incr_steps s <? num_steps then mret (ss_end_wd s)
  else if bool_decide (ss_wd_incr_style s = "constant") then assert_ (f64_eqb (ss_start_wd s) (ss_end_wd s)) "self.start_wd == self.end_wd";; mret (ss_end_wd s)
  else
    incr_ratio ← checked_ratio num_steps (ss_wd_incr_steps s) "incr_ratio";
    let delta_wd := f64_sub (ss_end_wd s) (ss_start_wd s) in
    coeff ← (if bool_decide (ss_wd_incr_style s = "linear") then mret incr_ratio
             else if bool_decide (ss_wd_incr_style s = "cosine") then mret (cosine_coeff (f64_sub f64_one incr_ratio))
             else raise_ Exception_ "weight decay increment style is not supported.");
    mret (f64_add (ss_start_wd s) (f64_mul coeff delta_wd)).

(** The coefficient of the style [WSD] *)
Definition wsd_coeff (s : settings) (num_steps : Z) : res (option f64) :=
  match ss_wsd_decay_steps s with
  | None => raise_ TypeError "unsupported operand type(s) for -: 'int' and 'NoneType'"
  | Some wsd_decay_steps =>
      let anneal_start := ss_lr_decay_steps s - wsd_decay_steps in
      if num_steps <=? anneal_start then mret (Some f64_one)
      else
        wsd_decay_ratio ← step_ratio (num_steps - anneal_start) wsd_decay_steps;
        if bool_decide (ss_lr_wsd_decay_style s = Some "linear"%string) then mret (Some (f64_sub f64_one wsd_decay_ratio))
        else if bool_decide (ss_lr_wsd_decay_style s = Some "cosine"%string) then mret (Some (cosine_coeff wsd_decay_ratio))
        else if bool_decide (ss_lr_wsd_decay_style s = Some "exponential"%string) then mret (Some (f64_sub (f64_mul f64_two (float_pow f64_half wsd_decay_ratio)) f64_one))
        else if bool_decide (ss_lr_wsd_decay_style s = Some "minus_sqrt"%string) then r ← math_sqrt wsd_decay_ratio; mret (Some (f64_sub f64_one r))
        else mret None
  end.

(** [get_lr] *)
Definition get_lr (s : settings) (num_steps : Z) (g : param_group) : res f64 :=
  let max_lr := default (ss_max_lr s) (pg_max_lr g) in
  let min_lr := default (ss_min_lr s) (pg_min_lr g) in
  let warmup := ss_lr_warmup_steps s in
  if (0 <? warmup) && (num_steps <=? warmup) then
    n ← float_of_int num_steps; w ← float_of_int warmup;
    q ← float_div (f64_mul (f64_sub max_lr (ss_init_lr s)) n) w;
    mret (f64_add (ss_init_lr s) q)
  else if bool_decide (ss_lr_decay_style s = "constant") then mret max_lr
  else if ss_lr_decay_steps s <? num_steps then mret min_lr
  else if bool_decide (ss_lr_decay_style s = "inverse-square-root") then
    w ← float_of_int (Z.max warmup 1); n ← float_of_int (Z.max num_steps 1);
    lr ← float_div (f64_mul max_lr (float_pow w f64_half)) (float_pow n f64_half);
    mret (py_max min_lr lr)
  else
    decay_ratio ← checked_ratio (num_steps - warmup) (ss_lr_decay_steps s - warmup) "decay_ratio";
    let delta_lr := f64_sub max_lr min_lr in
    coeff ← (if bool_decide (ss_lr_decay_style s = "linear") then mret (Some (f64_sub f64_one decay_ratio))
             else if bool_decide (ss_lr_decay_style s = "cosine") then mret (Some (cosine_coeff decay_ratio))
             else if bool_decide (ss_lr_decay_style s = "WSD") then wsd_coeff s num_steps
             else raise_ Exception_ "decay style is not supported.");
    match coeff with
    | None => raise_ AssertionError "coeff is not None"
    | Some coeff => mret (f64_add min_lr (f64_mul coeff delta_lr))
    end.

(** The two assignments of the loop of [step] *)
Definition set_rates (s : settings) (num_steps : Z) (new_wd : f64) (g : param_group) : res param_group :=
  new_lr ← get_lr s num_steps g;
  mret (mkGroup (pg_max_lr g) (pg_min_lr g) (pg_lr_mult g) (pg_wd_mult g) (f64_mul new_lr (default f64_one (pg_lr_mult g)))
    (f64_mul new_wd (default f64_one (pg_wd_mult g)))).

(** [for param_group in self.optimizer.param_groups]: the groups before the one that raises are changed. *)
Fixpoint update_groups (s : settings) (num_steps : Z) (new_wd : f64) (groups : list param_group) : res unit * list param_group :=
  match groups with
  | [] => (Ok tt, [])
  | g :: groups' =>
      match set_rates s num_steps new_wd g with
      | Err e => (Err e, g :: groups')
      | Ok g' => let '(r, rest) := update_groups s num_steps new_wd groups' in (r, g' :: rest)
      end
  end.

Definition set_all_rates (new_wd : f64) : M scheduler unit := fun s =>
  let '(r, groups) := update_groups (sh_settings s) (sh_num_steps s) new_wd (sh_groups s) in (r, mkScheduler (sh_settings s) (sh_num_steps s) groups).

(** [step] *)
Definition step (increment : Z) : M scheduler unit :=
  modM (fun s => mkScheduler (sh_settings s) (sh_num_steps s + increment) (sh_groups s)) ;;
  s ← getM;
  new_wd ← liftM (get_wd (sh_settings s) (sh_num_steps s));
  set_all_rates new_wd.

(** The checks of [__init__] *)
Definition check_settings (s : settings) : res unit :=
  assert_ (f64_leb f64_zero (ss_min_lr s)) "self.min_lr >= 0.0";;
  assert_ (f64_leb (ss_min_lr s) (ss_max_lr s)) "self.max_lr >= self.min_lr";;
  assert_ (f64_leb (ss_init_lr s) (ss_max_lr s)) "self.init_lr <= self.max_lr";;
  assert_ (0 <? ss_lr_decay_steps s) "self.lr_decay_steps > 0";;
  assert_ (ss_lr_warmup_steps s <? ss_lr_decay_steps s) "self.lr_warmup_steps < self.lr_decay_steps";;
  assert_ (negb (bool_decide (ss_lr_decay_style s = "WSD")) || negb (is_none (ss_wsd_decay_steps s))) "self.wsd_decay_steps is not None";;
  assert_ (f64_leb f64_zero (ss_start_wd s)) "self.start_wd >= 0.0";;
  assert_ (f64_leb (ss_start_wd s) (ss_end_wd s)) "self.end_wd >= self.start_wd";;
  assert_ (negb (ss_override s) || negb (ss_use_checkpoint s)) "both override and use-checkpoint are set.".

(** [OptimizerParamScheduler(optimizer, ...)] with the parameter groups of the optimizer *)
Definition optimizer_param_scheduler (s : settings) (groups : list param_group) : res scheduler :=
  check_settings s;;
  let '(r, sched) := step 0 (mkScheduler s 0 groups) in
  r ;; mret sched.

(* ================================================================== *)
(** ** Checkpoints                                                     *)
(* ================================================================== *)

(** The keys of a state dict, those of older versions included *)
Record scheduler_state := mkState {
  sd_start_lr : option f64;
  sd_max_lr : option f64;
  sd_min_lr : option f64;
  sd_warmup_iter : option Z;
  sd_warmup_steps : option Z;
  sd_lr_warmup_steps : option Z;
  sd_end_iter : option Z;
  sd_decay_steps : option Z;
  sd_lr_decay_steps : option Z;
  sd_decay_style : option string;
  sd_lr_decay_style : option string;
  sd_num_iters : option Z;
  sd_num_steps : option Z;
  sd_start_wd : option f64;
  sd_end_wd : option f64;
  sd_wd_incr_steps : option Z;
  sd_wd_incr_style : option string
}.

(** [state_dict] *)
Definition state_dict (s : scheduler) : scheduler_state :=
  let c := sh_settings s in
  mkState None (Some (ss_max_lr c)) (Some (ss_min_lr c)) None None (Some (ss_lr_warmup_steps c)) None None (Some (ss_lr_decay_steps c))
    None (Some (ss_lr_decay_style c)) None (Some (sh_num_steps s)) (Some (ss_start_wd c)) (Some (ss_end_wd c)) (Some (ss_wd_incr_steps c)) (Some (ss_wd_incr_style c)).

(** [_check_and_set]; [eqb] is [==] on the type of the values. *)
Definition check_and_set {A} (eqb : A -> A -> bool) (s : settings) (cls_value sd_value : A) : res A :=
  if ss_override s then mret cls_value
  else
    (if negb (ss_use_checkpoint s) then assert_ (eqb cls_value sd_value) "OptimizerParamScheduler: class input value and checkpoint value do not match" else mret tt);;
    mret sd_value.

(** [state_dict[k]] of the first key that is there; the last one must be. *)
Definition lookup_key {A} (keys : list (option A)) : res A :=
  match omap id keys with v :: _ => mret v | [] => raise_ KeyError "state_dict" end.

Definition with_lr (max_lr min_lr : f64) (warmup decay : Z) (style : string) (s : settings) : settings :=
  mkSettings (ss_init_lr s) max_lr min_lr warmup decay style (ss_start_wd s) (ss_end_wd s) (ss_wd_incr_steps s) (ss_wd_incr_style s)
    (ss_use_checkpoint s) (ss_override s) (ss_wsd_decay_steps s) (ss_lr_wsd_decay_style s).
Definition with_wd (start_wd end_wd : f64) (incr_steps : Z) (incr_style : string) (s : settings) : settings :=
  mkSettings (ss_init_lr s) (ss_max_lr s) (ss_min_lr s) (ss_lr_warmup_steps s) (ss_lr_decay_steps s) (ss_lr_decay_style s) start_wd end_wd incr_steps incr_style
    (ss_use_checkpoint s) (ss_override s) (ss_wsd_decay_steps s) (ss_lr_wsd_decay_style s).
Definition set_settings (f : settings -> settings) : M scheduler unit := modM (fun s => mkScheduler (f (sh_settings s)) (sh_num_steps s) (sh_groups s)).

(** One [self.x = self._check_and_set(self.x, ...)]: the new value is assigned at once. *)
Definition load_field {A} (eqb : A -> A -> bool) (keys : list (option A)) (get : settings -> A) (set : A -> settings -> settings) : M scheduler unit :=
  s ← getM;
  sd_value ← liftM (lookup_key keys);
  v ← liftM (check_and_set eqb (sh_settings s) (get (sh_settings s)) sd_value);
  set_settings (set v).

(** [load_state_dict] *)
Definition load_state_dict (sd : scheduler_state) : M scheduler unit :=
  load_field f64_eqb [sd_start_lr sd; sd_max_lr sd] ss_max_lr
    (fun v s => with_lr v (ss_min_lr s) (ss_lr_warmup_steps s) (ss_lr_decay_steps s) (ss_lr_decay_style s) s) ;;
  load_field f64_eqb [sd_min_lr sd] ss_min_lr
    (fun v s => with_lr (ss_max_lr s) v (ss_lr_warmup_steps s) (ss_lr_decay_steps s) (ss_lr_decay_style s) s) ;;
  load_field Z.eqb [sd_warmup_iter sd; sd_warmup_steps sd; sd_lr_warmup_steps sd] ss_lr_warmup_steps
    (fun v s => with_lr (ss_max_lr s) (ss_min_lr s) v (ss_lr_decay_steps s) (ss_lr_decay_style s) s) ;;
  load_field Z.eqb [sd_end_iter sd; sd_decay_steps sd; sd_lr_decay_steps sd] ss_lr_decay_steps
    (fun v s => with_lr (ss_max_lr s) (ss_min_lr s) (ss_lr_warmup_steps s) v (ss_lr_decay_style s) s) ;;
  load_field String.eqb [sd_decay_style sd; sd_lr_decay_style sd] ss_lr_decay_style
    (fun v s => with_lr (ss_max_lr s) (ss_min_lr s) (ss_lr_warmup_steps s) (ss_lr_decay_steps s) v s) ;;
  num_steps ← liftM (lookup_key [sd_num_iters sd; sd_num_steps sd]);
  step num_steps ;;
  match sd_start_wd sd with
  | None => mret tt
  | Some _ =>
      load_field f64_eqb [sd_start_wd sd] ss_start_wd (fun v s => with_wd v (ss_end_wd s) (ss_wd_incr_steps s) (ss_wd_incr_style s) s) ;;
      load_field f64_eqb [sd_end_wd sd] ss_end_wd (fun v s => with_wd (ss_start_wd s) v (ss_wd_incr_steps s) (ss_wd_incr_style s) s) ;;
      load_field Z.eqb [sd_wd_incr_steps sd] ss_wd_incr_steps (fun v s => with_wd (ss_start_wd s) (ss_end_wd s) v (ss_wd_incr_style s) s) ;;
      load_field String.eqb [sd_wd_incr_style sd] ss_wd_incr_style (fun v s => with_wd (ss_start_wd s) (ss_end_wd s) (ss_wd_incr_steps s) v s)
  end.

(** The steps of a run *)
Definition run_steps (increments : list Z) : M scheduler unit := iterM step increments.
End Scheduler.
