(* ===== verification/ParamSchedulerProofs.v ===== *)
(** * The schedules and their checkpoints: the theorems

    No step of a supported schedule raises, what the groups get depends on the number of steps only, and a resumed
    scheduler continues the schedule. *)

From Stdlib Require Import SpecFloat.
From S2P Require Import Prelude PyFloat ParamScheduler.

(* ================================================================== *)
(** ** Ratios                                                          *)
(* ================================================================== *)

Lemma leb_finite m1 m2 e1 e2 : e1 <= e2 -> (e1 = e2 -> Z.pos m1 <= Z.pos m2) -> f64_leb (S754_finite false m1 e1) (S754_finite false m2 e2) = true.
Proof.
  intros He Hm. unfold f64_leb, SFleb, SFcompare. destruct (Z.compare_spec e1 e2) as [E|Hlt|Hgt]; [|done|lia]. specialize (Hm E).
  fold (Pos.compare m1 m2). destruct (Pos.compare_spec m1 m2); [done|done|lia].
Qed.
Definition one_mantissa : positive := 4503599627370496.
Lemma one_mantissa_eq : Z.pos one_mantissa = 2 ^ 52.
Proof. reflexivity. Qed.
Lemma f64_one_eq : f64_one = S754_finite false one_mantissa (-52).
Proof. reflexivity. Qed.
#[local] Opaque one_mantissa.

Lemma step_ratio_spec a b : 0 <= a <= b -> 0 < b < 2 ^ 53 ->
  exists r, step_ratio a b = Ok r /\ f64_leb f64_zero r = true /\ f64_leb r f64_one = true /\ SFltb r f64_zero = false.
Proof.
  intros Ha Hb. unfold step_ratio. destruct (float_of_int_canon b) as (y & Hy & kb & Hkb & Hyr & Hyb); [lia|].
  pose proof Hyr as (my & Ey & _). destruct (decide (a = 0)) as [->|Ha0].
  { rewrite Hy. change (float_of_int 0) with (Ok (S754_zero false)). cbn [mbind res_bind]. unfold float_div. rewrite Ey. cbn [f64_is_zero].
    exists (S754_zero false). by split_and!. }
  destruct (float_of_int_canon a) as (x & Hx & ka & Hka & Hxr & Hxb); [lia|]. rewrite Hx, Hy. cbn [mbind res_bind].
  destruct (SFdiv_spec x y a b ka kb) as (m & k & s & Hk & Hs & Hm & Heq & H1 & H2); try done; try lia.
  { pose proof (canon_log2 a ka). pose proof (canon_log2 b kb). lia. }
  unfold float_div. assert (Hz : f64_is_zero y = false) by (by rewrite Ey). rewrite Hz, Heq. exists (S754_finite false m (k - s)). split; [done|]. split; [done|]. split; [|done].
  pose proof (Z.pow_pos_nonneg 2 k ltac:(lia) ltac:(lia)) as Hpk.
  assert (Hle : Z.pos m * 2 ^ k <= 2 ^ s).
  { destruct (decide (a = b)) as [->|Hne].
    - rewrite Z.mod_same, Z.div_same in H2 by lia. specialize (H2 eq_refl). lia.
    - rewrite Z.mod_small, Z.div_small in H1 by lia. specialize (H1 Ha0). lia. }
  assert (Hks : k - s <= -52).
  { destruct (Z.le_gt_cases (k - s) (-52)); [done|]. exfalso. assert (2 ^ s < 2 ^ (52 + k)) by (apply Z.pow_lt_mono_r; lia).
    rewrite Z.pow_add_r in * by lia. nia. }
  rewrite f64_one_eq. apply leb_finite; [done|]. rewrite one_mantissa_eq. intros E. replace s with (52 + k) in Hle by lia. rewrite Z.pow_add_r in Hle by lia. nia.
Qed.
Lemma checked_ratio_spec a b name : 0 <= a <= b -> 0 < b < 2 ^ 53 -> exists r, checked_ratio a b name = Ok r.
Proof.
  intros Ha Hb. destruct (step_ratio_spec a b Ha Hb) as (r & Hr & H0 & H1 & _). unfold checked_ratio. rewrite Hr. cbn [mbind res_bind].
  rewrite H0, H1. cbn. by eexists.
Qed.
Lemma float_of_int_ok n : 0 <= n < 2 ^ 53 -> exists x, float_of_int n = Ok x /\ (0 < n -> f64_is_zero x = false /\ f64_leb f64_one x = true).
Proof.
  intros Hn. destruct (decide (n = 0)) as [->|Hn0]; [exists (S754_zero false); split; [done|lia]|].
  destruct (float_of_int_canon n) as (x & Hx & a & Ha & (m & -> & Hm) & Hr); [lia|]. eexists. split; [done|]. intros _. split; [done|].
  assert (Ha52 : a <= 52).
  { destruct (Z.le_gt_cases a 52); [done|]. exfalso. assert (2 ^ 53 <= 2 ^ a) by (apply Z.pow_le_mono_r; lia). nia. }
  rewrite f64_one_eq. apply leb_finite; [lia|]. rewrite one_mantissa_eq. lia.
Qed.

(* ================================================================== *)
(** ** Steps                                                           *)
(* ================================================================== *)

Section Proofs.
Context {LM : LibM}.

Lemma update_groups_spec s n wd groups groups' : update_groups s n wd groups = (Ok tt, groups') <-> mapR (set_rates s n wd) groups = Ok groups'.
Proof.
  revert groups'. induction groups as [|g groups IH]; intros groups'; cbn [update_groups mapR]; [split; by intros [= <-]|].
  destruct (set_rates s n wd g) as [g'|e]; cbn [mbind res_bind]; [|done].
  destruct (update_groups s n wd groups) as [r rest]. split.
  - intros [= -> <-]. by rewrite (proj1 (IH rest) eq_refl).
  - destruct (mapR (set_rates s n wd) groups) as [gs|e]; [|done]. intros [= <-]. by injection (proj2 (IH gs) eq_refl) as -> ->.
Qed.

(** A step that succeeds sets the rates for the new number of steps. *)
Lemma rates_step_ok inc s s' : step inc s = (Ok tt, s') <->
  exists wd groups, get_wd (sh_settings s) (sh_num_steps s + inc) = Ok wd /\ mapR (set_rates (sh_settings s) (sh_num_steps s + inc) wd) (sh_groups s) = Ok groups /\
    s' = mkScheduler (sh_settings s) (sh_num_steps s + inc) groups.
Proof.
  unfold step, set_all_rates, modM, getM, liftM. unfold mbind, M_bind. cbn [sh_settings sh_num_steps sh_groups].
  destruct (get_wd (sh_settings s) (sh_num_steps s + inc)) as [wd|e]; [|split; [done|by intros (wd & gs & ? & _)]].
  destruct (update_groups _ _ _ _) as [r gs] eqn:Eu. split.
  - intros [= -> <-]. exists wd, gs. split; [done|]. split; [by apply update_groups_spec|done].
  - intros (wd' & gs' & [= <-] & Hm%update_groups_spec & ->). rewrite Eu in Hm. by injection Hm as -> ->.
Qed.

(** The options of a group, which the schedule reads but does not write *)
Definition same_options (g g' : param_group) : Prop :=
  pg_max_lr g = pg_max_lr g' /\ pg_min_lr g = pg_min_lr g' /\ pg_lr_mult g = pg_lr_mult g' /\ pg_wd_mult g = pg_wd_mult g'.
Lemma same_options_sym g g' : same_options g g' -> same_options g' g.
Proof. by intros (? & ? & ? & ?). Qed.
Lemma set_rates_options s n wd g g1 : set_rates s n wd g = Ok g1 -> same_options g g1.
Proof. unfold set_rates. destruct (get_lr s n g); [|done]. by intros [= <-]. Qed.
Lemma set_rates_same s n wd g g' : same_options g g' -> set_rates s n wd g = set_rates s n wd g'.
Proof. intros (H1 & H2 & H3 & H4). unfold set_rates, get_lr. by rewrite H1, H2, H3, H4. Qed.
Lemma set_all_same s n wd l l' : Forall2 same_options l l' -> mapR (set_rates s n wd) l = mapR (set_rates s n wd) l'.
Proof. induction 1 as [|g g' l l' Hg _ IH]; [done|]. cbn. by rewrite (set_rates_same s n wd g g' Hg), IH. Qed.
Lemma set_all_options s n wd l l' : mapR (set_rates s n wd) l = Ok l' -> Forall2 same_options l l'.
Proof. intros H%mapR_ok_Forall2. eapply Forall2_impl; [exact H|]. intros g g'. apply set_rates_options. Qed.

Lemma step_options inc s s' : step inc s = (Ok tt, s') -> Forall2 same_options (sh_groups s) (sh_groups s') /\ sh_settings s' = sh_settings s /\ sh_num_steps s' = sh_num_steps s + inc.
Proof. intros (wd & gs & _ & Hm & ->)%rates_step_ok. split; [by apply set_all_options in Hm|done]. Qed.
Lemma same_options_trans l1 l2 l3 : Forall2 same_options l1 l2 -> Forall2 same_options l2 l3 -> Forall2 same_options l1 l3.
Proof.
  intros H. revert l3. induction H as [|g g' l l' (H1 & H2 & H3 & H4) _ IH]; intros l3; [done|]. inversion 1 as [|? g3 ? l3' (? & ? & ? & ?)]; subst.
  constructor; [|by apply IH]. unfold same_options. by rewrite H1, H2, H3, H4.
Qed.
Lemma same_options_groups_sym l l' : Forall2 same_options l l' -> Forall2 same_options l' l.
Proof. intros H. apply Forall2_flip. eapply Forall2_impl; [exact H|]. intros g g'. apply same_options_sym. Qed.

(** The groups have the rates for the number of steps. *)
Definition current (s : scheduler) : Prop := step 0 s = (Ok tt, s).
Lemma step_current inc s s' : step inc s = (Ok tt, s') -> current s'.
Proof.
  intros (wd & gs & Hwd & Hm & ->)%rates_step_ok. apply rates_step_ok. cbn [sh_settings sh_num_steps sh_groups]. rewrite Z.add_0_r. exists wd, gs. split; [done|].
  split; [|done]. rewrite <- Hm. symmetry. apply set_all_same. by apply set_all_options in Hm.
Qed.
(** Two current schedulers with the same settings, steps and options are the same. *)
Lemma current_unique s s' : current s -> current s' -> sh_settings s = sh_settings s' -> sh_num_steps s = sh_num_steps s' ->
  Forall2 same_options (sh_groups s) (sh_groups s') -> s = s'.
Proof.
  intros (wd & gs & Hwd & Hm & Hs)%rates_step_ok (wd' & gs' & Hwd' & Hm' & Hs')%rates_step_ok E1 E2 Hop. rewrite E1, E2 in *. rewrite Hwd in Hwd'. injection Hwd' as <-.
  rewrite (set_all_same _ _ _ _ _ Hop), Hm' in Hm. injection Hm as ->. exact (eq_trans Hs (eq_sym Hs')).
Qed.

Lemma run_spec l s s' : run_steps l s = (Ok tt, s') -> current s ->
  Forall2 same_options (sh_groups s) (sh_groups s') /\ sh_settings s' = sh_settings s /\ sh_num_steps s' = sh_num_steps s + zsum l /\ current s'.
Proof.
  revert s. induction l as [|inc l IH]; intros s; unfold run_steps; cbn [iterM].
  - intros [= <-] Hc. split; [|split; [done|split; [cbn; by rewrite Z.add_0_r|done]]]. clear. induction (sh_groups s); by constructor.
  - unfold mbind, M_bind. destruct (step inc s) as [[[]|e] s1] eqn:E; [|done]. intros Hr Hc. destruct (step_options _ _ _ E) as (Ho & Es & En).
    destruct (IH s1 Hr (step_current _ _ _ E)) as (Ho' & Es' & En' & Hc'). split; [by eapply same_options_trans|]. split; [congruence|]. split; [|done].
    rewrite En', En. change (zsum (inc :: l)) with (inc + zsum l). lia.
Qed.

(* ================================================================== *)
(** ** Construction                                                    *)
(* ================================================================== *)

Lemma leb_eqb x y : f64_leb x y = true -> f64_eqb x x = true /\ f64_eqb y y = true.
Proof.
  assert (Hrefl : forall z, z <> S754_nan -> f64_eqb z z = true).
  { intros [s|s| |s m e]; try done; [by destruct s|]. intros _. unfold f64_eqb, SFeqb, SFcompare. rewrite Z.compare_refl. fold (Pos.compare m m).
    rewrite Pos.compare_refl. by destruct s. }
  unfold f64_leb, SFleb. intros H. split; apply Hrefl; intros ->; [done|by destruct x].
Qed.
Lemma check_settings_spec c : check_settings c = Ok tt -> f64_leb f64_zero (ss_min_lr c) = true /\ f64_leb (ss_min_lr c) (ss_max_lr c) = true /\
  0 < ss_lr_decay_steps c /\ ss_lr_warmup_steps c < ss_lr_decay_steps c /\ f64_leb f64_zero (ss_start_wd c) = true /\ f64_leb (ss_start_wd c) (ss_end_wd c) = true /\
  (ss_override c = true -> ss_use_checkpoint c = false).
Proof.
  unfold check_settings. repeat (match goal with |- context [assert_ ?b ?m] => destruct b eqn:?; cbn [assert_ mbind res_bind]; [|done] end).
  intros _. split; [done|]. split; [done|]. split; [lia|]. split; [lia|]. split; [done|]. split; [done|].
  destruct (ss_override c), (ss_use_checkpoint c); done.
Qed.
Lemma construct_spec c groups s : optimizer_param_scheduler c groups = Ok s <-> check_settings c = Ok tt /\ step 0 (mkScheduler c 0 groups) = (Ok tt, s).
Proof.
  unfold optimizer_param_scheduler. destruct (check_settings c) as [[]|e]; cbn [mbind res_bind]; [|split; [done|by intros [? _]]].
  destruct (step 0 (mkScheduler c 0 groups)) as [[[]|e] s0]; cbn [mbind res_bind mret res_ret]; [|split; [done|by intros [_ ?]]].
  split; [by intros [= ->]|by intros [_ [= ->]]].
Qed.
Lemma construct_state c groups s : optimizer_param_scheduler c groups = Ok s ->
  sh_settings s = c /\ sh_num_steps s = 0 /\ Forall2 same_options groups (sh_groups s) /\ current s /\ check_settings c = Ok tt.
Proof.
  intros [Hc Hs]%construct_spec. destruct (step_options _ _ _ Hs) as (Ho & Es & En). split; [done|]. split; [done|]. split; [done|]. split; [|done]. by eapply step_current.
Qed.

(* ================================================================== *)
(** ** Loading                                                         *)
(* ================================================================== *)

Lemma load_field_same {A} (eqb : A -> A -> bool) keys get set s : lookup_key keys = Ok (get (sh_settings s)) ->
  eqb (get (sh_settings s)) (get (sh_settings s)) = true -> set (get (sh_settings s)) (sh_settings s) = sh_settings s ->
  load_field eqb keys get set s = (Ok tt, s).
Proof.
  intros Hk He Hset. unfold load_field, set_settings, modM, getM, liftM, check_and_set. unfold mbind, M_bind. rewrite Hk.
  destruct (ss_override (sh_settings s)); [|rewrite He; destruct (ss_use_checkpoint (sh_settings s))];
    cbn [negb assert_ mret res_ret mbind res_bind]; unfold mbind, res_bind; cbn; rewrite Hset; by destruct s.
Qed.
Lemma load_field_use {A} (eqb : A -> A -> bool) keys get set s v : ss_use_checkpoint (sh_settings s) = true -> ss_override (sh_settings s) = false ->
  lookup_key keys = Ok v -> load_field eqb keys get set s = (Ok tt, mkScheduler (set v (sh_settings s)) (sh_num_steps s) (sh_groups s)).
Proof.
  intros Hu Ho Hk. unfold load_field, set_settings, modM, getM, liftM, check_and_set. unfold mbind, M_bind. rewrite Hk, Ho, Hu. done.
Qed.

(** Loading the state of a scheduler with the same settings is a step to its number of steps. *)
Lemma load_same s s2 : sh_settings s2 = sh_settings s -> check_settings (sh_settings s) = Ok tt ->
  load_state_dict (state_dict s2) s = step (sh_num_steps s2) s.
Proof.
  intros Es (H1 & H2 & _ & _ & H3 & H4 & _)%check_settings_spec. apply leb_eqb in H2 as [Hmin Hmax], H4 as [Hsw Hew].
  unfold load_state_dict. cbn [state_dict sd_start_lr sd_max_lr sd_min_lr sd_warmup_iter sd_warmup_steps sd_lr_warmup_steps sd_end_iter sd_decay_steps sd_lr_decay_steps
    sd_decay_style sd_lr_decay_style sd_num_iters sd_num_steps sd_start_wd sd_end_wd sd_wd_incr_steps sd_wd_incr_style]. rewrite Es.
  assert (Hw : forall s' : scheduler, sh_settings s' = sh_settings s -> with_lr (ss_max_lr (sh_settings s')) (ss_min_lr (sh_settings s')) (ss_lr_warmup_steps (sh_settings s'))
    (ss_lr_decay_steps (sh_settings s')) (ss_lr_decay_style (sh_settings s')) (sh_settings s') = sh_settings s') by (intros [[] ? ?] _; done).
  assert (Hv : forall s' : scheduler, sh_settings s' = sh_settings s -> with_wd (ss_start_wd (sh_settings s')) (ss_end_wd (sh_settings s')) (ss_wd_incr_steps (sh_settings s'))
    (ss_wd_incr_style (sh_settings s')) (sh_settings s') = sh_settings s') by (intros [[] ? ?] _; done).
  do 5 (erewrite bind_step; [|apply load_field_same; [done|first [done|apply Z.eqb_refl|apply String.eqb_refl]|by apply Hw]]).
  erewrite bind_step; [|done]. unfold mbind at 1, M_bind at 1.
  destruct (step (sh_num_steps s2) s) as [[[]|e] s'] eqn:E; [|done]. destruct (step_options _ _ _ E) as (_ & Es' & _).
  do 3 (erewrite bind_step; [|apply load_field_same; rewrite ?Es'; [done|first [done|apply Z.eqb_refl]|rewrite <- Es'; by apply Hv]]).
  apply load_field_same; rewrite ?Es'; [done|apply String.eqb_refl|rewrite <- Es'; by apply Hv].
Qed.

(** The settings after a load that uses the checkpoint: those that the state dict has, the others of the new process. *)
Definition loaded_lr (c c' : settings) : settings :=
  with_lr (ss_max_lr c) (ss_min_lr c) (ss_lr_warmup_steps c) (ss_lr_decay_steps c) (ss_lr_decay_style c) c'.
Definition loaded (c c' : settings) : settings :=
  with_wd (ss_start_wd c) (ss_end_wd c) (ss_wd_incr_steps c) (ss_wd_incr_style c) (loaded_lr c c').

Lemma load_use s s2 s3 : ss_use_checkpoint (sh_settings s) = true -> ss_override (sh_settings s) = false -> load_state_dict (state_dict s2) s = (Ok tt, s3) ->
  exists s1, step (sh_num_steps s2) (mkScheduler (loaded_lr (sh_settings s2) (sh_settings s)) (sh_num_steps s) (sh_groups s)) = (Ok tt, s1) /\
    s3 = mkScheduler (loaded (sh_settings s2) (sh_settings s)) (sh_num_steps s1) (sh_groups s1).
Proof.
  intros Hu Ho. unfold load_state_dict. cbn [state_dict sd_start_lr sd_max_lr sd_min_lr sd_warmup_iter sd_warmup_steps sd_lr_warmup_steps sd_end_iter sd_decay_steps sd_lr_decay_steps
    sd_decay_style sd_lr_decay_style sd_num_iters sd_num_steps sd_start_wd sd_end_wd sd_wd_incr_steps sd_wd_incr_style].
  do 5 (erewrite bind_step; [|apply load_field_use; [exact Hu|exact Ho|reflexivity]]). erewrite bind_step; [|reflexivity].
  cbn [sh_settings sh_num_steps sh_groups]. unfold mbind at 1, M_bind at 1.
  match goal with |- context [step ?n ?x] => change x with (mkScheduler (loaded_lr (sh_settings s2) (sh_settings s)) (sh_num_steps s) (sh_groups s)) end.
  destruct (step _ _) as [[[]|e] s1] eqn:E; [|done]. destruct (step_options _ _ _ E) as (_ & Es & _). cbn [sh_settings] in Es.
  assert (Hu1 : ss_use_checkpoint (sh_settings s1) = true) by (by rewrite Es). assert (Ho1 : ss_override (sh_settings s1) = false) by (by rewrite Es).
  do 3 (erewrite bind_step; [|apply load_field_use; [exact Hu1|exact Ho1|reflexivity]]).
  erewrite load_field_use; [|exact Hu1|exact Ho1|reflexivity]. intros [= <-]. exists s1. split; [done|].
  cbn [sh_settings sh_num_steps sh_groups]. rewrite Es. done.
Qed.

(** Settings that a checkpoint does not hold *)
Definition same_unsaved (c c' : settings) : Prop :=
  ss_init_lr c = ss_init_lr c' /\ ss_wsd_decay_steps c = ss_wsd_decay_steps c' /\ ss_lr_wsd_decay_style c = ss_lr_wsd_decay_style c'.
Lemma loaded_same_rates c c' n wd g : same_unsaved c c' -> get_wd (loaded c c') n = get_wd c n /\ set_rates (loaded c c') n wd g = set_rates c n wd g /\
  get_lr (loaded_lr c c') n g = get_lr c n g.
Proof.
  intros (H1 & H2 & H3). split; [done|]. assert (Hlr : forall g, get_lr (loaded c c') n g = get_lr c n g).
  { intros g0. unfold get_lr, wsd_coeff, loaded, loaded_lr, with_wd, with_lr. cbn. by rewrite <- H1, <- H2, <- H3. }
  split; [unfold set_rates; by rewrite Hlr|]. rewrite <- Hlr. done.
Qed.

(** (C20) A resumed schedule continues the interrupted one.  A process that makes any steps saves its state; a new process whose groups have the
    same options loads it.  With the same settings, whatever the flags, the new scheduler is exactly the old one, learning rates and weight decays included.  With other
    settings and the checkpoint's values in use, every later step gives the groups what it would have given them in the old process, provided the
    initial learning rate and the two WSD settings, which are not saved, agree; the learning rates are right at once. *)
Theorem resume_exact c groups increments s1 s2 c' groups' s1' (Hnew : optimizer_param_scheduler c groups = Ok s1) (Hrun : run_steps increments s1 = (Ok tt, s2))
    (Hnew' : optimizer_param_scheduler c' groups' = Ok s1') (Hopt : Forall2 same_options groups groups') :
  (c' = c -> load_state_dict (state_dict s2) s1' = (Ok tt, s2)) /\
  (forall s3, ss_use_checkpoint c' = true -> same_unsaved c c' -> load_state_dict (state_dict s2) s1' = (Ok tt, s3) ->
     sh_num_steps s3 = sh_num_steps s2 /\ Forall2 (fun g g' => pg_lr g = pg_lr g') (sh_groups s2) (sh_groups s3) /\
     forall inc s4, step inc s2 = (Ok tt, s4) -> exists s5, step inc s3 = (Ok tt, s5) /\ sh_groups s5 = sh_groups s4 /\ sh_num_steps s5 = sh_num_steps s4).
Proof.
  destruct (construct_state _ _ _ Hnew) as (Es1 & En1 & Ho1 & Hc1 & Hchk). destruct (construct_state _ _ _ Hnew') as (Es1' & En1' & Ho1' & Hc1' & Hchk').
  destruct (run_spec _ _ _ Hrun Hc1) as (Ho2 & Es2 & En2 & Hc2). rewrite Es1 in Es2.
  assert (Hopts : Forall2 same_options (sh_groups s2) (sh_groups s1')).
  { eapply same_options_trans; [|exact Ho1']. eapply same_options_trans; [|exact Hopt]. apply same_options_groups_sym. by eapply same_options_trans. }
  split.
  - intros ->. rewrite load_same by congruence. pose proof Hc2 as (wd & gs & Hwd & Hm & Hs)%rates_step_ok. apply rates_step_ok. exists wd, gs.
    rewrite En1', Es1', Z.add_0_l. rewrite Z.add_0_r, Es2 in Hwd, Hm. split; [done|]. split; [by rewrite <- (set_all_same _ _ _ _ _ Hopts)|].
    rewrite Es2, Z.add_0_r in Hs. done.
  - intros s3 Hu Hun Hload. assert (Ho : ss_override c' = false) by (destruct (ss_override c') eqn:E; [|done]; apply check_settings_spec in Hchk' as (_ & _ & _ & _ & _ & _ & H); by rewrite H in Hu).
    apply load_use in Hload as (s1'' & Hstep & ->); [|by rewrite Es1'..]. rewrite Es1', Es2 in Hstep. rewrite Es1', Es2.
    destruct (step_options _ _ _ Hstep) as (Ho3 & _ & En3). cbn [sh_num_steps sh_groups] in *. rewrite En1' in En3.
    split; [lia|]. split.
    + apply rates_step_ok in Hstep as (wd & gs & _ & Hm & ->). cbn [sh_settings sh_num_steps sh_groups] in *. rewrite En1', Z.add_0_l in Hm.
      pose proof Hc2 as (wd2 & gs2 & _ & Hm2 & Hs2)%rates_step_ok. rewrite Es2, Z.add_0_r in Hm2. rewrite Hs2 at 1. cbn [sh_groups].
      apply mapR_ok_Forall2 in Hm, Hm2. clear -Hm Hm2 Hopts Hun. revert gs gs2 Hm Hm2. induction Hopts as [|g g' l l' Hg _ IH]; intros gs gs2 Hm Hm2; inversion Hm; inversion Hm2; subst; constructor; [|by apply IH].
      match goal with H : set_rates (loaded_lr _ _) _ _ _ = _, H' : set_rates c _ _ _ = _ |- _ => unfold set_rates in H, H'; rename H into Ha, H' into Hb end.
      destruct (loaded_same_rates c c' (sh_num_steps s2) wd g' Hun) as (_ & _ & E). rewrite E in Ha.
      assert (El : get_lr c (sh_num_steps s2) g = get_lr c (sh_num_steps s2) g') by (destruct Hg as (E1 & E2 & _); unfold get_lr; by rewrite E1, E2).
      rewrite El in Hb. destruct (get_lr c _ g'); [|done]. injection Ha as <-. injection Hb as <-. cbn. destruct Hg as (_ & _ & E3 & _). by rewrite E3.
    + intros inc s4 (wd & gs & Hwd & Hm & ->)%rates_step_ok. rewrite Es2 in Hwd, Hm.
      exists (mkScheduler (loaded c c') (sh_num_steps s2 + inc) gs). split; [|by split].
      apply rates_step_ok. cbn [sh_settings sh_num_steps sh_groups]. exists wd, gs. rewrite En3, Z.add_0_l.
      destruct (loaded_same_rates c c' (sh_num_steps s2 + inc) wd (mkGroup None None None None f64_zero f64_zero) Hun) as (-> & _ & _). split; [done|]. split; [|done].
      rewrite <- Hm. erewrite <- set_all_same; [|eapply same_options_trans; [exact Hopts|exact Ho3]]. clear -Hun. induction (sh_groups s2) as [|g l IH]; [done|].
      cbn. destruct (loaded_same_rates c c' (sh_num_steps s2 + inc) wd g Hun) as (_ & -> & _). by rewrite IH.
Qed.

(* ================================================================== *)
(** ** Supported schedules                                             *)
(* ================================================================== *)

(** Settings that the constructor should accept, with step numbers that are exact as floats *)
Record supported (c : settings) : Prop := mkSupported {
  sp_checked : check_settings c = Ok tt;
  sp_style : ss_lr_decay_style c ∈ ["constant"; "linear"; "cosine"; "inverse-square-root"; "WSD"]%string;
  sp_wsd : ss_lr_decay_style c = "WSD"%string -> exists w style, ss_wsd_decay_steps c = Some w /\ 0 < w < 2 ^ 53 /\ ss_lr_wsd_decay_style c = Some style /\
    style ∈ ["linear"; "cosine"; "exponential"; "minus_sqrt"]%string;
  sp_wd : ss_wd_incr_style c = "constant"%string /\ f64_eqb (ss_start_wd c) (ss_end_wd c) = true \/
    ss_wd_incr_style c ∈ ["linear"; "cosine"]%string /\ 0 < ss_wd_incr_steps c < 2 ^ 53;
  sp_warmup : 0 <= ss_lr_warmup_steps c;
  sp_decay : ss_lr_decay_steps c < 2 ^ 53
}.
(** The power of the C library does not round a square root to zero. *)
Definition pow_law : Prop := forall x, f64_leb f64_one x = true -> f64_is_zero (float_pow x f64_half) = false.

Lemma get_wd_ok c n : supported c -> 0 <= n -> exists wd, get_wd c n = Ok wd /\ (ss_wd_incr_steps c < n -> wd = ss_end_wd c).
Proof.
  intros [_ _ _ Hwd _ _] Hn. unfold get_wd. destruct (Z.ltb_spec (ss_wd_incr_steps c) n); [by eexists|].
  destruct Hwd as [[-> He]|[Hstyle Hi]]; [rewrite bool_decide_eq_true_2, He by done; eexists; split; [done|lia]|].
  destruct (checked_ratio_spec n (ss_wd_incr_steps c) "incr_ratio") as (r & Hr); [lia|lia|].
  repeat (apply elem_of_cons in Hstyle as [->|Hstyle]); [| |by apply elem_of_nil in Hstyle];
    rewrite bool_decide_eq_false_2 by done; rewrite Hr; cbn; (eexists; split; [reflexivity|lia]).
Qed.

Lemma wsd_coeff_ok c n : supported c -> ss_lr_decay_style c = "WSD"%string -> n <= ss_lr_decay_steps c -> exists x, wsd_coeff c n = Ok (Some x).
Proof.
  intros [_ _ Hwsd _ _ _] Hstyle Hn. destruct (Hwsd Hstyle) as (w & style & Ew & Hw & Es & Hin). unfold wsd_coeff. rewrite Ew.
  destruct (Z.leb_spec n (ss_lr_decay_steps c - w)); [by eexists|].
  destruct (step_ratio_spec (n - (ss_lr_decay_steps c - w)) w) as (r & -> & _ & _ & Hneg); [lia|lia|]. cbn [mbind res_bind]. rewrite Es.
  repeat (apply elem_of_cons in Hin as [->|Hin]); [..|by apply elem_of_nil in Hin];
    repeat (rewrite bool_decide_eq_false_2 by done); rewrite bool_decide_eq_true_2 by done; [by eexists|by eexists|by eexists|].
  unfold math_sqrt. rewrite Hneg. by eexists.
Qed.

Lemma get_lr_ok c n g : supported c -> pow_law -> 0 <= n < 2 ^ 53 ->
  exists lr, get_lr c n g = Ok lr /\
    (ss_lr_warmup_steps c < n -> ss_lr_decay_style c = "constant"%string -> lr = default (ss_max_lr c) (pg_max_lr g)) /\
    (ss_lr_decay_steps c < n -> ss_lr_decay_style c <> "constant"%string -> lr = default (ss_min_lr c) (pg_min_lr g)).
Proof.
  intros Hs Hpow Hn. pose proof Hs as [Hchk Hstyle Hwsd _ Hw0 Hd]. apply check_settings_spec in Hchk as (_ & _ & Hd0 & Hwd & _). unfold get_lr.
  destruct (Z.ltb_spec 0 (ss_lr_warmup_steps c)) as [Hw|Hw], (Z.leb_spec n (ss_lr_warmup_steps c)) as [Hnw|Hnw]; cbn [andb].
  1: { destruct (float_of_int_ok n) as (x & -> & _); [lia|]. destruct (float_of_int_ok (ss_lr_warmup_steps c)) as (y & -> & Hy); [lia|].
    destruct (Hy Hw) as [Hz _]. unfold float_div. cbn [mbind res_bind]. rewrite Hz. eexists. split; [done|]. split; lia. }
  all: destruct (bool_decide_reflect (ss_lr_decay_style c = "constant"%string)) as [Hc|Hc]; [eexists; split; [done|]; split; [done|by intros _ ?]|].
  all: destruct (Z.ltb_spec (ss_lr_decay_steps c) n) as [Hdn|Hdn]; [eexists; split; [done|]; split; [by intros _ ?|done]|].
  all: destruct (bool_decide_reflect (ss_lr_decay_style c = "inverse-square-root"%string)) as [Hi|Hi].
  1, 3, 5: destruct (float_of_int_ok (Z.max (ss_lr_warmup_steps c) 1)) as (y & -> & _); [lia|];
    destruct (float_of_int_ok (Z.max n 1)) as (x & -> & Hx); [lia|]; destruct (Hx ltac:(lia)) as [_ Hone];
    unfold float_div; cbn [mbind res_bind]; rewrite (Hpow x Hone); eexists; split; [done|]; split; [by intros _ ?|lia].
  all: destruct (checked_ratio_spec (n - ss_lr_warmup_steps c) (ss_lr_decay_steps c - ss_lr_warmup_steps c) "decay_ratio") as (r & ->); [lia|lia|]; cbn [mbind res_bind].
  all: repeat (apply elem_of_cons in Hstyle as [Hst|Hstyle]); [done| | |done| |by apply elem_of_nil in Hstyle].
  all: try (rewrite Hst; rewrite ?bool_decide_eq_false_2 by done; rewrite bool_decide_eq_true_2 by done; cbn [mbind res_bind mret res_ret]; eexists; split; [done|]; split; [by intros _ ?|lia]).
  all: rewrite !bool_decide_eq_false_2 by (by rewrite Hst); rewrite bool_decide_eq_true_2 by done;
    destruct (wsd_coeff_ok c n Hs Hst ltac:(lia)) as (x & ->); cbn [mbind res_bind]; eexists; split; [done|]; split; [by intros _ ?|lia].
Qed.

Lemma step_supported c s inc : supported c -> pow_law -> sh_settings s = c -> 0 <= sh_num_steps s + inc < 2 ^ 53 -> exists s', step inc s = (Ok tt, s').
Proof.
  intros Hs Hpow Es Hn. destruct (get_wd_ok c (sh_num_steps s + inc) Hs ltac:(lia)) as (wd & Hwd & _).
  destruct (mapR_ex (set_rates c (sh_num_steps s + inc) wd) (fun _ _ => True) (sh_groups s)) as (gs & Hgs & _).
  { intros g _. unfold set_rates. destruct (get_lr_ok c (sh_num_steps s + inc) g Hs Hpow Hn) as (lr & -> & _). by eexists. }
  eexists. apply rates_step_ok. exists wd, gs. by rewrite Es.
Qed.
Lemma run_supported c l s : supported c -> pow_law -> sh_settings s = c -> 0 <= sh_num_steps s -> Forall (fun inc => 0 <= inc) l -> sh_num_steps s + zsum l < 2 ^ 53 ->
  exists s', run_steps l s = (Ok tt, s').
Proof.
  intros Hs Hpow Es H0 Hl. revert s Es H0. induction Hl as [|inc l Hinc Hl IH]; intros s Es H0 Hn; [by eexists|].
  change (zsum (inc :: l)) with (inc + zsum l) in Hn. assert (Hz : 0 <= zsum l) by (clear -Hl; induction Hl; [done|cbn; unfold zsum in *; lia]).
  destruct (step_supported c s inc Hs Hpow Es ltac:(lia)) as (s1 & E1). destruct (step_options _ _ _ E1) as (_ & Es1 & En1).
  destruct (IH s1) as (s2 & E2); [congruence|lia|lia|]. exists s2. unfold run_steps. cbn [iterM]. rewrite (bind_step _ _ _ _ _ E1). exact E2.
Qed.

(** Supported schedules never raise: construction succeeds and so does every sequence of steps, as long as step numbers are exact as floats.  After
    it the scheduler counts the steps made; past the increase of the weight decay every group has the final weight decay, past the decay of
    the learning rate its minimum (for a constant schedule, past the warmup, its maximum), each times the multiplier of the group. *)
Theorem schedule_total c groups increments (Hpow : pow_law) (Hc : supported c) (Hinc : Forall (fun inc => 0 <= inc) increments) (Hn : zsum increments < 2 ^ 53) :
  exists s1 s2, optimizer_param_scheduler c groups = Ok s1 /\ run_steps increments s1 = (Ok tt, s2) /\ sh_num_steps s2 = zsum increments /\
    forall g, g ∈ sh_groups s2 ->
      (ss_wd_incr_steps c < zsum increments -> pg_weight_decay g = f64_mul (ss_end_wd c) (default f64_one (pg_wd_mult g))) /\
      (ss_lr_decay_steps c < zsum increments -> ss_lr_decay_style c <> "constant"%string ->
         pg_lr g = f64_mul (default (ss_min_lr c) (pg_min_lr g)) (default f64_one (pg_lr_mult g))) /\
      (ss_lr_warmup_steps c < zsum increments -> ss_lr_decay_style c = "constant"%string ->
         pg_lr g = f64_mul (default (ss_max_lr c) (pg_max_lr g)) (default f64_one (pg_lr_mult g))).
Proof.
  destruct (step_supported c (mkScheduler c 0 groups) 0 Hc Hpow eq_refl ltac:(cbn; lia)) as (s1 & E1).
  assert (Hs1 : optimizer_param_scheduler c groups = Ok s1) by (apply construct_spec; split; [apply Hc|done]).
  destruct (construct_state _ _ _ Hs1) as (Es1 & En1 & _ & Hc1 & _).
  destruct (run_supported c increments s1 Hc Hpow Es1 ltac:(lia) Hinc ltac:(lia)) as (s2 & E2).
  destruct (run_spec _ _ _ E2 Hc1) as (_ & Es2 & En2 & Hc2). exists s1, s2. split; [done|]. split; [done|]. rewrite En1, Z.add_0_l in En2. split; [done|].
  apply rates_step_ok in Hc2 as (wd & gs & Hwd & Hm & Hs2). rewrite Es1 in Es2. rewrite Es2, En2, Z.add_0_r in Hwd, Hm. intros g Hg.
  assert (Eg : sh_groups s2 = gs) by (by rewrite Hs2). rewrite Eg in Hg. apply list_elem_of_lookup in Hg as [k Hk]. apply mapR_ok_Forall2 in Hm.
  destruct (Forall2_lookup_r _ _ _ _ _ Hm Hk) as (g0 & _ & Hset). pose proof (set_rates_options _ _ _ _ _ Hset) as (O1 & O2 & O3 & O4).
  assert (Hz : 0 <= zsum increments) by (clear -Hinc; induction Hinc; [done|cbn; unfold zsum in *; lia]).
  destruct (get_lr_ok c (zsum increments) g0 Hc Hpow ltac:(lia)) as (lr & Elr & Hconst & Hmin). unfold set_rates in Hset. rewrite Elr in Hset. cbn [mbind res_bind] in Hset.
  injection Hset as <-. cbn [pg_lr pg_weight_decay pg_max_lr pg_min_lr pg_lr_mult pg_wd_mult].
  destruct (get_wd_ok c (zsum increments) Hc Hz) as (wd' & Ewd & Hend). rewrite Hwd in Ewd. injection Ewd as <-.
  split; [intros H; by rewrite Hend|]. split; intros H1 H2; [by rewrite Hmin|by rewrite Hconst].
Qed.
End Proofs.

(* ================================================================== *)
(** ** Samples                                                         *)
(* ================================================================== *)

(** A C library whose cosine is 1 and whose power is the first argument *)
Definition sample_libm : LibM := {| math_cos := fun _ => f64_one; float_pow := fun x _ => x |}.
(** Twenty steps of a WSD schedule from 2 to 1/2 after four of warmup, annealed in the last ten; weight decay from 0 to 1 *)
Definition sample_settings (wsd_style : option string) (use_checkpoint : bool) : settings :=
  mkSettings f64_zero f64_two f64_half 4 20 "WSD" f64_zero f64_one 10 "linear" use_checkpoint false (Some 10) wsd_style.
Definition sample_group : param_group := mkGroup None None None None f64_zero f64_zero.

Lemma sample_supported : supported (sample_settings (Some "linear"%string) true).
Proof.
  split.
  - vm_compute. reflexivity.
  - cbn. set_solver.
  - intros _. exists 10, "linear"%string. split; [done|]. split; [lia|]. split; [done|set_solver].
  - right. split; [cbn; set_solver|cbn; lia].
  - cbn. lia.
  - cbn. lia.
Qed.
Lemma sample_pow : @pow_law sample_libm.
Proof. intros x. cbn. by destruct x as [s|s| |s m e]. Qed.

Lemma schedule_total_witness : exists s1 s2, @optimizer_param_scheduler sample_libm (sample_settings (Some "linear"%string) true) [sample_group] = Ok s1 /\
  @run_steps sample_libm [7; 14] s1 = (Ok tt, s2) /\ sh_num_steps s2 = 21.
Proof.
  destruct (@schedule_total sample_libm (sample_settings (Some "linear"%string) true) [sample_group] [7; 14] sample_pow sample_supported) as (s1 & s2 & H1 & H2 & H3 & _).
  - repeat (apply Forall_cons; split; [lia|]). apply Forall_nil; exact I.
  - reflexivity.
  - exists s1, s2. split; [exact H1|]. split; [exact H2|exact H3].
Defined.
Lemma resume_exact_witness : exists s1 s2 s1', @optimizer_param_scheduler sample_libm (sample_settings (Some "linear"%string) true) [sample_group] = Ok s1 /\
  @run_steps sample_libm [7; 5] s1 = (Ok tt, s2) /\ @optimizer_param_scheduler sample_libm (sample_settings (Some "linear"%string) true) [sample_group] = Ok s1' /\
  @load_state_dict sample_libm (state_dict s2) s1' = (Ok tt, s2).
Proof.
  set (c := sample_settings (Some "linear"%string) true).
  destruct (@optimizer_param_scheduler sample_libm c [sample_group]) as [s1|] eqn:E; [|vm_compute in E; discriminate E].
  destruct (@run_steps sample_libm [7; 5] s1) as [[[]|] s2] eqn:Er; [|vm_compute in E; injection E as <-; vm_compute in Er; discriminate Er].
  exists s1, s2, s1. split; [reflexivity|]. split; [exact Er|]. split; [reflexivity|].
  refine (proj1 (@resume_exact sample_libm c [sample_group] [7; 5] s1 s2 c [sample_group] s1 E Er E _) eq_refl).
  repeat constructor.
Defined.

(** *** Settings that are accepted and go wrong *)

(** A WSD schedule without a style for the annealing is accepted, and raises when the annealing starts. *)
Lemma wsd_without_style_raises : exists s1 s2, @optimizer_param_scheduler sample_libm (sample_settings None true) [sample_group] = Ok s1 /\
  @run_steps sample_libm [10] s1 = (Ok tt, s2) /\ raises AssertionError (fst (@run_steps sample_libm [1] s2)) = true.
Proof. eexists _, _. split; [vm_compute; reflexivity|]. split; [vm_compute; reflexivity|vm_compute; reflexivity]. Qed.

(** When the weight decay of the checkpoint is used, the groups keep that of the new process until the next step: [load_state_dict] makes its
    step before it reads the weight decay. *)
Lemma loaded_weight_decay_is_late : exists s2 s1' s3 s4,
  s2 = mkScheduler (sample_settings (Some "linear"%string) true) 12 [sample_group] /\
  @optimizer_param_scheduler sample_libm (mkSettings f64_zero f64_two f64_half 4 20 "WSD" f64_zero f64_half 10 "linear" true false (Some 10) (Some "linear"%string)) [sample_group] = Ok s1' /\
  @load_state_dict sample_libm (state_dict s2) s1' = (Ok tt, s3) /\ map pg_weight_decay (sh_groups s3) = [f64_half] /\
  @step sample_libm 0 s3 = (Ok tt, s4) /\ map pg_weight_decay (sh_groups s4) = [f64_one].
Proof. eexists _, _, _, _. split; [reflexivity|]. repeat (split; [vm_compute; reflexivity|]). vm_compute; reflexivity. Qed.
