(* ===== verification/ChainedOptimizer.v ===== *)
(** * Chained optimizers

    [ChainedOptimizer] of [megatron/core/optimizer/optimizer.py]: one optimizer for the dense parameters
    and one for the expert parameters, each with its own gradient scaler, stepped together.  An optimizer
    is given by its ranks, and the ranks of all optimizers are the same processes. *)

From Stdlib Require Import SpecFloat.
From S2P Require Import Prelude PyFloat GradBuffer GradBufferProofs DistOpt DistOptProofs DistOptInit DistOptCheckpoint DistOptTheorems DistOptUpdate GradScaler OptimizerStep.

Section Chained.
Context {V : Type} `{!Values V, !GradOps V, !InnerOptimizer V}.

(** [get_loss_scale]: that of the first optimizer, 1 without optimizers.  The loss is multiplied with it. *)
Definition get_loss_scale (cfg : step_config) (opts : list (list (rank V))) (k : nat) : f32 :=
  match opts with
  | [] => f32_pow2 0
  | ranks :: _ => if has_scaler cfg then default (f32_pow2 0) (scale_of ∘ rk_scaler <$> ranks !! k) else f32_pow2 0
  end.

(** [prepare_grads]: every optimizer prepares its gradients and updates its own scale. *)
Definition chained_prepare_grads (cfg : step_config) (opts : list (list (rank V))) : res (bool * list (list (rank V))) :=
  foldR (fun '(found_inf_flag, done_) ranks =>
    x ← prepare_grads cfg ranks;
    mret (found_inf_flag || fst x, done_ ++ [snd x])) (false, []) opts.

(** [get_grad_norm] of one optimizer. *)
Definition get_grad_norm (ranks : list (rank V)) : res f64 :=
  norms ← mapR local_norm ranks;
  mret (pow_half (f64_of_f32 (sum32 norms))).

(** The squared norm of a process over all its optimizers. *)
Definition process_norm (rks : list (rank V)) : res f32 :=
  grads ← mapR (fun rk => x ← on_rank rk [] (main_grads_for_grad_norm rk); mret (fst x)) rks;
  let norm := match concat grads with [] => S754_zero false | grads => l2_norm grads end in
  mret (f32_mul norm norm).

(** [get_grad_norm]; [shared] is [grads_states_parallel_group_is_shared()].  [x ** 2] and [math.sqrt] are computed on floats. *)
Definition chained_grad_norm (shared : bool) (opts : list (list (rank V))) : res f64 :=
  match opts with
  | [ranks] => get_grad_norm ranks
  | _ =>
      if shared then
        let processes := map (fun k => omap (fun ranks => ranks !! k) opts) (seq 0 (length (default [] (head opts)))) in
        norms ← mapR process_norm processes;
        mret (pow_half (f64_of_f32 (sum32 norms)))
      else
        norms ← mapR get_grad_norm opts;
        mret (SFsqrt prec64 emax64 (fold_left (fun acc x => f64_add acc (SFmul prec64 emax64 x x)) norms f64_zero))
  end.

(** The clipping loop of [step]. *)
Definition clip_optimizer (cfg : step_config) (grad_norm : f64) (ranks : list (rank V)) : res (list (rank V)) :=
  mapR (fun rk => x ← on_rank rk tt (fun o =>
    match concat (do_params o) with
    | [] => mret tt
    | _ => if SFltb f64_zero (clip_grad cfg) then clip_grad_by_total_norm (clip_grad cfg) grad_norm o else mret tt
    end); mret (snd x)) ranks.

(** [step] *)
Definition chained_step (cfg : step_config) (shared : bool) (opts : list (list (rank V))) : res (bool * option f64 * list (list (rank V))) :=
  x ← chained_prepare_grads cfg opts;
  let '(found_inf_flag, opts) := x in
  if found_inf_flag : bool then mret (false, None, opts)
  else
    grad_norm ← chained_grad_norm shared opts;
    opts ← mapR (clip_optimizer cfg grad_norm) opts;
    opts ← mapR (mapR (step_with_ready_grads cfg)) opts;
    mret (true, Some grad_norm, opts).

Context `{!ValuesLaws V, !StepLaws V}.

(** An optimizer whose ranks are ready and share a scale. *)
Definition optimizer_ready (gs : grad_scaler) (ranks : list (rank V)) : Prop := Forall rank_ready ranks /\ Forall (fun rk => rk_scaler rk = gs) ranks.
Definition optimizer_overflows (ranks : list (rank V)) : Prop := exists rk, rk ∈ ranks /\ rank_overflows rk.

(** What happens to one optimizer when the step is skipped: its own scale is updated by its own overflow. *)
Definition skipped_optimizer (cfg : step_config) (gs : grad_scaler) (ranks ranks' : list (rank V)) : Prop :=
  length ranks' = length ranks /\ exists own : bool, (own = true <-> optimizer_overflows ranks) /\
    forall k rk rk', ranks !! k = Some rk -> ranks' !! k = Some rk' -> rk_scaler rk' = update_scaler gs own /\ skipped rk rk'.

Lemma chained_prepare_ok cfg scalers opts : has_scaler cfg = true -> Forall2 optimizer_ready scalers opts ->
  exists found opts', chained_prepare_grads cfg opts = Ok (found, opts') /\ length opts' = length opts /\
    (found = true <-> Exists optimizer_overflows opts) /\
    forall i gs ranks ranks', scalers !! i = Some gs -> opts !! i = Some ranks -> opts' !! i = Some ranks' -> skipped_optimizer cfg gs ranks ranks'.
Proof.
  intros Hsc HF. unfold chained_prepare_grads.
  assert (Hgen : forall (b : bool) done_, exists found opts', foldR (fun '(found_inf_flag, done_) ranks => x ← prepare_grads cfg ranks; mret (found_inf_flag || fst x, done_ ++ [snd x]))
      (b, done_) opts = Ok (b || found, done_ ++ opts') /\ length opts' = length opts /\ (found = true <-> Exists optimizer_overflows opts) /\
      forall i gs ranks ranks', scalers !! i = Some gs -> opts !! i = Some ranks -> opts' !! i = Some ranks' -> skipped_optimizer cfg gs ranks ranks').
  2: { destruct (Hgen false []) as (found & opts' & E & H). exists found, opts'. split; [exact E|exact H]. }
  induction HF as [|gs ranks scalers opts [Hr Hs] HF IH]; intros b done_.
  - exists false, []. rewrite orb_false_r, app_nil_r. split; [done|]. split; [done|]. split; [|intros i ? ? ?; by rewrite lookup_nil]. split; [done|]. intros H. inversion H.
  - destruct (prepare_all cfg gs ranks Hr Hs) as (own & ranks' & E & Hl & Hf & H1). destruct (IH (b || own) (done_ ++ [ranks'])) as (found & opts' & E' & Hl' & Hf' & H').
    exists (own || found), (ranks' :: opts'). cbn [foldR]. rewrite E. cbn [mbind res_bind mret res_ret fst snd]. split; [|split; [|split]].
    + rewrite E'. by rewrite orb_assoc, <- app_assoc.
    + cbn. by rewrite Hl'.
    + rewrite orb_true_iff, Exists_cons, Hf, Hf'. unfold optimizer_overflows. naive_solver.
    + intros [|i] gs0 ranks0 ranks0'; cbn; [|apply H']. intros [= <-] [= <-] [= <-]. split; [done|]. exists own. split.
      * rewrite Hf. unfold optimizer_overflows. naive_solver.
      * intros k rk rk' Hk Hk'. destruct (H1 k rk rk' Hk Hk') as [Hg Hgr]. rewrite Hsc in Hg. split; [done|]. by eapply has_grads_skipped.
Qed.
End Chained.

(** Chained optimizers skip together: when a gradient of any of them overflows, the step changes no parameter and no
    optimizer state of any of them.  But each optimizer updates its own loss scale by its own gradients only. *)
Theorem chained_skip_spec {V} `{!Values V, !GradOps V, !InnerOptimizer V, !ValuesLaws V, !StepLaws V} cfg shared scalers (opts : list (list (rank V))) :
  has_scaler cfg = true -> Forall2 optimizer_ready scalers opts -> Exists optimizer_overflows opts ->
  exists opts', chained_step cfg shared opts = Ok (false, None, opts') /\ length opts' = length opts /\
    forall i gs ranks ranks', scalers !! i = Some gs -> opts !! i = Some ranks -> opts' !! i = Some ranks' -> skipped_optimizer cfg gs ranks ranks'.
Proof.
  intros Hsc HF Hov. destruct (chained_prepare_ok cfg scalers opts Hsc HF) as (found & opts' & E & Hl & Hf & H). exists opts'.
  unfold chained_step. rewrite E. rewrite (proj2 Hf Hov). done.
Qed.

(** *** Diverging scales *)

#[local] Existing Instances Z_values Z_values_laws Z_ops Z_inner Z_laws.

(** An optimizer of one rank and one bfloat16 parameter, with the given gradient values. *)
Definition one_rank (grad : Z) : res (list (rank Z)) :=
  b ← buffer_init distopt_cfg BFloat16 Float32 [half_param] 1 None f64_one;
  x ← start_rank bf16_attributes (fun _ => []) [b] [[half_param]] ex_cfg
        (0, mkStore {[ParamData 0 := replicate 128 1; GradData 0 := replicate 128 grad]} ∅ ∅ ∅ ∅);
  s ← dynamic_init f64_65536 f64_one f64_two f64_half 1000 1;
  mret [mkRank bf16_attributes (fun _ => true) (Some (fst x)) (Dynamic s) (snd x)].
Definition chained_cfg : step_config := mkStepCfg true f64_one false false.

(** Dense gradients that overflow, expert gradients that do not. *)
Definition dense_overflow : res (bool * f32 * list (list f32)) :=
  dense ← one_rank 7000;
  experts ← one_rank 3;
  x ← chained_step chained_cfg true [dense; experts];
  let '(success, _, opts) := x in
  mret (success, get_loss_scale chained_cfg opts 0, map (map (fun rk => scale_of (rk_scaler rk))) opts).

(** The loss scales of chained optimizers come apart: when only the gradients of the dense optimizer overflow, its scale is
    halved and that of the expert optimizer is not.  The loss is multiplied with the first scale, 2^15, while the expert
    optimizer divides its gradients by 2^16. *)
Theorem chained_scales_diverge :
  dense_overflow = Ok (false, f32_pow2 15, [[f32_pow2 15]; [f32_pow2 16]]).
Proof. vm_compute. reflexivity. Qed.

Lemma chained_skip_spec_witness : exists o st opts', ex_rank (replicate 1152 7000) o (Constant (f32_pow2 1)) st /\
  chained_step chained_cfg true [[mkRank bf16_attributes (fun _ => true) (Some o) (Constant (f32_pow2 1)) st]; [mkRank bf16_attributes (fun _ => true) None (Constant (f32_pow2 1)) ex_store]] =
    Ok (false, None, opts').
Proof.
  destruct (ex_rank_ok (replicate 1152 7000) (Constant (f32_pow2 1)) eq_refl) as (o & st & R). exists o, st.
  destruct (chained_skip_spec chained_cfg true [Constant (f32_pow2 1); Constant (f32_pow2 1)]
    [[mkRank bf16_attributes (fun _ => true) (Some o) (Constant (f32_pow2 1)) st]; [mkRank bf16_attributes (fun _ => true) None (Constant (f32_pow2 1)) ex_store]]) as (opts' & E & _).
  - reflexivity.
  - destruct R as (st0 & _ & _ & Hr & _). constructor; [split; (constructor; [|constructor]); [exact Hr|reflexivity]|]. constructor; [|constructor].
    split; (constructor; [|constructor]); [exact I|reflexivity].
  - apply Exists_cons_hd. eexists. split; [left|]. pose proof R as (st0 & _ & _ & Hr & Hrank & Hbuf & _). unfold rank_overflows. cbn [rk_opt rk_store]. rewrite Hrank.
    destruct (bf_buckets ex_bf !! 0%nat) as [b|] eqn:Eb; [|vm_compute in Eb; discriminate Eb].
    assert (Em : exists x l, rank_param_map ex_bf b 1 = x :: l).
    { destruct (rank_param_map ex_bf b 1) as [|x l] eqn:Em; [|eauto]. exfalso. vm_compute in Eb. apply (inj Some) in Eb. subst b. vm_compute in Em. discriminate Em. }
    destruct Em as ([p rs] & l & Em). assert (Ho : owns (do_buffers o) 1 0 ex_bf 0 b p rs) by (rewrite Hbuf; split; [reflexivity|split; [exact Eb|rewrite Em; left]]).
    unfold rank_ready in Hr. cbn [rk_opt rk_at rk_store] in Hr. rewrite Hrank in Hr. destruct Hr as [dp Ow].
    assert (Hrr : Forall (fun bf => 0 <= 1 < bf_dp bf) (do_buffers o)) by (rewrite Hbuf; constructor; [vm_compute; split; [discriminate|reflexivity]|constructor]).
    pose proof (all_placed dp _ (ow_built _ _ _ _ _ Ow)) as WB. destruct (owns_bounds _ WB 1 Hrr _ _ _ _ _ _ Ho) as (H1 & _ & _ & _ & H5).
    pose proof (length_grad_part _ WB 1 Hrr st _ _ _ _ _ _ (ow_grads _ _ _ _ _ Ow) Ho) as HL.
    destruct (grad_part st 0 rs) as [|v vs] eqn:Ev; [cbn in HL; lia|]. exists 0%nat, ex_bf, 0%nat, b, p, rs, v. split; [exact Ho|]. rewrite Ev. split; [left|].
    assert (Hv : v ∈ replicate 1152 7000) by (apply (elem_of_grad_part _ _ _ _ 0%nat rs v R); rewrite Ev; left). apply elem_of_replicate in Hv as [-> _]. reflexivity.
  - exists opts'. split; [exact R|exact E].
Defined.
