(* ===== verification/RerunMachine.v ===== *)
(** * The rerun state machine

    [megatron/core/rerun_state_machine.py]: results of a training iteration are validated; after a rejected
    result the iteration is run again on the same device and, if the result is the same, once more on another
    device after a checkpoint, to tell transient and persistent errors from correct results.  Results are
    zero-dimensional tensors, given by the float of [item()]. *)

From Stdlib Require Import SpecFloat.
From stdpp Require Import sorting.
From S2P Require Import Prelude PyFloat.

(* ================================================================== *)
(** ** Data                                                            *)
(* ================================================================== *)

(** A caller is a message and a rank, a call a caller and the number of its call in the pass. *)
Notation Caller := (string * Z)%type.
Notation Call := (Caller * Z)%type.

Inductive RerunDiagnostic := CORRECT_RESULT | TRANSIENT_ERROR | PERSISTENT_ERROR.
Inductive RerunMode := DISABLED | VALIDATE_RESULTS | REPORT_DETERMINISM_STATS.
Inductive RerunState :=
  | NOT_RUNNING_YET | INITIAL_RUN | RERUNNING_IN_PLACE
  | WILL_RERUN_FROM_CHECKPOINT | RERUNNING_FROM_CHECKPOINT | RERUNNING_AGAIN_FROM_CHECKPOINT.
Inductive RerunValidationStatus :=
  | STATUS_RERUN_DISABLED | STATUS_INITIAL_RUN
  | FIRST_RERUN_NOT_REPRODUCIBLE | FIRST_RERUN_REPRODUCIBLE
  | SECOND_RERUN_NOT_REPRODUCIBLE | SECOND_RERUN_REPRODUCIBLE.

#[export] Instance RerunDiagnostic_eq_dec : EqDecision RerunDiagnostic.
Proof. solve_decision. Defined.
#[export] Instance RerunMode_eq_dec : EqDecision RerunMode.
Proof. solve_decision. Defined.
#[export] Instance RerunState_eq_dec : EqDecision RerunState.
Proof. solve_decision. Defined.
#[export] Instance RerunValidationStatus_eq_dec : EqDecision RerunValidationStatus.
Proof. solve_decision. Defined.

Definition EXIT_CODE_RESUME_TO_DISAMBIGUATE : Z := 16.
Definition EXIT_CODE_FAILED_ON_RESULT_VALIDATION : Z := 17.
Definition COMPARISON_MATCH : f64 := S754_zero false.
Definition COMPARISON_MISMATCH : f64 := S754_infinity false.

(** [x > y] on floats *)
Definition f64_gtb (x y : f64) : bool := SFltb y x.
Definition f64_isnan (x : f64) : bool := match x with S754_nan => true | _ => false end.
Definition f64_isinf (x : f64) : bool := match x with S754_infinity _ => true | _ => false end.

(** [_compare_floats]; the literal 2 is converted to a float. *)
Definition compare_floats (af bf : f64) : res f64 :=
  if f64_eqb af bf || (f64_isnan af && f64_isnan bf) then mret COMPARISON_MATCH
  else if (f64_isnan af && negb (f64_isnan bf)) || (negb (f64_isnan af) && f64_isnan bf)
       || (f64_isinf af && negb (f64_isinf bf)) || (negb (f64_isinf af) && f64_isinf bf)
       || (f64_isnan af && f64_isinf bf) || (f64_isinf af && f64_isnan bf)
  then mret COMPARISON_MISMATCH
  else
    q ← float_div (SFsub prec64 emax64 af bf) (SFadd prec64 emax64 af bf);
    mret (SFabs (SFmul prec64 emax64 q (S754_finite false 4503599627370496 (-51)))).

(** [QuickStats] *)
Record QuickStats := mkStats { qs_samples : list f64; qs_pos : Z; qs_zero_cnt : Z; qs_max : f64; qs_max_size : Z }.
Definition stats_init : QuickStats := mkStats [] 0 0 (S754_zero false) 100000.

(** [record]; the branch that overwrites an old sample reads [self.self]. *)
Definition stats_record (s : QuickStats) (data : f64) : res QuickStats :=
  if f64_eqb data (S754_zero false) then mret (mkStats (qs_samples s) (qs_pos s) (qs_zero_cnt s + 1) (qs_max s) (qs_max_size s))
  else
    samples ← (if qs_pos s <? qs_max_size s then mret (qs_samples s ++ [data])
               else raise_ AttributeError "'QuickStats' object has no attribute 'self'");
    mret (mkStats samples (qs_pos s + 1) (qs_zero_cnt s) (if f64_gtb data (qs_max s) then data else qs_max s) (qs_max_size s)).

(** [max(a, b)] of Python: [b] only when it is greater. *)
Definition py_fmax (a b : f64) : f64 := if f64_gtb b a then b else a.

(** [combine] *)
Definition stats_combine (s : QuickStats) (others : list QuickStats) : QuickStats :=
  match others with
  | [] => s
  | o :: rest =>
      let n := Z.of_nat (length (qs_samples s)) + zsum (map (fun o => Z.of_nat (length (qs_samples o))) others) in
      let '(samples, pos) := if n <=? qs_max_size s then (qs_samples s ++ concat (map qs_samples others), n) else (qs_samples s, qs_pos s) in
      mkStats samples pos (qs_zero_cnt s + zsum (map qs_zero_cnt others))
        (py_fmax (qs_max s) (fold_left py_fmax (map qs_max rest) (qs_max o))) (qs_max_size s)
  end.

(** [reset] *)
Definition stats_reset (s : QuickStats) : QuickStats := mkStats [] 0 0 (S754_zero false) (qs_max_size s).

(** *** Data iterators *)

Section Machine.
(** [E]: the state that a pass may change and that is saved and restored (random number generators and the state of
    [state_save_func]); [D]: microbatches.  [random.randint(0, n - 1)] is given by [randint n]. *)
Context {E D : Type} (randint : Z -> E -> Z * E).

(** [RerunDataIterator]; the wrapped iterator is the list of what it still yields. *)
Record data_iterator := mkIter { it_iterable : list D; it_saved : list D; it_replaying : bool; it_replay_pos : nat }.

(** [RerunDataIterator.__init__] *)
Definition iter_init (iterable : list D) : data_iterator := mkIter iterable [] false 0.

(** [__next__] *)
Definition iter_next (mode : RerunMode) : M data_iterator D := fun d =>
  if it_replaying d then
    match it_saved d !! it_replay_pos d with
    | Some n => (Ok n, mkIter (it_iterable d) (it_saved d) (it_replaying d) (S (it_replay_pos d)))
    | None => (raise_ AssertionError "No more batches to replay", d)
    end
  else
    match it_iterable d with
    | [] => (raise_ Exception_ "StopIteration", d)
    | n :: rest => (Ok n, mkIter rest (if decide (mode = DISABLED) then it_saved d else it_saved d ++ [n]) false (it_replay_pos d))
    end.

(** [rewind] and [advance] *)
Definition iter_rewind (d : data_iterator) : data_iterator := mkIter (it_iterable d) (it_saved d) true 0.
Definition iter_advance (d : data_iterator) : data_iterator := mkIter (it_iterable d) [] false (it_replay_pos d).

(** [state_dict] and [load_state_dict] *)
Definition iter_state : Type := list D * bool * nat.
Definition iter_state_dict (d : data_iterator) : iter_state := (it_saved d, it_replaying d, it_replay_pos d).
Definition iter_load_state_dict (d : data_iterator) (s : iter_state) : data_iterator :=
  let '(saved, replaying, pos) := s in mkIter (it_iterable d) saved replaying pos.

(** *** The machine *)

(** [RerunErrorInjector] *)
Record injector := mkInjector { in_rate : Z; in_type : RerunDiagnostic; in_injected : option RerunDiagnostic }.
Definition should_inject_errors (i : injector) : bool := 0 <? in_rate i.

(** The requests that are summed over all ranks. *)
Record requests := mkRequests { rerun_requested : bool; checkpoint_requested : bool; restart_again_requested : bool; continue_requested : bool }.
Definition no_requests : requests := mkRequests false false false false.

(** The fields of [RerunStateMachine]; [suspicious_node] and [suspicious_device] are assigned together. *)
Record machine := mkMachine {
  m_mode : RerunMode;
  m_state : RerunState;
  m_iteration : Z;
  m_first_complete : bool;
  m_requests : requests;
  m_injector : injector;
  m_counts : gmap Caller Z;
  m_failed : option Call;
  m_initial : option f64;
  m_suspicious : option (string * Z);
  m_saved : option E;
  m_iter_ckpts : option (list iter_state);
  m_large : gmap string Z;
  m_max : gmap string f64;
  m_results : gmap Call f64;
  m_stats : gmap Caller QuickStats
}.

(** [__init__] *)
Definition machine_init (mode : RerunMode) (inj : injector) : machine :=
  mkMachine mode NOT_RUNNING_YET (-1) false no_requests inj ∅ None None None None None ∅ ∅ ∅ ∅.

(** Where the process runs. *)
Record host := mkHost { h_rank : Z; h_node : string; h_device : Z; h_job : string }.

(** The collectives that a process takes part in. *)
Inductive request := RerunRequest | CheckpointRequest | RestartRequest | ContinueRequest.

(** An entry of the tracker file: job, rank, iteration and status (the result and the message are not read again). *)
Record tracker_entry := mkEntry { te_job : string; te_rank : Z; te_iteration : Z; te_status : RerunValidationStatus }.

(** A process: the machine, the other state, the (non-[None]) data iterators, the tracker file if there is one, and the
    reductions made so far. *)
Record process := mkProcess {
  p_machine : machine;
  p_env : E;
  p_iters : list data_iterator;
  p_tracker : option (list tracker_entry);
  p_reduced : list request
}.

Definition mach (f : machine -> machine) (p : process) : process := mkProcess (f (p_machine p)) (p_env p) (p_iters p) (p_tracker p) (p_reduced p).
Definition set_env (e : E) (p : process) : process := mkProcess (p_machine p) e (p_iters p) (p_tracker p) (p_reduced p).
Definition set_iters (l : list data_iterator) (p : process) : process := mkProcess (p_machine p) (p_env p) l (p_tracker p) (p_reduced p).
Definition set_tracker (t : option (list tracker_entry)) (p : process) : process := mkProcess (p_machine p) (p_env p) (p_iters p) t (p_reduced p).
Definition log_reduced (r : request) (p : process) : process := mkProcess (p_machine p) (p_env p) (p_iters p) (p_tracker p) (p_reduced p ++ [r]).

Definition set_mode (x : RerunMode) (m : machine) : machine := let 'mkMachine _ s it fc rq inj co fa ini su sv ic la mx rs st := m in mkMachine x s it fc rq inj co fa ini su sv ic la mx rs st.
Definition set_state (x : RerunState) (m : machine) : machine := let 'mkMachine mo _ it fc rq inj co fa ini su sv ic la mx rs st := m in mkMachine mo x it fc rq inj co fa ini su sv ic la mx rs st.
Definition set_iteration (x : Z) (m : machine) : machine := let 'mkMachine mo s _ fc rq inj co fa ini su sv ic la mx rs st := m in mkMachine mo s x fc rq inj co fa ini su sv ic la mx rs st.
Definition set_first (x : bool) (m : machine) : machine := let 'mkMachine mo s it _ rq inj co fa ini su sv ic la mx rs st := m in mkMachine mo s it x rq inj co fa ini su sv ic la mx rs st.
Definition set_requests (x : requests) (m : machine) : machine := let 'mkMachine mo s it fc _ inj co fa ini su sv ic la mx rs st := m in mkMachine mo s it fc x inj co fa ini su sv ic la mx rs st.
Definition set_injector (x : injector) (m : machine) : machine := let 'mkMachine mo s it fc rq _ co fa ini su sv ic la mx rs st := m in mkMachine mo s it fc rq x co fa ini su sv ic la mx rs st.
Definition set_counts (x : gmap Caller Z) (m : machine) : machine := let 'mkMachine mo s it fc rq inj _ fa ini su sv ic la mx rs st := m in mkMachine mo s it fc rq inj x fa ini su sv ic la mx rs st.
Definition set_failed (x : option Call) (y : option f64) (m : machine) : machine := let 'mkMachine mo s it fc rq inj co _ _ su sv ic la mx rs st := m in mkMachine mo s it fc rq inj co x y su sv ic la mx rs st.
Definition set_suspicious (x : option (string * Z)) (m : machine) : machine := let 'mkMachine mo s it fc rq inj co fa ini _ sv ic la mx rs st := m in mkMachine mo s it fc rq inj co fa ini x sv ic la mx rs st.
Definition set_saved (x : option E) (m : machine) : machine := let 'mkMachine mo s it fc rq inj co fa ini su _ ic la mx rs st := m in mkMachine mo s it fc rq inj co fa ini su x ic la mx rs st.
Definition set_iter_ckpts (x : option (list iter_state)) (m : machine) : machine := let 'mkMachine mo s it fc rq inj co fa ini su sv _ la mx rs st := m in mkMachine mo s it fc rq inj co fa ini su sv x la mx rs st.
Definition set_large (x : gmap string Z) (y : gmap string f64) (m : machine) : machine := let 'mkMachine mo s it fc rq inj co fa ini su sv ic _ _ rs st := m in mkMachine mo s it fc rq inj co fa ini su sv ic x y rs st.
Definition set_results (x : gmap Call f64) (m : machine) : machine := let 'mkMachine mo s it fc rq inj co fa ini su sv ic la mx _ st := m in mkMachine mo s it fc rq inj co fa ini su sv ic la mx x st.
Definition set_stats (x : gmap Caller QuickStats) (m : machine) : machine := let 'mkMachine mo s it fc rq inj co fa ini su sv ic la mx rs _ := m in mkMachine mo s it fc rq inj co fa ini su sv ic la mx rs x.

Definition gets {A} (f : process -> A) : M process A := fun p => (Ok (f p), p).
Definition getm {A} (f : machine -> A) : M process A := gets (fun p => f (p_machine p)).
Definition modm (f : machine -> machine) : M process unit := modM (mach f).

(** *** Error injection *)

(** [maybe_inject] *)
Definition maybe_inject (h : host) : M process bool :=
  i ← getm m_injector;
  if negb (should_inject_errors i) || negb (is_none (in_injected i)) then mret false
  else
    e ← gets p_env;
    let '(n, e') := randint (in_rate i) e in
    modM (set_env e') ;;
    if negb ((n + h_rank h) mod in_rate i =? 0) then mret false
    else modm (set_injector (mkInjector (in_rate i) (in_type i) (Some (in_type i)))) ;; mret true.

(** [maybe_miscompare] *)
Definition maybe_miscompare (comparison_func : f64 -> f64 -> res f64) (initial_result result : f64) (state : RerunState) : M process f64 :=
  i ← getm m_injector;
  let processed := modm (set_injector (mkInjector (in_rate i) (in_type i) None)) in
  match in_injected i, state with
  | None, _ => liftM (comparison_func initial_result result)
  | Some TRANSIENT_ERROR, RERUNNING_IN_PLACE => processed ;; mret COMPARISON_MISMATCH
  | Some _, RERUNNING_IN_PLACE => mret COMPARISON_MATCH
  | Some PERSISTENT_ERROR, RERUNNING_FROM_CHECKPOINT => processed ;; mret COMPARISON_MISMATCH
  | Some CORRECT_RESULT, RERUNNING_FROM_CHECKPOINT => processed ;; mret COMPARISON_MATCH
  | Some _, _ => raiseM RuntimeError "Should not be here"
  end.

(** *** Saving and restoring *)

(** [_save_state] *)
Definition save_state : M process unit := e ← gets p_env; modm (set_saved (Some e)).

(** [_restore_state] *)
Definition restore_state : M process unit :=
  s ← getm m_saved;
  match s with
  | None => raiseM TypeError "'NoneType' object is not subscriptable"
  | Some e => modM (set_env e)
  end.

(** [_sanitize_data_iterators], and what is done to every iterator that it returns. *)
Definition data_iterators : M process (list data_iterator) :=
  mode ← getm m_mode; l ← gets p_iters; mret (if decide (mode = DISABLED) then [] else l).
Definition each_iterator (f : data_iterator -> data_iterator) : M process unit :=
  l ← data_iterators;
  mode ← getm m_mode;
  if decide (mode = DISABLED) then mret tt else modM (set_iters (map f l)).

(** [_maybe_report_stats] in a distributed job; [gathered] are the statistics of the ranks, as rank 0 gets them.  Rank 0 combines
    the statistics of the first caller, and formatting its report reads attributes that a caller does not have. *)
Definition maybe_report_stats (h : host) (gathered : list (gmap Caller QuickStats)) : M process unit :=
  it ← getm m_iteration;
  if negb (it mod 2 =? 0) then mret tt
  else if h_rank h =? 0 then
    match elements (⋃ (map (fun s => dom s) gathered) : gset Caller) with
    | [] => mret tt
    | caller :: _ =>
        st ← getm m_stats;
        modm (set_stats (<[caller := stats_combine (default stats_init (st !! caller)) (omap (fun s => s !! caller) (tail gathered))]> st)) ;;
        raiseM AttributeError "'Caller' object has no attribute 'filename'"
    end
  else st ← getm m_stats; modm (set_stats (stats_reset <$> st)).

(** *** The loop of a training step *)

(** [torch.distributed.all_reduce] of a request over all ranks; [sums] gives the results. *)
Definition all_reduce (sums : request -> Z) (r : request) : M process Z := modM (log_reduced r) ;; mret (sums r).

(** [d.load_state_dict(self.data_iterator_checkpoints[i])] for all iterators. *)
Definition load_iterators : M process unit :=
  c ← getm m_iter_ckpts;
  match c with
  | None => mret tt
  | Some ckpts =>
      l ← data_iterators;
      assertM (Nat.eqb (length ckpts) (length l)) "data iterator has different length than checkpointed data iterator" ;;
      modM (set_iters (zip_with iter_load_state_dict l ckpts)) ;;
      modm (set_iter_ckpts None)
  end.

(** [should_run_forward_backward] *)
Definition should_run_forward_backward (h : host) (gathered : list (gmap Caller QuickStats)) (sums : request -> Z) : M process bool :=
  modm (set_counts ∅) ;;
  mode ← getm m_mode;
  state ← getm m_state;
  it ← getm m_iteration;
  match state with
  | NOT_RUNNING_YET =>
      if decide (mode = DISABLED) then
        modm (fun m => set_iteration (it + 1) (set_state INITIAL_RUN m)) ;; mret true
      else
        load_iterators ;;
        save_state ;;
        each_iterator iter_advance ;;
        modm (set_requests no_requests) ;;
        modm (fun m => set_state INITIAL_RUN (set_iteration (it + 1) m)) ;;
        mret true
  | INITIAL_RUN =>
      if decide (mode = DISABLED) then modm (set_state NOT_RUNNING_YET) ;; mret false
      else
        will_rerun ← all_reduce sums RerunRequest;
        if will_rerun =? 0 then modm (set_state NOT_RUNNING_YET) ;; mret false
        else
          modm (set_state RERUNNING_IN_PLACE) ;;
          restore_state ;;
          each_iterator iter_rewind ;;
          mret true
  | RERUNNING_IN_PLACE =>
      if decide (mode = REPORT_DETERMINISM_STATS) then
        modm (set_state NOT_RUNNING_YET) ;;
        maybe_report_stats h gathered ;;
        modm (set_results ∅) ;;
        mret false
      else
        will_checkpoint ← all_reduce sums CheckpointRequest;
        whenM (0 <? will_checkpoint) (modm (set_state WILL_RERUN_FROM_CHECKPOINT)) ;;
        restore_state ;;
        each_iterator iter_rewind ;;
        mret false
  | WILL_RERUN_FROM_CHECKPOINT => modm (set_state RERUNNING_FROM_CHECKPOINT) ;; mret true
  | RERUNNING_FROM_CHECKPOINT =>
      will_restart_again ← all_reduce sums RestartRequest;
      (if 0 <? will_restart_again then modm (set_state RERUNNING_AGAIN_FROM_CHECKPOINT)
       else
         will_continue ← all_reduce sums ContinueRequest;
         whenM (0 <? will_continue) (modm (set_state NOT_RUNNING_YET))) ;;
      mret false
  | RERUNNING_AGAIN_FROM_CHECKPOINT => raiseM RuntimeError "Should not be here"
  end.

(** [should_checkpoint_and_exit]: whether to checkpoint, whether to exit, and the exit code. *)
Definition should_checkpoint_and_exit : M process (bool * bool * Z) :=
  modm (set_first true) ;;
  mode ← getm m_mode;
  state ← getm m_state;
  mret match mode, state with
  | VALIDATE_RESULTS, RERUNNING_IN_PLACE => (true, true, EXIT_CODE_FAILED_ON_RESULT_VALIDATION)
  | VALIDATE_RESULTS, WILL_RERUN_FROM_CHECKPOINT => (true, true, EXIT_CODE_RESUME_TO_DISAMBIGUATE)
  | VALIDATE_RESULTS, RERUNNING_FROM_CHECKPOINT => (false, true, EXIT_CODE_FAILED_ON_RESULT_VALIDATION)
  | VALIDATE_RESULTS, RERUNNING_AGAIN_FROM_CHECKPOINT => (false, true, EXIT_CODE_RESUME_TO_DISAMBIGUATE)
  | _, _ => (false, false, 0)
  end.

(** *** Validation *)

(** [_get_validation_call_info] *)
Definition get_validation_call_info (h : host) (message : string) : M process Call :=
  counts ← getm m_counts;
  let caller := (message, h_rank h) in
  let sequence := default 0 (counts !! caller) + 1 in
  modm (set_counts (<[caller := sequence]> counts)) ;;
  mret (caller, sequence).

(** [_log_validation_error_to_file] *)
Definition log_validation_error (h : host) (status : RerunValidationStatus) : M process unit :=
  it ← getm m_iteration;
  t ← gets p_tracker;
  modM (set_tracker ((fun l => l ++ [mkEntry (h_job h) (h_rank h) it status]) <$> t)).

Definition request_rerun (r : requests) : requests := mkRequests true (checkpoint_requested r) (restart_again_requested r) (continue_requested r).
Definition request_checkpoint (r : requests) : requests := mkRequests (rerun_requested r) true (restart_again_requested r) (continue_requested r).
Definition request_restart (r : requests) : requests := mkRequests (rerun_requested r) (checkpoint_requested r) true (continue_requested r).
Definition request_continue (r : requests) : requests := mkRequests (rerun_requested r) (checkpoint_requested r) (restart_again_requested r) true.
Definition add_request (f : requests -> requests) : M process unit := modm (fun m => set_requests (f (m_requests m)) m).

(** The first rerun, on the same device. *)
Definition first_rerun (h : host) (comparison tolerance : f64) : M process unit :=
  if f64_gtb comparison tolerance then log_validation_error h FIRST_RERUN_NOT_REPRODUCIBLE
  else
    add_request request_checkpoint ;;
    modm (set_suspicious (Some (h_node h, h_device h))) ;;
    log_validation_error h FIRST_RERUN_REPRODUCIBLE.

(** The second rerun, from the checkpoint. *)
Definition second_rerun (h : host) (comparison tolerance : f64) (fatal : bool) : M process unit :=
  suspicious ← getm m_suspicious;
  if bool_decide (suspicious = Some (h_node h, h_device h)) then add_request request_restart
  else if f64_gtb comparison tolerance then log_validation_error h SECOND_RERUN_NOT_REPRODUCIBLE
  else
    log_validation_error h SECOND_RERUN_REPRODUCIBLE ;;
    whenM (negb fatal) (add_request request_continue).

(** [validate_result]; a rejection function may change the machine ([is_unexpectedly_large]). *)
Definition validate_result (h : host) (result : f64) (rejection_func : f64 -> M process bool) (message : string)
    (comparison_func : option (f64 -> f64 -> res f64)) (tolerance : f64) (fatal : bool) : M process unit :=
  mode ← getm m_mode;
  if decide (mode = DISABLED) then
    result_rejected ← rejection_func result;
    if result_rejected : bool then
      log_validation_error h STATUS_RERUN_DISABLED ;; raiseM RuntimeError "Unexpected result"
    else mret tt
  else
    let comparison_func := default compare_floats comparison_func in
    state ← getm m_state;
    assertM (negb (bool_decide (state = NOT_RUNNING_YET))) "validate_result should not be called outside of the forward-backward pass" ;;
    validation_call ← get_validation_call_info h message;
    if decide (mode = REPORT_DETERMINISM_STATS) then
      match state with
      | INITIAL_RUN =>
          add_request request_rerun ;;
          modm (fun m => set_results (<[validation_call := result]> (m_results m)) m)
      | RERUNNING_IN_PLACE =>
          results ← getm m_results;
          match results !! validation_call with
          | None => raiseM AssertionError "Result from initial run missing"
          | Some initial_result =>
              diff ← liftM (comparison_func initial_result result);
              stats ← getm m_stats;
              s ← liftM (stats_record (default stats_init (stats !! (message, 0))) diff);
              modm (set_stats (<[(message, 0) := s]> stats))
          end
      | _ => mret tt
      end
    else
      requested ← getm (fun m => rerun_requested (m_requests m));
      failed ← getm m_failed;
      initial ← getm m_initial;
      if bool_decide (state = INITIAL_RUN) && negb requested then
        first_complete ← getm m_first_complete;
        if negb first_complete then mret tt
        else
          injected ← maybe_inject h;
          result_rejected ← (if injected : bool then mret true else rejection_func result);
          if result_rejected : bool then
            modm (set_failed (Some validation_call) (Some result)) ;;
            add_request request_rerun ;;
            log_validation_error h STATUS_INITIAL_RUN
          else mret tt
      else if (bool_decide (state = RERUNNING_IN_PLACE) || bool_decide (state = RERUNNING_FROM_CHECKPOINT))
           && bool_decide (failed = Some validation_call) then
        comparison ← maybe_miscompare comparison_func (default S754_nan initial) result state;
        match state with
        | RERUNNING_IN_PLACE => first_rerun h comparison tolerance
        | RERUNNING_FROM_CHECKPOINT => second_rerun h comparison tolerance fatal
        | _ => raiseM RuntimeError "Should not be here"
        end
      else mret tt.

(** [is_unexpectedly_large] *)
Definition is_unexpectedly_large (threshold : f64) (context : string) (num_samples : Z) (resample : bool) (result : f64) : M process bool :=
  let value := SFabs result in
  if f64_isnan value || f64_isinf value then mret false
  else
    counts ← getm m_large;
    maxs ← getm m_max;
    let count := if resample then 0 else default 0 (counts !! context) in
    if count <? num_samples then
      modm (set_large (<[context := count + 1]> counts) (<[context := py_fmax (default (S754_zero false) (maxs !! context)) value]> maxs)) ;;
      mret false
    else
      modm (set_large (<[context := count]> counts) maxs) ;;
      match maxs !! context with
      | None => raiseM KeyError "max_values"
      | Some m => mret (SFleb (SFmul prec64 emax64 m threshold) value)
      end.

(** *** Checkpoints *)

(** What [state_dict] returns: the common part and the part of this rank. *)
Record checkpoint := mkCheckpoint {
  ck_mode : RerunMode;
  ck_state : RerunState;
  ck_iteration : Z;
  ck_requests : requests;
  ck_injector : injector;
  ck_failed : option Call;
  ck_initial : option f64;
  ck_suspicious : option (string * Z);
  ck_iter_ckpts : option (list iter_state);
  ck_large : gmap string Z;
  ck_max : gmap string f64
}.

(** [state_dict] *)
Definition state_dict (ckpt_format : string) (force : bool) : M process (option checkpoint) :=
  m ← getm id;
  if negb force && bool_decide (m_state m = NOT_RUNNING_YET) then mret None
  else if negb force && negb (bool_decide (ckpt_format = "torch_dist")) then mret None
  else
    l ← data_iterators;
    mret (Some (mkCheckpoint (m_mode m) (m_state m) (m_iteration m) (m_requests m) (m_injector m) (m_failed m) (m_initial m) (m_suspicious m)
      (match l with [] => None | _ => Some (map iter_state_dict l) end) (m_large m) (m_max m))).

(** [validate_state_dict] *)
Definition validate_state_dict (c : option checkpoint) : bool :=
  match c with None => false | Some c => negb (bool_decide (ck_state c = NOT_RUNNING_YET)) end.

(** [load_state_dict] *)
Definition load_state_dict (c : checkpoint) : M process unit :=
  mode ← getm m_mode;
  if decide (mode = DISABLED) then mret tt
  else modm (fun m =>
    mkMachine (ck_mode c) (ck_state c) (ck_iteration c) (m_first_complete m) (ck_requests c) (ck_injector c) (m_counts m) (ck_failed c) (ck_initial c)
      (ck_suspicious c) (m_saved m) (ck_iter_ckpts c) (ck_large c) (ck_max c) (m_results m) (m_stats m)).
End Machine.
Arguments data_iterator : clear implicits.
Arguments machine : clear implicits.
Arguments process : clear implicits.
Arguments checkpoint : clear implicits.

(* ================================================================== *)
(** ** The tracker file                                                *)
(* ================================================================== *)

Definition counted_status (s : RerunValidationStatus) : bool :=
  match s with STATUS_RERUN_DISABLED | FIRST_RERUN_REPRODUCIBLE | SECOND_RERUN_REPRODUCIBLE => true | _ => false end.

(** The sets of [get_skipped_iterations_from_tracker_file]. *)
Record tracker_sets := mkSets {
  to_potentially_skip : gset Z;
  to_ignore : gset Z;
  seen : gset (Z * Z);
  seen_by_job : gmap (string * Z) (gset Z)
}.

(** The body of the loop over the lines; [iterations_seen_by_job[job][iteration]] has the key [(job, iteration)]. *)
Definition track (s : tracker_sets) (e : tracker_entry) : tracker_sets :=
  if counted_status (te_status e) then
    let rank := te_rank e in
    let iteration := te_iteration e in
    let ranks := default ∅ (seen_by_job s !! (te_job e, iteration)) ∪ {[rank]} in
    mkSets
      (if decide ((rank, iteration) ∈ seen s) then to_potentially_skip s ∪ {[iteration]} else to_potentially_skip s)
      (if decide (1 < size ranks)%nat then to_ignore s ∪ {[iteration]} else to_ignore s)
      (seen s ∪ {[(rank, iteration)]})
      (<[(te_job e, iteration) := ranks]> (seen_by_job s))
  else s.

(** [get_skipped_iterations_from_tracker_file] on the parsed lines. *)
Definition get_skipped_iterations (entries : list tracker_entry) : list Z :=
  let s := fold_left track entries (mkSets ∅ ∅ ∅ ∅) in
  merge_sort Z.le (elements (to_potentially_skip s ∖ to_ignore s)).
