(* ===== verification/RerunProofs.v ===== *)
(** * Behaviour of the rerun state machine

    The transitions of one process, that all processes move in step, how many passes a training step makes, and what
    the machine finds out about a rejected result. *)

From Stdlib Require Import SpecFloat.
From stdpp Require Import sorting.
From S2P Require Import Prelude PyFloat RerunMachine.

(* ================================================================== *)
(** ** Transitions                                                     *)
(* ================================================================== *)

(** What [should_run_forward_backward] decides from the mode, the state and the sums of requests: the answer, the next state
    and the reductions it takes part in. *)
Definition decision (mode : RerunMode) (state : RerunState) (sums : request -> Z) : bool * RerunState * list request :=
  match state with
  | NOT_RUNNING_YET => (true, INITIAL_RUN, [])
  | INITIAL_RUN =>
      if decide (mode = DISABLED) then (false, NOT_RUNNING_YET, [])
      else if sums RerunRequest =? 0 then (false, NOT_RUNNING_YET, [RerunRequest]) else (true, RERUNNING_IN_PLACE, [RerunRequest])
  | RERUNNING_IN_PLACE =>
      if decide (mode = REPORT_DETERMINISM_STATS) then (false, NOT_RUNNING_YET, [])
      else (false, if 0 <? sums CheckpointRequest then WILL_RERUN_FROM_CHECKPOINT else RERUNNING_IN_PLACE, [CheckpointRequest])
  | WILL_RERUN_FROM_CHECKPOINT => (true, RERUNNING_FROM_CHECKPOINT, [])
  | RERUNNING_FROM_CHECKPOINT =>
      if 0 <? sums RestartRequest then (false, RERUNNING_AGAIN_FROM_CHECKPOINT, [RestartRequest])
      else (false, if 0 <? sums ContinueRequest then NOT_RUNNING_YET else RERUNNING_FROM_CHECKPOINT, [RestartRequest; ContinueRequest])
  | RERUNNING_AGAIN_FROM_CHECKPOINT => (false, RERUNNING_AGAIN_FROM_CHECKPOINT, [])
  end.

(** Evaluate the methods of the machine. *)
Ltac machine_eval :=
  unfold should_run_forward_backward, load_iterators, save_state, restore_state, each_iterator, data_iterators, all_reduce, getm, gets, modm;
  m_unfold; cbn.
Ltac not_disabled := cbn; repeat (rewrite decide_False by done; cbn).

Section Transitions.
Context {E D : Type}.
Implicit Types (p : process E D) (m : machine E D).

(** The process can answer: it has saved its state before the passes, checkpoints fit its iterators, it reports no statistics. *)
Record answerable (p : process E D) : Prop := {
  an_saved : m_mode (p_machine p) <> DISABLED /\ m_state (p_machine p) = INITIAL_RUN \/ m_state (p_machine p) = RERUNNING_IN_PLACE -> is_Some (m_saved (p_machine p));
  an_ckpts : forall l, m_iter_ckpts (p_machine p) = Some l -> length l = length (p_iters p);
  an_report : m_mode (p_machine p) = REPORT_DETERMINISM_STATS -> m_state (p_machine p) <> RERUNNING_IN_PLACE;
  an_end : m_state (p_machine p) <> RERUNNING_AGAIN_FROM_CHECKPOINT
}.

(** What is done to the other state and the iterators when a pass starts again. *)
Definition rewound (p p' : process E D) : Prop :=
  m_saved (p_machine p) = Some (p_env p') /\ p_iters p' = map iter_rewind (p_iters p).

Lemma each_iterator_run (f : data_iterator D -> data_iterator D) p : m_mode (p_machine p) <> DISABLED ->
  each_iterator f p = (Ok tt, set_iters (map f (p_iters p)) p).
Proof. intros H. unfold each_iterator, data_iterators, getm, gets. m_unfold. by rewrite !decide_False. Qed.

Lemma load_iterators_run p : m_mode (p_machine p) <> DISABLED -> (forall l, m_iter_ckpts (p_machine p) = Some l -> length l = length (p_iters p)) ->
  exists iters, load_iterators p = (Ok tt, mach (set_iter_ckpts None) (set_iters iters p)) /\ map it_iterable iters = map it_iterable (p_iters p) /\
    (m_iter_ckpts (p_machine p) = None -> iters = p_iters p).
Proof.
  intros Hm Hl. machine_eval. destruct (m_iter_ckpts (p_machine p)) as [l|] eqn:El.
  - specialize (Hl l eq_refl). rewrite decide_False by done. rewrite Hl, Nat.eqb_refl. eexists. split; [reflexivity|]. split; [|done].
    clear El. revert l Hl. generalize (p_iters p). induction l as [|d ds IH]; intros [|x l] H; cbn in *; try lia; [done|]. f_equal; [by destruct x as [[? ?] ?]|]. apply IH. lia.
  - exists (p_iters p). split; [|done]. destruct p as [[] ? ? ? ?]. cbn in *. by subst.
Qed.

(** The process after one call of [should_run_forward_backward]. *)
Definition answered (sums : request -> Z) (p p' : process E D) : Prop :=
  let m := p_machine p in let m' := p_machine p' in
  m_state m' = snd (fst (decision (m_mode m) (m_state m) sums)) /\ p_reduced p' = p_reduced p ++ snd (decision (m_mode m) (m_state m) sums) /\
  m_mode m' = m_mode m /\ m_counts m' = ∅ /\ m_injector m' = m_injector m /\ m_failed m' = m_failed m /\ m_initial m' = m_initial m /\
  m_suspicious m' = m_suspicious m /\ m_first_complete m' = m_first_complete m /\ p_tracker p' = p_tracker p /\
  (m_mode m = VALIDATE_RESULTS ->
   match m_state m with
   | NOT_RUNNING_YET => m_requests m' = no_requests /\ m_saved m' = Some (p_env p) /\ p_env p' = p_env p /\ m_iter_ckpts m' = None /\
       map it_iterable (p_iters p') = map it_iterable (p_iters p) /\ Forall (fun d => it_saved d = [] /\ it_replaying d = false) (p_iters p')
   | INITIAL_RUN => m_requests m' = m_requests m /\ m_saved m' = m_saved m /\ m_iter_ckpts m' = m_iter_ckpts m /\
       if sums RerunRequest =? 0 then p_env p' = p_env p /\ p_iters p' = p_iters p else rewound p p'
   | RERUNNING_IN_PLACE => m_requests m' = m_requests m /\ m_iter_ckpts m' = m_iter_ckpts m /\ rewound p p'
   | _ => m_requests m' = m_requests m /\ m_saved m' = m_saved m /\ m_iter_ckpts m' = m_iter_ckpts m /\ p_env p' = p_env p /\ p_iters p' = p_iters p
   end).

Lemma should_run_ok h gathered sums p : answerable p -> exists p',
  should_run_forward_backward h gathered sums p = (Ok (fst (fst (decision (m_mode (p_machine p)) (m_state (p_machine p)) sums))), p') /\ answered sums p p'.
Proof.
  intros [A1 A2 A3 A4]. unfold answered. destruct (m_state (p_machine p)) eqn:Es; [| | | | |done].
  - destruct (decide (m_mode (p_machine p) = DISABLED)) as [Hd|Hd].
    + destruct p as [[] ? ? ? ?]. cbn in *. subst. eexists. split; [machine_eval; reflexivity|]. cbn. rewrite app_nil_r. split_and!; done.
    + destruct (load_iterators_run (mach (set_counts ∅) p)) as (iters & E1 & H1 & H2); [by destruct p as [[] ? ? ? ?]|by destruct p as [[] ? ? ? ?]|].
      unfold should_run_forward_backward. unfold modm at 1. rewrite (bind_step _ _ p tt (mach (set_counts ∅) p)) by done.
      rewrite (bind_step _ _ _ (m_mode (p_machine p)) (mach (set_counts ∅) p)) by (by destruct p as [[] ? ? ? ?]).
      rewrite (bind_step _ _ _ NOT_RUNNING_YET (mach (set_counts ∅) p)) by (destruct p as [[] ? ? ? ?]; cbn in *; by subst).
      rewrite (bind_step _ _ _ (m_iteration (p_machine p)) (mach (set_counts ∅) p)) by (by destruct p as [[] ? ? ? ?]).
      rewrite decide_False by done. rewrite (bind_step _ _ _ _ _ E1). destruct p as [[] ? ? ? ?]. cbn in *. subst. machine_eval. not_disabled.
      eexists. split; [reflexivity|]. cbn. rewrite app_nil_r. split_and!; try done. intros _. split_and!; try done; [by rewrite map_map|]. apply Forall_map, Forall_forall. done.
  - destruct p as [[mode ? ? ? ? ? ? ? ? ? sv ? ? ? ? ?] ? ? ? ?]. cbn in *. subst. machine_eval. destruct (decide (mode = DISABLED)) as [->|Hd].
    + eexists. split; [reflexivity|]. cbn. rewrite app_nil_r. split_and!; done.
    + destruct (A1 (or_introl (conj Hd eq_refl))) as [e ->]. destruct (sums RerunRequest =? 0) eqn:Ez.
      * eexists. split; [reflexivity|]. cbn. split_and!; done.
      * not_disabled. eexists. split; [reflexivity|]. cbn. split_and!; try done.
  - destruct p as [[mode ? ? ? ? ? ? ? ? ? sv ? ? ? ? ?] ? ? ? ?]. cbn in *. subst. assert (Hrep : mode <> REPORT_DETERMINISM_STATS) by (intros ->; by apply A3).
    machine_eval. rewrite (decide_False (P := mode = REPORT_DETERMINISM_STATS)) by done.
    destruct (A1 (or_intror eq_refl)) as [e ->]. destruct (decide (mode = DISABLED)) as [->|Hd].
    + destruct (0 <? sums CheckpointRequest); eexists; (split; [reflexivity|]); cbn; split_and!; done.
    + destruct (0 <? sums CheckpointRequest) eqn:Ez; not_disabled;
        eexists; (split; [reflexivity|]); cbn; split_and!; done.
  - destruct p as [[] ? ? ? ?]. cbn in *. subst. eexists. split; [reflexivity|]. cbn. rewrite app_nil_r. split_and!; done.
  - destruct p as [[] ? ? ? ?]. cbn in *. subst. machine_eval. destruct (0 <? sums RestartRequest); cbn.
    + eexists. split; [reflexivity|]. cbn. split_and!; done.
    + destruct (0 <? sums ContinueRequest); cbn; eexists; (split; [reflexivity|]); cbn; rewrite <- app_assoc; split_and!; done.
Qed.
End Transitions.

(* ================================================================== *)
(** ** Passes                                                          *)
(* ================================================================== *)

(** A validated result: [validate_result] with a rejection function that only looks at the result. *)
Record check := mkCheck {
  k_result : f64;
  k_reject : f64 -> bool;
  k_message : string;
  k_compare : option (f64 -> f64 -> res f64);
  k_tolerance : f64;
  k_fatal : bool
}.

Section Passes.
Context {E D : Type} (randint : Z -> E -> Z * E).
Implicit Types (p : process E D) (m : machine E D).

(** What a forward-backward pass does: read from an iterator, validate a result, change the other state. *)
Inductive op := Read (i : nat) | Check (c : check) | Change (f : E -> E).

Definition run_op (h : host) (o : op) : M (process E D) (list (nat * D)) :=
  match o with
  | Read i => fun p =>
      match p_iters p !! i with
      | None => (raise_ IndexError "no such data iterator", p)
      | Some d =>
          match iter_next (m_mode (p_machine p)) d with
          | (Ok x, d') => (Ok [(i, x)], set_iters (<[i := d']> (p_iters p)) p)
          | (Err e, d') => (Err e, set_iters (<[i := d']> (p_iters p)) p)
          end
      end
  | Check c =>
      validate_result randint h (k_result c) (fun r => mret (k_reject c r)) (k_message c) (k_compare c) (k_tolerance c) (k_fatal c) ;; mret []
  | Change f => modM (fun p => set_env (f (p_env p)) p) ;; mret []
  end.

(** A pass, with the microbatches that it read. *)
Fixpoint run_pass (h : host) (ops : list op) : M (process E D) (list (nat * D)) :=
  match ops with
  | [] => mret []
  | o :: ops => x ← run_op h o; xs ← run_pass h ops; mret (x ++ xs)
  end.

Definition checks_of (ops : list op) : list check := omap (fun o => match o with Check c => Some c | _ => None end) ops.
Definition is_read (i : nat) (o : op) : bool := match o with Read j => bool_decide (j = i) | _ => false end.
Definition reads_of (i : nat) (ops : list op) : nat := length (List.filter (is_read i) ops).
Definition changes_of (ops : list op) (e : E) : E := fold_left (fun e o => match o with Change f => f e | _ => e end) ops e.
Definition read_from (i : nat) (l : list (nat * D)) : list D := omap (fun x => if decide (fst x = i) then Some (snd x) else None) l.

(** Whether the result differs from the one of the initial run. *)
Definition differs (c : check) (initial : f64) : bool :=
  match default compare_floats (k_compare c) initial (k_result c) with Ok x => f64_gtb x (k_tolerance c) | Err _ => false end.

(** The validations of a pass with their call numbers. *)
Fixpoint numbered (rank : Z) (counts : gmap Caller Z) (cs : list check) : list (Call * check) :=
  match cs with
  | [] => []
  | c :: cs =>
      let caller := (k_message c, rank) in
      let sequence := default 0 (counts !! caller) + 1 in
      ((caller, sequence), c) :: numbered rank (<[caller := sequence]> counts) cs
  end.

(** The failed call, if it is this one, can be compared with its initial result. *)
Definition comparable (failed : option Call) (initial : option f64) (x : Call * check) : Prop :=
  failed = Some (fst x) -> is_ok (default compare_floats (k_compare (snd x)) (default S754_nan initial) (k_result (snd x))) = true.
Definition comparing (h : host) (cs : list check) (m : machine E D) : Prop :=
  m_state m <> INITIAL_RUN -> Forall (comparable (m_failed m) (m_initial m)) (numbered (h_rank h) (m_counts m) cs).

(** The effect of a validation on the machine. *)
Definition check_effect (h : host) (m : machine E D) (c : check) : machine E D :=
  let caller := (k_message c, h_rank h) in
  let sequence := default 0 (m_counts m !! caller) + 1 in
  let call := (caller, sequence) in
  let m1 := set_counts (<[caller := sequence]> (m_counts m)) m in
  let initial := default S754_nan (m_initial m) in
  match m_state m with
  | INITIAL_RUN =>
      if negb (rerun_requested (m_requests m)) && m_first_complete m && k_reject c (k_result c)
      then set_requests (request_rerun (m_requests m)) (set_failed (Some call) (Some (k_result c)) m1) else m1
  | RERUNNING_IN_PLACE =>
      if bool_decide (m_failed m = Some call) && negb (differs c initial)
      then set_suspicious (Some (h_node h, h_device h)) (set_requests (request_checkpoint (m_requests m)) m1) else m1
  | RERUNNING_FROM_CHECKPOINT =>
      if bool_decide (m_failed m = Some call) then
        if bool_decide (m_suspicious m = Some (h_node h, h_device h)) then set_requests (request_restart (m_requests m)) m1
        else if negb (differs c initial) && negb (k_fatal c) then set_requests (request_continue (m_requests m)) m1 else m1
      else m1
  | _ => m1
  end.

(** Validation without error injection. *)
Definition validating (m : machine E D) : Prop :=
  m_mode m = VALIDATE_RESULTS /\ in_rate (m_injector m) <= 0 /\ in_injected (m_injector m) = None /\ m_state m <> NOT_RUNNING_YET.

Local Ltac closed_decides :=
  repeat match goal with
  | |- context [decide (?a = ?b)] => rewrite (decide_False (P := a = b)) by discriminate
  | |- context [bool_decide (?a = ?b)] => first [rewrite (bool_decide_false (a = b)) by discriminate | rewrite (bool_decide_true (a = b)) by reflexivity]
  end.
Local Ltac evaluate := unfold getm, gets, get_validation_call_info, maybe_inject, should_inject_errors, maybe_miscompare, first_rerun, second_rerun, add_request, log_validation_error, modm;
  m_unfold; cbn; repeat (progress closed_decides; cbn).
Local Ltac returns := eexists; split; [reflexivity|]; split_and!; reflexivity.

Lemma validate_ok h c p : validating (p_machine p) -> comparing h [c] (p_machine p) -> exists p',
  run_op h (Check c) p = (Ok [], p') /\ p_machine p' = check_effect h (p_machine p) c /\
  p_env p' = p_env p /\ p_iters p' = p_iters p /\ p_reduced p' = p_reduced p.
Proof.
  intros (Hm & Hr & Hi & Hs) Hc. destruct p as [[mode state it fc rq [rate ty inj] co fa ini su sv ic la mx rs st] env iters tr red]. cbn in Hm, Hr, Hi, Hs. subst mode inj.
  unfold run_op, validate_result, check_effect, differs. unfold comparing in Hc. cbn [p_machine m_state m_counts m_initial m_requests m_first_complete m_failed m_suspicious numbered] in *.
  set (caller := (k_message c, h_rank h)) in *. set (call := (caller, default 0 (co !! caller) + 1)) in *.
  assert (Hc' : state <> INITIAL_RUN -> fa = Some call -> exists x, default compare_floats (k_compare c) (default S754_nan ini) (k_result c) = Ok x).
  { intros Hn Hf. specialize (Hc Hn). inversion_clear Hc as [|? ? H1 _]. specialize (H1 Hf). cbn in H1. destruct (default compare_floats _ _ _); [eauto|done]. }
  clear Hc. destruct state; try done; evaluate; fold caller; fold call.
  - destruct (rerun_requested rq) eqn:Erq; cbn; [returns|]. destruct fc; cbn; [|returns].
    rewrite (proj2 (Z.ltb_ge 0 rate) Hr). cbn. destruct (k_reject c (k_result c)); cbn; returns.
  - destruct (bool_decide (fa = _)) eqn:Ef; cbn; [|returns]. apply bool_decide_eq_true in Ef. destruct Hc' as [x Ec]; [done|done|].
    rewrite Ec. cbn. destruct (f64_gtb x (k_tolerance c)); cbn; returns.
  - returns.
  - destruct (bool_decide (fa = _)) eqn:Ef; cbn; [|returns]. apply bool_decide_eq_true in Ef. destruct Hc' as [x Ec]; [done|done|]. rewrite Ec. cbn.
    destruct (bool_decide (su = _)); cbn; [returns|]. destruct (f64_gtb x (k_tolerance c)); cbn; [returns|]. destruct (k_fatal c); cbn; returns.
  - returns.
Qed.

(** Validations change the requests, the failed call and the suspicious device only. *)
Lemma effect_frame h m c : let m' := check_effect h m c in m_mode m' = m_mode m /\ m_state m' = m_state m /\ m_injector m' = m_injector m /\
  m_saved m' = m_saved m /\ m_iter_ckpts m' = m_iter_ckpts m /\ m_first_complete m' = m_first_complete m /\ m_iteration m' = m_iteration m.
Proof.
  destruct m as [mode state it fc rq inj co fa ini su sv ic la mx rs st]. unfold check_effect. cbn.
  destruct state; cbn; try done; repeat (case_match; cbn); done.
Qed.
Lemma effect_comparing h c cs m : comparing h (c :: cs) m -> comparing h [c] m /\ comparing h cs (check_effect h m c).
Proof.
  intros H. split.
  - intros Hn. specialize (H Hn). cbn [numbered] in *. inversion_clear H. constructor; [done|constructor].
  - unfold comparing. rewrite (proj1 (proj2 (effect_frame h m c))). intros Hn. specialize (H Hn). cbn [numbered] in H. inversion_clear H as [|? ? _ H2].
    assert (E1 : m_counts (check_effect h m c) = <[(k_message c, h_rank h) := default 0 (m_counts m !! (k_message c, h_rank h)) + 1]> (m_counts m) /\
      m_failed (check_effect h m c) = m_failed m /\ m_initial (check_effect h m c) = m_initial m).
    { destruct m as [mode state it fc rq inj co fa ini su sv ic la mx rs st]. unfold check_effect. cbn in *. destruct state; cbn; try done; repeat (case_match; cbn); done. }
    destruct E1 as (-> & -> & ->). exact H2.
Qed.
Definition checked (h : host) (cs : list check) (m : machine E D) : machine E D := fold_left (check_effect h) cs m.
Lemma checked_frame h cs : forall m, let m' := checked h cs m in m_mode m' = m_mode m /\ m_state m' = m_state m /\ m_injector m' = m_injector m /\
  m_saved m' = m_saved m /\ m_iter_ckpts m' = m_iter_ckpts m /\ m_first_complete m' = m_first_complete m /\ m_iteration m' = m_iteration m.
Proof.
  induction cs as [|c cs IH]; intros m; [done|]. cbn. destruct (effect_frame h m c) as (E1 & E2 & E3 & E4 & E5 & E6 & E7).
  destruct (IH (check_effect h m c)) as (F1 & F2 & F3 & F4 & F5 & F6 & F7). cbn in *. unfold checked in *. split_and!; congruence.
Qed.

(** *** Iterators *)

(** [n] reads: whether they succeed, what they return and the iterator afterwards. *)
Definition enough (d : data_iterator D) (n : nat) : Prop :=
  if it_replaying d then (it_replay_pos d + n <= length (it_saved d))%nat else (n <= length (it_iterable d))%nat.
Definition upcoming (d : data_iterator D) (n : nat) : list D :=
  if it_replaying d then take n (drop (it_replay_pos d) (it_saved d)) else take n (it_iterable d).
Definition after (d : data_iterator D) (n : nat) : data_iterator D :=
  if it_replaying d then mkIter (it_iterable d) (it_saved d) true (it_replay_pos d + n)
  else mkIter (drop n (it_iterable d)) (it_saved d ++ take n (it_iterable d)) false (it_replay_pos d).

Lemma next_ok mode d n : mode <> DISABLED -> enough d (S n) -> exists x, iter_next mode d = (Ok x, after d 1) /\ enough (after d 1) n /\
  upcoming d (S n) = x :: upcoming (after d 1) n /\ after (after d 1) n = after d (S n).
Proof.
  unfold enough, upcoming, after, iter_next. intros Hm He. destruct d as [items saved [] pos]; cbn in *.
  - destruct (lookup_lt_is_Some_2 saved pos) as [x Hx]; [lia|]. rewrite Hx. exists x. replace (pos + 1)%nat with (S pos) by lia. split; [done|]. split; [lia|].
    split; [by rewrite (drop_S _ _ _ Hx)|]. f_equal. lia.
  - destruct items as [|x items]; cbn in *; [lia|]. exists x. rewrite decide_False by done. rewrite take_0, ?drop_0. split; [done|]. split; [rewrite ?drop_0; lia|]. split; [done|]. by rewrite <- app_assoc.
Qed.
Lemma after_0 d : after d 0 = d.
Proof. destruct d as [items saved [] pos]; unfold after; cbn; rewrite ?Nat.add_0_r, ?app_nil_r; done. Qed.
Lemma upcoming_0 d : upcoming d 0 = [].
Proof. unfold upcoming. by destruct (it_replaying d). Qed.

(** The reads of a pass find data. *)
Definition supplied (ops : list op) (l : list (data_iterator D)) : Prop :=
  forall i, (0 < reads_of i ops)%nat -> exists d, l !! i = Some d /\ enough d (reads_of i ops).

Lemma pass_ok h ops : forall p, validating (p_machine p) -> comparing h (checks_of ops) (p_machine p) -> supplied ops (p_iters p) ->
  exists reads p', run_pass h ops p = (Ok reads, p') /\ p_machine p' = checked h (checks_of ops) (p_machine p) /\
    p_env p' = changes_of ops (p_env p) /\ p_reduced p' = p_reduced p /\ length (p_iters p') = length (p_iters p) /\
    forall i d, p_iters p !! i = Some d -> p_iters p' !! i = Some (after d (reads_of i ops)) /\ read_from i reads = upcoming d (reads_of i ops).
Proof.
  induction ops as [|o ops IH]; intros p Hv Hc Hs.
  { exists [], p. split_and!; try done. intros i d Hd. unfold reads_of. cbn. by rewrite after_0, upcoming_0. }
  cbn [run_pass]. destruct o as [i|c|f].
  - destruct (Hs i) as (d & Hd & He); [unfold reads_of; cbn; rewrite bool_decide_true by done; cbn; lia|].
    assert (Hri : reads_of i (Read i :: ops) = S (reads_of i ops)) by (unfold reads_of; cbn; by rewrite bool_decide_true).
    assert (Hrj : forall j, j <> i -> reads_of j (Read i :: ops) = reads_of j ops) by (intros j Hj; unfold reads_of; cbn; by rewrite bool_decide_false).
    rewrite Hri in He. assert (Hm : m_mode (p_machine p) <> DISABLED) by (destruct Hv as [-> _]; done).
    destruct (next_ok (m_mode (p_machine p)) d (reads_of i ops) Hm He) as (x & En & He' & Hu & Ha).
    destruct (IH (set_iters (<[i := after d 1]> (p_iters p)) p)) as (reads & p' & E' & Em & Ee & Er & El & Hi); [done|done| |].
    { intros j Hj. destruct (decide (j = i)) as [->|Hji].
      - exists (after d 1). split; [|done]. apply list_lookup_insert_eq. by eapply lookup_lt_Some.
      - destruct (Hs j) as (d' & Hd' & Hed); [by rewrite Hrj|]. exists d'. rewrite Hrj in Hed by done. split; [|done]. cbn. by rewrite list_lookup_insert_ne. }
    exists ((i, x) :: reads), p'. split; [|split; [done|split; [done|split; [done|split; [by rewrite El; cbn; rewrite length_insert|]]]]].
    + rewrite (bind_step _ _ p [(i, x)] (set_iters (<[i := after d 1]> (p_iters p)) p)); [|cbn; by rewrite Hd, En]. by rewrite (bind_step _ _ _ _ _ E').
    + intros j d' Hd'. unfold read_from. cbn [omap list_omap fst snd]. destruct (decide (j = i)) as [->|Hji].
      * rewrite Hd in Hd'. injection Hd' as <-. rewrite decide_True by done. fold (read_from i reads). rewrite Hri, Hu, <- Ha.
        destruct (Hi i (after d 1)) as [-> ->]; [cbn; apply list_lookup_insert_eq; by eapply lookup_lt_Some|]. done.
      * rewrite decide_False by done. fold (read_from j reads). rewrite Hrj by done. apply Hi. cbn. by rewrite list_lookup_insert_ne.
  - destruct (effect_comparing _ _ _ _ Hc) as [Hc1 Hc2]. destruct (validate_ok h c p Hv Hc1) as (p1 & E1 & M1 & V1 & I1 & R1).
    destruct (effect_frame h (p_machine p) c) as (F1 & F2 & F3 & _). destruct (IH p1) as (reads & p' & E' & Em & Ee & Er & El & Hi).
    { unfold validating. rewrite M1. cbn in *. rewrite F1, F2, F3. exact Hv. }
    { rewrite M1. exact Hc2. }
    { intros i Hi. rewrite I1. apply (Hs i). exact Hi. }
    exists reads, p'. split; [|split; [by rewrite Em, M1|split; [by rewrite Ee, V1|split; [by rewrite Er|split; [by rewrite El, I1|]]]]].
    + rewrite (bind_step _ _ _ _ _ E1). by rewrite (bind_step _ _ _ _ _ E').
    + intros i d Hd. rewrite <- I1 in Hd. apply (Hi i d Hd).
  - destruct (IH (set_env (f (p_env p)) p)) as (reads & p' & E' & Em & Ee & Er & El & Hi); [done|done|exact Hs|].
    exists reads, p'. split; [|done]. rewrite (bind_step _ _ p [] (set_env (f (p_env p)) p)) by done. by rewrite (bind_step _ _ _ _ _ E').
Qed.

(** *** What a pass finds *)

(** The first rejected result of a pass. *)
Definition first_rejected (l : list (Call * check)) : option (Call * check) := head (List.filter (fun x => k_reject (snd x) (k_result (snd x))) l).

(** A rerun gives the result of the failed call again. *)
Definition reproduces (failed : option Call) (initial : option f64) (x : Call * check) : bool :=
  bool_decide (failed = Some (fst x)) && negb (differs (snd x) (default S754_nan initial)).

Lemma checked_requested h cs : forall m, m_state m = INITIAL_RUN -> rerun_requested (m_requests m) = true -> let m' := checked h cs m in
  m_requests m' = m_requests m /\ m_failed m' = m_failed m /\ m_initial m' = m_initial m /\ m_suspicious m' = m_suspicious m.
Proof.
  induction cs as [|c cs IH]; intros m Hs Hr; [done|]. cbn [checked fold_left]. fold (checked h cs (check_effect h m c)).
  assert (He : check_effect h m c = set_counts (<[(k_message c, h_rank h) := default 0 (m_counts m !! (k_message c, h_rank h)) + 1]> (m_counts m)) m)
    by (unfold check_effect; by rewrite Hs, Hr).
  rewrite He. destruct m. cbn in *. destruct (IH (mkMachine m_mode m_state m_iteration m_first_complete m_requests m_injector
    (<[(k_message c, h_rank h) := default 0 (m_counts !! (k_message c, h_rank h)) + 1]> m_counts) m_failed m_initial m_suspicious m_saved m_iter_ckpts m_large m_max m_results m_stats)); done.
Qed.

Lemma checked_initial h cs : forall m, m_state m = INITIAL_RUN -> m_first_complete m = true -> rerun_requested (m_requests m) = false -> let m' := checked h cs m in
  m_suspicious m' = m_suspicious m /\
  match first_rejected (numbered (h_rank h) (m_counts m) cs) with
  | None => m_requests m' = m_requests m /\ m_failed m' = m_failed m /\ m_initial m' = m_initial m
  | Some (call, c) => m_requests m' = request_rerun (m_requests m) /\ m_failed m' = Some call /\ m_initial m' = Some (k_result c)
  end.
Proof.
  induction cs as [|c cs IH]; intros m Hs Hf Hr; [done|]. cbn [checked fold_left]. fold (checked h cs (check_effect h m c)).
  cbn [numbered]. unfold first_rejected. cbn [List.filter snd]. destruct (k_reject c (k_result c)) eqn:Ek.
  - assert (He : check_effect h m c = set_requests (request_rerun (m_requests m)) (set_failed (Some ((k_message c, h_rank h), default 0 (m_counts m !! (k_message c, h_rank h)) + 1)) (Some (k_result c))
      (set_counts (<[(k_message c, h_rank h) := default 0 (m_counts m !! (k_message c, h_rank h)) + 1]> (m_counts m)) m))) by (unfold check_effect; by rewrite Hs, Hr, Hf, Ek).
    cbn [head]. rewrite He. destruct m. cbn in *. match goal with |- context [checked h cs ?x] => destruct (checked_requested h cs x) as (Q1 & Q2 & Q3 & Q4); [done|done|] end. cbn in *. split_and!; done.
  - assert (He : check_effect h m c = set_counts (<[(k_message c, h_rank h) := default 0 (m_counts m !! (k_message c, h_rank h)) + 1]> (m_counts m)) m)
      by (unfold check_effect; by rewrite Hs, Hr, Hf, Ek).
    rewrite He. destruct m. cbn in *. match goal with |- context [checked h cs ?x] => apply (IH x) end; done.
Qed.

Lemma checked_in_place h cs : forall m, m_state m = RERUNNING_IN_PLACE -> let m' := checked h cs m in
  let again := existsb (reproduces (m_failed m) (m_initial m)) (numbered (h_rank h) (m_counts m) cs) in
  m_failed m' = m_failed m /\ m_initial m' = m_initial m /\
  m_requests m' = (if again then request_checkpoint (m_requests m) else m_requests m) /\
  m_suspicious m' = (if again then Some (h_node h, h_device h) else m_suspicious m).
Proof.
  induction cs as [|c cs IH]; intros m Hs; [done|]. cbn [checked fold_left]. fold (checked h cs (check_effect h m c)). cbn [numbered existsb].
  set (b := reproduces (m_failed m) (m_initial m) _).
  assert (He : check_effect h m c = let m1 := set_counts (<[(k_message c, h_rank h) := default 0 (m_counts m !! (k_message c, h_rank h)) + 1]> (m_counts m)) m in
    if b then set_suspicious (Some (h_node h, h_device h)) (set_requests (request_checkpoint (m_requests m)) m1) else m1) by (unfold check_effect; by rewrite Hs).
  rewrite He. clear He. destruct m. cbn in *. destruct b; cbn.
  - match goal with |- context [checked h cs ?x] => destruct (IH x Hs) as (I1 & I2 & I3 & I4) end. cbn in *. rewrite I1, I2, I3, I4. split_and!; try done; by case_match.
  - match goal with |- context [checked h cs ?x] => apply (IH x Hs) end.
Qed.

(** The failed call is reached again; it is reached and its result is accepted. *)
Definition reaches (failed : option Call) (x : Call * check) : bool := bool_decide (failed = Some (fst x)).
Definition accepts (failed : option Call) (initial : option f64) (x : Call * check) : bool := reproduces failed initial x && negb (k_fatal (snd x)).

Lemma checked_from_checkpoint h cs : forall m, m_state m = RERUNNING_FROM_CHECKPOINT -> let m' := checked h cs m in
  let calls := numbered (h_rank h) (m_counts m) cs in
  m_suspicious m' = m_suspicious m /\
  m_requests m' =
    if bool_decide (m_suspicious m = Some (h_node h, h_device h))
    then (if existsb (reaches (m_failed m)) calls then request_restart (m_requests m) else m_requests m)
    else (if existsb (accepts (m_failed m) (m_initial m)) calls then request_continue (m_requests m) else m_requests m).
Proof.
  induction cs as [|c cs IH]; intros m Hs; [cbn; by case_match|]. cbn [checked fold_left]. fold (checked h cs (check_effect h m c)). cbn [numbered existsb].
  assert (He : check_effect h m c = let m1 := set_counts (<[(k_message c, h_rank h) := default 0 (m_counts m !! (k_message c, h_rank h)) + 1]> (m_counts m)) m in
    let x := (((k_message c, h_rank h), default 0 (m_counts m !! (k_message c, h_rank h)) + 1), c) in
    if bool_decide (m_suspicious m = Some (h_node h, h_device h)) then (if reaches (m_failed m) x then set_requests (request_restart (m_requests m)) m1 else m1)
    else (if accepts (m_failed m) (m_initial m) x then set_requests (request_continue (m_requests m)) m1 else m1)).
  { unfold check_effect, accepts, reproduces, reaches. rewrite Hs. cbn.
    destruct (bool_decide (m_failed m = _)), (bool_decide (m_suspicious m = _)), (differs c (default S754_nan (m_initial m))), (k_fatal c); done. }
  rewrite He. clear He. destruct m. cbn in *. destruct (bool_decide (m_suspicious = _)) eqn:Eb.
  - destruct (reaches _ _); cbn; (match goal with |- context [checked h cs ?x] => destruct (IH x Hs) as (I1 & I2) end; cbn in *; rewrite Eb in I2; rewrite I1, I2; split; [done|]; by case_match).
  - destruct (accepts _ _ _); cbn; (match goal with |- context [checked h cs ?x] => destruct (IH x Hs) as (I1 & I2) end; cbn in *; rewrite Eb in I2; rewrite I1, I2; split; [done|]; by case_match).
Qed.
End Passes.
