(* ===== verification/RerunTheorems.v ===== *)
(** * What the rerun state machine guarantees

    All processes of a job with their machines: they move in step, a training step makes at most two passes, and the
    exit code tells what the reruns found. *)

From Stdlib Require Import SpecFloat.
From stdpp Require Import sorting.
From S2P Require Import Prelude PyFloat RerunMachine RerunProofs.

Definition flag (r : request) (q : requests) : bool :=
  match r with
  | RerunRequest => rerun_requested q
  | CheckpointRequest => checkpoint_requested q
  | RestartRequest => restart_again_requested q
  | ContinueRequest => continue_requested q
  end.

Definition any (l : list bool) : bool := existsb id l.

Section World.
Context {E D : Type} (randint : Z -> E -> Z * E) (gathered : list (gmap Caller QuickStats)).

(** The processes of the job and where they run. *)
Definition world : Type := list (host * process E D).

(** The result of the all-reduce of a request over all ranks. *)
Definition flags (r : request) (w : world) : list bool := map (fun x => flag r (m_requests (p_machine (snd x)))) w.
Definition sums_of (w : world) (r : request) : Z := zsum (map Z.b2z (flags r w)).

(** All ranks call [should_run_forward_backward]; ranks that disagree would hang in the next collective. *)
Definition ask (w : world) : res (bool * world) :=
  outs ← mapR (fun '(h, p) => match should_run_forward_backward h gathered (sums_of w) p with
                              | (Ok b, p') => Ok (b, (h, p'))
                              | (Err e, _) => Err e
                              end) w;
  if forallb fst outs then mret (true, map snd outs)
  else if forallb (fun x => negb (fst x)) outs then mret (false, map snd outs)
  else raise_ RuntimeError "the ranks disagree".

(** All ranks run their pass; what each rank reads. *)
Definition run_all (pass : list (list op)) (w : world) : res (list (list (nat * D)) * world) :=
  outs ← mapR (fun '(ops, (h, p)) => match run_pass randint h ops p with (Ok rd, p') => Ok (rd, (h, p')) | (Err e, _) => Err e end) (zip pass w);
  mret (map fst outs, map snd outs).

(** [while should_run_forward_backward(data_iterator): ...] of [train_step] with the passes in turn; what each pass reads. *)
Fixpoint train_loop (passes : list (list (list op))) (w : world) : res (list (list (list (nat * D))) * world) :=
  x ← ask w;
  let '(go, w1) := x in
  if go : bool then
    match passes with
    | [] => raise_ RuntimeError "no pass is left"
    | pass :: rest => rw ← run_all pass w1; y ← train_loop rest (snd rw); mret (fst rw :: fst y, snd y)
    end
  else mret ([], w1).

Definition in_step (mode : RerunMode) (state : RerunState) (w : world) : Prop :=
  Forall (fun x => m_mode (p_machine (snd x)) = mode /\ m_state (p_machine (snd x)) = state) w.

Lemma ask_ok mode state (w : world) : w <> [] -> in_step mode state w -> Forall (fun x => answerable (snd x)) w ->
  exists w', ask w = Ok (fst (fst (decision mode state (sums_of w))), w') /\ length w' = length w /\
    forall k h p x', w !! k = Some (h, p) -> w' !! k = Some x' -> fst x' = h /\ answered (sums_of w) p (snd x').
Proof.
  intros Hne Hs Ha. unfold in_step in Hs. rewrite Forall_lookup in Hs, Ha. unfold ask.
  match goal with |- context [mapR ?f w] => destruct (mapR_ix f (fun _ x y => fst y = fst (fst (decision mode state (sums_of w))) /\ fst (snd y) = fst x /\
    answered (sums_of w) (snd x) (snd (snd y))) w) as (outs & -> & Hl & Ho) end.
  { intros k [h p] Hk. destruct (Hs k _ Hk) as [Hm Hst]. cbn in Hm, Hst. destruct (should_run_ok h gathered (sums_of w) p (Ha k _ Hk)) as (p' & E1 & An).
    rewrite Hm, Hst in E1. rewrite E1. eexists. split; [reflexivity|]. done. }
  assert (Hall : Forall (fun y => fst y = fst (fst (decision mode state (sums_of w)))) outs).
  { apply Forall_lookup. intros k y Hy. destruct (lookup_lt_is_Some_2 w k) as [x Hx]; [rewrite <- Hl; by eapply lookup_lt_Some|]. apply (Ho k x y Hx Hy). }
  cbn [mbind res_bind]. exists (map snd outs). split; [|split].
  - destruct outs as [|y outs]; [destruct w; done|]. destruct (fst (fst (decision mode state (sums_of w)))).
    + rewrite (proj2 (forallb_forall _ _)); [done|]. intros z Hz%list_elem_of_In. rewrite Forall_forall in Hall. by apply Hall.
    + assert (E1 : forallb fst (y :: outs) = false). { inversion_clear Hall as [|? ? H1 _]. cbn. by rewrite H1. } rewrite E1.
      rewrite (proj2 (forallb_forall _ _)); [done|]. intros z Hz%list_elem_of_In. rewrite Forall_forall in Hall. by rewrite (Hall z Hz).
  - by rewrite length_map.
  - intros k h p x' Hk Hk'. apply list_lookup_fmap_Some in Hk' as (y & -> & Hy). apply (Ho k (h, p) y Hk Hy).
Qed.

(** The sums tell whether some rank has made the request. *)
Lemma sums_any w r : (0 <? sums_of w r) = any (flags r w) /\ (sums_of w r =? 0) = negb (any (flags r w)).
Proof.
  unfold sums_of, any. assert (H : forall l, 0 <= zsum (map Z.b2z l) /\ (0 < zsum (map Z.b2z l) <-> existsb id l = true)).
  { induction l as [|b l [I1 I2]]; [cbn; split; [lia|]; split; [lia|done]|]. cbn. unfold zsum in *. cbn. destruct b; cbn; [lia|]. split; [lia|]. rewrite <- I2. lia. }
  destruct (H (flags r w)) as [H1 H2]. destruct (existsb id (flags r w)).
  - assert (0 < zsum (map Z.b2z (flags r w))) by (by apply H2). split; [by apply Z.ltb_lt|]. cbn. apply Z.eqb_neq. lia.
  - assert (~ 0 < zsum (map Z.b2z (flags r w))) by (intros K; by apply H2 in K). split; [by apply Z.ltb_ge; lia|]. cbn. apply Z.eqb_eq. lia.
Qed.

(** A process before and after a pass. *)
Definition passed (h : host) (ops : list op) (p : process E D) (rd : list (nat * D)) (p' : process E D) : Prop :=
  p_machine p' = checked h (checks_of ops) (p_machine p) /\ p_env p' = changes_of ops (p_env p) /\ length (p_iters p') = length (p_iters p) /\
  forall i d, p_iters p !! i = Some d -> p_iters p' !! i = Some (after d (reads_of i ops)) /\ read_from i rd = upcoming d (reads_of i ops).
Definition passable (h : host) (ops : list (op (E := E))) (p : process E D) : Prop :=
  validating (p_machine p) /\ comparing h (checks_of ops) (p_machine p) /\ supplied ops (p_iters p).

Lemma run_all_ok (pass : list (list op)) (w : world) : length pass = length w ->
  (forall k ops h p, pass !! k = Some ops -> w !! k = Some (h, p) -> passable h ops p) ->
  exists reads w', run_all pass w = Ok (reads, w') /\ length reads = length w /\ length w' = length w /\
    forall k ops h p rd x', pass !! k = Some ops -> w !! k = Some (h, p) -> reads !! k = Some rd -> w' !! k = Some x' -> fst x' = h /\ passed h ops p rd (snd x').
Proof.
  intros Hl H. unfold run_all.
  match goal with |- context [mapR ?f (zip pass w)] => destruct (mapR_ix f (fun _ x y => let '(ops, (h, p)) := x in
    fst (snd y) = h /\ passed h ops p (fst y) (snd (snd y))) (zip pass w)) as (outs & -> & Hlo & Ho) end.
  { intros k [ops [h p]] Hk. apply lookup_zip_Some in Hk as [Hp Hw]. destruct (H k ops h p Hp Hw) as (V & Cm & S). destruct (pass_ok randint h ops p V Cm S) as (reads & p' & -> & M & Ev & _ & L & I).
    exists (reads, (h, p')). done. }
  rewrite length_zip in Hlo. cbn [mbind res_bind]. exists (map fst outs), (map snd outs). split; [done|]. rewrite !length_map. split; [lia|]. split; [lia|].
  intros k ops h p rd x' Hp Hk Hr Hx. apply list_lookup_fmap_Some in Hr as (y & -> & Hy). apply list_lookup_fmap_Some in Hx as (y' & -> & Hy').
  rewrite Hy in Hy'. injection Hy' as <-. apply (Ho k (ops, (h, p)) y); [|done]. by apply lookup_zip_Some.
Qed.

(** One turn of the loop, and its end. *)
Lemma loop_pass mode state pass (w : world) : w <> [] -> in_step mode state w -> Forall (fun x => answerable (snd x)) w ->
  fst (fst (decision mode state (sums_of w))) = true -> length pass = length w ->
  (forall k ops h p p1, pass !! k = Some ops -> w !! k = Some (h, p) -> answered (sums_of w) p p1 -> passable h ops p1) ->
  exists reads w2, (forall rest, train_loop (pass :: rest) w = (y ← train_loop rest w2; mret (reads :: fst y, snd y))) /\ length reads = length w /\ length w2 = length w /\
    forall k ops h p rd x2, pass !! k = Some ops -> w !! k = Some (h, p) -> reads !! k = Some rd -> w2 !! k = Some x2 ->
      fst x2 = h /\ exists p1, answered (sums_of w) p p1 /\ passable h ops p1 /\ passed h ops p1 rd (snd x2).
Proof.
  intros Hne Hs Ha Hd Hl Hp. destruct (ask_ok mode state w Hne Hs Ha) as (w1 & E1 & L1 & A1). rewrite Hd in E1.
  assert (back : forall k h1 p1, w1 !! k = Some (h1, p1) -> exists p, w !! k = Some (h1, p) /\ answered (sums_of w) p p1).
  { intros k h1 p1 Hk. destruct (lookup_lt_is_Some_2 w k) as [[h p] Hw]; [rewrite <- L1; by eapply lookup_lt_Some|].
    destruct (A1 k h p _ Hw Hk) as [Eh A]. cbn in Eh, A. subst h1. by exists p. }
  destruct (run_all_ok pass w1) as (reads & w2 & E2 & L2 & L3 & P2); [congruence| |].
  { intros k ops h1 p1 Hpk Hk. destruct (back k h1 p1 Hk) as (p & Hw & A). by eapply Hp. }
  exists reads, w2. split; [|split; [congruence|split; [congruence|]]].
  - intros rest. cbn [train_loop]. rewrite E1. cbn [mbind res_bind]. by rewrite E2.
  - intros k ops h p rd x2 Hpk Hk Hr H2. destruct (lookup_lt_is_Some_2 w1 k) as [[h1 p1] Hw1]; [rewrite L1; by eapply lookup_lt_Some|].
    destruct (A1 k h p _ Hk Hw1) as [Eh A]. cbn in Eh, A. subst h1. destruct (P2 k ops h p1 rd x2 Hpk Hw1 Hr H2) as [Eh2 Pa]. split; [done|]. exists p1. split; [done|]. split; [by eapply Hp|done].
Qed.
Lemma loop_end mode state passes (w : world) : w <> [] -> in_step mode state w -> Forall (fun x => answerable (snd x)) w ->
  fst (fst (decision mode state (sums_of w))) = false ->
  exists w', train_loop passes w = Ok ([], w') /\ length w' = length w /\
    forall k h p x', w !! k = Some (h, p) -> w' !! k = Some x' -> fst x' = h /\ answered (sums_of w) p (snd x').
Proof.
  intros Hne Hs Ha Hd. destruct (ask_ok mode state w Hne Hs Ha) as (w1 & E1 & L1 & A1). rewrite Hd in E1. exists w1. split; [|done]. destruct passes; cbn [train_loop]; by rewrite E1.
Qed.

(** All ranks move in step: asked in the same mode and state, they all give the same answer, move to the same state and
    take part in the same reductions in the same order, so that none of them waits for a reduction that another one skips. *)
Theorem rerun_lockstep mode state (w : world) : w <> [] -> in_step mode state w -> Forall (fun x => answerable (snd x)) w ->
  exists go w' state' reductions, ask w = Ok (go, w') /\ length w' = length w /\ in_step mode state' w' /\
    forall k x x', w !! k = Some x -> w' !! k = Some x' -> fst x' = fst x /\ p_reduced (snd x') = p_reduced (snd x) ++ reductions.
Proof.
  intros Hne Hs Ha. destruct (ask_ok mode state w Hne Hs Ha) as (w' & E1 & L & A). unfold in_step in Hs. rewrite Forall_lookup in Hs.
  exists (fst (fst (decision mode state (sums_of w)))), w', (snd (fst (decision mode state (sums_of w)))), (snd (decision mode state (sums_of w))).
  split; [done|]. split; [done|]. split.
  - apply Forall_lookup. intros k [h' p'] Hk. destruct (lookup_lt_is_Some_2 w k) as [[h p] Hw]; [rewrite <- L; by eapply lookup_lt_Some|].
    destruct (Hs k _ Hw) as [Hm Hst]. destruct (A k h p _ Hw Hk) as (_ & A1 & _ & A2 & _). cbn in *. rewrite Hm, Hst in A1. by rewrite A2.
  - intros k [h p] x' Hw Hk. destruct (Hs k _ Hw) as [Hm Hst]. destruct (A k h p _ Hw Hk) as (Eh & _ & A1 & _). cbn in *. by rewrite Hm, Hst in A1.
Qed.

(** *** A training step *)

(** A rank between training steps: results are validated, nothing is injected, and no result was rejected so far. *)
Record ready (p : process E D) : Prop := {
  rd_mode : m_mode (p_machine p) = VALIDATE_RESULTS;
  rd_state : m_state (p_machine p) = NOT_RUNNING_YET;
  rd_first : m_first_complete (p_machine p) = true;
  rd_injector : in_rate (m_injector (p_machine p)) <= 0 /\ in_injected (m_injector (p_machine p)) = None;
  rd_failed : m_failed (p_machine p) = None;
  rd_ckpts : m_iter_ckpts (p_machine p) = None
}.

(** The first rejected result of the first pass, and whether the second pass gives it again. *)
Definition rejection (h : host) (ops : list (op (E := E))) : option (Call * check) := first_rejected (numbered (h_rank h) ∅ (checks_of ops)).
Definition rejected_call (h : host) (ops : list (op (E := E))) : option Call := fst <$> rejection h ops.
Definition rejected_result (h : host) (ops : list (op (E := E))) : option f64 := (fun x => k_result (snd x)) <$> rejection h ops.
Definition rejects (h : host) (ops : list (op (E := E))) : bool := negb (is_none (rejection h ops)).
Definition recurs (h : host) (ops1 ops2 : list (op (E := E))) : bool :=
  existsb (reproduces (rejected_call h ops1) (rejected_result h ops1)) (numbered (h_rank h) ∅ (checks_of ops2)).

(** A rank after the first pass; [n] reads were made from the iterator [i]. *)
Record initial_done (h : host) (ops : list (op (E := E))) (p q : process E D) : Prop := {
  id_mode : m_mode (p_machine q) = VALIDATE_RESULTS /\ m_state (p_machine q) = INITIAL_RUN;
  id_injector : in_rate (m_injector (p_machine q)) <= 0 /\ in_injected (m_injector (p_machine q)) = None;
  id_saved : m_saved (p_machine q) = Some (p_env p) /\ m_iter_ckpts (p_machine q) = None /\ m_suspicious (p_machine q) = m_suspicious (p_machine p);
  id_requests : m_requests (p_machine q) = if rejects h ops then request_rerun no_requests else no_requests;
  id_failed : m_failed (p_machine q) = rejected_call h ops;
  id_initial : rejects h ops = true -> m_initial (p_machine q) = rejected_result h ops;
  id_env : p_env q = changes_of ops (p_env p);
  id_iters : forall i d, p_iters p !! i = Some d -> exists pos, p_iters q !! i = Some (mkIter (drop (reads_of i ops) (it_iterable d)) (take (reads_of i ops) (it_iterable d)) false pos)
}.

Definition available (ops : list (op (E := E))) (p : process E D) : Prop :=
  forall i, (0 < reads_of i ops)%nat -> exists d, p_iters p !! i = Some d /\ (reads_of i ops <= length (it_iterable d))%nat.

Lemma ready_answerable p : ready p -> answerable p.
Proof. intros [R1 R2 R3 R4 R5 R6]. split; rewrite ?R1, ?R2, ?R6; try done. by intros [[_ ?]|?]. Qed.

(** The iterators when the first pass starts. *)
Lemma started_iter sums p p1 i d : ready p -> answered sums p p1 -> p_iters p !! i = Some d -> exists pos, p_iters p1 !! i = Some (mkIter (it_iterable d) [] false pos).
Proof.
  intros R (_ & _ & _ & _ & _ & _ & _ & _ & _ & _ & A) Hd. specialize (A (rd_mode p R)). rewrite (rd_state p R) in A. destruct A as (_ & _ & _ & _ & Ai & Af).
  assert (H : map it_iterable (p_iters p1) !! i = Some (it_iterable d)) by (rewrite Ai, list_lookup_fmap, Hd; done).
  apply list_lookup_fmap_Some in H as ([items saved replaying pos] & Hi & H1). rewrite Forall_lookup in Af. destruct (Af i _ H1) as [H2 H3]. cbn in Hi, H2, H3. subst. by exists pos.
Qed.
Lemma started_passable sums h ops p p1 : ready p -> answered sums p p1 -> available ops p -> passable h ops p1.
Proof.
  intros R A Hav. pose proof A as (A1 & _ & A2 & _ & A3 & _). pose proof (rd_injector p R). rewrite (rd_state p R) in A1. cbn in A1. split; [|split].
  - unfold validating. rewrite A1, A2, A3, (rd_mode p R). destruct H. split_and!; done.
  - intros Hn. by rewrite A1 in Hn.
  - intros i Hi. destruct (Hav i Hi) as (d & Hd & Hn). destruct (started_iter sums p p1 i d R A Hd) as [pos H1]. eexists. split; [exact H1|]. done.
Qed.

Lemma first_pass sums h ops p p1 rd q : ready p -> answered sums p p1 -> passed h ops p1 rd q ->
  initial_done h ops p q /\ forall i d, p_iters p !! i = Some d -> read_from i rd = take (reads_of i ops) (it_iterable d).
Proof.
  intros R A (Pm & Pe & Pl & Pi). pose proof A as (A1 & _ & A2 & A3 & A4 & A5 & A6 & A7 & A8 & _ & A9). specialize (A9 (rd_mode p R)). rewrite (rd_state p R) in A1, A9. cbn in A1.
  destruct A9 as (B1 & B2 & B3 & B4 & _). pose proof (rd_injector p R) as Rj. split; [|].
  - destruct (checked_frame h (checks_of ops) (p_machine p1)) as (F1 & F2 & F3 & F4 & F5 & F6 & _).
    destruct (checked_initial h (checks_of ops) (p_machine p1)) as [G1 G2]; [done|by rewrite A8, (rd_first p R)|by rewrite B1|]. cbn zeta in F1, F2, F3, F4, F5, F6. rewrite A3 in G2. fold (rejection h ops) in G2.
    split; unfold rejects, rejected_call, rejected_result; rewrite ?Pm.
    + by rewrite F1, F2, A1, A2, (rd_mode p R).
    + by rewrite F3, A4.
    + by rewrite F4, F5, B2, B4, G1, A7.
    + destruct (rejection h ops) as [[call c]|]; cbn; destruct G2 as (-> & _); by rewrite B1.
    + destruct (rejection h ops) as [[call c]|]; cbn; destruct G2 as (_ & -> & _); [done|]. by rewrite A5, (rd_failed p R).
    + destruct (rejection h ops) as [[call c]|]; [|done]. cbn. by destruct G2 as (_ & _ & ->).
    + by rewrite Pe, B3.
    + intros i d Hd. destruct (started_iter sums p p1 i d R A Hd) as [pos H1]. destruct (Pi i _ H1) as [H2 _]. exists pos. by rewrite H2.
  - intros i d Hd. destruct (started_iter sums p p1 i d R A Hd) as [pos H1]. by destruct (Pi i _ H1) as [_ ->].
Qed.

(** A rank after the second pass. *)
Record in_place_done (h : host) (ops1 ops2 : list (op (E := E))) (p q : process E D) : Prop := {
  pd_mode : m_mode (p_machine q) = VALIDATE_RESULTS /\ m_state (p_machine q) = RERUNNING_IN_PLACE;
  pd_saved : m_saved (p_machine q) = Some (p_env p) /\ m_iter_ckpts (p_machine q) = None;
  pd_requests : checkpoint_requested (m_requests (p_machine q)) = recurs h ops1 ops2;
  pd_suspicious : m_suspicious (p_machine q) = if recurs h ops1 ops2 then Some (h_node h, h_device h) else m_suspicious (p_machine p);
  pd_failed : m_failed (p_machine q) = rejected_call h ops1 /\ (rejects h ops1 = true -> m_initial (p_machine q) = rejected_result h ops1);
  pd_quiet : restart_again_requested (m_requests (p_machine q)) = false /\ continue_requested (m_requests (p_machine q)) = false;
  pd_injector : in_rate (m_injector (p_machine q)) <= 0 /\ in_injected (m_injector (p_machine q)) = None;
  pd_iters : forall i d, p_iters p !! i = Some d ->
    exists pos, p_iters q !! i = Some (mkIter (drop (reads_of i ops1) (it_iterable d)) (take (reads_of i ops1) (it_iterable d)) true pos)
}.

(** What the second pass needs: it reads no more than the first one, and the rejected result can be compared. *)
Definition rerunnable (h : host) (ops1 ops2 : list (op (E := E))) : Prop :=
  (forall i, reads_of i ops2 <= reads_of i ops1)%nat /\
  Forall (comparable (rejected_call h ops1) (rejected_result h ops1)) (numbered (h_rank h) ∅ (checks_of ops2)).

Lemma initial_answerable h ops p q : initial_done h ops p q -> answerable q.
Proof. intros [[I1 I2] I3 (I4 & I5 & _) _ _ _ _ _]. split; rewrite ?I1, ?I2, ?I4, ?I5; by eauto. Qed.
Lemma in_place_answerable h ops1 ops2 p q : in_place_done h ops1 ops2 p q -> answerable q.
Proof. intros [[I1 I2] (I4 & I5) _ _ _ _ _ _]. split; rewrite ?I1, ?I2, ?I4, ?I5; by eauto. Qed.

(** The iterators when the second pass starts. *)
Lemma rewound_iter (q q1 : process E D) (ops : list (op (E := E))) i d : rewound q q1 ->
  (exists pos, p_iters q !! i = Some (mkIter (drop (reads_of i ops) (it_iterable d)) (take (reads_of i ops) (it_iterable d)) false pos)) ->
  p_iters q1 !! i = Some (mkIter (drop (reads_of i ops) (it_iterable d)) (take (reads_of i ops) (it_iterable d)) true 0).
Proof. intros [_ ->] [pos Hq]. by rewrite list_lookup_fmap, Hq. Qed.

(** Nothing was rejected: no result is compared. *)
Lemma failed_initial h ops p q : initial_done h ops p q -> m_failed (p_machine q) = None \/ m_initial (p_machine q) = rejected_result h ops.
Proof.
  intros I. destruct (rejects h ops) eqn:Er; [right; by apply (id_initial _ _ _ _ I)|left]. rewrite (id_failed _ _ _ _ I). unfold rejects, rejected_call in *. by destruct (rejection h ops).
Qed.

Lemma second_started sums h ops1 p q q1 : initial_done h ops1 p q -> (sums RerunRequest =? 0) = false -> answered sums q q1 ->
  m_mode (p_machine q1) = VALIDATE_RESULTS /\ m_state (p_machine q1) = RERUNNING_IN_PLACE /\ m_counts (p_machine q1) = ∅ /\ m_failed (p_machine q1) = rejected_call h ops1 /\
  m_initial (p_machine q1) = m_initial (p_machine q) /\ m_requests (p_machine q1) = m_requests (p_machine q) /\ m_suspicious (p_machine q1) = m_suspicious (p_machine p) /\
  m_saved (p_machine q1) = Some (p_env p) /\ m_iter_ckpts (p_machine q1) = None /\ m_injector (p_machine q1) = m_injector (p_machine q) /\
  forall i d, p_iters p !! i = Some d -> p_iters q1 !! i = Some (mkIter (drop (reads_of i ops1) (it_iterable d)) (take (reads_of i ops1) (it_iterable d)) true 0).
Proof.
  intros I Hz (A1 & _ & A2 & A3 & A4 & A5 & A6 & A7 & A8 & _ & A9). destruct (id_mode _ _ _ _ I) as [I1 I2]. destruct (id_saved _ _ _ _ I) as (I3 & I4 & I5). specialize (A9 I1). rewrite I1, I2 in *. cbn in A1, A9.
  rewrite Hz in A1, A9. destruct A9 as (B1 & B2 & B3 & B4). rewrite decide_False in A1 by done. rewrite A1, A2, A3, A5, A6, A7, B1, B2, B3, I3, I4, I5, A4, (id_failed _ _ _ _ I). split_and!; try done.
  intros i d Hd. by apply (rewound_iter q), (id_iters _ _ _ _ I).
Qed.

Lemma second_passable sums h ops1 ops2 p q q1 : initial_done h ops1 p q -> available ops1 p -> rerunnable h ops1 ops2 -> (sums RerunRequest =? 0) = false -> answered sums q q1 ->
  passable h ops2 q1.
Proof.
  intros I Hav [Hr Hc] Hz A. destruct (second_started _ _ _ _ _ _ I Hz A) as (S1 & S2 & S3 & S4 & S5 & S6 & S7 & S8 & S9 & S10 & S11). split; [|split].
  - unfold validating. rewrite S1, S2, S10. destruct (id_injector _ _ _ _ I). split_and!; done.
  - intros _. rewrite S3, S4, S5. destruct (failed_initial _ _ _ _ I) as [Hf|Hf]; [|by rewrite Hf]. rewrite (id_failed _ _ _ _ I) in Hf. rewrite Hf. by apply Forall_forall.
  - intros i Hi. specialize (Hr i). destruct (Hav i) as (d & Hd & Hn); [lia|]. eexists. split; [by apply (S11 i d)|]. unfold enough. cbn. rewrite length_take. lia.
Qed.

Lemma second_pass sums h ops1 ops2 p q q1 rd r : initial_done h ops1 p q -> available ops1 p -> rerunnable h ops1 ops2 -> (sums RerunRequest =? 0) = false -> answered sums q q1 ->
  passed h ops2 q1 rd r -> in_place_done h ops1 ops2 p r /\ forall i d, p_iters p !! i = Some d -> read_from i rd = take (reads_of i ops2) (it_iterable d).
Proof.
  intros I Hav [Hr _] Hz A (Pm & _ & _ & Pi). destruct (second_started _ _ _ _ _ _ I Hz A) as (S1 & S2 & S3 & S4 & S5 & S6 & S7 & S8 & S9 & S10 & S11).
  destruct (checked_frame h (checks_of ops2) (p_machine q1)) as (F1 & F2 & F3 & F4 & F5 & _). destruct (checked_in_place h (checks_of ops2) (p_machine q1) S2) as (G1 & G2 & G3 & G4).
  rewrite S3, S4, S5 in G3, G4. cbn zeta in F1, F2, F3, F4, F5.
  assert (Hre : existsb (reproduces (rejected_call h ops1) (m_initial (p_machine q))) (numbered (h_rank h) ∅ (checks_of ops2)) = recurs h ops1 ops2).
  { unfold recurs. destruct (failed_initial _ _ _ _ I) as [Hf|Hf]; [|by rewrite Hf]. rewrite (id_failed _ _ _ _ I) in Hf. rewrite Hf. done. }
  rewrite Hre in G3, G4. split.
  - split; rewrite ?Pm.
    + by rewrite F1, F2.
    + by rewrite F4, F5.
    + rewrite G3, S6, (id_requests _ _ _ _ I). by destruct (recurs h ops1 ops2), (rejects h ops1).
    + by rewrite G4, S7.
    + rewrite G1, G2, S4, S5. split; [done|]. apply (id_initial _ _ _ _ I).
    + rewrite G3, S6, (id_requests _ _ _ _ I). by destruct (recurs h ops1 ops2), (rejects h ops1).
    + rewrite F3, S10. apply (id_injector _ _ _ _ I).
    + intros i d Hd. destruct (Pi i _ (S11 i d Hd)) as [H1 _]. eexists. exact H1.
  - intros i d Hd. destruct (Pi i _ (S11 i d Hd)) as [_ ->]. unfold upcoming. cbn. rewrite drop_0, take_take. f_equal. specialize (Hr i). lia.
Qed.

(** Whether some rank makes a request, from what each rank does. *)
Lemma any_flags {A} r (f : A -> bool) (l : list A) (w : world) : length l = length w ->
  (forall k a x, l !! k = Some a -> w !! k = Some x -> flag r (m_requests (p_machine (snd x))) = f a) -> any (flags r w) = existsb f l.
Proof.
  intros Hl H. unfold any, flags. revert w Hl H. induction l as [|a l IH]; intros [|x w] Hl H; try done. cbn. rewrite (H 0%nat a x) by done. f_equal. apply IH; [by injection Hl|].
  intros k. apply (H (S k)).
Qed.

(** The rows of a training step: the two passes and the process of a rank. *)
Definition rows (pass1 pass2 : list (list (op (E := E)))) (w : world) : list (list (op (E := E)) * list (op (E := E)) * (host * process E D)) := zip (zip pass1 pass2) w.
Lemma rows_lookup pass1 pass2 (w : world) k ops1 ops2 h p :
  rows pass1 pass2 w !! k = Some (ops1, ops2, (h, p)) <-> pass1 !! k = Some ops1 /\ pass2 !! k = Some ops2 /\ w !! k = Some (h, p).
Proof. unfold rows. rewrite lookup_zip_Some, lookup_zip_Some. naive_solver. Qed.
Lemma row_at pass1 pass2 (w : world) k : length pass1 = length w -> length pass2 = length w -> (k < length w)%nat ->
  exists ops1 ops2 h p, rows pass1 pass2 w !! k = Some (ops1, ops2, (h, p)).
Proof.
  intros H1 H2 Hk. destruct (lookup_lt_is_Some_2 (rows pass1 pass2 w) k) as [[[ops1 ops2] [h p]] H]; [unfold rows; rewrite !length_zip; lia|]. by eexists _, _, _, _.
Qed.

Definition row_rejects (x : list (op (E := E)) * list (op (E := E)) * (host * process E D)) : bool := let '(ops1, _, (h, _)) := x in rejects h ops1.
Definition row_recurs (x : list (op (E := E)) * list (op (E := E)) * (host * process E D)) : bool := let '(ops1, ops2, (h, _)) := x in recurs h ops1 ops2.

(** The conditions on the passes of a training step. *)
Definition step_conditions (pass1 pass2 : list (list (op (E := E)))) (w : world) : Prop :=
  w <> [] /\ length pass1 = length w /\ length pass2 = length w /\ 
  forall k ops1 ops2 h p, rows pass1 pass2 w !! k = Some (ops1, ops2, (h, p)) -> ready p /\ available ops1 p /\ rerunnable h ops1 ops2.

Lemma initial_all pass1 pass2 (w : world) : step_conditions pass1 pass2 w ->
  exists reads w2, (forall rest, train_loop (pass1 :: rest) w = (y ← train_loop rest w2; mret (reads :: fst y, snd y))) /\ length w2 = length w /\ length reads = length w /\
    forall k ops1 ops2 h p rd x, rows pass1 pass2 w !! k = Some (ops1, ops2, (h, p)) -> reads !! k = Some rd -> w2 !! k = Some x -> fst x = h /\
      initial_done h ops1 p (snd x) /\ forall i d, p_iters p !! i = Some d -> read_from i rd = take (reads_of i ops1) (it_iterable d).
Proof.
  intros (Hne & L1 & L2 & Hrow).
  assert (Hready : forall k x, w !! k = Some x -> ready (snd x)).
  { intros k x Hx. destruct (row_at pass1 pass2 w k L1 L2) as (ops1 & ops2 & h & p & H); [by eapply lookup_lt_Some|]. destruct (Hrow _ _ _ _ _ H) as [R _].
    apply rows_lookup in H as (_ & _ & H). rewrite Hx in H. by injection H as ->. }
  assert (Hin : in_step VALIDATE_RESULTS NOT_RUNNING_YET w) by (apply Forall_lookup; intros k x Hx; by destruct (Hready k x Hx)).
  assert (Han : Forall (fun x => answerable (snd x)) w) by (apply Forall_lookup; intros k x Hx; by eapply ready_answerable, Hready).
  assert (Hpass : forall k ops h p p1, pass1 !! k = Some ops -> w !! k = Some (h, p) -> answered (sums_of w) p p1 -> passable h ops p1).
  { intros k ops h p p1 Hp Hw A. destruct (lookup_lt_is_Some_2 pass2 k) as [ops2 H2]; [rewrite L2; by eapply lookup_lt_Some|].
    destruct (Hrow k ops ops2 h p) as (R & Av & _); [by apply rows_lookup|]. by eapply started_passable. }
  destruct (loop_pass VALIDATE_RESULTS NOT_RUNNING_YET pass1 w Hne Hin Han eq_refl L1 Hpass) as (reads & w2 & E2 & Lr & Lw & H2).
  exists reads, w2. split; [done|]. split; [done|]. split; [done|].
  intros k ops1 ops2 h p rd x Hr Hrd Hx. apply rows_lookup in Hr as (Hp1 & Hp2 & Hw). destruct (H2 k ops1 h p rd x Hp1 Hw Hrd Hx) as (Eh & p1 & A & _ & P). split; [done|].
  eapply first_pass; [|exact A|exact P]. by apply (Hready k (h, p)).
Qed.

Lemma in_place_all pass1 pass2 (w w2 : world) : step_conditions pass1 pass2 w -> length w2 = length w -> existsb row_rejects (rows pass1 pass2 w) = true ->
  (forall k ops1 ops2 h p x, rows pass1 pass2 w !! k = Some (ops1, ops2, (h, p)) -> w2 !! k = Some x -> fst x = h /\ initial_done h ops1 p (snd x)) ->
  exists reads w4, (forall rest, train_loop (pass2 :: rest) w2 = (y ← train_loop rest w4; mret (reads :: fst y, snd y))) /\ length w4 = length w /\ length reads = length w /\
    forall k ops1 ops2 h p rd x, rows pass1 pass2 w !! k = Some (ops1, ops2, (h, p)) -> reads !! k = Some rd -> w4 !! k = Some x -> fst x = h /\
      in_place_done h ops1 ops2 p (snd x) /\ forall i d, p_iters p !! i = Some d -> read_from i rd = take (reads_of i ops2) (it_iterable d).
Proof.
  intros (Hne & L1 & L2 & Hrow) L Hrej Hdone.
  assert (Hrows : forall k x, w2 !! k = Some x -> exists ops1 ops2 h p, rows pass1 pass2 w !! k = Some (ops1, ops2, (h, p)) /\ fst x = h /\ initial_done h ops1 p (snd x)).
  { intros k x Hx. destruct (row_at pass1 pass2 w k L1 L2) as (ops1 & ops2 & h & p & H); [rewrite <- L; by eapply lookup_lt_Some|]. eexists _, _, _, _. split; [done|]. by eapply Hdone. }
  assert (Hin : in_step VALIDATE_RESULTS INITIAL_RUN w2) by (apply Forall_lookup; intros k x Hx; destruct (Hrows k x Hx) as (? & ? & ? & ? & _ & _ & [I _]); done).
  assert (Han : Forall (fun x => answerable (snd x)) w2) by (apply Forall_lookup; intros k x Hx; destruct (Hrows k x Hx) as (? & ? & ? & ? & _ & _ & I); by eapply initial_answerable).
  assert (Hany : any (flags RerunRequest w2) = true).
  { rewrite <- Hrej. apply any_flags; [unfold rows; rewrite !length_zip; lia|]. intros k [[ops1 ops2] [h p]] x Hr Hx. destruct (Hdone _ _ _ _ _ _ Hr Hx) as [_ I]. rewrite (id_requests _ _ _ _ I). cbn. by destruct (rejects h ops1). }
  destruct (sums_any w2 RerunRequest) as [_ Hsum]. rewrite Hany in Hsum. cbn in Hsum.
  destruct (loop_pass VALIDATE_RESULTS INITIAL_RUN pass2 w2) as (reads & w4 & E2 & Lr & Lw & H2); [destruct w, w2; done|done|done|cbn; by rewrite Hsum|lia| |].
  { intros k ops2 h q q1 Hp Hw A. destruct (Hrows k _ Hw) as (ops1 & ops2' & h' & p & Hr & Eh & I). cbn in Eh, I. subst h'. destruct (Hrow _ _ _ _ _ Hr) as (_ & Av & Re).
    apply rows_lookup in Hr as (_ & Hp2 & _). rewrite Hp in Hp2. injection Hp2 as <-. by eapply second_passable. }
  exists reads, w4. split; [done|]. split; [lia|]. split; [lia|].
  intros k ops1 ops2 h p rd x Hr Hrd Hx. destruct (Hrow _ _ _ _ _ Hr) as (_ & Av & Re). destruct (lookup_lt_is_Some_2 w2 k) as [[h2 q] Hq]; [rewrite <- Lw; by eapply lookup_lt_Some|].
  destruct (Hdone _ _ _ _ _ _ Hr Hq) as [Eh I]. cbn in Eh, I. subst h2. apply rows_lookup in Hr as (Hp1 & Hp2 & Hw).
  destruct (H2 k ops2 h q rd x Hp2 Hq Hrd Hx) as (Eh & q1 & A & _ & P). split; [done|]. by eapply second_pass.
Qed.

(** What the training loop is told at the end of the step. *)
Definition verdict (p : process E D) : res (bool * bool * Z) := fst (should_checkpoint_and_exit p).
Lemma verdict_run p : m_mode (p_machine p) = VALIDATE_RESULTS -> verdict p = Ok match m_state (p_machine p) with
  | RERUNNING_IN_PLACE => (true, true, 17)
  | WILL_RERUN_FROM_CHECKPOINT => (true, true, 16)
  | RERUNNING_FROM_CHECKPOINT => (false, true, 17)
  | RERUNNING_AGAIN_FROM_CHECKPOINT => (false, true, 16)
  | _ => (false, false, 0)
  end.
Proof. intros H. destruct p as [[] ? ? ? ?]. cbn in H. subst. unfold verdict, should_checkpoint_and_exit, getm, gets, modm. m_unfold. cbn. by destruct m_state. Qed.

(** A checkpoint to resume from. *)
Definition resumable (ck : checkpoint D) : Prop :=
  ck_mode ck = VALIDATE_RESULTS /\ ck_state ck = WILL_RERUN_FROM_CHECKPOINT /\ in_rate (ck_injector ck) <= 0 /\ in_injected (ck_injector ck) = None /\
  restart_again_requested (ck_requests ck) = false /\ continue_requested (ck_requests ck) = false.

(** A rank after a training step: [rejected] and [confirmed] tell whether some rank rejected a result and whether one got it again. *)
Definition diagnosed (rejected confirmed : bool) (h : host) (ops1 ops2 : list (op (E := E))) (p q : process E D) : Prop :=
  verdict q = Ok (if rejected then (true, true, if confirmed then EXIT_CODE_RESUME_TO_DISAMBIGUATE else EXIT_CODE_FAILED_ON_RESULT_VALIDATION) else (false, false, 0)) /\
  if rejected then
    m_state (p_machine q) = (if confirmed then WILL_RERUN_FROM_CHECKPOINT else RERUNNING_IN_PLACE) /\ p_env q = p_env p /\
    m_suspicious (p_machine q) = (if recurs h ops1 ops2 then Some (h_node h, h_device h) else m_suspicious (p_machine p)) /\
    (forall i d, p_iters p !! i = Some d -> p_iters q !! i = Some (mkIter (drop (reads_of i ops1) (it_iterable d)) (take (reads_of i ops1) (it_iterable d)) true 0)) /\
    (confirmed = true -> exists ck, fst (state_dict "torch_dist" false q) = Ok (Some ck) /\ resumable ck /\ ck_failed ck = rejected_call h ops1 /\
      (rejects h ops1 = true -> ck_initial ck = rejected_result h ops1) /\ ck_suspicious ck = m_suspicious (p_machine q))
  else m_state (p_machine q) = NOT_RUNNING_YET /\ p_env q = changes_of ops1 (p_env p).

Lemma initial_end sums confirmed h ops1 ops2 p q q' : initial_done h ops1 p q -> (sums RerunRequest =? 0) = true -> answered sums q q' -> diagnosed false confirmed h ops1 ops2 p q'.
Proof.
  intros I Hz (A1 & _ & A2 & _ & _ & _ & _ & _ & _ & _ & A9). destruct (id_mode _ _ _ _ I) as [I1 I2]. specialize (A9 I1). rewrite I1, I2 in *. cbn in A1, A9. rewrite Hz in A1, A9. rewrite decide_False in A1 by done.
  destruct A9 as (_ & _ & _ & B3 & _). split; [by rewrite verdict_run, A1|]. split; [done|]. by rewrite B3, (id_env _ _ _ _ I).
Qed.
Lemma state_dict_run (q : process E D) : m_mode (p_machine q) = VALIDATE_RESULTS -> m_state (p_machine q) <> NOT_RUNNING_YET -> exists iters,
  fst (state_dict "torch_dist" false q) = Ok (Some (let m := p_machine q in mkCheckpoint (m_mode m) (m_state m) (m_iteration m) (m_requests m) (m_injector m) (m_failed m) (m_initial m) (m_suspicious m) iters (m_large m) (m_max m))).
Proof.
  intros Hm Hs. destruct q as [[] ? ? ? ?]. cbn in Hm, Hs. subst. unfold state_dict, data_iterators, getm, gets. m_unfold. cbn. rewrite bool_decide_false by done. cbn. eexists. reflexivity.
Qed.
Lemma in_place_end sums confirmed h ops1 ops2 p q q' : in_place_done h ops1 ops2 p q -> (0 <? sums CheckpointRequest) = confirmed -> answered sums q q' ->
  diagnosed true confirmed h ops1 ops2 p q'.
Proof.
  intros I Hz (A1 & _ & A2 & _ & A4 & A5 & A6 & A7 & _ & _ & A9). destruct (pd_mode _ _ _ _ _ I) as [I1 I2]. specialize (A9 I1). rewrite I1, I2 in *. cbn in A1, A9. rewrite Hz in A1.
  destruct A9 as (B1 & _ & B3 & B4). destruct (pd_saved _ _ _ _ _ I) as [S1 _]. rewrite S1 in B3. injection B3 as B3. unfold diagnosed. rewrite verdict_run, A1 by done. split; [by destruct confirmed|].
  split; [done|]. split; [done|]. split; [by rewrite A7, (pd_suspicious _ _ _ _ _ I)|]. split.
  - intros i d Hd. destruct (pd_iters _ _ _ _ _ I i d Hd) as [pos H]. by rewrite B4, list_lookup_fmap, H.
  - intros ->. destruct (state_dict_run q') as [iters E1]; [done|by rewrite A1|]. eexists. split; [exact E1|]. unfold resumable. cbn. rewrite A1, A2, A4, A5, A6, B1.
    destruct (pd_quiet _ _ _ _ _ I), (pd_injector _ _ _ _ _ I), (pd_failed _ _ _ _ _ I). split_and!; done.
Qed.

(** The end of the loop, for all ranks. *)
Lemma end_all (rejected confirmed : bool) state passes pass1 pass2 (w v : world) (done : host -> list op -> list op -> process E D -> process E D -> Prop) :
  step_conditions pass1 pass2 w -> length v = length w -> fst (fst (decision VALIDATE_RESULTS state (sums_of v))) = false ->
  (forall k ops1 ops2 h p x, rows pass1 pass2 w !! k = Some (ops1, ops2, (h, p)) -> v !! k = Some x -> fst x = h /\ done h ops1 ops2 p (snd x)) ->
  (forall h ops1 ops2 p q, done h ops1 ops2 p q -> m_mode (p_machine q) = VALIDATE_RESULTS /\ m_state (p_machine q) = state /\ answerable q) ->
  (forall h ops1 ops2 p q q', done h ops1 ops2 p q -> answered (sums_of v) q q' -> diagnosed rejected confirmed h ops1 ops2 p q') ->
  exists w', train_loop passes v = Ok ([], w') /\ length w' = length w /\
    forall k ops1 ops2 h p x, rows pass1 pass2 w !! k = Some (ops1, ops2, (h, p)) -> w' !! k = Some x -> fst x = h /\ diagnosed rejected confirmed h ops1 ops2 p (snd x).
Proof.
  intros (Hne & L1 & L2 & _) L Hd Hdone Hst Hend.
  assert (Hrows : forall k x, v !! k = Some x -> exists h ops1 ops2 p, done h ops1 ops2 p (snd x)).
  { intros k x Hx. destruct (row_at pass1 pass2 w k L1 L2) as (ops1 & ops2 & h & p & H); [rewrite <- L; by eapply lookup_lt_Some|]. eexists _, _, _, _. by eapply Hdone. }
  destruct (loop_end VALIDATE_RESULTS state passes v) as (w' & E1 & Lw & A); [by destruct w, v| | |done|].
  { apply Forall_lookup. intros k x Hx. destruct (Hrows k x Hx) as (? & ? & ? & ? & H). by destruct (Hst _ _ _ _ _ H) as (? & ? & _). }
  { apply Forall_lookup. intros k x Hx. destruct (Hrows k x Hx) as (? & ? & ? & ? & H). by destruct (Hst _ _ _ _ _ H) as (_ & _ & ?). }
  exists w'. split; [done|]. split; [lia|]. intros k ops1 ops2 h p x Hr Hx. destruct (lookup_lt_is_Some_2 v k) as [[h2 q] Hq]; [rewrite <- Lw; by eapply lookup_lt_Some|].
  destruct (Hdone _ _ _ _ _ _ Hr Hq) as [Eh I]. cbn in Eh, I. subst h2. destruct (A k h q x Hq Hx) as [Eh A']. split; [done|]. by eapply Hend.
Qed.

(** (C21) A training step, for any results, reads and rejections of the ranks.  When no rank rejects a result there is one pass and the job goes on.
    Otherwise there are two passes that start from the same state and read the same microbatches, the state and the iterators
    are put back, and every rank is told to checkpoint and exit: to resume elsewhere, with the devices that reproduced their rejected
    result on record, when some rank reproduced it, and because of a transient error when none did. *)
Theorem step_diagnosis pass1 pass2 (w : world) : step_conditions pass1 pass2 w ->
  let rejected := existsb row_rejects (rows pass1 pass2 w) in
  let confirmed := existsb row_recurs (rows pass1 pass2 w) in
  exists reads w', train_loop [pass1; pass2] w = Ok (reads, w') /\ length w' = length w /\ length reads = (if rejected then 2%nat else 1%nat) /\
    forall k ops1 ops2 h p x, rows pass1 pass2 w !! k = Some (ops1, ops2, (h, p)) -> w' !! k = Some x ->
      fst x = h /\ diagnosed rejected confirmed h ops1 ops2 p (snd x) /\
      forall n ops rds rd i d, [ops1; ops2] !! n = Some ops -> reads !! n = Some rds -> rds !! k = Some rd -> p_iters p !! i = Some d ->
        read_from i rd = take (reads_of i ops) (it_iterable d).
Proof.
  intros Hc rejected confirmed. destruct (initial_all pass1 pass2 w Hc) as (reads1 & w2 & E1 & L2 & Lr1 & D1). pose proof Hc as (_ & L & L' & _).
  assert (D1' : forall k ops1 ops2 h p x, rows pass1 pass2 w !! k = Some (ops1, ops2, (h, p)) -> w2 !! k = Some x -> fst x = h /\ initial_done h ops1 p (snd x)).
  { intros k ops1 ops2 h p x Hr Hx. destruct (lookup_lt_is_Some_2 reads1 k) as [rd Hrd]; [rewrite Lr1, <- L2; by eapply lookup_lt_Some|]. by destruct (D1 _ _ _ _ _ _ _ Hr Hrd Hx) as (? & ? & _). }
  assert (D1r : forall k ops1 ops2 h p rd i d, rows pass1 pass2 w !! k = Some (ops1, ops2, (h, p)) -> reads1 !! k = Some rd -> p_iters p !! i = Some d -> read_from i rd = take (reads_of i ops1) (it_iterable d)).
  { intros k ops1 ops2 h p rd i d Hr Hrd. destruct (lookup_lt_is_Some_2 w2 k) as [x Hx]; [rewrite L2, <- Lr1; by eapply lookup_lt_Some|]. destruct (D1 _ _ _ _ _ _ _ Hr Hrd Hx) as (_ & _ & H). apply H. }
  rewrite E1. destruct rejected eqn:Er.
  - destruct (in_place_all pass1 pass2 w w2 Hc L2 Er D1') as (reads2 & w4 & E2 & L4 & Lr2 & D2).
    assert (D2' : forall k ops1 ops2 h p x, rows pass1 pass2 w !! k = Some (ops1, ops2, (h, p)) -> w4 !! k = Some x -> fst x = h /\ in_place_done h ops1 ops2 p (snd x)).
    { intros k ops1 ops2 h p x Hr Hx. destruct (lookup_lt_is_Some_2 reads2 k) as [rd Hrd]; [rewrite Lr2, <- L4; by eapply lookup_lt_Some|]. by destruct (D2 _ _ _ _ _ _ _ Hr Hrd Hx) as (? & ? & _). }
    assert (Hany : (0 <? sums_of w4 CheckpointRequest) = confirmed).
    { rewrite (proj1 (sums_any w4 CheckpointRequest)). apply any_flags; [unfold rows; rewrite !length_zip; lia|]. intros k [[ops1 ops2] [h p]] x Hr Hx. destruct (D2' _ _ _ _ _ _ Hr Hx) as [_ I]. apply (pd_requests _ _ _ _ _ I). }
    destruct (end_all true confirmed RERUNNING_IN_PLACE [] pass1 pass2 w w4 in_place_done Hc L4) as (w' & E3 & Lw & D3); [done|done| | |].
    { intros h ops1 ops2 p q I. destruct (pd_mode _ _ _ _ _ I). split_and!; try done. by eapply in_place_answerable. }
    { intros h ops1 ops2 p q q' I. by apply in_place_end. }
    exists [reads1; reads2], w'. rewrite E2, E3. split; [done|]. split; [done|]. split; [done|]. intros k ops1 ops2 h p x Hr Hx. destruct (D3 _ _ _ _ _ _ Hr Hx) as [Eh Di]. split; [done|]. split; [done|].
    intros n ops rds rd i d Hn Hrds Hrd Hd. destruct (lookup_lt_is_Some_2 w4 k) as [x4 Hx4]; [rewrite L4, <- Lw; by eapply lookup_lt_Some|].
    destruct n as [|[|n]]; [| |done]; cbn in Hn, Hrds; injection Hn as <-; injection Hrds as <-; [by eapply D1r|]. destruct (D2 _ _ _ _ _ _ _ Hr Hrd Hx4) as (_ & _ & H). by apply H.
  - assert (Hany : (sums_of w2 RerunRequest =? 0) = true).
    { rewrite (proj2 (sums_any w2 RerunRequest)), (any_flags RerunRequest row_rejects (rows pass1 pass2 w)); [unfold rejected in Er; by rewrite Er|unfold rows; rewrite !length_zip; lia|].
      intros k [[ops1 ops2] [h p]] x Hr Hx. destruct (D1' _ _ _ _ _ _ Hr Hx) as [_ I]. rewrite (id_requests _ _ _ _ I). cbn. by destruct (rejects h ops1). }
    destruct (end_all false confirmed INITIAL_RUN [pass2] pass1 pass2 w w2 (fun h ops1 _ => initial_done h ops1) Hc L2) as (w' & E3 & Lw & D3); [cbn; by rewrite Hany|done| | |].
    { intros h ops1 _ p q I. destruct (id_mode _ _ _ _ I). split_and!; try done. by eapply initial_answerable. }
    { intros h ops1 ops2 p q q' I. by apply initial_end. }
    exists [reads1], w'. rewrite E3. split; [done|]. split; [done|]. split; [done|]. intros k ops1 ops2 h p x Hr Hx. destruct (D3 _ _ _ _ _ _ Hr Hx) as [Eh Di]. split; [done|]. split; [done|].
    intros n ops rds rd i d Hn Hrds Hrd Hd. destruct n as [|n]; [|done]; cbn in Hn, Hrds; injection Hn as <-; injection Hrds as <-. by eapply D1r.
Qed.

(** *** Resuming from the checkpoint *)

(** The ranks of the new job load their parts of the checkpoint. *)
Definition load_all (cks : list (checkpoint D)) (w : world) : world := zip_with (fun ck x => (fst x, snd (load_state_dict ck (snd x)))) cks w.

(** A rank runs again where its rejected result was reproduced; it runs elsewhere and gets the result that was rejected, which is not fatal. *)
Definition calls (h : host) (ops : list (op (E := E))) : list (Call * check) := numbered (h_rank h) ∅ (checks_of ops).
Definition same_device (x : checkpoint D * list (op (E := E)) * (host * process E D)) : bool :=
  let '(ck, ops, (h, _)) := x in bool_decide (ck_suspicious ck = Some (h_node h, h_device h)) && existsb (reaches (ck_failed ck)) (calls h ops).
Definition accepted_elsewhere (x : checkpoint D * list (op (E := E)) * (host * process E D)) : bool :=
  let '(ck, ops, (h, _)) := x in negb (bool_decide (ck_suspicious ck = Some (h_node h, h_device h))) && existsb (accepts (ck_failed ck) (ck_initial ck)) (calls h ops).

Definition resume_conditions (cks : list (checkpoint D)) (pass : list (list (op (E := E)))) (w : world) : Prop :=
  w <> [] /\ length cks = length w /\ length pass = length w /\
  forall k ck ops h p, cks !! k = Some ck -> pass !! k = Some ops -> w !! k = Some (h, p) ->
    resumable ck /\ m_mode (p_machine p) <> DISABLED /\ supplied ops (p_iters p) /\ (forall l, ck_iter_ckpts ck = Some l -> length l = length (p_iters p)) /\
    Forall (comparable (ck_failed ck) (ck_initial ck)) (calls h ops).

Lemma load_run ck (p : process E D) : m_mode (p_machine p) <> DISABLED -> let q := snd (load_state_dict ck p) in
  m_mode (p_machine q) = ck_mode ck /\ m_state (p_machine q) = ck_state ck /\ m_injector (p_machine q) = ck_injector ck /\ m_requests (p_machine q) = ck_requests ck /\
  m_failed (p_machine q) = ck_failed ck /\ m_initial (p_machine q) = ck_initial ck /\ m_suspicious (p_machine q) = ck_suspicious ck /\ m_iter_ckpts (p_machine q) = ck_iter_ckpts ck /\
  p_iters q = p_iters p /\ p_env q = p_env p.
Proof. intros H. unfold load_state_dict, getm, gets, modm. m_unfold. rewrite decide_False by done. cbn. done. Qed.

(** A rank after the pass of the resumed job. *)
Definition resumed (ck : checkpoint D) (ops : list (op (E := E))) (h : host) (p q : process E D) : Prop :=
  m_mode (p_machine q) = VALIDATE_RESULTS /\ m_state (p_machine q) = RERUNNING_FROM_CHECKPOINT /\ (forall l, m_iter_ckpts (p_machine q) = Some l -> length l = length (p_iters q)) /\
  restart_again_requested (m_requests (p_machine q)) = same_device (ck, ops, (h, p)) /\ continue_requested (m_requests (p_machine q)) = accepted_elsewhere (ck, ops, (h, p)).

Lemma resume_pass sums ck ops h p p1 : resumable ck -> m_mode (p_machine p) <> DISABLED -> supplied ops (p_iters p) -> Forall (comparable (ck_failed ck) (ck_initial ck)) (calls h ops) ->
  (forall l, ck_iter_ckpts ck = Some l -> length l = length (p_iters p)) -> answered sums (snd (load_state_dict ck p)) p1 ->
  passable h ops p1 /\ forall rd q, passed h ops p1 rd q -> resumed ck ops h p q.
Proof.
  intros (R1 & R2 & R3 & R4 & R5 & R6) Hm Hs Hc Hl (A1 & _ & A2 & A3 & A4 & A5 & A6 & A7 & A8 & _ & A9). destruct (load_run ck p Hm) as (L1 & L2 & L3 & L4 & L5 & L6 & L7 & L8 & L9 & L10).
  rewrite L1, R1 in *. specialize (A9 eq_refl). rewrite L2, R2 in A1, A9. destruct A9 as (B1 & B2 & B3 & B4 & B5). cbn in A1. split; [split; [|split]|].
  - unfold validating. rewrite A1, A2, A4, L3. done.
  - intros _. by rewrite A3, A5, A6, L5, L6.
  - by rewrite B5, L9.
  - intros rd q (Pm & _ & Pl & _). destruct (checked_frame h (checks_of ops) (p_machine p1)) as (F1 & F2 & F3 & F4 & F5 & _). cbn zeta in F1, F2, F3, F4, F5.
    destruct (checked_from_checkpoint h (checks_of ops) (p_machine p1) A1) as [_ G]. rewrite A3, A5, A6, A7, B1, L4, L5, L6, L7 in G. fold (calls h ops) in G.
    unfold resumed. rewrite Pm, F1, F2, F5, A1, A2, G, B3, L8, Pl, B5, L9. split; [done|]. split; [done|]. split; [done|]. unfold same_device, accepted_elsewhere.
    destruct (bool_decide _); cbn; [destruct (existsb (reaches _) _)|destruct (existsb (accepts _ _) _)]; done.
Qed.

Lemma load_all_lookup cks (w : world) k x : load_all cks w !! k = Some x ->
  exists ck h p, cks !! k = Some ck /\ w !! k = Some (h, p) /\ x = (h, snd (load_state_dict ck p)).
Proof. intros H. apply lookup_zip_with_Some in H as (ck & [h p] & -> & H1 & H2). by eexists _, _, _. Qed.

Lemma resume_all cks pass (w : world) : resume_conditions cks pass w ->
  exists reads w2, (forall rest, train_loop (pass :: rest) (load_all cks w) = (y ← train_loop rest w2; mret (reads :: fst y, snd y))) /\ length w2 = length w /\
    forall k ck ops h p x, zip (zip cks pass) w !! k = Some (ck, ops, (h, p)) -> w2 !! k = Some x -> fst x = h /\ resumed ck ops h p (snd x).
Proof.
  intros (Hne & L1 & L2 & Hrow). assert (L : length (load_all cks w) = length w) by (unfold load_all; rewrite length_zip_with; lia).
  assert (Hst : forall k x, load_all cks w !! k = Some x -> m_mode (p_machine (snd x)) = VALIDATE_RESULTS /\ m_state (p_machine (snd x)) = WILL_RERUN_FROM_CHECKPOINT /\ answerable (snd x)).
  { intros k x Hx. destruct (load_all_lookup cks w k x Hx) as (ck & h & p & Hk & Hw & ->). destruct (lookup_lt_is_Some_2 pass k) as [ops Hp]; [rewrite L2; by eapply lookup_lt_Some|].
    destruct (Hrow k ck ops h p Hk Hp Hw) as ((R1 & R2 & _) & Hm & _ & Hl & _). destruct (load_run ck p Hm) as (E1 & E2 & _ & _ & _ & _ & _ & E8 & E9 & _). cbn [snd]. split; [congruence|]. split; [congruence|].
    split; rewrite ?E1, ?E2, ?E8, ?E9, ?R1, ?R2; try done. by intros [[_ ?]|?]. }
  destruct (loop_pass VALIDATE_RESULTS WILL_RERUN_FROM_CHECKPOINT pass (load_all cks w)) as (reads & w2 & E1 & Lr & Lw & H2); [by destruct cks, w| | |done|lia| |].
  { apply Forall_lookup. intros k x Hx. by destruct (Hst k x Hx) as (? & ? & _). }
  { apply Forall_lookup. intros k x Hx. by destruct (Hst k x Hx) as (_ & _ & ?). }
  { intros k ops h q p1 Hp Hx A. destruct (load_all_lookup cks w k _ Hx) as (ck & h' & p & Hk & Hw & [= -> ->]). destruct (Hrow k ck ops h' p Hk Hp Hw) as (R & Hm & Hs & Hl & Hc). by eapply resume_pass. }
  exists reads, w2. split; [done|]. split; [lia|]. intros k ck ops h p x Hr Hx. apply lookup_zip_Some in Hr as [Hr Hw]. apply lookup_zip_Some in Hr as [Hk Hp].
  destruct (lookup_lt_is_Some_2 reads k) as [rd Hrd]; [rewrite Lr, <- Lw; by eapply lookup_lt_Some|]. destruct (Hrow k ck ops h p Hk Hp Hw) as (R & Hm & Hs & Hl & Hc).
  destruct (H2 k ops h (snd (load_state_dict ck p)) rd x Hp) as (Eh & p1 & A & _ & P); [|done|done|].
  { apply lookup_zip_with_Some. by exists ck, (h, p). }
  split; [done|]. by eapply resume_pass.
Qed.

(** (C22) The job resumed from the checkpoint makes one pass.  When a rank runs again on the device that it suspects, every rank is told to
    exit and resume once more from the same checkpoint; otherwise, when some rank gets again the result that it had rejected and that result is
    not fatal, the job goes on; otherwise every rank is told to exit because validation failed. *)
Theorem resume_diagnosis cks pass (w : world) : resume_conditions cks pass w ->
  let same := existsb same_device (zip (zip cks pass) w) in
  let accepted := existsb accepted_elsewhere (zip (zip cks pass) w) in
  exists reads w', train_loop [pass] (load_all cks w) = Ok ([reads], w') /\ length w' = length w /\
    forall k x, w' !! k = Some x ->
      verdict (snd x) = Ok (if same then (false, true, EXIT_CODE_RESUME_TO_DISAMBIGUATE) else if accepted then (false, false, 0) else (false, true, EXIT_CODE_FAILED_ON_RESULT_VALIDATION)) /\
      m_state (p_machine (snd x)) = if same then RERUNNING_AGAIN_FROM_CHECKPOINT else if accepted then NOT_RUNNING_YET else RERUNNING_FROM_CHECKPOINT.
Proof.
  intros Hc same accepted. destruct (resume_all cks pass w Hc) as (reads & w2 & E1 & L & D2). destruct Hc as (Hne & L1 & L2 & _).
  assert (Lz : length (zip (zip cks pass) w) = length w2) by (rewrite !length_zip; lia).
  assert (Hrow : forall k x, w2 !! k = Some x -> exists ck ops h p, zip (zip cks pass) w !! k = Some (ck, ops, (h, p)) /\ resumed ck ops h p (snd x)).
  { intros k x Hx. destruct (lookup_lt_is_Some_2 (zip (zip cks pass) w) k) as [[[ck ops] [h p]] Hz]; [rewrite Lz; by eapply lookup_lt_Some|]. eexists _, _, _, _. split; [done|]. by eapply D2. }
  assert (Ha : (0 <? sums_of w2 RestartRequest) = same).
  { rewrite (proj1 (sums_any w2 _)). apply any_flags; [done|]. intros k [[ck ops] [h p]] x Hz Hx. by destruct (D2 _ _ _ _ _ _ Hz Hx) as (_ & _ & _ & _ & ? & _). }
  assert (Hb : (0 <? sums_of w2 ContinueRequest) = accepted).
  { rewrite (proj1 (sums_any w2 _)). apply any_flags; [done|]. intros k [[ck ops] [h p]] x Hz Hx. by destruct (D2 _ _ _ _ _ _ Hz Hx) as (_ & _ & _ & _ & _ & ?). }
  destruct (loop_end VALIDATE_RESULTS RERUNNING_FROM_CHECKPOINT [] w2) as (w' & E2 & Lw & A); [by destruct w, w2| | |cbn; by case_match|].
  { apply Forall_lookup. intros k x Hx. destruct (Hrow k x Hx) as (? & ? & ? & ? & _ & R1 & R2 & _). done. }
  { apply Forall_lookup. intros k x Hx. destruct (Hrow k x Hx) as (? & ? & ? & ? & _ & R1 & R2 & R3 & _). split; rewrite ?R1, ?R2; try done. by intros [[_ ?]|?]. }
  exists reads, w'. rewrite E1, E2. split; [done|]. split; [lia|]. intros k x Hx. destruct (lookup_lt_is_Some_2 w2 k) as [[h q] Hq]; [rewrite <- Lw; by eapply lookup_lt_Some|].
  destruct (Hrow k _ Hq) as (? & ? & ? & ? & _ & R1 & R2 & _). destruct (A k h q x Hq Hx) as (_ & A1 & _ & A2 & _). cbn [snd] in R1, R2. rewrite R1, R2 in A1. rewrite R1 in A2. cbn in A1. rewrite Ha, Hb in A1.
  rewrite (verdict_run (snd x) A2), A1. by destruct same, accepted.
Qed.
End World.

(* ================================================================== *)
(** ** Comparing results                                               *)
(* ================================================================== *)

(** The default comparison cannot compare a finite result with its negation: their sum is zero and dividing by it
    raises, which ends the rerun with [ZeroDivisionError] instead of a diagnosis. *)
Theorem compare_opposite_raises s m e : compare_floats (S754_finite s m e) (SFopp (S754_finite s m e)) = raise_ ZeroDivisionError "float division by zero".
Proof.
  unfold compare_floats, f64_eqb. cbn [SFopp f64_isnan f64_isinf negb andb orb].
  assert (Hadd : f64_is_zero (SFadd prec64 emax64 (S754_finite s m e) (S754_finite (negb s) m e)) = true).
  { unfold SFadd. rewrite Z.min_id. destruct s; cbn [cond_Zopp negb]; [rewrite Z.add_opp_diag_l|rewrite Z.add_opp_diag_r]; reflexivity. }
  replace (SFeqb _ _) with false by (unfold SFeqb, SFcompare; by destruct s). cbn [orb]. unfold float_div. by rewrite Hadd.
Qed.

(** Infinities of opposite sign compare as not-a-number, which is not greater than any tolerance: a rerun that turns one
    into the other counts as having reproduced the result. *)
Theorem opposite_infinities_reproduce s tolerance :
  exists x, compare_floats (S754_infinity s) (S754_infinity (negb s)) = Ok x /\ f64_gtb x tolerance = false.
Proof. exists S754_nan. by destruct s, tolerance. Qed.

(* ================================================================== *)
(** ** Statistics                                                      *)
(* ================================================================== *)

(** When statistics are reported, the rerun ends with [AttributeError] on rank 0 of a distributed job in every second iteration as
    soon as some rank has validated a result, and the state has moved on to the next step already. *)
Theorem report_stats_raises {E D} h gathered sums (p : process E D) :
  m_mode (p_machine p) = REPORT_DETERMINISM_STATS -> m_state (p_machine p) = RERUNNING_IN_PLACE -> h_rank h = 0 -> m_iteration (p_machine p) mod 2 = 0 ->
  (exists s, s ∈ gathered /\ s <> ∅) ->
  exists p', should_run_forward_backward h gathered sums p = (raise_ AttributeError "'Caller' object has no attribute 'filename'", p') /\
    m_state (p_machine p') = NOT_RUNNING_YET.
Proof.
  intros Hm Hs Hr Hi (st & Hst & Hne). apply Z.eqb_eq in Hi. destruct p as [[mode state it ? ? ? ? ? ? ? ? ? ? ? ? ?] ? ? ? ?]. cbn -[Z.modulo] in Hm, Hs, Hi. subst.
  unfold should_run_forward_backward, maybe_report_stats, getm, gets, modm. m_unfold. cbn -[Z.modulo Z.eqb]. rewrite decide_True by done. cbn -[Z.modulo Z.eqb]. rewrite Hi, Hr. cbn -[Z.modulo elements union_list].
  destruct (elements _) as [|caller l] eqn:El.
  - exfalso. apply elements_empty_iff in El. apply Hne. apply dom_empty_iff. intros c. split; [|set_solver]. intros Hc.
    assert (H : c ∈ (⋃ (map (fun s : gmap Caller QuickStats => dom s) gathered) : gset Caller)); [|rewrite El in H; set_solver].
    apply elem_of_union_list. exists (dom st). split; [by apply list_elem_of_fmap_2|done].
  - cbn. eexists. split; [reflexivity|done].
Qed.

(** Once [max_size] samples are kept, recording another one that differs raises. *)
Theorem full_stats_raise s data : f64_eqb data (S754_zero false) = false -> qs_max_size s <= qs_pos s ->
  stats_record s data = raise_ AttributeError "'QuickStats' object has no attribute 'self'".
Proof. intros Hd Hp. unfold stats_record. rewrite Hd. by rewrite (proj2 (Z.ltb_ge _ _) Hp). Qed.

(* ================================================================== *)
(** ** Examples                                                        *)
(* ================================================================== *)

Definition one : f64 := S754_finite false 4503599627370496 (-52).
Definition ex_host (rank device : Z) : host := mkHost rank "node" device "job".
Definition ex_machine : machine Z Z := set_first true (machine_init VALIDATE_RESULTS (mkInjector 0 TRANSIENT_ERROR None)).
Definition ex_process : process Z Z := mkProcess ex_machine 5 [iter_init [1; 2; 3]] None [].
Definition ex_world : world := [(ex_host 0 0, ex_process); (ex_host 1 1, ex_process)].
Definition ex_ops (x : f64) (fatal : bool) : list (op (E := Z)) := [Read 0; Check (mkCheck x f64_isnan "loss" None (S754_zero false) fatal); Change Z.succ].
Definition ex_randint (n e : Z) : Z * Z := (e, e).

(** The devices of the resumed job. *)
Definition ex_checkpoint (failed : bool) (rank : Z) : checkpoint Z :=
  mkCheckpoint VALIDATE_RESULTS WILL_RERUN_FROM_CHECKPOINT 7 (mkRequests failed failed false false) (mkInjector 0 TRANSIENT_ERROR None)
    (if failed then Some (("loss"%string, rank), 1) else None) (if failed then Some S754_nan else None) (if failed then Some ("node"%string, rank) else None) None ∅ ∅.
Definition ex_fresh : process Z Z := mkProcess (machine_init VALIDATE_RESULTS (mkInjector 0 TRANSIENT_ERROR None)) 5 [iter_init [1; 2; 3]] None [].
Definition ex_moved : world := [(ex_host 0 2, ex_fresh); (ex_host 1 3, ex_fresh)].

Lemma rerun_lockstep_witness : exists go w' state' reductions, ask [] ex_world = Ok (go, w') /\ length w' = 2%nat /\ in_step VALIDATE_RESULTS state' w' /\
  forall k x x', ex_world !! k = Some x -> w' !! k = Some x' -> fst x' = fst x /\ p_reduced (snd x') = p_reduced (snd x) ++ reductions.
Proof.
  apply (rerun_lockstep [] VALIDATE_RESULTS NOT_RUNNING_YET ex_world); [discriminate| |].
  - repeat constructor.
  - repeat constructor; cbn; try discriminate; intros [[_ H]|H]; discriminate H.
Defined.

Lemma ex_available x fatal p : p_iters p = [iter_init [1; 2; 3]] -> available (D := Z) (ex_ops x fatal) p.
Proof. intros Hp i Hi. rewrite Hp. destruct i as [|i]; [|unfold reads_of in Hi; cbn in Hi; rewrite bool_decide_false in Hi by done; cbn in Hi; lia]. exists (iter_init [1; 2; 3]). split; [reflexivity|]. vm_compute. lia. Qed.

Lemma step_diagnosis_witness : let pass1 := [ex_ops S754_nan false; ex_ops one false] in
  step_conditions pass1 pass1 ex_world /\
  exists reads w', train_loop ex_randint [] [pass1; pass1] ex_world = Ok (reads, w') /\ length reads = 2%nat /\
    forall k x, w' !! k = Some x -> verdict (snd x) = Ok (true, true, 16).
Proof.
  intros pass1. assert (Hc : step_conditions pass1 pass1 ex_world).
  { split; [discriminate|]. split; [reflexivity|]. split; [reflexivity|]. intros [|[|k]] ops1 ops2 h p H; cbn in H; [| |discriminate H]; injection H as <- <- <- <-.
    all: split; [by repeat split|split; [by apply ex_available|split; [done|]]]; repeat constructor. }
  split; [exact Hc|]. destruct (step_diagnosis ex_randint [] pass1 pass1 ex_world Hc) as (reads & w' & E1 & L & Lr & H).
  exists reads, w'. split; [exact E1|]. split; [exact Lr|]. intros k x Hx. pose proof (lookup_lt_Some _ _ _ Hx) as Hk. rewrite L in Hk. cbn in Hk.
  destruct k as [|[|k]]; [| |lia].
  - destruct (H 0%nat _ _ _ _ x eq_refl Hx) as (_ & [V _] & _). exact V.
  - destruct (H 1%nat _ _ _ _ x eq_refl Hx) as (_ & [V _] & _). exact V.
Defined.

Lemma ex_supplied x fatal : supplied (D := Z) (ex_ops x fatal) [iter_init [1; 2; 3]].
Proof. intros i Hi. destruct i as [|i]; [|unfold reads_of in Hi; cbn in Hi; rewrite bool_decide_false in Hi by done; cbn in Hi; lia]. exists (iter_init [1; 2; 3]). split; [reflexivity|]. vm_compute. lia. Qed.

Lemma resume_diagnosis_witness : let cks := [ex_checkpoint true 0; ex_checkpoint false 1] in let pass := [ex_ops S754_nan false; ex_ops one false] in
  resume_conditions cks pass ex_moved /\
  exists reads w', train_loop ex_randint [] [pass] (load_all cks ex_moved) = Ok ([reads], w') /\ length w' = 2%nat /\
    forall k x, w' !! k = Some x -> verdict (snd x) = Ok (false, false, 0) /\ m_state (p_machine (snd x)) = NOT_RUNNING_YET.
Proof.
  intros cks pass. assert (Hc : resume_conditions cks pass ex_moved).
  { split; [discriminate|]. split; [reflexivity|]. split; [reflexivity|]. intros [|[|k]] ck ops h p H1 H2 H3; cbn in H1, H2, H3; [| |discriminate H1]; injection H1 as <-; injection H2 as <-; injection H3 as <- <-.
    all: split; [by repeat split|split; [discriminate|split; [apply ex_supplied|split; [by intros l H|repeat constructor]]]]. }
  split; [exact Hc|]. exact (resume_diagnosis ex_randint [] cks pass ex_moved Hc).
Defined.

(** The request of one rank to go on overrides the error of another one.  Both ranks rejected a result that their reruns reproduced; resumed on
    other devices, rank 0 gets a different result, so that its first device made a persistent error, and rank 1 gets
    the same one again: the job goes on.  With rank 1 not failing it would have ended. *)
Theorem continue_overrides_error :
  let job cks pass := match train_loop ex_randint [] [pass] (load_all cks ex_moved) with Ok (_, w) => map (fun x => verdict (snd x)) w | Err _ => [] end in
  job [ex_checkpoint true 0; ex_checkpoint true 1] [ex_ops one false; ex_ops S754_nan false] = [Ok (false, false, 0); Ok (false, false, 0)] /\
  job [ex_checkpoint true 0; ex_checkpoint false 1] [ex_ops one false; ex_ops one false] = [Ok (false, true, 17); Ok (false, true, 17)].
Proof. split; vm_compute; reflexivity. Qed.

(** The failed call of an earlier step is not forgotten.  Rank 0 rejected a result and the resumed job went on; in a later step
    rank 1 rejects a result and rank 0 none, but rank 0 compares its result with the one it rejected back then, finds it reproduced, records its own device as suspicious and
    makes the job checkpoint, although the error of rank 1 is transient. *)
Theorem stale_failed_call :
  let after_resume := match train_loop ex_randint [] [[ex_ops S754_nan false; ex_ops one false]] (load_all [ex_checkpoint true 0; ex_checkpoint false 1] ex_moved) with
    | Ok (_, w) => map (fun x => (fst x, snd (should_checkpoint_and_exit (snd x)))) w | Err _ => [] end in
  let accepting := [Read 0; Check (mkCheck S754_nan (fun _ => false) "loss" None (S754_zero false) false)] in
  match train_loop ex_randint [] [[accepting; ex_ops S754_nan false]; [accepting; ex_ops one false]] after_resume with
  | Ok (_, w) => map (fun x => (m_suspicious (p_machine (snd x)), verdict (snd x))) w = [(Some ("node"%string, 2), Ok (true, true, 16)); (None, Ok (true, true, 16))]
  | Err _ => False
  end.
Proof. vm_compute. reflexivity. Qed.

Lemma report_stats_raises_witness : let p := mach (fun m => set_iteration 2 (set_state RERUNNING_IN_PLACE (set_mode REPORT_DETERMINISM_STATS m))) ex_process in
  exists p', should_run_forward_backward (ex_host 0 0) [{[("loss"%string, 0) := stats_init]}] (fun _ => 0) p = (raise_ AttributeError "'Caller' object has no attribute 'filename'", p') /\
    m_state (p_machine p') = NOT_RUNNING_YET.
Proof.
  intros p. apply (report_stats_raises (ex_host 0 0) _ (fun _ => 0) p); [reflexivity..|]. exists {[("loss"%string, 0) := stats_init]}. split; [apply list_elem_of_here|]. apply map_non_empty_singleton.
Defined.

Lemma full_stats_raise_witness : qs_max_size (mkStats [one] 1 0 one 1) <= 1 /\
  stats_record (mkStats [one] 1 0 one 1) one = raise_ AttributeError "'QuickStats' object has no attribute 'self'".
Proof. split; [cbn; lia|]. apply full_stats_raise; [reflexivity|cbn; lia]. Defined.
