(* ===== verification/RerunTracker.v ===== *)
(** * The iterations that the tracker file tells to skip

    [get_skipped_iterations_from_tracker_file] of [megatron/core/rerun_state_machine.py], against the entries of the file. *)

From stdpp Require Import sorting.
From S2P Require Import Prelude RerunMachine.

(** The entries that count against an iteration. *)
Definition counts_for (rank iteration : Z) (e : tracker_entry) : bool :=
  counted_status (te_status e) && (te_rank e =? rank) && (te_iteration e =? iteration).
Definition failures (rank iteration : Z) (entries : list tracker_entry) : nat := length (List.filter (counts_for rank iteration) entries).
Definition failed_in (job : string) (rank iteration : Z) (entries : list tracker_entry) : Prop :=
  exists e, e ∈ entries /\ counted_status (te_status e) = true /\ te_job e = job /\ te_rank e = rank /\ te_iteration e = iteration.

(** Some rank failed twice in the iteration; two ranks failed in it in the same job. *)
Definition repeated (iteration : Z) (entries : list tracker_entry) : Prop := exists rank, (2 <= failures rank iteration entries)%nat.
Definition widespread (iteration : Z) (entries : list tracker_entry) : Prop :=
  exists job r1 r2, r1 <> r2 /\ failed_in job r1 iteration entries /\ failed_in job r2 iteration entries.

(** The sets after some entries. *)
Record tracked (entries : list tracker_entry) (s : tracker_sets) : Prop := {
  tr_seen : forall rank it, (rank, it) ∈ seen s <-> (1 <= failures rank it entries)%nat;
  tr_by_job : forall job it rank, rank ∈ default ∅ (seen_by_job s !! (job, it)) <-> failed_in job rank it entries;
  tr_skip : forall it, it ∈ to_potentially_skip s <-> repeated it entries;
  tr_ignore : forall it, it ∈ to_ignore s <-> widespread it entries
}.

Lemma failures_snoc rank it l e : failures rank it (l ++ [e]) = (failures rank it l + Nat.b2n (counts_for rank it e))%nat.
Proof. unfold failures. rewrite List.filter_app, length_app. cbn. by destruct (counts_for rank it e). Qed.
Lemma failed_in_snoc job rank it l e : failed_in job rank it (l ++ [e]) <->
  failed_in job rank it l \/ (counted_status (te_status e) = true /\ te_job e = job /\ te_rank e = rank /\ te_iteration e = it).
Proof.
  unfold failed_in. split.
  - intros (x & [Hx|Hx%list_elem_of_singleton]%elem_of_app & H); [by left; exists x|right; by subst].
  - intros [(x & Hx & H)|H]; [exists x|exists e]; (split; [apply elem_of_app|done]); [by left|right; by apply list_elem_of_singleton].
Qed.
Lemma not_counts rank it e : counted_status (te_status e) = false -> counts_for rank it e = false.
Proof. unfold counts_for. by intros ->. Qed.
Lemma counts_for_true rank it e : counted_status (te_status e) = true -> counts_for rank it e = bool_decide (te_rank e = rank /\ te_iteration e = it).
Proof.
  unfold counts_for. intros ->. cbn. destruct (Z.eqb_spec (te_rank e) rank), (Z.eqb_spec (te_iteration e) it); cbn; symmetry; [apply bool_decide_true|apply bool_decide_false..]; tauto.
Qed.

Lemma track_uncounted l s e : counted_status (te_status e) = false -> tracked l s -> tracked (l ++ [e]) (track s e).
Proof.
  intros Hc [T1 T2 T3 T4]. unfold track. rewrite Hc. assert (F : forall rank it, failures rank it (l ++ [e]) = failures rank it l) by (intros; rewrite failures_snoc, not_counts by done; cbn; lia).
  assert (G : forall job rank it, failed_in job rank it (l ++ [e]) <-> failed_in job rank it l) by (intros; rewrite failed_in_snoc, Hc; naive_solver).
  split.
  - intros. by rewrite F.
  - intros. by rewrite G.
  - intros it. rewrite T3. unfold repeated. by setoid_rewrite F.
  - intros it. rewrite T4. unfold widespread. by setoid_rewrite G.
Qed.

(** A set has more than one element iff two of its elements differ. *)
Lemma size_two (X : gset Z) : (1 < size X)%nat <-> exists a b, a <> b /\ a ∈ X /\ b ∈ X.
Proof.
  split.
  - intros H. destruct (set_choose_L X) as [a Ha]; [intros ->; rewrite size_empty in H; lia|]. destruct (set_choose_L (X ∖ {[a]})) as [b Hb].
    + intros E. assert (Hs : size (X ∖ {[a]}) = 0%nat) by (rewrite E; apply size_empty). rewrite size_difference in Hs by set_solver. rewrite size_singleton in Hs. lia.
    + exists a, b. set_solver.
  - intros (a & b & Hn & Ha & Hb). assert (Hs : (size ({[a; b]} : gset Z) <= size X)%nat) by (apply subseteq_size; set_solver).
    rewrite size_union in Hs by set_solver. rewrite !size_singleton in Hs. lia.
Qed.

Lemma track_counted l s e : counted_status (te_status e) = true -> tracked l s -> tracked (l ++ [e]) (track s e).
Proof.
  intros Hc [T1 T2 T3 T4]. unfold track. rewrite Hc.
  set (ranks := default ∅ (seen_by_job s !! (te_job e, te_iteration e)) ∪ {[te_rank e]}).
  assert (Hj : forall job it rank, rank ∈ default ∅ (<[(te_job e, te_iteration e) := ranks]> (seen_by_job s) !! (job, it)) <-> failed_in job rank it (l ++ [e])).
  { intros job it rank. rewrite failed_in_snoc, <- T2, Hc. destruct (decide ((te_job e, te_iteration e) = (job, it))) as [E|E].
    - injection E as <- <-. rewrite lookup_insert_eq. cbn. unfold ranks. rewrite elem_of_union, elem_of_singleton. naive_solver.
    - rewrite lookup_insert_ne by done. naive_solver. }
  assert (Hr : forall rank, rank ∈ ranks <-> failed_in (te_job e) rank (te_iteration e) (l ++ [e])) by (intros rank; rewrite <- Hj, lookup_insert_eq; done).
  split; cbn [seen seen_by_job to_potentially_skip to_ignore].
  - intros rank it. rewrite elem_of_union, elem_of_singleton, T1, failures_snoc, (counts_for_true _ _ _ Hc). destruct (bool_decide_reflect (te_rank e = rank /\ te_iteration e = it)) as [[<- <-]|Hn]; cbn.
    + split; [lia|by right].
    + rewrite Nat.add_0_r. split; [intros [H|[= -> ->]]; [done|tauto]|by left].
  - done.
  - intros it. assert (E : repeated it (l ++ [e]) <-> repeated it l \/ (te_iteration e = it /\ (1 <= failures (te_rank e) it l)%nat)).
    { unfold repeated. setoid_rewrite failures_snoc. setoid_rewrite (counts_for_true _ _ _ Hc). split.
      - intros [rank H]. revert H. destruct (bool_decide_reflect (te_rank e = rank /\ te_iteration e = it)) as [[H1 H2]|Hn]; cbn; intros H; [right; split; [done|rewrite H1; lia]|left; exists rank; lia].
      - intros [[rank H]|[Hi H]]; [exists rank; lia|]. exists (te_rank e). rewrite bool_decide_true by done. cbn. lia. }
    rewrite E, <- T3. destruct (decide ((te_rank e, te_iteration e) ∈ seen s)) as [H|H]; rewrite T1 in H; [rewrite elem_of_union, elem_of_singleton|]; naive_solver.
  - intros it. assert (E : widespread it (l ++ [e]) <-> widespread it l \/ (te_iteration e = it /\ (1 < size ranks)%nat)).
    { unfold widespread. rewrite size_two. split.
      - intros (job & r1 & r2 & Hn & H1 & H2). destruct (decide (te_job e = job /\ te_iteration e = it)) as [[<- <-]|Hne].
        + right. split; [done|]. exists r1, r2. by rewrite !Hr.
        + left. exists job, r1, r2. rewrite failed_in_snoc in H1, H2. naive_solver.
      - intros [(job & r1 & r2 & Hn & H1 & H2)|[<- (r1 & r2 & Hn & H1 & H2)]].
        + exists job, r1, r2. rewrite !failed_in_snoc. naive_solver.
        + exists (te_job e), r1, r2. by rewrite <- !Hr. }
    rewrite E, <- T4. destruct (decide (1 < size ranks)%nat); [rewrite elem_of_union, elem_of_singleton|]; naive_solver.
Qed.

Lemma tracked_all entries : tracked entries (fold_left track entries (mkSets ∅ ∅ ∅ ∅)).
Proof.
  induction entries as [|e l IH] using rev_ind.
  - split; cbn; unfold repeated, widespread, failed_in, failures; cbn.
    + intros. set_solver by lia.
    + intros. rewrite lookup_empty. cbn. set_solver.
    + intros it. split; [set_solver|]. intros [r H]. lia.
    + intros it. split; [set_solver|]. intros (? & ? & ? & _ & (? & H & _) & _). by apply elem_of_nil in H.
  - rewrite fold_left_app. cbn. destruct (counted_status (te_status e)) eqn:Hc; [by apply track_counted|by apply track_uncounted].
Qed.

(** The iterations to skip: those in which some rank has at least two counted failures, unless in some job at least two
    ranks failed in it; each once, in increasing order, whatever the order of the entries. *)
Theorem skipped_iterations_spec entries :
  Sorted Z.lt (get_skipped_iterations entries) /\
  forall it, it ∈ get_skipped_iterations entries <-> repeated it entries /\ ~ widespread it entries.
Proof.
  pose proof (tracked_all entries) as [_ _ T3 T4]. unfold get_skipped_iterations. set (s := fold_left _ _ _) in *. set (X := to_potentially_skip s ∖ to_ignore s). split.
  - assert (Hs : Sorted Z.le (merge_sort Z.le (elements X))) by (apply Sorted_merge_sort; intros ??; lia).
    assert (Hn : NoDup (merge_sort Z.le (elements X))) by (rewrite merge_sort_Permutation; apply NoDup_elements).
    revert Hs Hn. generalize (merge_sort Z.le (elements X)). induction l as [|a l IH]; intros Hs Hn; [constructor|]. inversion_clear Hs as [|? ? Hs1 Hs2]. apply NoDup_cons in Hn as [Hn1 Hn2].
    constructor; [by apply IH|]. inversion Hs2 as [|b l' Hb]; subst; constructor. assert (a <> b) by (intros ->; apply Hn1, list_elem_of_here). lia.
  - intros it. rewrite merge_sort_Permutation, elem_of_elements. unfold X. rewrite elem_of_difference, T3, T4. done.
Qed.
