(* ===== verification/BucketGroup.v ===== *)
(** * Bucket groups

    [_ParamAndGradBucketGroup] and [partition_buckets] of
    [megatron/core/distributed/param_and_grad_buffer.py]: the state machine that
    collects ready gradients and starts and finishes the communication of a group
    of buckets, over BytePS or over the collectives of torch.distributed.

    Bucket groups are objects that refer to each other
    ([next_param_gather_bucket_group]), so the state is the list of all groups;
    a group is named by its position.  What the collectives do is recorded in a
    log; BytePS calls go to the model of the bindings. *)

From S2P Require Import Prelude PyFloat ParallelState BytepsOps BytepsCollectives GradBuffer.

(** [torch.distributed.ReduceOp] *)
Inductive reduce_op := SUM | AVG.

(** The conditions that [check_grads] has the rerun state machine validate. *)
Inductive grad_check := CheckNan | CheckInf | CheckLarge.

(** Effects on tensors and calls into torch.distributed.  A coalescing manager is
    named by a number. *)
Inductive comm_event :=
  | EvScale (b : bucket) (factor : f64)
  | EvAllGather (b : bucket) (shard : Z * Z) (async : bool)
  | EvReduceScatter (b : bucket) (shard : Z * Z) (op : reduce_op) (async : bool)
  | EvAllReduce (b : bucket) (op : reduce_op) (async : bool)
  | EvAllReduceShard (b : bucket) (shard : Z * Z) (op : reduce_op) (async : bool)
  | EvCoalesced (cm : Z) (async : bool)
  | EvWaitCm (cm : Z)
  | EvStreamWaitsDefault (stream : Z)
  | EvDefaultWaitsStream (stream : Z)
  | EvCopyParam (p : param) (slice : Z * Z)
  | EvZeroParamData (b : bucket)
  | EvWarn.

(** [grad_reduce_handle]: a coalescing manager, or the list of BytePS handles. *)
Inductive reduce_handle := HCm (cm : Z) | HBps (handles : list Z).

(** The fields of a bucket group.  [gr_size] and [gr_rank] are the fields
    [intra_distributed_optimizer_instance_size] and [_rank]. *)
Record group (PG : Type) := mkGroup {
  gr_buckets : list bucket;
  gr_cfg : ddp_config;
  gr_collective : gval PG;
  gr_size : Z;
  gr_rank : Z;
  gr_param_to_bucket : gmap Z bucket;
  gr_params : gset Z;
  gr_next : option nat;
  gr_inter : option (gval PG);
  gr_stream : option Z;
  gr_params_with_grad : gset Z;
  gr_is_last_microbatch : bool;
  gr_gather_handle : option Z;
  gr_gather_dispatched : bool;
  gr_reduce_handle : option reduce_handle;
  gr_cached_param : list (option (list (Z * Z)));
  gr_cached_grad : list (option (list (Z * Z)))
}.
Arguments mkGroup {_} _ _ _ _ _ _ _ _ _ _ _ _ _ _ _ _ _.
Arguments gr_buckets {_} _. Arguments gr_cfg {_} _. Arguments gr_collective {_} _. Arguments gr_size {_} _.
Arguments gr_rank {_} _. Arguments gr_param_to_bucket {_} _. Arguments gr_params {_} _. Arguments gr_next {_} _.
Arguments gr_inter {_} _. Arguments gr_stream {_} _. Arguments gr_params_with_grad {_} _.
Arguments gr_is_last_microbatch {_} _. Arguments gr_gather_handle {_} _. Arguments gr_gather_dispatched {_} _.
Arguments gr_reduce_handle {_} _. Arguments gr_cached_param {_} _. Arguments gr_cached_grad {_} _.

(** All groups, the BytePS side, the log, and the next coalescing manager. *)
Record world (PG : Type) := mkWorld {
  w_groups : list (group PG);
  w_bc : bc_state;
  w_log : list comm_event;
  w_next_cm : Z
}.
Arguments mkWorld {_} _ _ _ _.
Arguments w_groups {_} _. Arguments w_bc {_} _. Arguments w_log {_} _. Arguments w_next_cm {_} _.

(** Field updates. *)
Section Fields.
Context {PG : Type}.
Implicit Types (g : group PG).

Definition set_ready (ps : gset Z) (l : bool) g : group PG :=
  mkGroup (gr_buckets g) (gr_cfg g) (gr_collective g) (gr_size g) (gr_rank g) (gr_param_to_bucket g) (gr_params g)
    (gr_next g) (gr_inter g) (gr_stream g) ps l (gr_gather_handle g) (gr_gather_dispatched g) (gr_reduce_handle g)
    (gr_cached_param g) (gr_cached_grad g).
Definition set_gather (h : option Z) (d : bool) g : group PG :=
  mkGroup (gr_buckets g) (gr_cfg g) (gr_collective g) (gr_size g) (gr_rank g) (gr_param_to_bucket g) (gr_params g)
    (gr_next g) (gr_inter g) (gr_stream g) (gr_params_with_grad g) (gr_is_last_microbatch g) h d (gr_reduce_handle g)
    (gr_cached_param g) (gr_cached_grad g).
Definition set_reduce (h : option reduce_handle) g : group PG :=
  mkGroup (gr_buckets g) (gr_cfg g) (gr_collective g) (gr_size g) (gr_rank g) (gr_param_to_bucket g) (gr_params g)
    (gr_next g) (gr_inter g) (gr_stream g) (gr_params_with_grad g) (gr_is_last_microbatch g) (gr_gather_handle g)
    (gr_gather_dispatched g) h (gr_cached_param g) (gr_cached_grad g).
Definition set_cached_param (c : list (option (list (Z * Z)))) g : group PG :=
  mkGroup (gr_buckets g) (gr_cfg g) (gr_collective g) (gr_size g) (gr_rank g) (gr_param_to_bucket g) (gr_params g)
    (gr_next g) (gr_inter g) (gr_stream g) (gr_params_with_grad g) (gr_is_last_microbatch g) (gr_gather_handle g)
    (gr_gather_dispatched g) (gr_reduce_handle g) c (gr_cached_grad g).
Definition set_cached_grad (c : list (option (list (Z * Z)))) g : group PG :=
  mkGroup (gr_buckets g) (gr_cfg g) (gr_collective g) (gr_size g) (gr_rank g) (gr_param_to_bucket g) (gr_params g)
    (gr_next g) (gr_inter g) (gr_stream g) (gr_params_with_grad g) (gr_is_last_microbatch g) (gr_gather_handle g)
    (gr_gather_dispatched g) (gr_reduce_handle g) (gr_cached_param g) c.
Definition set_links (next : option nat) (inter : option (gval PG)) (stream : option Z) g : group PG :=
  mkGroup (gr_buckets g) (gr_cfg g) (gr_collective g) (gr_size g) (gr_rank g) (gr_param_to_bucket g) (gr_params g)
    next inter stream (gr_params_with_grad g) (gr_is_last_microbatch g) (gr_gather_handle g)
    (gr_gather_dispatched g) (gr_reduce_handle g) (gr_cached_param g) (gr_cached_grad g).
End Fields.

Definition group_param_ids (buckets : list bucket) : list Z := concat (map (fun b => map p_id (b_params b)) buckets).

(** [self.param_to_bucket] *)
Definition group_param_to_bucket (buckets : list bucket) : gmap Z bucket :=
  fold_left (fun (m : gmap Z bucket) b => fold_left (fun (m : gmap Z bucket) p => <[p_id p := b]> m) (b_params b) m) buckets ∅.

(** [_ParamAndGradBucketGroup.__init__]; without a distributed optimizer the size and the rank are not stored. *)
Definition group_init {PG} `{!ProcessGroup PG} (env : dist_env) (buckets : list bucket) (cfg : ddp_config) (collective : gval PG)
    (size : Z) : res (group PG) :=
  size_rank ← (if use_distributed_optimizer cfg
               then rank ← call_rank env (Some collective); mret (size, rank) else mret (0, 0));
  mret (mkGroup buckets cfg collective size_rank.1 size_rank.2 (group_param_to_bucket buckets)
          (list_to_set (group_param_ids buckets)) None None None ∅ true None false None
          (replicate (length buckets) None) (replicate (length buckets) None)).

(** A buffer and the group it was made with; [bf_dp] is that group's size. *)
Record dp_buffer (PG : Type) := mkDpBuffer { db_buffer : buffer; db_group : gval PG }.
Arguments mkDpBuffer {_} _ _.
Arguments db_buffer {_} _. Arguments db_group {_} _.

Section Partition.
Context {PG : Type} `{!ProcessGroup PG} `{!EqDecision PG} (env : dist_env).

#[export] Instance gval_eq_dec : EqDecision (gval PG).
Proof. solve_decision. Defined.

(** [dtype_to_buffer_map]: no two buffers have one parameter dtype. *)
Definition dtype_to_buffer_map (buffers : list (dp_buffer PG)) : res (list (dtype * dp_buffer PG)) :=
  foldR (fun m b =>
    assert_ (negb (bool_decide (bf_param_dtype (db_buffer b) ∈ map fst m))) "dtype not in dtype_to_buffer_map" ;;
    mret (m ++ [(bf_param_dtype (db_buffer b), b)])) [] buffers.

(** A group of [buckets] with the configuration and group of buffer [b]. *)
Definition group_of_buffer (b : dp_buffer PG) (buckets : list bucket) : res (group PG) :=
  group_init env buckets (bf_cfg (db_buffer b)) (db_group b) (bf_dp (db_buffer b)).

(** The fp8 buffer's buckets one per group, the other buckets in the last group; the
    configuration is that of [last], the buffer of the loop before. *)
Fixpoint fp8_groups (last : dp_buffer PG) (rest : list bucket) (n made : nat) (buckets : list bucket) : res (list (group PG)) :=
  match buckets with
  | [] => mret []
  | b :: buckets =>
      g ← group_of_buffer last (if bool_decide (Z.of_nat made = Z.of_nat n - 1) then b :: rest else [b]);
      gs ← fp8_groups last rest n (S made) buckets;
      mret (g :: gs)
  end.

Definition partition_buckets (buffers : list (dp_buffer PG)) (force_single_bucket_group : bool) : res (list (group PG)) :=
  match buffers with
  | [] => mret []
  | first :: _ =>
      m ← dtype_to_buffer_map buffers;
      if force_single_bucket_group then
        buckets ← foldR (fun acc b =>
          assert_ (bool_decide (bf_cfg (db_buffer first) = bf_cfg (db_buffer b))) "ddp_config == buffer.ddp_config" ;;
          assert_ (bool_decide (db_group first = db_group b)) "data_parallel_group == buffer.data_parallel_group" ;;
          assert_ (bf_dp (db_buffer first) =? bf_dp (db_buffer b)) "data_parallel_world_size == buffer.data_parallel_world_size" ;;
          mret (acc ++ bf_buckets (db_buffer b))) [] buffers;
        g ← group_of_buffer first buckets;
        mret [g]
      else
        match list_find (fun e => e.1 = UInt8) m with
        | None =>
            groups ← mapR (fun b => mapR (fun bk => group_of_buffer b [bk]) (bf_buckets (db_buffer b))) buffers;
            mret (concat groups)
        | Some (_, (_, fp8_buffer)) =>
            let non_fp8_buckets := concat (map (fun b => if bool_decide (bf_param_dtype (db_buffer b) = UInt8) then []
                                                         else bf_buckets (db_buffer b)) buffers) in
            fp8_groups (default first (last buffers)) non_fp8_buckets (length (bf_buckets (db_buffer fp8_buffer))) 0
              (bf_buckets (db_buffer fp8_buffer))
        end
  end.
End Partition.

(** The validation of gradient norms, [get_rerun_state_machine().validate_result]: it
    returns, or raises for a fatal error. *)
Class GradValidation := validate_result : Z -> bucket -> grad_check -> res unit.

(** The torch tensor that a bucket's [grad_data] is. *)
Class GradTensors := grad_tensor : bucket -> tensor.

Section Group.
Context {PG : Type} `{!ProcessGroup PG} `{!GradValidation} `{!GradTensors}.
Context (env : dist_env) (ps : pstate PG).
#[local] Notation W := (M (world PG)).

(** Access to group [i], the log and BytePS. *)
Definition self (i : nat) : W (group PG) := fun w =>
  match w_groups w !! i with
  | Some g => (Ok g, w)
  | None => (raise_ IndexError "no such bucket group", w)
  end.
Definition assign_self (i : nat) (f : group PG -> group PG) : W unit :=
  modM (fun w => mkWorld (alter f i (w_groups w)) (w_bc w) (w_log w) (w_next_cm w)).
Definition emit (e : comm_event) : W unit :=
  modM (fun w => mkWorld (w_groups w) (w_bc w) (w_log w ++ [e]) (w_next_cm w)).
Definition byteps {A} (m : M bc_state A) : W A := fun w =>
  let '(r, b) := m (w_bc w) in (r, mkWorld (w_groups w) b (w_log w) (w_next_cm w)).

(** [with _coalescing_manager(...) as cm: body] *)
Definition coalescing (async : bool) (body : W unit) : W Z :=
  body ;;
  w ← getM;
  modM (fun w => mkWorld (w_groups w) (w_bc w) (w_log w ++ [EvCoalesced (w_next_cm w) async]) (w_next_cm w + 1)) ;;
  mret (w_next_cm w).

Definition reset (i : nat) : W unit := assign_self i (set_ready ∅ true).

(** [check_grads] *)
Definition check_grads (i : nat) (check_for_nan_or_inf check_for_large : bool) : W unit :=
  g ← self i;
  iterM (fun '(k, b) =>
    whenM check_for_nan_or_inf (liftM (validate_result k b CheckNan) ;; liftM (validate_result k b CheckInf)) ;;
    whenM check_for_large (liftM (validate_result k b CheckLarge)))
    (imap (fun k b => (Z.of_nat k, b)) (gr_buckets g)).

(** [tensor.numel()] of a view *)
Definition view_numel (v : view) : Z := v_end v - v_start v.

(** The local shard of bucket [k], from the cache or from [shard_buffer]. *)
Definition cached_shard (cache : group PG -> list (option (list (Z * Z))))
    (store : list (option (list (Z * Z))) -> group PG -> group PG) (numel : res Z) (i k : nat) : W (Z * Z) :=
  g ← self i;
  c ← liftM (py_get (cache g) (Z.of_nat k));
  shards ← match c with
           | Some shards => mret shards
           | None =>
               n ← liftM numel;
               shards ← liftM (shard_buffer n (gr_size g));
               assign_self i (fun g => store (<[k := Some shards]> (cache g)) g) ;;
               mret shards
           end;
  liftM (py_get shards (gr_rank g)).

(** [bucket.param_data.numel()] *)
Definition param_data_numel (b : bucket) : res Z :=
  match b_param_data b with
  | None => raise_ AttributeError "'NoneType' object has no attribute 'numel'"
  | Some v => mret (view_numel v)
  end.

Definition enumerate {A} (l : list A) : list (nat * A) := imap pair l.

Definition start_param_sync (i : nat) (force_sync : bool) : W unit :=
  g ← self i;
  assertM (use_distributed_optimizer (gr_cfg g)) "self.ddp_config.use_distributed_optimizer" ;;
  let dispatch :=
    let async_op := overlap_param_gather (gr_cfg g) && negb force_sync in
    cm ← coalescing async_op (iterM (fun '(k, b) =>
           shard ← cached_shard gr_cached_param set_cached_param (param_data_numel b) i k;
           emit (EvAllGather b shard async_op)) (enumerate (gr_buckets g)));
    assign_self i (set_gather (if async_op then Some cm else None) true) in
  if force_sync then
    match gr_gather_handle g with
    | Some cm => emit (EvWaitCm cm) ;; assign_self i (set_gather None (gr_gather_dispatched g))
    | None => dispatch
    end
  else
    assertM (is_none (gr_gather_handle g)) "self.param_gather_handle is None" ;;
    dispatch.

(** Copying gathered MXFP8 parameters out of the shared buffer. *)
Definition copy_params (buckets : list bucket) : W unit :=
  iterM (fun b =>
    iterM (fun p => match list_find (fun e => e.1 = p_id p) (b_param_to_index b) with
                    | Some (_, (_, slice)) => emit (EvCopyParam p slice)
                    | None => raiseM KeyError "param_to_index"
                    end) (b_params b) ;;
    emit (EvZeroParamData b)) buckets.

Definition finish_param_sync (i : nat) (skip_next_bucket_dispatch : bool) : W unit :=
  g ← self i;
  assertM (use_distributed_optimizer (gr_cfg g)) "self.ddp_config.use_distributed_optimizer" ;;
  assertM (overlap_param_gather (gr_cfg g)) "self.ddp_config.overlap_param_gather" ;;
  whenM (negb (gr_gather_dispatched g)) (start_param_sync i false) ;;
  g ← self i;
  match gr_gather_handle g with
  | None => mret tt
  | Some cm =>
      emit (EvWaitCm cm) ;;
      assign_self i (set_gather None (gr_gather_dispatched g)) ;;
      match gr_next g with
      | Some j =>
          whenM (negb skip_next_bucket_dispatch) (
            next ← self j;
            if gr_gather_dispatched next then emit EvWarn else start_param_sync j false)
      | None => mret tt
      end ;;
      whenM (reuse_grad_buf_for_mxfp8_param_ag (gr_cfg g) && overlap_param_gather (gr_cfg g)) (copy_params (gr_buckets g))
  end.

(** The scaling of the gradients before their reduction. *)
Definition scale_buckets (buckets : list bucket) : W unit :=
  iterM (fun b => whenM (negb (f64_eqb (b_gradient_scaling_factor b) f64_one))
                    (emit (EvScale b (b_gradient_scaling_factor b)))) buckets.

(** [f"bucket_{bucket.bucket_id}"] *)
Definition bucket_logical_name (b : bucket) : string := "bucket_" +:+ str_of_Z (b_id b).

Definition start_grad_sync (i : nat) : W unit :=
  g ← self i;
  let cfg := gr_cfg g in
  assertM (is_none (gr_reduce_handle g)) "Should not have multiple communication calls outstanding at once" ;;
  whenM (check_for_nan_in_grad cfg || check_for_large_grads cfg)
    (check_grads i (check_for_nan_in_grad cfg) (check_for_large_grads cfg)) ;;
  scale_buckets (gr_buckets g) ;;
  let op := if average_in_collective cfg then AVG else SUM in
  let async_op := overlap_grad_reduce cfg && (num_instances cfg =? 1) in
  whenM ((1 <? num_instances cfg) && overlap_grad_reduce cfg)
    match gr_stream g with
    | Some stream => emit (EvStreamWaitsDefault stream)
    | None => raiseM AttributeError "'NoneType' object has no attribute 'wait_stream'"
    end ;;
  if negb (use_distributed_optimizer cfg) && use_dpu_reduce cfg then
    if async_op then
      handles ← mapM_ (fun b => byteps (byteps_allreduce_async_inplace env ps (grad_tensor b) (Some (gr_collective g)) "dp"
                  (bucket_logical_name b) (average_in_collective cfg) 0 0)) (gr_buckets g);
      assign_self i (set_reduce (Some (HBps handles)))
    else
      iterM (fun b => byteps (byteps_allreduce_inplace env ps (grad_tensor b) (Some (gr_collective g)) "dp"
               (bucket_logical_name b) (average_in_collective cfg) 0 0) ;; mret tt) (gr_buckets g) ;;
      assign_self i (set_reduce None)
  else
    cm ← coalescing async_op (iterM (fun '(k, b) =>
           if use_distributed_optimizer cfg then
             shard ← cached_shard gr_cached_grad set_cached_grad (mret (view_numel (b_grad_data b))) i k;
             emit (EvReduceScatter b shard op async_op)
           else emit (EvAllReduce b op async_op)) (enumerate (gr_buckets g)));
    cm ← (if use_distributed_optimizer cfg && (1 <? num_instances cfg) then
            assertM (negb (is_none (gr_inter g))) "self.inter_distributed_optimizer_instance_group is not None" ;;
            coalescing async_op (iterM (fun '(k, b) =>
              shard ← cached_shard gr_cached_grad set_cached_grad (mret (view_numel (b_grad_data b))) i k;
              emit (EvAllReduceShard b shard op async_op)) (enumerate (gr_buckets g)))
          else mret cm);
    assign_self i (set_reduce (if async_op then Some (HCm cm) else None)).

Definition finish_grad_sync (i : nat) : W unit :=
  assign_self i (fun g => set_gather (gr_gather_handle g) false g) ;;
  g ← self i;
  let cfg := gr_cfg g in
  if negb (overlap_grad_reduce cfg) then start_grad_sync i
  else if 1 <? num_instances cfg then
    match gr_stream g with
    | Some stream => emit (EvDefaultWaitsStream stream)
    | None => raiseM AttributeError "'NoneType' object has no attribute 'record_event'"
    end
  else if negb (use_dpu_reduce cfg) then
    match gr_reduce_handle g with
    | None => raiseM AssertionError "Communication call has not been issued for this bucket"
    | Some (HCm cm) => emit (EvWaitCm cm) ;; assign_self i (set_reduce None)
    | Some (HBps _) => raiseM AttributeError "'list' object has no attribute 'wait'"
    end
  else
    match gr_reduce_handle g with
    | None => raiseM AssertionError "BytePS Communication call has not been issued for this bucket"
    | Some (HCm _) => raiseM TypeError "'_CoalescingManager' object is not iterable"
    | Some (HBps handles) =>
        iterM (fun h => byteps (bps (synchronize h)) ;; mret tt) handles ;;
        assign_self i (set_reduce None)
    end.

Definition register_grad_ready (i : nat) (p : Z) : W unit :=
  g ← self i;
  assertM (overlap_grad_reduce (gr_cfg g)) "register_grad_ready() should only be called when overlap_grad_reduce is True" ;;
  whenM (gr_is_last_microbatch g) (
    assertM (negb (is_none (gr_param_to_bucket g !! p))) "Param is not in the bucket group" ;;
    assertM (negb (bool_decide (p ∈ gr_params_with_grad g))) "Cannot set grad twice" ;;
    assign_self i (fun g => set_ready ({[p]} ∪ gr_params_with_grad g) (gr_is_last_microbatch g) g) ;;
    g ← self i;
    whenM (bool_decide (size (gr_params_with_grad g) = size (gr_params g))) (start_grad_sync i)).
End Group.
