(* ===== verification/BucketGroupProofs.v ===== *)
(** * Properties of bucket groups

    [partition_buckets] partitions the buckets; an overlapped BytePS reduction is
    pushed once, when the last gradient is ready, and all its handles are waited
    for; and the cases in which the code fails. *)

From S2P Require Import Prelude PyFloat ParallelState ParallelStateProofs BytepsOps BytepsCollectives.
From S2P Require Import GradBuffer GradBufferProofs BucketGroup.

(* ================================================================== *)
(** ** Partitioning                                                    *)
(* ================================================================== *)

(** A group as its constructor leaves it: no gradient ready, nothing outstanding. *)
Record fresh_group {PG} (g : group PG) : Prop := {
  fg_params : gr_params g = list_to_set (group_param_ids (gr_buckets g));
  fg_lookup : gr_param_to_bucket g = group_param_to_bucket (gr_buckets g);
  fg_ready : gr_params_with_grad g = ∅;
  fg_last : gr_is_last_microbatch g = true;
  fg_reduce : gr_reduce_handle g = None;
  fg_gather : gr_gather_handle g = None;
  fg_dispatched : gr_gather_dispatched g = false
}.

Definition is_one {PG} (g : gval PG) : Prop := exists p, g = GOne p.

Section PartitionProofs.
Context {PG : Type} `{PGI : !ProcessGroup PG} `{EQ : !EqDecision PG} (env : dist_env).

Lemma group_init_ok buckets cfg collective n : is_one collective ->
  exists g, group_init env buckets cfg collective n = Ok g /\ gr_buckets g = buckets /\ gr_cfg g = cfg /\
    gr_collective g = collective /\ fresh_group g.
Proof.
  intros [p ->]. unfold group_init. destruct (use_distributed_optimizer cfg); eexists; (split; [reflexivity|]); by split_and!.
Qed.

Lemma group_of_buffer_ok (b : dp_buffer PG) buckets : is_one (db_group b) ->
  exists g, group_of_buffer env b buckets = Ok g /\ gr_buckets g = buckets /\ fresh_group g.
Proof. intros Hb. destruct (group_init_ok buckets (bf_cfg (db_buffer b)) (db_group b) (bf_dp (db_buffer b)) Hb) as (g & E & E1 & _ & _ & F). eauto. Qed.

Lemma dtype_map_ok (buffers : list (dp_buffer PG)) : NoDup (map (fun b => bf_param_dtype (db_buffer b)) buffers) ->
  dtype_to_buffer_map buffers = Ok (map (fun b => (bf_param_dtype (db_buffer b), b)) buffers).
Proof.
  intros Hnd. unfold dtype_to_buffer_map. pose proof (foldR_total (fun (m : list (dtype * dp_buffer PG)) b =>
    assert_ (negb (bool_decide (bf_param_dtype (db_buffer b) ∈ map fst m))) "dtype not in dtype_to_buffer_map" ;;
    mret (m ++ [(bf_param_dtype (db_buffer b), b)]))
    (fun seen m => m = map (fun b => (bf_param_dtype (db_buffer b), b)) seen) [] buffers eq_refl) as H.
  destruct H as (m & E & ->); [|exact E].
  intros seen b rest m -> ->. eexists. split.
  - rewrite bool_decide_eq_false_2; [reflexivity|]. rewrite map_map. cbn. rewrite map_app in Hnd. apply NoDup_app in Hnd as (_ & Hnd & _).
    intros Hin. apply (Hnd _ Hin). left.
  - cbn. by rewrite map_app.
Qed.

(** One group for each element of a list. *)
Lemma groups_ok {X} (f : X -> res (group PG)) (h : X -> list bucket) l :
  (forall x, x ∈ l -> exists g, f x = Ok g /\ gr_buckets g = h x /\ fresh_group g) ->
  exists gs, mapR f l = Ok gs /\ map gr_buckets gs = map h l /\ Forall fresh_group gs.
Proof.
  induction l as [|x l IH]; intros Hf; cbn; [by exists []|].
  destruct (Hf x) as (g & -> & Eg & Fg); [left|]. cbn. destruct IH as (gs & -> & Egs & Fgs); [intros y Hy; apply Hf; by right|].
  exists (g :: gs). cbn. rewrite Eg, Egs. auto.
Qed.

Lemma map_singleton_concat {X} (l : list X) : concat (map (fun x => [x]) l) = l.
Proof. induction l as [|x l IH]; cbn; [done|]. by rewrite IH. Qed.

Lemma single_groups_ok (buffers : list (dp_buffer PG)) : Forall (fun b => is_one (db_group b)) buffers ->
  exists gss, mapR (fun b => mapR (fun bk => group_of_buffer env b [bk]) (bf_buckets (db_buffer b))) buffers = Ok gss /\
    concat (map gr_buckets (concat gss)) = concat (map (fun b => bf_buckets (db_buffer b)) buffers) /\
    Forall fresh_group (concat gss) /\ Forall (fun g => length (gr_buckets g) = 1%nat) (concat gss).
Proof.
  induction 1 as [|b buffers Hb _ IH]; cbn; [by exists []|].
  destruct (groups_ok (fun bk => group_of_buffer env b [bk]) (fun bk => [bk]) (bf_buckets (db_buffer b))) as (gs & Egs & Hgs & Fgs).
  { intros bk _. by apply group_of_buffer_ok. }
  rewrite Egs. cbn. destruct IH as (gss & -> & H1 & H2 & H3). exists (gs :: gss). cbn. split; [done|].
  rewrite map_app, concat_app, Hgs, map_singleton_concat, H1. split; [done|]. split; [by apply Forall_app|]. apply Forall_app. split; [|done].
  apply Forall_forall. intros g Hg. assert (Hin : gr_buckets g ∈ map gr_buckets gs) by (apply list_elem_of_fmap; eauto).
  rewrite Hgs in Hin. apply list_elem_of_fmap in Hin as (bk & -> & _). done.
Qed.

Lemma fp8_groups_ok (last : dp_buffer PG) rest n buckets made : is_one (db_group last) -> (made + length buckets = n)%nat ->
  exists gs, fp8_groups env last rest n made buckets = Ok gs /\ Forall fresh_group gs /\
    concat (map gr_buckets gs) = buckets ++ (if bool_decide (buckets = []) then [] else rest) /\
    length gs = length buckets.
Proof.
  intros Hone. revert made. induction buckets as [|b buckets IH]; intros made Hn; cbn; [by exists []|]. cbn in Hn.
  destruct (group_of_buffer_ok last (if bool_decide (Z.of_nat made = Z.of_nat n - 1) then b :: rest else [b]) Hone) as (g & -> & Eg & Fg).
  cbn. destruct (IH (S made)) as (gs & -> & Fgs & Egs & Lgs); [lia|]. exists (g :: gs). cbn. rewrite Egs, Lgs. split_and!; auto.
  rewrite Eg. destruct buckets as [|b' buckets]; cbn in *.
  - rewrite bool_decide_eq_true_2 by lia. by rewrite app_nil_r.
  - rewrite bool_decide_eq_false_2 by lia. done.
Qed.

Lemma forced_buckets_ok (first : dp_buffer PG) buffers :
  (forall b, b ∈ buffers -> bf_cfg (db_buffer first) = bf_cfg (db_buffer b) /\ db_group first = db_group b /\
     bf_dp (db_buffer first) = bf_dp (db_buffer b)) ->
  foldR (fun acc b =>
    assert_ (bool_decide (bf_cfg (db_buffer first) = bf_cfg (db_buffer b))) "ddp_config == buffer.ddp_config" ;;
    assert_ (bool_decide (db_group first = db_group b)) "data_parallel_group == buffer.data_parallel_group" ;;
    assert_ (bf_dp (db_buffer first) =? bf_dp (db_buffer b)) "data_parallel_world_size == buffer.data_parallel_world_size" ;;
    mret (acc ++ bf_buckets (db_buffer b))) [] buffers = Ok (concat (map (fun b => bf_buckets (db_buffer b)) buffers)).
Proof.
  intros Hs. edestruct (foldR_total (fun acc (b : dp_buffer PG) =>
    assert_ (bool_decide (bf_cfg (db_buffer first) = bf_cfg (db_buffer b))) "ddp_config == buffer.ddp_config" ;;
    assert_ (bool_decide (db_group first = db_group b)) "data_parallel_group == buffer.data_parallel_group" ;;
    assert_ (bf_dp (db_buffer first) =? bf_dp (db_buffer b)) "data_parallel_world_size == buffer.data_parallel_world_size" ;;
    mret (acc ++ bf_buckets (db_buffer b)))
    (fun seen acc => acc = concat (map (fun b => bf_buckets (db_buffer b)) seen)) [] buffers) as (acc & E & ->); [done| |exact E].
  intros seen b rest acc -> ->. destruct (Hs b) as (H1 & H2 & H3); [set_solver|]. eexists. split.
  - rewrite !bool_decide_eq_true_2 by done. rewrite (proj2 (Z.eqb_eq _ _) H3). reflexivity.
  - rewrite map_app, concat_app. cbn. by rewrite app_nil_r.
Qed.

Lemma non_fp8_none (l : list (dp_buffer PG)) : UInt8 ∉ map (fun b => bf_param_dtype (db_buffer b)) l ->
  concat (map (fun b => if bool_decide (bf_param_dtype (db_buffer b) = UInt8) then [] else bf_buckets (db_buffer b)) l)
  = concat (map (fun b => bf_buckets (db_buffer b)) l).
Proof.
  induction l as [|b l IH]; cbn; [done|]. intros [Hb Hl]%not_elem_of_cons. rewrite bool_decide_eq_false_2 by done. by rewrite IH.
Qed.

(** All buckets are those of the fp8 buffer and the others. *)
Lemma fp8_split (buffers : list (dp_buffer PG)) k fp8 : NoDup (map (fun b => bf_param_dtype (db_buffer b)) buffers) ->
  buffers !! k = Some fp8 -> bf_param_dtype (db_buffer fp8) = UInt8 ->
  bf_buckets (db_buffer fp8) ++
  concat (map (fun b => if bool_decide (bf_param_dtype (db_buffer b) = UInt8) then [] else bf_buckets (db_buffer b)) buffers)
  ≡ₚ concat (map (fun b => bf_buckets (db_buffer b)) buffers).
Proof.
  intros Hnd Hk Hu. apply list_elem_of_split_length in Hk as (l1 & l2 & -> & _).
  rewrite map_app in Hnd. cbn in Hnd. rewrite Hu in Hnd. apply NoDup_app in Hnd as (_ & H1 & [H2 _]%NoDup_cons).
  assert (H3 : UInt8 ∉ map (fun b => bf_param_dtype (db_buffer b)) l1) by (intros Hin; apply (H1 _ Hin); left).
  rewrite !map_app, !concat_app. cbn. rewrite bool_decide_eq_true_2 by done. cbn. rewrite !non_fp8_none by done.
  rewrite !app_assoc. apply Permutation_app_tail, Permutation_app_comm.
Qed.
End PartitionProofs.

Lemma partition_buckets_ok {PG} `{!ProcessGroup PG} `{!EqDecision PG} env (buffers : list (dp_buffer PG)) force :
  NoDup (map (fun b => bf_param_dtype (db_buffer b)) buffers) ->
  Forall (fun b => is_one (db_group b) /\ bf_buckets (db_buffer b) <> []) buffers ->
  (force = true -> forall b b', b ∈ buffers -> b' ∈ buffers -> bf_cfg (db_buffer b) = bf_cfg (db_buffer b') /\
     db_group b = db_group b' /\ bf_dp (db_buffer b) = bf_dp (db_buffer b')) ->
  exists gs, partition_buckets env buffers force = Ok gs /\
    concat (map gr_buckets gs) ≡ₚ concat (map (fun b => bf_buckets (db_buffer b)) buffers) /\
    Forall fresh_group gs /\
    (force = false -> UInt8 ∉ map (fun b => bf_param_dtype (db_buffer b)) buffers ->
     Forall (fun g => length (gr_buckets g) = 1%nat) gs).
Proof.
  intros Hnd Hone Hsame. destruct buffers as [|first l]; [by exists []|]. set (all := first :: l) in *.
  assert (Hfirst : first ∈ all) by left. pose proof Hone as Hone'. rewrite Forall_forall in Hone'.
  unfold partition_buckets. unfold all at 1. cbv iota. rewrite (dtype_map_ok all Hnd). ret_step. destruct force.
  - rewrite forced_buckets_ok by (intros b Hb; by apply Hsame). ret_step.
    destruct (group_of_buffer_ok env first (concat (map (fun b => bf_buckets (db_buffer b)) all))) as (g & -> & Eg & Fg);
      [by apply Hone'|]. exists [g]. cbn. rewrite Eg, app_nil_r. split_and!; [done|done|by apply Forall_singleton|done].
  - destruct (list_find _ _) as [[k [d fp8]]|] eqn:Ef.
    + apply list_find_Some in Ef as (Hk & Hd & _). cbn in Hd. subst d. apply list_lookup_fmap_Some in Hk as (b & [= Hu <-] & Hk).
      assert (Hfp8 : fp8 ∈ all) by (by eapply list_elem_of_lookup_2).
      destruct (fp8_groups_ok env (default first (last all)) (concat (map (fun b => if bool_decide (bf_param_dtype (db_buffer b) = UInt8)
        then [] else bf_buckets (db_buffer b)) all)) (length (bf_buckets (db_buffer fp8))) (bf_buckets (db_buffer fp8)) 0)
        as (gs & E & Fgs & Egs & _); [|done|].
      { destruct (last all) as [lb|] eqn:El; [|by apply last_None in El]. apply Hone'. rewrite last_lookup in El. by eapply list_elem_of_lookup_2. }
      exists gs. split; [exact E|]. rewrite Egs, bool_decide_eq_false_2 by (by apply Hone').
      split; [by eapply fp8_split|]. split; [done|]. intros _ Hno. destruct Hno. rewrite Hu. apply list_elem_of_fmap. by exists fp8.
    + destruct (single_groups_ok env all) as (gss & E & H1 & H2 & H3); [eapply Forall_impl; [exact Hone|]; cbn; tauto|].
      rewrite E. cbn. exists (concat gss). rewrite H1. split_and!; done.
Qed.

(** [partition_buckets] puts every bucket of every buffer into exactly one group, whichever of its three cases
    applies; the groups it returns are fresh, and when neither fp8 parameters nor a single
    group is asked for, each has one bucket. *)
Theorem partition_buckets_spec {PG} `{!ProcessGroup PG} `{!EqDecision PG} env (buffers : list (dp_buffer PG)) force :
  NoDup (map (fun b => bf_param_dtype (db_buffer b)) buffers) ->
  Forall (fun b => is_one (db_group b) /\ bf_buckets (db_buffer b) <> []) buffers ->
  (force = true -> forall b b', b ∈ buffers -> b' ∈ buffers -> bf_cfg (db_buffer b) = bf_cfg (db_buffer b') /\
     db_group b = db_group b' /\ bf_dp (db_buffer b) = bf_dp (db_buffer b')) ->
  exists gs, partition_buckets env buffers force = Ok gs /\
    concat (map gr_buckets gs) ≡ₚ concat (map (fun b => bf_buckets (db_buffer b)) buffers) /\
    Forall fresh_group gs /\
    (force = false -> UInt8 ∉ map (fun b => bf_param_dtype (db_buffer b)) buffers ->
     Forall (fun g => length (gr_buckets g) = 1%nat) gs).
Proof. apply partition_buckets_ok. Qed.

(* ================================================================== *)
(** ** BytePS reductions of a group                                    *)
(* ================================================================== *)

Section Byteps.
Context {PG : Type} `{PGI : !ProcessGroup PG} `{GV : !GradValidation} `{GT : !GradTensors}.
Context (env : dist_env) (ps : pstate PG) (collective : gval PG) (n tp pp : Z).
Context (Hsize : call_size (Some collective) = Ok n) (Hn : 0 < n).
Context (Htp : get_tensor_model_parallel_rank env ps = Ok tp) (Hpp : get_pipeline_model_parallel_rank env ps = Ok pp).

(** The BytePS name of a bucket. *)
Definition bucket_name (b : bucket) : string := dp_name tp pp (bucket_logical_name b).

Lemma bucket_name_built b : build_byteps_group_name env ps "dp" (bucket_logical_name b) = Ok (bucket_name b).
Proof. unfold build_byteps_group_name. rewrite bool_decide_eq_false_2 by done. rewrite Hpp. cbn [mbind res_bind]. by rewrite Htp. Qed.

(** Starting one reduction. *)
Lemma allreduce_async_ok s b average : ready s -> pushable (grad_tensor b) = true ->
  default n (bc_declared s !! bucket_name b) = n ->
  let h := bs_last_handle (bc_bps s) + 1 in
  exists s', byteps_allreduce_async_inplace env ps (grad_tensor b) (Some collective) "dp" (bucket_logical_name b) average 0 0 s
             = (Ok h, s') /\ ready s' /\ bc_declared s' = <[bucket_name b := n]> (bc_declared s) /\
    bs_last_handle (bc_bps s') = h /\
    bs_handle_map (bc_bps s') = <[h := (grad_tensor b, grad_tensor b)]> (bs_handle_map (bc_bps s)) /\
    bs_log (bc_bps s') = bs_log (bc_bps s) ++ [EvPush h (grad_tensor b) (grad_tensor b) average (bucket_name b) 0 0].
Proof.
  intros Hr Hp Hd h.
  destruct (declare_group_ok env ps s collective "dp" (bucket_logical_name b) n (bucket_name b) Hr Hsize Hn
    (bucket_name_built b) ltac:(discriminate) Hd) as (s1 & E1 & D1 & Q1 & C1 & H1 & I1).
  destruct (do_push_pull_async_ok (bc_bps s1) (grad_tensor b) (grad_tensor b) average (Some (bucket_name b)) 0 0 I1 Hp)
    as (b2 & E2 & I2 & L2 & R2 & M2 & _ & X2 & G2).
  assert (El : bs_last_handle (bc_bps s1) = bs_last_handle (bc_bps s)) by (by rewrite Q1).
  assert (Em : bs_handle_map (bc_bps s1) = bs_handle_map (bc_bps s)) by (by rewrite Q1).
  assert (Eg : bs_log (bc_bps s1) = bs_log (bc_bps s)) by (by rewrite Q1).
  exists (mkBc b2 (bc_declared s1) (bc_name_counter s1) (bc_barriers s1)). split.
  { unfold byteps_allreduce_async_inplace, push_pull_async_inplace, bps, mbind, M_bind. rewrite E1, E2. unfold h. by rewrite El. }
  unfold h. rewrite <- El. cbn [bc_bps bc_declared]. split_and!; [|done|done|by rewrite M2, Em|by rewrite G2, Eg].
  split_and!; cbn.
  - eapply (push_keeps_cache s1 (bucket_name b)); [done|rewrite D1, lookup_insert_eq; by eexists|]. by rewrite X2.
  - by eapply handles_ok_push.
  - done.
Qed.

(** The pushes of a list of buckets, from handle [h] on, and their entries in the handle map. *)
Fixpoint push_events (h : Z) (average : bool) (bs : list bucket) : list bps_event :=
  match bs with
  | [] => []
  | b :: bs => EvPush (h + 1) (grad_tensor b) (grad_tensor b) average (bucket_name b) 0 0 :: push_events (h + 1) average bs
  end.
Definition push_handles (h : Z) (bs : list bucket) : list Z := zrange (h + 1) (h + 1 + Z.of_nat (length bs)).

(** Names that are new or were declared with this size. *)
Definition names_free (s : bc_state) (bs : list bucket) : Prop :=
  Forall (fun b => default n (bc_declared s !! bucket_name b) = n) bs.

Definition with_bc (w : world PG) (s : bc_state) : world PG := mkWorld (w_groups w) s (w_log w) (w_next_cm w).

Lemma push_all_ok average bs w : ready (w_bc w) -> Forall (fun b => pushable (grad_tensor b) = true) bs -> names_free (w_bc w) bs ->
  let h := bs_last_handle (bc_bps (w_bc w)) in
  exists s', mapM_ (fun b => byteps (byteps_allreduce_async_inplace env ps (grad_tensor b) (Some collective) "dp"
               (bucket_logical_name b) average 0 0)) bs w = (Ok (push_handles h bs), with_bc w s') /\
    ready s' /\ bs_log (bc_bps s') = bs_log (bc_bps (w_bc w)) ++ push_events h average bs /\
    (forall k, k <= h -> bs_handle_map (bc_bps s') !! k = bs_handle_map (bc_bps (w_bc w)) !! k) /\
    (forall k, k ∈ push_handles h bs -> is_Some (bs_handle_map (bc_bps s') !! k)) /\
    (forall k, h + Z.of_nat (length bs) < k -> bs_handle_map (bc_bps s') !! k = bs_handle_map (bc_bps (w_bc w)) !! k) /\
    bs_last_handle (bc_bps s') = h + Z.of_nat (length bs) /\
    (forall nm, default n (bc_declared (w_bc w) !! nm) = n -> default n (bc_declared s' !! nm) = n).
Proof.
  intros Hr Hp Hf. revert w Hr Hf. induction Hp as [|b bs Hb _ IH]; intros w Hr Hf h.
  - exists (w_bc w). cbn -[Z.add]. unfold push_handles. rewrite zrange_nil by (cbn; lia). rewrite app_nil_r, Z.add_0_r. destruct w. split_and!; try done. intros k Hk. set_solver.
  - inversion Hf as [|? ? Hfb Hf']; subst. destruct (allreduce_async_ok (w_bc w) b average Hr Hb Hfb) as (s1 & E1 & R1 & D1 & L1 & M1 & G1).
    fold h in E1, L1, M1, G1. destruct (IH (with_bc w s1)) as (s2 & E2 & R2 & G2 & O2 & H2 & T2 & LH2 & ND2); [done| |].
    { eapply Forall_impl; [exact Hf'|]. cbn. intros b' Hb'. rewrite D1. destruct (decide (bucket_name b' = bucket_name b)) as [->|Hne];
        [by rewrite lookup_insert_eq|by rewrite lookup_insert_ne]. }
    cbn [w_bc with_bc] in *. rewrite L1 in *. exists s2. split_and!; try done.
    + cbn [mapM_]. erewrite bind_step by (unfold byteps; rewrite E1; reflexivity). fold (with_bc w s1).
      erewrite bind_step by exact E2. unfold push_handles. cbn [length]. rewrite (zrange_cons (h + 1)) by lia.
      unfold mret, M_ret. do 3 f_equal. f_equal. lia.
    + rewrite G2, G1, <- app_assoc. done.
    + intros k Hk. rewrite O2 by lia. rewrite M1. by rewrite lookup_insert_ne by lia.
    + intros k Hk. unfold push_handles in Hk, H2. rewrite elem_of_zrange in Hk. cbn [length] in Hk.
      destruct (Z.eq_dec k (h + 1)) as [->|Hne]; [rewrite O2 by lia; rewrite M1, lookup_insert_eq; by eexists|].
      apply H2. rewrite elem_of_zrange. lia.
    + intros k Hk. cbn [length] in Hk. rewrite T2 by lia. rewrite M1. by rewrite lookup_insert_ne by lia.
    + rewrite LH2. cbn [length]. lia.
    + intros nm Hnm. apply ND2. rewrite D1. destruct (decide (nm = bucket_name b)) as [->|Hne]; [by rewrite lookup_insert_eq|by rewrite lookup_insert_ne].
Qed.

(** Waiting for a list of pending handles. *)
Lemma sync_all_ok hs w : ready (w_bc w) -> NoDup hs -> Forall (fun h => is_Some (bs_handle_map (bc_bps (w_bc w)) !! h)) hs ->
  exists s', iterM (fun h => byteps (bps (synchronize h)) ;; mret tt) hs w = (Ok tt, with_bc w s') /\ ready s' /\
    bc_declared s' = bc_declared (w_bc w) /\
    bs_log (bc_bps s') = bs_log (bc_bps (w_bc w)) ++ map EvWait hs /\
    (forall k, bs_handle_map (bc_bps s') !! k = if bool_decide (k ∈ hs) then None else bs_handle_map (bc_bps (w_bc w)) !! k).
Proof.
  intros Hr Hnd. revert w Hr. induction Hnd as [|h hs Hh _ IH]; intros w Hr Hs.
  - exists (w_bc w). cbn. rewrite app_nil_r. destruct w. split_and!; try done.
  - inversion Hs as [|? ? [[i o] Hio] Hs']; subst. pose proof Hr as (C & H & I).
    destruct (synchronize_ok (bc_bps (w_bc w)) h i o H Hio) as (b1 & E1 & I1 & L1 & R1 & M1 & X1 & G1).
    set (s1 := mkBc b1 (bc_declared (w_bc w)) (bc_name_counter (w_bc w)) (bc_barriers (w_bc w))).
    assert (Hr1 : ready s1).
    { split_and!; cbn; [|by eapply handles_ok_sync|by rewrite I1]. destruct C as [C1 C2]. split; cbn; rewrite X1; [exact C1|exact C2]. }
    destruct (IH (with_bc w s1)) as (s2 & E2 & R2 & D2 & G2 & M2); [done| |].
    { rewrite Forall_forall in Hs' |- *. intros k Hk. cbn. rewrite M1, lookup_delete_ne by (intros ->; done). by apply Hs'. }
    exists s2. split_and!; try done.
    + cbn [iterM]. erewrite bind_step; [exact E2|]. erewrite bind_step by (unfold byteps, bps; rewrite E1; reflexivity). reflexivity.
    + rewrite G2. cbn. by rewrite G1, <- app_assoc.
    + intros k. rewrite M2. cbn. rewrite M1. destruct (decide (k = h)) as [->|Hne].
      * rewrite lookup_delete_eq. rewrite (bool_decide_eq_true_2 (h ∈ h :: hs)) by left. by case_bool_decide.
      * rewrite lookup_delete_ne by done. rewrite (bool_decide_ext (k ∈ hs) (k ∈ h :: hs)) by set_solver. done.
Qed.

(** *** The group *)

Lemma self_ok i (g : group PG) w : w_groups w !! i = Some g -> self i w = (Ok g, w).
Proof. unfold self. by intros ->. Qed.

(** A group that is reduced over BytePS while the backward pass runs. *)
Record overlapped (g : group PG) : Prop := {
  ov_collective : gr_collective g = collective;
  ov_overlap : overlap_grad_reduce (gr_cfg g) = true;
  ov_dpu : use_dpu_reduce (gr_cfg g) = true;
  ov_distopt : use_distributed_optimizer (gr_cfg g) = false;
  ov_instances : num_instances (gr_cfg g) = 1;
  ov_nan : check_for_nan_in_grad (gr_cfg g) = false;
  ov_large : check_for_large_grads (gr_cfg g) = false
}.

Definition scale_events (bs : list bucket) : list comm_event :=
  concat (map (fun b => if f64_eqb (b_gradient_scaling_factor b) f64_one then []
                        else [EvScale b (b_gradient_scaling_factor b)]) bs).

Lemma scale_buckets_ok bs (w : world PG) :
  scale_buckets bs w = (Ok tt, mkWorld (w_groups w) (w_bc w) (w_log w ++ scale_events bs) (w_next_cm w)).
Proof.
  unfold scale_buckets. revert w. induction bs as [|b bs IH]; intros w.
  - cbn. rewrite app_nil_r. by destruct w.
  - cbn [iterM]. unfold scale_events. cbn [map concat]. fold (scale_events bs). destruct (f64_eqb _ _); cbn [negb whenM app].
    + erewrite bind_step by reflexivity. apply IH.
    + erewrite bind_step by reflexivity. rewrite IH. cbn. by rewrite <- app_assoc.
Qed.

(** The reduction starts: the buckets are scaled and pushed, the handles are kept. *)
Lemma start_grad_sync_ok i g w : w_groups w !! i = Some g -> overlapped g -> gr_reduce_handle g = None ->
  ready (w_bc w) -> Forall (fun b => pushable (grad_tensor b) = true) (gr_buckets g) -> names_free (w_bc w) (gr_buckets g) ->
  let h := bs_last_handle (bc_bps (w_bc w)) in
  exists s', start_grad_sync env ps i w =
      (Ok tt, mkWorld (alter (set_reduce (Some (HBps (push_handles h (gr_buckets g))))) i (w_groups w)) s'
                (w_log w ++ scale_events (gr_buckets g)) (w_next_cm w)) /\
    ready s' /\
    bs_log (bc_bps s') = bs_log (bc_bps (w_bc w)) ++ push_events h (average_in_collective (gr_cfg g)) (gr_buckets g) /\
    (forall k, k ∈ push_handles h (gr_buckets g) -> is_Some (bs_handle_map (bc_bps s') !! k)) /\
    (forall k, k ∉ push_handles h (gr_buckets g) -> bs_handle_map (bc_bps s') !! k = bs_handle_map (bc_bps (w_bc w)) !! k) /\
    bs_last_handle (bc_bps s') = h + Z.of_nat (length (gr_buckets g)) /\
    (forall nm, default n (bc_declared (w_bc w) !! nm) = n -> default n (bc_declared s' !! nm) = n).
Proof.
  intros Hi [Hc Ho Hd Hdo Hni Hnan Hlg] Hh Hr Hp Hf h.
  destruct (push_all_ok (average_in_collective (gr_cfg g)) (gr_buckets g)
    (mkWorld (w_groups w) (w_bc w) (w_log w ++ scale_events (gr_buckets g)) (w_next_cm w)) Hr Hp Hf)
    as (s' & E & R & G & H1 & H2 & H3 & H4 & H5). cbn [w_bc] in *. fold h in E, G, H1, H2, H3, H4.
  exists s'. split; [|split_and!; try done].
  - unfold start_grad_sync. erewrite bind_step by (by apply self_ok). cbn zeta. rewrite Hh, Ho, Hd, Hdo, Hni, Hnan, Hlg, Hc.
    erewrite bind_step by reflexivity. erewrite bind_step by reflexivity. erewrite bind_step by apply scale_buckets_ok.
    erewrite bind_step by reflexivity. cbn [negb andb Z.eqb Z.ltb Z.compare Pos.compare Pos.compare_cont Pos.eqb].
    erewrite bind_step by exact E. reflexivity.
  - intros k Hk. unfold push_handles in Hk. rewrite elem_of_zrange in Hk.
    destruct (Z.le_gt_cases k h); [by apply H1|apply H3; lia].
Qed.


Lemma alter_same {A} (f : A -> A) (i : nat) (l : list A) x : l !! i = Some x -> f x = x -> alter f i l = l.
Proof. intros Hi Hf. apply list_eq. intros j. destruct (decide (i = j)) as [<-|]; [by rewrite list_lookup_alter_eq, Hi; cbn; rewrite Hf|by rewrite list_lookup_alter_ne]. Qed.

(** The world with the gradients of [ready] registered in group [i]. *)
Definition registered (w : world PG) (i : nat) (ready : gset Z) : world PG :=
  mkWorld (alter (set_ready ready true) i (w_groups w)) (w_bc w) (w_log w) (w_next_cm w).

Lemma registered_group w i g r : w_groups w !! i = Some g -> w_groups (registered w i r) !! i = Some (set_ready r true g).
Proof. intros Hi. cbn. by rewrite list_lookup_alter_eq, Hi. Qed.
Lemma registered_twice w i r r' : registered (registered w i r) i r' = registered w i r'.
Proof. unfold registered. cbn. f_equal. by rewrite list_alter_alter_eq. Qed.

Lemma register_one i g w r p : w_groups w !! i = Some g -> overlapped g -> p ∉ r -> is_Some (gr_param_to_bucket g !! p) ->
  register_grad_ready env ps i p (registered w i r) =
  whenM (bool_decide (size ({[p]} ∪ r) = size (gr_params g))) (start_grad_sync env ps i) (registered w i ({[p]} ∪ r)).
Proof.
  intros Hi Ho Hp [b Hb]. pose proof (registered_group w i g r Hi) as Hg. unfold register_grad_ready.
  erewrite bind_step by (by apply self_ok). cbn [set_ready gr_cfg gr_is_last_microbatch gr_param_to_bucket gr_params_with_grad].
  rewrite (ov_overlap _ Ho), Hb. erewrite bind_step by reflexivity. cbn [whenM]. erewrite bind_step by reflexivity.
  rewrite bool_decide_eq_false_2 by done. erewrite bind_step by reflexivity.
  erewrite bind_step by reflexivity. cbn [registered w_groups w_bc w_log w_next_cm].
  rewrite list_alter_alter_eq.
  change (mkWorld (alter _ i (w_groups w)) (w_bc w) (w_log w) (w_next_cm w)) with (registered w i ({[p]} ∪ r)).
  erewrite bind_step by (apply self_ok, registered_group, Hi). done.
Qed.

(** Registering gradients: nothing is sent before the last one. *)
Lemma register_prefix i g w order : w_groups w !! i = Some g -> overlapped g -> gr_is_last_microbatch g = true ->
  gr_params_with_grad g = ∅ -> NoDup order -> (forall p, p ∈ order -> is_Some (gr_param_to_bucket g !! p)) ->
  (length order < size (gr_params g))%nat ->
  iterM (register_grad_ready env ps i) order w = (Ok tt, registered w i (list_to_set order)).
Proof.
  intros Hi Ho Hl Hr. induction order as [|p order IH] using rev_ind; intros Hnd Hin Hlen.
  - cbn. unfold registered. cbn. rewrite (alter_same _ i (w_groups w) g Hi); [by destruct w|]. destruct g; cbn in *. by subst.
  - rewrite length_app in Hlen. cbn in Hlen. apply NoDup_app in Hnd as (Hnd & Hp & _).
    assert (Hpo : p ∉ order) by (intros Hpo; apply (Hp p Hpo); left).
    rewrite iterM_app. erewrite bind_step by (apply IH; [done|intros q Hq; apply Hin; set_solver|lia]). cbn [iterM].
    assert (Es : list_to_set (order ++ [p]) = ({[p]} ∪ list_to_set order : gset Z)) by (rewrite list_to_set_app_L; set_solver).
    assert (Esz : size (list_to_set (order ++ [p]) : gset Z) = S (length order)).
    { rewrite size_list_to_set by (apply NoDup_app; split_and!; [done|intros q Hq Hq'; set_solver|apply NoDup_singleton]). rewrite length_app. cbn. lia. }
    rewrite Es. erewrite bind_step; [reflexivity|]. rewrite (register_one i g); [|done|done|by rewrite elem_of_list_to_set|apply Hin; set_solver].
    rewrite bool_decide_eq_false_2; [done|]. rewrite <- Es, Esz. lia.
Qed.

(** The last gradient starts the reduction. *)
Lemma register_all_ok i g w order : w_groups w !! i = Some g -> overlapped g -> fresh_group g -> order <> [] -> NoDup order ->
  (forall p, p ∈ order <-> p ∈ gr_params g) -> (forall p, p ∈ order -> is_Some (gr_param_to_bucket g !! p)) ->
  ready (w_bc w) -> Forall (fun b => pushable (grad_tensor b) = true) (gr_buckets g) -> names_free (w_bc w) (gr_buckets g) ->
  let h := bs_last_handle (bc_bps (w_bc w)) in let hs := push_handles h (gr_buckets g) in
  exists s', iterM (register_grad_ready env ps i) order w =
      (Ok tt, mkWorld (alter (set_reduce (Some (HBps hs))) i (w_groups (registered w i (gr_params g)))) s'
                (w_log w ++ scale_events (gr_buckets g)) (w_next_cm w)) /\
    ready s' /\
    bs_log (bc_bps s') = bs_log (bc_bps (w_bc w)) ++ push_events h (average_in_collective (gr_cfg g)) (gr_buckets g) /\
    (forall k, k ∈ hs -> is_Some (bs_handle_map (bc_bps s') !! k)) /\
    (forall k, k ∉ hs -> bs_handle_map (bc_bps s') !! k = bs_handle_map (bc_bps (w_bc w)) !! k).
Proof.
  intros Hi Ho Hfr Hne Hnd Hall Hin Hr Hp Hf h hs. destruct order as [|p order _] using rev_ind; [done|].
  pose proof Hfr as [_ _ F3 F4 F5 _ _].
  assert (Es : ({[p]} ∪ list_to_set order : gset Z) = gr_params g).
  { apply set_eq. intros q. rewrite <- Hall, elem_of_union, elem_of_singleton, elem_of_list_to_set. set_solver. }
  assert (Esz : size (gr_params g) = S (length order)).
  { rewrite <- Es. replace ({[p]} ∪ list_to_set order : gset Z) with (list_to_set (order ++ [p]) : gset Z) by (rewrite list_to_set_app_L; set_solver).
    rewrite size_list_to_set by done. rewrite length_app. cbn. lia. }
  pose proof Hnd as (Hnd' & Hpo & _)%NoDup_app.
  assert (Hni : p ∉ (list_to_set order : gset Z)). { rewrite elem_of_list_to_set. intros Hpin. apply (Hpo p Hpin). left. }
  destruct (start_grad_sync_ok i (set_ready (gr_params g) true g) (registered w i (gr_params g))) as (s' & E & R & G & H1 & H2 & _); try done.
  { by apply registered_group. } { by destruct Ho. }
  exists s'. split; [|by split_and!]. rewrite iterM_app.
  erewrite bind_step by (apply (register_prefix i g); [done..|intros q Hq; apply Hin; set_solver|lia]). cbn [iterM].
  erewrite bind_step; [reflexivity|]. rewrite (register_one i g); [|done|done|done|apply Hin; set_solver].
  rewrite Es, bool_decide_eq_true_2 by done. exact E.
Qed.

(** The wait at the end of the backward pass. *)
Lemma finish_grad_sync_ok i g w hs : w_groups w !! i = Some g -> overlapped g -> gr_reduce_handle g = Some (HBps hs) ->
  ready (w_bc w) -> NoDup hs -> Forall (fun h => is_Some (bs_handle_map (bc_bps (w_bc w)) !! h)) hs ->
  exists w', finish_grad_sync env ps i w = (Ok tt, w') /\
    w_groups w' = alter (fun g => set_reduce None (set_gather (gr_gather_handle g) false g)) i (w_groups w) /\
    w_log w' = w_log w /\ ready (w_bc w') /\
    bs_log (bc_bps (w_bc w')) = bs_log (bc_bps (w_bc w)) ++ map EvWait hs /\
    (forall k, bs_handle_map (bc_bps (w_bc w')) !! k = if bool_decide (k ∈ hs) then None else bs_handle_map (bc_bps (w_bc w)) !! k) /\
    bc_declared (w_bc w') = bc_declared (w_bc w).
Proof.
  intros Hi [Hc Ho Hd Hdo Hni Hnan Hlg] Hh Hr Hnd Hs.
  set (w1 := mkWorld (alter (fun g => set_gather (gr_gather_handle g) false g) i (w_groups w)) (w_bc w) (w_log w) (w_next_cm w)).
  destruct (sync_all_ok hs w1 Hr Hnd Hs) as (s' & E & R & D & G & M).
  eexists. split.
  - unfold finish_grad_sync. erewrite bind_step by reflexivity. fold w1.
    erewrite bind_step by (apply self_ok; cbn; by rewrite list_lookup_alter_eq, Hi). cbn [set_gather gr_cfg gr_reduce_handle].
    cbn zeta. rewrite Ho, Hni, Hd, Hh. cbn [negb Z.ltb Z.compare Pos.compare Pos.compare_cont]. erewrite bind_step by exact E. reflexivity.
  - cbn. split_and!; try done. by rewrite list_alter_alter_eq.
Qed.
End Byteps.

Lemma group_param_to_bucket_mem bs p : p ∈ group_param_ids bs -> is_Some (group_param_to_bucket bs !! p).
Proof.
  unfold group_param_to_bucket, group_param_ids.
  assert (Hin : forall (b : bucket) l (m : gmap Z bucket), p ∈ map p_id l \/ is_Some (m !! p) ->
    is_Some (fold_left (fun m q => <[p_id q := b]> m) l m !! p)).
  { intros b l. induction l as [|q l IH]; intros m; cbn; [set_solver|]. rewrite elem_of_cons. intros [[->|Hp]|Hm]; apply IH.
    - right. rewrite lookup_insert_eq. by eexists.
    - by left.
    - right. destruct (decide (p_id q = p)) as [->|]; [rewrite lookup_insert_eq; by eexists|by rewrite lookup_insert_ne]. }
  assert (Hout : forall bs (m : gmap Z bucket), p ∈ concat (map (fun b => map p_id (b_params b)) bs) \/ is_Some (m !! p) ->
    is_Some (fold_left (fun (m : gmap Z bucket) b => fold_left (fun (m : gmap Z bucket) q => <[p_id q := b]> m) (b_params b) m) bs m !! p)).
  { clear bs. intros bs. induction bs as [|b bs IH]; intros m; cbn; [set_solver|]. rewrite elem_of_app. intros [[Hp|Hp]|Hm]; apply IH; auto. }
  auto.
Qed.


(* ================================================================== *)
(** ** Sharded collectives                                             *)
(* ================================================================== *)

(** A shard cache of a group: a field that can be read and written, and is
    independent of the group's size and rank. *)
Class ShardCache {PG} (cache : group PG -> list (option (list (Z * Z))))
    (store : list (option (list (Z * Z))) -> group PG -> group PG) : Prop := {
  sc_get : forall c g, cache (store c g) = c;
  sc_set : forall g, store (cache g) g = g;
  sc_twice : forall c c' g, store c (store c' g) = store c g;
  sc_size : forall c g, gr_size (store c g) = gr_size g;
  sc_rank : forall c g, gr_rank (store c g) = gr_rank g
}.

#[export] Instance param_cache {PG} : ShardCache (@gr_cached_param PG) set_cached_param.
Proof. by split; try done; intros []. Qed.
#[export] Instance grad_cache {PG} : ShardCache (@gr_cached_grad PG) set_cached_grad.
Proof. by split; try done; intros []. Qed.

Section Shards.
Context {PG : Type} `{SC : !ShardCache (PG := PG) cache store} (dp rank : Z) (Hdp : 0 < dp) (Hrank : 0 <= rank < dp).

(** This rank's part of [n] elements. *)
Definition own_shard (n : Z) : Z * Z := (rank * (n / dp), (rank + 1) * (n / dp)).

(** What the cache holds was computed from the buckets. *)
Definition cache_valid (numels : list Z) (c : list (option (list (Z * Z)))) : Prop :=
  length c = length numels /\
  forall k sh, c !! k = Some (Some sh) -> exists n, numels !! k = Some n /\ shard_buffer n dp = Ok sh.

Lemma own_shard_lookup n sh : 0 <= n -> (dp | n) -> shard_buffer n dp = Ok sh -> py_get sh rank = Ok (own_shard n).
Proof.
  intros Hn [k ->]. unfold shard_buffer. rewrite pymod_ok by lia. rewrite Z.mod_mul by lia. cbn [mbind res_bind Z.eqb assert_].
  rewrite floordiv_ok by lia. cbn [mbind res_bind]. intros [= <-].
  replace rank with (Z.of_nat (Z.to_nat rank)) at 1 by lia. apply py_get_nonneg. rewrite list_lookup_fmap, lookup_zrange by lia.
  unfold own_shard. cbn [fmap option_fmap option_map]. rewrite Z.div_mul by lia. rewrite Z2Nat.id by lia. done.
Qed.

Lemma cached_shard_ok numels n (i k : nat) g (w : world PG) : w_groups w !! i = Some g -> gr_size g = dp -> gr_rank g = rank ->
  cache_valid numels (cache g) -> numels !! k = Some n -> 0 <= n -> (dp | n) ->
  exists c', cached_shard cache store (Ok n) i k w =
      (Ok (own_shard n), mkWorld (alter (store c') i (w_groups w)) (w_bc w) (w_log w) (w_next_cm w)) /\ cache_valid numels c'.
Proof.
  intros Hi Hsz Hrk [Hl Hc] Hk Hn Hdiv. unfold cached_shard. erewrite bind_step by (unfold self; by rewrite Hi).
  destruct (lookup_lt_is_Some_2 (cache g) k) as [o Ho]; [rewrite Hl; by eapply lookup_lt_Some|].
  erewrite bind_step by (rewrite (py_get_nonneg _ _ _ Ho); reflexivity). destruct o as [sh|].
  - destruct (Hc k sh Ho) as (n' & Hn' & Hsh). rewrite Hk in Hn'. injection Hn' as <-. erewrite bind_step by reflexivity.
    exists (cache g). split; [|done]. rewrite Hrk, (own_shard_lookup n sh Hn Hdiv Hsh). unfold liftM. f_equal.
    rewrite (alter_same _ i (w_groups w) g Hi) by apply sc_set. by destruct w.
  - destruct (shard_buffer_aux n dp Hdp Hn Hdiv) as (sh & Hsh & _). exists (<[k := Some sh]> (cache g)). split.
    + erewrite bind_step.
      2: { erewrite bind_step by reflexivity. rewrite Hsz, Hsh. erewrite bind_step by reflexivity. erewrite bind_step by reflexivity. reflexivity. }
      rewrite Hrk, (own_shard_lookup n sh Hn Hdiv Hsh). unfold liftM. do 2 f_equal. apply list_alter_ext; [|done].
      intros g' Hg'. rewrite Hi in Hg'. by injection Hg' as <-.
    + split; [by rewrite length_insert|]. intros k' sh' Hk'. destruct (decide (k' = k)) as [->|Hne].
      * rewrite list_lookup_insert_eq in Hk' by (by eapply lookup_lt_Some). injection Hk' as <-. eauto.
      * rewrite list_lookup_insert_ne in Hk' by done. eauto.
Qed.

(** The loop over the buckets: one event per bucket, for this rank's shard. *)
Lemma shard_loop_ok (numel : bucket -> res Z) (nm : bucket -> Z) (ev : bucket -> Z * Z -> comm_event) all bs (i k0 : nat) (w : world PG) g :
  Forall (fun b => numel b = Ok (nm b) /\ 0 <= nm b /\ (dp | nm b)) all -> drop k0 all = bs ->
  w_groups w !! i = Some g -> gr_size g = dp -> gr_rank g = rank -> cache_valid (map nm all) (cache g) ->
  exists c', iterM (fun '(k, b) => shard ← cached_shard cache store (numel b) i k; emit (ev b shard)) (imap (fun k b => ((k0 + k)%nat, b)) bs) w =
      (Ok tt, mkWorld (alter (store c') i (w_groups w)) (w_bc w) (w_log w ++ map (fun b => ev b (own_shard (nm b))) bs) (w_next_cm w)) /\
    cache_valid (map nm all) c'.
Proof.
  intros Hall. revert k0 w g. induction bs as [|b bs IH]; intros k0 w g Hd Hi Hsz Hrk Hc.
  - exists (cache g). cbn. split; [|done]. rewrite app_nil_r, (alter_same _ i (w_groups w) g Hi) by apply sc_set. by destruct w.
  - assert (Hk : all !! k0 = Some b). { rewrite <- (Nat.add_0_r k0), <- lookup_drop, Hd. done. }
    rewrite Forall_lookup in Hall. destruct (Hall k0 b Hk) as (Hb & Hb0 & Hb1).
    destruct (cached_shard_ok (map nm all) (nm b) i k0 g w Hi Hsz Hrk Hc) as (c1 & E1 & V1); [by rewrite list_lookup_fmap, Hk|done|done|].
    set (w1 := mkWorld (alter (store c1) i (w_groups w)) (w_bc w) (w_log w ++ [ev b (own_shard (nm b))]) (w_next_cm w)).
    destruct (IH (S k0) w1 (store c1 g)) as (c2 & E2 & V2).
    { replace (S k0) with (k0 + 1)%nat by lia. rewrite <- drop_drop, Hd. done. }
    { cbn. by rewrite list_lookup_alter_eq, Hi. } { by rewrite sc_size. } { by rewrite sc_rank. } { by rewrite sc_get. }
    exists c2. split; [|done]. rewrite imap_cons. cbn [iterM]. rewrite Nat.add_0_r. erewrite bind_step.
    2: { rewrite Hb. erewrite bind_step by exact E1. reflexivity. }
    assert (Ei : imap ((fun k b => ((k0 + k)%nat, b)) ∘ S) bs = imap (fun k b => ((S k0 + k)%nat, b)) bs)
      by (apply imap_ext; intros; cbn; f_equal; lia).
    rewrite Ei. etransitivity; [exact E2|]. unfold w1. cbn. rewrite <- app_assoc, list_alter_alter_eq. do 2 f_equal. apply list_alter_ext; [|done].
    intros g' _. cbn. apply sc_twice.
Qed.
End Shards.

Section DistOpt.
Context {PG : Type} `{PGI : !ProcessGroup PG} `{GV : !GradValidation} `{GT : !GradTensors} (env : dist_env) (ps : pstate PG).

(** A group of a distributed optimizer whose buckets can be sharded over it. *)
Record sharded (g : group PG) : Prop := {
  sh_distopt : use_distributed_optimizer (gr_cfg g) = true;
  sh_size : 0 < gr_size g;
  sh_rank : 0 <= gr_rank g < gr_size g;
  sh_grad : Forall (fun b => 0 <= view_numel (b_grad_data b) /\ (gr_size g | view_numel (b_grad_data b))) (gr_buckets g);
  sh_param : Forall (fun b => exists v, b_param_data b = Some v /\ view_numel v = view_numel (b_grad_data b)) (gr_buckets g);
  sh_cached_grad : cache_valid (gr_size g) (map (fun b => view_numel (b_grad_data b)) (gr_buckets g)) (gr_cached_grad g);
  sh_cached_param : cache_valid (gr_size g) (map (fun b => view_numel (b_grad_data b)) (gr_buckets g)) (gr_cached_param g)
}.

(** This rank's shard of a bucket. *)
Definition bucket_shard (g : group PG) (b : bucket) : Z * Z := own_shard (gr_size g) (gr_rank g) (view_numel (b_grad_data b)).

Lemma cache_valid_fresh dp numels : cache_valid dp numels (replicate (length numels) None).
Proof. split; [apply length_replicate|]. intros k sh. rewrite lookup_replicate. naive_solver. Qed.

Lemma start_reduce_scatter i g w : w_groups w !! i = Some g -> sharded g -> num_instances (gr_cfg g) = 1 ->
  check_for_nan_in_grad (gr_cfg g) = false -> check_for_large_grads (gr_cfg g) = false -> gr_reduce_handle g = None ->
  let op := if average_in_collective (gr_cfg g) then AVG else SUM in
  let async := overlap_grad_reduce (gr_cfg g) in
  exists c, start_grad_sync env ps i w =
    (Ok tt, mkWorld (alter (fun g => set_reduce (if async then Some (HCm (w_next_cm w)) else None) (set_cached_grad c g)) i (w_groups w)) (w_bc w)
      (w_log w ++ scale_events (gr_buckets g) ++ map (fun b => EvReduceScatter b (bucket_shard g b) op async) (gr_buckets g)
         ++ [EvCoalesced (w_next_cm w) async]) (w_next_cm w + 1)) /\
    cache_valid (gr_size g) (map (fun b => view_numel (b_grad_data b)) (gr_buckets g)) c.
Proof.
  intros Hi [Hd Hsz Hrk Hg Hp Hcg Hcp] Hni Hnan Hlg Hh op async.
  set (w1 := mkWorld (w_groups w) (w_bc w) (w_log w ++ scale_events (gr_buckets g)) (w_next_cm w)).
  destruct (shard_loop_ok (cache := gr_cached_grad) (store := set_cached_grad) (gr_size g) (gr_rank g) Hsz Hrk
    (fun b => mret (view_numel (b_grad_data b))) (fun b => view_numel (b_grad_data b)) (fun b sh => EvReduceScatter b sh op async)
    (gr_buckets g) (gr_buckets g) i 0 w1 g) as (c & E & V); try done.
  { eapply Forall_impl; [exact Hg|]. cbn. intros b Hb. by split. }
  exists c. split; [|done]. unfold start_grad_sync. erewrite bind_step by (unfold self; by rewrite Hi). cbn zeta.
  rewrite Hh, Hd, Hni, Hnan, Hlg. erewrite bind_step by reflexivity. erewrite bind_step by reflexivity.
  erewrite bind_step by apply scale_buckets_ok. fold w1. erewrite bind_step by reflexivity. cbn [negb andb].
  rewrite andb_true_r. fold async. fold op. erewrite bind_step.
  2: { unfold coalescing. erewrite bind_step by exact E. erewrite bind_step by reflexivity. erewrite bind_step by reflexivity. reflexivity. }
  cbn [Z.ltb Z.compare Pos.compare Pos.compare_cont]. erewrite bind_step by reflexivity. unfold assign_self, modM. cbn.
  rewrite list_alter_alter_eq, <- !app_assoc. done.
Qed.

(** All-gather of the parameters of one group. *)
Definition gather_events (g : group PG) (async : bool) (cm : Z) : list comm_event :=
  map (fun b => EvAllGather b (bucket_shard g b) async) (gr_buckets g) ++ [EvCoalesced cm async].

Lemma start_param_sync_ok i g w : w_groups w !! i = Some g -> sharded g -> gr_gather_handle g = None ->
  let async := overlap_param_gather (gr_cfg g) in
  exists c, start_param_sync i false w =
    (Ok tt, mkWorld (alter (fun g => set_gather (if async then Some (w_next_cm w) else None) true (set_cached_param c g)) i (w_groups w))
      (w_bc w) (w_log w ++ gather_events g async (w_next_cm w)) (w_next_cm w + 1)) /\
    cache_valid (gr_size g) (map (fun b => view_numel (b_grad_data b)) (gr_buckets g)) c.
Proof.
  intros Hi [Hd Hsz Hrk Hg Hp Hcg Hcp] Hh async.
  destruct (shard_loop_ok (cache := gr_cached_param) (store := set_cached_param) (gr_size g) (gr_rank g) Hsz Hrk
    param_data_numel (fun b => view_numel (b_grad_data b)) (fun b sh => EvAllGather b sh async)
    (gr_buckets g) (gr_buckets g) i 0 w g) as (c & E & V); try done.
  { rewrite Forall_forall in Hg, Hp |- *. intros b Hb. split; [|by apply Hg].
    unfold param_data_numel. destruct (Hp b Hb) as (v & -> & <-). done. }
  exists c. split; [|done]. unfold start_param_sync. erewrite bind_step by (unfold self; by rewrite Hi).
  rewrite Hd. erewrite bind_step by reflexivity. cbn zeta iota. rewrite Hh. erewrite bind_step by reflexivity.
  cbn [negb]. rewrite andb_true_r. fold async. erewrite bind_step.
  2: { unfold coalescing. erewrite bind_step by exact E. erewrite bind_step by reflexivity. erewrite bind_step by reflexivity. reflexivity. }
  unfold assign_self, modM. cbn. unfold gather_events. rewrite list_alter_alter_eq, <- !app_assoc. done.
Qed.
End DistOpt.

(** [finish_param_sync] of a group whose all-gather was not dispatched yet, with the gather of the next group not dispatched either:
    it gathers this rank's shard of every bucket of the group, waits for that call, then dispatches the all-gather
    of the next group and leaves it outstanding.  A second call changes nothing. *)
Theorem finish_param_sync_spec {PG} `{!ProcessGroup PG} i j (g gj : group PG) w :
  w_groups w !! i = Some g -> w_groups w !! j = Some gj -> j <> i -> gr_next g = Some j ->
  sharded g -> sharded gj -> overlap_param_gather (gr_cfg g) = true -> overlap_param_gather (gr_cfg gj) = true ->
  reuse_grad_buf_for_mxfp8_param_ag (gr_cfg g) = false ->
  gr_gather_handle g = None -> gr_gather_dispatched g = false -> gr_gather_handle gj = None -> gr_gather_dispatched gj = false ->
  let cm := w_next_cm w in
  exists w1, finish_param_sync i false w = (Ok tt, w1) /\
    w_log w1 = w_log w ++ gather_events g true cm ++ [EvWaitCm cm] ++ gather_events gj true (cm + 1) /\
    gr_gather_handle <$> w_groups w1 !! i = Some None /\ gr_gather_handle <$> w_groups w1 !! j = Some (Some (cm + 1)) /\
    finish_param_sync i false w1 = (Ok tt, w1).
Proof.
  intros Hi Hj Hij Hnext Hs Hsj Ho Hoj Hre Hh Hdi Hhj Hdj cm.
  destruct (start_param_sync_ok i g w Hi Hs Hh) as (c & E & V). rewrite Ho in E. fold cm in E.
  set (g1 := set_gather (Some cm) true (set_cached_param c g)). set (w1 := mkWorld _ _ _ _) in E.
  assert (Hi1 : w_groups w1 !! i = Some g1) by (cbn; by rewrite list_lookup_alter_eq, Hi).
  set (w2 := mkWorld (alter (set_gather None true) i (w_groups w1)) (w_bc w1) (w_log w1 ++ [EvWaitCm cm]) (w_next_cm w1)).
  assert (Hj2 : w_groups w2 !! j = Some gj) by (cbn; by rewrite !list_lookup_alter_ne).
  destruct (start_param_sync_ok j gj w2 Hj2 Hsj Hhj) as (cj & Ej & Vj). rewrite Hoj in Ej. set (w3 := mkWorld _ _ _ _) in Ej.
  assert (Hi3 : w_groups w3 !! i = Some (set_gather None true g1)).
  { cbn. rewrite list_lookup_alter_ne by done. by rewrite !list_lookup_alter_eq, Hi. }
  exists w3. split_and!.
  - unfold finish_param_sync. erewrite bind_step by (unfold self; by rewrite Hi). rewrite (sh_distopt _ Hs), Ho.
    erewrite bind_step by reflexivity. erewrite bind_step by reflexivity. rewrite Hdi. cbn [negb whenM].
    erewrite bind_step by exact E. erewrite bind_step by (unfold self; by rewrite Hi1).
    change (gr_gather_handle g1) with (Some cm). change (gr_next g1) with (gr_next g). change (gr_cfg g1) with (gr_cfg g).
    cbv beta iota. erewrite bind_step by reflexivity. erewrite bind_step by reflexivity. rewrite Hnext, Ho, Hre.
    change (mkWorld _ _ _ _) with w2. cbn [negb whenM]. erewrite bind_step.
    2: { erewrite bind_step by (unfold self; by rewrite Hj2). rewrite Hdj. exact Ej. }
    done.
  - cbn. by rewrite <- !app_assoc.
  - by rewrite Hi3.
  - cbn. by rewrite list_lookup_alter_eq, !list_lookup_alter_ne, Hj.
  - unfold finish_param_sync. erewrite bind_step by (unfold self; by rewrite Hi3). cbn [g1 set_gather set_cached_param gr_cfg gr_gather_dispatched].
    rewrite (sh_distopt _ Hs), Ho. erewrite bind_step by reflexivity. erewrite bind_step by reflexivity. erewrite bind_step by reflexivity.
    erewrite bind_step by (unfold self; by rewrite Hi3). done.
Qed.

(** With a distributed optimizer the gradients are reduce-scattered: after scaling, one reduce-scatter per bucket,
    in order, into this rank's shard, in one coalesced call that stays outstanding exactly when
    gradient reduction is overlapped; BytePS is not involved, even with [use_dpu_reduce]. *)
Theorem reduce_scatter_spec {PG} `{!ProcessGroup PG} `{!GradValidation} `{!GradTensors} env (ps : pstate PG) i g w :
  w_groups w !! i = Some g -> sharded g -> num_instances (gr_cfg g) = 1 ->
  check_for_nan_in_grad (gr_cfg g) = false -> check_for_large_grads (gr_cfg g) = false -> gr_reduce_handle g = None ->
  let op := if average_in_collective (gr_cfg g) then AVG else SUM in
  let async := overlap_grad_reduce (gr_cfg g) in
  exists w1 g1, start_grad_sync env ps i w = (Ok tt, w1) /\ w_bc w1 = w_bc w /\
    w_log w1 = w_log w ++ scale_events (gr_buckets g) ++ map (fun b => EvReduceScatter b (bucket_shard g b) op async) (gr_buckets g)
               ++ [EvCoalesced (w_next_cm w) async] /\
    w_groups w1 !! i = Some g1 /\ gr_reduce_handle g1 = (if async then Some (HCm (w_next_cm w)) else None) /\ sharded g1 /\
    (forall j, j <> i -> w_groups w1 !! j = w_groups w !! j).
Proof.
  intros Hi Hs Hni Hnan Hlg Hh op async. destruct (start_reduce_scatter env ps i g w Hi Hs Hni Hnan Hlg Hh) as (c & E & V).
  eexists _, (set_reduce (if async then Some (HCm (w_next_cm w)) else None) (set_cached_grad c g)). split; [exact E|].
  cbn. split_and!; try done.
  - by rewrite list_lookup_alter_eq, Hi.
  - by destruct Hs.
  - intros j Hj. by rewrite list_lookup_alter_ne.
Qed.

(** Overlapped reduction with both [use_dpu_reduce] and the distributed optimizer cannot finish: [start_grad_sync] takes the
    path of the distributed optimizer and leaves a coalescing manager, and [finish_grad_sync] iterates over it as over a
    list of BytePS handles, which raises [TypeError]; the reduction is never waited for. *)
Theorem dpu_distopt_finish_raises {PG} `{!ProcessGroup PG} `{!GradValidation} `{!GradTensors} env (ps : pstate PG) i g w :
  w_groups w !! i = Some g -> sharded g -> num_instances (gr_cfg g) = 1 ->
  check_for_nan_in_grad (gr_cfg g) = false -> check_for_large_grads (gr_cfg g) = false -> gr_reduce_handle g = None ->
  use_dpu_reduce (gr_cfg g) = true -> overlap_grad_reduce (gr_cfg g) = true ->
  exists w1 w2, start_grad_sync env ps i w = (Ok tt, w1) /\
    finish_grad_sync env ps i w1 = (raise_ TypeError "'_CoalescingManager' object is not iterable", w2) /\ w_log w2 = w_log w1.
Proof.
  intros Hi Hs Hni Hnan Hlg Hh Hdpu Hov. destruct (start_reduce_scatter env ps i g w Hi Hs Hni Hnan Hlg Hh) as (c & E & V).
  rewrite Hov in E. eexists _, _. split; [exact E|]. split.
  - unfold finish_grad_sync. erewrite bind_step by reflexivity.
    erewrite bind_step by (apply self_ok; cbn; by rewrite !list_lookup_alter_eq, Hi).
    cbn [set_gather set_reduce set_cached_grad gr_cfg gr_reduce_handle]. rewrite Hov, Hni, Hdpu. reflexivity.
  - done.
Qed.

(** [register_grad_ready] outside its protocol: without overlapped reduction, for a parameter of another group, or for
    a second gradient of one parameter it raises [AssertionError], and before the last microbatch it does
    nothing; in all these cases no state changes and nothing is sent. *)
Theorem register_grad_ready_guards {PG} `{!ProcessGroup PG} `{!GradValidation} `{!GradTensors} env (ps : pstate PG) i g w p :
  w_groups w !! i = Some g ->
  (overlap_grad_reduce (gr_cfg g) = false -> register_grad_ready env ps i p w =
     (raise_ AssertionError "register_grad_ready() should only be called when overlap_grad_reduce is True", w)) /\
  (overlap_grad_reduce (gr_cfg g) = true ->
   (gr_is_last_microbatch g = false -> register_grad_ready env ps i p w = (Ok tt, w)) /\
   (gr_is_last_microbatch g = true ->
    (gr_param_to_bucket g !! p = None -> register_grad_ready env ps i p w = (raise_ AssertionError "Param is not in the bucket group", w)) /\
    (is_Some (gr_param_to_bucket g !! p) -> p ∈ gr_params_with_grad g ->
     register_grad_ready env ps i p w = (raise_ AssertionError "Cannot set grad twice", w)))).
Proof.
  intros Hi. unfold register_grad_ready. rewrite (bind_step _ _ _ _ _ (self_ok i g w Hi)). split; [|intros Ho; split; [|intros Hl; split]].
  - intros ->. done.
  - intros Hl. by rewrite Ho, Hl.
  - intros Hp. by rewrite Ho, Hl, Hp.
  - intros [b Hb] Hp. rewrite Ho, Hl, Hb. cbn. rewrite bool_decide_eq_true_2 by done. done.
Qed.

(* ================================================================== *)
(** ** A concrete group                                                *)
(* ================================================================== *)

(** No validation error; gradients are float tensors on the GPU. *)
#[local] Instance no_errors : GradValidation := fun _ _ _ => Ok tt.
#[local] Instance float_grads : GradTensors := fun b => mkTensor (b_offset b) "torch.cuda.FloatTensor" [view_numel (b_grad_data b)] true.

#[export] Instance nccl_options_eq_dec : EqDecision nccl_options.
Proof. solve_decision. Defined.
#[export] Instance new_group_kwargs_eq_dec : EqDecision new_group_kwargs.
Proof. solve_decision. Defined.

(** BytePS reduction, overlapped with the backward pass; the second also with a distributed optimizer. *)
Definition dpu_cfg : ddp_config :=
  mkDdp true true true false false false 1 false false (Some 200) false false false false false false.
Definition dpu_distopt_cfg : ddp_config :=
  mkDdp true true true false false true 1 false false (Some 200) false false false false false false.

Definition ex_groups (cfg : ddp_config) : list (group (nat * new_group_kwargs)) :=
  match (bf ← buffer_init cfg BFloat16 Float32 ex_params 2 (Some 200) f64_one;
         partition_buckets (env8 6) [mkDpBuffer bf dp_group6] false) with
  | Ok gs => gs
  | Err _ => []
  end.
Definition ex_world (cfg : ddp_config) : world (nat * new_group_kwargs) := mkWorld (ex_groups cfg) bc_start [] 0.


Lemma register_grad_ready_guards_witness :
  register_grad_ready (env8 6) (run8 6).2 0 7 (ex_world dpu_cfg) = (raise_ AssertionError "Param is not in the bucket group", ex_world dpu_cfg).
Proof.
  destruct (ex_groups dpu_cfg !! 0%nat) as [g|] eqn:Eg; [|vm_compute in Eg; discriminate Eg].
  assert (Hg : g = match ex_groups dpu_cfg !! 0%nat with Some g => g | None => g end) by (by rewrite Eg).
  destruct (register_grad_ready_guards (env8 6) (run8 6).2 0 g (ex_world dpu_cfg) 7 Eg) as [_ H].
  apply H; rewrite Hg; vm_compute; reflexivity.
Defined.

(** The groups of a distributed optimizer are sharded. *)
Lemma ex_sharded cfg (g : group (nat * new_group_kwargs)) : cfg = dpu_distopt_cfg -> ex_groups cfg !! 0%nat = Some g -> sharded g.
Proof.
  intros -> Eg. assert (Hg : g = match ex_groups dpu_distopt_cfg !! 0%nat with Some g => g | None => g end) by (by rewrite Eg). clear Eg.
  rewrite Hg. clear Hg. split; vm_compute.
  - reflexivity.
  - reflexivity.
  - split; [discriminate|reflexivity].
  - repeat constructor; [discriminate|by exists 192].
  - repeat constructor. eexists. split; reflexivity.
  - split; [reflexivity|]. intros [|[|k]] sh; discriminate.
  - split; [reflexivity|]. intros [|[|k]] sh; discriminate.
Qed.

Lemma reduce_scatter_spec_witness : exists w1,
  start_grad_sync (env8 6) (run8 6).2 0 (ex_world dpu_distopt_cfg) = (Ok tt, w1) /\ w_bc w1 = bc_start.
Proof.
  destruct (ex_groups dpu_distopt_cfg !! 0%nat) as [g|] eqn:Eg; [|vm_compute in Eg; discriminate Eg].
  assert (Hg : g = match ex_groups dpu_distopt_cfg !! 0%nat with Some g => g | None => g end) by (by rewrite Eg).
  destruct (reduce_scatter_spec (env8 6) (run8 6).2 0 g (ex_world dpu_distopt_cfg) Eg (ex_sharded _ g eq_refl Eg)) as (w1 & g1 & H1 & H2 & _).
  - rewrite Hg. vm_compute. reflexivity.
  - rewrite Hg. vm_compute. reflexivity.
  - rewrite Hg. vm_compute. reflexivity.
  - rewrite Hg. vm_compute. reflexivity.
  - exists w1. split; [exact H1|exact H2].
Defined.

Lemma dpu_distopt_finish_raises_witness : exists w1 w2,
  start_grad_sync (env8 6) (run8 6).2 0 (ex_world dpu_distopt_cfg) = (Ok tt, w1) /\
  finish_grad_sync (env8 6) (run8 6).2 0 w1 = (raise_ TypeError "'_CoalescingManager' object is not iterable", w2).
Proof.
  destruct (ex_groups dpu_distopt_cfg !! 0%nat) as [g|] eqn:Eg; [|vm_compute in Eg; discriminate Eg].
  assert (Hg : g = match ex_groups dpu_distopt_cfg !! 0%nat with Some g => g | None => g end) by (by rewrite Eg).
  destruct (dpu_distopt_finish_raises (env8 6) (run8 6).2 0 g (ex_world dpu_distopt_cfg) Eg (ex_sharded _ g eq_refl Eg)) as (w1 & w2 & H1 & H2 & _).
  - rewrite Hg. vm_compute. reflexivity.
  - rewrite Hg. vm_compute. reflexivity.
  - rewrite Hg. vm_compute. reflexivity.
  - rewrite Hg. vm_compute. reflexivity.
  - rewrite Hg. vm_compute. reflexivity.
  - rewrite Hg. vm_compute. reflexivity.
  - exists w1, w2. split; [exact H1|exact H2].
Defined.

(** Two groups of one bucket each, the first followed by the second in the order of all-gathers. *)
Definition gather_cfg : ddp_config :=
  mkDdp false true true true false true 1 false false (Some 200) false false false false false false.
Definition gather_group (next : option nat) (p : Z) : group (nat * new_group_kwargs) :=
  let b := mkBucket [mkParam p 128 false false false true] (Some (mkView PARAM 0 128)) (mkView GRAD 0 128) 0 128 f64_one 0 [(p, (0, 128))] in
  mkGroup [b] gather_cfg dp_group6 2 1 {[p := b]} {[p]} next None None ∅ true None false None [None] [None].
Definition gather_world : world (nat * new_group_kwargs) :=
  mkWorld [gather_group None 0; gather_group (Some 0%nat) 1] bc_start [] 0.

Lemma gather_sharded next p : sharded (gather_group next p).
Proof.
  split; cbn; try lia; try done.
  - apply Forall_singleton. vm_compute. split; [discriminate|by exists 64].
  - apply Forall_singleton. cbn. eexists. split; reflexivity.
  - split; [done|]. intros [|[|k]] sh; discriminate.
  - split; [done|]. intros [|[|k]] sh; discriminate.
Qed.

Lemma finish_param_sync_spec_witness : exists w1, finish_param_sync 1 false gather_world = (Ok tt, w1) /\
  finish_param_sync 1 false w1 = (Ok tt, w1).
Proof.
  destruct (finish_param_sync_spec 1 0 (gather_group (Some 0%nat) 1) (gather_group None 0) gather_world) as (w1 & H1 & _ & _ & _ & H2).
  - reflexivity.
  - reflexivity.
  - discriminate.
  - reflexivity.
  - apply gather_sharded.
  - apply gather_sharded.
  - reflexivity.
  - reflexivity.
  - reflexivity.
  - reflexivity.
  - reflexivity.
  - reflexivity.
  - reflexivity.
  - exists w1. split; [exact H1|exact H2].
Defined.

(** A buffer of fp8 parameters and one of bfloat16 parameters. *)
Definition ex_buffers : list (dp_buffer (nat * new_group_kwargs)) :=
  match (bf1 ← buffer_init dpu_cfg UInt8 Float32 ex_params 2 (Some 200) f64_one;
         bf2 ← buffer_init dpu_cfg BFloat16 Float32 aligned_params 2 (Some 200) f64_one;
         mret [mkDpBuffer bf1 dp_group6; mkDpBuffer bf2 dp_group6]) with
  | Ok l => l
  | Err _ => []
  end.

Lemma partition_buckets_spec_witness : exists gs, partition_buckets (env8 6) ex_buffers false = Ok gs /\
  concat (map gr_buckets gs) ≡ₚ concat (map (fun b => bf_buckets (db_buffer b)) ex_buffers).
Proof.
  destruct (partition_buckets_spec (env8 6) ex_buffers false) as (gs & H1 & H2 & _).
  - apply (bool_decide_unpack _). vm_compute. exact I.
  - assert (Hone : is_one dp_group6) by (eexists; vm_compute; reflexivity).
    destruct ex_buffers as [|b1 [|b2 [|b3 l]]] eqn:E; try (vm_compute in E; discriminate E).
    assert (H12 : db_group b1 = dp_group6 /\ db_group b2 = dp_group6 /\ bf_buckets (db_buffer b1) <> [] /\ bf_buckets (db_buffer b2) <> []).
    { vm_compute in E. injection E as <- <-. split_and!; [vm_compute; reflexivity|vm_compute; reflexivity|discriminate|discriminate]. }
    destruct H12 as (E1 & E2 & N1 & N2). repeat constructor; rewrite ?E1, ?E2; assumption.
  - discriminate.
  - exists gs. split; [exact H1|exact H2].
Defined.

(* ================================================================== *)
(** ** Bucket names across buffers                                     *)
(* ================================================================== *)

(** The bucket number restarts in every buffer. *)
Lemma bucket_id_position cfg pd gd params dp bsz scaling bf k b : acceptable cfg dp params ->
  buffer_init cfg pd gd params dp bsz scaling = Ok bf -> bf_buckets bf !! k = Some b -> b_id b = Z.of_nat k.
Proof.
  intros Ha Hok Hk. destruct (buffer_init_aux cfg pd gd params dp bsz scaling Ha)
    as (bf' & es & unp & nun & idx & imap & pn & numel & Hbf & _ & _ & _ & _ & _ & _ & M).
  rewrite Hok in Hbf. injection Hbf as <-. destruct (mp_buckets _ _ _ _ _ _ _ _ _ _ _ _ _ _ _ _ M k b Hk) as (x & w & n & _ & _ & ->). done.
Qed.

(** (C32) BytePS names do not tell buffers apart: the [k]-th buckets of any two buffers of a rank (two parameter
    dtypes, dense and expert parameters, two model chunks) have one name.  When the two buffers are
    reduced over groups of different sizes, starting the second reduction raises [RuntimeError]. *)
Theorem bucket_names_collide {PG} `{!ProcessGroup PG} `{!GradTensors} env (ps : pstate PG) tp pp
    cfg1 pd1 gd1 params1 dp1 bsz1 sc1 bf1 b1 cfg2 pd2 gd2 params2 dp2 bsz2 sc2 bf2 b2 k :
  acceptable cfg1 dp1 params1 -> acceptable cfg2 dp2 params2 ->
  buffer_init cfg1 pd1 gd1 params1 dp1 bsz1 sc1 = Ok bf1 -> buffer_init cfg2 pd2 gd2 params2 dp2 bsz2 sc2 = Ok bf2 ->
  bf_buckets bf1 !! k = Some b1 -> bf_buckets bf2 !! k = Some b2 ->
  get_tensor_model_parallel_rank env ps = Ok tp -> get_pipeline_model_parallel_rank env ps = Ok pp ->
  build_byteps_group_name env ps "dp" (bucket_logical_name b1) = build_byteps_group_name env ps "dp" (bucket_logical_name b2) /\
  forall g1 g2 n1 n2 average s, call_size (Some g1) = Ok n1 -> call_size (Some g2) = Ok n2 -> 0 < n1 -> 0 < n2 -> n1 <> n2 ->
    ready s -> pushable (grad_tensor b1) = true -> names_free n1 tp pp s [b1] ->
    exists h s1, byteps_allreduce_async_inplace env ps (grad_tensor b1) (Some g1) "dp" (bucket_logical_name b1) average 0 0 s = (Ok h, s1) /\
      byteps_allreduce_async_inplace env ps (grad_tensor b2) (Some g2) "dp" (bucket_logical_name b2) average 0 0 s1
      = (raise_ RuntimeError "was declared with inconsistent group size", s1).
Proof.
  intros A1 A2 B1 B2 K1 K2 Htp Hpp.
  assert (E : bucket_logical_name b1 = bucket_logical_name b2).
  { unfold bucket_logical_name. by rewrite (bucket_id_position _ _ _ _ _ _ _ _ _ _ A1 B1 K1), (bucket_id_position _ _ _ _ _ _ _ _ _ _ A2 B2 K2). }
  split; [by rewrite E|]. intros g1 g2 n1 n2 average s S1 S2 P1 P2 Hne Hr Hp Hf. inversion Hf as [|? ? Hf1 _]; subst.
  destruct (allreduce_async_ok env ps g1 n1 tp pp S1 P1 Htp Hpp s b1 average Hr Hp Hf1) as (s1 & E1 & R1 & D1 & _).
  eexists _, s1. split; [exact E1|]. apply bind_raise.
  apply (declare_group_conflict env ps s1 g2 "dp" (bucket_logical_name b2) n2 n1 (bucket_name tp pp b2)); try done.
  - apply R1.
  - by apply bucket_name_built.
  - rewrite D1. unfold bucket_name. rewrite E. apply lookup_insert_eq.
Qed.

Lemma bucket_names_collide_witness : exists b1 b2,
  build_byteps_group_name (env8 6) (run8 6).2 "dp" (bucket_logical_name b1) = build_byteps_group_name (env8 6) (run8 6).2 "dp" (bucket_logical_name b2) /\
  map p_id (b_params b1) = [3; 2] /\ map p_id (b_params b2) = [1; 0].
Proof.
  assert (Ha : acceptable dpu_cfg 2 aligned_params).
  { split; [lia|done| | | |vm_compute; done]; try (repeat constructor; cbn; auto; lia). apply (bool_decide_unpack _). vm_compute. exact I. }
  assert (He : acceptable dpu_cfg 2 ex_params).
  { split; [lia|done| |apply (ac_distinct _ _ _ ex_acceptable)| |vm_compute; done]; repeat constructor; cbn; auto; lia. }
  destruct (buffer_init dpu_cfg BFloat16 Float32 ex_params 2 (Some 200) f64_one) as [bf1|] eqn:E1; [|vm_compute in E1; discriminate E1].
  destruct (buffer_init dpu_cfg Float32 Float32 aligned_params 2 (Some 200) f64_one) as [bf2|] eqn:E2; [|vm_compute in E2; discriminate E2].
  assert (H1 : exists b1, bf_buckets bf1 !! 0%nat = Some b1 /\ map p_id (b_params b1) = [3; 2]).
  { vm_compute in E1. injection E1 as <-. eexists. split; reflexivity. }
  assert (H2 : exists b2, bf_buckets bf2 !! 0%nat = Some b2 /\ map p_id (b_params b2) = [1; 0]).
  { vm_compute in E2. injection E2 as <-. eexists. split; reflexivity. }
  destruct H1 as (b1 & K1 & I1), H2 as (b2 & K2 & I2). exists b1, b2. split; [|split; [exact I1|exact I2]].
  apply (bucket_names_collide (env8 6) (run8 6).2 0 1 dpu_cfg BFloat16 Float32 ex_params 2 (Some 200) f64_one bf1 b1
    dpu_cfg Float32 Float32 aligned_params 2 (Some 200) f64_one bf2 b2 0 He Ha E1 E2 K1 K2); vm_compute; reflexivity.
Defined.
