(* ===== verification/Ddp.v ===== *)
(** * The data-parallel wrapper

    [DistributedDataParallel] of
    [megatron/core/distributed/distributed_data_parallel.py]: the constructor
    sorts the parameters by dtype into buffers, partitions their buckets into
    bucket groups and maps every parameter to its group; the hooks accumulate
    gradients and drive the groups, which reduce them over BytePS or NCCL.

    The bucket groups of the dense and then of the expert parameters are the
    groups of one [world].  Gradients have an abstract type.  [main_grad] of a
    parameter is a view of the gradient buffer, which the groups scale and reduce in
    place: [ds_main] keeps the additions, scalings and reductions that happened to it
    since it was zeroed, in their order.  CUDA graph
    capturing, logging, the workaround for [weight_tensor] and delayed weight
    gradients are not modelled, nor are MXFP8 parameters that share the gradient buffer. *)

From S2P Require Import Prelude.
From S2P Require Import PyFloat.
From S2P Require Import ParallelState.
From S2P Require Import BytepsOps.
From S2P Require Import BytepsCollectives.
From S2P Require Import GradBuffer.
From S2P Require Import BucketGroup.

(** A parameter of the module: [d_dtype] is [param.dtype], which for a float8
    tensor is not the type of its storage. *)
Record dparam := mkDParam {
  d_param : param;
  d_dtype : dtype;
  d_requires_grad : bool;
  d_allreduce : bool;
  d_zero_out_wgrad : bool
}.
Definition d_id (p : dparam) : Z := p_id (d_param p).

#[export] Instance dparam_eq_dec : EqDecision dparam.
Proof. solve_decision. Defined.

(** The groups that the constructor looks up. *)
Record ddp_groups (PG : Type) := mkDdpGroups {
  dg_dp_cp : option (gval PG);
  dg_intra_dp_cp : option (gval PG);
  dg_expt_dp : option (gval PG);
  dg_intra_expt_dp : option (gval PG);
  dg_inter_dist_opt : option (gval PG);
  dg_pp : option (gval PG)
}.
Arguments mkDdpGroups {_} _ _ _ _ _ _.
Arguments dg_dp_cp {_} _. Arguments dg_intra_dp_cp {_} _. Arguments dg_expt_dp {_} _.
Arguments dg_intra_expt_dp {_} _. Arguments dg_inter_dist_opt {_} _. Arguments dg_pp {_} _.

(** The wrapper after construction; [dd_groups] is [bucket_groups +
    expert_parallel_bucket_groups]. *)
Record ddp (PG : Type) := mkDdpObj {
  dd_cfg : ddp_config;
  dd_params : list dparam;
  dd_buffers : list (dp_buffer PG);
  dd_expert_buffers : list (dp_buffer PG);
  dd_groups : list (group PG);
  dd_param_to_group : gmap Z nat;
  dd_pgs : ddp_groups PG
}.
Arguments mkDdpObj {_} _ _ _ _ _ _ _.
Arguments dd_cfg {_} _. Arguments dd_params {_} _. Arguments dd_buffers {_} _. Arguments dd_expert_buffers {_} _.
Arguments dd_groups {_} _. Arguments dd_param_to_group {_} _. Arguments dd_pgs {_} _.

(** [ddp_config.bucket_size] after the constructor set it. *)
Definition with_bucket_size (cfg : ddp_config) (n : option Z) : ddp_config :=
  mkDdp (use_dpu_reduce cfg) (grad_reduce_in_fp32 cfg) (overlap_grad_reduce cfg) (overlap_param_gather cfg) (align_param_gather cfg)
    (use_distributed_optimizer cfg) (num_instances cfg) (check_for_nan_in_grad cfg) (check_for_large_grads cfg) n
    (pad_buckets_for_high_nccl_busbw cfg) (average_in_collective cfg) (fp8_param_gather cfg) (reuse_grad_buf_for_mxfp8_param_ag cfg)
    (nccl_ub cfg) (delay_wgrad_compute cfg).
Definition set_bucket_size (cfg : ddp_config) (dp_world_size : Z) : ddp_config :=
  let n := match bucket_size cfg with Some n => n | None => Z.max 40000000 (1000000 * dp_world_size) end in
  with_bucket_size cfg (if overlap_grad_reduce cfg then Some n else None).

(** The scaling factors of dense and expert gradients, from the sizes of the
    data-parallel group with context parallelism and of the expert one, which are
    only asked for where they are used. *)
Definition scaling_factors (cfg : ddp_config) (calculate_per_token_loss : bool) (dp_cp_size expt_dp_size : res Z) : res (f64 * f64) :=
  if calculate_per_token_loss then
    assert_ (negb (average_in_collective cfg)) "Cannot average in collective when calculating per-token loss!" ;;
    mret (f64_one, f64_one)
  else if average_in_collective cfg then
    edp ← expt_dp_size;
    dp ← dp_cp_size;
    e ← truediv edp dp;
    mret (f64_one, e)
  else
    dp ← dp_cp_size;
    d ← truediv_fi f64_one dp;
    e ← truediv_fi f64_one dp;
    mret (d, e).

(** The check of the factor in [_allocate_buffers_for_parameters]. *)
Definition check_scaling (cfg : ddp_config) (calculate_per_token_loss : bool) (dp_cp_size expt_dp_size group_size : res Z) (factor : f64) : res unit :=
  if calculate_per_token_loss then mret tt
  else
    dp ← dp_cp_size;
    target ← truediv_fi f64_one dp;
    if average_in_collective cfg then
      if num_instances cfg =? 1 then
        n ← group_size;
        q ← truediv_fi factor n;
        assert_ (f64_eqb q target) "gradient_scaling_factor / data_parallel_group.size() == target_gradient_scaling_factor"
      else if f64_eqb factor f64_one then mret tt
      else
        edp ← expt_dp_size;
        e ← truediv edp dp;
        assert_ (f64_eqb factor e) "gradient_scaling_factor == 1 or edp_size/dp_size"
    else assert_ (f64_eqb factor target) "gradient_scaling_factor == target_gradient_scaling_factor".

(** [param_and_grad_dtype_to_params], in the order of insertion. *)
Fixpoint dict_append {K V} `{EqDecision K} (k : K) (v : V) (d : list (K * list V)) : list (K * list V) :=
  match d with
  | [] => [(k, [v])]
  | (k', vs) :: d' => if decide (k = k') then (k', vs ++ [v]) :: d' else (k', vs) :: dict_append k v d'
  end.
Definition buffer_key (cfg : ddp_config) (p : dparam) : dtype * dtype :=
  (if p_float8 (d_param p) then UInt8 else d_dtype p, if grad_reduce_in_fp32 cfg then Float32 else d_dtype p).
Definition group_by_dtype (cfg : ddp_config) (params : list dparam) : list ((dtype * dtype) * list dparam) :=
  fold_left (fun d p => dict_append (buffer_key cfg p) p d) params [].

Section Construct.
Context {PG : Type} `{!ProcessGroup PG} `{!EqDecision PG} (env : dist_env).

(** The lookups without [pg_collection]. *)
Definition get_ddp_groups (cfg : ddp_config) (s : pstate PG) : res (ddp_groups PG) :=
  get_data_parallel_group false false s ;;
  dp_cp ← get_data_parallel_group true false s;
  intra_dp_cp ← get_data_parallel_group true true s;
  expt_dp ← get_expert_data_parallel_group true false s;
  intra_expt_dp ← get_expert_data_parallel_group true true s;
  inter ← (if 1 <? num_instances cfg then get_inter_distributed_optimizer_instance_group s else mret None);
  get_tensor_model_parallel_group true s ;;
  pp ← get_pipeline_model_parallel_group true s;
  get_expert_model_parallel_group true s ;;
  mret (mkDdpGroups dp_cp intra_dp_cp expt_dp intra_expt_dp inter pp).

(** [self.pp_group[0].rank()] or [self.pp_group.rank()] *)
Definition pp_group_rank (g : option (gval PG)) : res Z :=
  match g with
  | Some (GMany l) => p ← py_get l 0; mret (pg_rank p (de_rank env))
  | _ => call_rank env g
  end.

(** [next_param_gather_bucket_group]: group [k + 1] is followed by group [k]; the
    groups of the list are numbered from [base] on. *)
Definition link_groups (cfg : ddp_config) (inter : option (gval PG)) (stream : Z) (base : nat) (gs : list (group PG)) : list (group PG) :=
  imap (fun k g =>
    set_links (if use_distributed_optimizer cfg && overlap_param_gather cfg then match k with O => None | S j => Some (base + j)%nat end else gr_next g)
      (if 1 <? num_instances cfg then inter else gr_inter g) (if 1 <? num_instances cfg then Some stream else gr_stream g) g) gs.

(** [param_to_bucket_group] *)
Definition map_params (base : nat) (gs : list (group PG)) (m : gmap Z nat) : gmap Z nat :=
  fold_left (fun (m : gmap Z nat) '(k, g) => fold_left (fun (m : gmap Z nat) p => <[p := (base + k)%nat]> m) (group_param_ids (gr_buckets g)) m)
    (imap pair gs) m.

(** [_allocate_buffers_for_parameters] *)
Definition allocate_buffers (cfg : ddp_config) (per_token disable_bucketing : bool) (pgs : ddp_groups PG) (bucket_size : option Z)
    (group : option (gval PG)) (factor : f64) (stream : Z) (base : nat) (m : gmap Z nat) (params : list dparam)
  : res (list (dp_buffer PG) * list (BucketGroup.group PG) * gmap Z nat) :=
  foldR (fun _ p => assert_ (d_requires_grad p) "param.requires_grad") tt params ;;
  check_scaling cfg per_token (call_size (dg_dp_cp pgs)) (call_size (dg_expt_dp pgs)) (call_size group) factor ;;
  buffers ← mapR (fun '((param_dtype, grad_dtype), ps) =>
    dp ← call_size group;
    bf ← buffer_init cfg param_dtype grad_dtype (map d_param ps) dp bucket_size factor;
    match group with
    | Some g => mret (mkDpBuffer bf g)
    | None => raise_ AttributeError "'NoneType' object has no attribute 'size'"
    end) (group_by_dtype cfg params);
  gs ← partition_buckets env buffers disable_bucketing;
  (if 1 <? num_instances cfg then assert_ (use_distributed_optimizer cfg) "Partial DistOpt cannot be used without DistOpt" else mret tt) ;;
  let gs := link_groups cfg (dg_inter_dist_opt pgs) stream base gs in
  mret (buffers, gs, map_params base gs m).

(** [__init__]; [bps_size] is what [bps.size()] returns. *)
Definition ddp_init (cfg : ddp_config) (per_token disable_bucketing : bool) (bps_size : Z) (s : pstate PG) (params : list dparam) : res (ddp PG) :=
  cfg ← (if is_none (bucket_size cfg) then n ← get_data_parallel_world_size env false false s; mret (set_bucket_size cfg n) else mret (set_bucket_size cfg 0));
  pgs ← get_ddp_groups cfg s;
  pp_rank ← pp_group_rank (dg_pp pgs);
  let bsz := if disable_bucketing || (0 <? pp_rank) then None else bucket_size cfg in
  let trainable := filter (fun p => d_requires_grad p = true) params in
  let dense := filter (fun p => d_allreduce p = true) trainable in
  let expert := filter (fun p => d_allreduce p = false) trainable in
  factors ← scaling_factors cfg per_token (call_size (dg_dp_cp pgs)) (call_size (dg_expt_dp pgs));
  (if use_dpu_reduce cfg && negb (use_distributed_optimizer cfg) then
     n ← call_size (dg_intra_dp_cp pgs);
     if bps_size <? n then raise_ RuntimeError "BytePS world size is smaller than Megatron data-parallel size: " else mret tt
   else mret tt) ;;
  d ← allocate_buffers cfg per_token disable_bucketing pgs bsz (dg_intra_dp_cp pgs) factors.1 0 0 ∅ dense;
  let '(buffers, gs, m) := d in
  e ← allocate_buffers cfg per_token disable_bucketing pgs bsz (dg_intra_expt_dp pgs) factors.2 1 (length gs) m expert;
  let '(expert_buffers, expert_gs, m) := e in
  mret (mkDdpObj cfg params buffers expert_buffers (gs ++ expert_gs) m pgs).
End Construct.

(** ** Hooks and synchronisation *)

(** What the wrapper asks torch to do besides the groups' communication: buffers
    are named by their position among all of them. *)
Inductive ddp_event (PG : Type) :=
  | EvZeroBuffer (k : nat)
  | EvScaleBuffer (k : nat) (factor : f64)
  | EvBroadcast (p : dparam) (group : option (gval PG)).
Arguments EvZeroBuffer {_} _.
Arguments EvScaleBuffer {_} _ _.
Arguments EvBroadcast {_} _ _.

(** What happened to [param.main_grad] since it was zeroed: a gradient was added, it was scaled, it was reduced with the other ranks
    (for a push to BytePS from the push on), or a part [start, end) of its bucket was. *)
Inductive grad_op (A : Type) :=
  | GAdd (v : A)
  | GScale (factor : f64)
  | GReduce (op : reduce_op)
  | GReduceShard (shard : Z * Z) (op : reduce_op).
Arguments GAdd {_} _.
Arguments GScale {_} _.
Arguments GReduce {_} _.
Arguments GReduceShard {_} _ _.

(** The changing state: the groups with their communication; [param.grad] where
    it is set; the operations on [param.main_grad]; the parameters with
    [grad_added_to_main_grad]; whether the forward pre-hooks are installed;
    [overlap_param_gather_with_optimizer_step]. *)
Record dstate (PG A : Type) := mkDstate {
  ds_world : world PG;
  ds_grad : gmap Z A;
  ds_main : gmap Z (list (grad_op A));
  ds_added : gset Z;
  ds_hooks : bool;
  ds_overlap_step : bool;
  ds_log : list (ddp_event PG)
}.
Arguments mkDstate {_ _} _ _ _ _ _ _ _.
Arguments ds_world {_ _} _. Arguments ds_grad {_ _} _. Arguments ds_main {_ _} _. Arguments ds_added {_ _} _.
Arguments ds_hooks {_ _} _. Arguments ds_overlap_step {_ _} _. Arguments ds_log {_ _} _.

Section Hooks.
Context {PG A : Type} `{!ProcessGroup PG} `{!GradValidation} `{!GradTensors}.
Context (env : dist_env) (ps : pstate PG) (d : ddp PG).
Implicit Types (s : dstate PG A).
#[local] Notation D := (M (dstate PG A)).

(** An operation on the gradient data of a bucket is one on the main gradients of its parameters. *)
Definition append_op (m : gmap Z (list (grad_op A))) (bo : bucket * grad_op A) : gmap Z (list (grad_op A)) :=
  fold_left (fun (m : gmap Z (list (grad_op A))) p => <[p_id p := default [] (m !! p_id p) ++ [bo.2]]> m) (b_params bo.1) m.

(** The operations in place of torch and of BytePS *)
Definition comm_ops (e : comm_event) : list (bucket * grad_op A) :=
  match e with
  | EvScale b factor => [(b, GScale factor)]
  | EvAllReduce b op _ => [(b, GReduce op)]
  | EvReduceScatter b shard op _ | EvAllReduceShard b shard op _ => [(b, GReduceShard shard op)]
  | _ => []
  end.
Definition push_ops (buckets : list bucket) (e : bps_event) : list (bucket * grad_op A) :=
  match e with
  | EvPush _ _ output average _ _ _ => map (fun b => (b, GReduce (if average then AVG else SUM))) (filter (fun b => grad_tensor b = output) buckets)
  | EvWait _ => []
  end.
Definition all_buckets : list bucket := concat (map gr_buckets (dd_groups d)).
(** What happened between two worlds: a group scales its buckets before it reduces them. *)
Definition in_place (w w' : world PG) : list (bucket * grad_op A) :=
  concat (map comm_ops (drop (length (w_log w)) (w_log w'))) ++
  concat (map (push_ops all_buckets) (drop (length (bs_log (bc_bps (w_bc w)))) (bs_log (bc_bps (w_bc w'))))).

Definition on_world {B} (m : M (world PG) B) : D B := fun s =>
  let '(r, w) := m (ds_world s) in
  (r, mkDstate w (ds_grad s) (fold_left append_op (in_place (ds_world s) w) (ds_main s)) (ds_added s) (ds_hooks s) (ds_overlap_step s) (ds_log s)).
Definition set_grads (g : gmap Z A) (m : gmap Z (list (grad_op A))) : D unit :=
  modM (fun s => mkDstate (ds_world s) g m (ds_added s) (ds_hooks s) (ds_overlap_step s) (ds_log s)).
Definition set_added (a : gset Z) : D unit :=
  modM (fun s => mkDstate (ds_world s) (ds_grad s) (ds_main s) a (ds_hooks s) (ds_overlap_step s) (ds_log s)).
Definition set_hooks (b : bool) : D unit :=
  modM (fun s => mkDstate (ds_world s) (ds_grad s) (ds_main s) (ds_added s) b (ds_overlap_step s) (ds_log s)).
Definition emitD (e : ddp_event PG) : D unit :=
  modM (fun s => mkDstate (ds_world s) (ds_grad s) (ds_main s) (ds_added s) (ds_hooks s) (ds_overlap_step s) (ds_log s ++ [e])).

(** [for bucket_group in self.bucket_groups + self.expert_parallel_bucket_groups] *)
Definition for_groups (f : nat -> M (world PG) unit) : D unit := iterM (fun i => on_world (f i)) (seq 0 (length (dd_groups d))).
Definition for_buffers (f : nat -> D unit) : D unit := iterM f (seq 0 (length (dd_buffers d ++ dd_expert_buffers d))).
Definition use_forward_hook : bool := use_distributed_optimizer (dd_cfg d) && overlap_param_gather (dd_cfg d).

(** The end of [__init__]: the forward pre-hooks are installed where they are used. *)
Definition ddp_start (bc : bc_state) : dstate PG A := mkDstate (mkWorld (dd_groups d) bc [] 0) ∅ ∅ ∅ use_forward_hook false [].

(** The hook of [_make_backward_post_hook(param)]. *)
Definition backward_post_hook (p : dparam) : D unit :=
  match dd_param_to_group d !! d_id p with
  | None => mret tt
  | Some i =>
      assertM (d_requires_grad p) "param.requires_grad" ;;
      s ← getM;
      whenM (overlap_grad_reduce (dd_cfg d))
        (assertM (negb (is_none (ds_grad s !! d_id p))) "param.grad being None is not safe when overlap_grad_reduce is True") ;;
      set_grads (delete (d_id p) (ds_grad s))
        (match ds_grad s !! d_id p with
         | Some v => if bool_decide (d_id p ∉ ds_added s) || d_zero_out_wgrad p
                     then <[d_id p := default [] (ds_main s !! d_id p) ++ [GAdd v]]> (ds_main s) else ds_main s
         | None => ds_main s
         end) ;;
      whenM (overlap_grad_reduce (dd_cfg d)) (on_world (register_grad_ready env ps i (d_id p)))
  end.

(** The hook of [_make_forward_pre_hook] for a module with these parameters. *)
Definition forward_pre_hook (module_params : list dparam) : D unit :=
  assertM use_forward_hook "Should use pre-hook only when overlap_param_gather is True" ;;
  iterM (fun p =>
    match dd_param_to_group d !! d_id p with
    | None => mret tt
    | Some i =>
        assertM (d_requires_grad p) "param.requires_grad" ;;
        s ← getM;
        on_world (finish_param_sync i (align_param_gather (dd_cfg d) || ds_overlap_step s))
    end) module_params.

(** [no_sync]: what its start and its end do. *)
Definition set_last_microbatch (b : bool) : D unit :=
  for_groups (fun i => assign_self i (fun g => set_ready (gr_params_with_grad g) b g)).
Definition no_sync_enter : D unit := set_last_microbatch false.
Definition no_sync_exit : D unit := set_last_microbatch true.

Definition ddp_start_param_sync (force_sync force_dispatch : bool) : D unit :=
  s ← getM;
  if negb force_sync && (ds_overlap_step s && negb force_dispatch) then mret tt
  else
    for_groups (fun i =>
      start_param_sync i force_sync ;;
      whenM (reuse_grad_buf_for_mxfp8_param_ag (dd_cfg d) && negb (overlap_param_gather (dd_cfg d)))
        (g ← self i; copy_params (gr_buckets g))).

Definition ddp_start_grad_sync : D unit := for_groups (start_grad_sync env ps).
Definition ddp_finish_grad_sync : D unit := for_groups (finish_grad_sync env ps).
(** [scale_gradients] of a buffer scales all its gradients. *)
Definition scale_gradients (factor : f64) : D unit :=
  for_buffers (fun k =>
    s ← getM;
    let buckets := match (dd_buffers d ++ dd_expert_buffers d) !! k with Some b => bf_buckets (db_buffer b) | None => [] end in
    set_grads (ds_grad s) (fold_left append_op (map (fun b => (b, GScale factor)) buckets) (ds_main s)) ;;
    emitD (EvScaleBuffer k factor)).

(** [zero_grad_buffer]: all main gradients are zero afterwards. *)
Definition zero_grad_buffer (external_cuda_graph : bool) : D unit :=
  s ← getM;
  whenM (negb external_cuda_graph)
    (set_added (ds_added s ∖ list_to_set (map d_id (filter (fun p => d_requires_grad p = true) (dd_params d))))) ;;
  for_buffers (fun k => emitD (EvZeroBuffer k)) ;;
  set_grads (ds_grad s) ∅ ;;
  for_groups reset.

Definition broadcast_params : D unit :=
  iterM (fun p => emitD (EvBroadcast p (if d_allreduce p then dg_dp_cp (dd_pgs d) else dg_expt_dp (dd_pgs d)))) (dd_params d).

Definition enable_forward_pre_hook : D unit :=
  assertM use_forward_hook "self.use_forward_hook" ;;
  s ← getM;
  assertM (negb (ds_hooks s)) "len(self.remove_forward_pre_hook_handles) == 0" ;;
  set_hooks true.
Definition disable_forward_pre_hook (param_sync : bool) : D unit :=
  assertM use_forward_hook "self.use_forward_hook" ;;
  s ← getM;
  (if ds_hooks s then mret tt else raiseM KeyError "self.remove_forward_pre_hook_handles[module]") ;;
  set_hooks false ;;
  whenM param_sync (ddp_start_param_sync true false).

(** ** A training iteration *)

(** The backward pass of a microbatch: gradients arrive in some order. *)
Definition backward_pass (grads : list (dparam * A)) : D unit :=
  iterM (fun '(p, v) =>
    s ← getM;
    set_grads (<[d_id p := v]> (ds_grad s)) (ds_main s) ;;
    backward_post_hook p) grads.

(** The passes before the last one run inside [no_sync], as the schedules do. *)
Definition train_iteration (passes : list (list (dparam * A))) (last : list (dparam * A)) : D unit :=
  zero_grad_buffer false ;;
  no_sync_enter ;;
  iterM backward_pass passes ;;
  no_sync_exit ;;
  backward_pass last ;;
  ddp_finish_grad_sync.
End Hooks.
