(* ===== verification/DdpProofs.v ===== *)
(** * Correctness of the data-parallel wrapper

    A training iteration with overlapped BytePS reductions: whatever the order in
    which the gradients of the last microbatch arrive, and however they are spread
    over the bucket groups, every bucket is pushed exactly once and waited for
    exactly once. *)

From Stdlib Require Import SpecFloat.
From S2P Require Import Prelude.
From S2P Require Import PyFloat.
From S2P Require Import ParallelState.
From S2P Require Import BytepsOps.
From S2P Require Import BytepsCollectives.
From S2P Require Import GradBuffer.
From S2P Require Import GradBufferProofs.
From S2P Require Import BucketGroup.
From S2P Require Import BucketGroupProofs.
From S2P Require Import Ddp.

(** ** All groups of a world *)

Section Groups.
Context {PG : Type} `{PGI : !ProcessGroup PG} `{GV : !GradValidation} `{GT : !GradTensors}.
Context (env : dist_env) (ps : pstate PG) (collective : gval PG) (n tp pp : Z).
Context (Hsize : call_size (Some collective) = Ok n) (Hn : 0 < n).
Context (Htp : get_tensor_model_parallel_rank env ps = Ok tp) (Hpp : get_pipeline_model_parallel_rank env ps = Ok pp).
Context (gs : list (group PG)) (avg : bool) (owner : gmap Z nat).

(** Fresh groups of one configuration, each with parameters of its own. *)
Record group_family : Prop := {
  gf_fresh : Forall fresh_group gs;
  gf_overlapped : Forall (overlapped collective) gs;
  gf_average : Forall (fun g => average_in_collective (gr_cfg g) = avg) gs;
  gf_pushable : Forall (fun g => Forall (fun b => pushable (grad_tensor b) = true) (gr_buckets g)) gs;
  gf_nonempty : Forall (fun g => group_param_ids (gr_buckets g) <> []) gs;
  gf_owner : forall p i, owner !! p = Some i <-> exists g, gs !! i = Some g /\ p ∈ group_param_ids (gr_buckets g)
}.
Context (F : group_family).

Definition names_ok (s : bc_state) : Prop := Forall (fun g => names_free n tp pp s (gr_buckets g)) gs.

(** A gradient is registered with the group of its parameter. *)
Definition register_param (p : Z) : M (world PG) unit :=
  match owner !! p with Some i => register_grad_ready env ps i p | None => mret tt end.

(** The buckets of the groups that started, in the order they did. *)
Definition buckets_of (started : list nat) : list bucket := concat (map (fun i => default [] (gr_buckets <$> gs !! i)) started).
Definition done_in (done : list Z) (g : group PG) : gset Z := list_to_set done ∩ gr_params g.

Lemma family_lookup i g : gs !! i = Some g ->
  fresh_group g /\ overlapped collective g /\ average_in_collective (gr_cfg g) = avg /\ Forall (fun b => pushable (grad_tensor b) = true) (gr_buckets g) /\
  group_param_ids (gr_buckets g) <> [].
Proof. intros Hi. destruct F as [F1 F2 F3 F4 F5 _]. rewrite Forall_lookup in F1, F2, F3, F4, F5. split_and!; eauto. Qed.

Lemma family_member i g p : gs !! i = Some g -> p ∈ gr_params g <-> owner !! p = Some i.
Proof.
  intros Hi. destruct (family_lookup i g Hi) as (Hf & _). rewrite (fg_params _ Hf), elem_of_list_to_set, (gf_owner F). split; [eauto|].
  intros (g' & Hg' & Hp). by simplify_eq.
Qed.

(** The world after the gradients of [done]: the groups that have all of theirs
    have started, each with its own handles [H i]. *)
Record after (w0 : world PG) (done : list Z) (started : list nat) (H : nat -> list Z) (w : world PG) : Prop := {
  af_length : length (w_groups w) = length gs;
  af_nodup : NoDup started;
  af_started : forall i g, gs !! i = Some g -> i ∈ started <-> gr_params g ⊆ list_to_set done;
  af_range : forall i, i ∈ started -> (i < length gs)%nat;
  af_group : forall i g, gs !! i = Some g -> w_groups w !! i =
    Some ((if decide (i ∈ started) then set_reduce (Some (HBps (H i))) else id) (set_ready (done_in done g) true g));
  af_handles : concat (map H started) = push_handles (bs_last_handle (bc_bps (w_bc w0))) (buckets_of started);
  af_ready : ready (w_bc w);
  af_names : names_ok (w_bc w);
  af_log : bs_log (bc_bps (w_bc w)) = bs_log (bc_bps (w_bc w0)) ++ push_events tp pp (bs_last_handle (bc_bps (w_bc w0))) avg (buckets_of started);
  af_last : bs_last_handle (bc_bps (w_bc w)) = bs_last_handle (bc_bps (w_bc w0)) + Z.of_nat (length (buckets_of started));
  af_pending : forall k, k ∈ concat (map H started) -> is_Some (bs_handle_map (bc_bps (w_bc w)) !! k);
  af_other : forall k, k ∉ concat (map H started) -> bs_handle_map (bc_bps (w_bc w)) !! k = bs_handle_map (bc_bps (w_bc w0)) !! k
}.

Lemma push_events_app h b1 b2 : push_events tp pp h avg (b1 ++ b2) = push_events tp pp h avg b1 ++ push_events tp pp (h + Z.of_nat (length b1)) avg b2.
Proof.
  revert h. induction b1 as [|b b1 IH]; intros h; cbn -[Z.add]; [by rewrite Z.add_0_r|]. f_equal. rewrite IH. do 2 f_equal. lia.
Qed.
Lemma push_handles_app h b1 b2 : push_handles h (b1 ++ b2) = push_handles h b1 ++ push_handles (h + Z.of_nat (length b1)) b2.
Proof.
  unfold push_handles. rewrite length_app, Nat2Z.inj_add. rewrite (zrange_app _ (h + 1 + Z.of_nat (length b1))) by lia. f_equal. f_equal; lia.
Qed.
Lemma buckets_of_snoc l i g : gs !! i = Some g -> buckets_of (l ++ [i]) = buckets_of l ++ gr_buckets g.
Proof. intros Hi. unfold buckets_of. rewrite map_app, concat_app. cbn. by rewrite Hi, app_nil_r. Qed.

Lemma ready_twice r b r' b' (g : group PG) : set_ready r b (set_ready r' b' g) = set_ready r b g.
Proof. done. Qed.

Lemma done_snoc done p i g : gs !! i = Some g -> owner !! p = Some i -> done_in (done ++ [p]) g = {[p]} ∪ done_in done g.
Proof.
  intros Hi Hp. pose proof (proj2 (family_member i g p Hi) Hp). unfold done_in. rewrite list_to_set_app_L. cbn. set_solver.
Qed.
Lemma done_snoc_other done p i j g : gs !! j = Some g -> owner !! p = Some i -> j <> i -> done_in (done ++ [p]) g = done_in done g.
Proof.
  intros Hj Hp Hne. assert (p ∉ gr_params g) by (rewrite (family_member j g p Hj), Hp; intros [= ->]; done).
  unfold done_in. rewrite list_to_set_app_L. cbn. set_solver.
Qed.

Lemma after_start w0 : ready (w_bc w0) -> names_ok (w_bc w0) -> w_groups w0 = map (set_ready ∅ true) gs -> after w0 [] [] (fun _ => []) w0.
Proof.
  intros Hr Hn0 Hg. split; try done.
  - by rewrite Hg, length_map.
  - constructor.
  - intros i g Hi. split; [by intros ?%elem_of_nil|]. intros Hsub. exfalso. destruct (family_lookup i g Hi) as (Hf & _ & _ & _ & Hne).
    rewrite (fg_params _ Hf) in Hsub. destruct (group_param_ids (gr_buckets g)) as [|p l]; [done|]. cbn in Hsub. set_solver.
  - intros i Hi. by apply elem_of_nil in Hi.
  - intros i g Hi. rewrite Hg, list_lookup_fmap, Hi. cbn. rewrite decide_False by set_solver. unfold done_in. cbn. do 2 f_equal. set_solver.
  - unfold push_handles. cbn. by rewrite zrange_nil by lia.
  - cbn. by rewrite app_nil_r.
  - cbn. lia.
  - intros k Hk. by apply elem_of_nil in Hk.
Qed.

(** One more gradient. *)
Lemma after_more w0 done started H w p i g : after w0 done started H w -> owner !! p = Some i -> gs !! i = Some g -> p ∉ done ->
  register_param p w = whenM (bool_decide (done_in (done ++ [p]) g = gr_params g)) (start_grad_sync env ps i) (registered w i (done_in (done ++ [p]) g)) /\
  i ∉ started.
Proof.
  intros Af Hp Hi Hnd. destruct (family_lookup i g Hi) as (Hf & Ho & _).
  assert (Hin : p ∈ gr_params g) by (by apply (family_member i g p Hi)).
  assert (Hns : i ∉ started). { rewrite (af_started _ _ _ _ _ Af i g Hi). intros Hsub. apply Hnd. specialize (Hsub p Hin). by rewrite elem_of_list_to_set in Hsub. }
  split; [|done]. pose proof (af_group _ _ _ _ _ Af i g Hi) as Hg. rewrite decide_False in Hg by done. cbn [id] in Hg.
  set (g' := set_ready (done_in done g) true g) in *. set (r := done_in done g) in *.
  assert (Ew : w = registered w i r). { unfold registered. rewrite (alter_same _ i (w_groups w) g' Hg) by done. by destruct w. }
  unfold register_param. rewrite Hp. transitivity (register_grad_ready env ps i p (registered w i r)); [by rewrite <- Ew|].
  rewrite (register_one env ps collective i g').
  - unfold g', r. cbn [set_ready gr_params]. rewrite <- (done_snoc done p i g Hi Hp). f_equal. apply bool_decide_ext. split; [|by intros ->].
    intros Hsz. apply set_subseteq_size_eq; [unfold done_in; set_solver|lia].
  - done.
  - by destruct Ho.
  - unfold r, done_in. rewrite elem_of_intersection, elem_of_list_to_set. tauto.
  - unfold g'. cbn. rewrite (fg_lookup _ Hf). apply group_param_to_bucket_mem. rewrite (fg_params _ Hf), elem_of_list_to_set in Hin. done.
Qed.

Lemma after_step w0 done started H w p i : after w0 done started H w -> owner !! p = Some i -> p ∉ done ->
  exists started' H' w', register_param p w = (Ok tt, w') /\ after w0 (done ++ [p]) started' H' w' /\ i ∉ started /\
    (started' = started /\ w_log w' = w_log w /\ bs_log (bc_bps (w_bc w')) = bs_log (bc_bps (w_bc w)) \/
     exists g h, gs !! i = Some g /\ started' = started ++ [i] /\ w_log w' = w_log w ++ scale_events (gr_buckets g) /\
       bs_log (bc_bps (w_bc w')) = bs_log (bc_bps (w_bc w)) ++ push_events tp pp h avg (gr_buckets g)).
Proof.
  intros Af Hp Hnd. destruct (proj1 (gf_owner F p i) Hp) as (g & Hi & _).
  destruct (after_more w0 done started H w p i g Af Hp Hi Hnd) as [Er Hns]. destruct (family_lookup i g Hi) as (Hf & Ho & Hav & Hpu & _).
  pose proof Af as [A1 A2 A3 A4 A5 A6 A7 A8 A9 A10 A11 A12].
  assert (Hgi : w_groups w !! i = Some (set_ready (done_in done g) true g)) by (rewrite (A5 i g Hi), decide_False by done; done).
  assert (Hsub : forall j gj, gs !! j = Some gj -> j <> i -> gr_params gj ⊆ list_to_set (done ++ [p]) <-> gr_params gj ⊆ list_to_set done).
  { intros j gj Hj Hne. pose proof (done_snoc_other done p i j gj Hj Hp Hne) as E0. unfold done_in in E0. rewrite !subseteq_intersection_L.
    rewrite !(intersection_comm_L (gr_params gj)). by rewrite E0. }
  case_bool_decide as Hc; cbn [whenM] in Er.
  - (* the group starts *)
    set (w1 := registered w i (done_in (done ++ [p]) g)) in *. set (g1 := set_ready (done_in (done ++ [p]) g) true g).
    assert (Hg1 : w_groups w1 !! i = Some g1) by (unfold w1; by rewrite (registered_group w i _ _ Hgi)).
    destruct (start_grad_sync_ok env ps collective n tp pp Hsize Hn Htp Hpp i g1 w1 Hg1) as (s' & E & R & G & H1 & H2 & L2 & N2); try done.
    { by destruct Ho. } { apply (fg_reduce _ Hf). }
    { unfold names_ok in A8. rewrite Forall_lookup in A8. exact (A8 i g Hi). }
    cbn [g1 set_ready gr_buckets gr_cfg w1 registered w_bc w_groups w_log w_next_cm] in *. rewrite Hav in G. rewrite A10 in *.
    set (h0 := bs_last_handle (bc_bps (w_bc w0))) in *. set (hs := push_handles (h0 + Z.of_nat (length (buckets_of started))) (gr_buckets g)) in *.
    exists (started ++ [i]), (upd H i hs). eexists. split; [rewrite Er; exact E|]. split; [|split; [done|right; exists g; eexists; split_and!; [done|done|done|exact G]]].
    assert (EH : concat (map (upd H i hs) (started ++ [i])) = concat (map H started) ++ hs).
    { rewrite map_app, concat_app. cbn. rewrite upd_eq, app_nil_r. f_equal. f_equal. apply map_ext_in. intros j Hj. apply upd_ne. intros ->. by apply Hns, list_elem_of_In. }
    assert (Ehs : forall k, k ∈ concat (map H started) <-> h0 + 1 <= k < h0 + 1 + Z.of_nat (length (buckets_of started))).
    { intros k. rewrite A6. unfold push_handles. apply elem_of_zrange. }
    split; cbn.
    + by rewrite !length_alter.
    + apply NoDup_app. split_and!; [done|set_solver|apply NoDup_singleton].
    + intros j gj Hj. destruct (decide (j = i)) as [->|Hne].
      * simplify_eq. split; [|intros _; apply elem_of_app; right; by left]. intros _. rewrite <- Hc. unfold done_in. set_solver.
      * rewrite (Hsub j gj Hj Hne), <- (A3 j gj Hj). rewrite elem_of_app, list_elem_of_singleton. naive_solver.
    + intros j [Hj| ->%list_elem_of_singleton]%elem_of_app; [auto|by eapply lookup_lt_Some].
    + intros j gj Hj. destruct (decide (j = i)) as [->|Hne].
      * simplify_eq. rewrite decide_True by (apply elem_of_app; right; by left). rewrite !list_lookup_alter_eq, Hgi. cbn. by rewrite upd_eq.
      * rewrite !list_lookup_alter_ne by done. rewrite (A5 j gj Hj), upd_ne, (done_snoc_other done p i j gj Hj Hp Hne) by done.
        destruct (decide (j ∈ started)) as [Hs|Hs]; [rewrite decide_True by (apply elem_of_app; by left); done|].
        rewrite decide_False; [done|]. rewrite elem_of_app, list_elem_of_singleton. tauto.
    + rewrite EH, (buckets_of_snoc started i g Hi), push_handles_app, A6. done.
    + done.
    + unfold names_ok in *. eapply Forall_impl; [exact A8|]. cbn. intros gj Hj. eapply Forall_impl; [exact Hj|]. cbn. intros b Hb. by apply N2.
    + rewrite G, A9, (buckets_of_snoc started i g Hi), push_events_app. by rewrite app_assoc.
    + rewrite L2, (buckets_of_snoc started i g Hi), length_app. lia.
    + intros k. rewrite EH. intros [Hk|Hk]%elem_of_app; [|by apply H1]. rewrite H2; [by apply A11|].
      apply Ehs in Hk. unfold hs, push_handles. rewrite elem_of_zrange. lia.
    + intros k. rewrite EH. intros Hk. rewrite elem_of_app in Hk. rewrite H2 by tauto. apply A12. tauto.
  - (* the group waits for more *)
    exists started, H, (registered w i (done_in (done ++ [p]) g)). split; [exact Er|]. split; [|split; [done|by left]]. split; try done; cbn.
    + by rewrite length_alter.
    + intros j gj Hj. destruct (decide (j = i)) as [->|Hne].
      * simplify_eq. split; [done|]. intros Hs. exfalso. apply Hc. unfold done_in. set_solver.
      * by rewrite (Hsub j gj Hj Hne), <- (A3 j gj Hj).
    + intros j gj Hj. destruct (decide (j = i)) as [->|Hne].
      * simplify_eq. rewrite decide_False by done. by rewrite list_lookup_alter_eq, Hgi.
      * rewrite list_lookup_alter_ne by done. by rewrite (A5 j gj Hj), (done_snoc_other done p i j gj Hj Hp Hne).
Qed.

(** All gradients: every group has started. *)
Lemma after_complete w0 ids started H w : after w0 ids started H w -> (forall p, is_Some (owner !! p) -> p ∈ ids) -> started ≡ₚ seq 0 (length gs).
Proof.
  intros Af Hall. apply NoDup_Permutation; [apply (af_nodup _ _ _ _ _ Af)|apply NoDup_seq|]. intros i. rewrite elem_of_seq. split.
  - intros Hi. pose proof (af_range _ _ _ _ _ Af i Hi). lia.
  - intros [_ Hi]. destruct (lookup_lt_is_Some_2 gs i Hi) as [g Hg]. apply (af_started _ _ _ _ _ Af i g Hg). intros p Hp.
    apply elem_of_list_to_set, Hall. exists i. by apply (family_member i g p Hg).
Qed.

(** Waiting for all groups, in their order. *)
Record finishing (H : nat -> list Z) (w1 : world PG) (k : nat) (w : world PG) : Prop := {
  fi_length : length (w_groups w) = length gs;
  fi_group : forall i g, gs !! i = Some g -> w_groups w !! i =
    Some ((if decide (i < k)%nat then id else set_reduce (Some (HBps (H i)))) (set_ready (gr_params g) true g));
  fi_ready : ready (w_bc w);
  fi_names : bc_declared (w_bc w) = bc_declared (w_bc w1);
  fi_log : bs_log (bc_bps (w_bc w)) = bs_log (bc_bps (w_bc w1)) ++ map EvWait (concat (map H (seq 0 k)));
  fi_map : forall h, bs_handle_map (bc_bps (w_bc w)) !! h = if bool_decide (h ∈ concat (map H (seq 0 k))) then None else bs_handle_map (bc_bps (w_bc w1)) !! h
}.

Lemma seq_snoc_concat (H : nat -> list Z) k : concat (map H (seq 0 (S k))) = concat (map H (seq 0 k)) ++ H k.
Proof. rewrite seq_S, map_app, concat_app. cbn. by rewrite app_nil_r. Qed.

Lemma finish_step H w1 k w : finishing H w1 k w -> (k < length gs)%nat -> NoDup (concat (map H (seq 0 (length gs)))) ->
  (forall h, h ∈ H k -> is_Some (bs_handle_map (bc_bps (w_bc w1)) !! h)) ->
  exists w', finish_grad_sync env ps k w = (Ok tt, w') /\ finishing H w1 (S k) w' /\ w_log w' = w_log w /\
    bs_log (bc_bps (w_bc w')) = bs_log (bc_bps (w_bc w)) ++ map EvWait (H k).
Proof.
  intros Fi Hk Hnd Hp. destruct (lookup_lt_is_Some_2 gs k Hk) as [g Hg]. destruct (family_lookup k g Hg) as (Hf & Ho & _).
  pose proof (fi_group _ _ _ _ Fi k g Hg) as Hw. rewrite decide_False in Hw by lia.
  assert (Hsplit : NoDup (concat (map H (seq 0 k)) ++ H k)).
  { rewrite <- seq_snoc_concat. replace (length gs) with (S k + (length gs - S k))%nat in Hnd by lia. rewrite seq_app, map_app, concat_app in Hnd.
    by apply NoDup_app in Hnd as (? & _). }
  apply NoDup_app in Hsplit as (_ & Hdis & HndH).
  edestruct (finish_grad_sync_ok env ps collective n tp pp Hsize Hn Htp Hpp k) with (w := w) (hs := H k) as (w' & E & W' & G' & R' & L' & M' & D');
    [exact Hw|by destruct Ho|done|apply (fi_ready _ _ _ _ Fi)|done| |].
  { apply Forall_forall. intros h Hh. rewrite (fi_map _ _ _ _ Fi), bool_decide_false; [by apply Hp|]. intros Hin. by apply (Hdis h). }
  exists w'. split; [exact E|]. split; [|by split]. split.
  - rewrite W', length_alter. apply (fi_length _ _ _ _ Fi).
  - intros i gi Hi. rewrite W'. destruct (decide (i = k)) as [->|Hne].
    + simplify_eq. rewrite decide_True by lia. rewrite list_lookup_alter_eq, Hw. cbn. f_equal. destruct Hf as [_ _ _ _ F5 F6 F7].
      destruct g; cbn in *. by subst.
    + rewrite list_lookup_alter_ne by done. rewrite (fi_group _ _ _ _ Fi i gi Hi). destruct (decide (i < k)%nat), (decide (i < S k)%nat); try done; lia.
  - done.
  - by rewrite D', (fi_names _ _ _ _ Fi).
  - rewrite L', (fi_log _ _ _ _ Fi), seq_snoc_concat, map_app. by rewrite app_assoc.
  - intros h. rewrite M', (fi_map _ _ _ _ Fi), seq_snoc_concat. repeat case_bool_decide; try done; set_solver.
Qed.

Lemma concat_perm {A} (ls ls' : list (list A)) : ls ≡ₚ ls' -> concat ls ≡ₚ concat ls'.
Proof. induction 1; cbn; [done|by f_equiv|rewrite !app_assoc; f_equiv; apply Permutation_app_comm|by etrans]. Qed.

Lemma buckets_of_all : buckets_of (seq 0 (length gs)) = concat (map gr_buckets gs).
Proof.
  unfold buckets_of. f_equal. apply list_eq. intros i. change (map ?f ?l) with (f <$> l). rewrite !list_lookup_fmap.
  destruct (gs !! i) as [g|] eqn:Hi.
  - rewrite lookup_seq_lt by (by eapply lookup_lt_Some). cbn. by rewrite Hi.
  - rewrite lookup_seq_ge by (by apply lookup_ge_None_1). done.
Qed.

(** When all groups have started, waiting can begin. *)
Lemma finishing_start w0 ids started H w1 : after w0 ids started H w1 -> (forall p, is_Some (owner !! p) -> p ∈ ids) ->
  finishing H w1 0 w1 /\ concat (map H started) ≡ₚ concat (map H (seq 0 (length gs))) /\ NoDup (concat (map H (seq 0 (length gs)))).
Proof.
  intros Af Hall. pose proof (after_complete w0 ids started H w1 Af Hall) as Hperm.
  assert (HpermH : concat (map H started) ≡ₚ concat (map H (seq 0 (length gs)))) by (apply concat_perm; by f_equiv).
  split; [|split; [done|rewrite <- HpermH, (af_handles _ _ _ _ _ Af); apply NoDup_zrange]].
  split; try done; [apply (af_length _ _ _ _ _ Af)| |apply (af_ready _ _ _ _ _ Af)|by rewrite app_nil_r].
  intros i g Hi. rewrite (af_group _ _ _ _ _ Af i g Hi), decide_True; [|rewrite Hperm; apply elem_of_seq; split; [lia|by eapply lookup_lt_Some]].
  rewrite decide_False by lia. do 3 f_equal. unfold done_in. apply set_eq. intros p. rewrite elem_of_intersection, elem_of_list_to_set.
  split; [tauto|]. intros Hp. split; [|done]. apply Hall. exists i. by apply (family_member i g p Hi).
Qed.

(** After the waits: what BytePS has seen, and the groups are ready for the next iteration. *)
Lemma finishing_end w0 ids started H w1 w2 : ready (w_bc w0) -> after w0 ids started H w1 -> (forall p, is_Some (owner !! p) -> p ∈ ids) ->
  finishing H w1 (length gs) w2 ->
  let h := bs_last_handle (bc_bps (w_bc w0)) in
  exists bs hs, bs ≡ₚ concat (map gr_buckets gs) /\ hs ≡ₚ push_handles h bs /\
    bs_log (bc_bps (w_bc w2)) = bs_log (bc_bps (w_bc w0)) ++ push_events tp pp h avg bs ++ map EvWait hs /\
    bs_handle_map (bc_bps (w_bc w2)) = bs_handle_map (bc_bps (w_bc w0)) /\ ready (w_bc w2) /\ names_ok (w_bc w2) /\
    w_groups w2 = map (fun g => set_ready (gr_params g) true g) gs.
Proof.
  intros Hr Af Hall F2 h. destruct (finishing_start w0 ids started H w1 Af Hall) as (_ & HpermH & _). pose proof (after_complete w0 ids started H w1 Af Hall) as Hperm.
  exists (buckets_of started), (concat (map H (seq 0 (length gs)))). split_and!.
  - rewrite <- buckets_of_all. unfold buckets_of. apply concat_perm. by f_equiv.
  - rewrite <- HpermH. by rewrite (af_handles _ _ _ _ _ Af).
  - rewrite (fi_log _ _ _ _ F2), (af_log _ _ _ _ _ Af). by rewrite <- app_assoc.
  - apply map_eq. intros k. rewrite (fi_map _ _ _ _ F2). case_bool_decide as Hk.
    + symmetry. rewrite <- HpermH, (af_handles _ _ _ _ _ Af) in Hk. unfold push_handles in Hk. rewrite elem_of_zrange in Hk.
      destruct (bs_handle_map (bc_bps (w_bc w0)) !! k) eqn:Ek; [|done]. destruct Hr as (_ & [HA HB] & _). apply HA, HB in Ek. lia.
    + apply (af_other _ _ _ _ _ Af). by rewrite HpermH.
  - apply (fi_ready _ _ _ _ F2).
  - unfold names_ok, names_free in *. rewrite (fi_names _ _ _ _ F2). apply (af_names _ _ _ _ _ Af).
  - apply list_eq. intros i. rewrite list_lookup_fmap. destruct (gs !! i) as [g|] eqn:Hi.
    + rewrite (fi_group _ _ _ _ F2 i g Hi), decide_True by (by eapply lookup_lt_Some). done.
    + cbn. apply lookup_ge_None_2. rewrite (fi_length _ _ _ _ F2). by apply lookup_ge_None_1.
Qed.

(** Inside [no_sync] registering a gradient does nothing. *)
Lemma register_quiet ids w : w_groups w = map (set_ready ∅ false) gs -> iterM register_param ids w = (Ok tt, w).
Proof.
  intros Hg. induction ids as [|p ids IH]; [done|]. cbn [iterM]. erewrite bind_step; [exact IH|]. unfold register_param.
  destruct (owner !! p) as [i|] eqn:Hi; [|done]. destruct (proj1 (gf_owner F p i) Hi) as (g & Hgi & _).
  destruct (family_lookup i g Hgi) as (_ & Ho & _). unfold register_grad_ready.
  erewrite bind_step by (apply self_ok; rewrite Hg, list_lookup_fmap, Hgi; done). cbn [set_ready gr_cfg gr_is_last_microbatch].
  rewrite (ov_overlap _ _ Ho). by erewrite bind_step by reflexivity.
Qed.
End Groups.

(** ** The wrapper *)

Section Iteration.
Context {PG A : Type} `{PGI : !ProcessGroup PG} `{GV : !GradValidation} `{GT : !GradTensors}.
Context (env : dist_env) (ps : pstate PG) (d : ddp PG).
Implicit Types (s : dstate PG A) (w : world PG) (m : gmap Z (list (grad_op A))).

Definition with_world s w : dstate PG A := mkDstate w (ds_grad s) (ds_main s) (ds_added s) (ds_hooks s) (ds_overlap_step s) (ds_log s).
Definition with_groups w gs : world PG := mkWorld gs (w_bc w) (w_log w) (w_next_cm w).

(** *** What happens to the main gradients *)

(** The operations on the main gradient of parameter [p] *)
Definition ops_at (p : Z) (ops : list (bucket * grad_op A)) : list (grad_op A) :=
  concat (map (fun bo => map (fun _ => bo.2) (filter (fun q => p_id q = p) (b_params bo.1))) ops).

Lemma append_op_lookup m bo p : default [] (append_op m bo !! p) = default [] (m !! p) ++ map (fun _ => bo.2) (filter (fun q => p_id q = p) (b_params bo.1)).
Proof.
  unfold append_op. revert m. induction (b_params bo.1) as [|q l IH]; intros m; cbn [fold_left]; [by rewrite app_nil_r|]. rewrite IH, filter_cons.
  destruct (decide (p_id q = p)) as [<-|Hne]; [rewrite lookup_insert_eq; cbn; by rewrite <- app_assoc|by rewrite lookup_insert_ne].
Qed.
Lemma append_ops_lookup ops m p : default [] (fold_left append_op ops m !! p) = default [] (m !! p) ++ ops_at p ops.
Proof.
  revert m. induction ops as [|bo ops IH]; intros m; cbn [fold_left]; [by rewrite app_nil_r|]. rewrite IH, append_op_lookup. unfold ops_at. cbn [map concat].
  by rewrite <- app_assoc.
Qed.
Lemma ops_at_app p l1 l2 : ops_at p (l1 ++ l2) = ops_at p l1 ++ ops_at p l2.
Proof. unfold ops_at. by rewrite map_app, concat_app. Qed.
(** A parameter of another bucket is left alone. *)
Lemma ops_at_other p ops : Forall (fun bo => p ∉ map p_id (b_params bo.1)) ops -> ops_at p ops = [].
Proof.
  induction 1 as [|bo ops Hb _ IH]; [done|]. unfold ops_at in *. cbn [map concat]. rewrite IH, app_nil_r. rewrite (filter_none (fun q => p_id q = p)); [done|].
  apply Forall_forall. intros q Hq Hp. apply Hb. rewrite <- Hp. by apply list_elem_of_fmap_2.
Qed.
(** One operation per bucket reaches each parameter once. *)
Lemma ops_at_bucket (o : bucket -> list (grad_op A)) (bs : list bucket) b q : NoDup (group_param_ids bs) -> b ∈ bs -> q ∈ b_params b ->
  ops_at (p_id q) (concat (map (fun b => map (pair b) (o b)) bs)) = o b.
Proof.
  assert (Hone : forall l, NoDup (map p_id l) -> q ∈ l -> filter (fun q' => p_id q' = p_id q) l = [q]).
  { induction l as [|x l IH]; cbn [map]; [by intros _ ?%elem_of_nil|]. intros [Hx Hl]%NoDup_cons [->|Hq]%elem_of_cons.
    - rewrite filter_cons_True by done. f_equal. apply filter_none. apply Forall_forall. intros y Hy Hxy. apply Hx. rewrite <- Hxy. by apply list_elem_of_fmap_2.
    - rewrite filter_cons_False; [by apply IH|]. intros Hxy. apply Hx. rewrite Hxy. by apply list_elem_of_fmap_2. }
  assert (Hops : forall b' (l : list (grad_op A)) k, filter (fun q' => p_id q' = p_id q) (b_params b') = k -> ops_at (p_id q) (map (pair b') l) = concat (map (fun x => map (fun _ => x) k) l)).
  { intros b' l k Hk. unfold ops_at. rewrite map_map. cbn. by rewrite Hk. }
  induction bs as [|b' bs IH]; [by intros _ ?%elem_of_nil|]. unfold group_param_ids. cbn [map concat]. intros (H1 & H2 & H3)%NoDup_app Hb Hq. rewrite ops_at_app.
  destruct (decide (p_id q ∈ map p_id (b_params b'))) as [Hin|Hin].
  - assert (b = b') as ->.
    { apply elem_of_cons in Hb as [->|Hb]; [done|]. exfalso. apply (H2 _ Hin). apply list_elem_of_In, in_concat. exists (map p_id (b_params b)).
      split; [apply in_map_iff; exists b; by rewrite <- list_elem_of_In|by apply list_elem_of_In, list_elem_of_fmap_2]. }
    rewrite (Hops b' (o b') [q]) by (by apply Hone). rewrite (ops_at_other _ (concat _)), app_nil_r.
    + clear. induction (o b') as [|x l IHl]; [done|]. cbn in IHl |- *. by rewrite IHl.
    + apply Forall_forall. intros [b1 x] Hx Hp. apply list_elem_of_In, in_concat in Hx as (l & (b2 & <- & Hb2)%in_map_iff & (y & [= <- <-] & _)%in_map_iff). cbn in Hp.
      apply (H2 _ Hin). apply list_elem_of_In, in_concat. exists (map p_id (b_params b2)). split; [apply in_map_iff; by exists b2|by apply list_elem_of_In].
  - apply elem_of_cons in Hb as [->|Hb]; [exfalso; apply Hin; by apply list_elem_of_fmap_2|]. rewrite (Hops b' (o b') []).
    + replace (concat (map _ (o b'))) with (@nil (grad_op A)) by (clear; by induction (o b')). by apply IH.
    + apply filter_none. apply Forall_forall. intros y Hy Hyq. apply Hin. rewrite <- Hyq. by apply list_elem_of_fmap_2.
Qed.

Lemma in_place_logs w w' l1 l2 : w_log w' = w_log w ++ l1 -> bs_log (bc_bps (w_bc w')) = bs_log (bc_bps (w_bc w)) ++ l2 ->
  in_place d w w' = concat (map (comm_ops (A := A)) l1) ++ concat (map (push_ops (all_buckets d)) l2).
Proof. intros E1 E2. unfold in_place. by rewrite E1, E2, !drop_app_length. Qed.
Lemma in_place_quiet w w' l : w_log w' = w_log w -> bs_log (bc_bps (w_bc w')) = bs_log (bc_bps (w_bc w)) ++ map EvWait l -> in_place (A := A) d w w' = [].
Proof.
  intros E1 E2. rewrite (in_place_logs w w' [] (map EvWait l)) by (by rewrite ?app_nil_r). cbn. clear. induction l as [|h l IH]; [done|]. exact IH.
Qed.
Lemma in_place_same w w' : w_log w' = w_log w -> bs_log (bc_bps (w_bc w')) = bs_log (bc_bps (w_bc w)) -> in_place (A := A) d w w' = [].
Proof. intros E1 E2. apply (in_place_quiet w w' []); [done|by rewrite E2, app_nil_r]. Qed.

Lemma on_world_ok {B} (m : M (world PG) B) s b w : m (ds_world s) = (Ok b, w) -> in_place (A := A) d (ds_world s) w = [] -> on_world d m s = (Ok b, with_world s w).
Proof. unfold on_world. intros -> Hq. by rewrite Hq. Qed.

(** The same update of every group. *)
Lemma assign_all (f : group PG -> group PG) s k : (k <= length (w_groups (ds_world s)))%nat ->
  iterM (fun i => on_world d (assign_self i f)) (seq 0 k) s =
  (Ok tt, with_world s (with_groups (ds_world s) (map f (take k (w_groups (ds_world s))) ++ drop k (w_groups (ds_world s))))).
Proof.
  induction k as [|k IH]; intros Hk; [by destruct s as [[] ? ? ? ? ? ?]|]. rewrite seq_S, iterM_app. erewrite bind_step by (apply IH; lia). cbn [iterM Nat.add].
  erewrite bind_step by (eapply on_world_ok; [reflexivity|by apply in_place_same]). unfold mret, M_ret, with_groups, with_world. cbn. do 3 f_equal.
  destruct (lookup_lt_is_Some_2 (w_groups (ds_world s)) k) as [g Hg]; [lia|].
  rewrite (drop_S _ g k Hg), (take_S_r _ k g Hg), map_app. cbn. rewrite <- app_assoc. cbn.
  replace k with (length (map f (take k (w_groups (ds_world s)))) + 0)%nat at 1 by (rewrite length_map, length_take; lia).
  rewrite alter_app_r. done.
Qed.
Lemma for_groups_assign (f : group PG -> group PG) s : length (w_groups (ds_world s)) = length (dd_groups d) ->
  for_groups d (fun i => assign_self i f) s = (Ok tt, with_world s (with_groups (ds_world s) (map f (w_groups (ds_world s))))).
Proof.
  intros Hl. unfold for_groups. rewrite <- Hl, assign_all by lia. by rewrite firstn_all, drop_all, app_nil_r.
Qed.

(** What a pass does to [param.grad] and adds to [main_grad]. *)
Definition accumulate (x : dparam * A) m : gmap Z (list (grad_op A)) := <[d_id x.1 := default [] (m !! d_id x.1) ++ [GAdd x.2]]> m.
Definition accumulate_all (pass : list (dparam * A)) m : gmap Z (list (grad_op A)) := fold_left (fun m x => accumulate x m) pass m.
Definition clear_grad (x : dparam * A) (m : gmap Z A) : gmap Z A := delete (d_id x.1) (<[d_id x.1 := x.2]> m).
Definition clear_grads (pass : list (dparam * A)) (m : gmap Z A) : gmap Z A := fold_left (fun k x => clear_grad x k) pass m.

(** The gradients of a parameter in a pass. *)
Definition grads_of (p : Z) (pass : list (dparam * A)) : list A := map snd (filter (fun x => d_id x.1 = p) pass).

Lemma grads_of_app p l1 l2 : grads_of p (l1 ++ l2) = grads_of p l1 ++ grads_of p l2.
Proof. unfold grads_of. by rewrite filter_app, map_app. Qed.
Lemma accumulate_lookup x m p : default [] (accumulate x m !! p) = default [] (m !! p) ++ map GAdd (grads_of p [x]).
Proof.
  unfold accumulate, grads_of. rewrite filter_cons. destruct (decide (d_id x.1 = p)) as [<-|Hne]; [by rewrite lookup_insert_eq|rewrite lookup_insert_ne by done; by rewrite app_nil_r].
Qed.
Lemma accumulate_all_lookup pass m p : default [] (accumulate_all pass m !! p) = default [] (m !! p) ++ map GAdd (grads_of p pass).
Proof.
  unfold accumulate_all. revert m. induction pass as [|x pass IH]; intros m; cbn [fold_left]; [by rewrite app_nil_r|].
  change (x :: pass) with ([x] ++ pass). by rewrite IH, accumulate_lookup, grads_of_app, map_app, app_assoc.
Qed.

(** The parameters of a pass belong to groups, and their gradients are not in
    [main_grad] yet. *)
Definition pass_ok s (pass : list (dparam * A)) : Prop :=
  Forall (fun x => is_Some (dd_param_to_group d !! d_id x.1) /\ d_requires_grad x.1 = true /\ d_id x.1 ∉ ds_added s) pass.

(** A gradient arrives: it is added, and then the group of its parameter gets to know. *)
Definition arrive (x : dparam * A) : M (dstate PG A) unit :=
  s ← getM; set_grads (<[d_id x.1 := x.2]> (ds_grad s)) (ds_main s) ;; backward_post_hook env ps d x.1.
Lemma backward_pass_arrive pass : backward_pass env ps d pass = iterM arrive pass.
Proof. unfold backward_pass. induction pass as [|[p v] pass IH]; [done|]. cbn [iterM]. by rewrite IH. Qed.
Lemma arrive_ok x s i : overlap_grad_reduce (dd_cfg d) = true -> dd_param_to_group d !! d_id x.1 = Some i -> d_requires_grad x.1 = true -> d_id x.1 ∉ ds_added s ->
  arrive x s = on_world d (register_grad_ready env ps i (d_id x.1))
    (mkDstate (ds_world s) (clear_grad x (ds_grad s)) (accumulate x (ds_main s)) (ds_added s) (ds_hooks s) (ds_overlap_step s) (ds_log s)).
Proof.
  intros Hov Hi Hrg Hna. destruct x as [p v]. cbn [fst snd] in *. unfold arrive. erewrite bind_step by reflexivity. erewrite bind_step by reflexivity. unfold backward_post_hook. cbn [fst]. rewrite Hi, Hov, Hrg.
  erewrite bind_step by reflexivity. erewrite bind_step by reflexivity. cbn [ds_grad ds_main ds_added snd]. rewrite lookup_insert_eq. cbn [is_none negb].
  erewrite bind_step by reflexivity. rewrite bool_decide_true by done. cbn [orb].
  erewrite bind_step by reflexivity. reflexivity.
Qed.

(** Between iterations: the groups are as after their construction, up to the
    gradients registered last time. *)
Record between_iterations (n tp pp : Z) s : Prop := {
  bi_groups : Forall2 (fun g g' => exists r l, g' = set_ready r l g) (dd_groups d) (w_groups (ds_world s));
  bi_ready : ready (w_bc (ds_world s));
  bi_names : names_ok n tp pp (dd_groups d) (w_bc (ds_world s))
}.

(** [param_to_bucket_group] has trainable parameters only. *)
Definition owners_trainable : Prop :=
  forall p, is_Some (dd_param_to_group d !! p) -> p ∈ map d_id (filter (fun p => d_requires_grad p = true) (dd_params d)).

Lemma map_ready (gs gs' : list (group PG)) r l : Forall2 (fun g g' => exists r l, g' = set_ready r l g) gs gs' -> map (set_ready r l) gs' = map (set_ready r l) gs.
Proof. induction 1 as [|g g' gs gs' (r' & l' & ->) _ IH]; [done|]. cbn. by rewrite IH. Qed.

Lemma iter_emit (f : nat -> ddp_event PG) l s : iterM (fun k => emitD (f k)) l s =
  (Ok tt, mkDstate (ds_world s) (ds_grad s) (ds_main s) (ds_added s) (ds_hooks s) (ds_overlap_step s) (ds_log s ++ map f l)).
Proof.
  revert s. induction l as [|k l IH]; intros s; cbn [iterM map]; [rewrite app_nil_r; by destruct s|].
  erewrite bind_step by reflexivity. rewrite IH. cbn. by rewrite <- app_assoc.
Qed.

Definition trainable_ids : gset Z := list_to_set (map d_id (filter (fun p => d_requires_grad p = true) (dd_params d))).

Lemma zero_grad_buffer_ok s : length (w_groups (ds_world s)) = length (dd_groups d) ->
  exists lg, zero_grad_buffer d false s = (Ok tt, mkDstate (with_groups (ds_world s) (map (set_ready ∅ true) (w_groups (ds_world s))))
    (ds_grad s) ∅ (ds_added s ∖ trainable_ids) (ds_hooks s) (ds_overlap_step s) lg).
Proof.
  intros Hl. eexists. unfold zero_grad_buffer. erewrite bind_step by reflexivity. cbn [negb whenM].
  erewrite bind_step by reflexivity. erewrite bind_step by (unfold for_buffers; apply iter_emit). erewrite bind_step by reflexivity.
  unfold reset. rewrite for_groups_assign by done. reflexivity.
Qed.

(** The passes inside [no_sync]. *)
Lemma quiet_pass pass s : overlap_grad_reduce (dd_cfg d) = true -> pass_ok s pass ->
  (forall ids, iterM (register_param env ps (dd_param_to_group d)) ids (ds_world s) = (Ok tt, ds_world s)) ->
  backward_pass env ps d pass s =
  (Ok tt, mkDstate (ds_world s) (clear_grads pass (ds_grad s)) (accumulate_all pass (ds_main s)) (ds_added s) (ds_hooks s) (ds_overlap_step s) (ds_log s)).
Proof.
  intros Hov Hp Hq. rewrite backward_pass_arrive. revert s Hp Hq. induction pass as [|x pass IH]; intros s Hp Hq; [by destruct s|].
  apply Forall_cons in Hp as [([i Hi] & Hrg & Hna) Hp]. pose proof (Hq [d_id x.1]) as E1. cbn [iterM] in E1. unfold register_param in E1. rewrite Hi in E1.
  unfold mbind, M_bind in E1. destruct (register_grad_ready env ps i (d_id x.1) (ds_world s)) as [[[]|] w1] eqn:E; [|done]. injection E1 as ->.
  cbn [iterM]. erewrite bind_step; [apply (IH (mkDstate _ _ _ _ _ _ _)); [exact Hp|exact Hq]|].
  rewrite (arrive_ok x s i Hov Hi Hrg Hna). erewrite on_world_ok; [reflexivity|exact E|by apply in_place_same].
Qed.
Lemma quiet_passes passes s : overlap_grad_reduce (dd_cfg d) = true -> Forall (pass_ok s) passes ->
  (forall ids, iterM (register_param env ps (dd_param_to_group d)) ids (ds_world s) = (Ok tt, ds_world s)) ->
  exists g, iterM (backward_pass env ps d) passes s =
    (Ok tt, mkDstate (ds_world s) g (fold_left (fun m pass => accumulate_all pass m) passes (ds_main s)) (ds_added s) (ds_hooks s) (ds_overlap_step s) (ds_log s)).
Proof.
  intros Hov Hp Hq. revert s Hp Hq. induction passes as [|pass passes IH]; intros s Hp Hq; [exists (ds_grad s); by destruct s|].
  apply Forall_cons in Hp as [Hp1 Hp]. destruct (IH (mkDstate (ds_world s) (clear_grads pass (ds_grad s)) (accumulate_all pass (ds_main s)) (ds_added s) (ds_hooks s) (ds_overlap_step s) (ds_log s)))
    as [g Hg]; [exact Hp|exact Hq|]. exists g. cbn [iterM]. erewrite bind_step by (by apply quiet_pass). exact Hg.
Qed.

Lemma accumulate_passes passes m p :
  default [] (fold_left (fun k pass => accumulate_all pass k) passes m !! p) = default [] (m !! p) ++ map GAdd (concat (map (grads_of p) passes)).
Proof.
  revert m. induction passes as [|pass passes IH]; intros m; cbn [fold_left map concat]; [by rewrite app_nil_r|].
  rewrite IH, accumulate_all_lookup, map_app. by rewrite <- app_assoc.
Qed.

Context (collective : gval PG) (n tp pp : Z).
Context (Hsize : call_size (Some collective) = Ok n) (Hn : 0 < n).
Context (Htp : get_tensor_model_parallel_rank env ps = Ok tp) (Hpp : get_pipeline_model_parallel_rank env ps = Ok pp).
#[local] Notation avg := (average_in_collective (dd_cfg d)).
#[local] Notation gs := (dd_groups d).
#[local] Notation owner := (dd_param_to_group d).
Context (F : group_family collective gs avg owner) (Hov : overlap_grad_reduce (dd_cfg d) = true).
(** The buckets have different tensors and different parameters. *)
Context (Htensors : NoDup (map grad_tensor (all_buckets d))) (Hids : NoDup (group_param_ids (all_buckets d))).

(** What the start of a reduction does to the main gradients of a bucket *)
Definition scaling (b : bucket) : list (grad_op A) := if f64_eqb (b_gradient_scaling_factor b) f64_one then [] else [GScale (b_gradient_scaling_factor b)].
Definition reducing (b : bucket) : list (grad_op A) := scaling b ++ [GReduce (if avg then AVG else SUM)].
Definition start_ops (bs : list bucket) : list (bucket * grad_op A) :=
  concat (map (fun b => map (pair b) (scaling b)) bs) ++ concat (map (fun b => map (pair b) [GReduce (if avg then AVG else SUM)]) bs).

Lemma group_buckets_in i g b : gs !! i = Some g -> b ∈ gr_buckets g -> b ∈ all_buckets d.
Proof.
  intros Hi Hb. apply list_elem_of_In, in_concat. exists (gr_buckets g). split; [apply in_map, list_elem_of_In; by eapply list_elem_of_lookup_2|by apply list_elem_of_In].
Qed.
Lemma start_in_place w w' i g h : gs !! i = Some g -> w_log w' = w_log w ++ scale_events (gr_buckets g) ->
  bs_log (bc_bps (w_bc w')) = bs_log (bc_bps (w_bc w)) ++ push_events tp pp h avg (gr_buckets g) -> in_place d w w' = start_ops (gr_buckets g).
Proof.
  intros Hi E1 E2. rewrite (in_place_logs w w' _ _ E1 E2). unfold start_ops. f_equal.
  - clear. unfold scale_events. induction (gr_buckets g) as [|b bs IH]; [done|]. cbn [map concat]. rewrite map_app, concat_app, IH. f_equal. unfold scaling. by destruct (f64_eqb _ _).
  - assert (Hone : forall b, b ∈ all_buckets d -> filter (fun b' => grad_tensor b' = grad_tensor b) (all_buckets d) = [b]).
    { clear -Htensors. induction (all_buckets d) as [|x l IH]; intros b; [by intros ?%elem_of_nil|]. cbn in Htensors. apply NoDup_cons in Htensors as [Hx Hl]. intros [->|Hb]%elem_of_cons.
      - rewrite filter_cons_True by done. f_equal. apply filter_none. apply Forall_forall. intros y Hy Hxy. apply Hx. rewrite <- Hxy. by apply list_elem_of_fmap_2.
      - rewrite filter_cons_False; [by apply IH|]. intros Hxy. apply Hx. rewrite Hxy. by apply list_elem_of_fmap_2. }
    assert (Hin : Forall (fun b => b ∈ all_buckets d) (gr_buckets g)) by (apply Forall_forall; intros b Hb; by eapply group_buckets_in).
    clear -Hone Hin. revert h. induction Hin as [|b bs Hb _ IH]; intros h; [done|]. cbn [push_events map concat]. rewrite IH. f_equal. cbn [push_ops]. by rewrite Hone.
Qed.

(** The main gradient of parameter [p] when the groups of [started] have started *)
Definition started_ops (started : list nat) (p : Z) : list (grad_op A) :=
  match owner !! p with
  | Some i => if decide (i ∈ started) then match gs !! i with Some g => ops_at p (start_ops (gr_buckets g)) | None => [] end else []
  | None => []
  end.
Lemma start_other i g p : gs !! i = Some g -> owner !! p <> Some i -> ops_at p (start_ops (gr_buckets g)) = [].
Proof.
  intros Hi Hp. apply ops_at_other. apply Forall_forall. intros [b o] Hb Hin. cbn in Hin. apply Hp, (gf_owner _ _ _ _ F). exists g. split; [done|].
  assert (Hbg : b ∈ gr_buckets g).
  { apply elem_of_app in Hb as [Hb|Hb]; apply list_elem_of_In, in_concat in Hb as (l & (b' & <- & Hb')%in_map_iff & (y & [= <- <-] & _)%in_map_iff); by apply list_elem_of_In. }
  apply list_elem_of_In, in_concat. exists (map p_id (b_params b)). split; [apply in_map_iff; exists b; by rewrite <- list_elem_of_In|by apply list_elem_of_In].
Qed.
Lemma started_snoc started i g p : gs !! i = Some g -> i ∉ started -> started_ops (started ++ [i]) p = started_ops started p ++ ops_at p (start_ops (gr_buckets g)).
Proof.
  intros Hi Hns. unfold started_ops. destruct (owner !! p) as [j|] eqn:Ej; [|by rewrite (start_other i g p Hi) by congruence]. destruct (decide (j = i)) as [->|Hne].
  - rewrite (decide_False (P := i ∈ started)) by done. rewrite decide_True by set_solver. by rewrite Hi.
  - rewrite (start_other i g p Hi) by congruence. rewrite app_nil_r. destruct (decide (j ∈ started)) as [Hj|Hj]; [by rewrite decide_True by set_solver|]. rewrite decide_False; [done|]. set_solver.
Qed.

(** The last pass after the gradients of [done] *)
Record passing s0 (done : list (dparam * A)) (started : list nat) (H : nat -> list Z) s : Prop := {
  pa_after : after n tp pp gs avg (ds_world s0) (map (fun x => d_id x.1) done) started H (ds_world s);
  pa_main : forall p, default [] (ds_main s !! p) = default [] (ds_main s0 !! p) ++ map GAdd (grads_of p done) ++ started_ops started p;
  pa_added : ds_added s = ds_added s0
}.
Lemma passing_step s0 done started H s x : passing s0 done started H s -> is_Some (owner !! d_id x.1) -> d_requires_grad x.1 = true -> d_id x.1 ∉ ds_added s0 ->
  d_id x.1 ∉ map (fun x => d_id x.1) done -> exists started' H' s', arrive x s = (Ok tt, s') /\ passing s0 (done ++ [x]) started' H' s'.
Proof.
  intros [P1 P2 P3] [i Hi] Hrg Hna Hnd. pose proof Hna as Hna'. rewrite <- P3 in Hna'.
  destruct (after_step env ps collective n tp pp Hsize Hn Htp Hpp gs avg owner F _ _ _ _ _ _ _ P1 Hi Hnd) as (st' & H' & w' & E & Af & Hns & Hcase).
  unfold register_param in E. rewrite Hi in E. set (s1 := mkDstate (ds_world s) (clear_grad x (ds_grad s)) (accumulate x (ds_main s)) (ds_added s) (ds_hooks s) (ds_overlap_step s) (ds_log s)).
  exists st', H', (mkDstate w' (ds_grad s1) (fold_left append_op (in_place d (ds_world s) w') (ds_main s1)) (ds_added s1) (ds_hooks s1) (ds_overlap_step s1) (ds_log s1)). split.
  - rewrite (arrive_ok x s i Hov Hi Hrg Hna'). fold s1. unfold on_world. change (ds_world s1) with (ds_world s). by rewrite E.
  - split; [by rewrite map_app| |done]. intros p. cbn [ds_main]. rewrite append_ops_lookup. cbn [s1 ds_main]. rewrite accumulate_lookup, P2, grads_of_app, map_app.
    assert (Hx : started_ops started p ++ map GAdd (grads_of p [x]) = map GAdd (grads_of p [x]) ++ started_ops started p).
    { destruct (decide (p = d_id x.1)) as [->|Hne].
      - unfold started_ops. rewrite Hi, decide_False by done. by rewrite app_nil_r.
      - assert (Hg : grads_of p [x] = []) by (unfold grads_of; rewrite filter_cons_False by congruence; done). rewrite Hg. by rewrite app_nil_r. }
    assert (Hop : started_ops st' p = started_ops started p ++ ops_at p (in_place d (ds_world s) w')).
    { destruct Hcase as [(-> & L1 & L2)|(g & h & Hg & -> & L1 & L2)]; [by rewrite (in_place_same _ _ L1 L2), app_nil_r|]. rewrite (start_in_place _ _ i g h Hg L1 L2). by apply started_snoc. }
    rewrite Hop. rewrite <- !app_assoc. do 2 f_equal. rewrite (app_assoc (started_ops started p)), Hx. by rewrite <- app_assoc.
Qed.
Lemma passing_many s0 rest done started H s : passing s0 done started H s -> pass_ok s0 rest -> NoDup (map (fun x => d_id x.1) (done ++ rest)) ->
  exists started' H' s', iterM arrive rest s = (Ok tt, s') /\ passing s0 (done ++ rest) started' H' s'.
Proof.
  revert done started H s. induction rest as [|x rest IH]; intros done started H s P Hp Hnd; [exists started, H, s; by rewrite app_nil_r|].
  apply Forall_cons in Hp as [(Ho & Hrg & Hna) Hp]. destruct (passing_step s0 done started H s x P Ho Hrg Hna) as (st1 & H1 & s1 & E1 & P1).
  { rewrite map_app in Hnd. apply NoDup_app in Hnd as (_ & Hd & _). intros Hin. apply (Hd _ Hin). cbn. by left. }
  rewrite (cons_middle x done rest), app_assoc in Hnd |- *. destruct (IH _ _ _ _ P1 Hp Hnd) as (st2 & H2 & s2 & E2 & P2).
  exists st2, H2, s2. split; [|done]. cbn [iterM]. by erewrite bind_step by exact E1.
Qed.

(** Waiting for the groups leaves the main gradients as they are. *)
Lemma finish_groups H w1 s k : finishing gs H w1 0 w1 -> ds_world s = w1 -> NoDup (concat (map H (seq 0 (length gs)))) ->
  (forall h, h ∈ concat (map H (seq 0 (length gs))) -> is_Some (bs_handle_map (bc_bps (w_bc w1)) !! h)) -> (k <= length gs)%nat ->
  exists w, iterM (fun i => on_world d (finish_grad_sync env ps i)) (seq 0 k) s = (Ok tt, with_world s w) /\ finishing gs H w1 k w.
Proof.
  intros F0 Hw Hnd Hp. induction k as [|k IH]; intros Hk; [exists w1; split; [destruct s; cbn in *; by subst|done]|]. destruct IH as (w & E & Fi); [lia|].
  destruct (finish_step env ps collective n tp pp Hsize Hn Htp Hpp gs avg owner F H w1 k w Fi ltac:(lia) Hnd) as (w' & E' & Fi' & L1 & L2).
  { intros h Hh. apply Hp, list_elem_of_In, in_concat. exists (H k). split; [apply in_map, in_seq; lia|by apply list_elem_of_In]. }
  exists w'. split; [|done]. rewrite seq_S, iterM_app. erewrite bind_step by exact E. cbn [iterM Nat.add].
  erewrite bind_step by (apply (on_world_ok _ (with_world s w)); [exact E'|by eapply in_place_quiet]). reflexivity.
Qed.

(** In the end every group has started. *)
Lemma started_all started b q : started ≡ₚ seq 0 (length gs) -> b ∈ all_buckets d -> q ∈ b_params b -> started_ops started (p_id q) = reducing b.
Proof.
  intros Hst Hb Hq. apply list_elem_of_In, in_concat in Hb as (bs & (g & <- & Hg)%in_map_iff & Hb%list_elem_of_In). apply list_elem_of_In, list_elem_of_lookup in Hg as [i Hi].
  assert (Hin : p_id q ∈ group_param_ids (gr_buckets g)).
  { apply list_elem_of_In, in_concat. exists (map p_id (b_params b)). split; [apply in_map_iff; exists b; by rewrite <- list_elem_of_In|by apply list_elem_of_In, list_elem_of_fmap_2]. }
  assert (Hnd : NoDup (group_param_ids (gr_buckets g))).
  { clear -Hids Hi. unfold all_buckets in Hids. apply list_elem_of_split_length in Hi as (l1 & l2 & E & _). rewrite E in Hids. revert Hids.
    unfold group_param_ids. rewrite map_app, concat_app, map_app, concat_app. cbn [map concat]. rewrite map_app, concat_app. intros (_ & _ & H)%NoDup_app. by apply NoDup_app in H as (? & _). }
  unfold started_ops. rewrite (proj2 (gf_owner _ _ _ _ F (p_id q) i)) by (by exists g). rewrite decide_True by (rewrite Hst; apply elem_of_seq; split; [lia|by eapply lookup_lt_Some]).
  rewrite Hi. unfold start_ops. rewrite ops_at_app. by rewrite !(ops_at_bucket _ _ b q Hnd Hb Hq).
Qed.

(** A whole iteration *)
Lemma iteration_ok passes last s : owners_trainable -> between_iterations n tp pp s ->
  Forall (Forall (fun x => is_Some (owner !! d_id x.1) /\ d_requires_grad x.1 = true)) (passes ++ [last]) ->
  NoDup (map (fun x => d_id x.1) last) -> (forall p, is_Some (owner !! p) -> p ∈ map (fun x => d_id x.1) last) ->
  let bps s := bc_bps (w_bc (ds_world s)) in let h := bs_last_handle (bps s) in
  exists bs hs s', train_iteration env ps d passes last s = (Ok tt, s') /\ between_iterations n tp pp s' /\
    (forall b q, b ∈ all_buckets d -> q ∈ b_params b ->
       default [] (ds_main s' !! p_id q) = map GAdd (concat (map (grads_of (p_id q)) (passes ++ [last]))) ++ reducing b) /\
    bs ≡ₚ all_buckets d /\ hs ≡ₚ push_handles h bs /\
    bs_log (bps s') = bs_log (bps s) ++ push_events tp pp h avg bs ++ map EvWait hs /\
    bs_handle_map (bps s') = bs_handle_map (bps s).
Proof.
  intros Htr [B1 B2 B3] Hpo Hnd Hall bps h.
  assert (Hl : length (w_groups (ds_world s)) = length gs) by (symmetry; by eapply Forall2_length).
  destruct (zero_grad_buffer_ok s Hl) as [lg E0]. set (s0 := mkDstate _ _ _ _ _ _ _) in E0.
  assert (Hadd : forall t pass, ds_added t = ds_added s0 -> pass ∈ passes ++ [last] -> pass_ok t pass).
  { intros t pass Ht Hin. rewrite Forall_forall in Hpo. specialize (Hpo pass Hin). eapply Forall_impl; [exact Hpo|]. cbn. intros x [Hx1 Hx2].
    split_and!; [done|done|]. rewrite Ht. cbn. assert (d_id x.1 ∈ trainable_ids) by (unfold trainable_ids; rewrite elem_of_list_to_set; by apply Htr).
    set_solver. }
  set (w1 := with_groups (ds_world s) (map (set_ready ∅ false) gs)). set (s1 := with_world s0 w1).
  assert (E1 : no_sync_enter d s0 = (Ok tt, s1)).
  { unfold no_sync_enter, set_last_microbatch. rewrite for_groups_assign by (cbn; by rewrite length_map). unfold s1, w1. do 2 f_equal. cbn.
    unfold with_groups. cbn. f_equal. rewrite map_map. exact (map_ready gs (w_groups (ds_world s)) ∅ false B1). }
  destruct (quiet_passes passes s1 Hov) as [g2 E2].
  { apply Forall_forall. intros pass Hin. apply Hadd; [done|]. set_solver. }
  { intros ids. by apply (register_quiet env ps collective gs avg owner F). }
  set (s2 := mkDstate _ _ _ _ _ _ _) in E2. set (w3 := with_groups (ds_world s) (map (set_ready ∅ true) gs)). set (s3 := with_world s2 w3).
  assert (E3 : no_sync_exit d s2 = (Ok tt, s3)).
  { unfold no_sync_exit, set_last_microbatch. rewrite for_groups_assign by (cbn; by rewrite length_map). unfold s3, w3. do 2 f_equal. cbn.
    unfold with_groups. cbn. f_equal. by rewrite map_map. }
  assert (P0 : passing s3 [] [] (fun _ => []) s3).
  { split; [by apply (after_start env ps collective n tp pp Hsize Hn Htp Hpp gs avg owner F)| |done]. intros p. unfold started_ops. cbn.
    destruct (owner !! p); [rewrite decide_False by (by intros ?%elem_of_nil)|]; by rewrite ?app_nil_r. }
  destruct (passing_many s3 last [] [] (fun _ => []) s3 P0 (Hadd s3 last eq_refl ltac:(apply elem_of_app; right; by left)) Hnd) as (started & H & s4 & E4 & P4).
  cbn [app] in P4. destruct (finishing_start collective n tp pp gs avg owner F _ _ _ _ _ (pa_after _ _ _ _ _ P4) Hall) as (F0 & HpH & HndH).
  destruct (finish_groups H (ds_world s4) s4 (length gs) F0 eq_refl HndH) as (w5 & E5 & F5); [|lia|].
  { intros k Hk. apply (af_pending _ _ _ _ _ _ _ _ _ _ (pa_after _ _ _ _ _ P4)). by rewrite HpH. }
  destruct (finishing_end collective n tp pp gs avg owner F w3 _ _ _ _ w5 B2 (pa_after _ _ _ _ _ P4) Hall F5) as (bs & hs & Q1 & Q2 & Q3 & Q4 & Q5 & Q6 & Q7).
  exists bs, hs, (with_world s4 w5). split_and!.
  - unfold train_iteration. erewrite bind_step by exact E0. erewrite bind_step by exact E1. erewrite bind_step by exact E2. erewrite bind_step by exact E3.
    erewrite bind_step by (rewrite backward_pass_arrive; exact E4). exact E5.
  - split; cbn; [|done|done]. rewrite Q7. clear. generalize gs. intros l. induction l as [|g l IH]; cbn; constructor; eauto.
  - intros b q Hb Hq. cbn. rewrite (pa_main _ _ _ _ _ P4). cbn. rewrite accumulate_passes, lookup_empty. cbn [default app].
    rewrite (started_all started b q (after_complete collective n tp pp gs avg owner F _ _ _ _ _ (pa_after _ _ _ _ _ P4) Hall) Hb Hq).
    assert (E : concat (map (grads_of (p_id q)) (passes ++ [last])) = concat (map (grads_of (p_id q)) passes) ++ grads_of (p_id q) last).
    { rewrite map_app, concat_app. cbn. by rewrite app_nil_r. }
    rewrite E, map_app. by rewrite <- app_assoc.
  - done.
  - done.
  - exact Q3.
  - exact Q4.
Qed.
End Iteration.

(** ** The constructor *)

(** Sorting by dtype keeps every parameter, under its key. *)
Record sorted_by (cfg : ddp_config) (params : list dparam) (m : list ((dtype * dtype) * list dparam)) : Prop := {
  sb_keys : NoDup (map fst m);
  sb_perm : concat (map snd m) ≡ₚ params;
  sb_key : forall k vs p, (k, vs) ∈ m -> p ∈ vs -> buffer_key cfg p = k;
  sb_nonempty : forall k vs, (k, vs) ∈ m -> vs <> []
}.

Lemma dict_append_keys {K V} `{EqDecision K} (k : K) (v : V) m : map fst (dict_append k v m) = if decide (k ∈ map fst m) then map fst m else map fst m ++ [k].
Proof.
  induction m as [|[k' vs] m IH]; [done|]. cbn. destruct (decide (k = k')) as [->|Hne]; cbn.
  - by rewrite decide_True by left.
  - rewrite IH. destruct (decide (k ∈ map fst m)) as [Hin|Hin]; [by rewrite decide_True by (by right)|].
    rewrite decide_False; [done|]. by intros [|]%elem_of_cons.
Qed.
Lemma dict_append_perm {K V} `{EqDecision K} (k : K) (v : V) m : concat (map snd (dict_append k v m)) ≡ₚ v :: concat (map snd m).
Proof.
  induction m as [|[k' vs] m IH]; [done|]. cbn. destruct (decide (k = k')); cbn; [rewrite <- app_assoc; cbn; by rewrite Permutation_middle|].
  rewrite IH. by rewrite Permutation_middle.
Qed.
Lemma dict_append_elem {K V} `{EqDecision K} (k : K) (v : V) m k' vs : (k', vs) ∈ dict_append k v m ->
  (k', vs) ∈ m \/ (k' = k /\ exists vs0, vs = vs0 ++ [v] /\ (vs0 = [] \/ (k, vs0) ∈ m)).
Proof.
  induction m as [|[k0 vs0] m IH]; cbn.
  - intros [= -> ->]%list_elem_of_singleton. right. split; [done|]. exists []. auto.
  - destruct (decide (k = k0)) as [->|Hne].
    + intros [[= -> ->]|Hin]%elem_of_cons; [|left; by right]. right. split; [done|]. exists vs0. split; [done|]. right. left.
    + intros [[= -> ->]|Hin]%elem_of_cons; [left; left|]. destruct (IH Hin) as [?|(-> & vs1 & -> & [->|?])]; [left; by right| |].
      * right. split; [done|]. exists []. auto.
      * right. split; [done|]. exists vs1. split; [done|]. right. by right.
Qed.

Lemma group_by_dtype_ok cfg params : sorted_by cfg params (group_by_dtype cfg params).
Proof.
  unfold group_by_dtype. induction params as [|p params IH] using rev_ind.
  - split; cbn; try done; [constructor|intros k vs q Hin; by apply elem_of_nil in Hin|intros k vs Hin; by apply elem_of_nil in Hin].
  - rewrite fold_left_app. cbn. set (m := fold_left _ params []) in *. destruct IH as [S1 S2 S3 S4]. split.
    + rewrite dict_append_keys. destruct (decide _); [done|]. apply NoDup_app. split_and!; [done|set_solver|apply NoDup_singleton].
    + rewrite dict_append_perm, S2. by rewrite Permutation_cons_append.
    + intros k vs q [Hin|(-> & vs0 & -> & Hvs)]%dict_append_elem Hq; [by eapply S3|].
      apply elem_of_app in Hq as [Hq| ->%list_elem_of_singleton]; [|done]. destruct Hvs as [->|Hin]; [by apply elem_of_nil in Hq|by eapply S3].
    + intros k vs [Hin|(-> & vs0 & -> & _)]%dict_append_elem; [by eapply S4|]. by destruct vs0.
Qed.

(** Without float8 parameters the dtype of the parameters tells the buffers apart. *)
Lemma sorted_dtypes cfg params m : sorted_by cfg params m -> Forall (fun p => p_float8 (d_param p) = false) params -> NoDup (map (fun e => e.1.1) m) /\
  forall e, e ∈ m -> exists p, p ∈ params /\ e.1.1 = d_dtype p.
Proof.
  intros [S1 S2 S3 S4] Hf. rewrite Forall_forall in Hf.
  assert (Hkey : forall k vs, (k, vs) ∈ m -> exists p, p ∈ params /\ k = (d_dtype p, if grad_reduce_in_fp32 cfg then Float32 else d_dtype p)).
  { intros k vs Hin. destruct vs as [|p vs]; [by destruct (S4 k [] Hin)|].
    assert (Hp : p ∈ params). { rewrite <- S2. apply list_elem_of_In, in_concat. exists (p :: vs). split; [|by left]. apply in_map_iff. exists (k, p :: vs).
      split; [done|by apply list_elem_of_In]. }
    exists p. split; [done|]. rewrite <- (S3 k (p :: vs) p Hin) by left. unfold buffer_key. by rewrite Hf. }
  split.
  - clear S2 S3 S4. induction m as [|[k vs] m IH]; cbn in *; [constructor|]. apply NoDup_cons in S1 as [Hk S1]. constructor; [|apply IH; [done|intros; eapply Hkey; by right]].
    intros Hin. apply Hk. apply list_elem_of_fmap in Hin as ([k' vs'] & Ek & Hin'). cbn in Ek.
    destruct (Hkey k vs ltac:(left)) as (p & _ & ->). destruct (Hkey k' vs' ltac:(by right)) as (p' & _ & ->). cbn in Ek.
    apply list_elem_of_fmap. eexists. split; [|exact Hin']. cbn. rewrite Ek. done.
  - intros [k vs] Hin. destruct (Hkey k vs Hin) as (p & Hp & ->). by exists p.
Qed.

Section Construct.
Context {PG : Type} `{PGI : !ProcessGroup PG} `{EQ : !EqDecision PG} (env : dist_env).
Notation ids g := (group_param_ids (gr_buckets g)).

Lemma map_params_snoc base (gs : list (group PG)) g m :
  map_params base (gs ++ [g]) m = fold_left (fun (m : gmap Z nat) p => <[p := (base + length gs)%nat]> m) (ids g) (map_params base gs m).
Proof. unfold map_params. rewrite imap_app, fold_left_app. cbn. by rewrite Nat.add_0_r. Qed.

Lemma insert_all_lookup (l : list Z) (v : nat) (m : gmap Z nat) p :
  fold_left (fun (m : gmap Z nat) p => <[p := v]> m) l m !! p = if decide (p ∈ l) then Some v else m !! p.
Proof.
  induction l as [|q l IH] using rev_ind; cbn; [by rewrite decide_False by set_solver|]. rewrite fold_left_app. cbn.
  destruct (decide (p = q)) as [->|Hne]; [rewrite lookup_insert_eq; by rewrite decide_True by set_solver|].
  rewrite lookup_insert_ne by done. rewrite IH. destruct (decide (p ∈ l)); [by rewrite decide_True by set_solver|by rewrite decide_False by set_solver].
Qed.

(** Every parameter is mapped to the group it is in. *)
Lemma map_params_owner (gs : list (group PG)) p i : NoDup (concat (map (fun g => ids g) gs)) ->
  map_params 0 gs ∅ !! p = Some i <-> exists g, gs !! i = Some g /\ p ∈ ids g.
Proof.
  induction gs as [|g gs IH] using rev_ind; intros Hnd.
  - cbn. split; [done|]. intros (g & Hg & _). done.
  - rewrite map_app, concat_app in Hnd. cbn in Hnd. rewrite app_nil_r in Hnd. apply NoDup_app in Hnd as (Hnd & Hdis & _).
    rewrite map_params_snoc, insert_all_lookup. cbn [Nat.add]. destruct (decide (p ∈ ids g)) as [Hin|Hin].
    + split; [intros [= <-]; exists g; rewrite lookup_app_r, Nat.sub_diag by lia; done|].
      intros (g' & Hg' & Hp). destruct (decide (i = length gs)) as [->|Hne]; [done|]. exfalso.
      rewrite lookup_app_l in Hg' by (apply lookup_lt_Some in Hg'; rewrite length_app in Hg'; cbn in Hg'; lia).
      apply (Hdis p); [|done]. apply list_elem_of_In, in_concat. exists (ids g'). split; [|by apply list_elem_of_In].
      apply in_map_iff. exists g'. split; [done|]. apply list_elem_of_In. by eapply list_elem_of_lookup_2.
    + rewrite IH by done. split; intros (g' & Hg' & Hp); exists g'.
      * split; [|done]. by apply lookup_app_l_Some.
      * split; [|done]. apply lookup_app_Some in Hg' as [?|[_ Hg']]; [done|]. apply list_lookup_singleton_Some in Hg' as [_ <-]. done.
Qed.

Lemma group_of_buffer_fields (b : dp_buffer PG) bs g : group_of_buffer env b bs = Ok g -> gr_cfg g = bf_cfg (db_buffer b) /\ gr_collective g = db_group b.
Proof. unfold group_of_buffer, group_init. intros H. destruct (if use_distributed_optimizer _ then _ else _); [|done]. injection H as <-. done. Qed.

(** The groups of [partition_buckets] when there are no fp8 parameters. *)
Lemma partition_fields (buffers : list (dp_buffer PG)) gs : UInt8 ∉ map (fun b => bf_param_dtype (db_buffer b)) buffers ->
  NoDup (map (fun b => bf_param_dtype (db_buffer b)) buffers) -> partition_buckets env buffers false = Ok gs ->
  Forall (fun g => exists b, b ∈ buffers /\ gr_cfg g = bf_cfg (db_buffer b) /\ gr_collective g = db_group b) gs.
Proof.
  intros Hno Hnd. destruct buffers as [|first l]; [intros [= <-]; constructor|]. set (all := first :: l) in *.
  unfold partition_buckets. unfold all at 1. cbv iota. rewrite (dtype_map_ok all Hnd). ret_step. destruct (list_find _ _) as [[k [dt fp8]]|] eqn:Ef.
  { exfalso. apply list_find_Some in Ef as (Hk & Hd & _). cbn in Hd. subst dt. apply list_lookup_fmap_Some in Hk as (b & [= Hu <-] & Hk).
    apply Hno. rewrite Hu. apply list_elem_of_fmap. exists fp8. split; [done|]. by eapply list_elem_of_lookup_2. }
  destruct (mapR _ all) as [gss|] eqn:Em; [|done]. cbn. intros [= <-]. apply mapR_ok_Forall2 in Em.
  apply Forall_forall. intros g (gl & Hgl & Hg)%list_elem_of_In%in_concat. apply list_elem_of_In, list_elem_of_lookup in Hgl as [k Hk].
  destruct (Forall2_lookup_r _ _ _ _ _ Em Hk) as (b & Hb & Hm). apply mapR_ok_Forall2 in Hm. apply list_elem_of_In, list_elem_of_lookup in Hg as [j Hj].
  destruct (Forall2_lookup_r _ _ _ _ _ Hm Hj) as (bk & _ & Hgb). apply group_of_buffer_fields in Hgb. exists b. split; [by eapply list_elem_of_lookup_2|done].
Qed.

Lemma link_groups_id cfg inter stream base (gs : list (group PG)) : use_distributed_optimizer cfg = false -> num_instances cfg = 1 ->
  link_groups cfg inter stream base gs = gs.
Proof.
  intros H1 H2. unfold link_groups. rewrite H1, H2. cbn. transitivity (imap (fun _ g => g) gs); [|].
  - apply imap_ext. intros k g _. by destruct g.
  - apply list_eq. intros i. rewrite list_lookup_imap. by destruct (gs !! i).
Qed.

(** [1.0 / n] is a number, so it equals itself. *)
Lemma reciprocal_ok n : 0 < n < 2 ^ 53 -> exists f, truediv_fi f64_one n = Ok f /\ f64_eqb f f = true.
Proof.
  intros Hn. destruct (float_of_int_canon n Hn) as (y & Hy & b & Hb & Hyr & Hyb). unfold truediv_fi. rewrite Hy. cbn [mbind res_bind].
  assert (H1 : rep f64_one 1 52) by (exists 4503599627370496%positive; done).
  destruct (SFdiv_spec f64_one y 1 n 52 b) as (mm & k & e & _ & _ & _ & Hd & _); [lia|lia|lia|lia|done|done| |].
  { pose proof (canon_log2 n b ltac:(lia) Hb Hyb). change (Z.log2 1) with 0. pose proof (Z.log2_nonneg n). lia. }
  unfold float_div. destruct Hyr as (my & -> & _). cbn [f64_is_zero]. rewrite Hd. eexists. split; [done|].
  unfold f64_eqb, SFeqb. cbn. by rewrite Z.compare_refl, Pos.compare_cont_refl.
Qed.

Definition trainable (params : list dparam) : list dparam := filter (fun p => d_requires_grad p = true) params.

(** A job that reduces the gradients of dense parameters over BytePS while the
    backward pass runs. *)
Record dpu_job (cfg : ddp_config) (s : pstate PG) (params : list dparam) (bps_size n : Z) (collective : gval PG) (pgs : ddp_groups PG) : Prop := {
  dj_overlap : overlap_grad_reduce cfg = true;
  dj_dpu : use_dpu_reduce cfg = true;
  dj_distopt : use_distributed_optimizer cfg = false;
  dj_instances : num_instances cfg = 1;
  dj_nan : check_for_nan_in_grad cfg = false;
  dj_large : check_for_large_grads cfg = false;
  dj_average : average_in_collective cfg = false;
  dj_bucket : bucket_size cfg = None -> exists k, get_data_parallel_world_size env false false s = Ok k;
  dj_groups : get_ddp_groups cfg s = Ok pgs;
  dj_dp_cp : call_size (dg_dp_cp pgs) = Ok n;
  dj_intra : dg_intra_dp_cp pgs = Some collective;
  dj_one : is_one collective;
  dj_size : call_size (Some collective) = Ok n;
  dj_pp : exists r, pp_group_rank env (dg_pp pgs) = Ok r;
  dj_n : 0 < n < 2 ^ 53;
  dj_bps : n <= bps_size;
  dj_dense : Forall (fun p => d_allreduce p = true /\ p_float8 (d_param p) = false /\ d_dtype p <> UInt8) (trainable params);
  dj_distinct : NoDup (map d_id (trainable params));
  dj_sizes : forall k vs, (k, vs) ∈ group_by_dtype cfg (trainable params) -> acceptable cfg n (map d_param vs)
}.

Lemma assert_trainable (l : list dparam) : Forall (fun p => d_requires_grad p = true) l ->
  foldR (fun (_ : unit) p => assert_ (d_requires_grad p) "param.requires_grad") tt l = Ok tt.
Proof. induction 1 as [|p l Hp Hl IH]; [done|]. cbn. by rewrite Hp. Qed.

(** Allocation for the dense parameters. *)
Lemma allocate_ok cfg pgs collective n f bsz params : overlap_grad_reduce cfg = true -> use_distributed_optimizer cfg = false -> num_instances cfg = 1 ->
  average_in_collective cfg = false -> call_size (dg_dp_cp pgs) = Ok n -> is_one collective -> call_size (Some collective) = Ok n ->
  truediv_fi f64_one n = Ok f -> f64_eqb f f = true -> Forall (fun p => d_requires_grad p = true) params ->
  Forall (fun p => p_float8 (d_param p) = false /\ d_dtype p <> UInt8) params -> NoDup (map d_id params) ->
  (forall k vs, (k, vs) ∈ group_by_dtype cfg params -> acceptable cfg n (map d_param vs)) ->
  exists buffers gs, allocate_buffers env cfg false false pgs bsz (Some collective) f 0 0 ∅ params = Ok (buffers, gs, map_params 0 gs ∅) /\
    Forall fresh_group gs /\ Forall (fun g => gr_cfg g = cfg /\ gr_collective g = collective) gs /\
    Forall (fun g => ids g <> []) gs /\ concat (map (fun g => ids g) gs) ≡ₚ map d_id params /\
    Forall (fun b => b_gradient_scaling_factor b = f) (concat (map gr_buckets gs)).
Proof.
  intros Hov Hdo Hni Hav Hdp Hone Hsz Hf Hff Htr Hfl Hnd Hac.
  pose proof (group_by_dtype_ok cfg params) as S0. set (m := group_by_dtype cfg params) in *.
  destruct (sorted_dtypes cfg params m S0) as [Hdt Hex]; [eapply Forall_impl; [exact Hfl|]; cbn; tauto|].
  destruct (mapR_ex (fun '((pd, gd), vs) => dp ← call_size (Some collective); bf ← buffer_init cfg pd gd (map d_param vs) dp bsz f; mret (mkDpBuffer bf collective))
    (fun e b => db_group b = collective /\ bf_cfg (db_buffer b) = cfg /\ bf_param_dtype (db_buffer b) = e.1.1 /\ bf_dp (db_buffer b) = n /\
       Forall (fun bk => b_params bk <> []) (bf_buckets (db_buffer b)) /\ bf_buckets (db_buffer b) <> [] /\
       concat (map b_params (bf_buckets (db_buffer b))) = reverse (map d_param e.2) /\
       Forall (fun b => b_gradient_scaling_factor b = f) (bf_buckets (db_buffer b))) m) as (buffers & Eb & Hb).
  { intros [[pd gd] vs] Hin. destruct (buffer_init_ok cfg pd gd (map d_param vs) n bsz f (Hac _ _ Hin)) as (bf & E & (C1 & C2 & C3 & C4) & _ & C5 & _).
    exists (mkDpBuffer bf collective). cbv beta iota. rewrite Hsz. cbn [mbind res_bind]. rewrite E. split; [done|].
    split_and!; try done; [|by apply (buffer_init_scaled _ _ _ _ _ _ _ _ (Hac _ _ Hin) E)]. cbn. intros Hnil. rewrite Hnil in C5. cbn in C5. apply (sb_nonempty _ _ _ S0 _ _ Hin). symmetry in C5. apply (f_equal reverse) in C5.
    rewrite reverse_involutive in C5. by destruct vs. }
  assert (Hbl : forall b, b ∈ buffers -> exists e, e ∈ m /\ db_group b = collective /\ bf_cfg (db_buffer b) = cfg /\ bf_param_dtype (db_buffer b) = e.1.1 /\ bf_dp (db_buffer b) = n /\
       Forall (fun bk => b_params bk <> []) (bf_buckets (db_buffer b)) /\ bf_buckets (db_buffer b) <> []).
  { intros b [i Hi]%list_elem_of_lookup. destruct (Forall2_lookup_r _ _ _ _ _ Hb Hi) as (e & He & Q). exists e. split; [by eapply list_elem_of_lookup_2|]. tauto. }
  assert (Edt : map (fun b => bf_param_dtype (db_buffer b)) buffers = map (fun e => e.1.1) m).
  { clear -Hb. induction Hb as [|e b m buffers (_ & _ & Q & _) _ IH]; [done|]. cbn. by rewrite IH, Q. }
  assert (Hno : UInt8 ∉ map (fun b => bf_param_dtype (db_buffer b)) buffers).
  { rewrite Edt. intros (e & Ee & He)%list_elem_of_fmap. destruct (Hex e He) as (p & Hp & Ep). rewrite Forall_forall in Hfl. destruct (Hfl p Hp). congruence. }
  destruct (partition_buckets_ok env buffers false) as (gs & Eg & Pg & Fg & Lg); [by rewrite Edt| |done|].
  { apply Forall_forall. intros b Hbin. destruct (Hbl b Hbin) as (e & _ & -> & _ & _ & _ & _ & Hn0). done. }
  exists buffers, gs. split; [|split; [done|]].
  - unfold allocate_buffers. rewrite assert_trainable by done. cbn [mbind res_bind]. unfold check_scaling. rewrite Hdp. cbn [mbind res_bind].
    rewrite Hf, Hav, Hni. cbn [mbind res_bind]. rewrite Hff. cbn [assert_ mbind res_bind]. fold m. rewrite Eb. cbn [mbind res_bind]. rewrite Eg. cbn.
    by rewrite link_groups_id.
  - split; [|split; [|split]].
    + assert (HndD : NoDup (map (fun b => bf_param_dtype (db_buffer b)) buffers)) by (by rewrite Edt).
      eapply Forall_impl; [exact (partition_fields buffers gs Hno HndD Eg)|]. cbn. intros g (b & Hbin & -> & ->).
      destruct (Hbl b Hbin) as (e & _ & -> & -> & _). done.
    + apply Forall_lookup. intros i g Hi. specialize (Lg eq_refl Hno). rewrite Forall_lookup in Lg. specialize (Lg i g Hi).
      destruct (gr_buckets g) as [|bk [|]] eqn:Ebk; try done. unfold group_param_ids. cbn. rewrite app_nil_r.
      assert (Hbk : bk ∈ concat (map gr_buckets gs)).
      { apply list_elem_of_In, in_concat. exists (gr_buckets g). split; [apply in_map, list_elem_of_In; by eapply list_elem_of_lookup_2|]. rewrite Ebk. by left. }
      rewrite Pg in Hbk. apply list_elem_of_In, in_concat in Hbk as (l & (b & <- & Hbin)%in_map_iff & Hin). apply list_elem_of_In in Hbin, Hin.
      destruct (Hbl b Hbin) as (e & _ & _ & _ & _ & _ & Hne & _). rewrite Forall_forall in Hne. specialize (Hne bk Hin). by destruct (b_params bk).
    + assert (Ei : forall bss : list (list bucket), concat (map group_param_ids bss) = concat (map (fun b => map p_id (b_params b)) (concat bss))).
      { induction bss as [|bs bss IH]; [done|]. cbn. rewrite map_app, concat_app, IH. done. }
      transitivity (concat (map group_param_ids (map gr_buckets gs))); [by rewrite map_map|]. rewrite Ei, Pg, <- Ei, map_map.
      transitivity (concat (map (fun e : (dtype * dtype) * list dparam => reverse (map d_id e.2)) m)).
      * apply reflexive_eq. clear -Hb. induction Hb as [|e b m buffers Q _ IH]; [done|]. cbn. rewrite IH. f_equal.
        destruct Q as (_ & _ & _ & _ & _ & _ & Q & _). unfold group_param_ids.
        transitivity (map p_id (concat (map b_params (bf_buckets (db_buffer b))))); [by rewrite concat_map, map_map|].
        rewrite Q. transitivity (reverse (map p_id (map d_param e.2))); [exact (fmap_reverse p_id (map d_param e.2))|by rewrite map_map].
      * rewrite <- (sb_perm _ _ _ S0), concat_map, map_map. clear. induction m as [|e m IH]; [done|]. cbn. rewrite IH. by rewrite reverse_Permutation.
    + rewrite Pg. apply Forall_concat, Forall_map. clear -Hb. induction Hb as [|e b m buffers Q _ IH]; constructor; [tauto|exact IH].
Qed.

(** Allocation for no parameters. *)
Lemma allocate_none cfg pgs group n f bsz stream base m : num_instances cfg = 1 -> average_in_collective cfg = false ->
  call_size (dg_dp_cp pgs) = Ok n -> truediv_fi f64_one n = Ok f -> f64_eqb f f = true ->
  allocate_buffers env cfg false false pgs bsz group f stream base m [] = Ok ([], [], m).
Proof.
  intros Hni Hav Hdp Hf Hff. unfold allocate_buffers. cbn [foldR mbind res_bind]. unfold check_scaling. rewrite Hdp, Hav, Hni. cbn [mbind res_bind mret res_ret].
  rewrite Hf. cbn [mbind res_bind]. rewrite Hff. done.
Qed.

(** What the constructor makes: fresh groups over the collective that own the
    trainable parameters. *)
Record wrapped (cfg : ddp_config) (params : list dparam) (collective : gval PG) (d : ddp PG) : Prop := {
  wr_cfg : exists k, dd_cfg d = set_bucket_size cfg k;
  wr_params : dd_params d = params;
  wr_fresh : Forall fresh_group (dd_groups d);
  wr_fields : Forall (fun g => gr_cfg g = dd_cfg d /\ gr_collective g = collective) (dd_groups d);
  wr_nonempty : Forall (fun g => ids g <> []) (dd_groups d);
  wr_partition : concat (map (fun g => ids g) (dd_groups d)) ≡ₚ map d_id (trainable params);
  wr_scaled : exists n f, call_size (Some collective) = Ok n /\ truediv_fi f64_one n = Ok f /\
    Forall (fun b => b_gradient_scaling_factor b = f) (concat (map gr_buckets (dd_groups d)));
  wr_owner : forall p i, dd_param_to_group d !! p = Some i <-> exists g, dd_groups d !! i = Some g /\ p ∈ ids g
}.

Lemma ddp_init_ok cfg s params bps_size n collective pgs : dpu_job cfg s params bps_size n collective pgs ->
  exists d, ddp_init env cfg false false bps_size s params = Ok d /\ wrapped cfg params collective d.
Proof.
  intros J. destruct (reciprocal_ok n (dj_n _ _ _ _ _ _ _ J)) as (f & Hf & Hff).
  assert (Hk : exists k, (if is_none (bucket_size cfg) then n ← get_data_parallel_world_size env false false s; mret (set_bucket_size cfg n)
    else mret (set_bucket_size cfg 0)) = Ok (set_bucket_size cfg k)).
  { destruct (bucket_size cfg) eqn:Eb; cbn [is_none]; [by exists 0|]. destruct (dj_bucket _ _ _ _ _ _ _ J Eb) as [k Hk]. exists k. by rewrite Hk. }
  destruct Hk as [k Hk]. destruct (dj_pp _ _ _ _ _ _ _ J) as [r Hr]. destruct J as [J1 J2 J3 J4 J5 J6 J7 _ J9 J10 J11 J12 J13 _ J15 J16 J17 J18 J19].
  set (cfg' := set_bucket_size cfg k). set (bsz := if false || (0 <? r) then None else bucket_size cfg').
  destruct (allocate_ok cfg' pgs collective n f bsz (trainable params)) as (buffers & gs & E & G1 & G2 & G3 & G4 & G5); try done.
  { apply Forall_forall. by intros p [? _]%list_elem_of_filter. }
  { eapply Forall_impl; [exact J17|]. cbn. tauto. }
  { intros key vs Hin. destruct (J19 key vs Hin). by split. }
  eexists. split.
  - unfold ddp_init. rewrite Hk. cbn [mbind res_bind]. fold cfg'. change (get_ddp_groups cfg' s) with (get_ddp_groups cfg s). rewrite J9. cbn [mbind res_bind].
    rewrite Hr. cbn [mbind res_bind]. fold bsz. fold (trainable params).
    rewrite (filter_all (fun p => d_allreduce p = true)) by (eapply Forall_impl; [exact J17|]; cbn; tauto).
    rewrite (filter_none (fun p => d_allreduce p = false)) by (eapply Forall_impl; [exact J17|]; cbn; by intros p [-> _]).
    unfold scaling_factors. change (average_in_collective cfg') with (average_in_collective cfg). rewrite J7, J10. cbn [mbind res_bind]. rewrite Hf. cbn [mbind res_bind mret res_ret fst snd].
    change (use_dpu_reduce cfg') with (use_dpu_reduce cfg). change (use_distributed_optimizer cfg') with (use_distributed_optimizer cfg).
    rewrite J2, J3, J11, J13. cbn [andb negb mbind res_bind]. rewrite (proj2 (Z.ltb_ge _ _) J16). cbn [mret res_ret mbind res_bind].
    rewrite E. cbn [mbind res_bind]. rewrite (allocate_none cfg' pgs _ n) by done. reflexivity.
  - split; cbn; rewrite ?app_nil_r; try done; [by exists k|by exists n, f|]. intros p i. apply map_params_owner. by rewrite G4.
Qed.
End Construct.

(** ** A training run *)

Section Run.
Context {PG A : Type} `{PGI : !ProcessGroup PG} `{GV : !GradValidation} `{GT : !GradTensors}.
Context (env : dist_env) (ps : pstate PG).

(** The gradients of an iteration: those of the microbatches before the last one,
    and those of the last one, which has one for every trainable parameter. *)
Record iteration_input (params : list dparam) (it : list (list (dparam * A)) * list (dparam * A)) : Prop := {
  ii_trainable : Forall (Forall (fun x => x.1 ∈ trainable params)) (it.1 ++ [it.2]);
  ii_last : map (fun x => d_id x.1) it.2 ≡ₚ map d_id (trainable params)
}.

(** What happened to the main gradient of a parameter at the end of an iteration: the gradients of all microbatches were added on this
    rank in their order, then it was scaled if the factor is not 1, and then reduced, once. *)
Definition main_history (factor : f64) (p : Z) (it : list (list (dparam * A)) * list (dparam * A)) : list (grad_op A) :=
  map GAdd (concat (map (grads_of p) (it.1 ++ [it.2]))) ++ (if f64_eqb factor f64_one then [] else [GScale factor]) ++ [GReduce SUM].

(** What BytePS sees of an iteration: [bs] are the buckets in the order they are
    pushed, [hs] the handles in the order they are waited for. *)
Definition reduction_round (tp pp : Z) (buckets : list bucket) (log : list bps_event) : Prop :=
  exists h bs hs, log = push_events tp pp h false bs ++ map EvWait hs /\ bs ≡ₚ buckets /\ hs ≡ₚ push_handles h bs.

(** Rounds over buckets with different names pass the checks of the core: a name always has the tensor of its bucket. *)
Lemma push_events_input tp pp h bs : Forall (fun e => match e with
    | EvPush _ input _ _ name _ _ => exists b, b ∈ bs /\ name = bucket_name tp pp b /\ input = grad_tensor b
    | EvWait _ => True end) (push_events tp pp h false bs).
Proof.
  revert h. induction bs as [|b bs IH]; intros h; [constructor|]. cbn [push_events]. constructor; [exists b; split; [by left|done]|].
  eapply Forall_impl; [apply IH|]. intros [] Hb; [|done]. destruct Hb as (b' & Hb' & Hnm & Hin). exists b'. split; [by right|done].
Qed.
Lemma rounds_accepted tp pp bound buckets logs : NoDup (map bucket_logical_name buckets) -> Forall (fun b => 0 < tensor_size (grad_tensor b)) buckets ->
  Forall (reduction_round tp pp buckets) logs -> core_accepts bound ∅ (concat logs) = true.
Proof.
  intros Hnd Hsz Hr. set (f nm := match list_find (fun b => op_name (bucket_name tp pp b) = nm) buckets with Some (_, b) => grad_tensor b | None => mkTensor 0 "" [] true end).
  assert (Hf : forall b, b ∈ buckets -> f (op_name (bucket_name tp pp b)) = grad_tensor b).
  { intros b Hb. unfold f. destruct (list_find_elem_of (fun b' => op_name (bucket_name tp pp b') = op_name (bucket_name tp pp b)) buckets b Hb eq_refl) as [[i b'] E].
    rewrite E. apply list_find_Some in E as (Hi & Hnm & _). apply op_name_inj in Hnm; [|by unfold bucket_name, dp_name..]. apply dp_name_inj in Hnm as (_ & _ & Hnm).
    apply list_elem_of_lookup in Hb as [j Hj]. f_equal. assert (i = j) as ->; [|congruence].
    apply (NoDup_lookup _ _ _ (bucket_logical_name b) Hnd); [apply list_lookup_fmap_Some; by exists b'|apply list_lookup_fmap_Some; by exists b]. }
  apply (core_accepts_function f); [by intros nm k; rewrite lookup_empty|]. apply Forall_concat. eapply Forall_impl; [exact Hr|].
  intros log (h & bs & hs & -> & Hbs & _). apply Forall_app. split; [|by apply Forall_map, Forall_forall].
  eapply Forall_impl; [apply push_events_input|]. cbv beta. intros [] He; [|done]. destruct He as (b & Hb & -> & ->). rewrite Hbs in Hb. rewrite Hf by done.
  split; [done|]. rewrite Forall_forall in Hsz. by apply Hsz.
Qed.

Lemma wrapped_family cfg params collective d n s bps_size pgs : dpu_job env cfg s params bps_size n collective pgs -> wrapped cfg params collective d ->
  (forall b, pushable (grad_tensor b) = true) ->
  group_family collective (dd_groups d) (average_in_collective (dd_cfg d)) (dd_param_to_group d) /\ owners_trainable d /\
  (forall p, is_Some (dd_param_to_group d !! p) <-> p ∈ map d_id (trainable params)).
Proof.
  intros J W Hpush. destruct W as [[k W1] W2 W3 W4 W5 W6 _ W7].
  assert (Hown : forall p, is_Some (dd_param_to_group d !! p) <-> p ∈ map d_id (trainable params)).
  { intros p. rewrite <- W6. split.
    - intros [i (g & Hg & Hp)%W7]. apply list_elem_of_In, in_concat. exists (group_param_ids (gr_buckets g)).
      split; [apply in_map_iff; exists g; split; [done|]; apply list_elem_of_In; by eapply list_elem_of_lookup_2|by apply list_elem_of_In].
    - intros (l & (g & <- & Hg)%in_map_iff & Hp)%list_elem_of_In%in_concat. apply list_elem_of_In, list_elem_of_lookup in Hg as [i Hi].
      exists i. apply W7. exists g. split; [done|by apply list_elem_of_In]. }
  split_and!; [|intros p Hp; rewrite W2; by apply Hown|done]. split; try done; eapply Forall_impl; try exact W4; cbn; intros g [E1 E2].
  - split; rewrite ?E1, ?W1; [done|apply J..].
  - by rewrite E1.
  - apply Forall_forall. intros b _. apply Hpush.
Qed.

Context (cfg : ddp_config) (params : list dparam) (bps_size n tp pp : Z) (collective : gval PG) (pgs : ddp_groups PG) (d : ddp PG).
Context (J : dpu_job env cfg ps params bps_size n collective pgs) (W : wrapped cfg params collective d).
Context (Htp : get_tensor_model_parallel_rank env ps = Ok tp) (Hpp : get_pipeline_model_parallel_rank env ps = Ok pp).
Context (Hpush : forall b, pushable (grad_tensor b) = true).
#[local] Notation bps s := (bc_bps (w_bc (ds_world s))).

Lemma start_between (s : dstate PG A) : w_groups (ds_world s) = dd_groups d -> ready (w_bc (ds_world s)) -> bc_declared (w_bc (ds_world s)) = ∅ ->
  between_iterations d n tp pp s.
Proof.
  intros Hg Hr Hd. split; [|done|].
  - rewrite Hg. destruct W as [_ _ F _ _ _ _ _]. clear -F. induction F as [|g gs [_ _ F1 F2 _ _ _] _ IH]; [constructor|]. constructor; [|done].
    exists ∅, true. destruct g. cbn in *. by subst.
  - apply Forall_forall. intros g _. apply Forall_forall. intros b _. by rewrite Hd.
Qed.

Context (Htensors : NoDup (map grad_tensor (all_buckets d))).
Context (f : f64) (Hf : truediv_fi f64_one n = Ok f).

Lemma run_iteration it (s : dstate PG A) : between_iterations d n tp pp s -> iteration_input params it ->
  exists s' log, train_iteration env ps d it.1 it.2 s = (Ok tt, s') /\ between_iterations d n tp pp s' /\
    (forall p, p ∈ map d_id (trainable params) -> default [] (ds_main s' !! p) = main_history f p it) /\
    bs_log (bps s') = bs_log (bps s) ++ log /\ reduction_round tp pp (all_buckets d) log /\
    bs_handle_map (bps s') = bs_handle_map (bps s).
Proof.
  intros B [I1 I2]. destruct (wrapped_family cfg params collective d n ps bps_size pgs J W Hpush) as (F & Ho & Hown).
  assert (Hc : overlap_grad_reduce (dd_cfg d) = true /\ average_in_collective (dd_cfg d) = false).
  { destruct W as [[k ->] _ _ _ _ _ _ _]. split; apply J. }
  destruct Hc as [Hc1 Hc2].
  assert (Eids : group_param_ids (all_buckets d) = concat (map (fun g => group_param_ids (gr_buckets g)) (dd_groups d))).
  { unfold all_buckets, group_param_ids. clear. induction (dd_groups d) as [|g l IH]; [done|]. cbn. by rewrite map_app, concat_app, IH. }
  assert (Hids : NoDup (group_param_ids (all_buckets d))) by (rewrite Eids, (wr_partition _ _ _ _ W); apply (dj_distinct _ _ _ _ _ _ _ _ J)).
  destruct (iteration_ok (A := A) env ps d collective n tp pp (dj_size _ _ _ _ _ _ _ _ J) (proj1 (dj_n _ _ _ _ _ _ _ _ J)) Htp Hpp F Hc1 Htensors Hids it.1 it.2 s Ho B)
    as (bs & hs & s' & E & B' & M' & P1 & P2 & L' & H').
  - eapply Forall_impl; [exact I1|]. cbn. intros pass Hp. eapply Forall_impl; [exact Hp|]. cbn. intros x Hx. split.
    + apply Hown, list_elem_of_fmap. by exists x.1.
    + by apply list_elem_of_filter in Hx as [? _].
  - rewrite I2. apply (dj_distinct _ _ _ _ _ _ _ _ J).
  - intros p Hp%Hown. by rewrite I2.
  - rewrite Hc2 in L'. exists s', (push_events tp pp (bs_last_handle (bps s)) false bs ++ map EvWait hs). split_and!; try done; [|by eexists _, bs, hs].
    intros p Hp. rewrite <- (wr_partition _ _ _ _ W), <- Eids in Hp. apply list_elem_of_In, in_concat in Hp as (l & (b & <- & Hb)%in_map_iff & (q & <- & Hq)%in_map_iff).
    apply list_elem_of_In in Hb, Hq. rewrite (M' b q Hb Hq). unfold main_history, reducing, scaling. rewrite Hc2. destruct (wr_scaled _ _ _ _ W) as (n' & f' & Hn' & Hf' & Hsc).
    rewrite (dj_size _ _ _ _ _ _ _ _ J) in Hn'. injection Hn' as <-. rewrite Hf in Hf'. injection Hf' as <-. rewrite Forall_forall in Hsc. by rewrite (Hsc b Hb).
Qed.

Lemma run_training its (s : dstate PG A) : between_iterations d n tp pp s -> Forall (iteration_input params) its ->
  exists s' logs, iterM (fun it => train_iteration env ps d it.1 it.2) its s = (Ok tt, s') /\
    length logs = length its /\ Forall (reduction_round tp pp (all_buckets d)) logs /\
    bs_log (bps s') = bs_log (bps s) ++ concat logs /\ bs_handle_map (bps s') = bs_handle_map (bps s) /\
    (forall it p, last its = Some it -> p ∈ map d_id (trainable params) -> default [] (ds_main s' !! p) = main_history f p it).
Proof.
  intros B Hi. revert s B. induction Hi as [|it its H1 _ IH]; intros s B.
  - exists s, []. rewrite app_nil_r. split_and!; try done.
  - destruct (run_iteration it s B H1) as (s1 & log & E & B1 & M1 & L1 & R1 & H2). destruct (IH s1 B1) as (s2 & logs & E2 & Ln & R2 & L2 & H3 & M2).
    exists s2, (log :: logs). split_and!.
    + cbn [iterM]. by erewrite bind_step by exact E.
    + cbn. by rewrite Ln.
    + by constructor.
    + rewrite L2, L1. cbn. by rewrite app_assoc.
    + congruence.
    + intros it' p Hl. destruct its as [|it2 its]; [|by apply M2]. cbn in Hl, E2. injection Hl as <-. injection E2 as <-. apply M1.
Qed.
End Run.

(* ================================================================== *)
(** ** The properties of the wrapper                                   *)
(* ================================================================== *)

(** (C33) The constructor with overlapped BytePS reductions: it succeeds, and the bucket groups it makes own the trainable
    parameters: every one of them is in exactly one group, [param_to_bucket_group] maps it there and maps nothing else,
    no group is empty, and every group reduces over the data-parallel group with the wrapper's configuration. *)
Theorem ddp_init_spec {PG} `{!ProcessGroup PG} `{!EqDecision PG} env cfg (s : pstate PG) params bps_size n collective pgs :
  dpu_job env cfg s params bps_size n collective pgs ->
  exists d, ddp_init env cfg false false bps_size s params = Ok d /\ dd_params d = params /\
    concat (map (fun g => group_param_ids (gr_buckets g)) (dd_groups d)) ≡ₚ map d_id (filter (fun p => d_requires_grad p = true) params) /\
    (forall p i, dd_param_to_group d !! p = Some i <-> exists g, dd_groups d !! i = Some g /\ p ∈ group_param_ids (gr_buckets g)) /\
    Forall (fun g => group_param_ids (gr_buckets g) <> [] /\ gr_cfg g = dd_cfg d /\ gr_collective g = collective /\ fresh_group g) (dd_groups d).
Proof.
  intros J. destruct (ddp_init_ok env cfg s params bps_size n collective pgs J) as (d & E & [_ W2 W3 W4 W5 W6 _ W7]). exists d. split_and!; try done.
  rewrite Forall_lookup in W3, W4, W5. apply Forall_lookup. intros i g Hg. split_and!; try (by eapply W3); try (by eapply W5); by apply (W4 i g Hg).
Qed.


(** The check of the gradient scaling factor compares rounded quotients: with [average_in_collective] and 39
    data-parallel ranks in 13 expert-parallel groups of 3, the factor [3 / 39] that the constructor computes for the expert
    parameters does not pass [factor / 3 == 1.0 / 39], so the constructor raises [AssertionError]. *)
Theorem expert_scaling_check_raises {PG} `{!ProcessGroup PG} `{!EqDecision PG} env cfg (pgs : ddp_groups PG) bsz group stream base m params :
  average_in_collective cfg = true -> num_instances cfg = 1 -> Forall (fun p => d_requires_grad p = true) params ->
  call_size (dg_dp_cp pgs) = Ok 39 -> call_size (dg_expt_dp pgs) = Ok 3 -> call_size group = Ok 3 ->
  exists factors, scaling_factors cfg false (call_size (dg_dp_cp pgs)) (call_size (dg_expt_dp pgs)) = Ok factors /\
    allocate_buffers env cfg false false pgs bsz group factors.2 stream base m params =
    raise_ AssertionError "gradient_scaling_factor / data_parallel_group.size() == target_gradient_scaling_factor".
Proof.
  intros Hav Hni Htr Hdp Hex Hg. unfold scaling_factors, allocate_buffers, check_scaling. rewrite assert_trainable by done.
  rewrite Hav, Hni, Hdp, Hex, Hg. destruct (truediv 3 39) as [f|] eqn:Ef; [|vm_compute in Ef; discriminate Ef].
  assert (Hf : f = match truediv 3 39 with Ok f => f | Err _ => f end) by (by rewrite Ef).
  exists (f64_one, f). split; [cbn [mbind res_bind]; rewrite Ef; reflexivity|]. clear Ef. cbn [snd]. rewrite Hf. vm_compute. reflexivity.
Qed.

(* ================================================================== *)
(** ** A concrete job                                                  *)
(* ================================================================== *)

(** Four bfloat16 parameters, a float32 one and a frozen one, on rank 0 of 8. *)
Definition ex_dparams : list dparam :=
  map (fun p => mkDParam p BFloat16 true true false) ex_params ++
  [mkDParam (mkParam 7 64 false false false true) Float32 true true false; mkDParam (mkParam 8 10 false false false true) Float32 false true false].
Definition ex_pgs : ddp_groups (nat * new_group_kwargs) :=
  match get_ddp_groups dpu_cfg (run8 0).2 with Ok g => g | Err _ => mkDdpGroups None None None None None None end.
Definition ex_collective : gval (nat * new_group_kwargs) := default (GMany []) (dg_intra_dp_cp ex_pgs).

Lemma ex_job_of params : Forall (fun p => d_allreduce p = true /\ p_float8 (d_param p) = false /\ d_dtype p <> UInt8) (trainable params) ->
  NoDup (map d_id (trainable params)) -> (forall k vs, (k, vs) ∈ group_by_dtype dpu_cfg (trainable params) -> acceptable dpu_cfg 2 (map d_param vs)) ->
  dpu_job (env8 0) dpu_cfg (run8 0).2 params 2 2 ex_collective ex_pgs.
Proof.
  intros H1 H2 H3. split; try (vm_compute; reflexivity); try done.
  - eexists. vm_compute. reflexivity.
  - eexists. vm_compute. reflexivity.
Qed.
Lemma ex_bfloat16_acceptable : acceptable dpu_cfg 2 (map d_param (map (fun p => mkDParam p BFloat16 true true false) ex_params)).
Proof. split; [lia|discriminate| | | |vm_compute; reflexivity]; try (repeat constructor; cbn; auto; lia). apply (bool_decide_unpack _). vm_compute. exact I. Qed.

Lemma ex_job : dpu_job (env8 0) dpu_cfg (run8 0).2 ex_dparams 2 2 ex_collective ex_pgs.
Proof.
  apply ex_job_of; [apply (bool_decide_unpack _); vm_compute; exact I..|].
  assert (E : group_by_dtype dpu_cfg (trainable ex_dparams) =
    [((BFloat16, Float32), map (fun p => mkDParam p BFloat16 true true false) ex_params);
     ((Float32, Float32), [mkDParam (mkParam 7 64 false false false true) Float32 true true false])]) by (vm_compute; reflexivity).
  rewrite E. intros k vs [[= -> ->]|[[= -> ->]|[]%elem_of_nil]%elem_of_cons]%elem_of_cons; [apply ex_bfloat16_acceptable|].
  split; [lia|discriminate| | | |vm_compute; reflexivity]; try (repeat constructor; cbn; auto; lia). apply (bool_decide_unpack _). vm_compute. exact I.
Qed.

Lemma ddp_init_spec_witness : exists d, ddp_init (env8 0) dpu_cfg false false 2 (run8 0).2 ex_dparams = Ok d /\
  concat (map (fun g => group_param_ids (gr_buckets g)) (dd_groups d)) ≡ₚ map d_id (filter (fun p => d_requires_grad p = true) ex_dparams).
Proof.
  destruct (ddp_init_spec (env8 0) dpu_cfg (run8 0).2 ex_dparams 2 2 ex_collective ex_pgs ex_job) as (d & H1 & _ & H2 & _). exists d. split; [exact H1|exact H2].
Defined.

#[local] Instance no_grad_errors : GradValidation := fun _ _ _ => Ok tt.
#[local] Instance float_grad_tensors : GradTensors := fun b => mkTensor (b_offset b) "torch.cuda.FloatTensor" [view_numel (b_grad_data b)] true.

(** The same without the float32 parameter that is trained: one buffer with two buckets. *)
Definition ex_bfloat16_params : list dparam := filter (fun p => d_id p <> 7) ex_dparams.
Lemma ex_bfloat16_job : dpu_job (env8 0) dpu_cfg (run8 0).2 ex_bfloat16_params 2 2 ex_collective ex_pgs.
Proof.
  apply ex_job_of; [apply (bool_decide_unpack _); vm_compute; exact I..|].
  assert (E : group_by_dtype dpu_cfg (trainable ex_bfloat16_params) = [((BFloat16, Float32), map (fun p => mkDParam p BFloat16 true true false) ex_params)]) by (vm_compute; reflexivity).
  rewrite E. intros k vs [= -> ->]%list_elem_of_singleton. apply ex_bfloat16_acceptable.
Qed.

Definition ex_ddp : ddp (nat * new_group_kwargs) :=
  match ddp_init (env8 0) dpu_cfg false false 2 (run8 0).2 ex_bfloat16_params with Ok d => d | Err _ => mkDdpObj dpu_cfg [] [] [] [] ∅ ex_pgs end.
Definition ex_start : dstate (nat * new_group_kwargs) Z := ddp_start ex_ddp bc_start.
(** Two microbatches; the gradients of the second one arrive in another order. *)
Definition ex_pass (base : Z) (ids : list Z) : list (dparam * Z) :=
  concat (map (fun i => match filter (fun p => d_id p = i) ex_bfloat16_params with p :: _ => [(p, base + i)] | [] => [] end) ids).
Definition ex_iteration : list (list (dparam * Z)) * list (dparam * Z) := ([ex_pass 100 [3; 2; 1; 0]], ex_pass 200 [3; 1; 2; 0]).

(** One half *)
Definition ex_half : f64 := match truediv_fi f64_one 2 with Ok f => f | Err _ => f64_one end.


(** With a second dtype the wrapper has two buffers, and both have a [bucket_0]: the iteration goes through, but with partitions of 1000
    bytes the first of these buckets has two and the second has one, which the core refuses. *)
Definition ex_mixed_ddp : ddp (nat * new_group_kwargs) :=
  match ddp_init (env8 0) dpu_cfg false false 2 (run8 0).2 ex_dparams with Ok d => d | Err _ => mkDdpObj dpu_cfg [] [] [] [] ∅ ex_pgs end.
Definition ex_mixed_pass (ids : list Z) : list (dparam * Z) :=
  concat (map (fun i => match filter (fun p => d_id p = i) ex_dparams with p :: _ => [(p, i)] | [] => [] end) ids).
Lemma two_dtypes_rejected :
  let run := train_iteration (env8 0) (run8 0).2 ex_mixed_ddp [] (ex_mixed_pass [3; 7; 1; 2; 0]) (ddp_start ex_mixed_ddp bc_start) in
  map bucket_logical_name (all_buckets ex_mixed_ddp) = ["bucket_0"; "bucket_1"; "bucket_0"] /\
  run.1 = Ok tt /\ core_accepts 1000 ∅ (bs_log (bc_bps (w_bc (ds_world run.2)))) = false.
Proof. split_and!; vm_compute; reflexivity. Qed.

Definition ex_average_cfg : ddp_config := mkDdp true true true false false false 1 false false None false true false false false false.
Definition ex_ranks (n : Z) : option (gval (nat * new_group_kwargs)) := Some (GOne (0%nat, mkKw (zrange 0 n) None None None false None)).
Definition ex_expert_pgs : ddp_groups (nat * new_group_kwargs) := mkDdpGroups (ex_ranks 39) (ex_ranks 39) (ex_ranks 3) (ex_ranks 3) None None.

Lemma expert_scaling_check_raises_witness : exists factors,
  scaling_factors ex_average_cfg false (call_size (dg_dp_cp ex_expert_pgs)) (call_size (dg_expt_dp ex_expert_pgs)) = Ok factors /\
  allocate_buffers (env8 0) ex_average_cfg false false ex_expert_pgs None (ex_ranks 3) factors.2 1 0 ∅ (trainable ex_dparams) =
  raise_ AssertionError "gradient_scaling_factor / data_parallel_group.size() == target_gradient_scaling_factor".
Proof.
  apply (expert_scaling_check_raises (env8 0) ex_average_cfg ex_expert_pgs None (ex_ranks 3) 1 0 ∅ (trainable ex_dparams)).
  - reflexivity.
  - reflexivity.
  - apply (bool_decide_unpack _). vm_compute. exact I.
  - vm_compute. reflexivity.
  - vm_compute. reflexivity.
  - vm_compute. reflexivity.
Defined.
