(* ===== verification/Network.v ===== *)
(** * Communicating pipeline stages

    The processes of a pipeline run one program each and exchange tensors with
    their neighbours.  A program is a tree of effects: it logs events and calls
    the communicator, which posts sends and receives and returns when all of
    them are done.  The step relation interleaves the processes; a send and the
    matching receive of the neighbour are done together, so a process that sends
    waits for its receiver.

    The theory is generic: when every program follows a script, and the scripts
    of neighbours agree on what they exchange and in which logical order, then
    every run is finite, never gets stuck before all programs returned, and logs
    exactly the events of the scripts. *)

From Stdlib Require Import Sorted.
From S2P Require Import Prelude.

(** ** Programs *)

Section Programs.
Context {E T : Type}.

(** Point-to-point operations with the previous and the next rank. *)
Inductive p2p_op := SendPrev (v : T) | RecvPrev | SendNext (v : T) | RecvNext.

(** A call of the communicator: the operations, whether they are done in the
    order given ([ordered]) or independently, and what happens with the received
    tensors. *)
Inductive prog (A : Type) : Type :=
  | Ret (a : A)
  | Fail (e : exn)
  | Emit (e : E) (p : prog A)
  | Comm (ordered : bool) (ops : list p2p_op) (k : option T -> option T -> prog A).
Arguments Ret {_} _.
Arguments Fail {_} _.
Arguments Emit {_} _ _.
Arguments Comm {_} _ _ _.

Fixpoint prog_bind_ {A B} (f : A -> prog B) (m : prog A) : prog B :=
  match m with
  | Ret a => f a
  | Fail e => Fail e
  | Emit e p => Emit e (prog_bind_ f p)
  | Comm o ops k => Comm o ops (fun a b => prog_bind_ f (k a b))
  end.

#[export] Instance prog_ret : MRet prog := @Ret.
#[export] Instance prog_bind : MBind prog := @prog_bind_.

Definition emitP (e : E) : prog unit := Emit e (Ret tt).
Definition liftP {A} (r : res A) : prog A := match r with Ok a => Ret a | Err e => Fail e end.

(** [for i in l: s = body(i, s)] *)
Fixpoint forP {I S} (l : list I) (body : I -> S -> prog S) (s : S) : prog S :=
  match l with
  | [] => mret s
  | i :: l' => s' ← body i s; forP l' body s'
  end.

(** ** The network *)

(** A stage runs, or waits for the operations it posted; [rp] and [rn] are what
    it received from the previous and the next rank. *)
Inductive activity :=
  | Run (p : prog unit)
  | Wait (ordered : bool) (pending : list p2p_op) (rp rn : option T) (k : option T -> option T -> prog unit).

Record stage := mkStage { st_log : list E; st_act : activity }.

(** The operation at position [i] of the pending ones may be done. *)
Definition may_do (ordered : bool) (i : nat) : Prop := ordered = true -> i = 0%nat.

(** One step of the network of [length c] stages.  The next rank of the last
    stage is the first one. *)
Inductive step : list stage -> list stage -> Prop :=
  | step_emit c s l e p : c !! s = Some (mkStage l (Run (Emit e p))) ->
      step c (<[s := mkStage (l ++ [e]) (Run p)]> c)
  | step_post c s l o ops k : c !! s = Some (mkStage l (Run (Comm o ops k))) ->
      step c (<[s := mkStage l (Wait o ops None None k)]> c)
  | step_resume c s l o rp rn k : c !! s = Some (mkStage l (Wait o [] rp rn k)) ->
      step c (<[s := mkStage l (Run (k rp rn))]> c)
  | step_forward c s s' l o ps rp rn k l' o' ps' rp' rn' k' i j v :
      s' = (S s mod length c)%nat -> s <> s' ->
      c !! s = Some (mkStage l (Wait o ps rp rn k)) -> c !! s' = Some (mkStage l' (Wait o' ps' rp' rn' k')) ->
      ps !! i = Some (SendNext v) -> may_do o i -> ps' !! j = Some RecvPrev -> may_do o' j ->
      step c (<[s := mkStage l (Wait o (delete i ps) rp rn k)]>
             (<[s' := mkStage l' (Wait o' (delete j ps') (Some v) rn' k')]> c))
  | step_backward c s s' l o ps rp rn k l' o' ps' rp' rn' k' i j v :
      s' = (S s mod length c)%nat -> s <> s' ->
      c !! s = Some (mkStage l (Wait o ps rp rn k)) -> c !! s' = Some (mkStage l' (Wait o' ps' rp' rn' k')) ->
      ps !! i = Some RecvNext -> may_do o i -> ps' !! j = Some (SendPrev v) -> may_do o' j ->
      step c (<[s := mkStage l (Wait o (delete i ps) rp (Some v) k)]>
             (<[s' := mkStage l' (Wait o' (delete j ps') rp' rn' k')]> c)).

(** Runs of [n] steps. *)
Inductive runs : nat -> list stage -> list stage -> Prop :=
  | runs_refl c : runs 0 c c
  | runs_step n c c1 c2 : step c c1 -> runs n c1 c2 -> runs (S n) c c2.

(** All programs returned. *)
Definition finished (c : list stage) : Prop := Forall (fun st => st_act st = Run (Ret tt)) c.
Definition start (ps : list (prog unit)) : list stage := map (fun p => mkStage [] (Run p)) ps.

(** ** Scripts *)

Inductive dir := SP | RP | SN | RN.

#[export] Instance dir_eq_dec : EqDecision dir.
Proof. solve_decision. Defined.

(** An operation with the tensor it moves and its logical time. *)
Record aop := mkAop { a_dir : dir; a_val : T; a_time : Z }.

Definition erase (a : aop) : p2p_op :=
  match a_dir a with SP => SendPrev (a_val a) | RP => RecvPrev | SN => SendNext (a_val a) | RN => RecvNext end.

Inductive item := IEv (e : E) | IComm (ops : list aop).

Definition dirs_of (d : dir) (l : list aop) : list aop := filter (fun a => a_dir a = d) l.
Definition received (d : dir) (l : list aop) : option T := a_val <$> head (dirs_of d l).
Definition item_ops (i : item) : list aop := match i with IEv _ => [] | IComm l => l end.
Definition item_event (i : item) : list E := match i with IEv e => [e] | IComm _ => [] end.
Definition script_ops (sc : list item) : list aop := concat (map item_ops sc).
Definition script_log (sc : list item) : list E := concat (map item_event sc).

(** The program does what the script says, when it receives what the script says. *)
Inductive follows (o : bool) : prog unit -> list item -> Prop :=
  | follows_ret : follows o (Ret tt) []
  | follows_emit e p sc : follows o p sc -> follows o (Emit e p) (IEv e :: sc)
  | follows_comm l k sc : follows o (k (received RP l) (received RN l)) sc ->
      follows o (Comm o (map erase l) k) (IComm l :: sc).

(** Each call has at most one operation per direction, and calls are in the
    order of time; in an ordered call so are its operations. *)
Definition call_ok (o : bool) (l : list aop) : Prop :=
  NoDup (map a_dir l) /\ (o = true -> StronglySorted (fun a b => a_time a < a_time b) l).
Definition before (l1 l2 : list aop) : Prop := forall a b, a ∈ l1 -> b ∈ l2 -> a_time a < a_time b.
Inductive timed (o : bool) : list item -> Prop :=
  | timed_nil : timed o []
  | timed_ev e sc : timed o sc -> timed o (IEv e :: sc)
  | timed_comm l sc : call_ok o l -> before l (script_ops sc) -> timed o sc -> timed o (IComm l :: sc).

(** What a side of a link moves, in order: tensors with their times. *)
Definition moves (d : dir) (l : list aop) : list (T * Z) := map (fun a => (a_val a, a_time a)) (dirs_of d l).

End Programs.
Arguments p2p_op : clear implicits.
Arguments prog : clear implicits.
Arguments aop : clear implicits.
Arguments item : clear implicits.
Arguments stage : clear implicits.
Arguments activity : clear implicits.
Arguments Ret {_ _ _} _.
Arguments Fail {_ _ _} _.
Arguments Emit {_ _ _} _ _.
Arguments Comm {_ _ _} _ _ _.

(* ================================================================== *)
(** ** Networks that follow scripts                                    *)
(* ================================================================== *)

Section Theory.
Context {E T : Type} (o : bool).
Notation aop := (aop T).
Notation item := (item E T).
Notation stage := (stage E T).

Lemma dirs_of_app d (l1 l2 : list aop) : dirs_of d (l1 ++ l2) = dirs_of d l1 ++ dirs_of d l2.
Proof. apply filter_app. Qed.
Lemma moves_app d (l1 l2 : list aop) : moves d (l1 ++ l2) = moves d l1 ++ moves d l2.
Proof. unfold moves. by rewrite dirs_of_app, map_app. Qed.
Lemma dirs_of_none d (l : list aop) : d ∉ map a_dir l -> dirs_of d l = [].
Proof.
  unfold dirs_of. induction l as [|a l IH]; cbn; [done|]. intros [Ha Hl]%not_elem_of_cons.
  rewrite decide_False by done. by apply IH.
Qed.
Lemma dirs_of_cons d (a : aop) l : dirs_of d (a :: l) = if decide (a_dir a = d) then a :: dirs_of d l else dirs_of d l.
Proof. unfold dirs_of. cbn. by destruct (decide _). Qed.

Lemma delete_middle {A} (l1 : list A) x l2 : delete (length l1) (l1 ++ x :: l2) = l1 ++ l2.
Proof. induction l1; cbn; [done|]. by f_equal. Qed.

(** Taking an operation out of a call. *)
Lemma take_out (l : list aop) i a : NoDup (map a_dir l) -> l !! i = Some a ->
  dirs_of (a_dir a) l = [a] /\ dirs_of (a_dir a) (delete i l) = [] /\
  (forall d, d <> a_dir a -> dirs_of d (delete i l) = dirs_of d l) /\ NoDup (map a_dir (delete i l)).
Proof.
  intros Hnd Hi. apply list_elem_of_split_length in Hi as (l1 & l2 & -> & ->). rewrite delete_middle.
  rewrite map_app in Hnd. cbn in Hnd. apply NoDup_app in Hnd as (H1 & H2 & [H3 H4]%NoDup_cons).
  assert (H5 : a_dir a ∉ map a_dir l1) by (intros Hin; apply (H2 _ Hin); left).
  rewrite !dirs_of_app, dirs_of_cons, decide_True, !dirs_of_none by done. split_and!; [done|done| |].
  - intros d Hd. rewrite !dirs_of_app, dirs_of_cons. by rewrite decide_False by done.
  - rewrite map_app. apply NoDup_app. split_and!; [done| |done]. intros d Hd Hd'. apply (H2 d Hd). by right.
Qed.

Lemma elem_of_delete {A} (l : list A) i x : x ∈ delete i l -> x ∈ l.
Proof.
  intros [j Hj]%list_elem_of_lookup. destruct (decide (j < i)%nat) as [Hl|Hl].
  - rewrite list_lookup_delete_lt in Hj by done. by eapply list_elem_of_lookup_2.
  - rewrite list_lookup_delete_ge in Hj by lia. by eapply list_elem_of_lookup_2.
Qed.

Lemma StronglySorted_delete {A} (R : A -> A -> Prop) l i : StronglySorted R l -> StronglySorted R (delete i l).
Proof.
  intros H. revert i. induction H as [|x l Hs IH Hf]; intros [|i]; try (by constructor); [done|].
  change (delete (S i) (x :: l)) with (x :: delete i l). constructor; [apply IH|].
  rewrite Forall_forall in Hf |- *. intros y Hy. by apply Hf, (elem_of_delete l i).
Qed.

Lemma call_ok_delete (l : list aop) i a : call_ok o l -> l !! i = Some a -> call_ok o (delete i l).
Proof.
  intros [H1 H2] Hi. split; [by eapply take_out|]. intros Ho. by apply StronglySorted_delete, H2.
Qed.

(** *** A stage and its script *)

(** The progress of a stage: the operations it waits for, if it does, and the rest of its script. *)
Definition progress : Type := option (list aop) * list item.
Definition todo (x : progress) : list aop := default [] x.1 ++ script_ops x.2.

(** What the call returns: from the operations still pending, else what was received. *)
Definition keep (r : option T) (d : dir) (l : list aop) : option T :=
  match received d l with Some v => Some v | None => r end.

Inductive tracks (full : list E) : stage -> progress -> Prop :=
  | tracks_run l p sc : follows o p sc -> timed o sc -> l ++ script_log sc = full ->
      tracks full (mkStage l (Run p)) (None, sc)
  | tracks_wait l cur rp rn k sc : call_ok o cur -> before cur (script_ops sc) -> timed o sc ->
      follows o (k (keep rp RP cur) (keep rn RN cur)) sc -> l ++ script_log sc = full ->
      tracks full (mkStage l (Wait o (map erase cur) rp rn k)) (Some cur, sc).

(** An upper bound on the steps a stage takes. *)
Definition item_weight (i : item) : nat := match i with IEv _ => 1 | IComm l => 2 + length l end.
Definition script_weight (sc : list item) : nat := sum_list (map item_weight sc).
Definition weight (x : progress) : nat :=
  match x.1 with None => script_weight x.2 | Some l => 1 + length l + script_weight x.2 end.

Lemma tracks_timed full st x : tracks full st x -> timed o x.2.
Proof. by destruct 1. Qed.

(** *** The network *)

(** Neighbours agree on what is left to exchange. *)
Record linked (P : nat) (F : nat -> progress) : Prop := {
  lk_forward : forall s, (S s < P)%nat -> moves SN (todo (F s)) = moves RP (todo (F (S s)));
  lk_backward : forall s, (S s < P)%nat -> moves SP (todo (F (S s))) = moves RN (todo (F s));
  lk_first : forall s, s = 0%nat -> moves RP (todo (F s)) = [] /\ moves SP (todo (F s)) = [];
  lk_last : forall s, S s = P -> moves SN (todo (F s)) = [] /\ moves RN (todo (F s)) = []
}.

Definition total (P : nat) (F : nat -> progress) : nat := sum_list (map (fun s => weight (F s)) (seq 0 P)).

Record follows_all (full : nat -> list E) (c : list stage) (F : nat -> progress) : Prop := {
  fa_tracks : forall s st, c !! s = Some st -> tracks (full s) st (F s);
  fa_linked : linked (length c) F
}.

Lemma sum_upd (g : nat -> nat) P s w : (s < P)%nat ->
  (sum_list (map (fun x => if decide (x = s) then w else g x) (seq 0 P)) + g s = sum_list (map g (seq 0 P)) + w)%nat.
Proof.
  intros Hs. enough (H : forall n a, (a <= s < a + n)%nat ->
    (sum_list (map (fun x => if decide (x = s) then w else g x) (seq a n)) + g s = sum_list (map g (seq a n)) + w)%nat) by (apply H; lia).
  assert (Hout : forall n a, (s < a)%nat -> map (fun x => if decide (x = s) then w else g x) (seq a n) = map g (seq a n)).
  { intros n a Ha. apply map_ext_in. intros x Hx%in_seq. by rewrite decide_False by lia. }
  induction n as [|n IH]; intros a Ha; [lia|]. cbn [seq map]. cbn. destruct (decide (a = s)) as [->|Hne].
  - rewrite Hout by lia. lia.
  - specialize (IH (S a) ltac:(lia)). lia.
Qed.

Lemma total_upd P F s x : (s < P)%nat -> (total P (upd F s x) + weight (F s) = total P F + weight x)%nat.
Proof.
  intros Hs. unfold total, upd. rewrite <- (sum_upd (fun s => weight (F s)) P s (weight x) Hs). f_equal. f_equal.
  apply map_ext. intros a. by destruct (decide (a = s)).
Qed.

(** A step of one stage that exchanges nothing. *)
Lemma local_step full c F s st' x' : (s < length c)%nat -> follows_all full c F -> tracks (full s) st' x' ->
  (forall d, moves d (todo x') = moves d (todo (F s))) -> follows_all full (<[s := st']> c) (upd F s x').
Proof.
  intros Hs [Ht [H1 H2 H3 H4]] Htr Hm.
  assert (Hmv : forall d r, moves d (todo (upd F s x' r)) = moves d (todo (F r))).
  { intros d r. destruct (decide (r = s)) as [->|]; [by rewrite upd_eq|by rewrite upd_ne]. }
  split; [|rewrite length_insert; split; intros; rewrite !Hmv; auto].
  intros r st Hr. destruct (decide (r = s)) as [->|Hne].
  - rewrite list_lookup_insert_eq in Hr by done. injection Hr as <-. by rewrite upd_eq.
  - rewrite list_lookup_insert_ne in Hr by done. rewrite upd_ne by done. auto.
Qed.

(** *** Exchanges *)

Lemma moves_take cur sc i a : NoDup (map a_dir cur) -> cur !! i = Some a ->
  moves (a_dir a) (todo (Some cur, sc)) = (a_val a, a_time a) :: moves (a_dir a) (todo (Some (delete i cur), sc)) /\
  forall d, d <> a_dir a -> moves d (todo (Some (delete i cur), sc)) = moves d (todo (Some cur, sc)).
Proof.
  intros Hnd Hi. destruct (take_out cur i a Hnd Hi) as (H1 & H2 & H3 & _).
  assert (Et : forall l, todo (Some l, sc) = l ++ script_ops sc) by done. rewrite !Et.
  split.
  - rewrite !moves_app. unfold moves. by rewrite H1, H2.
  - intros d Hd. rewrite !moves_app. f_equal. unfold moves. by rewrite H3.
Qed.

(** The two sides of a link: the sender's and the receiver's direction as seen from stages [s] and [S s]. *)
Definition link_pair (d d' : dir) : Prop := d = SN /\ d' = RP \/ d = RN /\ d' = SP.

Lemma exchange P F s cur sc cur' sc' i j a b : linked P F -> (S s < P)%nat ->
  F s = (Some cur, sc) -> F (S s) = (Some cur', sc') -> NoDup (map a_dir cur) -> NoDup (map a_dir cur') ->
  cur !! i = Some a -> cur' !! j = Some b -> link_pair (a_dir a) (a_dir b) ->
  a_val a = a_val b /\ linked P (upd (upd F s (Some (delete i cur), sc)) (S s) (Some (delete j cur'), sc')).
Proof.
  intros [L1 L2 L3 L4] Hs E1 E2 N1 N2 Hi Hj Hd.
  destruct (moves_take cur sc i a N1 Hi) as [A1 A2]. destruct (moves_take cur' sc' j b N2 Hj) as [B1 B2].
  set (G := upd (upd F s _) (S s) _).
  assert (Gs : G s = (Some (delete i cur), sc)) by (unfold G; rewrite upd_ne by lia; apply upd_eq).
  assert (Gs' : G (S s) = (Some (delete j cur'), sc')) by (unfold G; apply upd_eq).
  assert (Go : forall r, r <> s -> r <> S s -> G r = F r) by (intros r Hr1 Hr2; unfold G; rewrite !upd_ne by done; done).
  pose proof (L1 s Hs) as Lf. pose proof (L2 s Hs) as Lb. rewrite E1, E2 in Lf, Lb.
  (* what the two stages still move after the exchange *)
  assert (As : forall d, d = RP \/ d = SP -> moves d (todo (G s)) = moves d (todo (F s))).
  { intros d Hdd. rewrite Gs, E1. apply A2. destruct Hd as [[-> _]|[-> _]], Hdd as [->| ->]; done. }
  assert (Bs : forall d, d = RN \/ d = SN -> moves d (todo (G (S s))) = moves d (todo (F (S s)))).
  { intros d Hdd. rewrite Gs', E2. apply B2. destruct Hd as [[_ ->]|[_ ->]], Hdd as [->| ->]; done. }
  assert (Hlink : a_val a = a_val b /\ moves SN (todo (G s)) = moves RP (todo (G (S s))) /\ moves SP (todo (G (S s))) = moves RN (todo (G s))).
  { rewrite Gs, Gs'. destruct Hd as [[Da Db]|[Da Db]]; rewrite Da in A1, A2; rewrite Db in B1, B2.
    - rewrite A1, B1 in Lf. injection Lf as Hv Ht Hm. rewrite (A2 RN), (B2 SP) by done. done.
    - rewrite A1, B1 in Lb. injection Lb as Hv Ht Hm. rewrite (A2 SN), (B2 RP) by done. done. }
  destruct Hlink as (Hv & Hf & Hb). split; [done|]. split.
  - intros r Hr. destruct (decide (r = s)) as [->|H1]; [done|]. destruct (decide (r = S s)) as [->|H2].
    + rewrite Bs by auto. rewrite (Go (S (S s))) by lia. by apply L1.
    + rewrite (Go r) by done. destruct (decide (S r = s)) as [Er|H3]; [rewrite Er, As by auto; rewrite <- Er; by apply L1|].
      rewrite (Go (S r)) by lia. by apply L1.
  - intros r Hr. destruct (decide (r = s)) as [->|H1]; [done|]. destruct (decide (r = S s)) as [->|H2].
    + rewrite Bs by auto. rewrite (Go (S (S s))) by lia. by apply L2.
    + rewrite (Go r) by done. destruct (decide (S r = s)) as [Er|H3]; [rewrite Er, As by auto; rewrite <- Er; by apply L2|].
      rewrite (Go (S r)) by lia. by apply L2.
  - intros r ->. destruct (decide (0%nat = s)) as [<-|H1]; [rewrite !As by auto; by apply L3|]. rewrite (Go 0%nat) by lia. by apply L3.
  - intros r Hr. destruct (decide (r = S s)) as [->|H1]; [rewrite !Bs by auto; by apply L4|]. rewrite (Go r) by lia. by apply L4.
Qed.

(** What a pending operation of a stage tells about the script. *)
Lemma erase_lookup (cur : list aop) i op : map erase cur !! i = Some op -> exists a, cur !! i = Some a /\ erase a = op.
Proof. intros (a & -> & Ha)%list_lookup_fmap_Some. eauto. Qed.

Lemma map_erase_delete (cur : list aop) i : delete i (map erase cur) = map erase (delete i cur).
Proof. revert i. induction cur as [|a cur IH]; intros [|i]; cbn; try done. f_equal. apply IH. Qed.

Lemma keep_same r d cur i a : NoDup (map a_dir cur) -> cur !! i = Some a -> d <> a_dir a -> keep r d (delete i cur) = keep r d cur.
Proof. intros Hnd Hi Hd. destruct (take_out cur i a Hnd Hi) as (_ & _ & H & _). unfold keep, received. by rewrite H. Qed.
Lemma keep_taken r cur i a : NoDup (map a_dir cur) -> cur !! i = Some a ->
  keep (Some (a_val a)) (a_dir a) (delete i cur) = keep r (a_dir a) cur.
Proof. intros Hnd Hi. destruct (take_out cur i a Hnd Hi) as (H1 & H2 & _). unfold keep, received. by rewrite H1, H2. Qed.

(** A stage after one of its operations was done; [rp] and [rn] are updated by the receives. *)
Lemma tracks_done full l cur rp rn rp' rn' k sc i a : tracks full (mkStage l (Wait o (map erase cur) rp rn k)) (Some cur, sc) ->
  cur !! i = Some a -> rp' = (if decide (a_dir a = RP) then Some (a_val a) else rp) ->
  rn' = (if decide (a_dir a = RN) then Some (a_val a) else rn) ->
  tracks full (mkStage l (Wait o (delete i (map erase cur)) rp' rn' k)) (Some (delete i cur), sc).
Proof.
  intros Ht Hi -> ->. inversion Ht as [|? ? ? ? ? ? Hc Hb Hti Hf Hl]; subst. rewrite map_erase_delete. pose proof Hc as [Hnd _].
  constructor; [by eapply call_ok_delete| |done| |done].
  - intros x y Hx Hy. apply Hb; [by eapply elem_of_delete|done].
  - enough (E1 : keep (if decide (a_dir a = RP) then Some (a_val a) else rp) RP (delete i cur) = keep rp RP cur);
      [enough (E2 : keep (if decide (a_dir a = RN) then Some (a_val a) else rn) RN (delete i cur) = keep rn RN cur)|]; [by rewrite E1, E2| |].
    + destruct (decide (a_dir a = RN)) as [Ed|Ed]; [rewrite <- Ed; by apply keep_taken|by eapply keep_same].
    + destruct (decide (a_dir a = RP)) as [Ed|Ed]; [rewrite <- Ed; by apply keep_taken|by eapply keep_same].
Qed.

Lemma tracks_wait_inv full l o' ps rp rn k x : tracks full (mkStage l (Wait o' ps rp rn k)) x ->
  exists cur sc, x = (Some cur, sc) /\ o' = o /\ ps = map erase cur /\ call_ok o cur.
Proof. inversion 1; subst. eauto 10. Qed.

(** *** Steps keep to the scripts *)

Lemma pending_not_empty d cur sc i a : call_ok o cur -> cur !! i = Some a -> a_dir a = d -> moves d (todo (Some cur, sc)) <> [].
Proof. intros [Hnd _] Hi <-. destruct (moves_take cur sc i a Hnd Hi) as [-> _]. done. Qed.

(** An operation between a stage and the next one. *)
Lemma pair_step full c F s s' l cur rp rn k sc l' cur' rp' rn' k' sc' i j a b rn1 rp1' :
  follows_all full c F -> s' = (S s mod length c)%nat -> s <> s' ->
  c !! s = Some (mkStage l (Wait o (map erase cur) rp rn k)) -> F s = (Some cur, sc) ->
  c !! s' = Some (mkStage l' (Wait o (map erase cur') rp' rn' k')) -> F s' = (Some cur', sc') ->
  cur !! i = Some a -> cur' !! j = Some b -> link_pair (a_dir a) (a_dir b) ->
  (a_val a = a_val b -> rn1 = if decide (a_dir a = RN) then Some (a_val a) else rn) ->
  (a_val a = a_val b -> rp1' = if decide (a_dir b = RP) then Some (a_val b) else rp') ->
  exists F', follows_all full (<[s := mkStage l (Wait o (delete i (map erase cur)) rp rn1 k)]>
      (<[s' := mkStage l' (Wait o (delete j (map erase cur')) rp1' rn' k')]> c)) F' /\ (total (length c) F' < total (length c) F)%nat.
Proof.
  intros [Ht Hl] Hs' Hne Hc Hx Hc' Hx' Hi Hj Hd Hrn Hrp. pose proof (Ht s _ Hc) as T1. pose proof (Ht s' _ Hc') as T2. rewrite Hx in T1. rewrite Hx' in T2.
  destruct (tracks_wait_inv _ _ _ _ _ _ _ _ T1) as (? & ? & [= <- <-] & _ & _ & O1).
  destruct (tracks_wait_inv _ _ _ _ _ _ _ _ T2) as (? & ? & [= <- <-] & _ & _ & O2).
  pose proof (lookup_lt_Some _ _ _ Hc) as Hlt. pose proof (lookup_lt_Some _ _ _ Hc') as Hlt'.
  assert (s' = S s /\ (S s < length c)%nat) as [-> HS].
  { destruct (decide (S s = length c)) as [El|El].
    - exfalso. destruct (lk_last _ _ Hl s El) as [M1 M2]. rewrite Hx in M1, M2. destruct Hd as [[Da _]|[Da _]];
        [by apply (pending_not_empty SN cur sc i a)|by apply (pending_not_empty RN cur sc i a)].
    - rewrite Nat.mod_small in Hs' by lia. split; [done|lia]. }
  destruct (exchange (length c) F s cur sc cur' sc' i j a b Hl HS Hx Hx' (proj1 O1) (proj1 O2) Hi Hj Hd) as [Hv HG].
  specialize (Hrn Hv). specialize (Hrp Hv).
  eexists. split; [split; [|rewrite !length_insert; exact HG]|].
  - intros r st Hr. destruct (decide (r = s)) as [->|H1].
    + rewrite list_lookup_insert_eq in Hr by (by rewrite length_insert). injection Hr as <-. rewrite upd_ne, upd_eq by lia.
      eapply tracks_done; [exact T1|exact Hi| |exact Hrn]. destruct Hd as [[-> _]|[-> _]]; done.
    + rewrite list_lookup_insert_ne in Hr by done. destruct (decide (r = S s)) as [->|H2].
      * rewrite list_lookup_insert_eq in Hr by done. injection Hr as <-. rewrite upd_eq.
        eapply tracks_done; [exact T2|exact Hj|exact Hrp|]. destruct Hd as [[_ ->]|[_ ->]]; done.
      * rewrite list_lookup_insert_ne in Hr by done. rewrite !upd_ne by done. auto.
  - pose proof (total_upd (length c) F s (Some (delete i cur), sc) Hlt) as W1.
    pose proof (total_upd (length c) (upd F s (Some (delete i cur), sc)) (S s) (Some (delete j cur'), sc') HS) as W2.
    rewrite upd_ne in W2 by lia. rewrite Hx in W1. rewrite Hx' in W2. cbn [weight fst snd] in W1, W2.
    rewrite length_delete in W1 by (by eexists). rewrite length_delete in W2 by (by eexists).
    pose proof (lookup_lt_Some _ _ _ Hi). pose proof (lookup_lt_Some _ _ _ Hj). lia.
Qed.

Lemma local_total full c F s st st' x' : c !! s = Some st -> follows_all full c F -> tracks (full s) st' x' ->
  (forall d, moves d (todo x') = moves d (todo (F s))) -> (weight x' < weight (F s))%nat ->
  exists F', follows_all full (<[s := st']> c) F' /\ (total (length c) F' < total (length c) F)%nat.
Proof.
  intros Hc Hf Ht Hm Hw. pose proof (lookup_lt_Some _ _ _ Hc) as Hlt. exists (upd F s x'). split; [by apply local_step|].
  pose proof (total_upd (length c) F s x' Hlt). lia.
Qed.

Lemma step_follows full c c' F : follows_all full c F -> step c c' ->
  exists F', follows_all full c' F' /\ (total (length c') F' < total (length c) F)%nat.
Proof.
  intros Hf Hs. pose proof (fa_tracks _ _ _ Hf) as Ht.
  assert (Hlen : length c' = length c) by (destruct Hs; by rewrite ?length_insert). rewrite Hlen.
  destruct Hs as [c s l e p Hc|c s l o' ops k Hc|c s l o' rp rn k Hc
    |c s s' l o1 ps rp rn k l' o2 ps' rp' rn' k' i j v Es Hne Hc Hc' Hi Hdi Hj Hdj
    |c s s' l o1 ps rp rn k l' o2 ps' rp' rn' k' i j v Es Hne Hc Hc' Hi Hdi Hj Hdj].
  - specialize (Ht s _ Hc). inversion Ht as [? ? sc Hfo Hti Hlo Ex1 Ex2|]; subst. inversion Hfo as [|? ? sc0 Hfo'|]; subst.
    inversion Hti as [|? ? Hti'|]; subst. eapply (local_total full c F s _ _ (None, sc0)); [exact Hc|done| | |].
    + constructor; [done|done|]. rewrite <- Hlo. unfold script_log. cbn. by rewrite <- app_assoc.
    + intros d. by rewrite <- Ex2.
    + rewrite <- Ex2. cbn. lia.
  - specialize (Ht s _ Hc). inversion Ht as [? ? sc Hfo Hti Hlo Ex1 Ex2|]; subst. inversion Hfo as [| |cl ? sc0 Hfo']; subst.
    inversion Hti as [| |? ? Hco Hbe Hti']; subst. eapply (local_total full c F s _ _ (Some cl, sc0)); [exact Hc|done| | |].
    + constructor; try done. unfold keep. destruct (received RP cl), (received RN cl); exact Hfo'.
    + intros d. rewrite <- Ex2. unfold todo, script_ops. done.
    + rewrite <- Ex2. cbn. unfold script_weight. cbn. lia.
  - specialize (Ht s _ Hc). inversion Ht as [|? cur ? ? ? sc Hco Hbe Hti Hfo Hlo Ex1 Ex2]; subst.
    destruct cur as [|a cur]; [|done]. eapply (local_total full c F s _ _ (None, sc)); [exact Hc|done| | |].
    + by constructor.
    + intros d. by rewrite <- Ex2.
    + rewrite <- Ex2. cbn. lia.
  - destruct (tracks_wait_inv _ _ _ _ _ _ _ _ (Ht s _ Hc)) as (cur & sc & Ex & -> & -> & _).
    destruct (tracks_wait_inv _ _ _ _ _ _ _ _ (Ht s' _ Hc')) as (cur' & sc' & Ex' & -> & -> & _).
    destruct (erase_lookup _ _ _ Hi) as (a & Ha & Ea). destruct (erase_lookup _ _ _ Hj) as (b & Hb & Eb).
    assert (Da : a_dir a = SN /\ a_val a = v) by (unfold erase in Ea; destruct (a_dir a); naive_solver).
    assert (Db : a_dir b = RP) by (unfold erase in Eb; destruct (a_dir b); naive_solver). destruct Da as [Da <-].
    eapply (pair_step full c F s s'); try done; [by left| |].
    + by rewrite Da.
    + intros ->. by rewrite Db.
  - destruct (tracks_wait_inv _ _ _ _ _ _ _ _ (Ht s _ Hc)) as (cur & sc & Ex & -> & -> & _).
    destruct (tracks_wait_inv _ _ _ _ _ _ _ _ (Ht s' _ Hc')) as (cur' & sc' & Ex' & -> & -> & _).
    destruct (erase_lookup _ _ _ Hi) as (a & Ha & Ea). destruct (erase_lookup _ _ _ Hj) as (b & Hb & Eb).
    assert (Da : a_dir a = RN) by (unfold erase in Ea; destruct (a_dir a); naive_solver).
    assert (Db : a_dir b = SP /\ a_val b = v) by (unfold erase in Eb; destruct (a_dir b); naive_solver). destruct Db as [Db <-].
    eapply (pair_step full c F s s'); try done; [by right| |].
    + intros ->. by rewrite Da.
    + by rewrite Db.
Qed.

(** *** Progress *)

(** The stage can go on by itself. *)
Definition can_move (st : stage) : bool :=
  match st_act st with
  | Run (Emit _ _) | Run (Comm _ _ _) => true
  | Wait _ [] _ _ _ => true
  | _ => false
  end.

Lemma can_move_step c s st : c !! s = Some st -> can_move st = true -> exists c', step c c'.
Proof.
  intros Hs Hm. destruct st as [l [[[]|e|e p|o' ops k]|o' [|op ps] rp rn k]]; try discriminate Hm; eexists.
  - by eapply step_emit.
  - by eapply step_post.
  - by eapply step_resume.
Qed.

(** A stage that cannot: it returned, or it waits for pending operations. *)
Lemma blocked_cases full st x : tracks full st x -> can_move st = false ->
  st_act st = Run (Ret tt) /\ x = (None, []) \/
  exists cur sc l rp rn k, x = (Some cur, sc) /\ cur <> [] /\ st = mkStage l (Wait o (map erase cur) rp rn k) /\
    call_ok o cur /\ before cur (script_ops sc).
Proof.
  destruct 1 as [l p sc Hf Ht Hl|l cur rp rn k sc Hc Hb Ht Hf Hl]; intros Hm.
  - left. destruct Hf; try discriminate Hm. done.
  - right. exists cur, sc, l, rp, rn, k. split_and!; try done. by intros ->.
Qed.

Lemma min_element {A} (f : A -> Z) (l : list A) : l <> [] -> exists x, x ∈ l /\ forall y, y ∈ l -> f x <= f y.
Proof.
  induction l as [|a l IH]; [done|]. intros _. destruct l as [|b l].
  - exists a. split; [left|]. intros y ->%list_elem_of_singleton. lia.
  - destruct IH as (x & Hx & Hm); [done|]. destruct (Z.le_gt_cases (f a) (f x)) as [Hle|Hgt].
    + exists a. split; [left|]. intros y [->|Hy]%elem_of_cons; [lia|]. specialize (Hm y Hy). lia.
    + exists x. split; [by right|]. intros y [->|Hy]%elem_of_cons; [lia|auto].
Qed.

(** The earliest operation of a call may be done. *)
Lemma earliest_may_do (cur : list aop) i a : call_ok o cur -> cur !! i = Some a -> (forall x, x ∈ cur -> a_time a <= a_time x) -> may_do o i.
Proof.
  intros [_ Hs] Hi Hmin Ho. specialize (Hs Ho). destruct i as [|i]; [done|]. destruct cur as [|x cur]; [done|]. cbn in Hi.
  inversion Hs as [|? ? _ Hf]; subst. rewrite Forall_forall in Hf. specialize (Hf a (list_elem_of_lookup_2 _ _ _ Hi)).
  specialize (Hmin x ltac:(left)). lia.
Qed.

(** The partner of the earliest pending operation is pending too. *)
Lemma partner_pending d d' (cur : list aop) sc (cur' : list aop) sc' i a : call_ok o cur -> cur !! i = Some a -> a_dir a = d ->
  moves d (todo (Some cur, sc)) = moves d' (todo (Some cur', sc')) -> cur' <> [] -> before cur' (script_ops sc') ->
  (forall x, x ∈ cur' -> a_time a <= a_time x) ->
  exists j b, cur' !! j = Some b /\ a_dir b = d' /\ a_val b = a_val a /\ a_time b = a_time a.
Proof.
  intros [Hnd _] Hi <- Hm Hne Hb Hmin. destruct (moves_take cur sc i a Hnd Hi) as [Hmv _]. rewrite Hmv in Hm.
  change (todo (Some cur', sc')) with (cur' ++ script_ops sc') in Hm. rewrite moves_app in Hm.
  destruct (dirs_of d' cur') as [|b bs] eqn:Ed; unfold moves in Hm; rewrite Ed in Hm.
  - exfalso. destruct (dirs_of d' (script_ops sc')) as [|b bs] eqn:Es; [done|]. injection Hm as _ Ht _.
    assert (Hbin : b ∈ script_ops sc'). { assert (b ∈ dirs_of d' (script_ops sc')) as Hin by (rewrite Es; left). by apply list_elem_of_filter in Hin as [_ ?]. }
    destruct cur' as [|x cur']; [done|]. specialize (Hb x b ltac:(left) Hbin). specialize (Hmin x ltac:(left)). lia.
  - injection Hm as Hv Ht _. assert (b ∈ dirs_of d' cur') as Hin by (rewrite Ed; left).
    apply list_elem_of_filter in Hin as [Hd [j Hj]%list_elem_of_lookup]. exists j, b. done.
Qed.

Definition pending_ops (F : nat -> progress) (P : nat) : list (nat * aop) :=
  concat (map (fun s => map (pair s) (default [] (F s).1)) (seq 0 P)).

Lemma elem_of_pending F P s a : (s, a) ∈ pending_ops F P <-> (s < P)%nat /\ a ∈ default [] (F s).1.
Proof.
  unfold pending_ops. rewrite list_elem_of_In, in_concat. split.
  - intros (l & (r & <- & Hr%in_seq)%in_map_iff & (x & [= -> ->] & Hx)%in_map_iff). rewrite list_elem_of_In. split; [lia|done].
  - intros [Hs Ha%list_elem_of_In]. eexists. split; [apply in_map_iff; exists s; split; [done|apply in_seq; lia]|]. by apply in_map.
Qed.

(** A network that follows scripts is finished or can go on. *)
Lemma progress_holds full c F : follows_all full c F -> finished c \/ exists c', step c c'.
Proof.
  intros [Ht Hl]. destruct (existsb can_move c) eqn:Em.
  { right. apply existsb_exists in Em as (st & Hin & Hm). apply list_elem_of_In, list_elem_of_lookup in Hin as [s Hs]. by eapply can_move_step. }
  assert (Hb : forall s st, c !! s = Some st -> can_move st = false).
  { intros s st Hs. destruct (can_move st) eqn:Ec; [|done]. assert (existsb can_move c = true); [|congruence].
    apply existsb_exists. exists st. split; [|done]. apply list_elem_of_In. by eapply list_elem_of_lookup_2. }
  destruct (decide (pending_ops F (length c) = [])) as [Ep|Ep].
  { left. apply Forall_lookup. intros s st Hs. destruct (blocked_cases _ _ _ (Ht s st Hs) (Hb s st Hs)) as [[Hr _]|(cur & sc & l & rp & rn & k & Ex & Hne & _)]; [done|].
    exfalso. destruct cur as [|a cur]; [done|]. assert (Hin : (s, a) ∈ pending_ops F (length c)); [|rewrite Ep in Hin; set_solver].
    apply elem_of_pending. rewrite Ex. split; [by eapply lookup_lt_Some|left]. }
  right. destruct (min_element (fun x => a_time x.2) _ Ep) as ([s a] & Hin & Hmin). apply elem_of_pending in Hin as [Hs Ha].
  assert (Hmin' : forall r b, (r < length c)%nat -> b ∈ default [] (F r).1 -> a_time a <= a_time b).
  { intros r b Hr Hbin. apply (Hmin (r, b)). by apply elem_of_pending. }
  assert (Hwait : forall r d, (r < length c)%nat -> moves d (todo (F r)) <> [] -> exists cur sc l rp rn k, F r = (Some cur, sc) /\ cur <> [] /\
    c !! r = Some (mkStage l (Wait o (map erase cur) rp rn k)) /\ call_ok o cur /\ before cur (script_ops sc)).
  { intros r d Hr Hm. destruct (lookup_lt_is_Some_2 c r Hr) as [st Hst].
    destruct (blocked_cases _ _ _ (Ht r st Hst) (Hb r st Hst)) as [[_ Ex]|(cur & sc & l & rp & rn & k & Ex & Hne & -> & Hco & Hbe)].
    - rewrite Ex in Hm. by destruct Hm.
    - exists cur, sc, l, rp, rn, k. by split_and!. }
  assert (Hma : moves (a_dir a) (todo (F s)) <> []).
  { unfold todo. rewrite moves_app. unfold moves. destruct (dirs_of (a_dir a) (default [] (F s).1)) as [|x xs] eqn:Ed; [|done].
    assert (Hx : a ∈ dirs_of (a_dir a) (default [] (F s).1)) by (by apply list_elem_of_filter). rewrite Ed in Hx. set_solver. }
  destruct (Hwait s (a_dir a) Hs Hma) as (cur & sc & l & rp & rn & k & Ex & Hne & Hc & Hco & Hbe).
  rewrite Ex in Ha. cbn in Ha. apply list_elem_of_lookup in Ha as [i Hi].
  assert (Hda : may_do o i). { eapply earliest_may_do; [done|done|]. intros x Hx. apply (Hmin' s); [done|]. by rewrite Ex. }
  (* the other side of the operation, at stage [r] *)
  assert (Hother : forall r d', (r < length c)%nat -> moves (a_dir a) (todo (F s)) = moves d' (todo (F r)) ->
    exists cur' sc' l' rp' rn' k' j b, F r = (Some cur', sc') /\ c !! r = Some (mkStage l' (Wait o (map erase cur') rp' rn' k')) /\
      cur' !! j = Some b /\ a_dir b = d' /\ a_val b = a_val a /\ may_do o j).
  { intros r d' Hr Hm. destruct (Hwait r d' Hr) as (cur' & sc' & l' & rp' & rn' & k' & Ex' & Hne' & Hc' & Hco' & Hbe'); [by rewrite <- Hm|].
    rewrite Ex, Ex' in Hm. destruct (partner_pending (a_dir a) d' cur sc cur' sc' i a Hco Hi eq_refl Hm Hne' Hbe') as (j & b & Hj & Hdb & Hv & Htb).
    { intros x Hx. apply (Hmin' r); [done|]. by rewrite Ex'. }
    exists cur', sc', l', rp', rn', k', j, b. split_and!; try done.
    eapply earliest_may_do; [done|done|]. intros x Hx. rewrite Htb. apply (Hmin' r); [done|]. by rewrite Ex'. }
  assert (Hop : forall (cu : list aop) m x, cu !! m = Some x -> map erase cu !! m = Some (erase x)) by (intros cu m x Hx; by rewrite list_lookup_fmap, Hx).
  assert (Hsucc : a_dir a = SN \/ a_dir a = RN -> (S s < length c)%nat).
  { intros Hd. destruct (decide (S s = length c)) as [El|]; [|lia]. exfalso. destruct (lk_last _ _ Hl s El) as [M1 M2]. destruct Hd as [Hd|Hd]; rewrite Hd in Hma; done. }
  assert (Hpred : a_dir a = SP \/ a_dir a = RP -> exists r, s = S r).
  { intros Hd. destruct s as [|r]; [|eauto]. exfalso. destruct (lk_first _ _ Hl 0%nat eq_refl) as [M1 M2]. destruct Hd as [Hd|Hd]; rewrite Hd in Hma; done. }
  assert (Ea : erase a = match a_dir a with SP => SendPrev (a_val a) | RP => RecvPrev | SN => SendNext (a_val a) | RN => RecvNext end) by done.
  destruct (a_dir a) eqn:Da.
  - destruct Hpred as [r ->]; [auto|]. destruct (Hother r RN) as (cur' & sc' & l' & rp' & rn' & k' & j & b & Ex' & Hc' & Hj & Db & Hv & Hdj); [lia|by apply (lk_backward _ _ Hl)|].
    eexists. eapply (step_backward c r (S r)); [by rewrite Nat.mod_small|lia|exact Hc'|exact Hc| |exact Hdj| |exact Hda].
    + rewrite (Hop _ _ _ Hj). unfold erase. by rewrite Db.
    + rewrite (Hop _ _ _ Hi). by rewrite Ea.
  - destruct Hpred as [r ->]; [auto|]. destruct (Hother r SN) as (cur' & sc' & l' & rp' & rn' & k' & j & b & Ex' & Hc' & Hj & Db & Hv & Hdj); [lia|symmetry; by apply (lk_forward _ _ Hl)|].
    eexists. eapply (step_forward c r (S r)); [by rewrite Nat.mod_small|lia|exact Hc'|exact Hc| |exact Hdj| |exact Hda].
    + rewrite (Hop _ _ _ Hj). unfold erase. by rewrite Db.
    + rewrite (Hop _ _ _ Hi). by rewrite Ea.
  - specialize (Hsucc ltac:(auto)). destruct (Hother (S s) RP) as (cur' & sc' & l' & rp' & rn' & k' & j & b & Ex' & Hc' & Hj & Db & Hv & Hdj); [lia|by apply (lk_forward _ _ Hl)|].
    eexists. eapply (step_forward c s (S s)); [by rewrite Nat.mod_small|lia|exact Hc|exact Hc'| |exact Hda| |exact Hdj].
    + rewrite (Hop _ _ _ Hi). by rewrite Ea.
    + rewrite (Hop _ _ _ Hj). unfold erase. by rewrite Db.
  - specialize (Hsucc ltac:(auto)). destruct (Hother (S s) SP) as (cur' & sc' & l' & rp' & rn' & k' & j & b & Ex' & Hc' & Hj & Db & Hv & Hdj); [lia|symmetry; by apply (lk_backward _ _ Hl)|].
    eexists. eapply (step_backward c s (S s)); [by rewrite Nat.mod_small|lia|exact Hc|exact Hc'| |exact Hda| |exact Hdj].
    + rewrite (Hop _ _ _ Hi). by rewrite Ea.
    + rewrite (Hop _ _ _ Hj). unfold erase. by rewrite Db.
Qed.

(** *** Runs *)

(** Reachable networks follow the scripts, and the work left shrinks. *)
Lemma runs_follows full n c c' F : follows_all full c F -> runs n c c' ->
  exists F', follows_all full c' F' /\ (n + total (length c') F' <= total (length c) F)%nat.
Proof.
  intros Hf Hr. revert F Hf. induction Hr as [c|n c c1 c2 Hs Hr IH]; intros F Hf; [exists F; split; [done|lia]|].
  destruct (step_follows full c c1 F Hf Hs) as (F1 & Hf1 & Ht1). destruct (IH F1 Hf1) as (F2 & Hf2 & Ht2).
  exists F2. split; [done|lia].
Qed.

Lemma runs_trans n1 n2 (c c1 c2 : list stage) : runs n1 c c1 -> runs n2 c1 c2 -> runs (n1 + n2) c c2.
Proof. induction 1; intros H2; [done|]. econstructor; eauto. Qed.

Lemma finished_logs full c F : follows_all full c F -> finished c -> forall s st, c !! s = Some st -> st_log st = full s.
Proof.
  intros [Ht _] Hf s st Hs. pose proof (Forall_lookup_1 _ _ _ _ Hf Hs) as Hd. specialize (Ht s st Hs).
  inversion Ht as [l p sc Hfo _ Hl|]; subst; cbn in Hd; [|done]. injection Hd as ->. inversion Hfo; subst. cbn in *. by rewrite <- Hl, app_nil_r.
Qed.

Lemma tracked_prefix full c F : follows_all full c F -> forall s st, c !! s = Some st -> st_log st `prefix_of` full s.
Proof. intros [Ht _] s st Hs. specialize (Ht s st Hs). inversion Ht as [l p sc _ _ Hl|l cur rp rn k sc _ _ _ _ Hl]; subst; cbn; rewrite <- Hl; by eexists. Qed.

(** Every network that follows scripts can be run to its end. *)
Lemma runs_to_end full c F : follows_all full c F -> exists n c' F', runs n c c' /\ finished c' /\ follows_all full c' F'.
Proof.
  remember (total (length c) F) as t eqn:Et. revert c F Et. induction (lt_wf t) as [t _ IH]. intros c F -> Hf.
  destruct (progress_holds full c F Hf) as [Hd|[c' Hs]]; [exists 0%nat, c, F; split_and!; [constructor|done|done]|].
  destruct (step_follows full c c' F Hf Hs) as (F' & Hf' & Ht').
  destruct (IH _ Ht' c' F' eq_refl Hf') as (n & c2 & F2 & Hr & Hd & Hf2). exists (S n), c2, F2. split_and!; [by econstructor|done|done].
Qed.

(** The script of every stage, and the agreement of neighbours on the scripts. *)
Record script_linked (P : nat) (sc : nat -> list item) : Prop := {
  sl_forward : forall s, (S s < P)%nat -> moves SN (script_ops (sc s)) = moves RP (script_ops (sc (S s)));
  sl_backward : forall s, (S s < P)%nat -> moves SP (script_ops (sc (S s))) = moves RN (script_ops (sc s));
  sl_first : moves RP (script_ops (sc 0%nat)) = [] /\ moves SP (script_ops (sc 0%nat)) = [];
  sl_last : forall s, S s = P -> moves SN (script_ops (sc s)) = [] /\ moves RN (script_ops (sc s)) = []
}.

Lemma start_follows ps sc : (forall s p, ps !! s = Some p -> follows o p (sc s) /\ timed o (sc s)) ->
  script_linked (length ps) sc -> follows_all (fun s => script_log (sc s)) (start ps) (fun s => (None, sc s)).
Proof.
  intros Hp [H1 H2 H3 H4]. split.
  - intros s st (p & -> & Hs)%list_lookup_fmap_Some. destruct (Hp s p Hs) as [Hfo Hti]. by constructor.
  - unfold start. rewrite length_map. split.
    + intros s Hs. by apply H1.
    + intros s Hs. by apply H2.
    + intros s ->. done.
    + intros s Hs. by apply H4.
Qed.

(** The behaviour of a network whose programs follow linked scripts: every run is
    finite, and wherever it stopped the network is finished or can go on; what was
    logged is always a beginning of the scripts, and all of them in a finished
    network; there is a run to the end. *)
Record correct_runs (ps : list (prog E T unit)) (logs : nat -> list E) : Prop := {
  cr_bounded : exists N, forall n c, runs n (start ps) c -> (n <= N)%nat;
  cr_no_deadlock : forall n c, runs n (start ps) c -> finished c \/ exists c', step c c';
  cr_prefix : forall n c s st, runs n (start ps) c -> c !! s = Some st -> st_log st `prefix_of` logs s;
  cr_logs : forall n c s st, runs n (start ps) c -> finished c -> c !! s = Some st -> st_log st = logs s;
  cr_ends : exists n c, runs n (start ps) c /\ finished c
}.

Lemma scripts_correct ps sc : (forall s p, ps !! s = Some p -> follows o p (sc s) /\ timed o (sc s)) ->
  script_linked (length ps) sc -> correct_runs ps (fun s => script_log (sc s)).
Proof.
  intros Hp Hl. pose proof (start_follows ps sc Hp Hl) as Hf. split.
  - eexists. intros n c Hr. destruct (runs_follows _ _ _ _ _ Hf Hr) as (F & _ & Ht). eapply Nat.le_trans; [|exact Ht]. lia.
  - intros n c Hr. destruct (runs_follows _ _ _ _ _ Hf Hr) as (F & Hf' & _). by eapply progress_holds.
  - intros n c s st Hr Hs. destruct (runs_follows _ _ _ _ _ Hf Hr) as (F & Hf' & _). by eapply (tracked_prefix (fun s => script_log (sc s))).
  - intros n c s st Hr Hd Hs. destruct (runs_follows _ _ _ _ _ Hf Hr) as (F & Hf' & _). by eapply (finished_logs (fun s => script_log (sc s))).
  - destruct (runs_to_end _ _ _ Hf) as (n & c & F & Hr & Hd & _). by exists n, c.
Qed.

Lemma correct_runs_ext ps logs logs' : (forall s, logs s = logs' s) -> correct_runs ps logs -> correct_runs ps logs'.
Proof.
  intros E0 [C1 C2 C3 C4 C5]. split; [done|done| | |done].
  - intros n c s st Hr Hs. rewrite <- E0. eauto.
  - intros n c s st Hr Hd Hs. rewrite <- E0. eauto.
Qed.

(** *** Composing programs and scripts *)

(** The program does the script and returns [a]. *)
Inductive does {A} : prog E T A -> list item -> A -> Prop :=
  | does_ret a : does (Ret a) [] a
  | does_emit e p sc a : does p sc a -> does (Emit e p) (IEv e :: sc) a
  | does_comm l k sc a : does (k (received RP l) (received RN l)) sc a -> does (Comm o (map erase l) k) (IComm l :: sc) a.

Lemma does_follows p sc : does p sc tt -> follows o p sc.
Proof. remember tt as u. induction 1; subst; constructor; auto. Qed.

Lemma does_bind {A B} (p : prog E T A) (f : A -> prog E T B) sc1 sc2 a b :
  does p sc1 a -> does (f a) sc2 b -> does (p ≫= f) (sc1 ++ sc2) b.
Proof. induction 1; intros Hf; [exact Hf| |]; cbn; constructor; apply IHdoes, Hf. Qed.

(** A loop whose state before iteration [i] is [st i]. *)
Lemma does_for {St} (body : nat -> St -> prog E T St) (sc : nat -> list item) (st : nat -> St) n a :
  (forall i, (a <= i < a + n)%nat -> does (body i (st i)) (sc i) (st (1 + i)%nat)) ->
  does (forP (seq a n) body (st a)) (concat (map sc (seq a n))) (st (a + n)%nat).
Proof.
  revert a. induction n as [|n IH]; intros a Hb; cbn [seq map concat forP].
  - rewrite Nat.add_0_r. constructor.
  - eapply does_bind; [apply Hb; lia|]. replace (a + S n)%nat with (S a + n)%nat by lia. apply IH. intros i Hi. apply Hb. lia.
Qed.

(** Scripts in sequence. *)
Lemma script_ops_app (sc1 sc2 : list item) : script_ops (sc1 ++ sc2) = script_ops sc1 ++ script_ops sc2.
Proof. unfold script_ops. by rewrite map_app, concat_app. Qed.
Lemma script_log_app (sc1 sc2 : list item) : script_log (sc1 ++ sc2) = script_log sc1 ++ script_log sc2.
Proof. unfold script_log. by rewrite map_app, concat_app. Qed.
Lemma script_ops_concat (scs : list (list item)) : script_ops (concat scs) = concat (map script_ops scs).
Proof. induction scs as [|sc scs IH]; [done|]. cbn [concat map]. by rewrite script_ops_app, IH. Qed.
Lemma script_log_concat (scs : list (list item)) : script_log (concat scs) = concat (map script_log scs).
Proof. induction scs as [|sc scs IH]; [done|]. cbn [concat map]. by rewrite script_log_app, IH. Qed.
Lemma moves_concat d (ls : list (list aop)) : moves d (concat ls) = concat (map (moves d) ls).
Proof. induction ls as [|l ls IH]; [done|]. cbn [concat map]. by rewrite moves_app, IH. Qed.

(** A script in order of time that stays between two times. *)
Definition between (lo hi : Z) (sc : list item) : Prop :=
  timed o sc /\ lo <= hi /\ Forall (fun a => lo <= a_time a < hi) (script_ops sc).

Lemma timed_app (sc1 sc2 : list item) : timed o sc1 -> timed o sc2 -> before (script_ops sc1) (script_ops sc2) -> timed o (sc1 ++ sc2).
Proof.
  induction 1 as [|e sc Ht IH|l sc Hc Hb Ht IH]; intros H2 H12; cbn; [done| |].
  - constructor. by apply IH.
  - assert (script_ops (IComm l :: sc) = l ++ script_ops sc) as Es by done. rewrite Es in H12. constructor; [done| |].
    + intros a b Ha. rewrite script_ops_app. intros [Hb'|Hb']%elem_of_app; [auto|]. apply H12; [apply elem_of_app; auto|done].
    + apply IH; [done|]. intros a b Ha Hb'. apply H12; [apply elem_of_app; auto|done].
Qed.

Lemma between_nil lo hi : lo <= hi -> between lo hi [].
Proof. intros. split_and!; [constructor|done|constructor]. Qed.

Lemma between_app lo mid hi sc1 sc2 : between lo mid sc1 -> between mid hi sc2 -> between lo hi (sc1 ++ sc2).
Proof.
  intros (T1 & L1 & B1) (T2 & L2 & B2). rewrite Forall_forall in B1, B2. split_and!; [|lia|].
  - apply timed_app; [done|done|]. intros a b Ha Hb. specialize (B1 a Ha). specialize (B2 b Hb). lia.
  - apply Forall_forall. intros a. rewrite script_ops_app. intros [Ha|Ha]%elem_of_app; [specialize (B1 a Ha)|specialize (B2 a Ha)]; lia.
Qed.

Lemma between_ev lo hi e : lo <= hi -> between lo hi [IEv e].
Proof. intros. split_and!; [repeat constructor|done|constructor]. Qed.

Lemma between_comm lo hi l : lo <= hi -> call_ok o l -> Forall (fun a => lo <= a_time a < hi) l -> between lo hi [IComm l].
Proof.
  intros. split_and!; [|done|unfold script_ops; cbn; by rewrite app_nil_r].
  constructor; [done| |constructor]. intros a b _ Hb. unfold script_ops in Hb. cbn in Hb. by apply elem_of_nil in Hb.
Qed.

Lemma between_loop (f : nat -> Z) (sc : nat -> list item) n a : (forall i, (a <= i < a + n)%nat -> between (f i) (f (1 + i)%nat) (sc i)) ->
  between (f a) (f (a + n)%nat) (concat (map sc (seq a n))).
Proof.
  revert a. induction n as [|n IH]; intros a Hb; cbn [seq map concat].
  - rewrite Nat.add_0_r. apply between_nil. lia.
  - eapply between_app; [apply Hb; lia|]. replace (a + S n)%nat with (S a + n)%nat by lia. apply IH. intros i Hi. apply Hb. lia.
Qed.
End Theory.
