(* ===== verification/Pipeline.v ===== *)
(** * Pipeline schedules

    [P2PCommunicator] of [megatron/core/pipeline_parallel/p2p_communication.py]
    and the schedules without interleaving of
    [megatron/core/pipeline_parallel/schedules.py], as programs of the network
    model: every rank of the pipeline group runs
    [forward_backward_pipelining_without_interleaving], which calls the model's
    forward and backward steps and the communicator.

    The model itself is a parameter: [forward_step_func] gives the output of a
    stage on a microbatch, autograd the gradient of its input.  Tensors have an
    abstract type [T], what the loss function reports has type [L].

    The requests of a batched call ([_batched_p2p_ops]) are done in any order;
    those of [_p2p_ops] one after the other in the order they are issued, each
    waiting for its counterpart.  This is stricter than the asynchronous sends of
    the library, so what never blocks here never blocks there. *)

From S2P Require Import Prelude.
From S2P Require Import Network.

(** What the loss function returns: the triple with the number of tokens, or the
    pair of the legacy interface. *)
Inductive loss_outputs (T L : Type) :=
  | Outputs3 (output_tensor : T) (num_tokens : Z) (loss_reduced : L)
  | Outputs2 (output_tensor : T) (loss_reduced : L).
Arguments Outputs3 {_ _} _ _ _.
Arguments Outputs2 {_ _} _ _.

(** [loss_func(output)] and [loss_func(output, non_loss_data=True)]. *)
Record loss_func (T L : Type) := mkLossFunc {
  lf_loss : T -> loss_outputs T L;
  lf_non_loss : T -> L
}.
Arguments mkLossFunc {_ _} _ _.
Arguments lf_loss {_ _} _ _.
Arguments lf_non_loss {_ _} _ _.

(** The code of the user and of torch that the schedules call.
    [forward_step_func stage microbatch checkpoint input] runs the part of the
    model at [stage]; [input_grad stage x y g] is [x.grad] after the backward pass
    from output [y] with gradient [g] ([None] for a loss); [t_div] and [t_mul]
    scale a loss. *)
Class StageModel (T L : Type) := {
  forward_step_func : nat -> Z -> option bool -> list (option T) -> T * loss_func T L;
  input_grad : nat -> T -> T -> option T -> T;
  t_div : T -> Z -> T;
  t_mul : T -> Z -> T
}.

(** The fields of [ModelParallelConfig] the schedules read. *)
Record config (T : Type) := mkConfig {
  overlap_p2p_comm : bool;
  batch_p2p_comm : bool;
  has_pipeline_dtype : bool;
  sequence_parallel : bool;
  hidden_size : Z;
  num_microbatches_with_partial_activation_checkpoints : option Z;
  has_grad_sync_func : bool;
  has_finalize_model_grads_func : bool;
  calculate_per_token_loss : bool;
  deallocate_pipeline_outputs : bool;
  grad_scale_func : option (T -> T)
}.
Arguments mkConfig {_} _ _ _ _ _ _ _ _ _ _ _.
Arguments overlap_p2p_comm {_} _.
Arguments batch_p2p_comm {_} _.
Arguments has_pipeline_dtype {_} _.
Arguments sequence_parallel {_} _.
Arguments hidden_size {_} _.
Arguments num_microbatches_with_partial_activation_checkpoints {_} _.
Arguments has_grad_sync_func {_} _.
Arguments has_finalize_model_grads_func {_} _.
Arguments calculate_per_token_loss {_} _.
Arguments deallocate_pipeline_outputs {_} _.
Arguments grad_scale_func {_} _.

(** The groups the schedules read: the pipeline group and the sizes of the tensor
    and context parallel groups. *)
Record groups := mkGroups { pp_size : nat; pp_rank : nat; tp_size : Z; cp_size : Z }.

Definition is_pp_first_stage (g : groups) : bool := bool_decide (pp_rank g = 0%nat).
Definition is_pp_last_stage (g : groups) : bool := bool_decide (Z.of_nat (pp_rank g) = Z.of_nat (pp_size g) - 1).

(** [isinstance(x, list)] with its length, or a single object. *)
Inductive maybe_list := Single | ListOf (n : nat).

(** The arguments of the schedules. *)
Record fb_args := mkArgs {
  arg_model : maybe_list;
  arg_data_iterator : maybe_list;
  num_microbatches : nat;
  seq_length : Z;
  micro_batch_size : Z;
  decoder_seq_length : option Z;
  forward_only : bool;
  collect_non_loss_data : bool;
  first_val_step : option bool;
  has_p2p_communicator : bool;
  has_pg_collection : bool;
  is_encoder_and_decoder : bool
}.

Definition shape : Type := Z * Z * Z.

(** [check_first_val_step] *)
Definition check_first_val_step (first_val_step : option bool) (forward_only cond : bool) : bool :=
  match first_val_step with
  | Some f => if forward_only then f && cond else cond
  | None => cond
  end.

Section Schedules.
Context {T L : Type} `{SM : StageModel T L}.

(** What a rank does besides communicating. *)
Inductive event :=
  | EvEnterNoSync
  | EvExitNoSync
  | EvForward (microbatch : Z) (checkpoint : option bool) (first : bool) (input : list (option T))
  | EvDeallocate (out : T)
  | EvBackward (input : list (option T)) (output : T) (output_grad : option T)
  | EvGradSync
  | EvFinalize (num_tokens : option Z)
  | EvReturn (forward_data_store : list L).

Notation prog := (prog event T).

Definition raiseP {A} (k : exn_kind) (msg : string) : prog A := liftP (raise_ k msg).
Definition whenP (b : bool) (p : prog unit) : prog unit := if b then p else mret tt.
Fixpoint mapP {A B} (f : A -> prog B) (l : list A) : prog (list B) :=
  match l with
  | [] => mret []
  | x :: l' => y ← f x; ys ← mapP f l'; mret (y :: ys)
  end.
Fixpoint iterP {A} (f : A -> prog unit) (l : list A) : prog unit :=
  match l with
  | [] => mret tt
  | x :: l' => f x;; iterP f l'
  end.

(* ------------------------------------------------------------------ *)
(** *** p2p_communication.py *)

Definition op_if {A} (b : option A) (f : A -> p2p_op T) : list (p2p_op T) := match b with Some v => [f v] | None => [] end.
Definition recv_if (b : bool) (op : p2p_op T) : list (p2p_op T) := if b then [op] else [].

Definition _batched_p2p_ops (tensor_send_prev : option T) (recv_prev : bool) (tensor_send_next : option T) (recv_next : bool) : list (p2p_op T) :=
  op_if tensor_send_prev SendPrev ++ recv_if recv_prev RecvPrev ++ op_if tensor_send_next SendNext ++ recv_if recv_next RecvNext.

Definition _p2p_ops (rank : nat) (tensor_send_prev : option T) (recv_prev : bool) (tensor_send_next : option T) (recv_next : bool) : list (p2p_op T) :=
  if Nat.even rank then
    op_if tensor_send_next SendNext ++ recv_if recv_prev RecvPrev ++ op_if tensor_send_prev SendPrev ++ recv_if recv_next RecvNext
  else
    recv_if recv_prev RecvPrev ++ op_if tensor_send_next SendNext ++ recv_if recv_next RecvNext ++ op_if tensor_send_prev SendPrev.

Section Rank.
Context (cfg : config T) (g : groups).

(** [_communicate] with [wait_on_reqs=True] and fixed sequence lengths: what is
    received from the previous and from the next rank. *)
Definition _communicate (tensor_send_next tensor_send_prev : option T) (recv_prev recv_next : bool) (tensor_shape : option shape)
  : prog (option T * option T) :=
  (if recv_prev then
     (if has_pipeline_dtype cfg then mret tt else raiseP RuntimeError "pipeline_dtype must be provided if recv_prev is True");;
     (if is_none tensor_shape then raiseP RuntimeError "tensor_shape must be specified if recv_prev is True. " else mret tt)
   else mret tt);;
  (if recv_next then
     (if has_pipeline_dtype cfg then mret tt else raiseP RuntimeError "dtype must be provided if recv_next is True");;
     (if is_none tensor_shape then raiseP RuntimeError "tensor_shape must be specified if recv_next is True. " else mret tt)
   else mret tt);;
  let ops := if batch_p2p_comm cfg then _batched_p2p_ops tensor_send_prev recv_prev tensor_send_next recv_next
             else _p2p_ops (pp_rank g) tensor_send_prev recv_prev tensor_send_next recv_next in
  Comm (negb (batch_p2p_comm cfg)) ops (fun tensor_recv_prev tensor_recv_next => Ret (tensor_recv_prev, tensor_recv_next)).

(** The methods on lists of shapes and tensors, one call of [_communicate] each. *)
Definition recv_forward (tensor_shapes : list shape) (is_first_stage : bool) : prog (list (option T)) :=
  mapP (fun tensor_shape =>
    if is_first_stage then mret None else r ← _communicate None None true false (Some tensor_shape); mret r.1) tensor_shapes.

Definition recv_backward (tensor_shapes : list shape) (is_last_stage : bool) : prog (list (option T)) :=
  mapP (fun tensor_shape =>
    if is_last_stage then mret None else r ← _communicate None None false true (Some tensor_shape); mret r.2) tensor_shapes.

Definition send_forward (output_tensors : list T) (is_last_stage : bool) : prog unit :=
  iterP (fun output_tensor =>
    if is_last_stage then mret tt else _communicate (Some output_tensor) None false false None;; mret tt) output_tensors.

Definition send_backward (input_tensor_grads : list (option T)) (is_first_stage : bool) : prog unit :=
  iterP (fun input_tensor_grad =>
    if is_first_stage then mret tt else _communicate None input_tensor_grad false false None;; mret tt) input_tensor_grads.

Definition send_forward_recv_backward (output_tensors : list T) (tensor_shapes : list shape) (is_last_stage : bool) : prog (list (option T)) :=
  mapP (fun '(output_tensor, tensor_shape) =>
    if is_last_stage then mret None else r ← _communicate (Some output_tensor) None false true (Some tensor_shape); mret r.2)
    (zip output_tensors tensor_shapes).

Definition send_backward_recv_forward (input_tensor_grads : list (option T)) (tensor_shapes : list shape) (is_first_stage : bool) : prog (list (option T)) :=
  mapP (fun '(input_tensor_grad, tensor_shape) =>
    if is_first_stage then mret None else r ← _communicate None input_tensor_grad true false (Some tensor_shape); mret r.1)
    (zip input_tensor_grads tensor_shapes).

(* ------------------------------------------------------------------ *)
(** *** schedules.py: the steps *)

(** [get_tensor_shapes] *)
Definition get_tensor_shapes (seq_length micro_batch_size : Z) (decoder_seq_length : option Z) : res (list shape) :=
  let effective_seq_length := default seq_length decoder_seq_length in
  effective_seq_length ← floordiv effective_seq_length (cp_size g);
  effective_seq_length ← (if sequence_parallel cfg then floordiv effective_seq_length (tp_size g) else mret effective_seq_length);
  mret [(effective_seq_length, micro_batch_size, hidden_size cfg)].

(** [forward_step_calc_loss]: the output, the number of tokens and
    [forward_data_store]. *)
Definition forward_step_calc_loss (output_tensor : T) (lf : loss_func T L) (collect_non_loss_data : bool) (num_microbatches : nat)
    (forward_data_store : list L) (is_last_stage : bool) : T * Z * list L :=
  if is_last_stage then
    if negb collect_non_loss_data then
      match lf_loss lf output_tensor with
      | Outputs3 output_tensor num_tokens loss_reduced =>
          (if negb (calculate_per_token_loss cfg)
           then t_div (t_div output_tensor (Z.max num_tokens 1)) (Z.of_nat num_microbatches) else output_tensor,
           num_tokens, forward_data_store ++ [loss_reduced])
      | Outputs2 output_tensor loss_reduced =>
          (t_div (t_mul output_tensor (cp_size g)) (Z.of_nat num_microbatches), 0, forward_data_store ++ [loss_reduced])
      end
    else (output_tensor, 0, forward_data_store ++ [lf_non_loss lf output_tensor])
  else (output_tensor, 0, forward_data_store).

(** [forward_step], with its input a list. *)
Definition forward_step (num_microbatches : nat) (input_tensor : list (option T)) (forward_data_store : list L) (collect_non_loss_data : bool)
    (checkpoint_activations_microbatch : option bool) (is_first_microbatch : bool) (current_microbatch : Z) (is_last_stage : bool)
  : prog (list T * Z * list L) :=
  emitP (EvForward current_microbatch checkpoint_activations_microbatch is_first_microbatch input_tensor);;
  let '(output_tensor, lf) := forward_step_func (pp_rank g) current_microbatch checkpoint_activations_microbatch input_tensor in
  let '(output_tensor, num_tokens, forward_data_store) :=
    forward_step_calc_loss output_tensor lf collect_non_loss_data num_microbatches forward_data_store is_last_stage in
  mret ([output_tensor], num_tokens, forward_data_store).

(** [deallocate_output_tensor] of a tensor that is no view of another one, which the source asserts. *)
Definition deallocate_output_tensor (out : T) : prog unit := whenP (deallocate_pipeline_outputs cfg) (emitP (EvDeallocate out)).

(** [backward_step] on lists: the gradients of the inputs.  The first output requires gradients; for one that does not, as of a batch
    without images, the source skips the backward pass. *)
Definition backward_step (input_tensor : list (option T)) (output_tensor : list T) (output_tensor_grad : list (option T)) : prog (list (option T)) :=
  g0 ← liftP (py_get output_tensor_grad 0);
  y0 ← liftP (py_get output_tensor 0);
  let y0 := match g0, grad_scale_func cfg with None, Some f => f y0 | _, _ => y0 end in
  emitP (EvBackward input_tensor y0 g0);;
  mret (map (fun x => match x with None => None | Some x => Some (input_grad (pp_rank g) x y0 g0) end) input_tensor).

(* ------------------------------------------------------------------ *)
(** *** schedules.py: one forward, one backward *)

(** The local variables of the schedule. *)
Record locals := mkLocals {
  input_tensors : list (list (option T));
  output_tensors : list (list T);
  input_tensor : list (option T);
  forward_data_store : list L;
  total_num_tokens : Z;
  no_sync_context : bool
}.

(** [disable_grad_sync] and [enable_grad_sync]: the flag says whether
    [no_sync_context] is set. *)
Definition disable_grad_sync (no_sync_context : bool) : prog bool :=
  whenP (negb no_sync_context) (emitP EvEnterNoSync);; mret true.
Definition enable_grad_sync (no_sync_context : bool) : prog bool :=
  whenP no_sync_context (emitP EvExitNoSync);; mret false.

(** [l.pop(0)] *)
Definition pop_front {A} (l : list A) : prog (A * list A) :=
  match l with
  | [] => raiseP IndexError "pop from empty list"
  | x :: l' => mret (x, l')
  end.

Definition num_warmup (m : nat) : nat := Nat.min (pp_size g - pp_rank g - 1) m.

Section Loops.
Context (a : fb_args) (tensor_shapes : list shape).
Let m := num_microbatches a.
Let w := num_warmup m.
Let is_first := is_pp_first_stage g.
Let is_last := is_pp_last_stage g.

(** [checkpoint_activations_microbatch] of microbatch [i];
    [max_outstanding_backprops] is one more than the warmup microbatches. *)
Definition checkpoint_flag (i : nat) : option bool :=
  match num_microbatches_with_partial_activation_checkpoints cfg with
  | Some n => Some (n <=? Z.of_nat (i mod (w + 1)))
  | None => None
  end.

Definition warmup_body (i : nat) (st : locals) : prog locals :=
  x ← recv_forward tensor_shapes is_first;
  '(y, num_tokens, store) ← forward_step m x (forward_data_store st) (collect_non_loss_data a) (checkpoint_flag i)
     (check_first_val_step (first_val_step a) (forward_only a) (bool_decide (i = 0%nat))) (Z.of_nat i) is_last;
  send_forward y is_last;;
  if forward_only a then mret (mkLocals (input_tensors st) (output_tensors st) x store (total_num_tokens st + num_tokens) (no_sync_context st))
  else
    y0 ← liftP (py_get y 0);
    deallocate_output_tensor y0;;
    mret (mkLocals (input_tensors st ++ [x]) (output_tensors st ++ [y]) x store (total_num_tokens st + num_tokens) (no_sync_context st)).

(** [if config.grad_sync_func is None or rank == 0: enable_grad_sync()] *)
Definition maybe_enable (no_sync_context : bool) : prog bool :=
  if negb (has_grad_sync_func cfg) || bool_decide (pp_rank g = 0%nat) then enable_grad_sync no_sync_context else mret no_sync_context.

Definition steady_body (i : nat) (st : locals) : prog locals :=
  let last_iteration := bool_decide (i = (m - w) - 1)%nat in
  '(y, num_tokens, store) ← forward_step m (input_tensor st) (forward_data_store st) (collect_non_loss_data a) (checkpoint_flag (i + w))
     (check_first_val_step (first_val_step a) (forward_only a) (bool_decide (i = 0%nat) && bool_decide (w = 0%nat))) (Z.of_nat (i + w)) is_last;
  let tokens := total_num_tokens st + num_tokens in
  if forward_only a then
    send_forward y is_last;;
    x ← (if last_iteration then mret (input_tensor st) else recv_forward tensor_shapes is_first);
    mret (mkLocals (input_tensors st) (output_tensors st) x store tokens (no_sync_context st))
  else
    output_tensor_grad ← send_forward_recv_backward y tensor_shapes is_last;
    y0 ← liftP (py_get y 0);
    deallocate_output_tensor y0;;
    '(x, xs) ← pop_front (input_tensors st ++ [input_tensor st]);
    '(y, ys) ← pop_front (output_tensors st ++ [y]);
    no_sync ← (if bool_decide (w = 0%nat) && last_iteration then maybe_enable (no_sync_context st) else mret (no_sync_context st));
    input_tensor_grad ← backward_step x y output_tensor_grad;
    x' ← (if last_iteration then send_backward input_tensor_grad is_first;; mret [None]
          else send_backward_recv_forward input_tensor_grad tensor_shapes is_first);
    mret (mkLocals xs ys x' store tokens no_sync).

Definition cooldown_body (i : nat) (st : locals) : prog locals :=
  no_sync ← (if bool_decide (i = w - 1)%nat then maybe_enable (no_sync_context st) else mret (no_sync_context st));
  '(x, xs) ← pop_front (input_tensors st);
  '(y, ys) ← pop_front (output_tensors st);
  output_tensor_grad ← recv_backward tensor_shapes is_last;
  input_tensor_grad ← backward_step x y output_tensor_grad;
  send_backward input_tensor_grad is_first;;
  mret (mkLocals xs ys x (forward_data_store st) (total_num_tokens st) no_sync).

(** From the first [disable_grad_sync] to the end. *)
Definition run_1f1b : prog (list L) :=
  no_sync ← disable_grad_sync false;
  st ← forP (seq 0 w) warmup_body (mkLocals [] [] [None] [] 0 no_sync);
  x ← (if (0 <? m - w)%nat then recv_forward tensor_shapes is_first else mret (input_tensor st));
  let st := mkLocals (input_tensors st) (output_tensors st) x (forward_data_store st) (total_num_tokens st) (no_sync_context st) in
  st ← forP (seq 0 (m - w)) steady_body st;
  st ← (if forward_only a then mret st
        else
          st ← forP (seq 0 w) cooldown_body st;
          (if no_sync_context st then
             enable_grad_sync (no_sync_context st);;
             whenP (has_grad_sync_func cfg) (emitP EvGradSync)
           else mret tt);;
          mret st);
  whenP (has_finalize_model_grads_func cfg && negb (forward_only a))
    (emitP (EvFinalize (if calculate_per_token_loss cfg then Some (total_num_tokens st) else None)));;
  mret (forward_data_store st).
End Loops.

Definition single_or_one (l : maybe_list) : bool := match l with Single => true | ListOf n => bool_decide (n = 1%nat) end.

(** [forward_backward_pipelining_without_interleaving] *)
Definition forward_backward_pipelining_without_interleaving (a : fb_args) : prog (list L) :=
  liftP (assert_ (single_or_one (arg_model a)) "non-interleaved pipeline-parallel schedule does not support model chunking");;
  liftP (assert_ (single_or_one (arg_data_iterator a)) "non-interleaved pipeline-parallel schedule does not support model chunking");;
  (if overlap_p2p_comm cfg then raiseP ValueError "Non-interleaved pipeline parallelism does not support overlapping p2p communication" else mret tt);;
  (match has_p2p_communicator a, has_pg_collection a with
   | false, false => mret tt
   | true, true => liftP (assert_ (negb (is_encoder_and_decoder a)) "encoder PP stages not yet supported when passing custom process groups. ")
   | _, _ => raiseP ValueError "Invalid combination of p2p_communicator, pg_collection "
   end);;
  tensor_shapes ← liftP (get_tensor_shapes (seq_length a) (micro_batch_size a) (decoder_seq_length a));
  run_1f1b a tensor_shapes.

(** [forward_backward_no_pipelining] with [overlap_moe_expert_parallel_comm] off:
    a microbatch, and the loop that keeps the last one out of [no_sync_func]. *)
Definition no_pipelining_step (a : fb_args) (cond : bool) (i : Z) (st : list L * Z) : prog (list L * Z) :=
  '(y, num_tokens, store) ← forward_step (num_microbatches a) [None] st.1 (collect_non_loss_data a) None
     (check_first_val_step (first_val_step a) (forward_only a) cond) i true;
  (if forward_only a then mret tt else backward_step [None] y [None];; mret tt);;
  mret (store, st.2 + num_tokens).

Definition forward_backward_no_pipelining (a : fb_args) : prog (list L) :=
  liftP (assert_ (single_or_one (arg_model a)) "non-pipeline-parallel schedule does not support model chunking");;
  liftP (assert_ (single_or_one (arg_data_iterator a)) "non-pipeline-parallel schedule does not support model chunking");;
  emitP EvEnterNoSync;;
  st ← forP (seq 0 (num_microbatches a - 1)) (fun i => no_pipelining_step a (bool_decide (i = 0%nat)) (Z.of_nat i)) ([], 0);
  emitP EvExitNoSync;;
  st ← no_pipelining_step a (bool_decide (num_microbatches a = 1%nat)) (Z.of_nat (num_microbatches a) - 1) st;
  whenP (has_finalize_model_grads_func cfg && negb (forward_only a))
    (emitP (EvFinalize (if calculate_per_token_loss cfg then Some st.2 else None)));;
  mret st.1.
End Rank.

(** The ranks of the pipeline group, each with its own program. *)
Definition rank_groups (P : nat) (tp cp : Z) (s : nat) : groups := mkGroups P s tp cp.
Definition rank_program (cfg : config T) (g : groups) (a : fb_args) : prog unit :=
  store ← forward_backward_pipelining_without_interleaving cfg g a;
  emitP (EvReturn store).
Definition pipeline (cfg : config T) (P : nat) (tp cp : Z) (a : fb_args) : list (prog unit) :=
  map (fun s => rank_program cfg (rank_groups P tp cp s) a) (seq 0 P).
End Schedules.
Arguments event : clear implicits.
