(* ===== verification/PipelineProofs.v ===== *)
(** * Correctness of the 1F1B schedule

    Every rank of the pipeline follows a script; the scripts of neighbours agree
    on the tensors of every link and on the logical time of every exchange, so
    the theory of the network applies: the schedule terminates without deadlock
    and computes what running the stages one after the other computes. *)

From Stdlib Require Import Sorted.
From S2P Require Import Prelude.
From S2P Require Import Network.
From S2P Require Import Pipeline.

Section Reference.
Context {T L : Type} `{SM : StageModel T L}.
Context (cfg : config T) (P : nat) (tp cp : Z) (a : fb_args).
Notation G := (rank_groups P tp cp).
Notation m := (num_microbatches a).

(** ** The reference: the stages one after the other *)

(** Forward: output, tokens and loss data of a stage on a microbatch. *)
Definition stage_forward (s i : nat) (x : list (option T)) : T * Z * list L :=
  let '(y, lf) := forward_step_func s (Z.of_nat i) (checkpoint_flag cfg (G s) a i) x in
  forward_step_calc_loss cfg (G s) y lf (collect_non_loss_data a) m [] (is_pp_last_stage (G s)).

(** The input of stage [s] on microbatch [i] is the output of the stage before. *)
Fixpoint ref_in (s i : nat) : list (option T) :=
  match s with
  | O => [None]
  | S s' => [Some (stage_forward s' i (ref_in s' i)).1.1]
  end.
Definition ref_out (s i : nat) : T := (stage_forward s i (ref_in s i)).1.1.
Definition ref_tokens (s i : nat) : Z := (stage_forward s i (ref_in s i)).1.2.
Definition ref_data (s i : nat) : list L := (stage_forward s i (ref_in s i)).2.

(** Backward: a loss is scaled; the gradient of the output of a stage is the
    gradient of the input of the next one. *)
Definition scaled (y : T) (g : option T) : T :=
  match g, grad_scale_func cfg with None, Some f => f y | _, _ => y end.
Fixpoint ref_grad_from_end (d i : nat) : option T :=
  match d with
  | O => None
  | S d' => let s := (P - 1 - d')%nat in let g := ref_grad_from_end d' i in
            Some (input_grad s (ref_out (s - 1) i) (scaled (ref_out s i) g) g)
  end.
Definition ref_grad (s i : nat) : option T := ref_grad_from_end (P - 1 - s) i.
Definition ref_loss (s i : nat) : T := scaled (ref_out s i) (ref_grad s i).
(** What stage [S s] sends back to stage [s]. *)
Definition ref_sent (s i : nat) : T := input_grad (S s) (ref_out s i) (ref_loss (S s) i) (ref_grad (S s) i).

(** ** The log of a rank *)

Definition warm (s : nat) : nat := num_warmup (G s) m.
Definition steady (s : nat) : nat := (m - warm s)%nat.

Definition ev_forward (s i : nat) : event T L :=
  EvForward (Z.of_nat i) (checkpoint_flag cfg (G s) a i) (check_first_val_step (first_val_step a) (forward_only a) (bool_decide (i = 0%nat))) (ref_in s i).
Definition ev_backward (s i : nat) : event T L := EvBackward (ref_in s i) (ref_loss s i) (ref_grad s i).
Definition evs_deallocate (s i : nat) : list (event T L) :=
  if deallocate_pipeline_outputs cfg then [EvDeallocate (ref_out s i)] else [].

(** Gradient synchronisation is enabled before the last backward pass, unless a
    [grad_sync_func] takes over on the ranks after the first. *)
Definition syncs_last (s : nat) : bool := negb (has_grad_sync_func cfg) || bool_decide (s = 0%nat).
Definition evs_enable (s : nat) (b : bool) : list (event T L) := if b && syncs_last s then [EvExitNoSync] else [].
Definition total_tokens (s n : nat) : Z := zsum (map (ref_tokens s) (seq 0 n)).
Definition all_data (s n : nat) : list L := concat (map (ref_data s) (seq 0 n)).

(** The log of rank [s] with backward passes. *)
Definition log_1f1b (s : nat) : list (event T L) :=
  let w := warm s in let r := steady s in
  [EvEnterNoSync] ++
  concat (map (fun i => [ev_forward s i] ++ evs_deallocate s i) (seq 0 w)) ++
  concat (map (fun i => [ev_forward s (i + w)] ++ evs_deallocate s (i + w) ++
    evs_enable s (bool_decide (w = 0%nat) && bool_decide (i = r - 1)%nat) ++ [ev_backward s i]) (seq 0 r)) ++
  concat (map (fun i => evs_enable s (bool_decide (i = w - 1)%nat) ++ [ev_backward s (r + i)]) (seq 0 w)) ++
  (if bool_decide (0 < m)%nat && syncs_last s then [] else [EvExitNoSync] ++ (if has_grad_sync_func cfg then [EvGradSync] else [])) ++
  (if has_finalize_model_grads_func cfg then [EvFinalize (if calculate_per_token_loss cfg then Some (total_tokens s m) else None)] else []) ++
  [EvReturn (all_data s m)].

(** The log of rank [s] with forward passes only. *)
Definition log_forward (s : nat) : list (event T L) :=
  [EvEnterNoSync] ++ map (ev_forward s) (seq 0 m) ++ [EvReturn (all_data s m)].

(** ** Valid calls *)
Record valid_call : Prop := {
  vc_model : single_or_one (arg_model a) = true;
  vc_data : single_or_one (arg_data_iterator a) = true;
  vc_overlap : overlap_p2p_comm cfg = false;
  vc_groups : has_p2p_communicator a = has_pg_collection a;
  vc_type : has_p2p_communicator a = true -> is_encoder_and_decoder a = false;
  vc_dtype : (1 < P)%nat -> has_pipeline_dtype cfg = true;
  vc_cp : cp <> 0;
  vc_tp : sequence_parallel cfg = true -> tp <> 0
}.

(** ** Scripts *)

(** The logical time of the [k]-th meeting of the ranks [s] and [s + 1]: forward
    tensor [k] and the gradient [k - warm s] are exchanged in it. *)
Definition tick (s k : nat) : Z :=
  2 * Z.of_nat k + (if (k <? m)%nat then Z.of_nat s else Z.max (Z.of_nat s) (2 * (Z.of_nat P - 1 - Z.of_nat m) - Z.of_nat s)).
Definition time_f (s k : nat) : Z := 2 * tick s k.
Definition time_b (s j : nat) : Z := 2 * tick s (j + warm s) + 1.

Notation item := (item (event T L) T).
Notation ordered := (negb (batch_p2p_comm cfg)).

Definition last (s : nat) : bool := is_pp_last_stage (G s).
Definition evs (l : list (event T L)) : list item := map IEv l.

Definition send_next (s k : nat) : aop T := mkAop SN (ref_out s k) (time_f s k).
Definition recv_next (s j : nat) : aop T := mkAop RN (ref_sent s j) (time_b s j).
Definition recv_prev (s k : nat) : aop T := mkAop RP (ref_out (s - 1) k) (time_f (s - 1) k).
Definition send_prev (s j : nat) : aop T := mkAop SP (ref_sent (s - 1) j) (time_b (s - 1) j).

Definition call_prev (s : nat) (l : list (aop T)) : list item := if bool_decide (s = 0%nat) then [] else [IComm l].
Definition call_next (s : nat) (l : list (aop T)) : list item := if last s then [] else [IComm l].
Definition exchange_prev (s j k : nat) : list (aop T) :=
  if batch_p2p_comm cfg then [send_prev s j; recv_prev s k] else [recv_prev s k; send_prev s j].

Definition warm_script (s i : nat) : list item :=
  call_prev s [recv_prev s i] ++ evs [ev_forward s i] ++ call_next s [send_next s i] ++ evs (evs_deallocate s i).
Definition steady_script (s i : nat) : list item :=
  let w := warm s in let r := steady s in
  evs [ev_forward s (i + w)] ++ call_next s [send_next s (i + w); recv_next s i] ++ evs (evs_deallocate s (i + w)) ++
  evs (evs_enable s (bool_decide (w = 0%nat) && bool_decide (i = r - 1)%nat)) ++ evs [ev_backward s i] ++
  call_prev s (if bool_decide (i = r - 1)%nat then [send_prev s i] else exchange_prev s i (i + w + 1)).
Definition cool_script (s i : nat) : list item :=
  let w := warm s in let r := steady s in
  evs (evs_enable s (bool_decide (i = w - 1)%nat)) ++ call_next s [recv_next s (r + i)] ++ evs [ev_backward s (r + i)] ++ call_prev s [send_prev s (r + i)].
Definition final_events (s : nat) : list (event T L) :=
  (if bool_decide (0 < m)%nat && syncs_last s then [] else [EvExitNoSync] ++ (if has_grad_sync_func cfg then [EvGradSync] else [])) ++
  (if has_finalize_model_grads_func cfg then [EvFinalize (if calculate_per_token_loss cfg then Some (total_tokens s m) else None)] else []) ++
  [EvReturn (all_data s m)].
Definition script_1f1b (s : nat) : list item :=
  let w := warm s in let r := steady s in
  evs [EvEnterNoSync] ++ concat (map (warm_script s) (seq 0 w)) ++ (if (0 <? r)%nat then call_prev s [recv_prev s w] else []) ++
  concat (map (steady_script s) (seq 0 r)) ++ concat (map (cool_script s) (seq 0 w)) ++ evs (final_events s).
End Reference.

(** The times of the operations of a call. *)
Ltac times := cbn [a_time send_next recv_next send_prev recv_prev]; unfold time_f, time_b.
Ltac in_call := repeat (apply List.Forall_cons; [|]); try apply List.Forall_nil; times.

(** ** One forward, one backward *)

Section OneF1B.
Context {T L : Type} `{SM : StageModel T L}.
Context (cfg : config T) (P : nat) (tp cp : Z) (a : fb_args).
Notation G := (rank_groups P tp cp).
Notation m := (num_microbatches a).
Notation ordered := (negb (batch_p2p_comm cfg)).
Notation warm := (warm P tp cp a).
Notation steady := (steady P tp cp a).
Notation tick := (tick P a).
Notation last := (last P tp cp).
Notation does := (@does (event T L) T ordered _).

(** *** The log of the script *)
Lemma evs_log (l : list (event T L)) : @script_log (event T L) T (evs l) = l.
Proof. unfold script_log, evs. induction l as [|e l IH]; [done|]. cbn. by f_equal. Qed.
Lemma call_prev_log s (l : list (aop T)) : @script_log (event T L) T (call_prev s l) = [].
Proof. unfold call_prev. by destruct (bool_decide _). Qed.
Lemma call_next_log s (l : list (aop T)) : @script_log (event T L) T (call_next P tp cp s l) = [].
Proof. unfold call_next. by destruct (last s). Qed.

Lemma concat_map_ext {A B} (f g : A -> list B) l : (forall x, x ∈ l -> f x = g x) -> concat (map f l) = concat (map g l).
Proof. intros H. f_equal. apply map_ext_in. intros x Hx. by apply H, list_elem_of_In. Qed.

Lemma script_1f1b_log s : script_log (script_1f1b cfg P tp cp a s) = log_1f1b cfg P tp cp a s.
Proof.
  unfold script_1f1b, log_1f1b. rewrite !script_log_app, !evs_log, !script_log_concat, !map_map. fold (final_events cfg P tp cp a s).
  f_equal. replace (script_log (if (0 <? steady s)%nat then call_prev s [recv_prev cfg P tp cp a s (warm s)] else [])) with (@nil (event T L))
    by (destruct (0 <? steady s)%nat; by rewrite ?call_prev_log).
  rewrite app_nil_l. f_equal; [|f_equal; [|f_equal]].
  - apply concat_map_ext. intros i _. unfold warm_script. by rewrite !script_log_app, !evs_log, call_prev_log, call_next_log.
  - apply concat_map_ext. intros i _. unfold steady_script. rewrite !script_log_app, !evs_log, call_prev_log, call_next_log. by rewrite app_nil_r.
  - apply concat_map_ext. intros i _. unfold cool_script. rewrite !script_log_app, !evs_log, call_prev_log, call_next_log. by rewrite app_nil_r.
Qed.

(** *** What the script exchanges *)
Lemma evs_moves d (l : list (event T L)) : moves d (script_ops (@evs T L l)) = [].
Proof. unfold script_ops, evs. induction l as [|e l IH]; [done|]. exact IH. Qed.
Lemma call_prev_moves d s (l : list (aop T)) :
  moves d (script_ops (@call_prev T L s l)) = if bool_decide (s = 0%nat) then [] else moves d l.
Proof. unfold call_prev, script_ops. case_bool_decide; [done|]. cbn. by rewrite app_nil_r. Qed.
Lemma call_next_moves d s (l : list (aop T)) :
  moves d (script_ops (@call_next T L P tp cp s l)) = if last s then [] else moves d l.
Proof. unfold call_next, script_ops. destruct (last s); [done|]. cbn. by rewrite app_nil_r. Qed.
Hint Rewrite evs_moves call_prev_moves call_next_moves : moves.

Lemma concat_singletons {A B} (f : A -> B) l : concat (map (fun x => [f x]) l) = map f l.
Proof. induction l as [|x l IH]; [done|]. cbn. by rewrite IH. Qed.
Lemma concat_map_nil {A B} (f : A -> list B) l : (forall x, f x = []) -> concat (map f l) = [].
Proof. intros H. induction l as [|x l IH]; [done|]. cbn. by rewrite H, IH. Qed.
Lemma map_seq_shift {A} (f : nat -> A) n k : map (fun i => f (i + k)%nat) (seq 0 n) = map f (seq k n).
Proof.
  pose proof (fmap_add_seq k 0 n) as Es. rewrite Nat.add_0_r in Es. rewrite <- Es.
  change (Nat.add k <$> seq 0 n) with (map (Nat.add k) (seq 0 n)). rewrite map_map. apply map_ext. intros i. f_equal. lia.
Qed.
Lemma map_seq_shift_l {A} (f : nat -> A) n k : map (fun i => f (k + i)%nat) (seq 0 n) = map f (seq k n).
Proof. rewrite <- (map_seq_shift f n k). apply map_ext. intros i. f_equal. lia. Qed.

(** The exchanges of the whole script, from those of the loop bodies. *)
Lemma script_moves d s :
  moves d (script_ops (script_1f1b cfg P tp cp a s)) =
  concat (map (fun i => moves d (script_ops (warm_script cfg P tp cp a s i))) (seq 0 (warm s))) ++
  (if (0 <? steady s)%nat then moves d (script_ops (@call_prev T L s [recv_prev cfg P tp cp a s (warm s)])) else []) ++
  concat (map (fun i => moves d (script_ops (steady_script cfg P tp cp a s i))) (seq 0 (steady s))) ++
  concat (map (fun i => moves d (script_ops (cool_script cfg P tp cp a s i))) (seq 0 (warm s))).
Proof.
  unfold script_1f1b. rewrite !script_ops_app, !moves_app, !script_ops_concat, !moves_concat, !evs_moves, !map_map, app_nil_r, app_nil_l.
  f_equal. f_equal. by destruct (0 <? steady s)%nat.
Qed.

Lemma warm_le s : (warm s <= m)%nat.
Proof. unfold PipelineProofs.warm, num_warmup. lia. Qed.

Lemma steady_split s : (warm s + steady s = m)%nat.
Proof. unfold PipelineProofs.steady. pose proof (warm_le s). lia. Qed.

(** The exchanges of one iteration. *)
Ltac body_moves :=
  unfold warm_script, steady_script, cool_script, exchange_prev; rewrite !script_ops_app, !moves_app; autorewrite with moves;
  repeat (case_bool_decide || case_match); simplify_eq; try done.

Lemma script_sends_next s : moves SN (script_ops (script_1f1b cfg P tp cp a s)) =
  if last s then [] else map (fun k => (ref_out cfg P tp cp a s k, time_f P a s k)) (seq 0 m).
Proof.
  rewrite script_moves, call_prev_moves. destruct (last s) eqn:Hl.
  - rewrite !concat_map_nil by (intros i; body_moves). by repeat case_match.
  - rewrite (concat_map_ext _ (fun k => [(ref_out cfg P tp cp a s k, time_f P a s k)]) (seq 0 (warm s))) by (intros i _; body_moves).
    rewrite (concat_map_ext _ (fun i => [(ref_out cfg P tp cp a s (i + warm s), time_f P a s (i + warm s))]) (seq 0 (steady s))) by (intros i _; body_moves).
    rewrite (concat_map_nil (fun i => moves SN (script_ops (cool_script cfg P tp cp a s i)))) by (intros i; body_moves).
    rewrite app_nil_r, !concat_singletons, (map_seq_shift (fun k => (ref_out cfg P tp cp a s k, time_f P a s k))).
    rewrite <- (steady_split s), seq_app, map_app. f_equal. by repeat case_match.
Qed.

Lemma script_recvs_next s : moves RN (script_ops (script_1f1b cfg P tp cp a s)) =
  if last s then [] else map (fun j => (ref_sent cfg P tp cp a s j, time_b P tp cp a s j)) (seq 0 m).
Proof.
  rewrite script_moves, call_prev_moves. destruct (last s) eqn:Hl.
  - rewrite !concat_map_nil by (intros i; body_moves). by repeat case_match.
  - rewrite (concat_map_nil (fun i => moves _ (script_ops (warm_script cfg P tp cp a s i)))) by (intros i; body_moves).
    rewrite (concat_map_ext _ (fun i => [(ref_sent cfg P tp cp a s i, time_b P tp cp a s i)]) (seq 0 (steady s))) by (intros i _; body_moves).
    rewrite (concat_map_ext (fun i => moves RN (script_ops (cool_script cfg P tp cp a s i)))
       (fun i => [(ref_sent cfg P tp cp a s (steady s + i), time_b P tp cp a s (steady s + i))]) (seq 0 (warm s))) by (intros i _; body_moves).
    rewrite app_nil_l, !concat_singletons, (map_seq_shift_l (fun j => (ref_sent cfg P tp cp a s j, time_b P tp cp a s j))).
    rewrite <- (steady_split s), Nat.add_comm, seq_app, map_app. by repeat case_match.
Qed.

Lemma script_sends_prev s : moves SP (script_ops (script_1f1b cfg P tp cp a s)) =
  if bool_decide (s = 0%nat) then [] else map (fun j => (ref_sent cfg P tp cp a (s - 1) j, time_b P tp cp a (s - 1) j)) (seq 0 m).
Proof.
  rewrite script_moves, call_prev_moves. case_bool_decide as Hs.
  - rewrite !concat_map_nil by (intros i; body_moves). by repeat case_match.
  - rewrite (concat_map_nil (fun i => moves _ (script_ops (warm_script cfg P tp cp a s i)))) by (intros i; body_moves).
    rewrite (concat_map_ext _ (fun i => [(ref_sent cfg P tp cp a (s - 1) i, time_b P tp cp a (s - 1) i)]) (seq 0 (steady s))) by (intros i _; body_moves).
    rewrite (concat_map_ext (fun i => moves SP (script_ops (cool_script cfg P tp cp a s i)))
       (fun i => [(ref_sent cfg P tp cp a (s - 1) (steady s + i), time_b P tp cp a (s - 1) (steady s + i))]) (seq 0 (warm s))) by (intros i _; body_moves).
    rewrite app_nil_l, !concat_singletons, (map_seq_shift_l (fun j => (ref_sent cfg P tp cp a (s - 1) j, time_b P tp cp a (s - 1) j))).
    rewrite <- (steady_split s), Nat.add_comm, seq_app, map_app. by repeat case_match.
Qed.

Lemma script_recvs_prev s : moves RP (script_ops (script_1f1b cfg P tp cp a s)) =
  if bool_decide (s = 0%nat) then [] else map (fun k => (ref_out cfg P tp cp a (s - 1) k, time_f P a (s - 1) k)) (seq 0 m).
Proof.
  rewrite script_moves, call_prev_moves. case_bool_decide as Hs.
  - rewrite !concat_map_nil by (intros i; body_moves). by repeat case_match.
  - set (f := fun k => (ref_out cfg P tp cp a (s - 1) k, time_f P a (s - 1) k)).
    rewrite (concat_map_ext _ (fun k => [f k]) (seq 0 (warm s))) by (intros i _; body_moves).
    rewrite (concat_map_nil (fun i => moves RP (script_ops (cool_script cfg P tp cp a s i)))) by (intros i; body_moves).
    rewrite app_nil_r, concat_singletons, <- (steady_split s), seq_app, map_app. f_equal.
    destruct (steady s) as [|r] eqn:Er; [done|].
    rewrite (concat_map_ext _ (fun i => if bool_decide (i = r) then [] else [f (i + warm s + 1)%nat])).
    2:{ intros i _. unfold steady_script, exchange_prev. rewrite Er. replace (S r - 1)%nat with r by lia. rewrite !script_ops_app, !moves_app.
        autorewrite with moves. repeat (case_bool_decide || case_match); done. }
    rewrite seq_S, map_app, concat_app. cbn [map concat]. rewrite bool_decide_true, !app_nil_r by lia.
    rewrite (concat_map_ext _ (fun i => [f (i + S (warm s))%nat]) (seq 0 r)).
    2:{ intros i [_ Hi]%elem_of_seq. rewrite bool_decide_false by lia. by rewrite Nat.add_1_r, Nat.add_succ_r. }
    rewrite concat_singletons, (map_seq_shift f). done.
Qed.

Lemma last_spec s : last s = bool_decide (S s = P).
Proof. unfold PipelineProofs.last, is_pp_last_stage. cbn. apply bool_decide_ext. lia. Qed.

Lemma script_1f1b_linked : script_linked P (script_1f1b cfg P tp cp a).
Proof.
  split.
  - intros s Hs. rewrite script_sends_next, script_recvs_prev, last_spec, bool_decide_false, bool_decide_false by lia. by rewrite Nat.sub_succ, Nat.sub_0_r.
  - intros s Hs. rewrite script_sends_prev, script_recvs_next, last_spec, bool_decide_false, bool_decide_false by lia. by rewrite Nat.sub_succ, Nat.sub_0_r.
  - by rewrite script_recvs_prev, script_sends_prev.
  - intros s Hs. by rewrite script_sends_next, script_recvs_next, last_spec, bool_decide_true.
Qed.

(** *** The order of time *)
Notation between := (@between (event T L) T ordered).

Lemma between_evs lo hi l : lo <= hi -> between lo hi (evs l).
Proof.
  intros Hle. induction l as [|e l IH]; [by apply between_nil|].
  change (evs (e :: l)) with ([IEv e] ++ @evs T L l). eapply between_app; [apply (between_ev _ lo lo)|]; [lia|done].
Qed.
Lemma between_call_prev lo hi s (l : list (aop T)) : lo <= hi ->
  (s <> 0%nat -> call_ok ordered l /\ Forall (fun x => lo <= a_time x < hi) l) -> between lo hi (call_prev s l).
Proof. intros Hle H. unfold call_prev. case_bool_decide; [by apply between_nil|]. destruct H; [done|]. by apply between_comm. Qed.
Lemma between_call_next lo hi s (l : list (aop T)) : lo <= hi ->
  (S s <> P -> call_ok ordered l /\ Forall (fun x => lo <= a_time x < hi) l) -> between lo hi (call_next P tp cp s l).
Proof.
  intros Hle H. unfold call_next. rewrite last_spec. case_bool_decide; [by apply between_nil|]. destruct H; [done|]. by apply between_comm.
Qed.

(** Calls with one operation, and with two. *)
Lemma call_ok_1 o (x : aop T) : call_ok o [x].
Proof. split; [apply NoDup_singleton|]. intros _. repeat constructor. Qed.
Lemma call_ok_2 o (x y : aop T) : a_dir x <> a_dir y -> (o = true -> a_time x < a_time y) -> call_ok o [x; y].
Proof.
  intros Hd Ht. split; [cbn; apply NoDup_cons; split; [set_solver|apply NoDup_singleton]|].
  intros Ho. repeat constructor. by apply Ht.
Qed.

Lemma tick_early s k : (k < m)%nat -> tick s k = 2 * Z.of_nat k + Z.of_nat s.
Proof. intros Hk. unfold PipelineProofs.tick. by rewrite (proj2 (Nat.ltb_lt _ _) Hk). Qed.
Lemma tick_late s k : (m <= k)%nat -> tick s k = 2 * Z.of_nat k + Z.max (Z.of_nat s) (2 * (Z.of_nat P - 1 - Z.of_nat m) - Z.of_nat s).
Proof. intros Hk. unfold PipelineProofs.tick. by rewrite (proj2 (Nat.ltb_ge _ _) Hk). Qed.

Lemma warm_eq s : warm s = Nat.min (P - s - 1) m.
Proof. done. Qed.


Lemma warm_between s i : (s < P)%nat -> (i < warm s)%nat ->
  between (4 * Z.of_nat i + 2 * Z.of_nat s - 2) (4 * Z.of_nat (1 + i) + 2 * Z.of_nat s - 2) (warm_script cfg P tp cp a s i).
Proof.
  intros Hs Hi. pose proof (warm_le s). unfold warm_script.
  apply (between_app _ _ (4 * Z.of_nat i + 2 * Z.of_nat s)); [apply between_call_prev; [lia|]|].
  { intros Hs0. split; [apply call_ok_1|]. in_call. rewrite tick_early by lia. lia. }
  eapply between_app; [apply between_evs, Z.le_refl|].
  eapply between_app; [apply between_call_next; [|]|apply between_evs, Z.le_refl]; [lia|].
  intros _. split; [apply call_ok_1|]. in_call. rewrite tick_early by lia. lia.
Qed.

(** With a steady phase, the rank before warms up one microbatch more. *)
Lemma warm_pred s : (s < P)%nat -> (0 < steady s)%nat -> s <> 0%nat -> warm (s - 1) = S (warm s).
Proof. unfold PipelineProofs.steady. rewrite !warm_eq. lia. Qed.
Lemma warm_pred_all s : (s < P)%nat -> steady s = 0%nat -> warm s = m /\ warm (s - 1) = m /\ Z.of_nat s <= Z.of_nat P - 1 - Z.of_nat m.
Proof. unfold PipelineProofs.steady. rewrite !warm_eq. lia. Qed.

Lemma steady_between s i : (s < P)%nat -> (i < steady s)%nat ->
  between (4 * Z.of_nat (warm s + i) + 2 * Z.of_nat s) (4 * Z.of_nat (warm s + (1 + i)) + 2 * Z.of_nat s) (steady_script cfg P tp cp a s i).
Proof.
  intros Hs Hi. pose proof (steady_split s) as Hsp. unfold steady_script.
  eapply between_app; [apply between_evs, Z.le_refl|].
  apply (between_app _ _ (4 * Z.of_nat (warm s + i) + 2 * Z.of_nat s + 2)); [apply between_call_next; [lia|]|].
  { intros _. split; [apply call_ok_2; [done|]; intros _; times; rewrite !tick_early by lia; lia|].
    in_call; rewrite tick_early by lia; lia. }
  do 3 (eapply between_app; [apply between_evs, Z.le_refl|]). apply between_call_prev; [lia|]. intros Hs0.
  pose proof (warm_pred s Hs ltac:(lia) Hs0) as Hw.
  assert (Hlt : steady s <> 0%nat) by lia. assert (Hq : Z.of_nat P - 1 - Z.of_nat m < Z.of_nat s) by (pose proof (warm_eq s); lia).
  case_bool_decide as Hl.
  - split; [apply call_ok_1|]. in_call. rewrite Hw, tick_late by lia. lia.
  - unfold exchange_prev. destruct (batch_p2p_comm cfg) eqn:Hb.
    + split; [by apply call_ok_2|]. in_call; rewrite ?Hw, tick_early by lia; lia.
    + split; [apply call_ok_2; [done|]; intros _; times; rewrite Hw, !tick_early by lia; lia|].
      in_call; rewrite ?Hw, tick_early by lia; lia.
Qed.

(** The start of the cooldown phase. *)
Definition cool_start s : Z :=
  4 * Z.of_nat m + (if (0 <? steady s)%nat then 2 * Z.of_nat s else 4 * (Z.of_nat P - 1 - Z.of_nat m) - 2 * Z.of_nat s).

Lemma cool_between s i : (s < P)%nat -> (i < warm s)%nat ->
  between (cool_start s + 4 * Z.of_nat i) (cool_start s + 4 * Z.of_nat (1 + i)) (cool_script cfg P tp cp a s i).
Proof.
  intros Hs Hi. pose proof (steady_split s) as Hsp. unfold cool_script, cool_start.
  eapply between_app; [apply between_evs, Z.le_refl|]. destruct (Nat.ltb_spec 0 (steady s)) as [Hr|Hr].
  - assert (Hq : Z.of_nat P - 1 - Z.of_nat m < Z.of_nat s) by (pose proof (warm_eq s); lia).
    apply (between_app _ _ (4 * Z.of_nat m + 2 * Z.of_nat s + 4 * Z.of_nat i + 2)); [apply between_call_next; [lia|]|].
    { intros _. split; [apply call_ok_1|]. in_call. rewrite tick_late by lia. lia. }
    eapply between_app; [apply between_evs, Z.le_refl|]. apply between_call_prev; [lia|]. intros Hs0.
    split; [apply call_ok_1|]. in_call. rewrite (warm_pred s) by lia. rewrite tick_late by lia. lia.
  - destruct (warm_pred_all s Hs ltac:(lia)) as (W1 & W2 & Hq).
    apply (between_app _ _ (4 * Z.of_nat m + (4 * (Z.of_nat P - 1 - Z.of_nat m) - 2 * Z.of_nat s) + 4 * Z.of_nat i + 2)); [apply between_call_next; [lia|]|].
    { intros _. split; [apply call_ok_1|]. in_call. rewrite tick_late by lia. lia. }
    eapply between_app; [apply between_evs, Z.le_refl|]. apply between_call_prev; [lia|]. intros Hs0.
    split; [apply call_ok_1|]. in_call. rewrite W2, tick_late by lia. lia.
Qed.

Lemma script_1f1b_timed s : (s < P)%nat -> timed ordered (script_1f1b cfg P tp cp a s).
Proof.
  intros Hs. pose proof (steady_split s) as Hsp. set (lo := 4 * Z.of_nat 0 + 2 * Z.of_nat s - 2).
  enough (H : between lo (cool_start s + 4 * Z.of_nat (0 + warm s)) (script_1f1b cfg P tp cp a s)) by apply H.
  unfold script_1f1b. eapply between_app; [apply between_evs, Z.le_refl|].
  eapply between_app; [apply (between_loop _ (fun i => 4 * Z.of_nat i + 2 * Z.of_nat s - 2)); intros i Hi; apply warm_between; lia|].
  apply (between_app _ _ (if (0 <? steady s)%nat then 4 * Z.of_nat (warm s + 0) + 2 * Z.of_nat s else cool_start s)).
  { unfold cool_start. destruct (Nat.ltb_spec 0 (steady s)) as [Hr|Hr].
    - apply between_call_prev; [lia|]. intros Hs0. split; [apply call_ok_1|]. in_call. rewrite tick_early by lia. lia.
    - destruct (warm_pred_all s Hs ltac:(lia)) as (W1 & W2 & Hq). apply between_nil. lia. }
  apply (between_app _ _ (cool_start s + 4 * Z.of_nat 0)).
  { unfold cool_start. destruct (Nat.ltb_spec 0 (steady s)) as [Hr|Hr].
    - replace (4 * Z.of_nat m + 2 * Z.of_nat s + 4 * Z.of_nat 0) with (4 * Z.of_nat (warm s + (0 + steady s)) + 2 * Z.of_nat s) by lia.
      apply (between_loop _ (fun i => 4 * Z.of_nat (warm s + i) + 2 * Z.of_nat s)). intros i Hi. apply steady_between; lia.
    - replace (steady s) with 0%nat by lia. apply between_nil. lia. }
  eapply between_app; [|apply between_evs, Z.le_refl].
  apply (between_loop _ (fun i => cool_start s + 4 * Z.of_nat i)). intros i Hi. apply cool_between; lia.
Qed.

(** *** The communicator follows the script *)
Context (V : valid_call cfg P tp cp a) (s : nat) (Hs : (s < P)%nat) (sh : shape).

Lemma first_spec : is_pp_first_stage (G s) = bool_decide (s = 0%nat).
Proof. done. Qed.
Lemma dtype_prev : s <> 0%nat -> has_pipeline_dtype cfg = true.
Proof. intros. apply (vc_dtype _ _ _ _ _ V). lia. Qed.
Lemma dtype_next : S s <> P -> has_pipeline_dtype cfg = true.
Proof. intros. apply (vc_dtype _ _ _ _ _ V). lia. Qed.
Lemma ref_in_pos k : s <> 0%nat -> ref_in cfg P tp cp a s k = [Some (ref_out cfg P tp cp a (s - 1) k)].
Proof. destruct s as [|s']; [done|]. intros _. rewrite Nat.sub_succ, Nat.sub_0_r. done. Qed.
Lemma ref_grad_last j : S s = P -> ref_grad cfg P tp cp a s j = None.
Proof. intros <-. unfold ref_grad. by replace (S s - 1 - s)%nat with 0%nat by lia. Qed.
Lemma ref_grad_next j : S s <> P -> ref_grad cfg P tp cp a s j = Some (ref_sent cfg P tp cp a s j).
Proof.
  intros Hl. unfold ref_grad at 1. replace (P - 1 - s)%nat with (S (P - 1 - S s)) by lia. cbn [ref_grad_from_end].
  replace (P - 1 - (P - 1 - S s))%nat with (S s) by lia. rewrite Nat.sub_succ, Nat.sub_0_r. done.
Qed.

(** One call of the communicator that does the operations of [l]. *)
Ltac one_call l :=
  unfold _communicate, _batched_p2p_ops, _p2p_ops; cbn [pp_rank rank_groups]; destruct (batch_p2p_comm cfg); [|destruct (Nat.even s)];
  (apply (does_comm _ l); constructor).

Lemma does_recv_forward k : does (recv_forward cfg (G s) [sh] (is_pp_first_stage (G s))) (call_prev s [recv_prev cfg P tp cp a s k]) (ref_in cfg P tp cp a s k).
Proof.
  rewrite first_spec. unfold call_prev, recv_forward. case_bool_decide as H0; [subst s; constructor|].
  rewrite ref_in_pos by done. unfold _communicate. rewrite dtype_prev by done. one_call [recv_prev cfg P tp cp a s k].
Qed.

Lemma does_recv_backward j : does (recv_backward cfg (G s) [sh] (is_pp_last_stage (G s))) (call_next P tp cp s [recv_next cfg P tp cp a s j]) [ref_grad cfg P tp cp a s j].
Proof.
  unfold call_next, recv_backward. fold (last s). rewrite last_spec. case_bool_decide as H0; [rewrite ref_grad_last by done; constructor|].
  rewrite ref_grad_next by done. unfold _communicate. rewrite dtype_next by done. one_call [recv_next cfg P tp cp a s j].
Qed.

Lemma does_send_forward k : does (send_forward cfg (G s) [ref_out cfg P tp cp a s k] (is_pp_last_stage (G s))) (call_next P tp cp s [send_next cfg P tp cp a s k]) tt.
Proof.
  unfold call_next, send_forward. fold (last s). rewrite last_spec. case_bool_decide as H0; [constructor|]. one_call [send_next cfg P tp cp a s k].
Qed.

(** The gradients a rank computes for its input. *)
Definition ref_input_grads (j : nat) : list (option T) := if bool_decide (s = 0%nat) then [None] else [Some (ref_sent cfg P tp cp a (s - 1) j)].

Lemma does_send_backward j : does (send_backward cfg (G s) (ref_input_grads j) (is_pp_first_stage (G s))) (call_prev s [send_prev cfg P tp cp a s j]) tt.
Proof.
  rewrite first_spec. unfold call_prev, send_backward, ref_input_grads. case_bool_decide as H0; [constructor|]. one_call [send_prev cfg P tp cp a s j].
Qed.

Lemma does_send_forward_recv_backward k j :
  does (send_forward_recv_backward cfg (G s) [ref_out cfg P tp cp a s k] [sh] (is_pp_last_stage (G s)))
    (call_next P tp cp s [send_next cfg P tp cp a s k; recv_next cfg P tp cp a s j]) [ref_grad cfg P tp cp a s j].
Proof.
  unfold call_next, send_forward_recv_backward. fold (last s). rewrite last_spec. case_bool_decide as H0; [rewrite ref_grad_last by done; constructor|].
  rewrite ref_grad_next by done. unfold _communicate. rewrite dtype_next by done. one_call [send_next cfg P tp cp a s k; recv_next cfg P tp cp a s j].
Qed.

Lemma does_send_backward_recv_forward j k :
  does (send_backward_recv_forward cfg (G s) (ref_input_grads j) [sh] (is_pp_first_stage (G s)))
    (call_prev s (exchange_prev cfg P tp cp a s j k)) (ref_in cfg P tp cp a s k).
Proof.
  rewrite first_spec. unfold call_prev, send_backward_recv_forward, exchange_prev, ref_input_grads. case_bool_decide as H0; [subst s; constructor|].
  rewrite ref_in_pos by done. unfold _communicate. rewrite dtype_prev by done. cbn [zip zip_with mapP].
  unfold _batched_p2p_ops, _p2p_ops. cbn [pp_rank rank_groups]. destruct (batch_p2p_comm cfg).
  - apply (does_comm _ [send_prev cfg P tp cp a s j; recv_prev cfg P tp cp a s k]). constructor.
  - destruct (Nat.even s); apply (does_comm _ [recv_prev cfg P tp cp a s k; send_prev cfg P tp cp a s j]); constructor.
Qed.

(** *** The steps follow the script *)
Lemma calc_loss_store g (y : T) lf c n (store : list L) l :
  forward_step_calc_loss cfg g y lf c n store l =
  let '(y', n', d) := forward_step_calc_loss cfg g y lf c n [] l in (y', n', store ++ d).
Proof. unfold forward_step_calc_loss. repeat case_match; simplify_eq/=; by rewrite ?app_nil_r. Qed.

Lemma does_forward_step k first store :
  does (forward_step cfg (G s) m (ref_in cfg P tp cp a s k) store (collect_non_loss_data a) (checkpoint_flag cfg (G s) a k) first (Z.of_nat k) (is_pp_last_stage (G s)))
    (evs [EvForward (Z.of_nat k) (checkpoint_flag cfg (G s) a k) first (ref_in cfg P tp cp a s k)])
    ([ref_out cfg P tp cp a s k], ref_tokens cfg P tp cp a s k, store ++ ref_data cfg P tp cp a s k).
Proof.
  unfold forward_step, ref_out, ref_tokens, ref_data, stage_forward. cbn [pp_rank rank_groups]. apply does_emit.
  destruct (forward_step_func s (Z.of_nat k) _ _) as [y lf]. rewrite calc_loss_store.
  destruct (forward_step_calc_loss cfg (G s) y lf _ m [] _) as [[y' n'] d]. constructor.
Qed.

Lemma does_backward_step j :
  does (backward_step cfg (G s) (ref_in cfg P tp cp a s j) [ref_out cfg P tp cp a s j] [ref_grad cfg P tp cp a s j])
    (evs [ev_backward cfg P tp cp a s j]) (ref_input_grads j).
Proof.
  unfold backward_step, ev_backward, ref_loss, scaled, ref_input_grads. cbn [pp_rank rank_groups].
  eapply (does_emit _ _ _ []). case_bool_decide as H0; [subst s; constructor|]. rewrite ref_in_pos by done.
  unfold ref_sent, ref_loss. replace (S (s - 1))%nat with s by lia. constructor.
Qed.

Lemma does_deallocate k : does (deallocate_output_tensor cfg (ref_out cfg P tp cp a s k)) (evs (evs_deallocate cfg P tp cp a s k)) tt.
Proof. unfold deallocate_output_tensor, evs_deallocate. destruct (deallocate_pipeline_outputs cfg); repeat constructor. Qed.

(** The flag of [no_sync_context] after enabling it when [b]. *)
Lemma does_enable (b : bool) : does (if b then maybe_enable cfg (G s) true else mret true) (evs (evs_enable cfg s b)) (negb (b && syncs_last cfg s)).
Proof.
  unfold maybe_enable, evs_enable, syncs_last. destruct b; [|constructor]. cbn [andb pp_rank rank_groups].
  destruct (negb (has_grad_sync_func cfg) || bool_decide (s = 0%nat)); repeat constructor.
Qed.

Lemma does_cast {A} (p : prog (event T L) T A) sc sc' x : @Network.does _ _ ordered A p sc x -> sc = sc' -> @Network.does _ _ ordered A p sc' x.
Proof. by intros ? <-. Qed.

(** *** The loops follow the script *)
Notation w := (warm s).
Notation r := (steady s).
Notation inputs i n := (map (ref_in cfg P tp cp a s) (seq i n)).
Notation outputs i n := (map (fun k => [ref_out cfg P tp cp a s k]) (seq i n)).
Notation data n := (all_data cfg P tp cp a s n).
Notation tokens n := (total_tokens cfg P tp cp a s n).

Lemma data_S n : data (S n) = data n ++ ref_data cfg P tp cp a s n.
Proof. unfold all_data. rewrite seq_S, map_app, concat_app. cbn. by rewrite app_nil_r. Qed.
Lemma tokens_S n : tokens (S n) = tokens n + ref_tokens cfg P tp cp a s n.
Proof. unfold total_tokens. rewrite seq_S, map_app, zsum_app. cbn. by rewrite Z.add_0_r. Qed.
Lemma map_seq_S {A} (f : nat -> A) i n : map f (seq i (S n)) = map f (seq i n) ++ [f (i + n)%nat].
Proof. by rewrite seq_S, map_app. Qed.

(** The locals before iteration [i] of the warmup loop. *)
Definition warm_state (i : nat) : locals :=
  mkLocals (inputs 0 i) (outputs 0 i) (match i with O => [None] | S i' => ref_in cfg P tp cp a s i' end) (data i) (tokens i) true.

Context (Hfo : forward_only a = false).

Lemma does_warmup i : does (warmup_body cfg (G s) a [sh] i (warm_state i)) (warm_script cfg P tp cp a s i) (warm_state (1 + i)).
Proof.
  unfold warmup_body. rewrite Hfo. eapply does_cast.
  - eapply does_bind; [apply does_recv_forward|]. eapply does_bind; [apply does_forward_step|]. cbv beta iota.
    eapply does_bind; [apply does_send_forward|]. eapply (does_bind _ _ _ []); [constructor|]. eapply does_bind; [apply does_deallocate|].
    cbn [warm_state input_tensors output_tensors forward_data_store total_num_tokens no_sync_context].
    rewrite <- data_S, <- tokens_S. unfold warm_state. rewrite !(map_seq_S _ 0 i). constructor.
  - unfold warm_script, ev_forward. rewrite Hfo. by rewrite !app_nil_r.
Qed.

(** Before iteration [i] of the steady loop: [w] microbatches wait for their
    backward pass, the input of the next one was received. *)
Definition steady_input (i : nat) : list (option T) :=
  if (i <? r)%nat then ref_in cfg P tp cp a s (i + w) else if (0 <? r)%nat then [None] else input_tensor (warm_state w).
Definition steady_no_sync (i : nat) : bool := negb (bool_decide (w = 0%nat) && bool_decide (i = r) && (0 <? r)%nat && syncs_last cfg s).
Definition steady_state (i : nat) : locals :=
  mkLocals (inputs i w) (outputs i w) (steady_input i) (data (i + w)) (tokens (i + w)) (steady_no_sync i).

Lemma steady_first i : bool_decide (i = 0%nat) && bool_decide (w = 0%nat) = bool_decide ((i + w)%nat = 0%nat).
Proof. repeat case_bool_decide; try done; lia. Qed.

(** The queue of a steady iteration: the new microbatch enters, the oldest leaves. *)
Lemma queue_step {A} (f : nat -> A) i n : map f (seq i n) ++ [f (i + n)%nat] = f i :: map f (seq (S i) n).
Proof. by rewrite <- map_seq_S. Qed.

Lemma does_steady i : (i < r)%nat -> does (steady_body cfg (G s) a [sh] i (steady_state i)) (steady_script cfg P tp cp a s i) (steady_state (1 + i)).
Proof.
  intros Hi. unfold steady_body. rewrite Hfo. change (num_warmup (G s) m) with w. change (m - w)%nat with r.
  cbn [steady_state input_tensors output_tensors forward_data_store total_num_tokens no_sync_context input_tensor].
  assert (Ei : steady_input i = ref_in cfg P tp cp a s (i + w)) by (unfold steady_input; by rewrite (proj2 (Nat.ltb_lt _ _) Hi)). rewrite Ei.
  assert (En : steady_no_sync i = true) by (unfold steady_no_sync; rewrite (bool_decide_false (i = r)) by lia; by rewrite andb_false_r). rewrite En.
  rewrite (queue_step (ref_in cfg P tp cp a s)). eapply does_cast.
  - eapply does_bind; [apply does_forward_step|]. cbv beta iota. eapply does_bind; [apply does_send_forward_recv_backward|].
    eapply (does_bind _ _ _ []); [constructor|]. eapply does_bind; [apply does_deallocate|].
    rewrite (queue_step (fun k => [ref_out cfg P tp cp a s k]) i w).
    do 2 (eapply (does_bind _ _ _ []); [constructor|]; cbv beta iota). eapply does_bind; [apply does_enable|].
    eapply does_bind; [apply does_backward_step|].
    eapply does_bind with (sc1 := call_prev s (if bool_decide (i = r - 1)%nat then [send_prev cfg P tp cp a s i] else exchange_prev cfg P tp cp a s i (i + w + 1))) (a := steady_input (1 + i)).
    { unfold steady_input. case_bool_decide as Hl.
      - rewrite (proj2 (Nat.ltb_ge (1 + i) r)) by lia. rewrite (proj2 (Nat.ltb_lt 0 r)) by lia.
        eapply does_cast; [eapply does_bind; [apply does_send_backward|constructor]|by rewrite app_nil_r].
      - rewrite (proj2 (Nat.ltb_lt (1 + i) r)) by lia. replace (1 + i + w)%nat with (i + w + 1)%nat by lia. apply does_send_backward_recv_forward. }
    rewrite <- data_S, <- tokens_S. 
    replace (negb (bool_decide (w = 0%nat) && bool_decide (i = (r - 1)%nat) && syncs_last cfg s)) with (steady_no_sync (1 + i)).
    2:{ unfold steady_no_sync. rewrite (proj2 (Nat.ltb_lt 0 r)), andb_true_r by lia. do 3 f_equal. apply bool_decide_ext. lia. }
    constructor.
  - unfold steady_script, ev_forward. rewrite Hfo, steady_first. by rewrite !app_nil_r.
Qed.

(** Before iteration [i] of the cooldown loop. *)
Definition cool_no_sync (i : nat) : bool := if (0 <? w)%nat then negb (bool_decide (i = w) && syncs_last cfg s) else steady_no_sync r.
Definition cool_state (i : nat) : locals :=
  mkLocals (inputs (r + i) (w - i)) (outputs (r + i) (w - i)) (match i with O => steady_input r | S i' => ref_in cfg P tp cp a s (r + i') end)
    (data m) (tokens m) (cool_no_sync i).

Lemma seq_pop {A} (f : nat -> A) i : (i < w)%nat -> map f (seq (r + i) (w - i)) = f (r + i)%nat :: map f (seq (r + (1 + i)) (w - (1 + i))).
Proof. intros Hi. replace (w - i)%nat with (S (w - (1 + i))) by lia. cbn [seq map]. do 3 f_equal. lia. Qed.

Lemma does_cooldown i : (i < w)%nat -> does (cooldown_body cfg (G s) a [sh] i (cool_state i)) (cool_script cfg P tp cp a s i) (cool_state (1 + i)).
Proof.
  intros Hi. unfold cooldown_body. change (num_warmup (G s) m) with w.
  cbn [cool_state input_tensors output_tensors forward_data_store total_num_tokens no_sync_context input_tensor].
  assert (En : cool_no_sync i = true). { unfold cool_no_sync. rewrite (proj2 (Nat.ltb_lt 0 w)) by lia. by rewrite (bool_decide_false (i = w)) by lia. }
  rewrite En, (seq_pop (ref_in cfg P tp cp a s) i Hi), (seq_pop (fun k => [ref_out cfg P tp cp a s k]) i Hi). eapply does_cast.
  - eapply does_bind; [apply does_enable|]. do 2 (eapply (does_bind _ _ _ []); [constructor|]; cbv beta iota).
    eapply does_bind; [apply does_recv_backward|]. eapply does_bind; [apply does_backward_step|]. eapply does_bind; [apply does_send_backward|].
    replace (negb (bool_decide (i = (w - 1)%nat) && syncs_last cfg s)) with (cool_no_sync (1 + i)).
    2:{ unfold cool_no_sync. rewrite (proj2 (Nat.ltb_lt 0 w)) by lia. do 2 f_equal. apply bool_decide_ext. lia. }
    constructor.
  - unfold cool_script. by rewrite !app_nil_r.
Qed.

(** *** The whole schedule *)
Lemma steady_state_0 : mkLocals (input_tensors (warm_state w)) (output_tensors (warm_state w)) (steady_input 0) (data w) (tokens w) true = steady_state 0.
Proof. unfold steady_state, steady_no_sync. cbn [warm_state input_tensors output_tensors Nat.add]. f_equal. destruct r; [by rewrite !andb_false_r|by rewrite (bool_decide_false (0%nat = S _)), andb_false_r by lia]. Qed.

Lemma cool_state_0 : steady_state (0 + r) = cool_state 0.
Proof.
  unfold steady_state, cool_state. pose proof (steady_split s) as Hsp. cbn [Nat.add]. rewrite Nat.add_0_r, Nat.sub_0_r, (Nat.add_comm r w), Hsp. f_equal.
  unfold cool_no_sync, steady_no_sync. destruct (Nat.ltb_spec 0 w) as [Hw|Hw]; [|done].
  rewrite (bool_decide_false (w = 0%nat)), (bool_decide_false (0%nat = w)) by lia. done.
Qed.

Lemma cool_no_sync_end : cool_no_sync w = negb (bool_decide (0 < m)%nat && syncs_last cfg s).
Proof.
  pose proof (steady_split s) as Hsp. unfold cool_no_sync, steady_no_sync. destruct (Nat.ltb_spec 0 w) as [Hw|Hw].
  - rewrite bool_decide_true by done. by rewrite bool_decide_true by lia.
  - rewrite (bool_decide_true (w = 0%nat)), (bool_decide_true (r = r)) by lia. cbn [andb].
    destruct (Nat.ltb_spec 0 r); [by rewrite (bool_decide_true (0 < m)%nat) by lia|by rewrite (bool_decide_false (0 < m)%nat) by lia].
Qed.

Lemma does_recv_first : does (if (0 <? r)%nat then recv_forward cfg (G s) [sh] (is_pp_first_stage (G s)) else mret (input_tensor (warm_state w)))
  (if (0 <? r)%nat then call_prev s [recv_prev cfg P tp cp a s w] else []) (steady_input 0).
Proof. unfold steady_input. destruct (0 <? r)%nat; [apply does_recv_forward|constructor]. Qed.

Lemma does_run : @Network.does _ _ ordered _ (store ← run_1f1b cfg (G s) a [sh]; emitP (EvReturn store)) (script_1f1b cfg P tp cp a s) tt.
Proof.
  unfold run_1f1b. change (num_warmup (G s) m) with w. change (m - w)%nat with r. rewrite Hfo. eapply does_cast.
  - eapply does_bind.
    + eapply (does_bind _ _ _ (evs [EvEnterNoSync])); [apply (does_emit _ _ _ []); constructor|].
      eapply does_bind; [apply (does_for _ _ (warm_script cfg P tp cp a s) warm_state w 0); intros i _; apply does_warmup|].
      eapply does_bind; [apply does_recv_first|]. cbv zeta.
      change (data (0 + w)) with (data w). change (forward_data_store (warm_state (0 + w))) with (data w).
      change (total_num_tokens (warm_state (0 + w))) with (tokens w). change (no_sync_context (warm_state (0 + w))) with true.
      change (0 + w)%nat with w. rewrite steady_state_0.
      eapply does_bind; [apply (does_for _ _ (steady_script cfg P tp cp a s) steady_state r 0); intros i Hi; apply does_steady; lia|]. rewrite cool_state_0.
      eapply does_bind with (sc1 := concat (map (cool_script cfg P tp cp a s) (seq 0 w)) ++
        evs (if bool_decide (0 < m)%nat && syncs_last cfg s then [] else [EvExitNoSync] ++ (if has_grad_sync_func cfg then [EvGradSync] else []))) (a := cool_state w).
      { eapply does_bind; [apply (does_for _ _ (cool_script cfg P tp cp a s) cool_state w 0); intros i Hi; apply does_cooldown; lia|].
        change (no_sync_context (cool_state (0 + w))) with (cool_no_sync w). rewrite cool_no_sync_end.
        destruct (bool_decide (0 < m)%nat && syncs_last cfg s); [constructor|]. cbn [negb].
        destruct (has_grad_sync_func cfg); repeat constructor. }
      eapply does_bind with (sc2 := []) (sc1 := evs (if has_finalize_model_grads_func cfg then [EvFinalize (if calculate_per_token_loss cfg then Some (tokens m) else None)] else [])) (a := tt);
        [destruct (has_finalize_model_grads_func cfg); repeat constructor|constructor].
    + apply (does_emit _ _ _ []). constructor.
  - unfold script_1f1b, final_events. rewrite app_nil_r. unfold evs. rewrite !map_app. by rewrite <- !app_assoc.
Qed.
End OneF1B.

(** ** Forward passes only *)

Section ForwardOnly.
Context {T L : Type} `{SM : StageModel T L}.
Context (cfg : config T) (P : nat) (tp cp : Z) (a : fb_args).
Notation G := (rank_groups P tp cp).
Notation m := (num_microbatches a).
Notation ordered := (negb (batch_p2p_comm cfg)).
Notation does := (@does (event T L) T ordered _).
Notation item := (item (event T L) T).

(** Every microbatch is received, computed and sent on. *)
Definition recv_script (s k : nat) : list item := call_prev s [recv_prev cfg P tp cp a s k].
Definition pass_script (s k : nat) : list item := evs [ev_forward cfg P tp cp a s k] ++ call_next P tp cp s [send_next cfg P tp cp a s k].
Definition script_forward (s : nat) : list item :=
  evs [EvEnterNoSync] ++ concat (map (fun k => recv_script s k ++ pass_script s k) (seq 0 m)) ++ evs [EvReturn (all_data cfg P tp cp a s m)].

Lemma script_forward_log s : script_log (script_forward s) = log_forward cfg P tp cp a s.
Proof.
  unfold script_forward, log_forward. rewrite !script_log_app, !evs_log, !script_log_concat, !map_map. f_equal. f_equal.
  rewrite <- (concat_singletons (ev_forward cfg P tp cp a s)). apply concat_map_ext. intros k _. unfold recv_script, pass_script.
  by rewrite !script_log_app, evs_log, call_prev_log, call_next_log.
Qed.

Lemma script_forward_moves d s : moves d (script_ops (script_forward s)) =
  concat (map (fun k => moves d (script_ops (recv_script s k)) ++ moves d (script_ops (pass_script s k))) (seq 0 m)).
Proof.
  unfold script_forward. rewrite !script_ops_app, !moves_app, script_ops_concat, moves_concat, !evs_moves, !map_map, app_nil_r, app_nil_l.
  apply concat_map_ext. intros k _. by rewrite script_ops_app, moves_app.
Qed.

Lemma script_forward_link d s : moves d (script_ops (script_forward s)) =
  match d with
  | SN => if last P tp cp s then [] else map (fun k => (ref_out cfg P tp cp a s k, time_f P a s k)) (seq 0 m)
  | RP => if bool_decide (s = 0%nat) then [] else map (fun k => (ref_out cfg P tp cp a (s - 1) k, time_f P a (s - 1) k)) (seq 0 m)
  | _ => []
  end.
Proof.
  rewrite script_forward_moves.
  assert (E : forall k, moves d (script_ops (recv_script s k)) ++ moves d (script_ops (pass_script s k)) =
    match d with
    | SN => if last P tp cp s then [] else [(ref_out cfg P tp cp a s k, time_f P a s k)]
    | RP => if bool_decide (s = 0%nat) then [] else [(ref_out cfg P tp cp a (s - 1) k, time_f P a (s - 1) k)]
    | _ => []
    end).
  { intros k. unfold recv_script, pass_script. rewrite script_ops_app, moves_app, evs_moves, call_prev_moves, call_next_moves.
    destruct d; repeat (case_bool_decide || case_match); done. }
  rewrite (concat_map_ext _ _ _ (fun k _ => E k)). destruct d; repeat (case_bool_decide || case_match);
    solve [by apply concat_map_nil | apply concat_singletons].
Qed.

Lemma script_forward_linked : script_linked P script_forward.
Proof.
  split; intros; rewrite !script_forward_link, ?last_spec; try done.
  - rewrite !bool_decide_false by lia. by rewrite Nat.sub_succ, Nat.sub_0_r.
  - by rewrite bool_decide_true by lia.
Qed.

Lemma script_forward_timed s : (s < P)%nat -> timed ordered (script_forward s).
Proof.
  intros Hs. set (f := fun i => 4 * Z.of_nat i + 2 * Z.of_nat s - 2).
  enough (H : between ordered (f 0%nat) (f (0 + m)%nat) (script_forward s)) by apply H.
  unfold script_forward. eapply between_app; [apply between_evs, Z.le_refl|]. eapply between_app; [|apply between_evs, Z.le_refl].
  apply (between_loop _ f). intros k Hk. unfold f, recv_script, pass_script.
  apply (between_app _ _ (4 * Z.of_nat k + 2 * Z.of_nat s)); [apply between_call_prev; [lia|]|].
  { intros Hs0. split; [apply call_ok_1|]. in_call. rewrite tick_early by lia. lia. }
  eapply between_app; [apply between_evs, Z.le_refl|]. apply between_call_next; [lia|]. intros _.
  split; [apply call_ok_1|]. in_call. rewrite tick_early by lia. lia.
Qed.

(** The loop of the code receives the next microbatch at the end of an iteration. *)
Lemma rotate {A} (f g : nat -> list A) n k :
  f k ++ concat (map (fun i => g (i + k)%nat ++ f (i + k + 1)%nat) (seq 0 n)) = concat (map (fun i => f (i + k)%nat ++ g (i + k)%nat) (seq 0 n)) ++ f (n + k)%nat.
Proof.
  induction n as [|n IH]; [by rewrite app_nil_r|]. rewrite !map_seq_S, !concat_app. cbn [concat Nat.add]. rewrite !app_nil_r, !app_assoc, IH.
  rewrite <- !app_assoc. do 4 f_equal. lia.
Qed.

Context (V : valid_call cfg P tp cp a) (s : nat) (Hs : (s < P)%nat) (sh : shape) (Hfo : forward_only a = true).
Notation w := (warm P tp cp a s).
Notation r := (steady P tp cp a s).
Notation data n := (all_data cfg P tp cp a s n).
Notation tokens n := (total_tokens cfg P tp cp a s n).
Notation ref_in := (ref_in cfg P tp cp a s).

Lemma rotated_script :
  concat (map (fun k => recv_script s k ++ pass_script s k) (seq 0 w)) ++ (if (0 <? r)%nat then recv_script s w else []) ++
  concat (map (fun i => pass_script s (i + w) ++ (if bool_decide (i = r - 1)%nat then [] else recv_script s (i + w + 1))) (seq 0 r)) =
  concat (map (fun k => recv_script s k ++ pass_script s k) (seq 0 m)).
Proof.
  rewrite <- (steady_split P tp cp a s), seq_app, map_app, concat_app. f_equal. cbn [Nat.add]. destruct r as [|n]; [done|]. cbn [Nat.ltb Nat.leb].
  rewrite <- (map_seq_shift (fun k => recv_script s k ++ pass_script s k)), !map_seq_S, !concat_app. cbn [concat Nat.add].
  rewrite bool_decide_true by lia. rewrite !app_nil_r.
  rewrite (concat_map_ext _ (fun i => pass_script s (i + w) ++ recv_script s (i + w + 1)) (seq 0 n)).
  2:{ intros i [_ Hi]%elem_of_seq. by rewrite bool_decide_false by lia. }
  rewrite !app_assoc. f_equal. apply (rotate (recv_script s) (pass_script s)).
Qed.

Definition fo_warm_state (i : nat) : locals := mkLocals [] [] (match i with O => [None] | S i' => ref_in i' end) (data i) (tokens i) true.
Definition fo_steady_input (i : nat) : list (option T) :=
  if (i <? r)%nat then ref_in (i + w) else if (0 <? r)%nat then ref_in (r - 1 + w) else input_tensor (fo_warm_state w).
Definition fo_steady_state (i : nat) : locals := mkLocals [] [] (fo_steady_input i) (data (i + w)) (tokens (i + w)) true.

Lemma does_fo_warmup i : does (warmup_body cfg (G s) a [sh] i (fo_warm_state i)) (recv_script s i ++ pass_script s i) (fo_warm_state (1 + i)).
Proof.
  unfold warmup_body. rewrite Hfo. eapply does_cast.
  - eapply does_bind; [by apply does_recv_forward|]. eapply does_bind; [apply does_forward_step|]. cbv beta iota.
    eapply does_bind; [by apply does_send_forward|]. cbn [fo_warm_state input_tensors output_tensors forward_data_store total_num_tokens no_sync_context].
    rewrite <- data_S, <- tokens_S. constructor.
  - unfold pass_script, ev_forward. rewrite Hfo. by rewrite !app_nil_r.
Qed.

Lemma does_fo_steady i : (i < r)%nat -> does (steady_body cfg (G s) a [sh] i (fo_steady_state i))
  (pass_script s (i + w) ++ (if bool_decide (i = r - 1)%nat then [] else recv_script s (i + w + 1))) (fo_steady_state (1 + i)).
Proof.
  intros Hi. unfold steady_body. rewrite Hfo. change (num_warmup (G s) m) with w. change (m - w)%nat with r.
  cbn [fo_steady_state input_tensors output_tensors forward_data_store total_num_tokens no_sync_context input_tensor].
  assert (Ei : fo_steady_input i = ref_in (i + w)) by (unfold fo_steady_input; by rewrite (proj2 (Nat.ltb_lt _ _) Hi)). rewrite Ei.
  eapply does_cast.
  - eapply does_bind; [apply does_forward_step|]. cbv beta iota. eapply does_bind; [by apply does_send_forward|].
    eapply does_bind with (sc1 := if bool_decide (i = r - 1)%nat then [] else recv_script s (i + w + 1)) (a := fo_steady_input (1 + i)).
    { unfold fo_steady_input. case_bool_decide as Hl.
      - rewrite (proj2 (Nat.ltb_ge (1 + i) r)) by lia. rewrite (proj2 (Nat.ltb_lt 0 r)) by lia. rewrite <- Hl. constructor.
      - rewrite (proj2 (Nat.ltb_lt (1 + i) r)) by lia. replace (1 + i + w)%nat with (i + w + 1)%nat by lia. by apply does_recv_forward. }
    rewrite <- data_S, <- tokens_S. constructor.
  - unfold pass_script, ev_forward. rewrite Hfo, (steady_first P tp cp a s) by done. by rewrite !app_nil_r, <- !app_assoc.
Qed.

Lemma does_fo_run : @Network.does _ _ ordered _ (store ← run_1f1b cfg (G s) a [sh]; emitP (EvReturn store)) (script_forward s) tt.
Proof.
  unfold run_1f1b. change (num_warmup (G s) m) with w. change (m - w)%nat with r. rewrite Hfo, andb_false_r. eapply does_cast.
  - eapply does_bind.
    + eapply (does_bind _ _ _ (evs [EvEnterNoSync])); [apply (does_emit _ _ _ []); constructor|].
      eapply does_bind; [apply (does_for _ _ (fun k => recv_script s k ++ pass_script s k) fo_warm_state w 0); intros i _; apply does_fo_warmup|].
      eapply does_bind with (sc1 := if (0 <? r)%nat then recv_script s w else []) (a := fo_steady_input 0).
      { unfold fo_steady_input. destruct (0 <? r)%nat; [by apply does_recv_forward|constructor]. }
      cbv zeta. change (mkLocals _ _ (fo_steady_input 0) _ _ _) with (fo_steady_state 0).
      eapply does_bind; [apply (does_for _ _ (fun i => pass_script s (i + w) ++ (if bool_decide (i = r - 1)%nat then [] else recv_script s (i + w + 1))) fo_steady_state r 0); intros i Hi; apply does_fo_steady; lia|].
      eapply (does_bind _ _ _ [] []); [constructor|]. eapply (does_bind _ _ _ [] []); constructor.
    + apply (does_emit _ _ _ []). constructor.
  - unfold script_forward. rewrite <- rotated_script, !app_nil_r. cbn [fo_steady_state forward_data_store Nat.add].
    rewrite (Nat.add_comm r w), steady_split. by rewrite <- !app_assoc.
Qed.
End ForwardOnly.

Section Correct.
Context {T L : Type} `{SM : StageModel T L}.
Context (cfg : config T) (P : nat) (tp cp : Z) (a : fb_args).

(** The checks at the start of a valid call pass. *)
Lemma valid_call_runs s : valid_call cfg P tp cp a -> exists sh, rank_program cfg (rank_groups P tp cp s) a =
  (store ← run_1f1b cfg (rank_groups P tp cp s) a [sh]; emitP (EvReturn store)).
Proof.
  intros [H1 H2 H3 H4 H5 H6 H7 H8]. unfold rank_program, forward_backward_pipelining_without_interleaving, get_tensor_shapes.
  rewrite H1, H2, H3. cbn [cp_size tp_size rank_groups]. rewrite floordiv_ok by done.
  assert (Ht : exists e, (if sequence_parallel cfg then floordiv (default (seq_length a) (decoder_seq_length a) / cp) tp else mret (default (seq_length a) (decoder_seq_length a) / cp)) = Ok e).
  { destruct (sequence_parallel cfg) eqn:Hq; [rewrite floordiv_ok by auto|]; eauto. }
  destruct Ht as [e He]. cbn [mbind res_bind]. rewrite He. eexists. destruct (has_p2p_communicator a); rewrite <- H4; [rewrite H5 by done|]; reflexivity.
Qed.

Lemma pipeline_lookup s p : pipeline cfg P tp cp a !! s = Some p -> (s < P)%nat /\ p = rank_program cfg (rank_groups P tp cp s) a.
Proof. intros (x & -> & [-> Hx]%lookup_seq)%list_lookup_fmap_Some. cbn. split; [lia|done]. Qed.
Lemma pipeline_length : length (pipeline cfg P tp cp a) = P.
Proof. unfold pipeline. by rewrite length_map, length_seq. Qed.

Lemma runs_1f1b : valid_call cfg P tp cp a -> forward_only a = false -> correct_runs (pipeline cfg P tp cp a) (log_1f1b cfg P tp cp a).
Proof.
  intros V Hfo. eapply correct_runs_ext; [apply script_1f1b_log|].
  apply (scripts_correct (negb (batch_p2p_comm cfg))); [|rewrite pipeline_length; apply script_1f1b_linked].
  intros s p [Hs ->]%pipeline_lookup. split; [|by apply script_1f1b_timed].
  destruct (valid_call_runs s V) as [sh ->]. apply does_follows. by apply does_run.
Qed.

Lemma runs_forward : valid_call cfg P tp cp a -> forward_only a = true -> correct_runs (pipeline cfg P tp cp a) (log_forward cfg P tp cp a).
Proof.
  intros V Hfo. eapply correct_runs_ext; [apply script_forward_log|].
  apply (scripts_correct (negb (batch_p2p_comm cfg))); [|rewrite pipeline_length; apply script_forward_linked].
  intros s p [Hs ->]%pipeline_lookup. split; [|by apply script_forward_timed].
  destruct (valid_call_runs s V) as [sh ->]. apply does_follows. by apply does_fo_run.
Qed.
End Correct.
