(* ===== verification/PipelineTheorems.v ===== *)
(** * Theorems on the pipeline schedules

    Correctness and deadlock freedom of the 1F1B schedule, the bound on the
    microbatches a rank keeps in flight, and the agreement with the schedule
    without a pipeline. *)

From S2P Require Import Prelude.
From S2P Require Import Network.
From S2P Require Import Pipeline.
From S2P Require Import PipelineProofs.

(** ** Microbatches in flight *)

Section InFlight.
Context {T L : Type} `{SM : StageModel T L}.

(** What an event does to the number of microbatches whose activations wait for
    their backward pass. *)
Definition delta (e : event T L) : Z := match e with EvForward _ _ _ _ => 1 | EvBackward _ _ _ => -1 | _ => 0 end.
Definition in_flight (l : list (event T L)) : Z := zsum (map delta l).

(** The number stays between two bounds along a log, from [x] to [y]. *)
Definition stays (lo hi x : Z) (l : list (event T L)) (y : Z) : Prop :=
  x + in_flight l = y /\ forall p, p `prefix_of` l -> lo <= x + in_flight p <= hi.

Lemma in_flight_app l1 l2 : in_flight (l1 ++ l2) = in_flight l1 + in_flight l2.
Proof. unfold in_flight. by rewrite map_app, zsum_app. Qed.

Lemma in_flight_nil : in_flight [] = 0.
Proof. done. Qed.
Lemma in_flight_cons e l : in_flight (e :: l) = delta e + in_flight l.
Proof. done. Qed.

Lemma stays_nil lo hi x : lo <= x <= hi -> stays lo hi x [] x.
Proof. intros Hx. split; [rewrite in_flight_nil; lia|]. intros p ->%prefix_nil_inv. rewrite in_flight_nil. lia. Qed.

Lemma stays_cons lo hi x e l y : lo <= x <= hi -> stays lo hi (x + delta e) l y -> stays lo hi x (e :: l) y.
Proof.
  intros Hx [Hy Hp]. split; [rewrite in_flight_cons; lia|]. intros [|e' p] Hpre; [rewrite in_flight_nil; lia|].
  pose proof (prefix_cons_inv_1 _ _ _ _ Hpre); subst e'.
  apply prefix_cons_inv_2 in Hpre. specialize (Hp p Hpre). rewrite in_flight_cons. lia.
Qed.

Lemma stays_app lo hi x y z l1 l2 : stays lo hi x l1 y -> stays lo hi y l2 z -> stays lo hi x (l1 ++ l2) z.
Proof.
  revert x. induction l1 as [|e l1 IH]; intros x [Hy Hp] H2.
  - rewrite in_flight_nil in Hy. by replace x with y by lia.
  - cbn. apply stays_cons; [specialize (Hp [] ltac:(apply prefix_nil)); rewrite in_flight_nil in Hp; lia|].
    apply IH; [|done]. split; [rewrite in_flight_cons in Hy; lia|]. intros p Hpre. specialize (Hp (e :: p) ltac:(by apply prefix_cons)).
    rewrite in_flight_cons in Hp. lia.
Qed.

Lemma stays_loop lo hi (f : nat -> Z) (body : nat -> list (event T L)) n k : lo <= f k <= hi ->
  (forall i, (k <= i < k + n)%nat -> stays lo hi (f i) (body i) (f (1 + i)%nat)) -> stays lo hi (f k) (concat (map body (seq k n))) (f (k + n)%nat).
Proof.
  revert k. induction n as [|n IH]; intros k Hk Hb; cbn [seq map concat].
  - rewrite Nat.add_0_r. by apply stays_nil.
  - pose proof (Hb k ltac:(lia)) as H1. eapply stays_app; [exact H1|]. replace (k + S n)%nat with (S k + n)%nat by lia.
    apply IH; [destruct H1 as [E Hp]; specialize (Hp (body k) ltac:(done)); change (S k) with (1 + k)%nat; lia|]. intros i Hi. apply Hb. lia.
Qed.

(** Events that neither start nor end a microbatch. *)
Lemma stays_quiet lo hi x l : lo <= x <= hi -> Forall (fun e => delta e = 0) l -> stays lo hi x l x.
Proof.
  intros Hx. induction 1 as [|e l He Hl IH]; [by apply stays_nil|]. apply stays_cons; [done|]. by rewrite He, Z.add_0_r.
Qed.

Context (cfg : config T) (P : nat) (tp cp : Z) (a : fb_args).
Notation m := (num_microbatches a).

Lemma quiet_deallocate s i : Forall (fun e => delta e = 0) (evs_deallocate cfg P tp cp a s i).
Proof. unfold evs_deallocate. destruct (deallocate_pipeline_outputs cfg); repeat constructor. Qed.
Lemma quiet_enable s b : Forall (fun e => delta e = 0) (@evs_enable T L cfg s b).
Proof. unfold evs_enable. destruct (b && syncs_last cfg s); repeat constructor. Qed.

Lemma log_1f1b_in_flight s p : (s < P)%nat -> p `prefix_of` log_1f1b cfg P tp cp a s ->
  0 <= in_flight p <= Z.min (Z.of_nat (P - s)) (Z.of_nat m).
Proof.
  intros Hs. set (hi := Z.min (Z.of_nat (P - s)) (Z.of_nat m)).
  pose proof (steady_split P tp cp a s) as Hsp. pose proof (warm_eq P tp cp a s) as Hw.
  set (w := warm P tp cp a s) in *. set (r := steady P tp cp a s) in *.
  enough (H : stays 0 hi 0 (log_1f1b cfg P tp cp a s) 0) by (intros Hp; destruct H as [_ H]; specialize (H p Hp); lia).
  unfold log_1f1b. fold w r. apply (stays_app _ _ _ 0); [apply stays_quiet; [lia|repeat constructor]|].
  apply (stays_app _ _ _ (Z.of_nat (0 + w))).
  { apply (stays_loop 0 hi Z.of_nat _ w 0); [lia|]. intros i Hi. apply stays_cons; [lia|]. cbn [delta ev_forward].
    replace (Z.of_nat i + 1) with (Z.of_nat (1 + i)) by lia. apply stays_quiet; [lia|apply quiet_deallocate]. }
  apply (stays_app _ _ _ (Z.of_nat w)).
  { apply (stays_loop _ _ (fun _ => Z.of_nat w)); [lia|]. intros i Hi. apply stays_cons; [lia|]. cbn [delta ev_forward].
    eapply stays_app; [apply stays_quiet; [lia|apply quiet_deallocate]|]. eapply stays_app; [apply stays_quiet; [lia|apply quiet_enable]|].
    apply stays_cons; [lia|]. cbn [delta ev_backward]. replace (Z.of_nat w + 1 + -1) with (Z.of_nat w) by lia. apply stays_nil. lia. }
  apply (stays_app _ _ _ (Z.of_nat (w - (0 + w)))).
  { replace (Z.of_nat w) with (Z.of_nat (w - 0)) by lia. apply (stays_loop _ _ (fun i => Z.of_nat (w - i))); [lia|]. intros i Hi.
    eapply stays_app; [apply stays_quiet; [lia|apply quiet_enable]|]. apply stays_cons; [lia|]. cbn [delta ev_backward].
    replace (Z.of_nat (w - i) + -1) with (Z.of_nat (w - (1 + i))) by lia. apply stays_nil. lia. }
  replace (Z.of_nat (w - (0 + w))) with 0 by lia. apply stays_quiet; [lia|]. repeat case_match; repeat constructor.
Qed.
End InFlight.

(** At every moment of every run, no rank has more than this many microbatches in flight. *)
Definition bounded_in_flight {T L} (ps : list (prog (event T L) T unit)) (bound : nat -> Z) : Prop :=
  forall n c s st, runs n (start ps) c -> c !! s = Some st -> 0 <= in_flight (st_log st) <= bound s.

Section Claims.
Context {T L : Type} `{SM : StageModel T L}.
Context (cfg : config T) (P : nat) (tp cp : Z) (a : fb_args).

(** The 1F1B schedule of [forward_backward_pipelining_without_interleaving] is
    correct for every model, number of ranks and number of microbatches, with
    batched and with ordered point-to-point calls: no run of the ranks deadlocks
    or fails, every run ends, and then every rank has done the forward and the
    backward pass of every microbatch on the values of the sequential reference,
    with gradient synchronisation enabled only for the last backward pass (C1). *)
Theorem pipeline_1f1b_correct : valid_call cfg P tp cp a -> forward_only a = false ->
  correct_runs (pipeline cfg P tp cp a) (log_1f1b cfg P tp cp a).
Proof. apply runs_1f1b. Qed.

(** With [forward_only] every rank runs the forward passes of all microbatches in
    order on the values of the reference and returns the loss data; no run
    deadlocks or fails, and every run ends (C31). *)
Theorem pipeline_forward_correct : valid_call cfg P tp cp a -> forward_only a = true ->
  correct_runs (pipeline cfg P tp cp a) (log_forward cfg P tp cp a).
Proof. apply runs_forward. Qed.

(** The point of 1F1B: at every moment of every run, rank [s] of [P] keeps the
    activations of at most [min (P - s) m] microbatches, however many microbatches
    there are (C15). *)
Theorem pipeline_memory_bound : valid_call cfg P tp cp a -> forward_only a = false ->
  bounded_in_flight (pipeline cfg P tp cp a) (fun s => Z.min (Z.of_nat (P - s)) (Z.of_nat (num_microbatches a))).
Proof.
  intros V Hfo n c s st Hr Hs. pose proof (runs_1f1b cfg P tp cp a V Hfo) as C.
  apply (log_1f1b_in_flight cfg P tp cp a); [|by eapply (cr_prefix _ _ C)].
  assert (Hlen : length c = length (start (pipeline cfg P tp cp a))) by (clear -Hr; induction Hr as [|? ? ? ? H1 ? IH]; [done|]; rewrite IH; by destruct H1; rewrite ?length_insert).
  apply lookup_lt_Some in Hs. unfold start in Hlen. rewrite length_map, pipeline_length in Hlen. lia.
Qed.
End Claims.

(** ** Without a pipeline *)

Section NoPipelining.
Context {T L : Type} `{SM : StageModel T L}.
Context (cfg : config T) (tp cp : Z) (a : fb_args).
Notation G := (rank_groups 1 tp cp 0).
Notation m := (num_microbatches a).
Notation does := (@does (event T L) T (negb (batch_p2p_comm cfg)) _).

Definition no_pipelining_program : prog (event T L) T unit :=
  store ← forward_backward_no_pipelining cfg G a; emitP (EvReturn store).

(** The events that compute something, without the bookkeeping of [no_sync_func]
    and of memory. *)
Definition is_computation (e : event T L) : bool :=
  match e with EvForward _ _ _ _ | EvBackward _ _ _ | EvFinalize _ | EvReturn _ => true | _ => false end.
Definition computations (l : list (event T L)) : list (event T L) := filter (fun e => is_computation e = true) l.

Definition step_events (i : nat) : list (event T L) :=
  [ev_forward cfg 1 tp cp a 0 i] ++ (if forward_only a then [] else [ev_backward cfg 1 tp cp a 0 i]).
Definition log_no_pipelining : list (event T L) :=
  [EvEnterNoSync] ++ concat (map step_events (seq 0 (m - 1))) ++ [EvExitNoSync] ++ step_events (m - 1) ++
  (if has_finalize_model_grads_func cfg && negb (forward_only a)
   then [EvFinalize (if calculate_per_token_loss cfg then Some (total_tokens cfg 1 tp cp a 0 m) else None)] else []) ++
  [EvReturn (all_data cfg 1 tp cp a 0 m)].

Context (Hck : num_microbatches_with_partial_activation_checkpoints cfg = None).

Lemma does_no_pipelining_step i : 
  does (no_pipelining_step cfg G a (bool_decide (i = 0%nat)) (Z.of_nat i) (all_data cfg 1 tp cp a 0 i, total_tokens cfg 1 tp cp a 0 i)) (evs (step_events i))
    (all_data cfg 1 tp cp a 0 (1 + i), total_tokens cfg 1 tp cp a 0 (1 + i)).
Proof.
  unfold no_pipelining_step, step_events, ev_forward. assert (Ec : checkpoint_flag cfg G a i = None) by (unfold checkpoint_flag; by rewrite Hck).
  pose proof (does_forward_step cfg 1 tp cp a 0 i (check_first_val_step (first_val_step a) (forward_only a) (bool_decide (i = 0%nat))) (all_data cfg 1 tp cp a 0 i)) as Hf.
  rewrite Ec in *. unfold evs. rewrite map_app. eapply does_bind; [exact Hf|]. cbv beta iota. cbn [fst snd]. rewrite <- data_S, <- tokens_S.
  eapply does_cast with (sc := _ ++ []); [|apply app_nil_r]. eapply does_bind; [|constructor].
  destruct (forward_only a); [constructor|]. eapply does_cast with (sc := _ ++ []); [|apply app_nil_r]. eapply does_bind; [|constructor].
  apply (does_backward_step cfg 1 tp cp a 0). lia.
Qed.

Context (Hm : (0 < m)%nat) (Hmodel : single_or_one (arg_model a) = true) (Hdata : single_or_one (arg_data_iterator a) = true).

Lemma does_no_pipelining : @Network.does _ _ (negb (batch_p2p_comm cfg)) _ no_pipelining_program (evs log_no_pipelining) tt.
Proof.
  unfold no_pipelining_program, forward_backward_no_pipelining. rewrite Hmodel, Hdata. eapply does_cast.
  - eapply does_bind.
    + do 2 (eapply (does_bind _ _ _ []); [constructor|]). eapply (does_bind _ _ _ (evs [EvEnterNoSync])); [apply (does_emit _ _ _ []); constructor|].
      eapply does_bind; [apply (does_for _ _ (fun i => evs (step_events i)) (fun i => (all_data cfg 1 tp cp a 0 i, total_tokens cfg 1 tp cp a 0 i)) (m - 1) 0);
        intros i _; apply does_no_pipelining_step|].
      eapply (does_bind _ _ _ (evs [EvExitNoSync])); [apply (does_emit _ _ _ []); constructor|].
      eapply does_bind.
      { replace (Z.of_nat m - 1) with (Z.of_nat (m - 1)) by lia.
        replace (bool_decide (m = 1%nat)) with (bool_decide ((m - 1)%nat = 0%nat)) by (apply bool_decide_ext; lia). apply does_no_pipelining_step. }
      replace (1 + (0 + (m - 1)))%nat with m by lia. cbn [fst snd].
      eapply does_bind with (sc2 := []) (sc1 := evs (if has_finalize_model_grads_func cfg && negb (forward_only a)
        then [EvFinalize (if calculate_per_token_loss cfg then Some (total_tokens cfg 1 tp cp a 0 m) else None)] else [])) (a := tt);
        [destruct (has_finalize_model_grads_func cfg && negb (forward_only a)); repeat constructor|constructor].
    + apply (does_emit _ _ _ []). constructor.
  - unfold log_no_pipelining. rewrite app_nil_r. unfold evs. rewrite !map_app, concat_map, map_map. by rewrite <- !app_assoc.
Qed.

Lemma computations_app l1 l2 : computations (l1 ++ l2) = computations l1 ++ computations l2.
Proof. apply filter_app. Qed.
Lemma computations_concat (f : nat -> list (event T L)) l : computations (concat (map f l)) = concat (map (fun i => computations (f i)) l).
Proof. induction l as [|i l IH]; [done|]. cbn [map concat]. by rewrite computations_app, IH. Qed.
Lemma computations_deallocate s i : computations (evs_deallocate cfg 1 tp cp a s i) = [].
Proof. unfold evs_deallocate. by destruct (deallocate_pipeline_outputs cfg). Qed.
Lemma computations_enable s b : computations (@evs_enable T L cfg s b) = [].
Proof. unfold evs_enable. by destruct (b && syncs_last cfg s). Qed.

Lemma step_computations i : computations (step_events i) = step_events i.
Proof. unfold step_events. by destruct (forward_only a). Qed.
Lemma all_steps : concat (map step_events (seq 0 m)) = concat (map step_events (seq 0 (m - 1))) ++ step_events (m - 1).
Proof. replace m with (S (m - 1)) at 1 by lia. rewrite map_seq_S, concat_app. cbn. by rewrite app_nil_r. Qed.

Lemma no_pipelining_computations :
  computations log_no_pipelining = computations (if forward_only a then log_forward cfg 1 tp cp a 0 else log_1f1b cfg 1 tp cp a 0).
Proof.
  unfold log_no_pipelining. rewrite !computations_app, computations_concat, step_computations.
  rewrite (concat_map_ext _ step_events) by (intros; apply step_computations).
  assert (Ew : warm 1 tp cp a 0 = 0%nat) by done. assert (Er : steady 1 tp cp a 0 = m) by (unfold steady; rewrite Ew; lia).
  destruct (forward_only a) eqn:Hfo; unfold log_forward, log_1f1b.
  - rewrite andb_false_r, !computations_app. change (computations [EvEnterNoSync]) with (@nil (event T L)). change (computations [EvExitNoSync]) with (@nil (event T L)). cbn [app].
    rewrite app_assoc, <- all_steps. f_equal. rewrite <- (concat_singletons (ev_forward cfg 1 tp cp a 0)), computations_concat.
    apply concat_map_ext. intros i _. unfold step_events. by rewrite Hfo.
  - rewrite Ew, Er, andb_true_r, !computations_app. change (computations [EvEnterNoSync]) with (@nil (event T L)). change (computations [EvExitNoSync]) with (@nil (event T L)).
    cbn [app seq map concat]. change (computations []) with (@nil (event T L)). cbn [app].
    rewrite app_assoc, <- all_steps, computations_concat. f_equal; [|by repeat case_match].
    apply concat_map_ext. intros i _. change (ev_forward ?c ?p ?t ?u ?v ?w ?i :: ?l) with ([ev_forward c p t u v w i] ++ l). rewrite !computations_app, computations_deallocate, computations_enable, Nat.add_0_r. unfold step_events. by rewrite Hfo.
Qed.
End NoPipelining.

Section NoPipeliningClaim.
Context {T L : Type} `{SM : StageModel T L}.

(** Without a pipeline, [forward_backward_no_pipelining] runs the forward and the
    backward step of every microbatch, all but the last one inside
    [no_sync_func], and it computes, finalizes and returns the same as the 1F1B
    schedule on a pipeline of one rank. *)
Theorem no_pipelining_equivalent (cfg : config T) tp cp a : (0 < num_microbatches a)%nat ->
  num_microbatches_with_partial_activation_checkpoints cfg = None ->
  single_or_one (arg_model a) = true -> single_or_one (arg_data_iterator a) = true ->
  correct_runs [no_pipelining_program cfg tp cp a] (fun _ => log_no_pipelining cfg tp cp a) /\
  computations (log_no_pipelining cfg tp cp a) =
  computations (if forward_only a then log_forward cfg 1 tp cp a 0 else log_1f1b cfg 1 tp cp a 0).
Proof.
  intros Hm Hck H1 H2. split; [|by apply no_pipelining_computations].
  eapply (correct_runs_ext _ (fun s => script_log (evs (log_no_pipelining cfg tp cp a)))); [intros _; apply evs_log|].
  apply (scripts_correct (negb (batch_p2p_comm cfg)) _ (fun _ => evs (log_no_pipelining cfg tp cp a))).
  - intros [|s] p Hp; [injection Hp as <-|done]. split; [by apply does_follows, does_no_pipelining|]. apply (between_evs cfg 0 0). lia.
  - split; intros; rewrite ?evs_moves; try done; cbn in *; lia.
Qed.
End NoPipeliningClaim.

(** ** A concrete pipeline *)

Module Example_.
(** Tensors are numbers; a stage multiplies and adds, a loss is a number of
    tokens and the output itself. *)
#[local] Instance toy : StageModel Z Z := {
  forward_step_func s i _ x := (10 * default i (x !! 0%nat ≫= id) + Z.of_nat s, mkLossFunc (fun y => Outputs3 y (i + 1) y) (fun y => y));
  input_grad s x y g := Z.of_nat s + x + y + default 1 g;
  t_div y n := y / n;
  t_mul y n := y * n
}.
Definition toy_config (batched : bool) : config Z := mkConfig false batched true false 8 (Some 1) true true true true (Some (fun y => 2 * y)).
Definition toy_args (fo : bool) : fb_args := mkArgs Single (ListOf 1) 5 16 2 None fo false None false false false.

Lemma toy_valid b fo : valid_call (toy_config b) 3 1 1 (toy_args fo).
Proof. by split. Qed.

Lemma pipeline_1f1b_correct_witness :
  correct_runs (pipeline (toy_config false) 3 1 1 (toy_args false)) (log_1f1b (toy_config false) 3 1 1 (toy_args false)) /\
  in_flight (log_1f1b (toy_config false) 3 1 1 (toy_args false) 0) = 0 /\ length (log_1f1b (toy_config false) 3 1 1 (toy_args false) 2) = 20%nat.
Proof. split; [apply pipeline_1f1b_correct; [apply toy_valid|reflexivity]|]. split; vm_compute; reflexivity. Defined.

Lemma pipeline_forward_correct_witness :
  correct_runs (pipeline (toy_config true) 3 1 1 (toy_args true)) (log_forward (toy_config true) 3 1 1 (toy_args true)).
Proof. apply pipeline_forward_correct; [apply toy_valid|reflexivity]. Defined.

Lemma pipeline_memory_bound_witness :
  bounded_in_flight (pipeline (toy_config true) 3 1 1 (toy_args false)) (fun s => Z.min (Z.of_nat (3 - s)) 5).
Proof. apply (pipeline_memory_bound (toy_config true) 3 1 1 (toy_args false)); [apply toy_valid|reflexivity]. Defined.

Definition toy_config_plain : config Z := mkConfig false false false false 8 None false true true false None.
Lemma no_pipelining_equivalent_witness :
  computations (log_no_pipelining toy_config_plain 1 1 (toy_args false)) = computations (log_1f1b toy_config_plain 1 1 1 (toy_args false) 0).
Proof.
  apply (no_pipelining_equivalent toy_config_plain 1 1 (toy_args false)); [|reflexivity|reflexivity|reflexivity]. cbn. lia.
Defined.
End Example_.
