(* ===== verification/ScheduleTable.v ===== *)
(** * Schedule tables

    The functions of [megatron/core/pipeline_parallel/schedules.py] that plan a
    pipeline schedule: the number of warmup microbatches of a rank, the order in
    which the model chunks of the interleaved schedule process the microbatches,
    and the order format for graph capturing. *)

From S2P Require Import Prelude.
From S2P Require Import ParallelState.
From S2P Require Import Pipeline.

(** [get_forward_backward_func] *)
Inductive schedule := WithInterleaving | WithoutInterleaving | NoPipelining.
Definition get_forward_backward_func s : res schedule :=
  pipeline_model_parallel_size ← get_pipeline_model_parallel_world_size s;
  if 1 <? pipeline_model_parallel_size then
    match get_virtual_pipeline_model_parallel_world_size s with Some _ => mret WithInterleaving | None => mret WithoutInterleaving end
  else mret NoPipelining.

(** [get_pp_rank_microbatches]: total, whether all are in the warmup, warmup and
    remaining microbatches. *)
Definition get_pp_rank_microbatches (pipeline_parallel_size pipeline_parallel_rank : Z) (virtual_pipeline_parallel_size : option Z)
    (num_microbatches num_model_chunks microbatch_group_size_per_vp_stage : Z) (forward_only overlap_moe_expert_parallel_comm : bool)
  : Z * bool * Z * Z :=
  let total_num_microbatches := num_microbatches * num_model_chunks in
  let num_warmup_microbatches :=
    if forward_only then total_num_microbatches
    else if 1 <? pipeline_parallel_size then
      match virtual_pipeline_parallel_size with
      | None => pipeline_parallel_size - pipeline_parallel_rank - 1
      | Some _ =>
          let n := (pipeline_parallel_size - pipeline_parallel_rank - 1) * 2 + (num_model_chunks - 1) * microbatch_group_size_per_vp_stage in
          if overlap_moe_expert_parallel_comm then n + 1 else n
      end
    else 0 in
  let all_in_warmup := total_num_microbatches <=? num_warmup_microbatches in
  let num_warmup_microbatches := if all_in_warmup then total_num_microbatches else num_warmup_microbatches in
  (total_num_microbatches, all_in_warmup, num_warmup_microbatches, total_num_microbatches - num_warmup_microbatches).

(** [range(a, b, step)] *)
Definition py_range (a b step : Z) : res (list Z) :=
  if step =? 0 then raise_ ValueError "range() arg 3 must not be zero"
  else
    let n := if 0 <? step then (b - a + step - 1) / step else (a - b - step - 1) / - step in
    mret (map (fun i => a + i * step) (zrange 0 n)).

(** [get_schedule_table] *)
Definition group_schedule (num_microbatches num_model_chunks group_size min_id : Z) : list (Z * Z) :=
  let last := if num_microbatches <=? min_id + group_size then num_microbatches else min_id + group_size in
  concat (map (fun model_chunk_id => map (fun microbatch_id => (microbatch_id, model_chunk_id)) (zrange min_id last)) (zrange 0 num_model_chunks)).
Definition get_schedule_table (num_microbatches num_model_chunks microbatch_group_size_per_vp_stage : Z) : res (list (Z * Z)) :=
  min_ids ← py_range 0 num_microbatches microbatch_group_size_per_vp_stage;
  mret (concat (map (group_schedule num_microbatches num_model_chunks microbatch_group_size_per_vp_stage) min_ids)).

(** [convert_schedule_table_to_order]: [zip] of an empty table cannot be unpacked. *)
Definition convert_schedule_table_to_order (num_warmup_microbatches num_model_chunks : Z) (schedule_table : list (Z * Z)) : res (list Z) :=
  match schedule_table with
  | [] => raise_ ValueError "not enough values to unpack"
  | _ =>
      let model_chunk_id_table := map snd schedule_table in
      let forward_order := map (fun c => c + 1) model_chunk_id_table in
      let backward_order := map (fun c => c - num_model_chunks) model_chunk_id_table in
      let n := Z.of_nat (length forward_order) in
      body ← mapR (fun i => f ← py_get forward_order i; b ← py_get backward_order (i - num_warmup_microbatches); mret [f; b])
               (zrange num_warmup_microbatches n);
      let order := py_slice forward_order 0 num_warmup_microbatches ++ concat body in
      mret (if 0 <? num_warmup_microbatches
            then order ++ drop (Z.to_nat (n - num_warmup_microbatches)) backward_order else order)
  end.

(** ** The warmup of a rank *)

(** The warmup and the remaining microbatches of a rank add up to all of them,
    neither is negative, and without interleaving they are those of the 1F1B
    schedule. *)
Theorem pp_rank_microbatches_spec (g : groups) vp (m n k : Z) fo moe total all_w warm rest :
  (pp_rank g < pp_size g)%nat -> 0 <= m -> 0 < n -> 0 <= k ->
  get_pp_rank_microbatches (Z.of_nat (pp_size g)) (Z.of_nat (pp_rank g)) vp m n k fo moe = (total, all_w, warm, rest) ->
  total = m * n /\ warm + rest = total /\ 0 <= warm /\ 0 <= rest /\ (all_w = true <-> rest = 0) /\
  (vp = None -> n = 1 -> fo = false -> warm = Z.of_nat (num_warmup g (Z.to_nat m))).
Proof.
  intros Hr Hm Hn Hk. unfold get_pp_rank_microbatches, num_warmup. intros [= <- <- <- <-].
  assert (0 <= m * n) by nia. assert (0 <= (n - 1) * k) by nia.
  set (t := m * n) in *. set (x := (n - 1) * k) in *.
  destruct (Z.leb_spec t (if fo then t else if 1 <? Z.of_nat (pp_size g) then match vp with None => Z.of_nat (pp_size g) - Z.of_nat (pp_rank g) - 1
    | Some _ => if moe then (Z.of_nat (pp_size g) - Z.of_nat (pp_rank g) - 1) * 2 + x + 1 else (Z.of_nat (pp_size g) - Z.of_nat (pp_rank g) - 1) * 2 + x end else 0)) as [Hle|Hgt].
  - split_and!; try lia. intros -> -> ->. subst t. destruct (Z.ltb_spec 1 (Z.of_nat (pp_size g))); lia.
  - destruct fo; [lia|]. destruct (Z.ltb_spec 1 (Z.of_nat (pp_size g))), vp as [v|], moe; split_and!; try lia; intros; subst t; simplify_eq; lia.
Qed.

Definition ex_groups : groups := mkGroups 4 1 1 1.
Lemma pp_rank_microbatches_spec_witness :
  get_pp_rank_microbatches 4 1 (Some 2) 8 2 4 false false = (16, false, 8, 8) /\ 8 + 8 = 8 * 2.
Proof.
  split; [reflexivity|].
  apply (pp_rank_microbatches_spec ex_groups (Some 2) 8 2 4 false false (8 * 2) false 8 8); [cbn; lia|lia|lia|lia|reflexivity].
Defined.

(** ** The schedule table *)

(** The groups of the table: [q] full groups from microbatch 0. *)
Lemma ranges_concat g m q : 0 < g -> 0 <= q -> q * g <= m ->
  concat (map (fun i => zrange (i * g) (Z.min m ((i + 1) * g))) (zrange 0 q)) = zrange 0 (q * g).
Proof.
  intros Hg Hq. pattern q. apply natlike_ind; [done| |done]. clear q Hq. intros q Hq IH Hle.
  unfold Z.succ in *. rewrite zrange_snoc, map_app, concat_app by lia. rewrite IH by nia. cbn [map concat].
  rewrite app_nil_r, Z.min_r by nia. rewrite <- zrange_app by nia. done.
Qed.

Lemma ranges_all g m : 0 < g -> 0 <= m ->
  concat (map (fun i => zrange (i * g) (Z.min m ((i + 1) * g))) (zrange 0 ((m + g - 1) / g))) = zrange 0 m.
Proof.
  intros Hg Hm. destruct (decide (m = 0)) as [->|Hm0].
  { rewrite Z.div_small by lia. done. }
  pose proof (Z.div_mod (m - 1) g ltac:(lia)) as Hd. pose proof (Z.mod_pos_bound (m - 1) g Hg) as Hb. set (q := (m - 1) / g) in *.
  assert (Eq : (m + g - 1) / g = q + 1). { replace (m + g - 1) with (m - 1 + 1 * g) by lia. rewrite Z.div_add by lia. done. }
  assert (0 <= q) by (apply Z.div_pos; lia).
  rewrite Eq, zrange_snoc, map_app, concat_app by lia. rewrite ranges_concat by nia. cbn [map concat]. rewrite app_nil_r, Z.min_l by nia.
  symmetry. apply zrange_app; nia.
Qed.

Definition chunk_of (c : Z) (l : list (Z * Z)) : list (Z * Z) := filter (fun x => x.2 = c) l.

Lemma chunk_of_concat c ls : chunk_of c (concat ls) = concat (map (chunk_of c) ls).
Proof. induction ls as [|l ls IH]; [done|]. cbn [concat map]. unfold chunk_of in *. by rewrite filter_app, IH. Qed.

Lemma chunk_of_tagged c c' l : chunk_of c (map (fun i => (i, c')) l) = if decide (c' = c) then map (fun i => (i, c')) l else [].
Proof.
  unfold chunk_of. induction l as [|i l IH]; [by destruct (decide _)|]. rewrite map_cons, filter_cons, IH. cbn [snd]. by destruct (decide (c' = c)).
Qed.

Lemma concat_select {A} (f : Z -> list A) c n : 0 <= c < n -> concat (map (fun i => if decide (i = c) then f i else []) (zrange 0 n)) = f c.
Proof.
  intros Hc. rewrite (zrange_app 0 c n), (zrange_cons c n), map_app, concat_app by lia. cbn [map concat]. rewrite decide_True by done.
  assert (Hn : forall a b, (forall i, a <= i < b -> i <> c) -> concat (map (fun i => if decide (i = c) then f i else []) (zrange a b)) = []).
  { intros a b H. apply concat_nil_Forall, Forall_forall. intros l (i & <- & Hi)%list_elem_of_In%in_map_iff.
    apply list_elem_of_In, elem_of_zrange in Hi. by rewrite decide_False by auto. }
  rewrite !Hn by lia. by rewrite app_nil_r.
Qed.

Lemma group_schedule_chunk m n g lo c : 0 <= c < n ->
  chunk_of c (group_schedule m n g lo) = map (fun i => (i, c)) (zrange lo (Z.min m (lo + g))).
Proof.
  intros Hc. unfold group_schedule. rewrite chunk_of_concat, map_map.
  replace (if m <=? lo + g then m else lo + g) with (Z.min m (lo + g)) by (destruct (Z.leb_spec m (lo + g)); lia).
  erewrite map_ext; [|intros c'; apply chunk_of_tagged].
  apply (concat_select (fun c' => map (fun i => (i, c')) (zrange lo (Z.min m (lo + g))))); done.
Qed.

(** An element of a concatenation lies in one of the blocks. *)
Lemma concat_split {A} (ls : list (list A)) l1 x l2 : concat ls = l1 ++ x :: l2 ->
  exists before b1 b2 after, ls = before ++ (b1 ++ x :: b2) :: after /\ l1 = concat before ++ b1.
Proof.
  revert l1. induction ls as [|l ls IH]; intros l1 Hl; cbn [concat] in Hl; [by destruct l1|].
  apply app_eq_inv in Hl as [(k & E1 & E2)|(k & E1 & E2)].
  - destruct k as [|y k]; cbn in E2.
    + destruct (IH [] (eq_sym E2)) as (be & b1 & b2 & af & -> & El). exists (l :: be), b1, b2, af. split; [done|].
      rewrite app_nil_r in E1. subst. cbn. rewrite <- app_assoc, <- El. by rewrite app_nil_r.
    + injection E2 as -> ->. exists [], l1, k, ls. by subst.
  - destruct (IH k E2) as (be & b1 & b2 & af & -> & El). exists (l :: be), b1, b2, af. split; [done|]. subst. cbn. by rewrite app_assoc.
Qed.

Lemma map_split {A B} (f : A -> B) l1 y l2 l : map f l = l1 ++ y :: l2 -> exists k1 x k2, l = k1 ++ x :: k2 /\ l1 = map f k1 /\ y = f x.
Proof. intros (k1 & [|x k2] & -> & <- & [=])%map_eq_app. exists k1, x, k2. by subst. Qed.

Lemma NoDup_split_unique {A} (x : A) l1 l2 r1 r2 : NoDup (l1 ++ x :: r1) -> l1 ++ x :: r1 = l2 ++ x :: r2 -> l1 = l2.
Proof.
  revert l2. induction l1 as [|y l1 IH]; intros [|z l2] Hnd E0; cbn in *; simplify_eq; [done| | |].
  - apply NoDup_cons in Hnd as [Hn _]. set_solver.
  - apply NoDup_cons in Hnd as [Hn _]. set_solver.
  - f_equal. apply IH; [|done]. by apply NoDup_cons in Hnd as [_ ?].
Qed.

(** In a group, chunk [c + 1] of a microbatch comes after chunk [c]. *)
Lemma group_schedule_depends m n g lo l1 i c l2 : group_schedule m n g lo = l1 ++ (i, c + 1) :: l2 -> 0 <= c -> (i, c) ∈ l1.
Proof.
  unfold group_schedule. set (R := zrange lo _). intros Hl Hc.
  apply concat_split in Hl as (be & b1 & b2 & af & Hm & ->). apply map_split in Hm as (k1 & c' & k2 & Hz & -> & Hb).
  symmetry in Hb. apply map_split in Hb as (r1 & i' & r2 & Hr & -> & [= <- Hcc]).
  assert (Hin : c ∈ k1). { assert (Hc' : c' ∈ zrange 0 n) by (rewrite Hz; set_solver). apply elem_of_zrange in Hc'.
    rewrite (zrange_app 0 c' n), (zrange_cons c' n) in Hz by lia. subst c'.
    assert (Ek : k1 = zrange 0 (c + 1)); [|rewrite Ek; apply elem_of_zrange; lia].
    symmetry in Hz. eapply NoDup_split_unique; [|exact Hz]. rewrite Hz, <- (zrange_cons (c + 1) n), <- zrange_app by lia. apply NoDup_zrange. }
  apply elem_of_app. left. apply list_elem_of_In, in_concat. exists (map (fun j => (j, c)) R). split.
  - apply in_map_iff. exists c. split; [done|]. by apply list_elem_of_In.
  - apply in_map_iff. exists i. split; [done|]. rewrite Hr. apply in_app_iff. right. by left.
Qed.

(** The schedule table of the interleaved schedule: every model chunk gets every
    microbatch exactly once and in increasing order, no other chunk occurs, and a
    microbatch reaches chunk [c + 1] only after chunk [c] (C25). *)
Theorem schedule_table_spec m n g : 0 < g -> 0 <= m -> exists t, get_schedule_table m n g = Ok t /\
  (forall c, 0 <= c < n -> chunk_of c t = map (fun i => (i, c)) (zrange 0 m)) /\
  (forall i c, (i, c) ∈ t -> 0 <= c < n) /\
  (forall l1 i c l2, t = l1 ++ (i, c + 1) :: l2 -> 0 <= c -> (i, c) ∈ l1).
Proof.
  intros Hg Hm. unfold get_schedule_table, py_range. destruct (Z.eqb_spec g 0) as [|_]; [lia|]. destruct (Z.ltb_spec 0 g) as [_|]; [|lia].
  eexists. split; [reflexivity|]. rewrite map_map. split_and!.
  - intros c Hc. rewrite chunk_of_concat, map_map. erewrite map_ext; [|intros q; by apply group_schedule_chunk].
    rewrite <- (ranges_all g m Hg Hm), concat_map, map_map, Z.sub_0_r. f_equal. apply map_ext. intros q. do 2 f_equal; lia.
  - intros i c Hin%list_elem_of_In%in_concat. destruct Hin as (l & (q & <- & _)%in_map_iff & Hin). unfold group_schedule in Hin.
    apply in_concat in Hin as (l' & (c' & <- & Hc')%in_map_iff & (i' & [= <- <-] & _)%in_map_iff). by apply elem_of_zrange, list_elem_of_In.
  - intros l1 i c l2 Hl Hc. apply concat_split in Hl as (be & b1 & b2 & af & Hz & ->). apply map_split in Hz as (k1 & q & k2 & _ & -> & Hb).
    apply elem_of_app. right. symmetry in Hb. by eapply group_schedule_depends.
Qed.

Lemma schedule_table_spec_witness : exists t, get_schedule_table 5 2 3 = Ok t /\ chunk_of 1 t = [(0, 1); (1, 1); (2, 1); (3, 1); (4, 1)].
Proof. destruct (schedule_table_spec 5 2 3) as (t & Ht & Hc & _); [lia|lia|]. exists t. split; [exact Ht|]. rewrite Hc by lia. reflexivity. Defined.

(** ** The order for graph capturing *)

(** Pairs of a list and a shifted one. *)
Lemma interleave_filter (Q : Z -> Prop) `{forall x, Decision (Q x)} (fw bw : list Z) : length fw = length bw ->
  Forall Q fw -> Forall (fun x => ~ Q x) bw -> filter Q (concat (zip_with (fun f b => [f; b]) fw bw)) = fw.
Proof.
  intros Hl Hf. revert bw Hl. induction Hf as [|f fw Hx Hf IH]; intros [|b bw] Hl Hb; try done. inversion Hb; subst.
  cbn [zip_with concat app]. rewrite filter_cons_True, filter_cons_False by done. f_equal. apply IH; [|done]. by injection Hl.
Qed.
Lemma interleave_filter_not (Q : Z -> Prop) `{forall x, Decision (Q x)} (fw bw : list Z) : length fw = length bw ->
  Forall (fun x => ~ Q x) fw -> Forall Q bw -> filter Q (concat (zip_with (fun f b => [f; b]) fw bw)) = bw.
Proof.
  intros Hl Hf. revert bw Hl. induction Hf as [|f fw Hx Hf IH]; intros [|b bw] Hl Hb; try done. inversion Hb; subst.
  cbn [zip_with concat app]. rewrite filter_cons_False, filter_cons_True by done. f_equal. apply IH; [|done]. by injection Hl.
Qed.

Lemma order_body (fw bw : list Z) w : length fw = length bw -> 0 <= w ->
  mapR (fun i => f ← py_get fw i; b ← py_get bw (i - w); mret [f; b]) (zrange w (Z.of_nat (length fw))) =
  Ok (zip_with (fun f b => [f; b]) (drop (Z.to_nat w) fw) (take (length fw - Z.to_nat w) bw)).
Proof.
  intros Hl Hw. rewrite (mapR_total _ (fun i => [default 0 (fw !! Z.to_nat i); default 0 (bw !! Z.to_nat (i - w))])).
  - f_equal. apply list_eq. intros j. rewrite list_lookup_fmap, lookup_zip_with, lookup_drop.
    destruct (decide (j < length fw - Z.to_nat w)%nat) as [Hj|Hj].
    + rewrite lookup_zrange, lookup_take_lt by lia. cbn. replace (Z.to_nat (w + Z.of_nat j)) with (Z.to_nat w + j)%nat by lia.
      replace (Z.to_nat (w + Z.of_nat j - w)) with j by lia.
      destruct (lookup_lt_is_Some_2 fw (Z.to_nat w + j)) as [f Ef]; [lia|]. destruct (lookup_lt_is_Some_2 bw j) as [b Eb]; [lia|]. by rewrite Ef, Eb.
    + rewrite (lookup_ge_None_2 (zrange _ _)) by (pose proof (length_zrange w (Z.of_nat (length fw))); lia).
      rewrite (lookup_ge_None_2 fw) by lia. done.
  - intros i [H1 H2]%elem_of_zrange. destruct (lookup_lt_is_Some_2 fw (Z.to_nat i)) as [f Ef]; [lia|].
    destruct (lookup_lt_is_Some_2 bw (Z.to_nat (i - w))) as [b Eb]; [lia|]. rewrite Ef, Eb.
    replace (py_get fw i) with (Ok f) by (rewrite <- (py_get_nonneg fw (Z.to_nat i) f Ef); f_equal; lia).
    replace (py_get bw (i - w)) with (Ok b) by (rewrite <- (py_get_nonneg bw (Z.to_nat (i - w)) b Eb); f_equal; lia). done.
Qed.

(** The order for graph capturing: the positive entries are the forward passes of
    the table's chunks in the order of the table, the negative ones the backward
    passes of the chunks counted from the last one, none is lost, and the first
    entries are the warmup passes. *)
Theorem schedule_order_spec w n (t : list (Z * Z)) : t <> [] -> 0 <= w -> (forall i c, (i, c) ∈ t -> 0 <= c < n) ->
  exists order, convert_schedule_table_to_order w n t = Ok order /\
    filter (fun x => 0 < x) order = map (fun x => x.2 + 1) t /\
    filter (fun x => x < 0) order = map (fun x => x.2 - n) t /\
    length order = (2 * length t)%nat /\
    take (Z.to_nat w) (map (fun x => x.2 + 1) t) `prefix_of` order.
Proof.
  intros Hne Hw Hc. unfold convert_schedule_table_to_order. destruct t as [|x0 t0] eqn:Et; [done|]. rewrite <- Et in *. clear Et x0 t0.
  rewrite !map_map. set (fw := map (fun x => x.2 + 1) t). set (bw := map (fun x => x.2 - n) t).
  assert (Hl : length fw = length bw) by (unfold fw, bw; by rewrite !length_map).
  assert (Ff : Forall (fun x => 0 < x) fw). { apply Forall_forall. intros y ([i c] & <- & Hx)%list_elem_of_In%in_map_iff. cbn. apply list_elem_of_In, Hc in Hx. lia. }
  assert (Fb : Forall (fun x => x < 0) bw). { apply Forall_forall. intros y ([i c] & <- & Hx)%list_elem_of_In%in_map_iff. cbn. apply list_elem_of_In, Hc in Hx. lia. }
  rewrite order_body by done. cbn [mbind res_bind]. set (k := Z.to_nat w). set (d := (length fw - k)%nat).
  set (mid := concat (zip_with _ _ _)). eexists. split; [reflexivity|].
  assert (E0 : (if 0 <? w then (py_slice fw 0 w ++ mid) ++ drop (Z.to_nat (Z.of_nat (length fw) - w)) bw else py_slice fw 0 w ++ mid) = take k fw ++ mid ++ drop d bw).
  { unfold py_slice. rewrite Z.sub_0_r. change (drop (Z.to_nat 0) fw) with fw. destruct (Z.ltb_spec 0 w).
    - rewrite <- app_assoc. do 3 f_equal. unfold d, k. lia.
    - rewrite (drop_ge bw) by (unfold d, k; lia). by rewrite app_nil_r. }
  rewrite E0. assert (Hlen : length (drop k fw) = length (take d bw)) by (rewrite length_drop, length_take; unfold d; lia).
  split_and!.
  - rewrite !filter_app. unfold mid. rewrite interleave_filter; [|done|by apply Forall_drop|].
    2:{ eapply Forall_impl; [by apply Forall_take|]. cbn. lia. }
    rewrite filter_all by (by apply Forall_take). rewrite filter_none by (eapply Forall_impl; [by apply Forall_drop|]; cbn; lia).
    by rewrite app_nil_r, take_drop.
  - rewrite !filter_app. unfold mid. rewrite interleave_filter_not; [|done| |by apply Forall_take].
    2:{ eapply Forall_impl; [by apply Forall_drop|]. cbn. lia. }
    rewrite filter_none by (eapply Forall_impl; [by apply Forall_take|]; cbn; lia). rewrite (filter_all _ (drop d bw)) by (by apply Forall_drop).
    cbn. by rewrite take_drop.
  - rewrite !length_app. assert (Hm : length mid = (2 * length (drop k fw))%nat).
    { unfold mid. revert Hlen. generalize (drop k fw), (take d bw). induction l as [|f l IH]; intros [|b l'] Hx; try done. cbn. injection Hx as Hx. rewrite (IH _ Hx). lia. }
    rewrite Hm, length_take, !length_drop. assert (length fw = length t) by apply length_map. unfold d. lia.
  - by eexists.
Qed.

Lemma schedule_order_spec_witness : exists order,
  convert_schedule_table_to_order 5 2 [(0, 0); (1, 0); (2, 0); (0, 1); (1, 1); (2, 1); (3, 0); (4, 0); (3, 1); (4, 1)] = Ok order /\
  order = [1; 1; 1; 2; 2; 2; -2; 1; -2; 1; -2; 2; -1; 2; -1; -1; -2; -2; -1; -1].
Proof.
  destruct (schedule_order_spec 5 2 [(0, 0); (1, 0); (2, 0); (0, 1); (1, 1); (2, 1); (3, 0); (4, 0); (3, 1); (4, 1)]) as (o & Ho & _).
  - discriminate.
  - lia.
  - intros i c H. repeat (apply elem_of_cons in H as [[= -> ->]|H]; [lia|]). by apply elem_of_nil in H.
  - exists o. split; [exact Ho|]. vm_compute in Ho. by injection Ho as <-.
Defined.
