(* ===== verification/DistCkpt.v ===== *)
(** * Fully parallel saving and loading of distributed checkpoints

    [megatron/core/dist_checkpointing/]: sharded tensors ([mapping.py], [utils.py]), the distribution of shards over the
    ranks of a parallelization group and the exchange of loaded shards ([exchange_utils.py]), and the strategies that use
    them ([strategies/fully_parallel.py]).  Collectives are functions on the list of all ranks of the group. *)

From stdpp Require Import sorting.
From S2P Require Import Prelude.

(* ================================================================== *)
(** ** Sharded tensors                                                 *)
(* ================================================================== *)

(** [ReplicaId]: an integer or a tuple of integers. *)
Inductive replica_id := ReplicaInt (n : Z) | ReplicaTuple (l : list Z).

(** [is_main_replica] *)
Definition is_main_replica (r : replica_id) : bool :=
  match r with ReplicaInt n => n =? 0 | ReplicaTuple l => forallb (fun n => n =? 0) l end.

(** The fields of [ShardedTensor]; a dtype is given by its name, a flattened range by start and stop. *)
Record sharded_tensor := mkSharded {
  st_key : string;
  st_dtype : string;
  st_local_shape : list Z;
  st_global_shape : list Z;
  st_global_offset : list Z;
  st_axis_fragmentations : option (list Z);
  st_replica_id : replica_id;
  st_prepend_axis_num : nat;
  st_allow_shape_mismatch : bool;
  st_flattened_range : option (Z * Z)
}.
Definition set_replica_id (r : replica_id) (t : sharded_tensor) : sharded_tensor :=
  mkSharded (st_key t) (st_dtype t) (st_local_shape t) (st_global_shape t) (st_global_offset t) (st_axis_fragmentations t) r
    (st_prepend_axis_num t) (st_allow_shape_mismatch t) (st_flattened_range t).

(** [_sharded_tensor_shard_id] *)
Notation shard_id := (string * list Z * option (Z * Z))%type.
Definition sharded_tensor_shard_id (t : sharded_tensor) : shard_id := (st_key t, st_global_offset t, st_flattened_range t).

(* ================================================================== *)
(** ** Distribution of shards over ranks                               *)
(* ================================================================== *)

(** The sort key of a shard: whether it is loaded across groups, its coverage, its negative size and its id. *)
Notation sort_key := (Z * Z * Z * shard_id)%type.

(** Lexicographic order of tuples *)
Fixpoint compare_list (a b : list Z) : comparison :=
  match a, b with
  | [], [] => Eq
  | [], _ :: _ => Lt
  | _ :: _, [] => Gt
  | x :: a', y :: b' => match Z.compare x y with Eq => compare_list a' b' | c => c end
  end.
Definition then_compare (c d : comparison) : comparison := match c with Eq => d | _ => c end.
Definition compare_range (a b : option (Z * Z)) : comparison :=
  match a, b with
  | None, None => Eq
  | None, Some _ => Lt
  | Some _, None => Gt
  | Some (a1, a2), Some (b1, b2) => then_compare (Z.compare a1 b1) (Z.compare a2 b2)
  end.
Definition compare_id (a b : shard_id) : comparison :=
  let '(k1, o1, r1) := a in let '(k2, o2, r2) := b in
  then_compare (String.compare k1 k2) (then_compare (compare_list o1 o2) (compare_range r1 r2)).
Definition compare_key (a b : sort_key) : comparison :=
  let '(x1, y1, z1, i1) := a in let '(x2, y2, z2, i2) := b in
  then_compare (Z.compare x1 x2) (then_compare (Z.compare y1 y2) (then_compare (Z.compare z1 z2) (compare_id i1 i2))).

(** Two keys that agree until a flattened range is compared with [None]: [TypeError] in Python. *)
Definition incomparable (a b : sort_key) : bool :=
  let '(x1, y1, z1, (k1, o1, r1)) := a in let '(x2, y2, z2, (k2, o2, r2)) := b in
  bool_decide ((x1, y1, z1, k1, o1) = (x2, y2, z2, k2, o2)) && negb (Bool.eqb (is_none r1) (is_none r2)).

(** [sorted(shard_to_ranks.items(), key=...)]; the keys of different shards differ, so the order of the dictionary does not matter.  Two adjacent
    results have been compared, so incomparable keys raise whatever the sorting algorithm. *)
Definition key_le (a b : sort_key * list Z) : Prop := compare_key (fst a) (fst b) <> Gt.
#[export] Instance key_le_dec : RelDecision key_le.
Proof. intros a b. unfold key_le. solve_decision. Defined.

Definition sort_shards (shard_to_ranks : gmap shard_id (list Z)) (shard_to_size : gmap shard_id Z) (cross : gset shard_id) : res (list (shard_id * list Z)) :=
  keyed ← mapR (fun '(i, ranks) =>
    match shard_to_size !! i with
    | None => raise_ KeyError "shard_id"
    | Some size => mret ((Z.b2z (bool_decide (i ∈ cross)), Z.of_nat (length ranks), - size, i), ranks)
    end) (map_to_list shard_to_ranks);
  if existsb (fun a => existsb (fun b => incomparable (fst a) (fst b)) keyed) keyed
  then raise_ TypeError "'<' not supported between instances of 'tuple' and 'NoneType'"
  else mret (map (fun x => (snd (fst x), snd x)) (merge_sort key_le keyed)).

(** [min((size, rank) for size, rank in rank_sizes if rank in shard_ranks)] *)
Definition pair_min (a b : Z * Z) : Z * Z := if (fst b <? fst a) || ((fst b =? fst a) && (snd b <? snd a)) then b else a.
Definition least_occupied (rank_sizes : list (Z * Z)) (shard_ranks : list Z) : res (Z * Z) :=
  match filter (fun x => snd x ∈ shard_ranks) rank_sizes with
  | [] => raise_ ValueError "min() arg is an empty sequence"
  | x :: l => mret (fold_left pair_min l x)
  end.

(** The body of the loop: [rank_sizes[rank] = (size + shard_to_size[shard_id], rank)]. *)
Definition assign_shard (shard_to_size : gmap shard_id Z) (s : list (shard_id * Z) * list (Z * Z)) (x : shard_id * list Z) : res (list (shard_id * Z) * list (Z * Z)) :=
  let '(assigned, rank_sizes) := s in
  let '(i, shard_ranks) := x in
  '(size, rank) ← least_occupied rank_sizes shard_ranks;
  match shard_to_size !! i with
  | None => raise_ KeyError "shard_id"
  | Some n => mret (assigned ++ [(i, rank)], <[Z.to_nat rank := (size + n, rank)]> rank_sizes)
  end.

(** [distribute_shards_to_ranks]; the result is a dictionary in insertion order. *)
Definition distribute_shards_to_ranks (shard_to_ranks : gmap shard_id (list Z)) (shard_to_size : gmap shard_id Z) (num_ranks : Z)
    (cross_parallelization_group_loads : gset shard_id) : res (list (shard_id * Z)) :=
  sorted ← sort_shards shard_to_ranks shard_to_size cross_parallelization_group_loads;
  s ← foldR (assign_shard shard_to_size) ([], map (fun rank => (0, rank)) (zrange 0 num_ranks)) sorted;
  mret (fst s).

(** [ShardDistribution] *)
Record shard_distribution := mkDistribution {
  main_rank_for_shard : list (shard_id * Z);
  shards_in_this_group : gset shard_id;
  shard_to_metadata : gmap shard_id sharded_tensor;
  all_ranks_for_shard : gmap shard_id (list Z)
}.

Section Group.
(** [torch._utils._element_size] *)
Context (element_size : string -> Z).

(** [_shard_size] *)
Definition shard_size (t : sharded_tensor) : Z :=
  match st_flattened_range t with None => zprod (st_local_shape t) | Some (start, stop) => stop - start end * element_size (st_dtype t).

(** The dictionaries and sets that the loop over all shards fills. *)
Record gathered := mkGathered {
  ga_ranks : gmap shard_id (list Z);
  ga_size : gmap shard_id Z;
  ga_metadata : gmap shard_id sharded_tensor;
  ga_main : gset shard_id;
  ga_non_main : gset shard_id
}.
Definition gather_shard (rank : Z) (g : gathered) (t : sharded_tensor) : gathered :=
  let i := sharded_tensor_shard_id t in
  let main := is_main_replica (st_replica_id t) in
  mkGathered
    (<[i := default [] (ga_ranks g !! i) ++ [rank]]> (ga_ranks g))
    (if is_none (ga_size g !! i) then <[i := shard_size t]> (ga_size g) else ga_size g)
    (if is_none (ga_size g !! i) then <[i := t]> (ga_metadata g) else ga_metadata g)
    (if main then ga_main g ∪ {[i]} else ga_main g)
    (if main then ga_non_main g else ga_non_main g ∪ {[i]}).
Definition gather_shards (all_shards : list (list sharded_tensor)) : gathered :=
  fold_left (fun g '(rank, shards) => fold_left (gather_shard (Z.of_nat rank)) shards g) (imap pair all_shards) (mkGathered ∅ ∅ ∅ ∅ ∅).

(** [determine_main_replica_uniform_distribution] after [all_gather_object]: the same on all ranks of the group. *)
Definition determine_main_replica_uniform_distribution (all_shards : list (list sharded_tensor)) (ignore_groups : bool) : res (option shard_distribution) :=
  if Nat.leb (length all_shards) 1 then mret None
  else
    let g := gather_shards all_shards in
    let in_group := if ignore_groups then ga_main g ∪ ga_non_main g else ga_main g in
    let cross := in_group ∖ ga_main g in
    let ranks := filter (fun x => fst x ∈ in_group) (ga_ranks g) in
    main ← distribute_shards_to_ranks ranks (ga_size g) (Z.of_nat (length all_shards)) cross;
    mret (Some (mkDistribution main in_group (ga_metadata g) ranks)).

(** [d[k]] of a dictionary in insertion order *)
Fixpoint dict_get {A} (l : list (shard_id * A)) (i : shard_id) : option A :=
  match l with [] => None | (j, x) :: l' => if decide (i = j) then Some x else dict_get l' i end.

(** [distribute_main_replicas_with_precomputed_distribution] on the rank with number [rank]. *)
Definition distribute_main_replica (rank : Z) (d : shard_distribution) (t : sharded_tensor) : res sharded_tensor :=
  let i := sharded_tensor_shard_id t in
  if bool_decide (i ∈ shards_in_this_group d) then
    match dict_get (main_rank_for_shard d) i with
    | None => raise_ KeyError "main_rank_for_shard"
    | Some main => mret (set_replica_id (ReplicaInt (if rank =? main then 0 else 1)) t)
    end
  else mret (set_replica_id (ReplicaInt 1) t).
Definition distribute_main_replicas_with_precomputed_distribution (group_size : nat) (d : option shard_distribution) (rank : Z) (shards : list sharded_tensor) : res (list sharded_tensor) :=
  if Nat.leb group_size 1 then mret shards
  else match d with
       | None => raise_ ValueError "precomputed_distribution must be not None for non-trivial parallelization group"
       | Some d => mapR (distribute_main_replica rank d) shards
       end.

(** The distribution: the cached one when there is one and caching is on. *)
Definition precomputed_distribution (do_cache : bool) (cached : option shard_distribution) (all_shards : list (list sharded_tensor)) (ignore_groups : bool) : res (option shard_distribution) :=
  match do_cache, cached with
  | true, Some d => mret (Some d)
  | _, _ => determine_main_replica_uniform_distribution all_shards ignore_groups
  end.

(** [apply_saving_parallelization] ([ignore_groups] false, before the validation) and [apply_loading_parallelization] ([ignore_groups] true) on all
    ranks: the distribution, the shards with their new replica ids and the new [cached_distribution]. *)
Definition apply_parallelization (do_cache : bool) (cached : option shard_distribution) (ignore_groups : bool) (all_shards : list (list sharded_tensor))
    : res (option shard_distribution * list (list sharded_tensor) * option shard_distribution) :=
  d ← precomputed_distribution do_cache cached all_shards ignore_groups;
  shards ← mapR (fun '(rank, shards) => distribute_main_replicas_with_precomputed_distribution (length all_shards) d (Z.of_nat rank) shards) (imap pair all_shards);
  mret (d, shards, if do_cache then d else cached).
Definition apply_saving_parallelization (do_cache : bool) (cached : option shard_distribution) (all_shards : list (list sharded_tensor))
    : res (list (list sharded_tensor) * option shard_distribution) :=
  '(_, shards, cached) ← apply_parallelization do_cache cached false all_shards; mret (shards, cached).
Definition apply_loading_parallelization (do_cache : bool) (cached : option shard_distribution) (all_shards : list (list sharded_tensor))
    : res (option shard_distribution * list (list sharded_tensor) * option shard_distribution) :=
  apply_parallelization do_cache cached true all_shards.

(* ================================================================== *)
(** ** Exchange of loaded shards                                       *)
(* ================================================================== *)

Context {D : Type}.
(** The tensors that a rank has loaded, and the shards that it needs but has not loaded. *)
Notation tensors := (gmap shard_id D).
Record loader := mkLoader { lo_tensors : tensors; lo_unloaded : gmap shard_id sharded_tensor }.

(** [_defer_loading_sharded_items]: what is loaded by this rank and what by others. *)
Definition to_load_shards (shards : list sharded_tensor) : gmap shard_id sharded_tensor :=
  fold_left (fun m t => if is_main_replica (st_replica_id t) then <[sharded_tensor_shard_id t := t]> m else m) shards ∅.
Definition unloaded_shards (shards : list sharded_tensor) : gmap shard_id sharded_tensor :=
  fold_left (fun m t => if is_main_replica (st_replica_id t) then m else <[sharded_tensor_shard_id t := t]> m) shards ∅.

(** One tensor goes from its rank to all ranks; [_get_empty_tensor_for_exchange] keeps it where it is needed. *)
Definition receive (d : shard_distribution) (i : shard_id) (x : D) (l : loader) : res loader :=
  match lo_unloaded l !! i with
  | Some _ => mret (mkLoader (<[i := x]> (lo_tensors l)) (lo_unloaded l))
  | None => match shard_to_metadata d !! i with None => raise_ KeyError "unneeded_shards" | Some _ => mret l end
  end.
Definition send_tensor (d : shard_distribution) (i : shard_id) (main : Z) (ls : list loader) : res (list loader) :=
  source ← py_get ls main;
  match lo_tensors source !! i with
  | None => raise_ AssertionError "shard_id in all_loaded_tensors"
  | Some x => mapR (fun '(rank, l) => if Z.of_nat rank =? main then mret l else receive d i x l) (imap pair ls)
  end.

(** A shard that only one rank has is not exchanged. *)
Definition single_rank (d : shard_distribution) (i : shard_id) (main : Z) : res bool :=
  match all_ranks_for_shard d !! i with
  | None => raise_ KeyError "all_ranks_for_shard"
  | Some [r] => assert_ (r =? main) "When there is only 1 ranks that needs a given shard, it should be the loading rank." ;; mret true
  | Some _ => mret false
  end.

(** [exchange_loaded_tensors_broadcast] on all ranks *)
Definition exchange_loaded_tensors_broadcast (d : shard_distribution) (ls : list loader) : res (list loader) :=
  foldR (fun ls '(i, main) => skip ← single_rank d i main; if skip : bool then mret ls else send_tensor d i main ls) ls (main_rank_for_shard d).

(** [exchange_loaded_tensors_gather_object] on all ranks: [{**x, **y}] of all dictionaries, whose keys must not overlap. *)
Definition merge_all (ds : list tensors) : tensors := fold_left (fun x y => y ∪ x) ds ∅.
Definition exchange_gather_object (ls : list loader) : res (list loader) :=
  let all_loaded := merge_all (map lo_tensors ls) in
  if Nat.eqb (size all_loaded) (foldr Nat.add 0%nat (map (fun l => size (lo_tensors l)) ls))
  then mret (map (fun l => mkLoader all_loaded (lo_unloaded l)) ls)
  else raise_ Exception_ "CheckpointingException: Duplicate shard ids loaded by different ranks".

(** [exchange_loaded_tensors_gather_rounds]: for every dtype the shards by rank, transposed to rounds. *)
Definition string_le (a b : string) : Prop := String.compare a b <> Gt.
#[export] Instance string_le_dec : RelDecision string_le.
Proof. intros a b. unfold string_le. solve_decision. Defined.
Definition dtypes (d : shard_distribution) : list string :=
  merge_sort string_le (remove_dups (map (fun x => st_dtype (snd x)) (map_to_list (shard_to_metadata d)))).

Definition shards_by_rank (d : shard_distribution) (group_size : nat) (dtype : string) : res (list (list shard_id)) :=
  foldR (fun by_rank '(i, main) =>
    skip ← single_rank d i main;
    if skip : bool then mret by_rank
    else match shard_to_metadata d !! i with
         | None => raise_ KeyError "shard_to_metadata"
         | Some t => if bool_decide (st_dtype t = dtype) then l ← py_get by_rank main; mret (<[Z.to_nat main := l ++ [i]]> by_rank) else mret by_rank
         end) (replicate group_size []) (main_rank_for_shard d).

(** [zip_longest] of the lists of the ranks; in a round every rank sends at most one shard. *)
Definition rounds (by_rank : list (list shard_id)) : list (list (Z * shard_id)) :=
  map (fun k => omap (fun '(rank, l) => (fun i => (Z.of_nat rank, i)) <$> (l : list shard_id) !! k) (imap pair by_rank)) (seq 0 (max_list (map length by_rank))).

Definition exchange_loaded_tensors_gather_rounds (d : shard_distribution) (ls : list loader) : res (list loader) :=
  foldR (fun ls dtype =>
    by_rank ← shards_by_rank d (length ls) dtype;
    foldR (fun ls round => foldR (fun ls '(main, i) => send_tensor d i main ls) ls round) ls (rounds by_rank)) ls (dtypes d).

(** [exchange_by_distribution] *)
Definition exchange_by_distribution (exchange_algo : string) (d : option shard_distribution) (ls : list loader) : res (list loader) :=
  match d with
  | None => raise_ AssertionError "Expecting distribution to perform exchange"
  | Some d =>
      if bool_decide (exchange_algo = "gather_object") then exchange_gather_object ls
      else if bool_decide (exchange_algo = "gather_rounds") then exchange_loaded_tensors_gather_rounds d ls
      else if bool_decide (exchange_algo = "broadcast") then exchange_loaded_tensors_broadcast d ls
      else raise_ Exception_ "NotImplementedError: Unrecognized gather algorithm"
  end.

(** *** The load strategy *)

(** The base strategy: what it reads for a shard, or that it raises. *)
Context (read : sharded_tensor -> res D).

(** [self.base_strategy.load(to_load_shards, checkpoint_dir)] *)
Definition base_load (shards : gmap shard_id sharded_tensor) : res tensors :=
  l ← mapR (fun '(i, t) => x ← read t; mret (i, x)) (map_to_list shards); mret (list_to_map l).

(** [_fill_in_deferred_sharded_items]: the shards of the state dict become tensors. *)
Definition fill_in (loaded : tensors) (shards : list sharded_tensor) : res (list D) :=
  mapR (fun t => match loaded !! sharded_tensor_shard_id t with Some x => mret x | None => raise_ Exception_ "CheckpointingException: Missing loaded item shard" end) shards.

(** [FullyParallelLoadStrategyWrapper.load] on all ranks, the part for tensors. *)
Definition fully_parallel_load (exchange_algo : string) (do_cache : bool) (cached : option shard_distribution) (all_shards : list (list sharded_tensor))
    : res (list (list D) * option shard_distribution) :=
  if Nat.leb (length all_shards) 1 then l ← mapR (mapR read) all_shards; mret (l, cached)
  else
    '(d, all_shards, cached) ← apply_loading_parallelization do_cache cached all_shards;
    ls ← mapR (fun shards => loaded ← base_load (to_load_shards shards); mret (mkLoader loaded (unloaded_shards shards))) all_shards;
    ls ← exchange_by_distribution exchange_algo d ls;
    l ← mapR (fun '(l, shards) =>
      if bool_decide (dom (lo_unloaded l) ⊆ dom (lo_tensors l)) then fill_in (lo_tensors l) shards
      else raise_ Exception_ "CheckpointingException: Missing shards after fully parallel loading") (zip ls all_shards);
    mret (l, cached).
End Group.
