(* ===== verification/DistCkptProofs.v ===== *)
(** * The distribution of shards over the ranks of a group

    What the dictionaries gathered from all ranks hold, what the greedy assignment promises, and the distributions that
    fit the shards of a group. *)

From stdpp Require Import sorting.
From S2P Require Import Prelude DistCkpt.

(* ================================================================== *)
(** ** The gathered shards                                             *)
(* ================================================================== *)

(** Every shard with the rank that holds it *)
Definition tagged (all_shards : list (list sharded_tensor)) : list (Z * sharded_tensor) :=
  concat (map (fun '(rank, shards) => map (pair (Z.of_nat rank)) shards) (imap pair all_shards)).
(** The holders of one shard id *)
Definition holders (l : list (Z * sharded_tensor)) (i : shard_id) : list (Z * sharded_tensor) :=
  filter (fun x => sharded_tensor_shard_id (snd x) = i) l.

Lemma elem_of_tagged all_shards k t :
  (k, t) ∈ tagged all_shards <-> exists (r : nat) shards, all_shards !! r = Some shards /\ k = Z.of_nat r /\ t ∈ shards.
Proof.
  unfold tagged. rewrite list_elem_of_In, in_concat. setoid_rewrite <- list_elem_of_In. split.
  - intros (l & Hl & Hk). apply list_elem_of_fmap in Hl as ([r ts] & -> & Hr). apply elem_of_lookup_imap in Hr as (? & ? & [= -> ->] & Hr).
    apply list_elem_of_fmap in Hk as (u & [= -> ->] & Hu). eauto.
  - intros (r & ts & Hr & -> & Ht). exists (map (pair (Z.of_nat r)) ts). split; [|by apply list_elem_of_fmap_2].
    apply list_elem_of_fmap. exists (r, ts). split; [done|]. apply elem_of_lookup_imap. eauto.
Qed.
Lemma elem_of_holders l i k t : (k, t) ∈ holders l i <-> sharded_tensor_shard_id t = i /\ (k, t) ∈ l.
Proof. unfold holders. by rewrite list_elem_of_filter. Qed.
Lemma holders_snoc l k t i :
  holders (l ++ [(k, t)]) i = holders l i ++ (if decide (sharded_tensor_shard_id t = i) then [(k, t)] else []).
Proof. unfold holders. rewrite filter_app. by rewrite filter_cons. Qed.

Lemma some_holder_snoc l k t i (b : bool) :
  (exists k' t', (k', t') ∈ holders (l ++ [(k, t)]) i /\ is_main_replica (st_replica_id t') = b) <->
  (exists k' t', (k', t') ∈ holders l i /\ is_main_replica (st_replica_id t') = b) \/ (sharded_tensor_shard_id t = i /\ is_main_replica (st_replica_id t) = b).
Proof.
  rewrite holders_snoc. split.
  - intros (k' & t' & [Hl|Hl]%elem_of_app & Hb); [left; eauto|right]. destruct (decide _) as [E|]; [|by apply elem_of_nil in Hl].
    apply list_elem_of_singleton in Hl as [= -> ->]. done.
  - intros [(k' & t' & Hl & Hb)|[<- Hb]]; [exists k', t'; split; [apply elem_of_app; by left|done]|].
    exists k, t. split; [apply elem_of_app; right|done]. rewrite decide_True by done. by apply list_elem_of_singleton.
Qed.

Section Gather.
Context (element_size : string -> Z).
Notation gather_shards := (gather_shards element_size).
Notation gather_shard := (gather_shard element_size).

Definition gather_tagged (l : list (Z * sharded_tensor)) : gathered :=
  fold_left (fun g '(rank, t) => gather_shard rank g t) l (mkGathered ∅ ∅ ∅ ∅ ∅).
Lemma gather_flat all_shards : gather_shards all_shards = gather_tagged (tagged all_shards).
Proof.
  unfold gather_shards, gather_tagged, tagged. generalize (mkGathered ∅ ∅ ∅ ∅ ∅).
  induction (imap pair all_shards) as [|[r ts] l IH]; intros g; cbn; [done|]. rewrite fold_left_app, IH. f_equal.
  revert g. induction ts as [|t ts IHt]; intros g; cbn; [done|]. by rewrite IHt.
Qed.

(** What the gathered dictionaries hold *)
Record gathers (l : list (Z * sharded_tensor)) (g : gathered) : Prop := mkGathers {
  gs_ranks i : ga_ranks g !! i = match holders l i with [] => None | h => Some (map fst h) end;
  gs_size i : ga_size g !! i = shard_size element_size ∘ snd <$> head (holders l i);
  gs_metadata i : ga_metadata g !! i = snd <$> head (holders l i);
  gs_main i : i ∈ ga_main g <-> exists k t, (k, t) ∈ holders l i /\ is_main_replica (st_replica_id t) = true;
  gs_non_main i : i ∈ ga_non_main g <-> exists k t, (k, t) ∈ holders l i /\ is_main_replica (st_replica_id t) = false
}.

Lemma gather_shard_spec l g k t : gathers l g -> gathers (l ++ [(k, t)]) (gather_shard k g t).
Proof.
  intros [Hr Hs Hm Hmain Hnon].
  split; intros i; cbn; rewrite ?some_holder_snoc, ?holders_snoc; remember (sharded_tensor_shard_id t) as j eqn:Hj.
  - destruct (decide (j = i)) as [E|E]; [subst i|rewrite lookup_insert_ne by done; rewrite app_nil_r; apply Hr].
    rewrite lookup_insert_eq, Hr. destruct (holders l j) as [|h hs]; cbn; [done|]. by rewrite map_app.
  - destruct (decide (j = i)) as [E|E]; [subst i|rewrite app_nil_r]; rewrite (Hs j); destruct (holders l j) as [|h hs] eqn:Ej; cbn.
    + by rewrite lookup_insert_eq.
    + by rewrite Hs, Ej.
    + rewrite lookup_insert_ne by done. apply Hs.
    + apply Hs.
  - destruct (decide (j = i)) as [E|E]; [subst i|rewrite app_nil_r]; rewrite (Hs j); destruct (holders l j) as [|h hs] eqn:Ej; cbn.
    + by rewrite lookup_insert_eq.
    + by rewrite Hm, Ej.
    + rewrite lookup_insert_ne by done. apply Hm.
    + apply Hm.
  - rewrite <- Hmain. destruct (is_main_replica (st_replica_id t)); set_solver.
  - rewrite <- Hnon. destruct (is_main_replica (st_replica_id t)); set_solver.
Qed.
Lemma gather_shards_spec all_shards : gathers (tagged all_shards) (gather_shards all_shards).
Proof.
  rewrite gather_flat. unfold gather_tagged. induction (tagged all_shards) as [|[k t] l IH] using rev_ind.
  - split; intros i; cbn; rewrite ?lookup_empty; try done; split; [set_solver|intros (? & ? & []%elem_of_nil & _)|set_solver|intros (? & ? & []%elem_of_nil & _)].
  - rewrite fold_left_app. by apply gather_shard_spec.
Qed.
End Gather.

(* ================================================================== *)
(** ** The greedy assignment                                           *)
(* ================================================================== *)

Lemma pair_min_spec a b : (pair_min a b = a \/ pair_min a b = b) /\ fst (pair_min a b) <= fst a /\ fst (pair_min a b) <= fst b.
Proof.
  unfold pair_min. destruct ((fst b <? fst a) || ((fst b =? fst a) && (snd b <? snd a))) eqn:E; split; auto; split; try lia.
Qed.
Lemma fold_pair_min l x : fold_left pair_min l x ∈ x :: l /\ forall y, y ∈ x :: l -> fst (fold_left pair_min l x) <= fst y.
Proof.
  revert x. induction l as [|z l IH]; intros x; cbn.
  - split; [left|]. intros y ->%list_elem_of_singleton. lia.
  - destruct (IH (pair_min x z)) as [Hin Hle]. pose proof (pair_min_spec x z) as (Hxz & Hx & Hz). split.
    + apply elem_of_cons in Hin as [Hin|Hin]; [rewrite Hin; destruct Hxz as [->| ->]; set_solver|set_solver].
    + pose proof (Hle (pair_min x z) ltac:(left)) as H0. intros y [->|[->|Hy]%elem_of_cons]%elem_of_cons; [lia|lia|]. apply Hle. by right.
Qed.

Section Greedy.
Context (sz : gmap shard_id Z) (n : Z).
Notation size_of i := (default 0 (sz !! i)).

(** The total size of the shards that a rank has been assigned *)
Definition load (assigned : list (shard_id * Z)) (r : Z) : Z := zsum (map (fun '(i, k) => if k =? r then size_of i else 0) assigned).
#[local] Arguments load : simpl never.
Definition acceptable (x : shard_id * list Z) : Prop := is_Some (sz !! fst x) /\ snd x <> [] /\ forall r, r ∈ snd x -> 0 <= r < n.

(** A rank that has shards has one without which it would carry no more than any other holder of that shard. *)
Definition balanced (ranks_of : list (shard_id * list Z)) (assigned : list (shard_id * Z)) : Prop :=
  forall r i0, (i0, r) ∈ assigned -> exists i ranks, (i, r) ∈ assigned /\ (i, ranks) ∈ ranks_of /\
    forall r', r' ∈ ranks -> load assigned r - size_of i <= load assigned r'.
Record assignment (done : list (shard_id * list Z)) (s : list (shard_id * Z) * list (Z * Z)) : Prop := mkAssignment {
  as_ids : map fst (fst s) = map fst done;
  as_holders i r : (i, r) ∈ fst s -> exists ranks, (i, ranks) ∈ done /\ r ∈ ranks;
  as_sizes : snd s = map (fun r => (load (fst s) r, r)) (zrange 0 n);
  as_balanced : balanced done (fst s)
}.

Lemma load_snoc assigned i k r : load (assigned ++ [(i, k)]) r = load assigned r + (if k =? r then size_of i else 0).
Proof. unfold load. rewrite map_app, zsum_app. cbn. lia. Qed.

Lemma least_occupied_spec assigned ranks : ranks <> [] -> (forall r, r ∈ ranks -> 0 <= r < n) ->
  exists r, least_occupied (map (fun r => (load assigned r, r)) (zrange 0 n)) ranks = Ok (load assigned r, r) /\ r ∈ ranks /\
    forall r', r' ∈ ranks -> load assigned r <= load assigned r'.
Proof.
  intros Hne Hr. unfold least_occupied.
  assert (Hin : forall x, x ∈ filter (fun x => snd x ∈ ranks) (map (fun r => (load assigned r, r)) (zrange 0 n)) <->
      exists r, x = (load assigned r, r) /\ r ∈ ranks).
  { intros x. rewrite list_elem_of_filter, list_elem_of_fmap. split; [intros (Hx & r & -> & _); eauto|].
    intros (r & -> & Hrr). split; [done|]. exists r. split; [done|]. apply elem_of_zrange. by apply Hr. }
  destruct (filter _ _) as [|x l] eqn:E.
  - destruct ranks as [|r ranks]; [done|]. exfalso. apply (elem_of_nil (load assigned r, r)). apply Hin. exists r. split; [done|left].
  - pose proof (fold_pair_min l x) as [Hmin Hle]. apply Hin in Hmin as (r & Er & Hrr). rewrite Er. exists r. split; [done|]. split; [done|].
    intros r' Hr'. pose proof (Hle (load assigned r', r') ltac:(apply Hin; eauto)) as Hle'. rewrite Er in Hle'. exact Hle'.
Qed.

Lemma assign_shard_spec (Hsz : forall i m, sz !! i = Some m -> 0 <= m) done s x :
  assignment done s -> acceptable x -> exists s', assign_shard sz s x = Ok s' /\ assignment (done ++ [x]) s'.
Proof.
  intros [Hids Hhold Hsizes Hbal] ([m Hm] & Hne & Hin). destruct s as [assigned rs], x as [i ranks]. cbn in *. subst rs.
  destruct (least_occupied_spec assigned ranks Hne Hin) as (r & -> & Hr & Hmin). cbn. rewrite Hm. eexists. split; [done|].
  assert (Hmono : forall k, load assigned k <= load (assigned ++ [(i, r)]) k).
  { intros k. rewrite load_snoc, Hm. pose proof (Hsz i m Hm). cbn. destruct (r =? k); lia. }
  split; cbn.
  - rewrite !map_app. cbn. by rewrite Hids.
  - intros j k [Hj|[= -> ->]%list_elem_of_singleton]%elem_of_app; [destruct (Hhold j k Hj) as (rk & ? & ?); exists rk; set_solver|exists ranks; set_solver].
  - apply list_eq. intros k. specialize (Hin r Hr). destruct (decide (k = Z.to_nat r)) as [->|Hk].
    + rewrite list_lookup_insert_eq by (rewrite length_map; pose proof (length_zrange 0 n); lia). rewrite list_lookup_fmap, lookup_zrange by lia. cbn.
      rewrite load_snoc, Hm. replace (0 + Z.of_nat (Z.to_nat r)) with r by lia. rewrite Z.eqb_refl. done.
    + rewrite list_lookup_insert_ne by done. rewrite !list_lookup_fmap. destruct (zrange 0 n !! k) as [z|] eqn:Ez; cbn; [|done].
      pose proof (lookup_lt_Some _ _ _ Ez) as Hl. pose proof (length_zrange 0 n) as Hz. rewrite lookup_zrange in Ez by lia. injection Ez as <-.
      rewrite load_snoc. destruct (r =? 0 + Z.of_nat k) eqn:E; [lia|]. by rewrite Z.add_0_r.
  - intros k i0 Hk. destruct (decide (k = r)) as [->|Hkr].
    + exists i, ranks. split; [set_solver|]. split; [set_solver|]. intros r' Hr'. rewrite load_snoc, Z.eqb_refl, Hm. cbn.
      specialize (Hmin r' Hr'). specialize (Hmono r'). lia.
    + apply elem_of_app in Hk as [Hk|[= _ ->]%list_elem_of_singleton]; [|done]. destruct (Hbal k i0 Hk) as (j & rk & Hj & Hjd & Hle).
      exists j, rk. split; [set_solver|]. split; [set_solver|]. intros r' Hr'. rewrite load_snoc. destruct (r =? k) eqn:E; [lia|].
      specialize (Hle r' Hr'). specialize (Hmono r'). lia.
Qed.
End Greedy.

(** Shards of one key at one offset are either all flattened or all not. *)
Definition same_flattening (i j : shard_id) : Prop := fst i = fst j -> is_none (snd i) = is_none (snd j).

Lemma sort_shards_spec shard_to_ranks sz cross :
  (forall i ranks, shard_to_ranks !! i = Some ranks -> is_Some (sz !! i)) ->
  (forall i j ri rj, shard_to_ranks !! i = Some ri -> shard_to_ranks !! j = Some rj -> same_flattening i j) ->
  exists l, sort_shards shard_to_ranks sz cross = Ok l /\ l ≡ₚ map_to_list shard_to_ranks.
Proof.
  intros Hsz Hflat. unfold sort_shards.
  set (key := fun x : shard_id * list Z => ((Z.b2z (bool_decide (fst x ∈ cross)), Z.of_nat (length (snd x)), - default 0 (sz !! fst x), fst x), snd x)).
  rewrite (mapR_total _ key); cycle 1.
  { intros [i ranks] Hi%elem_of_map_to_list. destruct (Hsz i ranks Hi) as [m Hm]. unfold key. cbn [fst snd]. by rewrite Hm. }
  cbn [mbind res_bind].
  destruct (existsb _ (map key (map_to_list shard_to_ranks))) eqn:E.
  - exfalso. apply existsb_exists in E as (a & Ha & E). apply existsb_exists in E as (b & Hb & E).
    apply list_elem_of_In, list_elem_of_fmap in Ha as ([i ri] & -> & Hi%elem_of_map_to_list).
    apply list_elem_of_In, list_elem_of_fmap in Hb as ([j rj] & -> & Hj%elem_of_map_to_list).
    specialize (Hflat i j ri rj Hi Hj). destruct i as [[ki oi] fi], j as [[kj oj] fj]. unfold incomparable, key in E. cbn in E.
    apply andb_true_iff in E as [E1%bool_decide_eq_true E2]. injection E1 as _ _ _ -> ->. unfold same_flattening in Hflat. cbn in Hflat.
    rewrite (Hflat eq_refl), eqb_reflx in E2. done.
  - eexists. split; [done|]. rewrite merge_sort_Permutation, map_map. unfold key. cbn.
    rewrite (map_ext _ id) by (by intros []). by rewrite map_id.
Qed.

(** What [distribute_shards_to_ranks] promises: every shard gets one rank, which holds it, and no rank has more than it needs to. *)
Lemma distribute_spec shard_to_ranks sz n cross :
  (forall i m, sz !! i = Some m -> 0 <= m) ->
  (forall i ranks, shard_to_ranks !! i = Some ranks -> acceptable sz n (i, ranks)) ->
  (forall i j ri rj, shard_to_ranks !! i = Some ri -> shard_to_ranks !! j = Some rj -> same_flattening i j) ->
  exists main, distribute_shards_to_ranks shard_to_ranks sz n cross = Ok main /\ NoDup (map fst main) /\
    (forall i, i ∈ map fst main <-> is_Some (shard_to_ranks !! i)) /\
    (forall i r, (i, r) ∈ main -> exists ranks, shard_to_ranks !! i = Some ranks /\ r ∈ ranks) /\
    balanced sz (map_to_list shard_to_ranks) main.
Proof.
  intros Hsz Hacc Hflat. unfold distribute_shards_to_ranks.
  destruct (sort_shards_spec shard_to_ranks sz cross) as (l & -> & Hl); [|done|].
  { intros i ranks Hi. by destruct (Hacc i ranks Hi). }
  cbn [mbind res_bind].
  destruct (foldR_total (assign_shard sz) (assignment sz n) ([], map (fun rank => (0, rank)) (zrange 0 n)) l) as (s & -> & Hs).
  - split; cbn; [done|set_solver|by apply map_ext|]. intros r i0 []%elem_of_nil.
  - intros d x rest s -> Hd. apply assign_shard_spec; [done|done|]. destruct x as [i ranks]. apply Hacc.
    apply elem_of_map_to_list. rewrite <- Hl. set_solver.
  - destruct Hs as [Hids Hhold _ Hbal]. exists (fst s). split; [done|]. rewrite Hids. split; [|split; [|split]].
    + rewrite Hl. apply NoDup_fst_map_to_list.
    + intros i. rewrite Hl, list_elem_of_fmap. split; [intros ([j ranks] & -> & Hj%elem_of_map_to_list); eauto|].
      intros [ranks Hi]. exists (i, ranks). by rewrite elem_of_map_to_list.
    + intros i r Hi. destruct (Hhold i r Hi) as (ranks & Hr & Hin). exists ranks. split; [|done]. apply elem_of_map_to_list. by rewrite <- Hl.
    + intros r i0 Hr. destruct (Hbal r i0 Hr) as (i & ranks & Hi & Hd & Hle). exists i, ranks. rewrite <- Hl. done.
Qed.

Lemma dict_get_spec {A} (l : list (shard_id * A)) i x : NoDup (map fst l) -> dict_get l i = Some x <-> (i, x) ∈ l.
Proof.
  induction l as [|[j y] l IH]; cbn; [intros _; split; [done|intros []%elem_of_nil]|]. intros [Hj Hl]%NoDup_cons.
  destruct (decide (i = j)) as [->|Hij].
  - split; [intros [= ->]; left|]. intros [[= ->]|Hx]%elem_of_cons; [done|]. exfalso. apply Hj. apply list_elem_of_fmap. by exists (j, x).
  - rewrite IH by done. split; [by right|]. intros [[= -> _]|Hx]%elem_of_cons; done.
Qed.

(* ================================================================== *)
(** ** Distributions that fit the shards of a group                    *)
(* ================================================================== *)

(** [k] holds a shard with id [i]. *)
Definition holds (all_shards : list (list sharded_tensor)) (k : Z) (i : shard_id) : Prop :=
  exists t, (k, t) ∈ tagged all_shards /\ sharded_tensor_shard_id t = i.
(** Some rank of the group has the main replica of [i]. *)
Definition has_main (all_shards : list (list sharded_tensor)) (i : shard_id) : Prop :=
  exists k t, (k, t) ∈ tagged all_shards /\ sharded_tensor_shard_id t = i /\ is_main_replica (st_replica_id t) = true.
Definition held (all_shards : list (list sharded_tensor)) (i : shard_id) : Prop := exists k, holds all_shards k i.

Record fits (all_shards : list (list sharded_tensor)) (d : shard_distribution) : Prop := mkFits {
  ft_nodup : NoDup (map fst (main_rank_for_shard d));
  ft_main i : i ∈ map fst (main_rank_for_shard d) <-> i ∈ shards_in_this_group d;
  ft_held i : i ∈ shards_in_this_group d -> held all_shards i;
  ft_holds i k : (i, k) ∈ main_rank_for_shard d -> holds all_shards k i;
  ft_ranks i : i ∈ shards_in_this_group d -> all_ranks_for_shard d !! i = Some (map fst (holders (tagged all_shards) i));
  ft_metadata i : is_Some (shard_to_metadata d !! i) <-> held all_shards i
}.

Lemma elem_of_tagged_in all_shards k t : (k, t) ∈ tagged all_shards -> t ∈ concat all_shards.
Proof.
  intros (r & ts & Hr & _ & Ht)%elem_of_tagged. apply list_elem_of_In, in_concat. exists ts. rewrite <- !list_elem_of_In. split; [|done].
  by apply list_elem_of_lookup_2 in Hr.
Qed.
Lemma tagged_range all_shards k t : (k, t) ∈ tagged all_shards -> 0 <= k < Z.of_nat (length all_shards).
Proof. intros (r & ts & Hr%lookup_lt_Some & -> & _)%elem_of_tagged. lia. Qed.
Lemma holds_range all_shards k i : holds all_shards k i -> 0 <= k < Z.of_nat (length all_shards).
Proof. intros (t & Ht%tagged_range & _). done. Qed.

Lemma elem_of_all_holders all_shards i k t : (k, t) ∈ holders (tagged all_shards) i <-> (k, t) ∈ tagged all_shards /\ sharded_tensor_shard_id t = i.
Proof. rewrite elem_of_holders. tauto. Qed.
Lemma held_pick all_shards i : held all_shards i -> exists k t h, holders (tagged all_shards) i = (k, t) :: h /\ (k, t) ∈ tagged all_shards /\ sharded_tensor_shard_id t = i.
Proof.
  intros (k & t & Ht). apply elem_of_all_holders in Ht. destruct (holders _ i) as [|[k' t'] h] eqn:E; [by apply elem_of_nil in Ht|].
  exists k', t', h. split; [done|]. apply elem_of_all_holders. rewrite E. left.
Qed.
Lemma elem_of_holder_ranks all_shards i r : r ∈ map fst (holders (tagged all_shards) i) <-> holds all_shards r i.
Proof.
  rewrite list_elem_of_fmap. split; [intros ([k t] & -> & Ht%elem_of_all_holders); by exists t|].
  intros (t & Ht). exists (r, t). by rewrite elem_of_all_holders.
Qed.

Section Fits.
Context (element_size : string -> Z).
Notation determine := (determine_main_replica_uniform_distribution element_size).

(** Sizes are not negative and the ids can be sorted. *)
Record well_formed (all_shards : list (list sharded_tensor)) : Prop := mkWellFormed {
  wf_size t : t ∈ concat all_shards -> 0 <= shard_size element_size t;
  wf_flat t u : t ∈ concat all_shards -> u ∈ concat all_shards -> same_flattening (sharded_tensor_shard_id t) (sharded_tensor_shard_id u)
}.

(** The bytes that a rank saves or loads *)
Definition bytes_of (d : shard_distribution) (i : shard_id) : Z := default 0 (shard_size element_size <$> shard_to_metadata d !! i).
Definition rank_bytes (d : shard_distribution) (r : Z) : Z := zsum (map (fun '(i, k) => if k =? r then bytes_of d i else 0) (main_rank_for_shard d)).

Section Determine.
Context (all_shards : list (list sharded_tensor)) (ignore : bool).
Notation g := (gather_shards element_size all_shards).
Notation in_group := (if ignore then ga_main g ∪ ga_non_main g else ga_main g).
Notation group_ranks := (filter (fun x : shard_id * list Z => fst x ∈ in_group) (ga_ranks g)).

Lemma elem_of_in_group i : i ∈ in_group <-> if ignore then held all_shards i else has_main all_shards i.
Proof.
  destruct (gather_shards_spec element_size all_shards) as [_ _ _ Hmain Hnon]. unfold held, has_main, holds.
  destruct ignore; rewrite ?elem_of_union, Hmain, ?Hnon; setoid_rewrite elem_of_all_holders.
  - split; [intros [(k & t & [] & _)|(k & t & [] & _)]; eauto|]. intros (k & t & Ht & Hi).
    destruct (is_main_replica (st_replica_id t)) eqn:E; [left|right]; exists k, t; done.
  - split; [intros (k & t & [] & ?); eauto|intros (k & t & ? & ? & ?); eauto].
Qed.
Lemma in_group_held i : i ∈ in_group -> held all_shards i.
Proof. intros Hi%elem_of_in_group. destruct ignore; [done|]. destruct Hi as (k & t & Ht & Hi & _). exists k, t. done. Qed.
Lemma lookup_group_ranks i ranks : group_ranks !! i = Some ranks <-> i ∈ in_group /\ ranks = map fst (holders (tagged all_shards) i).
Proof.
  destruct (gather_shards_spec element_size all_shards) as [Hr _ _ _ _]. rewrite map_lookup_filter_Some, Hr. cbn [fst]. split.
  - intros [Hi Hg]. split; [done|]. destruct (holders _ i); [done|by injection Hi].
  - intros [Hg ->]. split; [|done]. by destruct (held_pick _ i (in_group_held i Hg)) as (k & t & h & -> & _).
Qed.
Lemma distribute_group (Hwf : well_formed all_shards) cross :
  exists main, distribute_shards_to_ranks group_ranks (ga_size g) (Z.of_nat (length all_shards)) cross = Ok main /\ NoDup (map fst main) /\
    (forall i, i ∈ map fst main <-> is_Some (group_ranks !! i)) /\
    (forall i r, (i, r) ∈ main -> exists ranks, group_ranks !! i = Some ranks /\ r ∈ ranks) /\
    balanced (ga_size g) (map_to_list group_ranks) main.
Proof.
  destruct Hwf as [Hwsz Hwflat]. destruct (gather_shards_spec element_size all_shards) as [_ Hs _ _ _]. apply distribute_spec.
  - intros i m. rewrite Hs. destruct (holders (tagged all_shards) i) as [|[k t] h] eqn:E; [done|]. intros [= <-]. apply Hwsz, (elem_of_tagged_in _ k).
    apply (elem_of_all_holders _ i). rewrite E. left.
  - intros i ranks [Hi ->]%lookup_group_ranks. destruct (held_pick _ i (in_group_held i Hi)) as (k & t & h & E & _). split; [|split]; cbn [fst snd].
    + rewrite Hs, E. by eexists.
    + by rewrite E.
    + intros r Hr%elem_of_holder_ranks. by apply holds_range in Hr.
  - intros i j ri rj [(ki & ti & Hi & <-)%in_group_held _]%lookup_group_ranks [(kj & tj & Hj & <-)%in_group_held _]%lookup_group_ranks.
    apply Hwflat; by eapply elem_of_tagged_in.
Qed.

Lemma determine_spec : (1 < length all_shards)%nat -> well_formed all_shards ->
  exists d, determine all_shards ignore = Ok (Some d) /\ fits all_shards d /\
    (forall i, i ∈ shards_in_this_group d <-> if ignore then held all_shards i else has_main all_shards i) /\
    (forall r i0, (i0, r) ∈ main_rank_for_shard d -> exists i, (i, r) ∈ main_rank_for_shard d /\
       forall r', holds all_shards r' i -> rank_bytes d r - bytes_of d i <= rank_bytes d r') /\
    (forall i t, shard_to_metadata d !! i = Some t -> t ∈ concat all_shards).
Proof.
  intros Hlen Hwf. unfold determine_main_replica_uniform_distribution. destruct (Nat.leb_spec (length all_shards) 1) as [|_]; [lia|].
  destruct (distribute_group Hwf (in_group ∖ ga_main g)) as (main & -> & Hnd & Hids & Hhold & Hbal).
  cbn [mbind res_bind]. eexists. split; [done|]. set (d := mkDistribution _ _ _ _).
  destruct (gather_shards_spec element_size all_shards) as [_ Hs Hm _ _].
  assert (Hb : forall i, bytes_of d i = default 0 (ga_size g !! i)).
  { intros i. unfold bytes_of, d. cbn [shard_to_metadata]. rewrite Hm, Hs. by destruct (holders _ i) as [|[]]. }
  assert (Hload : forall r, rank_bytes d r = load (ga_size g) main r).
  { intros r. unfold rank_bytes, load. f_equal. apply map_ext. intros [i k]. by rewrite Hb. }
  split; [split|split; [|split]]; unfold d; cbn [main_rank_for_shard shards_in_this_group shard_to_metadata all_ranks_for_shard].
  - done.
  - intros i. rewrite Hids. split; [by intros [ranks [Hi _]%lookup_group_ranks]|]. intros Hi. eexists. by apply lookup_group_ranks.
  - apply in_group_held.
  - intros i k Hi. destruct (Hhold i k Hi) as (ranks & [_ ->]%lookup_group_ranks & Hr). by apply elem_of_holder_ranks.
  - intros i Hi. by apply lookup_group_ranks.
  - intros i. rewrite Hm. split; [|intros (k & t & h & -> & _)%held_pick; by eexists].
    intros [t Ht]. destruct (holders _ i) as [|[k t'] h] eqn:E; [done|]. exists k, t'. apply elem_of_all_holders. rewrite E. left.
  - apply elem_of_in_group.
  - intros r i0 H0. destruct (Hbal r i0 H0) as (i & ranks & Hi & [Hg ->]%elem_of_map_to_list%lookup_group_ranks & Hle). exists i. split; [done|].
    intros r' Hr'. fold d. rewrite Hb, !Hload. apply Hle. by apply elem_of_holder_ranks.
  - intros i t. rewrite Hm. destruct (holders _ i) as [|[k t'] h] eqn:E; [done|]. intros [= <-]. apply (elem_of_tagged_in _ k), (elem_of_all_holders _ i).
    rewrite E. left.
Qed.
End Determine.

(** The bytes of a rank are not negative, and a rank without shards has none. *)
Lemma rank_bytes_empty d r : (forall i, (i, r) ∉ main_rank_for_shard d) -> rank_bytes d r = 0.
Proof.
  unfold rank_bytes, zsum. induction (main_rank_for_shard d) as [|[i k] l IH]; cbn; [done|]. intros Hr. rewrite IH by set_solver.
  destruct (Z.eqb_spec k r) as [->|_]; [|done]. exfalso. apply (Hr i). left.
Qed.
Lemma rank_bytes_nonneg d r : (forall i, 0 <= bytes_of d i) -> 0 <= rank_bytes d r.
Proof.
  intros H. unfold rank_bytes, zsum. induction (main_rank_for_shard d) as [|[i k] l IH]; cbn; [done|]. specialize (H i). destruct (k =? r); lia.
Qed.
End Fits.

(* ================================================================== *)
(** ** New replica ids                                                 *)
(* ================================================================== *)

(** A shard on rank [k] after the distribution *)
Definition assigned_to (d : shard_distribution) (k : Z) (i : shard_id) : bool :=
  bool_decide (i ∈ shards_in_this_group d) && bool_decide (dict_get (main_rank_for_shard d) i = Some k).
Definition relabel (d : shard_distribution) (x : Z * sharded_tensor) : sharded_tensor :=
  set_replica_id (ReplicaInt (if assigned_to d (fst x) (sharded_tensor_shard_id (snd x)) then 0 else 1)) (snd x).
Definition relabel_all (d : shard_distribution) (all_shards : list (list sharded_tensor)) : list (list sharded_tensor) :=
  map (fun '(rank, shards) => map (fun t => relabel d (Z.of_nat rank, t)) shards) (imap pair all_shards).

Lemma concat_relabel_all d all_shards : concat (relabel_all d all_shards) = map (relabel d) (tagged all_shards).
Proof.
  unfold relabel_all, tagged. rewrite concat_map, map_map. f_equal. apply map_ext. intros [r ts]. by rewrite map_map.
Qed.
Lemma relabel_all_lookup d all_shards r ts : all_shards !! r = Some ts -> relabel_all d all_shards !! r = Some (map (fun t => relabel d (Z.of_nat r, t)) ts).
Proof. intros Hr. unfold relabel_all. rewrite list_lookup_fmap, list_lookup_imap, Hr. done. Qed.
Lemma length_relabel_all d all_shards : length (relabel_all d all_shards) = length all_shards.
Proof. unfold relabel_all. by rewrite length_map, length_imap. Qed.
Lemma relabel_main d x : is_main_replica (st_replica_id (relabel d x)) = assigned_to d (fst x) (sharded_tensor_shard_id (snd x)).
Proof. unfold relabel. cbn. by destruct (assigned_to _ _ _). Qed.

(** A distribution that has a rank for every shard of the group can be applied on all ranks. *)
Lemma distribute_all_ok d all_shards : (1 < length all_shards)%nat ->
  (forall i, i ∈ shards_in_this_group d -> i ∈ map fst (main_rank_for_shard d)) -> NoDup (map fst (main_rank_for_shard d)) ->
  mapR (fun '(rank, shards) => distribute_main_replicas_with_precomputed_distribution (length all_shards) (Some d) (Z.of_nat rank) shards) (imap pair all_shards)
  = Ok (relabel_all d all_shards).
Proof.
  intros Hlen Hmain Hnd. apply mapR_total. intros [r ts] _. unfold distribute_main_replicas_with_precomputed_distribution.
  destruct (Nat.leb_spec (length all_shards) 1) as [|_]; [lia|]. apply mapR_total. intros t _.
  unfold distribute_main_replica, relabel, assigned_to. cbn [fst snd]. remember (sharded_tensor_shard_id t) as i eqn:Et.
  destruct (bool_decide_reflect (i ∈ shards_in_this_group d)) as [Hi|Hi]; [|done].
  pose proof (Hmain _ Hi) as ([j k] & Ej & Hk)%list_elem_of_fmap. cbn in Ej. subst j. apply dict_get_spec in Hk; [|done]. rewrite Hk. cbn [andb].
  destruct (Z.eqb_spec (Z.of_nat r) k) as [->|Hne]; [by rewrite bool_decide_eq_true_2|]. by rewrite bool_decide_eq_false_2 by congruence.
Qed.

Lemma assigned_to_spec all_shards d k i : fits all_shards d -> assigned_to d k i = true <-> (i, k) ∈ main_rank_for_shard d.
Proof.
  intros Hd. unfold assigned_to. rewrite andb_true_iff, !bool_decide_eq_true, dict_get_spec by apply Hd. split; [tauto|].
  intros Hi. split; [|done]. apply (ft_main _ _ Hd). apply list_elem_of_fmap. by exists (i, k).
Qed.

(** The shape of the state dict that a cached distribution depends on. *)
Definition same_structure (all_shards all_shards' : list (list sharded_tensor)) : Prop :=
  map (map sharded_tensor_shard_id) all_shards = map (map sharded_tensor_shard_id) all_shards'.
Lemma same_structure_tagged a b : same_structure a b ->
  map (fun x => (fst x, sharded_tensor_shard_id (snd x))) (tagged a) = map (fun x => (fst x, sharded_tensor_shard_id (snd x))) (tagged b).
Proof.
  assert (Heq : forall l, map (fun x => (fst x, sharded_tensor_shard_id (snd x))) (tagged l) =
      concat (imap (fun r ids => map (pair (Z.of_nat r)) ids) (map (map sharded_tensor_shard_id) l))).
  { intros l. unfold tagged. rewrite concat_map, map_map, imap_fmap. f_equal. apply list_eq. intros r.
    rewrite list_lookup_fmap, !list_lookup_imap. destruct (l !! r); cbn; [|done]. by rewrite !map_map. }
  intros E. by rewrite !Heq, E.
Qed.
Lemma same_structure_holds a b k i : same_structure a b -> holds a k i -> holds b k i.
Proof.
  intros E (t & Ht & Hi). assert (Hin : (k, i) ∈ map (fun x => (fst x, sharded_tensor_shard_id (snd x))) (tagged b)).
  { rewrite <- (same_structure_tagged a b E). apply list_elem_of_fmap. exists (k, t). cbn. by rewrite Hi. }
  apply list_elem_of_fmap in Hin as ([k' t'] & [= -> ->] & Ht'). by exists t'.
Qed.
Lemma same_structure_ranks a b i : same_structure a b -> map fst (holders (tagged a) i) = map fst (holders (tagged b) i).
Proof.
  intros E%same_structure_tagged. unfold holders. revert E. generalize (tagged b). induction (tagged a) as [|[k t] l IH]; intros [|[k' t'] l'] E; try done.
  cbn [map fst snd] in E. pose proof (f_equal tail E) as E'. assert (k = k') as -> by congruence.
  assert (Et : sharded_tensor_shard_id t = sharded_tensor_shard_id t') by congruence. rewrite !filter_cons. cbn [snd fst]. rewrite Et. destruct (decide _); cbn; by rewrite (IH _ E').
Qed.
Lemma same_structure_length a b : same_structure a b -> length a = length b.
Proof. intros E%(f_equal length). by rewrite !length_map in E. Qed.
Lemma fits_structure a b d : same_structure a b -> fits a d -> fits b d.
Proof.
  intros E [Hnd Hmain Hheld Hholds Hranks Hmeta]. assert (Hiff : forall i, held a i <-> held b i).
  { intros i. split; intros [k Hk]; exists k; by eapply same_structure_holds. }
  split; try done.
  - intros i Hi. by apply Hiff, Hheld.
  - intros i k Hi. by eapply same_structure_holds, Hholds.
  - intros i Hi. rewrite <- (same_structure_ranks a b i E). by apply Hranks.
  - intros i. by rewrite <- Hiff.
Qed.

(** Two ranks that hold the same three shards of a tensor of ten floats, the first as the main replica *)
Definition sample_shard (offset len : Z) (replica : Z) : sharded_tensor :=
  mkSharded "weight" "float32" [len] [10] [offset] None (ReplicaTuple [0; replica]) 0 false None.
Definition sample_shards : list (list sharded_tensor) :=
  [[sample_shard 0 2 0; sample_shard 2 5 0; sample_shard 7 3 0]; [sample_shard 0 2 1; sample_shard 2 5 1; sample_shard 7 3 1]].
Definition sample_element_size (_ : string) : Z := 4.

Lemma sample_well_formed : well_formed sample_element_size sample_shards.
Proof.
  split.
  - intros t Ht. repeat (apply elem_of_cons in Ht as [->|Ht]; [vm_compute; discriminate|]). by apply elem_of_nil in Ht.
  - intros t u Ht Hu _. assert (Hflat : forall v, v ∈ concat sample_shards -> st_flattened_range v = None).
    { intros v Hv. repeat (apply elem_of_cons in Hv as [->|Hv]; [done|]). by apply elem_of_nil in Hv. }
    cbn. by rewrite (Hflat t Ht), (Hflat u Hu).
Qed.

Lemma sample_all_hold i k : held sample_shards i -> 0 <= k < 2 -> holds sample_shards k i.
Proof.
  intros (k' & t & Ht%elem_of_tagged_in & <-) Hk.
  assert (Hin : forall o n, (o, n) ∈ [(0, 2); (2, 5); (7, 3)] -> holds sample_shards k ("weight", [o], None)).
  { intros o n Hon. exists (sample_shard o n k). split; [|done]. apply elem_of_tagged. exists (Z.to_nat k).
    assert (k = 0 \/ k = 1) as [-> | ->] by lia; eexists; (split; [reflexivity|split; [reflexivity|]]); repeat (apply elem_of_cons in Hon as [[= -> ->]|Hon]; [set_solver|]);
      by apply elem_of_nil in Hon. }
  repeat (apply elem_of_cons in Ht as [->|Ht]; [first [apply (Hin 0 2); set_solver|apply (Hin 2 5); set_solver|apply (Hin 7 3); set_solver]|]). by apply elem_of_nil in Ht.
Qed.
