(* ===== verification/DistCkptSave.v ===== *)
(** * Fully parallel saving: the theorems

    The distribution of the save gives every shard of the group to one of its holders, as evenly as the greedy rule
    promises, and the new replica ids let exactly one rank save each shard. *)

From S2P Require Import Prelude DistCkpt DistCkptProofs.

Section Save.
Context (element_size : string -> Z).
Notation determine := (determine_main_replica_uniform_distribution element_size).
Notation save := (apply_saving_parallelization element_size).
Notation well_formed := (well_formed element_size).

(** *** How often a shard is saved *)

Definition main_copies (all_shards : list (list sharded_tensor)) (i : shard_id) : nat :=
  length (filter (fun t => sharded_tensor_shard_id t = i /\ is_main_replica (st_replica_id t) = true) (concat all_shards)).

(** Counting in a list in which the counted elements are the same *)
Lemma count_one {A B} (f : A -> B) (P : A -> Prop) `{forall x, Decision (P x)} l x :
  NoDup (map f l) -> x ∈ l -> P x -> (forall y, y ∈ l -> P y -> f y = f x) -> length (filter P l) = 1%nat.
Proof.
  intros Hnd Hx HP Hy. apply list_elem_of_split in Hx as (l1 & l2 & ->). rewrite map_app in Hnd. cbn in Hnd.
  apply NoDup_app in Hnd as (_ & H1 & [H2 _]%NoDup_cons). rewrite filter_app, filter_cons_True, !length_app by done. cbn.
  rewrite !filter_none; [done| |]; apply Forall_forall; intros y Hyl Py; specialize (Hy y ltac:(set_solver) Py).
  - apply H2. rewrite <- Hy. by apply list_elem_of_fmap_2.
  - apply (H1 (f y)); [by apply list_elem_of_fmap_2|]. rewrite Hy. left.
Qed.
Lemma length_filter_map {A B} (f : A -> B) (P : B -> Prop) `{forall x, Decision (P x)} l :
  length (filter P (map f l)) = length (filter (fun x => P (f x)) l).
Proof. induction l as [|x l IH]; [done|]. cbn [map]. rewrite !filter_cons. destruct (decide (P (f x))); cbn; by rewrite IH. Qed.

Lemma NoDup_tagged all_shards : Forall (fun ts => NoDup (map sharded_tensor_shard_id ts)) all_shards ->
  NoDup (map (fun x => (fst x, sharded_tensor_shard_id (snd x))) (tagged all_shards)).
Proof.
  intros Hnd. unfold tagged. rewrite concat_map, map_map.
  assert (Hget : forall (j : nat) l x, map (fun p : nat * list sharded_tensor => map (fun x => (fst x, sharded_tensor_shard_id (snd x)))
      (let '(rank, shards) := p in map (pair (Z.of_nat rank)) shards)) (imap pair all_shards) !! j = Some l -> x ∈ l -> fst x = Z.of_nat j).
  { intros j l x. rewrite list_lookup_fmap, list_lookup_imap. destruct (all_shards !! j); cbn; [|done]. intros [= <-].
    rewrite map_map. by intros (t & -> & _)%list_elem_of_fmap. }
  apply NoDup_concat.
  - apply Forall_forall. intros l ([r0 ts0] & -> & (r & ts & [= -> ->] & Hts)%elem_of_lookup_imap)%list_elem_of_fmap. rewrite map_map. cbn.
    assert (Hd : NoDup (map sharded_tensor_shard_id ts)) by exact (Forall_lookup_1 _ _ _ _ Hnd Hts). clear -Hd. induction ts as [|t ts IH]; cbn in *; [constructor|].
    apply NoDup_cons in Hd as [Ht Hd]. constructor; [|by apply IH]. intros (u & Eu & Hin)%list_elem_of_fmap. apply Ht, list_elem_of_fmap. exists u. split; [congruence|done].
  - intros i j l1 l2 x H1 H2 Hx1 Hx2. pose proof (Hget i l1 x H1 Hx1) as E1. pose proof (Hget j l2 x H2 Hx2) as E2. lia.
Qed.

Lemma main_copies_relabel all_shards d i : Forall (fun ts => NoDup (map sharded_tensor_shard_id ts)) all_shards -> fits all_shards d ->
  main_copies (relabel_all d all_shards) i = if decide (i ∈ shards_in_this_group d) then 1%nat else 0%nat.
Proof.
  intros Hnd Hfits. unfold main_copies. rewrite concat_relabel_all, length_filter_map. destruct (decide _) as [Hi|Hi].
  - apply (ft_main _ _ Hfits) in Hi as ([j k] & Ej & Hk)%list_elem_of_fmap. cbn in Ej. subst j.
    destruct (ft_holds _ _ Hfits i k Hk) as (t & Ht & Hti).
    apply (count_one (fun x => (fst x, sharded_tensor_shard_id (snd x))) _ _ (k, t)); [by apply NoDup_tagged|done| |].
    + rewrite relabel_main. cbn [fst snd]. rewrite Hti. split; [done|]. by apply (assigned_to_spec all_shards).
    + intros [k' t'] _ [Ht' Hm]. rewrite relabel_main in Hm. cbn [fst snd] in *. change (sharded_tensor_shard_id t' = i) in Ht'.
      apply (assigned_to_spec all_shards) in Hm; [|done]. rewrite Ht' in *. rewrite Hti. f_equal.
      apply (dict_get_spec _ _ _ (ft_nodup _ _ Hfits)) in Hk, Hm. congruence.
  - rewrite filter_none; [done|]. apply Forall_forall. intros [k t] _ [Ht Hm]. rewrite relabel_main in Hm. cbn [fst snd] in *.
    change (sharded_tensor_shard_id t = i) in Ht. unfold assigned_to in Hm. rewrite Ht, bool_decide_eq_false_2 in Hm by done. done.
Qed.

(** The new replica ids depend on the structure only. *)
Lemma relabel_structure d a b : same_structure a b -> map (map st_replica_id) (relabel_all d a) = map (map st_replica_id) (relabel_all d b).
Proof.
  intros E. apply list_eq. intros r. apply (f_equal (lookup r)) in E. rewrite !list_lookup_fmap in *. unfold relabel_all. rewrite !list_lookup_fmap, !list_lookup_imap.
  destruct (a !! r) as [ta|], (b !! r) as [tb|]; cbn in *; try done. f_equal. assert (E' : map sharded_tensor_shard_id ta = map sharded_tensor_shard_id tb) by congruence.
  clear E. revert tb E'. induction ta as [|t ta IH]; intros [|u tb] E; cbn [map] in *; try done.
  pose proof (f_equal tail E) as Etail. assert (Et : sharded_tensor_shard_id t = sharded_tensor_shard_id u) by congruence.
  cbn in Etail. rewrite (IH tb Etail). unfold relabel. cbn [fst snd]. by rewrite Et.
Qed.
Lemma relabel_all_fields d all_shards :
  Forall2 (Forall2 (fun t t' => t' = set_replica_id (st_replica_id t') t /\ (st_replica_id t' = ReplicaInt 0 \/ st_replica_id t' = ReplicaInt 1)))
    all_shards (relabel_all d all_shards).
Proof.
  apply Forall2_same_length_lookup_2; [by rewrite length_relabel_all|]. intros r ts ts' Hts Hts'. rewrite (relabel_all_lookup d _ _ _ Hts) in Hts'.
  injection Hts' as <-. clear. induction ts as [|t ts IH]; cbn; constructor; [|done]. split; [done|]. cbn. destruct (assigned_to _ _ _); auto.
Qed.

(** (C39) [determine_main_replica_uniform_distribution] on a group of several ranks succeeds.  Exactly the shards with a main replica in the
    group (all shards of the group when [ignore_groups]) are given to exactly one rank, which holds the shard.  The distribution is even
    as far as the greedy rule can make it: every rank that got shards has one without which it would carry no more bytes than any other
    holder of that shard, so that, when every rank holds every shard, two ranks differ by at most the largest shard. *)
Theorem save_distribution_balanced all_shards (ignore_groups : bool) (Hlen : (1 < length all_shards)%nat) (Hwf : well_formed all_shards) :
  exists d, determine all_shards ignore_groups = Ok (Some d) /\
    (forall i, (if ignore_groups then held all_shards i else has_main all_shards i) <-> exists k, (i, k) ∈ main_rank_for_shard d) /\
    NoDup (map fst (main_rank_for_shard d)) /\
    (forall i k, (i, k) ∈ main_rank_for_shard d -> holds all_shards k i) /\
    (forall r i0, (i0, r) ∈ main_rank_for_shard d -> exists i, (i, r) ∈ main_rank_for_shard d /\
       forall r', holds all_shards r' i -> rank_bytes element_size d r - bytes_of element_size d i <= rank_bytes element_size d r') /\
    (forall largest, (forall t, t ∈ concat all_shards -> shard_size element_size t <= largest) ->
       (forall i k, held all_shards i -> 0 <= k < Z.of_nat (length all_shards) -> holds all_shards k i) ->
       forall r r', 0 <= r < Z.of_nat (length all_shards) -> 0 <= r' < Z.of_nat (length all_shards) ->
       rank_bytes element_size d r - rank_bytes element_size d r' <= Z.max 0 largest).
Proof.
  destruct (determine_spec element_size all_shards ignore_groups Hlen Hwf) as (d & Ed & Hfits & Hgroup & Hbal & Hmeta). exists d.
  split; [done|]. split; [|split; [apply Hfits|split; [apply Hfits|split; [done|]]]].
  - intros i. rewrite <- Hgroup, <- (ft_main _ _ Hfits), list_elem_of_fmap. split; [intros ([j k] & -> & Hk); eauto|intros [k Hk]; by exists (i, k)].
  - intros largest Hlargest Hall r r' Hr Hr'.
    assert (Hb : forall i, 0 <= bytes_of element_size d i <= Z.max 0 largest).
    { intros i. unfold bytes_of. destruct (shard_to_metadata d !! i) as [t|] eqn:Et; cbn; [|lia]. apply Hmeta in Et.
      pose proof (wf_size _ _ Hwf t Et). specialize (Hlargest t Et). lia. }
    pose proof (rank_bytes_nonneg element_size d r' (fun i => proj1 (Hb i))) as Hr0.
    destruct (decide (Exists (fun x => snd x = r) (main_rank_for_shard d))) as [[[i0 k] [H0 Hk]]%Exists_exists|Hno]; cbn in *.
    + subst k. destruct (Hbal r i0 H0) as (i & Hi & Hle). specialize (Hle r'). specialize (Hb i). pose proof (ft_holds _ _ Hfits i r Hi) as Hir.
      assert (Hr'i : holds all_shards r' i) by (apply Hall; [by exists r|done]). specialize (Hle Hr'i). lia.
    + rewrite (rank_bytes_empty element_size d r); [lia|]. intros i Hi. apply Hno, Exists_exists. by exists (i, r).
Qed.

(** [apply_saving_parallelization] on all ranks of a group, when no rank holds a shard twice: the shards keep everything but their
    replica ids, which become 0 or 1; every shard that had a main replica in the group is then marked for saving on exactly one rank of the group, and
    every other shard on none.  With caching a later save of the same structure gives the same replica ids, whatever the ids were, without a
    new distribution. *)
Theorem save_marks_once all_shards (do_cache : bool) (Hlen : (1 < length all_shards)%nat) (Hwf : well_formed all_shards)
    (Hnd : Forall (fun ts => NoDup (map sharded_tensor_shard_id ts)) all_shards) :
  exists shards cached, save do_cache None all_shards = Ok (shards, cached) /\
    Forall2 (Forall2 (fun t t' => t' = set_replica_id (st_replica_id t') t /\ (st_replica_id t' = ReplicaInt 0 \/ st_replica_id t' = ReplicaInt 1))) all_shards shards /\
    (forall i, has_main all_shards i -> main_copies shards i = 1%nat) /\
    (forall i, ~ has_main all_shards i -> main_copies shards i = 0%nat) /\
    (do_cache = true -> forall all_shards', same_structure all_shards all_shards' ->
       exists shards', save do_cache cached all_shards' = Ok (shards', cached) /\ map (map st_replica_id) shards' = map (map st_replica_id) shards).
Proof.
  destruct (determine_spec element_size all_shards false Hlen Hwf) as (d & Ed & Hfits & Hgroup & _).
  assert (Hall : forall l, same_structure all_shards l -> mapR (fun '(rank, shards) =>
      distribute_main_replicas_with_precomputed_distribution (length l) (Some d) (Z.of_nat rank) shards) (imap pair l) = Ok (relabel_all d l)).
  { intros l E. apply distribute_all_ok; [by rewrite <- (same_structure_length _ _ E)| |apply Hfits]. intros i. apply (ft_main _ _ Hfits). }
  exists (relabel_all d all_shards), (if do_cache then Some d else None).
  split; [|split; [apply relabel_all_fields|split; [|split]]].
  - unfold apply_saving_parallelization, apply_parallelization, precomputed_distribution.
    destruct do_cache; rewrite Ed; cbn [mbind res_bind]; by rewrite Hall.
  - intros i Hi%Hgroup. rewrite (main_copies_relabel _ _ _ Hnd Hfits). by rewrite decide_True.
  - intros i Hi. rewrite (main_copies_relabel _ _ _ Hnd Hfits). rewrite decide_False; [done|]. by rewrite Hgroup.
  - intros -> l E. exists (relabel_all d l). split; [|symmetry; by apply relabel_structure].
    unfold apply_saving_parallelization, apply_parallelization, precomputed_distribution. cbn [mbind res_bind mret res_ret]. by rewrite Hall.
Qed.
End Save.

(** The hypotheses hold for the sample. *)
Lemma save_distribution_balanced_witness : exists d, determine_main_replica_uniform_distribution sample_element_size sample_shards false = Ok (Some d) /\
  rank_bytes sample_element_size d 0 - rank_bytes sample_element_size d 1 <= 20.
Proof.
  destruct (save_distribution_balanced sample_element_size sample_shards false ltac:(cbn; lia) sample_well_formed) as (d & Ed & _ & _ & _ & _ & Hgap).
  exists d. split; [exact Ed|]. apply (Hgap 20); cbn [length]; [| |vm_compute; split; congruence|vm_compute; split; congruence].
  - clear Ed Hgap. intros t Ht. repeat (apply elem_of_cons in Ht as [->|Ht]; [vm_compute; discriminate|]). clear -Ht. by apply elem_of_nil in Ht.
  - apply sample_all_hold.
Defined.
Lemma save_marks_once_witness : exists shards cached, apply_saving_parallelization sample_element_size true None sample_shards = Ok (shards, cached) /\
  main_copies shards ("weight", [2], None) = 1%nat.
Proof.
  assert (Hmain : has_main sample_shards ("weight", [2], None)).
  { exists 0, (sample_shard 2 5 0). split; [|split; reflexivity]. apply elem_of_tagged. exists 0%nat. eexists. split; [reflexivity|]. split; [reflexivity|right; left]. }
  assert (Hnd : Forall (fun ts => NoDup (map sharded_tensor_shard_id ts)) sample_shards).
  { repeat (apply Forall_cons; split; [apply (bool_decide_unpack _); vm_compute; exact I|]). apply Forall_nil; exact I. }
  destruct (save_marks_once sample_element_size sample_shards true ltac:(cbn; lia) sample_well_formed Hnd) as (shards & cached & E & _ & H & _).
  exists shards, cached. split; [exact E|]. exact (H _ Hmain).
Defined.
