(* ===== verification/DistCkptLoad.v ===== *)
(** * Fully parallel loading: the theorems

    Every exchange algorithm delivers to every rank the shards that it holds and has not loaded itself, so that the
    wrapped strategy returns what the base strategy would. *)

From stdpp Require Import sorting.
From S2P Require Import Prelude DistCkpt DistCkptProofs.

(* ================================================================== *)
(** ** The shards that a rank loads                                    *)
(* ================================================================== *)

Section Fold.
Context (p : sharded_tensor -> bool) (f : gmap shard_id sharded_tensor -> sharded_tensor -> gmap shard_id sharded_tensor).
Context (Hf : forall m t, f m t = if p t then <[sharded_tensor_shard_id t := t]> m else m).

Lemma fold_shards_spec shards i :
  (forall t, fold_left f shards ∅ !! i = Some t -> t ∈ shards /\ sharded_tensor_shard_id t = i /\ p t = true) /\
  (forall t, t ∈ shards -> sharded_tensor_shard_id t = i -> p t = true -> is_Some (fold_left f shards ∅ !! i)).
Proof.
  induction shards as [|t ts [IH1 IH2]] using rev_ind; cbn.
  - split; [intros t; by rewrite lookup_empty|intros t []%elem_of_nil].
  - rewrite fold_left_app. cbn. rewrite Hf. remember (fold_left f ts ∅) as m eqn:Em. clear Em. split.
    + intros u. destruct (p t) eqn:Et; [|intros Hu%IH1; set_solver]. destruct (decide (sharded_tensor_shard_id t = i)) as [Ei|Ei].
      * rewrite Ei, lookup_insert_eq. intros [= <-]. split; [set_solver|done].
      * rewrite lookup_insert_ne by done. intros Hu%IH1. set_solver.
    + intros u [Hu|Hu%list_elem_of_singleton]%elem_of_app Hi Hp.
      * destruct (p t); [|by eapply IH2]. destruct (decide (sharded_tensor_shard_id t = i)) as [Ei|Ei].
        -- rewrite Ei, lookup_insert_eq. by eexists.
        -- rewrite lookup_insert_ne by done. by eapply IH2.
      * subst u. rewrite Hp, Hi, lookup_insert_eq. by eexists.
Qed.
End Fold.

(* ================================================================== *)
(** ** Merging dictionaries                                            *)
(* ================================================================== *)

Lemma merge_all_spec {D} (ds : list (gmap shard_id D)) :
  (forall a b x y i, ds !! a = Some x -> ds !! b = Some y -> is_Some (x !! i) -> is_Some (y !! i) -> a = b) ->
  size (merge_all ds) = foldr Nat.add 0%nat (map size ds) /\
  (forall i x, merge_all ds !! i = Some x <-> exists a m, ds !! a = Some m /\ m !! i = Some x).
Proof.
  unfold merge_all. induction ds as [|y ds IH] using rev_ind; intros Hdis; [split; [done|]|].
  - intros i x. cbn. rewrite lookup_empty. split; [done|by intros (a & m & Ha & _)].
  - destruct IH as [IHs IHl]. { intros a b x z i Ha Hb. apply Hdis; by apply lookup_app_l_Some. }
    assert (Hlast : (ds ++ [y]) !! length ds = Some y) by (by rewrite lookup_app_r, Nat.sub_diag by lia).
    assert (Hd : y ##ₘ fold_left (fun x y => y ∪ x) ds ∅).
    { apply map_disjoint_spec. intros i x z Hx Hz. apply IHl in Hz as (a & m & Ha & Hm).
      assert (a = length ds) as ->; [|by rewrite lookup_ge_None_2 in Ha by lia].
      apply (Hdis a (length ds) m y i); [by apply lookup_app_l_Some|done|by eexists|by eexists]. }
    rewrite fold_left_app. cbn. rewrite map_size_disj_union, IHs by done. split.
    + rewrite map_app, foldr_app. cbn. clear. induction (map size ds) as [|n l IH]; cbn; lia.
    + intros i x. rewrite lookup_union_Some by done. rewrite IHl. split.
      * intros [Hy|(a & m & Ha & Hm)]; [by exists (length ds), y|]. exists a, m. split; [by apply lookup_app_l_Some|done].
      * intros (a & m & Ha & Hm). apply lookup_app_Some in Ha as [Ha|[_ Ha]]; [right; eauto|left].
        apply list_lookup_singleton_Some in Ha as [_ <-]. done.
Qed.

Section Load.
Context {D : Type} (read : sharded_tensor -> res D).
Notation loader := (@loader D).

(** What the base strategy reads does not depend on the replica id. *)
Context (read_replica : forall t r, read (set_replica_id r t) = read t).

(** *** A group with a distribution that fits *)
Context (all_shards : list (list sharded_tensor)) (d : shard_distribution).
Context (Hfits : fits all_shards d) (Hall : forall i, held all_shards i -> i ∈ shards_in_this_group d).
Context (read_id : forall t u, t ∈ concat all_shards -> u ∈ concat all_shards -> sharded_tensor_shard_id t = sharded_tensor_shard_id u -> read t = read u).
Context (read_ok : forall t, t ∈ concat all_shards -> exists x, read t = Ok x).

(** What is read for a shard id *)
Definition reads (i : shard_id) (x : D) : Prop := exists t, t ∈ concat all_shards /\ sharded_tensor_shard_id t = i /\ read t = Ok x.

(** The tensors of a rank are right and include those that it loads; it needs what it holds and does not load. *)
Record loader_ok (r : nat) (l : loader) : Prop := mkLoaderOk {
  lk_unloaded i : is_Some (lo_unloaded l !! i) -> holds all_shards (Z.of_nat r) i /\ (i, Z.of_nat r) ∉ main_rank_for_shard d;
  lk_needed i : holds all_shards (Z.of_nat r) i -> is_Some (lo_unloaded l !! i) \/ (i, Z.of_nat r) ∈ main_rank_for_shard d;
  lk_reads i x : lo_tensors l !! i = Some x -> reads i x;
  lk_loads i : (i, Z.of_nat r) ∈ main_rank_for_shard d -> is_Some (lo_tensors l !! i)
}.
Definition loaders_ok (ls : list loader) : Prop := length ls = length all_shards /\ forall r l, ls !! r = Some l -> loader_ok r l.
Definition delivered (i : shard_id) (ls : list loader) : Prop :=
  forall r l, ls !! r = Some l -> is_Some (lo_unloaded l !! i) -> is_Some (lo_tensors l !! i).
Definition progress (ls ls' : list loader) : Prop := forall i, delivered i ls -> delivered i ls'.

Lemma reads_main r l i x : loader_ok r l -> lo_tensors l !! i = Some x -> reads i x.
Proof. intros [_ _ H _]. apply H. Qed.

(** *** One shard goes to all ranks *)

Lemma send_spec ls i k : loaders_ok ls -> (i, k) ∈ main_rank_for_shard d ->
  exists ls', send_tensor d i k ls = Ok ls' /\ loaders_ok ls' /\ delivered i ls' /\ progress ls ls'.
Proof.
  intros [Hlen Hok] Hi. pose proof (ft_holds _ _ Hfits i k Hi) as Hk. pose proof (holds_range _ _ _ Hk) as Hrange.
  destruct (lookup_lt_is_Some_2 ls (Z.to_nat k) ltac:(lia)) as [source Hsource]. unfold send_tensor.
  rewrite <- (Z2Nat.id k), (py_get_nonneg _ _ _ Hsource) by lia. cbn [mbind res_bind].
  destruct (Hok _ _ Hsource) as [_ _ Hreads Hloads]. rewrite Z2Nat.id in * by lia. destruct (Hloads i Hi) as [x Hx]. rewrite Hx.
  destruct (mapR_ix (fun '(rank, l) => if Z.of_nat rank =? k then mret l else receive d i x l)
    (fun r y l' => lo_unloaded l' = lo_unloaded (snd y) /\ (lo_tensors l' = lo_tensors (snd y) /\ (lo_unloaded (snd y) !! i = None \/ Z.of_nat r = k) \/
       lo_tensors l' = <[i := x]> (lo_tensors (snd y)))) (imap pair ls)) as (ls' & E & Hl' & Hls').
  { intros r [r' l]. rewrite list_lookup_imap. destruct (ls !! r) as [l0|]; cbn; [|done]. intros [= <- <-].
    destruct (Z.eqb_spec (Z.of_nat r) k) as [Hr|Hr]; [eexists; split; [done|]; auto|]. unfold receive. destruct (lo_unloaded l0 !! i) eqn:Eu.
    - eexists. split; [done|]. cbn. auto.
    - destruct (proj2 (ft_metadata _ _ Hfits i) (ex_intro _ k Hk)) as [t ->]. eexists. split; [done|]. auto. }
  rewrite length_imap in Hl'. exists ls'. split; [done|].
  assert (Hstep : forall r l', ls' !! r = Some l' -> exists l, ls !! r = Some l /\ lo_unloaded l' = lo_unloaded l /\
      (lo_tensors l' = lo_tensors l /\ (lo_unloaded l !! i = None \/ Z.of_nat r = k) \/ lo_tensors l' = <[i := x]> (lo_tensors l))).
  { intros r l' Hr. destruct (lookup_lt_is_Some_2 ls r) as [l Hrl]; [apply lookup_lt_Some in Hr; lia|]. exists l. split; [done|].
    apply (Hls' r (r, l) l'); [|done]. by rewrite list_lookup_imap, Hrl. }
  split; [split; [lia|]|split].
  - intros r l' Hr. destruct (Hstep r l' Hr) as (l & Hrl & Eu & Et). destruct (Hok r l Hrl) as [H1 H2 H3 H4]. split; rewrite ?Eu; auto.
    + intros j y. destruct Et as [[-> _]| ->]; [apply H3|]. destruct (decide (i = j)) as [->|Hij]; [rewrite lookup_insert_eq; intros [= <-]; by apply Hreads|].
      rewrite lookup_insert_ne by done. apply H3.
    + intros j Hj. destruct Et as [[-> _]| ->]; [by apply H4|]. apply lookup_insert_is_Some'. right. by apply H4.
  - intros r l' Hr Hu. destruct (Hstep r l' Hr) as (l & Hrl & Eu & [[-> Hcase]| ->]); [|rewrite lookup_insert_eq; by eexists].
    destruct Hcase as [Hn| <-]; [rewrite Eu, Hn in Hu; by destruct Hu|]. by apply (Hok r l Hrl).
  - intros j Hj r l' Hr Hu. destruct (Hstep r l' Hr) as (l & Hrl & Eu & Et). rewrite Eu in Hu. pose proof (Hj r l Hrl Hu) as Hjl.
    destruct Et as [[-> _]| ->]; [done|]. apply lookup_insert_is_Some'. by right.
Qed.

Lemma single_rank_spec ls i k : loaders_ok ls -> (i, k) ∈ main_rank_for_shard d ->
  exists b, single_rank d i k = Ok b /\ (b = true -> delivered i ls).
Proof.
  intros [_ Hok] Hi. assert (Hg : i ∈ shards_in_this_group d) by (apply (ft_main _ _ Hfits), list_elem_of_fmap; by exists (i, k)).
  unfold single_rank. rewrite (ft_ranks _ _ Hfits i Hg). pose proof (ft_holds _ _ Hfits i k Hi) as Hk. apply elem_of_holder_ranks in Hk.
  destruct (map fst (holders (tagged all_shards) i)) as [|r [|r' l]] eqn:E; [by apply elem_of_nil in Hk| |by exists false].
  apply list_elem_of_singleton in Hk as ->. rewrite Z.eqb_refl. exists true. split; [done|]. intros _ q l Hq Hu.
  destruct (Hok q l Hq) as [H1 _ _ _]. destruct (H1 i Hu) as [Hh Hn]. apply elem_of_holder_ranks in Hh. rewrite E in Hh.
  apply list_elem_of_singleton in Hh. by rewrite Hh in Hn.
Qed.

(** *** Broadcasts *)

Lemma broadcast_spec ls : loaders_ok ls ->
  exists ls', exchange_loaded_tensors_broadcast d ls = Ok ls' /\ loaders_ok ls' /\ forall i k, (i, k) ∈ main_rank_for_shard d -> delivered i ls'.
Proof.
  intros H0. unfold exchange_loaded_tensors_broadcast.
  destruct (foldR_total (fun ls '(i, main) => skip ← single_rank d i main; if skip : bool then mret ls else send_tensor d i main ls)
    (fun l ls => loaders_ok ls /\ forall i k, (i, k) ∈ l -> delivered i ls) ls (main_rank_for_shard d)) as (ls' & -> & Hok & Hdel).
  - split; [done|]. intros i k []%elem_of_nil.
  - intros dn [i k] rest ls1 E [Hok Hdel]. assert (Hi : (i, k) ∈ main_rank_for_shard d) by (rewrite E; set_solver).
    destruct (single_rank_spec ls1 i k Hok Hi) as (b & -> & Hb). cbn. destruct b.
    + eexists. split; [done|]. split; [done|]. intros j k' [Hj|[= -> ->]%list_elem_of_singleton]%elem_of_app; [by eapply Hdel|by apply Hb].
    + destruct (send_spec ls1 i k Hok Hi) as (ls2 & -> & Hok2 & Hi2 & Hp). eexists. split; [done|]. split; [done|].
      intros j k' [Hj|[= -> ->]%list_elem_of_singleton]%elem_of_app; [by eapply Hp, Hdel|done].
  - by exists ls'.
Qed.

(** *** Rounds of gathers *)

Lemma progress_refl ls : progress ls ls.
Proof. by intros i. Qed.
Lemma progress_trans ls1 ls2 ls3 : progress ls1 ls2 -> progress ls2 ls3 -> progress ls1 ls3.
Proof. intros H1 H2 i Hi. by apply H2, H1. Qed.

(** A sequence of exchanges each of which delivers its own shards *)
Lemma exchange_seq {A} (f : list loader -> A -> res (list loader)) (covers : A -> shard_id -> Prop) l ls :
  (forall x ls, x ∈ l -> loaders_ok ls -> exists ls', f ls x = Ok ls' /\ loaders_ok ls' /\ (forall i, covers x i -> delivered i ls') /\ progress ls ls') ->
  loaders_ok ls ->
  exists ls', foldR f ls l = Ok ls' /\ loaders_ok ls' /\ (forall x i, x ∈ l -> covers x i -> delivered i ls') /\ progress ls ls'.
Proof.
  intros Hf H0. destruct (foldR_total f (fun dn ls' => loaders_ok ls' /\ (forall x i, x ∈ dn -> covers x i -> delivered i ls') /\ progress ls ls') ls l)
    as (ls' & E & Hls'); [| |by exists ls'].
  - split; [done|]. split; [intros x i []%elem_of_nil|apply progress_refl].
  - intros dn x rest ls1 E (Hok & Hdel & Hp). destruct (Hf x ls1) as (ls2 & E2 & Hok2 & Hx & Hp2); [rewrite E; set_solver|done|].
    exists ls2. split; [done|]. split; [done|]. split; [|by eapply progress_trans].
    intros y i [Hy| ->%list_elem_of_singleton]%elem_of_app Hi; [by eapply Hp2, Hdel|by apply Hx].
Qed.

Lemma shards_by_rank_spec ls dtype : loaders_ok ls ->
  exists by_rank, shards_by_rank d (length ls) dtype = Ok by_rank /\
    (forall r l i, by_rank !! r = Some l -> i ∈ l -> (i, Z.of_nat r) ∈ main_rank_for_shard d) /\
    (forall i k t, (i, k) ∈ main_rank_for_shard d -> shard_to_metadata d !! i = Some t -> st_dtype t = dtype ->
       delivered i ls \/ exists r l, by_rank !! r = Some l /\ i ∈ l).
Proof.
  intros Hok. unfold shards_by_rank.
  match goal with |- exists by_rank, foldR ?f ?a ?L = _ /\ _ => destruct (foldR_total f (fun dn by_rank => length by_rank = length ls /\
    (forall r l i, by_rank !! r = Some l -> i ∈ l -> (i, Z.of_nat r) ∈ main_rank_for_shard d) /\
    (forall i k t, (i, k) ∈ dn -> shard_to_metadata d !! i = Some t -> st_dtype t = dtype -> delivered i ls \/ exists r l, by_rank !! r = Some l /\ i ∈ l)) a L)
    as (by_rank & -> & _ & H1 & H2) end; [| |by exists by_rank].
  - split; [apply length_replicate|]. split; [intros r l i [-> _]%lookup_replicate []%elem_of_nil|intros i k t []%elem_of_nil].
  - intros dn [i k] rest by_rank E (Hlen & Hin & Hdone). assert (Hi : (i, k) ∈ main_rank_for_shard d) by (rewrite E; set_solver).
    destruct (single_rank_spec ls i k Hok Hi) as (b & -> & Hb). cbn [mbind res_bind].
    pose proof (ft_holds _ _ Hfits i k Hi) as Hk. destruct (proj2 (ft_metadata _ _ Hfits i) (ex_intro _ k Hk)) as [t Ht].
    apply holds_range in Hk. destruct Hok as [Hlen' _]. destruct (lookup_lt_is_Some_2 by_rank (Z.to_nat k) ltac:(lia)) as [l Hl].
    destruct b; [|rewrite Ht; destruct (bool_decide_reflect (st_dtype t = dtype)) as [Hd|Hd]].
    + eexists. split; [done|]. split; [done|]. split; [done|]. intros j k' u [Hj|[= -> ->]%list_elem_of_singleton]%elem_of_app; [by eapply Hdone|].
      intros _ _. left. by apply Hb.
    + rewrite <- (Z2Nat.id k), (py_get_nonneg _ _ _ Hl), Nat2Z.id by lia. cbn [mbind res_bind]. eexists. split; [done|]. split; [by rewrite length_insert|].
      assert (Hnew : <[Z.to_nat k:=l ++ [i]]> by_rank !! Z.to_nat k = Some (l ++ [i])) by (apply list_lookup_insert_eq; by eapply lookup_lt_Some).
      split.
      * intros r l' j Hr Hj. destruct (decide (r = Z.to_nat k)) as [->|Hne]; [|rewrite list_lookup_insert_ne in Hr by done; by eapply Hin].
        rewrite Hnew in Hr. injection Hr as <-. apply elem_of_app in Hj as [Hj| ->%list_elem_of_singleton]; [by eapply Hin|]. rewrite Z2Nat.id by lia. done.
      * intros j k' u Hj Hu Hdu. apply elem_of_app in Hj as [Hj|Hj%list_elem_of_singleton].
        -- destruct (Hdone j k' u Hj Hu Hdu) as [Hdel|(r & l' & Hr & Hjl)]; [by left|right]. destruct (decide (r = Z.to_nat k)) as [->|Hne].
           ++ exists (Z.to_nat k), (l ++ [i]). split; [done|]. rewrite Hl in Hr. injection Hr as ->. set_solver.
           ++ exists r, l'. by rewrite list_lookup_insert_ne.
        -- assert (j = i) as -> by congruence. right. exists (Z.to_nat k), (l ++ [i]). split; [done|set_solver].
    + eexists. split; [done|]. split; [done|]. split; [done|]. intros j k' u Hj Hu Hdu. apply elem_of_app in Hj as [Hj|Hj%list_elem_of_singleton]; [by eapply Hdone|].
      assert (j = i) as -> by congruence. congruence.
Qed.

Lemma elem_of_rounds by_rank k i : (exists round, round ∈ rounds by_rank /\ (k, i) ∈ round) <-> exists r l, k = Z.of_nat r /\ by_rank !! r = Some l /\ i ∈ l.
Proof.
  unfold rounds. split.
  - intros (round & (j & -> & _)%list_elem_of_fmap & Hin). apply list_elem_of_omap in Hin as ([r l] & Hr & E).
    apply elem_of_lookup_imap in Hr as (r' & l' & [= -> ->] & Hr). destruct (l' !! j) as [i'|] eqn:Ej; cbn in E; [|done].
    assert (Z.of_nat r' = k /\ i' = i) as [<- ->] by (split; congruence). exists r', l'. split; [done|]. split; [done|]. by eapply list_elem_of_lookup_2.
  - intros (r & l & -> & Hr & [j Hj]%list_elem_of_lookup). eexists. split; [apply list_elem_of_fmap; exists j; split; [reflexivity|]|].
    + apply elem_of_seq. split; [lia|]. assert (Hl : length l ∈ map length by_rank) by (apply list_elem_of_fmap; exists l; split; [done|by eapply list_elem_of_lookup_2]).
      apply max_list_elem_of_le in Hl. apply lookup_lt_Some in Hj. lia.
    + apply list_elem_of_omap. exists (r, l). split; [apply elem_of_lookup_imap; eauto|]. cbn. by rewrite Hj.
Qed.

Lemma gather_rounds_spec ls : loaders_ok ls ->
  exists ls', exchange_loaded_tensors_gather_rounds d ls = Ok ls' /\ loaders_ok ls' /\ forall i k, (i, k) ∈ main_rank_for_shard d -> delivered i ls'.
Proof.
  intros H0. unfold exchange_loaded_tensors_gather_rounds.
  match goal with |- exists ls', foldR ?f _ _ = _ /\ _ => destruct (exchange_seq f (fun dtype i => exists k t, (i, k) ∈ main_rank_for_shard d /\
    shard_to_metadata d !! i = Some t /\ st_dtype t = dtype) (dtypes d) ls) as (ls' & -> & Hok & Hdel & _) end; [|done|].
  - intros dtype ls1 _ Hok1. destruct (shards_by_rank_spec ls1 dtype Hok1) as (by_rank & -> & Hmain & Hcov). cbn [mbind res_bind].
    match goal with |- exists ls', foldR ?f _ _ = _ /\ _ => destruct (exchange_seq f (fun round i => exists k, (k, i) ∈ round) (rounds by_rank) ls1)
      as (ls2 & -> & Hok2 & Hdel2 & Hp2) end; [|done|].
    + intros round ls2 Hround Hok2.
      match goal with |- exists ls', foldR ?f _ _ = _ /\ _ => destruct (exchange_seq f (fun x i => snd x = i) round ls2) as (ls3 & -> & Hok3 & Hdel3 & Hp3) end; [|done|].
      2: { exists ls3. split; [done|]. split; [done|]. split; [|done]. intros i [k Hk]. by apply (Hdel3 (k, i)). }
      intros [k i] ls3 Hki Hok3. destruct (proj1 (elem_of_rounds by_rank k i)) as (r & l & -> & Hr & Hi); [by exists round|].
        destruct (send_spec ls3 i (Z.of_nat r) Hok3 (Hmain r l i Hr Hi)) as (ls4 & -> & Hok4 & Hi4 & Hp4). exists ls4. split; [done|]. split; [done|].
        split; [by intros j <-|done].
    + exists ls2. split; [done|]. split; [done|]. split; [|done]. intros i (k & t & Hi & Ht & Hd).
      destruct (Hcov i k t Hi Ht Hd) as [Hd1|(r & l & Hr & Hil)]; [by apply Hp2|].
      destruct (proj2 (elem_of_rounds by_rank (Z.of_nat r) i)) as (round & Hround & Hin); [eauto|]. apply (Hdel2 round); eauto.
  - exists ls'. split; [done|]. split; [done|]. intros i k Hi. pose proof (ft_holds _ _ Hfits i k Hi) as Hk.
    destruct (proj2 (ft_metadata _ _ Hfits i) (ex_intro _ k Hk)) as [t Ht]. apply (Hdel (st_dtype t)); [|eauto].
    unfold dtypes. rewrite merge_sort_Permutation. apply elem_of_remove_dups, list_elem_of_fmap. exists (i, t). by rewrite elem_of_map_to_list.
Qed.

(** *** One gather of all dictionaries *)

Definition own_only (ls : list loader) : Prop := forall r l i, ls !! r = Some l -> is_Some (lo_tensors l !! i) -> (i, Z.of_nat r) ∈ main_rank_for_shard d.

Lemma gather_object_spec ls : loaders_ok ls -> own_only ls ->
  exists ls', exchange_gather_object ls = Ok ls' /\ loaders_ok ls' /\ forall i k, (i, k) ∈ main_rank_for_shard d -> delivered i ls'.
Proof.
  intros [Hlen Hok] Hown. destruct (merge_all_spec (map lo_tensors ls)) as [Hsize Hlook].
  { intros a b x y i Ha Hb Hx Hy. apply list_lookup_fmap_Some in Ha as (la & -> & Ha), Hb as (lb & -> & Hb).
    pose proof (Hown a la i Ha Hx) as H1. pose proof (Hown b lb i Hb Hy) as H2.
    apply (dict_get_spec _ _ _ (ft_nodup _ _ Hfits)) in H1, H2. rewrite H1 in H2. injection H2 as H2. lia. }
  unfold exchange_gather_object. rewrite Hsize, map_map, Nat.eqb_refl. eexists. split; [done|].
  assert (Hstep : forall r l', map (fun l => mkLoader (merge_all (map lo_tensors ls)) (lo_unloaded l)) ls !! r = Some l' ->
      exists l, ls !! r = Some l /\ lo_unloaded l' = lo_unloaded l /\ lo_tensors l' = merge_all (map lo_tensors ls)).
  { intros r l' (l & -> & Hl)%list_lookup_fmap_Some. by exists l. }
  assert (Hmain : forall i k, (i, k) ∈ main_rank_for_shard d -> is_Some (merge_all (map lo_tensors ls) !! i)).
  { intros i k Hi. pose proof (holds_range _ _ _ (ft_holds _ _ Hfits i k Hi)) as Hr. destruct (lookup_lt_is_Some_2 ls (Z.to_nat k) ltac:(lia)) as [l Hl].
    destruct (lk_loads _ _ (Hok _ _ Hl) i) as [x Hx]; [by rewrite Z2Nat.id by lia|]. exists x. apply Hlook. exists (Z.to_nat k), (lo_tensors l).
    by rewrite list_lookup_fmap, Hl. }
  split; [split; [by rewrite length_map|]|].
  - intros r l' Hr. destruct (Hstep r l' Hr) as (l & Hrl & Eu & Et). destruct (Hok r l Hrl) as [H1 H2 H3 H4]. split; rewrite ?Eu, ?Et; auto.
    + intros i x (a & m & (la & -> & Ha)%list_lookup_fmap_Some & Hx)%Hlook. by apply (lk_reads _ _ (Hok a la Ha)).
    + intros i. apply Hmain.
  - intros i k Hi r l' Hr _. destruct (Hstep r l' Hr) as (l & _ & _ & ->). by eapply Hmain.
Qed.

Lemma exchange_spec algo ls : algo ∈ ["gather_object"; "gather_rounds"; "broadcast"]%string -> loaders_ok ls -> own_only ls ->
  exists ls', exchange_by_distribution algo (Some d) ls = Ok ls' /\ loaders_ok ls' /\ forall i k, (i, k) ∈ main_rank_for_shard d -> delivered i ls'.
Proof.
  intros Halgo Hok Hown. unfold exchange_by_distribution.
  repeat (apply elem_of_cons in Halgo as [->|Halgo]); cbn.
  - by apply gather_object_spec.
  - by apply gather_rounds_spec.
  - by apply broadcast_spec.
  - by apply elem_of_nil in Halgo.
Qed.

(** *** Before and after the exchange *)

Lemma to_load_spec shards i :
  (forall t, to_load_shards shards !! i = Some t -> t ∈ shards /\ sharded_tensor_shard_id t = i /\ is_main_replica (st_replica_id t) = true) /\
  (forall t, t ∈ shards -> sharded_tensor_shard_id t = i -> is_main_replica (st_replica_id t) = true -> is_Some (to_load_shards shards !! i)).
Proof. apply (fold_shards_spec (fun t => is_main_replica (st_replica_id t))). done. Qed.
Lemma unloaded_spec shards i :
  (forall t, unloaded_shards shards !! i = Some t -> t ∈ shards /\ sharded_tensor_shard_id t = i /\ negb (is_main_replica (st_replica_id t)) = true) /\
  (forall t, t ∈ shards -> sharded_tensor_shard_id t = i -> negb (is_main_replica (st_replica_id t)) = true -> is_Some (unloaded_shards shards !! i)).
Proof. apply (fold_shards_spec (fun t => negb (is_main_replica (st_replica_id t)))). intros m t. by destruct (is_main_replica _). Qed.

Lemma base_load_spec (m : gmap shard_id sharded_tensor) : (forall i t, m !! i = Some t -> exists x, read t = Ok x) ->
  exists loaded, base_load read m = Ok loaded /\ forall i x, loaded !! i = Some x <-> exists t, m !! i = Some t /\ read t = Ok x.
Proof.
  intros Hread. unfold base_load.
  destruct (mapR_ex (fun '(i, t) => x ← read t; mret (i, x)) (fun p q => fst p = fst q /\ read (snd p) = Ok (snd q)) (map_to_list m)) as (l & -> & Hl).
  { intros [i t] Hi%elem_of_map_to_list. destruct (Hread i t Hi) as [x Hx]. rewrite Hx. by exists (i, x). }
  cbn. eexists. split; [done|]. intros i x.
  assert (Hnd : NoDup l.*1).
  { assert (Ekeys : map fst (map_to_list m) = map fst l) by (clear -Hl; induction Hl as [|? ? ? ? [E _] _ IH]; cbn; [done|by rewrite E, IH]).
    change (NoDup (map fst l)). rewrite <- Ekeys. apply NoDup_fst_map_to_list. }
  rewrite <- elem_of_list_to_map by done. split.
  - intros [n Hn]%list_elem_of_lookup. destruct (Forall2_lookup_r _ _ _ _ _ Hl Hn) as ([j t] & Hj & E & Hr). cbn in *. subst j.
    exists t. split; [|done]. apply elem_of_map_to_list. by eapply list_elem_of_lookup_2.
  - intros (t & [n Hn]%elem_of_map_to_list%list_elem_of_lookup & Hr). destruct (Forall2_lookup_l _ _ _ _ _ Hl Hn) as ([j y] & Hj & E & Hy). cbn in *. subst j.
    rewrite Hr in Hy. injection Hy as ->. by eapply list_elem_of_lookup_2.
Qed.

Lemma relabel_in r ts t' : all_shards !! r = Some ts -> t' ∈ map (fun t => relabel d (Z.of_nat r, t)) ts ->
  exists t, t ∈ concat all_shards /\ t ∈ ts /\ sharded_tensor_shard_id t' = sharded_tensor_shard_id t /\ read t' = read t /\
    is_main_replica (st_replica_id t') = assigned_to d (Z.of_nat r) (sharded_tensor_shard_id t) /\ holds all_shards (Z.of_nat r) (sharded_tensor_shard_id t).
Proof.
  intros Hr (t & -> & Ht)%list_elem_of_fmap. assert (Htag : (Z.of_nat r, t) ∈ tagged all_shards) by (apply elem_of_tagged; eauto).
  exists t. split; [by eapply elem_of_tagged_in|]. split; [done|]. split; [done|]. split; [apply read_replica|]. split; [apply relabel_main|]. by exists t.
Qed.
Lemma holds_in r ts i : all_shards !! r = Some ts -> holds all_shards (Z.of_nat r) i -> exists t, t ∈ ts /\ sharded_tensor_shard_id t = i.
Proof.
  intros Hr (t & (r' & ts' & Hr' & E & Ht)%elem_of_tagged & Hi). assert (r' = r) as -> by lia. rewrite Hr in Hr'. injection Hr' as <-. eauto.
Qed.

Lemma rank_loader_spec r ts : all_shards !! r = Some ts ->
  exists loaded, base_load read (to_load_shards (map (fun t => relabel d (Z.of_nat r, t)) ts)) = Ok loaded /\
    loader_ok r (mkLoader loaded (unloaded_shards (map (fun t => relabel d (Z.of_nat r, t)) ts))) /\
    forall i, is_Some (loaded !! i) -> (i, Z.of_nat r) ∈ main_rank_for_shard d.
Proof.
  intros Hr. set (shards := map (fun t => relabel d (Z.of_nat r, t)) ts).
  destruct (base_load_spec (to_load_shards shards)) as (loaded & E & Hl).
  { intros i t' Ht'. apply to_load_spec in Ht' as (Hin & _ & _). destruct (relabel_in r ts t' Hr Hin) as (t & Ht & _ & _ & -> & _). by apply read_ok. }
  exists loaded. split; [done|]. assert (Hown : forall i x, loaded !! i = Some x -> reads i x /\ (i, Z.of_nat r) ∈ main_rank_for_shard d).
  { intros i x (t' & Ht' & Hx)%Hl. apply to_load_spec in Ht' as (Hin & Hi & Hm). destruct (relabel_in r ts t' Hr Hin) as (t & Ht & _ & Eid & Erd & Em & _).
    rewrite Em in Hm. apply (assigned_to_spec all_shards) in Hm; [|done]. rewrite <- Eid, Hi in Hm. split; [|done]. exists t.
    split; [done|]. split; [congruence|]. by rewrite <- Erd. }
  split; [split; cbn|intros i [x Hx]; by apply (Hown i x)].
  - intros i [t' Ht']. apply unloaded_spec in Ht' as (Hin & Hi & Hm). destruct (relabel_in r ts t' Hr Hin) as (t & _ & _ & Eid & _ & Em & Hh).
    rewrite <- Eid, Hi in *. split; [done|]. intros Hmain. apply (assigned_to_spec all_shards) in Hmain; [|done]. rewrite Em, Hmain in Hm. done.
  - intros i (t & Ht & Hi)%(holds_in r ts); [|done]. destruct (assigned_to d (Z.of_nat r) i) eqn:Ea; [right; by apply (assigned_to_spec all_shards)|left].
    apply (unloaded_spec shards i) with (t := relabel d (Z.of_nat r, t)); [by apply (list_elem_of_fmap_2 (fun t => relabel d (Z.of_nat r, t)))|done|].
    rewrite relabel_main. cbn [fst snd]. by rewrite Hi, Ea.
  - intros i x Hx. by apply Hown.
  - intros i Hmain. pose proof (ft_holds _ _ Hfits i _ Hmain) as (t & Ht & Hi)%(holds_in r ts); [|done].
    destruct (to_load_spec shards i) as [_ Hto]. destruct (Hto (relabel d (Z.of_nat r, t))) as [t' Ht'];
      [by apply (list_elem_of_fmap_2 (fun t => relabel d (Z.of_nat r, t)))|done| |].
    + rewrite relabel_main. cbn [fst snd]. rewrite Hi. by apply (assigned_to_spec all_shards).
    + pose proof Ht' as (Hin & _ & _)%to_load_spec. destruct (relabel_in r ts t' Hr Hin) as (u & Hu & _ & _ & Erd & _).
      destruct (read_ok u Hu) as [x Hx]. exists x. apply Hl. exists t'. by rewrite Erd.
Qed.

(** After the exchange every rank has what it holds. *)
Lemma fill_in_spec r ts l : all_shards !! r = Some ts -> loader_ok r l -> (forall i, is_Some (lo_unloaded l !! i) -> is_Some (lo_tensors l !! i)) ->
  fill_in (lo_tensors l) (map (fun t => relabel d (Z.of_nat r, t)) ts) = mapR read ts.
Proof.
  intros Hr [H1 H2 H3 H4] Hdel. unfold fill_in.
  assert (Hone : forall t, t ∈ ts -> exists x, lo_tensors l !! sharded_tensor_shard_id t = Some x /\ read t = Ok x).
  { intros t Ht. assert (Htag : (Z.of_nat r, t) ∈ tagged all_shards) by (apply elem_of_tagged; eauto).
    assert (Hs : is_Some (lo_tensors l !! sharded_tensor_shard_id t)).
    { destruct (H2 (sharded_tensor_shard_id t)) as [Hu|Hu]; [by exists t|by apply Hdel|by apply H4]. }
    destruct Hs as [x Hx]. exists x. split; [done|]. destruct (H3 _ _ Hx) as (u & Hu & Ei & <-).
    apply read_id; [by eapply elem_of_tagged_in|done|done]. }
  clear Hr. induction ts as [|t ts IH]; [done|]. cbn [map mapR]. change (sharded_tensor_shard_id (relabel d (Z.of_nat r, t))) with (sharded_tensor_shard_id t).
  destruct (Hone t ltac:(left)) as (x & -> & ->). cbn [mbind res_bind mret res_ret]. rewrite IH; [done|]. intros u Hu. apply Hone. by right.
Qed.

Lemma init_loaders_spec :
  exists ls, mapR (fun shards => loaded ← base_load read (to_load_shards shards); mret (mkLoader loaded (unloaded_shards shards))) (relabel_all d all_shards) = Ok ls /\
    loaders_ok ls /\ own_only ls.
Proof.
  destruct (mapR_ix (fun shards => loaded ← base_load read (to_load_shards shards); mret (mkLoader loaded (unloaded_shards shards)))
    (fun r _ l => loader_ok r l /\ forall i, is_Some (lo_tensors l !! i) -> (i, Z.of_nat r) ∈ main_rank_for_shard d) (relabel_all d all_shards)) as (ls & -> & Hlen & Hls).
  { intros r shards Hr. destruct (lookup_lt_is_Some_2 all_shards r) as [ts Hts]; [apply lookup_lt_Some in Hr; by rewrite length_relabel_all in Hr|].
    rewrite (relabel_all_lookup d _ _ _ Hts) in Hr. injection Hr as <-. destruct (rank_loader_spec r ts Hts) as (loaded & -> & Hok & Hown). eauto. }
  rewrite length_relabel_all in Hlen. exists ls. split; [done|].
  assert (Hat : forall r l, ls !! r = Some l -> loader_ok r l /\ forall i, is_Some (lo_tensors l !! i) -> (i, Z.of_nat r) ∈ main_rank_for_shard d).
  { intros r l Hl. destruct (lookup_lt_is_Some_2 (relabel_all d all_shards) r) as [shards Hs]; [apply lookup_lt_Some in Hl; rewrite length_relabel_all; lia|].
    by eapply Hls. }
  split; [split; [done|]|]; intros r l; [by intros []%Hat|]. intros i [_ H]%Hat. apply H.
Qed.

(** Loading, exchanging and filling in, for a distribution that fits *)
Lemma load_with_spec algo vs : algo ∈ ["gather_object"; "gather_rounds"; "broadcast"]%string -> mapR (mapR read) all_shards = Ok vs ->
  (ls ← mapR (fun shards => loaded ← base_load read (to_load_shards shards); mret (mkLoader loaded (unloaded_shards shards))) (relabel_all d all_shards);
   ls ← exchange_by_distribution algo (Some d) ls;
   mapR (fun '(l, shards) => if bool_decide (dom (lo_unloaded l) ⊆ dom (lo_tensors l)) then fill_in (lo_tensors l) shards
     else raise_ Exception_ "CheckpointingException: Missing shards after fully parallel loading") (zip ls (relabel_all d all_shards))) = Ok vs.
Proof.
  intros Halgo Hvs. destruct init_loaders_spec as (ls & -> & Hok & Hown). cbn [mbind res_bind].
  destruct (exchange_spec algo ls Halgo Hok Hown) as (ls' & -> & [Hlen Hok'] & Hdel). cbn [mbind res_bind].
  apply mapR_ok_Forall2 in Hvs. apply mapR_ok_Forall2. apply Forall2_same_length_lookup_2.
  { rewrite length_zip_with, length_relabel_all, Hlen, <- (Forall2_length _ _ _ Hvs). lia. }
  intros r [l shards] v Hr Hv. apply lookup_zip_with_Some in Hr as (l0 & s0 & [= <- <-] & Hl & Hs).
  destruct (Forall2_lookup_r _ _ _ _ _ Hvs Hv) as (ts & Hts & Ev). rewrite (relabel_all_lookup d _ _ _ Hts) in Hs. injection Hs as <-.
  assert (Hd : forall i, is_Some (lo_unloaded l !! i) -> is_Some (lo_tensors l !! i)).
  { intros i Hu. pose proof (lk_unloaded _ _ (Hok' r l Hl) i Hu) as [Hh _]. assert (Hi : i ∈ shards_in_this_group d) by (apply Hall; by exists (Z.of_nat r)).
    apply (ft_main _ _ Hfits) in Hi as ([j k] & Ej & Hk)%list_elem_of_fmap. cbn in Ej. subst j. by apply (Hdel i k Hk r l). }
  rewrite bool_decide_eq_true_2; [|intros i; rewrite !elem_of_dom; apply Hd]. rewrite <- Ev. apply fill_in_spec; [done|by apply Hok'|done].
Qed.
End Load.

(* ================================================================== *)
(** ** The refinement                                                  *)
(* ================================================================== *)

Section Refinement.
Context (element_size : string -> Z) {D : Type}.

(** What the base strategy reads for a shard depends on its id: the data of one shard is replicated on the ranks that hold it. *)
Record replicated (read : sharded_tensor -> res D) (all_shards : list (list sharded_tensor)) : Prop := mkReplicated {
  rp_replica t r : read (set_replica_id r t) = read t;
  rp_id t u : t ∈ concat all_shards -> u ∈ concat all_shards -> sharded_tensor_shard_id t = sharded_tensor_shard_id u -> read t = read u
}.

Lemma base_reads (read : sharded_tensor -> res D) all_shards vs : mapR (mapR read) all_shards = Ok vs -> forall t, t ∈ concat all_shards -> exists x, read t = Ok x.
Proof.
  intros H%mapR_ok_Forall2 t (ts & Hts & Ht)%list_elem_of_In%in_concat. apply list_elem_of_In, list_elem_of_lookup in Hts as [r Hr], Ht as [j Hj].
  destruct (Forall2_lookup_l _ _ _ _ _ H Hr) as (v & _ & Hv%mapR_ok_Forall2). destruct (Forall2_lookup_l _ _ _ _ _ Hv Hj) as (x & _ & Hx). eauto.
Qed.

Lemma load_fits (read : sharded_tensor -> res D) all_shards d algo (do_cache : bool) cached vs : (1 < length all_shards)%nat ->
  precomputed_distribution element_size do_cache cached all_shards true = Ok (Some d) -> fits all_shards d ->
  (forall i, held all_shards i -> i ∈ shards_in_this_group d) -> replicated read all_shards ->
  algo ∈ ["gather_object"; "gather_rounds"; "broadcast"]%string -> mapR (mapR read) all_shards = Ok vs ->
  fully_parallel_load element_size read algo do_cache cached all_shards = Ok (vs, if do_cache then Some d else cached).
Proof.
  intros Hlen Hd Hfits Hall [Hrep Hid] Halgo Hvs. unfold fully_parallel_load. destruct (Nat.leb_spec (length all_shards) 1) as [|_]; [lia|].
  unfold apply_loading_parallelization, apply_parallelization. rewrite Hd. cbn [mbind res_bind].
  rewrite distribute_all_ok; [|done|intros i; apply (ft_main _ _ Hfits)|apply Hfits]. cbn [mbind res_bind mret res_ret].
  pose proof (load_with_spec read Hrep all_shards d Hfits Hall Hid (base_reads read all_shards vs Hvs) algo vs Halgo Hvs) as H.
  destruct (mapR _ (relabel_all d all_shards)) as [ls|]; cbn [mbind res_bind] in *; [|done].
  destruct (exchange_by_distribution algo (Some d) ls) as [ls'|]; cbn [mbind res_bind] in *; [|done]. by rewrite H.
Qed.

(** (C6) The contract of [FullyParallelLoadStrategyWrapper.load]: when the base strategy can read all shards on all ranks, the wrapped load
    returns on every rank what the base strategy would, for each of the three exchange algorithms; no exchange raises.  With caching, later
    loads of the same structure use the distribution of the first one, and return what the base strategy would read then. *)
Theorem parallel_load_refines (read : sharded_tensor -> res D) all_shards algo (do_cache : bool) vs
    (Hwf : well_formed element_size all_shards) (Hread : replicated read all_shards)
    (Halgo : algo ∈ ["gather_object"; "gather_rounds"; "broadcast"]%string) (Hvs : mapR (mapR read) all_shards = Ok vs) :
  exists cached, fully_parallel_load element_size read algo do_cache None all_shards = Ok (vs, cached) /\
    (do_cache = true -> forall read' all_shards' algo' vs', same_structure all_shards all_shards' -> replicated read' all_shards' ->
       algo' ∈ ["gather_object"; "gather_rounds"; "broadcast"]%string -> mapR (mapR read') all_shards' = Ok vs' ->
       fully_parallel_load element_size read' algo' do_cache cached all_shards' = Ok (vs', cached)).
Proof.
  destruct (Nat.leb_spec (length all_shards) 1) as [Hlen|Hlen].
  - exists None. unfold fully_parallel_load. rewrite (proj2 (Nat.leb_le _ _) Hlen), Hvs. split; [done|].
    intros _ read' l algo' vs' E _ _ Hvs'. rewrite (same_structure_length _ _ E) in Hlen. by rewrite (proj2 (Nat.leb_le _ _) Hlen), Hvs'.
  - destruct (determine_spec element_size all_shards true Hlen Hwf) as (d & Ed & Hfits & Hgroup & _).
    exists (if do_cache then Some d else None). split.
    + apply load_fits; [done| |done|intros i; apply Hgroup|done|done|done]. by destruct do_cache.
    + intros -> read' l algo' vs' E Hread' Halgo' Hvs'. apply (load_fits read' l d algo' true (Some d)); try done.
      * by rewrite <- (same_structure_length _ _ E).
      * by eapply fits_structure.
      * intros i [k Hk]. apply Hgroup. exists k. eapply same_structure_holds; [|done]. by symmetry.
Qed.
End Refinement.

(** The hypotheses hold for the sample and a base strategy that reads the numbers of the elements. *)
Definition sample_read (t : sharded_tensor) : res (list Z) :=
  mret (match st_global_offset t, st_local_shape t with [o], [n] => zrange o (o + n) | _, _ => [] end).
Lemma parallel_load_refines_witness : exists cached,
  fully_parallel_load sample_element_size sample_read "broadcast" true None sample_shards =
    Ok ([[zrange 0 2; zrange 2 7; zrange 7 10]; [zrange 0 2; zrange 2 7; zrange 7 10]], cached).
Proof.
  destruct (parallel_load_refines sample_element_size sample_read sample_shards "broadcast" true
    [[zrange 0 2; zrange 2 7; zrange 7 10]; [zrange 0 2; zrange 2 7; zrange 7 10]] sample_well_formed) as (cached & E & _).
  - split; [done|]. intros t u Ht Hu Hid.
    repeat (apply elem_of_cons in Ht as [->|Ht]; [repeat (apply elem_of_cons in Hu as [->|Hu]; [first [reflexivity|discriminate Hid]|]); by apply elem_of_nil in Hu|]).
    by apply elem_of_nil in Ht.
  - set_solver.
  - reflexivity.
  - exists cached. exact E.
Defined.
