(* ===== verification/DistCkptValidation.v ===== *)
(** * The shards of a global tensor and their validation

    [megatron/core/dist_checkpointing/mapping.py]: the constructors of a sharded tensor and its place in the global tensor;
    [validation.py]: the check that the main replicas cover every global tensor without overlaps. *)

From stdpp Require Import sorting.
From S2P Require Import Prelude DistCkpt.

(* ================================================================== *)
(** ** Building sharded tensors                                        *)
(* ================================================================== *)

(** [raise CheckpointingException(...)] *)
Definition checkpointing_exception {A} (msg : string) : res A := raise_ Exception_ ("CheckpointingException: " +:+ msg).

(** [validate_metadata_integrity] of a tensor without data *)
Definition validate_metadata_integrity (t : sharded_tensor) : res unit :=
  if negb (Nat.eqb (length (st_global_shape t)) (length (st_global_offset t)))
  then checkpointing_exception "Global offset dimensions should be equal to global shape dimensions"
  else if negb (Nat.eqb (length (st_local_shape t) + st_prepend_axis_num t) (length (st_global_shape t)))
  then checkpointing_exception "Local shape together with `prepend_axis_num` dimensions should be equal to global shape dimensions"
  else match st_axis_fragmentations t with
       | None => mret tt
       | Some _ =>
           if existsb (fun '(off, sh) => negb (sh =? 0) && negb (off mod sh =? 0)) (zip (drop (st_prepend_axis_num t) (st_global_offset t)) (st_local_shape t))
           then checkpointing_exception "Global offset must be divisible by local shape"
           else mret tt
       end.

(** [from_rank_offsets]; the data is given by its dtype and shape, a rank offset by axis, rank and fragmentation. *)
Definition set_rank_offset (shape : list Z) (prepend : nat) (s : list Z * list Z * list Z) (x : Z * Z * Z) : res (list Z * list Z * list Z) :=
  let '(global_shape, global_offset, axis_fragmentations) := s in
  let '(axis, axis_rank_offset, axis_fragm) := x in
  if (axis <? 0) || (axis_rank_offset <? 0) || (axis_fragm <? 1) || (axis_fragm <=? axis_rank_offset)
  then checkpointing_exception "Invalid rank offsets"
  else
    local_axis_shape ← (if axis <? Z.of_nat prepend then mret 1 else py_get shape (axis - Z.of_nat prepend));
    let a := Z.to_nat axis in
    mret (<[a := axis_fragm * local_axis_shape]> global_shape, <[a := axis_rank_offset * local_axis_shape]> global_offset, <[a := axis_fragm]> axis_fragmentations).
Definition from_rank_offsets (key dtype : string) (shape : list Z) (rank_offsets : list (Z * Z * Z)) (r : replica_id) (prepend : nat)
    (allow_shape_mismatch : bool) : res sharded_tensor :=
  '(global_shape, global_offset, axis_fragmentations) ← foldR (set_rank_offset shape prepend)
    (replicate prepend 1 ++ shape, replicate (length shape + prepend) 0, replicate (length shape + prepend) 1) rank_offsets;
  let t := mkSharded key dtype shape global_shape global_offset (Some axis_fragmentations) r prepend allow_shape_mismatch None in
  validate_metadata_integrity t;; mret t.

(** The length of [flatten()[start : stop]] of a tensor of [n] elements *)
Definition slice_length (n start stop : Z) : Z :=
  let clamp x := if x <? 0 then Z.max 0 (x + n) else Z.min x n in Z.max 0 (clamp stop - clamp start).
(** [from_rank_offsets_flat]; [numel] elements of data. *)
Definition from_rank_offsets_flat (key dtype : string) (numel : Z) (non_flat_local_shape : list Z) (rank_offsets : list (Z * Z * Z)) (r : replica_id)
    (prepend : nat) (allow_shape_mismatch : bool) (flattened_range : option (Z * Z)) : res sharded_tensor :=
  match flattened_range with
  | None => checkpointing_exception "Cannot instantiate a non-flat ShardedTensor with `from_rank_offsets_flat` method."
  | Some (start, stop) =>
      if negb (stop - start =? numel) then checkpointing_exception "Flattened ShardedTensor data length must meet the slice length"
      else
        t ← from_rank_offsets key dtype non_flat_local_shape rank_offsets r prepend allow_shape_mismatch;
        let instance := mkSharded (st_key t) (st_dtype t) (st_local_shape t) (st_global_shape t) (st_global_offset t) (st_axis_fragmentations t)
          (st_replica_id t) (st_prepend_axis_num t) (st_allow_shape_mismatch t) (Some (start, stop)) in
        if negb (slice_length (zprod non_flat_local_shape) start stop =? numel) then checkpointing_exception "Data shape doesnt match expected"
        else validate_metadata_integrity instance;; mret instance
  end.

(** [global_slice]: indices of the prepended axes and slices of the others. *)
Inductive axis_slice := AxisIndex (off : Z) | AxisSlice (start stop : Z).
Definition global_slice (t : sharded_tensor) : res (list axis_slice) :=
  assert_ (Nat.eqb (length (st_global_offset t)) (length (st_local_shape t) + st_prepend_axis_num t)) "len(self.global_offset)";;
  mret (map AxisIndex (take (st_prepend_axis_num t) (st_global_offset t)) ++
    map (fun '(off, sh) => AxisSlice off (off + sh)) (zip (drop (st_prepend_axis_num t) (st_global_offset t)) (st_local_shape t))).

(** [local_chunk_offset_in_global] *)
Definition chunk_of (x : Z * Z) : res Z :=
  let '(off, sh) := x in
  m ← pymod off sh; assert_ (m =? 0) "str(self)";; floordiv off sh.
Definition local_chunk_offset_in_global (t : sharded_tensor) : res (list Z) :=
  assert_ (Nat.eqb (length (st_global_offset t)) (length (st_local_shape t) + st_prepend_axis_num t)) "len(self.global_offset)";;
  chunks ← mapR chunk_of (zip (drop (st_prepend_axis_num t) (st_global_offset t)) (st_local_shape t));
  mret (take (st_prepend_axis_num t) (st_global_offset t) ++ chunks).

(* ================================================================== *)
(** ** Validation                                                      *)
(* ================================================================== *)

(** All indices of a tensor of a shape *)
Fixpoint indices (shape : list Z) : list (list Z) :=
  match shape with
  | [] => [[]]
  | n :: shape' => flat_map (fun i => map (cons i) (indices shape')) (zrange 0 n)
  end.

(** A tensor of counters: a shape and the counters that are not zero.  An index of fewer axes stands for a subtensor. *)
Record counters := mkCounters { co_shape : list Z; co_counts : list Z -> Z }.
Fixpoint normalize_index (shape index : list Z) : res (list Z) :=
  match index, shape with
  | [], _ => mret []
  | _ :: _, [] => raise_ IndexError "too many indices for tensor"
  | i :: index', n :: shape' =>
      let j := if i <? 0 then i + n else i in
      if (j <? 0) || (n <=? j) then raise_ IndexError "index is out of bounds" else rest ← normalize_index shape' index'; mret (j :: rest)
  end.
Definition count_at (c : counters) (index : list Z) : res counters :=
  i ← normalize_index (co_shape c) index;
  mret (mkCounters (co_shape c) (fun j => co_counts c j + if bool_decide (take (length i) j = i) then 1 else 0)).
Definition all_counters (c : counters) (p : Z -> bool) : bool := forallb (fun i => p (co_counts c i)) (indices (co_shape c)).

(** [_compute_shards_access] *)
Definition compute_shards_access (rank_sharding : list (Z * sharded_tensor)) : res counters :=
  match rank_sharding with
  | [] => raise_ IndexError "list index out of range"
  | (_, some_rank_shard) :: _ =>
      match st_axis_fragmentations some_rank_shard with
      | None => raise_ TypeError "zeros()"
      | Some frag =>
          foldR (fun cnt '(_, sharding) =>
            if is_main_replica (st_replica_id sharding) then i ← local_chunk_offset_in_global sharding; count_at cnt i else mret cnt)
            (mkCounters frag (fun _ => 0)) rank_sharding
      end
  end.

(** [_validate_sharding_for_key_flattened] *)
Definition slice_le (a b : Z * Z) : Prop := fst a < fst b \/ fst a = fst b /\ snd a <= snd b.
#[export] Instance slice_le_dec : RelDecision slice_le.
Proof. intros a b. unfold slice_le. apply _. Defined.

Definition collect_slice (local_shape : list Z) (all_slices : list (Z * Z)) (sharding : sharded_tensor) : res (list (Z * Z)) :=
  assert_ (bool_decide (st_local_shape sharding = local_shape)) "sharding.local_shape == local_shape";;
  if negb (is_main_replica (st_replica_id sharding)) then mret all_slices
  else match st_flattened_range sharding with
       | None => raise_ AttributeError "'NoneType' object has no attribute 'start'"
       | Some slice => mret (all_slices ++ [slice])
       end.
(** The slices follow each other from [from]; the last one ends at [size]. *)
Fixpoint consecutive (from size : Z) (slices : list (Z * Z)) : bool :=
  match slices with
  | [] => from =? size
  | (start, stop) :: slices' => (start =? from) && consecutive stop size slices'
  end.
Definition validate_sharding_for_key_flattened (tensors_by_shard : list sharded_tensor) : res unit :=
  match tensors_by_shard with
  | [] => raise_ IndexError "list index out of range"
  | t :: _ =>
      all_slices ← foldR (collect_slice (st_local_shape t)) [] tensors_by_shard;
      match merge_sort slice_le all_slices with
      | [] => raise_ ValueError "not enough values to unpack (expected 2, got 0)"
      | slices => if consecutive 0 (zprod (st_local_shape t)) slices then mret tt
                  else checkpointing_exception "Flattened ranges dont cover the whole shard"
      end
  end.

(** The groups of [map_reduce] by offset, in the order of their first elements *)
Definition group_offsets (rank_sharding : list (Z * sharded_tensor)) : list (list Z) :=
  fold_left (fun offsets x => if bool_decide (st_global_offset (snd x) ∈ offsets) then offsets else offsets ++ [st_global_offset (snd x)]) rank_sharding [].
Definition group_at (rank_sharding : list (Z * sharded_tensor)) (offset : list Z) : list sharded_tensor :=
  map snd (filter (fun x => st_global_offset (snd x) = offset) rank_sharding).

Definition has_regular_grid (t : sharded_tensor) : bool := negb (is_none (st_axis_fragmentations t)).
Definition has_flattened_range (t : sharded_tensor) : bool := negb (is_none (st_flattened_range t)).

(** The agreement of a shard with the first one of its key *)
Definition check_agreement (some_rank_shard sharding : sharded_tensor) : res unit :=
  assert_ (bool_decide (st_dtype sharding = st_dtype some_rank_shard)) "sharding.dtype == dtype";;
  assert_ (bool_decide (st_global_shape sharding = st_global_shape some_rank_shard)) "sharding.global_shape == global_shape";;
  assert_ (Bool.eqb (has_regular_grid sharding) (has_regular_grid some_rank_shard)) "sharding.has_regular_grid == has_regular_sharding_grid";;
  (if has_regular_grid some_rank_shard then assert_ (bool_decide (st_local_shape sharding = st_local_shape some_rank_shard)) "sharding.local_shape == local_shape" else mret tt);;
  assert_ (Bool.eqb (has_flattened_range sharding) (has_flattened_range some_rank_shard)) "(sharding.flattened_range is not None) == has_flattened_range".

(** [_validate_sharding_for_key] *)
Definition validate_sharding_for_key (rank_sharding : list (Z * sharded_tensor)) : res unit :=
  match rank_sharding with
  | [] => raise_ IndexError "list index out of range"
  | (_, some_rank_shard) :: _ =>
      mapR (fun x => check_agreement some_rank_shard (snd x)) rank_sharding;;
      if negb (has_regular_grid some_rank_shard) then mret tt
      else
        shard_access_cnt ← compute_shards_access rank_sharding;
        shard_access_cnt ← (if has_flattened_range some_rank_shard then
            mapR (fun offset => validate_sharding_for_key_flattened (group_at rank_sharding offset)) (group_offsets rank_sharding);;
            mret (mkCounters (co_shape shard_access_cnt) (fun i => Z.min (co_counts shard_access_cnt i) 1))
          else mret shard_access_cnt);
        if all_counters shard_access_cnt (fun n => n =? 1) then mret tt else checkpointing_exception "Invalid access pattern"
  end.

(** [validate_sharding_integrity] on rank 0, the part for tensors: the shards of all ranks by key, in the order of their first occurrence. *)
Definition shard_keys (global_metadata : list (Z * sharded_tensor)) : list string :=
  fold_left (fun keys x => if bool_decide (st_key (snd x) ∈ keys) then keys else keys ++ [st_key (snd x)]) global_metadata [].
Definition validate_sharding_integrity (global_metadata : list (list sharded_tensor)) : res unit :=
  let shardings := concat (map (fun '(rank, shards) => map (pair (Z.of_nat rank)) shards) (imap pair global_metadata)) in
  mapR (fun key => validate_sharding_for_key (filter (fun x => st_key (snd x) = key) shardings)) (shard_keys shardings);;
  mret tt.
