(* ===== verification/DistCkptValidationProofs.v ===== *)
(** * What the validation of the shards guarantees

    Shards built by the constructors lie on a grid; the counters of the validation count the main replicas of the cells;
    an accepted key covers every element of its global tensor exactly once, and fully parallel saving keeps that. *)

From stdpp Require Import sorting.
From S2P Require Import Prelude DistCkpt DistCkptProofs DistCkptSave DistCkptValidation.

(* ================================================================== *)
(** ** The grid                                                        *)
(* ================================================================== *)

(** The local shape with the prepended axes *)
Definition full_shape (t : sharded_tensor) : list Z := replicate (st_prepend_axis_num t) 1 ++ st_local_shape t.

(** The shard is the cell [chunks] of a grid with [frag] cells per axis. *)
Record grid (t : sharded_tensor) (frag chunks : list Z) : Prop := mkGrid {
  gd_frag : st_axis_fragmentations t = Some frag;
  gd_length : length chunks = length (full_shape t);
  gd_global : st_global_shape t = zip_with Z.mul frag (full_shape t);
  gd_offset : st_global_offset t = zip_with Z.mul chunks (full_shape t);
  gd_range : Forall2 (fun c f => 0 <= c < f) chunks frag
}.

Lemma Forall2_insert_range (l k : list Z) (a : nat) c f : 0 <= c < f -> Forall2 (fun c f => 0 <= c < f) l k -> Forall2 (fun c f => 0 <= c < f) (<[a := c]> l) (<[a := f]> k).
Proof. intros Hc H. by apply Forall2_insert. Qed.
Lemma zip_with_mul_ones n l : length l = n -> zip_with Z.mul l (replicate n 1) = l.
Proof. revert n. induction l as [|x l IH]; intros [|n] E; cbn in *; try done. rewrite IH by lia. f_equal. lia. Qed.
Lemma zip_with_mul_one_l (l : list Z) : zip_with Z.mul (replicate (length l) 1) l = l.
Proof. induction l as [|x l IH]; [done|]. cbn [length replicate zip_with]. rewrite IH. f_equal. lia. Qed.
Lemma zip_with_mul_zero_l (l : list Z) : zip_with Z.mul (replicate (length l) 0) l = replicate (length l) 0.
Proof. induction l as [|x l IH]; [done|]. cbn [length replicate zip_with]. by rewrite IH. Qed.

Lemma set_rank_offset_grid shape prepend frag chunks gs go fr x s' : let loc := replicate prepend 1 ++ shape in
  length chunks = length loc -> length frag = length loc -> gs = zip_with Z.mul frag loc -> go = zip_with Z.mul chunks loc -> fr = frag ->
  Forall2 (fun c f => 0 <= c < f) chunks frag -> set_rank_offset shape prepend (gs, go, fr) x = Ok s' ->
  exists frag' chunks', s' = (zip_with Z.mul frag' loc, zip_with Z.mul chunks' loc, frag') /\ length chunks' = length loc /\ length frag' = length loc /\
    Forall2 (fun c f => 0 <= c < f) chunks' frag'.
Proof.
  intros loc Hlc Hlf -> -> -> Hrange. destruct x as [[axis off] f]. unfold set_rank_offset.
  destruct ((axis <? 0) || (off <? 0) || (f <? 1) || (f <=? off)) eqn:E; [done|].
  destruct (if axis <? Z.of_nat prepend then mret 1 else py_get shape (axis - Z.of_nat prepend)) as [l|] eqn:El; [|done]. intros [= <-].
  assert (Hl : loc !! Z.to_nat axis = Some l).
  { unfold loc. destruct (Z.ltb_spec axis (Z.of_nat prepend)) as [Ha|Ha].
    - injection El as <-. rewrite lookup_app_l by (rewrite length_replicate; lia). apply lookup_replicate. lia.
    - rewrite lookup_app_r; rewrite length_replicate; [|lia]. unfold py_get in El. destruct (Z.ltb_spec (axis - Z.of_nat prepend) 0); [lia|].
      destruct ((axis - Z.of_nat prepend <? 0) || _); [done|]. replace (Z.to_nat axis - prepend)%nat with (Z.to_nat (axis - Z.of_nat prepend)) by lia.
      destruct (shape !! _); [congruence|done]. }
  exists (<[Z.to_nat axis := f]> frag), (<[Z.to_nat axis := off]> chunks). rewrite !length_insert. split; [|split; [done|split; [done|]]].
  - rewrite <- (list_insert_id loc (Z.to_nat axis) l) at 3 4 by done. by rewrite !insert_zip_with.
  - apply Forall2_insert_range; [lia|done].
Qed.
Lemma from_rank_offsets_grid key dtype shape rank_offsets r prepend allow t : from_rank_offsets key dtype shape rank_offsets r prepend allow = Ok t ->
  exists frag chunks, grid t frag chunks /\ st_key t = key /\ st_local_shape t = shape /\ st_flattened_range t = None.
Proof.
  unfold from_rank_offsets. destruct (foldR _ _ rank_offsets) as [s|] eqn:E; [|done].
  apply (foldR_ind _ (fun _ s => exists frag chunks, s = (zip_with Z.mul frag (replicate prepend 1 ++ shape), zip_with Z.mul chunks (replicate prepend 1 ++ shape), frag) /\
    length chunks = length (replicate prepend 1 ++ shape) /\ length frag = length (replicate prepend 1 ++ shape) /\
    Forall2 (fun c f => 0 <= c < f) chunks frag)) in E.
  - destruct E as (frag & chunks & -> & Hlc & Hlf & Hrange). cbn [mbind res_bind].
    destruct (validate_metadata_integrity _); [|done]. intros [= <-]. exists frag, chunks. by repeat split.
  - exists (replicate (length shape + prepend) 1), (replicate (length shape + prepend) 0).
    assert (Hl : (length shape + prepend)%nat = length (replicate prepend 1 ++ shape)) by (rewrite length_app, length_replicate; lia).
    rewrite Hl, zip_with_mul_one_l, zip_with_mul_zero_l, !length_replicate. split; [done|]. split; [done|]. split; [done|].
    apply Forall2_replicate. lia.
  - intros _ x b b' _ (frag & chunks & -> & Hlc & Hlf & Hrange) Hs. exact (set_rank_offset_grid shape prepend frag chunks _ _ _ x b' Hlc Hlf eq_refl eq_refl eq_refl Hrange Hs).
Qed.

(** Shards as the constructors build them *)
Definition built (t : sharded_tensor) : Prop :=
  (exists key dtype shape rank_offsets r prepend allow, from_rank_offsets key dtype shape rank_offsets r prepend allow = Ok t) \/
  (exists key dtype numel shape rank_offsets r prepend allow range, from_rank_offsets_flat key dtype numel shape rank_offsets r prepend allow range = Ok t).
Definition on_grid (t : sharded_tensor) : Prop :=
  (exists frag chunks, grid t frag chunks) /\ match st_flattened_range t with None => True | Some (start, stop) => start <= stop end.

Lemma built_on_grid t : built t -> on_grid t.
Proof.
  intros [(key & dtype & shape & ro & r & pre & allow & E)|(key & dtype & numel & shape & ro & r & pre & allow & range & E)].
  - apply from_rank_offsets_grid in E as (frag & chunks & Hg & _ & _ & Hf). split; [eauto|]. by rewrite Hf.
  - unfold from_rank_offsets_flat in E. destruct range as [[start stop]|]; [|done]. destruct (Z.eqb_spec (stop - start) numel) as [Hn|]; [|done]. cbn [negb] in E.
    destruct (from_rank_offsets _ _ _ _ _ _ _) as [t0|] eqn:E0; [|done]. cbn [mbind res_bind] in E.
    destruct (Z.eqb_spec (slice_length (zprod shape) start stop) numel) as [Hs|]; [|done]. cbn [negb] in E.
    destruct (validate_metadata_integrity _); [|done]. injection E as <-.
    apply from_rank_offsets_grid in E0 as (frag & chunks & [H1 H2 H3 H4 H5] & _). split; [exists frag, chunks; by split|].
    cbn. unfold slice_length in Hs. lia.
Qed.
Lemma grid_set_replica t r frag chunks : grid t frag chunks -> grid (set_replica_id r t) frag chunks.
Proof. intros [H1 H2 H3 H4 H5]. by split. Qed.

(** *** The cell of a shard *)

Lemma chunk_of_mul l k : Forall (fun sh => 0 < sh) k -> length l = length k -> mapR chunk_of (zip (zip_with Z.mul l k) k) = Ok l.
Proof.
  intros Hk. revert l. induction Hk as [|sh k Hsh _ IH]; intros [|x l] E; cbn [length] in *; try done. cbn [zip_with mapR].
  assert (E1 : chunk_of (x * sh, sh) = Ok x).
  { unfold chunk_of. rewrite pymod_ok, floordiv_ok by lia. cbn [mbind res_bind]. by rewrite Z_mod_mult, Z_div_mult by lia. }
  change (mapR chunk_of (zip (zip_with Z.mul (x :: l) (sh :: k)) (sh :: k))) with (y ← chunk_of (x * sh, sh); ys ← mapR chunk_of (zip (zip_with Z.mul l k) k); mret (y :: ys)).
  rewrite E1. cbn [mbind res_bind].
  by rewrite IH by lia.
Qed.
Lemma grid_lengths t frag chunks : grid t frag chunks ->
  length (st_global_offset t) = (length (st_local_shape t) + st_prepend_axis_num t)%nat /\ length chunks = (st_prepend_axis_num t + length (st_local_shape t))%nat.
Proof.
  intros [_ Hl _ -> _]. rewrite length_zip_with, Hl. unfold full_shape. rewrite length_app, length_replicate. lia.
Qed.
Lemma grid_split t frag chunks : grid t frag chunks -> exists c1 c2, chunks = c1 ++ c2 /\ length c1 = st_prepend_axis_num t /\ length c2 = length (st_local_shape t) /\
  take (st_prepend_axis_num t) (st_global_offset t) = c1 /\ drop (st_prepend_axis_num t) (st_global_offset t) = zip_with Z.mul c2 (st_local_shape t).
Proof.
  intros Hg. pose proof (grid_lengths _ _ _ Hg) as [_ Hl]. exists (take (st_prepend_axis_num t) chunks), (drop (st_prepend_axis_num t) chunks).
  assert (H1 : length (take (st_prepend_axis_num t) chunks) = st_prepend_axis_num t) by (rewrite length_take; lia).
  split; [by rewrite take_drop|]. split; [done|]. split; [rewrite length_drop; lia|].
  destruct Hg as [_ _ _ -> _]. unfold full_shape. rewrite <- (take_drop (st_prepend_axis_num t) chunks) at 1 3.
  rewrite zip_with_app by (by rewrite length_replicate). rewrite zip_with_mul_ones by done.
  split; [rewrite take_app_length' by done|rewrite drop_app_length' by done]; done.
Qed.
Lemma grid_chunk t frag chunks : grid t frag chunks -> Forall (fun sh => 0 < sh) (st_local_shape t) -> local_chunk_offset_in_global t = Ok chunks.
Proof.
  intros Hg Hpos. pose proof (grid_lengths _ _ _ Hg) as [Hlo _]. destruct (grid_split _ _ _ Hg) as (c1 & c2 & -> & H1 & H2 & Et & Ed).
  unfold local_chunk_offset_in_global. rewrite Hlo, Nat.eqb_refl. cbn [assert_ mbind res_bind]. rewrite Et, Ed, (chunk_of_mul c2) by done. done.
Qed.

(** *** The elements of a shard *)

(** The element with coordinates [x] is in the slices. *)
Fixpoint in_slices (slices : list axis_slice) (x : list Z) : bool :=
  match slices, x with
  | [], [] => true
  | AxisIndex off :: slices', i :: x' => (i =? off) && in_slices slices' x'
  | AxisSlice start stop :: slices', i :: x' => (start <=? i) && (i <? stop) && in_slices slices' x'
  | _, _ => false
  end.
(** The number of an element of the local tensor when it is flattened, last axis first. *)
Fixpoint flat_index (shape x : list Z) : Z :=
  match shape, x with _ :: shape', i :: x' => i * zprod shape' + flat_index shape' x' | _, _ => 0 end.
(** The shard stores the element [x] of the global tensor. *)
Definition stores (t : sharded_tensor) (x : list Z) : bool :=
  match global_slice t with
  | Err _ => false
  | Ok slices => in_slices slices x && match st_flattened_range t with
      | None => true
      | Some (start, stop) => let i := flat_index (st_local_shape t) (drop (st_prepend_axis_num t) (zip_with Z.sub x (st_global_offset t))) in (start <=? i) && (i <? stop)
      end
  end.

Lemma in_slices_index c1 s x : in_slices (map AxisIndex c1 ++ s) x = true <-> exists x2, x = c1 ++ x2 /\ in_slices s x2 = true.
Proof.
  revert x. induction c1 as [|c c1 IH]; intros x; cbn; [split; [eauto|by intros (x2 & -> & H)]|]. destruct x as [|i x].
  - split; [done|by intros (x2 & E & _)].
  - rewrite andb_true_iff, Z.eqb_eq, IH. split; [intros [-> (x2 & -> & H)]; eauto|]. intros (x2 & [= -> ->] & H). eauto.
Qed.
Lemma in_slices_grid c k x : Forall (fun sh => 0 < sh) k -> length c = length k ->
  in_slices (map (fun '(off, sh) => AxisSlice off (off + sh)) (zip (zip_with Z.mul c k) k)) x = true <-> length x = length k /\ zip_with Z.div x k = c.
Proof.
  intros Hk. revert c x. induction Hk as [|sh k Hsh _ IH]; intros [|c cs] x E; cbn [length] in *; try done.
  - destruct x; cbn; by split; [|intros [? _]].
  - destruct x as [|i x]; cbn [zip_with map in_slices length]; [split; [done|by intros [? _]]|]. rewrite !andb_true_iff, Z.leb_le, Z.ltb_lt, (IH cs x) by lia. split.
    + intros [[H1 H2] [Hl ->]]. split; [lia|]. f_equal. symmetry. apply (Z.div_unique i sh c (i - c * sh)); [left; lia|lia].
    + intros [Hl [= <- Hc]]. split; [|split; [lia|done]]. pose proof (Z.div_mod i sh ltac:(lia)). pose proof (Z.mod_pos_bound i sh Hsh). nia.
Qed.

(** The cell of a shard, computed from its offset *)
Definition cell (t : sharded_tensor) : list Z := zip_with Z.div (st_global_offset t) (full_shape t).
Definition positive (t : sharded_tensor) : Prop := Forall (fun sh => 0 < sh) (st_local_shape t).

Lemma full_positive t : positive t -> Forall (fun sh => 0 < sh) (full_shape t).
Proof. intros H. unfold full_shape. apply Forall_app. split; [apply Forall_replicate; lia|done]. Qed.
Lemma zip_div_mul l k : Forall (fun sh => 0 < sh) k -> length l = length k -> zip_with Z.div (zip_with Z.mul l k) k = l.
Proof.
  intros Hk. revert l. induction Hk as [|sh k Hsh _ IH]; intros [|x l] E; cbn [length] in *; try done. cbn [zip_with]. rewrite Z_div_mult by lia. by rewrite IH by lia.
Qed.
Lemma grid_cell t frag chunks : grid t frag chunks -> positive t -> cell t = chunks.
Proof. intros [_ Hl _ Ho _] Hp. unfold cell. rewrite Ho. apply zip_div_mul; [by apply full_positive|done]. Qed.

Lemma zip_with_div_ones n l : length l = n -> zip_with Z.div l (replicate n 1) = l.
Proof. revert n. induction l as [|x l IH]; intros [|n] E; cbn in *; try done. rewrite IH, Z.div_1_r by lia. done. Qed.
Lemma global_slice_grid t frag chunks : grid t frag chunks -> positive t ->
  exists slices, global_slice t = Ok slices /\ forall x, in_slices slices x = true <-> length x = length (full_shape t) /\ zip_with Z.div x (full_shape t) = cell t.
Proof.
  intros Hg Hp. rewrite (grid_cell _ _ _ Hg Hp). pose proof (grid_lengths _ _ _ Hg) as [Hlo _].
  destruct (grid_split _ _ _ Hg) as (c1 & c2 & -> & H1 & H2 & Et & Ed). unfold global_slice. rewrite Hlo, Nat.eqb_refl. cbn [assert_ mbind res_bind].
  eexists. split; [done|]. intros x. rewrite Et, Ed, in_slices_index. unfold full_shape. rewrite length_app, length_replicate, <- H1. split.
  - intros (x2 & -> & [Hl Hx]%in_slices_grid); [|done|done]. split; [rewrite length_app; lia|]. rewrite zip_with_app by (by rewrite length_replicate).
    by rewrite Hx, zip_with_div_ones.
  - intros [Hl Hx]. exists (drop (length c1) x). assert (Hlt : length (take (length c1) x) = length c1) by (rewrite length_take; lia).
    rewrite <- (take_drop (length c1) x), zip_with_app in Hx by (by rewrite length_replicate). apply app_inj_1 in Hx as [Hx1 Hx2].
    2: { rewrite length_zip_with, length_replicate. lia. }
    split; [|apply in_slices_grid; [done|done|split; [rewrite length_drop; lia|done]]].
    rewrite <- (take_drop (length c1) x) at 1. f_equal. by rewrite zip_with_div_ones in Hx1.
Qed.

(* ================================================================== *)
(** ** The counters                                                    *)
(* ================================================================== *)

Lemma elem_of_indices shape i : i ∈ indices shape <-> Forall2 (fun c f => 0 <= c < f) i shape.
Proof.
  revert i. induction shape as [|n shape IH]; intros i; cbn.
  - rewrite list_elem_of_singleton. split; [by intros ->|by inversion 1].
  - rewrite list_elem_of_In, in_flat_map. setoid_rewrite <- list_elem_of_In. split.
    + intros (c & Hc%elem_of_zrange & (i' & -> & Hi%IH)%list_elem_of_fmap). by constructor.
    + inversion 1 as [|c ? i' ? Hc Hi]; subst. exists c. split; [by apply elem_of_zrange|]. apply list_elem_of_fmap. exists i'. by rewrite IH.
Qed.
Lemma normalize_range shape i : Forall2 (fun c f => 0 <= c < f) i shape -> normalize_index shape i = Ok i.
Proof.
  induction 1 as [|c n i shape Hc _ IH]; [done|]. cbn [normalize_index]. destruct (Z.ltb_spec c 0); [lia|]. destruct (Z.ltb_spec c 0); [lia|].
  destruct (Z.leb_spec n c); [lia|]. cbn [orb]. by rewrite IH.
Qed.

(** Shards of one grid: the same cells and the same local shape *)
Definition one_grid (frag shape : list Z) (l : list (Z * sharded_tensor)) : Prop :=
  forall x, x ∈ l -> full_shape (snd x) = shape /\ positive (snd x) /\ exists chunks, grid (snd x) frag chunks.

Definition mains_at (l : list (Z * sharded_tensor)) (c : list Z) : list (Z * sharded_tensor) :=
  filter (fun x => is_main_replica (st_replica_id (snd x)) = true /\ cell (snd x) = c) l.

Lemma compute_shards_access_spec frag shape l : l <> [] -> one_grid frag shape l ->
  exists cnt, compute_shards_access l = Ok cnt /\ co_shape cnt = frag /\
    forall c, length c = length frag -> co_counts cnt c = Z.of_nat (length (mains_at l c)).
Proof.
  intros Hne Hg. unfold compute_shards_access. destruct l as [|[k0 t0] l0] eqn:El; [done|]. rewrite <- El in *.
  destruct (Hg (k0, t0) ltac:(rewrite El; left)) as (_ & _ & ch0 & Hg0). cbn [snd] in Hg0. rewrite (gd_frag _ _ _ Hg0).
  match goal with |- exists cnt, foldR ?f ?a _ = _ /\ _ => destruct (foldR_total f (fun dn cnt => co_shape cnt = frag /\
    forall c, length c = length frag -> co_counts cnt c = Z.of_nat (length (mains_at dn c))) a l) as (cnt & -> & H) end; [done| |by exists cnt].
  intros dn [k t] rest cnt E [Hs Hc]. destruct (Hg (k, t) ltac:(rewrite E; set_solver)) as (_ & Hp & ch & Hgt). cbn [snd] in *.
  assert (Hsnoc : forall c, mains_at (dn ++ [(k, t)]) c = mains_at dn c ++ (if decide (is_main_replica (st_replica_id t) = true /\ cell t = c) then [(k, t)] else [])).
  { intros c. unfold mains_at. rewrite filter_app. f_equal. }
  destruct (is_main_replica (st_replica_id t)) eqn:Em.
  - rewrite (grid_chunk _ _ _ Hgt Hp). cbn [mbind res_bind]. unfold count_at. rewrite Hs, (normalize_range _ _ (gd_range _ _ _ Hgt)). cbn [mbind res_bind].
    eexists. split; [done|]. split; [done|]. intros c Hlc. cbn [co_counts]. rewrite (Hc c Hlc), Hsnoc, length_app, (grid_cell _ _ _ Hgt Hp).
    pose proof (Forall2_length _ _ _ (gd_range _ _ _ Hgt)) as Hl. rewrite Hl, <- Hlc, firstn_all.
    destruct (bool_decide_reflect (c = ch)) as [->|Hne']; [rewrite decide_True by done|rewrite decide_False by (intros [_ ->]; done)]; cbn; lia.
  - eexists. split; [done|]. split; [done|]. intros c Hlc. rewrite (Hc c Hlc), Hsnoc, decide_False by (by intros []). by rewrite app_nil_r.
Qed.

(** *** Agreement *)

Lemma zip_mul_inj l1 l2 k : Forall (fun sh => 0 < sh) k -> length l1 = length k -> length l2 = length k -> zip_with Z.mul l1 k = zip_with Z.mul l2 k -> l1 = l2.
Proof. intros Hk H1 H2 E. by rewrite <- (zip_div_mul l1 k), E, zip_div_mul. Qed.

Lemma assert_unit b msg u : assert_ b msg = Ok u -> b = true.
Proof. by destruct b. Qed.
Lemma check_agreement_spec a t : check_agreement a t = Ok tt <->
  st_dtype t = st_dtype a /\ st_global_shape t = st_global_shape a /\ has_regular_grid t = has_regular_grid a /\
  (has_regular_grid a = true -> st_local_shape t = st_local_shape a) /\ has_flattened_range t = has_flattened_range a.
Proof.
  unfold check_agreement.
  destruct (bool_decide_reflect (st_dtype t = st_dtype a)) as [?|?]; cbn [assert_ mbind res_bind]; [|by split; [|intros [? _]]].
  destruct (bool_decide_reflect (st_global_shape t = st_global_shape a)) as [?|?]; cbn [assert_ mbind res_bind]; [|by split; [|intros (_ & ? & _)]].
  destruct (eqb_spec (has_regular_grid t) (has_regular_grid a)) as [?|?]; cbn [assert_ mbind res_bind]; [|by split; [|intros (_ & _ & ? & _)]].
  destruct (has_regular_grid a) eqn:Er.
  - destruct (bool_decide_reflect (st_local_shape t = st_local_shape a)) as [?|Hn]; cbn [assert_ mbind res_bind].
    + destruct (eqb_spec (has_flattened_range t) (has_flattened_range a)) as [?|?]; cbn [assert_]; [by split|by split; [|intros (_ & _ & _ & _ & ?)]].
    + split; [done|]. intros (_ & _ & _ & H & _). by destruct (Hn (H eq_refl)).
  - cbn [mret res_ret mbind res_bind]. destruct (eqb_spec (has_flattened_range t) (has_flattened_range a)) as [?|?]; cbn [assert_]; [by split|by split; [|intros (_ & _ & _ & _ & ?)]].
Qed.

(** *** One key *)

Lemma agreement_one_grid t0 l : (forall x, x ∈ l -> check_agreement t0 (snd x) = Ok tt) -> (exists frag chunks, grid t0 frag chunks) ->
  (forall x, x ∈ l -> on_grid (snd x) /\ positive (snd x)) -> positive t0 -> forall frag, st_axis_fragmentations t0 = Some frag -> one_grid frag (full_shape t0) l.
Proof.
  intros Hag (f0 & c0 & Hg0) Hl Hp0 frag Ef x Hx. destruct (Hl x Hx) as [[(f & c & Hg) _] Hp].
  apply Hag, check_agreement_spec in Hx as (_ & Hgl & _ & Hloc & _).
  assert (Hreg : has_regular_grid t0 = true) by (unfold has_regular_grid; by rewrite Ef). specialize (Hloc Hreg).
  rewrite (gd_frag _ _ _ Hg0) in Ef. injection Ef as ->.
  assert (Efull : full_shape (snd x) = full_shape t0).
  { unfold full_shape. rewrite Hloc. f_equal. f_equal. pose proof (grid_lengths _ _ _ Hg) as [H1 _]. pose proof (grid_lengths _ _ _ Hg0) as [H2 _].
    apply (f_equal length) in Hgl. rewrite (gd_global _ _ _ Hg), (gd_global _ _ _ Hg0), !length_zip_with, <- (Forall2_length _ _ _ (gd_range _ _ _ Hg)),
      <- (Forall2_length _ _ _ (gd_range _ _ _ Hg0)), (gd_length _ _ _ Hg), (gd_length _ _ _ Hg0) in Hgl.
    unfold full_shape in Hgl. rewrite !length_app, !length_replicate, Hloc in Hgl. lia. }
  split; [done|]. split; [done|]. exists c. assert (f = frag) as <-; [|done].
  apply (zip_mul_inj _ _ (full_shape t0)); [by apply full_positive| | |].
  - rewrite <- Efull, <- (gd_length _ _ _ Hg). symmetry. apply (Forall2_length _ _ _ (gd_range _ _ _ Hg)).
  - rewrite <- (gd_length _ _ _ Hg0). symmetry. apply (Forall2_length _ _ _ (gd_range _ _ _ Hg0)).
  - rewrite <- (gd_global _ _ _ Hg0), <- Hgl, (gd_global _ _ _ Hg). by rewrite Efull.
Qed.

Lemma one_grid_element frag shape l t x : one_grid frag shape l -> t ∈ map snd l -> x ∈ indices (zip_with Z.mul frag shape) ->
  length x = length shape /\ zip_with Z.div x shape ∈ indices frag /\ st_global_shape t = zip_with Z.mul frag shape.
Proof.
  intros Hg (y & -> & Hy)%list_elem_of_fmap. destruct (Hg y Hy) as (Hs & Hp & ch & Hgy).
  assert (Hlen : length frag = length shape) by (rewrite <- (Forall2_length _ _ _ (gd_range _ _ _ Hgy)), (gd_length _ _ _ Hgy); by rewrite Hs).
  apply full_positive in Hp. rewrite Hs in Hp. rewrite !elem_of_indices. intros Hx. pose proof (Forall2_length _ _ _ Hx) as Hl. rewrite length_zip_with in Hl.
  split; [lia|]. split; [|rewrite (gd_global _ _ _ Hgy); by rewrite Hs]. clear -Hx Hp Hlen Hl. revert frag x Hx Hlen Hl.
  induction Hp as [|sh shape Hsh _ IH]; intros [|f frag] [|i x] Hx Hlen Hl; cbn in *; try done. inversion Hx as [|? ? ? ? Hi Hx']; subst.
  constructor; [|apply IH; [done|lia|lia]]. split; [apply Z.div_pos; lia|apply Z.div_lt_upper_bound; lia].
Qed.

Lemma stores_cell t frag chunks x : grid t frag chunks -> positive t -> length x = length (full_shape t) -> st_flattened_range t = None ->
  stores t x = true <-> zip_with Z.div x (full_shape t) = cell t.
Proof.
  intros Hg Hp Hl Hf. unfold stores. destruct (global_slice_grid t frag chunks Hg Hp) as (slices & -> & Hin). rewrite Hf, andb_true_r, Hin. tauto.
Qed.

Lemma filter_iff_length {A} (P Q : A -> Prop) `{forall x, Decision (P x)} `{forall x, Decision (Q x)} l :
  (forall x, x ∈ l -> P x <-> Q x) -> length (filter P l) = length (filter Q l).
Proof.
  induction l as [|x l IH]; intros H1; [done|]. rewrite !filter_cons. specialize (IH (fun y Hy => H1 y (list_elem_of_further _ _ _ Hy))).
  pose proof (H1 x (list_elem_of_here _ _)) as Hx. do 2 destruct (decide _); cbn; tauto || lia.
Qed.

Lemma all_counters_spec c p : all_counters c p = true <-> forall i, i ∈ indices (co_shape c) -> p (co_counts c i) = true.
Proof. unfold all_counters. rewrite forallb_forall. by setoid_rewrite <- list_elem_of_In. Qed.

(** A key whose shards are not flattened is accepted exactly when every cell has one main replica. *)
Lemma validate_key_cells k0 t0 l frag : st_axis_fragmentations t0 = Some frag -> st_flattened_range t0 = None ->
  (forall x, x ∈ (k0, t0) :: l -> on_grid (snd x) /\ positive (snd x)) ->
  validate_sharding_for_key ((k0, t0) :: l) = Ok tt <->
  (forall x, x ∈ (k0, t0) :: l -> check_agreement t0 (snd x) = Ok tt) /\ forall c, c ∈ indices frag -> length (mains_at ((k0, t0) :: l) c) = 1%nat.
Proof.
  intros Ef Hflat Hl. unfold validate_sharding_for_key. set (l0 := (k0, t0) :: l) in *.
  assert (Hno : has_flattened_range t0 = false) by (unfold has_flattened_range; by rewrite Hflat).
  assert (Hreg : has_regular_grid t0 = true) by (unfold has_regular_grid; by rewrite Ef).
  assert (Hone : (forall x, x ∈ l0 -> check_agreement t0 (snd x) = Ok tt) -> one_grid frag (full_shape t0) l0).
  { intros Hag. destruct (Hl (k0, t0) ltac:(left)) as [[Hg _] Hp]. by apply (agreement_one_grid t0 l0). }
  destruct (mapR _ l0) as [u|e] eqn:Em; cbn [mbind res_bind].
  - assert (Hag : forall x, x ∈ l0 -> check_agreement t0 (snd x) = Ok tt).
    { intros x [n Hn]%list_elem_of_lookup. apply mapR_ok_Forall2 in Em. by destruct (Forall2_lookup_l _ _ _ _ _ Em Hn) as ([] & _ & ?). }
    specialize (Hone Hag). destruct (compute_shards_access_spec frag (full_shape t0) l0 ltac:(done) Hone) as (cnt & -> & Hs & Hc).
    rewrite Hreg, Hno. cbn [negb mbind res_bind mret res_ret].
    assert (Hiff : all_counters cnt (fun n => n =? 1) = true <-> forall c, c ∈ indices frag -> length (mains_at l0 c) = 1%nat).
    { rewrite all_counters_spec, Hs. split; intros H c Hci; specialize (H c Hci).
      - rewrite Hc, Z.eqb_eq in H; [lia|]. apply elem_of_indices in Hci. by apply (Forall2_length _ _ _ Hci).
      - rewrite Hc, H; [done|]. apply elem_of_indices in Hci. by apply (Forall2_length _ _ _ Hci). }
    destruct (all_counters cnt _); [split; [intros _; split; [done|by apply Hiff]|done]|].
    split; [done|]. intros [_ H%Hiff]. done.
  - split; [done|]. intros [Hag _]. exfalso. rewrite (mapR_total _ (fun _ => tt)) in Em by (intros x Hx; by apply Hag). done.
Qed.

(* ================================================================== *)
(** ** Flattened ranges                                                *)
(* ================================================================== *)

(** The ranges of the main replicas of a group *)
Definition main_ranges (ts : list sharded_tensor) : list (Z * Z) := omap (fun t => if is_main_replica (st_replica_id t) then st_flattened_range t else None) ts.

Lemma collect_slices shape ts s : foldR (collect_slice shape) [] ts = Ok s -> s = main_ranges ts.
Proof.
  apply (foldR_ind _ (fun dn s => s = main_ranges dn)); [done|]. intros dn t b b' _ -> Hs. unfold collect_slice in Hs.
  destruct (assert_ _ _); [|done]. cbn [mbind res_bind] in Hs. unfold main_ranges. rewrite omap_app. cbn.
  destruct (is_main_replica (st_replica_id t)); cbn [negb] in Hs; [|injection Hs as <-; by rewrite app_nil_r].
  destruct (st_flattened_range t); [by injection Hs as <-|done].
Qed.

(** Consecutive ranges contain every index once. *)
Lemma consecutive_count from size slices i : consecutive from size slices = true -> Forall (fun s => fst s <= snd s) slices -> i < size ->
  length (filter (fun s => fst s <= i < snd s) slices) = if from <=? i then 1%nat else 0%nat.
Proof.
  revert from. induction slices as [|[a b] slices IH]; intros from Hc Hle Hi; cbn [consecutive] in Hc.
  - destruct (Z.leb_spec from i); [lia|done].
  - apply andb_true_iff in Hc as [->%Z.eqb_eq Hc]. apply Forall_cons in Hle as [Hab Hle]. cbn [fst snd] in Hab. specialize (IH b Hc Hle Hi).
    rewrite filter_cons. cbn [fst snd]. destruct (Z.leb_spec b i), (Z.leb_spec from i); destruct (decide _); cbn; lia.
Qed.
Lemma flattened_accepted ts i : validate_sharding_for_key_flattened ts = Ok tt -> Forall (fun s => fst s <= snd s) (main_ranges ts) ->
  exists t, head ts = Some t /\ (0 <= i < zprod (st_local_shape t) -> length (filter (fun s => fst s <= i < snd s) (main_ranges ts)) = 1%nat).
Proof.
  unfold validate_sharding_for_key_flattened. destruct ts as [|t ts']; [done|]. set (ts := t :: ts').
  destruct (foldR _ _ ts) as [s|] eqn:Es; [|done]. cbn [mbind res_bind]. intros Hv Hle. exists t. split; [done|]. intros Hi.
  apply collect_slices in Es as ->. pose proof (merge_sort_Permutation slice_le (main_ranges ts)) as Hperm.
  destruct (merge_sort slice_le (main_ranges ts)) as [|s0 slices] eqn:Em; [done|]. rewrite <- Hperm in Hle.
  destruct (consecutive 0 _ (s0 :: slices)) eqn:Ec; [|done]. rewrite <- Hperm.
  rewrite (consecutive_count 0 (zprod (st_local_shape t))); [by destruct (Z.leb_spec 0 i); [|lia]|done|done|lia].
Qed.

(** The main replicas at one offset that store an element are those whose range contains its number. *)
Lemma count_group x o i l :
  (forall y, y ∈ l -> stores (snd y) x = true <-> st_global_offset (snd y) = o /\ exists a b, st_flattened_range (snd y) = Some (a, b) /\ a <= i < b) ->
  length (filter (fun y => is_main_replica (st_replica_id (snd y)) = true /\ stores (snd y) x = true) l) =
  length (filter (fun s => fst s <= i < snd s) (main_ranges (group_at l o))).
Proof.
  induction l as [|[k t] l IH]; intros H; [done|]. specialize (IH (fun y Hy => H y (list_elem_of_further _ _ _ Hy))).
  pose proof (H (k, t) (list_elem_of_here _ _)) as Ht. cbn [snd] in Ht. unfold group_at, main_ranges in *. rewrite !filter_cons. cbn [snd].
  destruct (decide (st_global_offset t = o)) as [Ho|Ho].
  - cbn [map omap list_omap snd]. destruct (is_main_replica (st_replica_id t)); [|rewrite decide_False by (by intros []); done].
    destruct (st_flattened_range t) as [[a b]|] eqn:Er.
    + rewrite filter_cons. cbn [fst snd]. destruct (decide (a <= i < b)) as [Hab|Hab].
      * rewrite decide_True by (split; [done|apply Ht; eauto]). cbn [length]. by rewrite IH.
      * rewrite decide_False; [done|]. intros [_ (_ & a' & b' & [= <- <-] & ?)%Ht]. done.
    + rewrite decide_False; [done|]. by intros [_ (_ & a' & b' & ? & _)%Ht].
  - rewrite decide_False; [done|]. by intros [_ [? _]%Ht].
Qed.

Lemma flat_index_range shape y : Forall2 (fun c f => 0 <= c < f) y shape -> 0 <= flat_index shape y < zprod shape.
Proof.
  induction 1 as [|c n y shape Hc _ IH]; [vm_compute; split; congruence|]. cbn [flat_index]. unfold zprod in *. cbn [fold_right] in *. nia.
Qed.
Lemma in_cell_range c shape x : Forall (fun sh => 0 < sh) shape -> length x = length shape -> zip_with Z.div x shape = c ->
  Forall2 (fun a f => 0 <= a < f) (zip_with Z.sub x (zip_with Z.mul c shape)) shape.
Proof.
  intros Hp. revert x c. induction Hp as [|sh shape Hsh _ IH]; intros [|i x] c Hl <-; cbn [length zip_with] in *; try done.
  constructor; [|apply IH; [lia|done]]. pose proof (Z.div_mod i sh ltac:(lia)). pose proof (Z.mod_pos_bound i sh Hsh). lia.
Qed.

Lemma elem_of_group_offsets l x : x ∈ l -> st_global_offset (snd x) ∈ group_offsets l.
Proof.
  unfold group_offsets. match goal with |- _ -> _ ∈ fold_left ?F _ _ => set (f := F) end.
  assert (Hkeep : forall l acc o, o ∈ acc -> o ∈ fold_left f l acc).
  { clear. induction l as [|y l IH]; intros acc o Ho; cbn; [done|]. apply IH. unfold f. destruct (bool_decide _); set_solver. }
  generalize (@nil (list Z)). induction l as [|y l IH]; intros acc Hx; [by apply elem_of_nil in Hx|]. cbn. apply elem_of_cons in Hx as [->|Hx]; [|by apply IH].
  apply Hkeep. unfold f. destruct (bool_decide_reflect (st_global_offset (snd y) ∈ acc)); set_solver.
Qed.

Lemma cell_offset t frag chunks c shape : grid t frag chunks -> positive t -> full_shape t = shape -> length c = length shape ->
  cell t = c <-> st_global_offset t = zip_with Z.mul c shape.
Proof.
  intros Hg Hp Hs Hl. split.
  - intros <-. rewrite (grid_cell _ _ _ Hg Hp), (gd_offset _ _ _ Hg). by rewrite Hs.
  - intros Ho. unfold cell. rewrite Ho, Hs. apply zip_div_mul; [|done]. rewrite <- Hs. by apply full_positive.
Qed.

Section Flattened.
Context (frag shape local : list Z) (p : nat) (l : list (Z * sharded_tensor)).
Context (Hone : one_grid frag shape l) (Hshape : shape = replicate p 1 ++ local).
Context (Hflat : forall y, y ∈ l -> exists a b, st_flattened_range (snd y) = Some (a, b) /\ a <= b).
Context (Hlocal : forall y, y ∈ l -> st_local_shape (snd y) = local /\ st_prepend_axis_num (snd y) = p).

Lemma stores_flattened x c y : y ∈ l -> length x = length shape -> zip_with Z.div x shape = c ->
  let i := flat_index local (drop p (zip_with Z.sub x (zip_with Z.mul c shape))) in
  stores (snd y) x = true <-> st_global_offset (snd y) = zip_with Z.mul c shape /\ exists a b, st_flattened_range (snd y) = Some (a, b) /\ a <= i < b.
Proof.
  intros Hy Hl Hc i. destruct (Hone y Hy) as (Hs & Hp & ch & Hg). destruct (Hlocal y Hy) as [Hlo Hpre]. destruct (Hflat y Hy) as (a & b & Hr & _).
  assert (Hlc : length c = length shape) by (rewrite <- Hc, length_zip_with; lia).
  unfold stores. destruct (global_slice_grid _ _ _ Hg Hp) as (slices & -> & Hin). rewrite Hr, andb_true_iff, Hin, Hs, Hc.
  rewrite <- (cell_offset _ _ _ c shape Hg Hp Hs Hlc). split.
  - intros [[_ E] Hb]. split; [done|]. exists a, b. split; [done|]. symmetry in E. apply (cell_offset _ _ _ c shape Hg Hp Hs Hlc) in E.
    rewrite E, Hlo, Hpre in Hb. fold i in Hb. lia.
  - intros [E (a' & b' & [= <- <-] & Hab)]. split; [done|]. pose proof E as Eo. apply (cell_offset _ _ _ c shape Hg Hp Hs Hlc) in Eo.
    rewrite Eo, Hlo, Hpre. fold i. lia.
Qed.

Lemma flattened_covers x y : x ∈ indices (zip_with Z.mul frag shape) -> y ∈ l -> cell (snd y) = zip_with Z.div x shape -> length x = length shape ->
  Forall (fun n => 0 < n) shape ->
  validate_sharding_for_key_flattened (group_at l (zip_with Z.mul (zip_with Z.div x shape) shape)) = Ok tt ->
  length (filter (fun z => is_main_replica (st_replica_id (snd z)) = true /\ stores (snd z) x = true) l) = 1%nat.
Proof.
  intros Hx Hy Hcell Hl Hpos Hv. set (c := zip_with Z.div x shape) in *. set (i := flat_index local (drop p (zip_with Z.sub x (zip_with Z.mul c shape)))).
  rewrite (count_group x (zip_with Z.mul c shape) i); [|intros z Hz; by apply (stores_flattened x c z)].
  destruct (flattened_accepted _ i Hv) as (t & Ht & Hcount).
  { apply Forall_forall. intros s (t & Ht & Hs)%list_elem_of_omap. unfold group_at in Ht. apply list_elem_of_fmap in Ht as (z & -> & [_ Hz]%list_elem_of_filter).
    destruct (Hflat z Hz) as (a & b & E & Hab). destruct (is_main_replica _); [|done]. rewrite E in Hs. by injection Hs as <-. }
  apply Hcount. assert (Hin : t ∈ group_at l (zip_with Z.mul c shape)) by (destruct (group_at l _); [done|]; injection Ht as ->; left).
  unfold group_at in Hin. apply list_elem_of_fmap in Hin as (z & -> & [_ Hz]%list_elem_of_filter). destruct (Hlocal z Hz) as [-> _].
  apply flat_index_range. pose proof (in_cell_range c shape x Hpos Hl eq_refl) as Hr. rewrite Hshape in Hr at 2. apply Forall2_app_inv_r in Hr as (r1 & r2 & Hr1 & Hr2 & E).
  rewrite E. apply Forall2_length in Hr1. rewrite length_replicate in Hr1. by rewrite drop_app_length'.
Qed.
End Flattened.

Lemma count_cells frag shape l x : one_grid frag shape l -> (forall y, y ∈ l -> st_flattened_range (snd y) = None) -> length x = length shape ->
  length (filter (fun y => is_main_replica (st_replica_id (snd y)) = true /\ stores (snd y) x = true) l) = length (mains_at l (zip_with Z.div x shape)).
Proof.
  intros Hone Hflat Hl. apply filter_iff_length. intros y Hy. destruct (Hone y Hy) as (Hs & Hp & ch & Hg).
  rewrite (stores_cell _ _ _ x Hg Hp); [|by rewrite Hs|by apply Hflat]. rewrite Hs. split; intros [? E]; by split.
Qed.
Lemma indices_mul frag shape c : Forall (fun n => 0 < n) shape -> length frag = length shape -> c ∈ indices frag ->
  zip_with Z.mul c shape ∈ indices (zip_with Z.mul frag shape).
Proof.
  rewrite !elem_of_indices. intros Hp. revert frag c. induction Hp as [|sh shape Hsh _ IH]; intros [|f frag] c Hl Hc; cbn [length] in *; try done.
  - by inversion Hc.
  - inversion Hc as [|x ? c' ? Hx Hc']; subst. cbn [zip_with]. constructor; [nia|]. apply IH; [lia|done].
Qed.

(** What an accepted key has in common *)
Record key_agrees (t0 : sharded_tensor) (frag : list Z) (l : list (Z * sharded_tensor)) : Prop := mkKeyAgrees {
  ka_grid : one_grid frag (full_shape t0) l;
  ka_global : st_global_shape t0 = zip_with Z.mul frag (full_shape t0);
  ka_length : length frag = length (full_shape t0);
  ka_flat y : y ∈ l -> has_flattened_range (snd y) = has_flattened_range t0;
  ka_local y : y ∈ l -> st_local_shape (snd y) = st_local_shape t0 /\ st_prepend_axis_num (snd y) = st_prepend_axis_num t0
}.
Lemma key_agreement k0 t0 l : (forall y, y ∈ (k0, t0) :: l -> on_grid (snd y) /\ positive (snd y)) ->
  (forall y, y ∈ (k0, t0) :: l -> check_agreement t0 (snd y) = Ok tt) ->
  exists frag, st_axis_fragmentations t0 = Some frag /\ key_agrees t0 frag ((k0, t0) :: l).
Proof.
  intros Hl Hag. destruct (Hl (k0, t0) ltac:(left)) as [[(frag & ch0 & Hg0) _] Hp0]. cbn [snd] in *. exists frag. split; [apply Hg0|].
  assert (Hone : one_grid frag (full_shape t0) ((k0, t0) :: l)) by (apply agreement_one_grid; [done|eauto|done|done|apply Hg0]).
  split; [done|apply Hg0| | |].
  - rewrite <- (gd_length _ _ _ Hg0). symmetry. apply (Forall2_length _ _ _ (gd_range _ _ _ Hg0)).
  - intros y Hy. by apply Hag, check_agreement_spec in Hy as (_ & _ & _ & _ & ?).
  - intros y Hy. destruct (Hone y Hy) as (Hs & _). apply Hag, check_agreement_spec in Hy as (_ & _ & _ & Hloc & _).
    specialize (Hloc ltac:(unfold has_regular_grid; by rewrite (gd_frag _ _ _ Hg0))). split; [done|]. apply (f_equal length) in Hs.
    unfold full_shape in Hs. rewrite !length_app, !length_replicate, Hloc in Hs. lia.
Qed.
Lemma validate_agreement k0 t0 l : validate_sharding_for_key ((k0, t0) :: l) = Ok tt -> forall y, y ∈ (k0, t0) :: l -> check_agreement t0 (snd y) = Ok tt.
Proof.
  unfold validate_sharding_for_key. destruct (mapR _ ((k0, t0) :: l)) as [u|] eqn:Em; [|done]. intros _ y [n Hn]%list_elem_of_lookup.
  apply mapR_ok_Forall2 in Em. by destruct (Forall2_lookup_l _ _ _ _ _ Em Hn) as ([] & _ & ?).
Qed.

(** An accepted key with flattened shards *)
Lemma flattened_key_covers k0 t0 l frag x : key_agrees t0 frag ((k0, t0) :: l) -> st_axis_fragmentations t0 = Some frag -> has_flattened_range t0 = true ->
  (forall y, y ∈ (k0, t0) :: l -> on_grid (snd y) /\ positive (snd y)) -> validate_sharding_for_key ((k0, t0) :: l) = Ok tt ->
  x ∈ indices (st_global_shape t0) ->
  length (filter (fun y => is_main_replica (st_replica_id (snd y)) = true /\ stores (snd y) x = true) ((k0, t0) :: l)) = 1%nat.
Proof.
  intros [Hone Hgl Hlen Hfl Hloc] Ef Hflat Hl Hv Hx. unfold validate_sharding_for_key in Hv. set (l0 := (k0, t0) :: l) in *.
  assert (Hreg : has_regular_grid t0 = true) by (unfold has_regular_grid; by rewrite Ef). rewrite Hreg, Hflat in Hv. cbn [negb] in Hv.
  destruct (mapR _ l0) as [u|]; [|done]. cbn [mbind res_bind] in Hv.
  destruct (compute_shards_access_spec frag (full_shape t0) l0 ltac:(done) Hone) as (cnt & Ec & Hs & Hc). rewrite Ec in Hv. cbn [mbind res_bind] in Hv.
  destruct (mapR _ (group_offsets l0)) as [us|] eqn:Eg; [|done]. cbn [mbind res_bind mret res_ret] in Hv.
  destruct (all_counters _ _) eqn:Ea; [|done]. rewrite all_counters_spec in Ea. cbn [co_shape co_counts] in Ea. rewrite Hs in Ea. rewrite Hgl in Hx.
  destruct (one_grid_element frag (full_shape t0) l0 t0 x Hone ltac:(left) Hx) as (Hlx & Hcell & _). specialize (Ea _ Hcell).
  rewrite Hc in Ea by (apply elem_of_indices in Hcell; by apply (Forall2_length _ _ _ Hcell)).
  destruct (mains_at l0 (zip_with Z.div x (full_shape t0))) as [|y ms] eqn:Em; [done|].
  assert (Hy : y ∈ mains_at l0 (zip_with Z.div x (full_shape t0))) by (rewrite Em; left). apply list_elem_of_filter in Hy as [[_ Hyc] Hy].
  apply (flattened_covers frag (full_shape t0) (st_local_shape t0) (st_prepend_axis_num t0) l0 Hone eq_refl) with (y := y); try done.
  - intros z Hz. destruct (Hl z Hz) as [[_ Hr] _]. specialize (Hfl z Hz). unfold has_flattened_range in Hfl, Hflat. rewrite Hflat in Hfl.
    destruct (st_flattened_range (snd z)) as [[a b]|]; [eauto|done].
  - apply full_positive. by apply (Hl (k0, t0) ltac:(left)).
  - destruct (Hone y Hy) as (Hsy & Hpy & ch & Hgy). pose proof (elem_of_group_offsets l0 y Hy) as Ho.
    assert (Hxl : length (zip_with Z.div x (full_shape t0)) = length (full_shape t0)) by (rewrite length_zip_with; lia).
    rewrite (proj1 (cell_offset _ _ _ _ _ Hgy Hpy Hsy Hxl) Hyc) in Ho.
    apply list_elem_of_lookup in Ho as [n Hn]. apply mapR_ok_Forall2 in Eg. by destruct (Forall2_lookup_l _ _ _ _ _ Eg Hn) as ([] & _ & ?).
Qed.

(** (C19) The docstring of [validate_sharding_integrity] for one key, when the shards are as the constructors build them and no axis is empty.  If
    the shards of the key are accepted, every element of the global tensor is stored by the main replica of exactly one shard, flattened or not: the
    main replicas cover the tensor and do not overlap.  For shards that are not flattened and agree on their metadata the converse holds too. *)
Theorem accepted_key_covers k0 t0 l (Hbuilt : forall y, y ∈ (k0, t0) :: l -> built (snd y)) (Hpos : forall y, y ∈ (k0, t0) :: l -> positive (snd y)) :
  let once x := length (filter (fun y => is_main_replica (st_replica_id (snd y)) = true /\ stores (snd y) x = true) ((k0, t0) :: l)) = 1%nat in
  (validate_sharding_for_key ((k0, t0) :: l) = Ok tt -> forall x, x ∈ indices (st_global_shape t0) -> once x) /\
  (st_flattened_range t0 = None -> (forall y, y ∈ l -> check_agreement t0 (snd y) = Ok tt) -> (forall x, x ∈ indices (st_global_shape t0) -> once x) ->
     validate_sharding_for_key ((k0, t0) :: l) = Ok tt).
Proof.
  intros once. assert (Hl : forall y, y ∈ (k0, t0) :: l -> on_grid (snd y) /\ positive (snd y)) by (intros y Hy; split; [by apply built_on_grid, Hbuilt|by apply Hpos]).
  split.
  - intros Hv x Hx. pose proof (validate_agreement _ _ _ Hv) as Hag. destruct (key_agreement k0 t0 l Hl Hag) as (frag & Ef & Hka).
    destruct (has_flattened_range t0) eqn:Hflat; [by apply (flattened_key_covers k0 t0 l frag x Hka)|]. pose proof Hka as [Hone Hgl Hlen Hfl _].
    assert (Hnone : forall t, has_flattened_range t = false -> st_flattened_range t = None) by (intros t; unfold has_flattened_range; by destruct (st_flattened_range t)).
    rewrite Hgl in Hx. destruct (one_grid_element frag (full_shape t0) _ t0 x Hone ltac:(left) Hx) as (Hlx & Hcell & _).
    unfold once. rewrite (count_cells frag (full_shape t0)); [|done|intros y Hy; apply Hnone; by rewrite Hfl|done].
    by apply (proj2 (proj1 (validate_key_cells k0 t0 l frag Ef (Hnone _ Hflat) Hl) Hv)).
  - intros Hflat Hag Hx. assert (Hag0 : forall y, y ∈ (k0, t0) :: l -> check_agreement t0 (snd y) = Ok tt).
    { intros y [->|Hy]%elem_of_cons; [by apply check_agreement_spec|by apply Hag]. }
    destruct (key_agreement k0 t0 l Hl Hag0) as (frag & Ef & [Hone Hgl Hlen Hfl _]). apply (validate_key_cells k0 t0 l frag); [done|done|done|]. split; [done|].
    intros c Hc. assert (Hlc : length c = length (full_shape t0)) by (apply elem_of_indices in Hc; rewrite <- Hlen; by apply (Forall2_length _ _ _ Hc)).
    assert (Hpf : Forall (fun n => 0 < n) (full_shape t0)) by (apply full_positive; by apply (Hl (k0, t0) ltac:(left))).
    assert (Hxc : zip_with Z.mul c (full_shape t0) ∈ indices (st_global_shape t0)) by (rewrite Hgl; by apply indices_mul).
    specialize (Hx _ Hxc). unfold once in Hx. rewrite (count_cells frag (full_shape t0)) in Hx; [|done| |rewrite length_zip_with; lia].
    + by rewrite zip_div_mul in Hx.
    + intros y Hy. specialize (Hfl y Hy). unfold has_flattened_range in Hfl. rewrite Hflat in Hfl. by destruct (st_flattened_range (snd y)).
Qed.

(** A tensor of 4 x 3 elements in two cells *)
Definition sample_cell (offset replica : Z) : sharded_tensor :=
  mkSharded "weight" "float32" [2; 3] [4; 3] [2 * offset; 0] (Some [2; 1]) (ReplicaTuple [0; replica]) 0 false None.
Lemma sample_cell_built offset replica : offset = 0 \/ offset = 1 -> built (sample_cell offset replica) /\ positive (sample_cell offset replica).
Proof.
  intros Ho. split; [left|repeat constructor]. exists "weight"%string, "float32"%string, [2; 3], [(0, offset, 2)], (ReplicaTuple [0; replica]), 0%nat, false.
  by destruct Ho as [->| ->].
Qed.
(** The hypotheses hold for the two cells. *)
Lemma accepted_key_covers_witness : validate_sharding_for_key [(0, sample_cell 0 0); (1, sample_cell 1 0)] = Ok tt /\
  length (filter (fun y => is_main_replica (st_replica_id (snd y)) = true /\ stores (snd y) [3; 2] = true) [(0, sample_cell 0 0); (1, sample_cell 1 0)]) = 1%nat.
Proof.
  assert (Hall : forall y, y ∈ [(0, sample_cell 0 0); (1, sample_cell 1 0)] -> built (snd y) /\ positive (snd y)).
  { intros y Hy. apply elem_of_cons in Hy as [->|Hy]; [apply sample_cell_built; by left|]. apply list_elem_of_singleton in Hy as ->. apply sample_cell_built. by right. }
  assert (Hv : validate_sharding_for_key [(0, sample_cell 0 0); (1, sample_cell 1 0)] = Ok tt) by reflexivity.
  split; [exact Hv|].
  apply (accepted_key_covers 0 (sample_cell 0 0) [(1, sample_cell 1 0)] (fun y Hy => proj1 (Hall y Hy)) (fun y Hy => proj2 (Hall y Hy))); [exact Hv|].
  apply elem_of_indices. cbn. repeat constructor; lia.
Defined.

(** *** What the validation does with empty axes and groups without a main replica *)

(** The constructor accepts an empty axis, the validation divides by its length. *)
Lemma empty_axis_raises : exists t, from_rank_offsets "weight" "float32" [0; 3] [] (ReplicaInt 0) 0 false = Ok t /\
  raises ZeroDivisionError (validate_sharding_for_key [(0, t)]) = true.
Proof. eexists. by split. Qed.
(** The flattened shards of one offset without a main replica raise [ValueError], not [CheckpointingException]. *)
Lemma no_main_flattened_raises : exists t, from_rank_offsets_flat "weight" "float32" 6 [2; 3] [] (ReplicaInt 1) 0 false (Some (0, 6)) = Ok t /\
  raises ValueError (validate_sharding_for_key [(0, t)]) = true.
Proof. eexists. by split. Qed.
