(* ===== verification/DistCkptTheorems.v ===== *)
(** * Fully parallel saving keeps a valid sharding valid

    [apply_saving_parallelization] runs on the groups of ranks of the job; [validate_sharding_integrity] looks at all ranks. *)

From S2P Require Import Prelude DistCkpt DistCkptProofs DistCkptSave DistCkptValidation DistCkptValidationProofs.

(* ================================================================== *)
(** ** Main replicas by shard id                                       *)
(* ================================================================== *)

Lemma concat_tagged all_shards : map snd (tagged all_shards) = concat all_shards.
Proof.
  unfold tagged. rewrite concat_map, map_map. f_equal. apply list_eq. intros r. rewrite list_lookup_fmap, list_lookup_imap.
  destruct (all_shards !! r); cbn; [|done]. by rewrite map_map, map_id.
Qed.
Lemma main_copies_tagged all_shards i : main_copies all_shards i =
  length (filter (fun x => sharded_tensor_shard_id (snd x) = i /\ is_main_replica (st_replica_id (snd x)) = true) (tagged all_shards)).
Proof. unfold main_copies. by rewrite <- concat_tagged, length_filter_map. Qed.
Lemma main_copies_app a b i : main_copies (a ++ b) i = (main_copies a i + main_copies b i)%nat.
Proof. unfold main_copies. by rewrite concat_app, filter_app, length_app. Qed.

Definition key_shards (key : string) (all_shards : list (list sharded_tensor)) : list (Z * sharded_tensor) := filter (fun x => st_key (snd x) = key) (tagged all_shards).

(** The main replicas of a cell are the main copies of its id. *)
Lemma mains_at_copies all_shards key frag shape c : one_grid frag shape (key_shards key all_shards) -> length c = length shape ->
  (forall y, y ∈ key_shards key all_shards -> st_flattened_range (snd y) = None) ->
  length (mains_at (key_shards key all_shards) c) = main_copies all_shards (key, zip_with Z.mul c shape, None).
Proof.
  intros Hone Hl Hflat. rewrite main_copies_tagged. unfold mains_at. unfold key_shards at 1. rewrite list_filter_filter. apply filter_iff_length. intros y Hy.
  unfold sharded_tensor_shard_id. split.
  - intros [[Hm Hc] Hk]. split; [|done]. assert (Hin : y ∈ key_shards key all_shards) by by apply list_elem_of_filter.
    destruct (Hone y Hin) as (Hs & Hp & ch & Hg). rewrite Hk, (Hflat y Hin). by rewrite (proj1 (cell_offset _ _ _ _ _ Hg Hp Hs Hl) Hc).
  - intros [[= Hk Ho _] Hm]. split; [|done]. split; [done|]. assert (Hin : y ∈ key_shards key all_shards) by by apply list_elem_of_filter.
    destruct (Hone y Hin) as (Hs & Hp & ch & Hg). by apply (cell_offset _ _ _ _ _ Hg Hp Hs Hl).
Qed.

(* ================================================================== *)
(** ** Validation of all keys                                          *)
(* ================================================================== *)

Lemma validate_all_keys all_shards : validate_sharding_integrity all_shards = Ok tt <->
  forall key, key ∈ shard_keys (tagged all_shards) -> validate_sharding_for_key (key_shards key all_shards) = Ok tt.
Proof.
  unfold validate_sharding_integrity. change (concat _) with (tagged all_shards). split.
  - destruct (mapR _ _) as [us|] eqn:E; [|done]. intros _ key [n Hn]%list_elem_of_lookup. apply mapR_ok_Forall2 in E.
    by destruct (Forall2_lookup_l _ _ _ _ _ E Hn) as ([] & _ & ?).
  - intros H. rewrite (mapR_total _ (fun _ => tt)) by done. done.
Qed.
Lemma shard_keys_spec l key : key ∈ shard_keys l <-> exists x, x ∈ l /\ st_key (snd x) = key.
Proof.
  unfold shard_keys. match goal with |- _ ∈ fold_left ?F _ _ <-> _ => set (f := F) end.
  enough (H : forall acc, key ∈ fold_left f l acc <-> key ∈ acc \/ exists x, x ∈ l /\ st_key (snd x) = key).
  { rewrite H. split; [intros [[]%elem_of_nil|?]; done|by right]. }
  induction l as [|y l IH]; intros acc; cbn; [split; [by left|intros [?|(x & []%elem_of_nil & _)]; done]|]. rewrite IH. clear IH.
  assert (Hf : key ∈ f acc y <-> key ∈ acc \/ st_key (snd y) = key).
  { unfold f. destruct (bool_decide_reflect (st_key (snd y) ∈ acc)) as [Hin|Hin]; [|set_solver]. split; [by left|]. by intros [?| <-]. }
  rewrite Hf. setoid_rewrite elem_of_cons. split; [intros [[?|?]|(x & ? & ?)]; eauto|]. intros [?|(x & [->|?] & ?)]; eauto.
Qed.

(** Shards that agree up to the replica id *)
Definition relabelled (t t' : sharded_tensor) : Prop := t' = set_replica_id (st_replica_id t') t.
Notation relabelled_all := (Forall2 (Forall2 relabelled)).

Lemma concat_Forall2 {A B} (R : A -> B -> Prop) ls ls' : Forall2 (Forall2 R) ls ls' -> Forall2 R (concat ls) (concat ls').
Proof. induction 1; cbn; [constructor|by apply Forall2_app]. Qed.
Lemma relabelled_tagged all_shards all_shards' : relabelled_all all_shards all_shards' ->
  Forall2 (fun x x' => fst x = fst x' /\ relabelled (snd x) (snd x')) (tagged all_shards) (tagged all_shards').
Proof.
  intros H. unfold tagged. apply concat_Forall2. apply Forall2_same_length_lookup_2.
  { rewrite !length_map, !length_imap. by apply Forall2_length in H. }
  intros r l l' Hl Hl'. rewrite list_lookup_fmap, list_lookup_imap in Hl, Hl'.
  destruct (all_shards !! r) as [ts|] eqn:Er, (all_shards' !! r) as [ts'|] eqn:Er'; cbn in Hl, Hl'; try done. injection Hl as <-. injection Hl' as <-.
  apply Forall2_fmap. eapply Forall2_impl; [by eapply Forall2_lookup_lr|]. by intros t t' Ht.
Qed.
Lemma relabelled_key all_shards all_shards' key : relabelled_all all_shards all_shards' ->
  Forall2 (fun x x' => fst x = fst x' /\ relabelled (snd x) (snd x')) (key_shards key all_shards) (key_shards key all_shards').
Proof.
  intros H%relabelled_tagged. unfold key_shards. induction H as [|x x' l l' [Hf Hr] _ IH]; [constructor|]. rewrite !filter_cons.
  assert (Ek : st_key (snd x') = st_key (snd x)) by by rewrite Hr. rewrite Ek. destruct (decide _); [by constructor|done].
Qed.

Lemma relabelled_fields t t' : relabelled t t' -> forall a a', relabelled a a' -> check_agreement a t = Ok tt -> check_agreement a' t' = Ok tt.
Proof. intros -> a a' ->. done. Qed.
Lemma relabelled_on_grid t t' : relabelled t t' -> on_grid t -> on_grid t'.
Proof. intros -> [(frag & chunks & Hg) Hf]. split; [|done]. exists frag, chunks. by apply grid_set_replica. Qed.

(** A key stays valid when the number of main replicas of every id stays the same where it is one. *)
Lemma key_stays_valid all_shards all_shards' key : relabelled_all all_shards all_shards' ->
  (forall i, main_copies all_shards i = 1%nat -> main_copies all_shards' i = 1%nat) ->
  (forall t, t ∈ concat all_shards -> on_grid t /\ positive t /\ st_flattened_range t = None) ->
  validate_sharding_for_key (key_shards key all_shards) = Ok tt -> validate_sharding_for_key (key_shards key all_shards') = Ok tt.
Proof.
  intros Hrel Hcopies Hok. pose proof (relabelled_key all_shards all_shards' key Hrel) as Hk.
  assert (Hin : forall x, x ∈ key_shards key all_shards -> on_grid (snd x) /\ positive (snd x) /\ st_flattened_range (snd x) = None).
  { intros [k t] [_ Hx]%list_elem_of_filter. apply Hok. by eapply elem_of_tagged_in. }
  assert (Hin' : forall x', x' ∈ key_shards key all_shards' -> exists x, x ∈ key_shards key all_shards /\ relabelled (snd x) (snd x')).
  { intros x' [n Hn]%list_elem_of_lookup. destruct (Forall2_lookup_r _ _ _ _ _ Hk Hn) as (x & Hx & _ & Hr). exists x. split; [by eapply list_elem_of_lookup_2|done]. }
  destruct (key_shards key all_shards) as [|[k0 t0] l] eqn:El, (key_shards key all_shards') as [|[k0' t0'] l'] eqn:El'; try done; [by inversion Hk|].
  apply Forall2_cons_1 in Hk as [[_ Hr0] _]. cbn [snd] in Hr0. intros Hv.
  destruct (key_agreement k0 t0 l) as (frag & Ef & [Hone Hgl Hlen Hfl Hloc]); [intros y Hy; by destruct (Hin y Hy) as (? & ? & _)|by apply validate_agreement|].
  pose proof (proj2 (proj2 (Hin (k0, t0) (list_elem_of_here _ _)))) as Hf0. cbn [snd] in Hf0.
  assert (Hgp : forall y, y ∈ (k0, t0) :: l -> on_grid (snd y) /\ positive (snd y)) by (intros y Hy; by destruct (Hin y Hy) as (? & ? & _)).
  pose proof (proj1 (validate_key_cells k0 t0 l frag Ef Hf0 Hgp) Hv) as [Hag Hcells].
  assert (Hone' : one_grid frag (full_shape t0) ((k0', t0') :: l')).
  { intros x' Hx'. destruct (Hin' x' Hx') as (x & Hx & ->). destruct (Hone x Hx) as (Hs & Hp & ch & Hg). split; [done|]. split; [done|]. exists ch.
    by apply grid_set_replica. }
  assert (Hflat' : forall x', x' ∈ (k0', t0') :: l' -> st_flattened_range (snd x') = None).
  { intros x' Hx'. destruct (Hin' x' Hx') as (x & Hx & ->). by destruct (Hin x Hx) as (_ & _ & ?). }
  apply (validate_key_cells k0' t0' l' frag); [| | |split].
  - by rewrite Hr0.
  - by rewrite Hr0.
  - intros x' Hx'. destruct (Hin' x' Hx') as (x & Hx & Hr). destruct (Hin x Hx) as (Hg & Hp & _). split; [by eapply relabelled_on_grid|]. by rewrite Hr.
  - intros x' Hx'. destruct (Hin' x' Hx') as (x & Hx & Hr). apply (relabelled_fields _ _ Hr t0 t0' Hr0). by apply Hag.
  - intros c Hc. assert (Hlc : length c = length (full_shape t0)) by (apply elem_of_indices in Hc; rewrite <- Hlen; by apply (Forall2_length _ _ _ Hc)).
    specialize (Hcells c Hc). rewrite <- El in Hcells. rewrite <- El'.
    rewrite (mains_at_copies all_shards key frag (full_shape t0)) in Hcells; [|by rewrite El|done|rewrite El; intros y Hy; by destruct (Hin y Hy) as (_ & _ & ?)].
    rewrite (mains_at_copies all_shards' key frag (full_shape t0)); [by apply Hcopies|by rewrite El'|done|by rewrite El'].
Qed.

(* ================================================================== *)
(** ** All groups of the job                                           *)
(* ================================================================== *)

Section Job.
Context (element_size : string -> Z).
Notation save := (apply_saving_parallelization element_size).

(** Shards with data, without flattened ranges and each id once per rank *)
Record regular_shards (all_shards : list (list sharded_tensor)) : Prop := mkRegularShards {
  rg_shards t : t ∈ concat all_shards -> on_grid t /\ positive t /\ st_flattened_range t = None;
  rg_once : Forall (fun ts => NoDup (map sharded_tensor_shard_id ts)) all_shards
}.

Lemma regular_well_formed all_shards : (forall dtype, 0 <= element_size dtype) -> regular_shards all_shards -> well_formed element_size all_shards.
Proof.
  intros He [Hs _]. split.
  - intros t Ht. destruct (Hs t Ht) as (_ & Hp & Hf). unfold shard_size. rewrite Hf. specialize (He (st_dtype t)). pose proof (zprod_pos _ Hp). nia.
  - intros t u Ht Hu _. destruct (Hs t Ht) as (_ & _ & Hf), (Hs u Hu) as (_ & _ & Hg). cbn. by rewrite Hf, Hg.
Qed.
Lemma main_copies_has_main all_shards i : has_main all_shards i <-> main_copies all_shards i <> 0%nat.
Proof.
  rewrite main_copies_tagged. split.
  - intros (k & t & Ht & Hi & Hm) H. apply length_zero_iff_nil in H.
    assert (Hin : (k, t) ∈ filter (fun x => sharded_tensor_shard_id (snd x) = i /\ is_main_replica (st_replica_id (snd x)) = true) (tagged all_shards)) by by apply list_elem_of_filter.
    rewrite H in Hin. by apply elem_of_nil in Hin.
  - intros H. destruct (filter _ (tagged all_shards)) as [|[k t] l] eqn:E; [done|]. exists k, t.
    assert (Hin : (k, t) ∈ (k, t) :: l) by left. rewrite <- E in Hin. apply list_elem_of_filter in Hin as [[Hi Hm] Ht]. done.
Qed.
Lemma relabelled_refl all_shards : relabelled_all all_shards all_shards.
Proof.
  apply Forall2_same_length_lookup_2; [done|]. intros r ts ts' H1 H2. rewrite H1 in H2. injection H2 as ->.
  apply Forall2_same_length_lookup_2; [done|]. intros j t t' Ht Ht'. rewrite Ht in Ht'. injection Ht' as ->. unfold relabelled. by destruct t'.
Qed.

(** One group *)
Lemma group_save (do_cache : bool) group : (forall dtype, 0 <= element_size dtype) -> regular_shards group ->
  exists group' cached, save do_cache None group = Ok (group', cached) /\ relabelled_all group group' /\
    forall i, (main_copies group i <= 1)%nat -> main_copies group' i = main_copies group i.
Proof.
  intros He Hreg. destruct (Nat.leb_spec (length group) 1) as [Hlen|Hlen].
  - exists group, None. split; [|split; [apply relabelled_refl|done]].
    assert (Hall : mapR (fun '(rank, shards) => distribute_main_replicas_with_precomputed_distribution (length group) None (Z.of_nat rank) shards) (imap pair group) = Ok group).
    { rewrite (mapR_total _ snd).
      - f_equal. apply list_eq. intros r. rewrite list_lookup_fmap, list_lookup_imap. by destruct (group !! r).
      - intros [r ts] _. unfold distribute_main_replicas_with_precomputed_distribution. by rewrite (proj2 (Nat.leb_le _ _) Hlen). }
    unfold apply_saving_parallelization, apply_parallelization, precomputed_distribution, determine_main_replica_uniform_distribution.
    rewrite (proj2 (Nat.leb_le _ _) Hlen). destruct do_cache; cbn [mbind res_bind mret res_ret]; by rewrite Hall.
  - destruct (determine_spec element_size group false Hlen (regular_well_formed group He Hreg)) as (d & Ed & Hfits & Hgroup & _).
    exists (relabel_all d group), (if do_cache then Some d else None). split; [|split].
    + unfold apply_saving_parallelization, apply_parallelization, precomputed_distribution.
      destruct do_cache; rewrite Ed; cbn [mbind res_bind]; rewrite distribute_all_ok; try done; try apply Hfits; intros i; apply (ft_main _ _ Hfits).
    + eapply Forall2_impl; [apply relabel_all_fields|]. intros ts ts' H. eapply Forall2_impl; [exact H|]. by intros t t' [? _].
    + intros i Hi. rewrite (main_copies_relabel _ _ _ (rg_once _ Hreg) Hfits). pose proof (main_copies_has_main group i) as Hm.
      destruct (decide _) as [Hin|Hin]; rewrite Hgroup in Hin; rewrite Hm in Hin; lia.
Qed.

(** (C7) Fully parallel saving keeps a valid sharding valid: the job's ranks are divided into groups; the shards are as the constructors
    build them, not flattened, without empty axes and without duplicates on a rank.  If [validate_sharding_integrity] accepts the shards of all ranks, [apply_saving_parallelization] succeeds in
    every group and the validation that follows it accepts the new replica ids, so that the checkpoint still covers every tensor exactly once. *)
Theorem saving_keeps_valid (do_cache : bool) (groups : list (list (list sharded_tensor))) (He : forall dtype, 0 <= element_size dtype)
    (Hbuilt : forall t, t ∈ concat (concat groups) -> built t /\ positive t /\ st_flattened_range t = None)
    (Hnd : forall ts, ts ∈ concat groups -> NoDup (map sharded_tensor_shard_id ts))
    (Hvalid : validate_sharding_integrity (concat groups) = Ok tt) :
  exists saved, mapR (save do_cache None) groups = Ok saved /\ validate_sharding_integrity (concat (map fst saved)) = Ok tt.
Proof.
  assert (Hreg : forall group, group ∈ groups -> regular_shards group).
  { intros group Hgr. split.
    - intros t Ht. destruct (Hbuilt t) as (Hb & Hp & Hf); [|split; [by apply built_on_grid|done]].
      apply list_elem_of_In, in_concat in Ht as (ts & Hts & Ht). apply list_elem_of_In, in_concat. exists ts. split; [|done].
      apply in_concat. exists group. by rewrite <- list_elem_of_In.
    - apply Forall_forall. intros ts Hts. apply Hnd. apply list_elem_of_In, in_concat. exists group. by rewrite <- !list_elem_of_In. }
  destruct (mapR_ex (save do_cache None) (fun group s => relabelled_all group (fst s) /\ forall i, (main_copies group i <= 1)%nat -> main_copies (fst s) i = main_copies group i) groups)
    as (saved & E & Hsaved).
  { intros group Hgr. destruct (group_save do_cache group He (Hreg group Hgr)) as (g' & c & -> & Hr & Hc). by exists (g', c). }
  exists saved. split; [done|].
  assert (Hrel : relabelled_all (concat groups) (concat (map fst saved))).
  { clear -Hsaved. induction Hsaved as [|g s gs ss [Hr _] _ IH]; cbn; [constructor|by apply Forall2_app]. }
  assert (Hcop : forall i, (main_copies (concat groups) i <= 1)%nat -> main_copies (concat (map fst saved)) i = main_copies (concat groups) i).
  { intros i. clear -Hsaved. induction Hsaved as [|g s gs ss [_ Hc] _ IH]; [done|]; cbn [concat map]. rewrite !main_copies_app. intros Hle. rewrite Hc, IH by lia. done. }
  rewrite validate_all_keys in Hvalid. apply validate_all_keys. intros key Hkey. apply (key_stays_valid (concat groups)); [done| | |].
  - intros i Hi. rewrite Hcop; lia.
  - intros t Ht. destruct (Hbuilt t Ht) as (Hb & Hp & Hf). split; [by apply built_on_grid|done].
  - apply Hvalid. apply shard_keys_spec in Hkey as (x' & [n Hn]%list_elem_of_lookup & <-). apply shard_keys_spec.
    destruct (Forall2_lookup_r _ _ _ _ _ (relabelled_tagged _ _ Hrel) Hn) as (x & Hx & _ & Hr). exists x. split; [by eapply list_elem_of_lookup_2|]. by rewrite Hr.
Qed.
End Job.

(** The hypotheses hold for two groups of two ranks that hold the same tensor. *)
Definition sample_groups : list (list (list sharded_tensor)) :=
  [[[sample_cell 0 0; sample_cell 1 0]; [sample_cell 0 1; sample_cell 1 1]]; [[sample_cell 0 2]; [sample_cell 1 2]]].
Lemma saving_keeps_valid_witness : exists saved, mapR (apply_saving_parallelization (fun _ => 4) false None) sample_groups = Ok saved /\
  validate_sharding_integrity (concat (map fst saved)) = Ok tt.
Proof.
  apply saving_keeps_valid.
  - intros _. lia.
  - intros t Ht. assert (Hcell : exists o r, t = sample_cell o r /\ (o = 0 \/ o = 1)).
    { repeat (apply elem_of_cons in Ht as [->|Ht]; [eexists _, _; split; [reflexivity|first [by left|by right]]|]). by apply elem_of_nil in Ht. }
    destruct Hcell as (o & r & -> & Ho). destruct (sample_cell_built o r Ho) as [Hb Hp]. split; [exact Hb|]. split; [exact Hp|reflexivity].
  - intros ts Hts. repeat (apply elem_of_cons in Hts as [->|Hts]; [apply (bool_decide_unpack _); vm_compute; exact I|]). by apply elem_of_nil in Hts.
  - reflexivity.
Defined.
