(* ===== verification/LayerLayout.v ===== *)
(** * Custom layouts of the pipeline stages

    [megatron/core/transformer/pipeline_parallel_layer_layout.py]: which layers each virtual stage of each pipeline
    rank holds, written as a list of stages or as a string such as [Et*3|(tt|)*29,m|L]. *)

From Stdlib Require Import Ascii.
From S2P Require Import Prelude RankGroups ParallelState.

(* ================================================================== *)
(** ** Layout strings                                                  *)
(* ================================================================== *)

(** [LayerType] of [transformer/enums.py] *)
Inductive LayerType := embedding | loss | encoder | decoder | mtp.
#[export] Instance LayerType_eq_dec : EqDecision LayerType.
Proof. solve_decision. Defined.

(** Texts are lists of characters here. *)
Notation text := (list Ascii.ascii).
Local Open Scope char_scope.

(** The longest prefix of characters that pass a test, and the rest. *)
Fixpoint span_while (f : Ascii.ascii -> bool) (l : text) : text * text :=
  match l with
  | [] => ([], [])
  | c :: l' => if f c then (c :: fst (span_while f l'), snd (span_while f l')) else ([], l)
  end.

(** [\d] and [int] of a text of digits *)
Definition is_digit (c : Ascii.ascii) : bool := (Nat.leb 48 (nat_of_ascii c) && Nat.leb (nat_of_ascii c) 57)%bool.
Definition int_of_digits (l : text) : nat := fold_left (fun n c => (10 * n + (nat_of_ascii c - 48))%nat) l 0%nat.

(** A match of a pattern at the start of a text: the two groups and the rest. *)
Definition pattern : Type := text -> option (text * text * text).

(** [\*(\d+)] *)
Definition match_times (l : text) : option (text * text) :=
  match l with
  | "*" :: l' => match span_while is_digit l' with ([], _) => None | (ds, rest) => Some (ds, rest) end
  | _ => None
  end.

(** [\(([^)]+)\)\*(\d+)]: the first group ends at the first closing parenthesis. *)
Definition match_parentheses : pattern := fun l =>
  match l with
  | "(" :: l1 =>
      match span_while (fun c => negb (bool_decide (c = ")"))) l1 with
      | ([], _) => None
      | (body, ")" :: l2) => '(ds, rest) ← match_times l2; Some (body, ds, rest)
      | _ => None
      end
  | _ => None
  end.

(** [(.)\*(\d+)]: the dot is any character but a newline. *)
Definition match_char : pattern := fun l =>
  match l with
  | c :: l' => if bool_decide (c = "010") then None else '(ds, rest) ← match_times l'; Some ([c], ds, rest)
  | [] => None
  end.

(** [s * n] on texts *)
Fixpoint times {A} (n : nat) (l : list A) : list A := match n with O => [] | S n' => l ++ times n' l end.

(** [re.sub(pattern, lambda x: x.group(1) * int(x.group(2)), s)]: every match from the left, without overlap. *)
Fixpoint re_sub (p : pattern) (fuel : nat) (l : text) : text :=
  match fuel, l with
  | O, _ | _, [] => l
  | S fuel', c :: l' =>
      match p l with
      | Some (body, ds, rest) => times (int_of_digits ds) body ++ re_sub p fuel' rest
      | None => c :: re_sub p fuel' l'
      end
  end.
Definition unroll (p : pattern) (l : text) : text := re_sub p (length l) l.

(** [s.replace(",", "")] *)
Definition remove_commas (l : text) : text := List.filter (fun c => negb (bool_decide (c = ","))) l.

(** [char2layer_type] *)
Definition char2layer_type (c : Ascii.ascii) : option LayerType :=
  match c with "E" => Some embedding | "L" => Some loss | "t" => Some decoder | "m" => Some mtp | _ => None end.

Definition parse_char (c : Ascii.ascii) : res LayerType :=
  match char2layer_type c with Some t => mret t | None => raise_ AssertionError "Invalid layer character" end.

(** [layout_str.split('|')] and the conversion of the stages *)
Definition parse_stages (l : text) : res (list (list LayerType)) :=
  mapR (fun stage => mapR parse_char (chars stage)) (split_chars "|" [] l).

(** [parse_str_to_list] *)
Definition parse_str_to_list (layout_str : string) : res (list (list LayerType)) :=
  parse_stages (unroll match_char (unroll match_parentheses (remove_commas (chars layout_str)))).

(** [get_num_stages_from_str] *)
Definition get_num_stages_from_str (layout_str : string) : res Z :=
  l ← parse_str_to_list layout_str; mret (Z.of_nat (length l)).

(* ================================================================== *)
(** ** Layouts                                                         *)
(* ================================================================== *)

Local Close Scope char_scope.

(** The fields of [PipelineParallelLayerLayout]; [layout] is indexed by pipeline rank, then virtual stage. *)
Record layer_layout := mkLayout {
  ly_pp_size : Z;
  ly_vp_size : Z;
  ly_layout : list (list (list LayerType));
  ly_flatten : list LayerType
}.

(** The input: a string, or a list of stages whose elements are layer types or their names. *)
Inductive layout_input :=
  | LayoutStr (s : string)
  | LayoutList (stages : list (list (LayerType + string))).

(** [s.strip()] on ASCII text *)
Definition is_space (c : Ascii.ascii) : bool := let n := nat_of_ascii c in ((Nat.leb 9 n && Nat.leb n 13) || (Nat.leb 28 n && Nat.leb n 32))%bool.
Definition strip_left (l : text) : text := snd (span_while is_space l).
Definition py_strip (s : string) : string := of_chars (reverse (strip_left (reverse (strip_left (chars s))))).

(** [LayerType.__members__] *)
Definition layer_members : list (string * LayerType) :=
  [("embedding", embedding); ("loss", loss); ("encoder", encoder); ("decoder", decoder); ("mtp", mtp)].

(** The conversion of one element. *)
Definition to_layer_type (x : LayerType + string) : res LayerType :=
  match x with
  | inl t => mret t
  | inr s =>
      match List.find (fun p => bool_decide (fst p = py_lower (py_strip s))) layer_members with
      | Some (_, t) => mret t
      | None => raise_ AssertionError "not a valid LayerType"
      end
  end.

(** [__init__] *)
Definition layout_init (input : layout_input) (pipeline_model_parallel_size : Z) : res layer_layout :=
  layout ← match input with
           | LayoutStr s => l ← parse_str_to_list s; mret (map (map inl) l)
           | LayoutList l => mret l
           end;
  let n := Z.of_nat (length layout) in
  r ← pymod n pipeline_model_parallel_size;
  assert_ (r =? 0) "pipeline_model_parallel_layout must be divisible by pipeline_model_parallel_size" ;;
  vp_size ← floordiv n pipeline_model_parallel_size;
  layout ← mapR (fun pp_rank => mapR (fun vpp_rank => py_get layout (vpp_rank * pipeline_model_parallel_size + pp_rank))
                                     (zrange 0 vp_size)) (zrange 0 pipeline_model_parallel_size);
  layout ← mapR (mapR (mapR to_layer_type)) layout;
  flatten ← mapR (fun vpp_rank => rows ← mapR (fun row => py_get row vpp_rank) layout; mret (concat rows)) (zrange 0 vp_size);
  mret (mkLayout pipeline_model_parallel_size vp_size layout (concat flatten)).

(** [l.count(x)] *)
Definition count (t : LayerType) (l : list LayerType) : Z := Z.of_nat (length (List.filter (fun x => bool_decide (x = t)) l)).

(** The part of a list from the first occurrence of an element on. *)
Fixpoint from_first (t : LayerType) (l : list LayerType) : list LayerType :=
  match l with [] => [] | x :: l' => if decide (x = t) then l else from_first t l' end.

(** [validate_layer_layout] *)
Definition validate_layer_layout (l : layer_layout) (num_layers : Z) (mtp_num_layers : option Z) : res unit :=
  let flat := ly_flatten l in
  first ← py_get flat 0;
  assert_ (bool_decide (first = embedding)) "The first layer must be embedding" ;;
  last ← py_get flat (-1);
  assert_ (bool_decide (last = loss)) "The last layer must be loss" ;;
  assert_ (count embedding flat =? 1) "Embedding must be specified exactly once" ;;
  assert_ (count loss flat =? 1) "Loss must be specified exactly once" ;;
  assert_ (count decoder flat =? num_layers) "Number of decoder layers must match num_layers" ;;
  assert_ (bool_decide (Some (count mtp flat) = mtp_num_layers) || (is_none mtp_num_layers && (count mtp flat =? 0)))
    "Number of mtp layers in layout must match mtp_num_layers" ;;
  assert_ (count decoder (from_first mtp flat) =? 0) "decoder layers must be placed before MTP layers" ;;
  foldR (fun _ row => foldR (fun _ stage => assert_ (negb (bool_decide (mtp ∈ stage))) "MTP should be always in the last virtual pipeline stage")
           tt (take (Z.to_nat (ly_vp_size l - 1)) row)) tt (ly_layout l) ;;
  foldR (fun _ '(pp_rank, row) =>
           stage ← py_get row (-1);
           if bool_decide (mtp ∈ stage) then
             assert_ (bool_decide (Some (count mtp stage) = mtp_num_layers)) "All of the MTP layers must be in the same stage" ;;
             assert_ ((Z.of_nat pp_rank =? ly_pp_size l - 1) && bool_decide (loss ∈ stage)) "MTP layers must be in the last stage together with Loss stage."
           else mret tt) tt (imap pair (ly_layout l)) ;;
  if 0 <? count encoder flat then raise_ Exception_ "NotImplementedError" else mret tt.

Section Stage.
Context {PG : Type} `{!ProcessGroup PG} (env : dist_env) (ps : pstate PG).

(** The pipeline rank and the virtual stage that the methods use. *)
Definition stage_of (vp_stage pp_rank : option Z) : res (Z * Z) :=
  pp ← match pp_rank with Some r => mret r | None => get_pipeline_model_parallel_rank env ps end;
  vp ← match get_virtual_pipeline_model_parallel_world_size ps with
       | Some _ => match vp_stage with Some v => mret v | None => raise_ AssertionError "vp_stage must be passed if virtual pipeline is enabled" end
       | None => mret 0
       end;
  mret (pp, vp).

(** [self.layout[pp_rank][vp_stage].count(layer_type)] *)
Definition stage_count (l : layer_layout) (t : LayerType) (pp vp : Z) : res Z :=
  row ← py_get (ly_layout l) pp; stage ← py_get row vp; mret (count t stage).

(** [get_num_layers_to_build] of the layout *)
Definition layout_num_layers (l : layer_layout) (t : LayerType) (vp_stage pp_rank : option Z) : res Z :=
  '(pp, vp) ← stage_of vp_stage pp_rank; stage_count l t pp vp.

(** [get_layer_offset] *)
Definition get_layer_offset (l : layer_layout) (t : LayerType) (vp_stage pp_rank : option Z) : res Z :=
  '(pp, vp) ← stage_of vp_stage pp_rank;
  foldR (fun offset v =>
    foldR (fun offset p => n ← stage_count l t p v; mret (offset + n)) offset (zrange 0 (if v <? vp then ly_pp_size l else pp)))
    0 (zrange 0 (vp + 1)).

(** [get_layer_id_list] *)
Definition get_layer_id_list (l : layer_layout) (t : LayerType) (vp_stage pp_rank : option Z) : res (list Z) :=
  offset ← get_layer_offset l t vp_stage pp_rank;
  n ← layout_num_layers l t vp_stage pp_rank;
  mret (zrange offset (offset + n)).
End Stage.

Example parse_example : parse_str_to_list "Et*3|(tt|)*2,m|L" =
  Ok [[embedding; decoder; decoder; decoder]; [decoder; decoder]; [decoder; decoder]; [mtp]; [loss]].
Proof. vm_compute. reflexivity. Qed.
