(* ===== verification/LayerLayoutProofs.v ===== *)
(** * Layout strings mean what they say, and layouts number the layers

    Parsing is characterised on the notation itself, and the layers of the stages of a layout are shown to be
    consecutive in the order of the virtual stages. *)

From Stdlib Require Import Ascii.
From S2P Require Import Prelude RankGroups ParallelState LayerLayout.

(* ================================================================== *)
(** ** Consecutive intervals                                           *)
(* ================================================================== *)

(** Intervals that start where the last one ended. *)
Lemma chain_tiles (a b : Z -> Z) k : 0 < k -> (forall i, 0 <= i < k -> a i <= b i) -> (forall i, 0 <= i -> i + 1 < k -> a (i + 1) = b i) ->
  a 0 <= b (k - 1) /\ concat (map (fun i => zrange (a i) (b i)) (zrange 0 k)) = zrange (a 0) (b (k - 1)).
Proof.
  intros Hk. replace k with (Z.of_nat (S (Z.to_nat (k - 1)))) by lia. generalize (Z.to_nat (k - 1)). clear k Hk. intros n.
  induction n as [|n IH]; intros Hab Hn.
  - split; [apply Hab; lia|]. cbn [map concat Z.of_nat]. change (zrange 0 (Z.of_nat 1)) with [0]. cbn. by rewrite app_nil_r.
  - replace (Z.of_nat (S (S n))) with (Z.of_nat (S n) + 1) in * by lia. destruct IH as [IH1 IH2]; [intros; apply Hab; lia|intros; apply Hn; lia|].
    assert (Hs : a (Z.of_nat (S n)) = b (Z.of_nat (S n) - 1)) by (rewrite <- Hn by lia; f_equal; lia).
    pose proof (Hab (Z.of_nat (S n)) ltac:(lia)) as Hl. rewrite Z.add_simpl_r. split; [lia|].
    rewrite zrange_snoc by lia. rewrite map_app, concat_app, IH2. cbn [map concat]. rewrite app_nil_r, Hs.
    symmetry. apply zrange_app; lia.
Qed.

(** Intervals in the cells of a grid, row by row. *)
Lemma grid_tiles (n off : Z -> Z -> Z) V P : 0 < V -> 0 < P ->
  (forall v p, 0 <= v < V -> 0 <= p < P -> 0 <= n v p) ->
  (forall v p, 0 <= v < V -> 0 <= p -> p + 1 < P -> off v (p + 1) = off v p + n v p) ->
  (forall v, 0 <= v -> v + 1 < V -> off (v + 1) 0 = off v (P - 1) + n v (P - 1)) ->
  concat (map (fun v => concat (map (fun p => zrange (off v p) (off v p + n v p)) (zrange 0 P))) (zrange 0 V)) =
    zrange (off 0 0) (off (V - 1) (P - 1) + n (V - 1) (P - 1)).
Proof.
  intros HV HP Hn Hp Hv.
  assert (Hrow : forall v, 0 <= v < V -> off v 0 <= off v (P - 1) + n v (P - 1) /\
    concat (map (fun p => zrange (off v p) (off v p + n v p)) (zrange 0 P)) = zrange (off v 0) (off v (P - 1) + n v (P - 1))).
  { intros v Hr. apply (chain_tiles (off v) (fun p => off v p + n v p)); [done| |by intros; apply Hp].
    intros p Hpr. specialize (Hn v p Hr Hpr). lia. }
  rewrite (map_ext_in _ (fun v => zrange (off v 0) (off v (P - 1) + n v (P - 1)))) by (intros v Hr%list_elem_of_In%elem_of_zrange; by apply Hrow).
  apply (chain_tiles (fun v => off v 0) (fun v => off v (P - 1) + n v (P - 1))); [done|intros; by apply Hrow|done].
Qed.

(* ================================================================== *)
(** ** Substitution                                                    *)
(* ================================================================== *)

Local Open Scope char_scope.

Definition shortens (p : pattern) : Prop := forall l body ds rest, p l = Some (body, ds, rest) -> (length rest < length l)%nat.

Lemma span_length f l : (length (snd (span_while f l)) <= length l)%nat.
Proof. induction l as [|c l IH]; [done|]. cbn. case_match; cbn; lia. Qed.
Lemma match_times_shortens l ds rest : match_times l = Some (ds, rest) -> (length rest < length l)%nat.
Proof.
  destruct l as [|c l]; [done|]. cbn. pose proof (span_length is_digit l) as Hl. intros H.
  assert (Hd : exists d0 d1, span_while is_digit l = (d0 :: d1, rest)) by (repeat case_match; simplify_eq; eauto). destruct Hd as (d0 & d1 & Hd). rewrite Hd in Hl. cbn in *. lia.
Qed.
Lemma match_parentheses_shortens : shortens match_parentheses.
Proof.
  intros l body ds rest H. destruct l as [|c l]; [done|]. cbn in H. pose proof (span_length (fun c => negb (bool_decide (c = ")"))) l) as Hl.
  assert (Hd : exists b1 b2 l2, span_while (fun c => negb (bool_decide (c = ")"))) l = (b1 :: b2, ")" :: l2) /\ match_times l2 = Some (ds, rest)).
  { repeat case_match; simplify_eq. all: destruct (match_times _) as [[? ?]|] eqn:Em; cbn in H; simplify_eq; eauto 6. }
  destruct Hd as (b1 & b2 & l2 & Hd & Hm). rewrite Hd in Hl. apply match_times_shortens in Hm. cbn in *. lia.
Qed.
Lemma match_char_shortens : shortens match_char.
Proof.
  intros l body ds rest H. destruct l as [|c l]; [done|]. cbn in H. case_bool_decide; [done|]. destruct (match_times l) as [[? ?]|] eqn:Em; cbn in H; simplify_eq. apply match_times_shortens in Em. cbn. lia.
Qed.

(** There is always enough fuel. *)
Lemma re_sub_fuel p fuel l : shortens p -> (length l <= fuel)%nat -> re_sub p fuel l = unroll p l.
Proof.
  intros Hp. unfold unroll. revert l. induction fuel as [fuel IH] using lt_wf_ind. intros l Hl. destruct l as [|c l].
  - by destruct fuel.
  - destruct fuel as [|fuel]; [cbn in Hl; lia|]. cbn [length] in *. cbn [re_sub]. destruct (p (c :: l)) as [[[body ds] rest]|] eqn:E.
    + apply Hp in E. cbn in E. rewrite (IH fuel), (IH (length l)) by lia. done.
    + rewrite (IH fuel) by lia. done.
Qed.
Lemma unroll_cons p c l : shortens p -> unroll p (c :: l) =
  match p (c :: l) with Some (body, ds, rest) => times (int_of_digits ds) body ++ unroll p rest | None => c :: unroll p l end.
Proof.
  intros Hp. unfold unroll at 1. cbn [length re_sub]. destruct (p (c :: l)) as [[[body ds] rest]|] eqn:E; [|done]. apply Hp in E. cbn in E. f_equal. apply re_sub_fuel; [done|lia].
Qed.

(* ================================================================== *)
(** ** The notation                                                    *)
(* ================================================================== *)

(** [c] and [c*n], with the digits of [n]; in an item also [(...)*n]. *)
Inductive atom := One (c : Ascii.ascii) | Many (c : Ascii.ascii) (ds : text).
Inductive item := Atom (a : atom) | Group (body : list atom) (ds : text).

Definition print_atom (a : atom) : text := match a with One c => [c] | Many c ds => c :: "*" :: ds end.
Definition print_atoms (l : list atom) : text := concat (map print_atom l).
Definition print_item (i : item) : text := match i with Atom a => print_atom a | Group body ds => "(" :: print_atoms body ++ ")" :: "*" :: ds end.
Definition print_items (l : list item) : text := concat (map print_item l).

(** What they stand for. *)
Definition atom_text (a : atom) : text := match a with One c => [c] | Many c ds => times (int_of_digits ds) [c] end.
Definition item_text (i : item) : text := match i with Atom a => atom_text a | Group body ds => times (int_of_digits ds) (concat (map atom_text body)) end.

(** Layers are [E], [L], [t] and [m]; [|] separates stages; repetitions have digits, groups are not empty. *)
Definition plain (c : Ascii.ascii) : Prop := c = "|" \/ is_Some (char2layer_type c).
Definition digits (ds : text) : Prop := ds <> [] /\ Forall (fun c => is_digit c = true) ds.
Definition good_atom (a : atom) : Prop := match a with One c => plain c | Many c ds => plain c /\ digits ds end.
Definition good_item (i : item) : Prop := match i with Atom a => good_atom a | Group body ds => body <> [] /\ Forall good_atom body /\ digits ds end.

Lemma plain_cases c : plain c -> c = "|" \/ c = "E" \/ c = "L" \/ c = "t" \/ c = "m".
Proof. intros [->|[t H]]; [by left|]. destruct c as [[] [] [] [] [] [] [] []]; try discriminate H; auto. Qed.

(** The text after a repetition does not go on with a digit. *)
Definition no_digit (l : text) : Prop := match l with c :: _ => is_digit c = false | [] => True end.
Lemma no_digit_plain c l : plain c -> no_digit (c :: l).
Proof. intros H. by destruct (plain_cases c H) as [->|[->|[->|[->| ->]]]]. Qed.
Lemma no_digit_items l : Forall good_item l -> no_digit (print_items l).
Proof.
  intros H. destruct l as [|i l]; [done|]. inversion_clear H as [|? ? Hi _]. destruct i as [[c|c ds]|body ds]; cbn in Hi; [exact (no_digit_plain c _ Hi)|exact (no_digit_plain c _ (proj1 Hi))|reflexivity].
Qed.

Lemma span_digits ds l : Forall (fun c => is_digit c = true) ds -> no_digit l -> span_while is_digit (ds ++ l) = (ds, l).
Proof.
  intros Hd Hl. induction Hd as [|c ds Hc _ IH]; cbn [app].
  - destruct l as [|c l]; [done|]. cbn in *. by rewrite Hl.
  - cbn [span_while]. rewrite Hc, IH. done.
Qed.
Lemma match_times_run ds l : digits ds -> no_digit l -> match_times ("*" :: ds ++ l) = Some (ds, l).
Proof. intros [Hn Hd] Hl. cbn. rewrite span_digits by done. by destruct ds. Qed.

(** Characters that a pattern does not start at stay. *)
Lemma unroll_keep p l r : shortens p -> (forall c l1 l2, l = l1 ++ c :: l2 -> p (c :: l2 ++ r) = None) -> unroll p (l ++ r) = l ++ unroll p r.
Proof.
  intros Hp. induction l as [|c l IH]; intros H; [done|]. cbn [app]. rewrite unroll_cons by done. rewrite (H c [] l eq_refl). f_equal.
  apply IH. intros d l1 l2 ->. apply (H d (c :: l1) l2 eq_refl).
Qed.

Lemma not_open c l : c <> "(" -> match_parentheses (c :: l) = None.
Proof. intros H. destruct c as [[] [] [] [] [] [] [] []]; try done; by destruct H. Qed.
Lemma atom_chars a c : good_atom a -> c ∈ print_atom a -> c <> "(" /\ c <> ")".
Proof.
  assert (Hpl : forall d, plain d -> d <> "(" /\ d <> ")") by (intros d H; destruct (plain_cases d H) as [->|[->|[->|[->| ->]]]]; done).
  assert (Hdg : forall d, is_digit d = true -> d <> "(" /\ d <> ")") by (intros d H; split; intros ->; done).
  destruct a as [d|d ds]; cbn.
  - intros H Hc%list_elem_of_singleton. subst. by apply Hpl.
  - intros [H [_ Hd]] Hc. apply elem_of_cons in Hc as [->|Hc]; [by apply Hpl|]. apply elem_of_cons in Hc as [->|Hc]; [done|]. rewrite Forall_forall in Hd. by apply Hdg, Hd.
Qed.
Lemma atoms_chars l c : Forall good_atom l -> c ∈ print_atoms l -> c <> "(" /\ c <> ")".
Proof.
  intros Hl Hc. unfold print_atoms in Hc. apply list_elem_of_In, in_concat in Hc as (x & Hx & Hc%list_elem_of_In). apply in_map_iff in Hx as (a & <- & Ha%list_elem_of_In).
  rewrite Forall_forall in Hl. eapply atom_chars; [|exact Hc]. by apply Hl.
Qed.

Lemma span_body l r : (forall c, c ∈ l -> c <> ")") -> span_while (fun c => negb (bool_decide (c = ")"))) (l ++ ")" :: r) = (l, ")" :: r).
Proof.
  induction l as [|c l IH]; intros H; cbn; [done|]. rewrite bool_decide_false by (apply H, list_elem_of_here). cbn. rewrite IH; [done|]. intros d Hd. apply H. by apply list_elem_of_further.
Qed.

(** The first substitution unrolls the groups. *)
Definition ungrouped (i : item) : list atom := match i with Atom a => [a] | Group body ds => times (int_of_digits ds) body end.
Lemma print_times n l : print_atoms (times n l) = times n (print_atoms l).
Proof. induction n as [|n IH]; [done|]. cbn. unfold print_atoms in *. by rewrite map_app, concat_app, IH. Qed.

Lemma unroll_groups l : Forall good_item l -> unroll match_parentheses (print_items l) = print_atoms (concat (map ungrouped l)).
Proof.
  induction l as [|i l IH]; intros H; [done|]. inversion_clear H as [|? ? Hi Hl]. specialize (IH Hl). unfold print_items, print_atoms in *. cbn [map concat]. rewrite map_app, concat_app, <- IH.
  destruct i as [a|body ds]; cbn [ungrouped print_item map concat].
  - rewrite app_nil_r. apply unroll_keep; [apply match_parentheses_shortens|]. intros c l1 l2 E1. apply not_open. apply (atom_chars a c Hi). rewrite E1. set_solver.
  - destruct Hi as (Hb & Hg & Hd). cbn [app]. rewrite unroll_cons by apply match_parentheses_shortens. rewrite <- app_assoc. cbn [app match_parentheses].
    rewrite span_body by (intros c Hc; by apply (atoms_chars body c Hg)). rewrite match_times_run; [|done|by apply no_digit_items].
    assert (Hne : print_atoms body <> []) by (destruct body as [|[|] body]; done). destruct (print_atoms body) as [|x b] eqn:Eb; [done|]. cbn [mbind option_bind].
    fold (print_atoms (times (int_of_digits ds) body)). by rewrite print_times, Eb.
Qed.

(** The second one unrolls the repeated layers. *)
Lemma match_char_none c d l : d <> "*" -> match_char (c :: d :: l) = None.
Proof. intros H. cbn. case_bool_decide; [done|]. destruct d as [[] [] [] [] [] [] [] []]; try done; by destruct H. Qed.
Lemma unroll_atoms l : Forall good_atom l -> unroll match_char (print_atoms l) = concat (map atom_text l).
Proof.
  induction l as [|a l IH]; intros H; [done|]. inversion_clear H as [|? ? Ha Hl]. specialize (IH Hl). unfold print_atoms in *. cbn [map concat]. destruct a as [c|c ds]; cbn [print_atom atom_text app].
  - rewrite unroll_cons by apply match_char_shortens. rewrite IH. destruct (concat (map print_atom l)) as [|d r] eqn:Er; [cbn; by case_bool_decide|].
    rewrite match_char_none; [done|]. intros ->. destruct l as [|[e|e es] l]; cbn in Er; [done| |]; injection Er as -> _; inversion_clear Hl as [|? ? He _]; cbn in He; [|destruct He as [He _]]; by destruct (plain_cases _ He) as [?|[?|[?|[?|?]]]].
  - destruct Ha as [Hc Hd]. rewrite unroll_cons by apply match_char_shortens. cbn [match_char]. rewrite bool_decide_false by (intros ->; by destruct (plain_cases _ Hc) as [?|[?|[?|[?|?]]]]).
    rewrite match_times_run; [|done|].
    + cbn [mbind option_bind]. by rewrite IH.
    + destruct l as [|[e|e es] l]; [done| |]; inversion_clear Hl as [|? ? He _]; cbn in He; [|destruct He as [He _]]; by apply no_digit_plain.
Qed.

Lemma times_atoms n l : concat (map atom_text (times n l)) = times n (concat (map atom_text l)).
Proof. induction n as [|n IH]; [done|]. cbn. by rewrite map_app, concat_app, IH. Qed.
Lemma times_forall {A} (Q : A -> Prop) n l : Forall Q l -> Forall Q (times n l).
Proof. intros H. induction n as [|n IH]; [constructor|]. cbn. by apply Forall_app. Qed.

Lemma unroll_notation items : Forall good_item items -> unroll match_char (unroll match_parentheses (print_items items)) = concat (map item_text items).
Proof.
  intros H. rewrite unroll_groups, unroll_atoms by done || (apply Forall_concat, Forall_map; eapply Forall_impl; [exact H|]; intros [a|body ds] Hi; [by constructor|apply times_forall; by destruct Hi as (_ & ? & _)]).
  induction items as [|i l IH]; [done|]. inversion_clear H. cbn [map concat]. rewrite map_app, concat_app, IH by done. f_equal. destruct i as [a|body ds]; cbn; [by rewrite app_nil_r|apply times_atoms].
Qed.

Lemma split_pieces sep cur l s c : s ∈ split_chars sep cur l -> c ∈ chars s -> c ∈ cur \/ (c ∈ l /\ c <> sep).
Proof.
  revert cur. induction l as [|d l IH]; intros cur; cbn.
  - intros ->%list_elem_of_singleton. rewrite chars_of_chars, elem_of_reverse. by left.
  - case_bool_decide as E.
    + intros [->|Hs]%elem_of_cons; [rewrite chars_of_chars, elem_of_reverse; by left|]. intros Hc. destruct (IH [] Hs Hc) as [Hn|[H1 H2]]; [by apply elem_of_nil in Hn|]. right. split; [by right|done].
    + intros Hs Hc. destruct (IH (d :: cur) Hs Hc) as [[->|H]%elem_of_cons|[H1 H2]]; [right; split; [by left|done]|by left|right; split; [by right|done]].
Qed.

(** The stages of a text without repetitions. *)
Definition stages_of (l : text) : list (list LayerType) := map (fun s => omap char2layer_type (chars s)) (split_chars "|" [] l).

Lemma parse_plain l : Forall plain l -> parse_stages l = Ok (stages_of l).
Proof.
  intros Hl. unfold parse_stages, stages_of. apply mapR_total. intros s Hs.
  assert (Hc : Forall (fun c => is_Some (char2layer_type c)) (chars s)).
  { apply Forall_forall. intros c Hc. destruct (split_pieces _ _ _ _ _ Hs Hc) as [Hn|[H1 H2]]; [by apply elem_of_nil in Hn|]. rewrite Forall_forall in Hl. by destruct (Hl c H1). }
  clear Hs. induction Hc as [|c cs [t Ht] _ IH]; [done|]. cbn [mapR]. assert (E1 : parse_char c = Ok t) by (unfold parse_char; by rewrite Ht). rewrite E1. cbn [mbind res_bind]. rewrite IH. cbn. by rewrite Ht.
Qed.

Lemma item_text_plain i : good_item i -> Forall plain (item_text i).
Proof.
  assert (Ha : forall a, good_atom a -> Forall plain (atom_text a)).
  { intros [c|c ds]; cbn; [intros H; by constructor|]. intros [H _]. apply times_forall. by constructor. }
  destruct i as [a|body ds]; cbn; [apply Ha|]. intros (_ & Hb & _). apply times_forall, Forall_concat, Forall_map. eapply Forall_impl; [exact Hb|]. apply Ha.
Qed.

Lemma stages_concat cur l : concat (map (fun s => omap char2layer_type (chars s)) (split_chars "|" cur l)) = omap char2layer_type (reverse cur ++ l).
Proof.
  revert cur. induction l as [|c l IH]; intros cur; cbn [split_chars].
  - cbn. by rewrite chars_of_chars, !app_nil_r.
  - case_bool_decide as E.
    + subst. cbn [map concat]. rewrite IH, chars_of_chars, omap_app. by rewrite omap_app.
    + rewrite IH, reverse_cons, <- app_assoc. done.
Qed.
Lemma stages_length cur l : length (split_chars "|" cur l) = S (length (List.filter (fun c => bool_decide (c = "|")) l)).
Proof. revert cur. induction l as [|c l IH]; intros cur; cbn; [done|]. case_bool_decide; cbn; by rewrite IH. Qed.

(** (C38) A layout string is read as its notation says: commas are ignored, [x*n] stands for [n] times the layer or stage separator [x]
    and [(...)*n] for [n] times what is inside; the result has one stage more than the unrolled text has separators, and
    its layers are those of the text in order. *)
Theorem parse_notation s items : Forall good_item items -> remove_commas (chars s) = print_items items ->
  exists stages, parse_str_to_list s = Ok stages /\
    concat stages = omap char2layer_type (concat (map item_text items)) /\
    length stages = S (length (List.filter (fun c => bool_decide (c = "|")) (concat (map item_text items)))) /\
    stages = stages_of (concat (map item_text items)).
Proof.
  intros Hg Hs. exists (stages_of (concat (map item_text items))). unfold parse_str_to_list. rewrite Hs, unroll_notation by done. split; [|split; [|split]].
  - apply parse_plain, Forall_concat, Forall_map. eapply Forall_impl; [exact Hg|]. apply item_text_plain.
  - unfold stages_of. by rewrite stages_concat.
  - unfold stages_of. by rewrite length_map, stages_length.
  - done.
Qed.

Lemma parse_notation_witness : let items := [Atom (One "E"); Atom (Many "t" ["1"; "2"]); Atom (One "|"); Group [Many "t" ["2"]; One "|"] ["3"]; Atom (One "m"); Atom (One "L")] in
  Forall good_item items /\ exists stages, parse_str_to_list "Et*12|,(t*2|)*3,mL" = Ok stages /\ length stages = 5%nat /\ stages !! 4%nat = Some [mtp; loss].
Proof.
  intros items. assert (Hp : Forall plain ["E"; "t"; "|"; "m"; "L"]) by (repeat first [apply Forall_nil_2|apply Forall_cons_2]; first [by left|right; by eexists]).
  rewrite Forall_forall in Hp.
  assert (H : Forall good_item items).
  { unfold items. repeat first [apply Forall_nil_2|apply Forall_cons_2]; cbn; split_and?; try discriminate; try (apply Hp; set_solver).
    all: try (unfold digits; split; [discriminate|]); repeat first [apply Forall_nil_2|apply Forall_cons_2]; cbn; try reflexivity; try split; try (apply Hp; set_solver); try discriminate; by repeat constructor. }
  split; [exact H|]. destruct (parse_notation "Et*12|,(t*2|)*3,mL" items H) as (stages & E1 & _ & E2 & ->); [vm_compute; reflexivity|].
  exists (stages_of (concat (map item_text items))). split; [exact E1|]. split; vm_compute; reflexivity.
Defined.

Local Close Scope char_scope.

(* ================================================================== *)
(** ** The layers of a layout                                          *)
(* ================================================================== *)

(** The layers of a stage. *)
Definition cell (l : layer_layout) (p v : Z) : list LayerType := default [] (ly_layout l !! Z.to_nat p ≫= fun row => row !! Z.to_nat v).

Lemma py_get_in {A} (l : list A) (i : Z) : 0 <= i < Z.of_nat (length l) -> exists x, l !! Z.to_nat i = Some x /\ py_get l i = Ok x.
Proof.
  intros Hi. destruct (lookup_lt_is_Some_2 l (Z.to_nat i)) as [x Hx]; [lia|]. exists x. split; [done|]. rewrite <- (Z2Nat.id i) by lia. by apply py_get_nonneg.
Qed.

(** A layout after construction: one row per pipeline rank, one stage per virtual stage, and the flat list in virtual order. *)
Record shaped (pp : Z) (l : layer_layout) : Prop := {
  sh_pp : ly_pp_size l = pp;
  sh_vp : 0 <= ly_vp_size l;
  sh_rows : Z.of_nat (length (ly_layout l)) = pp;
  sh_stages : Forall (fun row => Z.of_nat (length row) = ly_vp_size l) (ly_layout l);
  sh_flatten : ly_flatten l = concat (map (fun v => concat (map (fun p => cell l p v) (zrange 0 pp))) (zrange 0 (ly_vp_size l)))
}.

Lemma mapR_length {A B} (f : A -> res B) l l' : mapR f l = Ok l' -> length l' = length l.
Proof. intros H%mapR_ok_Forall2. symmetry. by eapply Forall2_length. Qed.

Lemma cell_get l p v : Forall (fun row => Z.of_nat (length row) = ly_vp_size l) (ly_layout l) -> 0 <= p < Z.of_nat (length (ly_layout l)) -> 0 <= v < ly_vp_size l ->
  exists row, py_get (ly_layout l) p = Ok row /\ py_get row v = Ok (cell l p v).
Proof.
  intros Hr Hp Hv. destruct (py_get_in (ly_layout l) p Hp) as (row & H1 & H2). exists row. split; [done|]. rewrite Forall_lookup in Hr. specialize (Hr _ _ H1).
  destruct (py_get_in row v) as (x & H3 & H4); [lia|]. rewrite H4. unfold cell. rewrite H1. cbn. by rewrite H3.
Qed.

Lemma column_flat l v : Forall (fun row => Z.of_nat (length row) = ly_vp_size l) (ly_layout l) -> 0 <= v < ly_vp_size l ->
  mapR (fun row => py_get row v) (ly_layout l) = Ok (map (fun p => cell l p v) (zrange 0 (Z.of_nat (length (ly_layout l))))).
Proof.
  intros Hr Hv. set (N := Z.of_nat (length (ly_layout l))). apply mapR_ok_Forall2, Forall2_same_length_lookup. split; [rewrite length_map; pose proof (length_zrange 0 N); lia|].
  intros i row c Hi Hc. apply list_lookup_fmap_Some in Hc as (p & -> & Hp). pose proof (lookup_lt_Some _ _ _ Hi) as Hl.
  rewrite lookup_zrange in Hp by lia. injection Hp as <-. destruct (cell_get l (0 + Z.of_nat i) v Hr) as (row' & H1 & H2); [lia|done|].
  destruct (py_get_in (ly_layout l) (0 + Z.of_nat i)) as (row'' & H3 & H4); [lia|]. replace (Z.to_nat (0 + Z.of_nat i)) with i in H3 by lia. congruence.
Qed.

Lemma layout_init_shaped input pp l : 0 < pp -> layout_init input pp = Ok l -> shaped pp l.
Proof.
  intros Hpp H. unfold layout_init in H. inv_ok. injection H as <-. rename a3 into cells, a4 into rows. rewrite floordiv_ok in E2 by lia. injection E2 as <-. set (vp := _ / pp) in *.
  pose proof (Z.div_pos (Z.of_nat (length a)) pp ltac:(lia) Hpp) as Hvp. fold vp in Hvp.
  assert (Hl : Z.of_nat (length rows) = pp) by (rewrite (mapR_length _ _ _ E4), (mapR_length _ _ _ E3), length_zrange; lia).
  assert (Hr : Forall (fun row => Z.of_nat (length row) = vp) rows).
  { apply mapR_ok_Forall2 in E3, E4. apply Forall_lookup. intros i row Hi. destruct (Forall2_lookup_r _ _ _ _ _ E4 Hi) as (c & Hc & E4'). destruct (Forall2_lookup_r _ _ _ _ _ E3 Hc) as (p & _ & E3').
    rewrite (mapR_length _ _ _ E4'), (mapR_length _ _ _ E3'), length_zrange. lia. }
  split; cbn [ly_pp_size ly_vp_size ly_layout ly_flatten]; try done. f_equal.
  rewrite (mapR_total _ (fun v => concat (map (fun p => cell (mkLayout pp vp rows []) p v) (zrange 0 pp)))) in E5.
  - injection E5 as <-. done.
  - intros v Hv%elem_of_zrange. pose proof (column_flat (mkLayout pp vp rows []) v Hr Hv) as Hc. cbn [ly_layout] in Hc. rewrite Hc, Hl. done.
Qed.

(** The cells of a grid in virtual order. *)
Lemma zrange_shift a n : zrange a (a + n) = map (Z.add a) (zrange 0 n).
Proof. unfold zrange. replace (a + n - a) with n by lia. replace (n - 0) with n by lia. unfold seqZ. change (map (Z.add a)) with (fmap (M := list) (Z.add a)). rewrite <- list_fmap_compose. apply list_fmap_ext. intros. cbn. lia. Qed.
Lemma grid_order pp vp : 0 <= pp -> 0 <= vp -> concat (map (fun v => map (fun p => v * pp + p) (zrange 0 pp)) (zrange 0 vp)) = zrange 0 (vp * pp).
Proof.
  intros Hp. revert vp. apply natlike_ind; [done|]. intros v Hv IH. rewrite <- Z.add_1_r, zrange_snoc, map_app, concat_app, IH by done. cbn [map concat]. rewrite app_nil_r.
  rewrite (zrange_app 0 (v * pp) ((v + 1) * pp)) by nia. f_equal. replace ((v + 1) * pp) with (v * pp + pp) by lia. by rewrite zrange_shift.
Qed.
Lemma map_lookup_range {A} (d : A) (l : list A) : map (fun j => default d (l !! Z.to_nat j)) (zrange 0 (Z.of_nat (length l))) = l.
Proof.
  apply list_eq. intros i. destruct (l !! i) as [x|] eqn:E.
  - pose proof (lookup_lt_Some _ _ _ E) as H. apply list_lookup_fmap_Some. exists (0 + Z.of_nat i). rewrite lookup_zrange by lia. split; [|done]. replace (Z.to_nat (0 + Z.of_nat i)) with i by lia. by rewrite E.
  - apply lookup_ge_None in E. apply lookup_ge_None. rewrite length_map. pose proof (length_zrange 0 (Z.of_nat (length l))). lia.
Qed.

(** The cell of rank [p] and virtual stage [v] holds the stage with number [v * pp + p] of the input. *)
Lemma layout_init_cells stages pp l p v : 0 < pp -> layout_init (LayoutList stages) pp = Ok l -> 0 <= p < pp -> 0 <= v < ly_vp_size l ->
  Z.of_nat (length stages) = ly_vp_size l * pp /\ exists stage, stages !! Z.to_nat (v * pp + p) = Some stage /\ mapR to_layer_type stage = Ok (cell l p v).
Proof.
  intros Hpp H Hp Hv. unfold layout_init in H. inv_ok. injection E as <-. injection H as <-. cbn [ly_vp_size] in *. rename a3 into cells, a4 into rows. rewrite floordiv_ok in E2 by lia. rewrite pymod_ok in E0 by lia. injection E2 as <-. injection E0 as <-.
  set (n := Z.of_nat (length stages)) in *. assert (Hn : n = n / pp * pp) by (apply Z.eqb_eq in E6; rewrite (Z_div_mod_eq_full n pp) at 1; lia). split; [done|].
  apply mapR_ok_Forall2 in E3, E4.
  assert (H1 : zrange 0 pp !! Z.to_nat p = Some p) by (rewrite lookup_zrange by lia; f_equal; lia). destruct (Forall2_lookup_l _ _ _ _ _ E3 H1) as (c & Hc & E3'). destruct (Forall2_lookup_l _ _ _ _ _ E4 Hc) as (row & Hrow & E4').
  apply mapR_ok_Forall2 in E3', E4'.
  assert (H2 : zrange 0 (n / pp) !! Z.to_nat v = Some v) by (rewrite lookup_zrange by lia; f_equal; lia). destruct (Forall2_lookup_l _ _ _ _ _ E3' H2) as (st & Hst & E3''). destruct (Forall2_lookup_l _ _ _ _ _ E4' Hst) as (ts & Hts & E4'').
  destruct (py_get_in stages (v * pp + p)) as (x & Hx1 & Hx2); [fold n; nia|]. exists x. split; [done|]. rewrite Hx2 in E3''. injection E3'' as <-. unfold cell. cbn [ly_layout]. rewrite Hrow. cbn. by rewrite Hts.
Qed.

Lemma concat_flat {A B} (f : A -> list (list B)) l : concat (concat (map f l)) = concat (map (fun x => concat (f x)) l).
Proof. induction l as [|x l IH]; [done|]. cbn. by rewrite concat_app, IH. Qed.

(** The flat list of a layout written as a string lists the layers of the string in order. *)
Lemma layout_init_flatten s pp l stages : 0 < pp -> parse_str_to_list s = Ok stages -> layout_init (LayoutStr s) pp = Ok l -> ly_flatten l = concat stages.
Proof.
  intros Hpp Hs H. pose proof (layout_init_shaped _ _ _ Hpp H) as [S1 S2 S3 S4 S5].
  assert (Hl : layout_init (LayoutList (map (map inl) stages)) pp = Ok l) by (unfold layout_init in H |- *; rewrite Hs in H; exact H).
  assert (Hc : forall p v, 0 <= p < pp -> 0 <= v < ly_vp_size l -> Z.of_nat (length stages) = ly_vp_size l * pp /\ cell l p v = default [] (stages !! Z.to_nat (v * pp + p))).
  { intros p v Hp Hv. destruct (layout_init_cells _ _ _ p v Hpp Hl Hp Hv) as (Hn & stage & H1 & H2). rewrite length_map in Hn. split; [done|]. apply list_lookup_fmap_Some in H1 as (st & -> & ->). cbn.
    assert (E1 : forall ts, mapR to_layer_type (map inl ts) = Ok ts) by (intros ts; induction ts as [|t ts IH]; [done|]; cbn; by rewrite IH). rewrite E1 in H2. by injection H2. }
  rewrite S5. destruct (Z.eq_dec (ly_vp_size l) 0) as [E|E].
  { rewrite E. cbn. clear Hc S5. unfold layout_init in Hl. inv_ok. injection E0 as <-. injection Hl as <-. cbn in E. rewrite floordiv_ok in E3 by lia. rewrite pymod_ok in E1 by lia. injection E3 as <-. injection E1 as <-.
    match goal with Hm : (_ mod pp =? 0) = true |- _ => apply Z.eqb_eq in Hm; pose proof (Z_div_mod_eq_full (Z.of_nat (length (map (map (@inl LayerType string)) stages))) pp) as Hd; rewrite E, Hm in Hd; rewrite length_map in Hd end.
    destruct stages; [done|cbn in Hd; lia]. }
  destruct (Hc 0 0) as [Hn _]; [lia|lia|]. rewrite <- (map_lookup_range [] stages) at 1. rewrite Hn, <- grid_order by lia. 
  rewrite concat_map, map_map. rewrite concat_flat. f_equal. apply map_ext_in. intros v Hv%list_elem_of_In%elem_of_zrange. rewrite map_map. f_equal. apply map_ext_in. intros p Hp%list_elem_of_In%elem_of_zrange. by apply Hc.
Qed.

(** *** Counting *)

Lemma count_app t l1 l2 : count t (l1 ++ l2) = count t l1 + count t l2.
Proof. unfold count. rewrite List.filter_app, length_app. lia. Qed.
Lemma count_concat t ls : count t (concat ls) = zsum (map (count t) ls).
Proof. induction ls as [|l ls IH]; [done|]. cbn [concat map zsum fold_right]. rewrite count_app, IH. done. Qed.

Lemma foldR_sum {A} (f : Z -> A -> res Z) (g : A -> Z) acc l : (forall x b, x ∈ l -> f b x = Ok (b + g x)) -> foldR f acc l = Ok (acc + zsum (map g l)).
Proof.
  revert acc. induction l as [|x l IH]; intros acc H; cbn [foldR map zsum fold_right]; [by rewrite Z.add_0_r|]. rewrite H by apply list_elem_of_here. cbn [mbind res_bind].
  rewrite IH by (intros; apply H; by apply list_elem_of_further). f_equal. unfold zsum. lia.
Qed.
Lemma zsum_snoc (f : Z -> Z) k : 0 <= k -> zsum (map f (zrange 0 (k + 1))) = zsum (map f (zrange 0 k)) + f k.
Proof. intros Hk. rewrite zrange_snoc by done. rewrite map_app, zsum_app. cbn. unfold zsum. cbn. lia. Qed.

Section Numbering.
Context {PG : Type} `{!ProcessGroup PG} (env : dist_env) (ps : pstate PG).
Context (pp : Z) (l : layer_layout) (Hpp : 0 < pp) (S : shaped pp l) (t : LayerType).
Context (Hvp : get_virtual_pipeline_model_parallel_world_size ps = None -> ly_vp_size l = 1).

(** The layers of the type in a stage, and in the stages before it. *)
Definition here (v p : Z) : Z := count t (cell l p v).
Definition before (v p : Z) : Z := zsum (map (fun v' => zsum (map (here v') (zrange 0 pp))) (zrange 0 v)) + zsum (map (here v) (zrange 0 p)).

Lemma stage_count_run p v : 0 <= p < pp -> 0 <= v < ly_vp_size l -> stage_count l t p v = Ok (here v p).
Proof. intros Hp Hv. destruct S as [S1 S2 S3 S4 S5]. unfold stage_count. destruct (cell_get l p v S4) as (row & -> & H2); [lia|done|]. cbn [mbind res_bind]. by rewrite H2. Qed.
Lemma stage_of_run p v : 0 <= v < ly_vp_size l -> stage_of env ps (Some v) (Some p) = Ok (p, v).
Proof. intros Hv. unfold stage_of. cbn. destruct (get_virtual_pipeline_model_parallel_world_size ps); [done|]. cbn. specialize (Hvp eq_refl). do 2 f_equal. lia. Qed.

Lemma num_layers_run p v : 0 <= p < pp -> 0 <= v < ly_vp_size l -> layout_num_layers env ps l t (Some v) (Some p) = Ok (here v p).
Proof. intros Hp Hv. unfold layout_num_layers. rewrite stage_of_run by done. by apply stage_count_run. Qed.
Lemma offset_run p v : 0 <= p < pp -> 0 <= v < ly_vp_size l -> get_layer_offset env ps l t (Some v) (Some p) = Ok (before v p).
Proof.
  intros Hp Hv. unfold get_layer_offset. rewrite stage_of_run by done. cbn [mbind res_bind]. destruct S as [S1 _ _ _ _].
  rewrite (foldR_sum _ (fun v' => zsum (map (here v') (zrange 0 (if v' <? v then pp else p))))).
  - rewrite zsum_snoc by lia. unfold before. rewrite (proj2 (Z.ltb_ge v v)) by lia. f_equal. rewrite Z.add_0_l. f_equal. f_equal. apply map_ext_in.
    intros v' H%list_elem_of_In%elem_of_zrange. by rewrite (proj2 (Z.ltb_lt v' v)) by lia.
  - intros v' b H%elem_of_zrange. rewrite S1. apply foldR_sum. intros p' b' Hp'%elem_of_zrange. rewrite stage_count_run; [done| |lia]. revert Hp'. destruct (Z.ltb_spec v' v); lia.
Qed.

Lemma ids_run p v : 0 <= p < pp -> 0 <= v < ly_vp_size l -> get_layer_id_list env ps l t (Some v) (Some p) = Ok (zrange (before v p) (before v p + here v p)).
Proof. intros Hp Hv. unfold get_layer_id_list. rewrite offset_run, num_layers_run by done. done. Qed.

Lemma ids_tile : concat (map (fun v => concat (map (fun p => zrange (before v p) (before v p + here v p)) (zrange 0 pp))) (zrange 0 (ly_vp_size l))) = zrange 0 (count t (ly_flatten l)).
Proof.
  assert (Hn : forall v p, 0 <= here v p) by (intros; unfold here, count; lia).
  destruct (Z.eq_dec (ly_vp_size l) 0) as [E|Hne].
  { rewrite (sh_flatten _ _ S), E. done. }
  pose proof (sh_vp _ _ S) as Hv0. rewrite (grid_tiles here before); [|lia|done|done| |].
  - f_equal.
    assert (E1 : before (ly_vp_size l - 1) (pp - 1) + here (ly_vp_size l - 1) (pp - 1) = zsum (map (fun v' => zsum (map (here v') (zrange 0 pp))) (zrange 0 (ly_vp_size l)))).
    { unfold before. replace (zrange 0 (ly_vp_size l)) with (zrange 0 (ly_vp_size l - 1 + 1)) by (f_equal; lia). rewrite zsum_snoc by lia.
      replace (zrange 0 pp) with (zrange 0 (pp - 1 + 1)) by (f_equal; lia). rewrite (zsum_snoc (here (ly_vp_size l - 1))) by lia. lia. }
    rewrite E1, (sh_flatten _ _ S), count_concat, map_map. f_equal. apply map_ext. intros v. by rewrite count_concat, map_map.
  - intros v p _ Hp _. unfold before. rewrite zsum_snoc by done. lia.
  - intros v Hv _. pose proof (zsum_snoc (fun v' => zsum (map (here v') (zrange 0 pp))) v Hv) as E1. pose proof (zsum_snoc (here v) (pp - 1) ltac:(lia)) as E2.
    replace (pp - 1 + 1) with pp in E2 by lia. unfold before. rewrite E1, E2. change (zsum (map (here (v + 1)) (zrange 0 0))) with 0. lia.
Qed.
End Numbering.

Lemma validate_count l n m : validate_layer_layout l n m = Ok tt -> count decoder (ly_flatten l) = n.
Proof. intros H. unfold validate_layer_layout in H. inv_ok. by apply Z.eqb_eq. Qed.

(** The stages of a layout number the layers of each type consecutively in the order of the virtual stages (all ranks of the
    first virtual stage, then all ranks of the second one): together they build every layer once.  The flat list of a layout given as
    a string is what the string lists, and after validation there are [num_layers] decoder layers. *)
Theorem layout_numbers_layers {PG} `{!ProcessGroup PG} env (ps : pstate PG) input pp l t : 0 < pp -> layout_init input pp = Ok l ->
  (get_virtual_pipeline_model_parallel_world_size ps = None -> ly_vp_size l = 1) ->
  exists ids, mapR (fun v => mapR (fun p => get_layer_id_list env ps l t (Some v) (Some p)) (zrange 0 pp)) (zrange 0 (ly_vp_size l)) = Ok ids /\
    concat (concat ids) = zrange 0 (count t (ly_flatten l)) /\
    (forall s stages, input = LayoutStr s -> parse_str_to_list s = Ok stages -> ly_flatten l = concat stages) /\
    (forall n m, validate_layer_layout l n m = Ok tt -> count decoder (ly_flatten l) = n).
Proof.
  intros Hpp H Hvp. pose proof (layout_init_shaped _ _ _ Hpp H) as S.
  exists (map (fun v => map (fun p => zrange (before pp l t v p) (before pp l t v p + here l t v p)) (zrange 0 pp)) (zrange 0 (ly_vp_size l))). split; [|split; [|split]].
  - apply mapR_total. intros v Hv%elem_of_zrange. apply mapR_total. intros p Hp%elem_of_zrange. by apply ids_run.
  - rewrite concat_flat. by apply ids_tile.
  - intros s stages -> Hs. by eapply layout_init_flatten.
  - intros n m. apply validate_count.
Qed.

Lemma layout_numbers_layers_witness : exists l ids, layout_init (LayoutStr "Et*2|t,tL") 2 = Ok l /\
  mapR (fun v => mapR (fun p => get_layer_id_list (env8 0) (run8 0).2 l decoder (Some v) (Some p)) (zrange 0 2)) (zrange 0 (ly_vp_size l)) = Ok ids /\
  concat (concat ids) = [0; 1; 2; 3].
Proof.
  destruct (layout_init (LayoutStr "Et*2|t,tL") 2) as [l|] eqn:E; [|discriminate E]. exists l.
  destruct (layout_numbers_layers (env8 0) (run8 0).2 (LayoutStr "Et*2|t,tL") 2 l decoder) as (ids & H1 & H2 & _); [reflexivity|exact E| |].
  - intros _. vm_compute in E. injection E as <-. reflexivity.
  - exists ids. split; [reflexivity|]. split; [exact H1|]. rewrite H2. vm_compute in E. injection E as <-. reflexivity.
Defined.
