(* ===== verification/LayerSplit.v ===== *)
(** * Layers of the pipeline stages

    Which decoder layers a process builds: the checks of [TransformerConfig.__post_init__] on the pipeline fields
    ([megatron/core/transformer/transformer_config.py]), [get_num_layers_to_build] of [transformer_block.py],
    [get_transformer_layer_offset] of [transformer_layer.py], and [is_vp_first_stage], [is_vp_last_stage] of
    [pipeline_parallel/utils.py]. *)

From S2P Require Import Prelude RankGroups ParallelState LayerLayout.

(** The pipeline fields of the configuration; [L] is the layout before or after its construction. *)
Record split_config (L : Type) := mkSplit {
  sc_num_layers : Z;
  sc_mtp_num_layers : option Z;
  sc_pp_size : Z;
  sc_vp_size : option Z;
  sc_first : option Z;
  sc_last : option Z;
  sc_embedding : bool;
  sc_loss : bool;
  sc_layout : option L
}.
Arguments mkSplit {_}.
Arguments sc_num_layers {_}.
Arguments sc_mtp_num_layers {_}.
Arguments sc_pp_size {_}.
Arguments sc_vp_size {_}.
Arguments sc_first {_}.
Arguments sc_last {_}.
Arguments sc_embedding {_}.
Arguments sc_loss {_}.
Arguments sc_layout {_}.

(** [raise ValueError(...)] if a condition holds *)
Definition value_error_if (b : bool) (msg : string) : res unit := if b then raise_ ValueError msg else mret tt.

Definition is_some {A} (o : option A) : bool := negb (is_none o).
Definition uneven {L} (c : split_config L) : bool := is_some (sc_first c) || is_some (sc_last c).
Definition accounted {L} (c : split_config L) : bool := sc_embedding c || sc_loss c.

(** [__post_init__], the uneven first or last stage: what is left of the layers and of the stages. *)
Definition take_stage (vp_size : option Z) (x : option Z) (left : Z * Z) : res (Z * Z) :=
  match x with
  | None => mret left
  | Some n =>
      value_error_if (n <=? 0) "number of layers in the pipeline stage must be larger than 0" ;;
      match vp_size with
      | None => mret tt
      | Some v => r ← pymod n v; value_error_if (negb (r =? 0)) "number of layers at the stage must be divisible by virtual pipeline parallel degree"
      end ;;
      mret (fst left - n, snd left - 1)
  end.
Definition check_uneven (num_layers pp_size : Z) (vp_size first last : option Z) : res unit :=
  left ← take_stage vp_size first (num_layers, pp_size);
  left ← take_stage vp_size last left;
  let '(num_layers, stages) := left in
  if stages =? 0 then mret tt
  else
    r ← pymod num_layers stages;
    value_error_if (negb (r =? 0)) "number of layers at middle stage must be divisible by the middle pipeline model parallel size" ;;
    match vp_size with
    | None => mret tt
    | Some v => n ← floordiv num_layers stages; r ← pymod n v;
        value_error_if (negb (r =? 0)) "number of layers on each middle pipeline rank must be divisible by virtual pipeline parallel degree"
    end.

(** [__post_init__], an even split that accounts for the embedding or the loss. *)
Definition accounted_layers {L} (c : split_config L) : Z := sc_num_layers c + Z.b2z (sc_embedding c) + Z.b2z (sc_loss c).
Definition check_accounted {L} (c : split_config L) : res unit :=
  r ← pymod (accounted_layers c) (sc_pp_size c);
  value_error_if (negb (r =? 0)) "number of layers must be divisible by pipeline_model_parallel_size" ;;
  match sc_vp_size c with
  | None => mret tt
  | Some v => n ← floordiv (accounted_layers c) (sc_pp_size c); r ← pymod n v;
      value_error_if (negb (r =? 0)) "number of layers on each pipeline rank must be divisible by virtual_pipeline_model_parallel_size"
  end.

(** [__post_init__] on the pipeline fields *)
Definition with_layout {L L'} (c : split_config L) (vp : option Z) (l : option L') : split_config L' :=
  mkSplit (sc_num_layers c) (sc_mtp_num_layers c) (sc_pp_size c) vp (sc_first c) (sc_last c) (sc_embedding c) (sc_loss c) l.
Definition post_init (c : split_config layout_input) : res (split_config layer_layout) :=
  value_error_if (uneven c && accounted c) "uneven stages cannot be set at the same time with account_for_embedding_in_pipeline_split" ;;
  match sc_layout c with
  | Some input =>
      value_error_if (uneven c || accounted c) "pipeline_model_parallel_layout cannot be set with other pipeline layout arguments." ;;
      l ← layout_init input (sc_pp_size c);
      vp ← match sc_vp_size c with
           | Some v => assert_ (v =? ly_vp_size l) "virtual_pipeline_model_parallel_size conflicts with pipeline_model_parallel_layout" ;; mret (Some v)
           | None => mret (if 1 <? ly_vp_size l then Some (ly_vp_size l) else None)
           end;
      validate_layer_layout l (sc_num_layers c) (sc_mtp_num_layers c) ;;
      mret (with_layout c vp (Some l))
  | None =>
      (if uneven c then check_uneven (sc_num_layers c) (sc_pp_size c) (sc_vp_size c) (sc_first c) (sc_last c)
       else if accounted c then check_accounted c
       else mret tt) ;;
      mret (with_layout c (sc_vp_size c) None)
  end.

(** [is_vp_first_stage] and [is_vp_last_stage] *)
Definition no_virtual (vp_size : option Z) : bool := match vp_size with None => true | Some v => v <=? 1 end.
Definition is_vp_first_stage (vp_stage vp_size : option Z) : res bool :=
  if no_virtual vp_size then
    assert_ (match vp_stage with None => true | Some v => v =? 0 end) "Expected vp_stage to be 0 or None when vp_size is <= 1 or None" ;; mret true
  else mret (bool_decide (vp_stage = Some 0)).
Definition is_vp_last_stage (vp_stage vp_size : option Z) : res bool :=
  if no_virtual vp_size then
    assert_ (match vp_stage with None => true | Some v => v =? 0 end) "Expected vp_stage to be 0 or None when vp_size is <= 1 or None" ;; mret true
  else mret (bool_decide (vp_stage = (fun v => v - 1) <$> vp_size)).

(** [a and b] where [a] may raise, [b] is only evaluated when [a] holds *)
Definition res_and (a : res bool) (b : bool) : res bool := x ← a; mret (x && b).

Section Split.
Context {PG : Type} `{!ProcessGroup PG} (env : dist_env) (ps : pstate PG).

(** [parallel_state.get_pipeline_model_parallel_rank()] unless a rank is given *)
Definition rank_or_own (pp_rank : option Z) : res Z :=
  match pp_rank with Some r => mret r | None => get_pipeline_model_parallel_rank env ps end.

(** The layers of a pipeline rank when the first or last stage is uneven. *)
Definition uneven_layers (c : split_config layer_layout) (pp_rank : Z) : res Z :=
  assert_ (negb (accounted c)) "Does not support standalone embedding stage and standalone loss stage with uneven pp" ;;
  let layers := sc_num_layers c - default 0 (sc_first c) - default 0 (sc_last c) in
  let stages := sc_pp_size c - Z.b2z (is_some (sc_first c)) - Z.b2z (is_some (sc_last c)) in
  n ← (if 0 <? stages then
         assert_ (layers mod stages =? 0) "With uneven pipelineing the left over layers must be divisible by left over stages" ;; mret (layers / stages)
       else mret 0);
  let n := match sc_first c with Some x => if pp_rank =? 0 then x else n | None => n end in
  mret match sc_last c with Some x => if pp_rank =? sc_pp_size c - 1 then x else n | None => n end.

(** The layers of a pipeline rank when all are even. *)
Definition even_layers (c : split_config layer_layout) : res Z :=
  r ← pymod (accounted_layers c) (sc_pp_size c);
  assert_ (r =? 0) "num_layers should be divisible by pipeline_model_parallel_size" ;;
  floordiv (accounted_layers c) (sc_pp_size c).

(** [get_num_layers_to_build] *)
Definition get_num_layers_to_build (c : split_config layer_layout) (vp_stage pp_rank : option Z) : res Z :=
  match sc_layout c with
  | Some l => layout_num_layers env ps l decoder vp_stage None
  | None =>
      pp_rank ← rank_or_own pp_rank;
      per_rank ← (if uneven c then uneven_layers c pp_rank else even_layers c);
      n ← match sc_vp_size c with
          | Some v =>
              if 1 <? sc_pp_size c then
                r ← pymod per_rank v;
                assert_ (r =? 0) "num_layers_per_pipeline_rank should be divisible by vp_size" ;;
                floordiv per_rank v
              else mret per_rank
          | None => mret per_rank
          end;
      n ← (if sc_embedding c then
             first ← res_and (is_vp_first_stage vp_stage (sc_vp_size c)) (pp_rank =? 0);
             if first : bool then assert_ (0 <=? n - 1) "Not enough layers in the first virtual pipeline stage" ;; mret (n - 1) else mret n
           else mret n);
      if sc_loss c then
        last ← res_and (is_vp_last_stage vp_stage (sc_vp_size c)) (pp_rank =? sc_pp_size c - 1);
        if last : bool then assert_ (0 <=? n - 1) "Not enough layers in the last virtual pipeline stage" ;; mret (n - 1) else mret n
      else mret n
  end.

(** [assert vp_stage is not None] *)
Definition given (vp_stage : option Z) : res Z :=
  match vp_stage with Some v => mret v | None => raise_ AssertionError "vp_stage must be provided if virtual pipeline model parallel size is set" end.

(** The offset when the first or last stage is uneven. *)
Definition uneven_offset (c : split_config layer_layout) (vp_stage : option Z) (pp_rank : Z) : res Z :=
  let middle_stages := sc_pp_size c - (Z.b2z (is_some (sc_first c)) + Z.b2z (is_some (sc_last c))) in
  let first := default 0 (sc_first c) in
  let last := default 0 (sc_last c) in
  let middle_layers := sc_num_layers c - first - last in
  let middle_rank := if is_none (sc_first c) then pp_rank else pp_rank - 1 in
  match sc_vp_size c with
  | Some vp_size =>
      v ← given vp_stage;
      chunk_first ← match sc_first c with Some x => floordiv x vp_size | None => mret 0 end;
      chunk_last ← match sc_last c with Some x => floordiv x vp_size | None => mret 0 end;
      chunk_middle ← floordiv middle_layers vp_size;
      let total := chunk_first + chunk_middle + chunk_last in
      if pp_rank =? 0 then mret (v * total)
      else m ← floordiv chunk_middle middle_stages; mret (v * total + chunk_first + middle_rank * m)
  | None =>
      let n := if 0 <? middle_stages then middle_layers / middle_stages else 0 in
      if pp_rank =? 0 then mret 0 else mret (middle_rank * n + first)
  end.

(** The offset when all stages are even. *)
Definition even_offset (c : split_config layer_layout) (vp_stage : option Z) (pp_rank : Z) : res Z :=
  per_rank ← floordiv (accounted_layers c) (sc_pp_size c);
  offset ← match sc_vp_size c with
           | Some vp_size =>
               v ← given vp_stage;
               per_virtual ← floordiv per_rank vp_size;
               total ← floordiv (accounted_layers c) vp_size;
               mret (v * total + pp_rank * per_virtual)
           | None => mret (pp_rank * per_rank)
           end;
  if sc_embedding c then
    first ← res_and (is_vp_first_stage vp_stage (sc_vp_size c)) (pp_rank =? 0);
    mret (if first : bool then offset else offset - 1)
  else mret offset.

(** [get_transformer_layer_offset] *)
Definition get_transformer_layer_offset (c : split_config layer_layout) (vp_stage pp_rank : option Z) : res Z :=
  pp_rank ← rank_or_own pp_rank;
  if 1 <? sc_pp_size c then
    match sc_layout c with
    | Some l => get_layer_offset env ps l decoder vp_stage None
    | None => if uneven c then uneven_offset c vp_stage pp_rank else even_offset c vp_stage pp_rank
    end
  else mret 0.

(** [l[a:b]], also for negative bounds *)
Definition slice_any {A} (l : list A) (a b : Z) : list A :=
  let bound i := if i <? 0 then Z.max 0 (i + Z.of_nat (length l)) else i in py_slice l (bound a) (bound b).

(** The layers that a process builds for a virtual stage, as [get_gpt_decoder_block_spec] of [models/gpt/gpt_layer_specs.py] picks them
    from the specifications of all layers. *)
Definition built_layers (c : split_config layer_layout) (vp_stage pp_rank : option Z) : res (list Z) :=
  let layer_specs := zrange 0 (sc_num_layers c) in
  n ← get_num_layers_to_build c vp_stage pp_rank;
  match sc_layout c with
  | Some l => ids ← get_layer_id_list env ps l decoder vp_stage pp_rank; mapR (py_get layer_specs) ids
  | None => offset ← get_transformer_layer_offset c vp_stage pp_rank; mret (slice_any layer_specs offset (offset + n))
  end.
End Split.
