(* ===== verification/LayerSplitProofs.v ===== *)
(** * Every layer is built once

    The stages of the pipeline, in the order of the virtual stages, build consecutive layers from the first to the last one,
    for even, uneven and custom splits. *)

From S2P Require Import Prelude RankGroups ParallelState LayerLayout LayerLayoutProofs LayerSplit.

Ltac res_eval := unfold mbind, mret, res_bind, res_ret, assert_, value_error_if, raise_; cbn.

Section Split.
Context {PG : Type} `{!ProcessGroup PG}.
Implicit Types c : split_config layer_layout.

(** The virtual stages of a rank. *)
Definition virtual_size {L} (c : split_config L) : Z := default 1 (sc_vp_size c).
Definition stage_arg {L} (c : split_config L) (v : Z) : option Z := match sc_vp_size c with Some _ => Some v | None => None end.
Definition middle_stages {L} (c : split_config L) : Z := sc_pp_size c - Z.b2z (is_some (sc_first c)) - Z.b2z (is_some (sc_last c)).
Definition middle_layers {L} (c : split_config L) : Z := sc_num_layers c - default 0 (sc_first c) - default 0 (sc_last c).

(** What the splits need besides the checks of the configuration. *)
Record splittable {L} (c : split_config L) : Prop := {
  sp_pp : 1 < sc_pp_size c;
  sp_vp : forall v, sc_vp_size c = Some v -> 1 <= v;
  sp_layers : 0 <= sc_num_layers c;
  sp_split : match sc_layout c with
             | Some _ => True
             | None => if uneven c then 0 < middle_stages c /\ 0 <= middle_layers c
                       else exists k, accounted_layers c = sc_pp_size c * (virtual_size c * k)
             end
}.

Lemma vp_pos c : splittable c -> 1 <= virtual_size c.
Proof. intros Sp. unfold virtual_size. destruct (sc_vp_size c) as [v|] eqn:E; cbn; [by apply (sp_vp c Sp)|lia]. Qed.

(** Whether a stage is the first or last one, on the stages that exist. *)
Lemma vp_first_run c v : splittable c -> 0 <= v < virtual_size c -> is_vp_first_stage (stage_arg c v) (sc_vp_size c) = Ok (v =? 0).
Proof.
  intros Sp Hv. unfold is_vp_first_stage, stage_arg, virtual_size, no_virtual in *. destruct (sc_vp_size c) as [n|]; cbn in *.
  - destruct (Z.leb_spec n 1); cbn; [rewrite (proj2 (Z.eqb_eq v 0)) by lia; done|]. destruct (Z.eqb_spec v 0) as [->|Hn]; [done|]. rewrite bool_decide_false; [done|]. by intros [= ->].
  - by rewrite (proj2 (Z.eqb_eq v 0)) by lia.
Qed.
Lemma vp_last_run c v : splittable c -> 0 <= v < virtual_size c -> is_vp_last_stage (stage_arg c v) (sc_vp_size c) = Ok (v =? virtual_size c - 1).
Proof.
  intros Sp Hv. unfold is_vp_last_stage, stage_arg, virtual_size, no_virtual in *. destruct (sc_vp_size c) as [n|]; cbn in *.
  - destruct (Z.leb_spec n 1); cbn; [rewrite (proj2 (Z.eqb_eq v (n - 1))), (proj2 (Z.eqb_eq v 0)) by lia; done|]. destruct (Z.eqb_spec v (n - 1)) as [->|Hn]; [by rewrite bool_decide_true|]. rewrite bool_decide_false; [done|]. by intros [= ->].
  - replace v with 0 by lia. done.
Qed.

(** *** Even splits *)

Definition even_here c (k v p : Z) : Z :=
  k - Z.b2z (sc_embedding c && ((v =? 0) && (p =? 0))) - Z.b2z (sc_loss c && ((v =? virtual_size c - 1) && (p =? sc_pp_size c - 1))).
Definition even_before c (k v p : Z) : Z := (v * sc_pp_size c + p) * k - Z.b2z (sc_embedding c && negb ((v =? 0) && (p =? 0))).

Context (env : dist_env) (ps : pstate PG).

Lemma even_per_rank c k : splittable c -> accounted_layers c = sc_pp_size c * (virtual_size c * k) -> even_layers c = Ok (virtual_size c * k).
Proof.
  intros Sp Hk. pose proof (sp_pp c Sp). unfold even_layers. rewrite Hk, pymod_ok, floordiv_ok by lia. rewrite Z.mul_comm, Z.mod_mul, Z.div_mul by lia. done.
Qed.

Lemma even_nonneg c k v p : splittable c -> accounted_layers c = sc_pp_size c * (virtual_size c * k) -> 0 <= even_here c k v p /\ 0 <= k.
Proof.
  intros Sp Hk. pose proof (sp_pp c Sp). pose proof (vp_pos c Sp). pose proof (sp_layers c Sp). assert (Hk0 : 0 <= k) by (unfold accounted_layers in Hk; destruct (sc_embedding c), (sc_loss c); cbn in Hk; nia). split; [|done].
  unfold even_here. unfold accounted_layers in Hk.
  assert (Hk1 : sc_embedding c || sc_loss c = true -> 1 <= k) by (destruct (sc_embedding c), (sc_loss c); cbn in Hk |- *; intros; try done; nia).
  destruct (sc_embedding c) eqn:Ee, (sc_loss c) eqn:El; cbn in Hk1 |- *; try specialize (Hk1 eq_refl);
    destruct (Z.eqb_spec v 0), (Z.eqb_spec p 0), (Z.eqb_spec v (virtual_size c - 1)), (Z.eqb_spec p (sc_pp_size c - 1)); cbn; lia.
Qed.

Lemma even_build_run c k v p : splittable c -> sc_layout c = None -> uneven c = false -> accounted_layers c = sc_pp_size c * (virtual_size c * k) ->
  0 <= v < virtual_size c -> 0 <= p < sc_pp_size c -> get_num_layers_to_build env ps c (stage_arg c v) (Some p) = Ok (even_here c k v p).
Proof.
  intros Sp Hl Hu Hk Hv Hp. pose proof (even_nonneg c k v p Sp Hk) as [Hn Hk0]. pose proof (sp_pp c Sp). pose proof (vp_pos c Sp). unfold get_num_layers_to_build. rewrite Hl, Hu. unfold rank_or_own. cbn [mbind res_bind mret res_ret]. rewrite (even_per_rank c k) by done. cbn [mbind res_bind mret res_ret].
  assert (E1 : match sc_vp_size c with
    | Some v0 => if 1 <? sc_pp_size c then r ← pymod (virtual_size c * k) v0; assert_ (r =? 0) "num_layers_per_pipeline_rank should be divisible by vp_size" ;; floordiv (virtual_size c * k) v0 else mret (virtual_size c * k)
    | None => mret (virtual_size c * k) end = Ok k).
  { unfold virtual_size in *. destruct (sc_vp_size c) as [n|]; cbn [from_option id] in *; [|unfold mret, res_ret; f_equal; change (1 * k = k); lia]. rewrite (proj2 (Z.ltb_lt 1 _)) by lia. rewrite pymod_ok, floordiv_ok by lia. rewrite Z.mul_comm, Z.mod_mul, Z.div_mul by lia. done. }
  rewrite E1. cbn [mbind res_bind]. rewrite vp_first_run, vp_last_run by done. unfold res_and. cbn [mbind res_bind mret res_ret]. unfold even_here in Hn |- *.
  destruct (sc_embedding c); cbn [andb Z.b2z] in Hn |- *.
  - destruct ((v =? 0) && (p =? 0)); cbn [Z.b2z] in Hn |- *.
    + rewrite (proj2 (Z.leb_le 0 (k - 1))) by (destruct (sc_loss c && _); cbn in Hn; lia). cbn [assert_ mbind res_bind mret res_ret].
      destruct (sc_loss c); cbn [andb Z.b2z] in Hn |- *; [|f_equal; lia]. destruct ((v =? virtual_size c - 1) && (p =? sc_pp_size c - 1)); cbn [Z.b2z] in Hn |- *; [|f_equal; lia].
      rewrite (proj2 (Z.leb_le 0 (k - 1 - 1))) by lia. cbn. f_equal.
    + cbn [mbind res_bind mret res_ret]. destruct (sc_loss c); cbn [andb Z.b2z] in Hn |- *; [|f_equal; lia]. destruct ((v =? virtual_size c - 1) && (p =? sc_pp_size c - 1)); cbn [Z.b2z] in Hn |- *; [|f_equal; lia].
      rewrite (proj2 (Z.leb_le 0 (k - 1))) by lia. cbn. f_equal. lia.
  - cbn [mbind res_bind mret res_ret]. destruct (sc_loss c); cbn [andb Z.b2z] in Hn |- *; [|f_equal; lia]. destruct ((v =? virtual_size c - 1) && (p =? sc_pp_size c - 1)); cbn [Z.b2z] in Hn |- *; [|f_equal; lia].
    rewrite (proj2 (Z.leb_le 0 (k - 1))) by lia. cbn. f_equal. lia.
Qed.

Lemma even_offset_run c k v p : splittable c -> sc_layout c = None -> uneven c = false -> accounted_layers c = sc_pp_size c * (virtual_size c * k) ->
  0 <= v < virtual_size c -> 0 <= p < sc_pp_size c -> get_transformer_layer_offset env ps c (stage_arg c v) (Some p) = Ok (even_before c k v p).
Proof.
  intros Sp Hl Hu Hk Hv Hp. pose proof (sp_pp c Sp). pose proof (vp_pos c Sp). unfold get_transformer_layer_offset, rank_or_own. cbn [mbind res_bind mret res_ret]. rewrite (proj2 (Z.ltb_lt 1 _)), Hl, Hu by lia.
  unfold even_offset. rewrite Hk, floordiv_ok by lia. rewrite (Z.mul_comm (sc_pp_size c)), Z.div_mul by lia. cbn [mbind res_bind mret res_ret].
  assert (E1 : match sc_vp_size c with
    | Some vp_size => v0 ← given (stage_arg c v); per_virtual ← floordiv (virtual_size c * k) vp_size; total ← floordiv (virtual_size c * k * sc_pp_size c) vp_size; mret (v0 * total + p * per_virtual)
    | None => mret (p * (virtual_size c * k)) end = Ok ((v * sc_pp_size c + p) * k)).
  { unfold virtual_size, stage_arg in *. destruct (sc_vp_size c) as [n|]; cbn [from_option id] in *; [|unfold mret, res_ret; f_equal; replace v with 0 by lia; change (p * (1 * k) = (0 * sc_pp_size c + p) * k); lia].
    cbn [given mbind res_bind mret res_ret]. rewrite !floordiv_ok by lia. cbn [mbind res_bind mret res_ret]. f_equal. rewrite (Z.mul_comm n k), Z.div_mul by lia.
    replace (k * n * sc_pp_size c) with (k * sc_pp_size c * n) by lia. rewrite Z.div_mul by lia. lia. }
  rewrite E1. cbn [mbind res_bind]. unfold even_before. destruct (sc_embedding c); cbn [andb Z.b2z]; [|unfold mret, res_ret; f_equal; lia].
  rewrite vp_first_run by done. unfold res_and. cbn [mbind res_bind mret res_ret]. destruct ((v =? 0) && (p =? 0)); cbn [negb Z.b2z]; f_equal; lia.
Qed.

Lemma even_tile c k : splittable c -> accounted_layers c = sc_pp_size c * (virtual_size c * k) ->
  concat (map (fun v => concat (map (fun p => zrange (even_before c k v p) (even_before c k v p + even_here c k v p)) (zrange 0 (sc_pp_size c)))) (zrange 0 (virtual_size c))) =
  zrange 0 (sc_num_layers c).
Proof.
  intros Sp Hk. pose proof (sp_pp c Sp). pose proof (vp_pos c Sp). rewrite (grid_tiles (even_here c k) (even_before c k)); [|lia|lia| | |].
  - f_equal; [unfold even_before; cbn; rewrite andb_false_r; cbn; lia|]. unfold even_before, even_here. unfold accounted_layers in Hk. rewrite !Z.eqb_refl. cbn [andb]. rewrite andb_true_r.
    rewrite (proj2 (Z.eqb_neq (sc_pp_size c - 1) 0)) by lia. rewrite !andb_false_r. cbn [negb]. rewrite andb_true_r. cbn [Z.b2z]. nia.
  - intros v p _ _. by apply even_nonneg.
  - intros v p Hv Hp Hp1. unfold even_before, even_here. rewrite (proj2 (Z.eqb_neq p (sc_pp_size c - 1))), (proj2 (Z.eqb_neq (p + 1) 0)) by lia. rewrite !andb_false_r. cbn [negb]. rewrite andb_true_r. cbn [Z.b2z].
    destruct (sc_embedding c), ((v =? 0) && (p =? 0)); cbn; lia.
  - intros v Hv Hv1. unfold even_before, even_here. rewrite (proj2 (Z.eqb_neq v (virtual_size c - 1))), (proj2 (Z.eqb_neq (v + 1) 0)), (proj2 (Z.eqb_neq (sc_pp_size c - 1) 0)) by lia.
    destruct (sc_embedding c), (sc_loss c), (v =? 0); cbn; lia.
Qed.

(** *** Uneven splits *)

(** The first and the last stage in parts of [f] and [g] layers, the others in parts of [m] layers. *)
Record parts {L} (c : split_config L) (f g m : Z) : Prop := {
  pt_first : default 0 (sc_first c) = virtual_size c * f;
  pt_last : default 0 (sc_last c) = virtual_size c * g;
  pt_middle : middle_layers c = middle_stages c * (virtual_size c * m);
  pt_nonneg : 0 <= f /\ 0 <= g /\ 0 <= m
}.
Definition uneven_here {L} (c : split_config L) (f g m p : Z) : Z :=
  if is_some (sc_last c) && (p =? sc_pp_size c - 1) then g else if is_some (sc_first c) && (p =? 0) then f else m.
Definition uneven_before {L} (c : split_config L) (f g m v p : Z) : Z :=
  v * (f + middle_stages c * m + g) + (if p =? 0 then 0 else f + (p - Z.b2z (is_some (sc_first c))) * m).

Lemma uneven_build_run c f g m v p : splittable c -> parts c f g m -> sc_layout c = None -> uneven c = true -> accounted c = false -> 0 < middle_stages c ->
  0 <= v < virtual_size c -> 0 <= p < sc_pp_size c -> get_num_layers_to_build env ps c (stage_arg c v) (Some p) = Ok (uneven_here c f g m p).
Proof.
  intros Sp [P1 P2 P3 P4] Hl Hu Ha Hs Hv Hp. pose proof (sp_pp c Sp). pose proof (vp_pos c Sp). unfold get_num_layers_to_build. rewrite Hl, Hu. unfold rank_or_own. cbn [mbind res_bind mret res_ret].
  assert (E0 : uneven_layers c p = Ok (virtual_size c * uneven_here c f g m p)).
  { unfold uneven_layers. rewrite Ha. cbn [negb assert_ mbind res_bind]. fold (middle_stages c) (middle_layers c). rewrite (proj2 (Z.ltb_lt 0 _)) by done. rewrite P3, Z.mul_comm, Z.mod_mul, Z.div_mul by lia. cbn [Z.eqb assert_ mbind res_bind mret res_ret].
    unfold uneven_here, res_ret. f_equal. destruct (sc_first c) as [x|], (sc_last c) as [y|]; cbn [is_some is_none negb andb default from_option id] in *; destruct (Z.eqb_spec p (sc_pp_size c - 1)), (Z.eqb_spec p 0); try lia; done. }
  rewrite E0. cbn [mbind res_bind]. unfold accounted in Ha. apply orb_false_iff in Ha as [He Hlo]. rewrite He, Hlo.
  assert (E1 : match sc_vp_size c with
    | Some v0 => if 1 <? sc_pp_size c then r ← pymod (virtual_size c * uneven_here c f g m p) v0; assert_ (r =? 0) "num_layers_per_pipeline_rank should be divisible by vp_size" ;; floordiv (virtual_size c * uneven_here c f g m p) v0
                 else mret (virtual_size c * uneven_here c f g m p)
    | None => mret (virtual_size c * uneven_here c f g m p) end = Ok (uneven_here c f g m p)).
  { clear E0. generalize (uneven_here c f g m p). intros k. unfold virtual_size in *. destruct (sc_vp_size c) as [n|]; cbn [from_option id] in *; [|unfold mret, res_ret; f_equal; change (1 * k = k); lia].
    rewrite (proj2 (Z.ltb_lt 1 _)) by lia. rewrite pymod_ok, floordiv_ok by lia. rewrite Z.mul_comm, Z.mod_mul, Z.div_mul by lia. done. }
  by rewrite E1.
Qed.

Lemma uneven_offset_run c f g m v p : splittable c -> parts c f g m -> sc_layout c = None -> uneven c = true -> 0 < middle_stages c ->
  0 <= v < virtual_size c -> 0 <= p < sc_pp_size c -> get_transformer_layer_offset env ps c (stage_arg c v) (Some p) = Ok (uneven_before c f g m v p).
Proof.
  intros Sp [P1 P2 P3 P4] Hl Hu Hs Hv Hp. pose proof (sp_pp c Sp). pose proof (vp_pos c Sp). unfold get_transformer_layer_offset, rank_or_own. cbn [mbind res_bind mret res_ret]. rewrite (proj2 (Z.ltb_lt 1 _)), Hl, Hu by lia.
  unfold uneven_offset. rewrite Z.sub_add_distr. fold (middle_stages c) (middle_layers c). unfold uneven_before. rewrite P3.
  assert (Hrank : (if is_none (sc_first c) then p else p - 1) = p - Z.b2z (is_some (sc_first c))) by (destruct (sc_first c); cbn; lia). rewrite Hrank. unfold virtual_size, stage_arg in *. destruct (sc_vp_size c) as [n|]; cbn [from_option id] in *.
  - cbn [given mbind res_bind mret res_ret].
    assert (E1 : forall (o : option Z) x, default 0 o = n * x -> match o with Some y => floordiv y n | None => mret 0 end = Ok x).
    { intros [y|] x Hx; cbn in Hx; [rewrite floordiv_ok, Hx, Z.mul_comm, Z.div_mul by lia; done|]. unfold mret, res_ret. f_equal. nia. }
    rewrite (E1 _ f P1), (E1 _ g P2). cbn [mbind res_bind]. rewrite floordiv_ok by lia. cbn [mbind res_bind]. replace (middle_stages c * (n * m)) with (m * middle_stages c * n) by lia. rewrite Z.div_mul by lia.
    destruct (p =? 0); cbn [mret res_ret mbind res_bind]; [f_equal; lia|]. rewrite floordiv_ok, Z.div_mul by lia. cbn. f_equal. lia.
  - replace v with 0 by (cbn in Hv; lia). destruct (p =? 0); [done|]. rewrite (proj2 (Z.ltb_lt 0 _)) by done. rewrite (Z.mul_comm (middle_stages c)), Z.div_mul by lia. unfold mret, res_ret. f_equal.
    assert (P1' : default 0 (sc_first c) = 1 * f) by exact P1. rewrite P1'. change (default 1 None) with 1. lia.
Qed.

Lemma uneven_tile c f g m : splittable c -> parts c f g m -> 0 < middle_stages c ->
  concat (map (fun v => concat (map (fun p => zrange (uneven_before c f g m v p) (uneven_before c f g m v p + uneven_here c f g m p)) (zrange 0 (sc_pp_size c)))) (zrange 0 (virtual_size c))) =
  zrange 0 (sc_num_layers c).
Proof.
  intros Sp [P1 P2 P3 P4] Hs. pose proof (sp_pp c Sp). pose proof (vp_pos c Sp).
  assert (Hg : is_some (sc_last c) = false -> g = 0) by (destruct (sc_last c); cbn in P2 |- *; [done|intros _; nia]).
  assert (Hf : is_some (sc_first c) = false -> f = 0) by (destruct (sc_first c); cbn in P1 |- *; [done|intros _; nia]).
  assert (Hlast : forall v, uneven_before c f g m v (sc_pp_size c - 1) + uneven_here c f g m (sc_pp_size c - 1) = (v + 1) * (f + middle_stages c * m + g)).
  { intros v. unfold uneven_before, uneven_here. rewrite Z.eqb_refl, (proj2 (Z.eqb_neq (sc_pp_size c - 1) 0)) by lia. rewrite andb_true_r, andb_false_r. unfold middle_stages. destruct (is_some (sc_last c)); cbn [Z.b2z]; [lia|]. rewrite Hg by done. lia. }
  rewrite (grid_tiles (fun _ => uneven_here c f g m) (uneven_before c f g m)); [|lia|lia| | |].
  - rewrite Hlast. f_equal. unfold middle_layers in P3. nia.
  - intros _ p _ _. unfold uneven_here. repeat case_match; lia.
  - intros v p _ Hp Hp1. unfold uneven_before, uneven_here. rewrite (proj2 (Z.eqb_neq p (sc_pp_size c - 1))), (proj2 (Z.eqb_neq (p + 1) 0)) by lia. rewrite andb_false_r.
    destruct (Z.eqb_spec p 0) as [->|Hp0]; [|rewrite andb_false_r; lia]. rewrite andb_true_r. destruct (is_some (sc_first c)); cbn [Z.b2z]; [lia|]. rewrite Hf by done. lia.
  - intros v _ _. rewrite Hlast. unfold uneven_before. cbn. lia.
Qed.
End Split.

(* ================================================================== *)
(** ** From the checks of the configuration                            *)
(* ================================================================== *)

Lemma value_error_ok b msg : value_error_if b msg = Ok tt -> b = false.
Proof. unfold value_error_if. by destruct b. Qed.

(** Split what a successful check leaves. *)
Ltac inv_check :=
  repeat (inv_ok; repeat match goal with
  | H : value_error_if _ _ = Ok ?u |- _ => destruct u; apply value_error_ok in H
  | H : negb _ = false |- _ => apply negb_false_iff in H
  | H : (_ =? 0) = true |- _ => apply Z.eqb_eq in H
  | H : mret _ = Ok _ |- _ => injection H as H; subst
  end).

Lemma take_stage_ok vp x left left' : (forall v, vp = Some v -> 1 <= v) -> take_stage vp x left = Ok left' ->
  left' = (fst left - default 0 x, snd left - Z.b2z (is_some x)) /\ (exists f, default 0 x = default 1 vp * f /\ 0 <= f).
Proof.
  intros Hvp H. destruct left as [a b]. destruct x as [n|]; cbn in H.
  - inv_check. split; [done|]. apply Z.leb_gt in E. destruct vp as [v|]; cbn in *.
    + specialize (Hvp v eq_refl). rewrite pymod_ok in E0 by lia. inv_check. exists (n / v). split; [|apply Z.div_pos; lia]. rewrite (Z_div_mod_eq_full n v) at 1. lia.
    + exists n. lia.
  - injection H as <-. cbn. split; [f_equal; lia|]. exists 0. lia.
Qed.

Lemma check_uneven_parts {L} (c : split_config L) : splittable c -> sc_layout c = None -> uneven c = true ->
  check_uneven (sc_num_layers c) (sc_pp_size c) (sc_vp_size c) (sc_first c) (sc_last c) = Ok tt -> exists f g m, parts c f g m.
Proof.
  intros [Hp Hvp Hn Hs] Hl Hu H. rewrite Hl, Hu in Hs. destruct Hs as [Hs Hm]. unfold check_uneven in H. inv_ok.
  destruct (take_stage_ok _ _ _ _ Hvp E) as (-> & f & Hf & Hf0). destruct (take_stage_ok _ _ _ _ Hvp E0) as (-> & g & Hg & Hg0). cbn [fst snd] in H.
  fold (middle_stages c) (middle_layers c) in H. rewrite (proj2 (Z.eqb_neq _ 0)) in H by lia. rewrite pymod_ok in H by lia. cbn [mbind res_bind] in H. inv_check.
  assert (Hq : middle_layers c = middle_stages c * (middle_layers c / middle_stages c)) by (rewrite (Z_div_mod_eq_full (middle_layers c) (middle_stages c)) at 1; lia).
  pose proof (Z.div_pos _ _ Hm Hs) as Hq0. set (q := middle_layers c / middle_stages c) in *.
  exists f, g, (q / default 1 (sc_vp_size c)). destruct (sc_vp_size c) as [v|] eqn:Ev; cbn [default from_option id] in *.
  - specialize (Hvp v eq_refl). rewrite floordiv_ok in H by lia. cbn [mbind res_bind] in H. fold q in H. rewrite pymod_ok in H by lia. cbn [mbind res_bind] in H. inv_check.
    split; unfold virtual_size; rewrite ?Ev; cbn [from_option id]; try done; [|pose proof (Z.div_pos q v); lia]. rewrite Hq at 1. f_equal. rewrite (Z_div_mod_eq_full q v) at 1. lia.
  - split; unfold virtual_size; rewrite ?Ev; try done; change (default 1 None) with 1 in *; rewrite ?Z.div_1_r; [|lia]. rewrite Hq at 1. lia.
Qed.

(** The layout of a checked configuration. *)
Lemma post_init_layout raw c l : post_init raw = Ok c -> 0 < sc_pp_size c -> sc_layout c = Some l ->
  (exists input, layout_init input (sc_pp_size c) = Ok l) /\ ly_vp_size l = virtual_size c /\ 1 <= ly_vp_size l /\ count decoder (ly_flatten l) = sc_num_layers c.
Proof.
  intros H Hpp Hl. unfold post_init in H. inv_ok. destruct (sc_layout raw) as [input|]; inv_ok; injection H as <-; cbn in Hl, Hpp |- *; [|done]. injection Hl as ->.
  destruct a3. pose proof (validate_count _ _ _ E3) as Hn. pose proof (layout_init_shaped _ _ _ Hpp E1) as Sh.
  assert (Hv : 1 <= ly_vp_size l).
  { pose proof (sh_vp _ _ Sh). destruct (Z.eq_dec (ly_vp_size l) 0) as [Hz|]; [|lia]. exfalso. unfold validate_layer_layout in E3. rewrite (sh_flatten _ _ Sh), Hz in E3. discriminate E3. }
  split; [by exists input|]. split; [|done]. unfold virtual_size. cbn. destruct (sc_vp_size raw) as [v|]; cbn in E2.
  - destruct (Z.eqb_spec v (ly_vp_size l)); cbn in E2; [|done]. injection E2 as <-. done.
  - injection E2 as <-. destruct (Z.ltb_spec 1 (ly_vp_size l)); cbn; lia.
Qed.

(** The grid of what all ranks build for their virtual stages. *)
Definition all_built {PG} `{!ProcessGroup PG} (env : Z -> dist_env) (ps : Z -> pstate PG) (c : split_config layer_layout) : res (list (list (list Z))) :=
  mapR (fun v => mapR (fun p => built_layers (env p) (ps p) c (stage_arg c v) (Some p)) (zrange 0 (sc_pp_size c))) (zrange 0 (virtual_size c)).

(** The slice of the numbers [0, ..., n - 1] from [a] to [b] *)
Lemma slice_range n a b : 0 <= a -> a <= b -> slice_any (zrange 0 n) a b = zrange (Z.min a n) (Z.min b n).
Proof.
  intros Ha Hab. unfold slice_any, py_slice. rewrite (proj2 (Z.ltb_ge a 0)), (proj2 (Z.ltb_ge b 0)) by lia. destruct (Z.le_gt_cases n a) as [Hn|Hn].
  - rewrite drop_ge by (pose proof (length_zrange 0 n); lia). by rewrite take_nil, zrange_nil by lia.
  - rewrite (Z.min_l a n) by lia. rewrite (zrange_app 0 a n) by lia. rewrite drop_app_length' by (pose proof (length_zrange 0 a); lia). destruct (Z.le_gt_cases n b) as [Hb|Hb].
    + rewrite Z.min_r by lia. apply take_ge. pose proof (length_zrange a n). lia.
    + rewrite Z.min_l by lia. rewrite (zrange_app a b n) by lia. apply take_app_length'. pose proof (length_zrange a b). lia.
Qed.
Lemma slice_within n a k : k = 0 \/ 0 <= a /\ 0 <= k /\ a + k <= n -> slice_any (zrange 0 n) a (a + k) = zrange a (a + k).
Proof.
  intros [->|(Ha & Hk & Hn)].
  - rewrite Z.add_0_r. unfold slice_any, py_slice. cbn zeta. by rewrite Z.sub_diag, (zrange_nil a a) by lia.
  - rewrite slice_range by lia. f_equal; lia.
Qed.
Lemma get_within n a k : 0 <= a -> a + k <= n -> mapR (py_get (zrange 0 n)) (zrange a (a + k)) = Ok (zrange a (a + k)).
Proof.
  intros Ha Hn. rewrite <- (map_id (zrange a (a + k))) at 2. apply mapR_total. intros i Hi%elem_of_zrange.
  rewrite <- (Z2Nat.id i) at 1 by lia. apply py_get_nonneg. rewrite lookup_zrange by lia. f_equal. lia.
Qed.

(** A grid of ranges that make up [0, ..., L - 1] lies in them. *)
Lemma tile_within (n off : Z -> Z -> Z) V P L v p : (forall v p, 0 <= n v p) ->
  concat (map (fun v => concat (map (fun p => zrange (off v p) (off v p + n v p)) (zrange 0 P))) (zrange 0 V)) = zrange 0 L ->
  0 <= v < V -> 0 <= p < P -> n v p = 0 \/ 0 <= off v p /\ 0 <= n v p /\ off v p + n v p <= L.
Proof.
  intros Hn E Hv Hp. specialize (Hn v p). destruct (decide (n v p = 0)) as [|Hne]; [by left|right].
  assert (Hin : forall x, off v p <= x < off v p + n v p -> 0 <= x < L).
  { intros x Hx. apply elem_of_zrange. rewrite <- E. apply list_elem_of_In, in_concat. eexists. split; [apply in_map, list_elem_of_In, elem_of_zrange; exact Hv|].
    apply in_concat. eexists. split; [apply in_map, list_elem_of_In, elem_of_zrange; exact Hp|]. by apply list_elem_of_In, elem_of_zrange. }
  pose proof (Hin (off v p)). pose proof (Hin (off v p + n v p - 1)). lia.
Qed.

Lemma all_built_tile {PG} `{!ProcessGroup PG} env (ps : Z -> pstate PG) c (n off : Z -> Z -> Z) L : (forall v p, 0 <= n v p) ->
  concat (map (fun v => concat (map (fun p => zrange (off v p) (off v p + n v p)) (zrange 0 (sc_pp_size c)))) (zrange 0 (virtual_size c))) = zrange 0 L ->
  (forall v p, 0 <= v < virtual_size c -> 0 <= p < sc_pp_size c -> n v p = 0 \/ 0 <= off v p /\ 0 <= n v p /\ off v p + n v p <= L ->
     built_layers (env p) (ps p) c (stage_arg c v) (Some p) = Ok (zrange (off v p) (off v p + n v p))) ->
  exists ids, all_built env ps c = Ok ids /\ concat (concat ids) = zrange 0 L.
Proof.
  intros Hn E H. exists (map (fun v => map (fun p => zrange (off v p) (off v p + n v p)) (zrange 0 (sc_pp_size c))) (zrange 0 (virtual_size c))). split; [|by rewrite concat_flat].
  apply mapR_total. intros v Hv%elem_of_zrange. apply mapR_total. intros p Hp%elem_of_zrange. apply H; [done|done|]. by apply (tile_within n off (virtual_size c) (sc_pp_size c)).
Qed.

(** A process of pipeline rank [p] whose virtual pipeline size is the configured one. *)
Definition at_rank {PG} `{!ProcessGroup PG} (c : split_config layer_layout) (p : Z) (env : dist_env) (ps : pstate PG) : Prop :=
  get_pipeline_model_parallel_rank env ps = Ok p /\ get_virtual_pipeline_model_parallel_world_size ps = sc_vp_size c.

Lemma stage_of_own {PG} `{!ProcessGroup PG} (c : split_config layer_layout) p env (ps : pstate PG) v : at_rank c p env ps -> 0 <= v < virtual_size c ->
  forall r, r = None \/ r = Some p -> stage_of env ps (stage_arg c v) r = Ok (p, v).
Proof.
  intros [H1 H2] Hv r Hr. unfold stage_of, stage_arg, virtual_size in *. rewrite H2. assert (E1 : match r with Some r => mret r | None => get_pipeline_model_parallel_rank env ps end = Ok p) by (destruct Hr as [-> | ->]; [exact H1|done]).
  rewrite E1. cbn. destruct (sc_vp_size c); cbn in *; [done|]. do 2 f_equal. lia.
Qed.

Lemma layout_built_run {PG} `{!ProcessGroup PG} (c : split_config layer_layout) l p env (ps : pstate PG) v : at_rank c p env ps -> sc_layout c = Some l -> shaped (sc_pp_size c) l -> ly_vp_size l = virtual_size c -> 0 < sc_pp_size c ->
  0 <= v < virtual_size c -> 0 <= p < sc_pp_size c ->
  here l decoder v p = 0 \/ 0 <= before (sc_pp_size c) l decoder v p /\ 0 <= here l decoder v p /\ before (sc_pp_size c) l decoder v p + here l decoder v p <= sc_num_layers c ->
  built_layers env ps c (stage_arg c v) (Some p) = Ok (zrange (before (sc_pp_size c) l decoder v p) (before (sc_pp_size c) l decoder v p + here l decoder v p)).
Proof.
  intros Hr Hl Sh Hvs Hpp Hv Hp Hin. pose proof (stage_of_own c p env ps v Hr Hv) as Hst. unfold built_layers, get_num_layers_to_build. rewrite Hl.
  assert (Hws : get_virtual_pipeline_model_parallel_world_size ps = None -> ly_vp_size l = 1) by (destruct Hr as [_ ->]; rewrite Hvs; unfold virtual_size; by intros ->).
  assert (E1 : layout_num_layers env ps l decoder (stage_arg c v) None = Ok (here l decoder v p)).
  { unfold layout_num_layers. rewrite Hst by auto. cbn [mbind res_bind]. apply (stage_count_run (sc_pp_size c)); [done|done|lia]. }
  rewrite E1. cbn [mbind res_bind].
  assert (E2 : get_layer_id_list env ps l decoder (stage_arg c v) (Some p) = Ok (zrange (before (sc_pp_size c) l decoder v p) (before (sc_pp_size c) l decoder v p + here l decoder v p))).
  { rewrite <- (ids_run env ps (sc_pp_size c) l Sh decoder Hws p v Hp) by lia. unfold get_layer_id_list, get_layer_offset, layout_num_layers. rewrite Hst by auto. by rewrite (stage_of_run env ps l Hws p v) by lia. }
  rewrite E2. cbn [mbind res_bind]. destruct Hin as [-> |(H1 & H2 & H3)]; [|by apply get_within].
  generalize (before (sc_pp_size c) l decoder v p) as x. intros x. by rewrite Z.add_0_r, (zrange_nil x x) by lia.
Qed.

(** (C18) For a configuration that the checks accept, with more than one pipeline stage, virtual sizes of at least one and a number of
    layers that is not negative, and that is [splittable]: it has a custom layout; or an uneven first or last stage and then at least
    one middle stage and no negative number of middle layers; or an even split into equal parts, which may account for the
    embedding and the loss.  Together the ranks build every decoder layer once: in the order of the virtual stages (all ranks of the
    first virtual stage, then of the second one) the layers they build are [0, 1, ..., num_layers - 1].  The checks alone do not
    give this, see the theorems after it. *)
Theorem every_layer_built_once {PG} `{!ProcessGroup PG} raw c env (ps : Z -> pstate PG) : post_init raw = Ok c -> splittable c ->
  (forall p, 0 <= p < sc_pp_size c -> at_rank c p (env p) (ps p)) ->
  exists ids, all_built env ps c = Ok ids /\ concat (concat ids) = zrange 0 (sc_num_layers c).
Proof.
  intros Hi Sp Hr. pose proof (sp_pp c Sp) as Hpp. assert (Hpp0 : 0 < sc_pp_size c) by lia. destruct (sc_layout c) as [l|] eqn:Hl.
  - destruct (post_init_layout raw c l Hi Hpp0 Hl) as ([input Hin] & Hvs & Hv1 & Hn). pose proof (layout_init_shaped _ _ _ Hpp0 Hin) as Sh.
    apply (all_built_tile env ps c (here l decoder) (before (sc_pp_size c) l decoder)).
    + intros v p. unfold here, count. lia.
    + rewrite <- Hn, <- Hvs. apply ids_tile; [lia|done].
    + intros v p Hv Hp Hw. apply layout_built_run; try done; by apply Hr.
  - assert (Hc : uneven c && accounted c = false /\ (uneven c = true -> check_uneven (sc_num_layers c) (sc_pp_size c) (sc_vp_size c) (sc_first c) (sc_last c) = Ok tt)).
    { unfold post_init in Hi. inv_ok. destruct (sc_layout raw); inv_ok; injection Hi as <-; [done|]. destruct a. apply value_error_ok in E. split; [exact E|]. change (uneven (with_layout raw (sc_vp_size raw) (@None layer_layout))) with (uneven raw). intros Hu. rewrite Hu in E0. by destruct a0. }
    destruct Hc as [Hx Hcu]. pose proof (sp_split c Sp) as Hs. rewrite Hl in Hs. destruct (uneven c) eqn:Hu.
    + destruct Hs as [Hs Hm]. destruct (check_uneven_parts c Sp Hl Hu (Hcu eq_refl)) as (f & g & m & Pt).
      apply (all_built_tile env ps c (fun _ => uneven_here c f g m) (uneven_before c f g m)); [|by apply uneven_tile|].
      * intros _ p. pose proof (pt_nonneg _ _ _ _ Pt). unfold uneven_here. repeat case_match; lia.
      * intros v p Hv Hp Hw. unfold built_layers. rewrite (uneven_build_run (env p) (ps p) c f g m v p), Hl, (uneven_offset_run (env p) (ps p) c f g m v p) by done.
        cbn [mbind res_bind]. by rewrite slice_within.
    + destruct Hs as [k Hk]. apply (all_built_tile env ps c (even_here c k) (even_before c k)); [|by apply even_tile|].
      * intros v p. by apply even_nonneg.
      * intros v p Hv Hp Hw. unfold built_layers. rewrite (even_build_run (env p) (ps p) c k v p), Hl, (even_offset_run (env p) (ps p) c k v p) by done.
        cbn [mbind res_bind]. by rewrite slice_within.
Qed.

(* ================================================================== *)
(** ** Splits that the checks let through                              *)
(* ================================================================== *)

(** With two pipeline stages and both of them given, nothing checks that they add up: of the [num_layers] layers only the first
    [first + last] ones are built. *)
Theorem two_uneven_stages_ignore_num_layers {PG} `{!ProcessGroup PG} n first last env (ps : Z -> pstate PG) : 0 <= n -> 0 < first -> 0 < last ->
  exists c, post_init (mkSplit n None 2 None (Some first) (Some last) false false None) = Ok c /\
    exists ids, all_built env ps c = Ok ids /\ concat (concat ids) = zrange 0 (Z.min (first + last) n).
Proof.
  intros Hn Hf Hl. eexists. split.
  - unfold post_init, check_uneven, take_stage. cbn [uneven accounted is_some is_none sc_first sc_last sc_layout sc_embedding sc_loss negb orb andb value_error_if mbind res_bind sc_num_layers sc_pp_size sc_vp_size].
    rewrite (proj2 (Z.leb_gt first 0)), (proj2 (Z.leb_gt last 0)) by done. cbn. reflexivity.
  - exists [[slice_any (zrange 0 n) 0 first; slice_any (zrange 0 n) first (first + last)]]. split; [reflexivity|].
    cbn [concat app]. rewrite !app_nil_r, !slice_range by lia. rewrite (Z.min_l 0 n) by lia. symmetry. apply zrange_app; lia.
Qed.

Definition ex_state (rank : Z) (vp : option Z) : pstate (nat * new_group_kwargs) :=
  on_ints (fun d => assign "_VIRTUAL_PIPELINE_MODEL_PARALLEL_WORLD_SIZE" vp (assign "_MPU_PIPELINE_MODEL_PARALLEL_RANK" (Some rank) d)) (fresh_state ∅).

(** With two stages, both given, and virtual stages, the second rank divides by the number of middle stages: [ZeroDivisionError], although the
    configuration is accepted and adds up. *)
Theorem two_uneven_virtual_stages_raise {PG} `{!ProcessGroup PG} vp f g v env (ps : pstate PG) : 0 < vp -> 0 < f -> 0 < g ->
  exists c, post_init (mkSplit (vp * f + vp * g) None 2 (Some vp) (Some (vp * f)) (Some (vp * g)) false false None) = Ok c /\
    get_transformer_layer_offset env ps c (Some v) (Some 1) = raise_ ZeroDivisionError "integer division or modulo by zero".
Proof.
  intros Hvp Hf Hg. eexists. split.
  - unfold post_init, check_uneven, take_stage. cbn [uneven accounted is_some is_none sc_first sc_last sc_layout sc_embedding sc_loss negb orb andb value_error_if mbind res_bind sc_num_layers sc_pp_size sc_vp_size].
    rewrite (proj2 (Z.leb_gt (vp * f) 0)), (proj2 (Z.leb_gt (vp * g) 0)), !pymod_ok by nia. cbn [mbind res_bind]. rewrite !(Z.mul_comm vp), !Z.mod_mul by lia. cbn. reflexivity.
  - unfold get_transformer_layer_offset, uneven_offset, given, rank_or_own. cbn [with_layout mbind res_bind mret res_ret sc_pp_size sc_layout sc_first sc_last sc_vp_size sc_num_layers uneven is_some is_none negb orb default from_option id].
    rewrite !floordiv_ok by lia. change (1 <? 2) with true. cbn [mbind res_bind]. change (1 =? 0) with false. cbn. reflexivity.
Qed.

(** The middle stages can get a negative number of layers: with four layers on four stages and four layers each on the first and the last one
    every check passes, and the first and the last rank both build all four layers. *)
Theorem negative_middle_stages :
  match post_init (mkSplit 4 None 4 None (Some 4) (Some 4) false false None) with
  | Ok c => all_built (fun _ => env8 0) (fun p => ex_state p None) c = Ok [[[0; 1; 2; 3]; []; []; [0; 1; 2; 3]]]
  | Err _ => False
  end.
Proof. vm_compute. reflexivity. Qed.

Lemma every_layer_built_once_witness : let raw := mkSplit 12 None 4 (Some 2) (Some 2) (Some 2) false false None in
  exists c ids, post_init raw = Ok c /\ splittable c /\ all_built (fun _ => env8 0) (fun p => ex_state p (Some 2)) c = Ok ids /\ concat (concat ids) = zrange 0 12.
Proof.
  intros raw. destruct (post_init raw) as [c|] eqn:E; [|discriminate E]. exists c. vm_compute in E. injection E as <-.
  assert (Sp : splittable (mkSplit 12 None 4 (Some 2) (Some 2) (Some 2) false false (@None layer_layout))).
  { split; cbn; [lia|by intros v [= <-]|lia|]. split; vm_compute; [reflexivity|discriminate]. }
  destruct (every_layer_built_once raw _ (fun _ => env8 0) (fun p => ex_state p (Some 2)) eq_refl Sp) as (ids & H1 & H2).
  - intros p Hp. split; vm_compute; reflexivity.
  - exists ids. split; [reflexivity|]. split; [exact Sp|]. split; [exact H1|exact H2].
Defined.

Lemma two_uneven_stages_ignore_num_layers_witness : exists c, post_init (mkSplit 10 None 2 None (Some 2) (Some 3) false false None) = Ok c /\
  exists ids, all_built (fun _ => env8 0) (fun p => ex_state p None) c = Ok ids /\ concat (concat ids) = [0; 1; 2; 3; 4].
Proof. apply (two_uneven_stages_ignore_num_layers 10 2 3 (fun _ => env8 0) (fun p => ex_state p None)); lia. Defined.

Lemma two_uneven_virtual_stages_raise_witness : exists c, post_init (mkSplit 8 None 2 (Some 2) (Some 4) (Some 4) false false None) = Ok c /\
  get_transformer_layer_offset (env8 0) (ex_state 1 (Some 2)) c (Some 0) (Some 1) = raise_ ZeroDivisionError "integer division or modulo by zero".
Proof. apply (two_uneven_virtual_stages_raise 2 2 2 0 (env8 0) (ex_state 1 (Some 2))); lia. Defined.
