(* ===== verification/Sha1.v ===== *)
(** * SHA-1

    [hashlib.sha1(text).hexdigest()] of the Python standard library, on ASCII
    text: 32-bit words are integers in [0, 2^32). *)

From S2P Require Import Prelude.

Definition w32 (x : Z) : Z := x mod 2 ^ 32.
Definition rotl (k x : Z) : Z := Z.lor (w32 (Z.shiftl x k)) (Z.shiftr x (32 - k)).

(** The message with its padding: a one bit, zeros, and the length in 64 bits. *)
Definition byte_of_char (c : Ascii.ascii) : Z := Z.of_N (Ascii.N_of_ascii c).
Definition big_endian (n : nat) (x : Z) : list Z :=
  map (fun i => Z.land (Z.shiftr x (8 * Z.of_nat i)) 255) (reverse (seq 0 n)).
Definition padded (msg : list Z) : list Z :=
  let zeros := Z.to_nat ((55 - Z.of_nat (length msg)) mod 64) in
  msg ++ 128 :: replicate zeros 0 ++ big_endian 8 (8 * Z.of_nat (length msg)).

(** The words of a block, and their extension to the 80 words of the rounds. *)
Fixpoint words (bytes : list Z) : list Z :=
  match bytes with
  | a :: b :: c :: d :: rest => ((a * 256 + b) * 256 + c) * 256 + d :: words rest
  | _ => []
  end.
(** [ws] is reversed: its first element is the last word so far. *)
Fixpoint extend (n : nat) (ws : list Z) : list Z :=
  match n with
  | O => reverse ws
  | S n' =>
      let w i := default 0 (ws !! (i - 1)%nat) in
      extend n' (rotl 1 (Z.lxor (Z.lxor (w 3%nat) (w 8%nat)) (Z.lxor (w 14%nat) (w 16%nat))) :: ws)
  end.
Definition schedule_words (block : list Z) : list Z := extend 64 (reverse (words block)).

Record digest := mkDigest { h0 : Z; h1 : Z; h2 : Z; h3 : Z; h4 : Z }.
Definition initial : digest := mkDigest 0x67452301 0xEFCDAB89 0x98BADCFE 0x10325476 0xC3D2E1F0.

(** The function and the constant of round [t]. *)
Definition round_function (t : nat) (b c d : Z) : Z * Z :=
  if (t <? 20)%nat then (Z.lxor d (Z.land b (Z.lxor c d)), 0x5A827999)
  else if (t <? 40)%nat then (Z.lxor b (Z.lxor c d), 0x6ED9EBA1)
  else if (t <? 60)%nat then (Z.lor (Z.land b c) (Z.land d (Z.lor b c)), 0x8F1BBCDC)
  else (Z.lxor b (Z.lxor c d), 0xCA62C1D6).
Definition sha_round (s : digest) (tw : nat * Z) : digest :=
  let '(t, w) := tw in
  let '(f, k) := round_function t (h1 s) (h2 s) (h3 s) in
  mkDigest (w32 (rotl 5 (h0 s) + f + h4 s + k + w)) (h0 s) (rotl 30 (h1 s)) (h2 s) (h3 s).
Definition compress (s : digest) (block : list Z) : digest :=
  let r := fold_left sha_round (imap pair (schedule_words block)) s in
  mkDigest (w32 (h0 s + h0 r)) (w32 (h1 s + h1 r)) (w32 (h2 s + h2 r)) (w32 (h3 s + h3 r)) (w32 (h4 s + h4 r)).

(** The blocks of 64 bytes; [n] of them. *)
Fixpoint blocks (n : nat) (bytes : list Z) : list (list Z) :=
  match n with O => [] | S n' => take 64 bytes :: blocks n' (drop 64 bytes) end.
Definition sha1 (msg : list Z) : digest :=
  let p := padded msg in fold_left compress (blocks (length p / 64) p) initial.

Definition hex_digit (x : Z) : Ascii.ascii :=
  Ascii.ascii_of_nat (Z.to_nat (if x <? 10 then 48 + x else 87 + x)).
Definition hex_word (x : Z) : list Ascii.ascii :=
  map (fun i => hex_digit (Z.land (Z.shiftr x (4 * Z.of_nat i)) 15)) [7; 6; 5; 4; 3; 2; 1; 0]%nat.
Definition hexdigest (text : string) : string :=
  let d := sha1 (map byte_of_char (chars text)) in
  of_chars (hex_word (h0 d) ++ hex_word (h1 d) ++ hex_word (h2 d) ++ hex_word (h3 d) ++ hex_word (h4 d)).

(** The examples of the standard. *)
Example sha1_abc : hexdigest "abc" = "a9993e364706816aba3e25717850c26c9cd0d89d".
Proof. vm_compute. reflexivity. Qed.
Example sha1_empty : hexdigest "" = "da39a3ee5e6b4b0d3255bfef95601890afd80709".
Proof. vm_compute. reflexivity. Qed.
Example sha1_two_blocks : hexdigest "abcdbcdecdefdefgefghfghighijhijkijkljklmklmnlmnomnopnopq" = "84983e441c3bd26ebaae4aa1f95129e5e54670f1".
Proof. vm_compute. reflexivity. Qed.

(** The padded message consists of whole blocks. *)
Lemma padded_blocks msg : (64 | Z.of_nat (length (padded msg))).
Proof.
  unfold padded, big_endian. rewrite length_app. cbn [length]. rewrite length_app, length_replicate, length_map, length_reverse, length_seq.
  set (n := Z.of_nat (length msg)). pose proof (Z.mod_pos_bound (55 - n) 64 ltac:(lia)) as Hb. pose proof (Z.div_mod (55 - n) 64 ltac:(lia)) as Hd.
  exists (1 - (55 - n) / 64). lia.
Qed.
Lemma hexdigest_length text : length (chars (hexdigest text)) = 40%nat.
Proof. unfold hexdigest. rewrite chars_of_chars, !length_app. reflexivity. Qed.
