(* ===== verification/SglangByteps.v ===== *)
(** * BytePS all-reduce in SGLang

    [sglang/srt/distributed/byteps_collectives.py], the routing of
    [GroupCoordinator.all_reduce] in [sglang/srt/distributed/parallel_state.py],
    the names of the layers that reduce ([layers/linear.py],
    [layers/vocab_parallel_embedding.py]), and what the BytePS library reads from
    the environment when it is initialized ([byteps/common/communicator.cc]).

    The other communicators of SGLang are only told apart: a call of one of them
    is logged.  Logging of messages is not modelled. *)

From S2P Require Import Prelude.
From S2P Require Import Sha1.
From S2P Require Import BytepsOps.
From S2P Require Import BytepsCollectives.

(** The ids of the process in the library. *)
Record bps_ids := mkIds { id_rank : Z; id_size : Z; id_local_rank : Z; id_local_size : Z }.

(** What an [all_reduce] may call instead of BytePS. *)
Inductive collective_call :=
  | ShmAllReduce (t : tensor)
  | TorchAllReduce (group : string) (t : tensor)
  | DeviceAllReduce (device : string) (t : tensor)
  | PyncclSymmetric (t : tensor)
  | OutPlace (method : string) (t : tensor)
  | PyncclInPlace (t : tensor)
  | SymmInPlace (t : tensor)
  | FusedRmsNorm (t : tensor)
  | GraphCapture
  | Barrier.

(** A tensor as [all_reduce] looks at it. *)
Record input := mkInput { in_tensor : tensor; in_cpu : bool; in_cuda : bool; in_dtype : string }.

(** A communicator with its [disabled] flag; some decide per tensor. *)
Record chooser := mkChooser { ch_disabled : bool; ch_should : input -> bool }.

(** [GroupCoordinator], as far as its all-reduces read it. *)
Record coordinator := mkCoordinator {
  gc_unique_name : string;
  gc_ranks : list Z;
  gc_world_size : Z;
  gc_local_size : Z;
  gc_hpu : option bool;
  gc_xpu : option bool;
  gc_npu : option bool;
  gc_pynccl : option bool;
  gc_ca : option chooser;
  gc_qr : option chooser;
  gc_pymscclpp : option chooser;
  gc_symm : option chooser;
  gc_symmetric_memory : bool
}.

(** The state of the process: the globals of the two modules, [os.environ], the
    library and the calls of other communicators. *)
Record sg_state := mkSg {
  sg_initialized : bool;
  sg_debug : bool;
  sg_nnodes : Z;
  sg_declared : gmap string Z;
  sg_enabled : bool;
  sg_environ : gmap string string;
  sg_ids : bps_ids;
  sg_bps : bps_state;
  sg_groups : gmap string (option coordinator);
  sg_names : gmap string Z;
  sg_log : list collective_call
}.

#[local] Notation S_ := (M sg_state).

Definition set_globals (initialized debug : bool) (nnodes : Z) : S_ unit :=
  modM (fun s => mkSg initialized debug nnodes (sg_declared s) (sg_enabled s) (sg_environ s) (sg_ids s) (sg_bps s) (sg_groups s) (sg_names s) (sg_log s)).
Definition set_environ (e : gmap string string) : S_ unit :=
  modM (fun s => mkSg (sg_initialized s) (sg_debug s) (sg_nnodes s) (sg_declared s) (sg_enabled s) e (sg_ids s) (sg_bps s) (sg_groups s) (sg_names s) (sg_log s)).
Definition set_library (ids : bps_ids) (b : bps_state) : S_ unit :=
  modM (fun s => mkSg (sg_initialized s) (sg_debug s) (sg_nnodes s) (sg_declared s) (sg_enabled s) (sg_environ s) ids b (sg_groups s) (sg_names s) (sg_log s)).
Definition call (c : collective_call) : S_ unit :=
  modM (fun s => mkSg (sg_initialized s) (sg_debug s) (sg_nnodes s) (sg_declared s) (sg_enabled s) (sg_environ s) (sg_ids s) (sg_bps s) (sg_groups s) (sg_names s)
    (sg_log s ++ [c])).

(** The caches of [declare] are those of the Megatron module. *)
Definition as_bc (s : sg_state) : bc_state := mkBc (sg_bps s) (sg_declared s) 0 0.
Definition from_bc (s : sg_state) (c : bc_state) : sg_state :=
  mkSg (sg_initialized s) (sg_debug s) (sg_nnodes s) (bc_declared c) (sg_enabled s) (sg_environ s) (sg_ids s) (bc_bps c) (sg_groups s) (sg_names s) (sg_log s).
Definition library {A} (m : M bps_state A) : S_ A := fun s =>
  let '(r, b) := m (sg_bps s) in
  (r, mkSg (sg_initialized s) (sg_debug s) (sg_nnodes s) (sg_declared s) (sg_enabled s) (sg_environ s) (sg_ids s) b (sg_groups s) (sg_names s) (sg_log s)).

(** ** Initialization *)

(** [os.environ.setdefault] *)
Definition setdefault (k v : string) : S_ unit :=
  s ← getM; set_environ (match sg_environ s !! k with Some _ => sg_environ s | None => <[k := v]> (sg_environ s) end).

(** [atoi]: blanks, a sign, digits. *)
Definition digit_of (c : Ascii.ascii) : option Z :=
  let n := Z.of_N (Ascii.N_of_ascii c) - 48 in if (0 <=? n) && (n <? 10) then Some n else None.
Fixpoint digits_value (acc : Z) (l : list Ascii.ascii) : Z :=
  match l with
  | c :: l' => match digit_of c with Some d => digits_value (acc * 10 + d) l' | None => acc end
  | [] => acc
  end.
Fixpoint skip_blanks (l : list Ascii.ascii) : list Ascii.ascii :=
  match l with
  | c :: l' => if bool_decide (c = " "%char) then skip_blanks l' else l
  | [] => []
  end.
Definition atoi (s : string) : Z :=
  match skip_blanks (chars s) with
  | c :: l => if bool_decide (c = "-"%char) then - digits_value 0 l else if bool_decide (c = "+"%char) then digits_value 0 l else digits_value 0 (c :: l)
  | [] => 0
  end.

(** [BytePSCommSocket::init]; a missing variable fails a check. *)
Definition getenv_ (k : string) : S_ string :=
  s ← getM; match sg_environ s !! k with Some v => mret v | None => raiseM RuntimeError "error: env not set" end.
Definition read_ids : S_ bps_ids :=
  a ← getenv_ "BYTEPS_LOCAL_RANK";
  b ← getenv_ "BYTEPS_LOCAL_SIZE";
  c ← getenv_ "DMLC_WORKER_ID";
  d ← getenv_ "DMLC_NUM_WORKER";
  s ← getM;
  let rank := atoi a + atoi c * atoi b in
  mret (mkIds (match sg_environ s !! "BYTEPS_GLOBAL_RANK" with Some r => atoi r | None => rank end) (atoi d * atoi b) (atoi a) (atoi b)).
(** [bps.init()]: only the first call does something. *)
Definition bps_init : S_ unit :=
  s ← getM;
  if bs_initialized (sg_bps s) then mret tt
  else
    ids ← read_ids;
    let b := sg_bps s in
    set_library ids (mkBps true (bs_last_handle b) (bs_results b) (bs_contexts b) (bs_handle_map b) (bs_next_tensor b) (bs_log b)).

(** [bps.size()] and the like: [-1] means not initialized. *)
Definition basics (f : bps_ids -> Z) : S_ Z :=
  s ← getM; if f (sg_ids s) =? -1 then raiseM ValueError "BytePS has not been initialized; use bps.init()." else mret (f (sg_ids s)).

Definition initialize_byteps_for_sglang (local_rank local_size nnodes node_rank : Z) (debug : bool) : S_ unit :=
  s ← getM;
  set_globals (sg_initialized s) debug nnodes ;;
  setdefault "BYTEPS_LOCAL_RANK" (str_of_Z local_rank) ;;
  setdefault "BYTEPS_LOCAL_SIZE" (str_of_Z local_size) ;;
  setdefault "DMLC_ROLE" "worker" ;;
  setdefault "DMLC_NUM_WORKER" (str_of_Z nnodes) ;;
  setdefault "DMLC_WORKER_ID" (str_of_Z node_rank) ;;
  whenM (negb (sg_initialized s))
    (whenM (1 <? local_size) (call Barrier) ;;
     bps_init ;;
     set_globals true debug nnodes) ;;
  lr ← basics id_local_rank;
  (if lr =? local_rank then mret tt else raiseM RuntimeError "BytePS local rank mismatch for --use-byteps-all-reduce: ") ;;
  ls ← basics id_local_size;
  (if ls =? local_size then mret tt else raiseM RuntimeError "BytePS local size mismatch for --use-byteps-all-reduce: ").

Definition set_byteps_all_reduce (enable : bool) : S_ unit :=
  modM (fun s => mkSg (sg_initialized s) (sg_debug s) (sg_nnodes s) (sg_declared s) enable (sg_environ s) (sg_ids s) (sg_bps s) (sg_groups s) (sg_names s) (sg_log s)).

(** [ModelRunner.init_torch_distributed], as far as it sets up BytePS: before
    torch.distributed is initialized, and after it. *)
Definition byteps_environment (fusion : bool) (gpu_id tp_size pp_size nnodes : Z) : S_ unit :=
  (if fusion then raiseM RuntimeError "--use-byteps-all-reduce does not support all-reduce fusion paths in phase 1." else mret tt) ;;
  q ← liftM (floordiv tp_size nnodes);
  setdefault "BYTEPS_LOCAL_RANK" (str_of_Z gpu_id) ;;
  setdefault "BYTEPS_LOCAL_SIZE" (str_of_Z (Z.max 1 q * pp_size)).
Definition start_byteps (gpu_id tp_size pp_size nnodes node_rank : Z) (debug : bool) : S_ unit :=
  q ← liftM (floordiv tp_size nnodes);
  initialize_byteps_for_sglang gpu_id (Z.max 1 q * pp_size) nnodes node_rank debug ;;
  set_byteps_all_reduce true.
Definition init_byteps (use_byteps fusion : bool) (gpu_id tp_size pp_size nnodes node_rank : Z) (debug : bool) : S_ unit :=
  set_byteps_all_reduce false ;;
  whenM use_byteps (byteps_environment fusion gpu_id tp_size pp_size nnodes) ;;
  whenM use_byteps (start_byteps gpu_id tp_size pp_size nnodes node_rank debug).

(** ** Names *)

(** [sep.join(...)] *)
Fixpoint py_join (sep : string) (l : list string) : string :=
  match l with
  | [] => ""
  | [s] => s
  | s :: l' => s +:+ sep +:+ py_join sep l'
  end.

(** [_group_fingerprint] *)
Definition group_fingerprint (ranks : list Z) : string :=
  of_chars (take 12 (chars (hexdigest (py_join "," (map str_of_Z ranks))))).

Definition build_byteps_group_name (group : coordinator) (logical_name : string) : res string :=
  if bool_decide (logical_name = "") then raise_ ValueError "logical_name must be a stable non-empty string"
  else mret ("sglang." +:+ gc_unique_name group +:+ ".r" +:+ group_fingerprint (gc_ranks group) +:+ "." +:+ logical_name).

(** [_get_unique_name] *)
Definition get_unique_name (name : string) : S_ string :=
  s ← getM;
  let n := default 0 (sg_names s !! name) in
  modM (fun s => mkSg (sg_initialized s) (sg_debug s) (sg_nnodes s) (sg_declared s) (sg_enabled s) (sg_environ s) (sg_ids s) (sg_bps s) (sg_groups s)
    (<[name := n + 1]> (sg_names s)) (sg_log s)) ;;
  mret (name +:+ ":" +:+ str_of_Z n).

(** [byteps_all_reduce_name] of a layer: [kind] is [row_parallel_linear] or
    [vocab_parallel_embedding], each with a counter of its own. *)
Definition byteps_layer_name (kind prefix : string) (counter : Z) : string * Z :=
  if bool_decide (prefix = "") then (kind +:+ ".unnamed_" +:+ str_of_Z counter, counter + 1) else (kind +:+ "." +:+ prefix, counter).

Definition byteps_logical_name (i : input) (logical_name : option string) : string :=
  let generic := "generic." +:+ in_dtype i +:+ "." +:+ py_join "x" (map str_of_Z (t_shape (in_tensor i))) in
  match logical_name with
  | Some n => if bool_decide (n = "") then generic else n
  | None => generic
  end.

(** ** Reductions *)

Definition cache_name (name : string) (n : Z) : S_ unit :=
  modM (fun s => mkSg (sg_initialized s) (sg_debug s) (sg_nnodes s) (<[name := n]> (sg_declared s)) (sg_enabled s) (sg_environ s) (sg_ids s) (sg_bps s)
    (sg_groups s) (sg_names s) (sg_log s)).

Definition declare_and_cache_byteps_group (name : string) (expected_workers : Z) : S_ unit :=
  s ← getM;
  match sg_declared s !! name with
  | None => library (declare name (Some expected_workers)) ;; cache_name name expected_workers
  | Some cached => if cached =? expected_workers then mret tt
                   else raiseM RuntimeError "was declared with inconsistent group size"
  end.

(** [_byteps_expected_workers] *)
Definition byteps_expected_workers : S_ Z :=
  s ← getM;
  if 1 <? sg_nnodes s then mret (sg_nnodes s)
  else
    ls ← basics id_local_size;
    sz ← basics id_size;
    q ← liftM (floordiv sz (Z.max 1 ls));
    mret (Z.max 1 q).

Definition byteps_allreduce_inplace (t : tensor) (group : coordinator) (logical_name : string) : S_ tensor :=
  s ← getM;
  (if sg_initialized s then mret tt else raiseM RuntimeError "BytePS All-Reduce was requested before BytePS was initialized. ") ;;
  let shape_suffix := py_join "x" (map str_of_Z (t_shape t)) in
  name ← liftM (build_byteps_group_name group (logical_name +:+ "." +:+ shape_suffix));
  expected_workers ← byteps_expected_workers;
  declare_and_cache_byteps_group name expected_workers ;;
  handle ← library (push_pull_async_inplace t false (Some name) 0 0);
  library (synchronize handle) ;;
  mret t.

(** ** Routing *)

(** What the devices and the other communicators do: whether the shared-memory
    all-reduce is there, whether a CUDA graph is captured, and the results of the
    other communicators. *)
Class Devices := {
  is_shm_available : string -> Z -> Z -> bool;
  is_in_piecewise_cuda_graph : bool;
  is_current_stream_capturing : bool;
  device_result : string -> tensor -> tensor;
  outplace_result : string -> tensor -> option tensor;
  fused_result : coordinator -> tensor -> option (tensor * tensor)
}.

Section Routing.
Context `{!Devices}.

(** [_byteps_all_reduce_error(reason)] *)
Definition byteps_all_reduce_error {A} (reason : string) : S_ A :=
  raiseM RuntimeError ("--use-byteps-all-reduce is enabled, so model-path All-Reduce must use BytePS and cannot fallback to SGLang/NCCL/custom All-Reduce. "
    +:+ reason).
(** [comm is not None and not comm.disabled] *)
Definition active (c : option bool) : bool := match c with Some disabled => negb disabled | None => false end.
Definition chooses (c : option chooser) (i : input) : bool :=
  match c with Some c => negb (ch_disabled c) && ch_should c i | None => false end.
Definition usable (c : option chooser) : bool := match c with Some c => negb (ch_disabled c) | None => false end.
(** [assert not comm.disabled] *)
Definition assert_usable (c : option chooser) (msg : string) : S_ unit :=
  match c with Some c => assertM (negb (ch_disabled c)) msg | None => raiseM AttributeError "'NoneType' object has no attribute 'disabled'" end.
Definition is_current_cuda_graph_capture (i : input) : bool := in_cuda i && is_current_stream_capturing.

(** The checks of [all_reduce] before a BytePS reduction, in their order. *)
Definition byteps_refusal (g : coordinator) (i : input) : option string :=
  if in_cpu i then Some "Received a CPU tensor; CPU/shared-memory all-reduce is outside the BytePS phase-1 scope."
  else if active (gc_hpu g) then Some "The HPU communicator path is active; BytePS phase 1 only supports CUDA tensors."
  else if active (gc_xpu g) then Some "The XPU communicator path is active; BytePS phase 1 only supports CUDA tensors."
  else if active (gc_npu g) then Some "The NPU communicator path is active; BytePS phase 1 only supports CUDA tensors."
  else if gc_symmetric_memory g then Some "Symmetric-memory all-reduce is active."
  else if is_in_piecewise_cuda_graph then Some "Piecewise CUDA graph capture is active."
  else if is_current_cuda_graph_capture i then Some "CUDA graph capture is active."
  else if negb (in_cuda i) then Some "Received a non-CUDA tensor on device "
  else if negb (t_contiguous (in_tensor i)) then Some "Received a non-contiguous tensor; make the tensor contiguous before entering the BytePS All-Reduce path."
  else None.

Definition all_reduce_out_place (g : coordinator) (t : tensor) (method : string) : S_ tensor :=
  s ← getM;
  if sg_enabled s then byteps_all_reduce_error ("Attempted the " +:+ method +:+ " out-of-place All-Reduce path instead of BytePS.")
  else
    assertM (negb (is_none (gc_qr g)) || negb (is_none (gc_ca g)) || negb (is_none (gc_pymscclpp g)) || negb (is_none (gc_symm g)) || negb (is_none (gc_pynccl g)))
      "any([qr_comm, ca_comm, pymscclpp_comm, torch_symm_mem_comm, pynccl_comm])" ;;
    (if bool_decide (method = "ca") then assert_usable (gc_ca g) "not ca_comm.disabled"
     else if bool_decide (method = "qr") then assert_usable (gc_qr g) "not qr_comm.disabled"
     else if bool_decide (method = "torch_symm_mem") then assert_usable (gc_symm g) "not torch_symm_mem_comm.disabled"
     else if bool_decide (method = "pymscclpp") then assert_usable (gc_pymscclpp g) "not pymscclpp_comm.disabled"
     else if bool_decide (method = "pynccl") then (if is_none (gc_pynccl g) then raiseM AttributeError "'NoneType' object has no attribute 'change_state'" else mret tt)
     else raiseM NameError "local variable 'out' referenced before assignment") ;;
    call (OutPlace method t) ;;
    match outplace_result method t with
    | Some out => mret out
    | None => raiseM AssertionError "out is not None"
    end.

Definition all_reduce_in_place (g : coordinator) (t : tensor) : S_ unit :=
  s ← getM;
  if sg_enabled s then byteps_all_reduce_error "Attempted the in-place PyNccl/TorchSymmMem/torch.distributed All-Reduce path instead of BytePS."
  else if active (gc_pynccl g) then call (PyncclInPlace t)
  else if usable (gc_symm g) then call (SymmInPlace t)
  else call (TorchAllReduce (gc_unique_name g) t).

(** The custom ops look the group up by its name. *)
Definition find_group (group_name : string) : S_ coordinator :=
  s ← getM;
  match sg_groups s !! group_name with
  | None => raiseM AssertionError "Group is not found."
  | Some None => raiseM ValueError "Group is destroyed."
  | Some (Some g) => mret g
  end.
Definition inplace_all_reduce (t : tensor) (group_name : string) : S_ unit := g ← find_group group_name; all_reduce_in_place g t.
Definition outplace_all_reduce (t : tensor) (group_name method : string) : S_ tensor := g ← find_group group_name; all_reduce_out_place g t method.

(** [outplace_all_reduce_method] *)
Definition outplace_method (g : coordinator) (i : input) : option string :=
  if chooses (gc_ca g) i then Some "ca"
  else if chooses (gc_qr g) i then Some "qr"
  else if chooses (gc_pymscclpp g) i then Some "pymscclpp"
  else if chooses (gc_symm g) i then Some "torch_symm_mem"
  else if is_in_piecewise_cuda_graph then Some "pynccl"
  else None.

Definition all_reduce (g : coordinator) (i : input) (logical_name : option string) : S_ tensor :=
  let t := in_tensor i in
  if gc_world_size g =? 1 then mret t
  else
    s ← getM;
    if sg_enabled s then
      match byteps_refusal g i with
      | Some reason => byteps_all_reduce_error reason
      | None => byteps_allreduce_inplace t g (byteps_logical_name i logical_name)
      end
    else if in_cpu i then
      (if is_shm_available (in_dtype i) (gc_world_size g) (gc_local_size g) then call (ShmAllReduce t) else call (TorchAllReduce (gc_unique_name g) t)) ;; mret t
    else if active (gc_hpu g) then call (DeviceAllReduce "hpu" t) ;; mret (device_result "hpu" t)
    else if active (gc_xpu g) then call (DeviceAllReduce "xpu" t) ;; mret (device_result "xpu" t)
    else if active (gc_npu g) then call (DeviceAllReduce "npu" t) ;; mret (device_result "npu" t)
    else if negb (is_none (gc_pynccl g)) && gc_symmetric_memory g then call (PyncclSymmetric t) ;; mret t
    else
      match outplace_method g i with
      | Some method => outplace_all_reduce t (gc_unique_name g) method
      | None => inplace_all_reduce t (gc_unique_name g) ;; mret t
      end.

(** [fused_allreduce_rmsnorm] and [graph_capture] up to what they call. *)
Definition fused_allreduce_rmsnorm (g : coordinator) (t : tensor) : S_ (option (tensor * tensor)) :=
  s ← getM;
  if sg_enabled s then byteps_all_reduce_error "Fused All-Reduce + RMSNorm is not supported by the BytePS phase-1 path."
  else if usable (gc_ca g) then call (FusedRmsNorm t) ;; mret (fused_result g t)
  else mret None.
Definition graph_capture : S_ unit :=
  s ← getM;
  if sg_enabled s then byteps_all_reduce_error "CUDA graph capture was requested."
  else call GraphCapture.
End Routing.
