(* ===== verification/SglangProofs.v ===== *)
(** * Properties of SGLang's BytePS path

    What the library's ids are after initialization, when two reductions have the
    same name, that an all-reduce is done by BytePS or not at all, and what a
    reduction leaves behind. *)

From S2P Require Import Prelude.
From S2P Require Import Sha1.
From S2P Require Import BytepsOps.
From S2P Require Import BytepsCollectives.
From S2P Require Import SglangByteps.

(** ** Numbers in the environment *)

Lemma digit_of_pretty x : (x < 10)%N -> digit_of (pretty_N_char x) = Some (Z.of_N x).
Proof.
  intros Hx. assert (x = 0 \/ x = 1 \/ x = 2 \/ x = 3 \/ x = 4 \/ x = 5 \/ x = 6 \/ x = 7 \/ x = 8 \/ x = 9)%N as H by lia.
  by repeat destruct H as [->|H]; [..|subst x].
Qed.

Lemma digits_pretty_go x s : digits_value 0 (chars (pretty_N_go x s)) = digits_value (Z.of_N x) (chars s).
Proof.
  revert s. induction (N.lt_wf_0 x) as [x _ IH]; intros s. destruct (decide (x = 0)%N) as [->|Hx]; [by rewrite pretty_N_go_0|].
  rewrite pretty_N_go_step by lia. rewrite IH by (apply N.div_lt; lia). cbn [chars digits_value].
  rewrite digit_of_pretty by (apply N.mod_lt; lia). f_equal. pose proof (N.div_mod x 10 ltac:(lia)) as Hd. rewrite N2Z.inj_div, N2Z.inj_mod.
  pose proof (Z.div_mod (Z.of_N x) 10 ltac:(lia)). change (Z.of_N 10) with 10. lia.
Qed.

(** Every character of a numeral is a digit. *)
Lemma digits_go x s : Forall (fun c => is_Some (digit_of c)) (chars s) -> Forall (fun c => is_Some (digit_of c)) (chars (pretty_N_go x s)).
Proof.
  revert s. induction (N.lt_wf_0 x) as [x _ IH]; intros s Hs. destruct (decide (x = 0)%N) as [->|Hx]; [by rewrite pretty_N_go_0|].
  rewrite pretty_N_go_step by lia. apply IH; [apply N.div_lt; lia|]. cbn. constructor; [|done].
  rewrite digit_of_pretty by (apply N.mod_lt; lia). eauto.
Qed.

Lemma atoi_digits s : Forall (fun c => is_Some (digit_of c)) (chars s) -> atoi s = digits_value 0 (chars s).
Proof.
  intros Hs. unfold atoi. destruct (chars s) as [|c l]; [done|]. inversion Hs as [|? ? Hc _]; subst. cbn [skip_blanks].
  rewrite bool_decide_false; [|intros ->; by destruct Hc]. rewrite bool_decide_false; [|intros ->; by destruct Hc].
  rewrite bool_decide_false; [done|intros ->; by destruct Hc].
Qed.

Lemma atoi_pretty_N (x : N) : Forall (fun c => is_Some (digit_of c)) (chars (pretty x)) /\ digits_value 0 (chars (pretty x)) = Z.of_N x.
Proof.
  unfold pretty, pretty_N. case_decide as Hx; [subst; split; [repeat constructor; eauto|done]|]. split; [by apply digits_go|].
  by rewrite digits_pretty_go.
Qed.

Lemma atoi_str_of_Z n : atoi (str_of_Z n) = n.
Proof.
  destruct n as [|p|p]; [done| |]; destruct (atoi_pretty_N (Npos p)) as [H1 H2].
  - change (str_of_Z (Z.pos p)) with (pretty (Npos p)). by rewrite atoi_digits, H2.
  - change (str_of_Z (Z.neg p)) with (String "-" (pretty (Npos p))). unfold atoi. cbn [chars skip_blanks].
    rewrite bool_decide_false by done. rewrite bool_decide_true by done. by rewrite H2.
Qed.

(** ** Initialization *)

Definition env_default (k v : string) (e : gmap string string) : gmap string string :=
  match e !! k with Some _ => e | None => <[k := v]> e end.
Lemma env_default_eq k v e : env_default k v e !! k = Some (default v (e !! k)).
Proof. unfold env_default. destruct (e !! k) eqn:E; [by rewrite E|by rewrite lookup_insert_eq]. Qed.
Lemma env_default_ne k v e k' : k <> k' -> env_default k v e !! k' = e !! k'.
Proof. intros Hne. unfold env_default. destruct (e !! k); [done|by rewrite lookup_insert_ne]. Qed.

Definition with_environ (s : sg_state) (e : gmap string string) : sg_state :=
  mkSg (sg_initialized s) (sg_debug s) (sg_nnodes s) (sg_declared s) (sg_enabled s) e (sg_ids s) (sg_bps s) (sg_groups s) (sg_names s) (sg_log s).
Lemma setdefault_ok k v s : setdefault k v s = (Ok tt, with_environ s (env_default k v (sg_environ s))).
Proof. done. Qed.

(** The number that the library reads: the variable if it is set, else the default. *)
Definition env_number (s : sg_state) (k : string) (n : Z) : Z := match sg_environ s !! k with Some v => atoi v | None => n end.
Lemma env_number_default s k n : atoi (default (str_of_Z n) (sg_environ s !! k)) = env_number s k n.
Proof. unfold env_number. destruct (sg_environ s !! k); [done|apply atoi_str_of_Z]. Qed.

(** The ids that initialization reads, with these defaults. *)
Definition expected_ids (s : sg_state) (local_rank local_size nnodes node_rank : Z) : bps_ids :=
  let lr := env_number s "BYTEPS_LOCAL_RANK" local_rank in
  let ls := env_number s "BYTEPS_LOCAL_SIZE" local_size in
  mkIds (env_number s "BYTEPS_GLOBAL_RANK" (lr + env_number s "DMLC_WORKER_ID" node_rank * ls)) (env_number s "DMLC_NUM_WORKER" nnodes * ls) lr ls.

(** What [initialize_byteps_for_sglang] answers for the ids it finds. *)
Definition checked_ids (ids : bps_ids) (local_rank local_size : Z) : res unit :=
  if id_local_rank ids =? -1 then raise_ ValueError "BytePS has not been initialized; use bps.init()."
  else if negb (id_local_rank ids =? local_rank) then raise_ RuntimeError "BytePS local rank mismatch for --use-byteps-all-reduce: "
  else if id_local_size ids =? -1 then raise_ ValueError "BytePS has not been initialized; use bps.init()."
  else if negb (id_local_size ids =? local_size) then raise_ RuntimeError "BytePS local size mismatch for --use-byteps-all-reduce: "
  else Ok tt.

Lemma getenv_ok k v s : sg_environ s !! k = Some v -> getenv_ k s = (Ok v, s).
Proof. intros H. unfold getenv_. erewrite bind_step by reflexivity. by rewrite H. Qed.

Lemma read_ids_ok s a b c d : sg_environ s !! "BYTEPS_LOCAL_RANK" = Some a -> sg_environ s !! "BYTEPS_LOCAL_SIZE" = Some b ->
  sg_environ s !! "DMLC_WORKER_ID" = Some c -> sg_environ s !! "DMLC_NUM_WORKER" = Some d ->
  read_ids s = (Ok (mkIds (env_number s "BYTEPS_GLOBAL_RANK" (atoi a + atoi c * atoi b)) (atoi d * atoi b) (atoi a) (atoi b)), s).
Proof. intros Ha Hb Hc Hd. unfold read_ids. do 4 (erewrite bind_step by (by apply getenv_ok)). by erewrite bind_step by reflexivity. Qed.

Definition check_part (local_rank local_size : Z) : M sg_state unit :=
  lr ← basics id_local_rank;
  (if lr =? local_rank then mret tt else raiseM RuntimeError "BytePS local rank mismatch for --use-byteps-all-reduce: ") ;;
  ls ← basics id_local_size;
  (if ls =? local_size then mret tt else raiseM RuntimeError "BytePS local size mismatch for --use-byteps-all-reduce: ").
Lemma check_part_ok local_rank local_size s : check_part local_rank local_size s = (checked_ids (sg_ids s) local_rank local_size, s).
Proof.
  unfold check_part, checked_ids, basics. destruct (sg_ids s) as [r z lr ls] eqn:Ei. cbn. unfold mbind, M_bind, getM. rewrite Ei. cbn.
  destruct (Z.eqb_spec lr (-1)); [done|]. cbn. destruct (Z.eqb_spec lr local_rank); [|done]. cbn. rewrite Ei. cbn.
  destruct (Z.eqb_spec ls (-1)); [done|]. cbn. by destruct (Z.eqb_spec ls local_size).
Qed.

(** A process in which nothing was set up yet. *)
Definition fresh_process (s : sg_state) : Prop := sg_initialized s = false /\ bs_initialized (sg_bps s) = false.

Definition opened (b : bps_state) : bps_state :=
  mkBps true (bs_last_handle b) (bs_results b) (bs_contexts b) (bs_handle_map b) (bs_next_tensor b) (bs_log b).

Lemma initialize_ok s local_rank local_size nnodes node_rank debug : fresh_process s ->
  exists s', initialize_byteps_for_sglang local_rank local_size nnodes node_rank debug s =
      (checked_ids (expected_ids s local_rank local_size nnodes node_rank) local_rank local_size, s') /\
    sg_ids s' = expected_ids s local_rank local_size nnodes node_rank /\ sg_initialized s' = true /\ sg_bps s' = opened (sg_bps s) /\
    sg_nnodes s' = nnodes /\ sg_enabled s' = sg_enabled s /\ sg_declared s' = sg_declared s /\
    sg_log s' = sg_log s ++ (if 1 <? local_size then [Barrier] else []).
Proof.
  intros [Hi Hb]. unfold initialize_byteps_for_sglang. erewrite bind_step by reflexivity. erewrite bind_step by reflexivity.
  do 5 (erewrite bind_step by apply setdefault_ok). rewrite Hi. cbn [negb whenM with_environ sg_environ].
  set (e5 := env_default "DMLC_WORKER_ID" _ _). set (s1 := with_environ _ e5).
  set (s2 := if 1 <? local_size then (call Barrier s1).2 else s1).
  assert (E2 : whenM (1 <? local_size) (call Barrier) s1 = (Ok tt, s2)) by (unfold s2; by destruct (1 <? local_size)).
  assert (Henv : sg_environ s2 = e5) by (unfold s2; by destruct (1 <? local_size)).
  assert (Hbps : sg_bps s2 = sg_bps s) by (unfold s2; by destruct (1 <? local_size)).
  assert (Eids : read_ids s2 = (Ok (expected_ids s local_rank local_size nnodes node_rank), s2)).
  { erewrite read_ids_ok; try (rewrite Henv; unfold e5; rewrite ?env_default_ne by done; apply env_default_eq).
    rewrite !env_default_ne by done. unfold with_environ. cbn [sg_environ]. rewrite !env_number_default. unfold expected_ids.
    do 3 f_equal. unfold env_number at 1. rewrite Henv. unfold e5. rewrite !env_default_ne by done. done. }
  set (b := sg_bps s2) in *. set (ids := expected_ids s local_rank local_size nnodes node_rank) in *.
  set (s3 := (set_library ids (mkBps true (bs_last_handle b) (bs_results b) (bs_contexts b) (bs_handle_map b) (bs_next_tensor b) (bs_log b)) s2).2).
  assert (Einit : bps_init s2 = (Ok tt, s3)).
  { unfold bps_init. erewrite bind_step by reflexivity. fold b.
    assert (Hb' : bs_initialized b = false) by (by rewrite Hbps). rewrite Hb'. by erewrite bind_step by exact Eids. }
  exists (set_globals true debug nnodes s3).2. split.
  - erewrite bind_step with (s1 := (set_globals true debug nnodes s3).2) (a := tt); [exact (check_part_ok local_rank local_size _)|].
    erewrite bind_step by exact E2. by erewrite bind_step by exact Einit.
  - cbn. rewrite Hbps. unfold s2. destruct (1 <? local_size); cbn; rewrite ?app_nil_r; done.
Qed.

(** ** Reductions *)

(** The Python cache works as in Megatron. *)
Lemma declare_sim name n s :
  declare_and_cache_byteps_group name n s =
  let '(r, c) := BytepsCollectives.declare_and_cache_byteps_group name n (as_bc s) in (r, from_bc s c).
Proof.
  unfold declare_and_cache_byteps_group, BytepsCollectives.declare_and_cache_byteps_group, mbind, M_bind, getM. cbn [as_bc bc_declared].
  destruct (sg_declared s !! name) as [m|]; [destruct (m =? n); by destruct s|]. unfold library, bps, as_bc. cbn [bc_bps].
  destruct (declare name (Some n) (sg_bps s)) as [[x|e] b]; done.
Qed.

(** A process that serves: BytePS is on, and every name has [workers] workers. *)
Record serving (workers : Z) (s : sg_state) : Prop := {
  sv_enabled : sg_enabled s = true;
  sv_initialized : sg_initialized s = true;
  sv_ready : ready (as_bc s);
  sv_declared : forall name n, sg_declared s !! name = Some n -> n = workers;
  sv_workers : byteps_expected_workers s = (Ok workers, s);
  sv_positive : 0 < workers
}.

Lemma expected_workers_same s s' w : sg_nnodes s' = sg_nnodes s -> sg_ids s' = sg_ids s -> byteps_expected_workers s = (Ok w, s) -> byteps_expected_workers s' = (Ok w, s').
Proof.
  intros Hn Hi. unfold byteps_expected_workers, basics, mbind, M_bind, getM, liftM. rewrite Hn. destruct (1 <? sg_nnodes s); [by intros [= ->]|].
  rewrite Hi. destruct (id_local_size (sg_ids s) =? -1); [done|]. cbn. rewrite Hi. destruct (id_size (sg_ids s) =? -1); [done|]. cbn. rewrite ?Hi.
  destruct (floordiv _ _); [by intros [= ->]|done].
Qed.

(** The name under which [all_reduce] reduces. *)
Definition reduction_name (g : coordinator) (i : input) (logical_name : option string) : string :=
  "sglang." +:+ gc_unique_name g +:+ ".r" +:+ group_fingerprint (gc_ranks g) +:+ "." +:+
    (byteps_logical_name i logical_name +:+ "." +:+ py_join "x" (map str_of_Z (t_shape (in_tensor i)))).

Lemma nonempty_dot (a b : string) : a +:+ "." +:+ b <> "".
Proof. by destruct a. Qed.

Lemma group_name_ok g i l : build_byteps_group_name g (byteps_logical_name i l +:+ "." +:+ py_join "x" (map str_of_Z (t_shape (in_tensor i)))) = Ok (reduction_name g i l).
Proof. unfold build_byteps_group_name. rewrite bool_decide_false by apply nonempty_dot. done. Qed.

Section Serving.
Context `{!Devices}.

(** A reduction that BytePS takes. *)
Definition accepted (r : coordinator * input * option string) : Prop :=
  let '(g, i, _) := r in gc_world_size g <> 1 /\ byteps_refusal g i = None /\ pushable (in_tensor i) = true.
Definition reduction_events (h : Z) (r : coordinator * input * option string) : list bps_event :=
  let '(g, i, l) := r in [EvPush h (in_tensor i) (in_tensor i) false (reduction_name g i l) 0 0; EvWait h].
Definition reduce_ (r : coordinator * input * option string) : M sg_state unit := let '(g, i, l) := r in all_reduce g i l ;; mret tt.

(** The declaration of a reduction in a serving process. *)
Lemma declare_serving workers s g i l : serving workers s ->
  exists c1, BytepsCollectives.declare_and_cache_byteps_group (reduction_name g i l) workers (as_bc s) = (Ok tt, c1) /\
    bc_declared c1 = <[reduction_name g i l := workers]> (sg_declared s) /\ same_but_contexts (sg_bps s) (bc_bps c1) /\ ready c1.
Proof.
  intros [V1 V2 V3 V4 V5 V6]. set (name := reduction_name g i l).
  assert (Hne : name <> "") by (unfold name, reduction_name; by destruct (gc_unique_name g)).
  pose proof (declare_cases (as_bc s) name workers (proj1 V3) Hne V6) as Hc. change (bc_declared (as_bc s)) with (sg_declared s) in Hc.
  destruct (sg_declared s !! name) as [m|] eqn:E.
  - rewrite (V4 _ _ E), Z.eqb_refl in Hc. exists (as_bc s).
    split_and!; [done| |cbn [as_bc bc_bps]; unfold same_but_contexts; by destruct (sg_bps s)|done]. cbn. rewrite insert_id; [done|]. by rewrite <- (V4 _ _ E).
  - destruct Hc as (c1 & E1 & D1 & Q1 & C1). exists c1. split_and!; try done. by eapply ready_same.
Qed.

(** A reduction up to its push. *)
Lemma byteps_allreduce_start workers s g i l c1 : serving workers s ->
  BytepsCollectives.declare_and_cache_byteps_group (reduction_name g i l) workers (as_bc s) = (Ok tt, c1) ->
  byteps_allreduce_inplace (in_tensor i) g (byteps_logical_name i l) s =
  (handle ← library (push_pull_async_inplace (in_tensor i) false (Some (reduction_name g i l)) 0 0);
   library (synchronize handle) ;; mret (in_tensor i)) (from_bc s c1).
Proof.
  intros [V1 V2 V3 V4 V5 V6] E1. unfold byteps_allreduce_inplace. erewrite bind_step by reflexivity. rewrite V2. erewrite bind_step by reflexivity.
  erewrite bind_step by (unfold liftM; rewrite group_name_ok; reflexivity). erewrite bind_step by exact V5.
  erewrite bind_step by (rewrite declare_sim, E1; reflexivity). done.
Qed.

Lemma all_reduce_ok workers s g i l : serving workers s -> accepted (g, i, l) ->
  exists s', all_reduce g i l s = (Ok (in_tensor i), s') /\ serving workers s' /\ sg_log s' = sg_log s /\
    sg_declared s' = <[reduction_name g i l := workers]> (sg_declared s) /\
    bs_handle_map (sg_bps s') = bs_handle_map (sg_bps s) /\ bs_last_handle (sg_bps s') = bs_last_handle (sg_bps s) + 1 /\
    bs_log (sg_bps s') = bs_log (sg_bps s) ++ reduction_events (bs_last_handle (sg_bps s) + 1) (g, i, l).
Proof.
  intros V (Hw & Hr & Hp). pose proof V as [V1 V2 V3 V4 V5 V6]. destruct (declare_serving workers s g i l V) as (c1 & E1 & D1 & Q1 & R1).
  set (name := reduction_name g i l) in *. set (t := in_tensor i).
  destruct (push_and_wait c1 name t false 0 0 R1) as (b2 & b3 & E2 & E3 & M3 & L3 & G3 & R3); [rewrite D1, lookup_insert_eq; by eexists|done|].
  exists (from_bc s (mkBc b3 (bc_declared c1) 0 0)). split.
  { unfold all_reduce. rewrite (proj2 (Z.eqb_neq _ _) Hw). erewrite bind_step by reflexivity. rewrite V1, Hr.
    rewrite (byteps_allreduce_start workers s g i l c1 V E1). fold t name.
    erewrite bind_step with (s1 := from_bc s (mkBc b2 (bc_declared c1) 0 0)) by (unfold library; cbn [from_bc sg_bps]; rewrite E2; reflexivity).
    erewrite bind_step by (unfold library; cbn [from_bc sg_bps bc_bps]; rewrite E3; reflexivity). done. }
  cbn [from_bc sg_log sg_declared sg_bps bc_declared bc_bps]. split_and!; try done.
  - split; [exact V1|exact V2|exact (R3 0 0)| |by apply (expected_workers_same s)|exact V6]. intros n m. cbn [from_bc sg_declared bc_declared].
    rewrite D1, lookup_insert_Some. intros [[_ <-]|[_ Hn]]; [done|by eapply V4].
  - rewrite M3. by rewrite Q1.
  - rewrite L3. by rewrite Q1.
  - rewrite G3. unfold reduction_events. fold t name. by rewrite Q1.
Qed.

Lemma serve_ok workers reqs s : serving workers s -> Forall accepted reqs ->
  exists s', iterM reduce_ reqs s = (Ok tt, s') /\ serving workers s' /\ sg_log s' = sg_log s /\
    bs_handle_map (sg_bps s') = bs_handle_map (sg_bps s) /\
    bs_log (sg_bps s') = bs_log (sg_bps s) ++ concat (imap (fun k => reduction_events (bs_last_handle (sg_bps s) + 1 + Z.of_nat k)) reqs).
Proof.
  intros V Hr. revert s V. induction Hr as [|[[g i] l] reqs H1 _ IH]; intros s V.
  - exists s. cbn. by rewrite app_nil_r.
  - destruct (all_reduce_ok workers s g i l V H1) as (s1 & E1 & V1 & G1 & _ & M1 & L1 & B1).
    destruct (IH s1 V1) as (s2 & E2 & V2 & G2 & M2 & B2). exists s2. split_and!; [|done|congruence|congruence|].
    + cbn [iterM]. erewrite bind_step; [exact E2|]. cbn. by erewrite bind_step by exact E1.
    + rewrite B2, B1, L1. cbn [imap concat]. rewrite <- app_assoc, Z.add_0_r. do 3 f_equal. apply imap_ext. intros k r _. unfold compose. f_equal. lia.
Qed.
End Serving.

(** ** From a fresh process to serving *)

(** The size of the machine that [ModelRunner] computes. *)
Definition gpus_here (tp_size pp_size nnodes : Z) : Z := Z.max 1 (tp_size `div` nnodes) * pp_size.
Definition workers_of (ids : bps_ids) (nnodes : Z) : Z := if 1 <? nnodes then nnodes else Z.max 1 (id_size ids `div` Z.max 1 (id_local_size ids)).

Lemma init_byteps_ok s gpu_id tp_size pp_size nnodes node_rank debug : fresh_process s -> nnodes <> 0 ->
  let ls := gpus_here tp_size pp_size nnodes in let ids := expected_ids s gpu_id ls nnodes node_rank in
  exists s', init_byteps true false gpu_id tp_size pp_size nnodes node_rank debug s = (checked_ids ids gpu_id ls, s') /\
    sg_enabled s' = is_ok (checked_ids ids gpu_id ls) /\
    sg_ids s' = ids /\ sg_initialized s' = true /\ sg_bps s' = opened (sg_bps s) /\ sg_nnodes s' = nnodes /\ sg_declared s' = sg_declared s /\
    sg_log s' = sg_log s ++ (if 1 <? ls then [Barrier] else []).
Proof.
  intros [Hi Hb] Hn ls ids. unfold init_byteps, byteps_environment, start_byteps. erewrite bind_step by reflexivity. cbn [whenM].
  assert (Hq : forall t : sg_state, liftM (floordiv tp_size nnodes) t = (Ok (tp_size `div` nnodes), t)) by (intros t; unfold liftM; by rewrite floordiv_ok).
  set (s1 := (set_byteps_all_reduce false s).2). set (e := env_default "BYTEPS_LOCAL_SIZE" (str_of_Z ls) (env_default "BYTEPS_LOCAL_RANK" (str_of_Z gpu_id) (sg_environ s1))).
  set (s2 := with_environ s1 e).
  erewrite bind_step with (s1 := s2) (a := tt).
  2: { erewrite bind_step by reflexivity. erewrite bind_step by apply Hq. by erewrite bind_step by apply setdefault_ok. }
  erewrite bind_step by apply Hq. fold ls.
  assert (Hids : expected_ids s2 gpu_id ls nnodes node_rank = ids).
  { assert (Hl : forall k n, k <> "BYTEPS_LOCAL_RANK" -> k <> "BYTEPS_LOCAL_SIZE" -> env_number s2 k n = env_number s k n).
    { intros k n Hk1 Hk2. unfold env_number. cbn [s2 with_environ sg_environ]. unfold e. by rewrite !env_default_ne by done. }
    assert (H1 : env_number s2 "BYTEPS_LOCAL_RANK" gpu_id = env_number s "BYTEPS_LOCAL_RANK" gpu_id).
    { rewrite <- !env_number_default. cbn [s2 with_environ sg_environ]. unfold e. rewrite env_default_ne by done. rewrite env_default_eq. done. }
    assert (H2 : env_number s2 "BYTEPS_LOCAL_SIZE" ls = env_number s "BYTEPS_LOCAL_SIZE" ls).
    { rewrite <- !env_number_default. cbn [s2 with_environ sg_environ]. unfold e. rewrite env_default_eq, env_default_ne by done. done. }
    unfold ids, expected_ids. by rewrite H1, H2, !Hl. }
  destruct (initialize_ok s2 gpu_id ls nnodes node_rank debug (conj Hi Hb)) as (s3 & E & I & Hin & B & N & En & D & L). rewrite Hids in E, I.
  destruct (checked_ids ids gpu_id ls) as [[]|err] eqn:Ec.
  - exists (set_byteps_all_reduce true s3).2. split; [by erewrite bind_step by exact E|done].
  - exists s3. split; [by erewrite bind_raise by exact E|]. split_and!; done.
Qed.

Lemma workers_ok s : sg_nnodes s <= 1 -> id_local_size (sg_ids s) <> -1 -> id_size (sg_ids s) <> -1 ->
  byteps_expected_workers s = (Ok (workers_of (sg_ids s) (sg_nnodes s)), s).
Proof.
  intros Hn Hl Hs. unfold byteps_expected_workers, workers_of. erewrite bind_step by reflexivity. rewrite (proj2 (Z.ltb_ge _ _) Hn).
  assert (Hb : forall f, f (sg_ids s) <> -1 -> basics f s = (Ok (f (sg_ids s)), s)).
  { intros f Hf. unfold basics. erewrite bind_step by reflexivity. by rewrite (proj2 (Z.eqb_neq _ _) Hf). }
  do 2 (erewrite bind_step by (by apply Hb)). unfold liftM. rewrite floordiv_ok by lia. done.
Qed.

Lemma checked_size ids local_rank local_size : checked_ids ids local_rank local_size = Ok tt -> id_local_size ids = local_size.
Proof.
  unfold checked_ids. destruct (id_local_rank ids =? -1); [done|]. destruct (id_local_rank ids =? local_rank); [|done]. cbn [negb].
  destruct (id_local_size ids =? -1); [done|]. destruct (Z.eqb_spec (id_local_size ids) local_size); done.
Qed.

Lemma serving_after_init s gpu_id tp_size pp_size nnodes node_rank debug : fresh_process s -> cache_ok (as_bc s) -> handles_ok (sg_bps s) -> sg_declared s = ∅ ->
  0 < nnodes -> 0 < pp_size -> 0 <= env_number s "DMLC_NUM_WORKER" nnodes ->
  let ls := gpus_here tp_size pp_size nnodes in let ids := expected_ids s gpu_id ls nnodes node_rank in
  checked_ids ids gpu_id ls = Ok tt ->
  exists s', init_byteps true false gpu_id tp_size pp_size nnodes node_rank debug s = (Ok tt, s') /\ serving (workers_of ids nnodes) s' /\
    sg_bps s' = opened (sg_bps s) /\ sg_log s' = sg_log s ++ (if 1 <? ls then [Barrier] else []).
Proof.
  intros Hf Hc Hh Hd Hn Hpp Hw ls ids Hok. destruct (init_byteps_ok s gpu_id tp_size pp_size nnodes node_rank debug Hf ltac:(lia)) as (s' & E & En & I & Hin & B & N & D & L).
  fold ls in E, En, I, L. fold ids in E, En, I. rewrite Hok in E, En. exists s'. split_and!; try done.
  assert (Hls : 0 < ls) by (unfold ls, gpus_here; nia).
  assert (Hids : id_local_size ids = ls /\ id_size ids <> -1).
  { assert (El : id_local_size ids = ls). { clear -Hok. by apply checked_size in Hok. }
    split; [done|]. unfold ids, expected_ids in *. cbn [id_size id_local_size] in *. rewrite El. nia. }
  split; try done.
  - unfold ready, as_bc, cache_ok, handles_ok in *. rewrite B, D. cbn in *. tauto.
  - intros name n. by rewrite D, Hd, lookup_empty.
  - destruct (Z.ltb_spec 1 nnodes) as [H1|H1].
    + unfold byteps_expected_workers, workers_of. erewrite bind_step by reflexivity. by rewrite N, (proj2 (Z.ltb_lt _ _) H1).
    + rewrite <- N, <- I. apply workers_ok; rewrite ?N, ?I; [lia|lia|tauto].
  - unfold workers_of. destruct (Z.ltb_spec 1 nnodes); lia.
Qed.

(** ** Names *)

Lemma not_in_numeral c n : digit_of c = None -> c <> "-"%char -> c ∉ chars (str_of_Z n).
Proof.
  intros Hd Hm. assert (Hp : forall x : N, c ∉ chars (pretty x)).
  { intros x Hin. destruct (atoi_pretty_N x) as [Hf _]. rewrite Forall_forall in Hf. destruct (Hf c Hin) as [y Hy]. congruence. }
  destruct n as [|p|p]; [apply (Hp 0%N)|apply (Hp (Npos p))|].
  change (str_of_Z (Z.neg p)) with (String "-" (pretty (Npos p))). cbn. rewrite not_elem_of_cons. split; [done|apply Hp].
Qed.
Lemma numeral_nonempty n : str_of_Z n <> "".
Proof. intros H. pose proof (atoi_str_of_Z n) as E. rewrite H in E. cbn in E. subst n. done. Qed.

(** Joining texts without the separator can be undone. *)
Lemma py_join_inj c l1 l2 : Forall (fun s => c ∉ chars s /\ s <> "") l1 -> Forall (fun s => c ∉ chars s /\ s <> "") l2 ->
  py_join (String c "") l1 = py_join (String c "") l2 -> l1 = l2.
Proof.
  assert (Hcons : forall a b l, chars (py_join (String c "") (a :: b :: l)) = chars a ++ c :: chars (py_join (String c "") (b :: l))).
  { intros a b l. change (py_join (String c "") (a :: b :: l)) with (a +:+ String c (py_join (String c "") (b :: l))). by rewrite chars_app. }
  intros H1. revert l2. induction H1 as [|a l1 [Ha Hna] H1 IH]; intros l2 H2 E.
  - destruct l2 as [|b [|b2 l2]]; [done| |].
    + apply Forall_cons in H2 as [[_ Hb] _]. cbn in E. congruence.
    + apply (f_equal chars) in E. rewrite Hcons in E. by destruct (chars b).
  - destruct l2 as [|b l2]; [destruct l1; [cbn in E; congruence|]; apply (f_equal chars) in E; rewrite Hcons in E; by destruct (chars a)|].
    apply Forall_cons in H2 as [[Hb Hnb] H2]. destruct l1 as [|a2 l1], l2 as [|b2 l2].
    + cbn in E. by subst.
    + apply (f_equal chars) in E. rewrite Hcons in E. cbn in E. exfalso. apply Ha. rewrite E. set_solver.
    + apply (f_equal chars) in E. rewrite Hcons in E. cbn in E. exfalso. apply Hb. rewrite <- E. set_solver.
    + apply (f_equal chars) in E. rewrite !Hcons in E. apply split_at_sep in E as [E1 E2]; [|done..]. apply chars_inj in E1, E2. subst b.
      f_equal. by apply IH.
Qed.

Lemma shape_suffix_inj sh1 sh2 : py_join "x" (map str_of_Z sh1) = py_join "x" (map str_of_Z sh2) -> sh1 = sh2.
Proof.
  intros H. apply (py_join_inj "x") in H; [|apply Forall_map, Forall_forall; intros n _; split; [by apply not_in_numeral|apply numeral_nonempty]..].
  revert sh2 H. induction sh1 as [|n sh1 IH]; intros [|m sh2]; cbn; try done. intros [= H1%str_of_Z_inj H2]. f_equal; auto.
Qed.

Lemma shape_suffix_dotless sh : "."%char ∉ chars (py_join "x" (map str_of_Z sh)).
Proof.
  induction sh as [|n [|m sh] IH]; [apply not_elem_of_nil|apply chars_str_of_Z|].
  change (py_join "x" (map str_of_Z (n :: m :: sh))) with (str_of_Z n +:+ String "x" (py_join "x" (map str_of_Z (m :: sh)))).
  rewrite chars_app, not_elem_of_app. split; [apply chars_str_of_Z|]. cbn [chars]. rewrite not_elem_of_cons. done.
Qed.

Lemma fingerprint_length ranks : length (chars (group_fingerprint ranks)) = 12%nat.
Proof. unfold group_fingerprint. rewrite chars_of_chars, length_take, hexdigest_length. done. Qed.

(** The last separator can be found again. *)
Lemma split_at_last {A} (x : A) l1 l2 r1 r2 : x ∉ r1 -> x ∉ r2 -> l1 ++ x :: r1 = l2 ++ x :: r2 -> l1 = l2 /\ r1 = r2.
Proof.
  intros H1 H2 E. apply (f_equal reverse) in E. rewrite !reverse_app, !reverse_cons, <- !app_assoc in E. cbn in E.
  apply split_at_sep in E as [E1 E2]; [|by rewrite elem_of_reverse..]. apply (f_equal reverse) in E1, E2. by rewrite !reverse_involutive in E1, E2.
Qed.

Lemma reduction_name_inj g1 i1 l1 g2 i2 l2 : "."%char ∉ chars (gc_unique_name g1) -> "."%char ∉ chars (gc_unique_name g2) ->
  reduction_name g1 i1 l1 = reduction_name g2 i2 l2 ->
  gc_unique_name g1 = gc_unique_name g2 /\ group_fingerprint (gc_ranks g1) = group_fingerprint (gc_ranks g2) /\
  byteps_logical_name i1 l1 = byteps_logical_name i2 l2 /\ t_shape (in_tensor i1) = t_shape (in_tensor i2).
Proof.
  intros H1 H2 E. unfold reduction_name in E. pose proof (fingerprint_length (gc_ranks g1)) as F1. pose proof (fingerprint_length (gc_ranks g2)) as F2.
  revert F1 F2 E. generalize (group_fingerprint (gc_ranks g1)), (group_fingerprint (gc_ranks g2)). intros f1 f2 F1 F2 E. apply strip_prefix in E. apply (f_equal chars) in E. rewrite !chars_app in E. cbn [chars app] in E.
  change (chars "") with (@nil Ascii.ascii) in E. cbn [app] in E. apply split_at_sep in E as [Eu E]; [|done..]. injection E as E.
  apply app_inj_1 in E as [Ef E]; [|congruence]. injection E as E.
  apply split_at_last in E as [El Es]; [|apply shape_suffix_dotless..]. split_and!; try (by apply chars_inj). by apply shape_suffix_inj, chars_inj.
Qed.

(** ** BytePS or nothing *)

(** Neither the routing flag nor the other communicators are touched. *)
Definition untouched (s s' : sg_state) : Prop := sg_enabled s' = sg_enabled s /\ sg_log s' = sg_log s.
#[local] Instance untouched_preorder : PreOrder untouched.
Proof. split; [by split|]. intros s1 s2 s3 [H1 H2] [H3 H4]. split; congruence. Qed.

Lemma untouched_library {A} (m : M bps_state A) : always untouched (library m).
Proof. intros s r s'. unfold library. destruct (m (sg_bps s)). by intros [= <- <-]. Qed.
Lemma untouched_mod f : (forall s, untouched s (f s)) -> always untouched (modM f).
Proof. apply always_mod. Qed.
Ltac quiet := repeat first
  [ apply (always_bind untouched); [|intros ?] | apply (always_get untouched) | apply (always_ret untouched) | apply (always_raise untouched) | apply (always_lift untouched) | apply untouched_library
  | apply untouched_mod; intros ?; by split | match goal with |- always _ (if ?b then _ else _) => destruct b | |- always _ (match ?x with _ => _ end) => destruct x end ].

Lemma byteps_allreduce_untouched t g l : always untouched (byteps_allreduce_inplace t g l).
Proof. unfold byteps_allreduce_inplace, byteps_expected_workers, basics, declare_and_cache_byteps_group, cache_name. quiet. Qed.

Section Routing.
Context `{!Devices}.

(** The calls a model makes. *)
Inductive sg_call :=
  | CallAllReduce (g : coordinator) (i : input) (logical_name : option string)
  | CallInPlace (t : tensor) (group_name : string)
  | CallOutPlace (t : tensor) (group_name method : string)
  | CallFused (g : coordinator) (t : tensor)
  | CallCapture
  | CallUniqueName (name : string).
Definition run_call (c : sg_call) : M sg_state unit :=
  match c with
  | CallAllReduce g i l => all_reduce g i l ;; mret tt
  | CallInPlace t n => inplace_all_reduce t n
  | CallOutPlace t n m => outplace_all_reduce t n m ;; mret tt
  | CallFused g t => fused_allreduce_rmsnorm g t ;; mret tt
  | CallCapture => graph_capture
  | CallUniqueName n => get_unique_name n ;; mret tt
  end.
(** Calls may fail; the process goes on with the state they leave. *)
Definition run_calls (cs : list sg_call) (s : sg_state) : sg_state := fold_left (fun s c => (run_call c s).2) cs s.

(** A computation that may look at the routing flag first. *)
Definition guarded {A} (m : M sg_state A) : Prop := forall s r s', sg_enabled s = true -> m s = (r, s') -> untouched s s'.
Lemma guarded_always {A} (m : M sg_state A) : always untouched m -> guarded m.
Proof. intros Hm s r s' _ E. by eapply Hm. Qed.
Lemma guarded_flag {A} (f : sg_state -> M sg_state A) (m : M sg_state A) : (forall s, sg_enabled s = true -> always untouched (f s)) ->
  m = (s ← getM; f s) -> guarded m.
Proof. intros Hf -> s r s' Hs E. eapply (Hf s Hs). exact E. Qed.
Lemma guarded_bind {A B} (m : M sg_state A) (k : A -> M sg_state B) : always untouched m -> (forall a, guarded (k a)) -> guarded (m ≫= k).
Proof.
  intros Hm Hk s r s' Hs. unfold mbind, M_bind. destruct (m s) as [[a|e] s1] eqn:E; [|intros [= <- <-]; by eapply Hm].
  intros E2. pose proof (Hm _ _ _ E) as Hu. transitivity s1; [done|]. eapply Hk; [|exact E2]. destruct Hu as [-> _]. done.
Qed.
Lemma guarded_then {A B} (m : M sg_state A) (k : A -> M sg_state B) : guarded m -> (forall a, always untouched (k a)) -> guarded (m ≫= k).
Proof.
  intros Hm Hk s r s' Hs. unfold mbind, M_bind. destruct (m s) as [[a|e] s1] eqn:E; [|intros [= <- <-]; by eapply Hm].
  intros E2. transitivity s1; [by eapply Hm|by eapply Hk].
Qed.

Lemma find_group_untouched n : always untouched (find_group n).
Proof. unfold find_group. quiet. Qed.

Lemma run_call_guarded c : guarded (run_call c).
Proof.
  destruct c as [g i l|t n|t n m|g t| |n]; cbn.
  - apply guarded_then; [|intros a; apply (always_ret untouched)]. unfold all_reduce. destruct (gc_world_size g =? 1); [apply guarded_always; quiet|].
    eapply guarded_flag; [|reflexivity]. intros s Hs. cbn. rewrite Hs. destruct (byteps_refusal g i); [apply (always_raise untouched)|apply byteps_allreduce_untouched].
  - apply guarded_bind; [apply find_group_untouched|]. intros g. eapply guarded_flag; [|reflexivity]. intros s Hs. cbn. rewrite Hs. apply (always_raise untouched).
  - apply guarded_then; [|intros a; apply (always_ret untouched)]. apply guarded_bind; [apply find_group_untouched|]. intros g.
    eapply guarded_flag; [|reflexivity]. intros s Hs. cbn. rewrite Hs. apply (always_raise untouched).
  - apply guarded_then; [|intros a; apply (always_ret untouched)]. eapply guarded_flag; [|reflexivity]. intros s Hs. cbn. rewrite Hs. apply (always_raise untouched).
  - eapply guarded_flag; [|reflexivity]. intros s Hs. cbn. rewrite Hs. apply (always_raise untouched).
  - apply guarded_always. unfold get_unique_name. quiet.
Qed.

Lemma run_calls_untouched cs s : sg_enabled s = true -> untouched s (run_calls cs s).
Proof.
  revert s. induction cs as [|c cs IH]; intros s Hs; [done|]. cbn. destruct (run_call c s) as [r s1] eqn:E.
  pose proof (run_call_guarded c s r s1 Hs E) as Hu. cbn. transitivity s1; [done|]. apply IH. by destruct Hu as [-> _].
Qed.
End Routing.

(* ================================================================== *)
(** ** The properties                                                  *)
(* ================================================================== *)


(** Two all-reduces have the same BytePS name exactly when the groups have the same unique name and the same
    fingerprint of their ranks, and the tensors the same logical name and the same shape: prefill and decode batches,
    layers, and groups with different fingerprints never share a server buffer. *)
Theorem sglang_names_iff g1 i1 l1 g2 i2 l2 :
  "."%char ∉ chars (gc_unique_name g1) -> "."%char ∉ chars (gc_unique_name g2) ->
  build_byteps_group_name g1 (byteps_logical_name i1 l1 +:+ "." +:+ py_join "x" (map str_of_Z (t_shape (in_tensor i1)))) =
  build_byteps_group_name g2 (byteps_logical_name i2 l2 +:+ "." +:+ py_join "x" (map str_of_Z (t_shape (in_tensor i2)))) <->
  gc_unique_name g1 = gc_unique_name g2 /\ group_fingerprint (gc_ranks g1) = group_fingerprint (gc_ranks g2) /\
  byteps_logical_name i1 l1 = byteps_logical_name i2 l2 /\ t_shape (in_tensor i1) = t_shape (in_tensor i2).
Proof.
  intros H1 H2. rewrite !group_name_ok. split.
  - intros E. apply reduction_name_inj; [done|done|]. revert E. generalize (reduction_name g1 i1 l1), (reduction_name g2 i2 l2). by intros n1 n2 [= E].
  - intros (Eu & Ef & El & Es). unfold reduction_name. by rewrite Eu, Ef, El, Es.
Qed.

(** BytePS or nothing: once the set-up has returned, no sequence of calls, to [all_reduce], to the custom ops, to the
    fused all-reduce or to graph capture, with any groups and tensors and whatever the calls raise, ever reaches another
    communicator, and the routing stays on. *)
Theorem sglang_no_fallback `{!Devices} fusion gpu_id tp_size pp_size nnodes node_rank debug s s1 cs :
  init_byteps true fusion gpu_id tp_size pp_size nnodes node_rank debug s = (Ok tt, s1) ->
  sg_log (run_calls cs s1) = sg_log s1 /\ sg_enabled (run_calls cs s1) = true.
Proof.
  intros E. assert (En : sg_enabled s1 = true).
  { unfold init_byteps, start_byteps in E. cbn [whenM] in E. do 3 apply bind_ok_inv in E as (? & ? & _ & E). apply bind_ok_inv in E as (? & ? & _ & E). by injection E as <-. }
  destruct (run_calls_untouched cs s1 En) as [H1 H2]. by rewrite H1, H2.
Qed.

(** A serving process cannot reduce a bfloat16 tensor, the default type of most models: [all_reduce] passes all its checks
    and then raises [ValueError] from the bindings; nothing is pushed. *)
Theorem sglang_bfloat16_raises `{!Devices} workers s g i l id shape :
  serving workers s -> gc_world_size g <> 1 -> byteps_refusal g i = None -> in_tensor i = mkTensor id "torch.cuda.BFloat16Tensor" shape true ->
  exists s', all_reduce g i l s = (raise_ ValueError "Tensor type is not supported.", s') /\ sg_log s' = sg_log s /\ bs_log (sg_bps s') = bs_log (sg_bps s).
Proof.
  intros V Hw Hr Ht. pose proof V as [V1 V2 V3 V4 V5 V6]. destruct (declare_serving workers s g i l V) as (c1 & E1 & D1 & Q1 & R1).
  eexists. split.
  - unfold all_reduce. rewrite (proj2 (Z.eqb_neq _ _) Hw). erewrite bind_step by reflexivity. rewrite V1, Hr.
    rewrite (byteps_allreduce_start workers s g i l c1 V E1). rewrite Ht.
    eapply bind_raise. unfold library. rewrite bfloat16_push. reflexivity.
  - split; [done|]. cbn. by rewrite Q1.
Qed.

(* ================================================================== *)
(** ** A concrete process                                              *)
(* ================================================================== *)

(** GPU 1 of two on the second of two nodes, with tensor-parallel size 4; the
    number of workers is set by the launcher. *)
Definition ex_process : sg_state :=
  mkSg false false 1 ∅ false (<["DMLC_NUM_WORKER" := "2"]> ∅) (mkIds 0 1 0 1) (mkBps false 0 ∅ ∅ ∅ 0 []) ∅ ∅ [].
Definition ex_tp : coordinator :=
  mkCoordinator "tp:0" [0; 1; 2; 3] 4 0 None None None (Some false) (Some (mkChooser false (fun _ => true))) None None None false.
Definition ex_input (ty : string) (shape : list Z) : input := mkInput (mkTensor 5 ty shape true) false true "torch.float16".
#[local] Instance ex_devices : Devices :=
  {| is_shm_available := fun _ _ _ => false; is_in_piecewise_cuda_graph := false; is_current_stream_capturing := false;
     device_result := fun _ t => t; outplace_result := fun _ t => Some t; fused_result := fun _ _ => None |}.
Definition ex_requests : list (coordinator * input * option string) :=
  [(ex_tp, ex_input "torch.cuda.HalfTensor" [7; 4096], Some "row_parallel_linear.model.layers.0.mlp.down_proj");
   (ex_tp, ex_input "torch.cuda.HalfTensor" [1; 4096], Some "row_parallel_linear.model.layers.0.mlp.down_proj");
   (ex_tp, ex_input "torch.cuda.HalfTensor" [1; 4096], None)].

Lemma ex_process_ok : fresh_process ex_process /\ cache_ok (as_bc ex_process) /\ handles_ok (sg_bps ex_process).
Proof.
  split_and!; [by split| |].
  - split; intros ? ?; cbn; rewrite lookup_empty; done.
  - split; [intros h p; cbn; by rewrite lookup_empty|intros h; cbn; set_solver].
Qed.


Lemma sglang_names_iff_witness :
  build_byteps_group_name ex_tp (byteps_logical_name (ex_input "torch.cuda.HalfTensor" [7; 4096]) (Some "a") +:+ "." +:+ py_join "x" (map str_of_Z [7; 4096])) <>
  build_byteps_group_name ex_tp (byteps_logical_name (ex_input "torch.cuda.HalfTensor" [1; 4096]) (Some "a") +:+ "." +:+ py_join "x" (map str_of_Z [1; 4096])).
Proof.
  intros E. destruct (proj1 (sglang_names_iff ex_tp (ex_input "torch.cuda.HalfTensor" [7; 4096]) (Some "a") ex_tp
    (ex_input "torch.cuda.HalfTensor" [1; 4096]) (Some "a") ltac:(apply (bool_decide_unpack _); vm_compute; exact I)
    ltac:(apply (bool_decide_unpack _); vm_compute; exact I)) E) as (_ & _ & _ & H). cbn in H. discriminate H.
Defined.

Lemma sglang_no_fallback_witness : exists s1, init_byteps true false 1 4 1 2 1 false ex_process = (Ok tt, s1) /\
  sg_log (run_calls [CallAllReduce ex_tp (ex_input "torch.cuda.HalfTensor" [7; 4096]) None; CallCapture; CallInPlace (float_tensor 3) "tp:0"] s1) = sg_log s1.
Proof.
  destruct (init_byteps true false 1 4 1 2 1 false ex_process) as [r s1] eqn:E.
  assert (Hr : r = Ok tt) by (change r with (r, s1).1; rewrite <- E; vm_compute; reflexivity). subst r. exists s1. split; [reflexivity|].
  destruct (sglang_no_fallback false 1 4 1 2 1 false ex_process s1
    [CallAllReduce ex_tp (ex_input "torch.cuda.HalfTensor" [7; 4096]) None; CallCapture; CallInPlace (float_tensor 3) "tp:0"] E) as [H _].
  exact H.
Defined.

Lemma sglang_bfloat16_raises_witness : exists s1 s2, init_byteps true false 1 4 1 2 1 false ex_process = (Ok tt, s1) /\
  all_reduce ex_tp (ex_input "torch.cuda.BFloat16Tensor" [7; 4096]) None s1 = (raise_ ValueError "Tensor type is not supported.", s2).
Proof.
  destruct ex_process_ok as (H1 & H2 & H3).
  destruct (serving_after_init ex_process 1 4 1 2 1 false H1 H2 H3) as (s1 & E1 & V & _).
  - reflexivity.
  - lia.
  - lia.
  - vm_compute. discriminate.
  - vm_compute. reflexivity.
  - destruct (sglang_bfloat16_raises _ s1 ex_tp (ex_input "torch.cuda.BFloat16Tensor" [7; 4096]) None 5 [7; 4096] V) as (s2 & E2 & _).
    + discriminate.
    + reflexivity.
    + reflexivity.
    + exists s1, s2. split; [exact E1|exact E2].
Defined.
