(* ===== verification/Matrix.v ===== *)
(** * Arrays by rows

    The contents of a tensor as the list of its rows along the last dimension: pieces of lists, matrices put
    side by side and one below the other, sums and products of matrices whose parts are on different ranks. *)

From S2P Require Import Prelude.

#[local] Open Scope nat_scope.

(* ================================================================== *)
(** ** Scalars                                                         *)
(* ================================================================== *)

(** The elements of a tensor.  The laws say that sums may be reordered: they hold for integers; for floats what
    is proved with them holds up to the rounding of the reordered sums. *)
Class Scalar (V : Type) := { s_zero : V; s_add : V -> V -> V; s_mul : V -> V -> V }.
Class ScalarLaws (V : Type) `{!Scalar V} : Prop := {
  s_add_comm : forall x y, s_add x y = s_add y x;
  s_add_assoc : forall x y z, s_add x (s_add y z) = s_add (s_add x y) z;
  s_add_zero : forall x, s_add x s_zero = x
}.

(* ================================================================== *)
(** ** Pieces of a list                                                *)
(* ================================================================== *)

(** The [i]-th piece of [k] elements *)
Definition piece {A} (k i : nat) (l : list A) : list A := take k (drop (i * k) l).
Definition pieces {A} (k n : nat) (l : list A) : list (list A) := (fun i => piece k i l) <$> seq 0 n.

Section Pieces.
Context {A : Type}.
Implicit Types (l : list A) (ls : list (list A)) (k n i : nat).

Lemma piece_O k l : piece k 0 l = take k l.
Proof. reflexivity. Qed.
Lemma piece_S k i l : piece k (S i) l = piece k i (drop k l).
Proof. unfold piece. rewrite drop_drop. f_equal; f_equal; lia. Qed.
Lemma pieces_S k n l : pieces k (S n) l = take k l :: pieces k n (drop k l).
Proof.
  unfold pieces. cbn [seq fmap list_fmap]. f_equal. rewrite <- seq_shift, <- list_fmap_compose.
  apply list_fmap_ext. intros _ i _. apply piece_S.
Qed.
Lemma length_pieces k n l : length (pieces k n l) = n.
Proof. unfold pieces. by rewrite length_fmap, length_seq. Qed.
Lemma pieces_lookup k n l i : i < n -> pieces k n l !! i = Some (piece k i l).
Proof. intros Hi. unfold pieces. rewrite list_lookup_fmap, lookup_seq_lt by done. done. Qed.
Lemma length_piece k n l i : length l = n * k -> i < n -> length (piece k i l) = k.
Proof. intros Hl Hi. unfold piece. rewrite length_take, length_drop. nia. Qed.
Lemma pieces_length k n l : length l = n * k -> Forall (fun p => length p = k) (pieces k n l).
Proof.
  intros Hl. apply Forall_lookup. intros i p Hp. pose proof (lookup_lt_Some _ _ _ Hp) as Hi. rewrite length_pieces in Hi.
  rewrite pieces_lookup in Hp by done. injection Hp as <-. by apply (length_piece k n).
Qed.
Lemma concat_pieces k n l : length l = n * k -> concat (pieces k n l) = l.
Proof.
  revert l. induction n as [|n IH]; intros l Hl; [by apply nil_length_inv in Hl as ->|].
  rewrite pieces_S. cbn [concat]. rewrite IH by (rewrite length_drop; lia). apply take_drop.
Qed.
Lemma pieces_concat k ls : Forall (fun l => length l = k) ls -> pieces k (length ls) (concat ls) = ls.
Proof.
  induction 1 as [|l ls Hl Hls IH]; [done|]. cbn [length concat]. rewrite pieces_S.
  by rewrite take_app_length', drop_app_length', IH by done.
Qed.
Lemma length_concat_same k ls : Forall (fun l => length l = k) ls -> length (concat ls) = length ls * k.
Proof. induction 1 as [|l ls Hl Hls IH]; [done|]. cbn. rewrite length_app, IH, Hl. lia. Qed.
Lemma piece_concat k ls i l : Forall (fun l => length l = k) ls -> ls !! i = Some l -> piece k i (concat ls) = l.
Proof.
  intros Hls Hi. rewrite <- (pieces_concat k ls) in Hi at 1 by done. rewrite pieces_lookup in Hi; [by injection Hi|].
  by apply lookup_lt_Some in Hi; rewrite length_pieces in Hi.
Qed.
Lemma Forall_piece (P : A -> Prop) k i l : Forall P l -> Forall P (piece k i l).
Proof. intros. unfold piece. by apply Forall_take, Forall_drop. Qed.
End Pieces.

Lemma piece_fmap {A B} (f : A -> B) k i l : piece k i (f <$> l) = f <$> piece k i l.
Proof. unfold piece. by rewrite fmap_take, fmap_drop. Qed.
Lemma piece_zip_with {A B C} (f : A -> B -> C) k i l l' : piece k i (zip_with f l l') = zip_with f (piece k i l) (piece k i l').
Proof. unfold piece. by rewrite zip_with_drop, zip_with_take. Qed.

(* ================================================================== *)
(** ** Matrices as lists of rows                                       *)
(* ================================================================== *)

(** [n] rows of width [k] *)
Definition mat {A} (n k : nat) (m : list (list A)) : Prop := length m = n /\ Forall (fun r => length r = k) m.

(** Side by side *)
Fixpoint hcat {A} (ms : list (list (list A))) : list (list A) :=
  match ms with
  | [] => []
  | m :: ms' => match ms' with [] => m | _ :: _ => zip_with app m (hcat ms') end
  end.
(** The parts of [k] columns *)
Definition hsplit {A} (k n : nat) (m : list (list A)) : list (list (list A)) := (fun i => piece k i <$> m) <$> seq 0 n.

Lemma hcat_cons {A} (m : list (list A)) ms : ms <> [] -> hcat (m :: ms) = zip_with app m (hcat ms).
Proof. by destruct ms. Qed.

(** Induction on the number of parts, of which there is at least one *)
Lemma nonempty_ind {A} (P : list A -> Prop) : (forall x, P [x]) -> (forall x l, l <> [] -> P l -> P (x :: l)) -> forall l, l <> [] -> P l.
Proof. intros H1 HS l. induction l as [|x l IH]; [done|]. intros _. destruct l; [apply H1|]. by apply HS, IH. Qed.

Section Mat.
Context {A : Type}.
Implicit Types (m : list (list A)) (ms : list (list (list A))) (k n : nat).

Lemma mat_zip_app n k1 k2 m1 m2 : mat n k1 m1 -> mat n k2 m2 -> mat n (k1 + k2) (zip_with app m1 m2).
Proof.
  intros [H1 F1] [H2 F2]. split; [rewrite length_zip_with; lia|]. revert n m2 H1 H2 F2.
  induction F1 as [|r m1 Hr F1 IH]; intros n m2 H1 H2 F2; [constructor|]. destruct F2 as [|r2 m2 Hr2 F2]; [constructor|].
  constructor; [rewrite length_app; lia|]. destruct n as [|n]; [done|]. apply (IH n); [by injection H1|by injection H2|done].
Qed.
Lemma hcat_mat n k ms : ms <> [] -> Forall (mat n k) ms -> mat n (length ms * k) (hcat ms).
Proof.
  intros Hne. revert ms Hne. refine (nonempty_ind _ _ _).
  - intros m Hm. apply Forall_inv in Hm. cbn [length hcat]. by rewrite Nat.mul_1_l.
  - intros m ms Hne IH [Hm Hms]%Forall_cons. rewrite hcat_cons by done. cbn [length]. apply mat_zip_app; auto.
Qed.
Lemma hsplit_S k n m : hsplit k (S n) m = (take k <$> m) :: hsplit k n (drop k <$> m).
Proof.
  unfold hsplit. cbn [seq fmap list_fmap]. f_equal. rewrite <- seq_shift, <- list_fmap_compose.
  apply list_fmap_ext. intros _ i _. cbn. rewrite <- list_fmap_compose. apply list_fmap_ext. intros _ r _. apply piece_S.
Qed.
Lemma length_hsplit k n m : length (hsplit k n m) = n.
Proof. unfold hsplit. by rewrite length_fmap, length_seq. Qed.
Lemma hsplit_lookup k n m i : i < n -> hsplit k n m !! i = Some (piece k i <$> m).
Proof. intros Hi. unfold hsplit. rewrite list_lookup_fmap, lookup_seq_lt by done. done. Qed.
Lemma piece_mat n k w m i : mat n (w * k) m -> i < w -> mat n k (piece k i <$> m).
Proof.
  intros [Hn Hw] Hi. split; [by rewrite length_fmap|]. apply Forall_fmap. eapply Forall_impl; [exact Hw|].
  intros r Hr. by apply (length_piece k w).
Qed.
Lemma hsplit_mat n k w m : mat n (w * k) m -> Forall (mat n k) (hsplit k w m).
Proof.
  intros Hm. apply Forall_lookup. intros i p Hp. pose proof (lookup_lt_Some _ _ _ Hp) as Hi. rewrite length_hsplit in Hi.
  rewrite hsplit_lookup in Hp by done. injection Hp as <-. by apply (piece_mat n k w).
Qed.
Lemma zip_take_drop k m : zip_with app (take k <$> m) (drop k <$> m) = m.
Proof. induction m as [|r m IH]; [done|]. cbn. by rewrite take_drop, IH. Qed.
Lemma take_rows n k m : mat n k m -> take k <$> m = m.
Proof.
  intros [_ Hm]. induction Hm as [|r m Hr Hm IH]; [done|]. cbn. rewrite IH. f_equal. apply take_ge. lia.
Qed.
Lemma hcat_hsplit n k w m : 0 < w -> mat n (w * k) m -> hcat (hsplit k w m) = m.
Proof.
  revert m. induction w as [|w IH]; intros m Hw [Hn Hm]; [lia|]. rewrite hsplit_S. destruct w as [|w].
  - apply (take_rows n). split; [done|]. by rewrite Nat.mul_1_l in Hm.
  - rewrite hcat_cons by by rewrite hsplit_S. rewrite IH; [apply zip_take_drop|lia|]. split; [by rewrite length_fmap|].
    apply Forall_fmap. eapply Forall_impl; [exact Hm|]. intros r Hr. cbn in *. rewrite length_drop, Hr. lia.
Qed.
Lemma take_zip_app n k m1 m2 : mat n k m1 -> length m2 = n -> take k <$> zip_with app m1 m2 = m1.
Proof.
  intros [H1 F1] H2. revert n m2 H1 H2. induction F1 as [|r m1 Hr F1 IH]; intros n [|r2 m2] H1 H2; cbn in *; try done; [subst n; done|].
  destruct n as [|n]; [done|]. rewrite take_app_length' by done. f_equal. apply (IH n); lia.
Qed.
Lemma drop_zip_app n k m1 m2 : mat n k m1 -> length m2 = n -> drop k <$> zip_with app m1 m2 = m2.
Proof.
  intros [H1 F1] H2. revert n m2 H1 H2. induction F1 as [|r m1 Hr F1 IH]; intros n [|r2 m2] H1 H2; cbn in *; try done; [subst n; done|].
  destruct n as [|n]; [done|]. rewrite drop_app_length' by done. f_equal. apply (IH n); lia.
Qed.
Lemma hsplit_hcat n k ms : ms <> [] -> Forall (mat n k) ms -> hsplit k (length ms) (hcat ms) = ms.
Proof.
  intros Hne. revert ms Hne. refine (nonempty_ind _ _ _).
  - intros m Hm. apply Forall_inv in Hm. cbn [length hcat]. rewrite hsplit_S. cbn. f_equal. by apply (take_rows n).
  - intros m ms Hne IH [Hm Hms]%Forall_cons. pose proof (hcat_mat n k ms Hne Hms) as [Hl _]. cbn [length]. rewrite hsplit_S, hcat_cons by done.
    rewrite (take_zip_app n), (drop_zip_app n) by done. f_equal. auto.
Qed.
Lemma piece_hcat n k ms i m : ms <> [] -> Forall (mat n k) ms -> ms !! i = Some m -> piece k i <$> hcat ms = m.
Proof.
  intros Hne Hms Hi. rewrite <- (hsplit_hcat n k ms) in Hi at 1 by done. rewrite hsplit_lookup in Hi; [by injection Hi|].
  by apply lookup_lt_Some in Hi; rewrite length_hsplit in Hi.
Qed.
Lemma concat_mat n k ms : Forall (mat n k) ms -> mat (length ms * n) k (concat ms).
Proof.
  intros Hms. split; [apply length_concat_same; eapply Forall_impl; [exact Hms|]; by intros m []|].
  apply Forall_concat. eapply Forall_impl; [exact Hms|]. by intros m [].
Qed.
Lemma mat_piece n k w m i : mat (w * n) k m -> i < w -> mat n k (piece n i m).
Proof. intros [Hl Hf] Hi. split; [by apply (length_piece n w)|by apply Forall_piece]. Qed.
Lemma pieces_mat n k w m : mat (w * n) k m -> Forall (mat n k) (pieces n w m).
Proof.
  intros Hm. apply Forall_lookup. intros i p Hp. pose proof (lookup_lt_Some _ _ _ Hp) as Hi. rewrite length_pieces in Hi.
  rewrite pieces_lookup in Hp by done. injection Hp as <-. by apply (mat_piece n k w).
Qed.
End Mat.

Lemma concat_fmap {A B} (f : A -> B) (ls : list (list A)) : f <$> concat ls = concat (fmap (M := list) (fmap (M := list) f) ls).
Proof. induction ls as [|l ls IH]; [done|]. cbn. by rewrite fmap_app, IH. Qed.

(** Rows and columns are cut independently. *)
Lemma hsplit_pieces {A} (k w n i j : nat) (m : list (list A)) : piece n i (piece k j <$> m) = piece k j <$> piece n i m.
Proof. apply piece_fmap. Qed.

(* ================================================================== *)
(** ** Sums and products                                               *)
(* ================================================================== *)

Section Algebra.
Context {V : Type} `{!Scalar V}.
Implicit Types (r b : list V) (m g w x : list (list V)) (ms : list (list (list V))) (k n : nat).

Definition vadd (r r' : list V) : list V := zip_with s_add r r'.
Definition madd (m m' : list (list V)) : list (list V) := zip_with vadd m m'.
(** The sum of at least one matrix *)
Fixpoint msum (ms : list (list (list V))) : list (list V) :=
  match ms with
  | [] => []
  | m :: ms' => match ms' with [] => m | _ :: _ => madd m (msum ms') end
  end.
(** [sum(dim=0)] of rows of width [k] *)
Definition colsum (k : nat) (m : list (list V)) : list V := foldr vadd (replicate k s_zero) m.
(** A row added to every row *)
Definition addrow (b : list V) (m : list (list V)) : list (list V) := (fun r => vadd r b) <$> m.

Definition dot (r r' : list V) : V := foldr s_add s_zero (zip_with s_mul r r').
(** [x @ w.t()] *)
Definition mmT (x w : list (list V)) : list (list V) := (fun r => dot r <$> w) <$> x.
(** [r @ m] for rows [m] of width [k] *)
Definition vm (k : nat) (r : list V) (m : list (list V)) : list V :=
  foldr vadd (replicate k s_zero) (zip_with (fun a row => s_mul a <$> row) r m).
(** [g @ w] for rows [w] of width [k] *)
Definition mm (k : nat) (g w : list (list V)) : list (list V) := (fun r => vm k r w) <$> g.
(** [m.t()] for rows [m] of width [k] *)
Definition transpose (k : nat) (m : list (list V)) : list (list V) := (fun j => omap (lookup j) m) <$> seq 0 k.
(** [g.t() @ x] for rows [g] of width [kg] and rows [x] of width [k] *)
Definition tmm (kg k : nat) (g x : list (list V)) : list (list V) := mm k (transpose kg g) x.

(** *** Shapes *)
Lemma length_vadd r r' k : length r = k -> length r' = k -> length (vadd r r') = k.
Proof. intros. unfold vadd. rewrite length_zip_with. lia. Qed.
Lemma madd_mat n k m m' : mat n k m -> mat n k m' -> mat n k (madd m m').
Proof.
  intros [H1 F1] [H2 F2]. split; [unfold madd; rewrite length_zip_with; lia|]. clear H1 H2. revert m' F2.
  induction F1 as [|r m Hr F1 IH]; intros m' F2; [constructor|]. destruct F2 as [|r2 m' Hr2 F2]; [constructor|].
  constructor; [by apply length_vadd|by apply IH].
Qed.
Lemma msum_cons m ms : ms <> [] -> msum (m :: ms) = madd m (msum ms).
Proof. by destruct ms. Qed.
Lemma msum_mat n k ms : ms <> [] -> Forall (mat n k) ms -> mat n k (msum ms).
Proof.
  intros Hne. revert ms Hne. refine (nonempty_ind _ _ _).
  - intros m Hm. by apply Forall_inv in Hm.
  - intros m ms Hne IH [Hm Hms]%Forall_cons. rewrite msum_cons by done. apply madd_mat; auto.
Qed.
Lemma mmT_mat n k x w : length x = n -> length w = k -> mat n k (mmT x w).
Proof. intros Hx Hw. split; unfold mmT; [by rewrite length_fmap|]. apply Forall_fmap, Forall_true. intros r. cbn. by rewrite length_fmap. Qed.
Lemma length_foldr_vadd k (ms : list (list V)) : Forall (fun r => length r = k) ms -> length (foldr vadd (replicate k s_zero) ms) = k.
Proof. induction 1 as [|r m Hr Hm IH]; cbn; [apply length_replicate|]. by apply length_vadd. Qed.
Lemma scaled_rows k r m : Forall (fun r => length r = k) m -> Forall (fun r => length r = k) (zip_with (fun a row => s_mul a <$> row) r m).
Proof.
  intros Hm. revert r. induction Hm as [|row m Hrow Hm IH]; intros [|a r]; cbn; [constructor..|]. constructor; [by rewrite length_fmap|apply IH].
Qed.
Lemma length_vm k r m : Forall (fun r => length r = k) m -> length (vm k r m) = k.
Proof. intros. apply length_foldr_vadd. by apply scaled_rows. Qed.
Lemma mm_mat n k g w : length g = n -> Forall (fun r => length r = k) w -> mat n k (mm k g w).
Proof. intros Hg Hw. split; unfold mm; [by rewrite length_fmap|]. apply Forall_fmap, Forall_true. intros r. by apply length_vm. Qed.
Lemma length_colsum k m : Forall (fun r => length r = k) m -> length (colsum k m) = k.
Proof. apply length_foldr_vadd. Qed.
Lemma length_transpose k m : length (transpose k m) = k.
Proof. unfold transpose. by rewrite length_fmap, length_seq. Qed.
Lemma tmm_mat kg k g x : Forall (fun r => length r = k) x -> mat kg k (tmm kg k g x).
Proof. intros. apply mm_mat; [apply length_transpose|done]. Qed.
Lemma addrow_mat n k b m : length b = k -> mat n k m -> mat n k (addrow b m).
Proof.
  intros Hb [Hn Hm]. split; unfold addrow; [by rewrite length_fmap|]. apply Forall_fmap. eapply Forall_impl; [exact Hm|]. intros r Hr. by apply length_vadd.
Qed.

(** *** Parts of sums *)
Lemma piece_msum k i ms : piece k i (msum ms) = msum (piece k i <$> ms).
Proof.
  induction ms as [|m [|m' ms] IH]; [by cbn; unfold piece; rewrite drop_nil, take_nil|done|].
  rewrite fmap_cons, (msum_cons m), (msum_cons (piece k i m)) by done. unfold madd at 1. by rewrite piece_zip_with, IH.
Qed.
Lemma column_msum k i ms : piece k i <$> msum ms = msum ((fun m => piece k i <$> m) <$> ms).
Proof.
  induction ms as [|m [|m' ms] IH]; [done|done|]. rewrite fmap_cons, (msum_cons m), (msum_cons (_ <$> m)) by done. rewrite <- IH. unfold madd. generalize (msum (m' :: ms)).
  clear. induction m as [|r m IHm]; intros [|r' m']; cbn; [done..|]. rewrite IHm. unfold vadd at 1. by rewrite piece_zip_with.
Qed.

(** *** Parts of products *)
Lemma mmT_concat x ws : ws <> [] -> mmT x (concat ws) = hcat (mmT x <$> ws).
Proof.
  revert ws. refine (nonempty_ind _ _ _).
  - intros w. cbn. by rewrite app_nil_r.
  - intros w ws Hne IH. cbn [concat]. rewrite fmap_cons, hcat_cons by (by destruct ws). rewrite <- IH. unfold mmT. clear.
    induction x as [|r x IH]; [done|]. cbn. by rewrite IH, fmap_app.
Qed.
Lemma piece_mmT n i x w : (fun r => piece n i r) <$> mmT x w = mmT x (piece n i w).
Proof. unfold mmT. rewrite <- list_fmap_compose. apply list_fmap_ext. intros j r _. cbn. apply piece_fmap. Qed.
Lemma mmT_concat_l xs w : mmT (concat xs) w = concat ((fun x => mmT x w) <$> xs).
Proof. unfold mmT. by rewrite concat_fmap. Qed.
Lemma addrow_zip_app n k b1 b2 m1 m2 : length b1 = k -> mat n k m1 -> length m2 = n ->
  addrow (b1 ++ b2) (zip_with app m1 m2) = zip_with app (addrow b1 m1) (addrow b2 m2).
Proof.
  intros Hb [H1 F1] H2. revert n m2 H1 H2. induction F1 as [|r m1 Hr F1 IH]; intros n [|r2 m2] H1 H2; cbn in *; try done.
  destruct n as [|n]; [done|]. unfold addrow in *. rewrite (IH n) by lia. f_equal. unfold vadd. rewrite zip_with_app by lia. done.
Qed.
Lemma addrow_concat n k bs ms : ms <> [] -> Forall (fun b => length b = k) bs -> length bs = length ms -> Forall (mat n k) ms ->
  addrow (concat bs) (hcat ms) = hcat (zip_with addrow bs ms).
Proof.
  intros Hne. revert ms Hne bs. refine (nonempty_ind _ _ _).
  - intros m [|b [|? ?]] Hb Hl Hm; try done. cbn. by rewrite app_nil_r.
  - intros m ms Hne IH [|b bs] Hb Hl Hm; [done|]. apply Forall_cons in Hb as [Hb Hbs], Hm as [Hm Hms]. cbn [concat zip_with]. pose proof (hcat_mat n k ms Hne Hms) as [Hh _].
    rewrite !hcat_cons by (try done; by destruct bs, ms). rewrite (addrow_zip_app n k) by done. rewrite IH by (try done; by injection Hl). done.
Qed.
Lemma vm_zip_app k1 k2 r m1 m2 : Forall (fun r => length r = k1) m1 -> length m2 = length m1 ->
  vm (k1 + k2) r (zip_with app m1 m2) = vm k1 r m1 ++ vm k2 r m2.
Proof.
  intros F1. revert r m2. induction F1 as [|row m1 Hr F1 IH]; intros r [|row2 m2] H2; try done.
  - destruct r; unfold vm; cbn; by rewrite replicate_add.
  - destruct r as [|a r]; [unfold vm; cbn; by rewrite replicate_add|]. unfold vm in *. cbn. rewrite IH by (by injection H2).
    rewrite fmap_app. unfold vadd at 1. rewrite zip_with_app; [done|]. rewrite length_fmap, Hr. symmetry. by apply length_vm.
Qed.
Lemma mm_hcat n k g ws : ws <> [] -> Forall (mat n k) ws -> mm (length ws * k) g (hcat ws) = hcat (mm k g <$> ws).
Proof.
  intros Hne. revert ws Hne. refine (nonempty_ind _ _ _).
  - intros w _. cbn [length hcat fmap list_fmap]. by rewrite Nat.mul_1_l.
  - intros w ws Hne IH [[Hl Hw] Hws]%Forall_cons. pose proof (hcat_mat n k ws Hne Hws) as [Hh _].
    rewrite fmap_cons, !hcat_cons by (try done; by destruct ws). rewrite <- IH by done. cbn [length]. change (S (length ws) * k) with (k + length ws * k).
    unfold mm. clear IH. induction g as [|r g IH]; [done|]. cbn. rewrite IH. f_equal. apply vm_zip_app; [done|lia].
Qed.
Lemma omap_lookup_app n k m1 m2 j : mat n k m1 -> length m2 = n ->
  omap (lookup j) (zip_with app m1 m2) = if decide (j < k) then omap (lookup j) m1 else omap (lookup (j - k)) m2.
Proof.
  intros [H1 F1] H2. revert n m2 H1 H2. induction F1 as [|r m1 Hr F1 IH]; intros n [|r2 m2] H1 H2; cbn in *; try lia; [by destruct (decide _)|].
  destruct n as [|n]; [done|]. rewrite (IH n) by lia. destruct (decide (j < k)) as [Hj|Hj]; [rewrite lookup_app_l by lia|rewrite lookup_app_r by lia]; [done|].
  by rewrite Hr.
Qed.
Lemma transpose_hcat n k gs : gs <> [] -> Forall (mat n k) gs -> transpose (length gs * k) (hcat gs) = concat (transpose k <$> gs).
Proof.
  intros Hne. revert gs Hne. refine (nonempty_ind _ _ _).
  - intros g _. cbn [length hcat fmap list_fmap concat]. by rewrite Nat.mul_1_l, app_nil_r.
  - intros g gs Hne IH [Hg Hgs]%Forall_cons. pose proof (hcat_mat n k gs Hne Hgs) as [Hh _]. rewrite fmap_cons, hcat_cons by done. cbn [concat length].
    rewrite <- IH by done. unfold transpose. change (S (length gs) * k) with (k + length gs * k). rewrite seq_app, fmap_app. f_equal.
    + apply list_fmap_ext. intros i j Hj%lookup_seq. rewrite (omap_lookup_app n k) by done. by rewrite decide_True by lia.
    + rewrite <- (Nat.add_0_r (0 + k)), <- fmap_add_seq, <- list_fmap_compose. apply list_fmap_ext. intros i j _. cbn.
      rewrite (omap_lookup_app n k) by done. rewrite decide_False by lia. do 2 f_equal. lia.
Qed.
Lemma tmm_hcat_l n kg k gs x : gs <> [] -> Forall (mat n kg) gs -> tmm (length gs * kg) k (hcat gs) x = concat ((fun g => tmm kg k g x) <$> gs).
Proof.
  intros Hne Hgs. unfold tmm. rewrite (transpose_hcat n) by done. unfold mm. by rewrite concat_fmap, <- list_fmap_compose.
Qed.
Lemma tmm_hcat_r n kg k g xs : xs <> [] -> Forall (mat n k) xs -> tmm kg (length xs * k) g (hcat xs) = hcat (tmm kg k g <$> xs).
Proof. intros. unfold tmm. by apply (mm_hcat n). Qed.
Lemma colsum_zip_app n k1 k2 m1 m2 : mat n k1 m1 -> length m2 = n -> colsum (k1 + k2) (zip_with app m1 m2) = colsum k1 m1 ++ colsum k2 m2.
Proof.
  intros [H1 F1] H2. revert n m2 H1 H2. induction F1 as [|r m1 Hr F1 IH]; intros n [|r2 m2] H1 H2; cbn in *; try lia.
  - unfold colsum. cbn. by rewrite replicate_add.
  - destruct n as [|n]; [done|]. unfold colsum in *. cbn. rewrite (IH n) by lia. unfold vadd at 1. rewrite zip_with_app; [done|].
    rewrite Hr. symmetry. by apply length_foldr_vadd.
Qed.
Lemma colsum_hcat n k ms : ms <> [] -> Forall (mat n k) ms -> colsum (length ms * k) (hcat ms) = concat (colsum k <$> ms).
Proof.
  intros Hne. revert ms Hne. refine (nonempty_ind _ _ _).
  - intros m _. cbn [length hcat fmap list_fmap concat]. by rewrite Nat.mul_1_l, app_nil_r.
  - intros m ms Hne IH [Hm Hms]%Forall_cons. pose proof (hcat_mat n k ms Hne Hms) as [Hh _]. rewrite fmap_cons, hcat_cons by done. cbn [concat length].
    rewrite <- IH by done. apply (colsum_zip_app n); done.
Qed.
End Algebra.

(** *** Products whose inner dimension is cut *)
Section Laws.
Context {V : Type} `{!Scalar V, !ScalarLaws V}.
Implicit Types (r b : list V) (m g w x : list (list V)) (ms : list (list (list V))) (k n : nat).

Lemma s_zero_add v : s_add s_zero v = v.
Proof. by rewrite s_add_comm, s_add_zero. Qed.
Lemma dot_app r1 r2 c1 c2 : length r1 = length c1 -> dot (r1 ++ r2) (c1 ++ c2) = s_add (dot r1 c1) (dot r2 c2).
Proof.
  intros Hl. unfold dot. rewrite zip_with_app by done. generalize (zip_with s_mul r1 c1). intros a.
  induction a as [|v a IH]; cbn; [by rewrite s_zero_add|]. by rewrite IH, s_add_assoc.
Qed.
Lemma mmT_zip_app n o k x1 x2 w1 w2 : mat n k x1 -> length x2 = n -> mat o k w1 -> length w2 = o ->
  mmT (zip_with app x1 x2) (zip_with app w1 w2) = madd (mmT x1 w1) (mmT x2 w2).
Proof.
  intros [Hx Fx] Hx2 [Hw Fw] Hw2. revert n x2 Hx Hx2. induction Fx as [|r x1 Hr Fx IH]; intros n [|r2 x2] Hx Hx2; cbn in *; try lia; [done|].
  destruct n as [|n]; [done|]. unfold mmT in *. cbn. rewrite (IH n) by lia. unfold madd. f_equal. clear -Fw Hw Hw2 Hr ScalarLaws0.
  revert o w2 Hw Hw2. induction Fw as [|c w1 Hc Fw IH]; intros o [|c2 w2] Hw Hw2; cbn in *; try lia; [done|].
  destruct o as [|o]; [done|]. rewrite (IH o) by lia. f_equal. apply dot_app. lia.
Qed.
(** [[X1 X2] [W1 W2]^T = X1 W1^T + X2 W2^T] *)
Lemma mmT_hcat n o k xs ws : xs <> [] -> length ws = length xs -> Forall (mat n k) xs -> Forall (mat o k) ws ->
  mmT (hcat xs) (hcat ws) = msum (zip_with mmT xs ws).
Proof.
  intros Hne. revert xs Hne ws. refine (nonempty_ind _ _ _).
  - intros x [|w [|? ?]] Hl Hx Hw; done.
  - intros x xs Hne IH [|w ws] Hl Hx Hw; [done|]. apply Forall_cons in Hx as [Hx Hxs], Hw as [Hw Hws]. injection Hl as Hl.
    assert (Hne' : ws <> []) by (by destruct ws, xs). pose proof (hcat_mat n k xs Hne Hxs) as [H1 _]. pose proof (hcat_mat o k ws Hne' Hws) as [H2 _].
    rewrite !hcat_cons by done. cbn [zip_with]. rewrite msum_cons by (by destruct xs, ws). rewrite (mmT_zip_app n o k) by done. by rewrite IH.
Qed.
Lemma vadd_assoc r1 r2 r3 : vadd r1 (vadd r2 r3) = vadd (vadd r1 r2) r3.
Proof. unfold vadd. revert r2 r3. induction r1 as [|a r1 IH]; intros [|b r2] [|c r3]; cbn; [done..|]. by rewrite IH, s_add_assoc. Qed.
Lemma vadd_comm r1 r2 : vadd r1 r2 = vadd r2 r1.
Proof. unfold vadd. revert r2. induction r1 as [|a r1 IH]; intros [|b r2]; cbn; [done..|]. by rewrite IH, s_add_comm. Qed.
Lemma vadd_zero_l k r : length r = k -> vadd (replicate k s_zero) r = r.
Proof. intros <-. unfold vadd. induction r as [|a r IH]; [done|]. cbn. by rewrite IH, s_zero_add. Qed.
Lemma vadd_zero_r k r : length r = k -> vadd r (replicate k s_zero) = r.
Proof. intros. rewrite vadd_comm. by apply vadd_zero_l. Qed.
Lemma foldr_vadd_app k l1 l2 : Forall (fun r => length r = k) l1 -> Forall (fun r => length r = k) l2 ->
  foldr vadd (replicate k s_zero) (l1 ++ l2) = vadd (foldr vadd (replicate k s_zero) l1) (foldr vadd (replicate k s_zero) l2).
Proof.
  intros F1 F2. induction F1 as [|r l1 Hr F1 IH]; cbn [foldr app]; [by rewrite vadd_zero_l by by apply length_foldr_vadd|]. by rewrite IH, vadd_assoc.
Qed.
Lemma vm_app k r1 r2 m1 m2 : length r1 = length m1 -> Forall (fun r => length r = k) m1 -> Forall (fun r => length r = k) m2 ->
  vm k (r1 ++ r2) (m1 ++ m2) = vadd (vm k r1 m1) (vm k r2 m2).
Proof. intros Hl F1 F2. unfold vm. rewrite zip_with_app by done. apply foldr_vadd_app; by apply scaled_rows. Qed.
Lemma mm_zip_app n k kg g1 g2 w1 w2 : mat n kg g1 -> length g2 = n -> mat kg k w1 -> Forall (fun r => length r = k) w2 ->
  mm k (zip_with app g1 g2) (w1 ++ w2) = madd (mm k g1 w1) (mm k g2 w2).
Proof.
  intros [Hg Fg] Hg2 [Hw Fw] Fw2. revert n g2 Hg Hg2. induction Fg as [|r g1 Hr Fg IH]; intros n [|r2 g2] Hg Hg2; cbn in *; try lia; [done|].
  destruct n as [|n]; [done|]. unfold mm in *. cbn. rewrite (IH n) by lia. unfold madd. cbn. f_equal. apply vm_app; [lia|done..].
Qed.
(** [[G1 G2] [W1; W2] = G1 W1 + G2 W2] *)
Lemma mm_concat n k kg gs ws : gs <> [] -> length ws = length gs -> Forall (mat n kg) gs -> Forall (mat kg k) ws ->
  mm k (hcat gs) (concat ws) = msum (zip_with (mm k) gs ws).
Proof.
  intros Hne. revert gs Hne ws. refine (nonempty_ind _ _ _).
  - intros g [|w [|? ?]] Hl Hg Hw; try done. cbn. by rewrite app_nil_r.
  - intros g gs Hne IH [|w ws] Hl Hg Hw; [done|]. apply Forall_cons in Hg as [Hg Hgs], Hw as [Hw Hws]. injection Hl as Hl.
    assert (Hne' : ws <> []) by (by destruct ws, gs). pose proof (hcat_mat n kg gs Hne Hgs) as [H1 _]. pose proof (concat_mat kg k ws Hws) as [_ H2].
    rewrite !hcat_cons by done. cbn [zip_with concat]. rewrite msum_cons by (by destruct gs, ws). rewrite (mm_zip_app n k kg) by done. by rewrite IH.
Qed.
End Laws.
