(* ===== verification/Torch.v ===== *)
(** * The interface to torch

    What the tensor-parallel code uses of torch: tensors with their contents ([val]), the operations that cut, join and
    reshape them and the collectives of a process group, which are functions from the tensors of all its ranks to
    the results of all its ranks.  [TorchLaws] states the documented results on the arguments the code gives. *)

From S2P Require Import Prelude Matrix.

#[local] Open Scope nat_scope.

(* ================================================================== *)
(** ** Contents of tensors                                             *)
(* ================================================================== *)

(** [size()] is [lead ++ [width]]; the rows along the last dimension are in row-major order. *)
Record array (V : Type) := Array { lead : list nat; width : nat; rows : list (list V) }.
Arguments Array {_}.
Arguments lead {_}.
Arguments width {_}.
Arguments rows {_}.

#[export] Instance array_eq_dec {V} `{EqDecision V} : EqDecision (array V).
Proof. solve_decision. Defined.

Definition numel (l : list nat) : nat := foldr Nat.mul 1 l.
Definition wf {V} (a : array V) : Prop := mat (numel (lead a)) (width a) (rows a).

(** Part [i] of [k] columns, and part [i] of [k] slices along the first dimension *)
Definition columns {V} (k i : nat) (a : array V) : array V := Array (lead a) k (piece k i <$> rows a).
Definition slices {V} (k i : nat) (a : array V) : array V := Array (k :: tail (lead a)) (width a) (piece (k * numel (tail (lead a))) i (rows a)).
(** Joined along the last and along the first dimension *)
Definition join_last {V} (l : list (array V)) : array V := Array (default [] (lead <$> head l)) (sum_list (width <$> l)) (hcat (rows <$> l)).
Definition join_first {V} (l : list (array V)) : array V :=
  Array (sum_list (map (fun a => hd 0 (lead a)) l) :: tail (default [] (lead <$> head l))) (default 0 (width <$> head l)) (concat (rows <$> l)).
(** The sum of the ranks *)
Definition sum_arrays {V} `{!Scalar V} (l : list (array V)) : array V :=
  Array (default [] (lead <$> head l)) (default 0 (width <$> head l)) (msum (rows <$> l)).

(** A tensor with one dimension *)
Definition flat {V} (l : list V) : array V := Array [] (length l) [l].

(** All of the shape [d], [w]; all of a shape that differs in the first dimension at most *)
Definition shaped {V} (d : list nat) (w : nat) (a : array V) : Prop := lead a = d /\ width a = w /\ wf a.
Definition row_shaped {V} (rest : list nat) (w : nat) (a : array V) : Prop := exists n, shaped (n :: rest) w a.

(* ================================================================== *)
(** ** Operations                                                      *)
(* ================================================================== *)

Class Torch (V : Type) := {
  tensor : Type;
  val : tensor -> array V;
  is_contiguous : tensor -> bool;
  (** [t.contiguous()]: the tensor itself if it is contiguous, else a copy *)
  contiguous : tensor -> tensor;
  (** [torch.split(t, k, dim=-1)], [torch.split(t, k, dim=0)], [torch.chunk(t, n, dim=0)], [t[a:b]] *)
  torch_split : nat -> tensor -> list tensor;
  torch_split_first : nat -> tensor -> list tensor;
  torch_chunk : nat -> tensor -> list tensor;
  torch_slice : nat -> nat -> tensor -> tensor;
  (** [torch.cat(l, dim=-1)], [torch.cat(l, dim=0)] *)
  cat_last : list tensor -> tensor;
  cat_first : list tensor -> tensor;
  (** [t.reshape(-1, w)], [t.reshape(lead + [w])] *)
  reshape_rows : nat -> tensor -> tensor;
  reshape : list nat -> nat -> tensor -> tensor;
  (** [t.view(-1)], [t[a:b]] of a tensor with one dimension *)
  view_1d : tensor -> tensor;
  slice_1d : nat -> nat -> tensor -> tensor;
  (** [torch.distributed], with the operation SUM: the tensors of the ranks in, the tensors of the ranks out *)
  all_reduce : list tensor -> list tensor;
  all_gather_into_tensor : list tensor -> list tensor;
  reduce_scatter_tensor : list tensor -> list tensor;
  (** [all_gather] and [reduce_scatter] of parts of the given sizes of the first dimension *)
  all_gather : list nat -> list tensor -> list tensor;
  reduce_scatter : list nat -> list tensor -> list tensor;
  (** [all_to_all_single] with equal parts *)
  all_to_all_single : list tensor -> list tensor
}.

Class TorchLaws (V : Type) `{!Scalar V, !Torch V} : Prop := {
  val_wf : forall t, wf (val t);
  contiguous_val : forall t, val (contiguous t) = val t;
  contiguous_id : forall t, is_contiguous t = true -> contiguous t = t;
  split_val : forall t k n, 0 < k -> width (val t) = n * k -> val <$> torch_split k t = (fun i => columns k i (val t)) <$> seq 0 n;
  split_first_val : forall t k n d, 0 < k -> lead (val t) = n * k :: d -> val <$> torch_split_first k t = (fun i => slices k i (val t)) <$> seq 0 n;
  chunk_val : forall t k n d, 0 < k -> 0 < n -> lead (val t) = n * k :: d -> val <$> torch_chunk n t = (fun i => slices k i (val t)) <$> seq 0 n;
  slice_val : forall t k n d i, lead (val t) = n * k :: d -> i < n -> val (torch_slice (i * k) (i * k + k) t) = slices k i (val t);
  cat_last_val : forall ts d, ts <> [] -> Forall (fun t => lead (val t) = d) ts -> val (cat_last ts) = join_last (val <$> ts);
  cat_first_val : forall ts d w, ts <> [] -> Forall (row_shaped d w ∘ val) ts -> val (cat_first ts) = join_first (val <$> ts);
  reshape_rows_val : forall t w, 0 < w -> width (val t) = w -> val (reshape_rows w t) = Array [length (rows (val t))] w (rows (val t));
  reshape_val : forall t d w, width (val t) = w -> numel d = length (rows (val t)) -> val (reshape d w t) = Array d w (rows (val t));
  view_1d_val : forall t, val (view_1d t) = flat (concat (rows (val t)));
  slice_1d_val : forall t l a b, val t = flat l -> a <= b -> b <= length l -> val (slice_1d a b t) = flat (take (b - a) (drop a l));
  all_reduce_val : forall ts d w, ts <> [] -> Forall (shaped d w ∘ val) ts -> val <$> all_reduce ts = replicate (length ts) (sum_arrays (val <$> ts));
  all_gather_into_val : forall ts n d w, ts <> [] -> Forall (shaped (n :: d) w ∘ val) ts ->
    val <$> all_gather_into_tensor ts = replicate (length ts) (join_first (val <$> ts));
  all_gather_1d_val : forall ts n ls, ts <> [] -> val <$> ts = flat <$> ls -> Forall (fun l => length l = n) ls ->
    val <$> all_gather_into_tensor ts = replicate (length ts) (flat (concat ls));
  reduce_scatter_tensor_val : forall ts n d w, ts <> [] -> Forall (shaped (length ts * n :: d) w ∘ val) ts ->
    val <$> reduce_scatter_tensor ts = (fun i => slices n i (sum_arrays (val <$> ts))) <$> seq 0 (length ts);
  all_gather_val : forall ts sizes d w, ts <> [] -> Forall2 (fun n t => shaped (n :: d) w (val t)) sizes ts ->
    val <$> all_gather sizes ts = replicate (length ts) (join_first (val <$> ts));
  reduce_scatter_val : forall ts sizes d w, ts <> [] -> length sizes = length ts -> Forall (shaped (sum_list sizes :: d) w ∘ val) ts ->
    val <$> reduce_scatter sizes ts = imap (fun i n => Array (n :: d) w
      (take (n * numel d) (drop (sum_list (take i sizes) * numel d) (rows (sum_arrays (val <$> ts)))))) sizes;
  all_to_all_val : forall ts n d w, ts <> [] -> Forall (shaped (length ts * n :: d) w ∘ val) ts ->
    val <$> all_to_all_single ts = (fun i => join_first ((fun t => slices n i (val t)) <$> ts)) <$> seq 0 (length ts)
}.

(** [t.size()] *)
Definition size {V} `{!Torch V} (t : tensor) : list nat := lead (val t) ++ [width (val t)].

(* ================================================================== *)
(** ** All ranks of a group                                            *)
(* ================================================================== *)

(** What a rank computes from its rank and its tensor *)
Definition on_ranks {A B} (f : nat -> A -> res B) (xs : list A) : res (list B) := mapR (fun p => f (fst p) (snd p)) (zip (seq 0 (length xs)) xs).

(** The outcome has these contents. *)
Definition computes {V} `{!Torch V} (r : res (list tensor)) (l : list (array V)) : Prop := exists ys, r = Ok ys /\ val <$> ys = l.

Lemma on_ranks_ok {A B} (f : nat -> A -> res B) (Q : nat -> A -> B -> Prop) xs : (forall i x, xs !! i = Some x -> exists y, f i x = Ok y /\ Q i x y) ->
  exists ys, on_ranks f xs = Ok ys /\ length ys = length xs /\ forall i x y, xs !! i = Some x -> ys !! i = Some y -> Q i x y.
Proof.
  intros H. unfold on_ranks. set (l := zip (seq 0 (length xs)) xs).
  assert (Hl : forall i x, xs !! i = Some x <-> l !! i = Some (i, x)).
  { intros i x. unfold l. rewrite lookup_zip_with. split.
    - intros Hx. rewrite lookup_seq_lt by by apply lookup_lt_Some in Hx. cbn. by rewrite Hx.
    - intros Hx. destruct (seq 0 (length xs) !! i); [|done]. destruct (xs !! i); [|done]. cbn in Hx. congruence. }
  destruct (mapR_ix (fun p => f (fst p) (snd p)) (fun i p y => Q i (snd p) y) l) as (ys & E & Hlen & Hys).
  - intros i [j x] Hx. assert (j = i) as ->.
    { unfold l in Hx. rewrite lookup_zip_with in Hx. destruct (seq 0 (length xs) !! i) eqn:E; [|done]. destruct (xs !! i); [|done]. cbn in Hx.
      apply lookup_seq in E as [-> _]. injection Hx as <- _. done. }
    cbn. by apply H, Hl.
  - exists ys. split; [done|]. split; [rewrite Hlen; unfold l; rewrite length_zip_with, length_seq; lia|].
    intros i x y Hx Hy. apply Hl in Hx. exact (Hys i (i, x) y Hx Hy).
Qed.

(** Every rank computes its own part. *)
Lemma on_ranks_computes {V} `{!Torch V} (f : nat -> tensor -> res tensor) (g : nat -> array V -> array V) xs :
  (forall i x, xs !! i = Some x -> exists y, f i x = Ok y /\ val y = g i (val x)) -> computes (on_ranks f xs) (imap g (val <$> xs)).
Proof.
  intros H. destruct (on_ranks_ok f (fun i x y => val y = g i (val x)) xs H) as (ys & E & Hl & Hys). exists ys. split; [done|].
  apply list_eq_same_length with (length xs); [by rewrite length_imap, length_fmap|by rewrite length_fmap|].
  intros i a b Hi Ha Hb. rewrite list_lookup_imap, list_lookup_fmap in Hb. rewrite list_lookup_fmap in Ha.
  destruct (ys !! i) as [y|] eqn:Ey; [|done]. destruct (xs !! i) as [x|] eqn:Ex; [|done]. cbn in *. injection Ha as <-. injection Hb as <-. by apply (Hys i).
Qed.
