(* ===== verification/TpMappings.v ===== *)
(** * Tensor-parallel regions

    [megatron/core/tensor_parallel/mappings.py] and [utils.py]: the collectives at the borders of tensor-parallel
    regions with their backward passes, on the tensors of all ranks of the group. *)

From S2P Require Import Prelude Matrix Torch.

#[local] Open Scope nat_scope.

(** What [byteps_push_pull] of one name returns to the ranks *)
Class BytepsSum (V : Type) `{!Torch V} := push_pull_sum : list tensor -> list tensor.
Class BytepsSumLaw (V : Type) `{!Scalar V, !Torch V, !BytepsSum V} : Prop :=
  push_pull_val : forall ts d w, ts <> [] -> Forall (shaped d w ∘ val) ts -> val <$> push_pull_sum ts = replicate (length ts) (sum_arrays (val <$> ts)).

(** An autograd function: what the ranks get from their inputs and from their output gradients *)
Record region (V : Type) `{!Torch V} := Region { forward : list tensor -> res (list tensor); backward : list tensor -> res (list tensor) }.
Arguments Region {_ _}.
Arguments forward {_ _}.
Arguments backward {_ _}.

(** [ensure_divisibility] and [divide] *)
Definition ensure_divisibility (numerator denominator : nat) : res unit :=
  if denominator =? 0 then raise_ ZeroDivisionError "integer modulo by zero" else assert_ (numerator mod denominator =? 0) "is not divisible by".
Definition divide (numerator denominator : nat) : res nat := ensure_divisibility numerator denominator;; mret (numerator / denominator).

Section Mappings.
Context {V : Type} `{!Scalar V, !Torch V, !BytepsSum V}.

(** [group.size()] *)
Definition group_size (xs : list tensor) : nat := length xs.
Definition first_dim (t : tensor) : nat := hd 0 (size t).

(* ================================================================== *)
(** ** The collectives                                                 *)
(* ================================================================== *)

(** [_reduce]: the collective writes to [input_.contiguous()], which is another tensor if the input is not contiguous. *)
Definition reduce (inputs : list tensor) : res (list tensor) :=
  if group_size inputs =? 1 then mret inputs
  else
    let reduced := all_reduce (contiguous <$> inputs) in
    mret (zip_with (fun input_ output => if is_contiguous input_ then output else input_) inputs reduced).

(** [_bps_reduce]: [_check_function] of the BytePS binding refuses a tensor that is not contiguous; its other check, of the element type, is
    of what the binding was compiled with. *)
Definition bps_reduce (inputs : list tensor) : res (list tensor) :=
  if group_size inputs =? 1 then mret inputs
  else
    on_ranks (fun _ input_ => if is_contiguous input_ then mret tt else raise_ ValueError "Tensor is required to be contiguous.") inputs;;
    mret (push_pull_sum inputs).

(** [split_tensor_along_last_dim] *)
Definition split_tensor_along_last_dim (t : tensor) (num_partitions : nat) (contiguous_split_chunks : bool) : res (list tensor) :=
  last_dim_size ← divide (width (val t)) num_partitions;
  let tensor_list := torch_split last_dim_size t in
  mret (if contiguous_split_chunks then contiguous <$> tensor_list else tensor_list).

(** [_split_along_last_dim] *)
Definition split_along_last_dim (inputs : list tensor) : res (list tensor) :=
  let world_size := group_size inputs in
  if world_size =? 1 then mret inputs
  else on_ranks (fun rank input_ =>
    input_list ← split_tensor_along_last_dim input_ world_size false;
    output ← py_get input_list (Z.of_nat rank);
    mret (contiguous output)) inputs.

(** [_split_along_first_dim] *)
Definition split_along_first_dim (inputs : list tensor) : res (list tensor) :=
  let world_size := group_size inputs in
  if world_size =? 1 then mret inputs
  else on_ranks (fun rank input_ =>
    let dim_size := first_dim input_ in
    assert_ (dim_size mod world_size =? 0) "First dimension of the tensor should be divisible by tensor parallel size";;
    let local_dim_size := dim_size / world_size in
    let dim_offset := rank * local_dim_size in
    mret (contiguous (torch_slice dim_offset (dim_offset + local_dim_size) input_))) inputs.

(** [_gather_along_last_dim] *)
Definition gather_along_last_dim (inputs : list tensor) : res (list tensor) :=
  let world_size := group_size inputs in
  if world_size =? 1 then mret inputs
  else mret ((fun output => contiguous (cat_last (torch_chunk world_size output))) <$> all_gather_into_tensor (contiguous <$> inputs)).

(** [_gather_along_first_dim] *)
Definition gather_along_first_dim (output_split_sizes : option (list nat)) (inputs : list tensor) : res (list tensor) :=
  if group_size inputs =? 1 then mret inputs
  else match output_split_sizes with
       | None => mret (all_gather_into_tensor (contiguous <$> inputs))
       | Some sizes => mret (all_gather sizes inputs)
       end.

(** [_reduce_scatter_along_first_dim] *)
Definition reduce_scatter_along_first_dim (input_split_sizes : option (list nat)) (inputs : list tensor) : res (list tensor) :=
  let world_size := group_size inputs in
  if world_size =? 1 then mret inputs
  else match input_split_sizes with
       | None =>
           on_ranks (fun _ input_ =>
             assert_ (first_dim input_ mod world_size =? 0) "First dimension of the tensor should be divisible by tensor parallel size") inputs;;
           mret (reduce_scatter_tensor (contiguous <$> inputs))
       | Some sizes => mret (reduce_scatter sizes inputs)
       end.

(** [input_.reshape(-1, ...)], [torch.split(..., dim=1)] and [torch.cat(..., dim=0)] *)
Definition columns_to_rows (world_size : nat) (input_ : tensor) : tensor :=
  let input_ := reshape_rows (width (val input_)) input_ in cat_first (torch_split (width (val input_) / world_size) input_).

(** [_reduce_scatter_along_last_dim] *)
Definition reduce_scatter_along_last_dim (inputs : list tensor) : res (list tensor) :=
  let world_size := group_size inputs in
  outputs ← reduce_scatter_along_first_dim None (columns_to_rows world_size <$> inputs);
  mret (zip_with (fun input_ output => reshape (lead (val input_)) (width (val input_) / world_size) output) inputs outputs).

(** [_AllToAll.forward] with equal parts *)
Definition all_to_all (inputs : list tensor) : res (list tensor) :=
  if group_size inputs =? 1 then mret inputs else mret (all_to_all_single (contiguous <$> inputs)).

(** [all_to_all_sp2hp] *)
Definition all_to_all_sp2hp (inputs : list tensor) : res (list tensor) := all_to_all (columns_to_rows (group_size inputs) <$> inputs).

(** [reshape(-1, ...)], [torch.split(..., dim=0)] and [torch.cat(..., dim=-1)] *)
Definition rows_to_columns (world_size : nat) (t : tensor) : tensor :=
  let t := reshape_rows (width (val t)) t in cat_last (torch_split_first (first_dim t / world_size) t).

(** [all_to_all_hp2sp] *)
Definition all_to_all_hp2sp (inputs : list tensor) : res (list tensor) :=
  let world_size := group_size inputs in
  exchanged ← all_to_all ((fun input_ => reshape_rows (width (val input_)) input_) <$> inputs);
  mret (map (rows_to_columns world_size) exchanged).

(* ================================================================== *)
(** ** Forward and backward                                            *)
(* ================================================================== *)

Definition copy_to_model_parallel_region : region V := Region mret reduce.
Definition reduce_from_model_parallel_region : region V := Region reduce mret.
Definition bps_reduce_from_model_parallel_region : region V := Region bps_reduce mret.
Definition scatter_to_model_parallel_region : region V := Region split_along_last_dim gather_along_last_dim.
Definition gather_from_model_parallel_region : region V := Region gather_along_last_dim split_along_last_dim.
Definition scatter_to_sequence_parallel_region : region V := Region split_along_first_dim (gather_along_first_dim None).
Definition gather_from_sequence_parallel_region (tensor_parallel_output_grad : bool) (output_split_sizes : option (list nat)) : region V :=
  Region (gather_along_first_dim output_split_sizes)
    (fun grad_output => if tensor_parallel_output_grad then reduce_scatter_along_first_dim output_split_sizes grad_output
                        else assert_ (is_none output_split_sizes) "ctx.output_split_sizes is None";; split_along_first_dim grad_output).
Definition reduce_scatter_to_sequence_parallel_region (input_split_sizes : option (list nat)) : region V :=
  Region (reduce_scatter_along_first_dim input_split_sizes) (gather_along_first_dim input_split_sizes).
Definition all_gather_from_tensor_parallel_region : region V := Region gather_along_last_dim reduce_scatter_along_last_dim.
Definition reduce_scatter_to_tensor_parallel_region : region V := Region reduce_scatter_along_last_dim gather_along_last_dim.
Definition all_to_all_region : region V := Region all_to_all all_to_all.

(* ================================================================== *)
(** ** One-dimensional chunks                                          *)
(* ================================================================== *)

(** [split_tensor_into_1d_equal_chunks] *)
Definition split_tensor_into_1d_equal_chunks (inputs : list tensor) : res (list tensor) :=
  on_ranks (fun rank t =>
    let partition_size := numel (size t) / group_size inputs in
    let start_index := partition_size * rank in
    mret (slice_1d start_index (start_index + partition_size) (view_1d t))) inputs.

(** [gather_split_1d_tensor] *)
Definition gather_split_1d_tensor (inputs : list tensor) : list tensor := all_gather_into_tensor inputs.
End Mappings.
