(* ===== verification/TpMappingsProofs.v ===== *)
(** * What the collectives of tensor-parallel regions compute *)

From S2P Require Import Prelude Matrix Torch TpMappings.

#[local] Open Scope nat_scope.

(* ================================================================== *)
(** ** Shards                                                          *)
(* ================================================================== *)

(** The parts of an array on [n] ranks: [k] columns each, [k] slices of the first dimension each *)
Definition shard_last {V} (n k : nat) (a : array V) : list (array V) := (fun i => columns k i a) <$> seq 0 n.
Definition shard_first {V} (n k : nat) (a : array V) : list (array V) := (fun i => slices k i a) <$> seq 0 n.

Lemma array_eq {V} (a b : array V) : lead a = lead b -> width a = width b -> rows a = rows b -> a = b.
Proof. destruct a, b. cbn. congruence. Qed.

Section Shards.
Context {V : Type}.
Implicit Types (a : array V) (l : list (array V)) (d : list nat) (n k w : nat).

Lemma length_shard_last n k a : length (shard_last n k a) = n.
Proof. unfold shard_last. by rewrite length_fmap, length_seq. Qed.
Lemma length_shard_first n k a : length (shard_first n k a) = n.
Proof. unfold shard_first. by rewrite length_fmap, length_seq. Qed.
Lemma imap_replicate {A B} (f : nat -> A -> B) n x : imap f (replicate n x) = (fun i => f i x) <$> seq 0 n.
Proof.
  apply list_eq_same_length with n; [by rewrite length_fmap, length_seq|by rewrite length_imap, length_replicate|].
  intros i y z Hi Hy Hz. rewrite list_lookup_imap, lookup_replicate_2 in Hy by done. rewrite list_lookup_fmap, lookup_seq_lt in Hz by done. cbn in *. congruence.
Qed.
Lemma rows_shard_last n k a : rows <$> shard_last n k a = hsplit k n (rows a).
Proof. unfold shard_last, hsplit. by rewrite <- list_fmap_compose. Qed.
Lemma rows_shard_first n k a : rows <$> shard_first n k a = pieces (k * numel (tail (lead a))) n (rows a).
Proof. unfold shard_first, pieces. by rewrite <- list_fmap_compose. Qed.

Lemma shaped_width d w l : Forall (shaped d w) l -> width <$> l = replicate (length l) w.
Proof. induction 1 as [|a l (_ & Hw & _) _ IH]; [done|]. cbn. by rewrite Hw, IH. Qed.
Lemma shaped_rows d w l : Forall (shaped d w) l -> Forall (mat (numel d) w) (rows <$> l).
Proof. intros H. apply Forall_fmap. eapply Forall_impl; [exact H|]. intros a (Hd & Hw & Ha). cbn. unfold wf in Ha. by rewrite Hd, Hw in Ha. Qed.
Lemma sum_list_replicate n k : sum_list (replicate n k) = n * k.
Proof. induction n as [|n IH]; [done|]. cbn. rewrite IH. lia. Qed.

Lemma shard_last_shaped n k a : wf a -> width a = n * k -> Forall (shaped (lead a) k) (shard_last n k a).
Proof.
  intros Ha Hw. apply Forall_lookup. intros i p. unfold shard_last. rewrite list_lookup_fmap. intros Hp.
  destruct (seq 0 n !! i) as [j|] eqn:Ej; [|done]. apply lookup_seq in Ej as [-> Hi]. injection Hp as <-. split_and!; [done..|].
  unfold wf, columns. cbn. apply (piece_mat _ k n); [|done]. by rewrite <- Hw.
Qed.
Lemma shard_first_shaped n k d a : wf a -> lead a = n * k :: d -> Forall (shaped (k :: d) (width a)) (shard_first n k a).
Proof.
  intros Ha Hd. apply Forall_lookup. intros i p. unfold shard_first. rewrite list_lookup_fmap. intros Hp.
  destruct (seq 0 n !! i) as [j|] eqn:Ej; [|done]. apply lookup_seq in Ej as [-> Hi]. injection Hp as <-. unfold shaped, wf, slices. rewrite Hd. cbn.
  split_and!; [done..|]. apply (mat_piece _ _ n); [|done]. unfold wf in Ha. rewrite Hd in Ha. cbn in Ha. by rewrite Nat.mul_assoc.
Qed.

(** Cutting and joining are inverse. *)
Lemma join_shard_last n k a : 0 < n -> wf a -> width a = n * k -> join_last (shard_last n k a) = a.
Proof.
  intros Hn Ha Hw. pose proof (shard_last_shaped n k a Ha Hw) as Hs. apply array_eq; cbn.
  - destruct n as [|n]; [lia|]. done.
  - rewrite (shaped_width _ _ _ Hs), sum_list_replicate, length_shard_last. lia.
  - rewrite rows_shard_last. eapply hcat_hsplit; [done|]. rewrite <- Hw. apply Ha.
Qed.
Lemma shard_join_last d k l : l <> [] -> Forall (shaped d k) l -> shard_last (length l) k (join_last l) = l.
Proof.
  intros Hl Hs. pose proof (shaped_rows _ _ _ Hs) as Hr. apply list_eq_same_length with (length l); [done|by rewrite length_shard_last|].
  intros i x y Hi Hx Hy. unfold shard_last in Hx. rewrite list_lookup_fmap, lookup_seq_lt in Hx by done. injection Hx as <-.
  rewrite Forall_lookup in Hs. destruct (Hs i y Hy) as (Hd & Hw & _). apply array_eq; cbn; [|done|].
  - destruct l as [|a l]; [done|]. destruct (Hs 0 a eq_refl) as (Ha & _). cbn. congruence.
  - apply (piece_hcat (numel d)); [by destruct l|done|]. by rewrite list_lookup_fmap, Hy.
Qed.
Lemma join_first_lead n d w l : Forall (shaped (n :: d) w) l -> l <> [] -> lead (join_first l) = length l * n :: d.
Proof.
  intros Hs Hl. unfold join_first. cbn. f_equal.
  - clear Hl. induction Hs as [|a l (Ha & _) _ IH]; [done|]. cbn in *. rewrite Ha, IH. done.
  - destruct Hs as [|a l (Ha & _)]; [done|]. cbn. by rewrite Ha.
Qed.
Lemma join_shard_first n k d a : 0 < n -> wf a -> lead a = n * k :: d -> join_first (shard_first n k a) = a.
Proof.
  intros Hn Ha Hd. pose proof (shard_first_shaped n k d a Ha Hd) as Hs. apply array_eq.
  - rewrite (join_first_lead k d (width a)); [by rewrite length_shard_first|done|]. intros E%(f_equal length). rewrite length_shard_first in E. cbn in E. lia.
  - destruct n as [|n]; [lia|]. done.
  - cbn [join_first rows]. rewrite rows_shard_first. apply concat_pieces. destruct Ha as [Ha _]. rewrite Ha, Hd. cbn. lia.
Qed.
Lemma shard_join_first n d w l : l <> [] -> Forall (shaped (n :: d) w) l -> shard_first (length l) n (join_first l) = l.
Proof.
  intros Hl Hs. pose proof (shaped_rows _ _ _ Hs) as Hr. apply list_eq_same_length with (length l); [done|by rewrite length_shard_first|].
  intros i x y Hi Hx Hy. unfold shard_first in Hx. rewrite list_lookup_fmap, lookup_seq_lt in Hx by done. injection Hx as <-.
  pose proof (join_first_lead _ _ _ _ Hs Hl) as HL. rewrite Forall_lookup in Hs. destruct (Hs i y Hy) as (Hd & Hw & _). apply array_eq; cbn.
  - rewrite Hd. f_equal. cbn in HL. by injection HL as _ ->.
  - rewrite Hw. destruct l as [|a l]; [done|]. destruct (Hs 0 a eq_refl) as (_ & Ha & _). done.
  - injection HL as _ HL. cbn in HL. rewrite HL. apply piece_concat; [|by rewrite list_lookup_fmap, Hy].
    eapply Forall_impl; [exact Hr|]. intros m [Hm _]. exact Hm.
Qed.
Lemma join_first_shaped n d w l : l <> [] -> Forall (shaped (n :: d) w) l -> shaped (length l * n :: d) w (join_first l).
Proof.
  intros Hl Hs. pose proof (join_first_lead _ _ _ _ Hs Hl) as HL. pose proof (shaped_rows _ _ _ Hs) as Hr. split_and!; [done| |].
  - destruct Hs as [|a l (_ & Ha & _)]; done.
  - unfold wf. rewrite HL. replace (width (join_first l)) with w by by destruct Hs as [|a l (_ & Ha & _)].
    pose proof (concat_mat _ _ _ Hr) as Hc. rewrite length_fmap in Hc. by replace (numel (length l * n :: d)) with (length l * numel (n :: d)) by (cbn; lia).
Qed.
Lemma join_last_shaped d k l : l <> [] -> Forall (shaped d k) l -> shaped d (length l * k) (join_last l).
Proof.
  intros Hl Hs. pose proof (shaped_rows _ _ _ Hs) as Hr. assert (lead (join_last l) = d) as HL by (by destruct Hs as [|a l (Ha & _)]).
  assert (width (join_last l) = length l * k) as HW by (cbn; by rewrite (shaped_width _ _ _ Hs), sum_list_replicate).
  split_and!; [done..|]. unfold wf. rewrite HL, HW. cbn. rewrite <- (length_fmap rows l). apply hcat_mat; [by destruct l|done].
Qed.
End Shards.

(** Sums of shards are shards of the sum. *)
Section Sums.
Context {V : Type} `{!Scalar V}.
Implicit Types (l : list (array V)).

Lemma sum_arrays_shaped d w l : l <> [] -> Forall (shaped d w) l -> shaped d w (sum_arrays l).
Proof.
  intros Hl Hs. pose proof (shaped_rows _ _ _ Hs) as Hr. assert (lead (sum_arrays l) = d) as HL by (by destruct Hs as [|a l (Ha & _)]).
  assert (width (sum_arrays l) = w) as HW by (by destruct Hs as [|a l (_ & Ha & _)]).
  split_and!; [done..|]. unfold wf. rewrite HL, HW. cbn. apply msum_mat; [by destruct l|done].
Qed.
Lemma columns_sum k i l : columns k i (sum_arrays l) = Array (lead (sum_arrays l)) k (msum (rows <$> (columns k i <$> l))).
Proof. apply array_eq; [done..|]. cbn. rewrite column_msum. by rewrite <- !list_fmap_compose. Qed.
Lemma sum_singleton (a : array V) : sum_arrays [a] = a.
Proof. by destruct a. Qed.
End Sums.

(* ================================================================== *)
(** ** The collectives                                                 *)
(* ================================================================== *)

Lemma divide_exact n k : 0 < n -> divide (n * k) n = Ok k.
Proof.
  intros Hn. unfold divide, ensure_divisibility. destruct (Nat.eqb_spec n 0); [lia|]. rewrite (Nat.mul_comm n k), Nat.Div0.mod_mul, Nat.div_mul by lia. done.
Qed.

Section Collectives.
Context {V : Type} `{!Scalar V, !ScalarLaws V, !Torch V, !TorchLaws V, !BytepsSum V, !BytepsSumLaw V}.
Implicit Types (xs : list tensor) (d : list nat) (n k w : nat) (X : array V).

Lemma computes_ok xs l : val <$> xs = l -> computes (Ok xs) l.
Proof. intros. by exists xs. Qed.
Lemma computes_bind (r : res (list tensor)) f l l' : computes r l -> (forall ys, val <$> ys = l -> computes (f ys) l') -> computes (r ≫= f) l'.
Proof. intros (ys & -> & Hv) Hf. by apply Hf. Qed.
Lemma length_vals xs l : val <$> xs = l -> length xs = length l.
Proof. intros <-. by rewrite length_fmap. Qed.
Lemma Forall_vals (P : array V -> Prop) xs : Forall P (val <$> xs) <-> Forall (P ∘ val) xs.
Proof. apply Forall_fmap. Qed.
Lemma contiguous_vals xs : val <$> (contiguous <$> xs) = val <$> xs.
Proof. rewrite <- list_fmap_compose. apply list_fmap_ext. intros _ t _. apply contiguous_val. Qed.
Lemma nonempty_vals xs l : val <$> xs = l -> l <> [] -> xs <> [].
Proof. intros <- H ->. by apply H. Qed.
Lemma Forall_contiguous (P : array V -> Prop) xs : Forall P (val <$> xs) -> Forall (P ∘ val) (contiguous <$> xs).
Proof. intros H. by rewrite <- Forall_vals, contiguous_vals. Qed.
Lemma one_rank xs : length xs = 1 -> exists x, xs = [x].
Proof. destruct xs as [|x [|? ?]]; [done|eauto|done]. Qed.

(** A group of one rank, or of more *)
Ltac one_or_more xs :=
  destruct (Nat.eqb_spec (group_size xs) 1) as [H1|H1];
  [let x := fresh "x" in destruct (one_rank xs H1) as [x ->]; apply computes_ok|].

Lemma split_last_spec xs n k : length xs = n -> 0 < k -> Forall (fun a => wf a /\ width a = n * k) (val <$> xs) ->
  computes (split_along_last_dim xs) (imap (columns k) (val <$> xs)).
Proof.
  intros Hn Hk Hw. unfold split_along_last_dim. one_or_more xs.
  - cbn in *. subst n. apply Forall_inv in Hw as [Ha Hw]. f_equal. symmetry. apply array_eq; cbn; [done|lia|]. apply (take_rows (numel (lead (val x)))).
    rewrite Nat.mul_1_l in Hw. rewrite <- Hw. exact Ha.
  - apply on_ranks_computes. intros i x Hx. pose proof (lookup_lt_Some _ _ _ Hx) as Hi. rewrite Forall_vals, Forall_lookup in Hw.
    destruct (Hw i x Hx) as [Ha Hwi]. unfold split_tensor_along_last_dim, group_size. rewrite Hwi, Hn, divide_exact by lia. ret_step.
    assert (Hs := split_val x k n Hk Hwi). assert (Hl : torch_split k x !! i <> None).
    { intros E. apply (f_equal (lookup i)) in Hs. rewrite !list_lookup_fmap, E, lookup_seq_lt in Hs by lia. done. }
    destruct (torch_split k x !! i) as [y|] eqn:Ey; [|done]. cbn. rewrite (py_get_nonneg _ _ _ Ey). cbn. exists (contiguous y). split; [done|].
    rewrite contiguous_val. apply (f_equal (lookup i)) in Hs. rewrite !list_lookup_fmap, Ey, lookup_seq_lt in Hs by lia. cbn in Hs. by injection Hs.
Qed.
Lemma split_first_spec xs n k d : length xs = n -> Forall (fun a => wf a /\ lead a = n * k :: d) (val <$> xs) ->
  computes (split_along_first_dim xs) (imap (slices k) (val <$> xs)).
Proof.
  intros Hn Hw. unfold split_along_first_dim. one_or_more xs.
  - cbn in *. subst n. apply Forall_inv in Hw as [Ha Hw]. f_equal. symmetry. apply array_eq; [by cbn; rewrite Hw; cbn; f_equal; lia|done|].
    cbn. rewrite Hw. unfold piece. cbn. destruct Ha as [Ha _]. rewrite drop_0. apply take_ge. rewrite Ha, Hw. cbn. lia.
  - apply on_ranks_computes. intros i x Hx. pose proof (lookup_lt_Some _ _ _ Hx) as Hi. rewrite Forall_vals, Forall_lookup in Hw.
    destruct (Hw i x Hx) as [Ha Hwi]. unfold group_size, first_dim, size. rewrite Hwi, Hn. cbn [hd app]. rewrite (Nat.mul_comm n k), Nat.Div0.mod_mul, Nat.div_mul by lia.
    eexists. split; [done|]. rewrite contiguous_val. apply (slice_val x k n d); [done|lia].
Qed.
Lemma gather_last_spec xs n d w : xs <> [] -> 0 < n -> Forall (shaped (n :: d) w) (val <$> xs) ->
  computes (gather_along_last_dim xs) (replicate (length xs) (join_last (val <$> xs))).
Proof.
  intros Hne Hn Hs. unfold gather_along_last_dim. one_or_more xs.
  - cbn. f_equal. apply Forall_inv in Hs as (Hd & Hw & _). symmetry. apply array_eq; cbn; [done|lia|done].
  - apply computes_ok. set (W := group_size xs). assert (Hg := all_gather_into_val (contiguous <$> xs) n d w). rewrite contiguous_vals, length_fmap in Hg.
    assert (HW : 0 < W) by (unfold W, group_size; destruct xs; [done|cbn; lia]).
    specialize (Hg ltac:(by destruct xs) (Forall_contiguous _ _ Hs)). rewrite <- list_fmap_compose.
    assert (Hl : (fun a => join_last (shard_first W n a)) <$> (val <$> all_gather_into_tensor (contiguous <$> xs)) = replicate W (join_last (val <$> xs))).
    { rewrite Hg, fmap_replicate. unfold W, group_size. rewrite <- (length_fmap val xs). do 2 f_equal. apply (shard_join_first n d w); [by destruct xs|done]. }
    unfold group_size in *. fold W. rewrite <- Hl, <- list_fmap_compose. apply list_fmap_ext. intros i t Ht. cbn. rewrite contiguous_val.
    assert (HL : lead (val t) = W * n :: d).
    { apply (f_equal (lookup i)) in Hg. rewrite list_lookup_fmap, Ht in Hg. cbn in Hg. symmetry in Hg. apply lookup_replicate in Hg as [-> _].
      rewrite (join_first_lead n d w); [by rewrite length_fmap|done|by destruct xs]. }
    assert (Hc := chunk_val t n W d Hn HW HL). pose proof (shard_first_shaped W n d (val t) (val_wf t) HL) as Hsh. rewrite (cat_last_val _ (n :: d)).
    + by rewrite Hc.
    + intros E. rewrite E in Hc. apply (f_equal length) in Hc. rewrite !length_fmap, length_seq in Hc. cbn in Hc. lia.
    + apply (Forall_vals (fun a => lead a = n :: d)). rewrite Hc. eapply Forall_impl; [exact Hsh|]. by intros a (? & _).
Qed.
Lemma gather_first_spec xs n d w : xs <> [] -> Forall (shaped (n :: d) w) (val <$> xs) ->
  computes (gather_along_first_dim None xs) (replicate (length xs) (join_first (val <$> xs))).
Proof.
  intros Hne Hs. unfold gather_along_first_dim. one_or_more xs.
  - cbn. f_equal. apply Forall_inv in Hs as (Hd & Hw & _). symmetry. apply array_eq; cbn; [by rewrite Hd; cbn; f_equal; lia|done|by rewrite app_nil_r].
  - apply computes_ok. pose proof (all_gather_into_val (contiguous <$> xs) n d w) as Hg. rewrite contiguous_vals, length_fmap in Hg.
    apply Hg; [by destruct xs|by apply Forall_contiguous].
Qed.
Lemma zip_contiguous (A : list tensor) xs : Forall (fun t => is_contiguous t = true) xs -> length A = length xs ->
  zip_with (fun x y => if is_contiguous x then y else x) xs A = A.
Proof. intros H. revert A. induction H as [|x xs Hx H IH]; intros [|a A]; cbn; try done. intros [= Hl]. by rewrite Hx, IH. Qed.
Lemma reduce_spec xs d w : xs <> [] -> Forall (shaped d w) (val <$> xs) -> Forall (fun t => is_contiguous t = true) xs ->
  computes (reduce xs) (replicate (length xs) (sum_arrays (val <$> xs))).
Proof.
  intros Hne Hs Hc. unfold reduce. one_or_more xs; [cbn; by rewrite sum_singleton|]. apply computes_ok.
  pose proof (all_reduce_val (contiguous <$> xs) d w) as Hr. rewrite contiguous_vals, length_fmap in Hr. specialize (Hr ltac:(by destruct xs) (Forall_contiguous _ _ Hs)).
  rewrite zip_contiguous; [done|done|]. apply (f_equal length) in Hr. by rewrite length_fmap, length_replicate in Hr.
Qed.
Lemma bps_reduce_spec xs d w : xs <> [] -> Forall (shaped d w) (val <$> xs) -> Forall (fun t => is_contiguous t = true) xs ->
  computes (bps_reduce xs) (replicate (length xs) (sum_arrays (val <$> xs))).
Proof.
  intros Hne Hs Hc. unfold bps_reduce. one_or_more xs; [cbn; by rewrite sum_singleton|]. unfold on_ranks.
  rewrite (mapR_total _ (fun _ => tt)) by (intros [i t] Ht%elem_of_zip_r; cbn; by rewrite (proj1 (Forall_forall _ _) Hc t Ht)).
  ret_step. apply computes_ok. apply (push_pull_val xs d w); [done|by apply Forall_vals].
Qed.
Lemma reduce_scatter_first_spec xs n d w : xs <> [] -> Forall (shaped (length xs * n :: d) w) (val <$> xs) ->
  computes (reduce_scatter_along_first_dim None xs) (shard_first (length xs) n (sum_arrays (val <$> xs))).
Proof.
  intros Hne Hs. unfold reduce_scatter_along_first_dim. one_or_more xs.
  - cbn. f_equal. rewrite sum_singleton. apply Forall_inv in Hs as (Hd & Hw & Ha). symmetry. rewrite length_cons, Nat.mul_1_l in Hd.
    apply array_eq; [by cbn; rewrite Hd; cbn; f_equal; lia|done|]. cbn. unfold piece. destruct Ha as [Ha _]. rewrite drop_0. apply take_ge. rewrite Ha, Hd. cbn. lia.
  - destruct (on_ranks_ok (fun _ t => assert_ (first_dim t mod group_size xs =? 0) "First dimension of the tensor should be divisible by tensor parallel size")
      (fun _ _ _ => True) xs) as (us & -> & _).
    { intros i x Hx. exists tt. rewrite Forall_vals, Forall_lookup in Hs. destruct (Hs i x Hx) as (Hd & _). unfold first_dim, size, group_size. rewrite Hd. cbn [hd app].
      by rewrite Nat.mul_comm, Nat.Div0.mod_mul. }
    cbn. apply computes_ok. pose proof (reduce_scatter_tensor_val (contiguous <$> xs) n d w) as Hr. rewrite contiguous_vals, length_fmap in Hr.
    apply Hr; [by destruct xs|by apply Forall_contiguous].
Qed.
Lemma columns_to_rows_val x n k : 0 < n -> 0 < k -> width (val x) = n * k ->
  val (columns_to_rows n x) = Array [n * length (rows (val x))] k (concat (hsplit k n (rows (val x)))).
Proof.
  intros Hn Hk Hw. unfold columns_to_rows. cbv zeta. assert (Hy := reshape_rows_val x (width (val x)) ltac:(nia) eq_refl).
  set (y := reshape_rows (width (val x)) x) in *. assert (Hw' : width (val y) = n * k) by by rewrite Hy.
  rewrite Hw'. rewrite (Nat.mul_comm n k), Nat.div_mul by lia. pose proof (split_val y k n Hk Hw') as Hs. fold (shard_last n k (val y)) in Hs.
  pose proof (shard_last_shaped n k (val y) (val_wf y) Hw') as Hsh. assert (Hne : shard_last n k (val y) <> []).
  { intros E%(f_equal length). rewrite length_shard_last in E. cbn in E. lia. }
  rewrite (cat_first_val _ [] k).
  - rewrite Hs. apply array_eq.
    + rewrite (join_first_lead (length (rows (val x))) [] k), length_shard_last; [done| |done]. by rewrite Hy in Hsh |- *.
    + cbn. by destruct n; [lia|].
    + cbn [join_first rows]. rewrite rows_shard_last. by rewrite Hy.
  - intros E. by rewrite E in Hs.
  - apply Forall_vals. rewrite Hs. eapply Forall_impl; [exact Hsh|]. intros a Ha. exists (length (rows (val x))). by rewrite Hy in Ha.
Qed.
Lemma columns_to_rows_shaped x n k d : 0 < n -> 0 < k -> shaped d (n * k) (val x) -> shaped (n * numel d :: []) k (val (columns_to_rows n x)).
Proof.
  intros Hn Hk (Hd & Hw & Ha). pose proof (columns_to_rows_val x n k Hn Hk Hw) as E. pose proof Ha as [Hl _]. rewrite Hd in Hl. rewrite Hl in E.
  split_and!; [by rewrite E..|]. apply val_wf.
Qed.
(** The part of the rows that came from column part [i] *)
Lemma slices_columns_to_rows n k (m : list (list V)) i : mat (length m) (n * k) m -> i < n -> piece (length m) i (concat (hsplit k n m)) = piece k i <$> m.
Proof.
  intros Hm Hi. apply piece_concat; [|by apply hsplit_lookup]. eapply Forall_impl; [apply (hsplit_mat (length m) k n m Hm)|]. by intros p [].
Qed.
Lemma reduce_scatter_last_spec xs k d : xs <> [] -> 0 < k -> Forall (shaped d (length xs * k)) (val <$> xs) ->
  computes (reduce_scatter_along_last_dim xs) (shard_last (length xs) k (sum_arrays (val <$> xs))).
Proof.
  intros Hne Hk Hs. assert (Hn : 0 < length xs) by (destruct xs; [done|cbn; lia]). unfold reduce_scatter_along_last_dim, group_size.
  set (n := length xs) in *. set (zs := columns_to_rows n <$> xs).
  assert (Hz : Forall (shaped [n * numel d] k) (val <$> zs)).
  { apply Forall_fmap, Forall_fmap. apply Forall_vals in Hs. eapply Forall_impl; [exact Hs|]. intros x Hx. by apply columns_to_rows_shaped. }
  assert (Hlz : length zs = n) by apply length_fmap. pose proof (reduce_scatter_first_spec zs (numel d) [] k) as Hr. rewrite Hlz in Hr.
  specialize (Hr ltac:(by destruct xs) Hz). eapply computes_bind; [exact Hr|]. intros ys Hys. apply computes_ok.
  assert (Hly : length ys = n) by (apply length_vals in Hys; by rewrite Hys, length_shard_first).
  apply list_eq_same_length with n; [by rewrite length_shard_last|rewrite length_fmap, length_zip_with; unfold n in *; lia|].
  intros i a b Hi Ha Hb. rewrite list_lookup_fmap, lookup_zip_with in Ha.
  destruct (xs !! i) as [x|] eqn:Ex; [|done]. destruct (ys !! i) as [y|] eqn:Ey; [|done]. cbn in Ha. injection Ha as <-.
  assert (Hy : val y = slices (numel d) i (sum_arrays (val <$> zs))).
  { apply (f_equal (lookup i)) in Hys. unfold shard_first in Hys. rewrite !list_lookup_fmap, Ey, lookup_seq_lt in Hys by done. cbn in Hys. by injection Hys. }
  unfold shard_last in Hb. rewrite list_lookup_fmap, lookup_seq_lt in Hb by done. injection Hb as <-.
  pose proof Hs as Hs'. rewrite Forall_vals, Forall_lookup in Hs'. destruct (Hs' i x Ex) as (Hd & Hw & _).
  assert (Hzne : val <$> zs <> []) by (unfold zs; by destruct xs). pose proof (sum_arrays_shaped _ _ _ Hzne Hz) as (Hd1 & Hw1 & _).
  rewrite Hw, (Nat.mul_comm n k), Nat.div_mul by lia.
  assert (Hrow : rows (val y) = piece k i <$> rows (sum_arrays (val <$> xs))).
  { rewrite Hy. unfold slices. rewrite Hd1. cbn [tail rows]. unfold numel at 2. cbn [foldr]. rewrite Nat.mul_1_r. cbn [sum_arrays rows].
    rewrite piece_msum, column_msum. f_equal. unfold zs. rewrite <- !list_fmap_compose. apply list_fmap_ext. intros j t Ht. cbn.
    destruct (Hs' j t Ht) as (Hdt & Hwt & Hat). rewrite (columns_to_rows_val t n k) by done. cbn [rows]. pose proof Hat as [Hl Hf]. rewrite Hdt in Hl. rewrite <- Hl.
    apply slices_columns_to_rows; [split; [done|]|done]. by rewrite <- Hwt. }
  pose proof (sum_arrays_shaped d (n * k) (val <$> xs) ltac:(by destruct xs) Hs) as (Hd2 & Hw2 & Hwf2). rewrite reshape_val.
  - apply array_eq; cbn [columns lead width rows]; [by rewrite Hd, Hd2|done|done].
  - rewrite Hy. exact Hw1.
  - rewrite Hd, Hrow, length_fmap. destruct Hwf2 as [Hl2 _]. by rewrite Hl2, Hd2.
Qed.
Lemma all_to_all_spec xs n d w : xs <> [] -> Forall (shaped (length xs * n :: d) w) (val <$> xs) ->
  computes (all_to_all xs) ((fun i => join_first (slices n i <$> (val <$> xs))) <$> seq 0 (length xs)).
Proof.
  intros Hne Hs. unfold all_to_all. one_or_more xs.
  - cbn. f_equal. apply Forall_inv in Hs as (Hd & Hw & Ha). rewrite length_cons, Nat.mul_1_l in Hd. destruct Ha as [Ha _].
    symmetry. apply array_eq; [by cbn; rewrite Hd; cbn; f_equal; lia|done|]. cbn. unfold piece. rewrite drop_0, app_nil_r.
    apply take_ge. rewrite Ha, Hd. cbn. lia.
  - apply computes_ok. pose proof (all_to_all_val (contiguous <$> xs) n d w) as Hr. rewrite length_fmap in Hr.
    rewrite Hr; [|by destruct xs|by apply Forall_contiguous]. apply list_fmap_ext. intros _ i _. f_equal.
    rewrite <- (contiguous_vals xs). by rewrite <- (list_fmap_compose val).
Qed.
Lemma fmap_seq_lookup {A B} (l : list A) (f : A -> B) (g : nat -> B) n : length l = n -> (forall i x, l !! i = Some x -> f x = g i) -> f <$> l = g <$> seq 0 n.
Proof.
  intros <- H. apply list_eq_same_length with (length l); [by rewrite length_fmap, length_seq|by rewrite length_fmap|].
  intros i a b Hi Ha Hb. rewrite list_lookup_fmap in Ha. rewrite list_lookup_fmap, lookup_seq_lt in Hb by done.
  destruct (l !! i) as [x|] eqn:E; [|done]. cbn in *. injection Ha as <-. injection Hb as <-. by apply H.
Qed.
Lemma shard_first_lookup n k X i : i < n -> shard_first n k X !! i = Some (slices k i X).
Proof. intros. unfold shard_first. by rewrite list_lookup_fmap, lookup_seq_lt. Qed.
Lemma shard_last_lookup n k X i : i < n -> shard_last n k X !! i = Some (columns k i X).
Proof. intros. unfold shard_last. by rewrite list_lookup_fmap, lookup_seq_lt. Qed.

(** Rows of all ranks, columns of one, are columns of the whole. *)
Lemma columns_of_slices m n k i X : lead X = [n * m] -> wf X -> concat ((fun j => piece k i <$> piece m j (rows X)) <$> seq 0 n) = piece k i <$> rows X.
Proof.
  intros Hd [Hl _]. rewrite Hd in Hl. cbn in Hl. rewrite Nat.mul_1_r in Hl. trans (piece k i <$> concat (pieces m n (rows X))); [|by rewrite concat_pieces].
  rewrite concat_fmap. unfold pieces. by rewrite <- list_fmap_compose.
Qed.

(** From shards of the sequence to shards of the hidden dimension and back *)
Lemma sp2hp_spec xs n m k X : length xs = n -> 0 < n -> 0 < k -> lead X = [n * m] -> width X = n * k -> wf X -> val <$> xs = shard_first n m X ->
  computes (all_to_all_sp2hp xs) (shard_last n k X).
Proof.
  intros Hn Hn0 Hk Hd Hw Ha Hxs. unfold all_to_all_sp2hp, group_size. rewrite Hn. set (zs := columns_to_rows n <$> xs).
  pose proof (shard_first_shaped n m [] X Ha Hd) as Hsh. rewrite <- Hxs in Hsh. apply Forall_vals in Hsh.
  assert (Hz : val <$> zs = (fun j => Array [n * m] k (concat (hsplit k n (piece m j (rows X))))) <$> seq 0 n).
  { unfold zs. rewrite <- list_fmap_compose. apply fmap_seq_lookup; [done|]. intros j x Hx. cbn. rewrite Forall_lookup in Hsh. destruct (Hsh j x Hx) as (Hdx & Hwx & Hax).
    apply (f_equal (lookup j)) in Hxs. pose proof (lookup_lt_Some _ _ _ Hx) as Hj. rewrite list_lookup_fmap, Hx, shard_first_lookup in Hxs by lia. injection Hxs as Hxs.
    rewrite (columns_to_rows_val x n k) by (try lia; by rewrite Hwx). rewrite Hxs. unfold slices. rewrite Hd. cbn [tail numel foldr rows]. rewrite Nat.mul_1_r.
    do 2 f_equal. destruct Ha as [Hl _]. rewrite Hd in Hl. cbn in Hl. rewrite (length_piece m n); [done|lia|lia]. }
  assert (Hlz : length zs = n) by (unfold zs; by rewrite length_fmap). assert (Hzs : Forall (shaped [n * m] k) (val <$> zs)).
  { unfold zs. apply Forall_fmap, Forall_fmap. eapply Forall_impl; [exact Hsh|]. intros x Hx. cbn. pose proof (columns_to_rows_shaped x n k [m] Hn0 Hk) as Hc.
    cbn in Hc. rewrite Nat.mul_1_r in Hc. apply Hc. by rewrite <- Hw. }
  pose proof (all_to_all_spec zs m [] k) as Hr. rewrite Hlz in Hr. specialize (Hr ltac:(by destruct zs; cbn in Hlz; [lia|]) Hzs).
  unfold shard_last. eapply eq_rect; [exact Hr|]. apply list_fmap_ext. intros i j Hj%lookup_seq. destruct Hj as [-> Hi]. cbn in Hi |- *.
  assert (Hp : Forall (shaped [m] k) (slices m i <$> (val <$> zs))).
  { apply Forall_fmap. eapply Forall_impl; [exact Hzs|]. intros a (Hda & Hwa & Hwfa). pose proof (shard_first_shaped n m [] a Hwfa Hda) as Hf.
    rewrite Forall_lookup in Hf. rewrite <- Hwa. apply (Hf i). by apply shard_first_lookup. }
  assert (Hpne : slices m i <$> (val <$> zs) <> []) by (by destruct zs; cbn in Hlz; [lia|]).
  pose proof (join_first_shaped m [] k _ Hpne Hp) as (HL & HW & _). rewrite !length_fmap, Hlz in HL. apply array_eq; [by rewrite HL, <- Hd|done|].
  cbn [join_first rows columns]. rewrite Hz, <- !list_fmap_compose. rewrite <- (columns_of_slices m n k i X Hd Ha). f_equal. apply list_fmap_ext. intros j' j Hj%lookup_seq.
  destruct Hj as [-> Hj]. cbn [compose slices rows lead tail numel foldr]. rewrite Nat.mul_1_r. destruct Ha as [Hl Hf]. rewrite Hd in Hl. cbn in Hl. rewrite Nat.mul_1_r in Hl.
  pose proof (length_piece m n (rows X) (0 + j') Hl Hj) as Hpl. rewrite <- Hpl at 1. apply slices_columns_to_rows; [|done]. split; [done|]. apply Forall_piece. by rewrite <- Hw.
Qed.
Lemma rows_to_columns_val t n m k : 0 < n -> 0 < m -> 0 < k -> lead (val t) = [n * m] -> width (val t) = k ->
  val (rows_to_columns n t) = Array [m] (n * k) (hcat (pieces m n (rows (val t)))).
Proof.
  intros Hn Hm Hk Hd Hw. unfold rows_to_columns. cbv zeta. assert (Hy := reshape_rows_val t (width (val t)) ltac:(lia) eq_refl).
  set (y := reshape_rows (width (val t)) t) in *. pose proof (val_wf t) as [Hl _]. rewrite Hd in Hl. cbn in Hl. rewrite Nat.mul_1_r in Hl.
  assert (Hdy : lead (val y) = [n * m]) by (by rewrite Hy, <- Hl). unfold first_dim, size. rewrite Hdy. cbn [app hd]. rewrite (Nat.mul_comm n m), Nat.div_mul by lia.
  pose proof (split_first_val y m n [] Hm Hdy) as Hs. fold (shard_first n m (val y)) in Hs. pose proof (shard_first_shaped n m [] (val y) (val_wf y) Hdy) as Hsh.
  assert (Hne : shard_first n m (val y) <> []) by (intros E%(f_equal length); rewrite length_shard_first in E; cbn in E; lia).
  rewrite (cat_last_val _ [m]).
  - rewrite Hs. apply array_eq.
    + by destruct (join_last_shaped [m] (width (val y)) (shard_first n m (val y)) Hne Hsh) as (E & _).
    + destruct (join_last_shaped [m] (width (val y)) (shard_first n m (val y)) Hne Hsh) as (_ & E & _). rewrite E, length_shard_first. cbn. by rewrite Hy, Hw.
    + cbn [join_last rows]. rewrite rows_shard_first, Hdy. cbn. by rewrite Nat.mul_1_r, Hy.
  - intros E. by rewrite E in Hs.
  - apply (Forall_vals (fun a => lead a = [m])). rewrite Hs. eapply Forall_impl; [exact Hsh|]. by intros a (E & _).
Qed.
Lemma hp2sp_spec xs n m k X : length xs = n -> 0 < n -> 0 < m -> 0 < k -> lead X = [n * m] -> width X = n * k -> wf X -> val <$> xs = shard_last n k X ->
  computes (all_to_all_hp2sp xs) (shard_first n m X).
Proof.
  intros Hn Hn0 Hm Hk Hd Hw Ha Hxs. unfold all_to_all_hp2sp, group_size. rewrite Hn. set (zs := (fun t => reshape_rows (width (val t)) t) <$> xs).
  pose proof (shard_last_shaped n k X Ha Hw) as Hsh. rewrite Hd in Hsh.
  assert (Hz : val <$> zs = shard_last n k X).
  { unfold zs. rewrite <- Hxs, <- list_fmap_compose. apply list_fmap_ext. intros j x Hx. cbn. rewrite <- Hxs, Forall_vals, Forall_lookup in Hsh. destruct (Hsh j x Hx) as (Hdx & Hwx & [Hlx _]).
    rewrite reshape_rows_val; [|lia|done]. apply array_eq; cbn; [|done|done]. rewrite Hdx in Hlx |- *. cbn in Hlx. f_equal. lia. }
  assert (Hlz : length zs = n) by (unfold zs; by rewrite length_fmap). assert (Hzs : Forall (shaped [n * m] k) (val <$> zs)) by (by rewrite Hz).
  pose proof (all_to_all_spec zs m [] k) as Hr. rewrite Hlz in Hr. specialize (Hr ltac:(by destruct zs; cbn in Hlz; [lia|]) Hzs).
  eapply computes_bind; [exact Hr|]. intros ys Hys. apply computes_ok. change (map (rows_to_columns n) ys) with (rows_to_columns n <$> ys).
  assert (Hly : length ys = n) by (apply length_vals in Hys; by rewrite Hys, length_fmap, length_seq).
  unfold shard_first. rewrite <- list_fmap_compose. apply fmap_seq_lookup; [done|]. intros i y Hy. pose proof (lookup_lt_Some _ _ _ Hy) as Hi. rewrite Hly in Hi. cbn.
  apply (f_equal (lookup i)) in Hys. rewrite !list_lookup_fmap, Hy, lookup_seq_lt in Hys by done. cbn in Hys. injection Hys as Hys. rewrite Hz in Hys.
  assert (Hp : Forall (shaped [m] k) (slices m i <$> shard_last n k X)).
  { apply Forall_fmap. eapply Forall_impl; [exact Hsh|]. intros a (Hda & Hwa & Hwfa). pose proof (shard_first_shaped n m [] a Hwfa Hda) as Hf.
    rewrite Forall_lookup in Hf. rewrite <- Hwa. apply (Hf i). by apply shard_first_lookup. }
  assert (Hpne : slices m i <$> shard_last n k X <> []) by (intros E%(f_equal length); rewrite length_fmap, length_shard_last in E; cbn in E; lia).
  pose proof (join_first_shaped m [] k _ Hpne Hp) as (HL & HW & _). rewrite length_fmap, length_shard_last in HL. rewrite <- Hys in HL, HW.
  rewrite (rows_to_columns_val y n m k) by done. apply array_eq; cbn [lead width rows slices]; [by rewrite Hd|by rewrite Hw|]. rewrite Hd. cbn [tail numel foldr]. rewrite Nat.mul_1_r.
  rewrite Hys. cbn [join_first rows]. pose proof Ha as [Hl Hf]. rewrite Hd in Hl. cbn in Hl. rewrite Nat.mul_1_r in Hl.
  replace (pieces m n (concat (rows <$> (slices m i <$> shard_last n k X)))) with (hsplit k n (piece m i (rows X))).
  - apply (hcat_hsplit m); [done|]. rewrite <- Hw. by apply (mat_piece m _ n).
  - set (ps := rows <$> (slices m i <$> shard_last n k X)). assert (Hps : ps = hsplit k n (piece m i (rows X))).
    { unfold ps, shard_last, hsplit. rewrite <- !list_fmap_compose. apply list_fmap_ext. intros _ j _. cbn. rewrite Hd. cbn. rewrite Nat.mul_1_r. apply piece_fmap. }
    rewrite <- Hps. replace n with (length ps) at 1 by (rewrite Hps; apply length_hsplit). symmetry. apply pieces_concat. rewrite Hps.
    eapply Forall_impl; [apply (hsplit_mat m); rewrite <- Hw; by apply (mat_piece m _ n)|]. by intros p [].
Qed.
End Collectives.
