(* ===== verification/TorchReference.v ===== *)
(** * A concrete torch

    An instance of the interface: a tensor is its contents with a flag for contiguity.  The examples of the
    tensor-parallel files evaluate on it. *)

From S2P Require Import Prelude Matrix Torch TpMappings TpMappingsProofs.

#[local] Open Scope nat_scope.

Section Reference.
Context {V : Type} `{!Scalar V}.

Definition wfb (a : array V) : bool := (length (rows a) =? numel (lead a)) && forallb (fun r => length r =? width a) (rows a).
Lemma wfb_spec a : wfb a = true <-> wf a.
Proof.
  unfold wfb, wf, mat. rewrite andb_true_iff, Nat.eqb_eq, forallb_forall, List.Forall_forall. split; intros [H1 H2]; (split; [done|]); intros r Hr; by apply Nat.eqb_eq, H2.
Qed.

Definition ref_tensor : Type := array V * bool.
Definition ref_val (t : ref_tensor) : array V := if wfb (fst t) then fst t else Array [0] 0 [].
Definition mk (a : array V) : ref_tensor := (a, true).

Lemma ref_val_wf t : wf (ref_val t).
Proof. unfold ref_val. destruct (wfb (fst t)) eqn:E; [by apply wfb_spec|]. by split. Qed.
Lemma ref_val_ok a b : wf a -> ref_val (a, b) = a.
Proof. intros H%wfb_spec. unfold ref_val. cbn. by rewrite H. Qed.
Lemma ref_vals_ok b l : Forall wf l -> ref_val <$> ((fun a => (a, b)) <$> l) = l.
Proof. induction 1 as [|a l Ha _ IH]; [done|]. cbn. by rewrite (ref_val_ok a b Ha), IH. Qed.

Definition on_all (f : list (array V) -> array V) (ts : list ref_tensor) : list ref_tensor := replicate (length ts) (mk (f (ref_val <$> ts))).
(** The rows of part [i], of [n] slices of the first dimension, that follow those of the parts before *)
Definition part_first (sizes : list nat) (a : array V) (i n : nat) : array V :=
  Array (n :: tail (lead a)) (width a) (take (n * numel (tail (lead a))) (drop (sum_list (take i sizes) * numel (tail (lead a))) (rows a))).

Definition gathered (l : list (array V)) : array V :=
  match l with a :: _ => match lead a with [] => flat (concat (concat (rows <$> l))) | _ :: _ => join_first l end | [] => join_first l end.

#[local] Instance reference : Torch V := {|
  tensor := ref_tensor;
  val := ref_val;
  is_contiguous := snd;
  contiguous t := (fst t, true);
  torch_split k t := (fun i => (columns k i (ref_val t), false)) <$> seq 0 (width (ref_val t) / k);
  torch_split_first k t := (fun i => (slices k i (ref_val t), true)) <$> seq 0 (hd 0 (lead (ref_val t)) / k);
  torch_chunk n t := (fun i => (slices (hd 0 (lead (ref_val t)) / n) i (ref_val t), true)) <$> seq 0 n;
  torch_slice a b t := mk (let v := ref_val t in
    Array (b - a :: tail (lead v)) (width v) (take ((b - a) * numel (tail (lead v))) (drop (a * numel (tail (lead v))) (rows v))));
  cat_last ts := mk (join_last (ref_val <$> ts));
  cat_first ts := mk (join_first (ref_val <$> ts));
  reshape_rows w t := mk (Array [length (rows (ref_val t))] w (rows (ref_val t)));
  reshape d w t := mk (Array d w (rows (ref_val t)));
  view_1d t := mk (flat (concat (rows (ref_val t))));
  slice_1d a b t := mk (flat (take (b - a) (drop a (default [] (head (rows (ref_val t)))))));
  all_reduce := on_all sum_arrays;
  all_gather_into_tensor := on_all gathered;
  reduce_scatter_tensor ts := let s := sum_arrays (ref_val <$> ts) in
    (fun i => mk (slices (hd 0 (lead s) / length ts) i s)) <$> seq 0 (length ts);
  all_gather _ := on_all join_first;
  reduce_scatter sizes ts := imap (fun i n => mk (part_first sizes (sum_arrays (ref_val <$> ts)) i n)) sizes;
  all_to_all_single ts :=
    let m := default 0 ((fun t => hd 0 (lead (ref_val t)) / length ts) <$> head ts) in
    (fun i => mk (join_first ((fun t => slices m i (ref_val t)) <$> ts))) <$> seq 0 (length ts)
|}.

Lemma flat_wf (l : list V) : wf (flat l).
Proof. split; [done|]. by constructor. Qed.
Lemma shaped_wf d w (a : array V) : shaped d w a -> wf a.
Proof. by intros (_ & _ & H). Qed.
Lemma head_lead d w (ts : list ref_tensor) : ts <> [] -> Forall (shaped d w ∘ ref_val) ts -> exists t ts', ts = t :: ts' /\ lead (ref_val t) = d.
Proof. intros Hne Hs. destruct Hs as [|t ts (Hd & _) _]; [done|]. by exists t, ts. Qed.
Lemma vals_shaped (P : array V -> Prop) (ts : list ref_tensor) : Forall (P ∘ ref_val) ts -> Forall P (ref_val <$> ts).
Proof. apply Forall_fmap. Qed.
Lemma row_join_wf d w (l : list (array V)) : l <> [] -> Forall (row_shaped d w) l -> wf (join_first l).
Proof.
  intros Hne Hs. assert (HL : lead (join_first l) = sum_list (map (fun a => hd 0 (lead a)) l) :: d) by (cbn; f_equal; destruct Hs as [|a l (n & Hd & _) _]; [done|]; cbn; by rewrite Hd).
  assert (HW : width (join_first l) = w) by (destruct Hs as [|a l (n & _ & Hw & _) _]; [done|exact Hw]). unfold wf. rewrite HL, HW. cbn [join_first rows]. clear HL HW Hne. split.
  - induction Hs as [|a l (n & Hd & Hw & [Ha _]) _ IH]; [done|]. rewrite Hd in Ha. cbn in *. rewrite length_app, IH, Ha, Hd. cbn. lia.
  - apply Forall_concat, Forall_fmap. eapply Forall_impl; [exact Hs|]. intros a (n & _ & <- & [_ Ha]). exact Ha.
Qed.
Lemma seq_vals (f : nat -> array V) b n : (forall i, i < n -> wf (f i)) -> ref_val <$> ((fun i => (f i, b)) <$> seq 0 n) = f <$> seq 0 n.
Proof.
  intros H. rewrite <- list_fmap_compose. apply list_fmap_ext. intros i j [-> Hj]%lookup_seq. cbn [compose]. by apply ref_val_ok, H.
Qed.
Lemma on_all_val (f : list (array V) -> array V) ts : wf (f (ref_val <$> ts)) -> ref_val <$> on_all f ts = replicate (length ts) (f (ref_val <$> ts)).
Proof. intros H. unfold on_all. rewrite fmap_replicate. f_equal. by apply ref_val_ok. Qed.
Lemma slices_wf n k d (a : array V) i : wf a -> lead a = n * k :: d -> i < n -> wf (slices k i a).
Proof.
  intros Ha Hd Hi. pose proof (shard_first_shaped n k d a Ha Hd) as H. rewrite Forall_lookup in H. eapply shaped_wf, (H i). by apply shard_first_lookup.
Qed.
Lemma columns_wf n k (a : array V) i : wf a -> width a = n * k -> i < n -> wf (columns k i a).
Proof.
  intros Ha Hd Hi. pose proof (shard_last_shaped n k a Ha Hd) as H. rewrite Forall_lookup in H. eapply shaped_wf, (H i). by apply shard_last_lookup.
Qed.
Lemma join_last_wf d (l : list (array V)) : l <> [] -> Forall (fun a => lead a = d /\ wf a) l -> wf (join_last l).
Proof.
  intros Hne Hs. assert (HL : lead (join_last l) = d) by by destruct Hs as [|a l [Hd _] _]. unfold wf. rewrite HL. clear HL. revert l Hne Hs. refine (nonempty_ind _ _ _).
  - intros a [Hd Ha]%Forall_inv. cbn. rewrite Nat.add_0_r, <- Hd. exact Ha.
  - intros a l Hne IH [[Hd Ha] Hl]%Forall_cons. specialize (IH Hl). cbn [join_last width rows fmap list_fmap sum_list] in *. rewrite hcat_cons by by destruct l.
    apply mat_zip_app; [|done]. rewrite <- Hd. exact Ha.
Qed.
Lemma rows_flat (ls : list (list V)) : concat (rows <$> (flat <$> ls)) = ls.
Proof. induction ls as [|l ls IH]; [done|]. cbn. by rewrite IH. Qed.

#[export] Instance reference_laws : TorchLaws V.
Proof.
  split; cbn [val tensor reference].
  - apply ref_val_wf.
  - done.
  - by intros [a b] [= ->].
  - intros t k n Hk Hw. cbn [torch_split reference]. rewrite Hw, Nat.div_mul by lia. apply seq_vals. intros i Hi. apply (columns_wf n); [apply ref_val_wf|done|done].
  - intros t k n d Hk Hd. cbn [torch_split_first reference]. rewrite Hd. cbn [hd]. rewrite Nat.div_mul by lia. apply seq_vals. intros i Hi. apply (slices_wf n k d); [apply ref_val_wf|done|done].
  - intros t k n d Hk Hn Hd. cbn [torch_chunk reference]. rewrite Hd. cbn [hd]. rewrite (Nat.mul_comm n k), Nat.div_mul by lia. apply seq_vals. intros i Hi.
    apply (slices_wf n k d); [apply ref_val_wf|done|done].
  - intros t k n d i Hd Hi. cbn [torch_slice reference]. replace (i * k + k - i * k) with k by lia. rewrite <- Nat.mul_assoc. apply ref_val_ok.
    apply (slices_wf n k d (ref_val t) i); [apply ref_val_wf|done|done].
  - intros ts d Hne Hs. cbn [cat_last reference]. apply ref_val_ok. apply (join_last_wf d); [by destruct ts|]. apply Forall_fmap.
    eapply Forall_impl; [exact Hs|]. intros t Ht. split; [exact Ht|apply ref_val_wf].
  - intros ts d w Hne Hs. cbn [cat_first reference]. apply ref_val_ok. apply (row_join_wf d w); [by destruct ts|]. by apply vals_shaped.
  - intros t w Hw Hwt. cbn [reshape_rows reference]. apply ref_val_ok. pose proof (ref_val_wf t) as [_ Hf]. split; [cbn; lia|]. by rewrite <- Hwt.
  - intros t d w Hwt Hd. cbn [reshape reference]. apply ref_val_ok. pose proof (ref_val_wf t) as [_ Hf]. split; [done|]. by rewrite <- Hwt.
  - intros t. apply ref_val_ok, flat_wf.
  - intros t l a b Ht Ha Hb. cbn [slice_1d reference]. rewrite Ht. apply ref_val_ok, flat_wf.
  - intros ts d w Hne Hs. apply on_all_val. eapply shaped_wf, sum_arrays_shaped; [by destruct ts|by apply vals_shaped].
  - intros ts n d w Hne Hs. apply vals_shaped in Hs. assert (Hg : gathered (ref_val <$> ts) = join_first (ref_val <$> ts)).
    { destruct ts as [|t ts]; [done|]. pose proof (Forall_inv Hs) as (Hd & _). unfold gathered. cbn [fmap list_fmap]. cbn in Hd. by rewrite Hd. }
    cbn [all_gather_into_tensor reference]. rewrite on_all_val; rewrite Hg; [done|]. eapply shaped_wf, (join_first_shaped n d w); [by destruct ts|exact Hs].
  - intros ts n ls Hne E Hl. assert (Hg : gathered (ref_val <$> ts) = flat (concat ls)).
    { rewrite E. destruct ls as [|l ls]; [by destruct ts|]. unfold gathered. cbn [fmap list_fmap flat lead]. do 2 f_equal. clear. rewrite <- (rows_flat (l :: ls)). done. }
    cbn [all_gather_into_tensor reference]. rewrite on_all_val; rewrite Hg; [done|apply flat_wf].
  - intros ts n d w Hne Hs. cbn [reduce_scatter_tensor reference]. apply vals_shaped in Hs. pose proof (sum_arrays_shaped (length ts * n :: d) w (ref_val <$> ts) ltac:(by destruct ts) Hs) as (Hd & _ & Hwf).
    rewrite Hd. cbn [hd]. assert (0 < length ts) by (destruct ts; [done|cbn; lia]). rewrite (Nat.mul_comm (length ts) n), Nat.div_mul by lia. unfold mk. apply seq_vals.
    intros i Hi. by apply (slices_wf (length ts) n d).
  - intros ts sizes d w Hne Hs. cbn [all_gather reference]. apply on_all_val. apply (row_join_wf d w); [by destruct ts|]. apply vals_shaped.
    induction Hs as [|n t sizes ts Ht _ IH]; [constructor|]. constructor; [by exists n|]. destruct ts; [constructor|by apply IH].
  - intros ts sizes d w Hne Hl Hs. cbn [reduce_scatter reference]. apply vals_shaped in Hs. pose proof (sum_arrays_shaped (sum_list sizes :: d) w (ref_val <$> ts) ltac:(by destruct ts) Hs) as (Hd & Hw & [Hr Hf]).
    set (A := sum_arrays (ref_val <$> ts)) in *. rewrite Hd in Hr. clearbody A. apply list_eq_same_length with (length sizes); [by rewrite length_imap|by rewrite length_fmap, length_imap|].
    intros i x y Hi Hx Hy. rewrite list_lookup_imap in Hy. rewrite list_lookup_fmap, list_lookup_imap in Hx. destruct (sizes !! i) as [n|] eqn:En; [|done]. cbn in Hx, Hy.
    injection Hy as <-. injection Hx as <-. unfold mk, part_first. rewrite Hd, Hw. cbn [tail]. apply ref_val_ok. split; cbn [lead width rows].
    + rewrite length_take, length_drop, Hr. cbn. fold (numel d). assert (sum_list (take i sizes) + n <= sum_list sizes).
      { rewrite <- (take_drop_middle sizes i n En) at 2. rewrite sum_list_with_app. cbn. lia. }
      rewrite <- Nat.mul_sub_distr_r. apply Nat.min_l, Nat.mul_le_mono_r. lia.
    + rewrite <- Hw. by apply Forall_take, Forall_drop.
  - intros ts n d w Hne Hs. cbn [all_to_all_single reference]. apply vals_shaped in Hs. assert (H0 : 0 < length ts) by (destruct ts; [done|cbn; lia]).
    replace (default 0 ((fun t => hd 0 (lead (ref_val t)) / length ts) <$> head ts)) with n.
    + unfold mk. apply seq_vals. intros i Hi. apply (row_join_wf d w); [by destruct ts|]. apply Forall_fmap. rewrite Forall_fmap in Hs. eapply Forall_impl; [exact Hs|].
      intros t (Hd & Hw & Ha). exists n. split_and!; [cbn; by rewrite Hd|done|]. by apply (slices_wf (length ts) n d).
    + destruct ts as [|t ts]; [done|]. cbn [head fmap option_fmap option_map default]. apply Forall_inv in Hs as (Hd & _). rewrite Hd. cbn [hd]. by rewrite Nat.mul_comm, Nat.div_mul by lia.
Qed.
End Reference.

(** Integers as elements *)
Definition Z_scalar : Scalar Z := {| s_zero := 0%Z; s_add := Z.add; s_mul := Z.mul |}.
Lemma Z_scalar_laws : @ScalarLaws Z Z_scalar.
Proof. split; cbn; intros; lia. Qed.
