(* ===== verification/TpMappingsTheorems.v ===== *)
(** * Tensor-parallel regions: theorems

    Scattering and gathering are inverse, a reduce-scatter followed by a gather is a reduction, the two all-to-all
    transformations exchange the shards of the sequence for shards of the hidden dimension; and two places where
    values are lost silently. *)

From S2P Require Import Prelude Matrix Torch TpMappings TpMappingsProofs TorchReference.

#[local] Open Scope nat_scope.

Section Theorems.
Context {V : Type} `{!Scalar V, !ScalarLaws V, !Torch V, !TorchLaws V, !BytepsSum V, !BytepsSumLaw V}.
Implicit Types (xs : list tensor) (n k m w : nat) (X : array V).

Lemma split_replicated xs n k X : length xs = n -> 0 < k -> wf X -> width X = n * k -> val <$> xs = replicate n X ->
  computes (split_along_last_dim xs) (shard_last n k X).
Proof.
  intros Hn Hk Ha Hw Hxs. pose proof (split_last_spec xs n k Hn Hk) as H. rewrite Hxs, imap_replicate in H. apply H. by apply Forall_replicate.
Qed.
Lemma split_first_replicated xs n k d X : length xs = n -> wf X -> lead X = n * k :: d -> val <$> xs = replicate n X ->
  computes (split_along_first_dim xs) (shard_first n k X).
Proof.
  intros Hn Ha Hd Hxs. pose proof (split_first_spec xs n k d Hn) as H. rewrite Hxs, imap_replicate in H. apply H. by apply Forall_replicate.
Qed.
Lemma gather_shards xs n k m d X : length xs = n -> 0 < n -> 0 < m -> wf X -> width X = n * k -> lead X = m :: d -> val <$> xs = shard_last n k X ->
  computes (gather_along_last_dim xs) (replicate n X).
Proof.
  intros Hn Hn0 Hm Ha Hw Hd Hxs. pose proof (gather_last_spec xs m d k) as H. rewrite Hxs, Hn, join_shard_last in H by done. apply H; [|done|].
  - intros ->. cbn in Hn. lia.
  - rewrite <- Hd. by apply shard_last_shaped.
Qed.
Lemma gather_first_shards xs n k d X : length xs = n -> 0 < n -> wf X -> lead X = n * k :: d -> val <$> xs = shard_first n k X ->
  computes (gather_along_first_dim None xs) (replicate n X).
Proof.
  intros Hn Hn0 Ha Hd Hxs. pose proof (gather_first_spec xs k d (width X)) as H. rewrite Hxs, Hn, (join_shard_first n k d) in H by done. apply H.
  - intros ->. cbn in Hn. lia.
  - by apply (shard_first_shaped n k d).
Qed.
Lemma vals_length xs n l : val <$> xs = l -> length l = n -> length xs = n.
Proof. intros <-. by rewrite length_fmap. Qed.

(** Scattering a tensor that all ranks have and gathering the parts gives the tensor to every rank, and gathering
    parts and scattering the result gives every rank its part, along the last dimension and along the first. (C27) *)
Theorem scatter_gather_roundtrip n k m d X xs : 0 < n -> 0 < k -> 0 < m -> wf X -> width X = n * k -> lead X = n * m :: d ->
  (val <$> xs = replicate n X ->
     computes (split_along_last_dim xs ≫= gather_along_last_dim) (replicate n X) /\
     computes (split_along_first_dim xs ≫= gather_along_first_dim None) (replicate n X)) /\
  (val <$> xs = shard_last n k X -> computes (gather_along_last_dim xs ≫= split_along_last_dim) (shard_last n k X)) /\
  (val <$> xs = shard_first n m X -> computes (gather_along_first_dim None xs ≫= split_along_first_dim) (shard_first n m X)).
Proof.
  intros Hn Hk Hm Ha Hw Hd. split_and!.
  - intros Hxs. pose proof (vals_length _ n _ Hxs (length_replicate _ _)) as Hl. split.
    + eapply computes_bind; [by apply (split_replicated xs n k)|]. intros ys Hys. apply (gather_shards ys n k (n * m) d); try done; [by rewrite (length_vals _ _ Hys), length_shard_last|nia].
    + eapply computes_bind; [by apply (split_first_replicated xs n m d)|]. intros ys Hys. apply (gather_first_shards ys n m d); try done. by rewrite (length_vals _ _ Hys), length_shard_first.
  - intros Hxs. eapply computes_bind; [apply (gather_shards xs n k (n * m) d X); try done; [by rewrite (length_vals _ _ Hxs), length_shard_last|nia]|].
    intros ys Hys. apply split_replicated; try done. by rewrite (length_vals _ _ Hys), length_replicate.
  - intros Hxs. eapply computes_bind; [apply (gather_first_shards xs n m d X); try done; by rewrite (length_vals _ _ Hxs), length_shard_first|].
    intros ys Hys. apply (split_first_replicated ys n m d); try done. by rewrite (length_vals _ _ Hys), length_replicate.
Qed.

(** A reduce-scatter followed by a gather gives every rank the sum of the ranks, as the all-reduce and the BytePS reduction of
    contiguous tensors do, along both dimensions. *)
Theorem reduce_scatter_gather n k m d xs : length xs = n -> 0 < n -> 0 < k -> 0 < m -> Forall (shaped (n * m :: d) (n * k)) (val <$> xs) ->
  let sum := replicate n (sum_arrays (val <$> xs)) in
  computes (reduce_scatter_along_first_dim None xs ≫= gather_along_first_dim None) sum /\
  computes (reduce_scatter_along_last_dim xs ≫= gather_along_last_dim) sum /\
  (Forall (fun t => is_contiguous t = true) xs -> computes (bps_reduce xs) sum /\ computes (reduce xs) sum).
Proof.
  intros Hl Hn Hk Hm Hs sum. assert (Hne : xs <> []) by (intros ->; cbn in Hl; lia). assert (Hne' : val <$> xs <> []) by by destruct xs.
  pose proof (sum_arrays_shaped _ _ _ Hne' Hs) as (Hd & Hw & Ha). rewrite <- Hl in Hs. split_and!.
  - eapply computes_bind; [by eapply reduce_scatter_first_spec|]. intros ys Hys. rewrite Hl in Hys. apply (gather_first_shards ys n m d); try done.
    by rewrite (length_vals _ _ Hys), length_shard_first.
  - eapply computes_bind; [by apply (reduce_scatter_last_spec xs k (length xs * m :: d))|]. intros ys Hys. rewrite Hl in Hys.
    apply (gather_shards ys n k (n * m) d); try done; [by rewrite (length_vals _ _ Hys), length_shard_last|nia].
  - intros Hc. unfold sum. rewrite <- Hl. split; [by eapply bps_reduce_spec|by eapply reduce_spec].
Qed.

(** [all_to_all_sp2hp] turns shards of the sequence into shards of the hidden dimension of the same tensor, and
    [all_to_all_hp2sp] turns them back. *)
Theorem all_to_all_transposes n k m X xs : 0 < n -> 0 < k -> 0 < m -> wf X -> lead X = [n * m] -> width X = n * k ->
  (val <$> xs = shard_first n m X -> computes (all_to_all_sp2hp xs) (shard_last n k X) /\ computes (all_to_all_sp2hp xs ≫= all_to_all_hp2sp) (val <$> xs)) /\
  (val <$> xs = shard_last n k X -> computes (all_to_all_hp2sp xs) (shard_first n m X) /\ computes (all_to_all_hp2sp xs ≫= all_to_all_sp2hp) (val <$> xs)).
Proof.
  intros Hn Hk Hm Ha Hd Hw. split; intros Hxs.
  - assert (Hl : length xs = n) by by rewrite (length_vals _ _ Hxs), length_shard_first. pose proof (sp2hp_spec xs n m k X Hl Hn Hk Hd Hw Ha Hxs) as H. split; [done|].
    eapply computes_bind; [exact H|]. intros ys Hys. rewrite Hxs. apply (hp2sp_spec ys n m k X); try done. by rewrite (length_vals _ _ Hys), length_shard_last.
  - assert (Hl : length xs = n) by by rewrite (length_vals _ _ Hxs), length_shard_last. pose proof (hp2sp_spec xs n m k X Hl Hn Hm Hk Hd Hw Ha Hxs) as H. split; [done|].
    eapply computes_bind; [exact H|]. intros ys Hys. rewrite Hxs. apply (sp2hp_spec ys n m k X); try done. by rewrite (length_vals _ _ Hys), length_shard_first.
Qed.

Lemma mapR_some_raise {A B} (f : A -> res B) e l : (forall x, x ∈ l -> (exists y, f x = Ok y) \/ f x = Err e) -> Exists (fun x => f x = Err e) l -> mapR f l = Err e.
Proof.
  intros H Hex. induction Hex as [x l Hx|x l _ IH]; cbn [mapR]; [by rewrite Hx|]. destruct (H x ltac:(left)) as [[y ->]| ->]; [|done]. cbn.
  by rewrite IH by (intros z Hz; apply H; by right).
Qed.
Lemma Exists_zip_seq {A} (P : A -> Prop) s (l : list A) : Exists P l -> Exists (fun p => P (snd p)) (zip (seq s (length l)) l).
Proof. intros H. revert s. induction H as [x l Hx|x l _ IH]; intros s; cbn; [by left|]. right. apply IH. Qed.

(** [_reduce] gives the sum to the ranks whose tensor is contiguous; a rank whose tensor is not keeps its own values.  The BytePS
    reduction raises instead. (C29) *)
Theorem reduce_keeps_strided xs d w : 1 < length xs -> Forall (shaped d w) (val <$> xs) ->
  computes (reduce xs) ((fun x => if is_contiguous x then sum_arrays (val <$> xs) else val x) <$> xs) /\
  (Exists (fun x => is_contiguous x = false) xs -> bps_reduce xs = raise_ ValueError "Tensor is required to be contiguous.").
Proof.
  intros Hl Hs. split; cycle 1.
  { intros Hx. unfold bps_reduce, group_size, on_ranks, raise_. destruct (Nat.eqb_spec (length xs) 1); [lia|]. erewrite mapR_some_raise; [done| |].
    - intros [i t] _. cbn. destruct (is_contiguous t); [left; by eexists|by right].
    - eapply Exists_impl; [by apply Exists_zip_seq|]. intros [i t] Ht. cbn in *. by rewrite Ht. }
  unfold reduce, group_size. destruct (Nat.eqb_spec (length xs) 1); [lia|]. apply computes_ok.
  pose proof (all_reduce_val (contiguous <$> xs) d w) as Hr. rewrite contiguous_vals, length_fmap in Hr.
  specialize (Hr ltac:(destruct xs; [cbn in Hl; lia|done]) (Forall_contiguous _ _ Hs)). revert Hr. generalize (all_reduce (contiguous <$> xs)) as ys.
  generalize (sum_arrays (val <$> xs)) as s. clear. intros s. induction xs as [|x xs IH]; intros [|y ys] E; try done. cbn in E. injection E as Ey Eys. cbn. rewrite (IH ys Eys). f_equal.
  by destruct (is_contiguous x).
Qed.

(** Chunks of a flattened tensor that are gathered again give the first [world_size * (numel // world_size)] elements: the
    remainder of a size that is not divisible is lost. *)
Theorem gather_1d_chunks X xs : xs <> [] -> wf X -> val <$> xs = replicate (length xs) X ->
  let elems := concat (rows X) in
  exists ys, split_tensor_into_1d_equal_chunks xs = Ok ys /\
    val <$> gather_split_1d_tensor ys = replicate (length xs) (flat (take (length xs * (length elems / length xs)) elems)).
Proof.
  intros Hne Ha Hxs elems. set (n := length xs) in *. set (p := length elems / n). assert (Hn : 0 < n) by (unfold n; destruct xs; [done|cbn; lia]).
  assert (Hp : n * p <= length elems) by apply Nat.Div0.mul_div_le.
  assert (Hsize : forall i x, xs !! i = Some x -> val x = X).
  { intros i x Hx. apply (f_equal (lookup i)) in Hxs. rewrite list_lookup_fmap, Hx, lookup_replicate_2 in Hxs by by apply lookup_lt_Some in Hx. by injection Hxs. }
  assert (Hnum : forall x : tensor, val x = X -> numel (size x) = length elems).
  { intros x Hv. destruct Ha as [Hr Hf]. unfold elems, size. rewrite Hv. rewrite (length_concat_same (width X)) by done. rewrite Hr. unfold numel. rewrite foldr_app. cbn.
    generalize (width X) as w. intros w. rewrite Nat.mul_1_r. clear. induction (lead X) as [|a l IH]; cbn; [lia|]. rewrite IH. lia. }
  destruct (on_ranks_ok (fun rank t => let partition_size := numel (size t) / n in mret (slice_1d (partition_size * rank) (partition_size * rank + partition_size) (view_1d t)))
    (fun i x y => val y = flat (piece p i elems)) xs) as (ys & E & Hlen & Hys).
  { intros i x Hx. pose proof (lookup_lt_Some _ _ _ Hx) as Hi. pose proof (Hsize i x Hx) as Hv. cbv zeta. rewrite (Hnum x Hv). fold p. eexists. split; [done|].
    rewrite (slice_1d_val _ elems); [|by rewrite view_1d_val, Hv|lia|fold n in Hi; nia]. unfold piece. do 3 f_equal; lia. }
  exists ys. split; [done|]. unfold gather_split_1d_tensor. rewrite (all_gather_1d_val ys p (pieces p n elems)).
  - rewrite Hlen. fold n. do 2 f_equal. assert (Ht : pieces p n elems = pieces p n (take (n * p) elems)).
    { unfold pieces. apply list_fmap_ext. intros i j [-> Hj]%lookup_seq. unfold piece. rewrite <- (take_drop (n * p) elems) at 1. rewrite drop_app_le by (rewrite length_take; cbn; nia).
      apply take_app_le. rewrite length_drop, length_take. cbn. nia. }
    rewrite Ht. apply concat_pieces. rewrite length_take. lia.
  - intros ->. cbn in Hlen. lia.
  - apply list_eq_same_length with n; [by rewrite length_fmap, length_pieces|by rewrite length_fmap|]. intros i a b Hi Hy Hb. rewrite list_lookup_fmap, pieces_lookup in Hb by done. cbn in Hb.
    rewrite list_lookup_fmap in Hy. destruct (ys !! i) as [y|] eqn:Ey; [|done]. cbn in Hy. injection Hy as <-. injection Hb as <-.
    destruct (xs !! i) as [x|] eqn:Ex; [|apply lookup_ge_None in Ex; fold n in Ex; lia]. by apply (Hys i x y).
  - apply Forall_lookup. intros i l Hl'. pose proof (lookup_lt_Some _ _ _ Hl') as Hi. rewrite length_pieces in Hi. rewrite pieces_lookup in Hl' by done. injection Hl' as <-.
    unfold piece. rewrite length_take, length_drop. nia.
Qed.
End Theorems.

(* ================================================================== *)
(** ** Examples                                                        *)
(* ================================================================== *)

Module Example_.
#[local] Existing Instances Z_scalar Z_scalar_laws reference.
#[local] Instance Z_push_pull : BytepsSum Z := all_reduce.
#[local] Instance Z_push_pull_law : BytepsSumLaw Z.
Proof. exact all_reduce_val. Qed.

Definition X : array Z := Array [4] 4 [[1;2;3;4]; [5;6;7;8]; [9;10;11;12]; [13;14;15;16]]%Z.
Definition Y : array Z := Array [4] 4 [[1;0;0;0]; [0;1;0;0]; [0;0;1;0]; [0;0;0;1]]%Z.
Definition tens (a : array Z) : tensor := (a, true).
Definition view (a : array Z) : tensor := (a, false).
Lemma X_wf : wf X.
Proof. by apply wfb_spec. Qed.
Lemma Y_wf : wf Y.
Proof. by apply wfb_spec. Qed.

Lemma scatter_gather_roundtrip_witness :
  let xs := [tens X; tens X] in
  computes (split_along_last_dim xs ≫= gather_along_last_dim) (replicate 2 X) /\
  computes (split_along_first_dim xs ≫= gather_along_first_dim None) (replicate 2 X).
Proof.
  cbv zeta. apply (scatter_gather_roundtrip 2 2 2 [] X [tens X; tens X]); [lia|lia|lia|exact X_wf|done|done|done].
Defined.

Lemma reduce_scatter_gather_witness :
  computes (reduce_scatter_along_last_dim [tens X; tens Y] ≫= gather_along_last_dim) (replicate 2 (sum_arrays [X; Y])).
Proof.
  destruct (reduce_scatter_gather 2 2 2 [] [tens X; tens Y]) as (_ & H & _); [done|lia|lia|lia| |exact H].
  constructor; [split_and!; [done|done|exact X_wf]|]. constructor; [split_and!; [done|done|exact Y_wf]|constructor].
Defined.

Lemma all_to_all_transposes_witness :
  let xs := tens <$> shard_first 2 2 X in computes (all_to_all_sp2hp xs) (shard_last 2 2 X) /\ computes (all_to_all_sp2hp xs ≫= all_to_all_hp2sp) (shard_first 2 2 X).
Proof.
  cbv zeta. destruct (all_to_all_transposes 2 2 2 X (tens <$> shard_first 2 2 X)) as [H _]; [lia|lia|lia|exact X_wf|done|done|]. exact (H eq_refl).
Defined.

(** The second rank has a view of columns. *)
Lemma reduce_keeps_strided_witness : computes (reduce [tens X; view Y]) [sum_arrays [X; Y]; Y] /\
  bps_reduce [tens X; view Y] = raise_ ValueError "Tensor is required to be contiguous.".
Proof.
  destruct (reduce_keeps_strided [tens X; view Y] [4] 4) as [H1 H2]; [cbn; lia| |].
  - constructor; [split_and!; [done|done|exact X_wf]|]. constructor; [split_and!; [done|done|exact Y_wf]|constructor].
  - split; [exact H1|]. apply H2. right. by left.
Defined.

(** Sixteen elements on three ranks: the last one is lost. *)
Lemma gather_1d_chunks_witness : exists ys, split_tensor_into_1d_equal_chunks [tens X; tens X; tens X] = Ok ys /\
  val <$> gather_split_1d_tensor ys = replicate 3 (flat [1;2;3;4;5;6;7;8;9;10;11;12;13;14;15]%Z).
Proof.
  apply (gather_1d_chunks X [tens X; tens X; tens X]); [done|exact X_wf|done].
Defined.
End Example_.
