(* ===== verification/TpLinear.v ===== *)
(** * Tensor-parallel linear layers

    [megatron/core/tensor_parallel/layers.py]: the linear operators with their backward passes, [ColumnParallelLinear]
    and [RowParallelLinear], on all ranks of the tensor-parallel group. *)

From S2P Require Import Prelude Matrix Torch TpMappings.

#[local] Open Scope nat_scope.

(* ================================================================== *)
(** ** Operations of torch                                             *)
(* ================================================================== *)

Class TorchLinear (V : Type) `{!Torch V} := {
  (** [torch.matmul(x, w.t())], [g.matmul(w)], [g.t().matmul(x)] *)
  matmul_t : tensor -> tensor -> tensor;
  matmul : tensor -> tensor -> tensor;
  t_matmul : tensor -> tensor -> tensor;
  (** [output + bias], [g.sum(dim=0)], [t.view(s0 * s1, s2)] *)
  add_bias : tensor -> tensor -> tensor;
  sum_rows : tensor -> tensor;
  view_2d : tensor -> tensor;
  (** [fused_weight_gradient_mlp_cuda.wgrad_gemm_accum_...(total_input, grad_output, main_grad)]: [main_grad] afterwards *)
  wgrad_gemm_accum : tensor -> tensor -> tensor -> tensor
}.

Section Arrays.
Context {V : Type} `{!Scalar V}.
Definition a_mmT (x w : array V) : array V := Array (lead x) (hd 0 (lead w)) (mmT (rows x) (rows w)).
Definition a_mm (g w : array V) : array V := Array (lead g) (width w) (mm (width w) (rows g) (rows w)).
Definition a_tmm (g x : array V) : array V := Array [width g] (width x) (tmm (width g) (width x) (rows g) (rows x)).
Definition a_addrow (b : list V) (o : array V) : array V := Array (lead o) (width o) (addrow b (rows o)).
Definition a_colsum (g : array V) : list V := colsum (width g) (rows g).
Definition a_add (x y : array V) : array V := Array (lead x) (width x) (madd (rows x) (rows y)).
(** All dimensions but the last in one *)
Definition flatten_lead (a : array V) : array V := Array [length (rows a)] (width a) (rows a).
End Arrays.

Class TorchLinearLaws (V : Type) `{!Scalar V, !Torch V, !TorchLinear V} : Prop := {
  matmul_t_val : forall x w o, lead (val w) = [o] -> width (val x) = width (val w) -> val (matmul_t x w) = a_mmT (val x) (val w);
  matmul_t_contiguous : forall x w, is_contiguous (matmul_t x w) = true;
  matmul_val : forall g w, lead (val w) = [width (val g)] -> val (matmul g w) = a_mm (val g) (val w);
  matmul_contiguous : forall g w, is_contiguous (matmul g w) = true;
  t_matmul_val : forall g x m, lead (val g) = [m] -> lead (val x) = [m] -> val (t_matmul g x) = a_tmm (val g) (val x);
  add_bias_val : forall o b l, val b = flat l -> length l = width (val o) -> val (add_bias o b) = a_addrow l (val o);
  sum_rows_val : forall g m, lead (val g) = [m] -> val (sum_rows g) = flat (a_colsum (val g));
  view_2d_val : forall t a b, lead (val t) = [a; b] -> val (view_2d t) = flatten_lead (val t);
  wgrad_gemm_accum_val : forall x g acc m, lead (val g) = [m] -> lead (val x) = [m] -> lead (val acc) = [width (val g)] -> width (val acc) = width (val x) ->
    val (wgrad_gemm_accum x g acc) = a_add (val acc) (a_tmm (val g) (val x))
}.

(* ================================================================== *)
(** ** The linear operators                                            *)
(* ================================================================== *)

Section Linear.
Context {V : Type} `{!Scalar V, !Torch V, !TorchLinear V, !BytepsSum V}.

(** What an operator gets on a rank: the input, the parameters and what is attached to the weight *)
Record operands := mkOperands {
  input : tensor;
  weight : tensor;
  bias : option tensor;
  main_grad : option tensor;
  has_grad_added_to_main_grad : bool
}.

(** The flags, which are the same on all ranks; [weight_requires_grad] chooses the operator. *)
Record linear_op := mkOp {
  weight_requires_grad : bool;
  gradient_accumulation_fusion : bool;
  allreduce_dgrad : bool;
  sequence_parallel : bool
}.

(** The gradient that is returned for the weight: a gradient, the dummy of a fused accumulation, or [None] *)
Inductive weight_grad := WGrad (t : tensor) | WDummy | WNone.
Record gradients := mkGradients {
  grad_input : tensor;
  grad_weight : weight_grad;
  grad_bias : option tensor;
  main_grad_after : option tensor
}.

Definition plus_bias (output : tensor) (b : option tensor) : tensor := match b with Some b => add_bias output b | None => output end.
Definition matmul_bias (total_input : tensor) (o : operands) : tensor := plus_bias (matmul_t total_input (weight o)) (bias o).

(** [LinearWithFrozenWeight] with the gather of [linear_with_frozen_weight] *)
Definition frozen_forward (op : linear_op) (ranks : list operands) : res (list tensor) :=
  inputs ← (if sequence_parallel op then forward (gather_from_sequence_parallel_region true None) (map input ranks) else mret (map input ranks));
  mret (zip_with matmul_bias inputs ranks).
Definition frozen_backward (op : linear_op) (ranks : list operands) (grad_outputs : list tensor) : res (list gradients) :=
  let grad_inputs := zip_with (fun g o => matmul g (weight o)) grad_outputs ranks in
  let grad_inputs := if allreduce_dgrad op then all_reduce grad_inputs else grad_inputs in
  grad_inputs ← (if sequence_parallel op then backward (gather_from_sequence_parallel_region true None) grad_inputs else mret grad_inputs);
  mret (zip_with (fun g o => mkGradients g WNone None (main_grad o)) grad_inputs ranks).

(** [LinearWithGradAccumulationAndAsyncCommunication.forward] *)
Definition total_inputs (op : linear_op) (ranks : list operands) : list tensor :=
  if sequence_parallel op then all_gather_into_tensor (map input ranks) else map input ranks.
Definition accumulating_forward (op : linear_op) (ranks : list operands) : res (list tensor) :=
  mret (zip_with matmul_bias (total_inputs op ranks) ranks).

(** [prepare_input_tensors_for_wgrad_compute] *)
Definition prepare_input_tensors_for_wgrad_compute (grad_output all_gathered_input : tensor) : tensor * tensor :=
  let grad_output := contiguous grad_output in
  let all_gathered_input := contiguous all_gathered_input in
  if length (size grad_output) =? 3 then (view_2d grad_output, view_2d all_gathered_input) else (grad_output, all_gathered_input).

(** The weight and bias gradients of a rank *)
Definition weight_gradients (op : linear_op) (o : operands) (grad_input_ grad_output total_input : tensor) : res gradients :=
  let '(grad_output, total_input) := prepare_input_tensors_for_wgrad_compute grad_output total_input in
  let grad_bias := match bias o with Some _ => Some (sum_rows grad_output) | None => None end in
  if gradient_accumulation_fusion op then
    match main_grad o with
    | None => raise_ AttributeError "'NoneType' object has no attribute 'dtype'"
    | Some acc => mret (mkGradients grad_input_ (if has_grad_added_to_main_grad o then WDummy else WNone) grad_bias
                    (Some (wgrad_gemm_accum total_input grad_output acc)))
    end
  else mret (mkGradients grad_input_ (WGrad (t_matmul grad_output total_input)) grad_bias (main_grad o)).

(** [LinearWithGradAccumulationAndAsyncCommunication.backward] *)
Definition accumulating_backward (op : linear_op) (ranks : list operands) (grad_outputs : list tensor) : res (list gradients) :=
  let grad_inputs := zip_with (fun g o => matmul g (weight o)) grad_outputs ranks in
  let grad_inputs := if allreduce_dgrad op then all_reduce grad_inputs else grad_inputs in
  grad_inputs ← (if sequence_parallel op then assert_ (negb (allreduce_dgrad op)) "not ctx.allreduce_dgrad";; mret (reduce_scatter_tensor grad_inputs)
                 else mret grad_inputs);
  mapR (fun p => let '(o, (grad_input_, (grad_output, total_input))) := p in weight_gradients op o grad_input_ grad_output total_input)
    (zip ranks (zip grad_inputs (zip grad_outputs (total_inputs op ranks)))).

(** [_forward_impl] *)
Definition linear_forward (op : linear_op) (ranks : list operands) : res (list tensor) :=
  if weight_requires_grad op then accumulating_forward op ranks else frozen_forward op ranks.
Definition linear_backward (op : linear_op) (ranks : list operands) (grad_outputs : list tensor) : res (list gradients) :=
  if weight_requires_grad op then accumulating_backward op ranks grad_outputs else frozen_backward op ranks grad_outputs.

(* ================================================================== *)
(** ** The layers                                                      *)
(* ================================================================== *)

(** The fields of [ModelParallelConfig] that the layers read; [fusion_available] is [_grad_accum_fusion_available]. *)
Record config := mkConfig {
  cfg_sequence_parallel : bool;
  cfg_expert_parallel : bool;
  cfg_gradient_accumulation_fusion : bool;
  cfg_use_dpu_tp_reduce : bool;
  fusion_available : bool
}.

(** The parameters of a layer on a rank *)
Record parameters := mkParameters {
  p_weight : option tensor;
  p_bias : option tensor;
  p_main_grad : option tensor;
  p_has_grad_added : bool
}.

(** *** [ColumnParallelLinear] *)
Record column_linear := mkColumn {
  cl_input_size : nat;
  cl_gather_output : bool;
  cl_skip_bias_add : bool;
  cl_disable_grad_reduce : bool;
  cl_explicit_expert_comm : bool;
  cl_output_size_per_partition : nat;
  cl_sequence_parallel : bool;
  cl_allreduce_dgrad : bool;
  cl_gradient_accumulation_fusion : bool
}.

Definition column_init (cfg : config) (world_size input_size output_size : nat) (gather_output skip_bias_add is_expert disable_grad_reduce : bool) : res column_linear :=
  output_size_per_partition ← divide output_size world_size;
  let sequence_parallel_ := if cfg_sequence_parallel cfg && (world_size <=? 1) then false else cfg_sequence_parallel cfg in
  let allreduce_dgrad_ := (1 <? world_size) && negb sequence_parallel_ && negb disable_grad_reduce in
  (if cfg_gradient_accumulation_fusion cfg && negb (fusion_available cfg) then raise_ RuntimeError "fused_weight_gradient_mlp_cuda module is not found" else mret tt);;
  (if allreduce_dgrad_ && sequence_parallel_ then raise_ RuntimeError "allreduce_dgrad and sequence_parallel cannot be enabled at the same time" else mret tt);;
  mret (mkColumn input_size gather_output skip_bias_add disable_grad_reduce (is_expert && ((1 <? world_size) || cfg_expert_parallel cfg))
    output_size_per_partition sequence_parallel_ allreduce_dgrad_ (cfg_gradient_accumulation_fusion cfg)).

(** The weight of a rank: its own, or the one given to [forward] *)
Definition column_weight (l : column_linear) (given : option tensor) (p : parameters) : res tensor :=
  match given with
  | None => match p_weight p with Some w => mret w | None => raise_ RuntimeError "weight was not supplied to ColumnParallelLinear forward pass" end
  | Some w => if bool_decide (size w = [cl_output_size_per_partition l; cl_input_size l]) then mret w else raise_ RuntimeError "supplied weight's shape is not as expected"
  end.
Definition column_op (l : column_linear) (requires_grad : bool) : linear_op :=
  mkOp requires_grad (cl_gradient_accumulation_fusion l) (if cl_explicit_expert_comm l then false else cl_allreduce_dgrad l)
    (if cl_explicit_expert_comm l then false else cl_sequence_parallel l).
(** The input is copied to the region unless the layer reduces the input gradient itself or nobody does. *)
Definition column_copies (l : column_linear) : bool :=
  negb (cl_allreduce_dgrad l || cl_sequence_parallel l || cl_explicit_expert_comm l || cl_disable_grad_reduce l).
Definition column_operands (l : column_linear) (given : list (option tensor)) (params : list parameters) (inputs : list tensor) : res (list operands) :=
  weights ← mapR (fun x => column_weight l (fst x) (snd x)) (zip given params);
  inputs ← (if column_copies l then forward copy_to_model_parallel_region inputs else mret inputs);
  mret (zip_with (fun x p => mkOperands (fst x) (snd x) (if cl_skip_bias_add l then None else p_bias p) (p_main_grad p) (p_has_grad_added p)) (zip inputs weights) params).
Definition gathers_output (l : column_linear) (runtime_gather_output : option bool) : bool := default (cl_gather_output l) runtime_gather_output.

(** [ColumnParallelLinear.forward]: the outputs with the biases that are not added *)
Definition column_forward (l : column_linear) (requires_grad : bool) (runtime_gather_output : option bool) (given : list (option tensor)) (params : list parameters)
    (inputs : list tensor) : res (list (tensor * option tensor)) :=
  ranks ← column_operands l given params inputs;
  output_parallel ← linear_forward (column_op l requires_grad) ranks;
  outputs ← (if gathers_output l runtime_gather_output then forward gather_from_model_parallel_region output_parallel else mret output_parallel);
  mret (zip outputs (map (fun p => if cl_skip_bias_add l then p_bias p else None) params)).
(** Its backward pass *)
Definition with_grad_inputs (gs : list gradients) (inputs : list tensor) : list gradients :=
  zip_with (fun g i => mkGradients i (grad_weight g) (grad_bias g) (main_grad_after g)) gs inputs.
Definition column_backward (l : column_linear) (requires_grad : bool) (runtime_gather_output : option bool) (ranks : list operands) (grad_outputs : list tensor) : res (list gradients) :=
  grad_outputs ← (if gathers_output l runtime_gather_output then backward gather_from_model_parallel_region grad_outputs else mret grad_outputs);
  gs ← linear_backward (column_op l requires_grad) ranks grad_outputs;
  inputs ← (if column_copies l then backward copy_to_model_parallel_region (map grad_input gs) else mret (map grad_input gs));
  mret (with_grad_inputs gs inputs).

(** *** [RowParallelLinear] *)
Record row_linear := mkRow {
  rl_input_is_parallel : bool;
  rl_skip_bias_add : bool;
  rl_explicit_expert_comm : bool;
  rl_input_size_per_partition : nat;
  rl_sequence_parallel : bool;
  rl_gradient_accumulation_fusion : bool;
  rl_use_dpu_tp_reduce : bool
}.

Definition row_init (cfg : config) (world_size input_size : nat) (input_is_parallel skip_bias_add is_expert : bool) : res row_linear :=
  (if cfg_sequence_parallel cfg && negb input_is_parallel then raise_ RuntimeError "To enable sequence_parallel, input_is_parallel must be True" else mret tt);;
  input_size_per_partition ← divide input_size world_size;
  mret (mkRow input_is_parallel skip_bias_add (is_expert && ((1 <? world_size) || cfg_expert_parallel cfg)) input_size_per_partition
    (cfg_sequence_parallel cfg) (cfg_gradient_accumulation_fusion cfg) (cfg_use_dpu_tp_reduce cfg)).

Definition row_op (l : row_linear) (requires_grad : bool) : linear_op := mkOp requires_grad (rl_gradient_accumulation_fusion l) false false.
Definition row_weight (p : parameters) : res tensor :=
  match p_weight p with Some w => mret w | None => raise_ AttributeError "'NoneType' object has no attribute 'requires_grad'" end.
Definition row_operands (l : row_linear) (params : list parameters) (inputs : list tensor) : res (list operands) :=
  inputs ← (if rl_input_is_parallel l then mret inputs
            else assert_ (negb (rl_sequence_parallel l)) "not self.sequence_parallel";; forward scatter_to_model_parallel_region inputs);
  weights ← mapR row_weight params;
  mret (zip_with (fun x p => mkOperands (fst x) (snd x) None (p_main_grad p) (p_has_grad_added p)) (zip inputs weights) params).
(** The region at the output *)
Definition row_output_region (l : row_linear) : region V :=
  if rl_explicit_expert_comm l then Region (fun xs => assert_ (rl_skip_bias_add l) "self.skip_bias_add";; mret xs) mret
  else if rl_sequence_parallel l then reduce_scatter_to_sequence_parallel_region None
  else if rl_use_dpu_tp_reduce l then bps_reduce_from_model_parallel_region
  else reduce_from_model_parallel_region.

(** [RowParallelLinear.forward] *)
Definition row_forward (l : row_linear) (requires_grad : bool) (params : list parameters) (inputs : list tensor) : res (list (tensor * option tensor)) :=
  ranks ← row_operands l params inputs;
  output_parallel ← linear_forward (row_op l requires_grad) ranks;
  outputs ← forward (row_output_region l) output_parallel;
  mret (zip_with (fun o p => if rl_skip_bias_add l then (o, p_bias p) else (plus_bias o (p_bias p), None)) outputs params).
(** Its backward pass *)
Definition row_backward (l : row_linear) (requires_grad : bool) (ranks : list operands) (grad_outputs : list tensor) : res (list gradients) :=
  grad_outputs ← backward (row_output_region l) grad_outputs;
  gs ← linear_backward (row_op l requires_grad) ranks grad_outputs;
  inputs ← (if rl_input_is_parallel l then mret (map grad_input gs) else backward scatter_to_model_parallel_region (map grad_input gs));
  mret (with_grad_inputs gs inputs).
End Linear.
