(* ===== verification/TpLinearProofs.v ===== *)
(** * What the tensor-parallel linear layers compute

    The operators on shards compute shards of the products of the whole matrices, or summands of them. *)

From S2P Require Import Prelude Matrix Torch TpMappings TpMappingsProofs TpMappingsTheorems TpLinear.

#[local] Open Scope nat_scope.

(* ================================================================== *)
(** ** Products of shards                                              *)
(* ================================================================== *)

Section Products.
Context {V : Type} `{!Scalar V}.
Implicit Types (x w g h : array V) (b : list V) (n k i o : nat).

Lemma wf_mat (a : array V) m : lead a = [m] -> wf a -> mat m (width a) (rows a).
Proof. intros Hd Ha. unfold wf in Ha. rewrite Hd in Ha. cbn in Ha. by rewrite Nat.mul_1_r in Ha. Qed.
Lemma a_mmT_wf x w o : wf x -> wf w -> lead w = [o] -> wf (a_mmT x w).
Proof.
  intros Hx Hw Hd. pose proof (wf_mat w o Hd Hw) as [Hl _]. unfold wf, a_mmT. rewrite Hd. cbn. apply mmT_mat; [apply Hx|done].
Qed.
Lemma a_mm_wf g w : wf g -> wf w -> wf (a_mm g w).
Proof. intros Hg Hw. unfold wf, a_mm. cbn. apply mm_mat; [apply Hg|apply Hw]. Qed.
Lemma a_tmm_wf g x : wf x -> wf (a_tmm g x).
Proof. intros Hx. unfold wf, a_tmm. cbn. rewrite Nat.mul_1_r. apply tmm_mat. apply Hx. Qed.
Lemma a_addrow_wf b x : length b = width x -> wf x -> wf (a_addrow b x).
Proof. intros Hb Ho. unfold wf, a_addrow. cbn. by apply addrow_mat. Qed.

(** The weight is cut along its outputs. *)
Lemma a_mmT_slices x w n k i : lead w = [n * k] -> a_mmT x (slices k i w) = columns k i (a_mmT x w).
Proof. intros Hd. apply array_eq; [done|done|]. cbn. rewrite Hd. cbn. by rewrite Nat.mul_1_r, piece_mmT. Qed.
Lemma a_addrow_columns b x k i : a_addrow (piece k i b) (columns k i x) = columns k i (a_addrow b x).
Proof.
  apply array_eq; [done|done|]. cbn. unfold addrow. rewrite <- !list_fmap_compose. apply list_fmap_ext. intros _ r _. cbn. unfold vadd. by rewrite piece_zip_with.
Qed.
Lemma hsplit_shard n k (a : array V) : rows <$> shard_last n k a = hsplit k n (rows a).
Proof. apply rows_shard_last. Qed.
Lemma pieces_shard n k m (a : array V) : lead a = [m] -> rows <$> shard_first n k a = pieces k n (rows a).
Proof. intros Hd. rewrite rows_shard_first, Hd. cbn. by rewrite Nat.mul_1_r. Qed.
Lemma a_tmm_columns g x n k i : 0 < n -> wf g -> width g = n * k -> wf x -> i < n -> a_tmm (columns k i g) x = slices k i (a_tmm g x).
Proof.
  intros Hn Hg Hw Hx Hi. apply array_eq; [done|done|]. cbn [rows a_tmm slices columns lead width tail numel foldr]. rewrite Nat.mul_1_r. unfold wf in Hg. rewrite Hw in Hg.
  pose proof (hcat_hsplit _ _ _ _ Hn Hg) as Hh. pose proof (hsplit_mat _ _ _ _ Hg) as Hs.
  assert (Hne : hsplit k n (rows g) <> []) by (intros E%(f_equal length); rewrite length_hsplit in E; cbn in E; lia).
  pose proof (tmm_hcat_l _ k (width x) (hsplit k n (rows g)) (rows x) Hne Hs) as Ht. rewrite length_hsplit, Hh in Ht. rewrite Hw, Ht. symmetry.
  apply piece_concat; [|by rewrite list_lookup_fmap, hsplit_lookup by done]. apply Forall_fmap. eapply Forall_impl; [exact Hs|].
  intros p _. cbn. apply (tmm_mat k (width x)). apply Hx.
Qed.
Lemma a_colsum_columns g n k i : 0 < n -> wf g -> width g = n * k -> i < n -> a_colsum (columns k i g) = piece k i (a_colsum g).
Proof.
  intros Hn Hg Hw Hi. unfold a_colsum. cbn [columns width rows]. unfold wf in Hg. rewrite Hw in *. pose proof (hcat_hsplit _ _ _ _ Hn Hg) as Hh.
  pose proof (hsplit_mat _ _ _ _ Hg) as Hs.
  assert (Hne : hsplit k n (rows g) <> []) by (intros E%(f_equal length); rewrite length_hsplit in E; cbn in E; lia).
  pose proof (colsum_hcat _ k (hsplit k n (rows g)) Hne Hs) as Hc. rewrite length_hsplit, Hh in Hc. rewrite Hc. symmetry.
  apply piece_concat; [|by rewrite list_lookup_fmap, hsplit_lookup by done]. apply Forall_fmap. eapply Forall_impl; [exact Hs|].
  intros p Hp. cbn. apply length_colsum. apply Hp.
Qed.
(** The weight is cut along its inputs. *)
Lemma a_mm_columns g w n k i : 0 < n -> wf w -> width w = n * k -> i < n -> a_mm g (columns k i w) = columns k i (a_mm g w).
Proof.
  intros Hn Hg Hw Hi. apply array_eq; [done|done|]. cbn [rows a_tmm a_mm slices columns lead width tail]. unfold wf in Hg. rewrite Hw in *. pose proof (hcat_hsplit _ _ _ _ Hn Hg) as Hh.
  pose proof (hsplit_mat _ _ _ _ Hg) as Hs.
  assert (Hne : hsplit k n (rows w) <> []) by (intros E%(f_equal length); rewrite length_hsplit in E; cbn in E; lia).
  pose proof (mm_hcat _ k (rows g) (hsplit k n (rows w)) Hne Hs) as Hc. rewrite length_hsplit, Hh in Hc. rewrite Hc. symmetry.
  eapply piece_hcat; [by intros E%fmap_nil_inv| |by rewrite list_lookup_fmap, hsplit_lookup by done]. apply Forall_fmap. eapply Forall_impl; [exact Hs|].
  intros p Hp. cbn. apply mm_mat; [done|apply Hp].
Qed.
Lemma a_tmm_columns_r g h n k i : 0 < n -> wf h -> width h = n * k -> i < n -> a_tmm g (columns k i h) = columns k i (a_tmm g h).
Proof.
  intros Hn Hg Hw Hi. apply array_eq; [done|done|]. cbn [rows a_tmm a_mm slices columns lead width tail]. unfold wf in Hg. rewrite Hw in *. pose proof (hcat_hsplit _ _ _ _ Hn Hg) as Hh.
  pose proof (hsplit_mat _ _ _ _ Hg) as Hs.
  assert (Hne : hsplit k n (rows h) <> []) by (intros E%(f_equal length); rewrite length_hsplit in E; cbn in E; lia).
  pose proof (tmm_hcat_r _ (width g) k (rows g) (hsplit k n (rows h)) Hne Hs) as Hc. rewrite length_hsplit, Hh in Hc. rewrite Hc. symmetry.
  eapply piece_hcat; [by intros E%fmap_nil_inv| |by rewrite list_lookup_fmap, hsplit_lookup by done]. apply Forall_fmap. eapply Forall_impl; [exact Hs|].
  intros p Hp. cbn. apply (tmm_mat (width g) k). apply Hp.
Qed.

Context `{!ScalarLaws V}.
(** Summands of products whose inner dimension is cut *)
Lemma sum_a_mm g w n k : 0 < n -> wf g -> width g = n * k -> wf w -> lead w = [n * k] ->
  sum_arrays (zip_with a_mm (shard_last n k g) (shard_first n k w)) = a_mm g w.
Proof.
  intros Hn Hg Hw Hwf Hd. pose proof (wf_mat w _ Hd Hwf) as Hm. unfold wf in Hg. rewrite Hw in Hg. destruct n as [|n]; [lia|].
  apply array_eq; [done|done|]. cbn [sum_arrays rows a_mm].
  replace (rows <$> zip_with a_mm (shard_last (S n) k g) (shard_first (S n) k w)) with (zip_with (mm (width w)) (hsplit k (S n) (rows g)) (pieces k (S n) (rows w))).
  - rewrite <- (mm_concat (numel (lead g)) (width w) k); [|by rewrite hsplit_S|by rewrite length_pieces, length_hsplit|by apply hsplit_mat|by apply pieces_mat].
    rewrite (hcat_hsplit (numel (lead g))) by (done || lia). rewrite concat_pieces; [done|]. apply Hm.
  - rewrite <- (pieces_shard (S n) k _ w Hd), <- hsplit_shard. generalize (shard_last (S n) k g) as l1. unfold shard_first. generalize (seq 0 (S n)) as s.
    induction s as [|i s IH]; intros [|a l1]; cbn; [done..|]. f_equal. apply IH.
Qed.
Lemma sum_a_mmT h w n k o : 0 < n -> wf h -> width h = n * k -> wf w -> lead w = [o] -> width w = n * k ->
  sum_arrays (zip_with a_mmT (shard_last n k h) (shard_last n k w)) = a_mmT h w.
Proof.
  intros Hn Hh Hwh Hw Hd Hww. pose proof (wf_mat w o Hd Hw) as Hm. rewrite Hww in Hm. unfold wf in Hh. rewrite Hwh in Hh. destruct n as [|n]; [lia|].
  apply array_eq; [done|done|]. cbn [sum_arrays rows a_mmT].
  replace (rows <$> zip_with a_mmT (shard_last (S n) k h) (shard_last (S n) k w)) with (zip_with mmT (hsplit k (S n) (rows h)) (hsplit k (S n) (rows w))).
  - rewrite <- (mmT_hcat (numel (lead h)) o k); [|by rewrite hsplit_S|by rewrite !length_hsplit|by apply hsplit_mat|by apply hsplit_mat].
    rewrite (hcat_hsplit (numel (lead h))), (hcat_hsplit o) by (done || lia). done.
  - rewrite <- !hsplit_shard. generalize (shard_last (S n) k h) as l1. generalize (shard_last (S n) k w) as l2.
    induction l2 as [|b l2 IH]; intros [|a l1]; cbn; [done..|]. f_equal. apply IH.
Qed.
End Products.

(* ================================================================== *)
(** ** The operators on shards                                         *)
(* ================================================================== *)

Section Operators.
Context {V : Type} `{!Scalar V, !ScalarLaws V, !Torch V, !TorchLaws V, !TorchLinear V, !TorchLinearLaws V, !BytepsSum V, !BytepsSumLaw V}.
Implicit Types (X W G H : array V) (n k m i : nat) (ranks : list operands) (op : linear_op).

(** A linear layer on one rank *)
Definition linear (X W : array V) (b : option (list V)) : array V := match b with Some b => a_addrow b (a_mmT X W) | None => a_mmT X W end.

Lemma linear_wf X W b o : wf X -> wf W -> lead W = [o] -> (forall l, b = Some l -> length l = o) -> wf (linear X W b) /\ lead (linear X W b) = lead X /\ width (linear X W b) = o.
Proof.
  intros HX HW Hd Hb. pose proof (a_mmT_wf X W o HX HW Hd) as Hm. assert (Ho : width (a_mmT X W) = o) by (cbn; by rewrite Hd). destruct b as [l|]; cbn [linear]; [|done].
  split_and!; [|done|done]. apply a_addrow_wf; [|done]. rewrite Ho. by apply Hb.
Qed.

(** The operands of a rank when the weight is cut along its outputs *)
Definition column_shards (n k : nat) (W : array V) (b : option (list V)) (ranks : list operands) : Prop :=
  length ranks = n /\ forall i o, ranks !! i = Some o -> val (weight o) = slices k i W /\ val <$> bias o = (fun l => flat (piece k i l)) <$> b.
(** The operands of a rank when the weight is cut along its inputs *)
Definition row_shards (n k : nat) (W : array V) (ranks : list operands) : Prop :=
  length ranks = n /\ forall i o, ranks !! i = Some o -> val (weight o) = columns k i W /\ bias o = None.
(** What the ranks have of a tensor: all of it, or under sequence parallelism their slice of the first dimension *)
Definition spread (sp : bool) (n m : nat) (X : array V) : list (array V) := if sp then shard_first n m X else replicate n X.

Lemma vals_at (ts : list tensor) (f : nat -> array V) n i t : val <$> ts = f <$> seq 0 n -> ts !! i = Some t -> i < n /\ val t = f i.
Proof.
  intros E Ht. pose proof (lookup_lt_Some _ _ _ Ht) as Hi. assert (length ts = n) as Hl by (apply length_vals in E; by rewrite E, length_fmap, length_seq).
  split; [lia|]. apply (f_equal (lookup i)) in E. rewrite !list_lookup_fmap, Ht, lookup_seq_lt in E by lia. cbn in E. by injection E.
Qed.
Lemma replicate_seq {A} n (x : A) : replicate n x = (fun _ => x) <$> seq 0 n.
Proof. rewrite <- (imap_replicate (fun _ (a : A) => a) n x). clear. induction n as [|n IH]; [done|]. cbn. f_equal. exact IH. Qed.
Lemma length_spread sp n m X : length (spread sp n m X) = n.
Proof. destruct sp; cbn; [apply length_shard_first|apply length_replicate]. Qed.
Lemma length_map_vals {A} (f : A -> tensor) (l : list A) vs : val <$> map f l = vs -> length l = length vs.
Proof. intros E. apply length_vals in E. by rewrite length_map in E. Qed.

(** Under sequence parallelism the operators gather the input. *)
Lemma gathered_inputs xs n m d X : 0 < n -> wf X -> lead X = n * m :: d -> val <$> xs = shard_first n m X -> val <$> all_gather_into_tensor xs = replicate n X.
Proof.
  intros Hn Ha Hd Hxs. pose proof (length_vals _ _ Hxs) as Hl. rewrite length_shard_first in Hl. pose proof (all_gather_into_val xs m d (width X)) as Hg. rewrite Hxs, Hl in Hg.
  rewrite (join_shard_first n m d) in Hg by done. apply Hg; [destruct xs; [cbn in Hl; lia|done]|]. apply Forall_vals. rewrite Hxs. by apply (shard_first_shaped n m d).
Qed.
Lemma total_inputs_spec op ranks n m d X : 0 < n -> wf X -> lead X = n * m :: d -> val <$> map input ranks = spread (sequence_parallel op) n m X ->
  val <$> total_inputs op ranks = replicate n X.
Proof.
  intros Hn Ha Hd Hxs. unfold total_inputs, spread in *. destruct (sequence_parallel op); [by apply (gathered_inputs _ n m d)|done].
Qed.
Lemma frozen_inputs_spec op ranks n m d X : 0 < n -> wf X -> lead X = n * m :: d -> val <$> map input ranks = spread (sequence_parallel op) n m X ->
  computes (if sequence_parallel op then forward (gather_from_sequence_parallel_region true None) (map input ranks) else mret (map input ranks)) (replicate n X).
Proof.
  intros Hn Ha Hd Hxs. unfold spread in *. destruct (sequence_parallel op); [|by apply computes_ok]. cbn [forward gather_from_sequence_parallel_region].
  apply (gather_first_shards _ n m d); try done. by rewrite (length_vals _ _ Hxs), length_shard_first.
Qed.

Lemma column_matmul_bias n k W b X x i (o : operands) d : wf X -> wf W -> lead W = [n * k] -> width X = width W -> lead X = d -> i < n -> (forall l, b = Some l -> length l = n * k) ->
  val x = X -> val (weight o) = slices k i W -> val <$> bias o = (fun l => flat (piece k i l)) <$> b -> val (matmul_bias x o) = columns k i (linear X W b).
Proof.
  intros HX HW Hd Hw HdX Hi Hb Hx Ho Hbo. assert (Hm : val (matmul_t x (weight o)) = columns k i (a_mmT X W)).
  { rewrite (matmul_t_val _ _ k); [|by rewrite Ho; unfold slices; rewrite Hd|by rewrite Hx, Ho]. rewrite Hx, Ho. by apply (a_mmT_slices X W n). }
  unfold matmul_bias, plus_bias, linear. destruct b as [l|]; destruct (bias o) as [t|]; cbn in Hbo; try done. injection Hbo as Hbo.
  rewrite (add_bias_val _ _ (piece k i l)); [by rewrite Hm, a_addrow_columns|done|]. rewrite Hm. cbn. by apply (length_piece k n), Hi; apply Hb.
Qed.
(** Forward, the weight cut along its outputs: every rank computes its columns of the output. *)
Lemma linear_forward_column op ranks n k m d W b X : 0 < n -> wf X -> wf W -> lead X = n * m :: d -> lead W = [n * k] -> width X = width W ->
  (forall l, b = Some l -> length l = n * k) -> column_shards n k W b ranks -> val <$> map input ranks = spread (sequence_parallel op) n m X ->
  computes (linear_forward op ranks) (shard_last n k (linear X W b)).
Proof.
  intros Hn HX HW HdX Hd Hw Hb [Hl Hr] Hxs.
  assert (Hgo : forall xs, val <$> xs = replicate n X -> val <$> zip_with matmul_bias xs ranks = shard_last n k (linear X W b)).
  { intros xs E. unfold shard_last. apply fmap_seq_lookup; [rewrite length_zip_with, (length_vals _ _ E), length_replicate; lia|]. intros i y Hy.
    apply lookup_zip_with_Some in Hy as (x & o & -> & Hx & Ho). rewrite replicate_seq in E. destruct (vals_at _ _ _ _ _ E Hx) as [Hi Hv]. destruct (Hr i o Ho) as [H1 H2].
    by apply (column_matmul_bias n k W b X x i o (n * m :: d)). }
  unfold linear_forward. destruct (weight_requires_grad op).
  - apply computes_ok, Hgo. by apply (total_inputs_spec op ranks n m d).
  - unfold frozen_forward. eapply computes_bind; [by apply (frozen_inputs_spec op ranks n m d X)|]. intros xs E. by apply computes_ok, Hgo.
Qed.
(** Forward, the weight cut along its inputs: every rank computes a summand of the output. *)
Lemma linear_forward_row op ranks n k o W X : wf X -> wf W -> lead W = [o] -> width W = n * k -> sequence_parallel op = false ->
  row_shards n k W ranks -> val <$> map input ranks = shard_last n k X -> computes (linear_forward op ranks) (zip_with a_mmT (shard_last n k X) (shard_last n k W)) /\
    exists ys, linear_forward op ranks = Ok ys /\ Forall (fun t => is_contiguous t = true) ys.
Proof.
  intros HX HW Hd Hw Hsp [Hl Hr] Hxs. assert (E : linear_forward op ranks = Ok (zip_with matmul_bias (map input ranks) ranks)).
  { unfold linear_forward, accumulating_forward, frozen_forward, total_inputs. rewrite Hsp. by destruct (weight_requires_grad op). }
  assert (Hb : forall i y, zip_with matmul_bias (map input ranks) ranks !! i = Some y -> exists o, ranks !! i = Some o /\ y = matmul_t (input o) (weight o)).
  { intros i y Hy. apply lookup_zip_with_Some in Hy as (x & r & -> & Hx & Ho). exists r. split; [done|]. change (map input ranks) with (input <$> ranks) in Hx.
    rewrite list_lookup_fmap, Ho in Hx. injection Hx as <-. unfold matmul_bias. by rewrite (proj2 (Hr i r Ho)). }
  rewrite E. split; [|eexists; split; [done|]; apply Forall_lookup; intros i y Hy; destruct (Hb i y Hy) as (r & _ & ->); apply matmul_t_contiguous].
  apply computes_ok. replace (zip_with a_mmT (shard_last n k X) (shard_last n k W)) with ((fun i => a_mmT (columns k i X) (columns k i W)) <$> seq 0 n).
  - apply fmap_seq_lookup; [rewrite length_zip_with, length_map; lia|]. intros i y Hy. destruct (Hb i y Hy) as (r & Ho & ->).
    assert (Hx : map input ranks !! i = Some (input r)) by (change (map input ranks) with (input <$> ranks); by rewrite list_lookup_fmap, Ho).
    destruct (vals_at _ _ _ _ _ Hxs Hx) as [Hi Hv]. destruct (Hr i r Ho) as [Hwt _]. rewrite (matmul_t_val _ _ o); [by rewrite Hv, Hwt|by rewrite Hwt|by rewrite Hv, Hwt].
  - unfold shard_last. clear. induction (seq 0 n) as [|j s IH]; [done|]. cbn. f_equal. exact IH.
Qed.

(** *** Backward *)

(** What the operator returns for the parameters, given the gradients that it should compute *)
Definition parameter_gradients (op : linear_op) (o : operands) (gw : array V) (gb : list V) (g : gradients) : Prop :=
  if weight_requires_grad op then
    (if gradient_accumulation_fusion op
     then exists acc acc', main_grad o = Some acc /\ main_grad_after g = Some acc' /\ val acc' = a_add (val acc) gw /\
            grad_weight g = (if has_grad_added_to_main_grad o then WDummy else WNone)
     else exists t, grad_weight g = WGrad t /\ val t = gw /\ main_grad_after g = main_grad o) /\
    match bias o with Some _ => exists t, grad_bias g = Some t /\ val t = flat gb | None => grad_bias g = None end
  else grad_weight g = WNone /\ grad_bias g = None /\ main_grad_after g = main_grad o.

(** A fused accumulation needs a buffer of the shape of the weight. *)
Definition accumulates (op : linear_op) (ranks : list operands) : Prop :=
  weight_requires_grad op = true -> gradient_accumulation_fusion op = true ->
  Forall (fun o => exists acc, main_grad o = Some acc /\ lead (val acc) = lead (val (weight o)) /\ width (val acc) = width (val (weight o))) ranks.

Lemma flattened_dims (d : list nat) : length d = 1 \/ length d = 2 -> (length (d ++ [0]) =? 3) = true /\ (exists a b, d = [a; b]) \/ (length (d ++ [0]) =? 3) = false /\ (exists a, d = [a]).
Proof. destruct d as [|a [|b [|? ?]]]; cbn; intros [H|H]; try lia; [right|left]; eauto. Qed.

Lemma weight_gradients_spec op o gi g x : weight_requires_grad op = true -> lead (val x) = lead (val g) -> length (lead (val g)) = 1 \/ length (lead (val g)) = 2 ->
  lead (val (weight o)) = [width (val g)] -> width (val (weight o)) = width (val x) -> accumulates op [o] ->
  exists r, weight_gradients op o gi g x = Ok r /\ grad_input r = gi /\ parameter_gradients op o (a_tmm (val g) (val x)) (a_colsum (val g)) r.
Proof.
  intros Hreq Hd Hdim Hw1 Hw2 Hacc. unfold weight_gradients. destruct (prepare_input_tensors_for_wgrad_compute g x) as [g' x'] eqn:E.
  assert (Hp : exists m, lead (val g') = [m] /\ lead (val x') = [m] /\ width (val g') = width (val g) /\ width (val x') = width (val x) /\
    rows (val g') = rows (val g) /\ rows (val x') = rows (val x)).
  { unfold prepare_input_tensors_for_wgrad_compute in E. assert (Hs : length (size (contiguous g)) = length (lead (val g) ++ [0])).
    { unfold size. rewrite contiguous_val, !length_app. done. }
    rewrite Hs in E. destruct (flattened_dims _ Hdim) as [(E3 & a & b & Eg)|(E3 & a & Eg)]; rewrite E3 in E; injection E as <- <-.
    - assert (Hg : lead (val (contiguous g)) = [a; b]) by by rewrite contiguous_val. assert (Hx : lead (val (contiguous x)) = [a; b]) by (rewrite contiguous_val; congruence).
      rewrite (view_2d_val _ _ _ Hg), (view_2d_val _ _ _ Hx), !contiguous_val. cbn. exists (length (rows (val g))). split_and!; try done.
      pose proof (val_wf x) as [Hrx _]. pose proof (val_wf g) as [Hrg _]. rewrite Hrx, Hrg. by rewrite Hd.
    - rewrite !contiguous_val. exists a. split_and!; congruence. }
  destruct Hp as (m & Hg & Hx & Hwg & Hwx & Hrg & Hrx).
  assert (Ht : a_tmm (val g') (val x') = a_tmm (val g) (val x)) by (unfold a_tmm; by rewrite Hwg, Hwx, Hrg, Hrx).
  assert (Hc : a_colsum (val g') = a_colsum (val g)) by (unfold a_colsum; by rewrite Hwg, Hrg).
  assert (Hbias : forall gr, grad_bias gr = match bias o with Some _ => Some (sum_rows g') | None => None end ->
    match bias o with Some _ => exists t, grad_bias gr = Some t /\ val t = flat (a_colsum (val g)) | None => grad_bias gr = None end).
  { intros gr ->. destruct (bias o); [|done]. eexists. split; [done|]. by rewrite (sum_rows_val _ m), Hc. }
  unfold parameter_gradients. rewrite Hreq. unfold accumulates in Hacc. destruct (gradient_accumulation_fusion op).
  - destruct (Forall_inv (Hacc Hreq eq_refl)) as (acc & Eacc & Ha1 & Ha2). rewrite Eacc. eexists. split; [done|]. split; [done|]. split; [|by apply Hbias].
    exists acc. eexists. split_and!; [done|done| |done]. rewrite (wgrad_gemm_accum_val _ _ _ m), Ht; [done|done|done| |]; congruence.
  - eexists. split; [done|]. split; [done|]. split; [|by apply Hbias]. eexists. split_and!; [done| |done]. by rewrite (t_matmul_val _ _ m), Ht.
Qed.

Lemma accumulates_at op ranks i o : accumulates op ranks -> ranks !! i = Some o -> accumulates op [o].
Proof. intros H Hi H1 H2. specialize (H H1 H2). rewrite Forall_lookup in H. constructor; [by apply (H i)|constructor]. Qed.

(** The gradients of all ranks from those of the inputs *)
Lemma weight_gradients_all op ranks gis gos xs (gw : nat -> array V) (gb : nat -> list V) n : weight_requires_grad op = true -> length ranks = n ->
  length gis = n -> length gos = n -> length xs = n -> accumulates op ranks ->
  (forall i o g x, ranks !! i = Some o -> gos !! i = Some g -> xs !! i = Some x ->
     lead (val x) = lead (val g) /\ (length (lead (val g)) = 1 \/ length (lead (val g)) = 2) /\ lead (val (weight o)) = [width (val g)] /\
     width (val (weight o)) = width (val x) /\ a_tmm (val g) (val x) = gw i /\ a_colsum (val g) = gb i) ->
  exists gs, mapR (fun p => let '(o, (gi, (g, x))) := p in weight_gradients op o gi g x) (zip ranks (zip gis (zip gos xs))) = Ok gs /\
    map grad_input gs = gis /\ forall i o g, ranks !! i = Some o -> gs !! i = Some g -> parameter_gradients op o (gw i) (gb i) g.
Proof.
  intros Hreq Hl H1 H2 H3 Hacc H. set (f := fun p : operands * (tensor * (tensor * tensor)) => let '(o, (gi, (g, x))) := p in weight_gradients op o gi g x).
  destruct (mapR_ix f (fun i p r => grad_input r = fst (snd p) /\ parameter_gradients op (fst p) (gw i) (gb i) r) (zip ranks (zip gis (zip gos xs)))) as (gs & E & Hgl & Hg).
  - intros i [o [gi [g x]]] Hi. apply lookup_zip_with_Some in Hi as (? & ? & [= <- <-] & Ho & Hi). apply lookup_zip_with_Some in Hi as (? & ? & [= <- <-] & Hgi & Hi).
    apply lookup_zip_with_Some in Hi as (? & ? & [= <- <-] & Hg & Hx). destruct (H i o g x Ho Hg Hx) as (K1 & K2 & K3 & K4 & K5 & K6). cbn [f fst snd].
    destruct (weight_gradients_spec op o gi g x Hreq K1 K2 K3 K4 (accumulates_at _ _ _ _ Hacc Ho)) as (r & Er & Hr1 & Hr2). exists r. rewrite K5, K6 in Hr2. done.
  - exists gs. assert (Hz : length (zip ranks (zip gis (zip gos xs))) = n) by (rewrite !length_zip_with; lia). assert (Hat : forall i o g, ranks !! i = Some o -> gs !! i = Some g ->
      exists gi, gis !! i = Some gi /\ grad_input g = gi /\ parameter_gradients op o (gw i) (gb i) g).
    { intros i o g Ho Hgi. pose proof (lookup_lt_Some _ _ _ Ho) as Hi. destruct (lookup_lt_is_Some_2 gis i ltac:(lia)) as [gi Egi].
      destruct (lookup_lt_is_Some_2 gos i ltac:(lia)) as [go Ego]. destruct (lookup_lt_is_Some_2 xs i ltac:(lia)) as [x Ex].
      destruct (Hg i (o, (gi, (go, x))) g) as [K1 K2]; [by rewrite !lookup_zip_with, Ho, Egi, Ego, Ex|done|]. by exists gi. }
    split; [exact E|]. split.
    + apply list_eq_same_length with n; [done|rewrite length_map; lia|]. intros i a b Hi Ha Hb. change (map grad_input gs) with (grad_input <$> gs) in Ha. rewrite list_lookup_fmap in Ha.
      destruct (gs !! i) as [g|] eqn:Eg; [|done]. injection Ha as <-. destruct (lookup_lt_is_Some_2 ranks i ltac:(lia)) as [o Eo].
      destruct (Hat i o g Eo Eg) as (gi & Egi & <- & _). congruence.
    + intros i o g Ho Hgi. by destruct (Hat i o g Ho Hgi) as (gi & _ & _ & K).
Qed.

(** The gradients of the inputs before any reduction *)
Definition partial_dgrads (n k : nat) (G W : array V) : list (array V) := zip_with a_mm (shard_last n k G) (shard_first n k W).
(** The gradients of the inputs that the operator returns *)
Definition dgrads (op : linear_op) (n k m : nat) (G W : array V) : list (array V) :=
  if sequence_parallel op then shard_first n m (a_mm G W) else if allreduce_dgrad op then replicate n (a_mm G W) else partial_dgrads n k G W.

Lemma zip_seq {A B C} (f : A -> B -> C) (g : nat -> A) (h : nat -> B) n : zip_with f (g <$> seq 0 n) (h <$> seq 0 n) = (fun i => f (g i) (h i)) <$> seq 0 n.
Proof. induction (seq 0 n) as [|j s IH]; [done|]. cbn. f_equal. exact IH. Qed.
Lemma partial_dgrads_seq n k G W : partial_dgrads n k G W = (fun i => a_mm (columns k i G) (slices k i W)) <$> seq 0 n.
Proof. apply zip_seq. Qed.
Lemma partial_dgrads_shaped n k G W : wf G -> wf W -> width G = n * k -> lead W = [n * k] -> Forall (shaped (lead G) (width W)) (partial_dgrads n k G W).
Proof.
  intros HG HW HwG HdW. rewrite partial_dgrads_seq. apply Forall_fmap, Forall_lookup. intros i j [-> Hj]%lookup_seq. split_and!; [done|done|]. cbn [compose].
  pose proof (shard_last_shaped n k G HG HwG) as H1. pose proof (shard_first_shaped n k [] W HW HdW) as H2. rewrite Forall_lookup in H1, H2.
  apply a_mm_wf; [eapply (H1 i)|eapply (H2 i)]; [by apply shard_last_lookup|by apply shard_first_lookup].
Qed.
Lemma column_dgrads op ranks n k m d W b G gos : 0 < n -> wf G -> wf W -> lead G = n * m :: d -> width G = n * k -> lead W = [n * k] ->
  negb (sequence_parallel op && allreduce_dgrad op) = true -> column_shards n k W b ranks -> val <$> gos = shard_last n k G ->
  let parts := zip_with (fun g o => matmul g (weight o)) gos ranks in let parts := if allreduce_dgrad op then all_reduce parts else parts in
  computes (if sequence_parallel op then mret (reduce_scatter_tensor parts) else mret parts) (dgrads op n k m G W) /\
  computes (if sequence_parallel op then backward (gather_from_sequence_parallel_region true None) parts else mret parts) (dgrads op n k m G W).
Proof.
  intros Hn HG HW HdG HwG HdW Hop [Hl Hr] Hgos parts0. set (parts := if allreduce_dgrad op then all_reduce parts0 else parts0).
  assert (Hp0 : val <$> parts0 = partial_dgrads n k G W).
  { rewrite partial_dgrads_seq. unfold parts0. apply fmap_seq_lookup; [rewrite length_zip_with, (length_vals _ _ Hgos), length_shard_last; lia|]. intros i y Hy.
    apply lookup_zip_with_Some in Hy as (g & o & -> & Hg & Ho). destruct (vals_at _ _ _ _ _ Hgos Hg) as [Hi Hv]. destruct (Hr i o Ho) as [Hwt _].
    rewrite matmul_val; [by rewrite Hv, Hwt|]. rewrite Hv, Hwt. unfold slices. by rewrite HdW. }
  assert (Hl0 : length parts0 = n) by (rewrite (length_vals _ _ Hp0), partial_dgrads_seq, length_fmap, length_seq; done).
  assert (Hne : parts0 <> []) by (intros E; rewrite E in Hl0; cbn in Hl0; lia). pose proof (partial_dgrads_shaped n k G W HG HW HwG HdW) as Hs. rewrite <- Hp0 in Hs.
  assert (Hsum : sum_arrays (val <$> parts0) = a_mm G W) by (rewrite Hp0; by apply sum_a_mm).
  unfold dgrads, parts. clearbody parts0. clear parts. destruct (sequence_parallel op), (allreduce_dgrad op); try done; cbn [negb andb].
  - rewrite HdG, <- Hl0 in Hs. split.
    + apply computes_ok. rewrite (reduce_scatter_tensor_val parts0 m d (width W)), Hsum, Hl0; [done|done|by apply Forall_vals].
    + cbn [backward gather_from_sequence_parallel_region]. rewrite <- Hsum, <- Hl0. by eapply reduce_scatter_first_spec.
  - assert (Ha : val <$> all_reduce parts0 = replicate n (a_mm G W)); [|by split; apply computes_ok].
    rewrite (all_reduce_val parts0 (lead G) (width W)), Hsum, Hl0; [done|done|by apply Forall_vals].
  - by split; apply computes_ok.
Qed.

(** Backward, the weight cut along its outputs *)
Lemma linear_backward_column op ranks n k m d W b X G gos : 0 < n -> wf X -> wf G -> wf W -> lead X = n * m :: d -> lead G = n * m :: d -> length d <= 1 ->
  width G = n * k -> lead W = [n * k] -> width X = width W -> negb (sequence_parallel op && allreduce_dgrad op) = true -> accumulates op ranks ->
  column_shards n k W b ranks -> val <$> map input ranks = spread (sequence_parallel op) n m X -> val <$> gos = shard_last n k G ->
  exists gs, linear_backward op ranks gos = Ok gs /\ val <$> map grad_input gs = dgrads op n k m G W /\
    forall i o g, ranks !! i = Some o -> gs !! i = Some g -> parameter_gradients op o (slices k i (a_tmm G X)) (piece k i (a_colsum G)) g.
Proof.
  intros Hn HX HG HW HdX HdG Hdim HwG HdW Hw Hop Hacc Hcs Hxs Hgos. pose proof Hcs as [Hl Hr].
  destruct (column_dgrads op ranks n k m d W b G gos Hn HG HW HdG HwG HdW Hop Hcs Hgos) as [H1 H2]. unfold linear_backward.
  destruct (weight_requires_grad op) eqn:Hreq; [destruct H1 as (gis & E & Hv)|destruct H2 as (gis & E & Hv)].
  - unfold accumulating_backward. set (parts := if allreduce_dgrad op then all_reduce _ else _) in *.
    replace (if sequence_parallel op then assert_ (negb (allreduce_dgrad op)) "not ctx.allreduce_dgrad";; mret (reduce_scatter_tensor parts) else mret parts) with (Ok gis)
      by (rewrite <- E; destruct (sequence_parallel op), (allreduce_dgrad op); done).
    ret_step. pose proof (total_inputs_spec op ranks n m d X Hn HX HdX Hxs) as Ht. assert (Hlg : length (dgrads op n k m G W) = n).
    { unfold dgrads. rewrite partial_dgrads_seq. destruct (sequence_parallel op), (allreduce_dgrad op); rewrite ?length_shard_first, ?length_replicate, ?length_fmap, ?length_seq; done. }
    destruct (weight_gradients_all op ranks gis gos (total_inputs op ranks) (fun i => slices k i (a_tmm G X)) (fun i => piece k i (a_colsum G)) n Hreq Hl) as (gs & Eg & Hgi & Hg).
    + by rewrite (length_vals _ _ Hv).
    + by rewrite (length_vals _ _ Hgos), length_shard_last.
    + by rewrite (length_vals _ _ Ht), length_replicate.
    + done.
    + intros i o g x Ho Hg Hx. destruct (vals_at _ _ _ _ _ Hgos Hg) as [Hi Hgv]. rewrite replicate_seq in Ht. destruct (vals_at _ _ _ _ _ Ht Hx) as [_ Hxv].
      destruct (Hr i o Ho) as [Hwt _]. rewrite Hgv, Hxv, Hwt. split_and!; cbn [columns slices lead width]; [congruence| |by rewrite HdW|done| |].
      * rewrite HdG. cbn. lia.
      * by apply (a_tmm_columns G X n).
      * by apply (a_colsum_columns G n).
    + exists gs. split; [exact Eg|]. split; [by rewrite Hgi|done].
  - unfold frozen_backward. rewrite E. ret_step. eexists. split; [done|].
    assert (Hlg : length gis = n).
    { rewrite (length_vals _ _ Hv). unfold dgrads. rewrite partial_dgrads_seq. destruct (sequence_parallel op), (allreduce_dgrad op); rewrite ?length_shard_first, ?length_replicate, ?length_fmap, ?length_seq; done. }
    split.
    + rewrite <- Hv. f_equal. clear -Hl Hlg. revert n ranks Hl Hlg. induction gis as [|g gis IH]; intros n [|o ranks] Hl Hlg; cbn in *; try lia; [done|].
      f_equal. destruct n as [|n]; [lia|]. apply (IH n); lia.
    + intros i o g Ho Hg. apply lookup_zip_with_Some in Hg as (g' & o' & -> & _ & Ho'). rewrite Ho in Ho'. injection Ho' as <-. unfold parameter_gradients. by rewrite Hreq.
Qed.

(** Backward, the weight cut along its inputs *)
Lemma linear_backward_row op ranks n k o W H G gos : 0 < n -> wf H -> wf G -> wf W -> lead H = lead G -> length (lead G) = 1 \/ length (lead G) = 2 ->
  width G = o -> lead W = [o] -> width W = n * k -> width H = n * k -> sequence_parallel op = false -> allreduce_dgrad op = false -> accumulates op ranks ->
  row_shards n k W ranks -> val <$> map input ranks = shard_last n k H -> val <$> gos = replicate n G ->
  exists gs, linear_backward op ranks gos = Ok gs /\ val <$> map grad_input gs = shard_last n k (a_mm G W) /\
    forall i r g, ranks !! i = Some r -> gs !! i = Some g -> parameter_gradients op r (columns k i (a_tmm G H)) (a_colsum G) g.
Proof.
  intros Hn HH HG HW HdH Hdim HwG HdW HwW HwH Hsp Har Hacc [Hl Hr] Hxs Hgos. set (gis := zip_with (fun g o => matmul g (weight o)) gos ranks). rewrite replicate_seq in Hgos.
  assert (Hlo : length gos = n) by by rewrite (length_vals _ _ Hgos), length_fmap, length_seq. assert (Hlg : length gis = n) by (unfold gis; rewrite length_zip_with; lia).
  assert (Hv : val <$> gis = shard_last n k (a_mm G W)).
  { apply fmap_seq_lookup; [done|]. intros i y Hy. apply lookup_zip_with_Some in Hy as (g & r & -> & Hg & Ho). destruct (vals_at _ _ _ _ _ Hgos Hg) as [Hi Hgv].
    destruct (Hr i r Ho) as [Hwt _]. rewrite matmul_val; [|by rewrite Hgv, Hwt; unfold columns; rewrite HwG]. rewrite Hgv, Hwt. by apply (a_mm_columns G W n). }
  unfold linear_backward, accumulating_backward, frozen_backward, total_inputs. rewrite Hsp, Har. destruct (weight_requires_grad op) eqn:Hreq; unfold mret, res_ret; ret_step.
  - destruct (weight_gradients_all op ranks gis gos (map input ranks) (fun i => columns k i (a_tmm G H)) (fun _ => a_colsum G) n Hreq Hl) as (gs & Eg & Hgi & Hg); try done.
    + by rewrite length_map.
    + intros i r g x Ho Hg Hx. destruct (vals_at _ _ _ _ _ Hgos Hg) as [Hi Hgv]. destruct (vals_at _ _ _ _ _ Hxs Hx) as [_ Hxv].
      destruct (Hr i r Ho) as [Hwt _]. rewrite Hgv, Hxv, Hwt. split_and!; cbn [columns slices lead width]; [done|done|by rewrite HwG|done| |done]. by apply (a_tmm_columns_r G H n).
    + exists gs. split; [exact Eg|]. split; [by rewrite Hgi|done].
  - eexists. split; [done|]. split.
    + rewrite <- Hv. f_equal. fold gis. clearbody gis. clear -Hl Hlg. revert n ranks Hl Hlg. induction gis as [|g gis IH]; intros n [|o ranks] Hl Hlg; cbn in *; try lia; [done|].
      f_equal. destruct n as [|n]; [lia|]. apply (IH n); lia.
    + intros i r g Ho Hg. apply lookup_zip_with_Some in Hg as (g' & r' & -> & _ & Ho'). rewrite Ho in Ho'. injection Ho' as <-. unfold parameter_gradients. by rewrite Hreq.
Qed.
End Operators.
