(* ===== verification/TpLayers.v ===== *)
(** * Tensor-parallel layers and the MLP

    [ColumnParallelLinear] and [RowParallelLinear] on shards of a weight compute what one rank would compute with the whole
    weight, forward and backward; so does the MLP of [megatron/core/transformer/mlp.py] that is built from them. *)

From S2P Require Import Prelude Matrix Torch TpMappings TpMappingsProofs TpMappingsTheorems TpLinear TpLinearProofs TorchReference.

#[local] Open Scope nat_scope.

(* ================================================================== *)
(** ** The MLP                                                         *)
(* ================================================================== *)

(** An activation function with its derivative, which are applied to every element, and the gradient that autograd gives
    to a broadcast summand *)
Class Activation (V : Type) `{!Torch V} := {
  act : V -> V;
  act_grad : V -> V -> V;
  activation_func : tensor -> tensor;
  activation_backward : tensor -> tensor -> tensor;
  broadcast_backward : tensor -> tensor
}.
Definition a_map {V} (f : V -> V) (x : array V) : array V := Array (lead x) (width x) (map (map f) (rows x)).
Definition a_zip {V} (f : V -> V -> V) (x y : array V) : array V := Array (lead x) (width x) (zip_with (zip_with f) (rows x) (rows y)).
Class ActivationLaws (V : Type) `{!Scalar V, !Torch V, !Activation V} : Prop := {
  activation_val : forall t, val (activation_func t) = a_map act (val t);
  activation_backward_val : forall t g, lead (val g) = lead (val t) -> width (val g) = width (val t) -> val (activation_backward t g) = a_zip act_grad (val t) (val g);
  broadcast_backward_val : forall g, val (broadcast_backward g) = flat (a_colsum (val g))
}.

Section Mlp.
Context {V : Type} `{!Scalar V, !Torch V, !TorchLinear V, !BytepsSum V, !Activation V}.

Record mlp := mkMlp { linear_fc1 : column_linear; linear_fc2 : row_linear }.

(** [MLP.__init__], without gated linear units; the second layer has the size of the configuration, whatever the argument says. *)
Definition mlp_init (cfg : config) (world_size input_size : nat) (ffn_hidden_size : option nat) (config_ffn_hidden_size : nat) (is_expert : bool) : res mlp :=
  ffn_hidden_size ← match ffn_hidden_size with
                    | Some size => mret size
                    | None => if is_expert then raise_ ValueError "MoE MLP requires `ffn_hidden_size`, but it was not provided." else mret config_ffn_hidden_size
                    end;
  fc1 ← column_init cfg world_size input_size ffn_hidden_size false true is_expert false;
  fc2 ← row_init cfg world_size config_ffn_hidden_size true true is_expert;
  mret (mkMlp fc1 fc2).

(** What autograd saves of a forward pass *)
Record mlp_saved := mkSaved { saved_fc1 : list operands; saved_intermediate : list tensor; saved_fc2 : list operands }.

Definition no_weights {A} (l : list A) : list (option tensor) := map (fun _ => None) l.

(** [MLP.forward] on the path without fusion and per-token scales *)
Definition mlp_forward (l : mlp) (fc1 fc2 : list parameters) (hidden_states : list tensor) : res (list (tensor * option tensor) * mlp_saved) :=
  ranks1 ← column_operands (linear_fc1 l) (no_weights fc1) fc1 hidden_states;
  intermediate_parallel ← column_forward (linear_fc1 l) true None (no_weights fc1) fc1 hidden_states;
  let intermediate := map (fun x => plus_bias (fst x) (snd x)) intermediate_parallel in
  let activated := map activation_func intermediate in
  ranks2 ← row_operands (linear_fc2 l) fc2 activated;
  output ← row_forward (linear_fc2 l) true fc2 activated;
  mret (output, mkSaved ranks1 intermediate ranks2).

(** Its backward pass: the gradients of the two layers, and those of the bias of the first *)
Definition mlp_backward (l : mlp) (fc1 : list parameters) (saved : mlp_saved) (grad_outputs : list tensor) : res (list gradients * list (option tensor) * list gradients) :=
  g2 ← row_backward (linear_fc2 l) true (saved_fc2 saved) grad_outputs;
  let grads := zip_with activation_backward (saved_intermediate saved) (map grad_input g2) in
  g1 ← column_backward (linear_fc1 l) true None (saved_fc1 saved) grads;
  mret (g1, zip_with (fun g p => match p_bias p with Some _ => Some (broadcast_backward g) | None => None end) grads fc1, g2).
End Mlp.

(* ================================================================== *)
(** ** The layers                                                      *)
(* ================================================================== *)

Section Layers.
Context {V : Type} `{!Scalar V, !ScalarLaws V, !Torch V, !TorchLaws V, !TorchLinear V, !TorchLinearLaws V, !BytepsSum V, !BytepsSumLaw V}.
Implicit Types (X W G H : array V) (n k m i : nat).

(** The parameters of the ranks: the weight cut along its outputs with a cut bias, or along its inputs with a whole bias *)
Definition column_params (n k : nat) (W : array V) (b : option (list V)) (params : list parameters) : Prop :=
  length params = n /\ forall i p, params !! i = Some p -> (exists w, p_weight p = Some w /\ val w = slices k i W) /\ val <$> p_bias p = (fun l => flat (piece k i l)) <$> b.
Definition row_params (n k : nat) (W : array V) (b : option (list V)) (params : list parameters) : Prop :=
  length params = n /\ forall i p, params !! i = Some p -> (exists w, p_weight p = Some w /\ val w = columns k i W) /\ val <$> p_bias p = flat <$> b.
(** With fused accumulation every weight has a buffer of its shape. *)
Definition buffers (fusion : bool) (params : list parameters) : Prop :=
  fusion = true -> Forall (fun p => exists w acc, p_weight p = Some w /\ p_main_grad p = Some acc /\ lead (val acc) = lead (val w) /\ width (val acc) = width (val w)) params.

Lemma spread_one sp m d X : wf X -> lead X = 1 * m :: d -> spread sp 1 m X = replicate 1 X.
Proof.
  intros [Hl _] Hd. destruct sp; [|done]. cbn. f_equal. rewrite Nat.mul_1_l in Hd. apply array_eq; [cbn; rewrite Hd; done|done|]. cbn. unfold piece. cbn [Nat.mul].
  rewrite drop_0. apply take_ge. rewrite Hl, Hd. cbn. lia.
Qed.
Lemma partial_dgrads_one k G W : wf G -> wf W -> width G = 1 * k -> lead W = [1 * k] -> partial_dgrads 1 k G W = replicate 1 (a_mm G W).
Proof.
  intros HG HW HwG HdW. cbn. f_equal. apply array_eq; [done|done|]. cbn. rewrite HdW. cbn. unfold piece. cbn [Nat.mul]. rewrite !drop_0, Nat.mul_1_r.
  unfold wf in HG. rewrite HwG, Nat.mul_1_l in HG. rewrite Nat.mul_1_l in HdW. pose proof (wf_mat W k HdW HW) as [Hl _].
  replace ((λ l, take k (drop 0 l)) <$> rows G) with (rows G) by (symmetry; exact (take_rows _ _ _ HG)). unfold mm. by rewrite (take_ge (rows W)) by lia.
Qed.

(** *** [ColumnParallelLinear] *)
Definition column_layer (cfg : config) (n I k : nat) (gather skip : bool) (l : column_linear) : Prop := column_init cfg n I (n * k) gather skip false false = Ok l.

Lemma column_layer_fields cfg n I k gather skip l : 0 < n -> column_layer cfg n I k gather skip l ->
  cl_gather_output l = gather /\ cl_skip_bias_add l = skip /\ cl_disable_grad_reduce l = false /\ cl_explicit_expert_comm l = false /\
  cl_sequence_parallel l = cfg_sequence_parallel cfg && (1 <? n) /\ cl_allreduce_dgrad l = (1 <? n) && negb (cfg_sequence_parallel cfg) /\
  cl_gradient_accumulation_fusion l = cfg_gradient_accumulation_fusion cfg.
Proof.
  intros Hn. unfold column_layer, column_init. rewrite divide_exact by done. ret_step.
  destruct (cfg_gradient_accumulation_fusion cfg) eqn:Ef, (fusion_available cfg); cbn [andb negb]; try (intros H; discriminate H);
  destruct (cfg_sequence_parallel cfg), (Nat.leb_spec n 1), (Nat.ltb_spec 1 n); try lia; cbn; intros [= <-]; by split_and!.
Qed.

Lemma zip_params (params : list parameters) : zip (no_weights params) params = map (fun p => (None, p)) params.
Proof. unfold no_weights. induction params as [|p params IH]; [done|]. cbn. by rewrite IH. Qed.
Lemma column_weights (l : column_linear) n k W b params : column_params n k W b params ->
  exists ws, mapR (fun x => column_weight l (fst x) (snd x)) (zip (no_weights params) params) = Ok ws /\ length ws = n /\
    forall i p w, params !! i = Some p -> ws !! i = Some w -> p_weight p = Some w.
Proof.
  intros [Hl Hp]. rewrite zip_params. destruct (mapR_ix (fun x => column_weight l (fst x) (snd x)) (fun i x w => p_weight (snd x) = Some w) (map (fun p => (None, p)) params))
    as (ws & E & Hlw & Hw).
  - intros i x Hx. change (map (fun p => (None, p)) params) with ((fun p : parameters => (@None tensor, p)) <$> params) in Hx. rewrite list_lookup_fmap in Hx.
    destruct (params !! i) as [p|] eqn:Ep; [|done]. injection Hx as <-. destruct (Hp i p Ep) as ((w & Ew & _) & _). exists w. unfold column_weight. cbn. by rewrite Ew.
  - exists ws. split; [done|]. split; [by rewrite Hlw, length_map|]. intros i p w Hpi Hwi. apply (Hw i (None, p) w); [|done].
    change (map (fun p => (None, p)) params) with ((fun p : parameters => (@None tensor, p)) <$> params). by rewrite list_lookup_fmap, Hpi.
Qed.

(** What the layer makes of its parameters and inputs *)
Lemma column_operands_spec cfg n I k m d gather skip l W b params X xs : 0 < n -> column_layer cfg n I k gather skip l -> lead W = [n * k] -> wf W ->
  column_params n k W b params -> wf X -> lead X = n * m :: d -> val <$> xs = spread (cfg_sequence_parallel cfg) n m X ->
  exists ranks, column_operands l (no_weights params) params xs = Ok ranks /\ column_shards n k W (if skip then None else b) ranks /\
    val <$> map input ranks = spread (cl_sequence_parallel l) n m X /\
    forall r, weight_requires_grad (column_op l r) = r /\ sequence_parallel (column_op l r) = cl_sequence_parallel l /\
      allreduce_dgrad (column_op l r) = cl_allreduce_dgrad l /\ gradient_accumulation_fusion (column_op l r) = cfg_gradient_accumulation_fusion cfg /\
      (buffers (cfg_gradient_accumulation_fusion cfg) params -> accumulates (column_op l r) ranks).
Proof.
  intros Hn Hlay HdW HW Hpar HX HdX Hxs. destruct (column_layer_fields cfg n I k gather skip l Hn Hlay) as (F1 & F2 & F3 & F4 & F5 & F6 & F7).
  destruct (column_weights l n k W b params Hpar) as (ws & Ews & Hlw & Hws). unfold column_operands. rewrite Ews. ret_step.
  assert (Hlx : length xs = n) by by rewrite (length_vals _ _ Hxs), length_spread.
  replace (if column_copies l then forward copy_to_model_parallel_region xs else mret xs) with (Ok xs) by by destruct (column_copies l).
  ret_step. destruct Hpar as [Hl Hp]. eexists. split; [done|].
  set (f := fun (x : tensor * tensor) (p : parameters) => mkOperands (fst x) (snd x) (if cl_skip_bias_add l then None else p_bias p) (p_main_grad p) (p_has_grad_added p)).
  set (ranks := zip_with f (zip xs ws) params).
  assert (Hlr : length ranks = n) by (unfold ranks; rewrite !length_zip_with; lia).
  assert (Hat : forall i o, ranks !! i = Some o -> exists x w p, xs !! i = Some x /\ ws !! i = Some w /\ params !! i = Some p /\ o = f (x, w) p).
  { intros i o Ho. apply lookup_zip_with_Some in Ho as ([x w] & p & -> & Hz & Hpi). apply lookup_zip_with_Some in Hz as (? & ? & [= <- <-] & Hx & Hw). by exists x, w, p. }
  split_and!.
  - split; [done|]. intros i o Ho. destruct (Hat i o Ho) as (x & w & p & Hx & Hw & Hpi & ->). destruct (Hp i p Hpi) as ((w' & Ew & Hv) & Hb).
    rewrite (Hws i p w Hpi Hw) in Ew. injection Ew as <-. cbn. rewrite F2. split; [done|]. by destruct skip.
  - assert (Hmap : map input ranks = xs).
    { apply list_eq_same_length with n; [done|by rewrite length_map|]. intros i a a' Hi Ha Ha'. change (map input ranks) with (input <$> ranks) in Ha. rewrite list_lookup_fmap in Ha.
      destruct (ranks !! i) as [o|] eqn:Eo; [|done]. injection Ha as <-. destruct (Hat i o Eo) as (x & w & p & Hx & Hw & Hpi & ->). cbn. congruence. }
    rewrite Hmap, F5, Hxs. destruct (Nat.ltb_spec 1 n); [by rewrite andb_true_r|]. assert (n = 1) as -> by lia. rewrite (spread_one _ m d X HX HdX). by rewrite andb_false_r.
  - intros r. unfold column_op. rewrite F4, F7. split_and!; [done..|]. intros Hbuf Hr Hfu. cbn in Hfu. specialize (Hbuf Hfu). apply Forall_lookup. intros i o Ho.
    destruct (Hat i o Ho) as (x & w & p & Hx & Hw & Hpi & ->). rewrite Forall_lookup in Hbuf. destruct (Hbuf i p Hpi) as (w' & acc & Ew & Ea & K1 & K2).
    rewrite (Hws i p w Hpi Hw) in Ew. injection Ew as <-. exists acc. by cbn.
Qed.

(** Forward: every rank has its columns of the output, or all of it when the output is gathered. *)
Lemma column_forward_spec cfg n I k m d gather skip l W b params X xs r : 0 < n -> 0 < m -> column_layer cfg n I k gather skip l -> lead W = [n * k] -> wf W -> width X = width W ->
  (forall v, b = Some v -> length v = n * k) -> column_params n k W b params -> wf X -> lead X = n * m :: d -> val <$> xs = spread (cfg_sequence_parallel cfg) n m X ->
  let Y := linear X W (if skip then None else b) in
  exists ys, column_forward l r None (no_weights params) params xs = Ok (zip ys (map (fun p => if skip then p_bias p else None) params)) /\
    val <$> ys = if gather then replicate n Y else shard_last n k Y.
Proof.
  intros Hn Hm Hlay HdW HW HwX Hb Hpar HX HdX Hxs Y. destruct (column_operands_spec cfg n I k m d gather skip l W b params X xs) as (ranks & E & Hcs & Hin & Hop); try done.
  destruct (column_layer_fields cfg n I k gather skip l Hn Hlay) as (F1 & F2 & _). destruct (Hop r) as (O1 & O2 & O3 & O4 & _).
  assert (Hb' : forall v, (if skip then None else b) = Some v -> length v = n * k) by by destruct skip.
  destruct (linear_forward_column (column_op l r) ranks n k m d W (if skip then None else b) X) as (ys & Ey & Hy); try done; [by rewrite O2|].
  unfold column_forward. rewrite E. ret_step. rewrite Ey. ret_step. unfold gathers_output. cbn [default]. rewrite F1, F2.
  destruct (linear_wf X W (if skip then None else b) (n * k) HX HW HdW Hb') as (Hwf & HdY & HwY). destruct gather.
  - destruct (gather_shards ys n k (n * m) d (linear X W (if skip then None else b))) as (zs & Ez & Hz); try done; [by rewrite (length_vals _ _ Hy), length_shard_last|nia|by rewrite HdY|].
    exists zs. cbn [forward gather_from_model_parallel_region]. rewrite Ez. ret_step. done.
  - by exists ys.
Qed.

Lemma with_grad_inputs_spec op (ranks : list operands) gs ins (gw : nat -> array V) (gb : nat -> list V) n : length gs = n -> length ins = n ->
  (forall i o g, ranks !! i = Some o -> gs !! i = Some g -> parameter_gradients op o (gw i) (gb i) g) ->
  map grad_input (with_grad_inputs gs ins) = ins /\ length (with_grad_inputs gs ins) = n /\
  forall i o g, ranks !! i = Some o -> with_grad_inputs gs ins !! i = Some g -> parameter_gradients op o (gw i) (gb i) g.
Proof.
  intros H1 H2 Hg. split_and!.
  - unfold with_grad_inputs. revert n ins H1 H2. clear. induction gs as [|g gs IH]; intros n [|x ins] H1 H2; cbn in *; try lia; [done|]. f_equal. destruct n as [|n]; [lia|]. apply (IH n); lia.
  - unfold with_grad_inputs. rewrite length_zip_with. lia.
  - intros i o g Ho Hi. apply lookup_zip_with_Some in Hi as (g' & x & -> & Hg' & _). exact (Hg i o g' Ho Hg').
Qed.

(** Backward: every rank gets the gradient of its input and its part of the parameter gradients. *)
Lemma column_backward_spec cfg n I k m d gather skip l W b params X G xs gos r ranks : 0 < n -> 0 < k -> column_layer cfg n I k gather skip l -> lead W = [n * k] -> wf W ->
  width X = width W -> column_params n k W b params -> buffers (cfg_gradient_accumulation_fusion cfg) params -> wf X -> lead X = n * m :: d -> length d <= 1 -> wf G -> lead G = lead X -> width G = n * k ->
  val <$> xs = spread (cfg_sequence_parallel cfg) n m X -> column_operands l (no_weights params) params xs = Ok ranks ->
  val <$> gos = (if gather then replicate n G else shard_last n k G) ->
  exists gs, column_backward l r None ranks gos = Ok gs /\ length gs = n /\ val <$> map grad_input gs = spread (cfg_sequence_parallel cfg) n m (a_mm G W) /\
    forall i o g, ranks !! i = Some o -> gs !! i = Some g -> parameter_gradients (column_op l r) o (slices k i (a_tmm G X)) (piece k i (a_colsum G)) g.
Proof.
  intros Hn Hk Hlay HdW HW HwX Hpar Hbuf HX HdX Hdim HG HdG HwG Hxs Eranks Hgos.
  destruct (column_operands_spec cfg n I k m d gather skip l W b params X xs) as (ranks' & E & Hcs & Hin & Hop); try done. rewrite E in Eranks. injection Eranks as <-.
  destruct (column_layer_fields cfg n I k gather skip l Hn Hlay) as (F1 & F2 & F3 & F4 & F5 & F6 & _). destruct (Hop r) as (O1 & O2 & O3 & O4 & O5).
  unfold column_backward, gathers_output. cbn [default]. rewrite F1. rewrite HdX in HdG.
  assert (Hsplit : computes (if gather then backward gather_from_model_parallel_region gos else mret gos) (shard_last n k G)).
  { destruct gather; [|by apply computes_ok]. cbn [backward gather_from_model_parallel_region]. apply split_replicated; try done. by rewrite (length_vals _ _ Hgos), length_replicate. }
  destruct Hsplit as (gos' & -> & Hgos'). ret_step.
  destruct (linear_backward_column (column_op l r) ranks' n k m d W (if skip then None else b) X G gos') as (gs & -> & Hgi & Hg); try done.
  { rewrite O2, O3, F5, F6. by destruct (cfg_sequence_parallel cfg), (1 <? n). }
  { by apply O5. }
  { by rewrite O2. }
  ret_step. assert (Hd : dgrads (column_op l r) n k m G W = spread (cfg_sequence_parallel cfg) n m (a_mm G W)).
  { unfold dgrads, spread. rewrite O2, O3, F5, F6. destruct (cfg_sequence_parallel cfg), (Nat.ltb_spec 1 n); cbn [andb negb]; try done; assert (n = 1) as -> by lia.
    - rewrite partial_dgrads_one by done. symmetry. apply (spread_one true m d); [by apply a_mm_wf|done].
    - by rewrite partial_dgrads_one. }
  rewrite Hd in Hgi. assert (Hlg : length gs = n) by by rewrite (length_map_vals _ _ _ Hgi), length_spread.
  assert (Hcopy : (if column_copies l then backward copy_to_model_parallel_region (map grad_input gs) else mret (map grad_input gs)) = Ok (map grad_input gs)).
  { unfold column_copies. rewrite F3, F4, F5, F6. destruct (cfg_sequence_parallel cfg), (Nat.ltb_spec 1 n); cbn [andb negb orb]; try done; cbn [backward copy_to_model_parallel_region];
      unfold reduce, group_size; rewrite length_map, Hlg; by replace (n =? 1) with true by (symmetry; apply Nat.eqb_eq; lia). }
  rewrite Hcopy. ret_step. destruct (with_grad_inputs_spec (column_op l r) ranks' gs (map grad_input gs) _ _ n Hlg ltac:(by rewrite length_map) Hg) as (K1 & K2 & K3).
  eexists. split; [done|]. by rewrite K1.
Qed.

(** *** [RowParallelLinear] *)
Definition row_layer (cfg : config) (n k : nat) (parallel skip : bool) (l : row_linear) : Prop := row_init cfg n (n * k) parallel skip false = Ok l.

Lemma row_layer_fields cfg n k parallel skip l : 0 < n -> row_layer cfg n k parallel skip l ->
  rl_input_is_parallel l = parallel /\ rl_skip_bias_add l = skip /\ rl_explicit_expert_comm l = false /\ rl_sequence_parallel l = cfg_sequence_parallel cfg /\
  rl_gradient_accumulation_fusion l = cfg_gradient_accumulation_fusion cfg /\ rl_use_dpu_tp_reduce l = cfg_use_dpu_tp_reduce cfg /\
  (cfg_sequence_parallel cfg = true -> parallel = true).
Proof.
  intros Hn. unfold row_layer, row_init. destruct (cfg_sequence_parallel cfg) eqn:Es, parallel; cbn [andb negb]; try (intros H; discriminate H);
    cbn [mbind res_bind mret res_ret]; rewrite divide_exact by done; cbn [mbind res_bind]; intros [= <-]; by split_and!.
Qed.

(** The operands: shards of the input, whether it is cut already or not *)
Lemma row_operands_spec cfg n k parallel skip l W b params H xs : 0 < n -> 0 < k -> row_layer cfg n k parallel skip l -> wf H -> width H = n * k ->
  row_params n k W b params -> val <$> xs = (if parallel then shard_last n k H else replicate n H) ->
  exists ranks, row_operands l params xs = Ok ranks /\ row_shards n k W ranks /\ val <$> map input ranks = shard_last n k H /\
    forall r, weight_requires_grad (row_op l r) = r /\ gradient_accumulation_fusion (row_op l r) = cfg_gradient_accumulation_fusion cfg /\
      (buffers (cfg_gradient_accumulation_fusion cfg) params -> accumulates (row_op l r) ranks).
Proof.
  intros Hn Hk Hlay HH HwH [Hl Hp] Hxs. destruct (row_layer_fields cfg n k parallel skip l Hn Hlay) as (F1 & F2 & F3 & F4 & F5 & F6 & F7).
  unfold row_operands. rewrite F1, F4.
  assert (Hsplit : computes (if parallel then mret xs else assert_ (negb (cfg_sequence_parallel cfg)) "not self.sequence_parallel";; forward scatter_to_model_parallel_region xs) (shard_last n k H)).
  { destruct parallel; [by apply computes_ok|]. destruct (cfg_sequence_parallel cfg); [by specialize (F7 eq_refl)|]. cbn [negb assert_ mbind res_bind forward scatter_to_model_parallel_region].
    apply split_replicated; try done. by rewrite (length_vals _ _ Hxs), length_replicate. }
  destruct Hsplit as (ys & -> & Hys). ret_step.
  destruct (mapR_ix row_weight (fun i p w => p_weight p = Some w) params) as (ws & -> & Hlw & Hws).
  { intros i p Hpi. destruct (Hp i p Hpi) as ((w & Ew & _) & _). exists w. unfold row_weight. by rewrite Ew. }
  ret_step. eexists. split; [done|]. set (f := fun (x : tensor * tensor) (p : parameters) => mkOperands (fst x) (snd x) None (p_main_grad p) (p_has_grad_added p)).
  assert (Hly : length ys = n) by by rewrite (length_vals _ _ Hys), length_shard_last.
  set (ranks := zip_with f (zip ys ws) params). assert (Hlr : length ranks = n) by (unfold ranks; rewrite !length_zip_with; lia).
  assert (Hat : forall i o, ranks !! i = Some o -> exists x w p, ys !! i = Some x /\ ws !! i = Some w /\ params !! i = Some p /\ o = f (x, w) p).
  { intros i o Ho. apply lookup_zip_with_Some in Ho as ([x w] & p & -> & Hz & Hpi). apply lookup_zip_with_Some in Hz as (? & ? & [= <- <-] & Hx & Hw). by exists x, w, p. }
  split_and!.
  - split; [done|]. intros i o Ho. destruct (Hat i o Ho) as (x & w & p & Hx & Hw & Hpi & ->). destruct (Hp i p Hpi) as ((w' & Ew & Hv) & _).
    rewrite (Hws i p w Hpi Hw) in Ew. injection Ew as <-. by cbn.
  - rewrite <- Hys. f_equal. apply list_eq_same_length with n; [done|by rewrite length_map|]. intros i a a' Hi Ha Ha'. change (map input ranks) with (input <$> ranks) in Ha. rewrite list_lookup_fmap in Ha.
    destruct (ranks !! i) as [o|] eqn:Eo; [|done]. injection Ha as <-. destruct (Hat i o Eo) as (x & w & p & Hx & Hw & Hpi & ->). cbn. congruence.
  - intros r. unfold row_op. rewrite F5. split_and!; [done..|]. intros Hbuf Hr Hfu. cbn in Hfu. specialize (Hbuf Hfu). apply Forall_lookup. intros i o Ho.
    destruct (Hat i o Ho) as (x & w & p & Hx & Hw & Hpi & ->). rewrite Forall_lookup in Hbuf. destruct (Hbuf i p Hpi) as (w' & acc & Ew & Ea & K1 & K2).
    rewrite (Hws i p w Hpi Hw) in Ew. injection Ew as <-. exists acc. by cbn.
Qed.

Lemma partial_products_shaped n k o H W : wf H -> wf W -> width H = n * k -> width W = n * k -> lead W = [o] ->
  Forall (shaped (lead H) o) (zip_with a_mmT (shard_last n k H) (shard_last n k W)).
Proof.
  intros HH HW H1 H2 HdW. unfold shard_last. rewrite zip_seq. apply Forall_fmap, Forall_lookup. intros i j [-> Hj]%lookup_seq. cbn [compose].
  pose proof (shard_last_shaped n k H HH H1) as S1. pose proof (shard_last_shaped n k W HW H2) as S2. rewrite Forall_lookup in S1, S2.
  split_and!; [done|by cbn; rewrite HdW|]. apply (a_mmT_wf _ _ o); [eapply (S1 i); by apply shard_last_lookup|eapply (S2 i); by apply shard_last_lookup|done].
Qed.
(** The region at the output turns summands into the output and gradients of it into gradients for every rank. *)
Lemma row_region_forward cfg n k m d o parallel skip l H W xs : 0 < n -> row_layer cfg n k parallel skip l -> wf H -> wf W -> width H = n * k -> width W = n * k -> lead W = [o] ->
  lead H = n * m :: d -> Forall (fun t => is_contiguous t = true) xs -> val <$> xs = zip_with a_mmT (shard_last n k H) (shard_last n k W) ->
  computes (forward (row_output_region l) xs) (spread (cfg_sequence_parallel cfg) n m (a_mmT H W)).
Proof.
  intros Hn Hlay HH HW HwH HwW HdW HdH Hc Hxs. destruct (row_layer_fields cfg n k parallel skip l Hn Hlay) as (_ & _ & F3 & F4 & _ & F6 & _).
  pose proof (partial_products_shaped n k o H W HH HW HwH HwW HdW) as Hs. rewrite <- Hxs, HdH in Hs.
  assert (Hl : length xs = n) by (rewrite (length_vals _ _ Hxs), length_zip_with, !length_shard_last; lia). assert (Hne : xs <> []) by (intros ->; cbn in Hl; lia).
  assert (Hsum : sum_arrays (val <$> xs) = a_mmT H W) by (rewrite Hxs; by apply (sum_a_mmT H W n k o)). unfold row_output_region. rewrite F3, F4, F6. unfold spread.
  destruct (cfg_sequence_parallel cfg); [|destruct (cfg_use_dpu_tp_reduce cfg)]; cbn [forward reduce_scatter_to_sequence_parallel_region bps_reduce_from_model_parallel_region reduce_from_model_parallel_region].
  - rewrite <- Hl in Hs. pose proof (reduce_scatter_first_spec xs m d o Hne Hs) as Hr. by rewrite Hsum, Hl in Hr.
  - pose proof (bps_reduce_spec xs _ _ Hne Hs Hc) as Hr. by rewrite Hsum, Hl in Hr.
  - pose proof (reduce_spec xs _ _ Hne Hs Hc) as Hr. by rewrite Hsum, Hl in Hr.
Qed.
Lemma row_region_backward cfg n k m d parallel skip l G gos : 0 < n -> row_layer cfg n k parallel skip l -> wf G -> lead G = n * m :: d ->
  val <$> gos = spread (cfg_sequence_parallel cfg) n m G -> computes (backward (row_output_region l) gos) (replicate n G).
Proof.
  intros Hn Hlay HG HdG Hgos. destruct (row_layer_fields cfg n k parallel skip l Hn Hlay) as (_ & _ & F3 & F4 & _ & F6 & _). unfold row_output_region. rewrite F3, F4, F6. unfold spread in Hgos.
  destruct (cfg_sequence_parallel cfg); [|destruct (cfg_use_dpu_tp_reduce cfg); by apply computes_ok]. cbn [backward reduce_scatter_to_sequence_parallel_region].
  apply (gather_first_shards gos n m d); try done. by rewrite (length_vals _ _ Hgos), length_shard_first.
Qed.

(** Forward: every rank has the output, or its slice of the sequence. *)
Lemma row_forward_spec cfg n k m d o parallel skip l W b params H xs r : 0 < n -> 0 < k -> row_layer cfg n k parallel skip l -> lead W = [o] -> wf W -> width W = n * k ->
  (forall v, b = Some v -> length v = o) -> row_params n k W b params -> wf H -> width H = n * k -> lead H = n * m :: d -> val <$> xs = (if parallel then shard_last n k H else replicate n H) ->
  exists ys, row_forward l r params xs = Ok (zip ys (map (fun p => if skip then p_bias p else None) params)) /\
    val <$> ys = spread (cfg_sequence_parallel cfg) n m (linear H W (if skip then None else b)).
Proof.
  intros Hn Hk Hlay HdW HW HwW Hb Hpar HH HwH HdH Hxs. destruct (row_operands_spec cfg n k parallel skip l W b params H xs) as (ranks & E & Hrs & Hin & Hop); try done.
  destruct (row_layer_fields cfg n k parallel skip l Hn Hlay) as (_ & F2 & _). destruct (Hop r) as (O1 & O2 & _).
  destruct (linear_forward_row (row_op l r) ranks n k o W H) as ((ys & Ey & Hy) & ys' & Ey' & Hc); try done. rewrite Ey in Ey'. injection Ey' as <-.
  destruct (row_region_forward cfg n k m d o parallel skip l H W ys) as (zs & Ez & Hz); try done. unfold row_forward. rewrite E. ret_step. rewrite Ey. ret_step. rewrite Ez. ret_step. rewrite F2.
  destruct Hpar as [Hl Hp]. assert (Hlz : length zs = n) by by rewrite (length_vals _ _ Hz), length_spread. destruct skip.
  - exists zs. split; [|done]. unfold mret, res_ret. f_equal. clear -Hl Hlz. revert n params Hl Hlz. induction zs as [|z zs IH]; intros n [|p params] Hl Hlz; cbn in *; try lia; [done|]. f_equal.
    destruct n as [|n]; [lia|]. apply (IH n); lia.
  - exists (zip_with (fun z p => plus_bias z (p_bias p)) zs params). split.
    + unfold mret, res_ret. f_equal. clear -Hl Hlz. revert n params Hl Hlz. induction zs as [|z zs IH]; intros n [|p params] Hl Hlz; cbn in *; try lia; [done|]. f_equal.
      destruct n as [|n]; [lia|]. apply (IH n); lia.
    + assert (Hgen : forall Y : array V, width Y = o -> forall zs0 params0 (l0 : list (array V)), val <$> zs0 = l0 -> Forall (fun a => width a = o) l0 -> length zs0 = length params0 ->
        (forall p, p ∈ params0 -> val <$> p_bias p = flat <$> b) -> val <$> zip_with (fun z p => plus_bias z (p_bias p)) zs0 params0 = (fun a => match b with Some v => a_addrow v a | None => a end) <$> l0).
      { intros _ _. induction zs0 as [|z zs0 IH]; intros [|p params0] l0 <- Hf Hlen Hall; try done. cbn. apply Forall_cons in Hf as [Hz0 Hf]. f_equal.
        - specialize (Hall p ltac:(left)). destruct b as [v|], (p_bias p) as [t|]; cbn in Hall; try done. injection Hall as Hall. cbn. apply add_bias_val; [done|]. rewrite Hz0. by apply Hb.
        - apply IH; [done|exact Hf|by injection Hlen|]. intros q Hq. apply Hall. by right. }
      assert (HwY : width (a_mmT H W) = o) by (cbn; by rewrite HdW).
      rewrite (Hgen (a_mmT H W) HwY zs params _ Hz).
      * unfold spread, linear. destruct (cfg_sequence_parallel cfg).
        -- unfold shard_first. rewrite <- list_fmap_compose. apply list_fmap_ext. intros i j _. cbn [compose]. destruct b as [v|]; [|done].
           apply array_eq; [done|done|]. cbn. unfold addrow. by rewrite piece_fmap.
        -- rewrite fmap_replicate. by destruct b.
      * unfold spread. destruct (cfg_sequence_parallel cfg); [|by apply Forall_replicate]. unfold shard_first. apply Forall_fmap, Forall_true. done.
      * lia.
      * intros p Hpi. apply list_elem_of_lookup in Hpi as [i Hi]. apply (Hp i p Hi).
Qed.
(** Backward: every rank gets its part of the gradient of the input, or all of it, and its part of the weight gradient. *)
Lemma row_backward_spec cfg n k m d o parallel skip l W b params H G xs gos r ranks : 0 < n -> 0 < k -> 0 < m -> row_layer cfg n k parallel skip l -> lead W = [o] -> wf W -> width W = n * k ->
  row_params n k W b params -> buffers (cfg_gradient_accumulation_fusion cfg) params -> wf H -> width H = n * k -> lead H = n * m :: d -> length d <= 1 -> wf G -> lead G = lead H -> width G = o ->
  val <$> xs = (if parallel then shard_last n k H else replicate n H) -> row_operands l params xs = Ok ranks -> val <$> gos = spread (cfg_sequence_parallel cfg) n m G ->
  exists gs, row_backward l r ranks gos = Ok gs /\ length gs = n /\ val <$> map grad_input gs = (if parallel then shard_last n k (a_mm G W) else replicate n (a_mm G W)) /\
    forall i p g, ranks !! i = Some p -> gs !! i = Some g -> parameter_gradients (row_op l r) p (columns k i (a_tmm G H)) (a_colsum G) g.
Proof.
  intros Hn Hk Hm Hlay HdW HW HwW Hpar Hbuf HH HwH HdH Hdim HG HdG HwG Hxs Eranks Hgos.
  destruct (row_operands_spec cfg n k parallel skip l W b params H xs) as (ranks' & E & Hrs & Hin & Hop); try done. rewrite E in Eranks. injection Eranks as <-.
  destruct (row_layer_fields cfg n k parallel skip l Hn Hlay) as (F1 & _). destruct (Hop r) as (O1 & O2 & O3).
  destruct (row_region_backward cfg n k m d parallel skip l G gos) as (gos' & Eg & Hgos'); try done; [by rewrite HdG|]. unfold row_backward. rewrite Eg. ret_step.
  destruct (linear_backward_row (row_op l r) ranks' n k o W H G gos') as (gs & -> & Hgi & Hg); try done.
  { rewrite HdG, HdH. cbn. lia. }
  { by apply O3. }
  ret_step. rewrite F1. assert (Hlg : length gs = n) by by rewrite (length_map_vals _ _ _ Hgi), length_shard_last.
  assert (Hscatter : computes (if parallel then mret (map grad_input gs) else backward scatter_to_model_parallel_region (map grad_input gs))
    (if parallel then shard_last n k (a_mm G W) else replicate n (a_mm G W))).
  { destruct parallel; [by apply computes_ok|]. cbn [backward scatter_to_model_parallel_region]. apply (gather_shards _ n k (n * m) d); try done; [by rewrite length_map|nia|by apply a_mm_wf|by cbn; rewrite HdG]. }
  destruct Hscatter as (ins & Ei & Hi). rewrite Ei. ret_step. assert (Hli : length ins = n) by (rewrite (length_vals _ _ Hi); destruct parallel; [apply length_shard_last|apply length_replicate]).
  destruct (with_grad_inputs_spec (row_op l r) ranks' gs ins _ _ n Hlg Hli Hg) as (K1 & K2 & K3). eexists. split; [done|]. by rewrite K1.
Qed.
End Layers.

(* ================================================================== *)
(** ** The MLP on the ranks is the MLP                                 *)
(* ================================================================== *)

Section MlpCorrect.
Context {V : Type} `{!Scalar V, !ScalarLaws V, !Torch V, !TorchLaws V, !TorchLinear V, !TorchLinearLaws V, !BytepsSum V, !BytepsSumLaw V, !Activation V, !ActivationLaws V}.
Implicit Types (X W G H Z : array V) (n k m i : nat).

Lemma a_map_wf (f : V -> V) X : wf X -> wf (a_map f X).
Proof.
  intros [Hl Hf]. split; cbn; [by rewrite length_map|]. change (map (map f) (rows X)) with (map f <$> rows X). apply Forall_fmap. eapply Forall_impl; [exact Hf|].
  intros r Hr. cbn. by rewrite length_map.
Qed.
Lemma a_zip_wf (f : V -> V -> V) X Z : wf X -> wf Z -> lead Z = lead X -> width Z = width X -> wf (a_zip f X Z).
Proof.
  intros [Hl Hf] [Hl' Hf'] Hd Hw. rewrite Hd in Hl'. rewrite Hw in Hf'. split; cbn [a_zip rows lead width]; [rewrite length_zip_with; unfold numel in *; lia|]. revert Hf'. generalize (rows Z). clear -Hf.
  induction Hf as [|r m Hr Hf IH]; intros m' Hf'; [constructor|]. destruct Hf' as [|r' m' Hr' Hf']; [constructor|]. constructor; [rewrite length_zip_with; lia|by apply IH].
Qed.
Lemma columns_map (f : V -> V) k i X : a_map f (columns k i X) = columns k i (a_map f X).
Proof.
  apply array_eq; [done|done|]. cbn. change (map (map f)) with (fmap (M := list) (map f)). rewrite <- !list_fmap_compose. apply list_fmap_ext. intros _ r _. symmetry. apply piece_fmap.
Qed.
Lemma columns_zip (f : V -> V -> V) k i X Z : a_zip f (columns k i X) (columns k i Z) = columns k i (a_zip f X Z).
Proof.
  apply array_eq; [done|done|]. cbn. generalize (rows Z). induction (rows X) as [|r m IH]; intros [|r' m']; cbn; [done..|]. rewrite IH. f_equal. symmetry. apply piece_zip_with.
Qed.

(** The elementwise steps between the layers *)
Lemma intermediate_spec n k W b X fc1 ys : wf X -> wf W -> lead W = [n * k] -> (forall v, b = Some v -> length v = n * k) -> column_params n k W b fc1 -> val <$> ys = shard_last n k (a_mmT X W) ->
  val <$> map (fun x => plus_bias (fst x) (snd x)) (zip ys (map p_bias fc1)) = shard_last n k (linear X W b).
Proof.
  intros HX HW HdW Hb [Hl Hp] Hys. change (map (fun x => plus_bias (fst x) (snd x))) with (fmap (M := list) (fun x : tensor * option tensor => plus_bias (fst x) (snd x))).
  rewrite <- list_fmap_compose. apply fmap_seq_lookup; [rewrite length_zip_with, length_map, (length_vals _ _ Hys), length_shard_last; lia|].
  intros i [y t] Hi. apply lookup_zip_with_Some in Hi as (? & ? & [= <- <-] & Hy & Ht). change (map p_bias fc1) with (p_bias <$> fc1) in Ht. rewrite list_lookup_fmap in Ht.
  destruct (fc1 !! i) as [p|] eqn:Ep; [|done]. injection Ht as <-. destruct (vals_at _ _ _ _ _ Hys Hy) as [Hin Hv]. destruct (Hp i p Ep) as [_ Hbias]. cbn [compose fst snd].
  unfold plus_bias, linear. destruct b as [v|], (p_bias p) as [t|]; cbn in Hbias; try done. injection Hbias as Ht. rewrite (add_bias_val _ _ (piece k i v)); [|done|].
  - by rewrite Hv, a_addrow_columns.
  - rewrite Hv. cbn. apply (length_piece k n); [by apply Hb|done].
Qed.
Lemma activated_spec n k Z ts : val <$> ts = shard_last n k Z -> val <$> map activation_func ts = shard_last n k (a_map act Z).
Proof.
  intros Hts. change (map activation_func ts) with (activation_func <$> ts). rewrite <- list_fmap_compose. apply fmap_seq_lookup; [by rewrite (length_vals _ _ Hts), length_shard_last|].
  intros i t Ht. destruct (vals_at _ _ _ _ _ Hts Ht) as [_ Hv]. cbn [compose]. by rewrite activation_val, Hv, columns_map.
Qed.
Lemma activation_grads_spec n k Z H ts gs : lead H = lead Z -> width H = width Z -> val <$> ts = shard_last n k Z -> val <$> gs = shard_last n k H ->
  val <$> zip_with activation_backward ts gs = shard_last n k (a_zip act_grad Z H).
Proof.
  intros Hd Hw Hts Hgs. apply fmap_seq_lookup; [rewrite length_zip_with, (length_vals _ _ Hts), (length_vals _ _ Hgs), !length_shard_last; lia|].
  intros i y Hy. apply lookup_zip_with_Some in Hy as (t & g & -> & Ht & Hg). destruct (vals_at _ _ _ _ _ Hts Ht) as [_ Hv]. destruct (vals_at _ _ _ _ _ Hgs Hg) as [_ Hv'].
  rewrite activation_backward_val; [by rewrite Hv, Hv', columns_zip|by rewrite Hv, Hv'|by rewrite Hv, Hv'].
Qed.
Lemma bias_grads_spec n k Z W b fc1 gs : 0 < n -> wf Z -> width Z = n * k -> column_params n k W b fc1 -> val <$> gs = shard_last n k Z ->
  fmap val <$> zip_with (fun g p => match p_bias p with Some _ => Some (broadcast_backward g) | None => None end) gs fc1 =
    (fun i => (fun _ => flat (piece k i (a_colsum Z))) <$> b) <$> seq 0 n.
Proof.
  intros Hn HZ Hw [Hl Hp] Hgs. apply fmap_seq_lookup; [rewrite length_zip_with, (length_vals _ _ Hgs), length_shard_last; lia|].
  intros i y Hy. apply lookup_zip_with_Some in Hy as (g & p & -> & Hg & Hpi). destruct (vals_at _ _ _ _ _ Hgs Hg) as [Hin Hv]. destruct (Hp i p Hpi) as [_ Hbias].
  destruct b as [v|], (p_bias p) as [t|]; cbn in Hbias; try done. cbn. by rewrite broadcast_backward_val, Hv, (a_colsum_columns Z n).
Qed.

Lemma mlp_init_layers cfg n I f k l : default (n * k) f = n * k -> mlp_init cfg n I f (n * k) false = Ok l -> column_layer cfg n I k false true (linear_fc1 l) /\ row_layer cfg n k true true (linear_fc2 l).
Proof.
  intros Hf. unfold mlp_init, column_layer, row_layer. assert (Hm : forall (h : nat -> res mlp), (match f with Some size => mret size | None => mret (n * k) end ≫= h) = h (n * k)) by (intros h; destruct f as [?|]; cbn in Hf; [by rewrite Hf|done]).
  cbv iota. rewrite Hm. destruct (column_init _ _ _ _ _ _ _ _); [|done]. cbn. destruct (row_init _ _ _ _ _ _); [|done]. by intros [= <-].
Qed.

(** The MLP on any number of tensor-parallel ranks, with or without sequence parallelism, with reductions over the process group or over
    BytePS, computes what the whole matrices give: the output, the gradient of the input, and on every rank its shards of
    the gradients of both weights and of the bias of the first layer. (C2) *)
Theorem mlp_correct cfg n k m d I f o l W1 b1 W2 b2 fc1 fc2 X G xs gos :
  0 < n -> 0 < k -> 0 < m -> length d <= 1 -> default (n * k) f = n * k -> mlp_init cfg n I f (n * k) false = Ok l ->
  wf W1 -> lead W1 = [n * k] -> (forall v, b1 = Some v -> length v = n * k) -> wf W2 -> lead W2 = [o] -> width W2 = n * k -> (forall v, b2 = Some v -> length v = o) ->
  column_params n k W1 b1 fc1 -> row_params n k W2 b2 fc2 -> buffers (cfg_gradient_accumulation_fusion cfg) fc1 -> buffers (cfg_gradient_accumulation_fusion cfg) fc2 ->
  wf X -> lead X = n * m :: d -> width X = width W1 -> wf G -> lead G = lead X -> width G = o ->
  val <$> xs = spread (cfg_sequence_parallel cfg) n m X -> val <$> gos = spread (cfg_sequence_parallel cfg) n m G ->
  let Z := linear X W1 b1 in
  let H := a_map act Z in
  let dZ := a_zip act_grad Z (a_mm G W2) in
  exists ys saved g1 gb1 g2,
    mlp_forward l fc1 fc2 xs = Ok (zip ys (map p_bias fc2), saved) /\ val <$> ys = spread (cfg_sequence_parallel cfg) n m (a_mmT H W2) /\
    mlp_backward l fc1 saved gos = Ok (g1, gb1, g2) /\ val <$> map grad_input g1 = spread (cfg_sequence_parallel cfg) n m (a_mm dZ W1) /\
    fmap val <$> gb1 = (fun i => (fun _ => flat (piece k i (a_colsum dZ))) <$> b1) <$> seq 0 n /\
    length g1 = n /\ length g2 = n /\ length (saved_fc1 saved) = n /\ length (saved_fc2 saved) = n /\
    (forall i p g, saved_fc1 saved !! i = Some p -> g1 !! i = Some g -> parameter_gradients (column_op (linear_fc1 l) true) p (slices k i (a_tmm dZ X)) (piece k i (a_colsum dZ)) g) /\
    (forall i p g, saved_fc2 saved !! i = Some p -> g2 !! i = Some g -> parameter_gradients (row_op (linear_fc2 l) true) p (columns k i (a_tmm G H)) (a_colsum G) g).
Proof.
  intros Hn Hk Hm Hdim Hf Hinit HW1 HdW1 Hb1 HW2 HdW2 HwW2 Hb2 Hp1 Hp2 Hbuf1 Hbuf2 HX HdX HwX HG HdG HwG Hxs Hgos Z H dZ.
  destruct (mlp_init_layers cfg n I f k l Hf Hinit) as [Hl1 Hl2]. assert (HdG' : lead G = n * m :: d) by congruence.
  destruct (linear_wf X W1 b1 (n * k) HX HW1 HdW1 Hb1) as (HZ & HdZ & HwZ). fold Z in HZ, HdZ, HwZ. assert (HH : wf H) by by apply a_map_wf.
  pose proof (a_mm_wf G W2 HG HW2) as HdH. assert (HdZwf : wf dZ) by (apply a_zip_wf; [done|done|by rewrite HdZ|by rewrite HwZ]).
  destruct (column_operands_spec cfg n I k m d false true (linear_fc1 l) W1 b1 fc1 X xs) as (r1 & E1 & [Hs1 _] & _); try done.
  destruct (column_forward_spec cfg n I k m d false true (linear_fc1 l) W1 b1 fc1 X xs true) as (ys1 & F1 & Hy1); try done.
  pose proof (intermediate_spec n k W1 b1 X fc1 ys1 HX HW1 HdW1 Hb1 Hp1 Hy1) as Hint. fold Z in Hint. set (ts := map (fun x => plus_bias (fst x) (snd x)) (zip ys1 (map p_bias fc1))) in *.
  pose proof (activated_spec n k Z ts Hint) as Hact. fold H in Hact.
  destruct (row_operands_spec cfg n k true true (linear_fc2 l) W2 b2 fc2 H (map activation_func ts)) as (r2 & E2 & [Hs2 _] & _); try done.
  destruct (row_forward_spec cfg n k m d o true true (linear_fc2 l) W2 b2 fc2 H (map activation_func ts) true) as (ys & F2 & Hy2); try done; [by cbn; rewrite HdZ|].
  destruct (row_backward_spec cfg n k m d o true true (linear_fc2 l) W2 b2 fc2 H G (map activation_func ts) gos true r2) as (g2 & B2 & Hlg2 & Hgi2 & Hg2); try done; [by cbn; rewrite HdZ|by cbn; rewrite HdZ|].
  pose proof (activation_grads_spec n k Z (a_mm G W2) ts (map grad_input g2) ltac:(by rewrite HdZ) ltac:(by rewrite HwZ) Hint Hgi2) as Hgr. fold dZ in Hgr.
  set (grads := zip_with activation_backward ts (map grad_input g2)) in *.
  destruct (column_backward_spec cfg n I k m d false true (linear_fc1 l) W1 b1 fc1 X dZ xs grads true r1) as (g1 & B1 & Hlg1 & Hgi1 & Hg1); try done.
  pose proof (bias_grads_spec n k dZ W1 b1 fc1 grads Hn HdZwf HwZ Hp1 Hgr) as Hgb.
  exists ys, (mkSaved r1 ts r2), g1, (zip_with (fun g p => match p_bias p with Some _ => Some (broadcast_backward g) | None => None end) grads fc1), g2.
  unfold mlp_forward, mlp_backward. rewrite E1. ret_step. rewrite F1. ret_step. cbv zeta. change (map (fun p : parameters => p_bias p) fc1) with (map p_bias fc1). fold ts. rewrite E2. ret_step. rewrite F2. ret_step. cbn [saved_fc1 saved_fc2 saved_intermediate]. rewrite B2. ret_step. fold grads. rewrite B1. ret_step. split_and!; done.
Qed.
End MlpCorrect.
