(* ===== verification/TpReference.v ===== *)
(** * Tensor-parallel layers on concrete tensors

    The operations of the linear layers on the concrete torch, and the MLP on two ranks of integers. *)

From S2P Require Import Prelude Matrix Torch TpMappings TpMappingsProofs TpMappingsTheorems TpLinear TpLinearProofs TpLayers TorchReference.

#[local] Open Scope nat_scope.

Section Reference.
Context {V : Type} `{!Scalar V}.
#[local] Existing Instance reference.

#[local] Instance reference_linear : TorchLinear V := {|
  matmul_t x w := mk (a_mmT (ref_val x) (ref_val w));
  matmul g w := mk (a_mm (ref_val g) (ref_val w));
  t_matmul g x := mk (a_tmm (ref_val g) (ref_val x));
  add_bias o b := mk (a_addrow (default [] (head (rows (ref_val b)))) (ref_val o));
  sum_rows g := mk (flat (a_colsum (ref_val g)));
  view_2d t := mk (flatten_lead (ref_val t));
  wgrad_gemm_accum x g acc := mk (a_add (ref_val acc) (a_tmm (ref_val g) (ref_val x)))
|}.

#[export] Instance reference_linear_laws : TorchLinearLaws V.
Proof.
  split; cbn [val tensor reference is_contiguous].
  - intros x w o Hd Hw. apply ref_val_ok. apply (a_mmT_wf _ _ o); [apply ref_val_wf..|done].
  - done.
  - intros g w Hd. apply ref_val_ok. apply a_mm_wf; apply ref_val_wf.
  - done.
  - intros g x m Hg Hx. apply ref_val_ok. apply a_tmm_wf, ref_val_wf.
  - intros o b l Hb Hl. cbn [add_bias reference_linear]. rewrite Hb. apply ref_val_ok. apply a_addrow_wf; [done|apply ref_val_wf].
  - intros g m Hg. apply ref_val_ok, flat_wf.
  - intros t a b Hd. apply ref_val_ok. pose proof (ref_val_wf t) as [_ Hf]. split; [cbn; lia|done].
  - intros x g acc m Hg Hx Ha Hw. apply ref_val_ok. unfold wf. cbn [a_add lead width rows]. rewrite Ha, Hw. apply madd_mat.
    + pose proof (ref_val_wf acc) as H. unfold wf in H. by rewrite Ha, Hw in H.
    + pose proof (a_tmm_wf (ref_val g) (ref_val x) (ref_val_wf x)) as H. exact H.
Qed.

Section Act.
Context (f : V -> V) (df : V -> V -> V).
#[local] Instance reference_activation : Activation V := {|
  act := f;
  act_grad := df;
  activation_func t := mk (a_map f (ref_val t));
  activation_backward t g := mk (a_zip df (ref_val t) (ref_val g));
  broadcast_backward g := mk (flat (a_colsum (ref_val g)))
|}.
Lemma reference_activation_laws : ActivationLaws V.
Proof.
  split; cbn [val tensor reference act act_grad activation_func activation_backward broadcast_backward reference_activation].
  - intros t. apply ref_val_ok, a_map_wf, ref_val_wf.
  - intros t g Hd Hw. apply ref_val_ok. apply a_zip_wf; [apply ref_val_wf..|done|done].
  - intros g. apply ref_val_ok, flat_wf.
Qed.
End Act.
End Reference.

(* ================================================================== *)
(** ** Two ranks                                                       *)
(* ================================================================== *)

Module Example_.
#[local] Existing Instances Z_scalar Z_scalar_laws reference reference_linear.
#[local] Instance Z_push_pull : BytepsSum Z := all_reduce.
#[local] Instance Z_push_pull_law : BytepsSumLaw Z.
Proof. exact all_reduce_val. Qed.
(** The rectifier and its derivative *)
#[local] Instance relu : Activation Z := reference_activation (Z.max 0) (fun x g => if (0 <? x)%Z then g else 0%Z).
#[local] Instance relu_laws : ActivationLaws Z := reference_activation_laws _ _.

Definition tens (a : array Z) : tensor := (a, true).
(** Sequence length 4, hidden size 2, four features on two ranks, BytePS reductions *)
Definition cfg : config := mkConfig false false false true true.
Definition layers : mlp := mkMlp (mkColumn 2 false true false false 2 false true false) (mkRow true true false 2 false false true).
Definition W1 : array Z := Array [4] 2 [[1;2];[3;-1];[0;1];[2;2]]%Z.
Definition b1 : list Z := [1;0;-1;2]%Z.
Definition W2 : array Z := Array [2] 4 [[1;0;2;1];[0;1;-1;1]]%Z.
Definition X : array Z := Array [4] 2 [[1;0];[0;1];[2;-1];[1;1]]%Z.
Definition G : array Z := Array [4] 2 [[1;1];[0;2];[1;-1];[3;0]]%Z.
Definition fc1 : list parameters := map (fun i => mkParameters (Some (tens (slices 2 i W1))) (Some (tens (flat (piece 2 i b1)))) None false) [0; 1].
Definition fc2 : list parameters := map (fun i => mkParameters (Some (tens (columns 2 i W2))) None None false) [0; 1].
Definition xs : list tensor := [tens X; tens X].
Definition gos : list tensor := [tens G; tens G].

Lemma ranks_of_two {A} (P : nat -> A -> Prop) a b : P 0 a -> P 1 b -> forall i p, [a; b] !! i = Some p -> P i p.
Proof. intros H0 H1 [|[|i]] p; cbn; [by intros [= <-]|by intros [= <-]|done]. Qed.
Lemma fc1_params : column_params 2 2 W1 (Some b1) fc1.
Proof. split; [done|]. refine (ranks_of_two _ _ _ _ _); (split; [eexists; split; [done|]|]; by vm_compute). Qed.
Lemma fc2_params : row_params 2 2 W2 None fc2.
Proof. split; [done|]. refine (ranks_of_two _ _ _ _ _); (split; [eexists; split; [done|]|]; by vm_compute). Qed.

Lemma mlp_correct_witness : mlp_init cfg 2 2 None 4 false = Ok layers /\
  let Z := linear X W1 (Some b1) in let dZ := a_zip act_grad Z (a_mm G W2) in
  exists ys saved g1 gb1 g2, mlp_forward layers fc1 fc2 xs = Ok (zip ys (map p_bias fc2), saved) /\ val <$> ys = replicate 2 (a_mmT (a_map act Z) W2) /\
    mlp_backward layers fc1 saved gos = Ok (g1, gb1, g2) /\ val <$> map grad_input g1 = replicate 2 (a_mm dZ W1).
Proof.
  split; [reflexivity|]. cbv zeta.
  destruct (mlp_correct cfg 2 2 2 [] 2 None 2 layers W1 (Some b1) W2 None fc1 fc2 X G xs gos) as (ys & saved & g1 & gb1 & g2 & H1 & H2 & H3 & H4 & _);
    try lia; try done; try exact fc1_params; try exact fc2_params; try (by apply wfb_spec); try (by intros v [= <-]); [cbn; lia|].
  exists ys, saved, g1, gb1, g2. split; [exact H1|]. split; [exact H2|]. split; [exact H3|exact H4].
Defined.
End Example_.
