(* ===== verification/VocabParallel.v ===== *)
(** * Vocabulary-parallel embedding

    [VocabUtility] of [megatron/core/tensor_parallel/utils.py] and [VocabParallelEmbedding] and the initialization of weights in [layers.py]:
    every rank has the rows of a range of the vocabulary, looks up the tokens of its range and the ranks add up. *)

From S2P Require Import Prelude Matrix Torch TpMappings TpMappingsProofs TpMappingsTheorems TorchReference.

#[local] Open Scope nat_scope.

(* ================================================================== *)
(** ** Vocabulary ranges                                               *)
(* ================================================================== *)

(** [VocabUtility.vocab_range_from_per_partition_vocab_size], [vocab_range_from_global_vocab_size] *)
Definition vocab_range_from_per_partition_vocab_size (per_partition_vocab_size rank world_size : nat) : nat * nat :=
  let index_f := rank * per_partition_vocab_size in (index_f, index_f + per_partition_vocab_size).
Definition vocab_range_from_global_vocab_size (global_vocab_size rank world_size : nat) : res (nat * nat) :=
  per_partition_vocab_size ← divide global_vocab_size world_size;
  mret (vocab_range_from_per_partition_vocab_size per_partition_vocab_size rank world_size).

(* ================================================================== *)
(** ** The embedding                                                   *)
(* ================================================================== *)

(** Contents of a tensor of token ids are an [array Z]; masks are arrays of booleans. *)
Class TorchEmbedding (V : Type) `{!Torch V} := {
  (** [F.embedding(ids, weight)] and [weight[ids]]; [output[mask, :] = 0.0]; [output.transpose(0, 1)] *)
  embedding : array Z -> tensor -> tensor;
  zero_rows : array bool -> tensor -> tensor;
  transpose01 : tensor -> tensor
}.

(** All positions of an array, in row-major order *)
Definition positions {A} (a : array A) : list A := concat (rows a).
Definition map_array {A B} (f : A -> B) (a : array A) : array B := Array (lead a) (width a) (map (map f) (rows a)).
Definition zip_array {A B C} (f : A -> B -> C) (a : array A) (b : array B) : array C := Array (lead a) (width a) (zip_with (zip_with f) (rows a) (rows b)).

Section Lookup.
Context {V : Type} `{!Scalar V}.
(** The rows of [w] at the ids *)
Definition a_embedding (ids : array Z) (w : array V) : array V :=
  Array (lead ids ++ [width ids]) (width w) (map (fun id => default [] (rows w !! Z.to_nat id)) (positions ids)).
Definition a_zero_rows (mask : array bool) (a : array V) : array V :=
  Array (lead a) (width a) (zip_with (fun (m : bool) r => if m then replicate (width a) s_zero else r) (positions mask) (rows a)).
(** [b, s, h] to [s, b, h] *)
Definition a_transpose01 (a : array V) : array V :=
  match lead a with
  | [b; s] => Array [s; b] (width a) (concat (map (fun j => map (fun i => default [] (rows a !! (i * s + j))) (seq 0 b)) (seq 0 s)))
  | _ => a
  end.
End Lookup.

Definition ids_in (ids : array Z) (n : nat) : Prop := Forall (fun id => (0 <= id < Z.of_nat n)%Z) (positions ids).

Class TorchEmbeddingLaws (V : Type) `{!Scalar V, !Torch V, !TorchEmbedding V} : Prop := {
  embedding_val : forall ids w n, wf ids -> lead (val w) = [n] -> ids_in ids n -> val (embedding ids w) = a_embedding ids (val w);
  embedding_contiguous : forall ids w, is_contiguous (embedding ids w) = true;
  zero_rows_val : forall mask t, wf mask -> lead mask ++ [width mask] = lead (val t) -> val (zero_rows mask t) = a_zero_rows mask (val t);
  zero_rows_contiguous : forall mask t, is_contiguous (zero_rows mask t) = is_contiguous t;
  transpose01_val : forall t b s, lead (val t) = [b; s] -> val (transpose01 t) = a_transpose01 (val t)
}.

Section Embedding.
Context {V : Type} `{!Scalar V, !Torch V, !TorchEmbedding V, !BytepsSum V}.

(** [VocabParallelEmbedding] on a rank *)
Record vocab_embedding := mkEmbedding {
  vocab_start_index : nat;
  vocab_end_index : nat;
  num_embeddings_per_partition : nat;
  reduce_scatter_embeddings : bool
}.
Definition vocab_embedding_init (num_embeddings rank world_size : nat) (reduce_scatter_embeddings_ : bool) : res vocab_embedding :=
  range ← vocab_range_from_global_vocab_size num_embeddings rank world_size;
  mret (mkEmbedding (fst range) (snd range) (snd range - fst range) reduce_scatter_embeddings_).

(** [(input_ < vocab_start_index) | (input_ >= vocab_end_index)] *)
Definition input_mask (e : vocab_embedding) (input_ : array Z) : array bool :=
  map_array (fun id => ((id <? Z.of_nat (vocab_start_index e)) || (Z.of_nat (vocab_end_index e) <=? id))%Z) input_.
(** [masked_input = input_.clone() - vocab_start_index; masked_input[input_mask] = 0] *)
Definition masked_input (e : vocab_embedding) (input_ : array Z) : array Z :=
  zip_array (fun (m : bool) id => if m then 0%Z else id) (input_mask e input_) (map_array (fun id => id - Z.of_nat (vocab_start_index e))%Z input_).

(** The lookup of a rank *)
Definition output_parallel (world_size : nat) (e : vocab_embedding) (input_ : array Z) (weight : tensor) : tensor :=
  if 1 <? world_size then zero_rows (input_mask e input_) (embedding (masked_input e input_) weight) else embedding input_ weight.

(** [VocabParallelEmbedding.forward] on the ranks, which get the same ids; the flag is the same everywhere. *)
Definition vocab_embedding_forward (reduce_scatter_embeddings_ : bool) (ranks : list (vocab_embedding * tensor)) (input_ : array Z) : res (list tensor) :=
  let outputs := map (fun r => output_parallel (length ranks) (fst r) input_ (snd r)) ranks in
  if reduce_scatter_embeddings_
  then forward (reduce_scatter_to_sequence_parallel_region None) (map (fun t => contiguous (transpose01 t)) outputs)
  else forward reduce_from_model_parallel_region outputs.

(* ================================================================== *)
(** ** Initialization of weights                                       *)
(* ================================================================== *)

(** [_initialize_affine_weight_cpu] once the master weight is allocated, initialized and converted to [params_dtype], with the rank
    and the size of the group given: the strided parts of a rank; [partition_dim] is 0 for the rows, else the columns. *)
Definition initialize_affine_weight_cpu (master_weight : tensor) (per_partition_size : nat) (partition_first : bool) (stride rank world_size : nat) : res tensor :=
  per_partition_per_stride_size ← divide per_partition_size stride;
  let weight_list := if partition_first then torch_split_first per_partition_per_stride_size master_weight else torch_split per_partition_per_stride_size master_weight in
  let my_weight_list := py_stride (Z.of_nat rank) (Z.of_nat world_size) weight_list in
  mret (if partition_first then cat_first my_weight_list else cat_last my_weight_list).
End Embedding.
