(* ===== verification/VocabParallelProofs.v ===== *)
(** * Vocabulary-parallel embedding: theorems *)

From S2P Require Import Prelude Matrix Torch TpMappings TpMappingsProofs TpMappingsTheorems TorchReference TpLinear TpLinearProofs VocabParallel.

#[local] Open Scope nat_scope.

Lemma map_fmap {A B} (f : A -> B) (l : list A) : map f l = f <$> l.
Proof. reflexivity. Qed.

Lemma zip_map_rows {A B C D} (g : B -> C -> D) (f1 : A -> B) (f2 : A -> C) (l : list A) : zip_with g (map f1 l) (map f2 l) = map (fun x => g (f1 x) (f2 x)) l.
Proof. induction l as [|x l IH]; [done|]. cbn. by rewrite IH. Qed.

Section Positions.
Context {A : Type}.
Lemma length_positions (a : array A) : wf a -> length (positions a) = numel (lead a ++ [width a]).
Proof.
  intros [Hl Hf]. unfold positions. rewrite (length_concat_same (width a)) by done. rewrite Hl. unfold numel. rewrite foldr_app. cbn. rewrite Nat.mul_1_r.
  generalize (width a) as w. intros w. clear. induction (lead a) as [|x l IH]; cbn; lia.
Qed.
Lemma map_array_wf {B} (f : A -> B) (a : array A) : wf a -> wf (map_array f a).
Proof. intros [Hl Hf]. split; cbn; [by rewrite length_map|]. rewrite map_fmap. apply Forall_fmap. eapply Forall_impl; [exact Hf|]. intros r Hr. cbn. by rewrite length_map. Qed.
Lemma positions_rows (d : list nat) (w : nat) (l : list (list A)) : positions (Array d w l) = concat l.
Proof. reflexivity. Qed.
Lemma positions_map {B} (f : A -> B) (a : array A) : positions (map_array f a) = map f (positions a).
Proof. unfold positions. cbn. by rewrite concat_map. Qed.
Lemma zip_array_map {B C D} (g : B -> C -> D) (f1 : A -> B) (f2 : A -> C) (a : array A) : zip_array g (map_array f1 a) (map_array f2 a) = map_array (fun x => g (f1 x) (f2 x)) a.
Proof.
  apply array_eq; [done|done|]. cbn. rewrite (zip_map_rows (zip_with g) (map f1) (map f2)). apply map_ext. intros r. apply zip_map_rows.
Qed.
End Positions.

Section Proofs.
Context {V : Type} `{!Scalar V, !ScalarLaws V, !Torch V, !TorchLaws V, !TorchEmbedding V, !TorchEmbeddingLaws V, !BytepsSum V}.
Implicit Types (W : array V) (ids : array Z) (n p i : nat).

(** The row of an id if it lies in the ids [lo] to [hi], else zeros *)
Definition row_between W (lo hi : nat) (id : Z) : list V :=
  if ((Z.of_nat lo <=? id) && (id <? Z.of_nat hi))%Z then default [] (rows W !! Z.to_nat id) else replicate (width W) s_zero.
Definition embed_between W (lo hi : nat) ids : array V := Array (lead ids ++ [width ids]) (width W) (map (row_between W lo hi) (positions ids)).

Lemma row_between_length W lo hi id : wf W -> hi <= length (rows W) -> length (row_between W lo hi id) = width W.
Proof.
  intros [Hl Hf] Hhi. unfold row_between. destruct (Z.leb_spec (Z.of_nat lo) id), (Z.ltb_spec id (Z.of_nat hi)); cbn; try apply length_replicate.
  destruct (lookup_lt_is_Some_2 (rows W) (Z.to_nat id) ltac:(lia)) as [r Er]. rewrite Er. cbn. rewrite Forall_lookup in Hf. exact (Hf _ _ Er).
Qed.
Lemma embed_between_shaped W lo hi ids : wf W -> wf ids -> hi <= length (rows W) -> shaped (lead ids ++ [width ids]) (width W) (embed_between W lo hi ids).
Proof.
  intros HW Hids Hhi. split_and!; [done|done|]. split; cbn; [by rewrite length_map, length_positions|]. rewrite map_fmap. apply Forall_fmap, Forall_true.
  intros id. by apply row_between_length.
Qed.

(** A rank looks up its range and has zeros elsewhere. *)
Lemma output_parallel_val W w ids n p i e : 1 < n -> 0 < p -> i < n -> wf W -> lead W = [n * p] -> wf ids -> val w = slices p i W ->
  vocab_start_index e = i * p -> vocab_end_index e = i * p + p -> val (output_parallel n e ids w) = embed_between W (i * p) (i * p + p) ids.
Proof.
  intros Hn Hp Hi HW HdW Hids Hw Hs He. unfold output_parallel. replace (1 <? n) with true by (symmetry; by apply Nat.ltb_lt).
  set (out := fun id : Z => ((id <? Z.of_nat (i * p)) || (Z.of_nat (i * p + p) <=? id))%Z). set (mid := fun id : Z => if out id then 0%Z else (id - Z.of_nat (i * p))%Z).
  assert (Hm : masked_input e ids = map_array mid ids) by (unfold masked_input, input_mask; rewrite Hs, He; apply (zip_array_map (fun (m : bool) id => if m then 0%Z else id) out)).
  assert (Hmask : input_mask e ids = map_array out ids) by (unfold input_mask; by rewrite Hs, He). rewrite Hm, Hmask.
  assert (Hlw : lead (val w) = [p]) by (rewrite Hw; unfold slices; by rewrite HdW). pose proof (map_array_wf mid ids Hids) as Hmwf. pose proof (map_array_wf out ids Hids) as Howf.
  assert (Hin : ids_in (map_array mid ids) p).
  { unfold ids_in. rewrite positions_map, map_fmap. apply Forall_fmap, Forall_true. intros id. cbn. unfold mid, out.
    destruct (Z.ltb_spec id (Z.of_nat (i * p))), (Z.leb_spec (Z.of_nat (i * p + p)) id); cbn [orb]; lia. }
  pose proof (embedding_val (map_array mid ids) w p Hmwf Hlw Hin) as He'. rewrite zero_rows_val; [|done|by rewrite He'].
  rewrite He', Hw. apply array_eq; [done|done|]. cbn [a_zero_rows a_embedding lead width rows slices embed_between]. rewrite !positions_map, map_map.
  rewrite (zip_map_rows (fun (m : bool) r => if m then replicate (width W) s_zero else r) out). apply map_ext. intros id. unfold row_between, mid. rewrite HdW. cbn [tail numel foldr].
  rewrite Nat.mul_1_r. unfold out. destruct (Z.ltb_spec id (Z.of_nat (i * p))), (Z.leb_spec (Z.of_nat (i * p + p)) id), (Z.leb_spec (Z.of_nat (i * p)) id), (Z.ltb_spec id (Z.of_nat (i * p + p)));
    cbn [orb andb]; try lia; try done. f_equal. unfold piece. rewrite lookup_take_lt by lia. rewrite lookup_drop. f_equal. lia.
Qed.

Lemma madd_map {A} (f g : A -> list V) (l : list A) : madd (map f l) (map g l) = map (fun x => vadd (f x) (g x)) l.
Proof. unfold madd. apply zip_map_rows. Qed.
(** The ranges of consecutive ranks add up to their union. *)
Lemma sum_ranges W p s n (l : list Z) : wf W -> (s + S n) * p <= length (rows W) ->
  msum ((fun i => map (row_between W (i * p) (i * p + p)) l) <$> seq s (S n)) = map (row_between W (s * p) ((s + S n) * p)) l.
Proof.
  intros HW. revert s. induction n as [|n IH]; intros s Hle.
  - cbn [seq fmap list_fmap msum]. apply map_ext. intros id. f_equal. lia.
  - cbn [seq]. rewrite fmap_cons. rewrite msum_cons by done. change (S s :: seq (S (S s)) n) with (seq (S s) (S n)). rewrite IH by lia. rewrite madd_map. apply map_ext. intros id.
    unfold row_between. destruct (Z.leb_spec (Z.of_nat (s * p)) id), (Z.ltb_spec id (Z.of_nat (s * p + p))), (Z.leb_spec (Z.of_nat (S s * p)) id),
      (Z.ltb_spec id (Z.of_nat ((S s + S n) * p))), (Z.ltb_spec id (Z.of_nat ((s + S (S n)) * p))); cbn [andb]; try lia.
    all: try (apply vadd_zero_l; apply length_replicate).
    + apply vadd_zero_r. destruct (lookup_lt_is_Some_2 (rows W) (Z.to_nat id) ltac:(lia)) as [r Er]. rewrite Er. cbn. destruct HW as [_ Hf]. rewrite Forall_lookup in Hf. exact (Hf _ _ Er).
    + apply vadd_zero_l. destruct (lookup_lt_is_Some_2 (rows W) (Z.to_nat id) ltac:(lia)) as [r Er]. rewrite Er. cbn. destruct HW as [_ Hf]. rewrite Forall_lookup in Hf. exact (Hf _ _ Er).
Qed.

(** The ranks with their ranges and the parts of the weight *)
Definition embedding_ranks (n p : nat) (rs : bool) (W : array V) (ranks : list (vocab_embedding * tensor)) : Prop :=
  length ranks = n /\ forall i e w, ranks !! i = Some (e, w) -> vocab_embedding_init (n * p) i n rs = Ok e /\ val w = slices p i W.

Lemma embedding_rank_fields n p i rs e : 0 < n -> vocab_embedding_init (n * p) i n rs = Ok e -> vocab_start_index e = i * p /\ vocab_end_index e = i * p + p.
Proof. intros Hn. unfold vocab_embedding_init, vocab_range_from_global_vocab_size. rewrite divide_exact by done. by intros [= <-]. Qed.
Lemma outputs_val n p rs W ranks ids : 1 < n -> 0 < p -> wf W -> lead W = [n * p] -> wf ids -> embedding_ranks n p rs W ranks ->
  val <$> map (fun r => output_parallel (length ranks) (fst r) ids (snd r)) ranks = (fun i => embed_between W (i * p) (i * p + p) ids) <$> seq 0 n.
Proof.
  intros Hn Hp HW HdW Hids [Hl Hr].
  change (map (fun r => output_parallel (length ranks) (fst r) ids (snd r)) ranks) with ((fun r => output_parallel (length ranks) (fst r) ids (snd r)) <$> ranks).
  rewrite <- list_fmap_compose. apply fmap_seq_lookup; [done|]. intros i [e w] Hi. pose proof (lookup_lt_Some _ _ _ Hi) as Hlt.
  destruct (Hr i e w Hi) as [He Hw]. destruct (embedding_rank_fields n p i rs e ltac:(lia) He) as [H1 H2]. cbn [compose fst snd]. rewrite Hl. apply (output_parallel_val W w ids n p i e); try done. lia.
Qed.
Lemma outputs_sum n p W ids : 0 < n -> wf W -> lead W = [n * p] ->
  sum_arrays ((fun i => embed_between W (i * p) (i * p + p) ids) <$> seq 0 n) = embed_between W 0 (n * p) ids.
Proof.
  intros Hn HW HdW. destruct n as [|n]; [lia|]. apply array_eq; [done|done|]. cbn [sum_arrays rows]. rewrite <- list_fmap_compose.
  change (rows ∘ (fun i => embed_between W (i * p) (i * p + p) ids)) with (fun i => map (row_between W (i * p) (i * p + p)) (positions ids)).
  rewrite sum_ranges; [done|done|]. destruct HW as [Hl _]. rewrite Hl, HdW. cbn. lia.
Qed.
Lemma outputs_contiguous n e ids w : is_contiguous (output_parallel n e ids w) = true.
Proof. unfold output_parallel. destruct (1 <? n); rewrite ?zero_rows_contiguous; apply embedding_contiguous. Qed.

Lemma embed_all W ids n : ids_in ids n -> embed_between W 0 n ids = a_embedding ids W.
Proof.
  intros Hin. apply array_eq; [done|done|]. cbn. unfold ids_in in Hin. induction Hin as [|id l Hid _ IH]; [done|]. cbn. rewrite IH. f_equal. unfold row_between.
  destruct (Z.leb_spec (Z.of_nat 0) id), (Z.ltb_spec id (Z.of_nat n)); cbn [andb]; try lia; done.
Qed.
Lemma outputs_val_in n p rs W ranks ids : 0 < n -> 0 < p -> wf W -> lead W = [n * p] -> wf ids -> ids_in ids (n * p) -> embedding_ranks n p rs W ranks ->
  val <$> map (fun r => output_parallel (length ranks) (fst r) ids (snd r)) ranks = (fun i => embed_between W (i * p) (i * p + p) ids) <$> seq 0 n.
Proof.
  intros Hn Hp HW HdW Hids Hin Hr. destruct (decide (1 < n)) as [H1|H1]; [by apply (outputs_val n p rs)|]. assert (n = 1) as -> by lia. destruct Hr as [Hl Hr].
  destruct ranks as [|[e w] [|? ?]]; try done. destruct (Hr 0 e w eq_refl) as [_ Hw]. cbn [map length fst snd fmap list_fmap seq]. unfold output_parallel. cbn [Nat.ltb Nat.leb]. f_equal.
  rewrite (embedding_val ids w p Hids); [|by rewrite Hw; unfold slices; rewrite HdW|by rewrite Nat.mul_1_l in Hin]. rewrite Nat.mul_1_l in Hin. change (embed_between W (0 * p) (0 * p + p) ids) with (embed_between W 0 p ids). rewrite (embed_all W ids p Hin).
  apply array_eq; [done|by rewrite Hw|]. cbn. rewrite Hw. cbn. unfold piece. cbn. rewrite HdW. cbn. rewrite Nat.mul_1_r, drop_0, take_ge; [done|]. destruct HW as [HlW _]. rewrite HlW, HdW. cbn. lia.
Qed.

(** The ids in the order of the transposed output *)
Definition transposed_ids ids : array Z :=
  match lead ids with
  | [b] => Array [width ids] b (map (fun j => map (fun i => default 0%Z (positions ids !! (i * width ids + j))) (seq 0 b)) (seq 0 (width ids)))
  | _ => ids
  end.
Lemma transposed_ids_wf ids b : lead ids = [b] -> wf (transposed_ids ids).
Proof.
  intros Hd. unfold transposed_ids. rewrite Hd. split; cbn; [rewrite length_map, length_seq; lia|]. rewrite map_fmap. apply Forall_fmap, Forall_true. intros j. cbn. by rewrite length_map, length_seq.
Qed.
Lemma transpose_embed W lo hi ids b : wf ids -> lead ids = [b] -> a_transpose01 (embed_between W lo hi ids) = embed_between W lo hi (transposed_ids ids).
Proof.
  intros Hids Hd. pose proof (length_positions ids Hids) as Hl. rewrite Hd in Hl. cbn in Hl. unfold a_transpose01. cbn [embed_between lead]. rewrite Hd. cbn [app].
  unfold transposed_ids. rewrite Hd. apply array_eq; [done|done|]. cbn [rows embed_between lead width].
  rewrite positions_rows. rewrite concat_map, map_map. f_equal. apply map_ext_in. intros j Hj%in_seq.
  rewrite map_map. apply map_ext_in. intros i Hi%in_seq. change (map (row_between W lo hi) (positions ids)) with (row_between W lo hi <$> positions ids). rewrite list_lookup_fmap.
  assert (i * width ids + j < length (positions ids)) as Hlt by nia. apply lookup_lt_is_Some_2 in Hlt as [x ->]. done.
Qed.

(** For ids of the vocabulary every rank gets what one rank would look up in the whole weight, or its slice of the transposed
    lookup when the outputs are reduce-scattered. (C17) *)
Theorem vocab_embedding_correct n p rs W ranks ids : 0 < n -> 0 < p -> wf W -> lead W = [n * p] -> wf ids -> ids_in ids (n * p) -> embedding_ranks n p rs W ranks ->
  computes (vocab_embedding_forward false ranks ids) (replicate n (a_embedding ids W)) /\
  forall b m, lead ids = [b] -> width ids = n * m -> computes (vocab_embedding_forward true ranks ids) (shard_first n m (a_transpose01 (a_embedding ids W))).
Proof.
  intros Hn Hp HW HdW Hids Hin Hr. pose proof (outputs_val_in n p rs W ranks ids Hn Hp HW HdW Hids Hin Hr) as Ho. pose proof Hr as [Hl _].
  set (outs := map (fun r => output_parallel (length ranks) (fst r) ids (snd r)) ranks) in *. assert (Hlo : length outs = n) by (unfold outs; by rewrite length_map).
  assert (Hne : outs <> []) by (intros E; rewrite E in Hlo; cbn in Hlo; lia). assert (HlW : length (rows W) = n * p) by (destruct HW as [E _]; rewrite E, HdW; cbn; lia).
  assert (Hsh : forall ids', wf ids' -> Forall (shaped (lead ids' ++ [width ids']) (width W)) ((fun i => embed_between W (i * p) (i * p + p) ids') <$> seq 0 n)).
  { intros ids' Hw. apply Forall_fmap, Forall_lookup. intros i j [-> Hj]%lookup_seq. apply embed_between_shaped; [done|done|nia]. }
  unfold vocab_embedding_forward. split.
  - fold outs. cbn [forward reduce_from_model_parallel_region]. rewrite <- Hlo, <- (embed_all W ids (n * p) Hin), <- (outputs_sum n p W ids Hn HW HdW), <- Ho.
    eapply reduce_spec; [done|rewrite Ho; by apply Hsh|]. apply Forall_forall. intros t Ht. unfold outs in Ht. apply list_elem_of_In, in_map_iff in Ht as (r & <- & _). apply outputs_contiguous.
  - intros b m Hd Hw. fold outs. set (ts := map (fun t => contiguous (transpose01 t)) outs).
    assert (Ht : val <$> ts = (fun i => embed_between W (i * p) (i * p + p) (transposed_ids ids)) <$> seq 0 n).
    { change ts with ((fun t => contiguous (transpose01 t)) <$> outs). rewrite <- list_fmap_compose. apply fmap_seq_lookup; [done|]. intros i t Hi. destruct (vals_at _ _ _ _ _ Ho Hi) as [_ Hv]. cbn [compose].
      rewrite contiguous_val, (transpose01_val _ b (width ids)); [by rewrite Hv, (transpose_embed _ _ _ _ b)|by rewrite Hv; cbn; rewrite Hd]. }
    pose proof (transposed_ids_wf ids b Hd) as Hwt. assert (Hdt : lead (transposed_ids ids) ++ [width (transposed_ids ids)] = [n * m; b]) by (unfold transposed_ids; rewrite Hd; cbn; by rewrite Hw).
    assert (Hlt : length ts = n) by (unfold ts; by rewrite length_map). cbn [forward reduce_scatter_to_sequence_parallel_region].
    rewrite <- (embed_all W ids (n * p) Hin), (transpose_embed _ _ _ _ b) by done. rewrite <- (outputs_sum n p W _ Hn HW HdW), <- Ht, <- Hlt.
    apply (reduce_scatter_first_spec ts m [b] (width W)); [intros E; rewrite E in Hlt; cbn in Hlt; lia|]. rewrite Ht, Hlt. rewrite <- Hdt. by apply Hsh.
Qed.

(** On more than one rank an id outside the vocabulary raises nothing: its embedding is zero on every rank. *)
Theorem out_of_vocabulary_is_zero n p rs W ranks ids : 1 < n -> 0 < p -> wf W -> lead W = [n * p] -> wf ids -> embedding_ranks n p rs W ranks ->
  computes (vocab_embedding_forward false ranks ids) (replicate n (embed_between W 0 (n * p) ids)) /\
  forall j id, positions ids !! j = Some id -> (id < 0 \/ Z.of_nat (n * p) <= id)%Z -> rows (embed_between W 0 (n * p) ids) !! j = Some (replicate (width W) s_zero).
Proof.
  intros Hn Hp HW HdW Hids Hr. pose proof (outputs_val n p rs W ranks ids Hn Hp HW HdW Hids Hr) as Ho. pose proof Hr as [Hl _]. assert (Hn0 : 0 < n) by lia.
  set (outs := map (fun r => output_parallel (length ranks) (fst r) ids (snd r)) ranks) in *. assert (Hlo : length outs = n) by (unfold outs; by rewrite length_map).
  assert (Hne : outs <> []) by (intros E; rewrite E in Hlo; cbn in Hlo; lia). assert (HlW : length (rows W) = n * p) by (destruct HW as [E _]; rewrite E, HdW; cbn; lia). split.
  - unfold vocab_embedding_forward. fold outs. cbn [forward reduce_from_model_parallel_region].
    pose proof (reduce_spec outs (lead ids ++ [width ids]) (width W) Hne) as H. rewrite Ho, (outputs_sum n p W ids Hn0 HW HdW), Hlo in H. apply H.
    + apply Forall_fmap, Forall_lookup. intros i j [-> Hj]%lookup_seq. apply embed_between_shaped; [done|done|nia].
    + apply Forall_forall. intros t Ht. unfold outs in Ht. apply list_elem_of_In, in_map_iff in Ht as (r & <- & _). apply outputs_contiguous.
  - intros j id Hj Hid. cbn. change (map (row_between W 0 (n * p)) (positions ids)) with (row_between W 0 (n * p) <$> positions ids). rewrite list_lookup_fmap, Hj. cbn. f_equal.
    unfold row_between. destruct (Z.leb_spec (Z.of_nat 0) id), (Z.ltb_spec id (Z.of_nat (n * p))); cbn [andb]; try done. lia.
Qed.
End Proofs.

(* ================================================================== *)
(** ** Strided shards                                                  *)
(* ================================================================== *)

Lemma py_stride_aux_lookup {A} (skip step j : nat) (l : list A) : 0 < step -> py_stride_aux skip step l !! j = l !! (skip + j * step).
Proof.
  intros Hs. revert skip j. induction l as [|x l IH]; intros [|skip] j; cbn [py_stride_aux]; try done.
  destruct j as [|j]; [done|]. cbn [lookup list_lookup]. rewrite IH. destruct step as [|t]; [lia|]. cbn [Nat.pred Nat.mul Nat.add]. done.
Qed.
Lemma py_stride_lookup {A} (r n j : nat) (l : list A) : 0 < n -> py_stride (Z.of_nat r) (Z.of_nat n) l !! j = l !! (r + j * n).
Proof. intros Hn. unfold py_stride. rewrite !Nat2Z.id. by apply py_stride_aux_lookup. Qed.
Lemma py_stride_seq {A} (f : nat -> A) (r n s : nat) : r < n -> py_stride (Z.of_nat r) (Z.of_nat n) (f <$> seq 0 (n * s)) = (fun j => f (r + j * n)) <$> seq 0 s.
Proof.
  intros Hr. apply list_eq. intros j. rewrite py_stride_lookup by lia. rewrite !list_lookup_fmap. destruct (decide (j < s)) as [Hj|Hj].
  - rewrite !lookup_seq_lt by nia. done.
  - rewrite !(proj2 (lookup_ge_None _ _)) by (rewrite length_seq; nia). done.
Qed.

Section Init.
Context {V : Type} `{!Scalar V, !Torch V, !TorchLaws V, !TorchEmbedding V}.
Implicit Types (n s q r : nat).

(** With stride [s] the master weight consists of [s] blocks, and the shard of a rank of its part of each block: its [j]-th part are the
    rows of the rank in block [j]. (C28) *)
Theorem strided_shards n s q r d t : 0 < n -> 0 < s -> 0 < q -> r < n -> lead (val t) = n * s * q :: d ->
  exists w, initialize_affine_weight_cpu t (s * q) true s r n = Ok w /\ shaped (s * q :: d) (width (val t)) (val w) /\
    forall j, j < s -> slices q j (val w) = slices q r (slices (n * q) j (val t)).
Proof.
  intros Hn Hs Hq Hr Hd. unfold initialize_affine_weight_cpu. rewrite divide_exact by done. ret_step. set (A := val t) in *. pose proof (val_wf t) as HA. fold A in HA.
  pose proof (split_first_val t q (n * s) d Hq Hd) as Hsplit. fold A in Hsplit. set (ws := torch_split_first q t) in *.
  set (mine := py_stride (Z.of_nat r) (Z.of_nat n) ws). assert (Hmine : val <$> mine = (fun j => slices q (r + j * n) A) <$> seq 0 s).
  { rewrite <- (py_stride_seq (fun i => slices q i A) r n s Hr), <- Hsplit. apply list_eq. intros j. unfold mine. rewrite list_lookup_fmap, !py_stride_lookup, list_lookup_fmap by lia. done. }
  assert (Hsh : Forall (shaped (q :: d) (width A)) (val <$> mine)).
  { rewrite Hmine. apply Forall_fmap, Forall_lookup. intros i j [-> Hj]%lookup_seq. cbn. pose proof (shard_first_shaped (n * s) q d A HA Hd) as Hf. rewrite Forall_lookup in Hf.
    apply (Hf (r + i * n)). apply shard_first_lookup. nia. }
  assert (Hlen : length (val <$> mine) = s) by by rewrite Hmine, length_fmap, length_seq.
  assert (Hne : val <$> mine <> []) by (intros E; rewrite E in Hlen; cbn in Hlen; lia). exists (cat_first mine). split; [done|].
  assert (Hcat : val (cat_first mine) = join_first (val <$> mine)).
  { apply (cat_first_val mine d (width A)); [by intros E; rewrite E in Hne|]. apply Forall_vals. eapply Forall_impl; [exact Hsh|]. intros a Ha. by exists q. }
  rewrite Hcat. split; [rewrite <- Hlen at 1; by apply (join_first_shaped q d)|]. intros j Hj.
  pose proof (shard_join_first q d (width A) (val <$> mine) Hne Hsh) as Hback. apply (f_equal (lookup j)) in Hback. rewrite shard_first_lookup in Hback by lia. rewrite Hmine in Hback at 2.
  rewrite list_lookup_fmap, lookup_seq_lt in Hback by done. cbn [fmap option_fmap option_map Nat.add] in Hback. apply Some_inj in Hback. rewrite Hback. apply array_eq; [by cbn; rewrite Hd|done|]. cbn [slices rows lead tail]. rewrite Hd. cbn [tail].
  unfold piece. generalize (numel d) as D. intros D. assert (Hb : r * (q * D) + q * D <= n * q * D).
  { rewrite <- Nat.mul_assoc. generalize (q * D) as c. intros c. nia. }
  replace (take (n * q * D) (drop (j * (n * q * D)) (rows A))) with (take (r * (q * D) + (n * q * D - r * (q * D))) (drop (j * (n * q * D)) (rows A))) by (f_equal; lia).
  rewrite <- take_drop_commute, take_take, drop_drop. f_equal; [lia|]. f_equal. nia.
Qed.
End Init.
