(* ===== verification/CrossEntropy.v ===== *)
(** * Vocabulary-parallel cross entropy

    [megatron/core/tensor_parallel/cross_entropy.py], forward and backward, on all tensor-parallel ranks.  The logits of a rank are the
    rows of the two-dimensional view [view(-1, partition_vocab_size)]; tensors with one value per row are lists. *)

From S2P Require Import Prelude Matrix Torch TpMappings TpMappingsProofs VocabParallel.

#[local] Open Scope nat_scope.

(** What torch computes on float32 elements, and the Python floats [label_smoothing * vocab_size / (vocab_size - 1)] and
    [1 / vocab_size], which are numbers of the same type here *)
Class SoftmaxOps (V : Type) `{!Scalar V} := {
  to_float : V -> V;
  v_one : V;
  v_sub : V -> V -> V;
  v_div : V -> V -> V;
  v_max : V -> V -> V;
  v_exp : V -> V;
  v_log : V -> V;
  v_positive : V -> bool;
  v_below_one : V -> bool;
  smoothing_factor : V -> nat -> V;
  average_grad : nat -> V;
  v_mean : list V -> V;
  (** [torch.distributed.all_reduce] with MAX and with SUM, of one tensor per rank *)
  all_reduce_max : list (list V) -> list V;
  all_reduce_sum : list (list V) -> list V
}.

Fixpoint fold1 {A} (f : A -> A -> A) (d : A) (l : list A) : A :=
  match l with [] => d | x :: l' => match l' with [] => x | _ :: _ => f x (fold1 f d l') end end.

Class SoftmaxLaws (V : Type) `{!Scalar V, !SoftmaxOps V} : Prop := {
  v_max_assoc : forall x y z, v_max x (v_max y z) = v_max (v_max x y) z;
  v_sub_zero : forall x, v_sub x s_zero = x;
  all_reduce_max_val : forall l, l <> [] -> all_reduce_max l = fold1 (zip_with v_max) [] l;
  all_reduce_sum_val : forall l, l <> [] -> all_reduce_sum l = fold1 (zip_with s_add) [] l
}.

Section CrossEntropy.
Context {V : Type} `{!Scalar V, !SoftmaxOps V}.

(** [calculate_logits_max] *)
Definition row_max (r : list V) : V := fold1 v_max s_zero r.
Definition calculate_logits_max (vocab_parallel_logits : list (list V)) : list (list V) * list V :=
  let logits := map (map to_float) vocab_parallel_logits in (logits, map row_max logits).

Definition row_sum (r : list V) : V := foldr s_add s_zero r.

(** What [calculate_predicted_logits] returns *)
Record predicted := mkPredicted {
  target_mask : list bool;
  masked_target_1d : list Z;
  predicted_logits : list V;
  sum_exp_logits : list V;
  exp_logits : list (list V)
}.
Definition out_of_range (vocab_start_index vocab_end_index : nat) (t : Z) : bool := ((t <? Z.of_nat vocab_start_index) || (Z.of_nat vocab_end_index <=? t))%Z.
(** [logits_2d[arange_1d, masked_target_1d]] *)
Definition pick (r : list V) (j : Z) : V := default s_zero (r !! Z.to_nat j).
Definition calculate_predicted_logits (vocab_parallel_logits : list (list V)) (target : list Z) (logits_max : list V) (vocab_start_index vocab_end_index : nat) : predicted :=
  let logits := zip_with (fun r m => map (fun x => v_sub x m) r) vocab_parallel_logits logits_max in
  let mask := map (out_of_range vocab_start_index vocab_end_index) target in
  let masked_target := zip_with (fun (m : bool) t => if m then 0%Z else t) mask (map (fun t => t - Z.of_nat vocab_start_index)%Z target) in
  let predicted_logits_1d := zip_with pick logits masked_target in
  let exp_logits := map (map v_exp) logits in
  mkPredicted mask masked_target (zip_with (fun (m : bool) x => if m then s_zero else x) mask predicted_logits_1d) (map row_sum exp_logits) exp_logits.

(** [calculate_cross_entropy_loss]: the normalized exponentials and the loss *)
Definition calculate_cross_entropy_loss (exp_logits : list (list V)) (predicted_logits sum_exp_logits : list V) : list (list V) * list V :=
  (zip_with (fun r s => map (fun x => v_div x s) r) exp_logits sum_exp_logits, zip_with (fun s p => v_sub (v_log s) p) sum_exp_logits predicted_logits).

(** What a rank saves for the backward pass, and its loss *)
Record ce_saved := mkCe { ce_softmax : list (list V); ce_target_mask : list bool; ce_masked_target : list Z; ce_vocab_size : nat }.

(** The smoothed loss; the factor divides by [vocab_size - 1]. *)
Definition smooth_loss (label_smoothing : V) (vocab_size : nat) (softmax : list (list V)) (loss : list V) : res (list V) :=
  assert_ (v_below_one label_smoothing && v_positive label_smoothing) "1.0 > label_smoothing > 0.0";;
  (if vocab_size =? 1 then raise_ ZeroDivisionError "float division by zero" else mret tt);;
  let smoothing := smoothing_factor label_smoothing vocab_size in
  mret (zip_with (fun l r => v_sub (s_mul (v_sub v_one smoothing) l) (s_mul smoothing (v_mean (map v_log r)))) loss softmax).

(** [_VocabParallelCrossEntropy.forward] on the ranks *)
Definition cross_entropy_forward (label_smoothing : V) (partition_vocab_size : nat) (target : list Z) (ranks : list (list (list V))) : res (list (list V * ce_saved)) :=
  let calculated := map calculate_logits_max ranks in
  let logits_max := all_reduce_max (map snd calculated) in
  let world_size := length ranks in
  let ps := zip_with (fun rank c =>
    let '(vocab_start_index, vocab_end_index) := vocab_range_from_per_partition_vocab_size partition_vocab_size rank world_size in
    calculate_predicted_logits (fst c) target logits_max vocab_start_index vocab_end_index) (seq 0 world_size) calculated in
  let predicted_ := all_reduce_sum (map predicted_logits ps) in
  let sum_exp := all_reduce_sum (map sum_exp_logits ps) in
  mapR (fun p =>
    let '(softmax, loss) := calculate_cross_entropy_loss (exp_logits p) predicted_ sum_exp in
    loss ← (if v_positive label_smoothing then smooth_loss label_smoothing partition_vocab_size softmax loss else mret loss);
    mret (loss, mkCe softmax (target_mask p) (masked_target_1d p) partition_vocab_size)) ps.

(** [grad_2d[arange_1d, masked_target_1d] -= ...] *)
Definition subtract_at (r : list V) (j : Z) (u : V) : list V := alter (fun x => v_sub x u) (Z.to_nat j) r.
Definition softmax_update (mask : list bool) : list V := map (fun m : bool => if m then s_zero else v_one) mask.
(** [_VocabParallelCrossEntropy.backward] on a rank *)
Definition cross_entropy_backward (label_smoothing : V) (saved : ce_saved) (grad_output : list V) : list (list V) :=
  let grad_2d := ce_softmax saved in
  let updates := softmax_update (ce_target_mask saved) in
  let grad_2d :=
    if v_positive label_smoothing then
      let smoothing := smoothing_factor label_smoothing (ce_vocab_size saved) in
      let grad_2d := zip_with (fun r p => subtract_at r (fst p) (s_mul (v_sub v_one smoothing) (snd p))) grad_2d (zip (ce_masked_target saved) updates) in
      map (map (fun x => v_sub x (s_mul smoothing (average_grad (ce_vocab_size saved))))) grad_2d
    else zip_with (fun r p => subtract_at r (fst p) (snd p)) grad_2d (zip (ce_masked_target saved) updates) in
  zip_with (fun r g => map (fun x => s_mul x g) r) grad_2d grad_output.
End CrossEntropy.
