(* ===== verification/CrossEntropyProofs.v ===== *)
(** * Vocabulary-parallel cross entropy: theorems

    Without label smoothing the ranks compute the loss of the whole vocabulary and their columns of its gradient; with label
    smoothing every rank smooths over its own part of the vocabulary. *)

From S2P Require Import Prelude Matrix Torch TpMappings TpMappingsProofs VocabParallel VocabParallelProofs CrossEntropy.

#[local] Open Scope nat_scope.

Lemma mapR_fmap_ext {A B C} (f : B -> res C) (g : A -> B) (h : A -> res C) l : (forall x, f (g x) = h x) -> mapR f (g <$> l) = mapR h l.
Proof. intros H. induction l as [|x l IH]; [done|]. cbn [fmap list_fmap mapR]. by rewrite H, IH. Qed.

Section Proofs.
Context {V : Type} `{!Scalar V, !ScalarLaws V, !SoftmaxOps V, !SoftmaxLaws V}.
Implicit Types (X : list (list V)) (target : list Z) (n k i R : nat).

(* ================================================================== *)
(** ** Reductions of rows that are cut                                 *)
(* ================================================================== *)

Lemma fold1_cons {A} (f : A -> A -> A) d x l : l <> [] -> fold1 f d (x :: l) = f x (fold1 f d l).
Proof. by destruct l. Qed.
Lemma fold1_app {A} (f : A -> A -> A) d l1 l2 : (forall x y z, f x (f y z) = f (f x y) z) -> l1 <> [] -> l2 <> [] -> fold1 f d (l1 ++ l2) = f (fold1 f d l1) (fold1 f d l2).
Proof.
  intros Ha H1 H2. revert l1 H1. refine (nonempty_ind _ _ _); [intros x; by apply fold1_cons|]. intros x l Hl IH. cbn [app]. rewrite !fold1_cons by (try done; by destruct l).
  by rewrite IH, Ha.
Qed.
Lemma row_sum_app r1 r2 : row_sum (r1 ++ r2) = s_add (row_sum r1) (row_sum r2).
Proof. unfold row_sum. induction r1 as [|x r1 IH]; cbn; [by rewrite s_zero_add|]. by rewrite IH, s_add_assoc. Qed.
Lemma row_max_app r1 r2 : r1 <> [] -> r2 <> [] -> row_max (r1 ++ r2) = v_max (row_max r1) (row_max r2).
Proof. apply fold1_app, v_max_assoc. Qed.

(** A value per row that combines over concatenation combines over the parts. *)
Lemma fold1_rows (op : V -> V -> V) (g : list V -> V) R k parts : 0 < k -> parts <> [] -> Forall (mat R k) parts ->
  (forall r1 r2, r1 <> [] -> r2 <> [] -> g (r1 ++ r2) = op (g r1) (g r2)) -> fold1 (zip_with op) [] (map (map g) parts) = map g (hcat parts).
Proof.
  intros Hk Hne. revert parts Hne. refine (nonempty_ind _ _ _); [done|]. intros p parts Hne IH [Hp Hps]%Forall_cons Hg. specialize (IH Hps Hg).
  pose proof (hcat_mat R k parts Hne Hps) as [Hq Fq]. cbn [map]. rewrite fold1_cons by (by destruct parts). rewrite IH, hcat_cons by done.
  assert (Hlen : 0 < length parts * k) by (destruct parts; [done|cbn; lia]). clear IH Hps. destruct Hp as [Hl Fp]. revert R Hl Hq Fq. generalize (hcat parts) as q. clear -Fp Hk Hlen Hg.
  intros q. revert q. induction Fp as [|r p Hr Fp IH]; intros [|r' q] R Hl Hq Fq; cbn in *; try lia; [done|]. apply Forall_cons in Fq as [Hr' Fq].
  destruct R as [|R]; [lia|]. rewrite (IH q R) by (try lia; done). f_equal. symmetry. apply Hg; [intros ->; cbn in Hr; lia|intros ->; cbn in Hr'; lia].
Qed.

(** *** The predicted logits *)
Definition in_range (lo hi : nat) (t : Z) : bool := ((Z.of_nat lo <=? t) && (t <? Z.of_nat hi))%Z.
Definition picked (lo hi : nat) (rows : list (list V)) target : list V := zip_with (fun r t => if in_range lo hi t then pick r (t - Z.of_nat lo) else s_zero) rows target.

Lemma out_in lo hi t : out_of_range lo hi t = negb (in_range lo hi t).
Proof. unfold out_of_range, in_range. destruct (Z.ltb_spec t (Z.of_nat lo)), (Z.leb_spec (Z.of_nat hi) t), (Z.leb_spec (Z.of_nat lo) t), (Z.ltb_spec t (Z.of_nat hi)); cbn; lia. Qed.
Lemma predicted_picked lo hi (rows : list (list V)) target :
  zip_with (fun (m : bool) x => if m then s_zero else x) (map (out_of_range lo hi) target)
    (zip_with pick rows (zip_with (fun (m : bool) t => if m then 0%Z else t) (map (out_of_range lo hi) target) (map (fun t => t - Z.of_nat lo)%Z target))) = picked lo hi rows target.
Proof.
  unfold picked. revert target. induction rows as [|r rows IH]; intros [|t target]; cbn; [done..|]. rewrite IH, out_in. f_equal. by destruct (in_range lo hi t).
Qed.
Lemma picked_sum k s parts target R : parts <> [] -> Forall (mat R k) parts -> length target = R ->
  fold1 (zip_with s_add) [] (zip_with (fun i p => picked (i * k) (i * k + k) p target) (seq s (length parts)) parts) = picked (s * k) ((s + length parts) * k) (hcat parts) target.
Proof.
  intros Hne. revert parts Hne s. refine (nonempty_ind _ _ _).
  - intros p s _ _. cbn. by replace ((s + 1) * k) with (s * k + k) by lia.
  - intros p parts Hne IH s [Hp Hps]%Forall_cons Ht. cbn [length seq zip_with]. rewrite fold1_cons by (by destruct parts). rewrite (IH (S s) Hps Ht), hcat_cons by done.
    replace (s + S (length parts)) with (S s + length parts) by lia. pose proof (hcat_mat R k parts Hne Hps) as [Hq Fq]. destruct Hp as [Hl Fp].
    revert Hq Fq. generalize (hcat parts) as q. intros q Hq Fq. set (L := length parts) in *. clearbody L. clear -Hl Fp Ht Hq Fq ScalarLaws0. unfold picked. revert R q target Hl Ht Hq Fq.
    induction Fp as [|r p Hr Fp IH]; intros R [|r' q] [|t target] Hl Ht Hq Fq; cbn in *; try lia; [done|]. apply Forall_cons in Fq as [Hr' Fq]. destruct R as [|R]; [lia|].
    rewrite (IH R q target) by (try lia; done). f_equal. unfold in_range, pick.
    destruct (Z.leb_spec (Z.of_nat (s * k)) t), (Z.ltb_spec t (Z.of_nat (s * k + k))), (Z.leb_spec (Z.of_nat (k + s * k)) t), (Z.ltb_spec t (Z.of_nat (k + (s + L) * k))); cbn [andb]; try lia;
      rewrite ?s_zero_add, ?s_add_zero; try done.
    + by rewrite lookup_app_l by lia.
    + rewrite lookup_app_r by lia. do 2 f_equal. lia.
Qed.

(* ================================================================== *)
(** ** The forward pass                                                *)
(* ================================================================== *)

(** The quantities of the whole vocabulary *)
Definition ce_logits X : list (list V) := map (map to_float) X.
Definition ce_max X : list V := map row_max (ce_logits X).
Definition ce_centered X : list (list V) := zip_with (fun r m => map (fun x => v_sub x m) r) (ce_logits X) (ce_max X).
Definition ce_exp X : list (list V) := map (map v_exp) (ce_centered X).
Definition ce_sum X : list V := map row_sum (ce_exp X).
Definition ce_probabilities X : list (list V) := zip_with (fun r s => map (fun x => v_div x s) r) (ce_exp X) (ce_sum X).
Definition ce_loss X target (vocab : nat) : list V := zip_with (fun s p => v_sub (v_log s) p) (ce_sum X) (picked 0 vocab (ce_centered X) target).
Definition masked target (i k : nat) : list Z :=
  zip_with (fun (m : bool) t => if m then 0%Z else t) (map (out_of_range (i * k) (i * k + k)) target) (map (fun t => t - Z.of_nat (i * k))%Z target).

Lemma mat_map {A B} (f : A -> B) R w (m : list (list A)) : mat R w m -> mat R w (map (map f) m).
Proof.
  intros [Hl Hf]. split; [by rewrite length_map|]. change (map (map f) m) with (map f <$> m). apply Forall_fmap. eapply Forall_impl; [exact Hf|]. intros r Hr. cbn. by rewrite length_map.
Qed.
Lemma mat_zip_map {A B C} (f : A -> C -> B) R w (m : list (list A)) (l : list C) : mat R w m -> length l = R -> mat R w (zip_with (fun r c => map (fun x => f x c) r) m l).
Proof.
  intros [Hl Hf] Hc. split; [rewrite length_zip_with; lia|]. clear Hl Hc. revert l. induction Hf as [|r m Hr Hf IH]; intros [|c l]; cbn; try constructor; [by rewrite length_map|apply IH].
Qed.
Lemma columns_map_rows {A B} (f : A -> B) k i (m : list (list A)) : (piece k i <$> map (map f) m) = map (map f) (piece k i <$> m).
Proof. change (map (map f)) with (fmap (M := list) (map f)). rewrite <- !list_fmap_compose. apply list_fmap_ext. intros _ r _. apply piece_fmap. Qed.
Lemma columns_zip_map {A B C} (f : A -> C -> B) k i (m : list (list A)) (l : list C) :
  (piece k i <$> zip_with (fun r c => map (fun x => f x c) r) m l) = zip_with (fun r c => map (fun x => f x c) r) (piece k i <$> m) l.
Proof. revert l. induction m as [|r m IH]; intros [|c l]; cbn; [done..|]. rewrite IH. f_equal. apply piece_fmap. Qed.

Lemma ce_shapes X R w : mat R w X -> mat R w (ce_logits X) /\ length (ce_max X) = R /\ mat R w (ce_centered X) /\ mat R w (ce_exp X) /\ length (ce_sum X) = R /\ mat R w (ce_probabilities X).
Proof.
  intros H. pose proof (mat_map to_float R w X H) as H1. assert (H2 : length (ce_max X) = R) by (unfold ce_max; rewrite length_map; apply H1).
  pose proof (mat_zip_map (fun x m => v_sub x m) R w _ _ H1 H2) as H3. pose proof (mat_map v_exp R w _ H3) as H4.
  assert (H5 : length (ce_sum X) = R) by (unfold ce_sum; rewrite length_map; apply H4). split_and!; try done. exact (mat_zip_map (fun x s => v_div x s) R w _ _ H4 H5).
Qed.

(** What a rank computes before the reductions of the sums *)
Definition rank_predicted X target k i : predicted :=
  mkPredicted (map (out_of_range (i * k) (i * k + k)) target) (masked target i k) (picked (i * k) (i * k + k) (piece k i <$> ce_centered X) target)
    (map row_sum (piece k i <$> ce_exp X)) (piece k i <$> ce_exp X).
Lemma rank_predicted_eq X target k i :
  calculate_predicted_logits (piece k i <$> ce_logits X) target (ce_max X) (i * k) (i * k + k) = rank_predicted X target k i.
Proof.
  unfold calculate_predicted_logits, rank_predicted. rewrite <- (columns_zip_map (fun x m => v_sub x m)). fold (ce_centered X). rewrite <- columns_map_rows. fold (ce_exp X).
  f_equal. apply predicted_picked.
Qed.

Lemma map_hsplit {B} (f : list (list V) -> B) k n X : map f (hsplit k n X) = (fun i => f (piece k i <$> X)) <$> seq 0 n.
Proof. unfold hsplit. change (map f) with (fmap (M := list) f). by rewrite <- list_fmap_compose. Qed.
Lemma zip_seq_hsplit {B} (f : nat -> list (list V) -> B) k n X : zip_with f (seq 0 n) (hsplit k n X) = (fun i => f i (piece k i <$> X)) <$> seq 0 n.
Proof. unfold hsplit. induction (seq 0 n) as [|i l IH]; [done|]. cbn. f_equal. exact IH. Qed.

(** What a rank returns *)
Definition rank_result (label_smoothing : V) (vocab k : nat) X target i : res (list V * ce_saved) :=
  loss ← (if v_positive label_smoothing then smooth_loss label_smoothing k (piece k i <$> ce_probabilities X) (ce_loss X target vocab) else mret (ce_loss X target vocab));
  mret (loss, mkCe (piece k i <$> ce_probabilities X) (map (out_of_range (i * k) (i * k + k)) target) (masked target i k) k).

Lemma cross_entropy_forward_spec ls n k R X target : 0 < n -> 0 < k -> mat R (n * k) X -> length target = R ->
  cross_entropy_forward ls k target (hsplit k n X) = mapR (rank_result ls (n * k) k X target) (seq 0 n).
Proof.
  intros Hn Hk HX Ht. destruct (ce_shapes X R (n * k) HX) as (S1 & S2 & S3 & S4 & S5 & S6). unfold cross_entropy_forward. rewrite length_hsplit.
  assert (Hcalc : map calculate_logits_max (hsplit k n X) = (fun i => (piece k i <$> ce_logits X, map row_max (piece k i <$> ce_logits X))) <$> seq 0 n).
  { rewrite map_hsplit. apply list_fmap_ext. intros _ i _. unfold calculate_logits_max. by rewrite <- columns_map_rows. }
  assert (Hne : forall Y : list (list V), hsplit k n Y <> []) by (intros Y E%(f_equal length); rewrite length_hsplit in E; cbn in E; lia).
  assert (Hmax : all_reduce_max (map snd (map calculate_logits_max (hsplit k n X))) = ce_max X).
  { rewrite Hcalc. change (map snd) with (fmap (M := list) (@snd (list (list V)) (list V))). rewrite <- list_fmap_compose.
    change (snd ∘ (fun i => (piece k i <$> ce_logits X, map row_max (piece k i <$> ce_logits X)))) with (fun i => map row_max (piece k i <$> ce_logits X)).
    rewrite <- (map_hsplit (map row_max)). rewrite all_reduce_max_val by (intros E%map_eq_nil; by apply (Hne (ce_logits X))).
    rewrite (fold1_rows v_max row_max R k); [|done|done|by apply hsplit_mat|apply row_max_app]. by rewrite (hcat_hsplit R). }
  rewrite Hmax, Hcalc. set (ps := zip_with _ _ _). assert (Hps : ps = rank_predicted X target k <$> seq 0 n).
  { unfold ps. rewrite zip_with_fmap_r, zip_with_diag. apply list_fmap_ext. intros _ i _. cbn. apply rank_predicted_eq. }
  rewrite Hps. clearbody ps. clear ps Hps.
  assert (Hp : all_reduce_sum (map predicted_logits (rank_predicted X target k <$> seq 0 n)) = picked 0 (n * k) (ce_centered X) target).
  { change (map predicted_logits) with (fmap (M := list) (@predicted_logits V)). rewrite <- list_fmap_compose.
    change (predicted_logits ∘ rank_predicted X target k) with (fun i => picked (i * k) (i * k + k) (piece k i <$> ce_centered X) target).
    rewrite <- (zip_seq_hsplit (fun i p => picked (i * k) (i * k + k) p target)). rewrite all_reduce_sum_val.
    - pose proof (picked_sum k 0 (hsplit k n (ce_centered X)) target R (Hne _) (hsplit_mat _ _ _ _ S3) Ht) as H. rewrite length_hsplit in H. cbn [Nat.mul Nat.add] in H. rewrite H.
      by rewrite (hcat_hsplit R).
    - intros E%(f_equal length). rewrite length_zip_with, length_seq, length_hsplit in E. cbn in E. lia. }
  assert (Hs : all_reduce_sum (map sum_exp_logits (rank_predicted X target k <$> seq 0 n)) = ce_sum X).
  { change (map sum_exp_logits) with (fmap (M := list) (@sum_exp_logits V)). rewrite <- list_fmap_compose.
    change (sum_exp_logits ∘ rank_predicted X target k) with (fun i => map row_sum (piece k i <$> ce_exp X)). rewrite <- (map_hsplit (map row_sum)).
    rewrite all_reduce_sum_val by (intros E%map_eq_nil; by apply (Hne (ce_exp X))).
    rewrite (fold1_rows s_add row_sum R k); [|done|done|by apply hsplit_mat|intros; apply row_sum_app]. by rewrite (hcat_hsplit R). }
  rewrite Hp, Hs. apply mapR_fmap_ext. intros i. cbn [rank_predicted exp_logits target_mask masked_target_1d calculate_cross_entropy_loss].
  unfold rank_result, ce_probabilities. by rewrite <- (columns_zip_map (fun x s => v_div x s)).
Qed.

(* ================================================================== *)
(** ** The backward pass                                               *)
(* ================================================================== *)

Lemma piece_lookup {A} k i j (l : list A) : j < k -> piece k i l !! j = l !! (i * k + j).
Proof. intros Hj. unfold piece. rewrite lookup_take_lt by done. by rewrite lookup_drop. Qed.
Lemma length_subtract_at (r : list V) j u : length (subtract_at r j u) = length r.
Proof. apply length_alter. Qed.
(** Subtracting at a target changes the part that has it, at its place there. *)
Lemma subtract_piece n k i (r : list V) (t : Z) : i < n -> 0 < k -> length r = n * k -> (0 <= t < Z.of_nat (n * k))%Z ->
  subtract_at (piece k i r) (if out_of_range (i * k) (i * k + k) t then 0%Z else (t - Z.of_nat (i * k))%Z) (if out_of_range (i * k) (i * k + k) t then s_zero else v_one) =
  piece k i (subtract_at r t v_one).
Proof.
  intros Hi Hk Hl Ht. apply list_eq_same_length with k; [apply (length_piece k n); [by rewrite length_subtract_at|done]|rewrite length_subtract_at; by apply (length_piece k n)|].
  intros j x y Hj Hx Hy. rewrite piece_lookup in Hy by done. unfold subtract_at in *. rewrite out_in in Hx. unfold in_range in Hx.
  destruct (Z.leb_spec (Z.of_nat (i * k)) t), (Z.ltb_spec t (Z.of_nat (i * k + k))); cbn [andb negb] in Hx.
  - destruct (decide (j = Z.to_nat (t - Z.of_nat (i * k)))) as [->|Hne].
    + rewrite list_lookup_alter, piece_lookup in Hx by done. replace (i * k + Z.to_nat (t - Z.of_nat (i * k))) with (Z.to_nat t) in * by lia. rewrite list_lookup_alter in Hy. rewrite decide_True in Hx by done. rewrite decide_True in Hy by done. congruence.
    + rewrite list_lookup_alter_ne, piece_lookup in Hx by done. rewrite list_lookup_alter_ne in Hy by lia. congruence.
  - assert (Hid : alter (fun x0 : V => v_sub x0 s_zero) (Z.to_nat 0) (piece k i r) = piece k i r).
    { apply list_alter_id. intros z. apply v_sub_zero. }
    rewrite Hid, piece_lookup in Hx by done. rewrite list_lookup_alter_ne in Hy by lia. congruence.
  - assert (Hid : alter (fun x0 : V => v_sub x0 s_zero) (Z.to_nat 0) (piece k i r) = piece k i r).
    { apply list_alter_id. intros z. apply v_sub_zero. }
    rewrite Hid, piece_lookup in Hx by done. rewrite list_lookup_alter_ne in Hy by lia. congruence.
  - lia.
Qed.
Lemma subtract_rows n k i R (P : list (list V)) target : i < n -> 0 < k -> mat R (n * k) P -> Forall (fun t => 0 <= t < Z.of_nat (n * k))%Z target ->
  zip_with (fun r p => subtract_at r (fst p) (snd p)) (piece k i <$> P) (zip (masked target i k) (softmax_update (map (out_of_range (i * k) (i * k + k)) target))) =
  (piece k i <$> zip_with (fun r t => subtract_at r t v_one) P target).
Proof.
  intros Hi Hk [_ HP] Ht. revert target Ht. induction HP as [|r P Hr HP IH]; intros [|t target] Ht; try done. apply Forall_cons in Ht as [Ht Hts].
  unfold masked, softmax_update in *. cbn. rewrite <- (IH target Hts). f_equal. by apply (subtract_piece n).
Qed.
Lemma columns_one R w (m : list (list V)) : mat R w m -> (piece w 0 <$> m) = m.
Proof. exact (take_rows R w m). Qed.

(** Without label smoothing the loss of every rank is the loss that one rank computes of the whole vocabulary, its probabilities are
    its columns of the whole ones, and its gradient is its columns of the whole gradient. (C16) *)
Theorem cross_entropy_correct ls n k R X target : v_positive ls = false -> 0 < n -> 0 < k -> mat R (n * k) X -> length target = R -> Forall (fun t => 0 <= t < Z.of_nat (n * k))%Z target ->
  exists loss saved out, cross_entropy_forward ls (n * k) target [X] = Ok [(loss, saved)] /\ cross_entropy_forward ls k target (hsplit k n X) = Ok out /\ length out = n /\
    forall i l s, out !! i = Some (l, s) -> l = loss /\ ce_softmax s = piece k i <$> ce_softmax saved /\
      forall g, length g = R -> cross_entropy_backward ls s g = piece k i <$> cross_entropy_backward ls saved g.
Proof.
  intros Hls Hn Hk HX Ht Hts. destruct (ce_shapes X R (n * k) HX) as (_ & _ & _ & _ & _ & HP). set (P := ce_probabilities X) in *.
  assert (Hrank : forall k' i, rank_result ls (n * k) k' X target i = Ok (ce_loss X target (n * k), mkCe (piece k' i <$> P) (map (out_of_range (i * k') (i * k' + k')) target) (masked target i k') k')).
  { intros k' i. unfold rank_result. by rewrite Hls. }
  assert (Hser : cross_entropy_forward ls (n * k) target [X] = Ok [(ce_loss X target (n * k), mkCe P (map (out_of_range 0 (n * k)) target) (masked target 0 (n * k)) (n * k))]).
  { pose proof (cross_entropy_forward_spec ls 1 (n * k) R X target) as H. rewrite Nat.mul_1_l in H. replace (hsplit (n * k) 1 X) with [X] in H by (cbn; by rewrite (columns_one R)).
    rewrite H by (done || nia). cbn [seq mapR]. rewrite Hrank. cbn. by rewrite (columns_one R). }
  exists (ce_loss X target (n * k)). eexists _, _. split; [exact Hser|]. split; [rewrite (cross_entropy_forward_spec ls n k R X target) by done; apply mapR_total; intros i _; apply (Hrank k i)|].
  split; [by rewrite length_map, length_seq|]. intros i l s Hi. change (map ?f (seq 0 n)) with (f <$> seq 0 n) in Hi. rewrite list_lookup_fmap in Hi.
  destruct (seq 0 n !! i) as [i'|] eqn:Ei; [|done]. apply lookup_seq in Ei as [-> Hin]. cbn in Hi. injection Hi as <- <-. split; [done|]. split; [done|]. intros g Hg.
  unfold cross_entropy_backward. rewrite Hls. cbn [ce_softmax ce_target_mask ce_masked_target]. change (0 + i) with i. rewrite (subtract_rows n k i R P target) by done.
  rewrite (columns_zip_map (fun x c => s_mul x c)). do 2 f_equal. pose proof (subtract_rows 1 (n * k) 0 R P target) as H. rewrite Nat.mul_1_l in H. cbn [Nat.mul Nat.add] in H.
  rewrite (columns_one R (n * k) P HP) in H. rewrite H by (done || nia). rewrite (columns_one R (n * k)); [done|]. destruct HP as [Hl Hf]. split; [rewrite length_zip_with; lia|].
  clear -Hf. revert target. induction Hf as [|r P Hr Hf IH]; intros [|t target]; cbn; constructor; [by rewrite length_subtract_at|apply IH].
Qed.

(** With label smoothing a rank smooths over its own part of the vocabulary: with the factor of the size of the part and the mean
    of the logarithms of the probabilities of the part. (C26) *)
Theorem label_smoothing_is_local ls n k R X target : v_positive ls = true -> v_below_one ls = true -> 0 < n -> 1 < k -> mat R (n * k) X -> length target = R ->
  let s := smoothing_factor ls k in
  exists out, cross_entropy_forward ls k target (hsplit k n X) = Ok out /\ length out = n /\
    forall i l sv, out !! i = Some (l, sv) ->
      l = zip_with (fun l0 r => v_sub (s_mul (v_sub v_one s) l0) (s_mul s (v_mean (map v_log r)))) (ce_loss X target (n * k)) (piece k i <$> ce_probabilities X).
Proof.
  intros H1 H2 Hn Hk HX Ht s. rewrite (cross_entropy_forward_spec ls n k R X target) by (done || lia).
  assert (Hk1 : (k =? 1) = false) by (apply Nat.eqb_neq; lia).
  eexists. split; [apply mapR_total; intros i _; unfold rank_result, smooth_loss; rewrite H1, H2, Hk1; done|]. split; [by rewrite length_map, length_seq|].
  intros i l sv Hi. change (map ?f (seq 0 n)) with (f <$> seq 0 n) in Hi. rewrite list_lookup_fmap in Hi.
  destruct (seq 0 n !! i) as [i'|] eqn:Ei; [|done]. apply lookup_seq in Ei as [-> Hin]. cbn in Hi. by injection Hi as <- <-.
Qed.
End Proofs.
