(* ===== verification/VocabReference.v ===== *)
(** * Embedding and cross entropy on concrete tensors

    The lookups on the concrete torch and a softmax of rationals; the theorems of the vocabulary on two ranks. *)

From Stdlib Require Import QArith Qcanon Lqa.
From S2P Require Import Prelude Matrix Torch TpMappings TpMappingsProofs TpMappingsTheorems TorchReference VocabParallel VocabParallelProofs CrossEntropy CrossEntropyProofs.

#[local] Open Scope nat_scope.

Section Reference.
Context {V : Type} `{!Scalar V}.
#[local] Existing Instance reference.

#[local] Instance reference_embedding : TorchEmbedding V := {|
  embedding ids w := mk (a_embedding ids (ref_val w));
  zero_rows mask t := (a_zero_rows mask (ref_val t), snd t);
  transpose01 t := (a_transpose01 (ref_val t), false)
|}.

Lemma a_embedding_wf ids (w : array V) n : wf ids -> wf w -> lead w = [n] -> ids_in ids n -> wf (a_embedding ids w).
Proof.
  intros Hids [Hl Hf] Hd Hin. split; cbn; [by rewrite length_map, length_positions|]. rewrite map_fmap. apply Forall_fmap. eapply Forall_impl; [exact Hin|].
  intros id Hid. cbn. rewrite Hd in Hl. cbn in Hl, Hid. destruct (lookup_lt_is_Some_2 (rows w) (Z.to_nat id) ltac:(lia)) as [r Er]. rewrite Er. rewrite Forall_lookup in Hf. exact (Hf _ _ Er).
Qed.
Lemma a_zero_rows_wf mask (a : array V) : wf mask -> wf a -> lead mask ++ [width mask] = lead a -> wf (a_zero_rows mask a).
Proof.
  intros Hm [Hl Hf] Hd. pose proof (length_positions mask Hm) as Hp. rewrite Hd in Hp. split; cbn [a_zero_rows rows lead width]; [rewrite length_zip_with, Hp, Hl; apply Nat.min_id|]. clear Hl Hp Hd. revert Hf. generalize (positions mask) as ms.
  generalize (rows a) as rs. induction rs as [|r rs IH]; intros [|m ms] Hf; cbn; try constructor.
  - apply Forall_cons in Hf as [Hr _]. destruct m; [apply length_replicate|done].
  - apply Forall_cons in Hf as [_ Hf]. by apply IH.
Qed.
Lemma a_transpose01_wf (a : array V) b s : wf a -> lead a = [b; s] -> wf (a_transpose01 a).
Proof.
  intros [Hl Hf] Hd. unfold a_transpose01. rewrite Hd in Hl |- *. cbn in Hl. assert (Hin : forall j, j < s -> Forall (fun r => length r = width a) (map (fun i => default [] (rows a !! (i * s + j))) (seq 0 b))).
  { intros j Hj. rewrite map_fmap. apply Forall_fmap, Forall_lookup. intros x i [-> Hi]%lookup_seq. cbn.
    destruct (lookup_lt_is_Some_2 (rows a) (x * s + j) ltac:(nia)) as [r Er]. rewrite Er. rewrite Forall_lookup in Hf. exact (Hf _ _ Er). }
  split; cbn.
  - rewrite (length_concat_same b); [rewrite length_map, length_seq; lia|]. rewrite map_fmap. apply Forall_fmap, Forall_true. intros j. cbn. by rewrite length_map, length_seq.
  - apply Forall_concat. rewrite map_fmap. apply Forall_fmap, Forall_lookup. intros x j [-> Hj]%lookup_seq. by apply Hin.
Qed.
Lemma reference_embedding_laws : TorchEmbeddingLaws V.
Proof.
  split; cbn [val tensor reference is_contiguous embedding zero_rows transpose01 reference_embedding].
  - intros ids w n Hids Hd Hin. apply ref_val_ok. by apply (a_embedding_wf ids _ n); [|apply ref_val_wf|..].
  - done.
  - intros mask t Hm Hd. apply ref_val_ok. apply a_zero_rows_wf; [done|apply ref_val_wf|done].
  - done.
  - intros t b s Hd. apply ref_val_ok. apply (a_transpose01_wf _ b s); [apply ref_val_wf|done].
Qed.
End Reference.

(* ================================================================== *)
(** ** The embedding on two ranks                                      *)
(* ================================================================== *)

Module Example_.
#[local] Existing Instances Z_scalar Z_scalar_laws reference reference_embedding reference_embedding_laws.
#[local] Instance Z_push_pull : BytepsSum Z := all_reduce.

(** Six words of two features, three on each rank; two sequences of two ids *)
Definition words : array Z := Array [6] 2 [[1;2];[3;4];[5;6];[7;8];[9;10];[11;12]]%Z.
Definition shards : list (vocab_embedding * tensor) := [(mkEmbedding 0 3 3 false, (slices 3 0 words, true)); (mkEmbedding 3 6 3 false, (slices 3 1 words, true))].
Definition tokens : array Z := Array [2] 2 [[5;0];[2;3]]%Z.
Definition bad_tokens : array Z := Array [2] 2 [[5;6];[-1;3]]%Z.
Lemma words_wf : wf words.
Proof. by apply wfb_spec. Qed.
Lemma tokens_wf : wf tokens /\ wf bad_tokens.
Proof. by split; repeat constructor. Qed.
Lemma shards_ranks : embedding_ranks 2 3 false words shards.
Proof. split; [done|]. intros [|[|i]] e w; cbn; [by intros [= <- <-]..|done]. Qed.

Lemma vocab_embedding_correct_witness :
  computes (vocab_embedding_forward false shards tokens) (replicate 2 (Array [2;2] 2 [[11;12];[1;2];[5;6];[7;8]]%Z)) /\
  computes (vocab_embedding_forward true shards tokens) [Array [1;2] 2 [[11;12];[5;6]]%Z; Array [1;2] 2 [[1;2];[7;8]]%Z].
Proof.
  destruct (vocab_embedding_correct 2 3 false words shards tokens) as [H1 H2]; [lia|lia|exact words_wf|done|apply tokens_wf| |exact shards_ranks|].
  - unfold ids_in. cbn. repeat (constructor; [lia|]). constructor.
  - split; [exact H1|exact (H2 2 1 eq_refl eq_refl)].
Defined.

Lemma out_of_vocabulary_is_zero_witness : computes (vocab_embedding_forward false shards bad_tokens) (replicate 2 (Array [2;2] 2 [[11;12];[0;0];[0;0];[7;8]]%Z)).
Proof.
  destruct (out_of_vocabulary_is_zero 2 3 false words shards bad_tokens) as [H _]; [lia|lia|exact words_wf|done|apply tokens_wf|exact shards_ranks|exact H].
Defined.

(** Two blocks of four rows: a rank has two rows of each. *)
Definition blocks : array Z := Array [8] 1 [[0];[1];[2];[3];[10];[11];[12];[13]]%Z.
Definition master : tensor := (blocks, true).
Lemma strided_shards_witness : exists w, initialize_affine_weight_cpu master 4 true 2 1 2 = Ok w /\
  slices 2 0 (val w) = Array [2] 1 [[2];[3]]%Z /\ slices 2 1 (val w) = Array [2] 1 [[12];[13]]%Z.
Proof.
  destruct (strided_shards 2 2 2 1 [] master) as (w & H & _ & Hj); [lia|lia|lia|lia|done|]. exists w. split; [exact H|].
  split; [exact (Hj 0 ltac:(lia))|exact (Hj 1 ltac:(lia))].
Defined.
End Example_.

(* ================================================================== *)
(** ** A softmax of rationals                                          *)
(* ================================================================== *)

Module Softmax_.
#[local] Open Scope Qc_scope.

#[local] Instance Qc_scalar : Scalar Qc := {| s_zero := 0; s_add := Qcplus; s_mul := Qcmult |}.
#[local] Instance Qc_scalar_laws : ScalarLaws Qc.
Proof. split; intros; cbn; ring. Qed.

Definition Qc_max (x y : Qc) : Qc := if Qle_bool x y then y else x.
Lemma Qc_max_assoc x y z : Qc_max x (Qc_max y z) = Qc_max (Qc_max x y) z.
Proof.
  unfold Qc_max. destruct (Qle_bool y z) eqn:H1, (Qle_bool x y) eqn:H2, (Qle_bool x z) eqn:H3; rewrite ?H1, ?H2, ?H3; try done; exfalso.
  - apply Qle_bool_iff in H1, H2. rewrite (proj2 (Qle_bool_iff x z)) in H3; [done|lra].
  - destruct (Qlt_le_dec z y) as [H|H%Qle_bool_iff]; [|congruence]. destruct (Qlt_le_dec y x) as [H'|H'%Qle_bool_iff]; [|congruence]. apply Qle_bool_iff in H3. lra.
Qed.
Definition of_nat (n : nat) : Qc := Q2Qc (inject_Z (Z.of_nat n)).
Definition total (l : list Qc) : Qc := foldr Qcplus 0 l.
Definition on_columns (f : Qc -> Qc -> Qc) (l : list (list Qc)) : list Qc := fold1 (zip_with f) [] l.

(** [1 / (1 - x)] and [1 - 1 / x] stand in for the exponential and its inverse. *)
#[local] Instance Qc_softmax : SoftmaxOps Qc := {|
  to_float x := x;
  v_one := 1;
  v_sub := Qcminus;
  v_div := Qcdiv;
  v_max := Qc_max;
  v_exp x := 1 / (1 - x);
  v_log x := 1 - 1 / x;
  v_positive x := negb (Qle_bool x 0);
  v_below_one x := negb (Qle_bool 1 x);
  smoothing_factor ls v := ls * of_nat v / (of_nat v - 1);
  average_grad v := 1 / of_nat v;
  v_mean l := total l / of_nat (length l);
  all_reduce_max := on_columns Qc_max;
  all_reduce_sum := on_columns Qcplus
|}.
#[local] Instance Qc_softmax_laws : SoftmaxLaws Qc.
Proof. split; [exact Qc_max_assoc|intros x; cbn; ring|done..]. Qed.

(** Two rows of logits for a vocabulary of six on two ranks *)
Definition logits : list (list Qc) := map (map (fun z => Q2Qc (inject_Z z))) [[3;1;2;0;5;4]; [1;1;0;2;0;3]]%Z.
Definition targets : list Z := [4; 1]%Z.

Lemma cross_entropy_correct_witness : exists loss saved out,
  cross_entropy_forward 0 6 targets [logits] = Ok [(loss, saved)] /\ cross_entropy_forward 0 3 targets (hsplit 3 2 logits) = Ok out /\ fst <$> out = [loss; loss].
Proof.
  destruct (cross_entropy_correct 0 2 3 2 logits targets) as (loss & saved & out & H1 & H2 & Hl & H); [done|lia|lia| |done| |].
  - split; [done|]. repeat constructor.
  - unfold targets. repeat (constructor; [lia|]). constructor.
  - exists loss, saved, out. split; [exact H1|]. split; [exact H2|]. destruct out as [|[l0 s0] [|[l1 s1] [|? ?]]]; try done.
    destruct (H 0%nat l0 s0 eq_refl) as [-> _]. by destruct (H 1%nat l1 s1 eq_refl) as [-> _].
Defined.

(** With label smoothing the two ranks return different losses. *)
Lemma label_smoothing_is_local_witness : exists out l0 s0 l1 s1, cross_entropy_forward (Q2Qc (1 # 10)) 3 targets (hsplit 3 2 logits) = Ok out /\ out !! 0%nat = Some (l0, s0) /\ out !! 1%nat = Some (l1, s1) /\ l0 <> l1.
Proof.
  destruct (label_smoothing_is_local (Q2Qc (1 # 10)) 2 3 2 logits targets) as (out & H1 & Hl & H); [done|done|lia|lia| |done|].
  - split; [done|]. repeat constructor.
  - destruct out as [|[l0 s0] [|[l1 s1] [|? ?]]]; try done. exists [(l0, s0); (l1, s1)], l0, s0, l1, s1. split; [exact H1|]. split; [done|]. split; [done|].
    rewrite (H 0%nat l0 s0 eq_refl), (H 1%nat l1 s1 eq_refl). intros E. apply (f_equal (map this)) in E. revert E. by vm_compute.
Defined.
End Softmax_.
